(* ===== verification/_CoqProject ===== *)
-Q . S2P
Prelude.v
Pfndb.v
Pmm.v
Paging.v
PagingRel.v
PagingProps.v
HeapIface.v
Heap.v
HeapRep.v
HeapProps.v
Vmm.v
VadProps.v
VmmProps.v
VmmExamples.v
CString.v
CStringProps.v
Pipe.v
PipeProps.v
Wire.v
WireProps.v
NetState.v
Net.v
Tcp.v
Dns.v
Dhcp.v
NetProps.v
TcpRing.v
TcpProps.v
TcpWire.v
TcpSpecs.v
TcpExamples.v
Socket.v
SocketProps.v
SocketExamples.v
DnsProps.v
Http.v
DhcpProps.v
AppsExamples.v
Cpio.v
CpioProps.v
VfsBase.v
Tmpfs.v
TmpfsProps.v
TmpfsExamples.v
Vfs.v
VfsProps.v
Initrd.v
VfsExamples.v
SchedState.v
Sched.v
SchedRunq.v
SchedProps.v
SchedSignal.v
SchedSignalProps.v
SchedInv.v
SchedExit.v
SchedExamples.v
Elf.v
ElfUser.v
ElfProps.v
ElfStack.v
ElfExamples.v
Block.v
BlockProps.v
BlockTables.v
BlockExamples.v
Ext2.v
Ext2File.v
Ext2Dir.v
Ext2Alloc.v
Ext2Tree.v
Ext2View.v
Ext2Write.v
Ext2Props.v
Ext2Disk.v
Ext2Examples.v
Ext2Session.v
AsyncIo.v
AsyncProps.v
AsyncExamples.v
