(* ===== verification/Prelude.v ===== *)
(** * A verification development of the lyr kernel

    lyr is a small unix-like kernel written in C.  This library models the parts of it
    that carry its own logic and proves what makes them correct.  The definitions are
    executable functions, translated function by function from kernel/src; they keep
    the names of the C functions.

    ** The program's parts

    - Memory: pfndb.c keeps one [struct page] per page frame, pmm.c hands frames out and
      counts references, paging.c keeps four-level page tables in frames it takes from
      pmm.c, heap.c cuts frames into objects and maps large ones with paging.c, and
      vmm.c keeps the mapped ranges of a process, on the heap, in step with its page
      table.
    - Strings: string.c, the memory and string primitives everything uses.
    - Files: vfs.c resolves paths, checks permissions and keeps open files and mounts over
      the operations of file systems; tmpfs.c keeps files in page frames of pmm.c and
      directories on the heap; pipe.c keeps a shared buffer behind two open files;
      initrd.c unpacks the boot module with cpio.c into a tmpfs root.
    - Network: netdev.c keeps the devices, their receive queues and the routes; proto/
      holds ARP, IPv4, ICMP, UDP and TCP, which build frames for a device and take apart
      the frames netdev.c hands them; socket.c gives programs endpoints over them; dns.c,
      dhcp.c and http.c find addresses, configure a device and fetch pages.
    - Processes: sched.c keeps processes and threads with their identities, files and
      signals, a run queue per processor, and decides at every timer interrupt which
      thread runs; it opens files with vfs.c and takes address spaces from vmm.c.

    ** How the code is modelled

    Machine integers are [Z] with the wrap-around written out ([u64], [u32], [u16], [u8]);
    bit operations are those of [Z].  Code with effects is in the monad [M S] of this
    file: a state [S] goes in, and a result with a new state, a panic, a fault (an access
    the hardware or the C language forbids) or [Diverge] (the bound of a loop is used up)
    comes out.  [wp m s Q] says that [m] returns from [s] and that [Q] holds then, so a
    theorem stated with [wp] or with [= Ret _ _] also says that the code does not panic,
    fault or run out of its bound.

    ** Files

    - [Prelude]: machine integers, the monad, its rules, the tactics.
    - [Pfndb] (mm/pfndb.c, mm/page.h): the state of the memory manager [mm] and the frame
      database.  A range of frames the boot loader reports as usable is free afterwards,
      the database's own frames excepted.
    - [Pmm] (mm/pmm.c): frames in use are a finite map, free ones a stack; the allocator
      with its intrusive list refines that.  Booting establishes the invariant, misuse
      panics.
    - [Paging], [PagingRel], [PagingProps] (mm/paging.c): page tables as finite maps from
      virtual pages to entries, next to the slots of the root that the boot loader filled
      and that every address space shares; mapping, unmapping, lookup, creation, isolation
      of two address spaces.
    - [HeapIface], [Heap], [HeapRep], [HeapProps] (mm/heap.c): the interface the heap's
      clients rely on and the proof that heap.c implements it: objects of slabs and large
      objects do not overlap, freeing gives back.  Freeing looks for a magic number in front
      of the object, so it is proved for a memory in which no object holds that number
      there; allocation needs no such assumption.
    - [Vmm], [VadProps], [VmmProps], [VmmExamples] (mm/vmm.c): the list of ranges stays
      sorted and disjoint; queries are exact; mapping and unmapping act on the ranges and
      on the page table together, proved against the heap's interface.
    - [CString], [CStringProps] (lib/string.c): the word-wise block routines equal their
      byte-wise reference, also for overlapping buffers; the string routines.
    - [Pipe], [PipeProps] (fs/pipe.c, the reference counts of fs/vfs.c): a pipe is a byte
      stream as long as no more than its initial capacity passes through it; past that
      it overflows.
    - [Wire], [WireProps] (net/stack.h and the frame builders): byte order, checksums,
      frames.  The IPv4, ICMP and TCP checksums of the frames the kernel builds are valid by
      RFC 1071.
    - [Net], [NetProps] (net/core/netdev.c, net/proto/): routes, the ARP cache, receive
      queues, protocol dispatch; a datagram sent to an own address is delivered unchanged.
    - [Cpio], [CpioProps] (fs/cpio.c): the archive reader never leaves the archive, and does
      to the file system what creating the written entries does.
    - [VfsBase], [Tmpfs], [TmpfsProps], [TmpfsExamples] (fs/tmpfs.c and the nodes of
      fs/vfs.c): the files of tmpfs are independent byte sequences up to two megabytes;
      what happens past that and when page frames run out.
    - [Vfs], [VfsProps], [VfsExamples] (fs/vfs.c): permissions, path resolution as a walk
      with balanced reference counts, open files, names, links.
    - [Initrd] (fs/initrd.c, fs/mount.c): the boot module, and the archive reader's
      interface implemented by vfs.c on tmpfs.
    - [NetState], [Tcp], [TcpRing], [TcpProps] (net/proto/tcp.c): connections with their
      receive ring, the receive state machine, connecting, sending, receiving, closing.
      Whatever segments arrive in whatever order, an established connection behaves as a
      queue of bytes, and what is read is a prefix of what the peer sent.
    - [TcpWire], [TcpSpecs], [TcpExamples] (the same file): windows and options stay in
      bounds, the table of listeners has no conflicts, a handshake opens a connection, a
      send cuts its data into segments; a segment a machine seems to have sent itself is
      answered without end, and other runs that go wrong.
    - [Socket], [SocketProps], [SocketExamples] (net/socket/socket.c): ephemeral ports,
      datagrams from one socket to another through the whole stack, names, local sockets,
      listening sockets that are closed.
    - [Dns], [DnsProps] (net/proto/dns.c): address literals round-trip, the scan of
      /etc/hosts equals its reference, names are encoded exactly when their labels fit,
      no answer makes the receiver leave the message, and the answer taken is the first
      address record.
    - [Dhcp], [Http], [DhcpProps], [AppsExamples] (net/proto/dhcp.c, net/proto/http.c):
      replies are parsed in bounds and taken as a whole; runs of whole conversations.
    - [SchedState], [Sched], [SchedSignal] (sched/sched.c, sched/sched.h): the state and
      every operation of the scheduler.
    - [SchedRunq]: the linked run queue is a list, the timer implements round robin with
      the frame of each preempted thread, and no waiting thread starves.
    - [SchedProps]: numbers of processes and threads, identities that only drop, load
      averages.  [SchedSignalProps]: delivering a signal and returning from its handler.
      [SchedInv]: what holds in every reachable state.  [SchedExit]: exit and wait.
      [SchedExamples]: a small machine on which the theorems are applied.
    - [Elf], [ElfUser] (lib/elf.c): relocatable drivers, user programs and their first
      stack.  [ElfProps]: no file makes the loader of images leave the file, a loaded
      segment begins with what the file holds.  [ElfStack]: the arguments, the
      environment and the auxiliary vector are where the ABI has them.  [ElfExamples]: a
      memory that implements the interface, and programs loaded into it.
    - [Block] (dev/block.c): block devices, partitions, access by byte.  [BlockProps]:
      devices and partitions are arrays of bytes.  [BlockTables]: no partition table makes a
      partition that leaves its disk.  [BlockExamples]: a disk in memory.
    - [Ext2], [Ext2File], [Ext2Dir] (fs/ext2.c): blocks and inodes, the block map and files,
      directories and mounting.  [Ext2Alloc]: the allocator hands out free blocks.
      [Ext2Tree]: the block map is a tree that grows.  [Ext2View], [Ext2Write], [Ext2Props]:
      files are independent arrays of bytes.  [Ext2Disk]: the block layer keeps the laws ext2
      relies on.  [Ext2Examples], [Ext2Session]: files and directories on a partition.
    - [AsyncIo] (dev/async.c): queued access to ports and device memory.  [AsyncProps]: the
      hardware sees the accesses of the requests once and in order, whatever the hooks of
      the drivers do.  [AsyncExamples]: a small machine.

    ** Interfaces

    A component reaches another through a class: [KHeap] with its laws [HeapAlloc] (what
    allocation promises) and [HeapSpec] (what freeing promises) for the heap, [VnodeOps] for
    the file behind a mapping, [CpioVfs] for the file system calls of
    the archive reader, [vfs_ops] for a file system, [HostsVfs] for the file name resolution
    reads, [SchedEnv] for what the scheduler asks of files, address spaces and page frames,
    [ElfEnv] with its laws [ElfLaws] for the address space a program is loaded into,
    [BlockEnv] with [BlockLaws] for the drivers of disks, [Ext2Env] with [Ext2Laws] for the
    block devices under a file system, which [Ext2Disk] derives from the block layer,
    [AsyncEnv] with [AsyncLaws] for the hardware behind the request queue.
    Theorems about a client hold for every instance that satisfies
    the laws; [HeapProps] proves the laws of the heap's interface for heap.c.  Memory runs
    out by a panic in this kernel: the laws of the address space in [ElfLaws] say of every
    call how many page frames it may take, and allow the panic when there are fewer.

    ** Bounds

    A loop whose recursion is not structural takes a bound: the number of frames for the
    lists that run through the frame database or through slabs, the length of the string
    or of the archive for loops over bytes, the number of threads for the run queue.
    The theorems show that these bounds are enough; a bound that were not would show as
    [Diverge].  The rounds of a flush of the request queue are a parameter, since hooks that
    always report work keep it from ending.

    ** Not modelled

    Spin locks and interrupt masking: every operation that runs under a lock is one step.
    Logging has no effect on the modelled state.  Saving and loading registers at a context
    switch, descriptor tables, interrupt controllers, ports and memory-mapped devices are
    assembly or hardware registers, the terminal draws, and the generated font is data.
    The system call layer, procfs and devfs, the loadable drivers and the user
    programs are not modelled so far; the manifest lists them. *)

From stdpp Require Import gmap list strings.
From Stdlib Require Import ZArith Lia Btauto.

#[global] Set Default Goal Selector "!".
Local Open Scope Z_scope.

(* ------------------------------------------------------------------ *)
(** ** Machine integers *)

Definition u64 (x : Z) : Z := x `mod` 2 ^ 64.
Definition u32 (x : Z) : Z := x `mod` 2 ^ 32.
Definition u8 (x : Z) : Z := x `mod` 2 ^ 8.

(** C's "nonzero means true" test of [x & m]. *)
Definition has (x m : Z) : bool := negb (Z.land x m =? 0).

(** [x & ~m] *)
Definition clr (x m : Z) : Z := Z.ldiff x m.

Definition PAGE_SIZE : Z := 4096.

(** <lib/align.h>: the three macros, in [uint64_t] arithmetic. *)
Definition DIV_ROUND_UP (x y : Z) : Z := u64 (u64 x + (u64 y - 1)) / u64 y.
Definition ALIGN_UP (x y : Z) : Z := u64 (DIV_ROUND_UP x y * u64 y).
Definition ALIGN_DOWN (x y : Z) : Z := u64 (u64 x / u64 y * u64 y).

(** Rounds of [for (v = lo; v < hi; v += PAGE_SIZE)]; every such loop of the
    kernel has page-aligned bounds, so [v] does not wrap. *)
Definition pages_between (lo hi : Z) : nat := Z.to_nat ((hi - lo + (PAGE_SIZE - 1)) / PAGE_SIZE).

(* ------------------------------------------------------------------ *)
(** ** Outcomes and the kernel's state monad

    [Ret a s]: the call returns [a] and leaves the state [s].
    [Panic]: [kpanic] or a failed [assert] stopped the machine.
    [Fault]: a NULL or out-of-range pointer was dereferenced.
    [Diverge]: the loop bound given to a definition was used up; every
    theorem that says a call returns rules it out. *)

Inductive outcome (S A : Type) : Type :=
| Ret (a : A) (s : S)
| Panic
| Fault
| Diverge.
Arguments Ret {S A} a s.
Arguments Panic {S A}.
Arguments Fault {S A}.
Arguments Diverge {S A}.

Definition M (S A : Type) : Type := S -> outcome S A.

Definition ret {S A} (a : A) : M S A := fun s => Ret a s.
Definition bind {S A B} (m : M S A) (k : A -> M S B) : M S B :=
  fun s => match m s with
           | Ret a s' => k a s'
           | Panic => Panic
           | Fault => Fault
           | Diverge => Diverge
           end.
Definition kpanic {S A} : M S A := fun _ => Panic.
Definition fault {S A} : M S A := fun _ => Fault.
Definition diverge {S A} : M S A := fun _ => Diverge.
Definition assert {S} (b : bool) : M S unit := if b then ret tt else kpanic.
Definition gets {S A} (f : S -> A) : M S A := fun s => Ret (f s) s.
Definition modify {S} (f : S -> S) : M S unit := fun s => Ret tt (f s).
Definition when {S} (b : bool) (m : M S unit) : M S unit := if b then m else ret tt.

Declare Scope kern_scope.
Delimit Scope kern_scope with kern.
Notation "'let*' x ':=' m 'in' k" := (bind m (fun x => k))
  (at level 10, x pattern, m at level 100, k at level 200)
  : kern_scope.
Notation "m ';;;' k" := (bind m (fun _ => k))
  (at level 199, right associativity) : kern_scope.
Open Scope kern_scope.

(** [for (i = start; n more times; i++) f(i)] *)
Fixpoint mfor {S} (n : nat) (i : Z) (f : Z -> M S unit) : M S unit :=
  match n with
  | O => ret tt
  | Datatypes.S n' => f i ;;; mfor n' (i + 1) f
  end.

(** The state a returning call leaves, for concrete runs. *)
Definition final {S A} (m : M S A) (s : S) : S :=
  match m s with Ret _ s' => s' | _ => s end.

(* ------------------------------------------------------------------ *)
(** ** Weakest preconditions (total: no panic, no fault, no divergence) *)

Definition wp {S A} (m : M S A) (s : S) (Q : A -> S -> Prop) : Prop :=
  match m s with Ret a s' => Q a s' | _ => False end.

Section wp_rules.
Context {S : Type}.

Lemma wp_ret {A} (a : A) (s : S) Q : Q a s -> wp (ret a) s Q.
Proof. done. Qed.

Lemma wp_bind {A B} (m : M S A) (k : A -> M S B) s Q :
  wp m s (fun a s' => wp (k a) s' Q) -> wp (bind m k) s Q.
Proof. unfold wp, bind. by destruct (m s). Qed.

Lemma wp_mono {A} (m : M S A) s (Q Q' : A -> S -> Prop) :
  wp m s Q -> (forall a s', Q a s' -> Q' a s') -> wp m s Q'.
Proof. unfold wp. destruct (m s); naive_solver. Qed.

Lemma wp_gets {A} (f : S -> A) s Q : Q (f s) s -> wp (gets f) s Q.
Proof. done. Qed.

Lemma wp_modify (f : S -> S) s (Q : unit -> S -> Prop) :
  Q tt (f s) -> wp (modify f) s Q.
Proof. done. Qed.

Lemma wp_assert b (s : S) (Q : unit -> S -> Prop) :
  b = true -> Q tt s -> wp (assert b) s Q.
Proof. intros ->. done. Qed.

Lemma wp_when_true b (m : M S unit) s Q : b = true -> wp m s Q -> wp (when b m) s Q.
Proof. intros ->. done. Qed.

Lemma wp_when_false b (m : M S unit) s (Q : unit -> S -> Prop) :
  b = false -> Q tt s -> wp (when b m) s Q.
Proof. intros ->. done. Qed.

Lemma wp_inv {A} (m : M S A) s Q :
  wp m s Q -> exists a s', m s = Ret a s' /\ Q a s'.
Proof. unfold wp. destruct (m s); naive_solver. Qed.

Lemma wp_final {A} (m : M S A) s Q : wp m s Q -> exists a, Q a (final m s).
Proof. unfold wp, final. destruct (m s); naive_solver. Qed.

Lemma wp_intro {A} (m : M S A) s a s' (Q : A -> S -> Prop) :
  m s = Ret a s' -> Q a s' -> wp m s Q.
Proof. unfold wp. by intros ->. Qed.

Lemma wp_eq {A} (m m' : M S A) s Q : m s = m' s -> wp m' s Q -> wp m s Q.
Proof. unfold wp. by intros ->. Qed.

Lemma bind_ret {A B} (m : M S A) (k : A -> M S B) s a s' :
  m s = Ret a s' -> bind m k s = k a s'.
Proof. unfold bind. by intros ->. Qed.

Lemma bind_assoc {A B C} (m : M S A) (f : A -> M S B) (g : B -> M S C) s :
  bind (bind m f) g s = bind m (fun a => bind (f a) g) s.
Proof. unfold bind. by destruct (m s). Qed.

Lemma wp_mfor (Inv : Z -> S -> Prop) (f : Z -> M S unit) n i s :
  Inv i s ->
  (forall j s', i <= j < i + Z.of_nat n -> Inv j s' ->
     wp (f j) s' (fun _ s'' => Inv (j + 1) s'')) ->
  wp (mfor n i f) s (fun _ s' => Inv (i + Z.of_nat n) s').
Proof.
  revert i s. induction n as [|n IH]; intros i s Hi Hf.
  - apply wp_ret. by rewrite Z.add_0_r.
  - apply wp_bind. eapply wp_mono; [apply Hf; [lia|done]|].
    intros ? s' Hs'. simpl.
    replace (i + Z.of_nat (Datatypes.S n)) with ((i + 1) + Z.of_nat n) by lia.
    apply IH; [done|]. intros j s'' Hj. apply Hf. lia.
Qed.
End wp_rules.

(* ------------------------------------------------------------------ *)
(** ** Relations every returning run keeps *)

Definition pres {S A} (R : S -> S -> Prop) (m : M S A) : Prop :=
  forall s a s', m s = Ret a s' -> R s s'.

Section pres_rules.
Context {S : Type} (R : S -> S -> Prop) `{!Reflexive R} `{!Transitive R}.

Lemma pres_ret {A} (a : A) : pres R (ret a).
Proof. by intros s b s' [= _ <-]. Qed.
Lemma pres_gets {A} (f : S -> A) : pres R (gets f).
Proof. by intros s b s' [= _ <-]. Qed.
Lemma pres_kpanic {A} : pres R (@kpanic S A).
Proof. by intros s b s'. Qed.
Lemma pres_assert b : pres R (assert b).
Proof. destruct b; [apply pres_ret|apply pres_kpanic]. Qed.
Lemma pres_modify f : (forall s, R s (f s)) -> pres R (modify f).
Proof. intros Hf s a s' [= _ <-]. apply Hf. Qed.
Lemma pres_bind {A B} (m : M S A) (k : A -> M S B) :
  pres R m -> (forall a, pres R (k a)) -> pres R (bind m k).
Proof.
  intros Hm Hk s b s'. unfold bind. destruct (m s) as [a s1| | |] eqn:E; try done.
  intros H. etrans; [by eapply Hm|by eapply Hk].
Qed.
Lemma pres_when b m : pres R m -> pres R (when b m).
Proof. destruct b; [done|]. intros _. apply pres_ret. Qed.
Lemma pres_mfor n i (f : Z -> M S unit) : (forall j, pres R (f j)) -> pres R (mfor n i f).
Proof.
  intros Hf. revert i. induction n; intros i; [apply pres_ret|]. by apply pres_bind.
Qed.
Lemma wp_pres {A} (m : M S A) s Q :
  wp m s Q -> pres R m -> wp m s (fun a s' => Q a s' /\ R s s').
Proof. unfold wp, pres. intros H Hp. destruct (m s) eqn:E; try done. split; [done|]. by eapply Hp. Qed.
End pres_rules.

(** Walk through a program; leaves the primitive writes. *)
Ltac pres_go :=
  repeat (cbn beta; lazymatch goal with
    | |- pres _ (ret _) => apply pres_ret; typeclasses eauto
    | |- pres _ (gets _) => apply pres_gets; typeclasses eauto
    | |- pres _ kpanic => apply pres_kpanic
    | |- pres _ (assert _) => apply pres_assert; typeclasses eauto
    | |- pres _ (when _ _) => apply pres_when; [typeclasses eauto|]
    | |- pres _ (mfor _ _ _) => apply pres_mfor; [typeclasses eauto|typeclasses eauto|intros ?]
    | |- pres _ (bind _ _) => apply pres_bind; [typeclasses eauto| |intros ?]
    | |- pres _ (match ?x with _ => _ end) => destruct x eqn:?
    end).

(* ------------------------------------------------------------------ *)
(** ** Integer and bit lemmas *)

(** Linear arithmetic with divisions and remainders by constants. *)
Ltac zdiv := Z.to_euclidean_division_equations; lia.

(** Comparisons that were decided, as propositions. *)
Ltac bools :=
  repeat match goal with
  | H : (_ <=? _) = true |- _ => apply Z.leb_le in H
  | H : (_ <=? _) = false |- _ => apply Z.leb_gt in H
  | H : (_ <? _) = true |- _ => apply Z.ltb_lt in H
  | H : (_ <? _) = false |- _ => apply Z.ltb_ge in H
  | H : (_ =? _) = true |- _ => apply Z.eqb_eq in H
  | H : (_ =? _) = false |- _ => apply Z.eqb_neq in H
  | H : (_ >? _) = _ |- _ => rewrite Z.gtb_ltb in H
  | H : (_ >=? _) = _ |- _ => rewrite Z.geb_leb in H
  | H : _ && _ = true |- _ => apply andb_true_iff in H as [? ?]
  | H : _ || _ = false |- _ => apply orb_false_iff in H as [? ?]
  | H : negb _ = true |- _ => apply negb_true_iff in H
  | H : negb _ = false |- _ => apply negb_false_iff in H
  end.
Ltac blia := bools; lia.

Lemma u64_small x : 0 <= x < 2 ^ 64 -> u64 x = x.
Proof. apply Z.mod_small. Qed.
Lemma u32_small x : 0 <= x < 2 ^ 32 -> u32 x = x.
Proof. apply Z.mod_small. Qed.
Lemma u64_range x : 0 <= u64 x < 2 ^ 64.
Proof. by apply Z.mod_pos_bound. Qed.

Lemma has_0_l m : has 0 m = false.
Proof. done. Qed.

Lemma has_bit x k : 0 <= k -> has x (2 ^ k) = Z.testbit x k.
Proof.
  intros Hk. unfold has. destruct (Z.testbit x k) eqn:E.
  - apply negb_true_iff, Z.eqb_neq. intros H.
    apply (f_equal (fun z => Z.testbit z k)) in H.
    rewrite Z.land_spec, E, Z.pow2_bits_true, Z.bits_0 in H by done. done.
  - apply negb_false_iff, Z.eqb_eq. apply Z.bits_inj'. intros n Hn.
    rewrite Z.land_spec, Z.bits_0.
    destruct (decide (n = k)) as [->|Hne]; [by rewrite E|].
    rewrite Z.pow2_bits_false by done. apply andb_false_r.
Qed.

Lemma testbit_high x n i : 0 <= x < 2 ^ n -> n <= i -> Z.testbit x i = false.
Proof.
  intros Hx Hi. destruct (decide (x = 0)) as [->|Hne]; [apply Z.bits_0|].
  apply Z.bits_above_log2; [lia|]. apply Z.log2_lt_pow2; [lia|].
  eapply Z.lt_le_trans; [apply Hx|]. apply Z.pow_le_mono_r; lia.
Qed.

Lemma testbit_mul_pow2_low x n i : 0 <= i < n -> Z.testbit (x * 2 ^ n) i = false.
Proof. intros Hi. apply Z.mul_pow2_bits_low. lia. Qed.

Lemma ALIGN_DOWN_page x : 0 <= x < 2 ^ 64 -> ALIGN_DOWN x PAGE_SIZE = x / 4096 * 4096.
Proof.
  intros Hx. unfold ALIGN_DOWN, PAGE_SIZE. rewrite (u64_small x), (u64_small 4096) by lia.
  apply u64_small. zdiv.
Qed.

Lemma ALIGN_UP_page x :
  0 <= x <= 2 ^ 64 - 4096 -> ALIGN_UP x PAGE_SIZE = (x + 4095) / 4096 * 4096.
Proof.
  intros Hx. unfold ALIGN_UP, DIV_ROUND_UP, PAGE_SIZE.
  rewrite (u64_small x), (u64_small 4096) by lia.
  rewrite (u64_small (x + (4096 - 1))) by lia.
  replace (x + (4096 - 1)) with (x + 4095) by lia.
  apply u64_small. zdiv.
Qed.

(* ------------------------------------------------------------------ *)
(** ** Automation *)

Create HintDb kern.
#[export] Hint Resolve wp_ret wp_gets wp_modify : kern.

(** Open the next step of a [wp] goal. *)
Ltac wp_go :=
  repeat first
    [ apply wp_bind
    | apply wp_ret
    | apply wp_gets
    | apply wp_modify ]; cbn beta.

(** Run the head of a bind through a lemma that gives its result as an equation. *)
Ltac wp_run H :=
  apply wp_bind; eapply wp_intro; [eapply H; eauto | cbn beta].
