(* ===== verification/Pfndb.v ===== *)
(** * The page-frame database (kernel/src/mm/pfndb.c, kernel/include/mm/page.h)

    The data of the memory manager: [page] is [struct page], [mm] holds the
    static variables of pfndb.c, pmm.c and paging.c and the contents of
    physical memory.  A [page_t *] is [None] (NULL) or [Some i], the address
    [&mem_map[i]]; an index outside the array is a pointer outside it. *)

From stdpp Require Import gmap list.
From Stdlib Require Import ZArith Lia.
From S2P Require Import Prelude.

Local Open Scope Z_scope.

(** ** Data *)

Definition PAGE_FREE : Z := 1.
Definition PAGE_USED : Z := 2.
Definition PAGE_RESERVED : Z := 4.
Definition PAGE_SHARED : Z := 8.
Definition PAGE_COW : Z := 16.
Definition PAGE_POISON : Z := 32.

(** [u2] is the union of [prev] and [sharecount]: one 64-bit word. *)
Record page := mkPage {
  p_next : option Z;
  p_u2 : Z;
  p_flags : Z;
  p_refcount : Z;
}.

Definition sizeof_page : Z := 64.

#[export] Instance page_eq_dec : EqDecision page.
Proof. solve_decision. Defined.

Record mmio_region := mkMmio { r_virt : Z; r_phys : Z; r_npages : Z }.

(** [cache_t] of heap.c: heads of the slab lists (addresses, 0 is NULL). *)
Record cache := mkCache { c_partial : Z; c_full : Z; c_obj_size : Z }.

Record mm := mkMm {
  hhdm : Z;
  mem_map : Z;
  max_pfn : Z;
  pfndb_phys : Z;
  pages : gmap Z page;
  freelist : option Z;
  free_pages : Z;
  total_pages : Z;
  frames : gmap Z (gmap Z Z);
  kernel_ptable : Z;
  mmio_regions : list mmio_region;
  caches : list cache;
  next_large_base : Z;
}.

Definition set_pages (f : gmap Z page -> gmap Z page) (s : mm) : mm :=
  mkMm (hhdm s) (mem_map s) (max_pfn s) (pfndb_phys s) (f (pages s)) (freelist s)
    (free_pages s) (total_pages s) (frames s) (kernel_ptable s) (mmio_regions s)
    (caches s) (next_large_base s).
Definition set_freelist (l : option Z) (n : Z) (s : mm) : mm :=
  mkMm (hhdm s) (mem_map s) (max_pfn s) (pfndb_phys s) (pages s) l n
    (total_pages s) (frames s) (kernel_ptable s) (mmio_regions s)
    (caches s) (next_large_base s).
Definition set_total (n : Z) (s : mm) : mm :=
  mkMm (hhdm s) (mem_map s) (max_pfn s) (pfndb_phys s) (pages s) (freelist s)
    (free_pages s) n (frames s) (kernel_ptable s) (mmio_regions s)
    (caches s) (next_large_base s).
Definition set_frames (f : gmap Z (gmap Z Z) -> gmap Z (gmap Z Z)) (s : mm) : mm :=
  mkMm (hhdm s) (mem_map s) (max_pfn s) (pfndb_phys s) (pages s) (freelist s)
    (free_pages s) (total_pages s) (f (frames s)) (kernel_ptable s) (mmio_regions s)
    (caches s) (next_large_base s).
Definition set_db (base mx ph : Z) (s : mm) : mm :=
  mkMm (hhdm s) base mx ph (pages s) (freelist s)
    (free_pages s) (total_pages s) (frames s) (kernel_ptable s) (mmio_regions s)
    (caches s) (next_large_base s).
Definition set_kernel_ptable (k : Z) (s : mm) : mm :=
  mkMm (hhdm s) (mem_map s) (max_pfn s) (pfndb_phys s) (pages s) (freelist s)
    (free_pages s) (total_pages s) (frames s) k (mmio_regions s)
    (caches s) (next_large_base s).
Definition set_mmio_regions (l : list mmio_region) (s : mm) : mm :=
  mkMm (hhdm s) (mem_map s) (max_pfn s) (pfndb_phys s) (pages s) (freelist s)
    (free_pages s) (total_pages s) (frames s) (kernel_ptable s) l
    (caches s) (next_large_base s).
Definition set_caches (c : list cache) (s : mm) : mm :=
  mkMm (hhdm s) (mem_map s) (max_pfn s) (pfndb_phys s) (pages s) (freelist s)
    (free_pages s) (total_pages s) (frames s) (kernel_ptable s) (mmio_regions s)
    c (next_large_base s).
Definition set_next_large (b : Z) (s : mm) : mm :=
  mkMm (hhdm s) (mem_map s) (max_pfn s) (pfndb_phys s) (pages s) (freelist s)
    (free_pages s) (total_pages s) (frames s) (kernel_ptable s) (mmio_regions s)
    (caches s) b.

(** The word a [page_t *] is stored as, the array starting at [mb]. *)
Definition page_word (mb : Z) (p : option Z) : Z :=
  match p with None => 0 | Some i => u64 (mb + sizeof_page * i) end.

(** [*page], and an update of [*page]. *)
Definition rd_page (p : option Z) : M mm page := fun s =>
  match p with
  | None => Fault
  | Some i => match pages s !! i with Some pg => Ret pg s | None => Fault end
  end.
Definition wr_page (p : option Z) (f : page -> page) : M mm unit := fun s =>
  match p with
  | None => Fault
  | Some i => match pages s !! i with
              | Some pg => Ret tt (set_pages <[i := f pg]> s)
              | None => Fault
              end
  end.

Definition with_flags (f : Z -> Z) (pg : page) : page :=
  mkPage (p_next pg) (p_u2 pg) (f (p_flags pg)) (p_refcount pg).
Definition with_refcount (f : Z -> Z) (pg : page) : page :=
  mkPage (p_next pg) (p_u2 pg) (p_flags pg) (f (p_refcount pg)).
Definition with_u2 (f : Z -> Z) (pg : page) : page :=
  mkPage (p_next pg) (f (p_u2 pg)) (p_flags pg) (p_refcount pg).
Definition with_next (n : option Z) (pg : page) : page :=
  mkPage n (p_u2 pg) (p_flags pg) (p_refcount pg).

(** Physical memory: frame number, then the index of the 64-bit word in it. *)
Definition rd_word (s : mm) (f i : Z) : Z :=
  default 0 (frames s !! f ≫= fun m => m !! i).
Definition wr_word (f i v : Z) : M mm unit :=
  modify (set_frames (fun fr => <[f := <[i := v]> (default ∅ (fr !! f))]> fr)).
(** [memset(PHYS_TO_VIRT(phys), 0, PAGE_SIZE)] on a page-aligned [phys] *)
Definition zero_frame (phys : Z) : M mm unit :=
  modify (set_frames (fun fr => <[phys / PAGE_SIZE := ∅]> fr)).

(** The boot loader's memory map: [e_usable] is [type == LIMINE_MEMMAP_USABLE]. *)
Record memmap_entry := mkEntry { e_base : Z; e_length : Z; e_usable : bool }.

(** ** Operations *)

Fixpoint _pfndb_calc_max_pfn (mmap : list memmap_entry) (mx : Z) : Z :=
  match mmap with
  | [] => mx
  | e :: rest =>
      if negb (e_usable e) then _pfndb_calc_max_pfn rest mx else
      let end_ := u64 (e_base e + e_length e + PAGE_SIZE - 1) / PAGE_SIZE in
      _pfndb_calc_max_pfn rest (if end_ >? mx then end_ else mx)
  end.

(** The bytes [_pfndb_reserve] asks for: [max_pfn + 1] entries, rounded up. *)
Definition pfndb_size (mx : Z) : Z :=
  clr (u64 (u64 ((mx + 1) * sizeof_page) + PAGE_SIZE - 1)) (PAGE_SIZE - 1).

(** The physical address taken and the map with the entry shrunk; [None] is the
    [kpanic] at the end of the loop. *)
Fixpoint _pfndb_reserve (size : Z) (mmap : list memmap_entry)
  : option (Z * list memmap_entry) :=
  match mmap with
  | [] => None
  | e :: rest =>
      if negb (e_usable e) || (e_length e <? size) then
        match _pfndb_reserve size rest with
        | Some (p, rest') => Some (p, e :: rest')
        | None => None
        end
      else
        Some (e_base e,
              mkEntry (u64 (e_base e + size)) (e_length e - size) (e_usable e) :: rest)
  end.

(** One iteration of the first loop of [pfndb_init]; [u2] keeps what was in memory. *)
Definition pfndb_init_one (raw : Z -> Z) (i : Z) : M mm unit :=
  modify (fun s => set_pages
    <[i := mkPage (if i <? max_pfn s then Some (i + 1) else None) (raw i) PAGE_RESERVED 0]> s).

Definition pfndb_mark_one (pfn : Z) : M mm unit :=
  wr_page (Some pfn) (with_flags (fun fl =>
    Z.lor (clr fl (Z.lor PAGE_RESERVED PAGE_USED)) PAGE_FREE)).

Definition pfndb_mark_entry (e : memmap_entry) : M mm unit :=
  if negb (e_usable e) then ret tt else
  let start := e_base e / PAGE_SIZE in
  let end_ := u64 (e_base e + e_length e) / PAGE_SIZE in
  let* mx := gets max_pfn in
  mfor (Z.to_nat (Z.min end_ (mx + 1) - start)) start pfndb_mark_one.

Fixpoint pfndb_mark_all (mmap : list memmap_entry) : M mm unit :=
  match mmap with
  | [] => ret tt
  | e :: rest => pfndb_mark_entry e ;;; pfndb_mark_all rest
  end.

(** [raw i] is the word that happens to lie in [mem_map[i].u2] before the call. *)
Definition pfndb_init (raw : Z -> Z) (memmap : list memmap_entry)
  : M mm (list memmap_entry) :=
  let mx := _pfndb_calc_max_pfn memmap 0 in
  match _pfndb_reserve (pfndb_size mx) memmap with
  | None => kpanic
  | Some (ph, memmap') =>
      let* h := gets hhdm in
      modify (set_db (u64 (ph + h)) mx ph) ;;;
      modify (set_pages (fun _ => ∅)) ;;;
      assert (negb (u64 (ph + h) =? 0)) ;;;
      mfor (Z.to_nat (mx + 1)) 0 (pfndb_init_one raw) ;;;
      pfndb_mark_all memmap' ;;;
      wr_page (Some 0) (fun pg => with_refcount (fun _ => 0)
        (with_flags (fun _ => PAGE_RESERVED) pg)) ;;;
      ret memmap'
  end.

Definition pfndb_getdb (s : mm) : option Z := if mem_map s =? 0 then None else Some 0.
Definition pfndb_getmax (s : mm) : Z := max_pfn s.
Definition pfndb_pfnaddr (s : mm) (pfn : Z) : Z :=
  if pfn >? max_pfn s then 0 else u64 (pfn * PAGE_SIZE).
Definition pfndb_getptr (s : mm) (pfn : Z) : option Z :=
  if pfn >? max_pfn s then None else Some pfn.
Definition pfndb_getpfn (s : mm) (p : option Z) : Z :=
  match p with
  | None => 2 ^ 64 - 1
  | Some i =>
      if mem_map s =? 0 then 2 ^ 64 - 1
      else if (i <? 0) || (i >? max_pfn s) then 2 ^ 64 - 1
      else u64 i
  end.
Definition pfndb_page_to_phys (s : mm) (p : option Z) : Z :=
  match p with
  | None => 0
  | Some i =>
      if mem_map s =? 0 then 0
      else if (i <? 0) || (i >? max_pfn s) then 0
      else u64 (u64 i * PAGE_SIZE)
  end.
Definition pfndb_phys_to_page (s : mm) (phys : Z) : option Z :=
  let pfn := phys / PAGE_SIZE in
  if pfn >? max_pfn s then None else Some pfn.

(** ** Specification and lemmas *)

(** The frame [i] lies in a usable entry of the map. *)
Definition entry_covers (i : Z) (e : memmap_entry) : bool :=
  e_usable e && (e_base e / PAGE_SIZE <=? i)
    && (i <? u64 (e_base e + e_length e) / PAGE_SIZE).
Definition covered (mmap : list memmap_entry) (i : Z) : bool :=
  existsb (entry_covers i) mmap.

Definition entry_wf (e : memmap_entry) : Prop :=
  0 <= e_base e /\ 0 <= e_length e /\ e_base e + e_length e < 2 ^ 64.

(** Page aligned entries, the usable ones pairwise disjoint. *)
Definition memmap_wf (mmap : list memmap_entry) : Prop :=
  Forall entry_wf mmap /\
  Forall (fun e => e_base e `mod` PAGE_SIZE = 0) mmap /\
  (forall i j e1 e2, mmap !! i = Some e1 -> mmap !! j = Some e2 -> i <> j ->
     e_usable e1 = true -> e_usable e2 = true ->
     e_base e1 + e_length e1 <= e_base e2 \/ e_base e2 + e_length e2 <= e_base e1).

(** The array after the loops: [c] tells which frames are marked free. *)
Definition init_page (raw : Z -> Z) (c : Z -> bool) (mx i : Z) : page :=
  mkPage (if i <? mx then Some (i + 1) else None) (raw i)
    (if c i then PAGE_FREE else PAGE_RESERVED) 0.

Definition db_is (raw : Z -> Z) (c : Z -> bool) (mx : Z) (s : mm) : Prop :=
  max_pfn s = mx /\
  forall i, pages s !! i =
    if decide (0 <= i <= mx) then Some (init_page raw c mx i) else None.

Lemma calc_max_mono mmap mx : mx <= _pfndb_calc_max_pfn mmap mx.
Proof.
  revert mx. induction mmap as [|e mmap IH]; intros mx; simpl; [lia|].
  destruct (e_usable e); simpl; [|apply IH].
  etrans; [|apply IH]. case_match; lia.
Qed.

Lemma calc_max_upper mmap mx e :
  e ∈ mmap -> e_usable e = true -> entry_wf e ->
  e_base e + e_length e <= 2 ^ 64 - PAGE_SIZE ->
  e_base e + e_length e <= PAGE_SIZE * _pfndb_calc_max_pfn mmap mx.
Proof.
  intros He Hu (Hb & Hl & _) Hend. unfold PAGE_SIZE in *. revert mx.
  induction mmap as [|e' mmap IH]; intros mx; [by apply not_elem_of_nil in He|].
  apply elem_of_cons in He as [<-|He]; simpl.
  - rewrite Hu. simpl. rewrite u64_small by (unfold PAGE_SIZE; lia).
    set (d := (e_base e + e_length e + PAGE_SIZE - 1) / PAGE_SIZE).
    assert (e_base e + e_length e <= 4096 * d).
    { unfold d, PAGE_SIZE. zdiv. }
    pose proof (calc_max_mono mmap (if d >? mx then d else mx)).
    destruct (d >? mx) eqn:E; lia.
  - destruct (e_usable e'); simpl; by apply IH.
Qed.

Lemma reserve_split size mmap ph mmap' :
  _pfndb_reserve size mmap = Some (ph, mmap') ->
  exists pre e post, mmap = pre ++ e :: post /\ e_usable e = true /\
    size <= e_length e /\ ph = e_base e /\
    mmap' = pre ++ mkEntry (u64 (e_base e + size)) (e_length e - size) true :: post.
Proof.
  revert mmap'. induction mmap as [|e mmap IH]; intros mmap' H; simpl in H; [done|].
  destruct (negb (e_usable e) || (e_length e <? size)) eqn:E.
  - destruct (_pfndb_reserve size mmap) as [[p r]|] eqn:Er; simplify_eq.
    destruct (IH r eq_refl) as (pre & e0 & post & -> & Hu & Hs & -> & ->).
    by exists (e :: pre), e0, post.
  - apply orb_false_iff in E as [Eu El]. apply negb_false_iff in Eu.
    simplify_eq. exists [], e, mmap. rewrite Eu. split_and!; try done. lia.
Qed.

Lemma wr_page_ok i f s pg :
  pages s !! i = Some pg ->
  wr_page (Some i) f s = Ret tt (set_pages <[i := f pg]> s).
Proof. intros H. unfold wr_page. by rewrite H. Qed.

Lemma rd_page_ok i s pg : pages s !! i = Some pg -> rd_page (Some i) s = Ret pg s.
Proof. intros H. unfold rd_page. by rewrite H. Qed.

Lemma init_one_loop raw n s :
  pages s = ∅ -> 0 <= max_pfn s -> Z.of_nat n = max_pfn s + 1 ->
  wp (mfor n 0 (pfndb_init_one raw)) s (fun _ s' =>
    db_is raw (fun _ => false) (max_pfn s) s' /\ mem_map s' = mem_map s).
Proof.
  intros He Hmx Hn.
  eapply wp_mono; [apply (wp_mfor (fun i s' =>
    max_pfn s' = max_pfn s /\ mem_map s' = mem_map s /\
    forall j, pages s' !! j =
      if decide (0 <= j < i) then Some (init_page raw (fun _ => false) (max_pfn s) j)
      else None))|].
  - split_and!; [done..|]. intros j. rewrite He, lookup_empty.
    by rewrite decide_False by lia.
  - intros j s' Hj (Hm & Hb & Hp). apply wp_modify. split_and!; [done..|].
    intros k. simpl. rewrite lookup_insert, Hp, Hm.
    repeat case_decide; subst; try lia; done.
  - intros ? s' (Hm & Hb & Hp). split; [|done]. split; [done|].
    intros i. rewrite Hp. repeat case_decide; try lia; done.
Qed.

Lemma db_is_ext raw c c' mx s :
  (forall i, c i = c' i) -> db_is raw c mx s -> db_is raw c' mx s.
Proof.
  intros He [Hm Hp]. split; [done|]. intros i. rewrite Hp.
  unfold init_page. by rewrite He.
Qed.

Lemma mark_one_wp raw c mx s pfn :
  db_is raw c mx s -> 0 <= pfn <= mx ->
  wp (pfndb_mark_one pfn) s (fun _ s' =>
    db_is raw (fun i => c i || (i =? pfn)) mx s' /\ mem_map s' = mem_map s).
Proof.
  intros [Hm Hp] Hr. eapply wp_intro.
  { apply wr_page_ok. rewrite Hp. by rewrite decide_True. }
  split; [|done]. split; [done|]. intros i. simpl. rewrite lookup_insert, Hp.
  destruct (decide (pfn = i)) as [->|Hne].
  - rewrite decide_True by done. f_equal. unfold init_page, with_flags. simpl.
    rewrite Z.eqb_refl, orb_true_r. by destruct (c i).
  - case_decide; [|done]. unfold init_page.
    by rewrite (proj2 (Z.eqb_neq i pfn)), orb_false_r by lia.
Qed.

Lemma mark_entry_wp raw c mx s e :
  db_is raw c mx s -> 0 <= mx -> entry_wf e ->
  wp (pfndb_mark_entry e) s (fun _ s' =>
    db_is raw (fun i => c i || (entry_covers i e && (i <=? mx))) mx s'
    /\ mem_map s' = mem_map s).
Proof.
  intros Hdb Hmx (Hb & Hl & He). unfold pfndb_mark_entry, entry_covers, PAGE_SIZE.
  destruct (e_usable e) eqn:Eu; simpl.
  2:{ apply wp_ret. split; [|done]. eapply db_is_ext; [|done]. intros i. by rewrite orb_false_r. }
  apply wp_bind, wp_gets. destruct Hdb as [Hm Hp]. rewrite Hm.
  set (st := e_base e / 4096). set (en := u64 (e_base e + e_length e) / 4096).
  assert (Hst : 0 <= st) by (unfold st; zdiv).
  set (lim := Z.min en (mx + 1)).
  assert (Hlim : lim = Z.min en (mx + 1)) by done. clearbody st en lim.
  eapply wp_mono; [apply (wp_mfor (fun i s' =>
    db_is raw (fun k => c k || ((st <=? k) && (k <? i))) mx s' /\ mem_map s' = mem_map s))|].
  - split; [|done]. eapply db_is_ext; [|by split]. intros k.
    destruct (st <=? k) eqn:E1, (k <? st) eqn:E2; try lia; by rewrite orb_false_r.
  - intros j s' Hj [Hdb Hmm]. eapply wp_mono.
    { apply (mark_one_wp raw (fun k => c k || ((st <=? k) && (k <? j)))); [done|lia]. }
    intros ? s'' [Hdb' Hmm']. split; [|congruence]. eapply db_is_ext; [|exact Hdb'].
    intros k. cbn beta. destruct (c k), (st <=? k) eqn:E1, (k <? j) eqn:E2, (k =? j) eqn:E3,
      (k <? j + 1) eqn:E4; try lia; done.
  - intros ? s' [Hdb Hmm]. split; [|done]. eapply db_is_ext; [|exact Hdb].
    intros k. cbn beta. destruct (c k); [done|]. simpl.
    destruct (st <=? k) eqn:E1; [|done]. simpl.
    destruct (k <? st + Z.of_nat (Z.to_nat (lim - st))) eqn:E4,
      (k <? en) eqn:E2, (k <=? mx) eqn:E3; try done; exfalso; blia.
Qed.

Lemma mark_all_wp raw c mx s mmap :
  db_is raw c mx s -> 0 <= mx -> Forall entry_wf mmap ->
  wp (pfndb_mark_all mmap) s (fun _ s' =>
    db_is raw (fun i => c i || (covered mmap i && (i <=? mx))) mx s'
    /\ mem_map s' = mem_map s).
Proof.
  intros Hdb Hmx Hwf. revert c s Hdb. induction Hwf as [|e mmap He Hwf IH]; intros c s Hdb; simpl.
  - apply wp_ret. split; [|done]. eapply db_is_ext; [|done]. intros i. by rewrite orb_false_r.
  - apply wp_bind. eapply wp_mono; [by apply mark_entry_wp|].
    intros ? s' [Hdb' Hm]. eapply wp_mono; [apply IH, Hdb'|].
    intros ? s'' [Hdb'' Hm']. split; [|congruence]. eapply db_is_ext; [|exact Hdb''].
    intros i. unfold covered. cbn [existsb]. cbn beta. destruct (c i), (entry_covers i e), (existsb (entry_covers i) mmap), (i <=? mx); done.
Qed.

Lemma pfndb_size_nonneg mx : 0 <= pfndb_size mx.
Proof.
  unfold pfndb_size, clr. apply Z.ldiff_nonneg. left. apply u64_range.
Qed.

Lemma reserve_wf size mmap ph mmap' :
  _pfndb_reserve size mmap = Some (ph, mmap') -> 0 <= size ->
  Forall entry_wf mmap -> Forall entry_wf mmap'.
Proof.
  intros (pre & e & post & -> & _ & Hs & -> & ->)%reserve_split Hn Hwf.
  apply Forall_app in Hwf as [H1 H2]. apply Forall_cons in H2 as [(Hb & Hl & He) H2].
  apply Forall_app. split; [done|]. apply Forall_cons. split; [|done].
  unfold entry_wf. simpl. rewrite u64_small by lia. lia.
Qed.

Lemma wr_page_zero_wp raw c mx s :
  db_is raw c mx s -> 0 <= mx ->
  wp (wr_page (Some 0) (fun pg => with_refcount (fun _ => 0)
        (with_flags (fun _ => PAGE_RESERVED) pg))) s (fun _ s' =>
    db_is raw (fun i => negb (i =? 0) && c i) mx s' /\ mem_map s' = mem_map s).
Proof.
  intros [Hm Hp] Hmx. eapply wp_intro.
  { apply wr_page_ok. rewrite Hp. by rewrite decide_True by lia. }
  split; [|done]. split; [done|]. intros i. simpl. rewrite lookup_insert, Hp.
  destruct (decide (0 = i)) as [<-|Hne]; [by rewrite decide_True by lia|].
  case_decide; [|done]. unfold init_page. by rewrite (proj2 (Z.eqb_neq i 0)) by lia.
Qed.

Lemma pfndb_init_wp raw mmap s ph mmap' :
  Forall entry_wf mmap ->
  _pfndb_reserve (pfndb_size (_pfndb_calc_max_pfn mmap 0)) mmap = Some (ph, mmap') ->
  u64 (ph + hhdm s) <> 0 ->
  wp (pfndb_init raw mmap) s (fun r s' => r = mmap' /\
    mem_map s' = u64 (ph + hhdm s) /\
    db_is raw (fun i => negb (i =? 0) && covered mmap' i) (_pfndb_calc_max_pfn mmap 0) s').
Proof.
  intros Hwf Hres Hb. unfold pfndb_init. rewrite Hres.
  set (mx := _pfndb_calc_max_pfn mmap 0) in *.
  assert (Hmx : 0 <= mx) by apply calc_max_mono.
  apply wp_bind, wp_gets. apply wp_bind, wp_modify. apply wp_bind, wp_modify.
  apply wp_bind, wp_assert; [by rewrite (proj2 (Z.eqb_neq _ _))|].
  apply wp_bind. eapply wp_mono; [apply init_one_loop; simpl; [done|lia|lia]|].
  intros ? s1 [Hdb1 Hm1]. simpl in *.
  apply wp_bind. eapply wp_mono.
  { eapply mark_all_wp; [exact Hdb1|lia|]. eapply reserve_wf; eauto using pfndb_size_nonneg. }
  intros ? s2 [Hdb2 Hm2]. apply wp_bind.
  eapply wp_mono; [by eapply wr_page_zero_wp|].
  intros ? s3 [Hdb3 Hm3]. apply wp_ret. split_and!; [done|congruence|].
  destruct Hdb3 as [Hx Hp]. split; [done|]. intros i. rewrite Hp.
  case_decide; [|done]. unfold init_page. cbn beta.
  rewrite (proj2 (Z.leb_le i mx)) by lia. by rewrite andb_true_r.
Qed.

(** ** Properties *)

(** the frames that hold the page-frame database itself are never marked
    free: with a memory map whose usable entries are page aligned and disjoint,
    [pfndb_init] leaves every frame of the reserved range [RESERVED]. *)
Theorem pfndb_self_reserved raw mmap s ph mmap' i :
  memmap_wf mmap ->
  _pfndb_reserve (pfndb_size (_pfndb_calc_max_pfn mmap 0)) mmap = Some (ph, mmap') ->
  u64 (ph + hhdm s) <> 0 ->
  ph <= i * PAGE_SIZE < ph + pfndb_size (_pfndb_calc_max_pfn mmap 0) ->
  i <= _pfndb_calc_max_pfn mmap 0 ->
  wp (pfndb_init raw mmap) s (fun _ s' =>
    exists pg, pages s' !! i = Some pg /\ p_flags pg = PAGE_RESERVED).
Proof.
  intros (Hwf & Hal & Hdis) Hres Hb Hi Him.
  eapply wp_mono; [by eapply pfndb_init_wp|]. intros r s' (_ & _ & _ & Hp).
  pose proof (reserve_split _ _ _ _ Hres) as (pre & e & post & -> & Hu & Hs & -> & ->).
  set (size := pfndb_size _) in *. set (mx := _pfndb_calc_max_pfn _ _) in *.
  assert (Hsz : 0 <= size) by apply pfndb_size_nonneg.
  assert (Hee : (pre ++ e :: post) !! length pre = Some e) by (by rewrite list_lookup_middle).
  assert (Hewf : entry_wf e) by (rewrite Forall_lookup in Hwf; by eapply Hwf).
  destruct Hewf as (Hb0 & Hl0 & He0).
  exists (init_page raw (fun i => negb (i =? 0) && covered (pre ++ mkEntry (u64 (e_base e + size)) (e_length e - size) true :: post) i) mx i).
  unfold PAGE_SIZE in *. rewrite Hp, decide_True by lia. split; [done|].
  unfold init_page. simpl. replace (covered _ i) with false; [by rewrite andb_false_r|].
  symmetry. apply not_true_is_false. intros (e2 & Hin & Hcov)%existsb_exists.
  unfold entry_covers, PAGE_SIZE in Hcov. bools.
  apply list_elem_of_In, list_elem_of_lookup in Hin as [j Hj].
  destruct (decide (j = length pre)) as [->|Hne].
  - rewrite list_lookup_middle in Hj by done. simplify_eq. simpl in *.
    assert (Hale : e_base e `mod` 4096 = 0) by (rewrite Forall_lookup in Hal; by eapply Hal).
    assert (Hsza : size `mod` 4096 = 0).
    { unfold size, pfndb_size, clr, PAGE_SIZE. change (4096 - 1) with (Z.ones 12).
      rewrite Z.ldiff_ones_r, Z.shiftl_mul_pow2, Z.mod_mul by lia. done. }
    rewrite u64_small in * by lia. Z.to_euclidean_division_equations. lia.
  - assert (Hj' : (pre ++ e :: post) !! j = Some e2).
    { rewrite lookup_app in Hj |- *. destruct (pre !! j) eqn:Epre; [done|].
      apply lookup_ge_None in Epre.
      destruct (j - length pre)%nat eqn:Ej; [lia|done]. }
    assert (Hal2 : e_base e2 `mod` 4096 = 0) by (rewrite Forall_lookup in Hal; by eapply Hal).
    assert (Hwf2 : entry_wf e2) by (rewrite Forall_lookup in Hwf; by eapply Hwf).
    destruct Hwf2 as (Hb2 & Hl2 & He2). rewrite u64_small in * by lia.
    destruct (Hdis _ _ _ _ Hee Hj' ltac:(done) Hu H) as [Hd|Hd];
      Z.to_euclidean_division_equations; lia.
Qed.

(** a frame number, its page descriptor and its physical address name each
    other: [pfndb_getptr], [pfndb_getpfn], [pfndb_page_to_phys] and
    [pfndb_phys_to_page] are mutually inverse on the tracked frames, and any
    address inside the frame leads back to its descriptor. *)
Theorem pfn_roundtrip s i o :
  mem_map s <> 0 -> 0 <= i <= max_pfn s -> max_pfn s < 2 ^ 52 -> 0 <= o < PAGE_SIZE ->
  pfndb_getpfn s (pfndb_getptr s i) = i /\
  pfndb_page_to_phys s (pfndb_getptr s i) = pfndb_pfnaddr s i /\
  pfndb_phys_to_page s (pfndb_pfnaddr s i + o) = pfndb_getptr s i.
Proof.
  intros Hb Hi Hm Ho. unfold PAGE_SIZE in Ho.
  assert (Hle : (i >? max_pfn s) = false) by (rewrite Z.gtb_ltb, Z.ltb_ge; lia).
  unfold pfndb_getpfn, pfndb_getptr, pfndb_page_to_phys, pfndb_phys_to_page, pfndb_pfnaddr, PAGE_SIZE.
  rewrite Hle, (proj2 (Z.eqb_neq _ _)) by done. rewrite (proj2 (Z.ltb_ge i 0)), Hle by lia. simpl.
  rewrite (u64_small i), (u64_small (i * 4096)) by lia.
  rewrite Z.div_add_l, Z.div_small, Z.add_0_r, Hle by lia. done.
Qed.

Definition ex_map : list memmap_entry :=
  [mkEntry 0 16384 true; mkEntry 16384 4096 false; mkEntry 20480 32768 true].
Definition ex_boot : mm :=
  mkMm 18446603336221196288 0 0 0 ∅ None 0 0 ∅ 0 [] [] 0.

Lemma pfndb_self_reserved_witness :
  exists r s', pfndb_init (fun _ => 7) ex_map ex_boot = Ret r s' /\
    exists pg, pages s' !! 0 = Some pg /\ p_flags pg = PAGE_RESERVED.
Proof.
  apply wp_inv.
  apply (pfndb_self_reserved (fun _ => 7) ex_map ex_boot 0
    [mkEntry 4096 12288 true; mkEntry 16384 4096 false; mkEntry 20480 32768 true] 0);
    [|reflexivity|done|vm_compute; split; congruence|vm_compute; congruence].
  split; [|split].
  - unfold ex_map, entry_wf. repeat (apply Forall_cons; split; [simpl; lia|]). by apply Forall_nil.
  - unfold ex_map. repeat (apply Forall_cons; split; [reflexivity|]). by apply Forall_nil.
  - intros [|[|[|i]]] [|[|[|j]]] e1 e2 H1 H2 Hne; simplify_eq/=; intros; simpl; lia.
Defined.

Lemma pfn_roundtrip_witness :
  pfndb_phys_to_page (set_db 4096 100 0 ex_boot)
    (pfndb_pfnaddr (set_db 4096 100 0 ex_boot) 42 + 17) = Some 42.
Proof.
  apply (pfn_roundtrip (set_db 4096 100 0 ex_boot) 42 17); vm_compute; intuition congruence.
Defined.
