(* ===== verification/Pmm.v ===== *)
(** * The physical memory manager (kernel/src/mm/pmm.c)

    Reference-counted page frames and the intrusive, doubly linked free list.
    The spinlock and the interrupt flag only serialise the calls, so each
    operation is one transition of [mm].  The specification is an abstract
    allocator: a stack of free frames and a finite map of the frames in use. *)

From stdpp Require Import gmap list sorting.
From Stdlib Require Import ZArith Lia.
From S2P Require Import Prelude Pfndb.

Local Open Scope Z_scope.

(** ** Operations *)

Definition _page_validate_free (p : option Z) : M mm unit :=
  match p with
  | None => kpanic
  | Some _ =>
      let* pg := rd_page p in
      if has (p_flags pg) PAGE_POISON then ret tt
      else if negb (has (p_flags pg) PAGE_FREE) then kpanic
      else if negb (p_refcount pg =? 0) then kpanic
      else if negb (p_u2 pg =? 0) then kpanic
      else ret tt
  end.

Definition _page_validate_used (p : option Z) : M mm unit :=
  match p with
  | None => kpanic
  | Some _ =>
      let* pg := rd_page p in
      if has (p_flags pg) PAGE_POISON then kpanic
      else if negb (has (p_flags pg) PAGE_USED) then kpanic
      else if p_refcount pg =? 0 then kpanic
      else ret tt
  end.

(** The six assertions both push functions start with. *)
Definition push_asserts (p : option Z) : M mm unit :=
  match p with
  | None => kpanic
  | Some _ =>
      let* pg := rd_page p in
      assert (p_refcount pg =? 0) ;;;
      assert (p_u2 pg =? 0) ;;;
      assert (negb (has (p_flags pg) PAGE_FREE)) ;;;
      assert (negb (has (p_flags pg) PAGE_RESERVED)) ;;;
      assert (negb (has (p_flags pg) PAGE_POISON))
  end.

(** Insertion at the head: page <-> old head. *)
Definition push_links (p : option Z) : M mm unit :=
  wr_page p (with_flags (fun _ => PAGE_FREE)) ;;;
  let* fl := gets freelist in
  wr_page p (with_next fl) ;;;
  wr_page p (with_u2 (fun _ => 0)) ;;;
  let* mb := gets mem_map in
  match fl with
  | Some _ => wr_page fl (with_u2 (fun _ => page_word mb p))
  | None => ret tt
  end ;;;
  modify (fun s => set_freelist p (u64 (free_pages s + 1)) s).

Definition _pmm_push_noscrub (p : option Z) : M mm unit :=
  push_asserts p ;;;
  push_links p.

Definition _pmm_push (p : option Z) : M mm unit :=
  push_asserts p ;;;
  let* phys := gets (fun s => pfndb_page_to_phys s p) in
  zero_frame phys ;;;
  push_links p.

Definition _pmm_pop : M mm (option Z) :=
  let* fl := gets freelist in
  match fl with
  | None => ret None
  | Some _ =>
      _page_validate_free fl ;;;
      let* pg := rd_page fl in
      modify (fun s => set_freelist (p_next pg) (free_pages s) s) ;;;
      match p_next pg with
      | Some _ => wr_page (p_next pg) (with_u2 (fun _ => 0))
      | None => ret tt
      end ;;;
      wr_page fl (with_next None) ;;;
      wr_page fl (with_u2 (fun _ => 0)) ;;;
      wr_page fl (with_flags (fun f => clr f PAGE_FREE)) ;;;
      wr_page fl (with_flags (fun f => Z.lor f PAGE_USED)) ;;;
      modify (fun s => set_freelist (freelist s) (u64 (free_pages s - 1)) s) ;;;
      ret fl
  end.

(** The body of the loop of [pmm_init], which counts [i] down. *)
Definition pmm_init_one (i : Z) : M mm unit :=
  let* p := gets (fun s => pfndb_getptr s i) in
  let* pg := rd_page p in
  if negb (has (p_flags pg) PAGE_FREE) then ret tt
  else if has (p_flags pg) PAGE_RESERVED then ret tt
  else
    wr_page p (with_refcount (fun _ => 0)) ;;;
    wr_page p (with_u2 (fun _ => 0)) ;;;
    wr_page p (with_next None) ;;;
    wr_page p (with_u2 (fun _ => 0)) ;;;
    wr_page p (with_flags (fun f => clr f PAGE_FREE)) ;;;
    _pmm_push_noscrub p.

(** [n] iterations of the loop: frames [n - 1] down to [0]. *)
Fixpoint pmm_init_loop (n : nat) : M mm unit :=
  match n with
  | O => ret tt
  | S n' => pmm_init_one (Z.of_nat n') ;;; pmm_init_loop n'
  end.

Definition pmm_init : M mm unit :=
  let* db := gets pfndb_getdb in
  let* mx := gets pfndb_getmax in
  assert (bool_decide (is_Some db)) ;;;
  modify (set_freelist None 0) ;;;
  modify (set_total (u64 (mx + 1))) ;;;
  pmm_init_loop (Z.to_nat (mx + 1)).

Definition palloc_page : M mm (option Z) :=
  let* p := _pmm_pop in
  match p with
  | None => kpanic
  | Some _ => wr_page p (with_refcount (fun _ => 1)) ;;; ret p
  end.

Definition palloc_single : M mm Z :=
  let* p := _pmm_pop in
  match p with
  | None => kpanic
  | Some _ =>
      wr_page p (with_refcount (fun _ => 1)) ;;;
      gets (fun s => pfndb_page_to_phys s p)
  end.

Definition page_ref (p : option Z) : M mm unit :=
  _page_validate_used p ;;;
  wr_page p (with_refcount (fun r => u32 (r + 1))).

Definition page_unref (p : option Z) : M mm unit :=
  match p with
  | None => ret tt
  | Some _ =>
      let* pg := rd_page p in
      if negb (has (p_flags pg) PAGE_USED) then kpanic
      else
        _page_validate_used p ;;;
        if p_refcount pg =? 0 then ret tt
        else
          wr_page p (with_refcount (fun r => u32 (r - 1))) ;;;
          let* pg' := rd_page p in
          if p_refcount pg' =? 0 then
            if negb (p_u2 pg' =? 0) then kpanic else _pmm_push p
          else ret tt
  end.

Definition page_share (p : option Z) : M mm unit :=
  _page_validate_used p ;;;
  wr_page p (with_u2 (fun c => u64 (c + 1))) ;;;
  let* pg := rd_page p in
  when (p_u2 pg >? 1) (wr_page p (with_flags (fun f => Z.lor f PAGE_SHARED))).

Definition page_unshare (p : option Z) : M mm unit :=
  _page_validate_used p ;;;
  let* pg := rd_page p in
  if p_u2 pg =? 0 then ret tt
  else
    wr_page p (with_u2 (fun c => u64 (c - 1))) ;;;
    let* pg' := rd_page p in
    when (p_u2 pg' <=? 1) (wr_page p (with_flags (fun f => clr f PAGE_SHARED))).

Definition page_mark_cow (p : option Z) : M mm unit :=
  match p with
  | None => ret tt
  | Some _ =>
      _page_validate_used p ;;;
      wr_page p (with_flags (fun f => Z.lor f PAGE_COW))
  end.

Definition page_clear_cow (p : option Z) : M mm unit :=
  match p with
  | None => ret tt
  | Some _ =>
      _page_validate_used p ;;;
      wr_page p (with_flags (fun f => clr f PAGE_COW))
  end.

Definition pmm_free_pages : M mm Z := gets free_pages.
Definition pmm_total_pages : M mm Z := gets total_pages.

(** ** The abstract allocator *)

(** A frame in use: references, page-table mappings, copy-on-write mark. *)
Record ustate := mkU { u_ref : Z; u_share : Z; u_cow : bool }.

#[export] Instance ustate_eq_dec : EqDecision ustate.
Proof. solve_decision. Defined.

Definition used_flags (st : ustate) : Z :=
  Z.lor PAGE_USED (Z.lor (if 1 <? u_share st then PAGE_SHARED else 0)
                         (if u_cow st then PAGE_COW else 0)).
Definition used_page (st : ustate) : page :=
  mkPage None (u_share st) (used_flags st) (u_ref st).
Definition ust_ok (st : ustate) : Prop :=
  1 <= u_ref st < 2 ^ 32 /\ 0 <= u_share st < 2 ^ 64.

(** The free list from [cur] on: [next] links forwards, [prev] links backwards. *)
Fixpoint chain (mb : Z) (pgs : gmap Z page) (prev : Z) (cur : option Z) (l : list Z) : Prop :=
  match l with
  | [] => cur = None
  | p :: l' =>
      cur = Some p /\
      exists nx, pgs !! p = Some (mkPage nx prev PAGE_FREE 0) /\
        chain mb pgs (page_word mb (Some p)) nx l'
  end.

(** The state represents the free stack [l] and the frames in use [u]. *)
Record pmm_rel (s : mm) (l : list Z) (u : gmap Z ustate) : Prop := {
  rel_base : mem_map s <> 0;
  rel_max : 0 <= max_pfn s < 2 ^ 40;
  rel_dom : forall i, is_Some (pages s !! i) <-> 0 <= i <= max_pfn s;
  rel_zero : exists pg, pages s !! 0 = Some pg /\ p_flags pg = PAGE_RESERVED;
  rel_chain : chain (mem_map s) (pages s) 0 (freelist s) l;
  rel_nodup : NoDup l;
  rel_count : free_pages s = Z.of_nat (length l);
  rel_used : forall i st, u !! i = Some st ->
    pages s !! i = Some (used_page st) /\ ust_ok st;
  rel_other : forall i pg, pages s !! i = Some pg ->
    i ∈ l \/ is_Some (u !! i) \/ p_flags pg = PAGE_RESERVED;
}.

(** Everything but the frames, the page array and the free list is the same. *)
Definition env_eq (s s' : mm) : Prop :=
  max_pfn s' = max_pfn s /\ mem_map s' = mem_map s /\ hhdm s' = hhdm s /\
  kernel_ptable s' = kernel_ptable s /\ mmio_regions s' = mmio_regions s /\
  total_pages s' = total_pages s /\ caches s' = caches s /\
  next_large_base s' = next_large_base s.

#[export] Instance env_eq_refl : Reflexive env_eq.
Proof. by repeat split. Qed.
#[export] Instance env_eq_trans : Transitive env_eq.
Proof. unfold env_eq. intros a b c. intuition congruence. Qed.

(** ** Lemmas on the representation *)

Lemma chain_frame mb pgs pgs' prev cur l :
  (forall i, i ∈ l -> pgs' !! i = pgs !! i) ->
  chain mb pgs prev cur l -> chain mb pgs' prev cur l.
Proof.
  revert prev cur. induction l as [|p l IH]; intros prev cur Hf; [done|].
  intros [-> (nx & Hp & Hc)]. split; [done|]. exists nx.
  rewrite Hf by set_solver. split; [done|]. apply IH; [|done]. set_solver.
Qed.

Lemma chain_elem mb pgs prev cur l i :
  chain mb pgs prev cur l -> i ∈ l ->
  exists nx pv, pgs !! i = Some (mkPage nx pv PAGE_FREE 0).
Proof.
  revert prev cur. induction l as [|p l IH]; intros prev cur; [set_solver|].
  intros [-> (nx & Hp & Hc)] [->|Hi]%elem_of_cons; eauto.
Qed.

Lemma used_flags_free st : has (used_flags st) PAGE_FREE = false.
Proof. unfold used_flags. by destruct (1 <? _), (u_cow st). Qed.
Lemma used_flags_used st : has (used_flags st) PAGE_USED = true.
Proof. unfold used_flags. by destruct (1 <? _), (u_cow st). Qed.
Lemma used_flags_poison st : has (used_flags st) PAGE_POISON = false.
Proof. unfold used_flags. by destruct (1 <? _), (u_cow st). Qed.
Lemma used_flags_reserved st : has (used_flags st) PAGE_RESERVED = false.
Proof. unfold used_flags. by destruct (1 <? _), (u_cow st). Qed.
Lemma used_flags_not_free st : used_flags st <> PAGE_FREE.
Proof. unfold used_flags. by destruct (1 <? _), (u_cow st). Qed.
Lemma used_flags_not_reserved st : used_flags st <> PAGE_RESERVED.
Proof. unfold used_flags. by destruct (1 <? _), (u_cow st). Qed.

Create Rewrite HintDb flagsdb.
#[export] Hint Rewrite used_flags_free used_flags_used used_flags_poison
  used_flags_reserved : flagsdb.

(** Successive writes to one page of the map. *)
Ltac page_writes :=
  repeat (progress (rewrite ?insert_insert_eq, ?lookup_insert_eq; simpl)).

Lemma free_not_used s l u i : pmm_rel s l u -> i ∈ l -> u !! i = None.
Proof.
  intros R Hi. destruct (u !! i) as [st|] eqn:Eu; [|done].
  destruct (rel_used _ _ _ R _ _ Eu) as [Hp _].
  destruct (chain_elem _ _ _ _ _ _ (rel_chain _ _ _ R) Hi) as (nx & pv & Hp').
  rewrite Hp in Hp'. injection Hp' as _ _ Hf _. by apply used_flags_not_free in Hf.
Qed.

Lemma used_not_free s l u i st : pmm_rel s l u -> u !! i = Some st -> i ∉ l.
Proof. intros R Hu Hi. by rewrite (free_not_used _ _ _ _ R Hi) in Hu. Qed.

Lemma free_in_range s l u i : pmm_rel s l u -> i ∈ l -> 0 < i <= max_pfn s.
Proof.
  intros R Hi. destruct (chain_elem _ _ _ _ _ _ (rel_chain _ _ _ R) Hi) as (nx & pv & Hp).
  assert (0 <= i <= max_pfn s) by (apply (rel_dom _ _ _ R); eauto).
  enough (i <> 0) by lia. intros ->.
  destruct (rel_zero _ _ _ R) as (pg & Hz & Hf). rewrite Hp in Hz. by simplify_eq.
Qed.

Lemma used_in_range s l u i st :
  pmm_rel s l u -> u !! i = Some st -> 0 < i <= max_pfn s.
Proof.
  intros R Hu. destruct (rel_used _ _ _ R _ _ Hu) as [Hp _].
  assert (0 <= i <= max_pfn s) by (apply (rel_dom _ _ _ R); eauto).
  enough (i <> 0) by lia. intros ->.
  destruct (rel_zero _ _ _ R) as (pg & Hz & Hf). rewrite Hp in Hz. simplify_eq.
  by apply used_flags_not_reserved in Hf.
Qed.

Lemma NoDup_Z_bound (l : list Z) n :
  NoDup l -> (forall i, i ∈ l -> 0 < i <= n) -> 0 <= n -> Z.of_nat (length l) <= n.
Proof.
  intros Hnd Hr Hn.
  assert (Hsub : l ⊆+ seqZ 1 n).
  { apply NoDup_submseteq; [done|]. intros i Hi. apply elem_of_seqZ. specialize (Hr i Hi). lia. }
  apply submseteq_length in Hsub. rewrite length_seqZ in Hsub. lia.
Qed.

Lemma rel_length s l u : pmm_rel s l u -> Z.of_nat (length l) <= max_pfn s.
Proof.
  intros R. apply NoDup_Z_bound; [apply R| |apply R].
  intros i Hi. by apply (free_in_range s l u).
Qed.

(** The pages map after the successor [q] of a popped head lost its [prev] link,
    and after the old head [q] got a new one. *)
Definition relink (q : option Z) (w : Z) (pgs : gmap Z page) : gmap Z page :=
  match q with None => pgs | Some i => alter (with_u2 (fun _ => w)) i pgs end.

Lemma relink_ne q w pgs i : q <> Some i -> relink q w pgs !! i = pgs !! i.
Proof. destruct q as [j|]; [|done]. intros. simpl. apply lookup_alter_ne. naive_solver. Qed.

Lemma relink_is_Some q w pgs i : is_Some (relink q w pgs !! i) <-> is_Some (pgs !! i).
Proof.
  destruct q as [j|]; [|done]. simpl. destruct (decide (j = i)) as [->|Hne].
  - by rewrite lookup_alter_eq, fmap_is_Some.
  - by rewrite lookup_alter_ne.
Qed.

Lemma relink_flags q w pgs i pg :
  relink q w pgs !! i = Some pg ->
  exists pg0, pgs !! i = Some pg0 /\ p_flags pg0 = p_flags pg.
Proof.
  destruct q as [j|]; [|eauto]. simpl. destruct (decide (j = i)) as [->|Hne].
  - rewrite lookup_alter_eq. destruct (pgs !! i) as [pg0|]; [|done]. intros [= <-]. eauto.
  - rewrite lookup_alter_ne by done. eauto.
Qed.

(** Giving the first node of a chain a new [prev] word. *)
Lemma chain_relink mb pgs prev cur l w :
  NoDup l -> chain mb pgs prev cur l -> chain mb (relink cur w pgs) w cur l.
Proof.
  destruct l as [|p l]; simpl; [by intros _ ->|].
  intros Hnd [-> (nx & Hp & Hc)]. split; [done|]. exists nx. simpl.
  rewrite lookup_alter_eq, Hp. split; [done|].
  eapply chain_frame; [|exact Hc]. intros i Hi. apply lookup_alter_ne.
  inversion Hnd; set_solver.
Qed.

Lemma chain_head mb pgs prev cur l : chain mb pgs prev cur l -> cur = head l.
Proof. destruct l; simpl; [done|]. by intros [-> _]. Qed.

Lemma insert_as_alter (f : page -> page) i (pgs : gmap Z page) pg :
  pgs !! i = Some pg -> <[i := f pg]> pgs = alter f i pgs.
Proof.
  intros Hp. apply map_eq. intros j. destruct (decide (i = j)) as [->|Hne].
  - by rewrite lookup_insert_eq, lookup_alter_eq, Hp.
  - by rewrite lookup_insert_ne, lookup_alter_ne.
Qed.

(** ** The representation is preserved by each operation *)

Lemma pmm_pop_eq s p l u :
  pmm_rel s (p :: l) u ->
  _pmm_pop s = Ret (Some p)
    (set_freelist (head l) (Z.of_nat (length l))
      (set_pages (fun pgs => <[p := mkPage None 0 PAGE_USED 0]> (relink (head l) 0 pgs)) s)).
Proof.
  intros R. pose proof (rel_chain _ _ _ R) as [Hfl (nx & Hp & Hc)].
  pose proof (rel_nodup _ _ _ R) as Hnd. apply NoDup_cons in Hnd as [Hpl Hnd].
  pose proof (rel_count _ _ _ R) as Hcnt. pose proof (rel_length _ _ _ R) as Hlen.
  pose proof (rel_max _ _ _ R) as Hmax. simpl in Hcnt, Hlen.
  assert (Hcnt' : u64 (free_pages s - 1) = Z.of_nat (length l))
    by (rewrite u64_small; lia).
  assert (nx = head l) as -> by (by eapply chain_head).
  assert (Hq : head l <> Some p) by (destruct l; [done|]; intros [= ->]; apply Hpl; left).
  assert (Hpq : relink (head l) 0 (pages s) !! p = Some (mkPage (head l) 0 PAGE_FREE 0))
    by (by rewrite relink_ne).
  assert (Hv : _page_validate_free (Some p) s = Ret tt s).
  { unfold _page_validate_free, bind. by rewrite (rd_page_ok _ _ _ Hp). }
  assert (Hre : exists s1, s1 = set_pages (relink (head l) 0) (set_freelist (head l) (free_pages s) s) /\
    match head l with
    | Some _ => wr_page (head l) (with_u2 (fun _ => 0))
    | None => ret tt
    end (set_freelist (head l) (free_pages s) s) = Ret tt s1).
  { eexists. split; [done|]. destruct l as [|q l]; simpl; [by destruct s|].
    destruct Hc as [_ (nx' & Hpq' & _)].
    rewrite Hpq'. unfold set_pages. by rewrite (insert_as_alter _ _ _ _ Hpq'). }
  destruct Hre as (s1 & Hs1 & Hre). rewrite Hs1 in Hre. clear Hs1 s1.
  unfold _pmm_pop. rewrite (bind_ret _ _ s (freelist s) s) by done. rewrite Hfl.
  rewrite (bind_ret _ _ _ _ _ Hv). rewrite (bind_ret _ _ _ _ _ (rd_page_ok _ _ _ Hp)).
  cbn [p_next]. erewrite bind_ret by done. erewrite bind_ret by exact Hre.
  erewrite bind_ret by (apply wr_page_ok; exact Hpq).
  do 3 (erewrite bind_ret by (apply wr_page_ok, lookup_insert_eq)).
  unfold bind, modify, ret. f_equal.
  clear -Hcnt'. destruct s as [h mb mx ph pgs fl fp tp fr kp mr].
  cbv [set_pages set_freelist pages freelist free_pages hhdm mem_map max_pfn pfndb_phys
       total_pages frames kernel_ptable mmio_regions] in *.
  by rewrite !insert_insert_eq, Hcnt'.
Qed.

Lemma page_to_phys_ok s i :
  mem_map s <> 0 -> 0 <= i <= max_pfn s -> max_pfn s < 2 ^ 40 ->
  pfndb_page_to_phys s (Some i) = i * 4096.
Proof.
  intros Hb Hi Hm. unfold pfndb_page_to_phys, PAGE_SIZE.
  rewrite (proj2 (Z.eqb_neq _ _)) by done.
  replace ((i <? 0) || (i >? max_pfn s)) with false
    by (symmetry; apply orb_false_iff; rewrite Z.gtb_ltb, !Z.ltb_ge; lia).
  rewrite (u64_small i) by lia. apply u64_small. lia.
Qed.

Lemma phys_to_page_ok s i o :
  0 <= o < 4096 -> i <= max_pfn s -> pfndb_phys_to_page s (i * 4096 + o) = Some i.
Proof.
  intros Ho Hi. unfold pfndb_phys_to_page, PAGE_SIZE.
  rewrite Z.div_add_l, Z.div_small, Z.add_0_r by lia.
  rewrite Z.gtb_ltb, (proj2 (Z.ltb_ge _ _)) by lia. done.
Qed.

Lemma push_asserts_ok s i nx fl :
  pages s !! i = Some (mkPage nx 0 fl 0) ->
  has fl PAGE_FREE = false -> has fl PAGE_RESERVED = false -> has fl PAGE_POISON = false ->
  push_asserts (Some i) s = Ret tt s.
Proof.
  intros Hp H1 H2 H3. unfold push_asserts, bind. rewrite (rd_page_ok _ _ _ Hp). simpl.
  by rewrite H1, H2, H3.
Qed.

Lemma push_links_ok s i pg l prev :
  pages s !! i = Some pg -> i ∉ l -> NoDup l ->
  chain (mem_map s) (pages s) prev (freelist s) l ->
  push_links (Some i) s = Ret tt
    (set_freelist (Some i) (u64 (free_pages s + 1))
      (set_pages (fun pgs => <[i := mkPage (head l) 0 PAGE_FREE (p_refcount pg)]>
         (relink (head l) (page_word (mem_map s) (Some i)) pgs)) s)).
Proof.
  intros Hp Hi Hnd Hc. pose proof (chain_head _ _ _ _ _ Hc) as Hh.
  destruct s as [h mb mx ph pgs fl fp tp fr kp mr]. simpl in *.
  unfold push_links, bind, gets, wr_page. simpl. rewrite Hp. simpl. page_writes. rewrite Hh.
  destruct l as [|q l]; simpl.
  - unfold set_freelist, set_pages. simpl. by rewrite !insert_insert_eq.
  - destruct Hc as [_ (nx & Hq & _)]. assert (i <> q) by set_solver.
    rewrite !insert_insert_eq, lookup_insert_ne, Hq by done.
    unfold set_freelist, set_pages. simpl. rewrite !insert_insert_eq.
    rewrite insert_insert_ne by done. unfold with_u2 at 1. simpl.
    by rewrite (insert_as_alter _ _ _ _ Hq).
Qed.

(** A state in which [i] went from neither free nor in use to the head of the stack. *)
Lemma rel_push s s' l u i :
  NoDup l -> i ∉ l -> 0 < i <= max_pfn s -> u !! i = None ->
  mem_map s <> 0 -> 0 <= max_pfn s < 2 ^ 40 ->
  chain (mem_map s) (pages s) 0 (freelist s) l ->
  (forall j, is_Some (pages s !! j) <-> 0 <= j <= max_pfn s) ->
  (exists pg, pages s !! 0 = Some pg /\ p_flags pg = PAGE_RESERVED) ->
  (forall j st, u !! j = Some st -> pages s !! j = Some (used_page st) /\ ust_ok st) ->
  (forall j pg, pages s !! j = Some pg ->
     j = i \/ j ∈ l \/ is_Some (u !! j) \/ p_flags pg = PAGE_RESERVED) ->
  mem_map s' = mem_map s -> max_pfn s' = max_pfn s ->
  freelist s' = Some i -> free_pages s' = Z.of_nat (length l) + 1 ->
  pages s' = <[i := mkPage (head l) 0 PAGE_FREE 0]>
     (relink (head l) (page_word (mem_map s) (Some i)) (pages s)) ->
  pmm_rel s' (i :: l) u.
Proof.
  intros Hnd Hil Hir Hui Hb Hmx Hc Hdom Hz Hused Hoth Hb' Hm' Hfl Hcnt Hpgs.
  pose proof (chain_head _ _ _ _ _ Hc) as Hh.
  assert (Hhead : forall j, head l = Some j -> j ∈ l).
  { destruct l; simpl; [done|]. intros j [= ->]. set_solver. }
  assert (Hne : forall j, j <> i -> j ∉ l -> pages s' !! j = pages s !! j).
  { intros j Hj Hjl. rewrite Hpgs, lookup_insert_ne, relink_ne; [done| |done].
    intros E. by apply Hjl, Hhead. }
  assert (Hnl : forall j, j ∈ l -> u !! j = None).
  { intros j Hj. destruct (u !! j) as [st|] eqn:Eu; [|done].
    destruct (Hused _ _ Eu) as [Hp _].
    destruct (chain_elem _ _ _ _ _ _ Hc Hj) as (? & ? & Hp').
    rewrite Hp in Hp'. injection Hp' as _ _ Hf _. by apply used_flags_not_free in Hf. }
  constructor.
  - by rewrite Hb'.
  - by rewrite Hm'.
  - intros j. rewrite Hm', Hpgs, lookup_insert_is_Some, relink_is_Some, Hdom.
    destruct (decide (i = j)); subst; naive_solver lia.
  - destruct Hz as (pg & Hz & Hf). exists pg. rewrite Hne; [done|lia|].
    intros H0. destruct (chain_elem _ _ _ _ _ _ Hc H0) as (? & ? & Hp'). by simplify_eq.
  - rewrite Hb', Hfl. split; [done|]. exists (head l).
    rewrite Hpgs, lookup_insert_eq. split; [done|].
    rewrite <- Hh. eapply chain_frame; [|by eapply chain_relink].
    intros j Hj. apply lookup_insert_ne. by intros ->.
  - by constructor.
  - rewrite Hcnt. simpl. lia.
  - intros j st Hj. destruct (Hused _ _ Hj) as [Hp Hok]. split; [|done].
    rewrite Hne; [done|congruence|]. intros Hjl. by rewrite Hnl in Hj.
  - intros j pg Hj. rewrite Hpgs in Hj. destruct (decide (i = j)) as [->|Hij]; [set_solver|].
    rewrite lookup_insert_ne in Hj by done.
    apply relink_flags in Hj as (pg0 & Hj & <-). specialize (Hoth _ _ Hj). set_solver.
Qed.

Lemma validate_used_ok s l u i st :
  pmm_rel s l u -> u !! i = Some st -> _page_validate_used (Some i) s = Ret tt s.
Proof.
  intros R Hu. destruct (rel_used _ _ _ R _ _ Hu) as [Hp [Hr Hs]].
  unfold _page_validate_used, bind. rewrite (rd_page_ok _ _ _ Hp). simpl.
  autorewrite with flagsdb. rewrite (proj2 (Z.eqb_neq _ _)) by lia. done.
Qed.

(** The page of a frame in use changes to that of another used state. *)
Lemma rel_update_used s l u i st st' :
  pmm_rel s l u -> u !! i = Some st -> ust_ok st' ->
  pmm_rel (set_pages <[i := used_page st']> s) l (<[i := st']> u).
Proof.
  intros R Hu Hok. pose proof (used_in_range _ _ _ _ _ R Hu) as Hr.
  pose proof (used_not_free _ _ _ _ _ R Hu) as Hil. destruct R; constructor; simpl; try done.
  - intros j. rewrite lookup_insert_is_Some, rel_dom0.
    destruct (decide (i = j)); subst; naive_solver lia.
  - destruct rel_zero0 as (pg & Hz & Hf). exists pg. by rewrite lookup_insert_ne by lia.
  - eapply chain_frame; [|done]. intros j Hj. apply lookup_insert_ne. set_solver.
  - intros j stj Hj. destruct (decide (i = j)) as [->|Hij].
    + rewrite lookup_insert_eq in Hj. simplify_eq. by rewrite lookup_insert_eq.
    + rewrite lookup_insert_ne in Hj by done. rewrite lookup_insert_ne by done. by apply rel_used0.
  - intros j pg Hj. destruct (decide (i = j)) as [->|Hij].
    + right. left. rewrite lookup_insert_eq. eauto.
    + rewrite lookup_insert_ne in Hj by done. rewrite lookup_insert_ne by done.
      by apply rel_other0.
Qed.

Lemma palloc_page_wp s p l u :
  pmm_rel s (p :: l) u ->
  wp palloc_page s (fun r s' => r = Some p /\
    pmm_rel s' l (<[p := mkU 1 0 false]> u) /\ frames s' = frames s /\ env_eq s s').
Proof.
  intros R. unfold palloc_page. apply wp_bind. eapply wp_intro; [exact (pmm_pop_eq _ _ _ _ R)|].
  cbn beta. apply wp_bind. eapply wp_intro; [apply wr_page_ok, lookup_insert_eq|].
  apply wp_ret. split_and!; try done.
  pose proof (free_in_range _ _ _ p R ltac:(left)) as Hr.
  pose proof (free_not_used _ _ _ p R ltac:(left)) as Hup.
  pose proof (rel_nodup _ _ _ R) as Hnd. apply NoDup_cons in Hnd as [Hpl Hnd].
  assert (Hhead : forall j, head l = Some j -> j ∈ l).
  { destruct l; [done|]. intros j [= ->]. left. }
  assert (Hnl : forall j, j ∈ l -> u !! j = None).
  { intros j Hj. apply (free_not_used _ _ _ _ R). by right. }
  destruct R as [Hb Hmx Hdom Hz Hc _ Hcnt Hused Hoth]. destruct Hc as [Hfl (nx & Hp & Hc)].
  assert (nx = head l) as -> by (by eapply chain_head).
  constructor; simpl; try done; rewrite ?insert_insert_eq.
  - intros j. rewrite lookup_insert_is_Some, relink_is_Some, Hdom.
    destruct (decide (p = j)); subst; naive_solver lia.
  - destruct Hz as (pg & Hz & Hf). exists pg. rewrite lookup_insert_ne, relink_ne; [done| |lia].
    intros E%Hhead. destruct (chain_elem _ _ _ _ _ _ Hc E) as (? & ? & Hp'). by simplify_eq.
  - eapply chain_frame; [|by eapply chain_relink].
    intros j Hj. apply lookup_insert_ne. by intros ->.
  - intros j st Hj. destruct (decide (p = j)) as [->|Hpj].
    + rewrite lookup_insert_eq in Hj. simplify_eq. rewrite lookup_insert_eq. done.
    + rewrite lookup_insert_ne in Hj by done.
      rewrite lookup_insert_ne, relink_ne; [by apply Hused| |done].
      intros E%Hhead. by rewrite Hnl in Hj.
  - intros j pg Hj. destruct (decide (p = j)) as [->|Hpj].
    + right. left. rewrite lookup_insert_eq. eauto.
    + rewrite lookup_insert_ne in Hj by done. apply relink_flags in Hj as (pg0 & Hj & <-).
      rewrite lookup_insert_ne by done.
      destruct (Hoth _ _ Hj) as [[->|?]%elem_of_cons|?]; [done|by left|by right].
Qed.

Lemma palloc_empty s u : pmm_rel s [] u -> palloc_page s = Panic /\ palloc_single s = Panic.
Proof.
  intros R. pose proof (rel_chain _ _ _ R) as Hc. simpl in Hc.
  unfold palloc_page, palloc_single, _pmm_pop, bind, gets. by rewrite Hc.
Qed.

Lemma page_ref_eq s l u i st :
  pmm_rel s l u -> u !! i = Some st -> u_ref st + 1 < 2 ^ 32 ->
  page_ref (Some i) s =
    Ret tt (set_pages <[i := used_page (mkU (u_ref st + 1) (u_share st) (u_cow st))]> s).
Proof.
  intros R Hu Hlt. destruct (rel_used _ _ _ R _ _ Hu) as [Hp [Hr Hs]].
  unfold page_ref, bind. rewrite (validate_used_ok _ _ _ _ _ R Hu), (wr_page_ok _ _ _ _ Hp).
  unfold with_refcount, used_page. simpl. by rewrite u32_small by lia.
Qed.

Lemma page_share_eq s l u i st :
  pmm_rel s l u -> u !! i = Some st -> u_share st + 1 < 2 ^ 64 ->
  page_share (Some i) s =
    Ret tt (set_pages <[i := used_page (mkU (u_ref st) (u_share st + 1) (u_cow st))]> s).
Proof.
  intros R Hu Hlt. destruct (rel_used _ _ _ R _ _ Hu) as [Hp [Hr Hs]].
  unfold page_share, bind. rewrite (validate_used_ok _ _ _ _ _ R Hu), (wr_page_ok _ _ _ _ Hp).
  unfold rd_page. simpl. rewrite lookup_insert_eq. simpl. rewrite u64_small by lia.
  unfold when. rewrite Z.gtb_ltb. destruct (1 <? u_share st + 1) eqn:E; bools.
  - unfold wr_page. simpl. rewrite lookup_insert_eq. unfold set_pages. simpl.
    rewrite insert_insert_eq. unfold with_flags, with_u2, used_page, used_flags. simpl.
    rewrite (proj2 (Z.ltb_lt 1 (u_share st + 1))), u64_small by lia.
    destruct (1 <? u_share st), (u_cow st); done.
  - unfold ret, with_u2, used_page, used_flags. simpl. rewrite u64_small by lia.
    rewrite !(proj2 (Z.ltb_ge 1 _)) by lia. done.
Qed.

Lemma page_unshare_eq s l u i st :
  pmm_rel s l u -> u !! i = Some st -> 0 < u_share st ->
  page_unshare (Some i) s =
    Ret tt (set_pages <[i := used_page (mkU (u_ref st) (u_share st - 1) (u_cow st))]> s).
Proof.
  intros R Hu Hlt. destruct (rel_used _ _ _ R _ _ Hu) as [Hp [Hr Hs]].
  unfold page_unshare, bind. rewrite (validate_used_ok _ _ _ _ _ R Hu), (rd_page_ok _ _ _ Hp).
  simpl. rewrite (proj2 (Z.eqb_neq _ _)) by lia. rewrite Hp.
  unfold rd_page. simpl. rewrite lookup_insert_eq. simpl. rewrite u64_small by lia.
  unfold when. destruct (u_share st - 1 <=? 1) eqn:E; bools.
  - unfold wr_page. simpl. rewrite lookup_insert_eq. unfold set_pages. simpl.
    rewrite insert_insert_eq. unfold with_flags, with_u2, used_page, used_flags. simpl.
    rewrite (proj2 (Z.ltb_ge 1 (u_share st - 1))), u64_small by lia.
    destruct (1 <? u_share st), (u_cow st); done.
  - unfold ret, with_u2, used_page, used_flags. simpl. rewrite u64_small by lia.
    rewrite !(proj2 (Z.ltb_lt 1 _)) by lia. done.
Qed.

#[local] Arguments rd_page : simpl never.
#[local] Arguments wr_page : simpl never.
#[local] Arguments _page_validate_used : simpl never.
#[local] Arguments pfndb_page_to_phys : simpl never.

Lemma page_unref_many s l u i st :
  pmm_rel s l u -> u !! i = Some st -> 1 < u_ref st ->
  page_unref (Some i) s =
    Ret tt (set_pages <[i := used_page (mkU (u_ref st - 1) (u_share st) (u_cow st))]> s).
Proof.
  intros R Hu Hlt. destruct (rel_used _ _ _ R _ _ Hu) as [Hp [Hr Hs]].
  unfold page_unref, bind. rewrite (rd_page_ok _ _ _ Hp). simpl. rewrite used_flags_used. simpl.
  rewrite (validate_used_ok _ _ _ _ _ R Hu).
  rewrite (proj2 (Z.eqb_neq (u_ref st) 0)) by lia. rewrite (wr_page_ok _ _ _ _ Hp).
  erewrite rd_page_ok by apply lookup_insert_eq. simpl. rewrite u32_small by lia.
  rewrite (proj2 (Z.eqb_neq (u_ref st - 1) 0)) by lia.
  unfold ret, with_refcount, used_page. simpl. by rewrite u32_small by lia.
Qed.

Lemma page_unref_mapped s l u i st :
  pmm_rel s l u -> u !! i = Some st -> u_ref st = 1 -> u_share st <> 0 ->
  page_unref (Some i) s = Panic.
Proof.
  intros R Hu H1 H0. destruct (rel_used _ _ _ R _ _ Hu) as [Hp _].
  unfold page_unref, bind. rewrite (rd_page_ok _ _ _ Hp). simpl. rewrite used_flags_used. simpl.
  rewrite (validate_used_ok _ _ _ _ _ R Hu), H1. simpl. rewrite (wr_page_ok _ _ _ _ Hp).
  erewrite rd_page_ok by apply lookup_insert_eq. simpl. rewrite H1. simpl.
  by rewrite (proj2 (Z.eqb_neq (u_share st) 0)).
Qed.

Lemma page_unref_last s l u i st :
  pmm_rel s l u -> u !! i = Some st -> u_ref st = 1 -> u_share st = 0 ->
  wp (page_unref (Some i)) s (fun _ s' =>
    pmm_rel s' (i :: l) (delete i u) /\ frames s' = <[i := ∅]> (frames s) /\ env_eq s s').
Proof.
  intros R Hu H1 H0. pose proof (used_in_range _ _ _ _ _ R Hu) as Hir.
  pose proof (used_not_free _ _ _ _ _ R Hu) as Hil. pose proof (rel_length _ _ _ R) as Hlen.
  destruct R as [Hb Hmx Hdom Hz Hc Hnd Hcnt Hused Hoth].
  destruct (Hused _ _ Hu) as [Hp _].
  unfold page_unref. apply wp_bind. eapply wp_intro; [by apply rd_page_ok|]. simpl.
  autorewrite with flagsdb. simpl. apply wp_bind.
  eapply wp_intro.
  { unfold _page_validate_used, bind. rewrite (rd_page_ok _ _ _ Hp). simpl.
    autorewrite with flagsdb. simpl. by rewrite H1. }
  rewrite H1. simpl. apply wp_bind. eapply wp_intro; [by apply wr_page_ok|].
  apply wp_bind. eapply wp_intro; [apply rd_page_ok, lookup_insert_eq|].
  simpl. rewrite H1, H0. simpl. unfold _pmm_push.
  set (pg := with_refcount _ _).
  assert (Hpg : pg = mkPage None 0 (used_flags st) 0).
  { unfold pg, with_refcount, used_page. simpl. by rewrite H0, H1. }
  rewrite Hpg. set (s1 := set_pages _ s).
  apply wp_bind. eapply wp_intro.
  { eapply push_asserts_ok; [apply lookup_insert_eq|..]; by autorewrite with flagsdb. }
  apply wp_bind, wp_gets. apply wp_bind, wp_modify.
  set (s2 := set_frames _ s1).
  assert (Hc2 : chain (mem_map s2) (pages s2) 0 (freelist s2) l).
  { eapply chain_frame; [|exact Hc]. intros j Hj. simpl. apply lookup_insert_ne. by intros ->. }
  eapply wp_intro.
  { apply (push_links_ok s2 i (mkPage None 0 (used_flags st) 0) l 0); try done. apply lookup_insert_eq. }
  split_and!; [|simpl; rewrite page_to_phys_ok by (simpl; lia); by rewrite Z.div_mul|by repeat split].
  apply (rel_push s2); simpl; try done.
  - apply lookup_delete_eq.
  - intros j. rewrite lookup_insert_is_Some, Hdom.
    destruct (decide (i = j)); subst; naive_solver lia.
  - destruct Hz as (pz & Hz & Hf). exists pz. by rewrite lookup_insert_ne by lia.
  - intros j stj Hj. rewrite lookup_delete in Hj. case_decide; [done|].
    rewrite lookup_insert_ne by done. by apply Hused.
  - intros j pj Hj. destruct (decide (i = j)) as [->|Hij]; [by left|]. right.
    rewrite lookup_insert_ne in Hj by done. rewrite lookup_delete_ne by done. by apply Hoth.
  - rewrite u64_small; lia.
Qed.

Lemma mark_cow_eq s l u i st :
  pmm_rel s l u -> u !! i = Some st ->
  page_mark_cow (Some i) s =
    Ret tt (set_pages <[i := used_page (mkU (u_ref st) (u_share st) true)]> s).
Proof.
  intros R Hu. destruct (rel_used _ _ _ R _ _ Hu) as [Hp _].
  unfold page_mark_cow, bind. rewrite (validate_used_ok _ _ _ _ _ R Hu), (wr_page_ok _ _ _ _ Hp).
  unfold with_flags, used_page, used_flags. simpl. by destruct (1 <? _), (u_cow st).
Qed.

Lemma clear_cow_eq s l u i st :
  pmm_rel s l u -> u !! i = Some st ->
  page_clear_cow (Some i) s =
    Ret tt (set_pages <[i := used_page (mkU (u_ref st) (u_share st) false)]> s).
Proof.
  intros R Hu. destruct (rel_used _ _ _ R _ _ Hu) as [Hp _].
  unfold page_clear_cow, bind. rewrite (validate_used_ok _ _ _ _ _ R Hu), (wr_page_ok _ _ _ _ Hp).
  unfold with_flags, used_page, used_flags. simpl. by destruct (1 <? _), (u_cow st).
Qed.

(** A frame that is not in use (free or reserved) fails the validation. *)
Lemma validate_unused s l u i :
  pmm_rel s l u -> 0 <= i <= max_pfn s -> u !! i = None ->
  _page_validate_used (Some i) s = Panic /\ page_unref (Some i) s = Panic.
Proof.
  intros R Hr Hu. destruct (proj2 (rel_dom _ _ _ R i) Hr) as [pg Hp].
  assert (Hf : has (p_flags pg) PAGE_USED = false /\ has (p_flags pg) PAGE_POISON = false).
  { destruct (rel_other _ _ _ R _ _ Hp) as [Hl|[[? ?]| -> ]]; [|congruence|done].
    destruct (chain_elem _ _ _ _ _ _ (rel_chain _ _ _ R) Hl) as (? & ? & Hp').
    rewrite Hp in Hp'. by simplify_eq. }
  destruct Hf as [Hf Hf2].
  unfold page_unref, _page_validate_used, bind. rewrite (rd_page_ok _ _ _ Hp). simpl.
  by rewrite Hf, Hf2.
Qed.

(** ** Initialisation *)

(** The frames from [k] to [mx] that the database marks free, in ascending order. *)
Definition free_from (c : Z -> bool) (mx k : Z) : list Z :=
  filter (fun i => c i = true) (seqZ k (mx + 1 - k)).

Lemma free_from_step c mx k :
  k <= mx ->
  free_from c mx k = if c k then k :: free_from c mx (k + 1) else free_from c mx (k + 1).
Proof.
  intros Hk. unfold free_from. rewrite seqZ_cons by lia.
  replace (Z.succ k) with (k + 1) by lia.
  replace (Z.pred (mx + 1 - k)) with (mx + 1 - (k + 1)) by lia.
  rewrite filter_cons. destruct (c k); by repeat case_decide.
Qed.

Lemma free_from_end c mx : free_from c mx (mx + 1) = [].
Proof. unfold free_from. by rewrite Z.sub_diag. Qed.

Lemma elem_of_free_from c mx k i : i ∈ free_from c mx k <-> k <= i <= mx /\ c i = true.
Proof. unfold free_from. rewrite list_elem_of_filter, elem_of_seqZ. split; intros; intuition lia. Qed.

Lemma free_from_nodup c mx k : NoDup (free_from c mx k).
Proof. apply NoDup_filter, NoDup_seqZ. Qed.

Lemma free_from_length c mx k : 0 <= k <= mx + 1 -> Z.of_nat (length (free_from c mx k)) <= mx + 1 - k.
Proof.
  intros Hk. unfold free_from. pose proof (length_filter (fun i => c i = true) (seqZ k (mx + 1 - k))) as H.
  rewrite length_seqZ in H. lia.
Qed.

Lemma free_from_sorted c mx k : k <= mx + 1 -> StronglySorted Z.lt (free_from c mx k).
Proof.
  intros Hk. assert (Hn : exists n, Z.of_nat n = mx + 1 - k) by (exists (Z.to_nat (mx + 1 - k)); lia).
  destruct Hn as [n Hn]. revert k Hk Hn. induction n as [|n IH]; intros k Hk Hn.
  - replace k with (mx + 1) by lia. rewrite free_from_end. constructor.
  - rewrite free_from_step by lia. destruct (c k); [|apply IH; lia].
    constructor; [apply IH; lia|]. apply Forall_forall. intros i [Hi _]%elem_of_free_from. lia.
Qed.

(** What holds when the loop of [pmm_init] has done the frames from [k] on. *)
Record init_inv (raw : Z -> Z) (c : Z -> bool) (s0 : mm) (k : Z) (s : mm) : Prop := {
  ii_env : mem_map s = mem_map s0 /\ max_pfn s = max_pfn s0 /\ frames s = frames s0 /\
    total_pages s = total_pages s0;
  ii_chain : chain (mem_map s) (pages s) 0 (freelist s) (free_from c (max_pfn s0) k);
  ii_count : free_pages s = Z.of_nat (length (free_from c (max_pfn s0) k));
  ii_dom : forall i, is_Some (pages s !! i) <-> 0 <= i <= max_pfn s0;
  ii_rest : forall i, 0 <= i <= max_pfn s0 -> i < k \/ c i = false ->
    pages s !! i = Some (init_page raw c (max_pfn s0) i);
}.

Lemma pmm_init_one_skip raw c s0 k s :
  init_inv raw c s0 (k + 1) s -> 0 <= k <= max_pfn s0 -> c k = false ->
  wp (pmm_init_one k) s (fun _ s' => init_inv raw c s0 k s').
Proof.
  intros [(Hm & Hmx & Hf & Ht) Hch Hcnt Hdom Hrest] Hk Hck.
  unfold pmm_init_one. apply wp_bind, wp_gets. unfold pfndb_getptr.
  rewrite Hmx, Z.gtb_ltb, (proj2 (Z.ltb_ge _ _)) by lia.
  apply wp_bind. eapply wp_intro; [apply rd_page_ok, Hrest; [lia|by right]|].
  unfold init_page. simpl. rewrite Hck. simpl. apply wp_ret.
  constructor; [done|..|done|].
  - by rewrite free_from_step, Hck by lia.
  - by rewrite free_from_step, Hck by lia.
  - intros i Hi [Hik|Hci]; apply Hrest; try done; [left; lia|by right].
Qed.

Lemma pmm_init_one_push raw c s0 k s :
  init_inv raw c s0 (k + 1) s -> 0 <= k <= max_pfn s0 -> max_pfn s0 < 2 ^ 40 -> c k = true ->
  wp (pmm_init_one k) s (fun _ s' => init_inv raw c s0 k s').
Proof.
  intros [(Hm & Hmx & Hf & Ht) Hch Hcnt Hdom Hrest] Hk Hlim Hck.
  unfold pmm_init_one. apply wp_bind, wp_gets. unfold pfndb_getptr.
  rewrite Hmx, Z.gtb_ltb, (proj2 (Z.ltb_ge _ _)) by lia.
  pose proof (Hrest k ltac:(lia) ltac:(left; lia)) as Hpk.
  apply wp_bind. eapply wp_intro; [by apply rd_page_ok|].
  unfold init_page at 1 2. simpl. rewrite Hck. simpl.
  do 5 (apply wp_bind; eapply wp_intro;
    [apply wr_page_ok; first [exact Hpk | apply lookup_insert_eq]|]; cbn beta).
  unfold _pmm_push_noscrub. apply wp_bind. set (s1 := set_pages _ _).
  set (l := free_from c (max_pfn s0) (k + 1)).
  assert (Hkl : k ∉ l) by (intros Hin%elem_of_free_from; lia).
  assert (Hp1 : pages s1 = <[k := mkPage None 0 0 0]> (pages s)).
  { unfold s1. simpl. rewrite !insert_insert_eq. f_equal.
    unfold init_page, with_flags, with_u2, with_next, with_refcount. simpl. by rewrite Hck. }
  eapply wp_intro.
  { eapply (push_asserts_ok s1 k None 0); [by rewrite Hp1, lookup_insert_eq|done..]. }
  assert (Hc1 : chain (mem_map s1) (pages s1) 0 (freelist s1) l).
  { rewrite Hp1. eapply chain_frame; [|exact Hch].
    intros j Hj. apply lookup_insert_ne. by intros ->. }
  eapply wp_intro.
  { apply (push_links_ok s1 k (mkPage None 0 0 0) l 0); try done.
    - by rewrite Hp1, lookup_insert_eq.
    - apply free_from_nodup. }
  assert (Hhead : forall j, head l = Some j -> j ∈ l).
  { destruct l; [done|]. intros j [= ->]. left. }
  pose proof (chain_head _ _ _ _ _ Hc1) as Hh.
  constructor.
  - done.
  - rewrite free_from_step, Hck by lia. split; [done|]. exists (head l).
    cbn [pages set_freelist set_pages]. rewrite lookup_insert_eq. split; [done|].
    rewrite <- Hh. eapply chain_frame; [|eapply chain_relink; [apply free_from_nodup|done]].
    intros j Hj. apply lookup_insert_ne. by intros ->.
  - rewrite free_from_step, Hck by lia. simpl. rewrite Hcnt.
    pose proof (free_from_length c (max_pfn s0) (k + 1) ltac:(lia)). rewrite u64_small; lia.
  - intros i. cbn [pages set_freelist set_pages].
    rewrite lookup_insert_is_Some, relink_is_Some, Hp1, lookup_insert_is_Some, Hdom.
    destruct (decide (k = i)); subst; naive_solver lia.
  - intros i Hi Hor. cbn [pages set_freelist set_pages].
    assert (k <> i) by (intros ->; destruct Hor; [lia|congruence]).
    rewrite lookup_insert_ne, relink_ne, Hp1, lookup_insert_ne; try done.
    + apply Hrest; [done|]. destruct Hor; [left; lia|by right].
    + intros [Hj Hci]%Hhead%elem_of_free_from. destruct Hor; [lia|congruence].
Qed.

Lemma pmm_init_loop_wp raw c s0 n s :
  init_inv raw c s0 (Z.of_nat n) s -> Z.of_nat n <= max_pfn s0 + 1 -> max_pfn s0 < 2 ^ 40 ->
  wp (pmm_init_loop n) s (fun _ s' => init_inv raw c s0 0 s').
Proof.
  revert s. induction n as [|n IH]; intros s Hi Hn Hlim; [by apply wp_ret|].
  simpl. apply wp_bind. replace (Z.of_nat (S n)) with (Z.of_nat n + 1) in Hi by lia.
  eapply wp_mono; [|intros ? s'; intros Hs'; apply (IH s'); [exact Hs'|lia|done]].
  destruct (c (Z.of_nat n)) eqn:Ec.
  - apply pmm_init_one_push; [done|lia|done|done].
  - apply pmm_init_one_skip; [done|lia|done].
Qed.

Lemma pmm_init_wp raw c mx s :
  db_is raw c mx s -> mem_map s <> 0 -> 0 <= mx < 2 ^ 40 -> c 0 = false ->
  wp pmm_init s (fun _ s' => pmm_rel s' (free_from c mx 0) ∅ /\
    total_pages s' = mx + 1 /\ max_pfn s' = mx /\ frames s' = frames s).
Proof.
  intros [Hmx Hp] Hb Hlim Hc0. unfold pmm_init.
  apply wp_bind, wp_gets. apply wp_bind, wp_gets.
  apply wp_bind, wp_assert.
  { apply bool_decide_eq_true. unfold pfndb_getdb. rewrite (proj2 (Z.eqb_neq _ _)) by done. eauto. }
  apply wp_bind, wp_modify. apply wp_bind, wp_modify.
  unfold pfndb_getmax. rewrite Hmx. set (s1 := set_total _ _).
  assert (H1 : init_inv raw c s1 (mx + 1) s1).
  { constructor; simpl; rewrite ?Hmx, ?free_from_end; try done.
    - intros i. rewrite Hp. case_decide; [naive_solver|]. split; [by intros [? ?]|done].
    - intros i Hi _. by rewrite Hp, decide_True. }
  eapply wp_mono; [apply (pmm_init_loop_wp raw c s1)|].
  - replace (Z.of_nat (Z.to_nat (mx + 1))) with (mx + 1) by lia. done.
  - simpl. lia.
  - simpl. lia.
  - intros ? s' [(Hm' & Hmx' & Hf' & Ht') Hch Hcnt Hdom Hrest]. simpl in *.
    rewrite Hmx in *. rewrite u64_small in Ht' by lia. split_and!; try done.
    constructor; rewrite ?Hmx'; try done.
    + by rewrite Hm'.
    + exists (init_page raw c mx 0). rewrite Hrest by (try lia; by right).
      unfold init_page. by rewrite Hc0.
    + apply free_from_nodup.
    + intros i pg Hi. assert (0 <= i <= mx) by (apply Hdom; eauto).
      destruct (c i) eqn:Eci; [left; by apply elem_of_free_from|].
      right. right. rewrite Hrest in Hi by (try lia; by right). simplify_eq.
      unfold init_page. by rewrite Eci.
Qed.

(** ** The allocator as a state machine *)

Inductive pmm_op :=
| OpAlloc | OpRef (i : Z) | OpUnref (i : Z) | OpShare (i : Z) | OpUnshare (i : Z)
| OpMarkCow (i : Z) | OpClearCow (i : Z).

Definition run_op (op : pmm_op) : M mm unit :=
  match op with
  | OpAlloc => palloc_page ;;; ret tt
  | OpRef i => page_ref (Some i)
  | OpUnref i => page_unref (Some i)
  | OpShare i => page_share (Some i)
  | OpUnshare i => page_unshare (Some i)
  | OpMarkCow i => page_mark_cow (Some i)
  | OpClearCow i => page_clear_cow (Some i)
  end.

Definition op_frame (op : pmm_op) : option Z :=
  match op with
  | OpAlloc => None
  | OpRef i | OpUnref i | OpShare i | OpUnshare i | OpMarkCow i | OpClearCow i => Some i
  end.

(** What the abstract allocator answers: a next state, a refusal (the kernel
    panics), or a counter at the top of its width. *)
Inductive abs_result :=
| AOk (l : list Z) (u : gmap Z ustate)
| APanic
| AOverflow.

Definition abs_used (op : pmm_op) (i : Z) (st : ustate) (l : list Z) (u : gmap Z ustate)
  : abs_result :=
  match op with
  | OpAlloc => APanic
  | OpRef _ =>
      if u_ref st + 1 <? 2 ^ 32
      then AOk l (<[i := mkU (u_ref st + 1) (u_share st) (u_cow st)]> u) else AOverflow
  | OpUnref _ =>
      if 1 <? u_ref st then AOk l (<[i := mkU (u_ref st - 1) (u_share st) (u_cow st)]> u)
      else if u_share st =? 0 then AOk (i :: l) (delete i u) else APanic
  | OpShare _ =>
      if u_share st + 1 <? 2 ^ 64
      then AOk l (<[i := mkU (u_ref st) (u_share st + 1) (u_cow st)]> u) else AOverflow
  | OpUnshare _ =>
      if u_share st =? 0 then AOk l u
      else AOk l (<[i := mkU (u_ref st) (u_share st - 1) (u_cow st)]> u)
  | OpMarkCow _ => AOk l (<[i := mkU (u_ref st) (u_share st) true]> u)
  | OpClearCow _ => AOk l (<[i := mkU (u_ref st) (u_share st) false]> u)
  end.

Definition abs_step (op : pmm_op) (l : list Z) (u : gmap Z ustate) : abs_result :=
  match op_frame op with
  | None => match l with [] => APanic | p :: l' => AOk l' (<[p := mkU 1 0 false]> u) end
  | Some i => match u !! i with None => APanic | Some st => abs_used op i st l u end
  end.

Lemma rel_ust s l u i st : pmm_rel s l u -> u !! i = Some st -> ust_ok st.
Proof. intros R Hu. by apply (rel_used _ _ _ R) in Hu as [_ ?]. Qed.

Lemma run_op_used op i st s l u l' u' :
  pmm_rel s l u -> op_frame op = Some i -> u !! i = Some st ->
  abs_used op i st l u = AOk l' u' -> wp (run_op op) s (fun _ s' => pmm_rel s' l' u').
Proof.
  intros R Hop Hu Habs. destruct (rel_ust _ _ _ _ _ R Hu) as [Hr Hs].
  assert (Hset : forall st', ust_ok st' ->
    pmm_rel (set_pages <[i := used_page st']> s) l (<[i := st']> u))
    by (intros; by eapply rel_update_used).
  destruct op; simplify_eq/=; repeat case_match; simplify_eq; bools; unfold run_op.
  - eapply wp_intro; [by eapply page_ref_eq|]. apply Hset. split; simpl; lia.
  - eapply wp_intro; [by eapply page_unref_many|]. apply Hset. split; simpl; lia.
  - eapply wp_mono; [eapply page_unref_last; eauto; lia|]. naive_solver.
  - eapply wp_intro; [by eapply page_share_eq|]. apply Hset. split; simpl; lia.
  - eapply wp_intro; [|exact R]. unfold page_unshare, bind.
    rewrite (validate_used_ok _ _ _ _ _ R Hu).
    destruct (rel_used _ _ _ R _ _ Hu) as [Hp _]. rewrite (rd_page_ok _ _ _ Hp). simpl.
    by rewrite H.
  - eapply wp_intro; [eapply page_unshare_eq; eauto; lia|]. apply Hset. split; simpl; lia.
  - eapply wp_intro; [by eapply mark_cow_eq|]. apply Hset. split; simpl; lia.
  - eapply wp_intro; [by eapply clear_cow_eq|]. apply Hset. split; simpl; lia.
Qed.

Lemma run_op_ok op s l u l' u' :
  pmm_rel s l u -> abs_step op l u = AOk l' u' ->
  wp (run_op op) s (fun _ s' => pmm_rel s' l' u').
Proof.
  intros R. unfold abs_step. destruct (op_frame op) as [i|] eqn:Eop.
  - destruct (u !! i) as [st|] eqn:Eu; [|done]. by apply run_op_used.
  - destruct op; try done. destruct l as [|p l]; [done|]. intros [= <- <-].
    simpl. apply wp_bind. eapply wp_mono; [by apply palloc_page_wp|].
    intros ? ? (-> & ? & _). by apply wp_ret.
Qed.

Lemma run_op_panic op s l u :
  pmm_rel s l u -> abs_step op l u = APanic ->
  (forall i, op_frame op = Some i -> 0 <= i <= max_pfn s) -> run_op op s = Panic.
Proof.
  intros R Habs Hr. unfold abs_step in Habs. destruct (op_frame op) as [i|] eqn:Eop.
  - destruct (u !! i) as [st|] eqn:Eu.
    + destruct (rel_ust _ _ _ _ _ R Eu) as [Hrf _].
      destruct op; simplify_eq/=; repeat case_match; simplify_eq; bools.
      eapply page_unref_mapped; eauto; lia.
    + destruct (validate_unused _ _ _ _ R (Hr _ eq_refl) Eu) as [Hv Hun].
      destruct op; simplify_eq/=; unfold page_ref, page_share, page_unshare, bind;
        rewrite ?Hv, ?Hun; done.
  - destruct op; try done. destruct l; [|done]. simpl. unfold bind.
    by rewrite (proj1 (palloc_empty _ _ R)).
Qed.

(** A run of operations, in the kernel and in the abstract allocator. *)
Fixpoint run_ops (ops : list pmm_op) : M mm unit :=
  match ops with [] => ret tt | op :: ops' => run_op op ;;; run_ops ops' end.

Inductive abs_steps : list pmm_op -> list Z -> gmap Z ustate -> list Z -> gmap Z ustate -> Prop :=
| abs_nil l u : abs_steps [] l u l u
| abs_cons op ops l u l1 u1 l2 u2 :
    abs_step op l u = AOk l1 u1 -> abs_steps ops l1 u1 l2 u2 ->
    abs_steps (op :: ops) l u l2 u2.

Lemma run_ops_ok ops s l u l' u' :
  pmm_rel s l u -> abs_steps ops l u l' u' -> wp (run_ops ops) s (fun _ s' => pmm_rel s' l' u').
Proof.
  intros R H. revert s R. induction H as [l u|op ops l u l1 u1 l2 u2 Hop Hops IH]; intros s R.
  - by apply wp_ret.
  - simpl. apply wp_bind. eapply wp_mono; [by eapply run_op_ok|]. intros ? s' Hs'. by apply IH.
Qed.

(** Every frame is free, in use or reserved, and the first two kinds only change places. *)
Lemma abs_step_conserves op l u l' u' s :
  pmm_rel s l u -> abs_step op l u = AOk l' u' ->
  (length l' + size u' = length l + size u)%nat.
Proof.
  intros R. unfold abs_step. destruct (op_frame op) as [i|] eqn:Eop.
  - destruct (u !! i) as [st|] eqn:Eu; [|done]. intros Habs.
    assert (Hi : forall st', size (<[i := st']> u) = size u)
      by (intros; apply map_size_insert_Some; eauto).
    destruct op; simplify_eq/=; repeat case_match; simplify_eq; rewrite ?Hi; try done.
    assert (size u <> 0)%nat by (apply map_size_non_empty_iff; intros ->; done).
    rewrite map_size_delete_Some by eauto. simpl. lia.
  - destruct op; try done. destruct l as [|p l]; [done|]. intros [= <- <-].
    rewrite map_size_insert_None by (apply (free_not_used _ _ _ _ R); left). simpl. lia.
Qed.

(** ** Properties *)

(** C1: the allocator refines the abstract one.  From a state that represents
    the free stack [l] and the frames in use [u], every sequence of
    allocations, reference, mapping-count and copy-on-write operations the
    abstract allocator accepts runs without panic in the kernel and ends in a
    state that represents the abstract result; the frames free and in use
    together stay the same number. *)
Theorem pmm_refines_abstract ops s l u l' u' :
  pmm_rel s l u -> abs_steps ops l u l' u' ->
  wp (run_ops ops) s (fun _ s' => pmm_rel s' l' u' /\
    free_pages s' + Z.of_nat (size u') = free_pages s + Z.of_nat (size u)).
Proof.
  intros R H. revert s R. induction H as [l u|op ops l u l1 u1 l2 u2 Hop Hops IH]; intros s R.
  - by apply wp_ret.
  - simpl. apply wp_bind. eapply wp_mono; [by eapply run_op_ok|].
    intros ? s' Hs'. eapply wp_mono; [by apply IH|]. intros ? s'' [R'' Heq]. split; [done|].
    pose proof (abs_step_conserves _ _ _ _ _ _ R Hop).
    rewrite Heq, (rel_count _ _ _ Hs'), (rel_count _ _ _ R). lia.
Qed.

(** misuse stops the machine.  Whenever the abstract allocator refuses an
    operation on a tracked frame (allocation with no frame left, any operation
    on a frame that is not in use, dropping the last reference of a frame that
    is still mapped) the kernel panics. *)
Theorem pmm_misuse_panics op s l u :
  pmm_rel s l u -> abs_step op l u = APanic ->
  (forall i, op_frame op = Some i -> 0 <= i <= max_pfn s) -> run_op op s = Panic.
Proof. apply run_op_panic. Qed.

(** C36: booting.  [pfndb_init] followed by [pmm_init] yields an allocator whose
    free stack holds, in ascending order, exactly the frames but frame 0 that
    lie in a usable entry after the database took its own memory; nothing is in use. *)
Theorem boot_allocator raw mmap s ph mmap' :
  Forall entry_wf mmap -> _pfndb_calc_max_pfn mmap 0 < 2 ^ 40 ->
  _pfndb_reserve (pfndb_size (_pfndb_calc_max_pfn mmap 0)) mmap = Some (ph, mmap') ->
  u64 (ph + hhdm s) <> 0 ->
  wp (pfndb_init raw mmap ;;; pmm_init) s (fun _ s' => exists l,
    pmm_rel s' l ∅ /\ StronglySorted Z.lt l /\
    total_pages s' = _pfndb_calc_max_pfn mmap 0 + 1 /\
    forall i, i ∈ l <-> 0 < i <= _pfndb_calc_max_pfn mmap 0 /\ covered mmap' i = true).
Proof.
  intros Hwf Hmx Hres Hb. apply wp_bind. eapply wp_mono; [by eapply pfndb_init_wp|].
  intros ? s1 (-> & Hm1 & Hdb). pose proof (calc_max_mono mmap 0).
  eapply wp_mono; [eapply pmm_init_wp; [exact Hdb|congruence|lia|done]|].
  intros ? s2 (R & Ht & _ & _). eexists. split; [exact R|]. split; [|split; [done|]].
  - apply free_from_sorted. lia.
  - intros i. rewrite elem_of_free_from, andb_true_iff, negb_true_iff, Z.eqb_neq. intuition lia.
Qed.

(** allocating and freeing are inverse.  [palloc_page] hands out the top
    of the free stack, a frame nobody was using, and giving it straight back
    with [page_unref] restores both the stack and the frames in use, with the
    frame scrubbed to zero. *)
Theorem alloc_free_roundtrip s p l u :
  pmm_rel s (p :: l) u ->
  u !! p = None /\
  wp (let* r := palloc_page in page_unref r) s (fun _ s' =>
    pmm_rel s' (p :: l) u /\ free_pages s' = free_pages s /\
    frames s' = <[p := ∅]> (frames s)).
Proof.
  intros R. assert (Hu : u !! p = None) by (apply (free_not_used _ _ _ _ R); left).
  split; [done|]. apply wp_bind. eapply wp_mono; [by apply palloc_page_wp|].
  intros r s1 (-> & R1 & Hf & _).
  eapply wp_mono; [eapply page_unref_last; [exact R1|apply lookup_insert_eq|done|done]|].
  intros ? s2 (R2 & Hf2 & _). rewrite delete_insert_id in R2 by done.
  split_and!; [done|by rewrite (rel_count _ _ _ R2), (rel_count _ _ _ R)|by rewrite Hf2, Hf].
Qed.

(** [palloc_single] gives the physical address of a frame from the free
    stack: page aligned, never 0, and mapped back to its descriptor, which it
    leaves with one reference. *)
Theorem palloc_single_spec s p l u :
  pmm_rel s (p :: l) u ->
  wp palloc_single s (fun r s' => r = p * PAGE_SIZE /\ 0 < r < 2 ^ 52 /\
    pfndb_phys_to_page s' r = Some p /\ pmm_rel s' l (<[p := mkU 1 0 false]> u)).
Proof.
  intros R. pose proof (palloc_page_wp _ _ _ _ R) as H.
  pose proof (free_in_range _ _ _ p R ltac:(left)) as Hr. pose proof (rel_max _ _ _ R) as Hm.
  unfold palloc_page, palloc_single, bind, wp in *.
  destruct (_pmm_pop s) as [[q|] s0| | |]; try done.
  destruct (wr_page (Some q) _ s0) as [[] s1| | |]; try done. simpl in *.
  destruct H as ([= ->] & R1 & _ & Henv). destruct Henv as (Hmx & Hmm & _).
  pose proof (rel_base _ _ _ R1). unfold PAGE_SIZE.
  rewrite page_to_phys_ok by lia. split_and!; [done|lia|lia| |done].
  replace (p * 4096) with (p * 4096 + 0) by lia. apply phys_to_page_ok; lia.
Qed.

(** ** Witnesses *)

Definition ex_pmm : mm :=
  final (pfndb_init (fun _ => 7) ex_map ;;; pmm_init) ex_boot.
Definition ex_free : list Z := [1; 2; 3; 5; 6; 7; 8; 9; 10; 11; 12].

Definition ex_map' : list memmap_entry :=
  [mkEntry 4096 12288 true; mkEntry 16384 4096 false; mkEntry 20480 32768 true].

Lemma ex_map_wf : Forall entry_wf ex_map.
Proof.
  unfold ex_map, entry_wf. repeat (apply Forall_cons; split; [simpl; lia|]). by apply Forall_nil.
Qed.
Lemma ex_reserve :
  _pfndb_reserve (pfndb_size (_pfndb_calc_max_pfn ex_map 0)) ex_map = Some (0, ex_map').
Proof. vm_compute. reflexivity. Qed.

Lemma ex_free_from :
  free_from (fun i => negb (i =? 0) && covered ex_map' i) (_pfndb_calc_max_pfn ex_map 0) 0
    = ex_free.
Proof. vm_compute. reflexivity. Qed.

Lemma ex_pmm_init s1 :
  mem_map s1 = u64 (0 + hhdm ex_boot) ->
  db_is (fun _ => 7) (fun i => negb (i =? 0) && covered ex_map' i)
    (_pfndb_calc_max_pfn ex_map 0) s1 ->
  wp pmm_init s1 (fun _ s' => pmm_rel s' ex_free ∅).
Proof.
  intros Hm Hdb. rewrite <- ex_free_from. eapply wp_mono; [eapply pmm_init_wp; [exact Hdb|..]|].
  - rewrite Hm. vm_compute. congruence.
  - vm_compute. split; congruence.
  - reflexivity.
  - intros ? s2 R. exact (proj1 R).
Qed.

Lemma ex_boot_base : u64 (0 + hhdm ex_boot) <> 0.
Proof. vm_compute. congruence. Qed.

Lemma ex_boot_wp :
  wp (pfndb_init (fun _ => 7) ex_map ;;; pmm_init) ex_boot (fun _ s' => pmm_rel s' ex_free ∅).
Proof.
  apply wp_bind.
  apply (wp_mono _ _ _ _ (pfndb_init_wp (fun _ => 7) ex_map ex_boot 0 ex_map'
    ex_map_wf ex_reserve ex_boot_base)).
  intros r s1 (_ & Hm & Hdb). by apply ex_pmm_init.
Qed.

Lemma ex_pmm_rel : pmm_rel ex_pmm ex_free ∅.
Proof.
  destruct (wp_final _ _ _ ex_boot_wp) as [_ R]. exact R.
Qed.

Lemma boot_allocator_witness :
  exists a s', (pfndb_init (fun _ => 7) ex_map ;;; pmm_init) ex_boot = Ret a s' /\
    exists l, pmm_rel s' l ∅.
Proof.
  destruct (wp_inv _ _ _ (boot_allocator (fun _ => 7) ex_map ex_boot 0 ex_map'
    ex_map_wf ltac:(vm_compute; reflexivity) ex_reserve ex_boot_base))
    as (a & s' & Heq & l & R & _).
  exists a, s'. split; [exact Heq|]. by exists l.
Defined.

Lemma pmm_refines_abstract_witness :
  exists a s', run_ops [OpAlloc; OpShare 1; OpRef 1; OpAlloc; OpUnref 2; OpUnshare 1] ex_pmm
    = Ret a s' /\ free_pages s' = 10.
Proof.
  destruct (wp_inv _ _ _ (pmm_refines_abstract
    [OpAlloc; OpShare 1; OpRef 1; OpAlloc; OpUnref 2; OpUnshare 1]
    ex_pmm ex_free ∅ (tail ex_free) {[1 := mkU 2 0 false]} ex_pmm_rel
    ltac:(repeat (eapply abs_cons; [reflexivity|]); apply abs_nil)))
    as (a & s' & Heq & R & Hcount).
  exists a, s'. split; [exact Heq|]. by rewrite (rel_count _ _ _ R).
Defined.

Lemma pmm_misuse_panics_witness : run_op (OpUnref 3) ex_pmm = Panic.
Proof.
  apply (pmm_misuse_panics (OpUnref 3) ex_pmm ex_free ∅ ex_pmm_rel eq_refl).
  intros i [= <-]. vm_compute. split; congruence.
Defined.

Lemma alloc_free_roundtrip_witness :
  exists a s', (let* r := palloc_page in page_unref r) ex_pmm = Ret a s' /\
    pmm_rel s' ex_free ∅.
Proof.
  destruct (alloc_free_roundtrip ex_pmm 1 (tail ex_free) ∅ ex_pmm_rel) as [_ H].
  destruct (wp_inv _ _ _ H) as (a & s' & Heq & R & _). exists a, s'. by split.
Defined.

Lemma palloc_single_spec_witness :
  exists s', palloc_single ex_pmm = Ret 4096 s'.
Proof.
  destruct (wp_inv _ _ _ (palloc_single_spec ex_pmm 1 (tail ex_free) ∅ ex_pmm_rel))
    as (a & s' & Heq & -> & _). by exists s'.
Defined.
