(* ===== verification/Paging.v ===== *)
(** * Four-level page tables (kernel/src/mm/paging.c)

    A table pointer ([uint64_t *]) is the number of the frame it points to, a
    [ptable_t *] the physical address of the PML4.  [invlpg] and the paging and
    mmio spinlocks have no effect on the modelled state. *)

From stdpp Require Import gmap list.
From Stdlib Require Import ZArith Lia.
From S2P Require Import Prelude Pfndb Pmm.

Local Open Scope Z_scope.

(** ** Constants (kernel/include/mm/paging.h) *)

Definition VMM_PRESENT : Z := 1.
Definition VMM_WRITABLE : Z := 2.
Definition VMM_USER : Z := 4.
Definition VMM_PWT : Z := 8.
Definition VMM_PCD : Z := 16.
Definition VMM_HUGE : Z := 128.
Definition VMM_NX : Z := 2 ^ 63.
Definition VMM_FLAGS_MMIO : Z :=
  Z.lor VMM_PRESENT (Z.lor VMM_WRITABLE (Z.lor VMM_PCD (Z.lor VMM_PWT VMM_NX))).
Definition PAGE_FRAME_MASK : Z := 0x000FFFFFFFFFF000.
Definition PML_IDX_MASK : Z := 0x1ff.

(** ** Operations *)

Definition _pml1_idx (v : Z) : Z := Z.land (Z.shiftr v 12) PML_IDX_MASK.
Definition _pml2_idx (v : Z) : Z := Z.land (Z.shiftr v 21) PML_IDX_MASK.
Definition _pml3_idx (v : Z) : Z := Z.land (Z.shiftr v 30) PML_IDX_MASK.
Definition _pml4_idx (v : Z) : Z := Z.land (Z.shiftr v 39) PML_IDX_MASK.

Definition _alloc_pt : M mm Z :=
  let* p := palloc_page in
  match p with
  | None => ret 0
  | Some _ =>
      let* phys := gets (fun s => pfndb_page_to_phys s p) in
      zero_frame phys ;;;
      ret phys
  end.

Definition _free_pt (phys : Z) : M mm unit :=
  let* p := gets (fun s => pfndb_phys_to_page s phys) in
  match p with None => kpanic | Some _ => page_unref p end.

Definition _table_next (tbl idx create_flags : Z) : M mm (option Z) :=
  let* e := gets (fun s => rd_word s tbl idx) in
  if has e VMM_PRESENT then ret (Some (Z.land e PAGE_FRAME_MASK / PAGE_SIZE))
  else if create_flags =? 0 then ret None
  else
    let* phys := _alloc_pt in
    if phys =? 0 then ret None
    else
      wr_word tbl idx (Z.lor phys create_flags) ;;;
      ret (Some (phys / PAGE_SIZE)).

(** The address of a leaf entry: the frame of its table and the index in it. *)
Definition _leaf_entry (pml4 virt create_flags : Z) : M mm (option (Z * Z)) :=
  let* pml3 := _table_next pml4 (_pml4_idx virt) create_flags in
  match pml3 with
  | None => ret None
  | Some pml3 =>
      let* pml2 := _table_next pml3 (_pml3_idx virt) create_flags in
      match pml2 with
      | None => ret None
      | Some pml2 =>
          let* pml1 := _table_next pml2 (_pml2_idx virt) create_flags in
          match pml1 with
          | None => ret None
          | Some pml1 => ret (Some (pml1, _pml1_idx virt))
          end
      end
  end.

(** One present leaf entry loses its mapping (loop body at depth 1). *)
Definition release_leaf (tbl i : Z) : M mm unit :=
  let* e := gets (fun s => rd_word s tbl i) in
  if negb (has e VMM_PRESENT) then ret tt
  else
    let* page := gets (fun s => pfndb_phys_to_page s (Z.land e PAGE_FRAME_MASK)) in
    match page with
    | None => ret tt
    | Some _ => page_unshare page ;;; page_unref page
    end.

(** [depth] counts 4 (PML4) down to 1; no caller passes 0. *)
Fixpoint _ptable_free_level (depth : nat) (tbl : Z) : M mm unit :=
  match depth with
  | O => diverge
  | S O =>
      mfor 512 0 (release_leaf tbl) ;;;
      _free_pt (tbl * PAGE_SIZE)
  | S d =>
      mfor 512 0 (fun i =>
        let* e := gets (fun s => rd_word s tbl i) in
        if negb (has e VMM_PRESENT) then ret tt
        else if has e VMM_HUGE then ret tt
        else _ptable_free_level d (Z.land e PAGE_FRAME_MASK / PAGE_SIZE)) ;;;
      _free_pt (tbl * PAGE_SIZE)
  end.

Definition _table_empty (s : mm) (tbl : Z) : bool :=
  forallb (fun i => negb (has (rd_word s tbl i) VMM_PRESENT)) (seqZ 0 512).

Definition ptable_free_empty_locked (pt virt : Z) : M mm unit :=
  let pml4 := pt / PAGE_SIZE in
  let i4 := _pml4_idx virt in
  let i3 := _pml3_idx virt in
  let i2 := _pml2_idx virt in
  let* e4 := gets (fun s => rd_word s pml4 i4) in
  if negb (has e4 VMM_PRESENT) then ret tt else
  let pml3 := Z.land e4 PAGE_FRAME_MASK / PAGE_SIZE in
  let* e3 := gets (fun s => rd_word s pml3 i3) in
  if negb (has e3 VMM_PRESENT) then ret tt else
  let pml2 := Z.land e3 PAGE_FRAME_MASK / PAGE_SIZE in
  let* e2 := gets (fun s => rd_word s pml2 i2) in
  if negb (has e2 VMM_PRESENT) then ret tt else
  let pml1 := Z.land e2 PAGE_FRAME_MASK / PAGE_SIZE in
  let* empty1 := gets (fun s => _table_empty s pml1) in
  if negb empty1 then ret tt else
  let* e2' := gets (fun s => rd_word s pml2 i2) in
  _free_pt (Z.land e2' PAGE_FRAME_MASK) ;;;
  wr_word pml2 i2 0 ;;;
  let* empty2 := gets (fun s => _table_empty s pml2) in
  if negb empty2 then ret tt else
  let* e3' := gets (fun s => rd_word s pml3 i3) in
  _free_pt (Z.land e3' PAGE_FRAME_MASK) ;;;
  wr_word pml3 i3 0 ;;;
  let* empty3 := gets (fun s => _table_empty s pml3) in
  if negb empty3 then ret tt else
  let* e4' := gets (fun s => rd_word s pml4 i4) in
  _free_pt (Z.land e4' PAGE_FRAME_MASK) ;;;
  wr_word pml4 i4 0.

Definition table_flags (flags : Z) : Z :=
  if has flags VMM_USER then Z.lor (Z.lor VMM_PRESENT VMM_WRITABLE) VMM_USER
  else Z.lor VMM_PRESENT VMM_WRITABLE.

(** The entry written for [phys]: its address, the flag bits, and present. *)
Definition make_pte (phys flags : Z) : Z :=
  Z.lor (Z.lor phys (clr flags PAGE_FRAME_MASK)) VMM_PRESENT.

(** Drop the mapping an entry [e] stands for: unshare and unref its tracked page. *)
Definition drop_mapping (e : Z) : M mm unit :=
  let* old := gets (fun s => pfndb_phys_to_page s (Z.land e PAGE_FRAME_MASK)) in
  match old with
  | None => ret tt
  | Some _ => page_unshare old ;;; page_unref old
  end.

Definition map_page (pt virt : Z) (page : option Z) (flags : Z) : M mm unit :=
  assert (negb (pt =? 0)) ;;;
  assert (bool_decide (is_Some page)) ;;;
  let virt := ALIGN_DOWN virt PAGE_SIZE in
  let* phys := gets (fun s => pfndb_page_to_phys s page) in
  let* pte := _leaf_entry (pt / PAGE_SIZE) virt (table_flags flags) in
  match pte with
  | None => kpanic
  | Some (tbl, i) =>
      let* e := gets (fun s => rd_word s tbl i) in
      when (has e VMM_PRESENT) (drop_mapping e) ;;;
      wr_word tbl i (make_pte phys flags) ;;;
      page_share page ;;;
      page_ref page
  end.

Definition map_page_phys (pt virt phys flags : Z) : M mm unit :=
  assert (negb (pt =? 0)) ;;;
  let virt := ALIGN_DOWN virt PAGE_SIZE in
  let phys := ALIGN_DOWN phys PAGE_SIZE in
  let* pte := _leaf_entry (pt / PAGE_SIZE) virt (table_flags flags) in
  match pte with
  | None => kpanic
  | Some (tbl, i) =>
      let* e := gets (fun s => rd_word s tbl i) in
      if has e VMM_PRESENT then ret tt
      else
        let* page := gets (fun s => pfndb_phys_to_page s phys) in
        match page with
        | None => ret tt
        | Some _ =>
            let* pg := rd_page page in
            when (has (p_flags pg) PAGE_USED) (page_share page ;;; page_ref page)
        end ;;;
        wr_word tbl i (make_pte phys flags)
  end.

Definition unmap_page (pt virt : Z) : M mm unit :=
  assert (negb (pt =? 0)) ;;;
  let virt := ALIGN_DOWN virt PAGE_SIZE in
  let* pte := _leaf_entry (pt / PAGE_SIZE) virt 0 in
  match pte with
  | None => ret tt
  | Some (tbl, i) =>
      let* e := gets (fun s => rd_word s tbl i) in
      if negb (has e VMM_PRESENT) then ret tt
      else
        wr_word tbl i 0 ;;;
        drop_mapping e ;;;
        ptable_free_empty_locked pt virt
  end.

Definition get_phys (pt virt : Z) : M mm Z :=
  assert (negb (pt =? 0)) ;;;
  let* pte := _leaf_entry (pt / PAGE_SIZE) (ALIGN_DOWN virt PAGE_SIZE) 0 in
  match pte with
  | None => ret 0
  | Some (tbl, i) =>
      let* e := gets (fun s => rd_word s tbl i) in
      if negb (has e VMM_PRESENT) then ret 0
      else ret (u64 (Z.land e PAGE_FRAME_MASK + Z.land virt (PAGE_SIZE - 1)))
  end.

Definition get_mapping_flags (pt virt : Z) : M mm Z :=
  assert (negb (pt =? 0)) ;;;
  let* pte := _leaf_entry (pt / PAGE_SIZE) (ALIGN_DOWN virt PAGE_SIZE) 0 in
  match pte with
  | None => ret 0
  | Some (tbl, i) =>
      let* e := gets (fun s => rd_word s tbl i) in
      if negb (has e VMM_PRESENT) then ret 0
      else ret (clr e PAGE_FRAME_MASK)
  end.

Definition map_mmio (pt virt phys npages : Z) : M mm unit :=
  assert (negb (pt =? 0)) ;;;
  let virt := ALIGN_DOWN virt PAGE_SIZE in
  let phys := ALIGN_DOWN phys PAGE_SIZE in
  mfor (Z.to_nat npages) 0 (fun i =>
    let v := u64 (virt + i * PAGE_SIZE) in
    let p := u64 (phys + i * PAGE_SIZE) in
    let* pte := _leaf_entry (pt / PAGE_SIZE) v (Z.lor VMM_PRESENT VMM_WRITABLE) in
    match pte with
    | None => kpanic
    | Some (tbl, j) => wr_word tbl j (Z.lor p VMM_FLAGS_MMIO)
    end).

Fixpoint map_mmio_regions (pt : Z) (regions : list mmio_region) : M mm unit :=
  match regions with
  | [] => ret tt
  | r :: rest =>
      map_mmio pt (r_virt r) (r_phys r) (r_npages r) ;;; map_mmio_regions pt rest
  end.

(** [for (i = 256; i < 512; i++) dst[i] = src[i]] *)
Definition copy_upper_half (dst src : Z) : M mm unit :=
  mfor 256 256 (fun i =>
    let* e := gets (fun s => rd_word s src i) in wr_word dst i e).

Definition ptable_create : M mm Z :=
  let* page := palloc_page in
  match page with
  | None => kpanic
  | Some _ =>
      let* phys := gets (fun s => pfndb_page_to_phys s page) in
      zero_frame phys ;;;
      let* k := gets kernel_ptable in
      when (negb (k =? 0)) (copy_upper_half (phys / PAGE_SIZE) (k / PAGE_SIZE)) ;;;
      let* regions := gets mmio_regions in
      map_mmio_regions phys regions ;;;
      ret phys
  end.

Definition ptable_destroy (pt : Z) : M mm unit :=
  assert (negb (pt =? 0)) ;;;
  let pml4 := pt / PAGE_SIZE in
  let* k := gets kernel_ptable in
  if pt =? k then _ptable_free_level 4 pml4
  else
    mfor 256 0 (fun i =>
      let* e := gets (fun s => rd_word s pml4 i) in
      if negb (has e VMM_PRESENT) then ret tt
      else if has e VMM_HUGE then ret tt
      else _ptable_free_level 3 (Z.land e PAGE_FRAME_MASK / PAGE_SIZE)) ;;;
    _free_pt pt.

Definition ptable_free_empty (pt virt : Z) : M mm unit := ptable_free_empty_locked pt virt.

(** ** Boot

    What [paging_init] takes from the linker script, the boot loader and the
    processor: the section bounds, the kernel's virtual and physical base, the
    top of the boot stack and the value of cr3. *)

Record klayout := mkLayout {
  limine_start : Z; limine_end : Z;
  text_start : Z; text_end : Z;
  rodata_start : Z; rodata_end : Z;
  data_start : Z; data_end : Z;
  _lyr_kstack_top : Z;
  _lyr_kvirt : Z; _lyr_kphys : Z;
  boot_cr3 : Z;
}.

Definition KSTACK_SIZE : Z := 64 * 1024.

(** [for (; v < e; v += PAGE_SIZE) map_page_phys(pt, v, v - kvirt + kphys, flags)] *)
Definition map_pages (kl : klayout) (pt v e flags : Z) : M mm unit :=
  mfor (pages_between v e) 0 (fun i =>
    let _v := u64 (v + i * PAGE_SIZE) in
    map_page_phys pt _v (u64 (_v - _lyr_kvirt kl + _lyr_kphys kl)) flags).

Definition MAP_SECTION (kl : klayout) (pt vstart vend flags : Z) : M mm unit :=
  map_pages kl pt (ALIGN_DOWN vstart PAGE_SIZE) (ALIGN_UP vend PAGE_SIZE) flags.

Definition paging_init (kl : klayout) : M mm unit :=
  let* k := ptable_create in
  modify (set_kernel_ptable k) ;;;
  assert (negb (k =? 0)) ;;;
  MAP_SECTION kl k (limine_start kl) (limine_end kl) (Z.lor VMM_PRESENT VMM_NX) ;;;
  MAP_SECTION kl k (text_start kl) (text_end kl) VMM_PRESENT ;;;
  MAP_SECTION kl k (rodata_start kl) (rodata_end kl) (Z.lor VMM_PRESENT VMM_NX) ;;;
  MAP_SECTION kl k (data_start kl) (data_end kl)
    (Z.lor (Z.lor VMM_PRESENT VMM_WRITABLE) VMM_NX) ;;;
  let stack_top := ALIGN_UP (_lyr_kstack_top kl) PAGE_SIZE in
  map_pages kl k (u64 (stack_top - KSTACK_SIZE)) stack_top
    (Z.lor (Z.lor VMM_PRESENT VMM_WRITABLE) VMM_NX) ;;;
  copy_upper_half (k / PAGE_SIZE) (boot_cr3 kl / PAGE_SIZE).
