(* ===== verification/PagingRel.v ===== *)
(** * Page tables as finite maps: the representation and its lemmas

    [pt_rel F s r tabs m u] says that the frame [r] is the root of a page table
    whose tables are [tabs] (path of indices, innermost first, to frame number)
    and whose present leaf entries are [m] (path of four indices to entry).  The
    slots [F] of the root are foreign: [paging_init] and [ptable_create] copy the
    boot loader's entries into the upper half of every root, and nothing is said
    about these entries (they may be shared, huge and lie outside the memory the
    allocator manages). *)

From stdpp Require Import gmap list.
From Stdlib Require Import ZArith Lia.
From S2P Require Import Prelude Pfndb Pmm Paging.

Local Open Scope Z_scope.

Abbreviation path := (list Z).

(** ** Words of physical memory *)

Definition put_word (f i v : Z) (s : mm) : mm :=
  set_frames (fun fr => <[f := <[i := v]> (default ∅ (fr !! f))]> fr) s.

Lemma rd_put f i v s f' i' :
  rd_word (put_word f i v s) f' i' =
  if decide (f = f' /\ i = i') then v else rd_word s f' i'.
Proof.
  unfold rd_word, put_word. simpl. destruct (decide (f = f')) as [->|Hf].
  - rewrite lookup_insert_eq. simpl. destruct (decide (i = i')) as [->|Hi].
    + by rewrite lookup_insert_eq, decide_True.
    + rewrite lookup_insert_ne, decide_False by naive_solver.
      by destruct (frames s !! f') as [w|]; simpl; [|rewrite lookup_empty].
  - by rewrite lookup_insert_ne, decide_False by naive_solver.
Qed.

Lemma rd_put_eq f i v s : rd_word (put_word f i v s) f i = v.
Proof. by rewrite rd_put, decide_True. Qed.
Lemma rd_put_ne f i v s f' i' :
  f <> f' \/ i <> i' -> rd_word (put_word f i v s) f' i' = rd_word s f' i'.
Proof. intros H. rewrite rd_put, decide_False; [done|]. naive_solver. Qed.

(** The words of the frames other than [g] agree. *)
Lemma rd_frames_ne s s' g f i :
  frames s' = <[g := ∅]> (frames s) -> f <> g -> rd_word s' f i = rd_word s f i.
Proof. intros Hf Hne. unfold rd_word. by rewrite Hf, lookup_insert_ne. Qed.
Lemma rd_frames_zero s s' g i :
  frames s' = <[g := ∅]> (frames s) -> rd_word s' g i = 0.
Proof. intros Hf. unfold rd_word. by rewrite Hf, lookup_insert_eq. Qed.
Lemma rd_frames_eq s s' f i : frames s' = frames s -> rd_word s' f i = rd_word s f i.
Proof. unfold rd_word. by intros ->. Qed.

(** The allocator's representation does not look at physical memory. *)
Lemma rel_frames f s l u : pmm_rel s l u -> pmm_rel (set_frames f s) l u.
Proof. intros []. by constructor. Qed.
Lemma rel_put f i v s l u : pmm_rel s l u -> pmm_rel (put_word f i v s) l u.
Proof. apply rel_frames. Qed.

(** ** Bits of entries *)

Definition pte_frame (e : Z) : Z := Z.land e PAGE_FRAME_MASK / PAGE_SIZE.

Lemma frame_mask_eq : PAGE_FRAME_MASK = Z.shiftl (Z.ones 40) 12.
Proof. reflexivity. Qed.

Lemma frame_mask_bit i : Z.testbit PAGE_FRAME_MASK i = (12 <=? i) && (i <? 52).
Proof.
  rewrite frame_mask_eq. destruct (decide (i < 0)) as [Hn|Hn].
  - rewrite Z.testbit_neg_r by done. symmetry. apply andb_false_iff. left. apply Z.leb_gt. lia.
  - rewrite Z.shiftl_spec, Z.testbit_ones by lia.
    destruct (0 <=? i - 12) eqn:E1, (12 <=? i) eqn:E2; bools; lia.
Qed.

(** A frame address joined with bits outside the mask gives the frame back. *)
Lemma land_mask_lor g x :
  0 <= g < 2 ^ 40 -> Z.land x PAGE_FRAME_MASK = 0 ->
  Z.land (Z.lor (g * 4096) x) PAGE_FRAME_MASK = g * 4096.
Proof.
  intros Hg Hx. rewrite Z.land_lor_distr_l, Hx, Z.lor_0_r.
  apply Z.bits_inj'. intros n Hn. rewrite Z.land_spec, frame_mask_bit.
  change 4096 with (2 ^ 12).
  destruct (12 <=? n) eqn:E1; bools.
  - destruct (n <? 52) eqn:E2; bools; [by rewrite andb_true_r|].
    rewrite Z.mul_pow2_bits by lia. rewrite (testbit_high g 40) by lia. done.
  - rewrite testbit_mul_pow2_low by lia. done.
Qed.

Lemma land_mask_clr x : Z.land (clr x PAGE_FRAME_MASK) PAGE_FRAME_MASK = 0.
Proof. apply Z.land_ldiff. Qed.

Lemma land_mask_page g : 0 <= g < 2 ^ 40 -> Z.land (g * 4096) PAGE_FRAME_MASK = g * 4096.
Proof. intros Hg. rewrite <- (Z.lor_0_r (g * 4096)) at 1. by apply land_mask_lor. Qed.

Lemma has_lor x y m : has (Z.lor x y) m = has x m || has y m.
Proof.
  unfold has. rewrite Z.land_lor_distr_l.
  destruct (Z.land x m =? 0) eqn:E1, (Z.land y m =? 0) eqn:E2; bools; simpl.
  - by rewrite E1, E2.
  - rewrite E1, Z.lor_0_l. by rewrite (proj2 (Z.eqb_neq _ _)).
  - rewrite E2, Z.lor_0_r. by rewrite (proj2 (Z.eqb_neq _ _)).
  - apply negb_true_iff, Z.eqb_neq. intros [? ?]%Z.lor_eq_0_iff. done.
Qed.

Lemma pte_mask g flags :
  0 <= g < 2 ^ 40 -> Z.land (make_pte (g * 4096) flags) PAGE_FRAME_MASK = g * 4096.
Proof.
  intros Hg. unfold make_pte. rewrite <- Z.lor_assoc. apply land_mask_lor; [done|].
  rewrite Z.land_lor_distr_l, land_mask_clr. reflexivity.
Qed.

Lemma pte_present g flags : has (make_pte g flags) VMM_PRESENT = true.
Proof. unfold make_pte. by rewrite has_lor, orb_true_r. Qed.

Lemma pte_frame_pte g flags : 0 <= g < 2 ^ 40 -> pte_frame (make_pte (g * 4096) flags) = g.
Proof. intros Hg. unfold pte_frame, PAGE_SIZE. by rewrite pte_mask, Z.div_mul. Qed.

(** What [get_mapping_flags] reads back. *)
Lemma pte_flags g flags :
  0 <= g < 2 ^ 40 ->
  clr (make_pte (g * 4096) flags) PAGE_FRAME_MASK = Z.lor (clr flags PAGE_FRAME_MASK) VMM_PRESENT.
Proof.
  intros Hg. unfold make_pte, clr. apply Z.bits_inj'. intros n Hn.
  rewrite !Z.ldiff_spec, !Z.lor_spec, Z.ldiff_spec.
  assert (Hp : Z.testbit VMM_PRESENT n && negb (Z.testbit PAGE_FRAME_MASK n) = Z.testbit VMM_PRESENT n).
  { rewrite frame_mask_bit. destruct (decide (n = 0)) as [->|Hn0]; [done|].
    change VMM_PRESENT with (2 ^ 0). by rewrite Z.pow2_bits_false by lia. }
  assert (Hg' : Z.testbit (g * 4096) n && negb (Z.testbit PAGE_FRAME_MASK n) = false).
  { pose proof (land_mask_page g Hg) as E. apply (f_equal (fun z => Z.testbit z n)) in E.
    rewrite Z.land_spec in E. destruct (Z.testbit (g * 4096) n), (Z.testbit PAGE_FRAME_MASK n); done. }
  destruct (Z.testbit flags n), (Z.testbit PAGE_FRAME_MASK n),
    (Z.testbit (g * 4096) n), (Z.testbit VMM_PRESENT n); done.
Qed.

(** Flags for a table entry: present, and no bit of the address. *)
Definition tflags_ok (cf : Z) : Prop :=
  has cf VMM_PRESENT = true /\ Z.land cf PAGE_FRAME_MASK = 0 /\ has cf VMM_HUGE = false.

Lemma table_flags_ok flags : tflags_ok (table_flags flags).
Proof. unfold table_flags, tflags_ok. by destruct (has flags VMM_USER). Qed.

Lemma tflags_nonzero cf : tflags_ok cf -> cf <> 0.
Proof. intros [H _] ->. done. Qed.

Lemma table_entry g cf :
  0 <= g < 2 ^ 40 -> tflags_ok cf ->
  has (Z.lor (g * 4096) cf) VMM_PRESENT = true /\ pte_frame (Z.lor (g * 4096) cf) = g /\
  has (Z.lor (g * 4096) cf) VMM_HUGE = false.
Proof.
  intros Hg (H1 & H2 & H3). split_and!.
  - by rewrite has_lor, H1, orb_true_r.
  - unfold pte_frame, PAGE_SIZE. by rewrite land_mask_lor, Z.div_mul.
  - rewrite has_lor, H3, orb_false_r. change VMM_HUGE with (2 ^ 7). rewrite has_bit by lia.
    change 4096 with (2 ^ 12). by rewrite testbit_mul_pow2_low by lia.
Qed.

(** ** Paths *)

Definition path_of (v : Z) : path := [_pml1_idx v; _pml2_idx v; _pml3_idx v; _pml4_idx v].

Lemma idx_eq v k : 0 <= k -> Z.land (Z.shiftr v k) PML_IDX_MASK = (v / 2 ^ k) `mod` 512.
Proof.
  intros Hk. change PML_IDX_MASK with (Z.ones 9).
  rewrite Z.land_ones, Z.shiftr_div_pow2 by lia. done.
Qed.

Lemma pml1_range v : 0 <= _pml1_idx v < 512.
Proof. unfold _pml1_idx. rewrite idx_eq by lia. by apply Z.mod_pos_bound. Qed.
Lemma pml2_range v : 0 <= _pml2_idx v < 512.
Proof. unfold _pml2_idx. rewrite idx_eq by lia. by apply Z.mod_pos_bound. Qed.
Lemma pml3_range v : 0 <= _pml3_idx v < 512.
Proof. unfold _pml3_idx. rewrite idx_eq by lia. by apply Z.mod_pos_bound. Qed.
Lemma pml4_range v : 0 <= _pml4_idx v < 512.
Proof. unfold _pml4_idx. rewrite idx_eq by lia. by apply Z.mod_pos_bound. Qed.

(** Two addresses below 2^48 have the same path exactly when they lie in one page. *)
Lemma path_of_inj v w :
  0 <= v < 2 ^ 48 -> 0 <= w < 2 ^ 48 -> path_of v = path_of w <-> v / 4096 = w / 4096.
Proof.
  intros Hv Hw. unfold path_of, _pml1_idx, _pml2_idx, _pml3_idx, _pml4_idx.
  rewrite !idx_eq by lia. split.
  - intros [= H1 H2 H3 H4]. Z.to_euclidean_division_equations. lia.
  - intros H.
    assert (Hd : forall k, 12 <= k -> v / 2 ^ k = w / 2 ^ k).
    { intros k Hk. replace k with (12 + (k - 12)) by lia. rewrite Z.pow_add_r by lia.
      rewrite <- !Z.div_div by (try apply Z.pow_nonzero; try apply Z.pow_pos_nonneg; lia).
      change (2 ^ 12) with 4096. by rewrite H. }
    by rewrite !Hd by lia.
Qed.

Lemma path_of_align v : 0 <= v < 2 ^ 64 -> path_of (ALIGN_DOWN v PAGE_SIZE) = path_of v.
Proof.
  intros Hv. rewrite ALIGN_DOWN_page by done.
  unfold path_of, _pml1_idx, _pml2_idx, _pml3_idx, _pml4_idx. rewrite !idx_eq by lia.
  assert (Hd : forall k, 12 <= k -> (v / 4096 * 4096) / 2 ^ k = v / 2 ^ k).
  { intros k Hk. replace k with (12 + (k - 12)) by lia. rewrite Z.pow_add_r by lia.
    rewrite <- !Z.div_div by (try apply Z.pow_nonzero; try apply Z.pow_pos_nonneg; lia).
    change (2 ^ 12) with 4096. by rewrite Z.div_mul. }
  by rewrite !Hd by lia.
Qed.

(** ** The representation *)

Section Rep.
Context {F : gset Z}.

(** Entry [i] of the table [f] at path [p]. *)
Definition entry_ok (s : mm) (tabs m : gmap path Z) (p : path) (f i : Z) : Prop :=
  if decide (length p = 3%nat) then
    match m !! (i :: p) with
    | Some e => rd_word s f i = e /\ has e VMM_PRESENT = true
    | None => has (rd_word s f i) VMM_PRESENT = false
    end
  else
    match tabs !! (i :: p) with
    | Some g => has (rd_word s f i) VMM_PRESENT = true /\ pte_frame (rd_word s f i) = g
                /\ has (rd_word s f i) VMM_HUGE = false
    | None => has (rd_word s f i) VMM_PRESENT = false
    end.

Record pt_rel (s : mm) (r : Z) (tabs m : gmap path Z) (u : gmap Z ustate) : Prop := {
  pt_root : tabs !! [] = Some r;
  pt_entry : forall p f i, tabs !! p = Some f -> 0 <= i < 512 -> (p = [] -> i ∉ F) ->
    entry_ok s tabs m p f i;
  pt_own : forall i, i ∈ F -> tabs !! [i] = None;
  pt_len : forall p f, tabs !! p = Some f -> (length p <= 3)%nat;
  pt_up : forall i p f, tabs !! (i :: p) = Some f -> is_Some (tabs !! p) /\ 0 <= i < 512;
  pt_leaf : forall q e, m !! q = Some e ->
    exists i p, q = i :: p /\ length p = 3%nat /\ is_Some (tabs !! p) /\ 0 <= i < 512;
  pt_inj : forall p q f, tabs !! p = Some f -> tabs !! q = Some f -> p = q;
  pt_used : forall p f, tabs !! p = Some f -> u !! f = Some (mkU 1 0 false);
}.

(** How many leaf entries map the frame [g]. *)
Definition cnt (m : gmap path Z) (g : Z) : Z :=
  Z.of_nat (size (filter (fun x => pte_frame x.2 = g) m)).

(** The counters cover the mappings of this table and [ext] of other tables,
    every mapping holds a reference, and a mapped tracked frame is in use. *)
Record acct (mx : Z) (ext : Z -> Z) (m : gmap path Z) (u : gmap Z ustate) : Prop := {
  acct_share : forall g st, u !! g = Some st ->
    cnt m g + ext g <= u_share st /\ u_share st <= u_ref st /\ 0 <= ext g;
  acct_used : forall q e, m !! q = Some e -> pte_frame e <= mx -> is_Some (u !! pte_frame e);
  acct_free : forall g, g <= mx -> u !! g = None -> ext g = 0;
}.

(** ** Counting *)

Lemma cnt_nonneg m g : 0 <= cnt m g.
Proof. unfold cnt. lia. Qed.

Lemma cnt_insert m q e g :
  m !! q = None -> cnt (<[q := e]> m) g = cnt m g + (if decide (pte_frame e = g) then 1 else 0).
Proof.
  intros Hq. unfold cnt. case_decide as Hd.
  - rewrite map_filter_insert_True by done. rewrite map_size_insert_None; [lia|].
    apply map_lookup_filter_None. by left.
  - rewrite map_filter_insert_False by done. rewrite delete_id by done. lia.
Qed.

Lemma cnt_delete m q e g :
  m !! q = Some e -> cnt (delete q m) g = cnt m g - (if decide (pte_frame e = g) then 1 else 0).
Proof.
  intros Hq. rewrite <- (insert_delete_id m q e Hq) at 2.
  rewrite cnt_insert by apply lookup_delete_eq. lia.
Qed.

Lemma cnt_pos m q e : m !! q = Some e -> 1 <= cnt m (pte_frame e).
Proof.
  intros Hq. pose proof (cnt_delete m q e (pte_frame e) Hq) as H.
  rewrite decide_True in H by done. pose proof (cnt_nonneg (delete q m) (pte_frame e)). lia.
Qed.

(** ** Frame rules *)

Lemma entry_ok_frame s s' tabs m p f i :
  rd_word s' f i = rd_word s f i -> entry_ok s tabs m p f i -> entry_ok s' tabs m p f i.
Proof. unfold entry_ok. by intros ->. Qed.

(** A change outside the tables keeps the representation. *)
Lemma pt_rel_frame s s' r tabs m u u' :
  pt_rel s r tabs m u ->
  (forall p f i, tabs !! p = Some f -> rd_word s' f i = rd_word s f i) ->
  (forall p f, tabs !! p = Some f -> u' !! f = u !! f) ->
  pt_rel s' r tabs m u'.
Proof.
  intros R Hw Hu. destruct R. constructor; try done.
  - intros p f i Hp Hi Ho. eapply entry_ok_frame; [|by apply pt_entry0]. by eapply Hw.
  - intros p f Hp. rewrite (Hu _ _ Hp). by eapply pt_used0.
Qed.

(** A mapped frame in use is not one of the tables. *)
Lemma mapped_not_table s r tabs m u mx ext q e p f :
  pt_rel s r tabs m u -> acct mx ext m u ->
  m !! q = Some e -> tabs !! p = Some f -> pte_frame e <> f.
Proof.
  intros R A Hq Hp <-. pose proof (pt_used _ _ _ _ _ R _ _ Hp) as Hu.
  destruct (acct_share _ _ _ _ A _ _ Hu) as (H1 & _ & H3). simpl in H1.
  pose proof (cnt_pos _ _ _ Hq). lia.
Qed.

(** ** Walking *)

(** A slot that leads to one of the tables is not foreign. *)
Lemma tab_own s r tabs m u p i g :
  pt_rel s r tabs m u -> tabs !! (i :: p) = Some g -> p = [] -> i ∉ F.
Proof. intros R Hg -> Hi. by rewrite (pt_own _ _ _ _ _ R _ Hi) in Hg. Qed.

Lemma table_next_hit s r tabs m u p f i g cf :
  pt_rel s r tabs m u -> tabs !! p = Some f -> tabs !! (i :: p) = Some g ->
  _table_next f i cf s = Ret (Some g) s.
Proof.
  intros R Hp Hg. destruct (pt_up _ _ _ _ _ R _ _ _ Hg) as [_ Hi].
  pose proof (pt_len _ _ _ _ _ R _ _ Hg) as Hl. simpl in Hl.
  pose proof (pt_entry _ _ _ _ _ R _ _ _ Hp Hi (tab_own _ _ _ _ _ _ _ _ R Hg)) as He.
  unfold entry_ok in He. rewrite decide_False, Hg in He by lia. destruct He as (H1 & H2 & _).
  unfold _table_next, bind, gets. rewrite H1. unfold pte_frame in H2. by rewrite H2.
Qed.

Lemma table_next_miss s r tabs m u p f i :
  pt_rel s r tabs m u -> tabs !! p = Some f -> tabs !! (i :: p) = None ->
  (length p < 3)%nat -> 0 <= i < 512 -> (p = [] -> i ∉ F) -> _table_next f i 0 s = Ret None s.
Proof.
  intros R Hp Hg Hl Hi Ho. pose proof (pt_entry _ _ _ _ _ R _ _ _ Hp Hi Ho) as He.
  unfold entry_ok in He. rewrite decide_False, Hg in He by lia.
  unfold _table_next, bind, gets. by rewrite He.
Qed.

(** The walk without creation: the leaf table if the three tables exist. *)
Lemma leaf_entry_ro s r tabs m u v :
  pt_rel s r tabs m u -> _pml4_idx v ∉ F ->
  _leaf_entry r v 0 s = Ret
    (match tabs !! tail (path_of v) with
     | Some f => Some (f, _pml1_idx v)
     | None => None
     end) s.
Proof.
  intros R Ho. unfold path_of. simpl tail.
  pose proof (pt_root _ _ _ _ _ R) as H0. unfold _leaf_entry.
  destruct (tabs !! [_pml4_idx v]) as [t3|] eqn:E3.
  2:{ erewrite bind_ret by (eapply table_next_miss; eauto using pml4_range; simpl; (done || lia)).
      destruct (tabs !! [_pml2_idx v; _pml3_idx v; _pml4_idx v]) eqn:E; [|done].
      apply (pt_up _ _ _ _ _ R) in E as [[? E]  _]. apply (pt_up _ _ _ _ _ R) in E as [[? E]  _].
      congruence. }
  erewrite bind_ret by (by eapply table_next_hit).
  destruct (tabs !! [_pml3_idx v; _pml4_idx v]) as [t2|] eqn:E2.
  2:{ erewrite bind_ret by (eapply table_next_miss; eauto using pml3_range; simpl; (done || lia)).
      destruct (tabs !! [_pml2_idx v; _pml3_idx v; _pml4_idx v]) eqn:E; [|done].
      apply (pt_up _ _ _ _ _ R) in E as [[? E]  _]. congruence. }
  erewrite bind_ret by (by eapply table_next_hit).
  destruct (tabs !! [_pml2_idx v; _pml3_idx v; _pml4_idx v]) as [t1|] eqn:E1.
  - by erewrite bind_ret by (by eapply table_next_hit).
  - by erewrite bind_ret by (eapply table_next_miss; eauto using pml2_range; simpl; (done || lia)).
Qed.

(** ** Growing the tree *)

Lemma alloc_pt_wp s g l u :
  pmm_rel s (g :: l) u ->
  wp _alloc_pt s (fun r s' => r = g * 4096 /\
    pmm_rel s' l (<[g := mkU 1 0 false]> u) /\ frames s' = <[g := ∅]> (frames s) /\ env_eq s s').
Proof.
  intros R. pose proof (free_in_range _ _ _ g R ltac:(left)) as Hr.
  unfold _alloc_pt. apply wp_bind. eapply wp_mono; [by apply palloc_page_wp|].
  intros ? s1 (-> & R1 & Hf & He). pose proof He as (Hmx & _).
  pose proof (rel_max _ _ _ R1). pose proof (rel_base _ _ _ R1).
  apply wp_bind, wp_gets. rewrite page_to_phys_ok by lia.
  apply wp_bind, wp_modify. apply wp_ret. split_and!; [done|by apply rel_frames| |done].
  simpl. unfold PAGE_SIZE. by rewrite Z.div_mul, Hf.
Qed.

(** A frame that is not in use is mapped by no entry and is no table. *)
Lemma fresh_unmapped mx ext m u g :
  acct mx ext m u -> g <= mx -> u !! g = None -> cnt m g = 0 /\ ext g = 0.
Proof.
  intros A Hg Hu. split; [|by eapply acct_free].
  destruct (decide (filter (fun x => pte_frame x.2 = g) m = ∅)) as [He|Hne].
  - unfold cnt. by rewrite He.
  - apply map_choose in Hne as (q & e & [Hq Hf]%map_lookup_filter_Some). simpl in Hf. subst g.
    destruct (acct_used _ _ _ _ A _ _ Hq Hg). congruence.
Qed.

Lemma acct_fresh mx ext m u g :
  acct mx ext m u -> g <= mx -> u !! g = None -> acct mx ext m (<[g := mkU 1 0 false]> u).
Proof.
  intros A Hg Hu. destruct (fresh_unmapped _ _ _ _ _ A Hg Hu) as [Hc He]. destruct A. constructor.
  - intros g' st. rewrite lookup_insert. case_decide; subst; [|by apply acct_share0].
    intros [= <-]. simpl. lia.
  - intros q e Hq Hle. rewrite lookup_insert_is_Some.
    destruct (decide (g = pte_frame e)); [by left|]. right. split; [done|]. by eapply acct_used0.
  - intros g' Hle. rewrite lookup_insert. case_decide; [done|]. by apply acct_free0.
Qed.

(** The tables an operation at [v] may touch are those on the path of [v]. *)
Definition on_path (v : Z) (p : path) : Prop := p `suffix_of` path_of v.

Lemma on_path_tail v : on_path v (tail (path_of v)).
Proof. by exists [_pml1_idx v]. Qed.
Lemma on_path_2 v : on_path v [_pml3_idx v; _pml4_idx v].
Proof. by exists [_pml1_idx v; _pml2_idx v]. Qed.
Lemma on_path_1 v : on_path v [_pml4_idx v].
Proof. by exists [_pml1_idx v; _pml2_idx v; _pml3_idx v]. Qed.
Lemma on_path_0 v : on_path v [].
Proof. apply suffix_nil. Qed.
Lemma on_path_root v i : on_path v [i] -> i = _pml4_idx v.
Proof.
  intros [k Hk]. apply (f_equal last) in Hk. rewrite last_app in Hk. by injection Hk.
Qed.
#[local] Hint Resolve on_path_tail on_path_2 on_path_1 on_path_0 : kern.

(** What creating tables at paths in [P] may do to the rest of the state. *)
Record grows (P : path -> Prop) (n : nat) (s : mm) (l : list Z) (u : gmap Z ustate) (tabs : gmap path Z)
    (s' : mm) (l' : list Z) (u' : gmap Z ustate) (tabs' : gmap path Z) : Prop := {
  gr_free : exists new, l = new ++ l' /\ (length new <= n)%nat;
  gr_used : u ⊆ u';
  gr_tabs : tabs ⊆ tabs';
  gr_new : forall p f, tabs' !! p = Some f -> tabs !! p = Some f \/ u !! f = None;
  gr_words : forall f i, (forall p, P p -> tabs' !! p <> Some f) -> rd_word s' f i = rd_word s f i;
  gr_env : env_eq s s';
  gr_fresh : forall g, is_Some (u' !! g) -> is_Some (u !! g) \/ g ∈ l;
  gr_slot : forall p f i, tabs !! p = Some f -> ~ P (i :: p) -> rd_word s' f i = rd_word s f i;
}.

Lemma grows_refl P s l u tabs : grows P 0 s l u tabs s l u tabs.
Proof. constructor; try done; [by exists []|by left|by left]. Qed.

Lemma grows_trans P n1 n2 s l u tabs s1 l1 u1 tabs1 s2 l2 u2 tabs2 :
  grows P n1 s l u tabs s1 l1 u1 tabs1 -> grows P n2 s1 l1 u1 tabs1 s2 l2 u2 tabs2 ->
  grows P (n1 + n2) s l u tabs s2 l2 u2 tabs2.
Proof.
  intros [(a & -> & Ha) Hu1 Ht1 Hn1 Hw1 He1 Hf1 Hs1] [(b & -> & Hb) Hu2 Ht2 Hn2 Hw2 He2 Hf2 Hs2].
  constructor.
  - exists (a ++ b). rewrite app_assoc, length_app. split; [done|lia].
  - by etrans.
  - by etrans.
  - intros p f [Hp|Hf]%Hn2; [by apply Hn1|]. right.
    destruct (u !! f) as [st|] eqn:E; [|done]. by rewrite (lookup_weaken _ _ _ _ E Hu1) in Hf.
  - intros f i Hf. rewrite Hw2 by done. apply Hw1. intros p HP Hp. eapply Hf; [done|].
    by eapply lookup_weaken.
  - by etrans.
  - intros g [Hg|Hg]%Hf2; [by apply Hf1|]. right. apply elem_of_app. by right.
  - intros p f i Hp Hi. rewrite (Hs2 p); [by eapply Hs1|by eapply lookup_weaken|done].
Qed.

Lemma grows_mono P n n' s l u tabs s' l' u' tabs' :
  (n <= n')%nat -> grows P n s l u tabs s' l' u' tabs' -> grows P n' s l u tabs s' l' u' tabs'.
Proof.
  intros Hn [(a & -> & Ha) Hu Ht Hnw Hw He Hf Hs]. constructor; try done. exists a. split; [done|lia].
Qed.

(** Adding a zeroed frame as a new table. *)
Lemma pt_rel_add s s' r tabs m u p f i g e :
  pt_rel s r tabs m u -> tabs !! p = Some f -> tabs !! (i :: p) = None ->
  (length p < 3)%nat -> 0 <= i < 512 -> (p = [] -> i ∉ F) -> u !! g = None ->
  has e VMM_PRESENT = true -> pte_frame e = g -> has e VMM_HUGE = false ->
  frames s' = <[g := ∅]> (frames s) ->
  pt_rel (put_word f i e s') r (<[i :: p := g]> tabs) m (<[g := mkU 1 0 false]> u).
Proof.
  intros R Hp Hn Hl Hi Ho Hu H1 H2 H3 Hfr.
  assert (Hgt : forall q, tabs !! q <> Some g).
  { intros q Hq. pose proof (pt_used _ _ _ _ _ R _ _ Hq). congruence. }
  assert (Hfg : f <> g) by (intros ->; by eapply Hgt).
  assert (Hch : forall j, tabs !! (j :: i :: p) = None).
  { intros j. destruct (tabs !! (j :: i :: p)) eqn:E; [|done].
    apply (pt_up _ _ _ _ _ R) in E as [[? ?] _]. congruence. }
  assert (Hmch : forall j, length (i :: p) = 3%nat -> m !! (j :: i :: p) = None).
  { intros j Hlen. destruct (m !! (j :: i :: p)) eqn:E; [|done].
    apply (pt_leaf _ _ _ _ _ R) in E as (? & ? & [= <- <-] & _ & [? ?] & _). congruence. }
  constructor.
  - rewrite lookup_insert_ne by done. apply R.
  - intros q fq j Hq Hj Hqo. destruct (decide (q = i :: p)) as [->|Hqp].
    + rewrite lookup_insert_eq in Hq. simplify_eq. unfold entry_ok.
      rewrite rd_put_ne by (by left). rewrite (rd_frames_zero _ _ _ _ Hfr).
      case_decide as Hd; [by rewrite Hmch|]. rewrite lookup_insert_ne, Hch; [done|].
      intros E. apply (f_equal length) in E. simpl in E. lia.
    + rewrite lookup_insert_ne in Hq by done.
      pose proof (pt_entry _ _ _ _ _ R _ _ _ Hq Hj Hqo) as He. unfold entry_ok in *.
      destruct (decide (f = fq /\ i = j)) as [[<- <-]|Hne].
      * assert (p = q) as <- by (eapply (pt_inj _ _ _ _ _ R); eauto).
        rewrite decide_False by lia. by rewrite lookup_insert_eq, rd_put_eq.
      * assert (fq <> g) by (intros ->; by eapply Hgt).
        assert (Hor : f <> fq \/ i <> j)
          by (destruct (decide (f = fq)), (decide (i = j)); tauto).
        rewrite rd_put_ne, (rd_frames_ne _ _ _ _ _ Hfr) by done.
        case_decide; [done|]. rewrite lookup_insert_ne; [done|].
        intros [= -> ->]. rewrite Hp in Hq. simplify_eq. tauto.
  - intros j Hj. rewrite lookup_insert_ne; [by eapply R|]. intros [= -> ->]. by apply Ho.
  - intros q fq Hq. destruct (decide (q = i :: p)) as [->|Hqp]; [simpl; lia|].
    rewrite lookup_insert_ne in Hq by done. by eapply R.
  - intros j q fq Hq. rewrite lookup_insert_is_Some. destruct (decide (j :: q = i :: p)) as [[= -> ->]|Hqp].
    + split; [|done]. right. split; [|by eexists]. intros E. apply (f_equal length) in E. simpl in E. lia.
    + rewrite lookup_insert_ne in Hq by done. apply (pt_up _ _ _ _ _ R) in Hq as [? ?].
      split; [|done]. destruct (decide (i :: p = q)); [by left|by right].
  - intros q eq Hq. destruct (pt_leaf _ _ _ _ _ R _ _ Hq) as (j & q' & -> & Hlq & Hsq & Hj).
    exists j, q'. split_and!; [done|done| |lia|lia]. apply lookup_insert_is_Some.
    destruct (decide (i :: p = q')); [by left|by right].
  - intros q q' fq Hq Hq'. rewrite lookup_insert in Hq, Hq'.
    destruct (decide (i :: p = q)), (decide (i :: p = q')); simplify_eq; try done.
    + by apply Hgt in Hq'.
    + by apply Hgt in Hq.
    + by eapply (pt_inj _ _ _ _ _ R).
  - intros q fq Hq. rewrite lookup_insert in Hq. case_decide; simplify_eq.
    + by rewrite lookup_insert_eq.
    + rewrite lookup_insert_ne by (intros <-; by eapply Hgt). by eapply R.
Qed.

(** One step of the walk with creation. *)
Lemma table_next_create (P : path -> Prop) mx ext s r tabs m u l p f i cf :
  pmm_rel s l u -> pt_rel s r tabs m u -> acct mx ext m u -> mx = max_pfn s ->
  tabs !! p = Some f -> (length p < 3)%nat -> 0 <= i < 512 -> (p = [] -> i ∉ F) ->
  tflags_ok cf -> l <> [] ->
  P p -> P (i :: p) ->
  wp (_table_next f i cf) s (fun x s' => exists g l' u' tabs',
    x = Some g /\ tabs' !! (i :: p) = Some g /\
    pmm_rel s' l' u' /\ pt_rel s' r tabs' m u' /\ acct mx ext m u' /\
    grows P 1 s l u tabs s' l' u' tabs').
Proof.
  intros Rm R A Hmx Hp Hl Hi Ho Hcf Hne HP1 HP2. destruct (tabs !! (i :: p)) as [g|] eqn:Eg.
  { eapply wp_intro; [by eapply table_next_hit|].
    exists g, l, u, tabs. split_and!; try done. eapply grows_mono; [|apply grows_refl]. lia. }
  destruct l as [|g l]; [done|].
  pose proof (free_in_range _ _ _ g Rm ltac:(left)) as Hr.
  pose proof (free_not_used _ _ _ g Rm ltac:(left)) as Hu.
  pose proof (rel_max _ _ _ Rm) as Hlim.
  pose proof (pt_entry _ _ _ _ _ R _ _ _ Hp Hi Ho) as He.
  unfold entry_ok in He. rewrite decide_False, Eg in He by lia.
  unfold _table_next. apply wp_bind, wp_gets. rewrite He.
  rewrite (proj2 (Z.eqb_neq cf 0)) by (by apply tflags_nonzero).
  apply wp_bind. eapply wp_mono; [by apply alloc_pt_wp|].
  intros ? s1 (-> & R1 & Hfr & Henv). rewrite (proj2 (Z.eqb_neq (g * 4096) 0)) by lia.
  apply wp_bind, wp_modify. apply wp_ret. unfold PAGE_SIZE. rewrite Z.div_mul by lia.
  destruct (table_entry g cf ltac:(lia) Hcf) as (H1 & H2 & H3).
  exists g, l, (<[g := mkU 1 0 false]> u), (<[i :: p := g]> tabs).
  split_and!; [done|by rewrite lookup_insert_eq|by apply rel_put| | |].
  - by eapply pt_rel_add.
  - apply acct_fresh; [done|lia|done].
  - constructor.
    + by exists [g].
    + by apply insert_subseteq.
    + by apply insert_subseteq.
    + intros q fq Hq. rewrite lookup_insert in Hq. case_decide; simplify_eq; [by right|by left].
    + intros f' j Hf'. assert (f' <> g).
      { intros ->. apply (Hf' (i :: p) HP2). by rewrite lookup_insert_eq. }
      assert (f <> f').
      { intros ->. apply (Hf' p HP1). rewrite lookup_insert_ne; [done|].
        intros E. apply (f_equal length) in E. simpl in E. lia. }
      change (rd_word (put_word f i (Z.lor (g * 4096) cf) s1) f' j = rd_word s f' j).
      rewrite rd_put_ne by (by left). by rewrite (rd_frames_ne _ _ _ _ _ Hfr).
    + done.
    + intros g' [<-|[_ Hg']]%lookup_insert_is_Some; [right; left|by left].
    + intros p' f' j Hp' Hj. change (rd_word (put_word f i (Z.lor (g * 4096) cf) s1) f' j = rd_word s f' j).
      rewrite rd_put_ne.
      * apply (rd_frames_ne _ _ _ _ _ Hfr). intros ->.
        pose proof (pt_used _ _ _ _ _ R _ _ Hp'). congruence.
      * destruct (decide (f = f')) as [<-|]; [right|by left]. intros <-.
        by rewrite (pt_inj _ _ _ _ _ R _ _ _ Hp' Hp) in Hj.
Qed.

Lemma leaf_entry_create mx ext s r tabs m u l v cf :
  pmm_rel s l u -> pt_rel s r tabs m u -> acct mx ext m u -> mx = max_pfn s ->
  _pml4_idx v ∉ F -> tflags_ok cf -> (3 <= length l)%nat ->
  wp (_leaf_entry r v cf) s (fun x s' => exists f l' u' tabs',
    x = Some (f, _pml1_idx v) /\ tabs' !! tail (path_of v) = Some f /\
    pmm_rel s' l' u' /\ pt_rel s' r tabs' m u' /\ acct mx ext m u' /\
    grows (on_path v) 3 s l u tabs s' l' u' tabs').
Proof.
  intros Rm R A Hmx Ho Hcf Hlen. unfold _leaf_entry, path_of. simpl tail.
  assert (Hlen_grow : forall n s l u t s' l' u' t', grows (on_path v) n s l u t s' l' u' t' ->
    (length l <= n + length l')%nat).
  { intros ????????? []. destruct gr_free0 as (new & -> & ?). rewrite length_app. lia. }
  apply wp_bind. eapply wp_mono.
  { eapply (table_next_create (on_path v)); [exact Rm|exact R|exact A|done|apply R|simpl; lia|
      apply pml4_range|done|done| |auto with kern|auto with kern]. intros ->. simpl in Hlen. lia. }
  intros ? s1 (t3 & l1 & u1 & tabs1 & -> & E3 & Rm1 & R1 & A1 & G1).
  pose proof (Hlen_grow _ _ _ _ _ _ _ _ _ G1).
  pose proof (gr_env _ _ _ _ _ _ _ _ _ _ G1) as (Hx1 & _).
  apply wp_bind. eapply wp_mono.
  { eapply (table_next_create (on_path v)); [exact Rm1|exact R1|exact A1|congruence|exact E3|simpl; lia|
      apply pml3_range|done|done| |auto with kern|auto with kern]. intros ->. simpl in *. lia. }
  intros ? s2 (t2 & l2 & u2 & tabs2 & -> & E2 & Rm2 & R2 & A2 & G2).
  pose proof (Hlen_grow _ _ _ _ _ _ _ _ _ G2).
  pose proof (gr_env _ _ _ _ _ _ _ _ _ _ G2) as (Hx2 & _).
  apply wp_bind. eapply wp_mono.
  { eapply (table_next_create (on_path v)); [exact Rm2|exact R2|exact A2|congruence|exact E2|simpl; lia|
      apply pml2_range|done|done| |auto with kern|apply on_path_tail]. intros ->. simpl in *. lia. }
  intros ? s3 (t1 & l3 & u3 & tabs3 & -> & E1 & Rm3 & R3 & A3 & G3).
  apply wp_ret. exists t1, l3, u3, tabs3. split_and!; try done.
  eapply (grows_trans _ 2 1); [eapply (grows_trans _ 1 1)|]; eauto.
Qed.

(** ** Dropping and installing a mapping *)

(** The effect of unsharing and unreferencing the frame of a dropped entry. *)
Definition drop_abs (mx g : Z) (l : list Z) (u : gmap Z ustate) : list Z * gmap Z ustate :=
  if mx <? g then (l, u)
  else match u !! g with
       | None => (l, u)
       | Some st =>
           if u_ref st =? 1 then (g :: l, delete g u)
           else (l, <[g := mkU (u_ref st - 1) (u_share st - 1) (u_cow st)]> u)
       end.

Lemma drop_abs_ne mx g l u g' : g' <> g -> (drop_abs mx g l u).2 !! g' = u !! g'.
Proof.
  intros Hne. unfold drop_abs. repeat case_match; simpl; try done.
  - by rewrite lookup_delete_ne.
  - by rewrite lookup_insert_ne.
Qed.

Lemma drop_mapping_wp s l u e :
  pmm_rel s l u ->
  (pte_frame e <= max_pfn s ->
   exists st, u !! pte_frame e = Some st /\ 1 <= u_share st <= u_ref st) ->
  wp (drop_mapping e) s (fun _ s' =>
    pmm_rel s' (drop_abs (max_pfn s) (pte_frame e) l u).1
               (drop_abs (max_pfn s) (pte_frame e) l u).2 /\
    (forall f i, (f = pte_frame e -> max_pfn s < f) -> rd_word s' f i = rd_word s f i) /\
    env_eq s s').
Proof.
  intros R Hst. unfold drop_mapping. apply wp_bind, wp_gets.
  unfold pfndb_phys_to_page. fold (pte_frame e). rewrite Z.gtb_ltb. unfold drop_abs.
  destruct (max_pfn s <? pte_frame e) eqn:Em; [by apply wp_ret|]. bools.
  destruct (Hst Em) as (st & Hu & Hs1 & Hs2). rewrite Hu. set (g := pte_frame e) in *.
  destruct (rel_ust _ _ _ _ _ R Hu) as [Hr Hs].
  apply wp_bind. eapply wp_intro; [eapply page_unshare_eq; eauto; lia|].
  assert (R1 : pmm_rel (set_pages <[g := used_page (mkU (u_ref st) (u_share st - 1) (u_cow st))]> s) l
    (<[g := mkU (u_ref st) (u_share st - 1) (u_cow st)]> u)).
  { eapply rel_update_used; eauto. split; simpl; lia. }
  destruct (u_ref st =? 1) eqn:E1; bools.
  - eapply wp_mono.
    { eapply page_unref_last; [exact R1|apply lookup_insert_eq|done|simpl; lia]. }
    intros ? s2 (R2 & Hfr & He). rewrite delete_insert_eq in R2. split_and!; [done| |].
    + intros f i Hf. rewrite (rd_frames_ne _ _ _ _ _ Hfr); [done|]. intros ->. lia.
    + exact He.
  - eapply wp_intro.
    { eapply page_unref_many; [exact R1|apply lookup_insert_eq|simpl; lia]. }
    split_and!; [|done|done]. simpl.
    pose proof (rel_update_used _ _ _ g _ (mkU (u_ref st - 1) (u_share st - 1) (u_cow st)) R1
      (lookup_insert_eq _ _ _)) as R2.
    rewrite insert_insert_eq in R2. apply R2. split; simpl; lia.
Qed.

(** Removing a counted entry and dropping its mapping keeps the accounts. *)
Lemma acct_drop mx ext m u l q e :
  acct mx ext m u -> m !! q = Some e ->
  acct mx ext (delete q m) (drop_abs mx (pte_frame e) l u).2.
Proof.
  intros A Hq. set (g := pte_frame e). pose proof (cnt_pos _ _ _ Hq) as Hpos. fold g in Hpos.
  assert (Hcnt : forall g', cnt (delete q m) g' = cnt m g' - if decide (g = g') then 1 else 0)
    by (intros; by apply cnt_delete).
  assert (Hlast : forall st, u !! g = Some st -> u_ref st = 1 -> cnt (delete q m) g = 0 /\ ext g = 0).
  { intros st Hu H1. destruct (acct_share _ _ _ _ A _ _ Hu) as (? & ? & ?).
    rewrite Hcnt, decide_True by done. lia. }
  constructor.
  - intros g' st' Hu'. rewrite Hcnt. destruct (decide (g = g')) as [<-|Hne].
    + unfold drop_abs in Hu'. destruct (mx <? g) eqn:Em.
      { destruct (acct_share _ _ _ _ A _ _ Hu') as (? & ? & ?). lia. }
      destruct (u !! g) as [st|] eqn:Eu; [|simpl in Hu'; congruence].
      destruct (acct_share _ _ _ _ A _ _ Eu) as (? & ? & ?).
      destruct (u_ref st =? 1); simpl in Hu'; [by rewrite lookup_delete_eq in Hu'|].
      rewrite lookup_insert_eq in Hu'. simplify_eq. simpl. lia.
    + rewrite drop_abs_ne in Hu' by done. destruct (acct_share _ _ _ _ A _ _ Hu') as (? & ? & ?). lia.
  - intros q' e' Hq' Hle. apply lookup_delete_Some in Hq' as [Hqq Hq'].
    pose proof (acct_used _ _ _ _ A _ _ Hq' Hle) as Hs.
    destruct (decide (pte_frame e' = g)) as [Heq|Hne]; [|by rewrite drop_abs_ne].
    rewrite Heq in *. unfold drop_abs. destruct (mx <? g); [done|].
    destruct Hs as [st Hu]. rewrite Hu. destruct (u_ref st =? 1) eqn:E1; simpl.
    + bools. destruct (Hlast _ Hu E1) as [Hz _].
      assert (1 <= cnt (delete q m) (pte_frame e')) by (eapply cnt_pos; by rewrite lookup_delete_ne).
      rewrite Heq in *. lia.
    + rewrite lookup_insert_eq. eauto.
  - intros g' Hle Hu'. destruct (decide (g' = g)) as [->|Hne].
    + unfold drop_abs in Hu'. destruct (mx <? g) eqn:Em; [by eapply acct_free|].
      destruct (u !! g) as [st|] eqn:Eu; [|by eapply acct_free].
      destruct (u_ref st =? 1) eqn:E1; simpl in Hu'; [|by rewrite lookup_insert_eq in Hu'].
      bools. by eapply Hlast.
    + rewrite drop_abs_ne in Hu' by done. by eapply acct_free.
Qed.

(** Adding an entry for a frame whose counters are raised with it. *)
Lemma acct_install mx ext m u q e st :
  acct mx ext m u -> m !! q = None -> u !! pte_frame e = Some st ->
  acct mx ext (<[q := e]> m) (<[pte_frame e := mkU (u_ref st + 1) (u_share st + 1) (u_cow st)]> u).
Proof.
  intros A Hq Hu. set (g := pte_frame e) in *. constructor.
  - intros g' st' Hu'. rewrite cnt_insert by done. fold g. destruct (decide (g = g')) as [<-|Hne].
    + rewrite lookup_insert_eq in Hu'. simplify_eq. simpl.
      destruct (acct_share _ _ _ _ A _ _ Hu) as (? & ? & ?). lia.
    + rewrite lookup_insert_ne in Hu' by done.
      destruct (acct_share _ _ _ _ A _ _ Hu') as (? & ? & ?). lia.
  - intros q' e' Hq' Hle. rewrite lookup_insert_is_Some. fold g.
    destruct (decide (g = pte_frame e')) as [|Hne]; [by left|]. right. split; [done|].
    rewrite lookup_insert in Hq'. case_decide; simplify_eq. by eapply acct_used.
  - intros g' Hle Hu'. rewrite lookup_insert in Hu'. case_decide; [done|]. by eapply acct_free.
Qed.

(** Writing the leaf entry at a path whose table exists. *)
Lemma pt_rel_write s r tabs m u p f i e :
  pt_rel s r tabs m u -> tabs !! p = Some f -> length p = 3%nat -> 0 <= i < 512 ->
  pt_rel (put_word f i e s) r tabs
    (if has e VMM_PRESENT then <[i :: p := e]> m else delete (i :: p) m) u.
Proof.
  intros R Hp Hl Hi. destruct R as [R0 R1 RF R2 R3 R4 R5 R6]. constructor; try done.
  - intros q fq j Hq Hj Hqo. pose proof (R1 _ _ _ Hq Hj Hqo) as He. unfold entry_ok in *.
    destruct (decide (f = fq /\ i = j)) as [[<- <-]|Hne].
    + assert (p = q) as <- by eauto. rewrite decide_True by done. rewrite rd_put_eq.
      destruct (has e VMM_PRESENT) eqn:Ee; [by rewrite lookup_insert_eq|by rewrite lookup_delete_eq].
    + assert (Hor : f <> fq \/ i <> j)
        by (destruct (decide (f = fq)), (decide (i = j)); tauto).
      rewrite rd_put_ne by done. case_decide; [|done].
      assert (i :: p <> j :: q) by (intros [= -> ->]; rewrite Hp in Hq; simplify_eq; tauto).
      destruct (has e VMM_PRESENT); [by rewrite lookup_insert_ne|by rewrite lookup_delete_ne].
  - intros q eq Hq. destruct (has e VMM_PRESENT).
    + rewrite lookup_insert in Hq. case_decide; simplify_eq; [|by eapply R4].
      exists i, p. split_and!; [done|done|eauto|lia|lia].
    + apply lookup_delete_Some in Hq as [_ Hq]. by eapply R4.
Qed.

(** ** [map_page] *)

(** The allocator state after the entry at [q] was dropped. *)
Definition drop_at (mx : Z) (m : gmap path Z) (q : path) (l : list Z) (u : gmap Z ustate)
  : list Z * gmap Z ustate :=
  match m !! q with
  | Some e => drop_abs mx (pte_frame e) l u
  | None => (l, u)
  end.

Lemma acct_drop_at mx ext m u l q :
  acct mx ext m u -> acct mx ext (delete q m) (drop_at mx m q l u).2.
Proof.
  intros A. unfold drop_at. destruct (m !! q) as [e|] eqn:Eq; [by apply acct_drop|].
  by rewrite delete_id.
Qed.

Lemma pt_of_root r : 0 < r -> negb (r * 4096 =? 0) = true /\ r * 4096 / PAGE_SIZE = r.
Proof. intros Hr. unfold PAGE_SIZE. split; [by rewrite (proj2 (Z.eqb_neq _ _)) by lia|by rewrite Z.div_mul]. Qed.

Lemma root_range s l u r tabs m : pmm_rel s l u -> pt_rel s r tabs m u -> 0 < r <= max_pfn s.
Proof.
  intros Rm R. eapply used_in_range; [done|]. eapply pt_used; [done|]. by eapply pt_root.
Qed.

Lemma map_page_wp ext s r tabs m u l v g st flags :
  pmm_rel s l u -> pt_rel s r tabs m u -> acct (max_pfn s) ext m u ->
  0 <= v < 2 ^ 64 -> _pml4_idx v ∉ F -> (3 <= length l)%nat ->
  u !! g = Some st -> (forall p, tabs !! p <> Some g) -> u_ref st + 1 < 2 ^ 32 ->
  (forall e, m !! path_of v = Some e -> pte_frame e = g -> 1 < u_ref st) ->
  wp (map_page (r * 4096) v (Some g) flags) s (fun _ s' => exists l1 u1 tabs' st1,
    let d := drop_at (max_pfn s) m (path_of v) l1 u1 in
    let u' := <[g := mkU (u_ref st1 + 1) (u_share st1 + 1) (u_cow st1)]> d.2 in
    let m' := <[path_of v := make_pte (g * 4096) flags]> m in
    d.2 !! g = Some st1 /\ pmm_rel s' d.1 u' /\ pt_rel s' r tabs' m' u' /\
    acct (max_pfn s) ext m' u' /\ env_eq s s' /\
    (exists new, l = new ++ l1 /\ (length new <= 3)%nat) /\ u ⊆ u1 /\ tabs ⊆ tabs' /\
    (forall p f, tabs' !! p = Some f -> tabs !! p = Some f \/ u !! f = None /\ f ∈ l) /\
    (forall f i, (forall p, on_path v p -> tabs' !! p <> Some f) ->
       (forall e, m !! path_of v = Some e -> pte_frame e = f -> u !! f = None) ->
       rd_word s' f i = rd_word s f i) /\
    (forall i, i <> _pml4_idx v -> rd_word s' r i = rd_word s r i)).
Proof.
  intros Rm R A Hv Ho Hlen Hg Hgt Href Hsame.
  pose proof (used_in_range _ _ _ _ _ Rm Hg) as Hgr. pose proof (rel_max _ _ _ Rm) as Hmax.
  pose proof (root_range _ _ _ _ _ _ Rm R) as Hr. destruct (pt_of_root r ltac:(lia)) as [Hr1 Hr2].
  unfold map_page. apply wp_bind, wp_assert; [done|].
  apply wp_bind, wp_assert; [by apply bool_decide_eq_true; eauto|].
  apply wp_bind, wp_gets. rewrite page_to_phys_ok by (try apply (rel_base _ _ _ Rm); lia).
  rewrite Hr2. set (av := ALIGN_DOWN v PAGE_SIZE).
  assert (Hpath : path_of av = path_of v) by (by apply path_of_align).
  assert (Hidx : _pml4_idx av = _pml4_idx v) by (unfold path_of in Hpath; by injection Hpath).
  apply wp_bind. eapply wp_mono.
  { eapply (leaf_entry_create (max_pfn s)); eauto using table_flags_ok. by rewrite Hidx. }
  intros ? s1 (f & l1 & u1 & tabs' & -> & Hf & Rm1 & R1 & A1 & G).
  set (q := path_of v) in *. assert (Hq : q = _pml1_idx av :: tail q).
  { by rewrite <- Hpath. }
  rewrite Hpath in Hf.
  assert (Htl : length (tail q) = 3%nat) by done.
  pose proof (pml1_range av) as Hi1. set (i := _pml1_idx av) in *.
  destruct G as [Hnew Hu1 Ht1 Hn1 Hw1 He1 Hf1 Hs1]. pose proof He1 as (Hmx1 & _).
  assert (Hg1 : u1 !! g = Some st) by (by eapply lookup_weaken).
  assert (Hgt1 : forall p, tabs' !! p <> Some g).
  { intros p [Hp|Hp]%Hn1; [by eapply Hgt|congruence]. }
  pose proof (pt_entry _ _ _ _ _ R1 _ _ _ Hf Hi1 ltac:(done)) as Hent. unfold entry_ok in Hent.
  rewrite decide_True in Hent by done. rewrite <- Hq in Hent.
  apply wp_bind, wp_gets. apply wp_bind.
  (* the old mapping *)
  eapply (wp_mono _ _ (fun _ s2 =>
    pmm_rel s2 (drop_at (max_pfn s) m q l1 u1).1 (drop_at (max_pfn s) m q l1 u1).2 /\
    (forall f' j, (forall e, m !! q = Some e -> pte_frame e = f' -> u !! f' = None) ->
       rd_word s2 f' j = rd_word s1 f' j) /\ env_eq s1 s2)).
  { unfold drop_at. destruct (m !! q) as [e|] eqn:Em.
    - destruct Hent as [-> Hpe]. apply wp_when_true; [done|]. rewrite <- Hmx1.
      eapply wp_mono; [apply (drop_mapping_wp _ _ _ _ Rm1)|].
      + intros Hle. rewrite Hmx1 in Hle. destruct (acct_used _ _ _ _ A1 _ _ Em Hle) as [st0 Hst0].
        exists st0. split; [done|]. destruct (acct_share _ _ _ _ A1 _ _ Hst0) as (? & ? & ?).
        pose proof (cnt_pos _ _ _ Em). lia.
      + intros ? s2 (R2 & Hw2 & He2). split_and!; [done| |done]. intros f' j Hf'. apply Hw2.
        intros ->. destruct (Z.lt_ge_cases (max_pfn s) (pte_frame e)) as [?|Hle]; [lia|].
        destruct (acct_used _ _ _ _ A _ _ Em Hle) as [? E]. by rewrite (Hf' e) in E.
    - apply wp_when_false; [done|]. done. }
  intros ? s2 (Rm2 & Hw2 & He2). set (d := drop_at (max_pfn s) m q l1 u1) in *.
  assert (Hst1 : exists st1, d.2 !! g = Some st1 /\ u_ref st1 + 1 < 2 ^ 32 /\ u_share st1 <= u_ref st1).
  { destruct (acct_share _ _ _ _ A1 _ _ Hg1) as (? & ? & ?).
    unfold d, drop_at. destruct (m !! q) as [e|] eqn:Em; [|simpl; eauto].
    destruct (decide (g = pte_frame e)) as [->|Hne]; [|rewrite drop_abs_ne by done; eauto].
    specialize (Hsame _ eq_refl eq_refl). unfold drop_abs. rewrite Hg1.
    rewrite (proj2 (Z.ltb_ge _ _)), (proj2 (Z.eqb_neq _ _)) by lia. simpl.
    rewrite lookup_insert_eq. eexists. split; [done|]. simpl. lia. }
  destruct Hst1 as (st1 & Hst1 & Href1 & Hsr1).
  destruct (rel_ust _ _ _ _ _ Rm2 Hst1) as [Hok1 Hok2].
  (* the tables do not see it *)
  assert (Hmt : forall e p f', m !! q = Some e -> tabs' !! p = Some f' -> pte_frame e <> f').
  { intros e p f' Hm Hp. by eapply mapped_not_table. }
  assert (R2 : pt_rel s2 r tabs' m d.2).
  { eapply pt_rel_frame; [exact R1| |].
    - intros p f' j Hp. apply Hw2. intros e Hm E. by destruct (Hmt e p f').
    - intros p f' Hp. unfold d, drop_at. destruct (m !! q) as [e|] eqn:Em; [|done].
      rewrite drop_abs_ne; [done|]. intros ->. by eapply Hmt. }
  pose proof (acct_drop_at _ _ _ _ l1 q A1) as A2. fold d in A2.
  apply wp_bind, wp_modify. fold (put_word f i (make_pte (g * 4096) flags) s2).
  set (e' := make_pte (g * 4096) flags).
  assert (Hfe : pte_frame e' = g) by (apply pte_frame_pte; lia).
  pose proof (pt_rel_write _ _ _ _ _ _ _ i e' R2 Hf Htl Hi1) as R3.
  unfold e' in R3 at 2. rewrite pte_present, <- Hq in R3. fold e' in R3.
  set (s3 := put_word f i e' s2) in *. assert (Rm3 : pmm_rel s3 d.1 d.2) by by apply rel_put.
  apply wp_bind. eapply wp_intro; [eapply page_share_eq; eauto; lia|].
  assert (Rm4 := rel_update_used _ _ _ g st1 (mkU (u_ref st1) (u_share st1 + 1) (u_cow st1)) Rm3
    Hst1 ltac:(split; simpl; lia)).
  eapply wp_intro; [eapply page_ref_eq; [exact Rm4|apply lookup_insert_eq|done]|]. simpl.
  assert (Rm5 := rel_update_used _ _ _ g _ (mkU (u_ref st1 + 1) (u_share st1 + 1) (u_cow st1)) Rm4
    (lookup_insert_eq _ _ _) ltac:(split; simpl; lia)). rewrite insert_insert_eq in Rm5.
  exists l1, u1, tabs', st1. cbn zeta. fold d. split_and!; try done.
  - eapply pt_rel_frame; [exact R3|done|].
    intros p f' Hp. rewrite lookup_insert_ne; [done|]. intros ->. by eapply Hgt1.
  - rewrite <- (insert_delete_eq m). rewrite <- Hfe at 1. apply acct_install; [done| |by rewrite Hfe].
    apply lookup_delete_eq.
  - etrans; [exact He1|]. exact He2.
  - intros p f' Hp. destruct (Hn1 _ _ Hp) as [?|Hnu]; [by left|right; split; [done|]].
    destruct (Hf1 f') as [[? ?]|?]; [|congruence|done]. rewrite (pt_used _ _ _ _ _ R1 _ _ Hp). eauto.
  - intros f' j Hf' Hold.
    change (rd_word s3 f' j = rd_word s f' j). unfold s3.
    rewrite rd_put_ne by (left; intros <-; by apply (Hf' (tail q) (on_path_tail v))).
    rewrite Hw2, Hw1; [done| |done]. intros p Hp. apply Hf'. unfold on_path in Hp. by rewrite Hpath in Hp.
  - intros j Hj. change (rd_word s3 r j = rd_word s r j). unfold s3.
    pose proof (pt_root _ _ _ _ _ R1) as Hroot.
    rewrite rd_put_ne by (left; intros ->; by rewrite (pt_inj _ _ _ _ _ R1 _ _ _ Hf Hroot) in Htl).
    rewrite Hw2 by (intros e Hm E; by destruct (Hmt e [] r)). apply (Hs1 [] r); [by apply (pt_root _ _ _ _ _ R)|].
    intros Hon. apply Hj. rewrite <- Hidx. by apply on_path_root.
Qed.

(** ** Freeing empty tables *)

Lemma table_empty_spec s t :
  _table_empty s t = true <-> forall j, 0 <= j < 512 -> has (rd_word s t j) VMM_PRESENT = false.
Proof.
  unfold _table_empty. rewrite forallb_forall. split.
  - intros H j Hj. apply negb_true_iff, H. apply list_elem_of_In, elem_of_seqZ. lia.
  - intros H j Hj%list_elem_of_In%elem_of_seqZ. apply negb_true_iff, H. lia.
Qed.

Lemma pt_rel_remove s s' r tabs m u p f i g :
  pt_rel s r tabs m u -> tabs !! p = Some f -> tabs !! (i :: p) = Some g ->
  _table_empty s g = true -> frames s' = <[g := ∅]> (frames s) ->
  pt_rel (put_word f i 0 s') r (delete (i :: p) tabs) m (delete g u).
Proof.
  intros R Hp Hg Hemp Hfr. rewrite table_empty_spec in Hemp.
  assert (Hinj : forall q, tabs !! q = Some g -> q = i :: p) by (intros; by eapply (pt_inj _ _ _ _ _ R)).
  assert (Hpne : p <> i :: p) by (intros E; apply (f_equal length) in E; simpl in E; lia).
  assert (Hfg : f <> g) by (intros ->; by apply Hpne, Hinj).
  assert (Hch : forall j, tabs !! (j :: i :: p) = None).
  { intros j. destruct (tabs !! (j :: i :: p)) as [t|] eqn:E; [|done].
    destruct (pt_up _ _ _ _ _ R _ _ _ E) as [_ Hj]. pose proof (pt_len _ _ _ _ _ R _ _ E) as Hl.
    pose proof (pt_entry _ _ _ _ _ R _ _ _ Hg Hj ltac:(done)) as He. unfold entry_ok in He.
    rewrite decide_False, E, Hemp in He by (simpl in *; lia). by destruct He. }
  assert (Hmch : forall j, m !! (j :: i :: p) = None).
  { intros j. destruct (m !! (j :: i :: p)) as [t|] eqn:E; [|done].
    destruct (pt_leaf _ _ _ _ _ R _ _ E) as (? & ? & [= <- <-] & Hl & _ & Hj).
    pose proof (pt_entry _ _ _ _ _ R _ _ _ Hg Hj ltac:(done)) as He. unfold entry_ok in He.
    rewrite decide_True, E in He by done. destruct He as [He1 He2].
    rewrite <- He1, Hemp in He2 by done. done. }
  destruct R as [R0 R1 RF R2 R3 R4 R5 R6].
  constructor.
  - by rewrite lookup_delete_ne.
  - intros q fq j Hq Hj Hqo. apply lookup_delete_Some in Hq as [Hqn Hq].
    pose proof (R1 _ _ _ Hq Hj Hqo) as He. unfold entry_ok in *.
    assert (fq <> g) by (intros ->; by apply Hqn; rewrite (Hinj _ Hq)).
    destruct (decide (f = fq /\ i = j)) as [[<- <-]|Hne].
    + assert (p = q) as <- by eauto. pose proof (R2 _ _ Hg) as Hl. simpl in Hl.
      rewrite decide_False by lia. by rewrite lookup_delete_eq, rd_put_eq.
    + assert (Hor : f <> fq \/ i <> j)
        by (destruct (decide (f = fq)), (decide (i = j)); tauto).
      rewrite rd_put_ne, (rd_frames_ne _ _ _ _ _ Hfr) by done.
      case_decide; [done|]. rewrite lookup_delete_ne; [done|].
      intros [= -> ->]. rewrite Hp in Hq. simplify_eq. tauto.
  - intros j Hj. apply lookup_delete_None. right. by apply RF.
  - intros q fq [_ Hq]%lookup_delete_Some. by eapply R2.
  - intros j q fq [Hqn Hq]%lookup_delete_Some. destruct (R3 _ _ _ Hq) as [Hs Hj].
    split; [|done]. rewrite lookup_delete_ne; [done|]. intros <-. by rewrite Hch in Hq.
  - intros q e Hq. destruct (R4 _ _ Hq) as (j & q' & -> & Hl & Hs & Hj).
    exists j, q'. split_and!; [done|done| |lia|lia]. rewrite lookup_delete_ne; [done|].
    intros <-. by rewrite Hmch in Hq.
  - intros q q' fq [_ Hq]%lookup_delete_Some [_ Hq']%lookup_delete_Some. by eapply R5.
  - intros q fq [Hqn Hq]%lookup_delete_Some. rewrite lookup_delete_ne; [by eapply R6|].
    intros ->. by apply Hqn; rewrite (Hinj _ Hq).
Qed.

(** What freeing empty tables may do to the rest of the state. *)
Record shrinks (P : path -> Prop) (s : mm) (l : list Z) (u : gmap Z ustate) (tabs : gmap path Z)
    (s' : mm) (l' : list Z) (u' : gmap Z ustate) (tabs' : gmap path Z) : Prop := {
  sh_free : exists fr, l' = fr ++ l;
  sh_used : u' ⊆ u;
  sh_keep : forall g st, u !! g = Some st -> (forall p, P p -> tabs !! p <> Some g) -> u' !! g = Some st;
  sh_tabs : tabs' ⊆ tabs;
  sh_words : forall f i, (forall p, P p -> tabs !! p <> Some f) -> rd_word s' f i = rd_word s f i;
  sh_env : env_eq s s';
  sh_slot : forall p f i, tabs' !! p = Some f -> ~ P (i :: p) -> rd_word s' f i = rd_word s f i;
}.

Lemma shrinks_refl P s l u tabs : shrinks P s l u tabs s l u tabs.
Proof. constructor; try done. by exists []. Qed.

Lemma shrinks_trans P s l u tabs s1 l1 u1 tabs1 s2 l2 u2 tabs2 :
  shrinks P s l u tabs s1 l1 u1 tabs1 -> shrinks P s1 l1 u1 tabs1 s2 l2 u2 tabs2 ->
  shrinks P s l u tabs s2 l2 u2 tabs2.
Proof.
  intros [(a & ->) Hu1 Hk1 Ht1 Hw1 He1 Hs1] [(b & ->) Hu2 Hk2 Ht2 Hw2 He2 Hs2].
  assert (Hsub : forall f, (forall p, P p -> tabs !! p <> Some f) ->
    forall p, P p -> tabs1 !! p <> Some f).
  { intros f Hf p HP Hp. by eapply Hf, lookup_weaken. }
  constructor.
  - exists (b ++ a). by rewrite app_assoc.
  - by etrans.
  - intros g st Hg Hgt. apply Hk2; [by apply Hk1|by apply Hsub].
  - by etrans.
  - intros f i Hf. rewrite Hw2 by (by apply Hsub). by apply Hw1.
  - by etrans.
  - intros p f i Hp Hi. rewrite (Hs2 p) by done. apply (Hs1 p); [by eapply lookup_weaken|done].
Qed.

Lemma acct_free_table mx ext m u g :
  acct mx ext m u -> u !! g = Some (mkU 1 0 false) -> acct mx ext m (delete g u).
Proof.
  intros A Hu. destruct (acct_share _ _ _ _ A _ _ Hu) as (H1 & _ & H3). simpl in H1.
  pose proof (cnt_nonneg m g). constructor.
  - intros g' st [_ Hg']%lookup_delete_Some. by eapply acct_share.
  - intros q e Hq Hle. rewrite lookup_delete_ne; [by eapply acct_used|].
    intros ->. pose proof (cnt_pos _ _ _ Hq). lia.
  - intros g' Hle Hg'. destruct (decide (g = g')) as [<-|Hne]; [lia|].
    rewrite lookup_delete_ne in Hg' by done. by eapply acct_free.
Qed.

(** One level: free the empty table [g] and clear the entry that led to it. *)
Lemma free_table_wp (P : path -> Prop) ext s l r tabs m u p f i g :
  pmm_rel s l u -> pt_rel s r tabs m u -> acct (max_pfn s) ext m u ->
  tabs !! p = Some f -> tabs !! (i :: p) = Some g -> _table_empty s g = true ->
  P p -> P (i :: p) ->
  wp (_free_pt (Z.land (rd_word s f i) PAGE_FRAME_MASK)) s (fun _ s1 =>
    let s' := put_word f i 0 s1 in
    pmm_rel s' (g :: l) (delete g u) /\ pt_rel s' r (delete (i :: p) tabs) m (delete g u) /\
    acct (max_pfn s) ext m (delete g u) /\
    shrinks P s l u tabs s' (g :: l) (delete g u) (delete (i :: p) tabs)).
Proof.
  intros Rm R A Hp Hg Hemp HP1 HP2. destruct (pt_up _ _ _ _ _ R _ _ _ Hg) as [_ Hi].
  pose proof (pt_len _ _ _ _ _ R _ _ Hg) as Hl. simpl in Hl.
  pose proof (pt_entry _ _ _ _ _ R _ _ _ Hp Hi (tab_own _ _ _ _ _ _ _ _ R Hg)) as He.
  unfold entry_ok in He. rewrite decide_False, Hg in He by lia. destruct He as (_ & He & _).
  pose proof (pt_used _ _ _ _ _ R _ _ Hg) as Hu.
  pose proof (used_in_range _ _ _ _ _ Rm Hu) as Hgr.
  unfold _free_pt. apply wp_bind, wp_gets. unfold pfndb_phys_to_page.
  fold (pte_frame (rd_word s f i)). rewrite He, Z.gtb_ltb, (proj2 (Z.ltb_ge _ _)) by lia.
  eapply wp_mono; [by eapply page_unref_last|]. intros ? s1 (Rm1 & Hfr & Henv).
  assert (Hgf : g <> f).
  { intros ->. assert (E : p = i :: p) by (by eapply (pt_inj _ _ _ _ _ R)).
    apply (f_equal length) in E. simpl in E. lia. }
  cbn zeta. split_and!; [by apply rel_put|by eapply pt_rel_remove|by apply acct_free_table|].
  constructor.
  - by exists [g].
  - apply delete_subseteq.
  - intros g' st Hg' Hgt. rewrite lookup_delete_ne; [done|]. intros <-. by eapply Hgt, Hg.
  - apply delete_subseteq.
  - intros f' j Hf'. rewrite rd_put_ne by (left; intros <-; by eapply Hf', Hp).
    apply (rd_frames_ne _ _ _ _ _ Hfr). intros ->. by eapply Hf', Hg.
  - done.
  - intros p' f' j [Hne Hp']%lookup_delete_Some Hj. rewrite rd_put_ne.
    + apply (rd_frames_ne _ _ _ _ _ Hfr). intros ->. by apply Hne, (pt_inj _ _ _ _ _ R _ _ g).
    + destruct (decide (f = f')) as [<-|]; [right|by left]. intros <-.
      by rewrite (pt_inj _ _ _ _ _ R _ _ _ Hp' Hp) in Hj.
Qed.

Lemma node_entry s r tabs m u p f i :
  pt_rel s r tabs m u -> tabs !! p = Some f -> (length p < 3)%nat -> 0 <= i < 512 ->
  (p = [] -> i ∉ F) ->
  match tabs !! (i :: p) with
  | Some g => has (rd_word s f i) VMM_PRESENT = true /\ pte_frame (rd_word s f i) = g
  | None => has (rd_word s f i) VMM_PRESENT = false
  end.
Proof.
  intros R Hp Hl Hi Ho. pose proof (pt_entry _ _ _ _ _ R _ _ _ Hp Hi Ho) as He.
  unfold entry_ok in He. rewrite decide_False in He by lia.
  destruct (tabs !! (i :: p)); [|done]. tauto.
Qed.

Definition shrunk (v : Z) (ext : Z -> Z) (m : gmap path Z) (r : Z)
    (s : mm) (l : list Z) (u : gmap Z ustate) (tabs : gmap path Z) (s' : mm) : Prop :=
  exists l' u' tabs', pmm_rel s' l' u' /\ pt_rel s' r tabs' m u' /\
    acct (max_pfn s) ext m u' /\ shrinks (on_path v) s l u tabs s' l' u' tabs'.

Lemma free_empty_wp ext s l r tabs m u v :
  pmm_rel s l u -> pt_rel s r tabs m u -> acct (max_pfn s) ext m u -> _pml4_idx v ∉ F ->
  wp (ptable_free_empty_locked (r * 4096) v) s (fun _ s' => shrunk v ext m r s l u tabs s').
Proof.
  intros Rm R A Ho. unfold ptable_free_empty_locked, PAGE_SIZE. rewrite Z.div_mul by lia.
  assert (Hstop : shrunk v ext m r s l u tabs s).
  { exists l, u, tabs. split_and!; try done. apply shrinks_refl. }
  pose proof (pt_root _ _ _ _ _ R) as H0.
  (* walk *)
  apply wp_bind, wp_gets.
  pose proof (node_entry _ _ _ _ _ _ _ _ R H0 ltac:(simpl; lia) (pml4_range v) ltac:(done)) as He4.
  destruct (tabs !! [_pml4_idx v]) as [t3|] eqn:E3; [destruct He4 as [He4 Hf4]|]; rewrite He4; simpl negb; [|by apply wp_ret].
  change (?e / 4096) with (e / PAGE_SIZE). fold (pte_frame (rd_word s r (_pml4_idx v))). rewrite Hf4.
  apply wp_bind, wp_gets.
  pose proof (node_entry _ _ _ _ _ _ _ _ R E3 ltac:(simpl; lia) (pml3_range v) ltac:(done)) as He3.
  destruct (tabs !! [_pml3_idx v; _pml4_idx v]) as [t2|] eqn:E2; [destruct He3 as [He3 Hf3]|]; rewrite He3; simpl negb; [|by apply wp_ret].
  fold (pte_frame (rd_word s t3 (_pml3_idx v))). rewrite Hf3.
  apply wp_bind, wp_gets.
  pose proof (node_entry _ _ _ _ _ _ _ _ R E2 ltac:(simpl; lia) (pml2_range v) ltac:(done)) as He2.
  destruct (tabs !! [_pml2_idx v; _pml3_idx v; _pml4_idx v]) as [t1|] eqn:E1; [destruct He2 as [He2 Hf2]|]; rewrite He2; simpl negb; [|by apply wp_ret].
  fold (pte_frame (rd_word s t2 (_pml2_idx v))). rewrite Hf2.
  (* first level *)
  apply wp_bind, wp_gets. destruct (_table_empty s t1) eqn:Em1; simpl negb; [|by apply wp_ret].
  apply wp_bind, wp_gets. apply wp_bind. eapply wp_mono.
  { by eapply (free_table_wp (on_path v)); eauto with kern; apply on_path_tail. }
  intros ? s1 (Rm1 & R1 & A1 & S1). apply wp_bind, wp_modify.
  fold (put_word t2 (_pml2_idx v) 0 s1). set (s1' := put_word _ _ _ s1) in *.
  pose proof (sh_env _ _ _ _ _ _ _ _ _ S1) as (Hx1 & _).
  apply wp_bind, wp_gets. destruct (_table_empty s1' t2) eqn:Em2; simpl negb.
  2:{ apply wp_ret. do 3 eexists. split_and!; [exact Rm1|exact R1|exact A1|exact S1]. }
  rewrite <- Hx1 in A1. apply wp_bind, wp_gets. apply wp_bind. eapply wp_mono.
  { eapply (free_table_wp (on_path v) _ _ _ _ _ _ _ [_pml4_idx v] t3 (_pml3_idx v) t2);
      [exact Rm1|exact R1|exact A1| | |exact Em2|auto with kern|auto with kern];
      (rewrite lookup_delete_ne; [eassumption|done]). }
  intros ? s2 (Rm2 & R2 & A2 & S2). apply wp_bind, wp_modify.
  fold (put_word t3 (_pml3_idx v) 0 s2). set (s2' := put_word _ _ _ s2) in *.
  pose proof (sh_env _ _ _ _ _ _ _ _ _ S2) as (Hx2 & _).
  pose proof (shrinks_trans _ _ _ _ _ _ _ _ _ _ _ _ _ S1 S2) as S12.
  apply wp_bind, wp_gets. rewrite Hx1 in A2.
  destruct (_table_empty s2' t3) eqn:Em3; simpl negb.
  2:{ apply wp_ret. do 3 eexists. split_and!; [exact Rm2|exact R2|exact A2|exact S12]. }
  rewrite <- Hx1, <- Hx2 in A2. apply wp_bind, wp_gets. apply wp_bind. eapply wp_mono.
  { eapply (free_table_wp (on_path v) _ _ _ _ _ _ _ [] r (_pml4_idx v) t3);
      [exact Rm2|exact R2|exact A2| | |exact Em3|auto with kern|auto with kern];
      (rewrite !lookup_delete_ne; [eassumption|done|done]). }
  intros ? s3 (Rm3 & R3 & A3 & S3). apply wp_modify.
  fold (put_word r (_pml4_idx v) 0 s3). set (s3' := put_word _ _ _ s3) in *.
  rewrite Hx2, Hx1 in A3. do 3 eexists. split_and!; [exact Rm3|exact R3|exact A3|].
  by eapply shrinks_trans.
Qed.

(** ** Reading and unmapping *)

(** The leaf entry a walk without creation finds. *)
Lemma leaf_lookup s r tabs m u v :
  pt_rel s r tabs m u -> 0 <= v < 2 ^ 64 -> _pml4_idx v ∉ F ->
  exists x, _leaf_entry r (ALIGN_DOWN v PAGE_SIZE) 0 s = Ret x s /\
    match x with
    | None => m !! path_of v = None
    | Some (f, i) =>
        tabs !! tail (path_of v) = Some f /\ i = _pml1_idx v /\
        match m !! path_of v with
        | Some e => rd_word s f i = e /\ has e VMM_PRESENT = true
        | None => has (rd_word s f i) VMM_PRESENT = false
        end
    end.
Proof.
  intros R Hv Ho.
  assert (H4 : _pml4_idx (ALIGN_DOWN v PAGE_SIZE) = _pml4_idx v).
  { pose proof (path_of_align v Hv) as E. unfold path_of in E. by injection E. }
  rewrite (leaf_entry_ro _ _ _ _ _ _ R), path_of_align by (by rewrite ?H4). eexists. split; [done|].
  assert (Hidx : _pml1_idx (ALIGN_DOWN v PAGE_SIZE) = _pml1_idx v).
  { pose proof (path_of_align v Hv) as E. unfold path_of in E. by injection E. }
  destruct (tabs !! tail (path_of v)) as [f|] eqn:Ef.
  - split_and!; [done|done|]. rewrite Hidx.
    pose proof (pt_entry _ _ _ _ _ R _ _ _ Ef (pml1_range v) ltac:(done)) as He. unfold entry_ok in He.
    by rewrite decide_True in He by done.
  - destruct (m !! path_of v) as [e|] eqn:Em; [|done].
    destruct (pt_leaf _ _ _ _ _ R _ _ Em) as (i & p & Hq & _ & [? Hp] & _).
    rewrite Hq in Ef. simpl in Ef. congruence.
Qed.

Lemma get_phys_eq s l r tabs m u v :
  pmm_rel s l u -> pt_rel s r tabs m u -> 0 <= v < 2 ^ 64 -> _pml4_idx v ∉ F ->
  get_phys (r * 4096) v s = Ret
    (match m !! path_of v with
     | Some e => u64 (Z.land e PAGE_FRAME_MASK + Z.land v (PAGE_SIZE - 1))
     | None => 0
     end) s.
Proof.
  intros Rm R Hv Ho. destruct (pt_of_root r) as [H1 H2]; [by eapply root_range|].
  unfold get_phys. unfold bind at 1. rewrite H1, H2. simpl.
  destruct (leaf_lookup _ _ _ _ _ _ R Hv Ho) as ([[f i]|] & Hl & Hx); unfold bind; rewrite Hl; simpl.
  - destruct Hx as (_ & _ & Hx). destruct (m !! path_of v) as [e|].
    + destruct Hx as [-> Hp]. by rewrite Hp.
    + by rewrite Hx.
  - by rewrite Hx.
Qed.

Lemma get_mapping_flags_eq s l r tabs m u v :
  pmm_rel s l u -> pt_rel s r tabs m u -> 0 <= v < 2 ^ 64 -> _pml4_idx v ∉ F ->
  get_mapping_flags (r * 4096) v s = Ret
    (match m !! path_of v with Some e => clr e PAGE_FRAME_MASK | None => 0 end) s.
Proof.
  intros Rm R Hv Ho. destruct (pt_of_root r) as [H1 H2]; [by eapply root_range|].
  unfold get_mapping_flags. unfold bind at 1. rewrite H1, H2. simpl.
  destruct (leaf_lookup _ _ _ _ _ _ R Hv Ho) as ([[f i]|] & Hl & Hx); unfold bind; rewrite Hl; simpl.
  - destruct Hx as (_ & _ & Hx). destruct (m !! path_of v) as [e|].
    + destruct Hx as [-> Hp]. by rewrite Hp.
    + by rewrite Hx.
  - by rewrite Hx.
Qed.

Lemma unmap_page_miss s l r tabs m u v :
  pmm_rel s l u -> pt_rel s r tabs m u -> 0 <= v < 2 ^ 64 -> _pml4_idx v ∉ F ->
  m !! path_of v = None ->
  unmap_page (r * 4096) v s = Ret tt s.
Proof.
  intros Rm R Hv Ho Hm. destruct (pt_of_root r) as [H1 H2]; [by eapply root_range|].
  unfold unmap_page. unfold bind at 1. rewrite H1, H2. simpl.
  destruct (leaf_lookup _ _ _ _ _ _ R Hv Ho) as ([[f i]|] & Hl & Hx); unfold bind at 1; rewrite Hl; [|done].
  destruct Hx as (_ & _ & Hx). rewrite Hm in Hx. unfold bind, gets. by rewrite Hx.
Qed.

Lemma unmap_page_wp ext s l r tabs m u v :
  pmm_rel s l u -> pt_rel s r tabs m u -> acct (max_pfn s) ext m u -> 0 <= v < 2 ^ 64 ->
  _pml4_idx v ∉ F ->
  wp (unmap_page (r * 4096) v) s (fun _ s' => exists l' u' tabs',
    let q := path_of v in
    let d := drop_at (max_pfn s) m q l u in
    pmm_rel s' l' u' /\ pt_rel s' r tabs' (delete q m) u' /\
    acct (max_pfn s) ext (delete q m) u' /\ env_eq s s' /\
    (exists fr, l' = fr ++ d.1) /\ u' ⊆ d.2 /\ tabs' ⊆ tabs /\
    (forall g st, d.2 !! g = Some st -> (forall p, on_path v p -> tabs !! p <> Some g) -> u' !! g = Some st) /\
    (forall f i, (forall p, on_path v p -> tabs !! p <> Some f) ->
       (forall e, m !! q = Some e -> pte_frame e = f -> u !! f = None) ->
       rd_word s' f i = rd_word s f i) /\
    (forall i, i <> _pml4_idx v -> rd_word s' r i = rd_word s r i)).
Proof.
  intros Rm R A Hv Ho. set (q := path_of v). destruct (m !! q) as [e|] eqn:Em.
  2:{ eapply wp_intro; [by eapply unmap_page_miss|]. exists l, u, tabs. cbn zeta.
      unfold drop_at. rewrite Em, delete_id by done. split_and!; try done. by exists []. }
  destruct (pt_of_root r) as [H1 H2]; [by eapply root_range|].
  unfold unmap_page. apply wp_bind, wp_assert; [done|]. rewrite H2.
  destruct (leaf_lookup _ _ _ _ _ _ R Hv Ho) as (x & Hl & Hx).
  apply wp_bind. eapply wp_intro; [exact Hl|]. fold q in Hx. rewrite Em in Hx.
  destruct x as [[f i]|]; [|done]. destruct Hx as (Hf & -> & Hw & Hpe).
  apply wp_bind, wp_gets. rewrite Hw, Hpe. simpl negb.
  apply wp_bind, wp_modify. fold (put_word f (_pml1_idx v) 0 s).
  assert (R1 : pt_rel (put_word f (_pml1_idx v) 0 s) r tabs (delete q m) u).
  { exact (pt_rel_write _ _ _ _ _ _ _ _ 0 R Hf eq_refl (pml1_range v)). }
  set (s1 := put_word f (_pml1_idx v) 0 s) in *.
  assert (Rm1 : pmm_rel s1 l u) by (by apply rel_put).
  apply wp_bind. eapply wp_mono.
  { apply (drop_mapping_wp _ _ _ e Rm1). intros Hle.
    destruct (acct_used _ _ _ _ A _ _ Em Hle) as [st Hst]. exists st. split; [done|].
    destruct (acct_share _ _ _ _ A _ _ Hst) as (? & ? & ?). pose proof (cnt_pos _ _ _ Em). lia. }
  intros ? s2 (Rm2 & Hw2 & He2). change (max_pfn s1) with (max_pfn s) in Rm2.
  pose proof He2 as (Hx2 & _). change (max_pfn s1) with (max_pfn s) in Hx2.
  pose proof (acct_drop _ _ _ _ l _ _ A Em) as A2.
  set (d := drop_abs (max_pfn s) (pte_frame e) l u) in *.
  assert (Hmt : forall p f', tabs !! p = Some f' -> pte_frame e <> f').
  { intros p f' Hp. exact (mapped_not_table _ _ _ _ _ _ _ _ _ _ _ R A Em Hp). }
  assert (R2 : pt_rel s2 r tabs (delete q m) d.2).
  { eapply pt_rel_frame; [exact R1| |].
    - intros p f' j Hp. apply Hw2. intros ->. by destruct (Hmt p (pte_frame e)).
    - intros p f' Hp. apply drop_abs_ne. intros ->. by eapply Hmt. }
  rewrite <- Hx2 in A2.
  assert (H4 : _pml4_idx (ALIGN_DOWN v PAGE_SIZE) = _pml4_idx v).
  { pose proof (path_of_align v Hv) as E. unfold path_of in E. by injection E. }
  eapply wp_mono; [eapply free_empty_wp; [exact Rm2|exact R2|exact A2|by rewrite H4]|].
  intros ? s3 (l' & u' & tabs' & Rm3 & R3 & A3 & [S1 S2 S3 S4 S5 S6 S7]).
  assert (Hop : on_path (ALIGN_DOWN v PAGE_SIZE) = on_path v)
    by (unfold on_path; by rewrite path_of_align).
  rewrite Hop in S3, S5.
  exists l', u', tabs'. cbn zeta. unfold drop_at. rewrite Em. fold d.
  rewrite Hx2 in A3. split_and!; try done.
  - etrans; [exact He2|exact S6].
  - intros f' j Hf' Hold. rewrite S5 by done. rewrite Hw2.
    2:{ intros ->. change (max_pfn s1) with (max_pfn s).
        destruct (Z.lt_ge_cases (max_pfn s) (pte_frame e)) as [?|Hle]; [lia|].
        destruct (acct_used _ _ _ _ A _ _ Em Hle) as [? E]. by rewrite (Hold e) in E. }
    apply rd_put_ne. left. intros <-. by apply (Hf' _ (on_path_tail v)).
  - intros j Hj. pose proof (pt_root _ _ _ _ _ R) as Hroot.
    rewrite (S7 [] r); [|by apply (pt_root _ _ _ _ _ R3)|by rewrite Hop; intros ?%on_path_root].
    rewrite Hw2 by (intros E; by destruct (Hmt [] r)).
    apply rd_put_ne. left. intros ->. by pose proof (pt_inj _ _ _ _ _ R _ _ _ Hf Hroot).
Qed.

End Rep.

#[export] Hint Resolve on_path_tail on_path_2 on_path_1 on_path_0 : kern.

Arguments pt_rel F s r tabs m u : clear implicits.
