(* ===== verification/PagingProps.v ===== *)
(** * Properties of the page tables (kernel/src/mm/paging.c)

    What [map_page], [unmap_page], [get_phys] and [get_mapping_flags] do to the
    translation a page table stands for, proved from the representation lemmas
    of PagingRel. *)

From stdpp Require Import gmap list.
From Stdlib Require Import ZArith Lia.
From S2P Require Import Prelude Pfndb Pmm Paging PagingRel.

Local Open Scope Z_scope.

Lemma translate_offset v : Z.land v (PAGE_SIZE - 1) = v `mod` 4096.
Proof. change (PAGE_SIZE - 1) with (Z.ones 12). by rewrite Z.land_ones. Qed.

(** ** What the processor makes of a page table *)

(** The processor's four-level walk from the root [r], with its large pages: an
    entry with the page-size bit ends the walk at the third or second level. *)
Definition mmu (s : mm) (r w : Z) : option Z :=
  let e4 := rd_word s r (_pml4_idx w) in
  if negb (has e4 VMM_PRESENT) then None else
  let e3 := rd_word s (pte_frame e4) (_pml3_idx w) in
  if negb (has e3 VMM_PRESENT) then None else
  if has e3 VMM_HUGE then Some (Z.land e3 PAGE_FRAME_MASK / 2 ^ 30 * 2 ^ 30 + w `mod` 2 ^ 30) else
  let e2 := rd_word s (pte_frame e3) (_pml2_idx w) in
  if negb (has e2 VMM_PRESENT) then None else
  if has e2 VMM_HUGE then Some (Z.land e2 PAGE_FRAME_MASK / 2 ^ 21 * 2 ^ 21 + w `mod` 2 ^ 21) else
  let e1 := rd_word s (pte_frame e2) (_pml1_idx w) in
  if negb (has e1 VMM_PRESENT) then None else
  Some (Z.land e1 PAGE_FRAME_MASK + w `mod` 4096).

(** The tables below the root that this walk reads. *)
Definition walk_tables (s : mm) (r w : Z) : list Z :=
  let e4 := rd_word s r (_pml4_idx w) in
  if negb (has e4 VMM_PRESENT) then [] else
  pte_frame e4 ::
  let e3 := rd_word s (pte_frame e4) (_pml3_idx w) in
  if negb (has e3 VMM_PRESENT) || has e3 VMM_HUGE then [] else
  pte_frame e3 ::
  let e2 := rd_word s (pte_frame e3) (_pml2_idx w) in
  if negb (has e2 VMM_PRESENT) || has e2 VMM_HUGE then [] else [pte_frame e2].

Lemma mmu_agree s s' r w :
  rd_word s' r (_pml4_idx w) = rd_word s r (_pml4_idx w) ->
  (forall t i, t ∈ walk_tables s r w -> rd_word s' t i = rd_word s t i) ->
  mmu s' r w = mmu s r w.
Proof.
  unfold mmu, walk_tables. intros -> Ht.
  destruct (negb (has (rd_word s r _) _)); [done|].
  rewrite (Ht (pte_frame (rd_word s r (_pml4_idx w)))) by left.
  destruct (negb (has (rd_word s (pte_frame _) _) _)); [done|]. simpl in Ht.
  destruct (has (rd_word s (pte_frame _) _) VMM_HUGE); [done|].
  rewrite (Ht (pte_frame (rd_word s (pte_frame (rd_word s r (_pml4_idx w))) (_pml3_idx w)))) by (right; left).
  destruct (negb (has (rd_word s (pte_frame (rd_word s (pte_frame _) _)) _) _)); [done|]. simpl in Ht.
  destruct (has (rd_word s (pte_frame (rd_word s (pte_frame _) _)) _) VMM_HUGE); [done|].
  rewrite Ht; [done|]. right; right; left.
Qed.

(** The tables behind the boot loader's entries are not the allocator's: they
    are neither free nor given out. *)
Definition boot_half (F : gset Z) (s : mm) (r : Z) (l : list Z) (u : gmap Z ustate) : Prop :=
  forall w t, _pml4_idx w ∈ F -> t ∈ walk_tables s r w -> (t ∉ l) /\ u !! t = None.

Section Walk.
Context {F : gset Z}.

Lemma table_entry_hit s r tabs m u p f i :
  pt_rel F s r tabs m u -> tabs !! p = Some f -> (length p < 3)%nat -> 0 <= i < 512 ->
  (p = [] -> i ∉ F) ->
  match tabs !! (i :: p) with
  | Some g => has (rd_word s f i) VMM_PRESENT = true /\ pte_frame (rd_word s f i) = g /\
              has (rd_word s f i) VMM_HUGE = false
  | None => has (rd_word s f i) VMM_PRESENT = false
  end.
Proof.
  intros R Hp Hl Hi Ho. pose proof (pt_entry _ _ _ _ _ R _ _ _ Hp Hi Ho) as He.
  unfold entry_ok in He. by rewrite decide_False in He by lia.
Qed.

Ltac walk_level R Hp w range :=
  let He := fresh "He" in
  pose proof (table_entry_hit _ _ _ _ _ _ _ _ R Hp ltac:(simpl; lia) (range w) ltac:(done)) as He;
  let g := fresh "g" in let Eg := fresh "Eg" in
  match type of He with context [match ?x with _ => _ end] => destruct x as [g|] eqn:Eg end;
  [destruct He as (? & ? & ?)|].

(** Outside the foreign slots the processor's walk is the map of entries. *)
Lemma mmu_eq s r tabs m u w :
  pt_rel F s r tabs m u -> _pml4_idx w ∉ F ->
  mmu s r w = (fun e => Z.land e PAGE_FRAME_MASK + w `mod` 4096) <$> (m !! path_of w).
Proof.
  intros R Ho. unfold mmu.
  assert (Hno : tabs !! tail (path_of w) = None -> m !! path_of w = None).
  { intros Hn. destruct (m !! path_of w) eqn:E; [|done].
    apply (pt_leaf _ _ _ _ _ R) in E as (? & ? & [= <- <-] & _ & [? ?] & _). unfold path_of in Hn. simpl in Hn. congruence. }
  assert (Hup : forall i p, tabs !! p = None -> tabs !! (i :: p) = None).
  { intros i p Hn. destruct (tabs !! (i :: p)) eqn:E; [|done].
    apply (pt_up _ _ _ _ _ R) in E as [[? ?] _]. congruence. }
  walk_level R (pt_root _ _ _ _ _ R) w pml4_range; [|by rewrite He, Hno by (unfold path_of; simpl; auto)].
  rewrite H, H0. simpl negb. cbv iota.
  walk_level R Eg w pml3_range; [|by rewrite He, Hno by (unfold path_of; simpl; auto)].
  rewrite H2, H4, H3. simpl negb. cbv iota.
  walk_level R Eg0 w pml2_range; [|by rewrite He, Hno by done].
  rewrite H5, H7, H6. simpl negb. cbv iota.
  pose proof (pt_entry _ _ _ _ _ R _ _ _ Eg1 (pml1_range w) ltac:(done)) as He.
  unfold entry_ok in He. rewrite decide_True in He by done. fold (path_of w) in He.
  destruct (m !! path_of w) as [e|]; [destruct He as [<- ->]; done|by rewrite He].
Qed.

(** ... and it reads this page table's own tables. *)
Lemma walk_tables_own s r tabs m u w t :
  pt_rel F s r tabs m u -> _pml4_idx w ∉ F -> t ∈ walk_tables s r w -> exists p, tabs !! p = Some t.
Proof.
  intros R Ho. unfold walk_tables.
  walk_level R (pt_root _ _ _ _ _ R) w pml4_range; [|rewrite He; by intros ?%elem_of_nil].
  rewrite H, H0. simpl negb. cbv iota. intros [->|Ht]%elem_of_cons; [eauto|]. revert Ht.
  walk_level R Eg w pml3_range; [|rewrite He; by intros ?%elem_of_nil].
  rewrite H2, H4, H3. simpl. intros [->|Ht]%elem_of_cons; [eauto|]. revert Ht.
  walk_level R Eg0 w pml2_range; [|rewrite He; by intros ?%elem_of_nil].
  rewrite H5, H7, H6. simpl. intros ->%list_elem_of_singleton. eauto.
Qed.

(** Every table the walk of an address reads belongs to this page table or is
    not the allocator's. *)
Lemma walk_tables_split s r tabs m u l w t :
  pt_rel F s r tabs m u -> boot_half F s r l u -> t ∈ walk_tables s r w ->
  (exists p, tabs !! p = Some t) \/ (t ∉ l) /\ u !! t = None.
Proof.
  intros R B Ht. destruct (decide (_pml4_idx w ∈ F)) as [Hw|Hw].
  - right. by eapply B.
  - left. by eapply walk_tables_own.
Qed.

End Walk.

(** ** Addresses *)

(** The addresses the processor accepts: the user half and the kernel half. *)
Definition canonical (v : Z) : Prop := 0 <= v < 2 ^ 47 \/ 2 ^ 64 - 2 ^ 47 <= v < 2 ^ 64.

Lemma path_of_low v : path_of (v `mod` 2 ^ 48) = path_of v.
Proof.
  assert (H : forall k, 0 <= k <= 39 ->
    Z.land (Z.shiftr (v `mod` 2 ^ 48) k) PML_IDX_MASK = Z.land (Z.shiftr v k) PML_IDX_MASK).
  { intros k Hk. change PML_IDX_MASK with (Z.ones 9). apply Z.bits_inj'. intros n Hn.
    rewrite !Z.land_spec, !Z.shiftr_spec by lia. destruct (decide (n < 9)).
    - by rewrite Z.mod_pow2_bits_low by lia.
    - rewrite Z.ones_spec_high by lia. by rewrite !andb_false_r. }
  unfold path_of, _pml1_idx, _pml2_idx, _pml3_idx, _pml4_idx. by rewrite !H by lia.
Qed.

Lemma path_of_canonical v w :
  canonical v -> canonical w -> path_of v = path_of w <-> v / 4096 = w / 4096.
Proof.
  intros Hv Hw. rewrite <- (path_of_low v), <- (path_of_low w).
  rewrite path_of_inj by (apply Z.mod_pos_bound; lia).
  assert (H : forall x, canonical x -> 0 <= x < 2 ^ 47 /\ x `mod` 2 ^ 48 = x \/
    2 ^ 64 - 2 ^ 47 <= x < 2 ^ 64 /\ x `mod` 2 ^ 48 = x - (2 ^ 64 - 2 ^ 48)).
  { intros x [Hx|Hx]; [left; rewrite Z.mod_small; lia|right]. split; [done|].
    replace x with (x - (2 ^ 64 - 2 ^ 48) + (2 ^ 16 - 1) * 2 ^ 48) at 1 by lia.
    rewrite Z.mod_add by lia. rewrite Z.mod_small by lia. lia. }
  destruct (H _ Hv) as [[? ->]|[? ->]], (H _ Hw) as [[? ->]|[? ->]]; split; intros; zdiv.
Qed.

Lemma canonical_64 v : canonical v -> 0 <= v < 2 ^ 64.
Proof. unfold canonical. lia. Qed.

(** ** Mapping and unmapping *)

(** Every address outside the page of [v] keeps its translation: the
    processor's for any canonical address, the boot loader's half included, and
    the answer of [get_phys] for the addresses of the table's own slots. *)
Definition same_elsewhere (F : gset Z) (r v : Z) (s s' : mm) : Prop :=
  forall w, canonical w -> w / 4096 <> v / 4096 ->
    mmu s' r w = mmu s r w /\
    (_pml4_idx w ∉ F ->
     exists x, get_phys (r * 4096) w s = Ret x s /\ get_phys (r * 4096) w s' = Ret x s').

Lemma same_elsewhere_intro F r v s s' l l' tabs tabs' m m' u u' :
  pmm_rel s l u -> pt_rel F s r tabs m u -> pmm_rel s' l' u' -> pt_rel F s' r tabs' m' u' ->
  canonical v -> _pml4_idx v ∉ F -> (forall q, q <> path_of v -> m' !! q = m !! q) ->
  (forall i, i <> _pml4_idx v -> rd_word s' r i = rd_word s r i) ->
  (forall w t i, _pml4_idx w ∈ F -> t ∈ walk_tables s r w -> rd_word s' t i = rd_word s t i) ->
  same_elsewhere F r v s s'.
Proof.
  intros Rm R Rm' R' Hv Ho Hm Hroot Hboot w Hw Hne.
  assert (Hq : path_of w <> path_of v) by (by rewrite path_of_canonical).
  pose proof (canonical_64 _ Hw). split.
  - destruct (decide (_pml4_idx w ∈ F)) as [Hf|Hf].
    + apply mmu_agree; [apply Hroot; congruence|eauto].
    + rewrite (mmu_eq _ _ _ _ _ _ R Hf), (mmu_eq _ _ _ _ _ _ R' Hf). by rewrite Hm.
  - intros Hf. eexists. split; [by eapply get_phys_eq|].
    rewrite (get_phys_eq _ _ _ _ _ _ _ Rm' R') by done. by rewrite Hm.
Qed.

(** C2: mapping a page installs exactly that translation.  The page table may
    have any entries of the boot loader in the slots [F] of its root, as every
    root of the kernel does after [paging_init], provided their tables are not
    memory of the allocator; the address is a canonical one outside these slots,
    at least three frames are free (one per level that may be missing), the frame
    is allocated, is none of the tables and its reference count is below 2^32 - 1
    (and above 1 if the page already maps it).  After [map_page] the processor
    and [get_phys] translate the address to the frame's physical address plus its
    offset and the flags read back are those asked for plus present; no other
    page changes its translation, in the boot loader's half neither. *)
Theorem map_page_translates F ext s r tabs m u l v g st flags :
  pmm_rel s l u -> pt_rel F s r tabs m u -> acct (max_pfn s) ext m u -> boot_half F s r l u ->
  canonical v -> _pml4_idx v ∉ F -> (3 <= length l)%nat ->
  u !! g = Some st -> (forall p, tabs !! p <> Some g) -> u_ref st + 1 < 2 ^ 32 ->
  (forall e, m !! path_of v = Some e -> pte_frame e = g -> 1 < u_ref st) ->
  wp (map_page (r * 4096) v (Some g) flags) s (fun _ s' =>
    mmu s' r v = Some (g * 4096 + v `mod` 4096) /\
    get_phys (r * 4096) v s' = Ret (g * 4096 + v `mod` 4096) s' /\
    get_mapping_flags (r * 4096) v s' =
      Ret (Z.lor (clr flags PAGE_FRAME_MASK) VMM_PRESENT) s' /\
    same_elsewhere F r v s s').
Proof.
  intros Rm R A B Hcv Ho Hlen Hg Hgt Href Hsame. pose proof (canonical_64 _ Hcv) as Hv.
  pose proof (used_in_range _ _ _ _ _ Rm Hg) as Hgr. pose proof (rel_max _ _ _ Rm) as Hmx.
  eapply wp_mono; [eapply (map_page_wp ext s r tabs m u l v g st); eauto|].
  intros ? s' (l1 & u1 & tabs' & st1 & _ & Rm' & R' & _ & _ & _ & _ & _ & Hnew & Hwd & Hroot). split_and!.
  - rewrite (mmu_eq _ _ _ _ _ _ R' Ho), lookup_insert_eq. simpl. by rewrite pte_mask by lia.
  - rewrite (get_phys_eq _ _ _ _ _ _ _ Rm' R') by done.
    rewrite lookup_insert_eq, pte_mask, translate_offset by lia. by rewrite u64_small by zdiv.
  - rewrite (get_mapping_flags_eq _ _ _ _ _ _ _ Rm' R') by done.
    by rewrite lookup_insert_eq, pte_flags by lia.
  - eapply same_elsewhere_intro; eauto; [intros q Hq; by rewrite lookup_insert_ne|].
    intros w t i Hw Ht. destruct (B _ _ Hw Ht) as [Hl Hu]. apply Hwd; [|done].
    intros p _ [Hp|[_ ?]]%Hnew; [|done]. pose proof (pt_used _ _ _ _ _ R _ _ Hp). congruence.
Qed.

(** unmapping a page removes exactly that translation: the address is not
    mapped any more and no other page of the address space changes, also when
    [unmap_page] frees page tables that became empty. *)
Theorem unmap_page_translates F ext s r tabs m u l v :
  pmm_rel s l u -> pt_rel F s r tabs m u -> acct (max_pfn s) ext m u -> boot_half F s r l u ->
  canonical v -> _pml4_idx v ∉ F ->
  wp (unmap_page (r * 4096) v) s (fun _ s' =>
    mmu s' r v = None /\
    get_phys (r * 4096) v s' = Ret 0 s' /\ get_mapping_flags (r * 4096) v s' = Ret 0 s' /\
    same_elsewhere F r v s s').
Proof.
  intros Rm R A B Hcv Ho. pose proof (canonical_64 _ Hcv) as Hv.
  eapply wp_mono; [eapply (unmap_page_wp ext s l r tabs m u v); eauto|].
  intros ? s' (l' & u' & tabs' & Rm' & R' & _ & _ & _ & _ & _ & _ & Hwd & Hroot). split_and!.
  - by rewrite (mmu_eq _ _ _ _ _ _ R' Ho), lookup_delete_eq.
  - rewrite (get_phys_eq _ _ _ _ _ _ _ Rm' R') by done. by rewrite lookup_delete_eq.
  - rewrite (get_mapping_flags_eq _ _ _ _ _ _ _ Rm' R') by done. by rewrite lookup_delete_eq.
  - eapply same_elsewhere_intro; eauto; [intros q Hq; by rewrite lookup_delete_ne|].
    intros w t i Hw Ht. destruct (B _ _ Hw Ht) as [Hl Hu]. apply Hwd; [|done].
    intros p _ Hp. pose proof (pt_used _ _ _ _ _ R _ _ Hp). congruence.
Qed.

(** ** Two address spaces *)

(** Tables of the kernel's half of an address space: entries 256 to 511 of the root. *)
Definition kernel_path (p : path) : Prop := exists i, last p = Some i /\ 256 <= i.

(** [r2] is another page table; [ptable_create] lets it share the kernel's half,
    and only that. *)
Definition other_space (F : gset Z) (s : mm) (tabs : gmap path Z) (l : list Z) (u : gmap Z ustate)
    (r2 : Z) (tabs2 m2 : gmap path Z) : Prop :=
  pt_rel F s r2 tabs2 m2 u /\ boot_half F s r2 l u /\
  (forall p q f, tabs !! p = Some f -> tabs2 !! q = Some f -> kernel_path p).

Lemma user_path v p : 0 <= v < 2 ^ 47 -> on_path v p -> ~ kernel_path p.
Proof.
  intros Hv [k Hk] (i & Hl & Hi).
  assert (last (path_of v) = Some i) as H by (rewrite Hk, last_app; by rewrite Hl).
  unfold path_of in H. simpl in H. injection H as H. unfold _pml4_idx in H.
  rewrite idx_eq in H by lia. zdiv.
Qed.

Lemma user_slot (F : gset Z) v : 0 <= v < 2 ^ 47 -> (forall i, i ∈ F -> 256 <= i) -> _pml4_idx v ∉ F.
Proof.
  intros Hv HF Hin. eapply (user_path v [_pml4_idx v]); [done|apply on_path_1|].
  exists (_pml4_idx v). split; [done|by apply HF].
Qed.

Lemma other_tables_unmapped mx ext m u e q f :
  acct mx ext m u -> u !! f = Some (mkU 1 0 false) -> m !! q = Some e -> pte_frame e <> f.
Proof.
  intros A Hf Hq <-. destruct (acct_share _ _ _ _ A _ _ Hf) as (H1 & _ & H3). simpl in H1.
  pose proof (cnt_pos _ _ _ Hq). lia.
Qed.

Lemma other_drop mx ext m u l q f :
  acct mx ext m u -> u !! f = Some (mkU 1 0 false) ->
  (drop_at mx m q l u).2 !! f = Some (mkU 1 0 false).
Proof.
  intros A Hf. unfold drop_at. destruct (m !! q) as [e|] eqn:Em; [|done].
  rewrite drop_abs_ne; [done|]. intros ->. by eapply (other_tables_unmapped _ _ _ _ _ _ _ A Hf Em).
Qed.

(** What an operation of one page table must leave alone for another one. *)
Lemma other_mmu F s s' r2 tabs2 m2 u l w :
  pt_rel F s r2 tabs2 m2 u -> boot_half F s r2 l u ->
  (forall p f i, tabs2 !! p = Some f -> rd_word s' f i = rd_word s f i) ->
  (forall f i, f ∉ l -> u !! f = None -> rd_word s' f i = rd_word s f i) ->
  mmu s' r2 w = mmu s r2 w.
Proof.
  intros R B H1 H2. apply mmu_agree; [eapply H1, R|]. intros t i Ht.
  destruct (walk_tables_split _ _ _ _ _ _ _ _ R B Ht) as [[p Hp]|[Hl Hu]]; eauto.
Qed.

(** C35: address spaces are isolated.  Two page tables hold the boot loader's
    entries in the slots [F] of the upper half of their roots (as [paging_init]
    and [ptable_create] put them there; their tables are not the allocator's) and
    may share further tables of the kernel's half.  Mapping an allocated frame
    (three frames free, reference count below 2^32 - 1) at or unmapping an address
    of the user half in one of them leaves every translation of the other as it
    was: what the processor's walk gives for any address at all, and what
    [get_phys] answers outside the boot loader's slots, although both take and
    return frames through the same allocator. *)
Theorem address_space_isolation F ext s r tabs m u l v g st flags r2 tabs2 m2 w :
  pmm_rel s l u -> pt_rel F s r tabs m u -> acct (max_pfn s) ext m u ->
  (forall i, i ∈ F -> 256 <= i) -> other_space F s tabs l u r2 tabs2 m2 ->
  0 <= v < 2 ^ 47 -> (3 <= length l)%nat ->
  u !! g = Some st -> (forall p, tabs !! p <> Some g) -> (forall p, tabs2 !! p <> Some g) ->
  u_ref st + 1 < 2 ^ 32 ->
  (forall e, m !! path_of v = Some e -> pte_frame e = g -> 1 < u_ref st) ->
  0 <= w < 2 ^ 64 ->
  let kept s' := mmu s' r2 w = mmu s r2 w /\
    (_pml4_idx w ∉ F ->
     exists x, get_phys (r2 * 4096) w s = Ret x s /\ get_phys (r2 * 4096) w s' = Ret x s') in
  wp (map_page (r * 4096) v (Some g) flags) s (fun _ s' => kept s') /\
  wp (unmap_page (r * 4096) v) s (fun _ s' => kept s').
Proof.
  intros Rm R A HF (R2 & B2 & Hdis) Hv Hlen Hg Hgt Hgt2 Href Hsame Hw kept.
  pose proof (user_slot F v Hv HF) as Ho.
  assert (Hd2 : forall p f, tabs2 !! p = Some f -> forall q, on_path v q -> tabs !! q <> Some f).
  { intros p f Hp q Hov Hq. by eapply user_path, Hdis. }
  assert (Hnm : forall p f e, tabs2 !! p = Some f -> m !! path_of v = Some e -> pte_frame e <> f).
  { intros p f e Hp Hm. eapply other_tables_unmapped; eauto. by eapply pt_used. }
  assert (Hnm' : forall p f e, tabs2 !! p = Some f -> m !! path_of v = Some e -> pte_frame e = f -> u !! f = None).
  { intros p f e Hp Hm E. by destruct (Hnm _ _ _ Hp Hm). }
  assert (Hun : forall p f, u !! f = None -> tabs !! p <> Some f).
  { intros p f Hu Hp. pose proof (pt_used _ _ _ _ _ R _ _ Hp). congruence. }
  split.
  - eapply wp_mono; [eapply (map_page_wp ext s r tabs m u l v g st); eauto; lia|].
    intros ? s' (l1 & u1 & tabs' & st1 & _ & Rm' & _ & _ & _ & _ & Hu & _ & Hnew & Hwd & _).
    assert (Hw2 : forall p f i, tabs2 !! p = Some f -> rd_word s' f i = rd_word s f i).
    { intros p f i Hp. apply Hwd; [|intros e Hm; by eapply Hnm'].
      intros q Hov [Hq|[Hq _]]%Hnew; [by eapply Hd2|]. pose proof (pt_used _ _ _ _ _ R2 _ _ Hp). congruence. }
    split.
    + eapply other_mmu; [exact R2|exact B2|exact Hw2|]. intros f i Hl Hf. apply Hwd; [|done].
      intros p _ [Hp|[_ ?]]%Hnew; [by eapply Hun|done].
    + intros Hwf. eexists. split; [by eapply get_phys_eq|].
      eapply get_phys_eq; [exact Rm'| |done|done]. eapply pt_rel_frame; [exact R2|exact Hw2|].
      intros p f Hp. pose proof (pt_used _ _ _ _ _ R2 _ _ Hp) as Hf.
      rewrite lookup_insert_ne by (intros ->; by eapply Hgt2). rewrite Hf.
      unfold drop_at. destruct (m !! path_of v) as [e|] eqn:Em; [|by eapply lookup_weaken].
      rewrite drop_abs_ne by (intros ->; by eapply Hnm). by eapply lookup_weaken.
  - eapply wp_mono; [eapply (unmap_page_wp ext s l r tabs m u v); eauto; lia|].
    intros ? s' (l' & u' & tabs' & Rm' & _ & _ & _ & _ & _ & _ & Hkeep & Hwd & _).
    assert (Hw2 : forall p f i, tabs2 !! p = Some f -> rd_word s' f i = rd_word s f i).
    { intros p f i Hp. apply Hwd; [by eapply Hd2|]. intros e Hm. by eapply Hnm'. }
    split.
    + eapply other_mmu; [exact R2|exact B2|exact Hw2|]. intros f i Hl Hf. apply Hwd; [|done].
      intros p _. by apply Hun.
    + intros Hwf. eexists. split; [by eapply get_phys_eq|].
      eapply get_phys_eq; [exact Rm'| |done|done]. eapply pt_rel_frame; [exact R2|exact Hw2|].
      intros p f Hp. pose proof (pt_used _ _ _ _ _ R2 _ _ Hp) as Hf. rewrite Hf.
      apply Hkeep; [by eapply other_drop|by eapply Hd2].
Qed.

(** mapping a tracked frame that nobody allocated (for instance a reserved
    frame below the top of memory that holds a device's registers) does not
    return: [page_share] finds the frame unused and panics. *)
Theorem map_page_unused_panics F ext s r tabs m u l v g flags :
  pmm_rel s l u -> pt_rel F s r tabs m u -> acct (max_pfn s) ext m u ->
  0 <= v < 2 ^ 64 -> _pml4_idx v ∉ F -> (3 <= length l)%nat ->
  0 <= g <= max_pfn s -> u !! g = None -> g ∉ l -> m !! path_of v = None ->
  map_page (r * 4096) v (Some g) flags s = Panic.
Proof.
  intros Rm R A Hv Ho Hlen Hgr Hg Hgl Hm. pose proof (rel_max _ _ _ Rm) as Hmax.
  pose proof (root_range _ _ _ _ _ _ Rm R) as Hr. destruct (pt_of_root r ltac:(lia)) as [Hr1 Hr2].
  unfold map_page. unfold bind at 1. rewrite Hr1. simpl assert. unfold ret at 1.
  unfold bind at 1. simpl assert. unfold ret at 1. unfold bind at 1, gets at 1.
  rewrite Hr2. set (av := ALIGN_DOWN v PAGE_SIZE).
  assert (Hpath : path_of av = path_of v) by (by apply path_of_align).
  assert (Hidx : _pml4_idx av ∉ F) by (unfold path_of in Hpath; injection Hpath; intros ->; done).
  destruct (wp_inv _ _ _ (leaf_entry_create _ ext s r tabs m u l av (table_flags flags)
    Rm R A eq_refl Hidx (table_flags_ok _) Hlen)) as (x & s1 & Heq & f & l1 & u1 & tabs' & -> & Hf & Rm1 & R1 & A1 & G).
  rewrite (bind_ret _ _ _ _ _ Heq). destruct G as [Hnew Hu1 Ht1 Hn1 Hw1 He1 Hfr1 _].
  pose proof (pt_entry _ _ _ _ _ R1 _ _ _ Hf (pml1_range av) ltac:(done)) as Hent. unfold entry_ok in Hent.
  rewrite decide_True in Hent by done.
  change (_pml1_idx av :: tail (path_of av)) with (path_of av) in Hent. rewrite Hpath, Hm in Hent.
  unfold bind at 1, gets at 1. unfold bind at 1. rewrite Hent. simpl when. unfold ret at 1.
  unfold bind at 1, wr_word, modify. fold (put_word f (_pml1_idx av) (make_pte (pfndb_page_to_phys s (Some g)) flags) s1).
  set (s2 := put_word _ _ _ s1). assert (Rm2 : pmm_rel s2 l1 u1) by (by apply rel_put).
  assert (Hg1 : u1 !! g = None).
  { apply eq_None_not_Some. intros [[? ?]|?]%Hfr1; [congruence|done]. }
  assert (Hgr2 : 0 <= g <= max_pfn s2) by (destruct He1 as (E & _); subst s2; cbn; lia).
  unfold bind, page_share, bind. by rewrite (proj1 (validate_unused _ _ _ _ Rm2 Hgr2 Hg1)).
Qed.

(** ** Creating a page table *)

Lemma copy_upper_wp dst src s :
  dst <> src ->
  wp (copy_upper_half dst src) s (fun _ s' =>
    env_eq s s' /\ (forall l u, pmm_rel s l u -> pmm_rel s' l u) /\
    (forall f i, rd_word s' f i =
      if decide (f = dst /\ 256 <= i < 512) then rd_word s src i else rd_word s f i)).
Proof.
  intros Hne. unfold copy_upper_half.
  eapply wp_mono; [apply (wp_mfor (fun k s' => env_eq s s' /\ (forall l u, pmm_rel s l u -> pmm_rel s' l u) /\
    (forall f i, rd_word s' f i =
      if decide (f = dst /\ 256 <= i < k) then rd_word s src i else rd_word s f i)))|].
  - split_and!; [done|done|]. intros f i. rewrite decide_False by lia. done.
  - intros j s' Hj (He & Hr & Hw). apply wp_bind, wp_gets, wp_modify.
    fold (put_word dst j (rd_word s' src j) s'). split_and!; [by etrans|intros; by apply rel_put, Hr|].
    intros f i. rewrite rd_put, !Hw. rewrite (decide_False (P := src = dst /\ _)) by naive_solver.
    repeat case_decide; try done; naive_solver lia.
  - intros ? s' H. exact H.
Qed.

(** a new page table has an empty user half and the kernel's upper half.
    [ptable_create] takes one frame from the allocator, every entry of its lower
    256 is zero, the upper 256 equal the kernel table's, and no other frame of
    memory changes. *)
Theorem ptable_create_spec s g l u k :
  pmm_rel s (g :: l) u -> mmio_regions s = [] -> kernel_ptable s = k * 4096 ->
  0 < k -> k <> g ->
  wp ptable_create s (fun r s' => r = g * 4096 /\ pmm_rel s' l (<[g := mkU 1 0 false]> u) /\
    (forall i, 0 <= i < 256 -> rd_word s' g i = 0) /\
    (forall i, 256 <= i < 512 -> rd_word s' g i = rd_word s k i) /\
    (forall f i, f <> g -> rd_word s' f i = rd_word s f i)).
Proof.
  intros R Hm Hk Hk0 Hkg. unfold ptable_create.
  pose proof (free_in_range _ _ _ g R ltac:(left)) as Hr. pose proof (rel_max _ _ _ R).
  apply wp_bind. eapply wp_mono; [by apply palloc_page_wp|].
  intros ? s1 (-> & R1 & Hf & Hmx & _ & _ & Hkp & Hmm & _). pose proof (rel_base _ _ _ R1).
  apply wp_bind, wp_gets. rewrite page_to_phys_ok by lia. apply wp_bind, wp_modify.
  apply wp_bind, wp_gets. simpl kernel_ptable. rewrite Hkp, Hk.
  rewrite (proj2 (Z.eqb_neq _ _)) by lia. unfold PAGE_SIZE. rewrite !Z.div_mul by lia.
  set (s2 := set_frames _ s1).
  assert (Hfr : frames s2 = <[g := ∅]> (frames s)).
  { subst s2. simpl. by rewrite Hf. }
  apply wp_bind. eapply wp_mono; [apply wp_when_true; [done|by apply copy_upper_wp]|].
  intros ? s3 (He & Hrel & Hw). apply wp_bind, wp_gets.
  destruct He as (_ & _ & _ & _ & -> & _). simpl mmio_regions. rewrite Hmm, Hm. simpl map_mmio_regions.
  apply wp_bind, wp_ret, wp_ret. split_and!; [done|by apply Hrel, rel_frames| | |].
  - intros i Hi. rewrite Hw, decide_False by lia. by eapply rd_frames_zero.
  - intros i Hi. rewrite Hw, decide_True by done. by apply (rd_frames_ne _ _ _ _ _ Hfr).
  - intros f i Hfg. rewrite Hw, decide_False by tauto. by apply (rd_frames_ne _ _ _ _ _ Hfr).
Qed.

Lemma wp_elim {S A} (m : M S A) s Q a s' : wp m s Q -> m s = Ret a s' -> Q a s'.
Proof. unfold wp. intros H E. by rewrite E in H. Qed.

Lemma bind_inv {S A B} (m : M S A) (k : A -> M S B) s b s2 :
  bind m k s = Ret b s2 -> exists a s1, m s = Ret a s1 /\ k a s1 = Ret b s2.
Proof. unfold bind. destruct (m s); naive_solver. Qed.

(** the kernel runs on the boot loader's upper half.  [paging_init] maps the
    kernel's sections with their own permissions and then copies the 256 upper
    entries of the boot loader's root over the new root, so the section mappings
    it has just made are not reachable from the table it installs. *)
Theorem paging_init_boot_upper_half kl s k s0 s' :
  ptable_create s = Ret k s0 -> paging_init kl s = Ret tt s' ->
  k / 4096 <> boot_cr3 kl / 4096 ->
  forall i, 256 <= i < 512 ->
    rd_word s' (k / 4096) i = rd_word s' (boot_cr3 kl / 4096) i.
Proof.
  intros Hk Hp Hne i Hi. unfold paging_init in Hp. rewrite (bind_ret _ _ _ _ _ Hk) in Hp.
  do 7 apply bind_inv in Hp as (? & ? & _ & Hp).
  destruct (wp_elim _ _ _ _ _ (copy_upper_wp _ _ _ Hne) Hp) as (_ & _ & H).
  clear Hp Hk. rewrite !H. rewrite decide_True by done. rewrite decide_False; [done|]. intros [E _]. by apply Hne.
Qed.

(** ** Witnesses *)

(** A root whose own entries are all absent; [F] may hold anything. *)
Lemma fresh_pt_rel F s r u :
  (forall i, 0 <= i < 512 -> i ∉ F -> rd_word s r i = 0) -> u !! r = Some (mkU 1 0 false) ->
  pt_rel F s r {[[] := r]} ∅ u.
Proof.
  intros Hz Hu. assert (Hl : forall p f, ({[[] := r]} : gmap path Z) !! p = Some f -> p = [] /\ f = r).
  { intros p f [<- <-]%lookup_singleton_Some. done. }
  constructor; try done.
  - intros p f i [-> ->]%Hl Hi Ho. unfold entry_ok. simpl. by rewrite Hz, lookup_singleton_ne by auto.
  - intros i _. by apply lookup_singleton_ne.
  - intros p f [-> _]%Hl. simpl. lia.
  - intros i p f [? _]%Hl. done.
  - intros p q f [-> _]%Hl [-> _]%Hl. done.
  - intros p f [_ ->]%Hl. done.
Qed.

(** The boot loader's half of the example: slot 511 of both roots leads to a
    table in the reserved frame 4, which maps a page of 1 GiB. *)
Definition ex_foreign : gset Z := {[511]}.
Definition boot_entry : Z := 4 * 4096 + 3.
Definition ex_boot (s : mm) : mm :=
  put_word 4 509 131 (put_word 2 511 boot_entry (put_word 1 511 boot_entry s)).

(** Two page tables with an empty lower half (frames 1 and 2) and one allocated frame (3). *)
Definition ex_zero (s : mm) : mm :=
  ex_boot (final (zero_frame 4096 ;;; zero_frame 8192 ;;; zero_frame 16384) s).
Definition ex_vm : mm :=
  ex_zero (final (palloc_page ;;; palloc_page ;;; palloc_page) ex_pmm).
Definition ex_vm_free : list Z := [5; 6; 7; 8; 9; 10; 11; 12].
Definition ex_vm_used : gmap Z ustate :=
  <[3 := mkU 1 0 false]> (<[2 := mkU 1 0 false]> (<[1 := mkU 1 0 false]> ∅)).

Lemma ex_zero_rel s l u : pmm_rel s l u -> pmm_rel (ex_zero s) l u.
Proof. intros R. by do 3 apply rel_put; do 3 apply rel_frames. Qed.

Lemma ex_zero_rd s r i : r = 1 \/ r = 2 ->
  rd_word (ex_zero s) r i = if decide (i = 511) then boot_entry else 0.
Proof.
  intros Hr. unfold ex_zero, ex_boot. rewrite !rd_put. rewrite (decide_False (P := 4 = r /\ _)) by lia.
  unfold rd_word. simpl. unfold PAGE_SIZE.
  change (16384 / 4096) with 4. change (8192 / 4096) with 2. change (4096 / 4096) with 1.
  destruct Hr as [-> | ->]; rewrite !lookup_insert; simpl; repeat case_decide; try done; lia.
Qed.

Lemma ex_zero_rd4 s i : rd_word (ex_zero s) 4 i = if decide (i = 509) then 131 else 0.
Proof.
  unfold ex_zero, ex_boot. rewrite !rd_put. rewrite (decide_False (P := 2 = 4 /\ _)), (decide_False (P := 1 = 4 /\ _)) by lia.
  unfold rd_word. simpl. unfold PAGE_SIZE. change (16384 / 4096) with 4.
  rewrite !lookup_insert. simpl. repeat case_decide; try done; lia.
Qed.

Lemma ex_vm_rel : pmm_rel ex_vm ex_vm_free ex_vm_used.
Proof.
  unfold ex_vm. apply ex_zero_rel.
  assert (H : wp (palloc_page ;;; palloc_page ;;; palloc_page) ex_pmm
    (fun _ s' => pmm_rel s' ex_vm_free ex_vm_used)).
  { do 2 (apply wp_bind; eapply wp_mono;
      [eapply palloc_page_wp; (exact ex_pmm_rel || eassumption)|intros ? ? (_ & ? & _)]).
    eapply wp_mono; [eapply palloc_page_wp; eassumption|]. intros ? ? (_ & R & _). exact R. }
  by destruct (wp_final _ _ _ H).
Qed.

Lemma ex_vm_pt r : r = 1 \/ r = 2 -> pt_rel ex_foreign ex_vm r {[[] := r]} ∅ ex_vm_used.
Proof.
  intros Hr. apply fresh_pt_rel.
  - intros i _ Hi. unfold ex_vm. rewrite ex_zero_rd by done. rewrite decide_False; [done|].
    intros ->. by apply Hi, elem_of_singleton.
  - by destruct Hr as [-> | ->].
Qed.

Lemma boot_walk s r w t :
  rd_word s r (_pml4_idx w) = boot_entry -> (forall i, rd_word s 4 i = 131 \/ rd_word s 4 i = 0) ->
  t ∈ walk_tables s r w -> t = 4.
Proof.
  intros H1 H2. unfold walk_tables. rewrite H1. cbv zeta.
  change (pte_frame boot_entry) with 4. change (has boot_entry VMM_PRESENT) with true. cbv iota beta delta [negb].
  intros [->|Ht]%elem_of_cons; [done|]. revert Ht.
  destruct (H2 (_pml3_idx w)) as [-> | ->]; by intros ?%elem_of_nil.
Qed.

Lemma ex_vm_walk r w t : r = 1 \/ r = 2 -> _pml4_idx w ∈ ex_foreign -> t ∈ walk_tables ex_vm r w -> t = 4.
Proof.
  intros Hr Hw%elem_of_singleton. apply boot_walk; [|intros i]; unfold ex_vm.
  - by rewrite ex_zero_rd, decide_True.
  - rewrite ex_zero_rd4. case_decide; auto.
Qed.

Lemma ex_vm_boot r : r = 1 \/ r = 2 -> boot_half ex_foreign ex_vm r ex_vm_free ex_vm_used.
Proof.
  intros Hr w t Hw Ht. rewrite (ex_vm_walk _ _ _ Hr Hw Ht). split; [|reflexivity].
  unfold ex_vm_free. rewrite !elem_of_cons, elem_of_nil. lia.
Qed.

Lemma ex_slot : _pml4_idx 8589934592 ∉ ex_foreign.
Proof. change (0 ∉ ex_foreign). by intros ?%elem_of_singleton. Qed.

Lemma ex_vm_acct mx : acct mx (fun _ => 0) ∅ ex_vm_used.
Proof.
  constructor; [|done|done]. intros g st Hst.
  assert (st = mkU 1 0 false) as ->.
  { unfold ex_vm_used in Hst. rewrite !lookup_insert in Hst. by repeat case_decide; simplify_eq. }
  simpl. unfold cnt. rewrite map_filter_empty. done.
Qed.

Lemma ex_vm_tabs r g : g <> r -> forall p, ({[[] := r]} : gmap path Z) !! p <> Some g.
Proof. intros Hne p [_ ?]%lookup_singleton_Some. congruence. Qed.

Lemma map_page_translates_witness :
  exists a s', map_page (1 * 4096) 8589934592 (Some 3) VMM_WRITABLE ex_vm = Ret a s' /\
    get_phys (1 * 4096) 8589934592 s' = Ret (3 * 4096 + 8589934592 `mod` 4096) s' /\
    mmu s' 1 (2 ^ 64 - 2 ^ 30) = mmu ex_vm 1 (2 ^ 64 - 2 ^ 30).
Proof.
  destruct (wp_inv _ _ _ (map_page_translates ex_foreign (fun _ => 0) ex_vm 1 {[[] := 1]} ∅ ex_vm_used
    ex_vm_free 8589934592 3 (mkU 1 0 false) VMM_WRITABLE ex_vm_rel (ex_vm_pt 1 ltac:(lia))
    (ex_vm_acct _) (ex_vm_boot 1 ltac:(lia)) ltac:(left; lia) ex_slot ltac:(simpl; lia) eq_refl
    (ex_vm_tabs 1 3 ltac:(lia)) ltac:(simpl; lia) ltac:(done))) as (a & s' & Heq & _ & H & _ & H').
  exists a, s'. split; [exact Heq|split; [exact H|]].
  apply H'; [right; lia|vm_compute; congruence].
Defined.

Lemma unmap_page_translates_witness :
  exists a s', unmap_page (1 * 4096) 8589934592 ex_vm = Ret a s' /\
    get_phys (1 * 4096) 8589934592 s' = Ret 0 s'.
Proof.
  destruct (wp_inv _ _ _ (unmap_page_translates ex_foreign (fun _ => 0) ex_vm 1 {[[] := 1]} ∅ ex_vm_used
    ex_vm_free 8589934592 ex_vm_rel (ex_vm_pt 1 ltac:(lia)) (ex_vm_acct _) (ex_vm_boot 1 ltac:(lia))
    ltac:(left; lia) ex_slot)) as (a & s' & Heq & _ & H & _).
  exists a, s'. split; [exact Heq|exact H].
Defined.

Lemma ex_vm_other :
  other_space ex_foreign ex_vm {[[] := 1]} ex_vm_free ex_vm_used 2 {[[] := 2]} ∅.
Proof.
  split; [exact (ex_vm_pt 2 ltac:(lia))|]. split; [exact (ex_vm_boot 2 ltac:(lia))|].
  intros p q f [_ <-]%lookup_singleton_Some [_ ?]%lookup_singleton_Some. lia.
Qed.

(** Slot 511 of both roots is the boot loader's, and maps [2^64 - 2^31]. *)
Lemma address_space_isolation_witness :
  mmu ex_vm 2 (2 ^ 64 - 3 * 2 ^ 30) = Some 0 /\
  wp (map_page (1 * 4096) 8589934592 (Some 3) VMM_WRITABLE) ex_vm
    (fun _ s' => mmu s' 2 (2 ^ 64 - 3 * 2 ^ 30) = mmu ex_vm 2 (2 ^ 64 - 3 * 2 ^ 30)).
Proof.
  split; [vm_compute; reflexivity|].
  destruct (address_space_isolation ex_foreign (fun _ => 0) ex_vm 1 {[[] := 1]} ∅ ex_vm_used
    ex_vm_free 8589934592 3 (mkU 1 0 false) VMM_WRITABLE 2 {[[] := 2]} ∅ (2 ^ 64 - 3 * 2 ^ 30)
    ex_vm_rel (ex_vm_pt 1 ltac:(lia)) (ex_vm_acct _)
    ltac:(intros i ->%elem_of_singleton; lia) ex_vm_other
    ltac:(lia) ltac:(simpl; lia) eq_refl (ex_vm_tabs 1 3 ltac:(lia)) (ex_vm_tabs 2 3 ltac:(lia))
    ltac:(simpl; lia) ltac:(done) ltac:(lia)) as [H _].
  eapply wp_mono; [exact H|]. intros ? s' [H' _]. exact H'.
Defined.

Lemma map_page_unused_panics_witness :
  map_page (1 * 4096) 8589934592 (Some 4) VMM_WRITABLE ex_vm = Panic.
Proof.
  apply (map_page_unused_panics ex_foreign (fun _ => 0) ex_vm 1 {[[] := 1]} ∅ ex_vm_used
    ex_vm_free 8589934592 4 VMM_WRITABLE ex_vm_rel (ex_vm_pt 1 ltac:(lia)) (ex_vm_acct _)).
  - lia.
  - exact ex_slot.
  - simpl. lia.
  - vm_compute. split; congruence.
  - reflexivity.
  - unfold ex_vm_free. rewrite !elem_of_cons, elem_of_nil. lia.
  - reflexivity.
Defined.

Lemma rel_env k rs s l u :
  pmm_rel s l u -> pmm_rel (set_kernel_ptable k (set_mmio_regions rs s)) l u.
Proof. intros []. by constructor. Qed.

Lemma ptable_create_spec_witness :
  exists s', ptable_create (set_kernel_ptable 8192 (set_mmio_regions [] ex_vm)) = Ret (5 * 4096) s' /\
    rd_word s' 5 3 = 0.
Proof.
  assert (R : pmm_rel (set_kernel_ptable 8192 (set_mmio_regions [] ex_vm)) ex_vm_free ex_vm_used).
  { apply rel_env, ex_vm_rel. }
  destruct (wp_inv _ _ _ (ptable_create_spec _ 5 (tail ex_vm_free) ex_vm_used 2 R
    eq_refl eq_refl ltac:(lia) ltac:(lia))) as (a & s' & Heq & -> & _ & H & _).
  exists s'. split; [exact Heq|]. apply H. lia.
Defined.

Definition ex_layout : klayout :=
  mkLayout 18446744071562067968 18446744071562067972 18446744071562072064 18446744071562072065
    18446744071562076160 18446744071562076161 18446744071562080256 18446744071562080257
    18446744071562149888 18446744071562067968 16777216 (3 * 4096).

Lemma paging_init_boot_upper_half_witness :
  exists s0 s', ptable_create ex_vm = Ret 20480 s0 /\ paging_init ex_layout ex_vm = Ret tt s' /\
    rd_word s' 5 511 = rd_word s' 3 511.
Proof.
  assert (H1 : exists s0, ptable_create ex_vm = Ret 20480 s0).
  { exists (final ptable_create ex_vm). vm_compute. reflexivity. }
  assert (H2 : exists s', paging_init ex_layout ex_vm = Ret tt s').
  { exists (final (paging_init ex_layout) ex_vm). vm_compute. reflexivity. }
  destruct H1 as [s0 H1], H2 as [s' H2]. exists s0, s'. split_and!; [exact H1|exact H2|].
  apply (paging_init_boot_upper_half ex_layout ex_vm 20480 s0 s' H1 H2); [vm_compute; congruence|lia].
Defined.
