(* ===== verification/HeapIface.v ===== *)
(** * What the kernel heap promises to its clients

    [KHeap] is the part of heap.c other components call, [HeapAlloc] and [HeapSpec]
    what they may rely on.  The heap keeps its slabs in frames of its own; [heap_rep s h A] says
    that it owns the frames [h] and that the objects at the addresses [A] are
    allocated and belong to the client. *)

From stdpp Require Import gmap list sets.
From Stdlib Require Import ZArith Lia.
From S2P Require Import Prelude Pfndb Pmm Paging PagingRel.

Local Open Scope Z_scope.

Create HintDb quiet.

(** The first word of a large object's header holds this in its low half. *)
Definition LARGE_MAGIC : Z := 1280460616.

(** No word becomes one that [kfree] takes for the header of a large object. *)
Definition quiet (s s' : mm) : Prop :=
  forall f i, rd_word s' f i = rd_word s f i \/ rd_word s' f i `mod` 2 ^ 32 <> LARGE_MAGIC.

#[export] Instance quiet_refl : Reflexive quiet.
Proof. intros s f i. by left. Qed.
#[export] Instance quiet_trans : Transitive quiet.
Proof.
  intros s1 s2 s3 H12 H23 f i. destruct (H23 f i) as [->|?]; [apply H12|by right].
Qed.

(** *** What the allocator and the page tables write is quiet *)

Lemma quiet_frames s s' : frames s' = frames s -> quiet s s'.
Proof. intros H f i. left. by apply rd_frames_eq. Qed.

Lemma pres_rd_page p : pres quiet (rd_page p).
Proof.
  intros s a s' H. unfold rd_page in H. destruct p as [i|]; [|done].
  destruct (pages s !! i); by simplify_eq.
Qed.
Lemma pres_wr_page p f : pres quiet (wr_page p f).
Proof.
  intros s a s' H. unfold wr_page in H. destruct p as [i|]; [|done].
  destruct (pages s !! i); [|done]. injection H as _ <-. by apply quiet_frames.
Qed.
Lemma pres_put f i v : v `mod` 2 ^ 32 <> LARGE_MAGIC -> pres quiet (wr_word f i v).
Proof.
  intros Hv. apply pres_modify. intros s f' i'. fold (put_word f i v s). rewrite rd_put.
  case_decide; [by right|by left].
Qed.
Lemma pres_zero p : pres quiet (zero_frame p).
Proof.
  apply pres_modify. intros s f i. unfold rd_word. simpl.
  destruct (decide (p / PAGE_SIZE = f)) as [->|Hne]; [right|left].
  - by rewrite lookup_insert_eq.
  - by rewrite lookup_insert_ne.
Qed.

#[export] Hint Resolve pres_rd_page pres_wr_page pres_zero : quiet.
Ltac quiet :=
  pres_go; auto with quiet; try (apply pres_modify; intros ?; by apply quiet_frames).

Lemma pres_validate_used p : pres quiet (_page_validate_used p).
Proof. unfold _page_validate_used. quiet. Qed.
#[export] Hint Resolve pres_validate_used : quiet.

Lemma pres_palloc_page : pres quiet palloc_page.
Proof. unfold palloc_page, _pmm_pop, _page_validate_free. quiet. Qed.
Lemma pres_palloc_single : pres quiet palloc_single.
Proof. unfold palloc_single, _pmm_pop, _page_validate_free. quiet. Qed.
Lemma pres_page_ref p : pres quiet (page_ref p).
Proof. unfold page_ref. quiet. Qed.
Lemma pres_page_unref p : pres quiet (page_unref p).
Proof. unfold page_unref, _pmm_push, push_asserts, push_links. quiet. Qed.
Lemma pres_page_share p : pres quiet (page_share p).
Proof. unfold page_share. quiet. Qed.
Lemma pres_page_unshare p : pres quiet (page_unshare p).
Proof. unfold page_unshare. quiet. Qed.
#[export] Hint Resolve pres_palloc_page pres_palloc_single pres_page_ref pres_page_unref
  pres_page_share pres_page_unshare : quiet.

(** Entries have the present bit, the magic does not. *)
Lemma present_quiet x : Z.testbit x 0 = true -> x `mod` 2 ^ 32 <> LARGE_MAGIC.
Proof.
  intros Hb E. rewrite Z.bit0_odd in Hb.
  apply (f_equal Z.odd) in E. rewrite <- !Z.bit0_odd in E. rewrite Z.mod_pow2_bits_low in E by lia.
  rewrite Z.bit0_odd, Hb in E. discriminate E.
Qed.

Lemma make_pte_quiet p flags : make_pte p flags `mod` 2 ^ 32 <> LARGE_MAGIC.
Proof. apply present_quiet. unfold make_pte. rewrite Z.lor_spec. apply orb_true_r. Qed.

Lemma pres_table_next t i cf : cf = 0 \/ Z.testbit cf 0 = true -> pres quiet (_table_next t i cf).
Proof.
  intros Hcf. unfold _table_next, _alloc_pt. quiet. apply pres_put, present_quiet.
  rewrite Z.lor_spec. destruct Hcf as [-> | ->]; [done|apply orb_true_r].
Qed.
Lemma pres_leaf_entry t v cf : cf = 0 \/ Z.testbit cf 0 = true -> pres quiet (_leaf_entry t v cf).
Proof. intros Hcf. unfold _leaf_entry. quiet; by apply pres_table_next. Qed.
Lemma table_flags_bit flags : Z.testbit (table_flags flags) 0 = true.
Proof. unfold table_flags. by destruct (has flags VMM_USER). Qed.

Lemma pres_drop_mapping e : pres quiet (drop_mapping e).
Proof. unfold drop_mapping. quiet. Qed.
Lemma pres_map_page pt v p flags : pres quiet (map_page pt v p flags).
Proof.
  unfold map_page. quiet; [apply pres_leaf_entry; right; apply table_flags_bit|apply pres_drop_mapping|].
  apply pres_put, make_pte_quiet.
Qed.
Lemma pres_unmap_page pt v : pres quiet (unmap_page pt v).
Proof.
  unfold unmap_page, ptable_free_empty_locked, _free_pt.
  quiet; try (by apply pres_leaf_entry; left); try apply pres_drop_mapping; by apply pres_put.
Qed.
#[export] Hint Resolve pres_map_page pres_unmap_page : quiet.

(** An address of 0 is NULL. *)
Class KHeap := {
  kzalloc : Z -> M mm Z;
  kfree : Z -> M mm unit;
}.

(** The heap's frames are allocated, referenced once and mapped nowhere. *)
Definition heap_used (h : gset Z) (u : gmap Z ustate) : Prop :=
  forall f, f ∈ h -> u !! f = Some (mkU 1 0 false).

(** Everything but the heap's own variables and the allocator is the same. *)
Definition core_eq (s s' : mm) : Prop :=
  max_pfn s' = max_pfn s /\ mem_map s' = mem_map s /\ hhdm s' = hhdm s /\
  kernel_ptable s' = kernel_ptable s /\ mmio_regions s' = mmio_regions s.

#[export] Instance core_eq_refl : Reflexive core_eq.
Proof. by repeat split. Qed.
#[export] Instance core_eq_trans : Transitive core_eq.
Proof. unfold core_eq. intros a b c. intuition congruence. Qed.

Lemma env_core_eq s s' : env_eq s s' -> core_eq s s'.
Proof. unfold env_eq, core_eq. tauto. Qed.

(** A step of the heap: it takes at most [n] frames from the free stack, changes
    no frame that is not its own and no counter of one. *)
Record heap_step (n : nat) (s : mm) (l : list Z) (u : gmap Z ustate) (h : gset Z)
    (s' : mm) (l' : list Z) (u' : gmap Z ustate) (h' : gset Z) : Prop := {
  hs_rel : pmm_rel s' l' u';
  hs_used : heap_used h' u';
  hs_other : forall g, g ∉ h -> g ∉ h' -> u' !! g = u !! g;
  hs_new : forall g, g ∈ h' -> g ∈ h \/ u !! g = None;
  hs_gone : forall g, g ∈ h -> g ∉ h' -> u' !! g = None;
  hs_words : forall f i, f ∉ h -> is_Some (u !! f) -> rd_word s' f i = rd_word s f i;
  hs_env : core_eq s s';
  hs_len : (length l <= n + length l')%nat;
}.

(** What a client that only allocates relies on. *)
Class HeapAlloc {H : KHeap} := {
  heap_rep : mm -> gset Z -> list Z -> Prop;
  heap_perm : forall s h A B, A ≡ₚ B -> heap_rep s h A -> heap_rep s h B;
  heap_weaken : forall s h a A, heap_rep s h (a :: A) -> heap_rep s h A;
  heap_frame : forall s s' h A, heap_rep s h A -> core_eq s s' -> caches s' = caches s ->
    next_large_base s' = next_large_base s -> quiet s s' ->
    (forall f i, f ∈ h -> rd_word s' f i = rd_word s f i) -> heap_rep s' h A;
  kzalloc_spec : forall n s l u h A, 0 < n <= 2048 ->
    heap_rep s h A -> heap_used h u -> pmm_rel s l u -> l <> [] ->
    wp (kzalloc n) s (fun a s' => a <> 0 /\ exists l' u' h',
      heap_step 1 s l u h s' l' u' h' /\ heap_rep s' h' (a :: A));
}.

(** ... and one that also frees. *)
Class HeapSpec {H : KHeap} {HA : HeapAlloc} := {
  kfree_spec : forall a s l u h A,
    heap_rep s h (a :: A) -> heap_used h u -> pmm_rel s l u ->
    wp (kfree a) s (fun _ s' => exists l' u' h',
      heap_step 0 s l u h s' l' u' h' /\ heap_rep s' h' A);
}.

(** ** Consequences for the clients *)

Lemma heap_step_refl s l u h : pmm_rel s l u -> heap_used h u -> heap_step 0 s l u h s l u h.
Proof. intros R Hu. constructor; try done. by left. Qed.

Lemma heap_step_keep n s l u h s' l' u' h' g :
  heap_step n s l u h s' l' u' h' -> g ∉ h -> is_Some (u !! g) -> (g ∉ h') /\ u' !! g = u !! g.
Proof.
  intros [] Hg [st Hu]. assert (Hn : g ∉ h').
  { intros [?|?]%hs_new0; [done|congruence]. }
  split; [done|]. by apply hs_other0.
Qed.

Lemma heap_step_trans n1 n2 s l u h s1 l1 u1 h1 s2 l2 u2 h2 :
  heap_step n1 s l u h s1 l1 u1 h1 -> heap_step n2 s1 l1 u1 h1 s2 l2 u2 h2 ->
  heap_step (n1 + n2) s l u h s2 l2 u2 h2.
Proof.
  intros S1 S2. pose proof S1 as [R1 U1 O1 N1 G1 W1 E1 L1]. pose proof S2 as [R2 U2 O2 N2 G2 W2 E2 L2].
  constructor; [done|done| | | | |by etrans|lia].
  - intros g Hh Hh2. destruct (decide (g ∈ h1)) as [Hh1|Hh1].
    + rewrite G2 by done. destruct (N1 _ Hh1); congruence.
    + by rewrite O2, O1.
  - intros g [Hg|Hg]%N2; [by apply N1|]. destruct (decide (g ∈ h)) as [|Hh]; [by left|right].
    destruct (decide (g ∈ h1)) as [Hh1|Hh1]; [destruct (N1 _ Hh1); [done|done]|].
    by rewrite <- O1.
  - intros g Hh Hh2. destruct (decide (g ∈ h1)) as [Hh1|Hh1]; [by apply G2|].
    rewrite O2 by done. by apply G1.
  - intros f i Hf Hs. destruct (heap_step_keep _ _ _ _ _ _ _ _ _ _ S1 Hf Hs) as [Hf1 Hs1].
    rewrite W2, W1; [done|done|done|done|]. by rewrite Hs1.
Qed.

(** A page table none of whose tables the heap owns is kept. *)
Lemma heap_step_pt F n s l u h s' l' u' h' r tabs m :
  heap_step n s l u h s' l' u' h' -> pt_rel F s r tabs m u ->
  (forall p f, tabs !! p = Some f -> f ∉ h) ->
  pt_rel F s' r tabs m u' /\ (forall p f, tabs !! p = Some f -> f ∉ h').
Proof.
  intros S R Hd.
  assert (Hk : forall p f, tabs !! p = Some f -> f ∉ h' /\ u' !! f = u !! f).
  { intros p f Hp. eapply heap_step_keep; [done|by eapply Hd|]. rewrite (pt_used _ _ _ _ _ R _ _ Hp). eauto. }
  split; [|intros p f Hp; by eapply Hk]. eapply pt_rel_frame; [done| |].
  - intros p f i Hp. eapply hs_words; [done|by eapply Hd|]. rewrite (pt_used _ _ _ _ _ R _ _ Hp). eauto.
  - intros p f Hp. by eapply Hk.
Qed.

Lemma heap_step_acct n s l u h s' l' u' h' mx ext m :
  heap_step n s l u h s' l' u' h' -> heap_used h u -> mx = max_pfn s ->
  acct mx ext m u -> acct mx ext m u'.
Proof.
  intros [R U O N G W E L] Hu -> A. destruct E as (Emx & _).
  assert (Hh : forall g, g ∈ h -> cnt m g = 0 /\ ext g = 0).
  { intros g Hg. destruct (acct_share _ _ _ _ A _ _ (Hu _ Hg)) as (H1 & _ & H3). simpl in H1.
    pose proof (cnt_nonneg m g). lia. }
  assert (Hmap : forall q e, m !! q = Some e -> pte_frame e <= max_pfn s ->
    pte_frame e ∉ h /\ pte_frame e ∉ h').
  { intros q e Hq Hle. pose proof (cnt_pos _ _ _ Hq). split.
    - intros Hin. destruct (Hh _ Hin). lia.
    - intros [Hin|Hn]%N; [destruct (Hh _ Hin); lia|].
      destruct (acct_used _ _ _ _ A _ _ Hq Hle). congruence. }
  constructor.
  - intros g st Hg. destruct (decide (g ∈ h)) as [Hin|Hin].
    + destruct (Hh _ Hin). destruct (decide (g ∈ h')) as [Hin'|Hin']; [|rewrite G in Hg by done; done].
      rewrite (U _ Hin') in Hg. injection Hg as <-. simpl. lia.
    + destruct (decide (g ∈ h')) as [Hin'|Hin']; [|rewrite O in Hg by done; by eapply acct_share].
      rewrite (U _ Hin') in Hg. injection Hg as <-. destruct (N _ Hin') as [?|Hn]; [done|].
      assert (g <= max_pfn s) by (pose proof (used_in_range _ _ _ _ _ R (U _ Hin')); lia).
      destruct (fresh_unmapped _ _ _ _ _ A ltac:(eassumption) Hn). simpl. lia.
  - intros q e Hq Hle. destruct (Hmap _ _ Hq Hle). rewrite O by done. by eapply acct_used.
  - intros g Hle Hg. destruct (decide (g ∈ h)) as [Hin|Hin]; [by apply Hh|].
    destruct (decide (g ∈ h')) as [Hin'|Hin']; [rewrite U in Hg by done; done|].
    rewrite O in Hg by done. by eapply acct_free.
Qed.
