(* ===== verification/Heap.v ===== *)
(** * The kernel heap (kernel/src/mm/heap.c)

    Objects up to 2048 bytes come from slabs, one page frame each, kept in nine
    caches; larger ones are mapped into a region of their own.  Slabs, their free
    lists and the header of a large object live in physical memory, so the model
    keeps them there: [load] and [store] access the 64-bit words of [frames], a
    32-bit field is one half of its word. *)

From stdpp Require Import gmap list.
From Stdlib Require Import ZArith Lia.
From S2P Require Import Prelude Pfndb Pmm Paging PagingRel HeapIface.

Local Open Scope Z_scope.

(** ** Memory *)

Definition PHYS_TO_VIRT (s : mm) (p : Z) : Z := u64 (p + hhdm s).
Definition VIRT_TO_PHYS (s : mm) (v : Z) : Z := u64 (v - hhdm s).

(** Where the word at a kernel address is: in the direct map of all memory, or
    through the kernel's page table; [None] is a page fault. *)
Definition translate (s : mm) (a : Z) : option (Z * Z) :=
  let p := VIRT_TO_PHYS s a in
  if p / PAGE_SIZE <=? max_pfn s then Some (p / PAGE_SIZE, p `mod` PAGE_SIZE / 8)
  else match get_phys (kernel_ptable s) a s with
       | Ret q _ => if q =? 0 then None else Some (q / PAGE_SIZE, q `mod` PAGE_SIZE / 8)
       | _ => None
       end.

Definition load (a : Z) : M mm Z := fun s =>
  match translate s a with
  | Some (f, i) => Ret (rd_word s f i) s
  | None => Fault
  end.
Definition store (a v : Z) : M mm unit := fun s =>
  match translate s a with
  | Some (f, i) => wr_word f i v s
  | None => Fault
  end.

(** The 32-bit halves of a word: the field at the lower address is the low half. *)
Definition lo32 (w : Z) : Z := w `mod` 2 ^ 32.
Definition hi32 (w : Z) : Z := w / 2 ^ 32.
Definition join32 (l h : Z) : Z := l + h * 2 ^ 32.
Definition store_lo (a v : Z) : M mm unit := let* w := load a in store a (join32 (u32 v) (hi32 w)).
Definition store_hi (a v : Z) : M mm unit := let* w := load a in store a (join32 (lo32 w) (u32 v)).

(** ** Constants *)

Definition SLAB_MIN : Z := 8.
Definition SLAB_ALIGN : Z := 8.
Definition NUM_CACHES : nat := 9.
Definition LARGE_REGION_BASE : Z := 18446744072367374336.
Definition sizeof_slab : Z := 32.

(** ** Sizes *)

Definition align_up (v a : Z) : Z := clr (u64 (v + a - 1)) (a - 1).

Fixpoint cache_idx_loop (n i : nat) (s size : Z) : nat * Z :=
  match n with
  | O => (i, s)
  | S n => if s <? size then cache_idx_loop n (S i) (u64 (Z.shiftl s 1)) size else (i, s)
  end.

(** [NUM_CACHES] when no cache is large enough. *)
Definition cache_idx (size : Z) : nat :=
  let size := if size <? SLAB_MIN then SLAB_MIN else size in
  let r := cache_idx_loop (NUM_CACHES - 1) 0 SLAB_MIN size in
  if size <=? r.2 then r.1 else NUM_CACHES.

(** ** Slabs: next at 0, free at 8, total and used at 16, obj_sz at 24 *)

Definition slab_next (s : Z) : M mm Z := load s.
Definition slab_free (s : Z) : M mm Z := load (s + 8).
Definition slab_total (s : Z) : M mm Z := let* w := load (s + 16) in ret (lo32 w).
Definition slab_used (s : Z) : M mm Z := let* w := load (s + 16) in ret (hi32 w).
Definition slab_obj_sz (s : Z) : M mm Z := let* w := load (s + 24) in ret (lo32 w).

Definition obj_to_slab (obj : Z) : Z := clr obj (PAGE_SIZE - 1).

(** The walk of [slab_unlink] behind [prev]; [true] is its return value 1. *)
Fixpoint unlink_loop (fuel : nat) (prev s : Z) : M mm bool :=
  match fuel with
  | O => diverge
  | S fuel =>
      let* c := slab_next prev in
      if c =? 0 then ret false
      else if c =? s then
        let* n := slab_next s in
        store prev n ;;; store s 0 ;;; ret true
      else unlink_loop fuel c s
  end.

(** The new head of the list. *)
Definition slab_unlink (head s : Z) : M mm Z :=
  if head =? 0 then ret head
  else if head =? s then
    let* n := slab_next s in
    store s 0 ;;; ret n
  else
    let* fuel := gets (fun st => Z.to_nat (max_pfn st + 1)) in
    let* _ := unlink_loop fuel head s in
    ret head.

Definition slab_create (obj_size : Z) : M mm Z :=
  let* phys := palloc_single in
  let* page := gets (fun s => PHYS_TO_VIRT s phys) in
  if page =? 0 then ret 0
  else
    let stride := align_up obj_size SLAB_ALIGN in
    let stride := if stride <? 8 then 8 else stride in
    let s := page in
    store s 0 ;;;
    store_lo (s + 24) stride ;;;
    store_hi (s + 16) 0 ;;;
    let area := align_up (u64 (page + sizeof_slab)) SLAB_ALIGN in
    let end_ := u64 (page + PAGE_SIZE) in
    let total := u32 (u64 (end_ - area) / stride) in
    store_lo (s + 16) total ;;;
    store (s + 8) area ;;;
    mfor (Z.to_nat total) 0 (fun i =>
      store (area + i * stride) (if i + 1 <? total then area + (i + 1) * stride else 0)) ;;;
    ret s.

Definition slab_obj_alloc (s : Z) : M mm Z :=
  let* o := slab_free s in
  if o =? 0 then ret 0
  else
    let* n := load o in
    store (s + 8) n ;;;
    let* used := slab_used s in
    store_hi (s + 16) (used + 1) ;;;
    ret o.

Definition slab_obj_free (s o : Z) : M mm unit :=
  let* f := slab_free s in
  store o f ;;;
  store (s + 8) o ;;;
  let* used := slab_used s in
  store_hi (s + 16) (used - 1).

(** ** Caches *)

Definition get_cache (i : nat) : M mm cache := fun s =>
  match caches s !! i with Some c => Ret c s | None => Fault end.
Definition put_cache (i : nat) (c : cache) : M mm unit :=
  modify (fun s => set_caches (<[i := c]> (caches s)) s).
Definition set_partial (i : nat) (p : Z) : M mm unit :=
  let* c := get_cache i in put_cache i (mkCache p (c_full c) (c_obj_size c)).
Definition set_full (i : nat) (p : Z) : M mm unit :=
  let* c := get_cache i in put_cache i (mkCache (c_partial c) p (c_obj_size c)).

(** The slab an allocation is served from: the first partial one, or a new one. *)
Definition cache_slab (i : nat) : M mm Z :=
  let* c := get_cache i in
  if c_partial c =? 0 then
    let* s := slab_create (c_obj_size c) in
    if s =? 0 then ret 0
    else
      store s (c_partial c) ;;;
      set_partial i s ;;;
      ret s
  else ret (c_partial c).

Definition cache_alloc (i : nat) : M mm Z :=
  let* s := cache_slab i in
  if s =? 0 then ret 0
  else
    let* o := slab_obj_alloc s in
    let* used := slab_used s in
    let* total := slab_total s in
    when (used =? total)
      (let* n := slab_next s in
       set_partial i n ;;;
       let* c := get_cache i in
       store s (c_full c) ;;;
       set_full i s) ;;;
    ret o.

Definition cache_free (i : nat) (o : Z) : M mm unit :=
  let s := obj_to_slab o in
  let* used := slab_used s in
  let* total := slab_total s in
  slab_obj_free s o ;;;
  when (used =? total)
    (let* c := get_cache i in
     let* f := slab_unlink (c_full c) s in
     set_full i f ;;;
     store s (c_partial c) ;;;
     set_partial i s) ;;;
  let* used' := slab_used s in
  when (used' =? 0)
    (let* c := get_cache i in
     let* p := slab_unlink (c_partial c) s in
     set_partial i p ;;;
     let* page := gets (fun st => pfndb_phys_to_page st (VIRT_TO_PHYS st s)) in
     page_unref page).

(** ** Large objects: a header page, magic at 0 and the page count at 8 *)

Fixpoint large_map (n : nat) (base : Z) : M mm bool :=
  match n with
  | O => ret true
  | S n =>
      let* page := palloc_page in
      match page with
      | None => ret false
      | Some _ =>
          let* k := gets kernel_ptable in
          map_page k base page (Z.lor (Z.lor VMM_PRESENT VMM_WRITABLE) VMM_NX) ;;;
          page_unref page ;;;
          large_map n (u64 (base + PAGE_SIZE))
      end
  end.

Definition large_alloc (size : Z) : M mm Z :=
  let total := u64 (size + PAGE_SIZE) in
  let npages := u64 (total + PAGE_SIZE - 1) / PAGE_SIZE in
  let* base := gets next_large_base in
  modify (set_next_large (u64 (base + npages * PAGE_SIZE))) ;;;
  let* ok := large_map (Z.to_nat npages) base in
  if negb ok then ret 0
  else
    store_lo base LARGE_MAGIC ;;;
    store (base + 8) npages ;;;
    ret (u64 (base + PAGE_SIZE)).

Definition large_free (ptr : Z) : M mm unit :=
  let hdr := u64 (ptr - PAGE_SIZE) in
  let* w := load hdr in
  if negb (lo32 w =? LARGE_MAGIC) then ret tt
  else
    let* npages := load (hdr + 8) in
    store_lo hdr 0 ;;;
    mfor (Z.to_nat npages) 0 (fun i =>
      let* k := gets kernel_ptable in
      unmap_page k (u64 (hdr + i * PAGE_SIZE))).

(** ** The interface *)

Fixpoint init_caches (n : nat) (size : Z) : list cache :=
  match n with
  | O => []
  | S n => mkCache 0 0 size :: init_caches n (u64 (Z.shiftl size 1))
  end.

Definition kheap_init : M mm unit :=
  modify (set_caches (init_caches NUM_CACHES SLAB_MIN)).

Definition kmalloc (size : Z) : M mm Z :=
  if size =? 0 then ret 0
  else
    let i := cache_idx size in
    if (i <? NUM_CACHES)%nat then cache_alloc i else large_alloc size.

(** [memset(p, 0, n)] at an 8-aligned [p]: whole words, then the low bytes of one. *)
Definition zero_bytes (p n : Z) : M mm unit :=
  mfor (Z.to_nat (n / 8)) 0 (fun i => store (p + i * 8) 0) ;;;
  when (negb (n `mod` 8 =? 0))
    (let* w := load (p + n / 8 * 8) in
     store (p + n / 8 * 8) (clr w (2 ^ (8 * (n `mod` 8)) - 1))).

Definition kzalloc (size : Z) : M mm Z :=
  let* p := kmalloc size in
  when (negb (p =? 0)) (zero_bytes p size) ;;;
  ret p.

Definition kfree (ptr : Z) : M mm unit :=
  if ptr =? 0 then ret tt
  else
    let hdr := u64 (ptr - PAGE_SIZE) in
    let* w := load hdr in
    if lo32 w =? LARGE_MAGIC then large_free ptr
    else
      let s := obj_to_slab ptr in
      let* sz := slab_obj_sz s in
      let i := cache_idx sz in
      when (i <? NUM_CACHES)%nat (cache_free i ptr).

(** [memcpy(d, s, n)] between 8-aligned addresses. *)
Definition copy_bytes (d s n : Z) : M mm unit :=
  mfor (Z.to_nat (n / 8)) 0 (fun i => let* w := load (s + i * 8) in store (d + i * 8) w) ;;;
  when (negb (n `mod` 8 =? 0))
    (let mask := 2 ^ (8 * (n `mod` 8)) - 1 in
     let* w := load (s + n / 8 * 8) in
     let* v := load (d + n / 8 * 8) in
     store (d + n / 8 * 8) (Z.lor (clr v mask) (Z.land w mask))).

Definition krealloc (ptr size : Z) : M mm Z :=
  if ptr =? 0 then kmalloc size
  else if size =? 0 then kfree ptr ;;; ret 0
  else
    let hdr := u64 (ptr - PAGE_SIZE) in
    let* w := load hdr in
    let* old :=
      (if lo32 w =? LARGE_MAGIC
       then let* n := load (hdr + 8) in ret (u64 (u64 (n - 1) * PAGE_SIZE))
       else slab_obj_sz (obj_to_slab ptr)) in
    if (cache_idx size =? cache_idx old)%nat then ret ptr
    else
      let* n := kmalloc size in
      if n =? 0 then ret 0
      else
        copy_bytes n ptr (if old <? size then old else size) ;;;
        kfree ptr ;;;
        ret n.

(** ** paging.c: [paging_register_kernel_mmio] *)

Definition sizeof_mmio_region : Z := 32.

Definition paging_register_kernel_mmio (virt phys npages : Z) : M mm unit :=
  if npages =? 0 then ret tt
  else
    let* region := kzalloc sizeof_mmio_region in
    if region =? 0 then kpanic
    else modify (fun s => set_mmio_regions
      (mkMmio (ALIGN_DOWN virt PAGE_SIZE) (ALIGN_DOWN phys PAGE_SIZE) npages :: mmio_regions s) s).
