(* ===== verification/HeapRep.v ===== *)
(** * The kernel heap's data structures

    Slabs as a finite map from frames to a size class and the free objects, the
    caches' lists as lists of frames, and what the primitive operations of heap.c
    do to them. *)

From stdpp Require Import gmap list.
From Stdlib Require Import ZArith Lia.
From S2P Require Import Prelude Pfndb Pmm Paging PagingRel HeapIface Heap.

Local Open Scope Z_scope.

(** ** Addresses in the direct map *)

(** The direct map is page aligned and covers all frames. *)
Record static (s : mm) : Prop := {
  st_pos : 0 < hhdm s;
  st_al : hhdm s `mod` 4096 = 0;
  st_end : hhdm s + (max_pfn s + 1) * 4096 <= 2 ^ 64;
  st_max : 0 <= max_pfn s;
}.

(** [kfree] takes any object whose page below starts with the mark of a large
    object for a large one.  With [q = true] the representation also promises that
    this cannot happen: no word behind a slab header carries the mark, and no
    address of the direct map that the free lists might store in such a word looks
    like it.  Allocating needs none of this ([q = false]). *)
Definition nomagic (q : bool) (s : mm) : Prop :=
  q = true ->
  (forall f i, 0 <= f <= max_pfn s -> 0 <= i < 512 ->
    (hhdm s + f * 4096 + i * 8) `mod` 2 ^ 32 <> LARGE_MAGIC) /\
  (forall f i, 4 <= i -> rd_word s f i `mod` 2 ^ 32 <> LARGE_MAGIC).

Definition saddr (s : mm) (f : Z) : Z := hhdm s + f * 4096.

Lemma static_core s s' : core_eq s s' -> static s -> static s'.
Proof. intros (E1 & _ & E2 & _) []. constructor; rewrite ?E1, ?E2; done. Qed.

Lemma translate_ok s f i :
  static s -> 0 <= f <= max_pfn s -> 0 <= i < 512 ->
  translate s (hhdm s + f * 4096 + i * 8) = Some (f, i).
Proof.
  intros [] Hf Hi. unfold translate, VIRT_TO_PHYS, PAGE_SIZE.
  replace (hhdm s + f * 4096 + i * 8 - hhdm s) with (f * 4096 + i * 8) by lia.
  rewrite u64_small by lia.
  replace ((f * 4096 + i * 8) / 4096) with f by zdiv.
  replace ((f * 4096 + i * 8) `mod` 4096 / 8) with i by zdiv.
  by rewrite (proj2 (Z.leb_le _ _)) by lia.
Qed.

Lemma load_eq a f i s :
  static s -> a = hhdm s + f * 4096 + i * 8 -> 0 <= f <= max_pfn s -> 0 <= i < 512 ->
  load a s = Ret (rd_word s f i) s.
Proof. intros St -> Hf Hi. unfold load. by rewrite translate_ok. Qed.

Lemma store_eq a v f i s :
  static s -> a = hhdm s + f * 4096 + i * 8 -> 0 <= f <= max_pfn s -> 0 <= i < 512 ->
  store a v s = Ret tt (put_word f i v s).
Proof. intros St -> Hf Hi. unfold store. by rewrite translate_ok. Qed.

Lemma static_put f i v s : static s -> static (put_word f i v s).
Proof. by apply static_core. Qed.
#[export] Hint Resolve static_put : kern.

Lemma lo32_join l h : 0 <= l < 2 ^ 32 -> lo32 (join32 l h) = l.
Proof. intros Hl. unfold lo32, join32. rewrite Z_mod_plus_full. by apply Z.mod_small. Qed.
Lemma hi32_join l h : 0 <= l < 2 ^ 32 -> hi32 (join32 l h) = h.
Proof. intros Hl. unfold hi32, join32. rewrite Z.div_add by lia. rewrite Z.div_small by done. lia. Qed.

Lemma store_lo_eq a v f i s :
  static s -> a = hhdm s + f * 4096 + i * 8 -> 0 <= f <= max_pfn s -> 0 <= i < 512 ->
  store_lo a v s = Ret tt (put_word f i (join32 (u32 v) (hi32 (rd_word s f i))) s).
Proof.
  intros St Ha Hf Hi. unfold store_lo. erewrite bind_ret by (by eapply load_eq). by apply store_eq.
Qed.
Lemma store_hi_eq a v f i s :
  static s -> a = hhdm s + f * 4096 + i * 8 -> 0 <= f <= max_pfn s -> 0 <= i < 512 ->
  store_hi a v s = Ret tt (put_word f i (join32 (lo32 (rd_word s f i)) (u32 v)) s).
Proof.
  intros St Ha Hf Hi. unfold store_hi. erewrite bind_ret by (by eapply load_eq). by apply store_eq.
Qed.

(** ** Size classes *)

Definition osz (k : nat) : Z := 8 * 2 ^ Z.of_nat k.
Definition total (k : nat) : Z := 4064 / osz k.
Definition widx (k : nat) (j : Z) : Z := 4 + j * 2 ^ Z.of_nat k.
Definition oaddr (s : mm) (k : nat) (f j : Z) : Z := saddr s f + 32 + j * osz k.

Ltac classes k Hk :=
  destruct k as [|[|[|[|[|[|[|[|[|?]]]]]]]]]; [..|exfalso; clear -Hk; lia]; clear Hk.

Lemma osz_range k : (k < 9)%nat -> 8 <= osz k <= 2048 /\ 1 <= total k <= 508 /\ total k * osz k <= 4064.
Proof. intros Hk. classes k Hk; vm_compute; intuition congruence. Qed.

Lemma pow_class k : (k < 9)%nat -> 1 <= 2 ^ Z.of_nat k <= 256.
Proof. intros Hk. classes k Hk; vm_compute; intuition congruence. Qed.

Lemma cache_idx_osz k : (k < 9)%nat -> cache_idx (osz k) = k.
Proof. intros Hk. classes k Hk; reflexivity. Qed.

Lemma widx_range k j : (k < 9)%nat -> 0 <= j < total k -> 4 <= widx k j < 512.
Proof.
  intros Hk Hj. destruct (osz_range k Hk) as (_ & _ & Ht). pose proof (pow_class k Hk).
  unfold widx, osz in *. nia.
Qed.

Lemma oaddr_widx s k f j : oaddr s k f j = hhdm s + f * 4096 + widx k j * 8.
Proof. unfold oaddr, saddr, widx, osz. lia. Qed.

(** Words of two objects of a slab do not overlap. *)
Lemma widx_apart k i j t : (k < 9)%nat -> i <> j -> 0 <= t < 2 ^ Z.of_nat k -> widx k i <> widx k j + t.
Proof. intros Hk Hij Ht. pose proof (pow_class k Hk). unfold widx. nia. Qed.

Lemma widx_inj k i j : (k < 9)%nat -> widx k i = widx k j -> i = j.
Proof.
  intros Hk E. destruct (decide (i = j)) as [|Hne]; [done|]. exfalso.
  pose proof (pow_class k Hk). eapply (widx_apart k i j 0 Hk Hne); [lia|]. lia.
Qed.

(** ** Slabs *)

(** A pointer to the first free object. *)
Definition optr (s : mm) (k : nat) (f : Z) (fl : list Z) : Z :=
  match fl with [] => 0 | j :: _ => oaddr s k f j end.

Fixpoint fchain (s : mm) (k : nat) (f : Z) (fl : list Z) : Prop :=
  match fl with
  | [] => True
  | j :: fl' => rd_word s f (widx k j) = optr s k f fl' /\ fchain s k f fl'
  end.

Record slab_ok (s : mm) (f : Z) (k : nat) (fl : list Z) : Prop := {
  sl_class : (k < 9)%nat;
  sl_frame : 0 < f <= max_pfn s;
  sl_free : rd_word s f 1 = optr s k f fl;
  sl_count : rd_word s f 2 = join32 (total k) (total k - Z.of_nat (length fl));
  sl_size : lo32 (rd_word s f 3) = osz k;
  sl_chain : fchain s k f fl;
  sl_nodup : NoDup fl;
  sl_range : Forall (fun j => 0 <= j < total k) fl;
}.

Lemma optr_core s s' k f fl : hhdm s' = hhdm s -> optr s' k f fl = optr s k f fl.
Proof. intros E. unfold optr, oaddr, saddr. by rewrite E. Qed.

Lemma fchain_frame s s' k f fl :
  hhdm s' = hhdm s -> (forall j, j ∈ fl -> rd_word s' f (widx k j) = rd_word s f (widx k j)) ->
  fchain s k f fl -> fchain s' k f fl.
Proof.
  intros E. induction fl as [|j fl IH]; simpl; [done|]. intros Hw [H1 H2].
  rewrite (optr_core _ _ _ _ _ E), Hw by (by left). split; [done|]. apply IH; [|done].
  intros i Hi. apply Hw. by right.
Qed.

(** The next pointer is no part of it. *)
Lemma slab_ok_frame s s' f k fl :
  core_eq s s' -> (forall i, 1 <= i -> rd_word s' f i = rd_word s f i) ->
  slab_ok s f k fl -> slab_ok s' f k fl.
Proof.
  intros (E1 & _ & E2 & _) Hw [H1 H2 H3 H4 H5 H6 H7 H8]. constructor; try done.
  - by rewrite E1.
  - rewrite Hw by lia. by rewrite (optr_core _ _ _ _ _ E2).
  - by rewrite Hw by lia.
  - by rewrite Hw by lia.
  - eapply fchain_frame; [done| |done]. intros j Hj. apply Hw.
    rewrite Forall_forall in H8. pose proof (widx_range k j H1 (H8 _ Hj)). lia.
Qed.

Lemma idx_bound k fl :
  (k < 9)%nat -> NoDup fl -> Forall (fun j => 0 <= j < total k) fl -> Z.of_nat (length fl) <= total k.
Proof.
  intros Hk Hnd Hr. assert (Hsub : (length fl <= length (seqZ 0 (total k)))%nat).
  { apply submseteq_length, NoDup_submseteq; [done|].
    intros j Hj. apply elem_of_seqZ. rewrite Forall_forall in Hr. specialize (Hr _ Hj). lia. }
  rewrite length_seqZ in Hsub. destruct (osz_range k Hk). lia.
Qed.

Lemma free_bound s f k fl : slab_ok s f k fl -> Z.of_nat (length fl) <= total k.
Proof. intros []. by apply idx_bound. Qed.

(** ** Linked lists of slabs *)

Fixpoint plist (s : mm) (head : Z) (l : list Z) : Prop :=
  match l with
  | [] => head = 0
  | f :: l' => head = saddr s f /\ 0 < f <= max_pfn s /\ plist s (rd_word s f 0) l'
  end.

Lemma plist_frame s s' head l :
  hhdm s' = hhdm s -> max_pfn s' = max_pfn s ->
  (forall f, f ∈ l -> rd_word s' f 0 = rd_word s f 0) -> plist s head l -> plist s' head l.
Proof.
  intros E Em. revert head. induction l as [|f l IH]; intros head Hw; simpl; [done|].
  intros (H1 & H2 & H3). unfold saddr in *. rewrite E, Em, Hw by (by left).
  split_and!; [done|lia|lia|]. apply IH; [|done]. intros g Hg. apply Hw. by right.
Qed.

Lemma saddr_nonzero s f : static s -> 0 < f -> saddr s f <> 0.
Proof. intros [] Hf. unfold saddr. lia. Qed.
Lemma saddr_inj s f g : saddr s f = saddr s g -> f = g.
Proof. unfold saddr. lia. Qed.

(** ** Steps that only write words of memory *)

Record memstep (s s' : mm) : Prop := {
  ms_core : core_eq s s';
  ms_large : next_large_base s' = next_large_base s;
  ms_rel : forall l u, pmm_rel s l u -> pmm_rel s' l u;
}.

#[export] Instance memstep_refl : Reflexive memstep.
Proof. by constructor. Qed.
#[export] Instance memstep_trans : Transitive memstep.
Proof. intros a b c [] []. constructor; [by etrans|congruence|auto]. Qed.

Lemma memstep_put f i v s : memstep s (put_word f i v s).
Proof. constructor; [done|done|]. intros l u. apply rel_put. Qed.
Lemma memstep_caches c s : memstep s (set_caches c s).
Proof. constructor; [done|done|]. intros l u []. by constructor. Qed.
Lemma memstep_static s s' : memstep s s' -> static s -> static s'.
Proof. intros []. by apply static_core. Qed.
Lemma memstep_hhdm s s' : memstep s s' -> hhdm s' = hhdm s.
Proof. intros [(_ & _ & E & _) _ _]. done. Qed.
Lemma memstep_max s s' : memstep s s' -> max_pfn s' = max_pfn s.
Proof. intros [(E & _) _ _]. done. Qed.
#[export] Hint Resolve memstep_put memstep_caches memstep_static : kern.

(** Run the memory access at the head through its equation [E] at word [i] of [f]. *)
Ltac mem E f i :=
  apply wp_bind; eapply wp_intro;
  [apply (E f i); [eauto 10 with kern|unfold saddr; simpl; lia|simpl; lia|lia]|]; cbn beta.

Section Marks.
Context {mk : bool}.

Lemma nomagic_put f i v s :
  nomagic mk s -> i < 4 \/ (mk = true -> v `mod` 2 ^ 32 <> LARGE_MAGIC) -> nomagic mk (put_word f i v s).
Proof.
  intros Hn Hv Hq. destruct (Hn Hq) as [H1 H2]. split; [done|]. intros g j Hj. rewrite rd_put.
  case_decide as Hd; [|by apply H2]. destruct Hd as [_ <-]. destruct Hv as [|Hv]; [lia|by apply Hv].
Qed.

Lemma nomagic_frames s s' : core_eq s s' -> frames s' = frames s -> nomagic mk s -> nomagic mk s'.
Proof.
  intros (E1 & _ & E2 & _) Hf Hn Hq. rewrite E1, E2. destruct (Hn Hq) as [H1 H2].
  split; [done|]. intros g i Hi. rewrite (rd_frames_eq _ _ _ _ Hf). by apply H2.
Qed.

Lemma addr_quiet s k f j :
  nomagic mk s -> (k < 9)%nat -> 0 <= f <= max_pfn s -> 0 <= j < total k -> mk = true ->
  oaddr s k f j `mod` 2 ^ 32 <> LARGE_MAGIC.
Proof.
  intros Hn Hk Hf Hj Hq. rewrite oaddr_widx. apply (Hn Hq); [done|].
  pose proof (widx_range k j Hk Hj). lia.
Qed.

(** ** Creating a slab *)

Lemma align_up_8 x : 0 <= x < 2 ^ 64 - 8 -> x `mod` 8 = 0 -> align_up x SLAB_ALIGN = x.
Proof.
  intros Hx Hm. unfold align_up, SLAB_ALIGN, clr. rewrite u64_small by lia.
  change (8 - 1) with (Z.ones 3). rewrite Z.ldiff_ones_r by lia.
  rewrite Z.shiftl_mul_pow2, Z.shiftr_div_pow2 by lia. change (2 ^ 3) with 8. zdiv.
Qed.

Lemma osz_align k : (k < 9)%nat -> osz k `mod` 8 = 0.
Proof. intros Hk. unfold osz. rewrite Z.mul_comm. apply Z.mod_mul. lia. Qed.

(** The free list of a new slab, written from the first object on. *)
Lemma create_loop_wp s f k :
  static s -> (k < 9)%nat -> 0 < f <= max_pfn s -> nomagic mk s ->
  wp (mfor (Z.to_nat (total k)) 0 (fun i =>
      store (oaddr s k f 0 + i * osz k)
        (if i + 1 <? total k then oaddr s k f 0 + (i + 1) * osz k else 0))) s
    (fun _ s' => memstep s s' /\ caches s' = caches s /\ nomagic mk s' /\
      (forall g i, (g <> f \/ i < 4) -> rd_word s' g i = rd_word s g i) /\
      (forall j, 0 <= j < total k ->
        rd_word s' f (widx k j) = if j + 1 <? total k then oaddr s k f (j + 1) else 0)).
Proof.
  intros St Hk Hf Hn. destruct (osz_range k Hk) as (Ho & Ht & Hto).
  assert (Hadd : forall j, oaddr s k f 0 + j * osz k = oaddr s k f j) by (intros; unfold oaddr; lia).
  eapply wp_mono; [apply (wp_mfor (fun n s' => memstep s s' /\ caches s' = caches s /\ nomagic mk s' /\
      (forall g i, (g <> f \/ i < 4) -> rd_word s' g i = rd_word s g i) /\
      (forall j, 0 <= j < n -> j < total k ->
        rd_word s' f (widx k j) = if j + 1 <? total k then oaddr s k f (j + 1) else 0)))|].
  - split_and!; try done. lia.
  - intros n s1 Hn1 (M1 & C1 & N1 & W1 & F1). pose proof (memstep_static _ _ M1 St) as St1.
    pose proof (memstep_hhdm _ _ M1) as Eh. pose proof (memstep_max _ _ M1) as Em.
    assert (Hnt : 0 <= n < total k) by lia. pose proof (widx_range k n Hk Hnt) as Hwn.
    eapply wp_intro; [apply (store_eq _ _ f (widx k n)); [done| |lia|lia]|].
    { rewrite Hadd, oaddr_widx, Eh. done. }
    split_and!; [etrans; [exact M1|apply memstep_put]|done| | |].
    + apply nomagic_put; [done|right]. case_match; bools; [|done]. rewrite Hadd.
      by apply addr_quiet; [|done|lia|lia].
    + intros g i Hgi. rewrite rd_put_ne; [by apply W1|]. destruct Hgi; [left; congruence|right; lia].
    + intros j Hj Hjt. destruct (decide (j = n)) as [->|Hne].
      * rewrite rd_put_eq. by rewrite Hadd.
      * rewrite rd_put_ne; [apply F1; lia|]. right. intros E. by apply widx_inj in E.
  - intros ? s' (M & C & Nm & W & F). split_and!; try done. intros j Hj. apply F; lia.
Qed.

Lemma fchain_seq s s' f k n j :
  hhdm s' = hhdm s -> 0 <= j -> j + Z.of_nat n = total k ->
  (forall j, 0 <= j < total k ->
    rd_word s' f (widx k j) = if j + 1 <? total k then oaddr s k f (j + 1) else 0) ->
  fchain s' k f (seqZ j (Z.of_nat n)) /\
  optr s' k f (seqZ j (Z.of_nat n)) = if j <? total k then oaddr s k f j else 0.
Proof.
  intros Eh. revert j. induction n as [|n IH]; intros j Hj Hn Hw.
  { rewrite (proj2 (Z.ltb_ge _ _)) by lia. done. }
  rewrite seqZ_cons by lia. replace (Z.pred (Z.of_nat (S n))) with (Z.of_nat n) by lia.
  destruct (IH (Z.succ j)) as [H1 H2]; [lia|lia|done|]. simpl fchain. simpl optr.
  rewrite H2, Hw by lia. replace (Z.succ j) with (j + 1) by lia. split; [done|].
  rewrite (proj2 (Z.ltb_lt _ _)) by lia. unfold oaddr, saddr. by rewrite Eh.
Qed.

Lemma palloc_single_wp s f l u :
  pmm_rel s (f :: l) u ->
  wp palloc_single s (fun r s' => r = f * 4096 /\ pmm_rel s' l (<[f := mkU 1 0 false]> u) /\
    frames s' = frames s /\ env_eq s s').
Proof.
  intros R. pose proof (palloc_page_wp _ _ _ _ R) as H.
  pose proof (free_in_range _ _ _ f R ltac:(left)) as Hr. pose proof (rel_max _ _ _ R) as Hm.
  unfold palloc_page, palloc_single, bind, wp in *.
  destruct (_pmm_pop s) as [[pg|] s0| | |]; try done.
  destruct (wr_page (Some pg) _ s0) as [[] s1| | |]; try done. simpl in *.
  destruct H as ([= ->] & R1 & Hf & He). pose proof He as (Hmx & _).
  pose proof (rel_base _ _ _ R1). split_and!; [|done|done|done].
  exact (page_to_phys_ok s1 f ltac:(done) ltac:(lia) ltac:(lia)).
Qed.

Lemma slab_create_wp s f l u k :
  pmm_rel s (f :: l) u -> static s -> nomagic mk s -> (k < 9)%nat ->
  wp (slab_create (osz k)) s (fun r s' => r = saddr s f /\
    pmm_rel s' l (<[f := mkU 1 0 false]> u) /\ core_eq s s' /\ caches s' = caches s /\
    next_large_base s' = next_large_base s /\ nomagic mk s' /\
    slab_ok s' f k (seqZ 0 (total k)) /\
    (forall g i, g <> f -> rd_word s' g i = rd_word s g i)).
Proof.
  intros R St Hn Hk. pose proof (free_in_range _ _ _ f R ltac:(left)) as Hfr.
  destruct (osz_range k Hk) as (Ho & Ht & Hto). pose proof (osz_align k Hk) as Hoa.
  unfold slab_create. apply wp_bind. eapply wp_mono; [by apply palloc_single_wp|].
  intros ? s1 (-> & R1 & Hf1 & He1). apply wp_bind, wp_gets.
  assert (C1 : core_eq s s1) by (destruct He1 as (? & ? & ? & ? & ? & _); by repeat split).
  pose proof (static_core _ _ C1 St) as St1. pose proof C1 as (Em1 & ? & Eh1 & ? & ?).
  assert (Hn1 : nomagic mk s1) by (by apply (nomagic_frames s)).
  pose proof St1 as [P0 P1 P2 P3].
  assert (Hpg : PHYS_TO_VIRT s1 (f * 4096) = saddr s1 f).
  { unfold PHYS_TO_VIRT, saddr. rewrite u64_small; lia. }
  rewrite Hpg, (proj2 (Z.eqb_neq _ _)) by (apply saddr_nonzero; [done|lia]). cbn zeta.
  assert (Hs8 : saddr s1 f `mod` 8 = 0) by (unfold saddr; zdiv).
  rewrite (align_up_8 (osz k)), (proj2 (Z.ltb_ge _ _)) by lia.
  assert (Harea : align_up (u64 (saddr s1 f + sizeof_slab)) SLAB_ALIGN = oaddr s1 k f 0).
  { unfold sizeof_slab, oaddr. rewrite u64_small by (unfold saddr in *; lia).
    rewrite align_up_8 by (unfold saddr in *; zdiv). lia. }
  rewrite Harea.
  assert (Htot : u32 (u64 (u64 (saddr s1 f + PAGE_SIZE) - oaddr s1 k f 0) / osz k) = total k).
  { unfold u64 at 2. rewrite Zminus_mod_idemp_l || idtac.
    unfold u64. rewrite Zminus_mod_idemp_l. unfold oaddr, PAGE_SIZE.
    replace (saddr s1 f + 4096 - (saddr s1 f + 32 + 0 * osz k)) with 4064 by lia.
    change (4064 `mod` 2 ^ 64) with 4064. fold (total k). apply u32_small. lia. }
  rewrite Htot.
  mem (fun f i => store_eq (saddr s1 f) 0 f i s1) f 0.
  mem (fun f i => store_lo_eq (saddr s1 f + 24) (osz k) f i) f 3.
  mem (fun f i => store_hi_eq (saddr s1 f + 16) 0 f i) f 2.
  mem (fun f i => store_lo_eq (saddr s1 f + 16) (total k) f i) f 2.
  mem (fun f i => store_eq (saddr s1 f + 8) (oaddr s1 k f 0) f i) f 1.
  match goal with |- wp _ ?st _ => set (s2 := st) end.
  assert (M2 : memstep s1 s2) by (do 4 (etrans; [|apply memstep_put]); apply memstep_put).
  assert (W2 : forall g i, g <> f -> rd_word s2 g i = rd_word s1 g i).
  { intros g i Hg. unfold s2. rewrite !rd_put_ne by (left; congruence). done. }
  assert (Hn2 : nomagic mk s2) by (unfold s2; do 5 (apply nomagic_put; [|left; lia]); done).
  assert (F2 : rd_word s2 f 1 = oaddr s1 k f 0 /\ rd_word s2 f 2 = join32 (total k) 0 /\
    lo32 (rd_word s2 f 3) = osz k).
  { unfold s2. rewrite rd_put_eq. rewrite (rd_put_ne f 1 _ _ f 2), rd_put_eq by lia.
    rewrite rd_put_eq, hi32_join by (unfold lo32; apply Z.mod_pos_bound; lia).
    rewrite !(rd_put_ne f _ _ _ f 3), rd_put_eq, lo32_join by (rewrite ?u32_small; lia).
    rewrite !u32_small by lia. done. }
  assert (C2 : caches s2 = caches s1) by done.
  clearbody s2. destruct F2 as (F1 & F2 & F3). pose proof (memstep_static _ _ M2 St1) as St2.
  pose proof (memstep_hhdm _ _ M2) as Eh2. pose proof (memstep_max _ _ M2) as Em2.
  assert (Ho2 : oaddr s1 k f 0 = oaddr s2 k f 0) by (unfold oaddr, saddr; by rewrite Eh2).
  rewrite Ho2. apply wp_bind. eapply wp_mono; [apply create_loop_wp; (done || lia)|].
  intros ? s3 (M3 & C3 & Hn3 & W3 & F4). apply wp_ret.
  pose proof (memstep_hhdm _ _ M3) as Eh3. pose proof (memstep_max _ _ M3) as Em3.
  destruct (fchain_seq s2 s3 f k (Z.to_nat (total k)) 0 Eh3) as [Hc Hp]; [lia|lia|done|].
  rewrite Z2Nat.id in Hc, Hp by lia. rewrite (proj2 (Z.ltb_lt _ _)) in Hp by lia.
  split_and!; try done.
  - unfold saddr. by rewrite Eh1.
  - by apply (ms_rel _ _ M3), (ms_rel _ _ M2).
  - etrans; [|apply M3]. etrans; [|apply M2]. by repeat split.
  - rewrite C3, C2. apply He1.
  - rewrite (ms_large _ _ M3), (ms_large _ _ M2). apply He1.
  - constructor; try done; [lia| | | | |].
    + rewrite W3, F1, Ho2 by lia. done.
    + rewrite W3, F2, length_seqZ by lia. f_equal. lia.
    + by rewrite W3 by lia.
    + apply NoDup_seqZ.
    + apply Forall_forall. intros j Hj%elem_of_seqZ. lia.
  - intros g i Hg. rewrite W3 by (by left). rewrite W2 by done. by apply rd_frames_eq.
Qed.

(** ** Taking an object from a slab and giving it back *)

(** Words 1 and 2 hold the free list's head and the counters. *)
Lemma slab_words f k fl s o n :
  static s -> nomagic mk s -> (k < 9)%nat -> 0 < f <= max_pfn s -> 0 <= n <= total k ->
  let s' := put_word f 2 (join32 (total k) n) (put_word f 1 o s) in
  memstep s s' /\ caches s' = caches s /\ nomagic mk s' /\
  (forall g i, g <> f \/ (i <> 1 /\ i <> 2) -> rd_word s' g i = rd_word s g i) /\
  (lo32 (rd_word s f 3) = osz k -> fchain s k f fl -> NoDup fl ->
   Forall (fun j => 0 <= j < total k) fl -> o = optr s k f fl -> n = total k - Z.of_nat (length fl) ->
   slab_ok s' f k fl).
Proof.
  intros St Hn Hk Hf Hn' s'. split_and!; [etrans; apply memstep_put|done| | |].
  - do 2 (apply nomagic_put; [|left; lia]). done.
  - intros g i Hgi. unfold s'. rewrite !rd_put_ne; [done| |]; destruct Hgi; (left; congruence) || (right; lia).
  - intros H3 Hc Hnd Hr -> ->. constructor; try done.
    + unfold s'. by rewrite rd_put_ne, rd_put_eq by lia.
    + unfold s'. by rewrite rd_put_eq.
    + unfold s'. by rewrite !rd_put_ne by lia.
    + apply (fchain_frame s); [done| |exact Hc]. intros j Hj. rewrite Forall_forall in Hr.
      pose proof (widx_range k j Hk (Hr _ Hj)). unfold s'. rewrite !rd_put_ne by lia. done.
Qed.

Lemma used_eq s f k fl :
  static s -> slab_ok s f k fl ->
  slab_used (saddr s f) s = Ret (total k - Z.of_nat (length fl)) s /\
  slab_total (saddr s f) s = Ret (total k) s.
Proof.
  intros St [Hk Hf _ Hc _ _ _ _]. destruct (osz_range k Hk) as (_ & Ht & _).
  unfold slab_used, slab_total.
  erewrite !bind_ret by (apply (load_eq _ f 2); [done|unfold saddr; lia|lia|lia]).
  unfold ret. rewrite Hc, hi32_join, lo32_join by lia. done.
Qed.

Lemma slab_obj_alloc_eq s f k j fl :
  static s -> nomagic mk s -> slab_ok s f k (j :: fl) ->
  exists s', slab_obj_alloc (saddr s f) s = Ret (oaddr s k f j) s' /\
    memstep s s' /\ caches s' = caches s /\ nomagic mk s' /\ slab_ok s' f k fl /\
    (forall g i, g <> f \/ (i <> 1 /\ i <> 2) -> rd_word s' g i = rd_word s g i).
Proof.
  intros St Hn Ok. pose proof Ok as [Hk Hf H1 H2 H3 [Hj Hc] Hnd Hr].
  destruct (osz_range k Hk) as (_ & Ht & _). pose proof (free_bound _ _ _ _ Ok) as Hb. simpl in Hb.
  inversion Hr as [|? ? Hj0 Hr' ]; subst. inversion Hnd as [|? ? Hnin Hnd']; subst.
  pose proof (widx_range k j Hk Hj0) as Hw.
  destruct (slab_words f k fl s (optr s k f fl) (total k - Z.of_nat (length fl)) St Hn Hk Hf ltac:(lia))
    as (M & C & Hn' & W & Hok).
  eexists. split; [|split_and!; [exact M|exact C|exact Hn'|by apply Hok|exact W]].
  unfold slab_obj_alloc, slab_free.
  erewrite bind_ret by (apply (load_eq _ f 1); [done|unfold saddr; lia|lia|lia]).
  rewrite H1. change (optr s k f (j :: fl)) with (oaddr s k f j).
  assert (Hnz : oaddr s k f j <> 0) by (destruct St; rewrite oaddr_widx; lia).
  rewrite (proj2 (Z.eqb_neq _ _)) by done.
  erewrite bind_ret by (apply (load_eq _ f (widx k j)); [done|apply oaddr_widx|lia|lia]).
  rewrite Hj. erewrite bind_ret by (apply (store_eq _ _ f 1); [done|unfold saddr; lia|lia|lia]).
  set (s1 := put_word f 1 _ s). unfold slab_used. rewrite bind_assoc.
  erewrite bind_ret by (apply (load_eq _ f 2); [by apply static_put|unfold saddr; simpl; lia|simpl; lia|lia]).
  unfold bind at 1. unfold ret at 1.
  erewrite bind_ret by (apply (store_hi_eq _ _ f 2); [by apply static_put|unfold saddr; simpl; lia|simpl; lia|lia]).
  unfold s1. rewrite rd_put_ne, H2, lo32_join, hi32_join by lia. unfold ret. do 4 f_equal.
  simpl. rewrite u32_small; lia.
Qed.

Lemma slab_obj_free_eq s f k j fl :
  static s -> nomagic mk s -> slab_ok s f k fl -> 0 <= j < total k -> j ∉ fl ->
  exists s', slab_obj_free (saddr s f) (oaddr s k f j) s = Ret tt s' /\
    memstep s s' /\ caches s' = caches s /\ nomagic mk s' /\ slab_ok s' f k (j :: fl) /\
    (forall g i, g <> f \/ i = 0 -> rd_word s' g i = rd_word s g i).
Proof.
  intros St Hn Ok Hj Hjf. pose proof Ok as [Hk Hf H1 H2 H3 Hc Hnd Hr].
  destruct (osz_range k Hk) as (_ & Ht & _). pose proof (widx_range k j Hk Hj) as Hw.
  assert (Ha0 : forall j', oaddr s k f j' = hhdm s + f * 4096 + widx k j' * 8) by (intros; apply oaddr_widx).
  set (s1 := put_word f (widx k j) (optr s k f fl) s).
  assert (St1 : static s1) by by apply static_put.
  assert (Hn1 : nomagic mk s1).
  { apply nomagic_put; [done|right]. destruct fl as [|j' fl]; simpl; [done|].
    inversion Hr; subst. apply addr_quiet; (done || lia). }
  assert (Hnd1 : NoDup (j :: fl)) by by constructor.
  assert (Hr1 : Forall (fun j => 0 <= j < total k) (j :: fl)) by by constructor.
  pose proof (idx_bound k (j :: fl) Hk Hnd1 Hr1) as Hb.
  assert (Hch : fchain s1 k f (j :: fl)).
  { split; [by apply rd_put_eq|]. apply (fchain_frame s); [done| |done].
    intros i Hi. apply rd_put_ne. right. intros E. apply widx_inj in E; [|done]. by subst. }
  destruct (slab_words f k (j :: fl) s1 (oaddr s k f j) (total k - Z.of_nat (length (j :: fl))) St1 Hn1 Hk Hf ltac:(lia))
    as (M & C & Hn' & W & Hok).
  eexists. split; [|split_and!; [etrans; [apply memstep_put|exact M]|exact C|exact Hn'|apply Hok|]]; try done.
  - unfold slab_obj_free, slab_free.
    erewrite bind_ret by (apply (load_eq _ f 1); [done|unfold saddr; lia|lia|lia]).
    rewrite H1. erewrite bind_ret by (apply (store_eq _ _ f (widx k j)); [done|apply Ha0|lia|lia]). fold s1.
    erewrite bind_ret by (apply (store_eq _ _ f 1); [done|unfold saddr; simpl; lia|simpl; lia|lia]).
    set (s2 := put_word f 1 _ s1). unfold slab_used. rewrite bind_assoc.
    assert (St2 : static s2) by by apply static_put.
    erewrite bind_ret by (apply (load_eq _ f 2); [done|unfold saddr; simpl; lia|simpl; lia|lia]).
    unfold bind at 1. unfold ret at 1.
    rewrite (store_hi_eq _ _ f 2) by (try done; unfold saddr; simpl; lia).
    unfold s2, s1. rewrite !(rd_put_ne f _ _ _ f 2), H2, lo32_join, hi32_join by lia. do 3 f_equal.
    simpl length in *. rewrite u32_small; lia.
  - unfold s1. rewrite rd_put_ne by lia. done.
  - intros g i Hgi. rewrite W by (destruct Hgi; [by left|right; lia]). apply rd_put_ne.
    destruct Hgi; [left; congruence|right; lia].
Qed.

(** ** Unlinking a slab from a list *)

Lemma plist_range s head l : plist s head l -> Forall (fun f => 0 < f <= max_pfn s) l.
Proof.
  revert head. induction l as [|f l IH]; intros head; simpl; [by constructor|].
  intros (_ & Hf & Hl). constructor; [done|]. by eapply IH.
Qed.

Lemma plist_length s head l : plist s head l -> NoDup l -> Z.of_nat (length l) <= Z.max 0 (max_pfn s).
Proof.
  intros Hl Hnd. assert (Hsub : (length l <= length (seqZ 1 (max_pfn s)))%nat).
  { apply submseteq_length, NoDup_submseteq; [done|]. intros f Hf. apply elem_of_seqZ.
    pose proof (plist_range _ _ _ Hl) as Hr. rewrite Forall_forall in Hr. specialize (Hr _ Hf). lia. }
  rewrite length_seqZ in Hsub. lia.
Qed.

(** Only next pointers of [l] and of [f] were written. *)
Definition relinked (s s' : mm) (l : list Z) (f : Z) : Prop :=
  memstep s s' /\ caches s' = caches s /\ nomagic mk s' /\
  (forall g i, i <> 0 \/ ((g ∉ l) /\ g <> f) -> rd_word s' g i = rd_word s g i).

Lemma unlink_loop_eq fuel s p f l1 l2 :
  static s -> nomagic mk s -> 0 < p <= max_pfn s ->
  plist s (rd_word s p 0) (l1 ++ f :: l2) -> NoDup (p :: l1 ++ f :: l2) -> (length l1 < fuel)%nat ->
  exists s', unlink_loop fuel (saddr s p) (saddr s f) s = Ret true s' /\
    relinked s s' (p :: l1) f /\ plist s' (rd_word s' p 0) (l1 ++ l2).
Proof.
  intros St Hn. revert fuel p. induction l1 as [|q l1 IH]; intros fuel p Hp Hl Hnd Hfu;
    (destruct fuel as [|fuel]; [simpl in Hfu; lia|]); simpl unlink_loop; unfold slab_next.
  - destruct Hl as (Hpf & Hfr & Hl). apply NoDup_cons in Hnd as [Hpn Hnd]. simpl in Hnd.
    apply NoDup_cons in Hnd as [Hfn _].
    assert (Hpf' : p <> f) by (intros ->; by apply Hpn; left).
    erewrite bind_ret by (apply (load_eq _ p 0); [done|unfold saddr; lia|lia|lia]).
    rewrite Hpf, (proj2 (Z.eqb_neq _ _)) by (apply saddr_nonzero; [done|lia]). rewrite Z.eqb_refl.
    erewrite bind_ret by (apply (load_eq _ f 0); [done|unfold saddr; lia|lia|lia]).
    erewrite bind_ret by (apply (store_eq _ _ p 0); [done|unfold saddr; lia|lia|lia]).
    erewrite bind_ret by (apply (store_eq _ _ f 0);
      [by apply static_put|unfold saddr; simpl; lia|simpl; lia|lia]).
    eexists. split; [reflexivity|]. split; [split_and!|].
    + etrans; apply memstep_put.
    + done.
    + do 2 (apply nomagic_put; [|left; lia]). done.
    + intros g i Hgi. rewrite !rd_put_ne; [done| |].
      * destruct Hgi as [|[Hg _]]; [right; congruence|left; intros ->; apply Hg; left].
      * destruct Hgi as [|[_ Hg]]; [right; congruence|left; congruence].
    + simpl. rewrite rd_put_ne, rd_put_eq by (left; congruence).
      apply (plist_frame s); [done|done| |exact Hl].
      intros g Hg. rewrite !rd_put_ne; [done|left|left]; intros ->.
      * apply Hpn. by right.
      * done.
  - destruct Hl as (Hpq & Hqr & Hl). apply NoDup_cons in Hnd as [Hpn Hnd]. simpl in Hpn.
    assert (Hqf : q <> f).
    { intros ->. apply NoDup_cons in Hnd as [Hq _]. apply Hq, elem_of_app. right. left. }
    erewrite bind_ret by (apply (load_eq _ p 0); [done|unfold saddr; lia|lia|lia]).
    rewrite Hpq, (proj2 (Z.eqb_neq _ _)) by (apply saddr_nonzero; [done|lia]).
    rewrite (proj2 (Z.eqb_neq _ _)) by (intros E%saddr_inj; done).
    destruct (IH fuel q Hqr Hl Hnd ltac:(simpl in Hfu; lia)) as (s' & Hs' & (M & C & Nm & W) & Hpl).
    exists s'. split; [exact Hs'|].
    assert (Hpq' : (p ∉ q :: l1) /\ p <> f).
    { split; [intros Hi|intros ->]; apply Hpn.
      - change (q :: l1 ++ f :: l2) with ((q :: l1) ++ f :: l2). apply elem_of_app. by left.
      - right. apply elem_of_app. right. left. }
    split; [split_and!; try done|].
    + intros g i Hgi. apply W. destruct Hgi as [|[Hg Hf]]; [by left|right]. split; [|done].
      intros Hi. apply Hg. by right.
    + simpl. rewrite (W p 0) by (by right). rewrite Hpq. unfold saddr.
      rewrite (memstep_hhdm _ _ M), (memstep_max _ _ M). split_and!; [done|lia|lia|exact Hpl].
Qed.

Lemma slab_unlink_eq s head f l1 l2 :
  static s -> nomagic mk s -> plist s head (l1 ++ f :: l2) -> NoDup (l1 ++ f :: l2) ->
  exists head' s', slab_unlink head (saddr s f) s = Ret head' s' /\
    relinked s s' l1 f /\ plist s' head' (l1 ++ l2).
Proof.
  intros St Hn Hl Hnd. unfold slab_unlink. destruct l1 as [|p l1].
  - destruct Hl as (-> & Hfr & Hl). simpl in Hnd. apply NoDup_cons in Hnd as [Hfn _].
    rewrite (proj2 (Z.eqb_neq _ _)) by (apply saddr_nonzero; [done|lia]). rewrite Z.eqb_refl.
    unfold slab_next. erewrite bind_ret by (apply (load_eq _ f 0); [done|unfold saddr; lia|lia|lia]).
    erewrite bind_ret by (apply (store_eq _ _ f 0); [done|unfold saddr; lia|lia|lia]).
    do 2 eexists. split; [reflexivity|]. split; [split_and!|].
    + apply memstep_put.
    + done.
    + apply nomagic_put; [done|left; lia].
    + intros g i Hgi. apply rd_put_ne. destruct Hgi as [|[_ ?]]; [right|left]; congruence.
    + simpl. apply (plist_frame s); [done|done| |exact Hl]. intros g Hg. apply rd_put_ne. left. by intros ->.
  - destruct Hl as (-> & Hpr & Hl).
    assert (Hpf : p <> f).
    { intros ->. apply NoDup_cons in Hnd as [Hq _]. apply Hq, elem_of_app. right. left. }
    rewrite (proj2 (Z.eqb_neq _ _)) by (apply saddr_nonzero; [done|lia]).
    rewrite (proj2 (Z.eqb_neq _ _)) by (intros E%saddr_inj; done).
    unfold bind at 1, gets.
    destruct (unlink_loop_eq (Z.to_nat (max_pfn s + 1)) s p f l1 l2 St Hn Hpr Hl Hnd) as (s' & Hs' & Hr & Hpl).
    { pose proof (plist_length s (saddr s p) (p :: l1 ++ f :: l2)) as Hlen.
      simpl in Hlen. rewrite length_app in Hlen. simpl in Hlen. specialize (Hlen ltac:(done) Hnd). lia. }
    rewrite (bind_ret _ _ _ _ _ Hs'). do 2 eexists. split; [reflexivity|]. split; [done|].
    destruct Hr as (M & _ & _ & W). simpl. unfold saddr.
    rewrite (memstep_hhdm _ _ M), (memstep_max _ _ M). split_and!; [done|lia|lia|exact Hpl].
Qed.

End Marks.
