(* ===== verification/HeapProps.v ===== *)
(** * The kernel heap keeps its promises

    The representation invariant of the heap, what [kmalloc], [kzalloc] and
    [kfree] do to it, and the proof that heap.c implements the interface
    [HeapSpec] its clients rely on. *)

From stdpp Require Import gmap list.
From Stdlib Require Import ZArith Lia.
From S2P Require Import Prelude Pfndb Pmm Paging PagingRel PagingProps HeapIface Heap HeapRep.

Local Open Scope Z_scope.

(** Slabs: frame to size class and free objects.  Per class, the list of slabs
    with a free object and the list of full ones. *)
Abbreviation slabs := (gmap Z (nat * list Z)).

(** The doublings of [cache_idx], written out. *)
Ltac open_cache_idx :=
  unfold cache_idx, NUM_CACHES, SLAB_MIN; simpl cache_idx_loop;
  change (u64 (Z.shiftl 8 1)) with 16; change (u64 (Z.shiftl 16 1)) with 32;
  change (u64 (Z.shiftl 32 1)) with 64; change (u64 (Z.shiftl 64 1)) with 128;
  change (u64 (Z.shiftl 128 1)) with 256; change (u64 (Z.shiftl 256 1)) with 512;
  change (u64 (Z.shiftl 512 1)) with 1024; change (u64 (Z.shiftl 1024 1)) with 2048.

Section Marks.
Context {mk : bool}.

(** [mk] says whether the heap is also free of words [kfree] would take for the
    mark of a large object. *)
Record hrep (s : mm) (sm : slabs) (P F : nat -> list Z) : Prop := {
  hr_static : static s;
  hr_nomagic : nomagic mk s;
  hr_slab : forall f k fl, sm !! f = Some (k, fl) -> slab_ok s f k fl;
  hr_cache : forall k, (k < 9)%nat -> exists c, caches s !! k = Some c /\ c_obj_size c = osz k /\
    plist s (c_partial c) (P k) /\ plist s (c_full c) (F k);
  hr_P : forall k f, f ∈ P k <-> exists j fl, sm !! f = Some (k, j :: fl);
  hr_F : forall k f, f ∈ F k <-> sm !! f = Some (k, []);
  hr_nodup : forall k, NoDup (P k) /\ NoDup (F k);
}.

Definition upd (k : nat) (l : list Z) (P : nat -> list Z) : nat -> list Z :=
  fun i => if decide (i = k) then l else P i.

Lemma upd_eq k l P : upd k l P k = l.
Proof. unfold upd. by rewrite decide_True. Qed.
Lemma upd_ne k l P i : i <> k -> upd k l P i = P i.
Proof. intros. unfold upd. by rewrite decide_False. Qed.

(** A live object: its place is not on the free list of its slab. *)
Definition live (s : mm) (sm : slabs) (a : Z) : Prop :=
  exists f k fl j, sm !! f = Some (k, fl) /\ a = oaddr s k f j /\ 0 <= j < total k /\ j ∉ fl.

(** A cache after its fields were written. *)
Lemma put_cache_lookup s k c i : (k < length (caches s))%nat ->
  caches (set_caches (<[k := c]> (caches s)) s) !! i =
  if decide (i = k) then Some c else caches s !! i.
Proof.
  intros Hk. simpl. case_decide; subst.
  - by rewrite list_lookup_insert_eq.
  - by rewrite list_lookup_insert_ne.
Qed.

Lemma set_partial_eq s k c p :
  caches s !! k = Some c ->
  set_partial k p s = Ret tt (set_caches (<[k := mkCache p (c_full c) (c_obj_size c)]> (caches s)) s).
Proof. intros Hc. unfold set_partial, bind, get_cache. by rewrite Hc. Qed.
Lemma set_full_eq s k c p :
  caches s !! k = Some c ->
  set_full k p s = Ret tt (set_caches (<[k := mkCache (c_partial c) p (c_obj_size c)]> (caches s)) s).
Proof. intros Hc. unfold set_full, bind, get_cache. by rewrite Hc. Qed.

Lemma rd_set_caches c s f i : rd_word (set_caches c s) f i = rd_word s f i.
Proof. done. Qed.

Lemma get_cache_eq s k c : caches s !! k = Some c -> get_cache k s = Ret c s.
Proof. intros Hc. unfold get_cache. by rewrite Hc. Qed.

(** One class changes, through one slab [f] of it: the others do not notice. *)
Lemma hrep_class s s' sm sm' P F k c' Pk Fk f :
  hrep s sm P F -> core_eq s s' -> nomagic mk s' -> (k < 9)%nat ->
  (forall i, i <> k -> caches s' !! i = caches s !! i) ->
  caches s' !! k = Some c' -> c_obj_size c' = osz k ->
  plist s' (c_partial c') Pk -> plist s' (c_full c') Fk -> NoDup Pk -> NoDup Fk ->
  (forall g, g <> f -> sm' !! g = sm !! g) ->
  (forall k' fl, sm !! f = Some (k', fl) -> k' = k) ->
  (forall k' fl, sm' !! f = Some (k', fl) -> k' = k /\ slab_ok s' f k fl) ->
  (forall g i, is_Some (sm !! g) -> g <> f -> 1 <= i -> rd_word s' g i = rd_word s g i) ->
  (forall g k' fl, sm !! g = Some (k', fl) -> k' <> k -> rd_word s' g 0 = rd_word s g 0) ->
  (forall g, g ∈ Pk <-> exists j fl, sm' !! g = Some (k, j :: fl)) ->
  (forall g, g ∈ Fk <-> sm' !! g = Some (k, [])) ->
  hrep s' sm' (upd k Pk P) (upd k Fk F).
Proof.
  intros [St Nm Sl Ca HP HF Nd] E Nm' Hk Hoc Hc' Hsz HPl HFl NdP NdF Hsm Hfk Hf' W W0 HPk HFk.
  assert (Hcls : forall k' g fl, k' <> k -> sm' !! g = Some (k', fl) <-> sm !! g = Some (k', fl)).
  { intros k' g fl Hne. destruct (decide (g = f)) as [->|Hg]; [|by rewrite Hsm].
    split; intros H; exfalso; [by apply Hf' in H as [? _]|by apply Hfk in H]. }
  pose proof E as (Em & _ & Eh & _). constructor.
  - by eapply static_core.
  - done.
  - intros g k' fl Hg. destruct (decide (g = f)) as [->|Hne].
    + by apply Hf' in Hg as [-> ?].
    + rewrite Hsm in Hg by done. eapply slab_ok_frame; [done| |by apply Sl]. intros i Hi.
      apply W; [by eexists|done|done].
  - intros i Hi. destruct (decide (i = k)) as [->|Hne].
    + exists c'. by rewrite !upd_eq.
    + rewrite !upd_ne, Hoc by done. destruct (Ca i Hi) as (c & Hc & Hs & H1 & H2).
      exists c. split_and!; [done|done| |]; (eapply plist_frame; [done|done| |done]).
      * intros g (j & fl & Hg)%HP. by eapply W0.
      * intros g Hg%HF. by eapply W0.
  - intros i g. destruct (decide (i = k)) as [->|Hne]; [by rewrite upd_eq|].
    rewrite upd_ne, HP by done. by setoid_rewrite Hcls.
  - intros i g. destruct (decide (i = k)) as [->|Hne]; [by rewrite upd_eq|].
    rewrite upd_ne, HF by done. by rewrite Hcls.
  - intros i. destruct (decide (i = k)) as [->|Hne]; [by rewrite !upd_eq|]. rewrite !upd_ne by done. apply Nd.
Qed.

(** ** Allocating *)

(** The slab an allocation is served from, at the head of its list. *)
Lemma cache_slab_wp s sm P F k l u :
  hrep s sm P F -> (k < 9)%nat -> pmm_rel s l u -> l <> [] ->
  (forall f, is_Some (sm !! f) -> is_Some (u !! f)) ->
  wp (cache_slab k) s (fun r s' => exists f Pt j fl l' u' sm' P' F',
    r = saddr s f /\ sm' !! f = Some (k, j :: fl) /\ P' k = f :: Pt /\
    hrep s' sm' P' F' /\ pmm_rel s' l' u' /\ core_eq s s' /\
    (forall g i, is_Some (u !! g) -> rd_word s' g i = rd_word s g i) /\
    ((sm' = sm /\ u' = u /\ l' = l) \/
     (sm' = <[f := (k, seqZ 0 (total k))]> sm /\ l = f :: l' /\ u !! f = None /\
      u' = <[f := mkU 1 0 false]> u))).
Proof.
  intros Hr Hk R Hl Hsu. pose proof Hr as [St Nm Sl Ca HP HF Nd].
  destruct (Ca k Hk) as (c & Hc & Hsz & Hpl & Hfl). unfold cache_slab.
  apply wp_bind. eapply wp_intro; [by apply get_cache_eq|].
  destruct (P k) as [|f Pt] eqn:EP.
  2:{ destruct Hpl as (Hp & Hfr & Hpl). rewrite Hp.
      rewrite (proj2 (Z.eqb_neq _ _)) by (apply saddr_nonzero; [done|lia]). apply wp_ret.
      destruct (proj1 (HP k f)) as (j & fl & Hf); [rewrite EP; left|].
      exists f, Pt, j, fl, l, u, sm, P, F. split_and!; try done. by left. }
  simpl in Hpl. rewrite Hpl, Z.eqb_refl, Hsz. destruct l as [|f l]; [done|].
  pose proof (free_in_range _ _ _ f R ltac:(left)) as Hfr.
  pose proof (free_not_used _ _ _ f R ltac:(left)) as Hfu.
  assert (Hfs : sm !! f = None).
  { apply eq_None_not_Some. intros H%Hsu. rewrite Hfu in H. by destruct H. }
  apply wp_bind. eapply wp_mono; [by eapply slab_create_wp|].
  intros ? s1 (-> & R1 & E1 & C1 & L1 & Nm1 & Ok1 & W1). pose proof E1 as (Em & _ & Eh & _).
  rewrite (proj2 (Z.eqb_neq _ _)) by (apply saddr_nonzero; [done|lia]).
  pose proof (static_core _ _ E1 St) as St1.
  apply wp_bind. eapply wp_intro; [apply (store_eq _ _ f 0); [done|unfold saddr; lia|lia|lia]|].
  set (s2 := put_word f 0 0 s1). assert (Hc2 : caches s2 !! k = Some c) by (unfold s2; simpl; by rewrite C1).
  apply wp_bind. eapply wp_intro; [by apply set_partial_eq|]. apply wp_ret.
  set (s3 := set_caches _ s2). set (c3 := mkCache (saddr s f) (c_full c) (c_obj_size c)) in *.
  destruct (osz_range k Hk) as (_ & Ht & _).
  assert (Hseq : seqZ 0 (total k) = 0 :: seqZ 1 (total k - 1)).
  { rewrite seqZ_cons by lia. done. }
  assert (Hlen : (k < length (caches s2))%nat) by (by eapply lookup_lt_Some).
  assert (Ok3 : slab_ok s3 f k (seqZ 0 (total k))).
  { eapply slab_ok_frame; [| |exact Ok1]; [done|]. intros i Hi. unfold s3. rewrite rd_set_caches.
    apply rd_put_ne. right. lia. }
  assert (Hw3 : forall g i, g <> f -> rd_word s3 g i = rd_word s g i).
  { intros g i Hg. unfold s3. rewrite rd_set_caches. unfold s2. rewrite rd_put_ne by (left; congruence). by apply W1. }
  assert (Hwu : forall g i, is_Some (u !! g) -> rd_word s3 g i = rd_word s g i).
  { intros g i Hg. apply Hw3. intros ->. rewrite Hfu in Hg. by destruct Hg. }
  exists f, [], 0, (seqZ 1 (total k - 1)), l, (<[f := mkU 1 0 false]> u),
    (<[f := (k, seqZ 0 (total k))]> sm), (upd k [f] P), (upd k (F k) F).
  split_and!; try done; [by rewrite lookup_insert_eq, Hseq|by rewrite upd_eq| | |by right].
  - eapply (hrep_class s s3 sm _ P F k c3 [f] (F k) f Hr); try done.
    + apply nomagic_put; [done|left; lia].
    + intros i Hi. unfold s3. rewrite put_cache_lookup, decide_False by done. simpl. by rewrite C1.
    + unfold s3. by rewrite put_cache_lookup, decide_True by done.
    + assert (Hh3 : hhdm s3 = hhdm s) by exact Eh. assert (Hm3 : max_pfn s3 = max_pfn s) by exact Em.
      cbn [plist]. change (c_partial c3) with (saddr s f). unfold saddr. rewrite Hh3, Hm3.
      split_and!; [done|lia|lia|]. unfold s3. rewrite rd_set_caches. apply rd_put_eq.
    + simpl. apply (plist_frame s); [done|done| |done]. intros g Hg%HF. apply Hw3. congruence.
    + apply NoDup_singleton.
    + apply Nd.
    + intros g Hg. by rewrite lookup_insert_ne.
    + intros k' fl. by rewrite Hfs.
    + intros k' fl. rewrite lookup_insert_eq. intros [= <- <-]. done.
    + intros g i Hg Hne _. by apply Hw3.
    + intros g k' fl Hg _. apply Hw3. congruence.
    + intros g. rewrite list_elem_of_singleton. split.
      * intros ->. rewrite lookup_insert_eq, Hseq. eauto.
      * intros (j & fl & Hg). destruct (decide (g = f)) as [|Hne]; [done|].
        rewrite lookup_insert_ne in Hg by done. assert (Hgp : g ∈ P k) by (apply HP; eauto).
        rewrite EP in Hgp. by apply elem_of_nil in Hgp.
    + intros g. rewrite HF. destruct (decide (g = f)) as [->|Hne]; [|by rewrite lookup_insert_ne].
      rewrite lookup_insert_eq, Hfs, Hseq. done.
  - eapply (ms_rel s1); [|done]. etrans; [apply memstep_put|apply memstep_caches].
Qed.

(** Taking the first free object of the first partial slab; a slab that becomes
    full moves to the other list. *)
Lemma alloc_head_wp s sm P F k f Pt j fl :
  hrep s sm P F -> (k < 9)%nat -> P k = f :: Pt -> sm !! f = Some (k, j :: fl) ->
  wp (let* o := slab_obj_alloc (saddr s f) in
      let* used := slab_used (saddr s f) in
      let* total := slab_total (saddr s f) in
      when (used =? total)
        (let* n := slab_next (saddr s f) in
         set_partial k n ;;;
         let* c := get_cache k in
         store (saddr s f) (c_full c) ;;;
         set_full k (saddr s f)) ;;;
      ret o) s
    (fun o s' => o = oaddr s k f j /\ (exists P' F', hrep s' (<[f := (k, fl)]> sm) P' F') /\
      memstep s s' /\ (forall g i, g <> f -> rd_word s' g i = rd_word s g i)).
Proof.
  intros Hr Hk EP Hf. pose proof Hr as [St Nm Sl Ca HP HF Nd].
  destruct (Ca k Hk) as (c & Hc & Hsz & Hpl & Hfl). rewrite EP in Hpl.
  destruct Hpl as (Hp & Hfr & Hpl). pose proof (proj1 (Nd k)) as NdP. rewrite EP in NdP.
  apply NoDup_cons in NdP as [HfPt NdPt].
  destruct (slab_obj_alloc_eq s f k j fl St Nm (Sl _ _ _ Hf)) as (s1 & Ho & M1 & C1 & Nm1 & Ok1 & W1).
  apply wp_bind. eapply wp_intro; [exact Ho|]. pose proof (memstep_static _ _ M1 St) as St1.
  pose proof (memstep_hhdm _ _ M1) as Eh1. pose proof (memstep_max _ _ M1) as Em1.
  assert (Hsa : saddr s f = saddr s1 f) by (unfold saddr; by rewrite Eh1). rewrite Hsa.
  destruct (used_eq s1 f k fl St1 Ok1) as [Hu Ht].
  apply wp_bind. eapply wp_intro; [exact Hu|]. apply wp_bind. eapply wp_intro; [exact Ht|].
  assert (HfF : f ∉ F k) by (rewrite HF; congruence).
  assert (Hsm : forall g, g <> f -> <[f := (k, fl)]> sm !! g = sm !! g) by (intros; by rewrite lookup_insert_ne).
  assert (HmP : forall g, g ∈ Pt <-> g <> f /\ exists j' fl', sm !! g = Some (k, j' :: fl')).
  { intros g. rewrite <- HP, EP, elem_of_cons. split; [|intros [? [?|?]]; done].
    intros Hg. split; [intros ->; done|by right]. }
  destruct fl as [|j' fl]; cbn [length].
  - rewrite (proj2 (Z.eqb_eq _ _)) by lia. cbn [when].
    assert (Hc1 : caches s1 !! k = Some c) by by rewrite C1.
    apply wp_bind, wp_bind. eapply wp_intro; [apply (load_eq _ f 0); [done|unfold saddr; lia|lia|lia]|].
    apply wp_bind. eapply wp_intro; [by apply set_partial_eq|].
    set (s2 := set_caches _ s1).
    assert (Hlen : (k < length (caches s1))%nat) by (by eapply lookup_lt_Some).
    assert (Hc2 : caches s2 !! k = Some (mkCache (rd_word s1 f 0) (c_full c) (c_obj_size c))).
    { unfold s2. by rewrite put_cache_lookup, decide_True by done. }
    apply wp_bind. eapply wp_intro; [by apply get_cache_eq|]. cbn [c_full].
    apply wp_bind. eapply wp_intro; [apply (store_eq _ _ f 0);
      [by apply (static_core s1)|unfold saddr; simpl; lia|simpl; lia|lia]|].
    set (s3 := put_word f 0 (c_full c) s2).
    eapply wp_intro; [by apply set_full_eq|]. apply wp_ret. set (s4 := set_caches _ s3).
    assert (M4 : memstep s s4).
    { etrans; [exact M1|]. etrans; [apply memstep_caches|]. etrans; [apply memstep_put|apply memstep_caches]. }
    assert (W4 : forall g i, g <> f -> rd_word s4 g i = rd_word s g i).
    { intros g i Hg. change (rd_word (put_word f 0 (c_full c) s1) g i = rd_word s g i).
      rewrite rd_put_ne by (left; congruence). apply W1. by left. }
    split_and!; try done. exists (upd k Pt P), (upd k (f :: F k) F).
    eapply (hrep_class s s4 sm _ P F k (mkCache (rd_word s1 f 0) (saddr s1 f) (c_obj_size c))
      Pt (f :: F k) f Hr); try done.
    + apply M4.
    + apply nomagic_put; [done|left; lia].
    + intros i Hi. simpl. rewrite !list_lookup_insert_ne by done. by rewrite C1.
    + simpl. rewrite list_lookup_insert_eq; [reflexivity|]. by rewrite length_insert.
    + cbn [c_partial]. rewrite (W1 f 0) by (right; lia). apply (plist_frame s); [by apply memstep_hhdm|by apply memstep_max| |done].
      intros g Hg. apply W4. by intros ->.
    + cbn [c_full plist]. unfold saddr. rewrite (memstep_max _ _ M4), (memstep_hhdm _ _ M4), Eh1.
      split_and!; [done|lia|lia|]. change (rd_word s4 f 0) with (rd_word s3 f 0). unfold s3. rewrite rd_put_eq.
      apply (plist_frame s); [by apply memstep_hhdm|by apply memstep_max| |done]. intros g Hg. apply W4. by intros ->.
    + constructor; [done|apply Nd].
    + intros k' fl. rewrite Hf. by intros [= <- <-].
    + intros k' fl. rewrite lookup_insert_eq. intros [= <- <-]. split; [done|].
      eapply slab_ok_frame; [apply (ms_core s1); etrans; [apply memstep_caches|]; etrans; [apply memstep_put|apply memstep_caches]| |exact Ok1].
      intros i Hi. change (rd_word (put_word f 0 (c_full c) s1) f i = rd_word s1 f i). apply rd_put_ne. right. lia.
    + intros g i _ Hg _. by apply W4.
    + intros g k' fl Hg Hne. apply W4. congruence.
    + intros g. rewrite HmP. destruct (decide (g = f)) as [->|Hne].
      * rewrite lookup_insert_eq. split; [intros [? _]; done|]. by intros (? & ? & ?).
      * rewrite Hsm by done. tauto.
    + intros g. rewrite elem_of_cons, HF. destruct (decide (g = f)) as [->|Hne].
      * rewrite lookup_insert_eq. tauto.
      * rewrite Hsm by done. tauto.
  - rewrite (proj2 (Z.eqb_neq _ _)) by lia. cbn [when]. apply wp_bind, wp_ret, wp_ret.
    split_and!; try done; [|intros g i Hg; apply W1; by left].
    exists (upd k (f :: Pt) P), (upd k (F k) F).
    assert (W0 : forall g, rd_word s1 g 0 = rd_word s g 0) by (intros g; apply W1; right; lia).
    eapply (hrep_class s s1 sm _ P F k c (f :: Pt) (F k) f Hr); try done.
    + apply M1.
    + intros i _. by rewrite C1.
    + by rewrite C1.
    + cbn [plist]. rewrite W0, Hp, Hsa, Em1. split_and!; [done|lia|lia|].
      by apply (plist_frame s).
    + by apply (plist_frame s).
    + by constructor.
    + apply Nd.
    + intros k' fl'. rewrite Hf. by intros [= <- <-].
    + intros k' fl'. rewrite lookup_insert_eq. by intros [= <- <-].
    + intros g i _ Hg _. apply W1. by left.
    + intros g. rewrite elem_of_cons, HmP. destruct (decide (g = f)) as [->|Hne].
      * rewrite lookup_insert_eq. split; [intros _; eauto|by left].
      * rewrite Hsm by done. tauto.
    + intros g. rewrite HF. destruct (decide (g = f)) as [->|Hne]; [|by rewrite Hsm].
      rewrite lookup_insert_eq, Hf. done.
Qed.

Lemma osz_values : osz 0 = 8 /\ osz 1 = 16 /\ osz 2 = 32 /\ osz 3 = 64 /\ osz 4 = 128 /\
  osz 5 = 256 /\ osz 6 = 512 /\ osz 7 = 1024 /\ osz 8 = 2048.
Proof. by split_and!. Qed.

Lemma cache_idx_fits n :
  0 < n <= 2048 -> (cache_idx n < 9)%nat /\ n <= osz (cache_idx n) /\
  forall k, (k < cache_idx n)%nat -> osz k < n.
Proof.
  intros Hn. destruct osz_values as (H0 & H1 & H2 & H3 & H4 & H5 & H6 & H7 & H8). open_cache_idx.
  destruct (n <? 8) eqn:E; bools; [simpl; split_and!; lia|].
  repeat (match goal with |- context [if ?a <? n then _ else _] => destruct (a <? n) eqn:? end; bools;
    [|cbn [fst snd]; rewrite (proj2 (Z.leb_le n _)) by lia; split_and!; [lia|lia|];
      intros k Hk; do 9 (destruct k as [|k]; [lia|]); lia]).
  cbn [fst snd]. rewrite (proj2 (Z.leb_le n _)) by lia. split_and!; [lia|lia|].
  intros k Hk. do 9 (destruct k as [|k]; [lia|]). lia.
Qed.

Lemma cache_idx_small n : 0 < n <= 2048 -> (cache_idx n < 9)%nat /\ n <= osz (cache_idx n).
Proof. intros Hn. destruct (cache_idx_fits n Hn) as (? & ? & _). done. Qed.

Lemma cache_idx_large n : 2048 < n -> cache_idx n = NUM_CACHES.
Proof.
  intros Hn. open_cache_idx. rewrite (proj2 (Z.ltb_ge n _)) by lia.
  repeat (rewrite (proj2 (Z.ltb_lt _ n)) by lia). cbn [fst snd]. by rewrite (proj2 (Z.leb_gt _ _)) by lia.
Qed.

(** Objects of different slabs or places have different addresses. *)
Lemma oaddr_inj s k f j k' f' j' :
  (k < 9)%nat -> (k' < 9)%nat -> 0 <= j < total k -> 0 <= j' < total k' ->
  oaddr s k f j = oaddr s k' f' j' -> f = f' /\ (k = k' -> j = j').
Proof.
  intros Hk Hk' Hj Hj' E. rewrite !oaddr_widx in E.
  pose proof (widx_range k j Hk Hj). pose proof (widx_range k' j' Hk' Hj').
  assert (f = f') as -> by lia. split; [done|]. intros <-. apply (widx_inj k); [done|lia].
Qed.

(** Writing into a live object changes nothing the heap looks at. *)
Lemma hrep_write s sm P F f k fl j t v :
  hrep s sm P F -> sm !! f = Some (k, fl) -> 0 <= j < total k -> j ∉ fl ->
  0 <= t < 2 ^ Z.of_nat k -> (mk = true -> v `mod` 2 ^ 32 <> LARGE_MAGIC) ->
  hrep (put_word f (widx k j + t) v s) sm P F.
Proof.
  intros [St Nm Sl Ca HP HF Nd] Hf Hj Hjf Ht Hv. pose proof (Sl _ _ _ Hf) as Ok.
  pose proof (sl_class _ _ _ _ Ok) as Hk. pose proof (widx_range k j Hk Hj) as Hw.
  constructor; try done.
  - by apply static_put.
  - apply nomagic_put; [done|by right].
  - intros g k' fl' Hg. destruct (decide (g = f)) as [->|Hne].
    + assert (k' = k /\ fl' = fl) as [-> ->] by (split; congruence).
      destruct Ok. constructor; try done; [rewrite rd_put_ne by lia; done..|].
      apply (fchain_frame s); [done| |done]. intros i Hi. apply rd_put_ne. right.
      intros E. symmetry in E. revert E. apply widx_apart; [done| |done]. intros ->. done.
    + eapply slab_ok_frame; [| |by apply Sl]; [done|]. intros i Hi. apply rd_put_ne. left. congruence.
  - intros i Hi. destruct (Ca i Hi) as (c & Hc & Hs & H1 & H2). exists c.
    split_and!; [done|done| |]; (apply (plist_frame s); [done|done| |done]); intros g Hg; apply rd_put_ne; right; lia.
Qed.

Lemma clr_low_quiet w r : 1 <= r < 8 -> clr w (2 ^ (8 * r) - 1) `mod` 2 ^ 32 <> LARGE_MAGIC.
Proof.
  intros Hr E. apply (f_equal (fun z => Z.testbit z 3)) in E.
  rewrite Z.mod_pow2_bits_low in E by lia. unfold clr in E.
  replace (2 ^ (8 * r) - 1) with (Z.ones (8 * r)) in E by (rewrite Z.ones_equiv; lia).
  rewrite Z.ldiff_spec, Z.ones_spec_low, andb_false_r in E by lia. discriminate E.
Qed.

Lemma zero_bytes_wp s sm P F f k fl j n :
  hrep s sm P F -> sm !! f = Some (k, fl) -> 0 <= j < total k -> j ∉ fl -> 0 < n <= osz k ->
  wp (zero_bytes (oaddr s k f j) n) s (fun _ s' => hrep s' sm P F /\ memstep s s' /\
    (forall g i, g <> f -> rd_word s' g i = rd_word s g i) /\
    (forall t, 0 <= t < n / 8 -> rd_word s' f (widx k j + t) = 0)).
Proof.
  intros Hr Hf Hj Hjf Hn. set (a := oaddr s k f j).
  pose proof (hr_slab _ _ _ _ Hr _ _ _ Hf) as Ok. pose proof (sl_class _ _ _ _ Ok) as Hk.
  pose proof (sl_frame _ _ _ _ Ok) as Hfr. destruct (osz_range k Hk) as (_ & _ & Hto).
  assert (Hpow : osz k = 8 * 2 ^ Z.of_nat k) by done.
  assert (Hst : forall s' t v, hrep s' sm P F -> memstep s s' -> 0 <= t < 2 ^ Z.of_nat k ->
    store (a + t * 8) v s' = Ret tt (put_word f (widx k j + t) v s') /\
    load (a + t * 8) s' = Ret (rd_word s' f (widx k j + t)) s').
  { intros s' t v Hr' M Ht. pose proof (memstep_hhdm _ _ M) as Eh. pose proof (memstep_max _ _ M) as Em.
    assert (Hb : 4 <= widx k j + t < 512) by (unfold widx, osz in *; nia).
    split; [apply store_eq|apply load_eq]; try apply Hr'; try lia; subst a; rewrite oaddr_widx; lia. }
  unfold zero_bytes. apply wp_bind.
  eapply wp_mono; [apply (wp_mfor (fun m s' => hrep s' sm P F /\ memstep s s' /\
    (forall g i, g <> f -> rd_word s' g i = rd_word s g i) /\
    (forall t, 0 <= t < m -> rd_word s' f (widx k j + t) = 0)))|].
  - split_and!; try done. intros t Ht. lia.
  - intros t s1 Ht (H1 & M1 & W1 & Z1). assert (Ht' : 0 <= t < 2 ^ Z.of_nat k) by zdiv.
    eapply wp_intro; [by apply Hst|]. split_and!.
    + by eapply hrep_write.
    + etrans; [exact M1|apply memstep_put].
    + intros g i Hg. rewrite rd_put_ne by (left; congruence). by apply W1.
    + intros t' Ht''. rewrite rd_put. case_decide; [done|]. apply Z1. lia.
  - intros ? s1 (H1 & M1 & W1 & Z1). rewrite Z.add_0_l, Z2Nat.id in Z1 by zdiv.
    destruct (n `mod` 8 =? 0) eqn:E; cbn [negb when]; [by apply wp_ret|]. bools.
    assert (Ht' : 0 <= n / 8 < 2 ^ Z.of_nat k) by zdiv.
    apply wp_bind. eapply wp_intro; [by apply (Hst _ _ 0)|]. eapply wp_intro; [by apply Hst|]. split_and!.
    + eapply hrep_write; try done. intros _. apply clr_low_quiet. zdiv.
    + etrans; [exact M1|apply memstep_put].
    + intros g i Hg. rewrite rd_put_ne by (left; congruence). by apply W1.
    + intros t' Ht''. rewrite rd_put_ne by (right; lia). by apply Z1.
Qed.

(** ** Freeing *)

Lemma obj_to_slab_eq s k f j :
  static s -> (k < 9)%nat -> 0 <= f -> 0 <= j < total k -> obj_to_slab (oaddr s k f j) = saddr s f.
Proof.
  intros St Hk Hf Hj. destruct St. pose proof (widx_range k j Hk Hj).
  unfold obj_to_slab, clr, PAGE_SIZE. change (4096 - 1) with (Z.ones 12).
  rewrite Z.ldiff_ones_r, Z.shiftl_mul_pow2, Z.shiftr_div_pow2 by lia. change (2 ^ 12) with 4096.
  rewrite oaddr_widx. unfold saddr. zdiv.
Qed.

(** A slab of [sm] that got a free object back. *)
Definition freed (sm : slabs) (f : Z) (k : nat) (j : Z) (fl : list Z) : slabs :=
  <[f := (k, j :: fl)]> sm.

Lemma freed_ne sm f k j fl g : g <> f -> freed sm f k j fl !! g = sm !! g.
Proof. intros. unfold freed. by rewrite lookup_insert_ne. Qed.

(** Giving the object back: a slab that was full moves to the partial list. *)
Lemma free_mark_wp s sm P F k f j fl :
  hrep s sm P F -> sm !! f = Some (k, fl) -> 0 <= j < total k -> j ∉ fl ->
  wp (let* used := slab_used (saddr s f) in
      let* total := slab_total (saddr s f) in
      slab_obj_free (saddr s f) (oaddr s k f j) ;;;
      when (used =? total)
        (let* c := get_cache k in
         let* h := slab_unlink (c_full c) (saddr s f) in
         set_full k h ;;;
         store (saddr s f) (c_partial c) ;;;
         set_partial k (saddr s f))) s
    (fun _ s' => (exists P' F', hrep s' (freed sm f k j fl) P' F') /\ memstep s s' /\
      (forall g i, sm !! g = None -> rd_word s' g i = rd_word s g i)).
Proof.
  intros Hr Hf Hj Hjf. pose proof Hr as [St Nm Sl Ca HP HF Nd]. pose proof (Sl _ _ _ Hf) as Ok.
  pose proof (sl_class _ _ _ _ Ok) as Hk. pose proof (sl_frame _ _ _ _ Ok) as Hfr.
  destruct (Ca k Hk) as (c & Hc & Hsz & Hpl & Hfl).
  destruct (used_eq s f k fl St Ok) as [Hu Ht].
  apply wp_bind. eapply wp_intro; [exact Hu|]. apply wp_bind. eapply wp_intro; [exact Ht|].
  destruct (slab_obj_free_eq s f k j fl St Nm Ok Hj Hjf) as (s1 & Hs1 & M1 & C1 & Nm1 & Ok1 & W1).
  apply wp_bind. eapply wp_intro; [exact Hs1|]. pose proof (memstep_static _ _ M1 St) as St1.
  pose proof (memstep_hhdm _ _ M1) as Eh1. pose proof (memstep_max _ _ M1) as Em1.
  assert (Hsa : saddr s f = saddr s1 f) by (unfold saddr; by rewrite Eh1).
  assert (Hc1 : caches s1 !! k = Some c) by by rewrite C1.
  assert (Hfree_f : forall k' fl', freed sm f k j fl !! f = Some (k', fl') -> k' = k /\ fl' = j :: fl).
  { intros k' fl'. unfold freed. rewrite lookup_insert_eq. by intros [= <- <-]. }
  assert (Hold : forall k' fl', sm !! f = Some (k', fl') -> k' = k) by (intros; congruence).
  destruct fl as [|j' fl].
  - rewrite (proj2 (Z.eqb_eq _ _)) by (simpl; lia). cbn [when].
    apply wp_bind. eapply wp_intro; [by apply get_cache_eq|].
    assert (HfF : f ∈ F k) by by apply HF.
    apply list_elem_of_split in HfF as (F1 & F2 & EF).
    pose proof (proj2 (Nd k)) as NdF. rewrite EF in NdF, Hfl.
    assert (Hfl1 : plist s1 (c_full c) (F1 ++ f :: F2)).
    { apply (plist_frame s); [done|done| |done]. intros g _. apply W1. by right. }
    destruct (slab_unlink_eq s1 (c_full c) f F1 F2 St1 Nm1 Hfl1 NdF)
      as (h & s2 & Hs2 & (M2 & C2 & Nm2 & W2) & Hpl2).
    rewrite Hsa. apply wp_bind. eapply wp_intro; [exact Hs2|].
    pose proof (memstep_static _ _ M2 St1) as St2. pose proof (memstep_hhdm _ _ M2) as Eh2.
    pose proof (memstep_max _ _ M2) as Em2. assert (Hc2 : caches s2 !! k = Some c) by by rewrite C2.
    apply wp_bind. eapply wp_intro; [by apply set_full_eq|]. set (s3 := set_caches _ s2).
    assert (Hlen : (k < length (caches s2))%nat) by (by eapply lookup_lt_Some).
    assert (Hc3 : caches s3 !! k = Some (mkCache (c_partial c) h (c_obj_size c))).
    { unfold s3. by rewrite put_cache_lookup, decide_True by done. }
    apply wp_bind. eapply wp_intro; [apply (store_eq _ _ f 0);
      [by apply (static_core s2)|unfold saddr; simpl; rewrite Eh2; lia|simpl; lia|lia]|].
    set (s4 := put_word f 0 (c_partial c) s3).
    eapply wp_intro; [by apply set_partial_eq|]. set (s5 := set_caches _ s4).
    assert (M5 : memstep s s5).
    { etrans; [exact M1|]. etrans; [exact M2|]. etrans; [apply memstep_caches|].
      etrans; [apply memstep_put|apply memstep_caches]. }
    assert (W5 : forall g i, g <> f -> (i <> 0 \/ g ∉ F1) -> rd_word s5 g i = rd_word s g i).
    { intros g i Hg Hi. change (rd_word (put_word f 0 (c_partial c) s2) g i = rd_word s g i).
      rewrite rd_put_ne by (left; congruence). rewrite W2 by (destruct Hi; [by left|by right]).
      apply W1. by left. }
    assert (HF12 : forall g, g ∈ F1 ++ F2 <-> g <> f /\ sm !! g = Some (k, [])).
    { intros g. rewrite <- HF, EF, !elem_of_app, elem_of_cons. rewrite NoDup_app in NdF.
      destruct NdF as (_ & Hd & Hn2). apply NoDup_cons in Hn2 as [Hn2 _].
      split; [|tauto]. intros Hg. split; [|tauto]. intros ->. destruct Hg as [Hg|Hg]; [|done].
      apply (Hd _ Hg). left. }
    assert (HfP : f ∉ P k).
    { rewrite HP. intros (? & ? & ?). congruence. }
    split_and!; [|done|intros g i Hg; apply W5; [congruence|right]; intros Hi;
      assert (Hi' : g ∈ F1 ++ F2) by (apply elem_of_app; by left); apply HF12 in Hi'; destruct Hi'; congruence].
    exists (upd k (f :: P k) P), (upd k (F1 ++ F2) F).
    eapply (hrep_class s s5 sm _ P F k (mkCache (saddr s1 f) h (c_obj_size c)) (f :: P k) (F1 ++ F2) f Hr); try done.
    + apply M5.
    + apply nomagic_put; [done|left; lia].
    + intros i Hi. simpl. rewrite !list_lookup_insert_ne by done. by rewrite C2, C1.
    + simpl. rewrite list_lookup_insert_eq; [reflexivity|]. by rewrite length_insert.
    + cbn [c_partial plist]. unfold saddr. rewrite (memstep_max _ _ M5), (memstep_hhdm _ _ M5), Eh1.
      split_and!; [done|lia|lia|]. change (rd_word s5 f 0) with (rd_word s4 f 0). unfold s4. rewrite rd_put_eq.
      apply (plist_frame s); [by apply memstep_hhdm|by apply memstep_max| |done]. intros g Hg. apply W5; [by intros ->|right].
      intros Hi. assert (Hi' : g ∈ F1 ++ F2) by (apply elem_of_app; by left). apply HF12 in Hi' as [_ Hi'].
      apply HP in Hg as (? & ? & ?). congruence.
    + cbn [c_full]. apply (plist_frame s2); [done|done| |done]. intros g [Hg _]%HF12.
      change (rd_word (put_word f 0 (c_partial c) s2) g 0 = rd_word s2 g 0). apply rd_put_ne. left. congruence.
    + constructor; [done|apply Nd].
    + rewrite NoDup_app in *. destruct NdF as (Ha & Hb & Hc'). apply NoDup_cons in Hc' as [_ Hc'].
      split_and!; [done| |done]. intros g Hg Hg2. apply (Hb _ Hg). by right.
    + intros g. by apply freed_ne.
    + intros k' fl' [-> ->]%Hfree_f. split; [done|].
      eapply slab_ok_frame; [| |exact Ok1].
      * apply (ms_core s1). etrans; [exact M2|]. etrans; [apply memstep_caches|].
        etrans; [apply memstep_put|apply memstep_caches].
      * intros i Hi. change (rd_word (put_word f 0 (c_partial c) s2) f i = rd_word s1 f i).
        rewrite rd_put_ne by (right; lia). apply W2. left. lia.
    + intros g i _ Hg Hi. apply W5; [done|left; lia].
    + intros g k' fl' Hg Hne. apply W5; [congruence|right]. intros Hi.
      assert (Hi' : g ∈ F1 ++ F2) by (apply elem_of_app; by left). apply HF12 in Hi' as [_ Hi']. congruence.
    + intros g. rewrite elem_of_cons, HP. destruct (decide (g = f)) as [->|Hne].
      * unfold freed. rewrite lookup_insert_eq. split; [eauto|by left].
      * rewrite freed_ne by done. tauto.
    + intros g. rewrite HF12. destruct (decide (g = f)) as [->|Hne].
      * unfold freed. rewrite lookup_insert_eq. split; [intros [? _]; done|done].
      * rewrite freed_ne by done. tauto.
  - rewrite (proj2 (Z.eqb_neq _ _)) by (cbn [length]; lia). cbn [when]. apply wp_ret.
    assert (W0 : forall g, rd_word s1 g 0 = rd_word s g 0) by (intros g; apply W1; by right).
    split_and!; [|done|intros g i Hg; apply W1; left; congruence].
    exists (upd k (P k) P), (upd k (F k) F).
    eapply (hrep_class s s1 sm _ P F k c (P k) (F k) f Hr); try done.
    + apply M1.
    + intros i _. by rewrite C1.
    + by apply (plist_frame s).
    + by apply (plist_frame s).
    + apply Nd.
    + apply Nd.
    + intros g. by apply freed_ne.
    + intros k' fl' [-> ->]%Hfree_f. done.
    + intros g i _ Hg _. apply W1. by left.
    + intros g. rewrite HP. destruct (decide (g = f)) as [->|Hne]; [|by rewrite freed_ne].
      unfold freed. rewrite lookup_insert_eq, Hf. split; eauto.
    + intros g. rewrite HF. destruct (decide (g = f)) as [->|Hne]; [|by rewrite freed_ne].
      unfold freed. rewrite lookup_insert_eq, Hf. done.
Qed.

(** An empty slab goes back to the frame allocator. *)
Lemma free_release_wp s sm P F k f fl l u :
  hrep s sm P F -> sm !! f = Some (k, fl) -> pmm_rel s l u -> u !! f = Some (mkU 1 0 false) ->
  wp (let* used' := slab_used (saddr s f) in
      when (used' =? 0)
        (let* c := get_cache k in
         let* p := slab_unlink (c_partial c) (saddr s f) in
         set_partial k p ;;;
         let* page := gets (fun st => pfndb_phys_to_page st (VIRT_TO_PHYS st (saddr s f))) in
         page_unref page)) s
    (fun _ s' => exists l' u' sm', (exists P' F', hrep s' sm' P' F') /\ pmm_rel s' l' u' /\
      core_eq s s' /\ next_large_base s' = next_large_base s /\
      (forall g i, sm !! g = None -> rd_word s' g i = rd_word s g i) /\
      ((sm' = sm /\ l' = l /\ u' = u) \/
       (Z.of_nat (length fl) = total k /\ sm' = delete f sm /\ l' = f :: l /\ u' = delete f u))).
Proof.
  intros Hr Hf R Huf. pose proof Hr as [St Nm Sl Ca HP HF Nd]. pose proof (Sl _ _ _ Hf) as Ok.
  pose proof (sl_class _ _ _ _ Ok) as Hk. pose proof (sl_frame _ _ _ _ Ok) as Hfr.
  destruct (osz_range k Hk) as (_ & Ht & _). destruct (Ca k Hk) as (c & Hc & Hsz & Hpl & Hfl).
  destruct (used_eq s f k fl St Ok) as [Hu _]. apply wp_bind. eapply wp_intro; [exact Hu|].
  destruct (_ =? 0) eqn:E0; cbn [when]; bools.
  2:{ apply wp_ret. exists l, u, sm. split_and!; try done; [by exists P, F|by left]. }
  destruct fl as [|j fl]; [simpl in E0; lia|].
  assert (HfP : f ∈ P k) by (apply HP; eauto).
  apply list_elem_of_split in HfP as (P1 & P2 & EP).
  pose proof (proj1 (Nd k)) as NdP. rewrite EP in NdP, Hpl.
  apply wp_bind. eapply wp_intro; [by apply get_cache_eq|].
  destruct (slab_unlink_eq s (c_partial c) f P1 P2 St Nm Hpl NdP)
    as (h & s1 & Hs1 & (M1 & C1 & Nm1 & W1) & Hpl1).
  apply wp_bind. eapply wp_intro; [exact Hs1|].
  assert (Hc1 : caches s1 !! k = Some c) by by rewrite C1.
  apply wp_bind. eapply wp_intro; [by apply set_partial_eq|]. set (s2 := set_caches _ s1).
  assert (M2 : memstep s s2) by (etrans; [exact M1|apply memstep_caches]).
  pose proof (memstep_hhdm _ _ M2) as Eh2. pose proof (memstep_max _ _ M2) as Em2.
  pose proof (ms_rel _ _ M2 _ _ R) as R2.
  assert (Hlen : (k < length (caches s1))%nat) by (by eapply lookup_lt_Some).
  apply wp_bind, wp_gets.
  assert (Hpg : pfndb_phys_to_page s2 (VIRT_TO_PHYS s2 (saddr s f)) = Some f).
  { unfold VIRT_TO_PHYS, saddr. rewrite Eh2. replace (hhdm s + f * 4096 - hhdm s) with (f * 4096 + 0) by lia.
    destruct St. rewrite u64_small by lia. apply phys_to_page_ok; lia. }
  rewrite Hpg. eapply wp_mono; [by eapply page_unref_last|].
  intros ? s3 (R3 & Hfr3 & He3). pose proof (env_core_eq _ _ He3) as E3.
  assert (E03 : core_eq s s3) by (etrans; [apply M2|exact E3]).
  assert (W3 : forall g i, g <> f -> (i <> 0 \/ g ∉ P1) -> rd_word s3 g i = rd_word s g i).
  { intros g i Hg Hi. rewrite (rd_frames_ne _ _ _ _ _ Hfr3) by done.
    change (rd_word s1 g i = rd_word s g i). apply W1. destruct Hi; [by left|by right]. }
  assert (HP12 : forall g, g ∈ P1 ++ P2 <-> g <> f /\ exists j' fl', sm !! g = Some (k, j' :: fl')).
  { intros g. rewrite <- HP, EP, !elem_of_app, elem_of_cons. rewrite NoDup_app in NdP.
    destruct NdP as (_ & Hd & Hn2). apply NoDup_cons in Hn2 as [Hn2 _].
    split; [|tauto]. intros Hg. split; [|tauto]. intros ->. destruct Hg as [Hg|Hg]; [|done].
    apply (Hd _ Hg). left. }
  assert (HP1 : forall g, g ∈ P1 -> exists j' fl', sm !! g = Some (k, j' :: fl')).
  { intros g Hg. apply (HP12 g), elem_of_app. by left. }
  exists (f :: l), (delete f u), (delete f sm). split_and!; try done.
  - exists (upd k (P1 ++ P2) P), (upd k (F k) F).
    eapply (hrep_class s s3 sm _ P F k (mkCache h (c_full c) (c_obj_size c)) (P1 ++ P2) (F k) f Hr); try done.
    + intros Hq. destruct (Nm Hq) as [N1 N2]. pose proof E03 as (Emx & _ & Ehh & _).
      rewrite Emx, Ehh. split; [done|]. intros g i Hi. destruct (decide (g = f)) as [->|Hg].
      * rewrite (rd_frames_zero _ _ _ _ Hfr3). done.
      * rewrite W3 by (try done; left; lia). by apply N2.
    + intros i Hi. destruct He3 as (_ & _ & _ & _ & _ & _ & -> & _). simpl.
      rewrite list_lookup_insert_ne by done. by rewrite C1.
    + destruct He3 as (_ & _ & _ & _ & _ & _ & -> & _). simpl. by rewrite list_lookup_insert_eq.
    + cbn [c_partial]. apply (plist_frame s1); [by apply E3|by apply E3| |done].
      intros g [Hg _]%HP12. rewrite (rd_frames_ne _ _ _ _ _ Hfr3) by done. done.
    + cbn [c_full]. apply (plist_frame s); [by apply E03|by apply E03| |done].
      intros g Hg%HF. apply W3; [congruence|right]. intros (? & ? & ?)%HP1. congruence.
    + rewrite NoDup_app in *. destruct NdP as (Ha & Hb & Hc'). apply NoDup_cons in Hc' as [_ Hc'].
      split_and!; [done| |done]. intros g Hg Hg2. apply (Hb _ Hg). by right.
    + apply Nd.
    + intros g Hg. by rewrite lookup_delete_ne.
    + intros k' fl'. rewrite Hf. by intros [= <- <-].
    + intros k' fl'. by rewrite lookup_delete_eq.
    + intros g i _ Hg Hi. apply W3; [done|left; lia].
    + intros g k' fl' Hg Hne. apply W3; [congruence|right]. intros (? & ? & ?)%HP1. congruence.
    + intros g. rewrite HP12. destruct (decide (g = f)) as [->|Hne].
      * rewrite lookup_delete_eq. split; [intros [? _]; done|by intros (? & ? & ?)].
      * rewrite lookup_delete_ne by done. tauto.
    + intros g. rewrite HF. destruct (decide (g = f)) as [->|Hne]; [|by rewrite lookup_delete_ne].
      rewrite lookup_delete_eq, Hf. done.
  - destruct He3 as (_ & _ & _ & _ & _ & _ & _ & ->). apply M2.
  - intros g i Hg. apply W3; [congruence|right]. intros (? & ? & ?)%HP1. congruence.
  - right. split_and!; [lia|done|done|done].
Qed.

(** ** The interface *)

Lemma live_core s s' sm a : hhdm s' = hhdm s -> live s sm a -> live s' sm a.
Proof.
  intros E (f & k & fl & j & H1 & -> & H3). exists f, k, fl, j. split_and!; try done; try tauto.
  unfold oaddr, saddr. by rewrite E.
Qed.

(** What [cache_alloc] hands out. *)
Lemma cache_alloc_wp s sm P F k l u :
  hrep s sm P F -> (k < 9)%nat -> pmm_rel s l u -> l <> [] -> heap_used (dom sm) u ->
  wp (cache_alloc k) s (fun o s' => exists f j fl l' u' sm' P' F',
    o = oaddr s k f j /\ 0 <= j < total k /\ j ∉ fl /\
    hrep s' (<[f := (k, fl)]> sm') P' F' /\ sm' !! f = Some (k, j :: fl) /\
    pmm_rel s' l' u' /\ core_eq s s' /\
    (forall g i, is_Some (u !! g) -> sm !! g = None -> rd_word s' g i = rd_word s g i) /\
    ((sm' = sm /\ u' = u /\ l' = l) \/
     (sm' = <[f := (k, seqZ 0 (total k))]> sm /\ l = f :: l' /\ u !! f = None /\
      u' = <[f := mkU 1 0 false]> u))).
Proof.
  intros Hr Hk R Hl Hu. unfold cache_alloc. apply wp_bind. eapply wp_mono.
  { eapply cache_slab_wp; [exact Hr|done|done|done|]. intros f Hf. rewrite Hu; [eauto|]. by apply elem_of_dom. }
  intros ? s1 (f & Pt & j & fl & l1 & u1 & sm1 & P1 & F1 & -> & Hf & HP1 & Hr1 & R1 & E1 & W1 & Hcase).
  pose proof (hr_slab _ _ _ _ Hr1 _ _ _ Hf) as Ok. pose proof (sl_frame _ _ _ _ Ok) as Hfr.
  pose proof E1 as (_ & _ & Eh & _).
  rewrite (proj2 (Z.eqb_neq _ _)) by (apply saddr_nonzero; [apply Hr|lia]).
  replace (saddr s f) with (saddr s1 f) by (unfold saddr; by rewrite Eh).
  eapply wp_mono; [by eapply alloc_head_wp|]. intros o s2 (-> & (P2 & F2 & Hr2) & M2 & W2).
  exists f, j, fl, l1, u1, sm1, P2, F2.
  destruct Ok as [_ _ _ _ _ _ Nd Rg]. inversion Nd; subst. inversion Rg; subst.
  split_and!; try done; try lia.
  - unfold oaddr, saddr. by rewrite Eh.
  - by apply M2.
  - etrans; [exact E1|apply M2].
  - intros g i Hg Hs. rewrite W2; [by apply W1|]. intros ->.
    destruct Hcase as [(-> & _)|(-> & _ & Hn & _)]; [congruence|]. rewrite Hn in Hg. by destruct Hg.
Qed.

Lemma live_alloc s s' sm sm' f k j fl a :
  hhdm s' = hhdm s -> sm' !! f = Some (k, j :: fl) ->
  (sm' = sm \/ (sm !! f = None /\ sm' = <[f := (k, j :: fl)]> sm)) ->
  live s sm a -> live s' (<[f := (k, fl)]> sm') a.
Proof.
  intros E Hf Hc (g & k' & fl' & i & H1 & -> & H3 & H4).
  assert (H1' : sm' !! g = Some (k', fl')).
  { destruct Hc as [->|[Hn ->]]; [done|]. rewrite lookup_insert_ne; [done|]. congruence. }
  destruct (decide (g = f)) as [->|Hne].
  - rewrite Hf in H1'. injection H1' as <- <-. exists f, k, fl, i. rewrite lookup_insert_eq.
    split_and!; try done; try lia; [unfold oaddr, saddr; by rewrite E|]. intros Hi. apply H4. by right.
  - exists g, k', fl', i. rewrite lookup_insert_ne by done. split_and!; try done; try lia.
    unfold oaddr, saddr. by rewrite E.
Qed.

(** An object on a free list, or in a frame the heap does not own, is not live. *)
Lemma not_live s sm f k j fl :
  (forall g k' fl', sm !! g = Some (k', fl') -> (k' < 9)%nat) ->
  (k < 9)%nat -> 0 <= j < total k -> j ∈ fl -> sm !! f = Some (k, fl) \/ sm !! f = None ->
  ~ live s sm (oaddr s k f j).
Proof.
  intros Hcl Hk Hj Hjf Hf (g & k' & fl' & i & H1 & H2 & H3 & H4).
  pose proof (Hcl _ _ _ H1) as Hk'.
  destruct (oaddr_inj _ _ _ _ _ _ _ Hk Hk' Hj H3 H2) as [-> Hkk].
  destruct Hf as [Hf|Hf]; [|congruence]. rewrite Hf in H1. injection H1 as <- <-.
  by rewrite Hkk in Hjf.
Qed.

(** The objects of a client and their extent: [e] bytes from [a]. *)
Definition extent (s : mm) (sm : slabs) (a e : Z) : Prop :=
  exists f k fl j, sm !! f = Some (k, fl) /\ a = oaddr s k f j /\ 0 <= j < total k /\ j ∉ fl /\ e = osz k.

Lemma extent_apart s sm f k j fl b e :
  (forall g k' fl', sm !! g = Some (k', fl') -> (k' < 9)%nat) -> sm !! f = Some (k, fl) ->
  0 <= j < total k -> j ∈ fl -> extent s sm b e ->
  oaddr s k f j + osz k <= b \/ b + e <= oaddr s k f j.
Proof.
  intros Hcl Hf Hj Hjf (g & k' & fl' & i & H1 & -> & H3 & H4 & ->).
  pose proof (Hcl _ _ _ Hf) as Hk. pose proof (Hcl _ _ _ H1) as Hk'.
  destruct (osz_range k Hk) as (? & ? & Ht). destruct (osz_range k' Hk') as (? & ? & Ht').
  unfold oaddr, saddr. destruct (decide (g = f)) as [->|Hne]; [|nia].
  rewrite Hf in H1. injection H1 as <- <-. assert (i <> j) by (intros ->; done). nia.
Qed.

(** An allocation as a step of the heap: at most the frame [f] is new. *)
Lemma alloc_heap_step s s' l l' u u' h f :
  heap_used h u -> pmm_rel s' l' u' -> core_eq s s' ->
  (forall g i, g ∉ h -> is_Some (u !! g) -> g <> f -> rd_word s' g i = rd_word s g i) ->
  (f ∈ h /\ u' = u /\ l' = l) \/ (l = f :: l' /\ u !! f = None /\ u' = <[f := mkU 1 0 false]> u) ->
  heap_step 1 s l u h s' l' u' ({[f]} ∪ h).
Proof.
  intros Hu R E W Hc.
  assert (Hnf : forall g, g ∉ h -> is_Some (u !! g) -> g <> f).
  { intros g Hg Hs ->. destruct Hc as [[? _]|(_ & Hn & _)]; [done|]. rewrite Hn in Hs. by destruct Hs. }
  constructor; try done.
  - intros g [->%elem_of_singleton|Hg]%elem_of_union.
    + destruct Hc as [(Hf & -> & _)|(_ & _ & ->)]; [by apply Hu|apply lookup_insert_eq].
    + destruct Hc as [(_ & -> & _)|(_ & Hn & ->)]; [by apply Hu|].
      rewrite lookup_insert_ne; [by apply Hu|]. intros <-. rewrite (Hu _ Hg) in Hn. done.
  - intros g Hg Hg'. destruct Hc as [(_ & -> & _)|(_ & _ & ->)]; [done|].
    rewrite lookup_insert_ne; [done|]. intros <-. apply Hg', elem_of_union. left. by apply elem_of_singleton.
  - intros g [->%elem_of_singleton|Hg]%elem_of_union; [|by left].
    destruct Hc as [(Hf & _)|(_ & Hn & _)]; [by left|by right].
  - intros g Hg Hg'. destruct Hg'. apply elem_of_union. by right.
  - intros g i Hg Hs. apply W; [done|done|by apply Hnf].
  - destruct Hc as [(_ & _ & ->)|(-> & _)]; simpl; lia.
Qed.

Lemma kzalloc_full n s l u sm P F A :
  0 < n <= 2048 -> hrep s sm P F -> NoDup A -> Forall (live s sm) A ->
  heap_used (dom sm) u -> pmm_rel s l u -> l <> [] ->
  wp (kzalloc n) s (fun a s' => a <> 0 /\ exists l' u' sm' P' F',
    heap_step 1 s l u (dom sm) s' l' u' (dom sm') /\
    hrep s' sm' P' F' /\ NoDup (a :: A) /\ Forall (live s' sm') (a :: A) /\
    (forall b e, extent s sm b e -> a + n <= b \/ b + e <= a) /\
    (forall t, 0 <= t < n / 8 -> load (a + t * 8) s' = Ret 0 s') /\ a `mod` 8 = 0 /\
    (exists e, n <= e /\ extent s' sm' a e)).
Proof.
  intros Hn Hr Nd HA Hu R Hl. destruct (cache_idx_small n Hn) as [Hk Hfit].
  set (k := cache_idx n) in *. unfold kzalloc, kmalloc. rewrite (proj2 (Z.eqb_neq _ _)) by lia.
  fold k. rewrite (proj2 (Nat.ltb_lt k NUM_CACHES)) by (unfold NUM_CACHES; lia).
  apply wp_bind. eapply wp_mono; [by eapply cache_alloc_wp|].
  intros ? s1 (f & j & fl & l1 & u1 & sm1 & P1 & F1 & -> & Hj & Hjf & Hr1 & Hf & R1 & E1 & W1 & Hc).
  pose proof E1 as (_ & _ & Eh & _). set (sm2 := <[f := (k, fl)]> sm1) in *.
  assert (Hf2 : sm2 !! f = Some (k, fl)) by apply lookup_insert_eq.
  pose proof (sl_frame _ _ _ _ (hr_slab _ _ _ _ Hr1 _ _ _ Hf2)) as Hfr.
  assert (Hnz : oaddr s k f j <> 0).
  { pose proof (hr_static _ _ _ _ Hr) as []. destruct (osz_range k Hk). unfold oaddr, saddr. nia. }
  rewrite (proj2 (Z.eqb_neq _ _)) by done. cbn [negb when].
  replace (oaddr s k f j) with (oaddr s1 k f j) by (unfold oaddr, saddr; by rewrite Eh).
  apply wp_bind. eapply wp_mono; [by eapply zero_bytes_wp; try done; lia|].
  intros ? s2 (Hr2 & M2 & W2 & Z2). apply wp_ret.
  replace (oaddr s1 k f j) with (oaddr s k f j) by (unfold oaddr, saddr; by rewrite Eh).
  split; [done|]. assert (Eh2 : hhdm s2 = hhdm s) by (by rewrite (memstep_hhdm _ _ M2)).
  assert (Hcl : forall g k' fl', sm1 !! g = Some (k', fl') -> (k' < 9)%nat).
  { intros g k' fl' Hg. destruct (decide (g = f)) as [->|Hne]; [congruence|].
    eapply sl_class, (hr_slab _ _ _ _ Hr1). subst sm2. by rewrite lookup_insert_ne. }
  assert (Hjin : j ∈ j :: fl) by left.
  assert (Hcl0 : forall g k' fl', sm !! g = Some (k', fl') -> (k' < 9)%nat).
  { intros g k' fl' Hg. by eapply sl_class, (hr_slab _ _ _ _ Hr). }
  assert (Hsm : sm1 = sm \/ (sm !! f = None /\ sm1 = <[f := (k, j :: fl)]> sm)).
  { destruct Hc as [(-> & _)|(-> & _ & Hn' & _)]; [by left|right]. split.
    - apply eq_None_not_Some. intros Hs. apply elem_of_dom in Hs. rewrite (Hu _ Hs) in Hn'. done.
    - rewrite lookup_insert_eq in Hf. injection Hf as ->. done. }
  assert (Hdom : dom sm2 = {[f]} ∪ dom sm).
  { subst sm2. rewrite dom_insert_L. destruct Hsm as [->|[_ ->]]; [|rewrite dom_insert_L; set_solver].
    done. }
  exists l1, u1, sm2, P1, F1. split_and!; try done.
  - rewrite Hdom. apply (alloc_heap_step s s2 l l1 u u1 (dom sm) f); try done.
    + by apply M2.
    + etrans; [exact E1|apply M2].
    + intros g i Hg Hgu Hgf. rewrite W2 by done. apply W1; [done|]. by apply not_elem_of_dom.
    + destruct Hc as [(-> & -> & ->)|(_ & -> & ? & ->)]; [left|by right].
      split_and!; [|done|done]. apply elem_of_dom. by rewrite Hf.
  - constructor; [|done]. intros Hin. rewrite Forall_forall in HA. specialize (HA _ Hin). revert HA.
    apply (not_live s sm f k j (j :: fl)); try done. destruct Hsm as [->|[? _]]; [by left|by right].
  - constructor.
    + exists f, k, fl, j. split_and!; try done; try lia. unfold oaddr, saddr. by rewrite Eh2.
    + eapply Forall_impl; [exact HA|]. intros b Hb. by eapply live_alloc.
  - intros b e Hb. assert (Hb1 : extent s sm1 b e).
    { destruct Hb as (g & k' & fl' & i & H1 & Hrest). exists g, k', fl', i. split; [|done].
      destruct Hsm as [->|[Hnone ->]]; [done|]. rewrite lookup_insert_ne; [done|congruence]. }
    pose proof (extent_apart _ _ _ _ _ _ _ _ Hcl Hf Hj Hjin Hb1). lia.
  - intros t Ht. rewrite <- (Z2 t Ht). pose proof (widx_range k j Hk Hj) as Hw.
    destruct (osz_range k Hk) as (_ & _ & Hto). assert (Htk : t < 2 ^ Z.of_nat k) by (unfold osz in *; zdiv).
    apply load_eq; [by apply Hr2|rewrite oaddr_widx, Eh2; lia| |unfold widx, osz in *; nia].
    rewrite (memstep_max _ _ M2). lia.
  - pose proof (hr_static _ _ _ _ Hr) as []. rewrite oaddr_widx. zdiv.
  - exists (osz k). split; [done|]. exists f, k, fl, j. split_and!; try done; try lia.
    unfold oaddr, saddr. by rewrite Eh2.
Qed.

(** [cache_free] is the two phases above, one after the other. *)
Lemma cache_free_split k o sa s :
  obj_to_slab o = sa ->
  cache_free k o s =
  ((let* used := slab_used sa in
    let* total := slab_total sa in
    slab_obj_free sa o ;;;
    when (used =? total)
      (let* c := get_cache k in
       let* h := slab_unlink (c_full c) sa in
       set_full k h ;;;
       store sa (c_partial c) ;;;
       set_partial k sa)) ;;;
   (let* used' := slab_used sa in
    when (used' =? 0)
      (let* c := get_cache k in
       let* p := slab_unlink (c_partial c) sa in
       set_partial k p ;;;
       let* page := gets (fun st => pfndb_phys_to_page st (VIRT_TO_PHYS st sa)) in
       page_unref page))) s.
Proof.
  intros <-. unfold cache_free, bind.
  destruct (slab_used _ s) as [x s1| | |]; [|done..].
  destruct (slab_total _ s1) as [y s2| | |]; [|done..].
  destruct (slab_obj_free _ _ s2) as [z s3| | |]; [|done..]. done.
Qed.

Lemma live_free s s' sm f k j fl a :
  hhdm s' = hhdm s -> sm !! f = Some (k, fl) -> live s sm a -> a <> oaddr s k f j ->
  live s' (freed sm f k j fl) a.
Proof.
  intros E Hf (g & k' & fl' & i & H1 & -> & H3 & H4) Hne.
  exists g, k'. destruct (decide (g = f)) as [->|Hg].
  - rewrite Hf in H1. injection H1 as <- <-. exists (j :: fl), i. unfold freed. rewrite lookup_insert_eq.
    split_and!; try done; try lia; [unfold oaddr, saddr; by rewrite E|].
    rewrite not_elem_of_cons. split; [|done]. intros ->. done.
  - exists fl', i. rewrite freed_ne by done. split_and!; try done; try lia. unfold oaddr, saddr. by rewrite E.
Qed.

(** A live object of a slab with all places free does not exist. *)
Lemma full_free_none k fl j :
  (k < 9)%nat -> NoDup fl -> Forall (fun j => 0 <= j < total k) fl ->
  Z.of_nat (length fl) = total k -> 0 <= j < total k -> j ∈ fl.
Proof.
  intros Hk Hnd Hr Hlen Hj. destruct (decide (j ∈ fl)) as [|Hn]; [done|]. exfalso.
  pose proof (idx_bound k (j :: fl) Hk ltac:(by constructor) ltac:(by constructor)) as H. simpl in H. lia.
Qed.

(** A release as a step of the heap: at most the frame [f] is given back. *)
Lemma free_heap_step s s' l l' u u' h h' f :
  heap_used h u -> f ∈ h -> pmm_rel s' l' u' -> core_eq s s' ->
  (forall g i, g ∉ h -> rd_word s' g i = rd_word s g i) ->
  (h' = h /\ l' = l /\ u' = u) \/ (h' = h ∖ {[f]} /\ l' = f :: l /\ u' = delete f u) ->
  heap_step 0 s l u h s' l' u' h'.
Proof.
  intros Hu Hf R E W [(-> & -> & ->)|(-> & -> & ->)].
  - constructor; try done; [by left|intros g i Hg _; by apply W].
  - assert (Hd : forall g, g ∈ h ∖ {[f]} <-> g ∈ h /\ g <> f).
    { intros g. rewrite elem_of_difference, not_elem_of_singleton. done. }
    constructor; try done.
    + intros g [Hg Hne]%Hd. rewrite lookup_delete_ne by done. by apply Hu.
    + intros g Hg Hg'. destruct (decide (g = f)) as [->|Hne]; [|by rewrite lookup_delete_ne]. done.
    + intros g [Hg _]%Hd. by left.
    + intros g Hg Hg'. rewrite Hd in Hg'. destruct (decide (g = f)) as [->|Hne]; [apply lookup_delete_eq|tauto].
    + intros g i Hg _. by apply W.
    + simpl. lia.
Qed.

(** The heap looks at its own frames, its caches and the mark of large objects. *)
Lemma hrep_frame s s' sm P F :
  hrep s sm P F -> core_eq s s' -> caches s' = caches s -> quiet s s' ->
  (forall f i, f ∈ dom sm -> rd_word s' f i = rd_word s f i) -> hrep s' sm P F.
Proof.
  intros [St Nm Sl Ca HP HF Nd] E C Q W. pose proof E as (Em & _ & Eh & _).
  assert (W0 : forall f i k fl, sm !! f = Some (k, fl) -> rd_word s' f i = rd_word s f i).
  { intros f i k fl Hf. apply W, elem_of_dom. by rewrite Hf. }
  constructor; try done.
  - by eapply static_core.
  - intros Hq. destruct (Nm Hq) as [N1 N2]. rewrite Em, Eh. split; [done|].
    intros f i Hi. destruct (Q f i) as [->|?]; [by apply N2|done].
  - intros f k fl Hf. eapply slab_ok_frame; [done| |by apply Sl]. intros i _. by eapply W0.
  - intros k Hk. destruct (Ca k Hk) as (c & Hc & Hs & H1 & H2). exists c. rewrite C.
    split_and!; [done|done| |]; (apply (plist_frame s); [done|done| |done]).
    + intros g (j & fl & Hg)%HP. by eapply W0.
    + intros g Hg%HF. by eapply W0.
Qed.

End Marks.

Arguments hrep mk s sm P F : clear implicits.

(** The frames of the heap, and objects that are allocated. *)
Definition heap_inv (mk : bool) (s : mm) (h : gset Z) (A : list Z) : Prop :=
  exists sm P F, hrep mk s sm P F /\ h = dom sm /\ NoDup A /\ Forall (live s sm) A.

Lemma kfree_full a s l u sm P F A :
  hrep true s sm P F -> NoDup (a :: A) -> Forall (live s sm) (a :: A) ->
  heap_used (dom sm) u -> pmm_rel s l u ->
  wp (kfree a) s (fun _ s' => exists l' u' sm' P' F',
    heap_step 0 s l u (dom sm) s' l' u' (dom sm') /\ hrep true s' sm' P' F' /\ Forall (live s' sm') A).
Proof.
  intros Hr Nd HA Hu R. apply NoDup_cons in Nd as [Hna Nd].
  apply Forall_cons in HA as [(f & k & fl & j & Hf & -> & Hj & Hjf) HA].
  pose proof Hr as [St Nm Sl Ca HP HF NdL]. pose proof (Sl _ _ _ Hf) as Ok.
  pose proof (sl_class _ _ _ _ Ok) as Hk. pose proof (sl_frame _ _ _ _ Ok) as Hfr.
  pose proof (widx_range k j Hk Hj) as Hw. pose proof St as [P0 P1 P2 P3].
  assert (Huf : u !! f = Some (mkU 1 0 false)) by (apply Hu, elem_of_dom; by rewrite Hf).
  unfold kfree. rewrite (proj2 (Z.eqb_neq _ _)) by (rewrite oaddr_widx; lia).
  apply wp_bind. eapply wp_intro; [apply (load_eq _ (f - 1) (widx k j)); [done| |lia|lia]|].
  { unfold PAGE_SIZE. rewrite oaddr_widx, u64_small by lia. lia. }
  rewrite (proj2 (Z.eqb_neq _ _)) by (apply (Nm eq_refl); lia).
  rewrite (obj_to_slab_eq s k f j) by (done || lia). unfold slab_obj_sz.
  apply wp_bind, wp_bind. eapply wp_intro; [apply (load_eq _ f 3); [done|unfold saddr; lia|lia|lia]|].
  apply wp_ret. rewrite (sl_size _ _ _ _ Ok), cache_idx_osz by done.
  rewrite (proj2 (Nat.ltb_lt k NUM_CACHES)) by (unfold NUM_CACHES; lia). cbn [when].
  assert (Hsp := cache_free_split k _ _ s (obj_to_slab_eq s k f j St Hk ltac:(lia) Hj)).
  eapply wp_eq; [exact Hsp|]. clear Hsp.
  apply wp_bind. eapply wp_mono; [by eapply free_mark_wp|].
  intros ? s1 ((P1' & F1 & Hr1) & M1 & W1).
  assert (Hsa : saddr s f = saddr s1 f) by (unfold saddr; by rewrite (memstep_hhdm _ _ M1)). rewrite Hsa.
  assert (Hf1 : freed sm f k j fl !! f = Some (k, j :: fl)) by apply lookup_insert_eq.
  eapply wp_mono; [eapply free_release_wp; [exact Hr1|exact Hf1|by apply M1|exact Huf]|].
  intros ? s2 (l2 & u2 & sm2 & (P2' & F2 & Hr2) & R2 & E2 & L2 & W2 & Hc).
  assert (E02 : core_eq s s2) by (etrans; [apply M1|done]).
  assert (HfA : forall b, b ∈ A -> live s2 (freed sm f k j fl) b).
  { intros b Hb. rewrite Forall_forall in HA. eapply live_free; [apply E02|done|by apply HA|].
    intros ->. done. }
  exists l2, u2, sm2, P2', F2. split_and!; [|done|].
  - apply (free_heap_step s s2 l l2 u u2 (dom sm) (dom sm2) f); try done.
    + apply elem_of_dom. by rewrite Hf.
    + intros g i Hg%not_elem_of_dom. rewrite W2, W1 by (try rewrite freed_ne by congruence; done). done.
    + destruct Hc as [(-> & -> & ->)|(_ & -> & -> & ->)].
      * left. split_and!; [|done|done]. unfold freed. rewrite dom_insert_lookup_L; [done|by rewrite Hf].
      * right. split_and!; [|done|done]. unfold freed. rewrite delete_insert_eq. by rewrite dom_delete_L.
  - rewrite Forall_forall. intros b Hb. destruct Hc as [(-> & _)|(Hlen & -> & _)]; [by apply HfA|].
    destruct (HfA b Hb) as (g & k' & fl' & i & H1 & -> & H3 & H4). exists g, k', fl', i.
    split; [|done]. rewrite lookup_delete_ne; [done|]. intros <-. rewrite Hf1 in H1. injection H1 as <- <-.
    destruct (hr_slab _ _ _ _ Hr1 _ _ _ Hf1). apply H4. by eapply full_free_none.
Qed.

#[export] Instance lyr_heap : KHeap := {| HeapIface.kzalloc := Heap.kzalloc; HeapIface.kfree := Heap.kfree |}.

(** heap.c implements the interface: allocating with nothing known about the
    contents of memory, freeing when no word passes for the mark of a large object. *)
#[export] Instance lyr_heap_alloc (mk : bool) : HeapAlloc (H := lyr_heap).
Proof.
  refine {| heap_rep := heap_inv mk |}.
  - intros s h A B Hp (sm & P & F & Hr & -> & Nd & HA). exists sm, P, F. by rewrite <- Hp.
  - intros s h a A (sm & P & F & Hr & -> & Nd & HA). exists sm, P, F.
    apply NoDup_cons in Nd as [_ ?]. apply Forall_cons in HA as [_ ?]. done.
  - intros s s' h A (sm & P & F & Hr & -> & Nd & HA) E C _ Q W. exists sm, P, F.
    split_and!; [by eapply hrep_frame|done|done|]. eapply Forall_impl; [exact HA|].
    intros a Ha. eapply live_core; [|exact Ha]. apply E.
  - intros n s l u h A Hn (sm & P & F & Hr & -> & Nd & HA) Hu R Hl.
    eapply wp_mono; [by eapply kzalloc_full|].
    intros a s' (Ha & l' & u' & sm' & P' & F' & Hs & Hr' & Nd' & HA' & _). split; [done|].
    exists l', u', (dom sm'). split; [done|]. by exists sm', P', F'.
Defined.

#[export] Instance lyr_heap_spec : HeapSpec (H := lyr_heap) (HA := lyr_heap_alloc true).
Proof.
  constructor. intros a s l u h A (sm & P & F & Hr & -> & Nd & HA) Hu R.
  eapply wp_mono; [by eapply kfree_full|].
  intros ? s' (l' & u' & sm' & P' & F' & Hs & Hr' & HA').
  exists l', u', (dom sm'). split; [done|]. exists sm', P', F'. apply NoDup_cons in Nd as [_ ?]. done.
Defined.

(** ** Properties *)

(** *** Large objects *)

(** Mapping pages, allocating frames and writing memory leave the top of the
    region of large objects alone. *)
Definition same_top (s s' : mm) : Prop := next_large_base s' = next_large_base s.

#[export] Instance same_top_refl : Reflexive same_top.
Proof. done. Qed.
#[export] Instance same_top_trans : Transitive same_top.
Proof. unfold same_top. intros a b c. congruence. Qed.

Create HintDb top.

Lemma top_rd_page p : pres same_top (rd_page p).
Proof. intros s a s' H. unfold rd_page in H. destruct p as [i|]; [|done]. destruct (pages s !! i); by simplify_eq. Qed.
Lemma top_wr_page p f : pres same_top (wr_page p f).
Proof.
  intros s a s' H. unfold wr_page in H. destruct p as [i|]; [|done].
  destruct (pages s !! i); [|done]. by injection H as _ <-.
Qed.
Lemma top_load a : pres same_top (load a).
Proof. intros s x s' H. unfold load in H. destruct (translate s a) as [[? ?]|]; [|done]. by injection H as _ <-. Qed.
Lemma top_store a v : pres same_top (store a v).
Proof. intros s x s' H. unfold store in H. destruct (translate s a) as [[? ?]|]; [|done]. by injection H as _ <-. Qed.
#[export] Hint Resolve top_rd_page top_wr_page top_load top_store : top.
Ltac top := pres_go; auto with top; try (apply pres_modify; intros ?; done).

Lemma top_store_lo a v : pres same_top (store_lo a v).
Proof. unfold store_lo. top. Qed.
Lemma top_validate_used p : pres same_top (_page_validate_used p).
Proof. unfold _page_validate_used. top. Qed.
#[export] Hint Resolve top_validate_used : top.
Lemma top_palloc_page : pres same_top palloc_page.
Proof. unfold palloc_page, _pmm_pop, _page_validate_free. top. Qed.
Lemma top_page_ref p : pres same_top (page_ref p).
Proof. unfold page_ref. top. Qed.
Lemma top_page_unref p : pres same_top (page_unref p).
Proof. unfold page_unref, _pmm_push, push_asserts, push_links. top. Qed.
Lemma top_page_share p : pres same_top (page_share p).
Proof. unfold page_share. top. Qed.
Lemma top_page_unshare p : pres same_top (page_unshare p).
Proof. unfold page_unshare. top. Qed.
#[export] Hint Resolve top_palloc_page top_page_ref top_page_unref top_page_share top_page_unshare : top.
Lemma top_table_next t i cf : pres same_top (_table_next t i cf).
Proof. unfold _table_next, _alloc_pt, zero_frame, wr_word. top. Qed.
#[export] Hint Resolve top_table_next : top.
Lemma top_get_cache i : pres same_top (get_cache i).
Proof. intros s c s' H. unfold get_cache in H. destruct (caches s !! i); [|done]. by injection H as _ <-. Qed.
#[export] Hint Resolve top_get_cache : top.
Lemma top_set_partial i p : pres same_top (set_partial i p).
Proof. unfold set_partial, put_cache. top. Qed.
Lemma top_set_full i p : pres same_top (set_full i p).
Proof. unfold set_full, put_cache. top. Qed.
#[export] Hint Resolve top_store_lo top_set_partial top_set_full : top.
Lemma top_slab_create z : pres same_top (slab_create z).
Proof. unfold slab_create, palloc_single, _pmm_pop, _page_validate_free, store_hi. top. Qed.
#[export] Hint Resolve top_slab_create : top.
Lemma top_cache_alloc i : pres same_top (cache_alloc i).
Proof. unfold cache_alloc, cache_slab, slab_obj_alloc, slab_free, slab_used, slab_total, slab_next, store_hi. top. Qed.
#[export] Hint Resolve top_cache_alloc : top.
Lemma top_map_page pt v p flags : pres same_top (map_page pt v p flags).
Proof. unfold map_page, _leaf_entry, drop_mapping, wr_word. top. Qed.
#[export] Hint Resolve top_map_page : top.
Lemma top_large_map n : forall base, pres same_top (large_map n base).
Proof. induction n as [|n IH]; intros base; simpl; top. Qed.
Lemma top_zero_bytes p n : pres same_top (zero_bytes p n).
Proof. unfold zero_bytes. top. Qed.

Lemma top_kzalloc_small n : 0 < n <= 2048 -> pres same_top (Heap.kzalloc n).
Proof.
  intros Hn. destruct (cache_idx_small n Hn) as [Hk _]. unfold Heap.kzalloc, kmalloc.
  rewrite (proj2 (Nat.ltb_lt (cache_idx n) NUM_CACHES)) by (unfold NUM_CACHES; lia).
  top; apply top_zero_bytes.
Qed.

(** A granted large request lies in the piece the top of the region moved over. *)
Lemma large_alloc_place n s a s' :
  2048 < n -> 0 <= next_large_base s -> next_large_base s + n + 8192 <= 2 ^ 64 ->
  Heap.kzalloc n s = Ret a s' -> a <> 0 ->
  a = next_large_base s + 4096 /\ a + n <= next_large_base s'.
Proof.
  intros Hn Hb Hmax Hk Ha. unfold Heap.kzalloc, kmalloc in Hk.
  rewrite (proj2 (Z.eqb_neq n 0)) in Hk by lia. rewrite cache_idx_large in Hk by lia.
  change ((NUM_CACHES <? NUM_CACHES)%nat) with false in Hk. cbv iota in Hk.
  apply bind_inv in Hk as (p & s1 & Hl & Hk). apply bind_inv in Hk as ([] & s2 & Hz & Hk).
  injection Hk as -> ->.
  assert (Ht : same_top s1 s').
  { revert Hz. unfold when. destruct (negb (a =? 0)); [apply top_zero_bytes|by intros [= <-]]. }
  rewrite Ht. unfold large_alloc in Hl. unfold bind at 1, gets at 1 in Hl. unfold bind at 1, modify at 1 in Hl.
  apply bind_inv in Hl as (ok & s3 & Hm & Hl). apply top_large_map in Hm. unfold same_top in Hm. simpl in Hm.
  unfold PAGE_SIZE in *. rewrite (u64_small (n + 4096)) in * by lia.
  rewrite (u64_small (n + 4096 + 4096 - 1)) in * by lia.
  set (np := (n + 4096 + 4096 - 1) / 4096) in *.
  assert (Hnp : n + 4096 <= np * 4096 <= n + 8191) by (subst np; zdiv).
  destruct (negb ok); [by injection Hl as <- _|].
  apply bind_inv in Hl as (? & s4 & H4 & Hl). apply bind_inv in Hl as (? & s5 & H5 & Hl).
  injection Hl as <- ->. rewrite (u64_small (next_large_base s + 4096)) by lia. split; [done|].
  assert (E : same_top s3 s1).
  { etrans; [|by eapply top_store]. by eapply top_store_lo. }
  rewrite E, Hm, u64_small by lia. lia.
Qed.

(** An object that was given out: a live object of a slab, or bytes of the region
    of large objects below its top. *)
Definition given (s : mm) (sm : slabs) (b e : Z) : Prop :=
  extent s sm b e \/ LARGE_REGION_BASE <= b /\ b + e <= next_large_base s.

Lemma extent_direct mk s sm P F b e :
  hrep mk s sm P F -> extent s sm b e -> hhdm s <= b /\ b + e <= hhdm s + (max_pfn s + 1) * 4096.
Proof.
  intros Hr (f & k & fl & j & Hf & -> & Hj & _ & ->). pose proof (hr_slab _ _ _ _ Hr _ _ _ Hf) as Ok.
  destruct (osz_range k (sl_class _ _ _ _ Ok)) as (? & ? & Ht). pose proof (sl_frame _ _ _ _ Ok).
  unfold oaddr, saddr. nia.
Qed.


(** [kfree] gives back what [kzalloc] took.  Allocating an object and freeing
    it again returns with the heap holding exactly the objects it held before and
    every frame that is not the heap's untouched. *)
Theorem kzalloc_kfree_roundtrip n s l u h A :
  0 < n <= 2048 -> heap_inv true s h A -> heap_used h u -> pmm_rel s l u -> l <> [] ->
  wp (let* a := Heap.kzalloc n in Heap.kfree a) s (fun _ s' =>
    exists l' u' h', heap_inv true s' h' A /\ heap_step 1 s l u h s' l' u' h').
Proof.
  intros Hn Hi Hu R Hl. apply wp_bind.
  eapply wp_mono; [by eapply (kzalloc_spec (H := lyr_heap) (HeapAlloc := lyr_heap_alloc true))|].
  intros a s1 (Ha & l1 & u1 & h1 & S1 & Hi1).
  eapply wp_mono; [by eapply (kfree_spec (H := lyr_heap) (HA := lyr_heap_alloc true)); [|apply S1|apply S1]|].
  intros ? s2 (l2 & u2 & h2 & S2 & Hi2). exists l2, u2, h2. split; [done|].
  exact (heap_step_trans _ _ _ _ _ _ _ _ _ _ _ _ _ _ S1 S2).
Qed.

(** size classes are tight: the cache a request is served from holds it, and
    no smaller cache would; a request above 2048 bytes goes to no cache. *)
Theorem cache_idx_tight n :
  0 < n ->
  if n <=? 2048 then
    (cache_idx n < NUM_CACHES)%nat /\ n <= osz (cache_idx n) /\
    (forall k, (k < cache_idx n)%nat -> osz k < n)
  else cache_idx n = NUM_CACHES.
Proof.
  intros Hn. destruct (n <=? 2048) eqn:E; bools; [|by apply cache_idx_large].
  by apply cache_idx_fits.
Qed.

(** a large object never grows.  For a pointer [large_alloc] returned (its
    header carries the mark and [np] pages), [krealloc] to any size above 2048
    bytes returns the pointer it was given, with the memory unchanged, however
    many bytes are asked for. *)
Theorem krealloc_large_unchanged ptr size w np s :
  ptr <> 0 -> load (u64 (ptr - PAGE_SIZE)) s = Ret w s -> lo32 w = LARGE_MAGIC ->
  load (u64 (ptr - PAGE_SIZE) + 8) s = Ret np s -> 2 <= np < 2 ^ 51 -> 2048 < size ->
  krealloc ptr size s = Ret ptr s.
Proof.
  intros Hp Hw Hm Hn Hnp Hs. unfold krealloc. rewrite !(proj2 (Z.eqb_neq _ _)) by lia.
  rewrite (bind_ret _ _ _ _ _ Hw), Hm, Z.eqb_refl. rewrite bind_assoc, (bind_ret _ _ _ _ _ Hn).
  unfold bind, ret, PAGE_SIZE. rewrite (u64_small (np - 1)), u64_small by lia.
  by rewrite !cache_idx_large, Nat.eqb_refl by lia.
Qed.

(** [kfree] trusts the page below.  If the word one page below a live slab
    object carries the mark of a large object, whatever put it there, freeing the
    object takes the path for large objects. *)
Theorem kfree_forged_header s sm P F f k fl j :
  hrep true s sm P F -> sm !! f = Some (k, fl) -> 0 <= j < total k ->
  let s' := put_word (f - 1) (widx k j) LARGE_MAGIC s in
  Heap.kfree (oaddr s k f j) s' = large_free (oaddr s k f j) s'.
Proof.
  intros [St _ Sl _ _ _ _] Hf Hj s'. pose proof (Sl _ _ _ Hf) as [Hk Hfr _ _ _ _ _ _].
  pose proof (widx_range k j Hk Hj) as Hw. pose proof St as [P0 P1 P2 P3].
  unfold Heap.kfree. rewrite (proj2 (Z.eqb_neq _ _)) by (rewrite oaddr_widx; lia).
  erewrite bind_ret by (apply (load_eq _ (f - 1) (widx k j));
    [by apply static_put|unfold PAGE_SIZE; rewrite oaddr_widx, u64_small by lia; simpl; lia|simpl; lia|lia]).
  unfold s'. by rewrite rd_put_eq.
Qed.

(** ** Witnesses *)

(** The heap right after [kheap_init]. *)
Lemma heap_empty mk s :
  static s -> nomagic mk s -> hrep mk (final kheap_init s) ∅ (fun _ => []) (fun _ => []).
Proof.
  intros St Nm. constructor; try done.
  - by apply (static_core s).
  - intros k Hk. exists (mkCache 0 0 (osz k)). split_and!; try done.
    classes k Hk; reflexivity.
  - intros k f. rewrite elem_of_nil. split; [done|]. by intros (? & ? & ?).
  - intros k f. rewrite elem_of_nil. done.
  - intros k. split; constructor.
Qed.

Lemma heap_used_empty u : heap_used (dom (∅ : slabs)) u.
Proof. intros f. rewrite dom_empty_L. by intros ?%elem_of_empty. Qed.

Lemma static_small s :
  0 < hhdm s -> hhdm s `mod` 2 ^ 32 = 0 -> hhdm s + 2 ^ 32 <= 2 ^ 64 -> 0 <= max_pfn s < 312612 -> static s.
Proof. intros H1 H2 H3 H4. constructor; try lia. zdiv. Qed.

(** A machine whose memory ends below 0x4C524748 and holds no mark. *)
Lemma nomagic_small s :
  hhdm s `mod` 2 ^ 32 = 0 -> max_pfn s < 312612 ->
  (forall f i, 4 <= i -> rd_word s f i `mod` 2 ^ 32 <> LARGE_MAGIC) -> nomagic true s.
Proof.
  intros H2 H4 Hw _. split; [|done].
  intros f i Hf Hi. rewrite <- Z.add_assoc, <- Zplus_mod_idemp_l, H2, Z.add_0_l.
  rewrite Z.mod_small by lia. unfold LARGE_MAGIC. lia.
Qed.

Definition ex_heap : mm := final kheap_init ex_pmm.

Lemma ex_pmm_hhdm : hhdm ex_pmm = 18446603336221196288.
Proof. vm_compute. reflexivity. Qed.
Lemma ex_pmm_max : max_pfn ex_pmm = 13.
Proof. vm_compute. reflexivity. Qed.
Lemma ex_pmm_static : static ex_pmm.
Proof. apply static_small; rewrite ?ex_pmm_hhdm, ?ex_pmm_max; lia || reflexivity. Qed.
Lemma ex_pmm_nomagic : nomagic true ex_pmm.
Proof.
  apply nomagic_small; [by rewrite ex_pmm_hhdm|by rewrite ex_pmm_max|].
  assert (Hf : frames ex_pmm = ∅) by (vm_compute; reflexivity).
  intros f i _. unfold rd_word. rewrite Hf, lookup_empty. done.
Qed.
Lemma ex_heap_rep : hrep true ex_heap ∅ (fun _ => []) (fun _ => []).
Proof. apply heap_empty; [exact ex_pmm_static|exact ex_pmm_nomagic]. Qed.
Lemma ex_heap_pmm : pmm_rel ex_heap ex_free ∅.
Proof. apply (ms_rel ex_pmm); [apply memstep_caches|exact ex_pmm_rel]. Qed.

Lemma hrep_weaken s sm P F : hrep true s sm P F -> hrep false s sm P F.
Proof. intros []. by constructor. Qed.

Lemma hrep_top b mk s sm P F : hrep mk s sm P F -> hrep mk (set_next_large b s) sm P F.
Proof.
  intros Hr. apply (hrep_frame s); try done.
  - by apply quiet_frames.
Qed.


Lemma kzalloc_kfree_roundtrip_witness :
  exists a s', (let* a := Heap.kzalloc 48 in Heap.kfree a) ex_heap = Ret a s' /\
    exists h', heap_inv true s' h' [].
Proof.
  assert (Hi : heap_inv true ex_heap (dom (∅ : slabs)) []).
  { exists ∅, (fun _ => []), (fun _ => []). split; [exact ex_heap_rep|]. split; [reflexivity|].
    split; constructor. }
  destruct (wp_inv _ _ _ (kzalloc_kfree_roundtrip 48 ex_heap ex_free ∅ _ [] ltac:(lia) Hi
    (heap_used_empty _) ex_heap_pmm ltac:(discriminate))) as (a & s' & Heq & l' & u' & h' & Hi' & _).
  exists a, s'. split; [exact Heq|]. exists h'. exact Hi'.
Defined.

Lemma cache_idx_tight_witness : cache_idx 33 = 3%nat /\ 33 <= osz (cache_idx 33).
Proof.
  split; [reflexivity|]. destruct (cache_idx_tight 33 ltac:(lia)) as (_ & H & _). exact H.
Defined.

Lemma kfree_forged_header_witness :
  exists a s1 f i, Heap.kzalloc 48 ex_heap = Ret a s1 /\
    Heap.kfree a (put_word f i LARGE_MAGIC s1) = large_free a (put_word f i LARGE_MAGIC s1).
Proof.
  destruct (wp_inv _ _ _ (kzalloc_full (mk := true) 48 ex_heap ex_free ∅ ∅ _ _ [] ltac:(lia) ex_heap_rep
    (NoDup_nil_2) (Forall_nil_2 _) (heap_used_empty _) ex_heap_pmm ltac:(discriminate)))
    as (a & s1 & Heq & _ & l' & u' & sm' & P' & F' & _ & Hr & _ & HA & _).
  apply Forall_cons in HA as [(f & k & fl & j & Hf & -> & Hj & _) _].
  exists (oaddr s1 k f j), s1, (f - 1), (widx k j). split; [exact Heq|].
  exact (kfree_forged_header s1 sm' P' F' f k fl j Hr Hf Hj).
Defined.

(** A large object of two pages, as [large_alloc] makes it. *)
Definition ex_large : mm :=
  final (kheap_init ;;; modify (set_kernel_ptable 4096) ;;; modify (set_next_large LARGE_REGION_BASE) ;;;
         large_alloc 3000) ex_vm.

Lemma krealloc_large_unchanged_witness :
  krealloc (LARGE_REGION_BASE + 4096) 1000000 ex_large = Ret (LARGE_REGION_BASE + 4096) ex_large.
Proof.
  apply (krealloc_large_unchanged (LARGE_REGION_BASE + 4096) 1000000 LARGE_MAGIC 2 ex_large).
  - discriminate.
  - vm_compute. reflexivity.
  - vm_compute. reflexivity.
  - vm_compute. reflexivity.
  - lia.
  - lia.
Defined.
