(* ===== verification/Vmm.v ===== *)
(** * Virtual address spaces (kernel/src/mm/vmm.c)

    A [vas] is a page table and a list of [vad]s, the mapped ranges in order of
    their start.  The C list nodes live on the kernel heap: [v_addr] and [a_addr]
    are the heap addresses of the nodes, so that every [kzalloc] that can fail and
    every [kfree] is a step of the model; the list itself is a value.  The heap
    is reached through the interface [KHeap] of HeapIface, the file a range is
    backed by through [VnodeOps]. *)

From stdpp Require Import gmap list.
From Stdlib Require Import ZArith Lia.
From S2P Require Import Prelude Pfndb Pmm Paging PagingRel HeapIface.

Local Open Scope Z_scope.

(** ** Files *)

(** What vmm.c calls of vfs.c: nodes are named by their address. *)
Class VnodeOps := {
  vfs_node_ref : Z -> M mm unit;
  vfs_node_release : Z -> M mm unit;
  (** the result code and the page the node gives *)
  vfs_node_get_page : Z -> Z -> bool -> M mm (Z * option Z);
}.

(** ** Data *)

Definition VAD_PROT_MASK : Z := Z.lor 4095 VMM_NX.
Definition VAD_ANONYMOUS : Z := 2 ^ 12.
Definition VAD_FIXED : Z := 2 ^ 13.
Definition VAD_FILE : Z := 2 ^ 15.
Definition VAD_SHARED : Z := 2 ^ 16.
Definition VAS_USER_START : Z := 4096.
Definition VAS_USER_END : Z := 2 ^ 47 - 1.

Definition sizeof_vad : Z := 48.
Definition sizeof_vas : Z := 24.

(** [v_file] is 0 for a range without a file. *)
Record vad := mkVad {
  v_addr : Z;
  v_start : Z;
  v_end : Z;
  v_flags : Z;
  v_file : Z;
  v_file_offset : Z;
}.

Record vas := mkVas {
  a_addr : Z;
  pml4 : Z;
  list_head : list vad;
  user_start : Z;
}.

#[export] Instance vad_eq_dec : EqDecision vad.
Proof. solve_decision. Defined.

Definition set_list (l : list vad) (a : vas) : vas :=
  mkVas (a_addr a) (pml4 a) l (user_start a).
Definition set_user_start (x : Z) (a : vas) : vas :=
  mkVas (a_addr a) (pml4 a) (list_head a) x.

(** ** The list of ranges *)

Fixpoint _vad_insert (l : list vad) (v : vad) : list vad :=
  match l with
  | [] => [v]
  | c :: l' => if v_start c <? v_start v then c :: _vad_insert l' v else v :: c :: l'
  end.

(** The loop of [_vas_find_free] from a candidate [base] on. *)
Fixpoint find_free_loop (l : list vad) (base length : Z) : Z :=
  match l with
  | [] => base
  | v :: l' =>
      if u64 (base + length) <=? v_start v then base
      else if base <? v_end v then find_free_loop l' (ALIGN_UP (v_end v) PAGE_SIZE) length
      else find_free_loop l' base length
  end.

Definition _vas_find_free (l : list vad) (hint length : Z) : Z :=
  let base := find_free_loop l (ALIGN_UP hint PAGE_SIZE) length in
  let end_ := u64 (base + length) in
  if (VAS_USER_END <? end_) || (end_ <? base) then 0 else base.

Fixpoint _vas_overlaps (l : list vad) (start end_ : Z) : bool :=
  match l with
  | [] => false
  | v :: l' =>
      if end_ <=? v_start v then false
      else if start <? v_end v then true
      else _vas_overlaps l' start end_
  end.

Fixpoint vas_find (l : list vad) (addr : Z) : option vad :=
  match l with
  | [] => None
  | v :: l' =>
      if (v_start v <=? addr) && (addr <? v_end v) then Some v else vas_find l' addr
  end.

(** The loop of [vas_range_mapped]: [true] when [pos] reaches [end_]. *)
Fixpoint range_mapped_loop (l : list vad) (pos end_ : Z) : bool :=
  match l with
  | [] => end_ <=? pos
  | v :: l' =>
      if negb (pos <? end_) then end_ <=? pos
      else if v_end v <=? pos then range_mapped_loop l' pos end_
      else if pos <? v_start v then false
      else range_mapped_loop l' (v_end v) end_
  end.

Definition vas_range_mapped (l : list vad) (start length : Z) : bool :=
  if length =? 0 then false
  else
    let start := ALIGN_DOWN start PAGE_SIZE in
    let end_ := u64 (start + ALIGN_UP length PAGE_SIZE) in
    if end_ <? start then false else range_mapped_loop l start end_.

Section with_interfaces.
Context {H : KHeap} {N : VnodeOps}.

Definition _vad_alloc (start end_ flags : Z) : M mm (option vad) :=
  let* v := kzalloc sizeof_vad in
  if v =? 0 then ret None else ret (Some (mkVad v start end_ flags 0 0)).

Definition _vad_alloc_file (start end_ flags file file_offset : Z) : M mm (option vad) :=
  let* v := _vad_alloc start end_ (Z.lor flags VAD_FILE) in
  match v with
  | None => ret None
  | Some v =>
      vfs_node_ref file ;;;
      ret (Some (mkVad (v_addr v) (v_start v) (v_end v) (v_flags v) file file_offset))
  end.

Definition _vad_free (v : vad) : M mm unit :=
  when (negb (v_file v =? 0)) (vfs_node_release (v_file v)) ;;;
  kfree (v_addr v).

Definition _vad_clone_segment (src : vad) (start end_ : Z) : M mm (option vad) :=
  if has (v_flags src) VAD_FILE then
    _vad_alloc_file start end_ (v_flags src) (v_file src)
      (u64 (v_file_offset src + (start - v_start src)))
  else _vad_alloc start end_ (v_flags src).

(** One step of the loop of [_vad_remove_range] on a range that meets
    [start, end_): what is left of it.  The right part is looked at again by the
    loop, which skips it since it starts at [end_]. *)
Definition vad_cut (v : vad) (start end_ : Z) : M mm (list vad) :=
  let* lft :=
    (if v_start v <? start then _vad_clone_segment v (v_start v) start else ret None) in
  let* rgt :=
    (if end_ <? v_end v then _vad_clone_segment v end_ (v_end v) else ret None) in
  _vad_free v ;;;
  ret (option_list lft ++ option_list rgt).

Fixpoint _vad_remove_range (l : list vad) (start end_ : Z) : M mm (list vad) :=
  match l with
  | [] => ret []
  | v :: l' =>
      if (v_end v <=? start) || (end_ <=? v_start v) then
        let* r := _vad_remove_range l' start end_ in ret (v :: r)
      else
        let* k := vad_cut v start end_ in
        let* r := _vad_remove_range l' start end_ in ret (k ++ r)
  end.

(** ** Page loops *)

(** [_commit_anon] from [va] on, [n] pages to go. *)
Fixpoint commit_anon_loop (n : nat) (pt va prot : Z) : M mm Z :=
  match n with
  | O => ret 0
  | S n =>
      let* page := palloc_page in
      match page with
      | None => ret (-1)
      | Some _ =>
          map_page pt va page prot ;;;
          page_unref page ;;;
          commit_anon_loop n pt (va + PAGE_SIZE) prot
      end
  end.

Definition _commit_anon (pt : Z) (v : vad) : M mm Z :=
  commit_anon_loop (pages_between (v_start v) (v_end v)) pt (v_start v)
    (Z.land (v_flags v) VAD_PROT_MASK).

Fixpoint commit_file_loop (n : nat) (pt va prot file file_off : Z) : M mm Z :=
  match n with
  | O => ret 0
  | S n =>
      let* got := vfs_node_get_page file (file_off / PAGE_SIZE) (has prot VMM_WRITABLE) in
      let r := got.1 in
      let page := got.2 in
      if negb (r =? 0) || negb (bool_decide (is_Some page)) then ret (-1)
      else
        map_page pt va page prot ;;;
        commit_file_loop n pt (va + PAGE_SIZE) prot file (u64 (file_off + PAGE_SIZE))
  end.

Definition _commit_file (pt : Z) (v : vad) : M mm Z :=
  commit_file_loop (pages_between (v_start v) (v_end v)) pt (v_start v)
    (Z.land (v_flags v) VAD_PROT_MASK) (v_file v) (v_file_offset v).

Definition _uncommit_range (pt start end_ : Z) : M mm unit :=
  mfor (pages_between start end_) 0 (fun i => unmap_page pt (start + i * PAGE_SIZE)).

(** ** Address spaces *)

(** [vas_create(pt)]; a [pt] of 0 asks for a new page table. *)
Definition vas_create (pt : Z) : M mm (option vas) :=
  let* a := kzalloc sizeof_vas in
  if a =? 0 then ret None
  else
    let* p := (if negb (pt =? 0) then ret pt else ptable_create) in
    if p =? 0 then kfree a ;;; ret None
    else ret (Some (mkVas a p [] VAS_USER_START)).

Definition vas_adopt (existing_pml4 : Z) : M mm (option vas) :=
  assert (negb (existing_pml4 =? 0)) ;;;
  let* a := kzalloc sizeof_vas in
  if a =? 0 then ret None else ret (Some (mkVas a existing_pml4 [] VAS_USER_START)).

Fixpoint destroy_loop (pt : Z) (l : list vad) : M mm unit :=
  match l with
  | [] => ret tt
  | v :: l' => _uncommit_range pt (v_start v) (v_end v) ;;; _vad_free v ;;; destroy_loop pt l'
  end.

Definition vas_destroy (a : vas) : M mm unit :=
  destroy_loop (pml4 a) (list_head a) ;;;
  ptable_destroy (pml4 a) ;;;
  kfree (a_addr a).

(** The address the three mapping calls settle on: [None] is their [return 0]. *)
Definition place (a : vas) (hint length flags : Z) : option Z :=
  if has flags VAD_FIXED then
    let base := ALIGN_DOWN hint PAGE_SIZE in
    let end_ := u64 (base + length) in
    if (VAS_USER_END <? end_) || (end_ <? base) then None
    else if _vas_overlaps (list_head a) base end_ then None
    else Some base
  else
    let base := _vas_find_free (list_head a) (if hint =? 0 then user_start a else hint) length in
    if base =? 0 then None else Some base.

Definition vas_map_anon (a : vas) (hint length flags : Z) : M mm (Z * vas) :=
  if length =? 0 then ret (0, a)
  else
    let length := ALIGN_UP length PAGE_SIZE in
    match place a hint length flags with
    | None => ret (0, a)
    | Some base =>
        let* v := _vad_alloc base (u64 (base + length)) (Z.lor flags VAD_ANONYMOUS) in
        match v with
        | None => ret (0, a)
        | Some v =>
            let* r := _commit_anon (pml4 a) v in
            if negb (r =? 0) then
              _uncommit_range (pml4 a) base (u64 (base + length)) ;;;
              kfree (v_addr v) ;;;
              ret (0, a)
            else
              ret (base, set_user_start (u64 (base + length))
                           (set_list (_vad_insert (list_head a) v) a))
        end
    end.

Definition vas_map_phys (a : vas) (hint phys length flags : Z) : M mm (Z * vas) :=
  if length =? 0 then ret (0, a)
  else
    let length := ALIGN_UP length PAGE_SIZE in
    let phys := ALIGN_DOWN phys PAGE_SIZE in
    match place a hint length flags with
    | None => ret (0, a)
    | Some base =>
        let prot := Z.land flags VAD_PROT_MASK in
        mfor (pages_between 0 length) 0 (fun i =>
          let off := i * PAGE_SIZE in
          let p := u64 (phys + off) in
          let* page := gets (fun s => pfndb_phys_to_page s p) in
          match page with
          | Some _ => map_page (pml4 a) (base + off) page prot
          | None => map_page_phys (pml4 a) (base + off) p prot
          end) ;;;
        let* v := _vad_alloc base (u64 (base + length)) (clr flags VAD_ANONYMOUS) in
        match v with
        | None =>
            mfor (pages_between 0 length) 0 (fun i => unmap_page (pml4 a) (base + i * PAGE_SIZE)) ;;;
            ret (0, a)
        | Some v => ret (base, set_list (_vad_insert (list_head a) v) a)
        end
    end.

(** [file] is 0 for NULL. *)
Definition vas_map_file (a : vas) (hint file file_offset length flags : Z) : M mm (Z * vas) :=
  if (file =? 0) || (length =? 0) then ret (0, a)
  else if negb (Z.land file_offset (PAGE_SIZE - 1) =? 0) then ret (0, a)
  else
    let length := ALIGN_UP length PAGE_SIZE in
    match place a hint length flags with
    | None => ret (0, a)
    | Some base =>
        let* v := _vad_alloc_file base (u64 (base + length)) flags file file_offset in
        match v with
        | None => ret (0, a)
        | Some v =>
            let* r := _commit_file (pml4 a) v in
            if negb (r =? 0) then
              _uncommit_range (pml4 a) base (u64 (base + length)) ;;;
              _vad_free v ;;;
              ret (0, a)
            else
              ret (base, set_user_start (u64 (base + length))
                           (set_list (_vad_insert (list_head a) v) a))
        end
    end.

(** The walk of [vas_unmap] over the ranges; both branches of the code unmap the
    same pages. *)
Fixpoint unmap_loop (pt : Z) (l : list vad) (start end_ : Z) : M mm unit :=
  match l with
  | [] => ret tt
  | v :: l' =>
      if negb (v_start v <? end_) then ret tt
      else if v_end v <=? start then unmap_loop pt l' start end_
      else
        _uncommit_range pt (Z.max (v_start v) start) (Z.min (v_end v) end_) ;;;
        unmap_loop pt l' start end_
  end.

Definition vas_unmap (a : vas) (start length : Z) : M mm vas :=
  if length =? 0 then ret a
  else
    let start := ALIGN_DOWN start PAGE_SIZE in
    let end_ := u64 (start + ALIGN_UP length PAGE_SIZE) in
    unmap_loop (pml4 a) (list_head a) start end_ ;;;
    let* l := _vad_remove_range (list_head a) start end_ in
    ret (set_list l a).

Definition protect_page (pt new_prot va : Z) : M mm unit :=
  let* phys := get_phys pt va in
  if phys =? 0 then ret tt
  else
    let* page := gets (fun s => pfndb_phys_to_page s phys) in
    match page with
    | Some _ =>
        page_ref page ;;; unmap_page pt va ;;; map_page pt va page new_prot ;;; page_unref page
    | None => unmap_page pt va ;;; map_page_phys pt va phys new_prot
    end.

Definition set_prot (new_prot : Z) (v : vad) : vad :=
  mkVad (v_addr v) (v_start v) (v_end v) (Z.lor (clr (v_flags v) VAD_PROT_MASK) new_prot)
    (v_file v) (v_file_offset v).

Fixpoint protect_loop (pt : Z) (l : list vad) (start end_ new_prot : Z) : M mm (list vad) :=
  match l with
  | [] => ret []
  | v :: l' =>
      if negb (v_start v <? end_) then ret l
      else if v_end v <=? start then
        let* r := protect_loop pt l' start end_ new_prot in ret (v :: r)
      else
        let lo := Z.max (v_start v) start in
        let hi := Z.min (v_end v) end_ in
        mfor (pages_between lo hi) 0 (fun i => protect_page pt new_prot (lo + i * PAGE_SIZE)) ;;;
        let* r := protect_loop pt l' start end_ new_prot in
        ret (set_prot new_prot v :: r)
  end.

Definition vas_protect (a : vas) (start length new_prot : Z) : M mm vas :=
  if length =? 0 then ret a
  else
    let start := ALIGN_DOWN start PAGE_SIZE in
    let end_ := u64 (start + ALIGN_UP length PAGE_SIZE) in
    let* l := protect_loop (pml4 a) (list_head a) start end_ (Z.land new_prot VAD_PROT_MASK) in
    ret (set_list l a).

(** ** Copy on write *)

Definition page_is_cow (pg : page) : bool := has (p_flags pg) PAGE_COW.
Definition page_is_shared (pg : page) : bool := has (p_flags pg) PAGE_SHARED.

(** [memcpy] of a whole frame *)
Definition copy_frame (dst src : Z) : M mm unit :=
  modify (set_frames (fun fr => <[dst := default ∅ (fr !! src)]> fr)).

(** 0 when the fault was served, -1 when it was not. *)
Definition vas_handle_page_fault (a : vas) (addr err : Z) : M mm Z :=
  let va := ALIGN_DOWN addr PAGE_SIZE in
  match vas_find (list_head a) va with
  | None => ret (-1)
  | Some v =>
      if negb (has err 2) || negb (has err 1) then ret (-1)
      else if negb (has (v_flags v) VMM_WRITABLE) || has (v_flags v) VAD_SHARED then ret (-1)
      else
        let* phys := get_phys (pml4 a) va in
        if phys =? 0 then ret (-1)
        else
          let* old_page := gets (fun s => pfndb_phys_to_page s (ALIGN_DOWN phys PAGE_SIZE)) in
          match old_page with
          | None => ret (-1)
          | Some _ =>
              let* pg := rd_page old_page in
              if negb (page_is_cow pg) then ret (-1)
              else
                let prot := Z.land (v_flags v) VAD_PROT_MASK in
                if negb (page_is_shared pg) then
                  page_ref old_page ;;;
                  unmap_page (pml4 a) va ;;;
                  page_clear_cow old_page ;;;
                  map_page (pml4 a) va old_page prot ;;;
                  page_unref old_page ;;;
                  ret 0
                else
                  let* new_page := palloc_page in
                  match new_page with
                  | None => ret (-1)
                  | Some _ =>
                      let* new_phys := gets (fun s => pfndb_page_to_phys s new_page) in
                      copy_frame (new_phys / PAGE_SIZE) (ALIGN_DOWN phys PAGE_SIZE / PAGE_SIZE) ;;;
                      unmap_page (pml4 a) va ;;;
                      map_page (pml4 a) va new_page prot ;;;
                      page_unref new_page ;;;
                      ret 0
                  end
          end
  end.

Fixpoint access_loop (n : nat) (a : vas) (va : Z) (write : bool) : M mm Z :=
  match n with
  | O => ret 0
  | S n =>
      let* flags := get_mapping_flags (pml4 a) va in
      if negb (has flags VMM_PRESENT) then ret (-1)
      else if write && negb (has flags VMM_WRITABLE) then
        let* r := vas_handle_page_fault a va 3 in
        if negb (r =? 0) then ret (-1)
        else
          let* flags := get_mapping_flags (pml4 a) va in
          if negb (has flags VMM_PRESENT) || negb (has flags VMM_WRITABLE) then ret (-1)
          else access_loop n a (va + PAGE_SIZE) write
      else access_loop n a (va + PAGE_SIZE) write
  end.

Definition vas_user_access_ok (a : vas) (addr len : Z) (write : bool) : M mm Z :=
  if (addr <? VAS_USER_START) || (VAS_USER_END <=? addr) then ret (-1)
  else if VAS_USER_END - addr <? len then ret (-1)
  else if len =? 0 then ret 0
  else
    let start := ALIGN_DOWN addr PAGE_SIZE in
    let end_ := ALIGN_UP (addr + len) PAGE_SIZE in
    access_loop (pages_between start end_) a start write.

(** One page of [vas_clone]: with copy on write for a private writable range. *)
Definition clone_page (src dst : Z) (v : vad) (va : Z) : M mm unit :=
  let prot := Z.land (v_flags v) VAD_PROT_MASK in
  let* src_phys := get_phys src va in
  if src_phys =? 0 then ret tt
  else
    let src_page_phys := ALIGN_DOWN src_phys PAGE_SIZE in
    let* page := gets (fun s => pfndb_phys_to_page s src_page_phys) in
    match page with
    | Some _ =>
        if has prot VMM_WRITABLE && negb (has (v_flags v) VAD_SHARED) then
          let cow_flags := clr prot VMM_WRITABLE in
          page_ref page ;;;
          unmap_page src va ;;;
          map_page src va page cow_flags ;;;
          page_unref page ;;;
          page_mark_cow page ;;;
          map_page dst va page cow_flags
        else map_page dst va page prot
    | None => map_page_phys dst va src_page_phys prot
    end.

Fixpoint clone_loop (src : Z) (l : list vad) (dst : vas) : M mm (option vas) :=
  match l with
  | [] => ret (Some dst)
  | v :: l' =>
      let* nv :=
        (if has (v_flags v) VAD_FILE then
           _vad_alloc_file (v_start v) (v_end v) (v_flags v) (v_file v) (v_file_offset v)
         else _vad_alloc (v_start v) (v_end v) (v_flags v)) in
      match nv with
      | None => vas_destroy dst ;;; ret None
      | Some nv =>
          let dst := set_list (_vad_insert (list_head dst) nv) dst in
          mfor (pages_between (v_start v) (v_end v)) 0 (fun i =>
            clone_page src (pml4 dst) v (v_start v + i * PAGE_SIZE)) ;;;
          clone_loop src l' dst
      end
  end.

Definition vas_clone (src : vas) : M mm (option vas) :=
  let* dst := vas_create 0 in
  match dst with
  | None => ret None
  | Some dst => clone_loop (pml4 src) (list_head src) (set_user_start (user_start src) dst)
  end.
End with_interfaces.
