(* ===== verification/VadProps.v ===== *)
(** * The ranges of an address space

    The list of [vad]s is sorted, its ranges are page aligned, non-empty and
    disjoint; what the queries of vmm.c answer and how placing, inserting and
    cutting keep the list in shape. *)

From stdpp Require Import gmap list sorting.
From Stdlib Require Import ZArith Lia.
From S2P Require Import Prelude Pfndb Pmm Paging Vmm.

Local Open Scope Z_scope.

(** ** Well-formed lists *)

Definition aligned (x : Z) : Prop := x `mod` 4096 = 0.

Record vad_ok (v : vad) : Prop := {
  vok_start : 0 <= v_start v;
  vok_lt : v_start v < v_end v;
  vok_end : v_end v <= VAS_USER_END;
  vok_as : aligned (v_start v);
  vok_ae : aligned (v_end v);
  vok_anon : has (v_flags v) VAD_FILE = false -> v_file v = 0 /\ v_file_offset v = 0;
}.

(** Sorted and disjoint, everything at or above [lo]. *)
Fixpoint vads_from (lo : Z) (l : list vad) : Prop :=
  match l with
  | [] => True
  | v :: l' => lo <= v_start v /\ vad_ok v /\ vads_from (v_end v) l'
  end.

Definition inside (v : vad) (x : Z) : Prop := v_start v <= x < v_end v.
Definition covers (l : list vad) (x : Z) : Prop := exists v, v ∈ l /\ inside v x.

Lemma vads_from_mono lo lo' l : lo' <= lo -> vads_from lo l -> vads_from lo' l.
Proof. destruct l; simpl; [done|]. intros ? (? & ? & ?). split_and!; [lia|done|done]. Qed.

Lemma vads_from_elem lo l v : vads_from lo l -> v ∈ l -> lo <= v_start v /\ vad_ok v.
Proof.
  revert lo. induction l as [|c l IH]; simpl; intros lo H Hv; [by apply elem_of_nil in Hv|].
  destruct H as (H1 & H2 & H3). apply elem_of_cons in Hv as [->|Hv]; [done|].
  destruct (IH _ H3 Hv) as [H4 H5]. split; [|done]. destruct H2. lia.
Qed.

Lemma covers_cons v l x : covers (v :: l) x <-> inside v x \/ covers l x.
Proof.
  unfold covers. split.
  - intros (w & [->|Hw]%elem_of_cons & Hx); [by left|]. right. by exists w.
  - intros [Hx|(w & Hw & Hx)]; [exists v|exists w]; (split; [|done]); apply elem_of_cons; tauto.
Qed.

Lemma covers_nil x : covers [] x <-> False.
Proof. split; [|done]. by intros (v & Hv%elem_of_nil & _). Qed.

Lemma covers_from lo l x : vads_from lo l -> covers l x -> lo <= x <= VAS_USER_END.
Proof.
  intros H (v & Hv & Hx). destruct (vads_from_elem _ _ _ H Hv) as [? []]. unfold inside in Hx. lia.
Qed.

(** ** Looking up *)

Lemma vas_find_spec lo l x :
  vads_from lo l ->
  match vas_find l x with
  | Some v => v ∈ l /\ inside v x
  | None => ~ covers l x
  end.
Proof.
  revert lo. induction l as [|c l IH]; intros lo H; simpl; [by intros ?%covers_nil|].
  destruct H as (H1 & H2 & H3). destruct ((v_start c <=? x) && (x <? v_end c)) eqn:E.
  - bools. split; [apply elem_of_cons; by left|unfold inside; lia].
  - specialize (IH _ H3). destruct (vas_find l x) as [v|].
    + destruct IH. split; [apply elem_of_cons; by right|done].
    + rewrite covers_cons. intros [Hx|Hx]; [|done]. unfold inside in Hx.
      apply andb_false_iff in E as [E|E]; bools; lia.
Qed.

(** The range of [l] at [x] is unique. *)
Lemma vas_find_unique lo l x v : vads_from lo l -> v ∈ l -> inside v x -> vas_find l x = Some v.
Proof.
  revert lo. induction l as [|c l IH]; intros lo H Hv Hx; [by apply elem_of_nil in Hv|].
  destruct H as (H1 & H2 & H3). unfold inside in *. simpl. apply elem_of_cons in Hv as [->|Hv].
  - by rewrite (proj2 (Z.leb_le _ _)), (proj2 (Z.ltb_lt _ _)) by lia.
  - destruct (vads_from_elem _ _ _ H3 Hv) as [H4 _].
    rewrite (proj2 (Z.ltb_ge x (v_end c))), andb_false_r by lia. by eapply IH.
Qed.

(** [vas_find] is exact: on a well-formed list it returns the one range that
    holds the address, and NULL precisely when no range does. *)
Theorem vas_find_exact l x :
  vads_from 0 l ->
  (forall v, vas_find l x = Some v <-> v ∈ l /\ inside v x) /\
  (vas_find l x = None <-> ~ covers l x).
Proof.
  intros H. pose proof (vas_find_spec _ _ x H) as Hs. split.
  - intros v. split; [intros E; by rewrite E in Hs|]. intros [? ?]. by eapply vas_find_unique.
  - destruct (vas_find l x) as [v|]; [|done]. split; [done|]. intros Hn. destruct Hn. by exists v.
Qed.

(** ** Overlaps *)

Lemma overlaps_spec lo l start end_ :
  vads_from lo l -> start < end_ ->
  _vas_overlaps l start end_ = true <-> exists v, v ∈ l /\ v_start v < end_ /\ start < v_end v.
Proof.
  intros H Hse. revert lo H. induction l as [|c l IH]; intros lo H; simpl.
  { split; [done|]. by intros (v & Hv%elem_of_nil & _). }
  destruct H as (H1 & H2 & H3). destruct (end_ <=? v_start c) eqn:E1; bools.
  { split; [done|]. intros (v & [->|Hv]%elem_of_cons & Hx); [lia|].
    destruct (vads_from_elem _ _ _ H3 Hv) as [? _], H2. lia. }
  destruct (start <? v_end c) eqn:E2; bools.
  { split; [|done]. intros _. exists c. split; [apply elem_of_cons; by left|lia]. }
  rewrite (IH _ H3). split; intros (v & Hv & Hx).
  - exists v. split; [apply elem_of_cons; by right|done].
  - exists v. apply elem_of_cons in Hv as [->|Hv]; [lia|done].
Qed.

(** ** [vas_range_mapped] *)

Lemma range_mapped_spec l pos end_ :
  vads_from 0 l -> pos < end_ ->
  range_mapped_loop l pos end_ = true <-> (forall x, pos <= x < end_ -> covers l x).
Proof.
  assert (Hgen : forall l lo pos, vads_from lo l ->
    range_mapped_loop l pos end_ = true <-> (forall x, pos <= x < end_ -> covers l x)).
  { clear l pos. induction l as [|c l IH]; intros lo pos H; simpl.
    - rewrite Z.leb_le. split; [intros ? x ?; lia|]. intros Hx.
      destruct (decide (end_ <= pos)) as [|Hn]; [done|]. exfalso. apply (covers_nil pos), Hx. lia.
    - destruct H as (H1 & H2 & H3). destruct (pos <? end_) eqn:E0; simpl; bools.
      2:{ rewrite (proj2 (Z.leb_le _ _)) by lia. split; [intros ? x ?; lia|done]. }
      destruct (v_end c <=? pos) eqn:E1; bools.
      { rewrite (IH _ _ H3). split; intros Hx x Hr; specialize (Hx x Hr); rewrite covers_cons in *.
        - by right.
        - destruct Hx as [Hx|Hx]; [unfold inside in Hx; lia|done]. }
      destruct (pos <? v_start c) eqn:E2; bools.
      { split; [done|]. intros Hx. specialize (Hx pos ltac:(lia)). rewrite covers_cons in Hx.
        destruct Hx as [Hx|Hx]; [unfold inside in Hx; lia|].
        pose proof (covers_from _ _ _ H3 Hx). destruct H2. lia. }
      rewrite (IH _ _ H3). split; intros Hx x Hr.
      + rewrite covers_cons. unfold inside. destruct (decide (x < v_end c)); [left; lia|].
        right. apply Hx. lia.
      + specialize (Hx x ltac:(lia)). rewrite covers_cons in Hx. unfold inside in Hx.
        destruct Hx as [Hx|Hx]; [lia|done]. }
  intros H _. by apply Hgen with 0.
Qed.

(** [vas_range_mapped] answers yes precisely when every address of the
    page-rounded range lies in some mapped range, also when the range runs over
    several adjacent ones. *)
Theorem vas_range_mapped_exact l start length :
  vads_from 0 l -> 0 <= start < 2 ^ 47 -> 0 < length <= 2 ^ 47 ->
  vas_range_mapped l start length = true <->
  (forall x, start / 4096 * 4096 <= x < start / 4096 * 4096 + (length + 4095) / 4096 * 4096 ->
    covers l x).
Proof.
  intros H Hs Hl. unfold vas_range_mapped. rewrite (proj2 (Z.eqb_neq _ _)) by lia.
  rewrite ALIGN_DOWN_page, ALIGN_UP_page by lia. rewrite u64_small by zdiv.
  rewrite (proj2 (Z.ltb_ge _ _)) by zdiv. apply range_mapped_spec; [done|zdiv].
Qed.

(** ** Placing and inserting *)

Definition apart (v : vad) (lo hi : Z) : Prop := hi <= v_start v \/ v_end v <= lo.

Lemma find_free_ge lo l base length :
  vads_from lo l -> 0 <= base -> aligned base ->
  base <= find_free_loop l base length /\ aligned (find_free_loop l base length).
Proof.
  intros H. revert lo base H. induction l as [|c l IH]; intros lo base H Hb Ha; simpl; [done|].
  destruct H as (H1 & H2 & H3). destruct (_ <=? v_start c); [done|].
  destruct (base <? v_end c) eqn:E; [|by eapply IH].
  destruct H2. unfold VAS_USER_END, aligned in *. bools.
  rewrite ALIGN_UP_page by lia. replace ((v_end c + 4095) / 4096 * 4096) with (v_end c) by zdiv.
  destruct (IH _ (v_end c) H3); [lia|done|]. split; [lia|done].
Qed.

Lemma find_free_apart lo l base length b :
  vads_from lo l -> 0 <= base -> aligned base -> 0 <= length ->
  find_free_loop l base length = b -> b + length < 2 ^ 64 ->
  forall v, v ∈ l -> apart v b (b + length).
Proof.
  intros H. revert lo base H. induction l as [|c l IH]; intros lo base H Hb Ha Hl Hf Hw v Hv;
    [by apply elem_of_nil in Hv|]. simpl in Hf. pose proof H as (H1 & H2 & H3).
  destruct (u64 (base + length) <=? v_start c) eqn:E1.
  { subst b. rewrite u64_small in E1 by lia. bools. left.
    apply elem_of_cons in Hv as [->|Hv]; [done|].
    destruct (vads_from_elem _ _ _ H3 Hv) as [? _], H2. lia. }
  destruct (base <? v_end c) eqn:E2; bools.
  - destruct H2. unfold VAS_USER_END, aligned in *. rewrite ALIGN_UP_page in Hf by lia.
    replace ((v_end c + 4095) / 4096 * 4096) with (v_end c) in Hf by zdiv.
    destruct (find_free_ge _ _ (v_end c) length H3) as [Hge _]; [lia|done|].
    apply elem_of_cons in Hv as [->|Hv]; [right; lia|].
    apply (IH (v_end c) (v_end c)); (done || lia).
  - destruct (find_free_ge _ _ base length H3) as [Hge _]; [lia|done|].
    apply elem_of_cons in Hv as [->|Hv]; [right; lia|].
    apply (IH (v_end c) base); (done || lia).
Qed.

Lemma u64_no_wrap a b : 0 <= a < 2 ^ 64 -> 0 <= b < 2 ^ 64 -> a <= u64 (a + b) -> u64 (a + b) = a + b.
Proof. unfold u64. intros. zdiv. Qed.

Lemma ALIGN_UP_range x : 0 <= ALIGN_UP x PAGE_SIZE < 2 ^ 64 /\ aligned (ALIGN_UP x PAGE_SIZE).
Proof.
  unfold ALIGN_UP, aligned. split; [apply u64_range|]. unfold u64, PAGE_SIZE at 2. zdiv.
Qed.

(** What the three mapping calls get from [place]. *)
Lemma place_ok a hint length flags base :
  vads_from 0 (list_head a) -> 0 <= hint < 2 ^ 64 -> 0 <= user_start a < 2 ^ 64 ->
  0 < length < 2 ^ 64 -> aligned length ->
  place a hint length flags = Some base ->
  0 <= base /\ aligned base /\ base + length <= VAS_USER_END /\
  u64 (base + length) = base + length /\
  forall v, v ∈ list_head a -> apart v base (base + length).
Proof.
  intros H Hh Hu Hl Hal. unfold place. destruct (has flags VAD_FIXED).
  - rewrite ALIGN_DOWN_page by done. set (b := hint / 4096 * 4096).
    destruct ((VAS_USER_END <? _) || _) eqn:E1; [done|]. bools.
    assert (Hb : 0 <= b < 2 ^ 64) by (subst b; zdiv).
    assert (Hw : u64 (b + length) = b + length) by (apply u64_no_wrap; lia). rewrite Hw.
    destruct (_vas_overlaps _ _ _) eqn:E2; [done|].
    intros [= <-]. split_and!; [lia|unfold aligned; subst b; zdiv|lia|done|].
    intros v Hv. unfold apart.
    destruct (decide (b + length <= v_start v)) as [|Hn1]; [by left|right].
    destruct (decide (v_end v <= b)) as [|Hn2]; [done|]. exfalso.
    assert (_vas_overlaps (list_head a) b (b + length) = true); [|congruence].
    eapply overlaps_spec; [done|lia|]. exists v. split; [done|lia].
  - set (h := if hint =? 0 then _ else _). unfold _vas_find_free.
    set (b := find_free_loop _ _ _). destruct (ALIGN_UP_range h) as [Hr Har].
    destruct (find_free_ge 0 (list_head a) (ALIGN_UP h PAGE_SIZE) length H) as [Hge Hba]; [lia|done|].
    fold b in Hge, Hba. destruct ((VAS_USER_END <? _) || _) eqn:E1; [done|]. bools.
    destruct (b =? 0) eqn:E2; [done|]. intros [= <-].
    assert (Hb64 : b < 2 ^ 64) by (pose proof (u64_range (b + length)); lia).
    assert (Hw : u64 (b + length) = b + length) by (apply u64_no_wrap; lia).
    unfold VAS_USER_END in *. split_and!; [lia|done|lia|done|]. eapply find_free_apart; [done| | | |reflexivity|]; (done || lia).
Qed.

Lemma insert_perm l v : _vad_insert l v ≡ₚ v :: l.
Proof.
  induction l as [|c l IH]; simpl; [done|]. destruct (v_start c <? v_start v); [|done].
  rewrite IH. constructor.
Qed.

Lemma insert_from lo l v :
  vads_from lo l -> vad_ok v -> lo <= v_start v ->
  (forall c, c ∈ l -> apart c (v_start v) (v_end v)) -> vads_from lo (_vad_insert l v).
Proof.
  revert lo. induction l as [|c l IH]; intros lo H Hv Hlo Hap; simpl; [done|].
  pose proof H as (H1 & H2 & H3). pose proof Hv as [? ? _ _ _ _]. pose proof H2 as [? ? _ _ _ _].
  destruct (Hap c ltac:(apply elem_of_cons; by left)) as [Hc|Hc];
    destruct (v_start c <? v_start v) eqn:E; bools; try lia; simpl; split_and!; try done.
  apply IH; [done|done|done|]. intros d Hd. apply Hap, elem_of_cons. by right.
Qed.

(** a placed mapping never collides.  Whatever address the mapping calls
    settle on, by search or because the caller fixed it, the new range is page
    aligned, ends inside user space, meets no mapped range, and inserting it
    keeps the list sorted and disjoint with exactly one range more. *)
Theorem place_insert_wf a hint length flags base addr vf :
  vads_from 0 (list_head a) -> 0 <= hint < 2 ^ 64 -> 0 <= user_start a < 2 ^ 64 ->
  0 < length < 2 ^ 64 -> aligned length ->
  place a hint length flags = Some base -> has vf VAD_FILE = false ->
  let v := mkVad addr base (u64 (base + length)) vf 0 0 in
  vads_from 0 (_vad_insert (list_head a) v) /\ _vad_insert (list_head a) v ≡ₚ v :: list_head a /\
  (forall x, inside v x -> ~ covers (list_head a) x).
Proof.
  intros H Hh Hu Hl Hal Hp Hvf v.
  destruct (place_ok _ _ _ _ _ H Hh Hu Hl Hal Hp) as (Hb & Hba & Hbe & Hw & Hap).
  unfold v. rewrite Hw. split_and!.
  - apply insert_from; [done| |done|done]. constructor; simpl; try done; [lia|].
    unfold aligned in *. zdiv.
  - apply insert_perm.
  - intros x Hx (c & Hc & Hcx). specialize (Hap c Hc). unfold inside, apart in *. simpl in *. lia.
Qed.

(** ** Cutting a range out *)

(** What backs the page at [x]: flags, file and offset in the file. *)
Definition backing (l : list vad) (x : Z) : option (Z * Z * Z) :=
  match vas_find l x with
  | None => None
  | Some v => Some (v_flags v, v_file v,
      if has (v_flags v) VAD_FILE then u64 (v_file_offset v + (x - v_start v)) else 0)
  end.

(** The part [lo, hi) of a range, with the heap address [a] of its node. *)
Definition segment (v : vad) (a lo hi : Z) : vad :=
  mkVad a lo hi (v_flags v) (v_file v)
    (if has (v_flags v) VAD_FILE then u64 (v_file_offset v + (lo - v_start v)) else v_file_offset v).

(** A range without [start, end_). *)
Definition vad_minus (start end_ : Z) (v : vad) : list vad :=
  if (v_end v <=? start) || (end_ <=? v_start v) then [v]
  else (if v_start v <? start then [segment v (v_addr v) (v_start v) start] else []) ++
       (if end_ <? v_end v then [segment v (v_addr v) end_ (v_end v)] else []).

(** Two lists that differ only in where their nodes are. *)
Definition unaddr (v : vad) : vad :=
  mkVad 0 (v_start v) (v_end v) (v_flags v) (v_file v) (v_file_offset v).

Lemma vads_from_unaddr lo l l' : map unaddr l = map unaddr l' -> vads_from lo l -> vads_from lo l'.
Proof.
  revert lo l'. induction l as [|v l IH]; intros lo [|v' l']; simpl; try done.
  intros [= H1 H2 H3 H4 H5 Hm] (Hlo & [] & Hl). destruct v, v'; simpl in *; subst.
  split_and!; [done|by constructor|by apply IH].
Qed.

Lemma backing_cons v l x :
  backing (v :: l) x =
  if (v_start v <=? x) && (x <? v_end v) then
    Some (v_flags v, v_file v,
      if has (v_flags v) VAD_FILE then u64 (v_file_offset v + (x - v_start v)) else 0)
  else backing l x.
Proof. unfold backing. simpl. by destruct (_ && _). Qed.

Lemma backing_unaddr l l' x : map unaddr l = map unaddr l' -> backing l x = backing l' x.
Proof.
  revert l'. induction l as [|v l IH]; intros [|v' l']; simpl; try done.
  intros [= H1 H2 H3 H4 H5 Hm]. rewrite !backing_cons, H1, H2, H3, H4, H5. by rewrite (IH l').
Qed.

Lemma u64_offset off a b c : u64 (u64 (off + (b - a)) + (c - b)) = u64 (off + (c - a)).
Proof. unfold u64. rewrite Zplus_mod_idemp_l. f_equal. lia. Qed.

Lemma segment_ok v a lo hi :
  vad_ok v -> v_start v <= lo -> lo < hi -> hi <= v_end v -> aligned lo -> aligned hi ->
  vad_ok (segment v a lo hi).
Proof.
  intros [] H1 H2 H3 Ha1 Ha2. constructor; simpl; try lia; [done|done|].
  intros Hf. rewrite Hf. auto.
Qed.

Lemma backing_none lo l x : vads_from lo l -> x < lo -> backing l x = None.
Proof.
  intros H Hx. unfold backing. pose proof (vas_find_spec _ _ x H) as Hf.
  destruct (vas_find l x) as [v|]; [|done]. destruct Hf as [Hv Hi].
  destruct (vads_from_elem _ _ _ H Hv). unfold inside in Hi. lia.
Qed.

Lemma minus_from start end_ lo l :
  aligned start -> aligned end_ -> start < end_ -> vads_from lo l ->
  vads_from lo (flat_map (vad_minus start end_) l).
Proof.
  intros Has Hae Hse. revert lo. induction l as [|v l IH]; intros lo H; [done|].
  pose proof H as (H1 & H2 & H3). simpl. unfold vad_minus. pose proof H2 as [? ? ? ? ? ?].
  specialize (IH _ H3).
  destruct ((v_end v <=? start) || (end_ <=? v_start v)) eqn:E; [simpl; split_and!; done|]. bools.
  destruct (v_start v <? start) eqn:E1, (end_ <? v_end v) eqn:E2; bools; simpl.
  - split_and!; [done|apply segment_ok; (done || lia)|lia|apply segment_ok; (done || lia)|done].
  - split_and!; [done|apply segment_ok; (done || lia)|]. eapply vads_from_mono; [|done]. lia.
  - split_and!; [lia|apply segment_ok; (done || lia)|done].
  - eapply vads_from_mono; [|done]. lia.
Qed.

Lemma minus_backing start end_ lo l x :
  start < end_ -> vads_from lo l ->
  backing (flat_map (vad_minus start end_) l) x =
  if (start <=? x) && (x <? end_) then None else backing l x.
Proof.
  intros Hse. revert lo. induction l as [|v l IH]; intros lo H.
  { unfold backing. simpl. by destruct (_ && _). }
  pose proof H as (H1 & H2 & H3). destruct H2 as [? ? ? ? ? ?]. specialize (IH _ H3).
  simpl. rewrite (backing_cons v l). unfold vad_minus at 1.
  destruct ((v_end v <=? start) || (end_ <=? v_start v)) eqn:E.
  - simpl. rewrite backing_cons, IH. apply orb_true_iff in E.
    destruct ((v_start v <=? x) && (x <? v_end v)) eqn:Ex; [|done]. bools.
    destruct ((start <=? x) && (x <? end_)) eqn:Ey; [|done]. bools. destruct E; blia.
  - bools.
    destruct (v_start v <? start) eqn:E1, (end_ <? v_end v) eqn:E2; bools; simpl app;
      rewrite ?backing_cons; simpl; rewrite IH;
      destruct (start <=? x) eqn:Ex1, (x <? end_) eqn:Ex2, (v_start v <=? x) eqn:Ex3,
        (x <? v_end v) eqn:Ex4; bools; simpl;
      rewrite ?(proj2 (Z.ltb_lt x start)) by lia;
      rewrite ?(proj2 (Z.ltb_ge x start)) by lia;
      rewrite ?(proj2 (Z.leb_le end_ x)) by lia;
      rewrite ?(proj2 (Z.leb_gt end_ x)) by lia; simpl; try done; try lia;
      try (by rewrite (backing_none _ _ _ H3) by lia);
      destruct (has (v_flags v) VAD_FILE); try done; by rewrite u64_offset.
Qed.
