(* ===== verification/VmmProps.v ===== *)
(** * Properties of address spaces (kernel/src/mm/vmm.c)

    The operations of vmm.c as a whole: ranges, page table, heap and allocator
    together.  The heap appears only through what its interface promises
    ([HeapAlloc] for mapping, [HeapSpec] for unmapping).  The ranges that are cut
    are anonymous: letting go of a mapped file may free the file's own pages. *)

From stdpp Require Import gmap list.
From Stdlib Require Import ZArith Lia.
From S2P Require Import Prelude Pfndb Pmm Paging PagingRel PagingProps HeapIface Vmm VadProps.

Local Open Scope Z_scope.

Section vmm_props.
Context {H : KHeap} {N : VnodeOps} {HA : HeapAlloc}.

(** The heap steps of one operation: from [s] to a state that satisfies [Q]. *)
Definition heaped (n : nat) (s : mm) (l : list Z) (u : gmap Z ustate) (h : gset Z)
    (A : list Z) (s' : mm) : Prop :=
  exists l' u' h', heap_step n s l u h s' l' u' h' /\ heap_rep s' h' A.

Lemma heaped_bind {X Y} (m : M mm X) (k : X -> M mm Y) n1 n2 s l u h A1 A2
    (P : X -> Prop) (Q : Y -> Prop) :
  wp m s (fun x s1 => P x /\ heaped n1 s l u h (A1 x) s1) ->
  (forall x s1 l1 u1 h1, P x -> pmm_rel s1 l1 u1 -> heap_used h1 u1 -> heap_rep s1 h1 (A1 x) ->
     (length l <= n1 + length l1)%nat ->
     wp (k x) s1 (fun y s2 => Q y /\ heaped n2 s1 l1 u1 h1 (A2 y) s2)) ->
  wp (bind m k) s (fun y s2 => Q y /\ heaped (n1 + n2) s l u h (A2 y) s2).
Proof.
  intros Hm Hk. apply wp_bind. eapply wp_mono; [exact Hm|].
  intros x s1 (HP & l1 & u1 & h1 & S1 & R1). pose proof S1 as [? ? _ _ _ _ _ ?].
  eapply wp_mono; [by apply (Hk x s1 l1 u1 h1)|].
  intros y s2 (HQ & l2 & u2 & h2 & S2 & R2). split; [done|].
  exists l2, u2, h2. split; [by eapply heap_step_trans|done].
Qed.

Lemma heaped_ret {X} (x : X) s l u h A (Q : X -> Prop) :
  pmm_rel s l u -> heap_used h u -> heap_rep s h (A x) -> Q x ->
  wp (ret x) s (fun x s' => Q x /\ heaped 0 s l u h (A x) s').
Proof.
  intros R U Hr HQ. apply wp_ret. split; [done|]. exists l, u, h. split; [|done].
  by apply heap_step_refl.
Qed.

(** ** Allocating and freeing nodes *)

Lemma vad_alloc_wp start end_ flags s l u h A :
  heap_rep s h A -> heap_used h u -> pmm_rel s l u -> l <> [] ->
  wp (_vad_alloc start end_ flags) s (fun x s' =>
    (exists a, x = Some (mkVad a start end_ flags 0 0)) /\
    heaped 1 s l u h (match x with Some v => v_addr v :: A | None => A end) s').
Proof.
  intros Hr Hu R Hl. unfold _vad_alloc. apply wp_bind.
  eapply wp_mono; [by apply kzalloc_spec|]. intros a s' (Ha & l' & u' & h' & S & Hr').
  rewrite (proj2 (Z.eqb_neq _ _)) by done. apply wp_ret. split; [eauto|]. by exists l', u', h'.
Qed.

Lemma vad_free_wp {HS : HeapSpec} v s l u h A :
  vad_ok v -> has (v_flags v) VAD_FILE = false ->
  heap_rep s h (v_addr v :: A) -> heap_used h u -> pmm_rel s l u ->
  wp (_vad_free v) s (fun _ s' => True /\ heaped 0 s l u h A s').
Proof.
  intros Hv Hf Hr Hu R. unfold _vad_free. destruct (vok_anon _ Hv Hf) as [-> _].
  eapply (heaped_bind _ _ 0 0 _ _ _ _ (fun _ => v_addr v :: A) (fun _ => A) (fun _ => True)).
  - apply wp_ret. split; [done|]. exists l, u, h. split; [by apply heap_step_refl|done].
  - intros ? s1 l1 u1 h1 _ R1 U1 Hr1 _.
    eapply wp_mono; [by eapply kfree_spec|]. intros ? ? E. by split.
Qed.

(** A cloned part of a range is its segment. *)
Lemma vad_clone_wp v lo hi s l u h A :
  vad_ok v -> has (v_flags v) VAD_FILE = false ->
  heap_rep s h A -> heap_used h u -> pmm_rel s l u -> l <> [] ->
  wp (_vad_clone_segment v lo hi) s (fun x s' =>
    (exists a, x = Some (segment v a lo hi)) /\
    heaped 1 s l u h (match x with Some v => v_addr v :: A | None => A end) s').
Proof.
  intros Hv E Hr Hu R Hl. unfold _vad_clone_segment, segment.
  rewrite E. destruct (vok_anon _ Hv E) as [-> ->]. by apply vad_alloc_wp.
Qed.

Lemma opt_clone_wp (b : bool) v lo hi s l u h A :
  vad_ok v -> has (v_flags v) VAD_FILE = false ->
  heap_rep s h A -> heap_used h u -> pmm_rel s l u -> l <> [] ->
  wp (if b then _vad_clone_segment v lo hi else ret None) s (fun x s' =>
    (exists a, x = if b then Some (segment v a lo hi) else None) /\
    heaped 1 s l u h (map v_addr (option_list x) ++ A) s').
Proof.
  intros Hv E Hr Hu R Hl. destruct b.
  - eapply wp_mono; [by apply vad_clone_wp|]. intros x s' [[a ->] HH]. split; [eauto|done].
  - apply wp_ret. split; [by exists 0|]. exists l, u, h. split; [|done].
    destruct (heap_step_refl s l u h R Hu). constructor; try done. lia.
Qed.

Lemma vad_cut_wp {HS : HeapSpec} v start end_ s l u h A :
  vad_ok v -> has (v_flags v) VAD_FILE = false -> heap_rep s h (v_addr v :: A) -> heap_used h u -> pmm_rel s l u ->
  (2 <= length l)%nat -> (v_end v <=? start) || (end_ <=? v_start v) = false ->
  wp (vad_cut v start end_) s (fun k s' =>
    map unaddr k = map unaddr (vad_minus start end_ v) /\
    heaped 2 s l u h (map v_addr k ++ A) s').
Proof.
  intros Hv Han Hr Hu R Hl E. unfold vad_cut, vad_minus. rewrite E.
  eapply (heaped_bind _ _ 1 1); [apply (opt_clone_wp _ _ _ _ _ l u h (v_addr v :: A)); try done;
    intros ->; simpl in Hl; lia|].
  intros x s1 l1 u1 h1 [a1 Hx] R1 U1 Hr1 Hl1.
  eapply (heaped_bind _ _ 1 0); [apply (opt_clone_wp _ _ _ _ _ l1 u1 h1 (map v_addr (option_list x) ++ v_addr v :: A));
    try done; intros ->; simpl in Hl1; lia|].
  intros y s2 l2 u2 h2 [a2 Hy] R2 U2 Hr2 Hl2.
  eapply (heaped_bind _ _ 0 0 _ _ _ _ (fun _ => map v_addr (option_list x ++ option_list y) ++ A) _ (fun _ => True)).
  - apply vad_free_wp; [done|done| |done|done]. eapply heap_perm; [|exact Hr2].
    rewrite map_app, <- app_assoc. rewrite Permutation_app_swap_app.
    by rewrite <- !Permutation_middle.
  - intros ? s3 l3 u3 h3 _ R3 U3 Hr3 _. apply heaped_ret; [done|done|done|].
    rewrite Hx, Hy. by destruct (v_start v <? start), (end_ <? v_end v).
Qed.

(** The ranges a cut touches map no file. *)
Definition anon_in (start end_ : Z) (l : list vad) : Prop :=
  forall v, v ∈ l -> has (v_flags v) VAD_FILE = true -> v_end v <= start \/ end_ <= v_start v.

Lemma remove_range_wp {HS : HeapSpec} start end_ l s fl u h A lo :
  vads_from lo l -> anon_in start end_ l -> heap_rep s h (map v_addr l ++ A) -> heap_used h u -> pmm_rel s fl u ->
  (2 * length l <= length fl)%nat ->
  wp (_vad_remove_range l start end_) s (fun l' s' =>
    map unaddr l' = map unaddr (flat_map (vad_minus start end_) l) /\
    heaped (2 * length l) s fl u h (map v_addr l' ++ A) s').
Proof.
  revert s fl u h A lo. induction l as [|v l IH]; intros s fl u h A lo Hl Han Hr Hu R Hlen.
  { by apply (heaped_ret [] _ _ _ _ (fun l' => map v_addr l' ++ A)). }
  destruct Hl as (H1 & H2 & H3). simpl _vad_remove_range. simpl in Hlen.
  assert (Han' : anon_in start end_ l) by (intros w Hw; apply Han; by right).
  replace (2 * length (v :: l))%nat with (2 + 2 * length l)%nat by (simpl; lia).
  destruct ((v_end v <=? start) || (end_ <=? v_start v)) eqn:E.
  - assert (Hm : wp (let* r := _vad_remove_range l start end_ in ret (v :: r)) s (fun l' s' =>
      map unaddr l' = map unaddr (flat_map (vad_minus start end_) (v :: l)) /\
      heaped (2 * length l + 0) s fl u h (map v_addr l' ++ A) s')).
    { eapply (heaped_bind _ _ _ 0 _ _ _ _ (fun l' => map v_addr l' ++ v_addr v :: A)).
      - eapply IH; [done|done| |done|done|lia]. eapply heap_perm; [|exact Hr]. simpl.
        by rewrite <- Permutation_middle.
      - intros r s1 l1 u1 h1 Hr1 R1 U1 Hp1 _. apply heaped_ret; [done|done| |].
        + eapply heap_perm; [|exact Hp1]. simpl. by rewrite <- Permutation_middle.
        + simpl. rewrite Hr1. unfold vad_minus at 2. by rewrite E. }
    eapply wp_mono; [exact Hm|]. intros l' s' [Hq (l1 & u1 & h1 & [] & Hp)]. split; [done|].
    exists l1, u1, h1. split; [|done]. constructor; try done. lia.
  - eapply (heaped_bind _ _ 2 (2 * length l) _ _ _ _ (fun k => map v_addr k ++ map v_addr l ++ A)).
    + apply vad_cut_wp; [done| |exact Hr|done|done|lia|done].
      destruct (has (v_flags v) VAD_FILE) eqn:Ef; [|done].
      apply orb_false_iff in E as [E1 E2]. bools. destruct (Han v ltac:(left) Ef); lia.
    + intros k s1 l1 u1 h1 Hk R1 U1 Hp1 Hl1.
      replace (2 * length l)%nat with (2 * length l + 0)%nat by lia.
      eapply (heaped_bind _ _ _ 0 _ _ _ _ (fun l' => map v_addr l' ++ map v_addr k ++ A)).
      * eapply IH; [done|done| |done|done|lia]. eapply heap_perm; [|exact Hp1].
        rewrite !app_assoc. by rewrite (Permutation_app_comm (map v_addr k)).
      * intros r s2 l2 u2 h2 Hr2 R2 U2 Hp2 _. apply heaped_ret; [done|done| |].
        -- eapply heap_perm; [|exact Hp2]. rewrite map_app, !app_assoc.
           by rewrite (Permutation_app_comm (map v_addr r)).
        -- simpl. by rewrite !map_app, Hk, Hr2.
Qed.

(** cutting a range out of an address space is exact.  [_vad_remove_range]
    returns for ranges that map no file, the list stays sorted and disjoint, every address of the range loses
    its backing, every other address keeps its flags, its file and its offset in
    the file, and the heap holds exactly the nodes of the new list. *)
Theorem remove_range_exact {HS : HeapSpec} start end_ l s fl u h A :
  vads_from 0 l -> anon_in start end_ l -> aligned start -> aligned end_ -> start < end_ ->
  heap_rep s h (map v_addr l ++ A) -> heap_used h u -> pmm_rel s fl u ->
  (2 * length l <= length fl)%nat ->
  wp (_vad_remove_range l start end_) s (fun l' s' =>
    vads_from 0 l' /\
    (forall x, backing l' x = if (start <=? x) && (x <? end_) then None else backing l x) /\
    exists h', heap_rep s' h' (map v_addr l' ++ A)).
Proof.
  intros Hl Han Ha He Hse Hr Hu R Hlen. eapply wp_mono; [by eapply remove_range_wp|].
  intros l' s' (Hm & fl' & u' & h' & _ & Hr'). split_and!; [| |eauto].
  - eapply vads_from_unaddr; [symmetry; exact Hm|]. by apply minus_from.
  - intros x. rewrite (backing_unaddr _ _ _ Hm). by eapply minus_backing.
Qed.

(** ** Committing and releasing pages *)

(** The address space as the page table and the allocator see it; the slots [F]
    of the upper half of its root are the boot loader's. *)
Record space (F : gset Z) (s : mm) (l : list Z) (u : gmap Z ustate) (r : Z) (tabs m : gmap path Z)
    (ext : Z -> Z) : Prop := {
  sp_rel : pmm_rel s l u;
  sp_pt : pt_rel F s r tabs m u;
  sp_acct : acct (max_pfn s) ext m u;
  sp_upper : forall i, i ∈ F -> 256 <= i;
}.

(** The frames in use for something else than this table, but for those in [X],
    keep their words and counters. *)
Definition kept (X : Z -> Prop) (s : mm) (u : gmap Z ustate) (tabs : gmap path Z)
    (s' : mm) (u' : gmap Z ustate) (tabs' : gmap path Z) : Prop :=
  forall f st, u !! f = Some st -> (forall p, tabs !! p <> Some f) -> ~ X f ->
    u' !! f = Some st /\ (forall p, tabs' !! p <> Some f) /\
    (forall i, rd_word s' f i = rd_word s f i).

Definition nothing (f : Z) : Prop := False.

Lemma kept_refl X s u tabs : kept X s u tabs s u tabs.
Proof. by intros f st. Qed.

Lemma kept_trans X s u tabs s1 u1 tabs1 s2 u2 tabs2 :
  kept X s u tabs s1 u1 tabs1 -> kept X s1 u1 tabs1 s2 u2 tabs2 -> kept X s u tabs s2 u2 tabs2.
Proof.
  intros K1 K2 f st Hf Ht HX. destruct (K1 f st Hf Ht HX) as (H1 & H2 & H3).
  destruct (K2 f st H1 H2 HX) as (H4 & H5 & H6). split_and!; [done|done|]. intros i. by rewrite H6.
Qed.

Lemma kept_mono (X Y : Z -> Prop) s u tabs s' u' tabs' :
  (forall f, X f -> Y f) -> kept X s u tabs s' u' tabs' -> kept Y s u tabs s' u' tabs'.
Proof. intros HXY K f st Hf Ht HY. apply K; auto. Qed.

Lemma acct_ref mx ext m u g st r' :
  acct mx ext m u -> u !! g = Some st -> u_share st <= r' ->
  acct mx ext m (<[g := mkU r' (u_share st) (u_cow st)]> u).
Proof.
  intros A Hg Hr. constructor.
  - intros g' st'. rewrite lookup_insert. case_decide; subst; [|by apply (acct_share _ _ _ _ A)].
    intros [= <-]. destruct (acct_share _ _ _ _ A _ _ Hg) as (? & ? & ?). simpl. lia.
  - intros q e Hq Hle. rewrite lookup_insert_is_Some.
    destruct (decide (g = pte_frame e)); [by left|]. right. split; [done|]. by eapply acct_used.
  - intros g' Hle. rewrite lookup_insert. case_decide; [done|]. by eapply acct_free.
Qed.

(** One round of [_commit_anon]: a fresh frame, mapped once and owned by the
    mapping alone. *)
Lemma commit_page_wp F s l u r tabs m ext va prot :
  space F s l u r tabs m ext -> 0 <= va < 2 ^ 47 -> (4 <= length l)%nat ->
  m !! path_of va = None ->
  exists g l0, l = g :: l0 /\
  wp palloc_page s (fun page s0 => page = Some g /\
    wp (map_page (r * 4096) va page prot) s0 (fun _ s1 =>
      wp (page_unref page) s1 (fun _ s' => exists l' u' tabs',
        let m' := <[path_of va := make_pte (g * 4096) prot]> m in
        space F s' l' u' r tabs' m' ext /\ u !! g = None /\ 0 < g < 2 ^ 40 /\
        u' !! g = Some (mkU 1 1 false) /\ u ⊆ delete g u' /\
        kept nothing s u tabs s' u' tabs' /\ env_eq s s' /\ (length l <= 4 + length l')%nat))).
Proof.
  intros [Rm R A Hup] Hva Hlen Hm. pose proof (user_slot F va Hva Hup) as Ho. destruct l as [|g l]; [simpl in Hlen; lia|]. exists g, l.
  split; [done|]. simpl in Hlen.
  pose proof (free_in_range _ _ _ g Rm ltac:(left)) as Hgr. pose proof (rel_max _ _ _ Rm) as Hmax.
  pose proof (free_not_used _ _ _ g Rm ltac:(left)) as Hgu.
  eapply wp_mono; [by apply palloc_page_wp|]. intros ? s0 (-> & Rm0 & Hf0 & He0). split; [done|].
  pose proof He0 as (Hx0 & _).
  assert (Hgt : forall p, tabs !! p <> Some g).
  { intros p Hp. pose proof (pt_used _ _ _ _ _ R _ _ Hp). congruence. }
  assert (R0 : pt_rel F s0 r tabs m (<[g := mkU 1 0 false]> u)).
  { eapply pt_rel_frame; [exact R| |].
    - intros p f i _. by apply rd_frames_eq.
    - intros p f Hp. rewrite lookup_insert_ne; [done|]. intros ->. by eapply Hgt. }
  assert (A0 : acct (max_pfn s0) ext m (<[g := mkU 1 0 false]> u)).
  { rewrite Hx0. apply acct_fresh; [done|lia|done]. }
  eapply wp_mono.
  { eapply map_page_wp; [exact Rm0|exact R0|exact A0|lia|exact Ho|lia|apply lookup_insert_eq|done|simpl; lia|].
    intros e. by rewrite Hm. }
  intros ? s1 (l1 & u1 & tabs' & st1 & Hst & Rm1 & R1 & A1 & He1 & (new & Hnew & Hnl) & Hsub & Hts & Hnt & Hwd & _).
  unfold drop_at in *. rewrite Hm in *. simpl in *.
  assert (st1 = mkU 1 0 false) as ->.
  { rewrite (lookup_weaken _ _ _ _ (lookup_insert_eq u g (mkU 1 0 false)) Hsub) in Hst. congruence. }
  simpl in *. set (u2 := <[g := mkU (1 + 1) (0 + 1) false]> u1) in *.
  assert (Hg2 : u2 !! g = Some (mkU 2 1 false)) by apply lookup_insert_eq.
  eapply wp_intro; [eapply page_unref_many; [exact Rm1|exact Hg2|simpl; lia]|]. simpl.
  assert (Hok : ust_ok (mkU 1 1 false)) by (split; simpl; lia).
  pose proof (rel_update_used _ _ _ _ _ _ Rm1 Hg2 Hok) as Rm2.
  assert (Hu2 : forall f st, u !! f = Some st -> f <> g /\ u1 !! f = Some st).
  { intros f st Hf. assert (f <> g) by congruence. split; [done|].
    eapply lookup_weaken; [|exact Hsub]. by rewrite lookup_insert_ne. }
  assert (Hgt' : forall p, tabs' !! p <> Some g).
  { intros p [Hp|[Hp _]]%Hnt; [by eapply Hgt|]. by rewrite lookup_insert_eq in Hp. }
  exists l1, (<[g := mkU 1 1 false]> u2), tabs'. pose proof He1 as (Hx1 & _). split_and!; try done.
  - constructor; [done| | |done].
    + eapply pt_rel_frame; [exact R1|done|]. intros p f Hp.
      rewrite lookup_insert_ne; [done|]. intros ->. by eapply Hgt'.
    + simpl. rewrite Hx1. apply (acct_ref _ _ _ _ _ (mkU 2 1 false)); simpl; [exact A1|done|lia].
  - lia.
  - lia.
  - by rewrite lookup_insert_eq.
  - apply map_subseteq_spec. intros f st Hf. destruct (Hu2 _ _ Hf) as [Hne Hf1].
    subst u2. by rewrite lookup_delete_ne, !lookup_insert_ne.
  - intros f st Hf Hft _. destruct (Hu2 _ _ Hf) as [Hne Hf1].
    assert (Hft' : forall p, tabs' !! p <> Some f).
    { intros p [Hp|[Hp _]]%Hnt; [by eapply Hft|]. rewrite lookup_insert_ne in Hp by done. congruence. }
    split_and!; [subst u2; by rewrite !lookup_insert_ne|done|].
    intros i. change (rd_word s1 f i = rd_word s f i). rewrite Hwd; [|by intros p _; apply Hft'|done].
    by apply rd_frames_eq.
  - etrans; [exact He0|exact He1].
  - subst l. rewrite length_app. lia.
Qed.

(** The pages of [n] rounds from [va]. *)
Definition in_pages (va : Z) (n : nat) (x : Z) : Prop := va <= x < va + Z.of_nat n * 4096.

Lemma path_ne_pages va n x :
  aligned va -> 0 <= va -> va + Z.of_nat (S n) * 4096 <= 2 ^ 48 -> in_pages (va + 4096) n x ->
  path_of va <> path_of x.
Proof.
  unfold in_pages, aligned. intros Ha H0 Hb Hx E. apply path_of_inj in E; [|lia|lia]. zdiv.
Qed.

(** What a fresh anonymous page at [x] looks like. *)
Definition fresh_at (u u' : gmap Z ustate) (m' : gmap path Z) (prot x : Z) : Prop :=
  exists g, m' !! path_of x = Some (make_pte (g * 4096) prot) /\ u !! g = None /\
    0 < g < 2 ^ 40 /\ u' !! g = Some (mkU 1 1 false).

Lemma commit_anon_wp F n s l u r tabs m ext va prot :
  space F s l u r tabs m ext -> 0 <= va -> aligned va -> va + Z.of_nat n * 4096 <= 2 ^ 47 ->
  (4 * n <= length l)%nat -> (forall x, in_pages va n x -> m !! path_of x = None) ->
  wp (commit_anon_loop n (r * 4096) va prot) s (fun x s' => x = 0 /\ exists l' u' tabs' m',
    space F s' l' u' r tabs' m' ext /\
    (forall x, in_pages va n x -> fresh_at u u' m' prot x) /\
    (forall q, (forall x, in_pages va n x -> q <> path_of x) -> m' !! q = m !! q) /\
    kept nothing s u tabs s' u' tabs' /\ env_eq s s' /\ (length l <= 4 * n + length l')%nat /\
    u ⊆ u').
Proof.
  revert va s l u tabs m. induction n as [|n IH]; intros va s l u tabs m Sp H0 Ha Hb Hlen Hm.
  { apply wp_ret. split; [done|]. exists l, u, tabs, m. split_and!; try done.
    unfold in_pages. intros x Hx. lia. }
  destruct (commit_page_wp F s l u r tabs m ext va prot Sp) as (g & l0 & -> & Hpage);
    [lia|lia|apply Hm; unfold in_pages; lia|].
  simpl commit_anon_loop. apply wp_bind. eapply wp_mono; [exact Hpage|].
  intros ? s0 (-> & Hmap). apply wp_bind. eapply wp_mono; [exact Hmap|].
  intros ? s1 Hun. apply wp_bind. eapply wp_mono; [exact Hun|].
  intros ? s2 (l2 & u2 & tabs2 & Sp2 & Hg & Hgr & Hg2 & Hsub & K2 & He2 & Hlen2). clear Hpage Hmap Hun.
  set (m2 := <[path_of va := _]> m) in *.
  assert (Hsub2 : u ⊆ u2) by (etrans; [exact Hsub|apply delete_subseteq]).
  assert (Hne : forall x, in_pages (va + 4096) n x -> path_of va <> path_of x)
    by (intros x; apply path_ne_pages; (done || lia)).
  eapply wp_mono.
  { apply (IH (va + PAGE_SIZE) s2 l2 u2 tabs2 m2 Sp2); unfold PAGE_SIZE, aligned in *; [lia|zdiv|lia|lia|].
    intros x Hx. subst m2. rewrite lookup_insert_ne by (by apply Hne). apply Hm.
    unfold in_pages in *. lia. }
  intros ? s3 (-> & l3 & u3 & tabs3 & m3 & Sp3 & Hin3 & Hout3 & K3 & He3 & Hlen3 & Hsub3).
  unfold PAGE_SIZE in *. split; [done|]. exists l3, u3, tabs3, m3. split_and!; [done| | | | | |].
  - intros x Hx. destruct (decide (x < va + 4096)) as [Hlt|Hge].
    + assert (Hpx : path_of x = path_of va).
      { apply path_of_inj; unfold in_pages, aligned in *; zdiv. }
      exists g. rewrite Hpx, Hout3 by done. subst m2. rewrite lookup_insert_eq. split_and!; try done; [lia|lia|].
      by eapply lookup_weaken.
    + destruct (Hin3 x) as (g' & Hg' & Hu' & Hr' & Hf'); [unfold in_pages in *; lia|].
      exists g'. split_and!; try done; [|lia|lia].
      destruct (u !! g') eqn:E; [|done]. by rewrite (lookup_weaken _ _ _ _ E Hsub2) in Hu'.
  - intros q Hq. rewrite Hout3 by (intros x Hx; apply Hq; unfold in_pages in *; lia).
    subst m2. rewrite lookup_insert_ne; [done|]. intros <-. eapply Hq; [|done]. unfold in_pages. lia.
  - by eapply kept_trans.
  - by etrans.
  - lia.
  - by etrans.
Qed.

(** One page less. *)
Lemma unmap_step_wp F s l u r tabs m ext va :
  space F s l u r tabs m ext -> 0 <= va < 2 ^ 47 ->
  wp (unmap_page (r * 4096) va) s (fun _ s' => exists l' u' tabs',
    space F s' l' u' r tabs' (delete (path_of va) m) ext /\
    kept (fun f => exists e, m !! path_of va = Some e /\ pte_frame e = f) s u tabs s' u' tabs' /\
    env_eq s s' /\ (length l <= length l')%nat).
Proof.
  intros [Rm R A Hup] Hva. pose proof (user_slot F va Hva Hup) as Ho.
  eapply wp_mono; [eapply unmap_page_wp; [exact Rm|exact R|exact A|lia|exact Ho]|].
  intros ? s' (l' & u' & tabs' & Rm' & R' & A' & He & (fr & Hfr) & Hsub & Hts & Hkeep & Hwd & _).
  pose proof He as (Hx & _). exists l', u', tabs'. split_and!; [|intros f st Hf Ht HX|done|].
  - constructor; [done|done| |done]. by rewrite Hx.
  - assert (Hne : forall e, m !! path_of va = Some e -> pte_frame e <> f).
    { intros e Hm Hpe. apply HX. eauto. }
    split_and!.
    + apply Hkeep; [|done]. unfold drop_at. destruct (m !! path_of va) as [e|] eqn:Em; [|done].
      rewrite drop_abs_ne; [done|]. intros E. by eapply Hne.
    + intros p Hp. eapply Ht. by eapply lookup_weaken.
    + intros i. apply Hwd; [done|]. intros e Hm E. by destruct (Hne e Hm).
  - rewrite Hfr, length_app. unfold drop_at. destruct (m !! path_of va) as [e|]; [|simpl; lia].
    unfold drop_abs. repeat case_match; simpl; lia.
Qed.

Lemma uncommit_wp F n s l u r tabs m ext va :
  space F s l u r tabs m ext -> 0 <= va -> aligned va -> va + Z.of_nat n * 4096 <= 2 ^ 47 ->
  wp (mfor n 0 (fun i => unmap_page (r * 4096) (va + i * PAGE_SIZE))) s (fun _ s' =>
    exists l' u' tabs' m',
    space F s' l' u' r tabs' m' ext /\
    (forall x, in_pages va n x -> m' !! path_of x = None) /\
    (forall q, (forall x, in_pages va n x -> q <> path_of x) -> m' !! q = m !! q) /\
    kept (fun f => exists x e, in_pages va n x /\ m !! path_of x = Some e /\ pte_frame e = f)
      s u tabs s' u' tabs' /\ env_eq s s' /\ (length l <= length l')%nat /\ m' ⊆ m).
Proof.
  intros Sp H0 Ha Hb.
  set (X := fun f => exists x e, in_pages va n x /\ m !! path_of x = Some e /\ pte_frame e = f).
  eapply wp_mono; [apply (wp_mfor (fun k s' => exists l' u' tabs' m',
    space F s' l' u' r tabs' m' ext /\
    (forall x, in_pages va (Z.to_nat k) x -> m' !! path_of x = None) /\
    (forall q, (forall x, in_pages va (Z.to_nat k) x -> q <> path_of x) -> m' !! q = m !! q) /\
    kept X s u tabs s' u' tabs' /\ env_eq s s' /\ (length l <= length l')%nat /\ m' ⊆ m))|].
  - exists l, u, tabs, m. split_and!; try done. unfold in_pages. simpl. intros x Hx. lia.
  - intros j s1 Hj (l1 & u1 & tabs1 & m1 & Sp1 & Hin & Hout & K1 & He1 & Hl1 & Hsub1).
    eapply wp_mono; [apply (unmap_step_wp _ _ _ _ _ _ _ _ _ Sp1); unfold PAGE_SIZE; lia|].
    intros ? s2 (l2 & u2 & tabs2 & Sp2 & K2 & He2 & Hl2). unfold PAGE_SIZE in *.
    exists l2, u2, tabs2, (delete (path_of (va + j * 4096)) m1).
    assert (Hpath : forall x, in_pages va (Z.to_nat (j + 1)) x -> va + j * 4096 <= x ->
      path_of x = path_of (va + j * 4096)).
    { unfold in_pages, aligned in *. intros x Hx Hge. apply path_of_inj; [lia|lia|zdiv]. }
    split_and!; [done| | | |by etrans|lia|etrans; [apply delete_subseteq|done]].
    + intros x Hx. destruct (decide (va + j * 4096 <= x)) as [Hge|Hlt].
      * rewrite Hpath by done. apply lookup_delete_eq.
      * apply lookup_delete_None. right. apply Hin. unfold in_pages in *. lia.
    + intros q Hq. rewrite lookup_delete_ne.
      * apply Hout. intros x Hx. apply Hq. unfold in_pages in *. lia.
      * intros <-. eapply Hq; [|done]. unfold in_pages. lia.
    + eapply kept_trans; [exact K1|]. eapply kept_mono; [|exact K2].
      intros f (e & Hm & Hf). exists (va + j * 4096), e. split_and!; [unfold in_pages; lia| |done].
      by eapply lookup_weaken.
  - intros ? s' (l' & u' & tabs' & m' & HH). rewrite Z.add_0_l, Nat2Z.id in HH.
    by exists l', u', tabs', m'.
Qed.

Lemma pages_between_aligned lo hi :
  aligned lo -> aligned hi -> lo <= hi -> Z.of_nat (pages_between lo hi) * 4096 = hi - lo.
Proof.
  intros Ha Hb Hle. unfold aligned, pages_between, PAGE_SIZE in *. rewrite Z2Nat.id by zdiv. zdiv.
Qed.

Lemma aligned_max a b : aligned a -> aligned b -> aligned (Z.max a b).
Proof. by destruct (Z.max_dec a b) as [-> | ->]. Qed.
Lemma aligned_min a b : aligned a -> aligned b -> aligned (Z.min a b).
Proof. by destruct (Z.min_dec a b) as [-> | ->]. Qed.

(** The frames mapped in [start, end_). *)
Definition mapped_in (m : gmap path Z) (start end_ f : Z) : Prop :=
  exists x e, start <= x < end_ /\ m !! path_of x = Some e /\ pte_frame e = f.

(** The walk of [vas_unmap] over the ranges. *)
Lemma unmap_loop_wp F vs s l u r tabs m ext start end_ lo :
  space F s l u r tabs m ext -> vads_from lo vs -> aligned start -> aligned end_ ->
  0 <= start < end_ ->
  wp (unmap_loop (r * 4096) vs start end_) s (fun _ s' => exists l' u' tabs' m',
    space F s' l' u' r tabs' m' ext /\
    (forall x, start <= x < end_ -> covers vs x -> m' !! path_of x = None) /\
    (forall q, (forall x, start <= x < end_ -> covers vs x -> q <> path_of x) -> m' !! q = m !! q) /\
    kept (mapped_in m start end_) s u tabs s' u' tabs' /\ env_eq s s' /\
    (length l <= length l')%nat /\ m' ⊆ m).
Proof.
  intros Sp Hvs Has Hae Hse. revert s l u tabs m lo Sp Hvs.
  induction vs as [|v vs IH]; intros s l u tabs m lo Sp Hvs; simpl unmap_loop.
  { apply wp_ret. exists l, u, tabs, m. split_and!; try done. by intros x _ ?%covers_nil. }
  pose proof Hvs as (H1 & [V1 V2 V3 V4 V5 _] & H3). unfold VAS_USER_END in V3.
  destruct (v_start v <? end_) eqn:E1; simpl negb; cbn match; bools.
  2:{ apply wp_ret. exists l, u, tabs, m. split_and!; try done. intros x Hx Hc. exfalso.
      assert (Hc' : vads_from end_ (v :: vs)) by (split_and!; [lia|by constructor; try apply Hvs|done]).
      pose proof (covers_from _ _ _ Hc' Hc). lia. }
  destruct (v_end v <=? start) eqn:E2; bools.
  { eapply wp_mono; [by eapply IH|]. intros ? s' (l' & u' & tabs' & m' & Sp' & Hin & Hout & Hrest).
    exists l', u', tabs', m'. split_and!; try apply Hrest; [done| |].
    - intros x Hx [Hi|Hc]%covers_cons; [unfold inside in Hi; lia|by apply Hin].
    - intros q Hq. apply Hout. intros x Hx Hc. apply Hq; [done|]. rewrite covers_cons. by right. }
  set (a := Z.max (v_start v) start). set (b := Z.min (v_end v) end_).
  assert (Haa : aligned a /\ aligned b /\ 0 <= a < b /\ b <= 2 ^ 47 /\ start <= a /\ b <= end_).
  { subst a b. split_and!; [by apply aligned_max|by apply aligned_min|lia|lia|lia|lia|lia]. }
  destruct Haa as (Haa & Hab & Hlt & Hb47 & Hsa & Hbe).
  pose proof (pages_between_aligned a b Haa Hab ltac:(lia)) as Hn.
  assert (Hpg : forall x, in_pages a (pages_between a b) x <-> a <= x < b) by (unfold in_pages; intros; lia).
  apply wp_bind. eapply wp_mono; [apply (uncommit_wp _ _ _ _ _ _ _ _ _ a Sp); (done || lia)|].
  intros ? s1 (l1 & u1 & tabs1 & m1 & Sp1 & Hin1 & Hout1 & K1 & He1 & Hl1 & Hm1).
  eapply wp_mono; [by eapply (IH s1)|].
  intros ? s2 (l2 & u2 & tabs2 & m2 & Sp2 & Hin2 & Hout2 & K2 & He2 & Hl2 & Hm2).
  assert (Hab' : forall x, start <= x < end_ -> inside v x <-> a <= x < b).
  { intros x Hx. unfold inside. subst a b. lia. }
  exists l2, u2, tabs2, m2. split_and!; [done| | | |by etrans|lia|by etrans].
  - intros x Hx [Hi|Hc]%covers_cons; [|by apply Hin2].
    destruct (m2 !! path_of x) as [e|] eqn:E; [|done].
    pose proof (lookup_weaken _ _ _ _ E Hm2) as E'. rewrite Hin1 in E'; [done|].
    apply Hpg. by apply Hab'.
  - intros q Hq. rewrite Hout2, Hout1; [done| |].
    + intros x Hx%Hpg. apply Hq; [lia|]. rewrite covers_cons. left. apply Hab'; lia.
    + intros x Hx Hc. apply Hq; [done|]. rewrite covers_cons. by right.
  - eapply kept_trans; (eapply kept_mono; [|eassumption]); intros f (x & e & Hx & Hm & Hf); exists x, e.
    + apply Hpg in Hx. split_and!; [lia|lia|done|done].
    + split_and!; [lia|lia| |done]. by eapply lookup_weaken.
Qed.

(** ** Address spaces *)

(** The invariant of an address space whose root is the frame [r]: the ranges are
    sorted and disjoint, the heap holds their nodes and none of the page tables,
    and a user address is translated exactly when a range covers it. *)
Record vas_inv (F : gset Z) (s : mm) (a : vas) (l : list Z) (u : gmap Z ustate) (h : gset Z) (A : list Z)
    (ext : Z -> Z) (r : Z) (tabs m : gmap path Z) : Prop := {
  vi_space : space F s l u r tabs m ext;
  vi_root : pml4 a = r * 4096;
  vi_vads : vads_from 0 (list_head a);
  vi_start : 0 <= user_start a < 2 ^ 64;
  vi_heap : heap_rep s h (map v_addr (list_head a) ++ A);
  vi_used : heap_used h u;
  vi_disj : forall p f, tabs !! p = Some f -> f ∉ h;
  vi_exact : forall x, 0 <= x < 2 ^ 47 -> is_Some (m !! path_of x) <-> covers (list_head a) x;
}.

Lemma pres_commit_anon n pt va prot : pres quiet (commit_anon_loop n pt va prot).
Proof. revert va. induction n; intros va; simpl; quiet. Qed.
Lemma pres_unmap_loop pt vs start end_ : pres quiet (unmap_loop pt vs start end_).
Proof. induction vs; simpl; unfold _uncommit_range; quiet. Qed.

(** The heap does not notice what happens to frames that are not its own. *)
Lemma kept_heap X s u tabs s' u' tabs' h A :
  kept X s u tabs s' u' tabs' -> env_eq s s' -> quiet s s' -> heap_used h u -> heap_rep s h A ->
  (forall p f, tabs !! p = Some f -> f ∉ h) -> (forall f, f ∈ h -> ~ X f) ->
  heap_rep s' h A /\ heap_used h u' /\ (forall p f, tabs' !! p = Some f -> f ∉ h).
Proof.
  intros K He Hq Hu Hr Hd HX.
  assert (Hk : forall f, f ∈ h -> u' !! f = Some (mkU 1 0 false) /\
    (forall p, tabs' !! p <> Some f) /\ forall i, rd_word s' f i = rd_word s f i).
  { intros f Hf. apply K; [by apply Hu| |by apply HX]. intros p Hp. by eapply Hd. }
  split_and!.
  - eapply heap_frame; [exact Hr|by apply env_core_eq|apply He|apply He|done|]. intros f i Hf. by apply Hk.
  - intros f Hf. by apply Hk.
  - intros p f Hp Hf. by eapply (proj1 (proj2 (Hk f Hf))).
Qed.

Lemma covers_insert l v x : covers (_vad_insert l v) x <-> inside v x \/ covers l x.
Proof.
  rewrite <- covers_cons. unfold covers. by setoid_rewrite insert_perm.
Qed.

(** The list and the page table after a new range was committed. *)
Definition mapped_anon (a a' : vas) (base length flags prot : Z) (u u' : gmap Z ustate) (h : gset Z)
    (m m' : gmap path Z) : Prop :=
  (exists v, list_head a' = _vad_insert (list_head a) v /\
     v_start v = base /\ v_end v = base + length /\ v_flags v = Z.lor flags VAD_ANONYMOUS) /\
  (forall x, base <= x < base + length -> exists g,
     m' !! path_of x = Some (make_pte (g * 4096) prot) /\ (u !! g = None \/ g ∈ h) /\
     0 < g < 2 ^ 40 /\ u' !! g = Some (mkU 1 1 false)) /\
  (forall x, canonical x -> ~ base <= x < base + length -> m' !! path_of x = m !! path_of x).

Lemma page_of_outside base n x y :
  aligned base -> 0 <= base -> base + Z.of_nat n * 4096 <= 2 ^ 47 -> canonical x ->
  ~ in_pages base n x -> in_pages base n y -> path_of x <> path_of y.
Proof.
  unfold in_pages, aligned. intros Ha H0 Hb Hx Hn Hy E. apply path_of_canonical in E; [zdiv|done|left; lia].
Qed.

Lemma map_anon_wp F a hint len flags base s l u h A ext r tabs m :
  vas_inv F s a l u h A ext r tabs m -> 0 <= hint < 2 ^ 64 -> 0 < len <= 2 ^ 47 ->
  has flags VAD_FILE = false ->
  let length' := ALIGN_UP len PAGE_SIZE in
  place a hint length' flags = Some base ->
  (4 * pages_between 0 length' + 1 <= length l)%nat ->
  wp (vas_map_anon a hint len flags) s (fun x s' => x.1 = base /\
    exists l' u' h' tabs' m', vas_inv F s' x.2 l' u' h' A ext r tabs' m' /\
      (length l <= 4 * pages_between 0 length' + 1 + length l')%nat /\
      mapped_anon a x.2 base length' flags (Z.land (Z.lor flags VAD_ANONYMOUS) VAD_PROT_MASK) u u' h m m').
Proof.
  intros [Sp Hroot Hvads Hus Hheap Hused Hdisj Hex] Hhint Hlen Hfl length' Hp Hroom.
  assert (Hl' : length' = (len + 4095) / 4096 * 4096) by (apply ALIGN_UP_page; lia).
  assert (Hal : aligned length') by (unfold aligned; zdiv).
  assert (Hl0 : 0 < length' < 2 ^ 64) by zdiv.
  destruct (place_ok _ _ _ _ _ Hvads Hhint Hus Hl0 Hal Hp) as (Hb0 & Hba & Hbe & Hw & Hap).
  unfold VAS_USER_END in Hbe. destruct Sp as [Rm R Ac Hup].
  unfold vas_map_anon. rewrite (proj2 (Z.eqb_neq _ _)) by lia. cbn zeta. fold length'.
  rewrite Hp, Hw. apply wp_bind.
  eapply wp_mono; [apply (vad_alloc_wp _ _ _ _ _ _ _ _ Hheap Hused Rm); intros ->; simpl in Hroom; lia|].
  intros ? s1 ([ad ->] & l1 & u1 & h1 & S1 & Hr1). simpl in Hr1.
  destruct (heap_step_pt _ _ _ _ _ _ _ _ _ _ _ _ _ S1 R Hdisj) as [R1 Hd1].
  pose proof (heap_step_acct _ _ _ _ _ _ _ _ _ _ ext m S1 Hused eq_refl Ac) as A1.
  pose proof S1 as [Rm1 U1 O1 N1 G1 W1 E1 L1]. destruct E1 as (Emx & _).
  assert (Hend : aligned (base + length')) by (unfold aligned in *; zdiv).
  pose proof (pages_between_aligned base (base + length') Hba Hend ltac:(lia)) as Hpb.
  assert (Hpb0 : pages_between 0 length' = pages_between base (base + length')).
  { unfold pages_between. do 2 f_equal. lia. }
  assert (Hnone : forall x, base <= x < base + length' -> m !! path_of x = None).
  { intros x Hx. apply eq_None_not_Some. intros (c & Hc & Hi)%Hex; [|lia].
    specialize (Hap c Hc). unfold apart, inside in *. lia. }
  apply wp_bind. unfold _commit_anon. simpl. rewrite Hroot.
  eapply wp_mono; [apply (wp_pres quiet);
    [apply (commit_anon_wp F (pages_between base (base + length')) s1 l1 u1 r tabs m ext)|apply pres_commit_anon]|].
  { constructor; [done|done|by rewrite Emx|done]. }
  all: try (done || lia). { intros x Hx. apply Hnone. unfold in_pages in Hx. lia. }
  intros ? s2 [(-> & l2 & u2 & tabs2 & m2 & Sp2 & Hin2 & Hout2 & K2 & He2 & Hl2 & Hsub2) Hq2].
  simpl. apply wp_ret. split; [done|].
  destruct (kept_heap _ _ _ _ _ _ _ _ _ K2 He2 Hq2 U1 Hr1 Hd1) as (Hr2 & U2 & Hd2); [by intros ? _ []|].
  set (v := mkVad ad base (base + length') (Z.lor flags VAD_ANONYMOUS) 0 0) in *.
  assert (Hsame : forall x, canonical x -> ~ base <= x < base + length' ->
    m2 !! path_of x = m !! path_of x).
  { intros x Hx Hnx. apply Hout2. intros y Hy. eapply page_of_outside; [exact Hba| | |exact Hx| |exact Hy];
      unfold in_pages; lia. }
  exists l2, u2, h1, tabs2, m2. split; [|split; [lia|]].
  - constructor; simpl; try done.
    + apply insert_from; [done| |done|done].
      constructor; simpl; try done. lia.
    + pose proof (u64_range (base + length')). lia.
    + eapply heap_perm; [|exact Hr2]. by rewrite insert_perm.
    + intros x Hx. rewrite covers_insert. unfold inside. simpl.
      destruct (decide (base <= x < base + length')) as [Hi|Hn].
      * split; [by left|]. intros _. destruct (Hin2 x) as (g & -> & _); [unfold in_pages; lia|done].
      * rewrite Hsame, Hex by (try (left; lia); lia). tauto.
  - unfold mapped_anon. simpl. split_and!; [by exists v| |done].
    intros x Hx. destruct (Hin2 x) as (g & H1 & H2 & H3 & H4); [unfold in_pages; lia|].
    exists g. split_and!; [done| |lia|lia|done].
    destruct (decide (g ∈ h)) as [|Hh]; [by right|left].
    destruct (decide (g ∈ h1)) as [Hh1|Hh1]; [|by rewrite <- O1].
    rewrite (U1 _ Hh1) in H2. done.
Qed.

(** What an address of the space translates to. *)
Lemma vas_get_phys F s a l u h A ext r tabs m x :
  vas_inv F s a l u h A ext r tabs m -> 0 <= x < 2 ^ 64 -> _pml4_idx x ∉ F ->
  get_phys (pml4 a) x s = Ret
    (match m !! path_of x with
     | Some e => u64 (Z.land e PAGE_FRAME_MASK + Z.land x (PAGE_SIZE - 1))
     | None => 0
     end) s.
Proof. intros [[] -> _ _ _ _ _ _] Hx Ho. by eapply get_phys_eq. Qed.

Lemma vas_get_flags F s a l u h A ext r tabs m x :
  vas_inv F s a l u h A ext r tabs m -> 0 <= x < 2 ^ 64 -> _pml4_idx x ∉ F ->
  get_mapping_flags (pml4 a) x s = Ret
    (match m !! path_of x with Some e => clr e PAGE_FRAME_MASK | None => 0 end) s.
Proof. intros [[] -> _ _ _ _ _ _] Hx Ho. by eapply get_mapping_flags_eq. Qed.

(** The protection of an anonymous page: the low twelve flag bits asked for and
    no-execute, and present. *)
Lemma anon_prot flags :
  Z.lor (clr (Z.land (Z.lor flags VAD_ANONYMOUS) VAD_PROT_MASK) PAGE_FRAME_MASK) VMM_PRESENT =
  Z.lor (Z.land flags VAD_PROT_MASK) VMM_PRESENT.
Proof.
  f_equal. unfold clr. apply Z.bits_inj'. intros n Hn.
  rewrite Z.ldiff_spec, !Z.land_spec, Z.lor_spec, frame_mask_bit.
  assert (Hm : Z.testbit VAD_PROT_MASK n = true -> n < 12 \/ n = 63).
  { intros Hb. unfold VAD_PROT_MASK in Hb. rewrite Z.lor_spec in Hb. apply orb_true_iff in Hb as [Hb|Hb].
    - destruct (decide (n < 12)); [by left|]. change 4095 with (Z.ones 12) in Hb.
      by rewrite Z.ones_spec_high in Hb by lia.
    - change VMM_NX with (2 ^ 63) in Hb. rewrite Z.pow2_bits_eqb in Hb by lia. bools. lia. }
  destruct (Z.testbit VAD_PROT_MASK n); [|by rewrite !andb_false_r].
  unfold VAD_ANONYMOUS. rewrite Z.pow2_bits_eqb by lia. rewrite (proj2 (Z.eqb_neq 12 n)) by lia.
  rewrite orb_false_r, !andb_true_r. destruct (Z.leb_spec 12 n), (Z.ltb_spec n 52); simpl; rewrite ?andb_true_r; done || lia.
Qed.

Lemma place_range F a hint len flags base s l u h A ext r tabs m :
  vas_inv F s a l u h A ext r tabs m -> 0 <= hint < 2 ^ 64 -> 0 < len <= 2 ^ 47 ->
  place a hint (ALIGN_UP len PAGE_SIZE) flags = Some base ->
  0 <= base /\ base + ALIGN_UP len PAGE_SIZE < 2 ^ 47.
Proof.
  intros [] Hh Hl Hp. destruct (ALIGN_UP_range len) as [Hr Ha].
  assert (Hl' : ALIGN_UP len PAGE_SIZE = (len + 4095) / 4096 * 4096) by (apply ALIGN_UP_page; lia).
  assert (Hlr : 0 < ALIGN_UP len PAGE_SIZE < 2 ^ 64) by (rewrite Hl'; zdiv).
  destruct (place_ok _ _ _ _ _ vi_vads0 Hh vi_start0 Hlr Ha Hp)
    as (? & _ & Hbe & _). unfold VAS_USER_END in Hbe. lia.
Qed.

(** C33: anonymous memory is fresh and private.  The page table may carry the boot
    loader's entries in slots [F] of its upper half; 4 n + 1 frames are free for the
    n pages, their tables and the range's node; the flags do not ask for a file.
    When [vas_map_anon] finds a place, it returns that address with the range entered
    in the list; every address of the range translates to a frame nobody else used,
    held by one reference and one mapping, with the protection bits asked for plus
    present; every other translation outside [F] is as before, and the invariant of
    the address space holds again.  When there is no place it changes nothing.  Of
    the heap only allocation is used, so nothing is assumed about the contents of
    its objects. *)
Theorem vas_map_anon_spec F a hint len flags s l u h A ext r tabs m :
  vas_inv F s a l u h A ext r tabs m -> 0 <= hint < 2 ^ 64 -> 0 < len <= 2 ^ 47 ->
  has flags VAD_FILE = false ->
  (4 * pages_between 0 (ALIGN_UP len PAGE_SIZE) + 1 <= length l)%nat ->
  match place a hint (ALIGN_UP len PAGE_SIZE) flags with
  | None => vas_map_anon a hint len flags s = Ret (0, a) s
  | Some base =>
      wp (vas_map_anon a hint len flags) s (fun x s' => x.1 = base /\
        (exists l' u' h' tabs' m', vas_inv F s' x.2 l' u' h' A ext r tabs' m' /\
          (forall y, base <= y < base + ALIGN_UP len PAGE_SIZE -> exists g,
            get_phys (pml4 a) y s' = Ret (g * 4096 + y `mod` 4096) s' /\
            get_mapping_flags (pml4 a) y s' =
              Ret (Z.lor (Z.land flags VAD_PROT_MASK) VMM_PRESENT) s' /\
            (u !! g = None \/ g ∈ h) /\ u' !! g = Some (mkU 1 1 false))) /\
        (forall y, canonical y -> _pml4_idx y ∉ F -> ~ base <= y < base + ALIGN_UP len PAGE_SIZE ->
          exists p, get_phys (pml4 a) y s = Ret p s /\ get_phys (pml4 a) y s' = Ret p s'))
  end.
Proof.
  intros V Hhint Hlen Hfl Hroom. destruct (place _ _ _ _) as [base|] eqn:Hp.
  2:{ unfold vas_map_anon. rewrite (proj2 (Z.eqb_neq _ _)) by lia. by rewrite Hp. }
  pose proof (vi_root _ _ _ _ _ _ _ _ _ _ _ V) as Hr.
  destruct (place_range _ _ _ _ _ _ _ _ _ _ _ _ _ _ _ V Hhint Hlen Hp) as [Hb0 Hbe].
  eapply wp_mono; [by eapply map_anon_wp|].
  intros [b a'] s' (-> & l' & u' & h' & tabs' & m' & V' & _ & _ & Hin & Hout). simpl in *.
  assert (Ha : pml4 a = pml4 a') by (rewrite Hr; symmetry; apply V').
  split_and!; [done| |].
  - exists l', u', h', tabs', m'. split; [done|]. intros y Hy.
    destruct (Hin y Hy) as (g & Hm & Hu & Hg & Hg').
    pose proof (user_slot F y ltac:(lia) (sp_upper _ _ _ _ _ _ _ _ (vi_space _ _ _ _ _ _ _ _ _ _ _ V))) as Ho.
    exists g. split_and!; [| |done|done].
    + rewrite Ha, (vas_get_phys _ _ _ _ _ _ _ _ _ _ _ _ V') by (done || lia).
      rewrite Hm, pte_mask, translate_offset by lia. by rewrite u64_small by zdiv.
    + rewrite Ha, (vas_get_flags _ _ _ _ _ _ _ _ _ _ _ _ V') by (done || lia).
      by rewrite Hm, pte_flags, anon_prot by lia.
  - intros y Hy Ho Hn. pose proof (canonical_64 _ Hy). eexists. split; [by eapply vas_get_phys|].
    rewrite Ha, (vas_get_phys _ _ _ _ _ _ _ _ _ _ _ _ V') by done. by rewrite Hout.
Qed.

(** ** Unmapping *)

Lemma backing_covers l x : vads_from 0 l -> covers l x <-> is_Some (backing l x).
Proof.
  intros H1. unfold backing. pose proof (vas_find_spec _ _ x H1) as Hf.
  destruct (vas_find l x) as [v|].
  - split; [eauto|]. intros _. by exists v.
  - split; [done|]. by intros [? ?].
Qed.

Lemma vas_unmap_wp {HS : HeapSpec} F a start len s l u h A ext r tabs m :
  vas_inv F s a l u h A ext r tabs m -> 0 <= start < 2 ^ 47 -> 0 < len <= 2 ^ 47 ->
  (2 * length (list_head a) <= length l)%nat ->
  let lo := start / 4096 * 4096 in
  let hi := lo + (len + 4095) / 4096 * 4096 in
  anon_in lo hi (list_head a) ->
  wp (vas_unmap a start len) s (fun a' s' => exists l' u' h' tabs' m',
    vas_inv F s' a' l' u' h' A ext r tabs' m' /\
    (forall x, backing (list_head a') x =
       if (lo <=? x) && (x <? hi) then None else backing (list_head a) x) /\
    (forall x, 0 <= x < 2 ^ 47 ->
       m' !! path_of x = if (lo <=? x) && (x <? hi) then None else m !! path_of x)).
Proof.
  intros [Sp Hroot Hvads Hus Hheap Hused Hdisj Hex] Hst Hlen Hroom lo hi Han.
  unfold vas_unmap. rewrite (proj2 (Z.eqb_neq _ _)) by lia. cbn zeta.
  rewrite ALIGN_DOWN_page, ALIGN_UP_page by lia. rewrite u64_small by zdiv. fold lo. fold hi.
  assert (Hlo : aligned lo) by (unfold aligned; subst lo; zdiv).
  assert (Hhi : aligned hi) by (unfold aligned in *; subst hi; zdiv).
  assert (Hlh : 0 <= lo < hi) by (subst lo hi; zdiv). clearbody lo hi.
  rewrite Hroot. apply wp_bind.
  eapply wp_mono; [apply (wp_pres quiet); [by eapply unmap_loop_wp|apply pres_unmap_loop]|].
  intros ? s1 [(l1 & u1 & tabs1 & m1 & Sp1 & Hin1 & Hout1 & K1 & He1 & Hl1 & Hm1) Hq1].
  pose proof Sp as [Rm R Ac Hup]. pose proof Sp1 as [Rm1 R1 Ac1 _].
  destruct (kept_heap _ _ _ _ _ _ _ _ _ K1 He1 Hq1 Hused Hheap Hdisj) as (Hr1 & U1 & Hd1).
  { intros f Hf (x & e & _ & Hm & Hpe). subst f. pose proof (cnt_pos _ _ _ Hm) as Hc.
    destruct (acct_share _ _ _ _ Ac _ _ (Hused _ Hf)) as (H1 & _ & H3). simpl in H1. lia. }
  apply wp_bind. eapply wp_mono; [eapply remove_range_wp; [exact Hvads|exact Han|exact Hr1|exact U1|exact Rm1|lia]|].
  intros vs s2 (Hvs & l2 & u2 & h2 & S2 & Hr2). apply wp_ret.
  destruct (heap_step_pt _ _ _ _ _ _ _ _ _ _ _ _ _ S2 R1 Hd1) as [R2 Hd2].
  pose proof (heap_step_acct _ _ _ _ _ _ _ _ _ _ ext m1 S2 U1 eq_refl Ac1) as A2.
  pose proof S2 as [Rm2 U2 _ _ _ _ (Emx & _) _].
  assert (Hback : forall x, backing vs x = if (lo <=? x) && (x <? hi) then None else backing (list_head a) x).
  { intros x. rewrite (backing_unaddr _ _ _ Hvs). by eapply minus_backing; [lia|]. }
  assert (Hfrom : vads_from 0 vs).
  { eapply vads_from_unaddr; [symmetry; exact Hvs|]. by apply minus_from; try lia. }
  assert (Hm : forall x, 0 <= x < 2 ^ 47 ->
    m1 !! path_of x = if (lo <=? x) && (x <? hi) then None else m !! path_of x).
  { intros x Hx. destruct ((lo <=? x) && (x <? hi)) eqn:E.
    - bools. destruct (m !! path_of x) as [e|] eqn:Em.
      + apply Hin1; [lia|]. apply Hex; [lia|]. by rewrite Em.
      + by eapply lookup_weaken_None.
    - apply Hout1. intros y Hy (c & Hc & Hcy) Ep. destruct (vads_from_elem _ _ _ Hvads Hc) as [_ [? ? ? ? ? _]].
      unfold VAS_USER_END, inside, aligned in *. apply path_of_inj in Ep; [|lia|lia].
      apply andb_false_iff in E as [E|E]; bools; zdiv. }
  exists l2, u2, h2, tabs1, m1. split_and!; [|done|done]. constructor; simpl; try done.
  - constructor; [done|done| |done]. by rewrite Emx.
  - intros x Hx. rewrite Hm, backing_covers, Hback by done.
    destruct ((lo <=? x) && (x <? hi)); [by rewrite !is_Some_alt|].
    rewrite <- backing_covers by done. by apply Hex.
Qed.

(** C34: unmapping is exact.  The ranges touched map no file (the last reference
    to a removed file would free the file's own pages), two frames are free for each
    range of the list (a cut may need new nodes), and the heap is one that may be
    freed into: no word of memory passes for the mark of a large object.  [vas_unmap]
    returns with the invariant of the address
    space intact; every address of the page-rounded range is unmapped and backed
    by no range; every other user address keeps its translation and its backing,
    also in ranges that were cut in two. *)
Theorem vas_unmap_spec {HS : HeapSpec} F a start len s l u h A ext r tabs m :
  vas_inv F s a l u h A ext r tabs m -> 0 <= start < 2 ^ 47 -> 0 < len <= 2 ^ 47 ->
  (2 * length (list_head a) <= length l)%nat ->
  let lo := start / 4096 * 4096 in
  let hi := lo + (len + 4095) / 4096 * 4096 in
  anon_in lo hi (list_head a) ->
  wp (vas_unmap a start len) s (fun a' s' =>
    (exists l' u' h' tabs' m', vas_inv F s' a' l' u' h' A ext r tabs' m') /\
    (forall x, 0 <= x < 2 ^ 47 -> lo <= x < hi ->
       get_phys (pml4 a) x s' = Ret 0 s' /\ backing (list_head a') x = None) /\
    (forall x, 0 <= x < 2 ^ 47 -> ~ lo <= x < hi ->
       (exists p, get_phys (pml4 a) x s = Ret p s /\ get_phys (pml4 a) x s' = Ret p s') /\
       backing (list_head a') x = backing (list_head a) x)).
Proof.
  intros V Hst Hlen Hroom lo hi Han. eapply wp_mono; [by eapply vas_unmap_wp|].
  intros a' s' (l' & u' & h' & tabs' & m' & V' & Hb & Hm). fold lo hi in Hb, Hm.
  assert (Ha : pml4 a = pml4 a').
  { rewrite (vi_root _ _ _ _ _ _ _ _ _ _ _ V). symmetry. apply V'. }
  assert (Ho : forall x, 0 <= x < 2 ^ 47 -> _pml4_idx x ∉ F).
  { intros x Hx. apply (user_slot F x Hx), (sp_upper _ _ _ _ _ _ _ _ (vi_space _ _ _ _ _ _ _ _ _ _ _ V)). }
  split_and!; [by exists l', u', h', tabs', m'| |].
  - intros x Hx Hr. rewrite Ha, (vas_get_phys _ _ _ _ _ _ _ _ _ _ _ _ V'), Hm, Hb by (auto || lia).
    by rewrite (proj2 (Z.leb_le _ _)), (proj2 (Z.ltb_lt _ _)) by lia.
  - intros x Hx Hr. rewrite Hb.
    assert (E : (lo <=? x) && (x <? hi) = false).
    { apply andb_false_iff. rewrite Z.leb_gt, Z.ltb_ge. lia. }
    rewrite E. split; [|done]. eexists. split; [eapply vas_get_phys; [done|lia|by apply Ho]|].
    rewrite Ha, (vas_get_phys _ _ _ _ _ _ _ _ _ _ _ _ V') by (auto || lia). by rewrite Hm, E by lia.
Qed.
End vmm_props.
