(* ===== verification/VmmExamples.v ===== *)
(** * Concrete runs of the address space operations

    The properties of VadProps and VmmProps at concrete inputs: two ranges, and
    an address space on the allocator and the heap of the other files. *)

From stdpp Require Import gmap list.
From Stdlib Require Import ZArith Lia.
From S2P Require Import Prelude Pfndb Pmm Paging PagingRel PagingProps HeapIface Heap HeapRep HeapProps.
From S2P Require Import Vmm VadProps VmmProps.

Local Open Scope Z_scope.

(** ** Ranges *)

Definition ex_vads : list vad :=
  [mkVad 1 4096 12288 4102 0 0; mkVad 2 12288 16384 32774 9 8192].
Definition ex_vas : vas := mkVas 3 4096 ex_vads 4096.

Lemma ex_vads_ok : vads_from 0 ex_vads.
Proof.
  unfold ex_vads. cbn [vads_from]. split_and!; [reflexivity || (simpl; lia)| |simpl; lia| |exact I];
    (constructor; vm_compute; intuition congruence).
Qed.

Lemma vas_find_exact_witness : vas_find ex_vads 12289 = Some (mkVad 2 12288 16384 32774 9 8192).
Proof.
  apply (proj1 (vas_find_exact ex_vads 12289 ex_vads_ok)). split.
  - right. left.
  - unfold inside. simpl. lia.
Defined.

Lemma vas_range_mapped_exact_witness : covers ex_vads 12300.
Proof.
  exact (proj1 (vas_range_mapped_exact ex_vads 8200 8000 ex_vads_ok ltac:(lia) ltac:(lia)) eq_refl 12300
    ltac:(vm_compute; intuition congruence)).
Defined.

Lemma place_insert_wf_witness :
  vads_from 0 (_vad_insert ex_vads (mkVad 7 16384 (u64 (16384 + 8192)) 4102 0 0)).
Proof.
  exact (proj1 (place_insert_wf ex_vas 0 8192 6 16384 7 4102 ex_vads_ok ltac:(lia) ltac:(simpl; lia)
    ltac:(lia) eq_refl eq_refl eq_refl)).
Defined.

(** ** An address space *)

(** No file is mapped, so the nodes are never asked. *)
Definition null_nodes : VnodeOps :=
  {| vfs_node_ref := fun _ => ret tt; vfs_node_release := fun _ => ret tt;
     vfs_node_get_page := fun _ _ _ => ret (-1, None) |}.

Definition ex_state : mm := final kheap_init ex_vm.
Definition ex_space : vas := mkVas 1 (1 * 4096) [] 4096.

Lemma ex_vm_hhdm : hhdm ex_vm = 18446603336221196288.
Proof. vm_compute. reflexivity. Qed.
Lemma ex_vm_max : max_pfn ex_vm = 13.
Proof. vm_compute. reflexivity. Qed.
Lemma ex_vm_static : static ex_vm.
Proof. apply static_small; rewrite ?ex_vm_hhdm, ?ex_vm_max; lia || reflexivity. Qed.
Lemma ex_vm_nomagic mk : nomagic mk ex_vm.
Proof.
  intros _. refine (nomagic_small _ _ _ _ eq_refl); [by rewrite ex_vm_hhdm|by rewrite ex_vm_max|].
  assert (Hf : frames ex_vm = <[4 := {[509 := 131]}]> (<[2 := {[511 := boot_entry]}]>
    (<[1 := {[511 := boot_entry]}]> ∅))) by (vm_compute; reflexivity).
  intros f i _. unfold rd_word. rewrite Hf, !lookup_insert, lookup_empty.
  repeat case_decide; simpl; rewrite ?lookup_singleton; repeat case_decide; done.
Qed.
Lemma ex_state_pmm : pmm_rel ex_state ex_vm_free ex_vm_used.
Proof. apply (ms_rel ex_vm); [apply memstep_caches|exact ex_vm_rel]. Qed.

Lemma pt_rel_caches F c s r tabs m u : pt_rel F s r tabs m u -> pt_rel F (set_caches c s) r tabs m u.
Proof. intros R. by eapply pt_rel_frame. Qed.

Lemma ex_space_inv mk :
  vas_inv (HA := lyr_heap_alloc mk) ex_foreign ex_state ex_space ex_vm_free ex_vm_used ∅ [] (fun _ => 0)
    1 {[[] := 1]} ∅.
Proof.
  constructor.
  - constructor.
    + exact ex_state_pmm.
    + apply pt_rel_caches. exact (ex_vm_pt 1 ltac:(lia)).
    + apply ex_vm_acct.
    + intros i ->%elem_of_singleton. lia.
  - reflexivity.
  - exact I.
  - simpl. lia.
  - exists ∅, (fun _ => []), (fun _ => []).
    split; [exact (heap_empty mk _ ex_vm_static (ex_vm_nomagic mk))|].
    split; [by rewrite dom_empty_L|]. split; constructor.
  - intros f Hf. by apply elem_of_empty in Hf.
  - intros p f _. apply not_elem_of_empty.
  - intros x _. rewrite lookup_empty. split; [by intros [? ?]|by intros ?%covers_nil].
Qed.

Lemma vas_map_anon_spec_witness :
  exists x s', vas_map_anon (H := lyr_heap) ex_space 0 100 6 ex_state = Ret x s' /\ x.1 = 4096 /\
    get_mapping_flags 4096 5000 s' = Ret 7 s'.
Proof.
  pose proof (vas_map_anon_spec (H := lyr_heap) (HA := lyr_heap_alloc false) ex_foreign ex_space 0 100 6 ex_state
    ex_vm_free ex_vm_used ∅ [] (fun _ => 0) 1 {[[] := 1]} ∅ (ex_space_inv false) ltac:(lia) ltac:(lia)
    eq_refl ltac:(vm_compute; lia)) as T.
  rewrite (eq_refl : place ex_space 0 (ALIGN_UP 100 PAGE_SIZE) 6 = Some 4096) in T.
  destruct (wp_inv _ _ _ T) as (x & s' & Heq & Hx & (l' & u' & h' & tabs' & m' & _ & Hin) & _).
  destruct (Hin 5000 ltac:(split; [lia|vm_compute; reflexivity])) as (g & _ & Hfl & _).
  exists x, s'. split; [exact Heq|]. split; [exact Hx|exact Hfl].
Defined.

(** The space with one anonymous page at 4096. *)
Lemma ex_mapped :
  exists x s' l' u' h' tabs' m',
    vas_map_anon (H := lyr_heap) ex_space 0 100 6 ex_state = Ret x s' /\
    vas_inv (HA := lyr_heap_alloc true) ex_foreign s' x.2 l' u' h' [] (fun _ => 0) 1 tabs' m' /\
    (3 <= length l')%nat /\ length (list_head x.2) = 1%nat /\ anon_in 4096 8192 (list_head x.2).
Proof.
  destruct (wp_inv _ _ _ (map_anon_wp (H := lyr_heap) (HA := lyr_heap_alloc true) ex_foreign ex_space 0 100 6 4096 ex_state
    ex_vm_free ex_vm_used ∅ [] (fun _ => 0) 1 {[[] := 1]} ∅ (ex_space_inv true) ltac:(lia) ltac:(lia)
    eq_refl eq_refl ltac:(vm_compute; lia)))
    as (x & s' & Heq & _ & l' & u' & h' & tabs' & m' & V & Hl & (v & Hv & Hrest) & _).
  exists x, s', l', u', h', tabs', m'. split; [exact Heq|]. split; [exact V|]. split_and!.
  - change (length ex_vm_free) with 8%nat in Hl.
    change (4 * pages_between 0 (ALIGN_UP 100 PAGE_SIZE) + 1)%nat with 5%nat in Hl. lia.
  - rewrite Hv. reflexivity.
  - rewrite Hv. intros w ->%list_elem_of_singleton Hw. destruct Hrest as (_ & _ & Hf). by rewrite Hf in Hw.
Qed.

Lemma vas_unmap_spec_witness :
  exists x s' a' s'', vas_map_anon (H := lyr_heap) ex_space 0 100 6 ex_state = Ret x s' /\
    vas_unmap (H := lyr_heap) (N := null_nodes) x.2 4096 4096 s' = Ret a' s'' /\
    backing (list_head a') 5000 = None.
Proof.
  destruct ex_mapped as (x & s' & l' & u' & h' & tabs' & m' & Heq & V & Hl & Hn & Han).
  destruct (wp_inv _ _ _ (vas_unmap_spec (H := lyr_heap) (N := null_nodes) (HS := lyr_heap_spec) ex_foreign x.2 4096 4096 s'
    l' u' h' [] (fun _ => 0) 1 tabs' m' V ltac:(lia) ltac:(lia) ltac:(rewrite Hn; lia) Han))
    as (a' & s'' & Heq' & _ & Hin & _).
  exists x, s', a', s''. split; [exact Heq|]. split; [exact Heq'|]. apply Hin; [lia|vm_compute; intuition congruence].
Defined.

Lemma remove_range_exact_witness :
  exists x s' vs s'', vas_map_anon (H := lyr_heap) ex_space 0 100 6 ex_state = Ret x s' /\
    _vad_remove_range (H := lyr_heap) (N := null_nodes) (list_head x.2) 4096 8192 s' = Ret vs s'' /\
    vads_from 0 vs.
Proof.
  destruct ex_mapped as (x & s' & l' & u' & h' & tabs' & m' & Heq & V & Hl & Hn & Han). destruct V as [[Rm _ _ _] _ Hv _ Hh Hu _ _].
  destruct (wp_inv _ _ _ (remove_range_exact (H := lyr_heap) (N := null_nodes) (HS := lyr_heap_spec) 4096 8192
    (list_head x.2) s' l' u' h' [] Hv Han eq_refl eq_refl ltac:(lia) Hh Hu Rm ltac:(rewrite Hn; lia)))
    as (vs & s'' & Heq' & Hvs & _).
  exists x, s', vs, s''. split; [exact Heq|]. split; [exact Heq'|exact Hvs].
Defined.
