(* ===== verification/CString.v ===== *)
(** * Memory and string primitives (kernel/src/lib/string.c)

    Memory is a function from addresses to bytes; a store gives a new memory.
    Loops over a terminator take a bound and answer [None] when it is used up, the
    theorems show that the length of the string is enough.  A buffer does not wrap
    around the end of the address space. *)

From stdpp Require Import base list.
From Stdlib Require Import ZArith Lia.
From S2P Require Import Prelude.

Local Open Scope Z_scope.

(** ** Memory *)

Definition mem := Z -> Z.
Definition upd (m : mem) (a v : Z) : mem := fun x => if x =? a then v else m x.

(** Every cell holds a byte. *)
Definition bytes (m : mem) : Prop := forall a, 0 <= m a < 256.

(** A [uintptr_t] at [a]: eight bytes, the lowest first. *)
Fixpoint load_le (n : nat) (m : mem) (a : Z) : Z :=
  match n with O => 0 | S n => m a + 256 * load_le n m (a + 1) end.
Fixpoint store_le (n : nat) (m : mem) (a v : Z) : mem :=
  match n with O => m | S n => store_le n (upd m a (v `mod` 256)) (a + 1) (v / 256) end.
Definition load_word (m : mem) (a : Z) : Z := load_le 8 m a.
Definition store_word (m : mem) (a v : Z) : mem := store_le 8 m a v.

(** ** Blocks *)

Fixpoint set_loop (n : nat) (m : mem) (d ch : Z) : mem :=
  match n with O => m | S n => set_loop n (upd m d (u8 ch)) (d + 1) ch end.
(** [rep stosb] *)
Definition memset (m : mem) (dest ch count : Z) : mem := set_loop (Z.to_nat count) m dest ch.

(** [while (n--) *d++ = *s++] *)
Fixpoint bytes_up (n : nat) (m : mem) (d s : Z) : mem :=
  match n with O => m | S n => bytes_up n (upd m d (m s)) (d + 1) (s + 1) end.
(** [rep movsb] *)
Definition memcpy (m : mem) (dest src count : Z) : mem := bytes_up (Z.to_nat count) m dest src.

(** [while (n--) *--d = *--s] *)
Fixpoint bytes_down (n : nat) (m : mem) (d s : Z) : mem :=
  match n with O => m | S n => bytes_down n (upd m (d - 1) (m (s - 1))) (d - 1) (s - 1) end.
(** [for (i = 0; i < words; i++) dw[i] = sw[i]] *)
Fixpoint words_up (n : nat) (m : mem) (d s : Z) : mem :=
  match n with O => m | S n => words_up n (store_word m d (load_word m s)) (d + 8) (s + 8) end.
(** [dw[-(i + 1)] = sw[-(i + 1)]] *)
Fixpoint words_down (n : nat) (m : mem) (d s : Z) : mem :=
  match n with O => m | S n => words_down n (store_word m (d - 8) (load_word m (s - 8))) (d - 8) (s - 8) end.

Definition memmove (m : mem) (dst src n : Z) : mem :=
  if (dst =? src) || (n =? 0) then m
  else if dst <? src then
    if Z.land (Z.lor dst src) 7 =? 0 then
      let words := n / 8 in
      bytes_up (Z.to_nat (n `mod` 8)) (words_up (Z.to_nat words) m dst src)
        (dst + words * 8) (src + words * 8)
    else bytes_up (Z.to_nat n) m dst src
  else
    let d := dst + n in
    let s := src + n in
    if Z.land (Z.lor d s) 7 =? 0 then
      let words := n / 8 in
      bytes_down (Z.to_nat (n `mod` 8)) (words_down (Z.to_nat words) m d s)
        (d - words * 8) (s - words * 8)
    else bytes_down (Z.to_nat n) m d s.

(** The byte loops of [memcmp]: the first difference, or 0. *)
Fixpoint cmp_bytes (n : nat) (m : mem) (p1 p2 : Z) : Z :=
  match n with
  | O => 0
  | S n => if negb (m p1 =? m p2) then m p1 - m p2 else cmp_bytes n m (p1 + 1) (p2 + 1)
  end.

(** The loop up to alignment: a difference, or where it stopped. *)
Fixpoint cmp_head (n : nat) (m : mem) (p1 p2 : Z) : Z + (Z * Z * nat) :=
  match n with
  | O => inr (p1, p2, O)
  | S n' =>
      if Z.land (Z.lor p1 p2) 7 =? 0 then inr (p1, p2, n)
      else if negb (m p1 =? m p2) then inl (m p1 - m p2)
      else cmp_head n' m (p1 + 1) (p2 + 1)
  end.

(** [while (n >= 8)]: [k] words, then the tail. *)
Fixpoint cmp_words (k : nat) (tail : nat) (m : mem) (w1 w2 : Z) : Z :=
  match k with
  | O => cmp_bytes tail m w1 w2
  | S k =>
      if negb (load_word m w1 =? load_word m w2) then
        let r := cmp_bytes 8 m w1 w2 in
        if negb (r =? 0) then r else cmp_words k tail m (w1 + 8) (w2 + 8)
      else cmp_words k tail m (w1 + 8) (w2 + 8)
  end.

Definition memcmp (m : mem) (s1 s2 n : Z) : Z :=
  if n =? 0 then 0
  else match cmp_head (Z.to_nat n) m s1 s2 with
       | inl r => r
       | inr (p1, p2, n) => cmp_words (n / 8) (n mod 8) m p1 p2
       end.

(** ** Strings *)

Fixpoint strlen_loop (fuel : nat) (m : mem) (str len : Z) : option Z :=
  match fuel with
  | O => None
  | S f => if negb (m (str + len) =? 0) then strlen_loop f m str (len + 1) else Some len
  end.
Definition strlen (fuel : nat) (m : mem) (str : Z) : option Z := strlen_loop fuel m str 0.

(** Copies up to and with the terminator. *)
Fixpoint strcpy (fuel : nat) (m : mem) (dest src : Z) : option mem :=
  match fuel with
  | O => None
  | S f =>
      let m' := upd m dest (m src) in
      if negb (m src =? 0) then strcpy f m' (dest + 1) (src + 1) else Some m'
  end.

(** The copying loop of [strncpy]: the memory and the index it stopped at. *)
Fixpoint strncpy_copy (k : nat) (m : mem) (dest src i : Z) : mem * Z :=
  match k with
  | O => (m, i)
  | S k =>
      if negb (m (src + i) =? 0)
      then strncpy_copy k (upd m (dest + i) (m (src + i))) dest src (i + 1)
      else (m, i)
  end.
Definition strncpy (m : mem) (dest src n : Z) : mem :=
  let r := strncpy_copy (Z.to_nat n) m dest src 0 in
  set_loop (Z.to_nat (n - r.2)) r.1 (dest + r.2) 0.

Fixpoint strcmp (fuel : nat) (m : mem) (a b : Z) : option Z :=
  match fuel with
  | O => None
  | S f =>
      if negb (m a =? 0) && (m a =? m b) then strcmp f m (a + 1) (b + 1)
      else Some (m a - m b)
  end.

(** [n] counts down: the test [n--] leaves [n'] for the body. *)
Fixpoint strncmp_loop (n : nat) (m : mem) (a b : Z) : Z :=
  match n with
  | O => m a - m b
  | S n' =>
      if negb (m a =? 0) && (m a =? m b) then
        match n' with O => 0 | S _ => strncmp_loop n' m (a + 1) (b + 1) end
      else m a - m b
  end.
Definition strncmp (m : mem) (a b n : Z) : Z :=
  if n =? 0 then 0 else strncmp_loop (Z.to_nat n) m a b.

(** The inner loop of [strstr]: does the needle start here? *)
Fixpoint match_here (fuel : nat) (m : mem) (h n : Z) : option bool :=
  match fuel with
  | O => None
  | S f =>
      if negb (m h =? 0) && negb (m n =? 0) && (m h =? m n)
      then match_here f m (h + 1) (n + 1)
      else Some (m n =? 0)
  end.
(** 0 is NULL. *)
Fixpoint strstr_loop (fuel : nat) (m : mem) (h needle : Z) : option Z :=
  match fuel with
  | O => None
  | S f =>
      if m h =? 0 then Some 0
      else match match_here fuel m h needle with
           | None => None
           | Some true => Some h
           | Some false => strstr_loop f m (h + 1) needle
           end
  end.
Definition strstr (fuel : nat) (m : mem) (haystack needle : Z) : option Z :=
  if m needle =? 0 then Some haystack else strstr_loop fuel m haystack needle.

Fixpoint strchr (fuel : nat) (m : mem) (s c : Z) : option Z :=
  match fuel with
  | O => None
  | S f =>
      if m s =? 0 then Some 0
      else if m s =? u8 c then Some s else strchr f m (s + 1) c
  end.

Fixpoint strrchr_loop (fuel : nat) (m : mem) (s c found : Z) : option Z :=
  match fuel with
  | O => None
  | S f =>
      if m s =? 0 then Some found
      else strrchr_loop f m (s + 1) c (if m s =? u8 c then s else found)
  end.
Definition strrchr (fuel : nat) (m : mem) (s c : Z) : option Z := strrchr_loop fuel m s c 0.

Definition strcat (fuel : nat) (m : mem) (dest src : Z) : option mem :=
  match strlen fuel m dest with
  | None => None
  | Some len => strcpy fuel m (dest + len) src
  end.
