(* ===== verification/CStringProps.v ===== *)
(** * Properties of the memory and string primitives

    The optimised block routines agree with their byte-wise reference, also on
    overlapping buffers; the string routines compute what their names promise on
    terminated strings. *)

From stdpp Require Import base list.
From Stdlib Require Import ZArith Lia.
From S2P Require Import Prelude CString.

Local Open Scope Z_scope.

Lemma mem_upd_eq m a v : upd m a v a = v.
Proof. unfold upd. by rewrite Z.eqb_refl. Qed.
Lemma mem_upd_ne m a v x : x <> a -> upd m a v x = m x.
Proof. intros H. unfold upd. by rewrite (proj2 (Z.eqb_neq _ _)). Qed.

(** ** Words *)

Lemma store_le_spec n m a v x :
  store_le n m a v x =
  if (a <=? x) && (x <? a + Z.of_nat n) then (v / 256 ^ (x - a)) `mod` 256 else m x.
Proof.
  revert m a v. induction n as [|n IH]; intros m a v; simpl store_le.
  { destruct ((a <=? x) && _) eqn:E; [|done]. blia. }
  rewrite IH. destruct (decide (x = a)) as [->|Hne].
  - rewrite (proj2 (Z.leb_gt (a + 1) a)) by lia. simpl. rewrite mem_upd_eq.
    rewrite (proj2 (Z.leb_le a a)), (proj2 (Z.ltb_lt _ _)) by lia. simpl.
    by rewrite Z.sub_diag, Z.div_1_r.
  - rewrite mem_upd_ne by done.
    destruct ((a + 1 <=? x) && (x <? a + 1 + Z.of_nat n)) eqn:E1,
      ((a <=? x) && (x <? a + Z.of_nat (S n))) eqn:E2; bools; try done.
    + replace (x - a) with (1 + (x - (a + 1))) by lia. rewrite Z.pow_add_r by lia.
      rewrite Z.div_div by (try apply Z.pow_pos_nonneg; lia). done.
    + exfalso. apply andb_false_iff in E2 as [?|?]; blia.
    + exfalso. apply andb_false_iff in E1 as [?|?]; blia.
Qed.

Lemma load_le_byte n m a i :
  bytes m -> 0 <= i < Z.of_nat n -> (load_le n m a / 256 ^ i) `mod` 256 = m (a + i).
Proof.
  intros Hb. revert a i. induction n as [|n IH]; intros a i Hi; [lia|]. simpl load_le.
  specialize (Hb a). destruct (decide (i = 0)) as [->|Hne].
  - rewrite Z.div_1_r, Z.add_0_r, Z.mul_comm, Z_mod_plus_full. by apply Z.mod_small.
  - replace i with (1 + (i - 1)) at 1 by lia. rewrite Z.pow_add_r by lia.
    rewrite <- Z.div_div by (try apply Z.pow_pos_nonneg; lia). change (256 ^ 1) with 256.
    rewrite Z.mul_comm, Z.div_add, (Z.div_small (m a)), Z.add_0_l by lia.
    rewrite IH by lia. f_equal. lia.
Qed.

(** Copying a word is copying its eight bytes at once. *)
Lemma word_copy m d s x :
  bytes m -> store_word m d (load_word m s) x =
  if (d <=? x) && (x <? d + 8) then m (s + (x - d)) else m x.
Proof.
  intros Hb. unfold store_word, load_word. rewrite store_le_spec.
  change (Z.of_nat 8) with 8. destruct ((d <=? x) && (x <? d + 8)) eqn:E; [|done].
  bools. apply load_le_byte; [done|]. lia.
Qed.

Lemma bytes_upd m a v : bytes m -> 0 <= v < 256 -> bytes (upd m a v).
Proof. intros Hb Hv x. unfold upd. destruct (x =? a); [done|apply Hb]. Qed.

Lemma bytes_word m d s : bytes m -> bytes (store_word m d (load_word m s)).
Proof. intros Hb x. rewrite word_copy by done. destruct (_ && _); apply Hb. Qed.

(** Equal words have equal bytes. *)
Lemma word_eq_bytes m a b :
  bytes m -> load_word m a = load_word m b -> forall i, 0 <= i < 8 -> m (a + i) = m (b + i).
Proof.
  intros Hb E i Hi. rewrite <- (load_le_byte 8 m a i Hb), <- (load_le_byte 8 m b i Hb) by lia.
  unfold load_word in E. by rewrite E.
Qed.

(** ** Copying *)

(** The memory after the [n] bytes at [s] were copied to [d]. *)
Definition copied (m : mem) (d s n : Z) : mem :=
  fun x => if (d <=? x) && (x <? d + n) then m (s + (x - d)) else m x.

(** Decide the comparisons of a goal about single bytes. *)
Ltac cells :=
  repeat match goal with
  | |- context [?a <=? ?b] => destruct (a <=? b) eqn:?; bools
  | |- context [?a <? ?b] => destruct (a <? b) eqn:?; bools
  | |- context [?a =? ?b] => destruct (a =? b) eqn:?; bools
  end; simpl; try lia; try (f_equal; lia).

Lemma bytes_up_spec n m d s x :
  d <= s \/ s + Z.of_nat n <= d -> bytes_up n m d s x = copied m d s (Z.of_nat n) x.
Proof.
  revert m d s. induction n as [|n IH]; intros m d s Hd; simpl bytes_up.
  { unfold copied. cells. }
  rewrite IH by lia. unfold copied, upd. cells.
Qed.

Lemma bytes_down_spec n m d s x :
  s <= d -> bytes_down n m d s x = copied m (d - Z.of_nat n) (s - Z.of_nat n) (Z.of_nat n) x.
Proof.
  revert m d s. induction n as [|n IH]; intros m d s Hd; simpl bytes_down.
  { unfold copied. cells. }
  rewrite IH by lia. unfold copied, upd. cells.
Qed.

Lemma words_up_spec n m d s :
  bytes m -> d < s ->
  bytes (words_up n m d s) /\ forall x, words_up n m d s x = copied m d s (8 * Z.of_nat n) x.
Proof.
  intros Hb Hd. revert m d s Hb Hd. induction n as [|n IH]; intros m d s Hb Hd; simpl words_up.
  { split; [done|]. intros x. unfold copied. cells. }
  destruct (IH (store_word m d (load_word m s)) (d + 8) (s + 8)) as [H1 H2]; [by apply bytes_word|lia|].
  split; [done|]. intros x. rewrite H2. unfold copied. rewrite !word_copy by done. cells.
Qed.

Lemma words_down_spec n m d s :
  bytes m -> s < d ->
  bytes (words_down n m d s) /\
  forall x, words_down n m d s x = copied m (d - 8 * Z.of_nat n) (s - 8 * Z.of_nat n) (8 * Z.of_nat n) x.
Proof.
  intros Hb Hd. revert m d s Hb Hd. induction n as [|n IH]; intros m d s Hb Hd; simpl words_down.
  { split; [done|]. intros x. unfold copied. cells. }
  destruct (IH (store_word m (d - 8) (load_word m (s - 8))) (d - 8) (s - 8)) as [H1 H2]; [by apply bytes_word|lia|].
  split; [done|]. intros x. rewrite H2. unfold copied. rewrite !word_copy by done. cells.
Qed.

(** [memmove] copies as if through a second buffer: afterwards every byte of
    the destination is the byte the source had before, and every other byte is
    unchanged, however the two overlap and whichever of its four loops ran. *)
Theorem memmove_spec m dst src n x :
  bytes m -> 0 <= n -> memmove m dst src n x = copied m dst src n x.
Proof.
  intros Hb Hn. unfold memmove.
  destruct ((dst =? src) || (n =? 0)) eqn:E0.
  { apply orb_true_iff in E0. unfold copied. destruct E0; bools; subst; cells. }
  bools. destruct (dst <? src) eqn:E1; bools; (destruct (Z.land _ 7 =? 0)).
  - destruct (words_up_spec (Z.to_nat (n / 8)) m dst src Hb ltac:(lia)) as [_ Hw].
    rewrite bytes_up_spec by lia. unfold copied at 1. rewrite !Hw. unfold copied.
    rewrite !Z2Nat.id by zdiv. assert (n = n / 8 * 8 + n `mod` 8) by zdiv.
    assert (0 <= n `mod` 8 < 8) by (by apply Z.mod_pos_bound). cells.
  - rewrite bytes_up_spec by lia. by rewrite Z2Nat.id by lia.
  - destruct (words_down_spec (Z.to_nat (n / 8)) m (dst + n) (src + n) Hb ltac:(lia)) as [_ Hw].
    rewrite bytes_down_spec by lia. unfold copied at 1. rewrite !Hw. unfold copied.
    rewrite !Z2Nat.id by zdiv. assert (n = n / 8 * 8 + n `mod` 8) by zdiv.
    assert (0 <= n `mod` 8 < 8) by (by apply Z.mod_pos_bound). cells.
  - rewrite bytes_down_spec by lia. rewrite Z2Nat.id by lia. f_equal; lia.
Qed.

(** ** Comparing *)

Lemma cmp_bytes_app a b m p1 p2 :
  cmp_bytes (a + b) m p1 p2 =
  if cmp_bytes a m p1 p2 =? 0 then cmp_bytes b m (p1 + Z.of_nat a) (p2 + Z.of_nat a)
  else cmp_bytes a m p1 p2.
Proof.
  revert p1 p2. induction a as [|a IH]; intros p1 p2; simpl cmp_bytes.
  { simpl. by rewrite !Z.add_0_r. }
  destruct (m p1 =? m p2) eqn:E; simpl.
  - rewrite IH. replace (p1 + Z.of_nat (S a)) with (p1 + 1 + Z.of_nat a) by lia.
    by replace (p2 + Z.of_nat (S a)) with (p2 + 1 + Z.of_nat a) by lia.
  - bools. by rewrite (proj2 (Z.eqb_neq _ _)) by lia.
Qed.

Lemma cmp_bytes_zero n m p1 p2 :
  cmp_bytes n m p1 p2 = 0 <-> forall i, 0 <= i < Z.of_nat n -> m (p1 + i) = m (p2 + i).
Proof.
  revert p1 p2. induction n as [|n IH]; intros p1 p2; simpl cmp_bytes.
  { split; [intros _ i Hi; lia|done]. }
  destruct (m p1 =? m p2) eqn:E; simpl; bools.
  - rewrite IH. split; intros H i Hi.
    + destruct (decide (i = 0)) as [->|]; [by rewrite !Z.add_0_r|].
      replace (p1 + i) with (p1 + 1 + (i - 1)) by lia. replace (p2 + i) with (p2 + 1 + (i - 1)) by lia.
      apply H. lia.
    + replace (p1 + 1 + i) with (p1 + (i + 1)) by lia. replace (p2 + 1 + i) with (p2 + (i + 1)) by lia.
      apply H. lia.
  - split; [lia|]. intros H. specialize (H 0 ltac:(lia)). rewrite !Z.add_0_r in H. lia.
Qed.

Lemma cmp_words_spec k t m w1 w2 :
  bytes m -> cmp_words k t m w1 w2 = cmp_bytes (8 * k + t) m w1 w2.
Proof.
  intros Hb. revert w1 w2. induction k as [|k IH]; intros w1 w2; cbn [cmp_words]; [done|].
  replace (8 * S k + t)%nat with (8 + (8 * k + t))%nat by lia. rewrite cmp_bytes_app, !IH.
  change (Z.of_nat 8) with 8. destruct (load_word m w1 =? load_word m w2) eqn:E; cbn [negb]; bools.
  - rewrite (proj2 (Z.eqb_eq _ _)); [done|]. apply cmp_bytes_zero. intros i Hi.
    apply word_eq_bytes; [done|done|lia].
  - cbv zeta. by destruct (cmp_bytes 8 m w1 w2 =? 0).
Qed.

Lemma cmp_head_spec n m p1 p2 :
  match cmp_head n m p1 p2 with
  | inl r => r = cmp_bytes n m p1 p2
  | inr (q1, q2, k) => cmp_bytes n m p1 p2 = cmp_bytes k m q1 q2
  end.
Proof.
  revert p1 p2. induction n as [|n IH]; intros p1 p2; [done|]. simpl cmp_head.
  destruct (Z.land (Z.lor p1 p2) 7 =? 0); [done|]. simpl cmp_bytes.
  destruct (negb (m p1 =? m p2)); [done|]. apply IH.
Qed.

(** [memcmp] compares bytes.  Its word-wise loops give exactly the result of
    comparing byte by byte: 0 when the blocks are equal, and otherwise the
    difference of the first pair of bytes that differ. *)
Theorem memcmp_spec m s1 s2 n :
  bytes m -> 0 <= n ->
  (memcmp m s1 s2 n = 0 <-> forall i, 0 <= i < n -> m (s1 + i) = m (s2 + i)) /\
  (forall i, 0 <= i < n -> (forall j, 0 <= j < i -> m (s1 + j) = m (s2 + j)) ->
    m (s1 + i) <> m (s2 + i) -> memcmp m s1 s2 n = m (s1 + i) - m (s2 + i)).
Proof.
  intros Hb Hn. assert (E : memcmp m s1 s2 n = cmp_bytes (Z.to_nat n) m s1 s2).
  { unfold memcmp. destruct (n =? 0) eqn:E0; bools; [by rewrite E0|].
    pose proof (cmp_head_spec (Z.to_nat n) m s1 s2) as H.
    destruct (cmp_head _ _ _ _) as [r|[[p1 p2] k]]; [done|]. rewrite H, cmp_words_spec by done.
    f_equal. pose proof (Nat.div_mod_eq k 8). lia. }
  rewrite E. split; [rewrite cmp_bytes_zero, Z2Nat.id by lia; done|].
  intros i Hi Heq Hne. replace (Z.to_nat n) with (Z.to_nat i + (1 + Z.to_nat (n - i - 1)))%nat by lia.
  rewrite cmp_bytes_app, (proj2 (Z.eqb_eq (cmp_bytes (Z.to_nat i) m s1 s2) 0)).
  2:{ apply cmp_bytes_zero. intros j Hj. apply Heq. lia. }
  rewrite Z2Nat.id by lia. simpl. by rewrite (proj2 (Z.eqb_neq _ _)).
Qed.

(** ** Strings *)

(** [a] points to the terminated string [s]. *)
Fixpoint cstr (m : mem) (a : Z) (s : list Z) : Prop :=
  match s with
  | [] => m a = 0
  | c :: s => m a = c /\ c <> 0 /\ cstr m (a + 1) s
  end.

(** The difference at the first place two strings differ, the terminator included. *)
Fixpoint strdiff (s t : list Z) : Z :=
  match s, t with
  | [], [] => 0
  | [], d :: _ => 0 - d
  | c :: _, [] => c - 0
  | c :: s, d :: t => if c =? d then strdiff s t else c - d
  end.

Lemma cstr_nonzero m a s : cstr m a s -> Forall (fun c => c <> 0) s.
Proof. revert a. induction s as [|c s IH]; intros a; simpl; [done|]. intros (_ & ? & ?). eauto. Qed.

Lemma strdiff_zero s t :
  Forall (fun c => c <> 0) s -> Forall (fun c => c <> 0) t -> strdiff s t = 0 <-> s = t.
Proof.
  revert t. induction s as [|c s IH]; intros [|d t] Hs Ht; simpl; [done| | |].
  - inversion Ht; subst. split; [lia|done].
  - inversion Hs; subst. split; [lia|done].
  - inversion Hs; inversion Ht; subst. destruct (c =? d) eqn:E; bools.
    + subst. rewrite IH by done. split; congruence.
    + split; [lia|congruence].
Qed.

Lemma strlen_spec m a s fuel :
  cstr m a s -> (length s < fuel)%nat -> strlen fuel m a = Some (Z.of_nat (length s)).
Proof.
  assert (Hg : forall fuel a k, cstr m (a + k) s -> (length s < fuel)%nat ->
    strlen_loop fuel m a k = Some (k + Z.of_nat (length s))).
  { induction s as [|c s IH]; intros f a' k Hs Hf; (destruct f as [|f]; [simpl in Hf; lia|]); simpl.
    - simpl in Hs. rewrite Hs. simpl. by rewrite Z.add_0_r.
    - destruct Hs as (-> & Hc & Hs). rewrite (proj2 (Z.eqb_neq _ _)) by done. simpl.
      rewrite IH; [f_equal; lia|by rewrite Z.add_assoc|simpl in Hf; lia]. }
  intros Hs Hf. unfold strlen. rewrite Hg; [done|by rewrite Z.add_0_r|done].
Qed.

(** [strcmp] orders strings: on terminated strings it returns, and the result
    is the difference of the first bytes that differ; it is 0 exactly when the
    strings are equal. *)
Lemma strcmp_spec m a b s t fuel :
  cstr m a s -> cstr m b t -> (length s < fuel)%nat ->
  strcmp fuel m a b = Some (strdiff s t) /\ (strdiff s t = 0 <-> s = t).
Proof.
  intros Hs Ht Hf. split; [|apply strdiff_zero; by eapply cstr_nonzero].
  revert a b t fuel Hs Ht Hf. induction s as [|c s IH]; intros a b t fuel Hs Ht Hf;
    (destruct fuel as [|fuel]; [simpl in Hf; lia|]); simpl.
  - simpl in Hs. rewrite Hs. simpl. destruct t as [|d t]; [by rewrite Ht|]. by destruct Ht as (-> & _).
  - destruct Hs as (-> & Hc & Hs). rewrite (proj2 (Z.eqb_neq _ _)) by done. simpl.
    destruct t as [|d t].
    + simpl in Ht. rewrite Ht, (proj2 (Z.eqb_neq _ _)) by done. done.
    + destruct Ht as (-> & Hd & Ht). destruct (c =? d); [|done]. apply IH; [done|done|simpl in Hf; lia].
Qed.

(** [strncmp] compares the first [n] bytes: its result is that of comparing
    the strings cut off after [n] bytes. *)
Lemma strncmp_spec m a b s t n :
  cstr m a s -> cstr m b t -> 0 <= n ->
  strncmp m a b n = strdiff (take (Z.to_nat n) s) (take (Z.to_nat n) t).
Proof.
  intros Hs Ht Hn. unfold strncmp. destruct (n =? 0) eqn:E0; bools; [by subst|].
  assert (Hp : (0 < Z.to_nat n)%nat) by lia. revert Hp. generalize (Z.to_nat n) as k. clear E0 Hn.
  intros k. revert a b t k Hs Ht. induction s as [|c s IH]; intros a b t [|k] Hs Ht Hp; try lia; simpl.
  - simpl in Hs. rewrite Hs. simpl. destruct t as [|d t]; [by rewrite Ht|]. by destruct Ht as (-> & _).
  - destruct Hs as (-> & Hc & Hs). rewrite (proj2 (Z.eqb_neq _ _)) by done. simpl.
    destruct t as [|d t].
    + simpl in Ht. rewrite Ht, (proj2 (Z.eqb_neq _ _)) by done. done.
    + destruct Ht as (-> & Hd & Ht). cbn [take]. destruct (c =? d); [|done].
      destruct k as [|k]; [done|]. apply IH; [done|done|lia].
Qed.

(** ** Copying strings *)

Lemma cstr_ext m m' a s :
  (forall i, 0 <= i <= Z.of_nat (length s) -> m' (a + i) = m (a + i)) -> cstr m a s -> cstr m' a s.
Proof.
  revert a. induction s as [|c s IH]; intros a H; simpl.
  - specialize (H 0 ltac:(simpl; lia)). rewrite Z.add_0_r in H. congruence.
  - intros (H1 & H2 & H3). pose proof (H 0 ltac:(simpl; lia)) as H0. rewrite Z.add_0_r in H0.
    split_and!; [congruence|done|]. apply IH; [|done]. intros i Hi.
    replace (a + 1 + i) with (a + (i + 1)) by lia. apply H. simpl. lia.
Qed.

Lemma cstr_move m a e s : cstr m a s -> cstr (fun x => m (x - e + a)) e s.
Proof.
  revert m a e. induction s as [|c s IH]; intros m a e; simpl; replace (e - e + a) with a by lia; [done|].
  intros (H1 & H2 & H3). split_and!; [done|done|]. apply (IH _ _ (e + 1)) in H3.
  eapply cstr_ext; [|exact H3]. intros i _. simpl. f_equal. lia.
Qed.

Lemma cstr_app m a s t : cstr m a (s ++ t) <->
  Forall (fun c => c <> 0) s /\ (forall i c, s !! i = Some c -> m (a + Z.of_nat i) = c) /\
  cstr m (a + Z.of_nat (length s)) t.
Proof.
  revert a. induction s as [|c s IH]; intros a; simpl.
  - rewrite Z.add_0_r. split; [intros H; split_and!; [done|intros; done|done]|tauto].
  - rewrite IH. replace (a + 1 + Z.of_nat (length s)) with (a + Z.of_nat (S (length s))) by lia.
    split.
    + intros (H1 & H2 & H3 & H4 & H5). split_and!; [by constructor| |done].
      intros [|i] d Hd; simpl in Hd; [simplify_eq; by rewrite Z.add_0_r|].
      replace (a + Z.of_nat (S i)) with (a + 1 + Z.of_nat i) by lia. by apply H4.
    + intros (H1 & H2 & H3). inversion H1; subst. split_and!; [|done|done| |done].
      * rewrite <- (H2 0%nat c eq_refl). by rewrite Z.add_0_r.
      * intros i d Hd. replace (a + 1 + Z.of_nat i) with (a + Z.of_nat (S i)) by lia. by apply H2.
Qed.

Lemma strcpy_copied m dest src s fuel :
  cstr m src s -> (length s < fuel)%nat ->
  dest <= src \/ src + Z.of_nat (length s) < dest ->
  exists m', strcpy fuel m dest src = Some m' /\
    forall x, m' x = copied m dest src (Z.of_nat (length s) + 1) x.
Proof.
  revert m dest src fuel. induction s as [|c s IH]; intros m dest src fuel Hs Hf Hd;
    (destruct fuel as [|fuel]; [simpl in Hf; lia|]); simpl strcpy.
  - simpl in Hs. rewrite Hs. simpl. eexists. split; [done|]. intros x. unfold copied, upd. cells.
    by replace (src + (x - dest)) with src by lia.
  - destruct Hs as (Hm0 & Hc & Hs). rewrite Hm0, (proj2 (Z.eqb_neq _ _)) by done. simpl negb. cbn match.
    simpl length in *.
    destruct (IH (upd m dest c) (dest + 1) (src + 1) fuel) as (m' & Hm & Hx); [|lia|lia|].
    + destruct Hd as [Hd|Hd]; (eapply cstr_ext; [|exact Hs]); intros i Hi; apply mem_upd_ne; lia.
    + exists m'. split; [done|]. intros x. rewrite Hx. unfold copied, upd. rewrite <- Hm0. cells.
Qed.

Lemma strlen_loop_spec m a s fuel :
  (length s < fuel)%nat -> forall len, cstr m (a + len) s ->
  strlen_loop fuel m a len = Some (len + Z.of_nat (length s)).
Proof.
  revert fuel. induction s as [|c s IH]; intros [|fuel] Hf len H; simpl in *; try lia.
  - rewrite H. simpl. f_equal. lia.
  - destruct H as (-> & Hc & H). rewrite (proj2 (Z.eqb_neq _ _)) by done. simpl.
    rewrite IH; [f_equal; lia|lia|]. by replace (a + (len + 1)) with (a + len + 1) by lia.
Qed.

Lemma strlen_cstr m a s fuel :
  cstr m a s -> (length s < fuel)%nat -> strlen fuel m a = Some (Z.of_nat (length s)).
Proof.
  intros H Hf. unfold strlen. rewrite (strlen_loop_spec m a s) by (rewrite ?Z.add_0_r; done).
  done.
Qed.

(** [strcat] appends: when the source does not overlap the space behind the
    destination's string, the destination holds both strings one after the other
    with one terminator, and no byte outside the appended part changed. *)
Theorem strcat_spec m dest src s t fuel :
  cstr m dest s -> cstr m src t -> (length s < fuel)%nat -> (length t < fuel)%nat ->
  let e := dest + Z.of_nat (length s) in
  src + Z.of_nat (length t) < dest \/ e + Z.of_nat (length t) < src ->
  exists m', strcat fuel m dest src = Some m' /\ cstr m' dest (s ++ t) /\
    forall x, x < e \/ e + Z.of_nat (length t) < x -> m' x = m x.
Proof.
  intros Hs Ht Hf1 Hf2 e Hd. unfold strcat. rewrite (strlen_cstr m dest s) by done.
  destruct (strcpy_copied m e src t fuel Ht Hf2) as (m' & Hm & Hx); [unfold e in *; lia|].
  exists m'. split; [exact Hm|]. rewrite <- (app_nil_r s) in Hs.
  apply cstr_app in Hs as (H1 & H2 & _). split.
  - apply cstr_app. split_and!; [done| |].
    + intros i c Hc. rewrite Hx. unfold copied. pose proof (lookup_lt_Some _ _ _ Hc).
      rewrite (proj2 (Z.leb_gt _ _)) by (unfold e; lia). simpl. by apply H2.
    + fold e. revert Ht. intros Ht. cut (cstr (fun x => m (x - e + src)) e t).
      * apply cstr_ext. intros i Hi. rewrite Hx. unfold copied.
        rewrite (proj2 (Z.leb_le _ _)), (proj2 (Z.ltb_lt _ _)) by lia. simpl. f_equal. lia.
      * apply cstr_move. exact Ht.
  - intros x Hxr. rewrite Hx. unfold copied. cells.
Qed.

(** ** Searching *)

Lemma match_here_spec m h n s t fuel :
  cstr m h s -> cstr m n t -> (length s < fuel)%nat ->
  match_here fuel m h n = Some (bool_decide (t `prefix_of` s)).
Proof.
  revert h n t fuel. induction s as [|c s IH]; intros h n t [|fuel] Hs Ht Hf; simpl in Hf; try lia; cbn [match_here].
  - simpl in Hs. rewrite Hs, Z.eqb_refl. cbn [negb andb]. destruct t as [|d t]; simpl in Ht.
    + rewrite Ht, Z.eqb_refl. by rewrite bool_decide_true by apply prefix_nil.
    + destruct Ht as (-> & Hd & _). rewrite (proj2 (Z.eqb_neq _ _)) by done.
      rewrite bool_decide_false; [done|]. by intros [k Hk].
  - destruct Hs as (-> & Hc & Hs). rewrite (proj2 (Z.eqb_neq c _)) by done. cbn [negb andb].
    destruct t as [|d t]; simpl in Ht.
    + rewrite Ht, Z.eqb_refl. cbn [negb andb]. by rewrite bool_decide_true by apply prefix_nil.
    + destruct Ht as (-> & Hd & Ht). rewrite (proj2 (Z.eqb_neq d _)) by done. cbn [negb andb].
      destruct (c =? d) eqn:E; bools.
      * subst. rewrite (IH _ _ t) by (done || lia). f_equal. apply bool_decide_ext.
        split; [apply prefix_cons|apply prefix_cons_inv_2].
      * rewrite bool_decide_false; [done|]. intros Hp. apply prefix_cons_inv_1 in Hp. congruence.
Qed.

Lemma strstr_loop_spec m h n s t fuel :
  cstr m h s -> cstr m n t -> t <> [] -> (length s < fuel)%nat ->
  match strstr_loop fuel m h n with
  | Some r => (r = 0 /\ forall i, ~ t `prefix_of` drop i s) \/
      exists k, r = h + Z.of_nat k /\ t `prefix_of` drop k s /\ forall i, (i < k)%nat -> ~ t `prefix_of` drop i s
  | None => False
  end.
Proof.
  intros Hs Ht Hne. revert h fuel Hs. induction s as [|c s IH]; intros h [|fuel] Hs Hf; simpl in Hf; try lia;
    cbn [strstr_loop].
  - simpl in Hs. rewrite Hs. simpl. left. split; [done|]. intros i. rewrite drop_nil.
    intros Hp. apply prefix_nil_inv in Hp. done.
  - rewrite (match_here_spec m h n (c :: s) t) by (done || simpl; lia).
    destruct Hs as (-> & Hc & Hs). rewrite (proj2 (Z.eqb_neq c _)) by done.
    case_bool_decide as Hp.
    + right. exists 0%nat. split_and!; [lia|done|lia].
    + specialize (IH (h + 1) fuel Hs ltac:(lia)).
      destruct (strstr_loop fuel m (h + 1) n) as [r|]; [|done].
      destruct IH as [[-> H]|(k & -> & H1 & H2)].
      * left. split; [done|]. intros [|i]; [done|apply H].
      * right. exists (S k). split_and!; [lia|done|]. intros [|i] Hi; [done|]. apply H2. lia.
Qed.

(** [strstr] finds the first occurrence: on terminated strings it returns, the
    result points at the first position where the needle starts, and it is NULL
    exactly when the needle starts nowhere. *)
Theorem strstr_spec m h n s t fuel :
  cstr m h s -> cstr m n t -> (length s < fuel)%nat -> 0 < h ->
  exists r, strstr fuel m h n = Some r /\
    ((r = 0 /\ forall i, ~ t `prefix_of` drop i s) \/
     (exists k, r = h + Z.of_nat k /\ t `prefix_of` drop k s /\
        forall i, (i < k)%nat -> ~ t `prefix_of` drop i s)).
Proof.
  intros Hs Ht Hf Hh. unfold strstr. destruct t as [|d t].
  - simpl in Ht. rewrite Ht. simpl. exists h. split; [done|]. right. exists 0%nat.
    split_and!; [lia|apply prefix_nil|lia].
  - destruct (Ht) as (-> & Hd & _). rewrite (proj2 (Z.eqb_neq d _)) by done.
    pose proof (strstr_loop_spec m h n s (d :: t) fuel Hs Ht ltac:(done) Hf) as H.
    destruct (strstr_loop fuel m h n) as [r|]; [|done]. by exists r.
Qed.

(** ** A concrete memory *)

(** The bytes of [l] at address 64, zeros elsewhere. *)
Definition ex_mem (l : list Z) : mem := fun a => if a <? 64 then 0 else nth (Z.to_nat (a - 64)) l 0.

Lemma ex_mem_bytes l : Forall (fun c => 0 <= c < 256) l -> bytes (ex_mem l).
Proof.
  intros H a. unfold ex_mem. destruct (a <? 64); [lia|]. generalize (Z.to_nat (a - 64)) as i. clear a.
  induction H; intros [|i]; simpl; try lia. apply IHForall.
Qed.

(** [hello] and a terminator, then [lo]. *)
Definition ex_hello : list Z := [104; 101; 108; 108; 111; 0; 0; 0; 108; 111; 0].
Lemma ex_hello_bytes : bytes (ex_mem ex_hello).
Proof. apply ex_mem_bytes. repeat constructor; lia. Qed.

Lemma memmove_spec_witness : memmove (ex_mem ex_hello) 66 64 5 68 = 108.
Proof. rewrite (memmove_spec (ex_mem ex_hello) 66 64 5 68 ex_hello_bytes ltac:(lia)). reflexivity. Defined.

Lemma memcmp_spec_witness : memcmp (ex_mem ex_hello) 66 72 2 = 108 - 111.
Proof.
  destruct (memcmp_spec (ex_mem ex_hello) 66 72 2 ex_hello_bytes ltac:(lia)) as [_ H].
  rewrite (H 1); [reflexivity|lia| |discriminate].
  intros j Hj. assert (j = 0) as -> by lia. reflexivity.
Defined.

Lemma strcat_spec_witness :
  exists m', strcat 8 (ex_mem [104; 105; 0; 0; 0; 0; 0; 0; 33; 33; 0]) 64 72 = Some m' /\
    cstr m' 64 [104; 105; 33; 33].
Proof.
  destruct (strcat_spec (ex_mem [104; 105; 0; 0; 0; 0; 0; 0; 33; 33; 0]) 64 72 [104; 105] [33; 33] 8)
    as (m' & H1 & H2 & _); [repeat split; discriminate|repeat split; discriminate|simpl; lia|simpl; lia|right; reflexivity|].
  exists m'. split; [exact H1|exact H2].
Defined.

Lemma strstr_spec_witness : strstr 8 (ex_mem ex_hello) 64 72 = Some 67.
Proof.
  destruct (strstr_spec (ex_mem ex_hello) 64 72 [104; 101; 108; 108; 111] [108; 111] 8)
    as (r & -> & [[-> H]|(k & -> & H1 & H2)]);
    [repeat split; discriminate|repeat split; discriminate|simpl; lia|lia| |].
  - destruct (H 3%nat). exists []. reflexivity.
  - do 2 f_equal. assert (Hk : k = 3%nat); [|subst k; reflexivity].
    destruct k as [|[|[|[|k]]]]; try reflexivity.
    + destruct H1 as [t Ht]. discriminate Ht.
    + destruct H1 as [t Ht]. discriminate Ht.
    + destruct H1 as [t Ht]. discriminate Ht.
    + destruct (H2 3%nat); [lia|]. exists []. reflexivity.
Defined.
