(* ===== verification/Pipe.v ===== *)
(** * Pipes (kernel/src/fs/pipe.c)

    A pipe is a shared buffer with two endpoints, each behind an open file.  The
    kernel objects involved live in a store from addresses to objects; 0 is NULL,
    an access to an address with no object is a use after free and faults, and so is
    an access outside a buffer.  A buffer has the usable size the heap's size
    classes give it.  The heap grants the next [budget] requests and then returns
    NULL.  The code between [spinlock_acquire] and [spinlock_release] is one step;
    what other threads do while a reader sleeps is an argument of the read. *)

From stdpp Require Import gmap list.
From Stdlib Require Import ZArith Lia.
From S2P Require Import Prelude Heap.

Local Open Scope Z_scope.

Definition EBADF : Z := 9.
Definition EAGAIN : Z := 11.
Definition ENOMEM : Z := 12.
Definition EINVAL : Z := 22.
Definition EPIPE : Z := 32.

Definition PIPE_INITIAL_CAPACITY : Z := 4096.
Definition PIPE_READER : Z := 1.
Definition PIPE_WRITER : Z := 2.
Definition VFS_O_RDONLY : Z := 0.
Definition VFS_O_WRONLY : Z := 1.

(** ** Objects *)

Record pipe_shared := mkShared {
  buffer : Z; capacity : Z; write_offset : Z; readers : Z; writers : Z; nodes : Z }.

(** [&pipe_ops], or the operations of some other file system. *)
Inductive vfs_ops := pipe_ops | other_ops.

(** The embedded [vfs_node_t] has the operations and the reference count. *)
Record pipe_endpoint := mkEnd { ops : vfs_ops; refs : Z; shared : Z; side : Z }.
Record vfs_file := mkFile { node : Z; flags : Z; offset : Z; frefs : Z }.

Inductive obj :=
  | OShared (p : pipe_shared)
  | OBuf (bs : list Z)
  | OEnd (e : pipe_endpoint)
  | OFile (f : vfs_file).

Record store := mkStore { objs : gmap Z obj; next : Z; budget : nat }.

Definition set_objs (f : gmap Z obj -> gmap Z obj) (s : store) : store :=
  mkStore (f (objs s)) (next s) (budget s).

Definition get_shared (a : Z) : M store pipe_shared := fun s =>
  match objs s !! a with Some (OShared p) => Ret p s | _ => Fault end.
Definition get_end (a : Z) : M store pipe_endpoint := fun s =>
  match objs s !! a with Some (OEnd e) => Ret e s | _ => Fault end.
Definition get_file (a : Z) : M store vfs_file := fun s =>
  match objs s !! a with Some (OFile f) => Ret f s | _ => Fault end.
Definition get_buf (a : Z) : M store (list Z) := fun s =>
  match objs s !! a with Some (OBuf b) => Ret b s | _ => Fault end.
Definition put (a : Z) (o : obj) : M store unit := modify (set_objs (insert a o)).

(** ** The heap, one object at a time *)

(** A granted request gets the next address; 0 is NULL. *)
Definition alloc (o : obj) : M store Z := fun s =>
  match budget s with
  | O => Ret 0 s
  | S b => Ret (next s) (mkStore (<[next s := o]> (objs s)) (next s + 1) b)
  end.

(** [kfree]: of NULL nothing, of an address with no object a double free. *)
Definition free (a : Z) : M store unit :=
  if a =? 0 then ret tt
  else fun s => match objs s !! a with
                | Some _ => Ret tt (set_objs (delete a) s)
                | None => Fault
                end.

(** The bytes an object of a given size really has: its class's, or whole pages. *)
Definition usable (size : Z) : Z :=
  if (cache_idx size <? NUM_CACHES)%nat then Z.shiftl SLAB_MIN (Z.of_nat (cache_idx size))
  else DIV_ROUND_UP size PAGE_SIZE * PAGE_SIZE.

Section pipe.
(** What memory holds that [kmalloc] hands out. *)
Variable junk : Z.

Definition kmalloc_buf (size : Z) : M store Z :=
  if size =? 0 then ret 0 else alloc (OBuf (replicate (Z.to_nat (usable size)) junk)).

Definition kzalloc_buf (size : Z) : M store Z :=
  if size =? 0 then ret 0
  else alloc (OBuf (replicate (Z.to_nat size) 0 ++ replicate (Z.to_nat (usable size - size)) junk)).

(** [krealloc]: the same class means the same object. *)
Definition krealloc_buf (ptr size : Z) : M store Z :=
  if ptr =? 0 then kmalloc_buf size
  else if size =? 0 then free ptr ;;; ret 0
  else
    let* old := get_buf ptr in
    let old_size := Z.of_nat (length old) in
    if (cache_idx size =? cache_idx old_size)%nat then ret ptr
    else
      let* n := kmalloc_buf size in
      if n =? 0 then ret 0
      else
        let* b := get_buf n in
        let k := Z.to_nat (Z.min old_size size) in
        put n (OBuf (take k old ++ drop k b)) ;;;
        free ptr ;;;
        ret n.

(** [memcpy(a + off, data, n)] and [memset] into a buffer. *)
Definition buf_store (a off : Z) (data : list Z) : M store unit :=
  let* b := get_buf a in
  if (0 <=? off) && (off + Z.of_nat (length data) <=? Z.of_nat (length b)) then
    put a (OBuf (take (Z.to_nat off) b ++ data ++ drop (Z.to_nat off + length data) b))
  else fault.
Definition buf_zero (a off n : Z) : M store unit := buf_store a off (replicate (Z.to_nat n) 0).
(** [memcpy(out, a + off, n)] *)
Definition buf_load (a off n : Z) : M store (list Z) :=
  let* b := get_buf a in
  if (0 <=? off) && (off + n <=? Z.of_nat (length b))
  then ret (take (Z.to_nat n) (drop (Z.to_nat off) b)) else fault.

(** ** The operations *)

Definition pipe_endpoint_from_node (node : Z) : Z := if negb (node =? 0) then node else 0.

(** [file ? file->node : NULL] *)
Definition file_node (file : Z) : M store Z :=
  if file =? 0 then ret 0 else let* f := get_file file in ret (node f).

(** The endpoint of a file, and its shared part; [None] when one of them is NULL. *)
Definition endpoint_of (file : Z) : M store (option pipe_endpoint) :=
  let* n := file_node file in
  let endpoint := pipe_endpoint_from_node n in
  if endpoint =? 0 then ret None
  else let* e := get_end endpoint in
       if shared e =? 0 then ret None else ret (Some e).

Definition pipe_close (file : Z) : M store Z :=
  let* oe := endpoint_of file in
  match oe with
  | None => ret (- EBADF)
  | Some e =>
      let* p := get_shared (shared e) in
      put (shared e) (OShared
        (if side e =? PIPE_READER then
           if 0 <? readers p then
             mkShared (buffer p) (capacity p) (write_offset p) (u32 (readers p - 1)) (writers p) (nodes p)
           else p
         else if 0 <? writers p then
           mkShared (buffer p) (capacity p) (write_offset p) (readers p) (u32 (writers p - 1)) (nodes p)
         else p)) ;;;
      ret 0
  end.

Definition LYR_POLLIN : Z := 1.
Definition LYR_POLLOUT : Z := 4.
Definition LYR_POLLERR : Z := 8.
Definition LYR_POLLHUP : Z := 16.
Definition LYR_POLLRDNORM : Z := 64.
Definition LYR_POLLRDBAND : Z := 128.
Definition LYR_POLLWRNORM : Z := 256.
Definition LYR_POLLWRBAND : Z := 512.
Definition LYR_POLL_READ_MASK : Z := Z.lor LYR_POLLIN (Z.lor LYR_POLLRDNORM LYR_POLLRDBAND).
Definition LYR_POLL_WRITE_MASK : Z := Z.lor LYR_POLLOUT (Z.lor LYR_POLLWRNORM LYR_POLLWRBAND).

Definition pipe_poll (file events : Z) : M store Z :=
  let* oe := endpoint_of file in
  match oe with
  | None => ret 0
  | Some e =>
      let* f := get_file file in
      let* p := get_shared (shared e) in
      let r1 :=
        if has events LYR_POLL_READ_MASK then
          Z.lor
            (if (offset f <? write_offset p) || (writers p =? 0)
             then Z.lor LYR_POLLIN LYR_POLLRDNORM else 0)
            (if writers p =? 0 then LYR_POLLHUP else 0)
        else 0 in
      let r2 :=
        if has events LYR_POLL_WRITE_MASK then
          if readers p =? 0 then LYR_POLLERR else Z.lor LYR_POLLOUT LYR_POLLWRNORM
        else 0 in
      ret (Z.lor r1 r2)
  end.

Definition pipe_release (node : Z) : M store unit :=
  let endpoint := pipe_endpoint_from_node node in
  if endpoint =? 0 then ret tt
  else
    let* e := get_end endpoint in
    when (negb (shared e =? 0))
      (let* p := get_shared (shared e) in
       let n := if 0 <? nodes p then u32 (nodes p - 1) else nodes p in
       put (shared e) (OShared
         (mkShared (buffer p) (capacity p) (write_offset p) (readers p) (writers p) n)) ;;;
       when (n =? 0) (free (buffer p) ;;; free (shared e))) ;;;
    free endpoint.

(** vfs.c: drop one reference of a node.  A node of another file system is left to
    that file system. *)
Definition vfs_node_release (node : Z) : M store unit :=
  if node =? 0 then ret tt
  else
    let* e := get_end node in
    if refs e =? 0 then ret tt
    else
      let n := u32 (refs e - 1) in
      put node (OEnd (mkEnd (ops e) n (shared e) (side e))) ;;;
      when (n =? 0) (match ops e with pipe_ops => pipe_release node | other_ops => ret tt end).

Definition vfs_file_ref (file : Z) : M store Z :=
  when (negb (file =? 0))
    (let* f := get_file file in
     put file (OFile (mkFile (node f) (flags f) (offset f) (u32 (frefs f + 1))))) ;;;
  ret file.

Definition vfs_close (file : Z) : M store Z :=
  if file =? 0 then ret (- EBADF)
  else
    let* f := get_file file in
    if 1 <? frefs f then
      put file (OFile (mkFile (node f) (flags f) (offset f) (u32 (frefs f - 1)))) ;;; ret 0
    else
      let* r := (if node f =? 0 then ret 0
                 else let* e := get_end (node f) in
                      match ops e with pipe_ops => pipe_close file | other_ops => ret 0 end) in
      vfs_node_release (node f) ;;;
      free file ;;;
      ret r.

Definition pipe_endpoint_create (sh sd : Z) : M store Z :=
  let* endpoint := alloc (OEnd (mkEnd other_ops 0 0 0)) in
  if endpoint =? 0 then ret 0
  else put endpoint (OEnd (mkEnd pipe_ops 1 sh sd)) ;;; ret endpoint.

(** The result and the two files ([*read_end], [*write_end]). *)
Definition vfs_pipe_create (read_end write_end : bool) : M store (Z * Z * Z) :=
  if negb read_end || negb write_end then ret (- EINVAL, 0, 0)
  else
    let* sh := alloc (OShared (mkShared 0 0 0 0 0 0)) in
    if sh =? 0 then ret (- ENOMEM, 0, 0)
    else
    let* buf := kzalloc_buf (PIPE_INITIAL_CAPACITY + 1) in
    put sh (OShared (mkShared buf PIPE_INITIAL_CAPACITY 0 0 0 0)) ;;;
    if buf =? 0 then free sh ;;; ret (- ENOMEM, 0, 0)
    else
    put sh (OShared (mkShared buf PIPE_INITIAL_CAPACITY 0 1 1 2)) ;;;
    let* reader := pipe_endpoint_create sh PIPE_READER in
    if reader =? 0 then free sh ;;; ret (- ENOMEM, 0, 0)
    else
    let* writer := pipe_endpoint_create sh PIPE_WRITER in
    if writer =? 0 then vfs_node_release reader ;;; ret (- ENOMEM, 0, 0)
    else
    let* rf := alloc (OFile (mkFile 0 0 0 0)) in
    if rf =? 0 then
      vfs_node_release reader ;;; vfs_node_release writer ;;; ret (- ENOMEM, 0, 0)
    else
    let* wf := alloc (OFile (mkFile 0 0 0 0)) in
    if wf =? 0 then
      free rf ;;; vfs_node_release reader ;;; vfs_node_release writer ;;; ret (- ENOMEM, 0, 0)
    else
    put rf (OFile (mkFile reader VFS_O_RDONLY 0 1)) ;;;
    put wf (OFile (mkFile writer VFS_O_WRONLY 0 1)) ;;;
    ret (0, rf, wf).

Definition vfs_pipe_is (file : Z) : M store bool :=
  let* n := file_node file in
  if n =? 0 then ret false
  else let* e := get_end n in ret (match ops e with pipe_ops => true | other_ops => false end).

Definition vfs_pipe_ref (file : Z) : M store Z :=
  let* oe := endpoint_of file in
  match oe with
  | None => ret (- EBADF)
  | Some e =>
      let* p := get_shared (shared e) in
      if side e =? PIPE_READER then
        put (shared e) (OShared
          (mkShared (buffer p) (capacity p) (write_offset p) (u32 (readers p + 1)) (writers p) (nodes p))) ;;;
        ret 0
      else if side e =? PIPE_WRITER then
        put (shared e) (OShared
          (mkShared (buffer p) (capacity p) (write_offset p) (readers p) (u32 (writers p + 1)) (nodes p))) ;;;
        ret 0
      else ret (- EBADF)
  end.

(** One round of the reading loop under the lock: what was copied, and whether the
    call returns now. *)
Definition read_round (file sh len : Z) : M store (list Z * bool) :=
  let* f := get_file file in
  let* p := get_shared sh in
  let available := if offset f <? write_offset p then u64 (write_offset p - offset f) else 0 in
  if 0 <? available then
    let chunk := if available <? len then available else len in
    let* out := buf_load (buffer p) (offset f) chunk in
    put file (OFile (mkFile (node f) (flags f) (u64 (offset f + chunk)) (frefs f))) ;;;
    ret (out, true)
  else ret ([], (writers p =? 0) && (write_offset p <=? offset f)).

(** The loop.  Every sleep consumes one element of [waits]: what the other threads
    did to the store meanwhile, and what [sched_waitq_wait] returned; with none left
    the call is still asleep ([None]). *)
Fixpoint read_loop (waits : list ((store -> store) * Z)) (file sh len : Z)
    : M store (option (Z * list Z)) :=
  let* r := read_round file sh len in
  if r.2 then ret (Some (0, r.1))
  else
    let* f := get_file file in
    if has (flags f) 2048 then ret (Some (- EAGAIN, []))
    else match waits with
         | [] => ret None
         | (others, w) :: waits =>
             modify others ;;;
             if negb (w =? 0) then ret (Some (w, [])) else read_loop waits file sh len
         end.

(** The result and the bytes stored in [buf] ([*done] is their number). *)
Definition vfs_pipe_read (waits : list ((store -> store) * Z)) (file : Z) (buf : bool) (len : Z)
    : M store (option (Z * list Z)) :=
  let* oe := endpoint_of file in
  match oe with
  | None => ret (Some (- EBADF, []))
  | Some e =>
      if negb (side e =? PIPE_READER) || negb buf then ret (Some (- EBADF, []))
      else if len =? 0 then ret (Some (0, []))
      else read_loop waits file (shared e) len
  end.

(** [while (new_cap < need) new_cap *= 2]: after 64 doublings a [size_t] is 0. *)
Fixpoint grow_cap (fuel : nat) (new_cap need : Z) : option Z :=
  match fuel with
  | O => None
  | S n => if new_cap <? need then grow_cap n (u64 (new_cap * 2)) need else Some new_cap
  end.

(** Make room for [need] bytes; [None] is NULL from [krealloc]. *)
Definition ensure_capacity (sh : Z) (p : pipe_shared) (need : Z) : M store (option pipe_shared) :=
  if capacity p <? need then
    let c := if negb (capacity p =? 0) then capacity p else PIPE_INITIAL_CAPACITY in
    match grow_cap 65 c need with
    | None => diverge
    | Some new_cap =>
        let* new_buf := krealloc_buf (buffer p) (u64 (new_cap + 1)) in
        if new_buf =? 0 then ret None
        else
          when (capacity p <? new_cap)
            (buf_zero new_buf (capacity p) (u64 (u64 (new_cap + 1) - capacity p))) ;;;
          let p' := mkShared new_buf new_cap (write_offset p) (readers p) (writers p) (nodes p) in
          put sh (OShared p') ;;;
          ret (Some p')
    end
  else ret (Some p).

(** The result and [*done]. *)
Definition vfs_pipe_write (file : Z) (buf : option (list Z)) : M store (Z * Z) :=
  let* oe := endpoint_of file in
  match oe, buf with
  | Some e, Some data =>
      if negb (side e =? PIPE_WRITER) then ret (- EBADF, 0)
      else
      let len := Z.of_nat (length data) in
      if len =? 0 then ret (0, 0)
      else
      let* p := get_shared (shared e) in
      if readers p =? 0 then ret (- EPIPE, 0)
      else
      let* f := get_file file in
      let start := offset f in
      let* op := ensure_capacity (shared e) p (u64 (start + len)) in
      match op with
      | None => ret (- ENOMEM, 0)
      | Some p =>
          when (write_offset p <? start)
            (buf_zero (buffer p) (write_offset p) (start - write_offset p)) ;;;
          buf_store (buffer p) start data ;;;
          let off := u64 (start + len) in
          put file (OFile (mkFile (node f) (flags f) off (frefs f))) ;;;
          let wo := if write_offset p <? off then off else write_offset p in
          put (shared e) (OShared
            (mkShared (buffer p) (capacity p) wo (readers p) (writers p) (nodes p))) ;;;
          buf_store (buffer p) wo [0] ;;;
          ret (0, len)
      end
  | _, _ => ret (- EBADF, 0)
  end.

Definition VFS_SEEK_SET : Z := 0.
Definition VFS_SEEK_CUR : Z := 1.
Definition VFS_SEEK_END : Z := 2.

(** The result, and the new offset when it is 0. *)
Definition vfs_pipe_seek (file whence off : Z) : M store (Z * Z) :=
  let* oe := endpoint_of file in
  match oe with
  | None => ret (- EBADF, 0)
  | Some e =>
      let* p := get_shared (shared e) in
      let* f := get_file file in
      let base :=
        if whence =? VFS_SEEK_SET then Some 0
        else if whence =? VFS_SEEK_CUR then Some (offset f)
        else if whence =? VFS_SEEK_END then Some (write_offset p)
        else None in
      match base with
      | None => ret (- EINVAL, 0)
      | Some base =>
          if (off <? 0) && (base <? u64 (- off)) then ret (- EINVAL, 0)
          else
            let o := if off <? 0 then u64 (base - u64 (- off)) else u64 (base + u64 off) in
            put file (OFile (mkFile (node f) (flags f) o (frefs f))) ;;;
            ret (0, o)
      end
  end.
End pipe.
