(* ===== verification/PipeProps.v ===== *)
(** * Pipes are byte streams

    The abstract pipe is the list of bytes sent so far and the number taken from
    it.  The operations of pipe.c implement it, from [vfs_pipe_create] to the
    close of the second end, for streams of at most the initial capacity; past it the
    buffer overflows.  Creation under memory pressure is described exactly. *)

From stdpp Require Import gmap list.
From Stdlib Require Import ZArith Lia.
From S2P Require Import Prelude Heap HeapProps Pipe.

Local Open Scope Z_scope.

(** ** The abstract pipe *)

Record stream := mkStream { sent : list Z; taken : nat; ropen : bool; wopen : bool }.
Definition stream0 : stream := mkStream [] 0 true true.

Inductive pipe_op :=
  | PWrite (bs : list Z)
  | PRead (len : Z)
  | PPoll (events : Z)
  | PCloseR
  | PCloseW.

Inductive pipe_result :=
  | RWrite (r done : Z)
  | RRead (o : option (Z * list Z))
  | RInt (r : Z).

Definition unread (a : stream) : list Z := drop (taken a) (sent a).

(** What the reader's end answers to a poll. *)
Definition poll_answer (a : stream) (events : Z) : Z :=
  Z.lor
    (if has events LYR_POLL_READ_MASK then
       Z.lor (if negb (bool_decide (unread a = [])) || negb (wopen a)
              then Z.lor LYR_POLLIN LYR_POLLRDNORM else 0)
             (if wopen a then 0 else LYR_POLLHUP)
     else 0)
    (if has events LYR_POLL_WRITE_MASK then Z.lor LYR_POLLOUT LYR_POLLWRNORM else 0).

(** [None] when the end the operation needs is closed. *)
Definition stream_op (a : stream) (op : pipe_op) : option (stream * pipe_result) :=
  match op with
  | PWrite bs =>
      if negb (wopen a) then None
      else if bool_decide (bs = []) then Some (a, RWrite 0 0)
      else if negb (ropen a) then Some (a, RWrite (- EPIPE) 0)
      else Some (mkStream (sent a ++ bs) (taken a) (ropen a) (wopen a),
                 RWrite 0 (Z.of_nat (length bs)))
  | PRead len =>
      if negb (ropen a) || (len <? 0) then None
      else if len =? 0 then Some (a, RRead (Some (0, [])))
      else if bool_decide (unread a = []) then
        Some (a, RRead (if wopen a then None else Some (0, [])))
      else
        let out := take (Z.to_nat len) (unread a) in
        Some (mkStream (sent a) (taken a + length out) (ropen a) (wopen a), RRead (Some (0, out)))
  | PPoll events => if negb (ropen a) then None else Some (a, RInt (poll_answer a events))
  | PCloseR => if negb (ropen a) then None
               else Some (mkStream (sent a) (taken a) false (wopen a), RInt 0)
  | PCloseW => if negb (wopen a) then None
               else Some (mkStream (sent a) (taken a) (ropen a) false, RInt 0)
  end.

Fixpoint stream_run (a : stream) (ops : list pipe_op) : option (stream * list pipe_result) :=
  match ops with
  | [] => Some (a, [])
  | op :: ops =>
      match stream_op a op with
      | None => None
      | Some (a, r) =>
          match stream_run a ops with
          | None => None
          | Some (a, rs) => Some (a, r :: rs)
          end
      end
  end.

(** ** The same operations on the files of a pipe *)

Definition pipe_op_run (junk rf wf : Z) (op : pipe_op) : M store pipe_result :=
  match op with
  | PWrite bs => let* r := vfs_pipe_write junk wf (Some bs) in ret (RWrite r.1 r.2)
  | PRead len => let* r := vfs_pipe_read [] rf true len in ret (RRead r)
  | PPoll events => let* r := pipe_poll rf events in ret (RInt r)
  | PCloseR => let* r := vfs_close rf in ret (RInt r)
  | PCloseW => let* r := vfs_close wf in ret (RInt r)
  end.

Fixpoint pipe_run (junk rf wf : Z) (ops : list pipe_op) : M store (list pipe_result) :=
  match ops with
  | [] => ret []
  | op :: ops =>
      let* r := pipe_op_run junk rf wf op in
      let* rs := pipe_run junk rf wf ops in
      ret (r :: rs)
  end.

(** A session: create a pipe, then run the operations on its two files. *)
Definition pipe_session (junk : Z) (ops : list pipe_op) : M store (list pipe_result) :=
  let* c := vfs_pipe_create junk true true in
  pipe_run junk c.1.2 c.2 ops.

(** ** Representation *)

Definition cnt (b : bool) : Z := if b then 1 else 0.

(** The six objects of a pipe created at address [n]. *)
Record prep (base : gmap Z obj) (n : Z) (a : stream) (s : store) : Prop := {
  pr_sh : objs s !! n =
    if ropen a || wopen a then
      Some (OShared (mkShared (n + 1) 4096 (Z.of_nat (length (sent a)))
        (cnt (ropen a)) (cnt (wopen a)) (cnt (ropen a) + cnt (wopen a))))
    else None;
  pr_bf : exists b, objs s !! (n + 1) = (if ropen a || wopen a then Some (OBuf b) else None) /\
    length b = Z.to_nat 8192 /\ take (length (sent a)) b = sent a;
  pr_re : objs s !! (n + 2) =
    if ropen a then Some (OEnd (mkEnd pipe_ops 1 n PIPE_READER)) else None;
  pr_we : objs s !! (n + 3) =
    if wopen a then Some (OEnd (mkEnd pipe_ops 1 n PIPE_WRITER)) else None;
  pr_rf : objs s !! (n + 4) =
    if ropen a then Some (OFile (mkFile (n + 2) 0 (Z.of_nat (taken a)) 1)) else None;
  pr_wf : objs s !! (n + 5) =
    if wopen a then Some (OFile (mkFile (n + 3) 1 (Z.of_nat (length (sent a))) 1)) else None;
  pr_rest : forall l, l < n \/ n + 5 < l -> objs s !! l = base !! l;
  pr_bound : (taken a <= length (sent a))%nat /\ Z.of_nat (length (sent a)) <= 4096;
  pr_n : 0 < n;
}.

(** Look up in a store that was just written. *)
Ltac look :=
  repeat first
    [ rewrite lookup_insert_eq
    | rewrite lookup_insert_ne by lia
    | rewrite lookup_delete_eq
    | rewrite lookup_delete_ne by lia ].

(** Lengths of buffers put together from pieces. *)
Ltac lens :=
  repeat first [ rewrite length_app | rewrite length_take | rewrite length_drop
               | rewrite length_replicate | rewrite length_cons | rewrite length_nil ]; lia.

(** ** Steps *)

(** Run the head of a bind whose result is known. *)
Ltac head_bind := lazymatch goal with |- wp (bind _ _) _ _ => apply wp_bind | _ => idtac end.
Ltac step H := head_bind; eapply wp_intro; [exact H|]; cbn beta iota.

(** The operations that need no premise. *)
Ltac go :=
  repeat (lazymatch goal with
    | |- wp (bind _ _) _ _ => apply wp_bind
    | |- wp (ret _) _ _ => apply wp_ret
    | |- wp (put _ _) _ _ => apply wp_modify
    end; cbn beta iota).

(** Take the branch the arithmetic context decides. *)
Ltac blred := first [ reflexivity | apply Z.eqb_neq; lia | apply Z.eqb_eq; lia | apply Z.ltb_lt; lia
  | apply Z.ltb_ge; lia | apply Z.leb_le; lia | apply Z.leb_gt; lia
  | apply negb_true_iff, Z.eqb_neq; lia | apply negb_false_iff, Z.eqb_eq; lia ].
Ltac decided :=
  repeat (lazymatch goal with
    | |- wp (if ?c then _ else _) _ _ =>
        first [ replace c with true by (symmetry; blred) | replace c with false by (symmetry; blred) ]
    | |- wp (when ?c _) _ _ =>
        first [ apply wp_when_true; [blred|] | apply wp_when_false; [blred|] ]
    | |- wp (bind (if ?c then _ else _) _) _ _ =>
        first [ replace c with true by (symmetry; blred) | replace c with false by (symmetry; blred) ]
    | |- wp (bind (when ?c _) _) _ _ =>
        apply wp_bind; first [ apply wp_when_true; [blred|] | apply wp_when_false; [blred|] ]
    end; cbn beta iota).

Lemma get_shared_eq a p s : objs s !! a = Some (OShared p) -> get_shared a s = Ret p s.
Proof. unfold get_shared. by intros ->. Qed.
Lemma get_end_eq a e s : objs s !! a = Some (OEnd e) -> get_end a s = Ret e s.
Proof. unfold get_end. by intros ->. Qed.
Lemma get_file_eq a f s : objs s !! a = Some (OFile f) -> get_file a s = Ret f s.
Proof. unfold get_file. by intros ->. Qed.
Lemma get_buf_eq a b s : objs s !! a = Some (OBuf b) -> get_buf a s = Ret b s.
Proof. unfold get_buf. by intros ->. Qed.
Lemma free_eq a o s : a <> 0 -> objs s !! a = Some o -> free a s = Ret tt (set_objs (delete a) s).
Proof. intros Ha Ho. unfold free. rewrite (proj2 (Z.eqb_neq _ _)) by done. by rewrite Ho. Qed.

Lemma endpoint_of_eq file f e s :
  file <> 0 -> objs s !! file = Some (OFile f) -> node f <> 0 ->
  objs s !! node f = Some (OEnd e) -> shared e <> 0 -> endpoint_of file s = Ret (Some e) s.
Proof.
  intros Hf Ho Hn He Hs. unfold endpoint_of, file_node, pipe_endpoint_from_node, bind.
  rewrite (proj2 (Z.eqb_neq file _)) by done. rewrite (get_file_eq _ _ _ Ho). simpl.
  rewrite (proj2 (Z.eqb_neq (node f) _)) by done. simpl. rewrite (proj2 (Z.eqb_neq (node f) _)) by done.
  rewrite (get_end_eq _ _ _ He). simpl. by rewrite (proj2 (Z.eqb_neq _ _)) by done.
Qed.

Lemma buf_store_eq a off data b s :
  objs s !! a = Some (OBuf b) -> 0 <= off -> off + Z.of_nat (length data) <= Z.of_nat (length b) ->
  buf_store a off data s = Ret tt (set_objs (insert a
    (OBuf (take (Z.to_nat off) b ++ data ++ drop (Z.to_nat off + length data) b))) s).
Proof.
  intros Ho H1 H2. unfold buf_store. rewrite (bind_ret _ _ _ _ _ (get_buf_eq _ _ _ Ho)).
  by rewrite (proj2 (Z.leb_le _ _)), (proj2 (Z.leb_le _ _)) by lia.
Qed.

Lemma buf_store_overflow a off data b s :
  objs s !! a = Some (OBuf b) -> Z.of_nat (length b) < off + Z.of_nat (length data) ->
  buf_store a off data s = Fault.
Proof.
  intros Ho H1. unfold buf_store. rewrite (bind_ret _ _ _ _ _ (get_buf_eq _ _ _ Ho)).
  rewrite (proj2 (Z.leb_gt (off + _) _)) by lia. by rewrite andb_false_r.
Qed.

Lemma buf_load_eq a off n b s :
  objs s !! a = Some (OBuf b) -> 0 <= off -> off + n <= Z.of_nat (length b) ->
  buf_load a off n s = Ret (take (Z.to_nat n) (drop (Z.to_nat off) b)) s.
Proof.
  intros Ho H1 H2. unfold buf_load. rewrite (bind_ret _ _ _ _ _ (get_buf_eq _ _ _ Ho)).
  by rewrite (proj2 (Z.leb_le _ _)), (proj2 (Z.leb_le _ _)) by lia.
Qed.

(** Find the object a step uses in a store with known contents. *)
Ltac found := simpl objs; look; first [ eassumption | reflexivity ].
Ltac fetch :=
  lazymatch goal with
  | |- wp (get_shared _) _ _ => eapply wp_intro; [eapply get_shared_eq; found|]
  | |- wp (get_end _) _ _ => eapply wp_intro; [eapply get_end_eq; found|]
  | |- wp (get_file _) _ _ => eapply wp_intro; [eapply get_file_eq; found|]
  | |- wp (free _) _ _ => eapply wp_intro; [eapply free_eq; [lia|found]|]
  | |- wp (alloc _) _ _ => eapply wp_intro; [reflexivity|]; cbn [budget next objs set_objs]
  | |- wp (endpoint_of _) _ _ =>
      eapply wp_intro; [eapply endpoint_of_eq; [lia|found|simpl; lia|simpl node; found|simpl; lia]|]
  end; cbn beta iota; cbn [node flags offset frefs ops refs shared side buffer capacity
    write_offset readers writers nodes].
(** Run a straight-line program on such a store. *)
Ltac run := repeat first [ progress go | progress decided | fetch ].

(** Evaluate the tests and counters that are closed. *)
Ltac const e :=
  let r := eval vm_compute in e in
  lazymatch r with
  | true => change e with true | false => change e with false
  | 0 => change e with 0 | Zpos ?p => change e with (Zpos p)
  end.
Ltac consts :=
  repeat (match goal with
    | |- context [?x =? ?y] => const (x =? y)
    | |- context [?x <? ?y] => const (x <? y)
    | |- context [u32 ?x] => const (u32 x)
    end; cbn [negb]; cbn iota).

(** ** Each operation on a represented pipe *)

Section ops.
Context (junk : Z) (base : gmap Z obj) (n : Z).

Lemma rep_reader a s : prep base n a s -> ropen a = true ->
  endpoint_of (n + 4) s = Ret (Some (mkEnd pipe_ops 1 n PIPE_READER)) s.
Proof.
  intros R Hr. pose proof (pr_n _ _ _ _ R). pose proof (pr_rf _ _ _ _ R) as Hf. pose proof (pr_re _ _ _ _ R) as He.
  rewrite Hr in Hf, He. eapply endpoint_of_eq; [lia|exact Hf|simpl; lia|exact He|simpl; lia].
Qed.

Lemma rep_writer a s : prep base n a s -> wopen a = true ->
  endpoint_of (n + 5) s = Ret (Some (mkEnd pipe_ops 1 n PIPE_WRITER)) s.
Proof.
  intros R Hr. pose proof (pr_n _ _ _ _ R). pose proof (pr_wf _ _ _ _ R) as Hf. pose proof (pr_we _ _ _ _ R) as He.
  rewrite Hr in Hf, He. eapply endpoint_of_eq; [lia|exact Hf|simpl; lia|exact He|simpl; lia].
Qed.

Lemma write_op a bs s :
  prep base n a s -> wopen a = true -> ropen a = true -> bs <> [] ->
  Z.of_nat (length (sent a)) + Z.of_nat (length bs) <= 4096 ->
  wp (vfs_pipe_write junk (n + 5) (Some bs)) s (fun r s' =>
    r = (0, Z.of_nat (length bs)) /\ prep base n (mkStream (sent a ++ bs) (taken a) true true) s').
Proof.
  intros R Hw Hr Hbs Hlen. destruct (R) as [Hsh (b & Hbf & Hb & Ht) Hre Hwe Hrf Hwf Hrest [Hb1 Hb2] Hn].
  rewrite Hw, Hr in *. simpl in Hsh, Hbf.
  assert (0 < Z.of_nat (length bs)) by (destruct bs; simpl; [done|lia]).
  unfold vfs_pipe_write. step (rep_writer a s R Hw). cbn [side shared].
  decided. step (get_shared_eq _ _ _ Hsh). cbn [readers cnt]. decided.
  step (get_file_eq _ _ _ Hwf). cbn [offset]. unfold ensure_capacity. cbn [capacity].
  rewrite u64_small by lia. decided. go. cbn [write_offset buffer]. decided. go.
  step (buf_store_eq (n + 1) (Z.of_nat (length (sent a))) bs b s Hbf ltac:(lia) ltac:(lia)).
  rewrite (proj2 (Z.ltb_lt (Z.of_nat (length (sent a))) _)) by lia. go. eapply wp_intro.
  { eapply (buf_store_eq (n + 1) _ [0]).
    - simpl. look. reflexivity.
    - lia.
    - lens. }
  apply wp_ret. split; [done|].
  constructor; simpl; look; try done; try lens.
  - rewrite length_app, Nat2Z.inj_add. by look.
  - eexists. split; [reflexivity|split].
    + lens.
    + rewrite length_app, Z2Nat.inj_add, !Nat2Z.id by lia. rewrite Ht.
      rewrite take_app_le by lens.
      rewrite take_take, Nat.min_id, app_assoc, take_app_le by lens.
      apply take_ge. lens.
  - rewrite length_app, Nat2Z.inj_add. by look.
  - intros l Hl. look. by apply Hrest.
Qed.

Lemma write_closed a bs s :
  prep base n a s -> wopen a = true -> ropen a = false -> bs <> [] ->
  vfs_pipe_write junk (n + 5) (Some bs) s = Ret (- EPIPE, 0) s.
Proof.
  intros R Hw Hr Hbs. pose proof (pr_sh _ _ _ _ R) as Hsh. rewrite Hr, Hw in Hsh. simpl in Hsh.
  unfold vfs_pipe_write. rewrite (bind_ret _ _ _ _ _ (rep_writer a s R Hw)). cbn [side shared].
  change (negb (PIPE_WRITER =? PIPE_WRITER)) with false. cbn iota.
  destruct bs as [|c bs]; [done|]. rewrite (proj2 (Z.eqb_neq _ 0)) by (simpl; lia).
  by rewrite (bind_ret _ _ _ _ _ (get_shared_eq _ _ _ Hsh)).
Qed.

Lemma write_nil a s :
  prep base n a s -> wopen a = true -> vfs_pipe_write junk (n + 5) (Some []) s = Ret (0, 0) s.
Proof.
  intros R Hw. unfold vfs_pipe_write. by rewrite (bind_ret _ _ _ _ _ (rep_writer a s R Hw)).
Qed.

Lemma unread_nil a : (taken a <= length (sent a))%nat -> unread a = [] <-> taken a = length (sent a).
Proof.
  intros Hb. unfold unread. split.
  - intros H. apply (f_equal length) in H. rewrite length_drop in H. simpl in H. lia.
  - intros ->. by rewrite drop_all.
Qed.

Lemma read_op a len s :
  prep base n a s -> ropen a = true -> 0 < len -> unread a <> [] ->
  wp (vfs_pipe_read [] (n + 4) true len) s (fun r s' =>
    let out := take (Z.to_nat len) (unread a) in
    r = Some (0, out) /\ prep base n (mkStream (sent a) (taken a + length out) true (wopen a)) s').
Proof.
  intros R Hr Hlen Hne. destruct (R) as [Hsh (b & Hbf & Hb & Ht) Hre Hwe Hrf Hwf Hrest [Hb1 Hb2] Hn].
  rewrite unread_nil in Hne by done. rewrite Hr in *. simpl in Hsh, Hbf.
  unfold vfs_pipe_read. step (rep_reader a s R Hr). cbn [side shared]. decided. simpl read_loop.
  unfold read_round. head_bind. step (get_file_eq _ _ _ Hrf). step (get_shared_eq _ _ _ Hsh).
  cbn [offset write_offset buffer node flags frefs].
  rewrite (proj2 (Z.ltb_lt (Z.of_nat (taken a)) _)), u64_small by lia. decided.
  set (av := Z.of_nat (length (sent a)) - Z.of_nat (taken a)).
  assert (Hc : exists c, (if av <? len then av else len) = Z.of_nat c /\
    c = (Z.to_nat len `min` (length (sent a) - taken a))%nat).
  { exists (Z.to_nat len `min` (length (sent a) - taken a))%nat. split; [|done].
    unfold av. destruct (_ <? len) eqn:E; blia. }
  destruct Hc as (c & -> & Hc).
  step (buf_load_eq (n + 1) (Z.of_nat (taken a)) (Z.of_nat c) b s Hbf ltac:(lia) ltac:(lia)).
  go. cbn [fst snd]. go. rewrite !Nat2Z.id.
  assert (Hout : take c (drop (taken a) b) = take (Z.to_nat len) (unread a)).
  { unfold unread. rewrite <- Ht, skipn_firstn_comm, take_take. f_equal. lia. }
  rewrite Hout. split; [done|].
  assert (length (take (Z.to_nat len) (unread a)) = c) as -> by (unfold unread; lens).
  rewrite u64_small by lia. constructor; simpl; look; try done; try lens.
  - by exists b.
  - by rewrite Nat2Z.inj_add.
  - intros l Hl. look. by apply Hrest.
Qed.

Lemma read_empty a len s :
  prep base n a s -> ropen a = true -> 0 < len -> unread a = [] ->
  vfs_pipe_read [] (n + 4) true len s = Ret (if wopen a then None else Some (0, [])) s.
Proof.
  intros R Hr Hlen Hne. destruct (R) as [Hsh _ _ _ Hrf _ _ [Hb1 Hb2] _].
  rewrite unread_nil in Hne by done. rewrite Hr in *. simpl in Hsh.
  unfold vfs_pipe_read. rewrite (bind_ret _ _ _ _ _ (rep_reader a s R Hr)). cbn [side shared].
  rewrite (proj2 (Z.eqb_neq len 0)) by lia. cbn. unfold read_round. rewrite bind_assoc.
  rewrite (bind_ret _ _ _ _ _ (get_file_eq _ _ _ Hrf)), bind_assoc.
  rewrite (bind_ret _ _ _ _ _ (get_shared_eq _ _ _ Hsh)). cbn [offset write_offset writers].
  rewrite Hne, Z.ltb_irrefl, Z.leb_refl, andb_true_r. unfold bind at 1. simpl.
  destruct (wopen a); simpl; [|done]. by rewrite (bind_ret _ _ _ _ _ (get_file_eq _ _ _ Hrf)).
Qed.

Lemma poll_op a events s :
  prep base n a s -> ropen a = true -> pipe_poll (n + 4) events s = Ret (poll_answer a events) s.
Proof.
  intros R Hr. destruct (R) as [Hsh _ _ _ Hrf _ _ [Hb1 Hb2] _]. rewrite Hr in Hsh, Hrf. simpl in Hsh.
  unfold pipe_poll. rewrite (bind_ret _ _ _ _ _ (rep_reader a s R Hr)). cbn [shared].
  rewrite (bind_ret _ _ _ _ _ (get_file_eq _ _ _ Hrf)), (bind_ret _ _ _ _ _ (get_shared_eq _ _ _ Hsh)).
  cbn [offset write_offset writers readers]. unfold poll_answer, ret. f_equal. f_equal.
  destruct (has events LYR_POLL_READ_MASK); [|done].
  replace (negb (bool_decide (unread a = []))) with (Z.of_nat (taken a) <? Z.of_nat (length (sent a))).
  - by destruct (wopen a).
  - case_bool_decide as E; rewrite unread_nil in E by done; simpl; [apply Z.ltb_ge|apply Z.ltb_lt]; lia.
Qed.

Lemma close_read_op a s :
  prep base n a s -> ropen a = true ->
  wp (vfs_close (n + 4)) s (fun r s' =>
    r = 0 /\ prep base n (mkStream (sent a) (taken a) false (wopen a)) s').
Proof.
  intros R Hr. destruct (R) as [Hsh (b & Hbf & Hb & Ht) Hre Hwe Hrf Hwf Hrest Hbd Hn].
  rewrite Hr in *. simpl in Hsh, Hbf. unfold vfs_close.
  run. unfold pipe_close. run. unfold vfs_node_release. run. unfold pipe_release, pipe_endpoint_from_node.
  rewrite (proj2 (Z.eqb_neq (n + 2) 0)) by lia. cbn [negb].
  destruct (wopen a) eqn:Hw; cbn [cnt]; consts; run; consts; run.
  all: (split; [done|]); constructor; simpl; rewrite ?Hw; look; try done.
  all: try (by exists b); try (by intros l Hl; look; apply Hrest).
Qed.

Lemma close_write_op a s :
  prep base n a s -> wopen a = true ->
  wp (vfs_close (n + 5)) s (fun r s' =>
    r = 0 /\ prep base n (mkStream (sent a) (taken a) (ropen a) false) s').
Proof.
  intros R Hr. destruct (R) as [Hsh (b & Hbf & Hb & Ht) Hre Hwe Hrf Hwf Hrest Hbd Hn].
  rewrite Hr in *. rewrite orb_true_r in *. unfold vfs_close.
  run. unfold pipe_close. run. unfold vfs_node_release. run. unfold pipe_release, pipe_endpoint_from_node.
  rewrite (proj2 (Z.eqb_neq (n + 3) 0)) by lia. cbn [negb].
  destruct (ropen a) eqn:Hw; cbn [cnt]; consts; run; consts; run.
  all: (split; [done|]); constructor; simpl; rewrite ?Hw; look; try done.
  all: try (by exists b); try (by intros l Hl; look; apply Hrest).
Qed.
End ops.

(** ** Creation *)

(** The buffer of a new pipe: the zeroed part and the rest of its last page. *)
Definition new_buf (junk : Z) : list Z :=
  replicate (Z.to_nat 4097) 0 ++ replicate (Z.to_nat 4095) junk.

Lemma kzalloc_new junk :
  kzalloc_buf junk (PIPE_INITIAL_CAPACITY + 1) = alloc (OBuf (new_buf junk)).
Proof. reflexivity. Qed.

(** The addresses behind [n], added up. *)
Ltac addresses :=
  rewrite <- ?Z.add_assoc; change (1 + (1 + (1 + (1 + 1)))) with 5; change (1 + (1 + (1 + 1))) with 4;
  change (1 + (1 + 1)) with 3; change (1 + 1) with 2.

(** Compare two stores address by address. *)
Ltac same_store n Hfresh :=
  apply map_eq; intros l; simpl objs; addresses;
  destruct (decide (l = n)) as [->|?]; [|destruct (decide (l = n + 1)) as [->|?];
    [|destruct (decide (l = n + 2)) as [->|?]; [|destruct (decide (l = n + 3)) as [->|?];
    [|destruct (decide (l = n + 4)) as [->|?]; [|destruct (decide (l = n + 5)) as [->|?]]]]]];
  look; try rewrite Hfresh by lia; done.

Lemma create_all junk s :
  0 < next s -> (forall l, next s <= l -> objs s !! l = None) ->
  wp (vfs_pipe_create junk true true) s (fun r s' =>
    let n := next s in
    match budget s with
    | 0%nat | 1%nat | 4%nat | 5%nat => r = (- ENOMEM, 0, 0) /\ objs s' = objs s
    | 2%nat => r = (- ENOMEM, 0, 0) /\ objs s' = <[n + 1 := OBuf (new_buf junk)]> (objs s)
    | 3%nat => r = (- ENOMEM, 0, 0) /\
        objs s' = <[n := OShared (mkShared (n + 1) 4096 0 1 1 1)]>
                  (<[n + 1 := OBuf (new_buf junk)]> (objs s))
    | _ => r = (0, n + 4, n + 5) /\ prep (objs s) n stream0 s'
    end).
Proof.
  intros Hn Hf. destruct s as [os n b]. cbn [objs next budget] in *. unfold vfs_pipe_create. rewrite kzalloc_new.
  cbn [negb orb]. unfold pipe_endpoint_create, vfs_node_release, pipe_release, pipe_endpoint_from_node.
  destruct b as [|[|[|[|[|[|b]]]]]]; run; consts; run; consts; run; consts; run.
  1-6: split; [done|same_store n Hf].
  split; [by addresses|]. constructor; simpl objs; addresses; simpl; look; try done.
  - exists (new_buf junk). split; [done|]. split; [done|]. by rewrite take_0.
  - intros l Hl. by look.
Qed.

(** creating a pipe when memory runs out.  With six allocations to be had the
    call succeeds and the store holds exactly the six objects of an open, empty
    pipe; with fewer it returns ENOMEM and stores NULL for both ends.  The kernel
    then holds what it held before, except that the buffer stays allocated when the
    third request fails, and the buffer and the shared part when the fourth does. *)
Theorem pipe_create_spec junk s :
  0 < next s -> (forall l, next s <= l -> objs s !! l = None) ->
  exists r s', vfs_pipe_create junk true true s = Ret r s' /\
    let n := next s in
    match budget s with
    | 0%nat | 1%nat | 4%nat | 5%nat => r = (- ENOMEM, 0, 0) /\ objs s' = objs s
    | 2%nat => r = (- ENOMEM, 0, 0) /\ objs s' = <[n + 1 := OBuf (new_buf junk)]> (objs s)
    | 3%nat => r = (- ENOMEM, 0, 0) /\
        objs s' = <[n := OShared (mkShared (n + 1) 4096 0 1 1 1)]>
                  (<[n + 1 := OBuf (new_buf junk)]> (objs s))
    | _ => r = (0, n + 4, n + 5) /\ prep (objs s) n stream0 s'
    end.
Proof.
  intros Hn Hf. destruct (wp_inv _ _ _ (create_all junk s Hn Hf)) as (r & s' & H1 & H2).
  exists r, s'. split; [exact H1|exact H2].
Qed.

(** ** Whole sessions *)

Lemma stream_op_sent a op a' r : stream_op a op = Some (a', r) -> (length (sent a) <= length (sent a'))%nat.
Proof.
  destruct op; simpl; repeat case_match; intros; simplify_eq; simpl; try lia. rewrite length_app. lia.
Qed.

Lemma stream_run_sent ops a a' rs :
  stream_run a ops = Some (a', rs) -> (length (sent a) <= length (sent a'))%nat.
Proof.
  revert a a' rs. induction ops as [|op ops IH]; simpl; intros a a' rs H; [by simplify_eq|].
  destruct (stream_op a op) as [[a1 r]|] eqn:E1; [|done].
  destruct (stream_run a1 ops) as [[a2 rs2]|] eqn:E2; [|done]. simplify_eq.
  apply stream_op_sent in E1. apply IH in E2. lia.
Qed.

Lemma op_refines junk base n a op a' r s :
  prep base n a s -> stream_op a op = Some (a', r) -> Z.of_nat (length (sent a')) <= 4096 ->
  wp (pipe_op_run junk (n + 4) (n + 5) op) s (fun r' s' => r' = r /\ prep base n a' s').
Proof.
  intros R Hop Hb. destruct op as [bs|len|events| |]; simpl in Hop; unfold pipe_op_run.
  - destruct (wopen a) eqn:Hw; [simpl in Hop|done]. case_bool_decide as E.
    { simplify_eq. step (write_nil junk base n a' s R Hw). by apply wp_ret. }
    destruct (ropen a) eqn:Hr; simpl in Hop; simplify_eq.
    + simpl in Hb. rewrite length_app in Hb. head_bind.
      eapply wp_mono; [apply (write_op junk base n a bs s R Hw Hr E); lia|].
      intros r s' [-> R']. by apply wp_ret.
    + step (write_closed junk base n a' bs s R Hw Hr E). by apply wp_ret.
  - destruct (ropen a) eqn:Hr; simpl in Hop; [|done]. destruct (len <? 0) eqn:E0; [done|]. bools.
    destruct (len =? 0) eqn:E1; bools.
    { simplify_eq. unfold vfs_pipe_read. head_bind. step (rep_reader base n a' s R Hr). cbn [side shared]. decided.
      repeat apply wp_ret. done. }
    case_bool_decide as E; simplify_eq.
    + step (read_empty base n a' len s R Hr ltac:(lia) E). by apply wp_ret.
    + head_bind. eapply wp_mono; [apply (read_op base n a len s R Hr); [lia|done]|].
      intros r s' [-> R']. apply wp_ret. by split.
  - destruct (ropen a) eqn:Hr; simpl in Hop; [|done]. simplify_eq.
    step (poll_op base n a' events s R Hr). by apply wp_ret.
  - destruct (ropen a) eqn:Hr; simpl in Hop; [|done]. simplify_eq. head_bind.
    eapply wp_mono; [by apply close_read_op|]. intros r s' [-> R']. by apply wp_ret.
  - destruct (wopen a) eqn:Hr; simpl in Hop; [|done]. simplify_eq. head_bind.
    eapply wp_mono; [by apply close_write_op|]. intros r s' [-> R']. by apply wp_ret.
Qed.

Lemma run_refines junk base n ops a a' rs s :
  prep base n a s -> stream_run a ops = Some (a', rs) -> Z.of_nat (length (sent a')) <= 4096 ->
  wp (pipe_run junk (n + 4) (n + 5) ops) s (fun rs' s' => rs' = rs /\ prep base n a' s').
Proof.
  revert a a' rs s. induction ops as [|op ops IH]; simpl; intros a a' rs s R H Hb.
  { simplify_eq. by apply wp_ret. }
  destruct (stream_op a op) as [[a1 r]|] eqn:E1; [|done].
  destruct (stream_run a1 ops) as [[a2 rs2]|] eqn:E2; [|done]. simplify_eq.
  apply wp_bind. eapply wp_mono.
  { eapply op_refines; [done|done|]. apply stream_run_sent in E2. lia. }
  intros r' s' [-> R']. apply wp_bind. eapply wp_mono; [by eapply IH|].
  intros rs' s'' [-> R'']. by apply wp_ret.
Qed.

Lemma prep_closed base n a s :
  prep base n a s -> ropen a = false -> wopen a = false ->
  (forall l, n <= l -> base !! l = None) -> objs s = base.
Proof.
  intros [Hsh (b & Hbf & _) Hre Hwe Hrf Hwf Hrest _ _] Hr Hw Hf. rewrite Hr, Hw in *. simpl in *.
  apply map_eq. intros l. destruct (decide (l < n \/ n + 5 < l)) as [Hl|Hl]; [by apply Hrest|].
  rewrite Hf by lia.
  assert (l = n \/ l = n + 1 \/ l = n + 2 \/ l = n + 3 \/ l = n + 4 \/ l = n + 5)
    as [->|[->|[->|[->|[->| ->]]]]] by lia; done.
Qed.

(** C10: a pipe is a byte stream.  Run any sequence of writes, reads, polls and
    closes of the two ends on a freshly created pipe: as long as the bytes written
    fit the initial capacity, every call returns exactly what the abstract stream
    answers (a read gives the oldest bytes not yet read, sleeps on an empty pipe
    with a writer, reports end of file without one; a write without a reader
    reports EPIPE), and when both ends are closed every object is freed. *)
Theorem pipe_is_stream junk ops a rs s :
  0 < next s -> (forall l, next s <= l -> objs s !! l = None) -> (6 <= budget s)%nat ->
  stream_run stream0 ops = Some (a, rs) -> Z.of_nat (length (sent a)) <= PIPE_INITIAL_CAPACITY ->
  exists s', pipe_session junk ops s = Ret rs s' /\
    (ropen a = false -> wopen a = false -> objs s' = objs s).
Proof.
  intros Hn Hf Hb Hr Hc. cut (wp (pipe_session junk ops) s (fun rs' s' =>
    rs' = rs /\ (ropen a = false -> wopen a = false -> objs s' = objs s))).
  { intros H. apply wp_inv in H as (x & s' & H1 & -> & H3). by exists s'. }
  unfold pipe_session. apply wp_bind. eapply wp_mono; [by apply create_all|].
  intros c s1 H1. destruct (budget s) as [|[|[|[|[|[|b]]]]]]; try lia. destruct H1 as [-> R].
  eapply wp_mono; [by eapply run_refines|]. intros rs' s2 [-> R2]. split; [done|].
  intros H1 H2. by eapply prep_closed.
Qed.

(** ** Past the initial capacity *)

Lemma grow_cap_pow2 fuel j need :
  0 <= j <= 63 -> 64 - j <= Z.of_nat fuel -> need <= 2 ^ 63 ->
  exists k, j <= k <= 63 /\ grow_cap fuel (2 ^ j) need = Some (2 ^ k) /\ need <= 2 ^ k.
Proof.
  revert j. induction fuel as [|fuel IH]; intros j Hj Hf Hn; [lia|]. simpl.
  destruct (2 ^ j <? need) eqn:E; bools; [|by exists j; split; [lia|split]].
  assert (j <> 63) by (intros ->; lia).
  assert (u64 (2 ^ j * 2) = 2 ^ (j + 1)) as ->.
  { rewrite Z.pow_add_r by lia. apply u64_small. split; [lia|].
    change (2 ^ 64) with (2 ^ 63 * 2). assert (2 ^ j <= 2 ^ 62) by (apply Z.pow_le_mono_r; lia). lia. }
  destruct (IH (j + 1)) as (k & Hk & H1 & H2); [lia|lia|done|]. exists k. split; [lia|done].
Qed.

Lemma write_overflow junk base n a bs s :
  prep base n a s -> wopen a = true -> ropen a = true ->
  4096 < Z.of_nat (length (sent a)) + Z.of_nat (length bs) <= 2 ^ 63 ->
  vfs_pipe_write junk (n + 5) (Some bs) s = Fault.
Proof.
  intros R Hw Hr Hlen. destruct (R) as [Hsh (b & Hbf & Hb & Ht) Hre Hwe Hrf Hwf Hrest [Hb1 Hb2] Hn].
  rewrite Hw, Hr in *. simpl in Hsh, Hbf.
  unfold vfs_pipe_write. rewrite (bind_ret _ _ _ _ _ (rep_writer base n a s R Hw)). cbn [side shared].
  change (negb (PIPE_WRITER =? PIPE_WRITER)) with false. cbn iota.
  rewrite (proj2 (Z.eqb_neq (Z.of_nat (length bs)) 0)) by lia.
  rewrite (bind_ret _ _ _ _ _ (get_shared_eq _ _ _ Hsh)). cbn [readers cnt].
  change (1 =? 0) with false. cbn iota.
  rewrite (bind_ret _ _ _ _ _ (get_file_eq _ _ _ Hwf)). cbn [offset].
  unfold ensure_capacity at 1. cbn [capacity]. rewrite (u64_small (_ + _)) by lia.
  rewrite (proj2 (Z.ltb_lt 4096 _)) by lia. change (negb (4096 =? 0)) with true. cbn iota.
  change (grow_cap 65 4096) with (grow_cap 65 (2 ^ 12)).
  destruct (grow_cap_pow2 65 12 (Z.of_nat (length (sent a)) + Z.of_nat (length bs)))
    as (k & Hk & -> & Hneed); [lia|lia|lia|].
  assert (13 <= k). { destruct (decide (k = 12)) as [->|]; [change (2 ^ 12) with 4096 in Hneed; lia|lia]. }
  assert (2 ^ 13 <= 2 ^ k <= 2 ^ 63) by (split; apply Z.pow_le_mono_r; lia).
  rewrite (u64_small (2 ^ k + 1)) by lia.
  assert (krealloc_buf junk (n + 1) (2 ^ k + 1) s = Ret (n + 1) s) as Hre'.
  { unfold krealloc_buf. rewrite !(proj2 (Z.eqb_neq _ 0)) by lia.
    rewrite (bind_ret _ _ _ _ _ (get_buf_eq _ _ _ Hbf)). rewrite Hb, Z2Nat.id by lia.
    by rewrite !cache_idx_large, Nat.eqb_refl by lia. }
  cbn [buffer]. rewrite !bind_assoc, (bind_ret _ _ _ _ _ Hre').
  rewrite (proj2 (Z.eqb_neq (n + 1) 0)), (proj2 (Z.ltb_lt 4096 _)) by lia. unfold when, buf_zero, bind.
  rewrite (buf_store_overflow _ _ _ _ _ Hbf); [done|]. rewrite length_replicate, u64_small by lia. lia.
Qed.

(** a pipe overflows its buffer after 4096 bytes.  On a pipe with both ends
    open, the first write that takes the number of bytes ever written (read or
    not) past the initial capacity writes beyond the end of the buffer: the code
    enlarges it with [krealloc], which returns the same two pages, and then clears
    the bytes it takes to be new. *)
Theorem pipe_overflows junk ops a rs bs s :
  0 < next s -> (forall l, next s <= l -> objs s !! l = None) -> (6 <= budget s)%nat ->
  stream_run stream0 ops = Some (a, rs) -> ropen a = true -> wopen a = true ->
  Z.of_nat (length (sent a)) <= PIPE_INITIAL_CAPACITY ->
  PIPE_INITIAL_CAPACITY < Z.of_nat (length (sent a)) + Z.of_nat (length bs) <= 2 ^ 63 ->
  (let* c := vfs_pipe_create junk true true in
   pipe_run junk c.1.2 c.2 ops ;;; vfs_pipe_write junk c.2 (Some bs)) s = Fault.
Proof.
  intros Hn Hf Hb Hrun Hr Hw Hc Hlen.
  destruct (wp_inv _ _ _ (create_all junk s Hn Hf)) as (c & s1 & E1 & H1).
  rewrite (bind_ret _ _ _ _ _ E1). destruct (budget s) as [|[|[|[|[|[|b]]]]]]; try lia. destruct H1 as [-> R].
  destruct (wp_inv _ _ _ (run_refines junk (objs s) (next s) ops stream0 a rs s1 R Hrun Hc))
    as (rs' & s2 & E2 & -> & R2).
  cbn [fst snd]. rewrite (bind_ret _ _ _ _ _ E2). by eapply write_overflow.
Qed.

(** ** Concrete sessions *)

Definition ex_store : store := mkStore ∅ 1 6.
Lemma ex_store_fresh l : 1 <= l -> objs ex_store !! l = None.
Proof. intros _. apply lookup_empty. Qed.

Definition ex_ops : list pipe_op :=
  [PWrite [104; 101; 108; 108; 111]; PRead 2; PWrite [33]; PPoll 1; PRead 100; PRead 1; PCloseW; PRead 8; PCloseR].

Lemma pipe_create_spec_witness :
  exists s', vfs_pipe_create 170 true true (mkStore ∅ 1 3) = Ret (- ENOMEM, 0, 0) s' /\
    objs s' !! 2 = Some (OBuf (new_buf 170)).
Proof.
  destruct (pipe_create_spec 170 (mkStore ∅ 1 3) ltac:(reflexivity) ltac:(intros; apply lookup_empty))
    as (r & s' & H1 & H2 & H3).
  exists s'. split; [rewrite H1, H2; reflexivity|]. rewrite H3. reflexivity.
Defined.

Lemma pipe_is_stream_witness :
  exists s', pipe_session 170 ex_ops ex_store = Ret
    [RWrite 0 5; RRead (Some (0, [104; 101])); RWrite 0 1; RInt 65; RRead (Some (0, [108; 108; 111; 33]));
     RRead None; RInt 0; RRead (Some (0, [])); RInt 0] s' /\ objs s' = ∅.
Proof.
  destruct (pipe_is_stream 170 ex_ops (mkStream [104; 101; 108; 108; 111; 33] 6 false false) _ ex_store
    ltac:(reflexivity) ex_store_fresh ltac:(reflexivity) ltac:(reflexivity) ltac:(discriminate)) as (s' & H1 & H2).
  exists s'. split; [exact H1|]. apply H2; reflexivity.
Defined.

Lemma pipe_overflows_witness :
  (let* c := vfs_pipe_create 170 true true in
   pipe_run 170 c.1.2 c.2 [PWrite [1; 2; 3]; PRead 3] ;;;
   vfs_pipe_write 170 c.2 (Some (replicate (Z.to_nat 4094) 7))) ex_store = Fault.
Proof.
  apply (pipe_overflows 170 [PWrite [1; 2; 3]; PRead 3] (mkStream [1; 2; 3] 3 true true)
    [RWrite 0 3; RRead (Some (0, [1; 2; 3]))] (replicate (Z.to_nat 4094) 7) ex_store);
    [reflexivity|apply ex_store_fresh|reflexivity|reflexivity|reflexivity|reflexivity|discriminate|].
  rewrite length_replicate. split; [reflexivity|discriminate].
Defined.
