(* ===== verification/Wire.v ===== *)
(** * Packets on the wire (kernel/src/net/stack.h, core/netdev.c, proto/)

    A frame is the list of its bytes.  A field of a packed structure is stored the
    way the processor stores it, lowest byte first, after the conversion the code
    applies; the checksums are computed over the bytes as the code does, with the
    32-bit accumulator. *)

From stdpp Require Import base list.
From Stdlib Require Import ZArith Lia.
From S2P Require Import Prelude.

Local Open Scope Z_scope.

Definition u16 (x : Z) : Z := x `mod` 2 ^ 16.

(** ** Byte order *)

Definition net_bswap16 (v : Z) : Z := u16 (Z.lor (Z.shiftl v 8) (Z.shiftr v 8)).
Definition net_bswap32 (v : Z) : Z :=
  Z.lor (Z.lor (Z.lor (u32 (Z.shiftl (Z.land v 255) 24)) (u32 (Z.shiftl (Z.land v 65280) 8)))
    (Z.shiftr (Z.land v 16711680) 8)) (Z.shiftr (Z.land v 4278190080) 24).

Definition htons (v : Z) : Z := net_bswap16 (u16 v).
Definition ntohs (v : Z) : Z := net_bswap16 (u16 v).
Definition htonl (v : Z) : Z := net_bswap32 (u32 v).
Definition ntohl (v : Z) : Z := net_bswap32 (u32 v).

(** A 16 or 32-bit member in memory. *)
Definition st16 (v : Z) : list Z := [v `mod` 256; (v / 256) `mod` 256].
Definition st32 (v : Z) : list Z :=
  [v `mod` 256; (v / 256) `mod` 256; (v / 65536) `mod` 256; (v / 16777216) `mod` 256].

Definition byte_at (p : list Z) (i : nat) : Z := nth i p 0.
Definition ld16 (p : list Z) (i : nat) : Z := byte_at p i + 256 * byte_at p (i + 1).
Definition ld32 (p : list Z) (i : nat) : Z :=
  byte_at p i + 256 * byte_at p (i + 1) + 65536 * byte_at p (i + 2) + 16777216 * byte_at p (i + 3).

Definition net_ipv4 (a b c d : Z) : Z :=
  Z.lor (Z.lor (Z.lor (Z.shiftl a 24) (Z.shiftl b 16)) (Z.shiftl c 8)) d.

(** ** Checksums *)

(** The loop over 16-bit words and the odd byte. *)
Fixpoint sum_words (p : list Z) (sum : Z) : Z :=
  match p with
  | a :: b :: p => sum_words p (u32 (sum + Z.lor (Z.shiftl a 8) b))
  | [a] => u32 (sum + Z.shiftl a 8)
  | [] => sum
  end.

(** [while (sum >> 16) sum = (sum & 0xffff) + (sum >> 16)]; a 32-bit sum takes at
    most three rounds. *)
Fixpoint fold_sum (fuel : nat) (sum : Z) : Z :=
  match fuel with
  | O => sum
  | S n => if Z.shiftr sum 16 =? 0 then sum
           else fold_sum n (u32 (Z.land sum 65535 + Z.shiftr sum 16))
  end.

Definition net_checksum (data : list Z) : Z := u16 (Z.lnot (fold_sum 4 (sum_words data 0))).
Definition net_checksum2 (a b : list Z) : Z :=
  u16 (Z.lnot (fold_sum 4 (sum_words b (sum_words a 0)))).

(** ** Headers *)

Definition NET_ETH_ALEN : nat := 6.
Definition NET_ETH_FRAME_MAX : Z := 1518.
Definition ETH_P_IP : Z := 2048.
Definition ETH_P_ARP : Z := 2054.
Definition IP_PROTO_ICMP : Z := 1.
Definition IP_PROTO_TCP : Z := 6.
Definition IP_PROTO_UDP : Z := 17.
Definition TCP_SYN : Z := 2.
Definition sizeof_eth_hdr : Z := 14.
Definition sizeof_ipv4_hdr : Z := 20.
Definition sizeof_udp_hdr : Z := 8.
Definition sizeof_tcp_hdr : Z := 20.
Definition sizeof_icmp_echo : Z := 40.
Definition sizeof_arp_pkt : Z := 28.

Definition eth_hdr (dst src : list Z) (type : Z) : list Z := dst ++ src ++ st16 (htons type).

(** [ver_ihl tos total_len id frag_off ttl proto checksum src dst] *)
Definition ipv4_fields (total_len id proto checksum src dst : Z) : list Z :=
  [69; 0] ++ st16 (htons total_len) ++ st16 (htons id) ++ st16 0 ++ [64; proto] ++
  st16 checksum ++ st32 (htonl src) ++ st32 (htonl dst).

(** The header with its checksum. *)
Definition ipv4_hdr (total_len id proto src dst : Z) : list Z :=
  ipv4_fields total_len id proto
    (htons (net_checksum (ipv4_fields total_len id proto 0 src dst))) src dst.

(** ** Frames *)

Definition arp_request_frame (mac : list Z) (addr target : Z) : list Z :=
  eth_hdr (replicate 6 255) mac ETH_P_ARP ++
  st16 (htons 1) ++ st16 (htons ETH_P_IP) ++ [6; 4] ++ st16 (htons 1) ++
  mac ++ st32 (htonl addr) ++ replicate 6 0 ++ st32 (htonl target).

Definition udp_frame (dst_mac src_mac : list Z) (src_ip dst_ip src_port dst_port : Z)
    (payload : list Z) : list Z :=
  let udp_len := sizeof_udp_hdr + Z.of_nat (length payload) in
  let ip_len := sizeof_ipv4_hdr + udp_len in
  eth_hdr dst_mac src_mac ETH_P_IP ++
  ipv4_hdr ip_len 17480 IP_PROTO_UDP src_ip dst_ip ++
  st16 (htons src_port) ++ st16 (htons dst_port) ++ st16 (htons udp_len) ++ st16 0 ++
  payload.

(** The raw ICMP message with its checksum filled in, when it has one. *)
Definition icmp_body (payload : list Z) : list Z :=
  match payload with
  | t :: c :: _ :: _ :: rest =>
      let body0 := t :: c :: 0 :: 0 :: rest in
      t :: c :: st16 (htons (net_checksum body0)) ++ rest
  | _ => payload
  end.

Definition icmp_frame (dst_mac src_mac : list Z) (src_ip dst_ip : Z) (payload : list Z) : list Z :=
  let ip_len := sizeof_ipv4_hdr + Z.of_nat (length payload) in
  eth_hdr dst_mac src_mac ETH_P_IP ++ ipv4_hdr ip_len 18755 IP_PROTO_ICMP src_ip dst_ip ++
  icmp_body payload.

Definition icmp_fields (type ident seq checksum : Z) (payload : list Z) : list Z :=
  [type; 0] ++ st16 checksum ++ st16 (htons ident) ++ st16 (htons seq) ++ payload.

(** [None]: no payload was given, it is the numbers 0 to 31. *)
Definition icmp_echo_frame (dst_mac src_mac : list Z) (src_ip dst_ip type ident seq : Z)
    (payload : option (list Z)) : list Z :=
  let body := match payload with
              | Some p => take 32 p
              | None => map (fun i => u8 (Z.of_nat i)) (List.seq 0 32)
              end in
  eth_hdr dst_mac src_mac ETH_P_IP ++
  ipv4_hdr (sizeof_ipv4_hdr + sizeof_icmp_echo) ident IP_PROTO_ICMP src_ip dst_ip ++
  icmp_fields type ident seq (htons (net_checksum (icmp_fields type ident seq 0 body))) body.

(** ** TCP segments *)

Record tcp_opt := mkTcpOpt {
  include_mss : bool; include_wscale : bool; wscale : Z; include_sack_permitted : bool }.

Definition tcp_opt_len (flags : Z) (o : tcp_opt) : Z :=
  if has flags TCP_SYN then
    let n := (if include_mss o then 4 else 0) + (if include_sack_permitted o then 2 else 0) +
             (if include_wscale o then 4 else 0) in
    if has n 3 then Z.land (n + 3) (Z.lnot 3) else n
  else 0.

Definition tcp_opt_bytes (flags : Z) (o : tcp_opt) : list Z :=
  let len := tcp_opt_len flags o in
  if len =? 0 then []
  else
    let opts :=
      (if include_mss o then [2; 4; 5; 180] else []) ++
      (if include_sack_permitted o then [4; 2] else []) ++
      (if include_wscale o then [1; 3; 3; if 14 <? wscale o then 14 else wscale o] else []) in
    opts ++ replicate (Z.to_nat (len - Z.of_nat (length opts))) 0.

Definition tcp_pseudo (src dst tcp_len : Z) : list Z :=
  st32 (htonl src) ++ st32 (htonl dst) ++ [0; IP_PROTO_TCP] ++ st16 (htons tcp_len).

Definition tcp_fields (src_port dst_port seq ack flags window checksum : Z) (o : tcp_opt)
    (payload : list Z) : list Z :=
  let tcp_hlen := sizeof_tcp_hdr + tcp_opt_len flags o in
  st16 (htons src_port) ++ st16 (htons dst_port) ++ st32 (htonl seq) ++ st32 (htonl ack) ++
  [u8 (Z.shiftl (u8 (tcp_hlen / 4)) 4); flags] ++ st16 (htons window) ++ st16 checksum ++ st16 0 ++
  tcp_opt_bytes flags o ++ payload.

Definition tcp_frame (dst_mac src_mac : list Z) (src_ip dst_ip src_port dst_port seq ack flags window : Z)
    (o : tcp_opt) (payload : list Z) : list Z :=
  let tcp_len := sizeof_tcp_hdr + tcp_opt_len flags o + Z.of_nat (length payload) in
  let seg c := tcp_fields src_port dst_port seq ack flags window c o payload in
  eth_hdr dst_mac src_mac ETH_P_IP ++
  ipv4_hdr (sizeof_ipv4_hdr + tcp_len) 21571 IP_PROTO_TCP src_ip dst_ip ++
  seg (htons (net_checksum2 (tcp_pseudo src_ip dst_ip tcp_len) (seg 0))).
