(* ===== verification/WireProps.v ===== *)
(** * Properties of the wire formats

    The byte-order conversions put the high byte first; the words of a message that
    carries its own checksum add up to minus zero, which is what a receiver tests; the
    IPv4, ICMP and TCP messages of the frames the kernel builds pass that test. *)

From stdpp Require Import base list.
From Stdlib Require Import ZArith Lia.
From S2P Require Import Prelude Wire.

Local Open Scope Z_scope.

(** ** Bytes and words *)

Lemma lor_add k a b : 0 <= k -> 0 <= b < 2 ^ k -> Z.lor (a * 2 ^ k) b = a * 2 ^ k + b.
Proof.
  intros Hk Hb. rewrite <- Z.add_lor_land. assert (Z.land (a * 2 ^ k) b = 0) as ->; [|lia].
  apply Z.bits_inj'. intros n Hn. rewrite Z.land_spec, Z.bits_0.
  destruct (decide (n < k)); [by rewrite Z.mul_pow2_bits_low|].
  rewrite (testbit_high b k n) by lia. apply andb_false_r.
Qed.

Lemma land_byte v k : 0 <= k -> Z.land v (255 * 2 ^ k) = (v / 2 ^ k) `mod` 256 * 2 ^ k.
Proof.
  intros Hk. apply Z.bits_inj'. intros n Hn. rewrite Z.land_spec.
  destruct (decide (n < k)). { rewrite !Z.mul_pow2_bits_low by lia. apply andb_false_r. }
  rewrite !Z.mul_pow2_bits by lia. change 256 with (2 ^ 8). change 255 with (Z.ones 8).
  destruct (decide (n - k < 8)).
  - rewrite Z.ones_spec_low, andb_true_r, Z.mod_pow2_bits_low, Z.div_pow2_bits by lia. f_equal. lia.
  - rewrite Z.ones_spec_high, andb_false_r, Z.mod_pow2_bits_high by lia. done.
Qed.

Lemma shl a k : 0 <= k -> Z.shiftl a k = a * 2 ^ k.
Proof. apply Z.shiftl_mul_pow2. Qed.
Lemma shr a k : 0 <= k -> Z.shiftr a k = a / 2 ^ k.
Proof. apply Z.shiftr_div_pow2. Qed.

Lemma u16_range x : 0 <= u16 x < 65536.
Proof. by apply Z.mod_pos_bound. Qed.
Lemma u16_small x : 0 <= x < 65536 -> u16 x = x.
Proof. apply Z.mod_small. Qed.

Lemma bswap16_eq w : 0 <= w < 65536 -> net_bswap16 w = w `mod` 256 * 256 + w / 256.
Proof.
  intros Hw. unfold net_bswap16. rewrite shl, shr by lia. rewrite lor_add by (lia || zdiv).
  change (2 ^ 8) with 256. unfold u16. change (2 ^ 16) with 65536. zdiv.
Qed.

Lemma bswap16_range w : 0 <= w < 65536 -> 0 <= net_bswap16 w < 65536.
Proof. intros Hw. rewrite bswap16_eq by done. zdiv. Qed.

(** A 16-bit member in network order: the high byte first. *)
Lemma st16_htons v : st16 (htons v) = [u16 v / 256; u16 v `mod` 256].
Proof.
  unfold htons, st16. pose proof (u16_range v) as H. rewrite bswap16_eq by done. revert H.
  generalize (u16 v). intros w H. f_equal; [zdiv|]. f_equal. zdiv.
Qed.

(** A word from its bytes, the lowest first. *)
Definition digits (a b c d : Z) : Z := a + 256 * b + 65536 * c + 16777216 * d.
Definition is_byte (a : Z) : Prop := 0 <= a < 256.

Section digits.
Context (a b c d : Z) (Ha : is_byte a) (Hb : is_byte b) (Hc : is_byte c) (Hd : is_byte d).
Lemma digit0 : digits a b c d `mod` 256 = a.
Proof. unfold digits, is_byte in *. zdiv. Qed.
Lemma digit1 : (digits a b c d / 2 ^ 8) `mod` 256 = b.
Proof.
  assert (digits a b c d / 2 ^ 8 = b + 256 * c + 65536 * d) as -> by (unfold digits, is_byte in *; zdiv).
  unfold is_byte in *. zdiv.
Qed.
Lemma digit2 : (digits a b c d / 2 ^ 16) `mod` 256 = c.
Proof.
  assert (digits a b c d / 2 ^ 16 = c + 256 * d) as -> by (unfold digits, is_byte in *; zdiv).
  unfold is_byte in *. zdiv.
Qed.
Lemma digit3 : digits a b c d / 2 ^ 24 = d.
Proof. unfold digits, is_byte in *. zdiv. Qed.
Lemma digits_range : 0 <= digits a b c d < 2 ^ 32.
Proof. unfold digits, is_byte in *. lia. Qed.

Lemma bswap32_digits : net_bswap32 (digits a b c d) = digits d c b a.
Proof.
  unfold net_bswap32.
  change 65280 with (255 * 2 ^ 8). change 16711680 with (255 * 2 ^ 16). change 4278190080 with (255 * 2 ^ 24).
  change (Z.land (digits a b c d) 255) with (Z.land (digits a b c d) (255 * 2 ^ 0)).
  rewrite !land_byte, !shl, !shr by lia.
  rewrite Z.div_1_r, Z.mul_1_r, digit0, digit1, digit2, digit3. unfold is_byte in *.
  rewrite (Z.mod_small d) by done. rewrite !u32_small by lia.
  replace (c * 2 ^ 16 / 2 ^ 8) with (c * 2 ^ 8) by zdiv. rewrite Z.div_mul by lia.
  replace (b * 2 ^ 8 * 2 ^ 8) with (b * 2 ^ 16) by lia. rewrite lor_add by lia.
  replace (a * 2 ^ 24 + b * 2 ^ 16) with ((a * 256 + b) * 2 ^ 16) by lia. rewrite (lor_add 16) by lia.
  replace ((a * 256 + b) * 2 ^ 16 + c * 2 ^ 8) with (((a * 256 + b) * 256 + c) * 2 ^ 8) by lia.
  rewrite (lor_add 8) by lia. unfold digits. lia.
Qed.

Lemma st32_digits : st32 (digits a b c d) = [a; b; c; d].
Proof.
  unfold st32. change 16777216 with (2 ^ 24). change 65536 with (2 ^ 16).
  change (digits a b c d / 256) with (digits a b c d / 2 ^ 8).
  rewrite digit0, digit1, digit2, digit3. unfold is_byte in *. by rewrite (Z.mod_small d).
Qed.
End digits.

Lemma u32_digits v : exists a b c d, u32 v = digits a b c d /\
  is_byte a /\ is_byte b /\ is_byte c /\ is_byte d.
Proof.
  assert (0 <= u32 v < 2 ^ 32) by (by apply Z.mod_pos_bound). generalize dependent (u32 v). intros w H.
  exists (w `mod` 256), ((w / 256) `mod` 256), ((w / 65536) `mod` 256), (w / 16777216).
  unfold is_byte, digits. split_and!; try (by apply Z.mod_pos_bound); [|zdiv|zdiv].
  pose proof (Z.div_mod w 256 ltac:(lia)). pose proof (Z.div_mod (w / 256) 256 ltac:(lia)) as H1.
  pose proof (Z.div_mod (w / 65536) 256 ltac:(lia)) as H2. rewrite Z.div_div in H1, H2 by lia.
  change (256 * 256) with 65536 in H1. change (65536 * 256) with 16777216 in H2. lia.
Qed.

(** A 32-bit member in network order, and back. *)
Lemma htonl_bytes v : exists a b c d, st32 (htonl v) = [a; b; c; d] /\
  u32 v = digits d c b a /\ is_byte a /\ is_byte b /\ is_byte c /\ is_byte d.
Proof.
  destruct (u32_digits v) as (a & b & c & d & E & Ha & Hb & Hc & Hd). exists d, c, b, a.
  unfold htonl. by rewrite E, bswap32_digits, st32_digits.
Qed.

(** Reading a member back. *)
Lemma ntohs_ld a b : 0 <= a < 256 -> 0 <= b < 256 -> ntohs (a + 256 * b) = a * 256 + b.
Proof.
  intros Ha Hb. unfold ntohs. rewrite u16_small by lia. rewrite bswap16_eq by lia. zdiv.
Qed.
Lemma ntohl_ld a b c d :
  is_byte a -> is_byte b -> is_byte c -> is_byte d -> ntohl (digits a b c d) = digits d c b a.
Proof. intros. unfold ntohl. rewrite u32_small by (by apply digits_range). by apply bswap32_digits. Qed.

(** ** The Internet checksum *)

(** The sum of the 16-bit words, an odd byte counting as the high one. *)
Fixpoint wsum (p : list Z) : Z :=
  match p with
  | a :: b :: p => 256 * a + b + wsum p
  | [a] => 256 * a
  | [] => 0
  end.

(** The same in the words of RFC 1071, for what a receiver does: the message as 16-bit
    words, the high byte first and an odd last byte filled up with a zero; the one's
    complement sum with its end-around carry; a message is valid when the sum is all
    ones. *)
Fixpoint words16 (p : list Z) : list Z :=
  match p with
  | hi :: lo :: p => 256 * hi + lo :: words16 p
  | [hi] => [256 * hi + 0]
  | [] => []
  end.
Definition ones_add (a b : Z) : Z := if a + b <? 65536 then a + b else a + b - 65536 + 1.
Definition ones_sum (ws : list Z) : Z := foldl ones_add 0 ws.
Definition rfc1071_valid (p : list Z) : Prop := ones_sum (words16 p) = 65535.

(** Induction two elements at a time. *)
Lemma list_pair_ind {A} (P : list A -> Prop) :
  P [] -> (forall a, P [a]) -> (forall a b l, P l -> P (a :: b :: l)) -> forall l, P l.
Proof.
  intros H0 H1 H2. fix IH 1. intros [|a [|b l]]; [done|done|]. apply H2, IH.
Qed.

Lemma wsum_range p : Forall is_byte p -> 0 <= wsum p <= 65535 * ((Z.of_nat (length p) + 1) / 2).
Proof.
  induction p as [|a|a b p IH] using list_pair_ind; simpl wsum; intros H.
  - done.
  - inversion H; subst. unfold is_byte in *. simpl length. change ((Z.of_nat 1 + 1) / 2) with 1. lia.
  - inversion H as [|?? Ha H']; subst. inversion H' as [|?? Hb Hp]; subst. specialize (IH Hp).
    unfold is_byte in *. simpl length. zdiv.
Qed.

Lemma words16_range p : Forall is_byte p -> Forall (fun w => 0 <= w < 65536) (words16 p).
Proof.
  induction p as [|a|a b p IH] using list_pair_ind; cbn [words16]; intros H; [constructor| |].
  - inversion H; subst. unfold is_byte in *. constructor; [lia|constructor].
  - inversion H as [|?? Ha H']; subst. inversion H' as [|?? Hb Hp]; subst. unfold is_byte in *. constructor; [lia|auto].
Qed.
Lemma words16_sum p : foldr Z.add 0 (words16 p) = wsum p.
Proof. induction p as [|a|a b p IH] using list_pair_ind; cbn [words16 fold_right wsum]; lia. Qed.

(** The one's complement sum is the sum modulo 65535, and 0 only when every word is. *)
Lemma ones_sum_from ws a : Forall (fun w => 0 <= w < 65536) ws -> 0 <= a < 65536 ->
  exists q, foldl ones_add a ws = a + foldr Z.add 0 ws - 65535 * q /\ 0 <= foldl ones_add a ws < 65536 /\
            (0 < a + foldr Z.add 0 ws -> 0 < foldl ones_add a ws).
Proof.
  intros Hws. revert a. induction Hws as [|w ws Hw Hws' IH]; intros a Ha; cbn [foldl fold_right]; [exists 0; lia|].
  assert (exists c, ones_add a w = a + w - 65535 * c /\ 0 <= ones_add a w < 65536 /\ (0 < a + w -> 0 < ones_add a w))
    as (c & Hc & Hr & Hp).
  { unfold ones_add. destruct (a + w <? 65536) eqn:E; bools; [exists 0|exists 1]; lia. }
  destruct (IH (ones_add a w) Hr) as (q & Hq & ? & H0).
  assert (0 <= fold_right Z.add 0 ws) by (clear -Hws'; induction Hws'; simpl; lia). exists (q + c). lia.
Qed.
Lemma rfc1071_intro p k : Forall is_byte p -> 0 < wsum p -> wsum p = 65535 * k -> rfc1071_valid p.
Proof.
  intros Hp Hpos Hk. unfold rfc1071_valid, ones_sum.
  destruct (ones_sum_from (words16 p) 0 (words16_range p Hp) ltac:(lia)) as (q & Hq & Hr & H0).
  rewrite words16_sum in *. lia.
Qed.

Lemma wsum_app_even p q : Nat.Even (length p) -> wsum (p ++ q) = wsum p + wsum q.
Proof.
  induction p as [|a|a b p IH] using list_pair_ind; intros He.
  - done.
  - destruct He as [k Hk]. simpl in Hk. lia.
  - simpl. rewrite IH; [lia|]. destruct He as [k Hk]. simpl in Hk. exists (k - 1)%nat. lia.
Qed.

Lemma sum_words_eq p s :
  Forall is_byte p -> 0 <= s -> s + wsum p < 2 ^ 32 -> sum_words p s = s + wsum p.
Proof.
  revert s. induction p as [|a|a b p IH] using list_pair_ind; intros s H Hs Hb; simpl in *.
  - lia.
  - inversion H; subst. unfold is_byte in *. rewrite shl by lia. rewrite u32_small; lia.
  - inversion H as [|?? Ha H']; subst. inversion H' as [|?? Hbb Hp]; subst.
    pose proof (wsum_range p Hp). unfold is_byte in *. rewrite shl by lia. rewrite (lor_add 8) by lia.
    assert (0 <= 65535 * ((Z.of_nat (length p) + 1) / 2)) by zdiv.
    rewrite u32_small by lia. rewrite IH by (done || lia). lia.
Qed.

(** One round keeps the sum modulo 65535. *)
Lemma fold_step s : 65536 <= s < 2 ^ 32 -> let s' := u32 (Z.land s 65535 + Z.shiftr s 16) in
  s' = s - 65535 * (s / 65536) /\ 0 < s' <= 65535 + s / 65536.
Proof.
  intros Hs. cbn zeta. rewrite shr by lia. change (2 ^ 16) with 65536.
  assert (Z.land s 65535 = s `mod` 65536) as -> by (apply (Z.land_ones s 16); lia).
  rewrite u32_small by zdiv. zdiv.
Qed.

Lemma fold_spec s : 0 <= s < 2 ^ 32 ->
  exists r q, fold_sum 4 s = r /\ r = s - 65535 * q /\ 0 <= q /\ 0 <= r < 65536 /\ (0 < s -> 0 < r).
Proof.
  intros Hs.
  assert (Hstep : forall n s, 0 <= s < 2 ^ 32 -> (s < 65536 /\ fold_sum (S n) s = s) \/
    (65536 <= s /\ exists s', fold_sum (S n) s = fold_sum n s' /\ s' = s - 65535 * (s / 65536) /\
       0 < s' <= 65535 + s / 65536)).
  { intros n x Hx. simpl. rewrite shr by lia. change (2 ^ 16) with 65536.
    destruct (x / 65536 =? 0) eqn:E; bools; [left; split; [zdiv|done]|right].
    assert (65536 <= x) by zdiv. split; [done|]. destruct (fold_step x) as [H1 H2]; [lia|].
    rewrite shr in H1, H2 by lia. change (2 ^ 16) with 65536 in H1, H2. eexists. split; [reflexivity|]. by split. }
  destruct (Hstep 3%nat s Hs) as [[H1 ->]|(H1 & s1 & -> & E1 & B1)]; [exists s, 0; lia|].
  assert (0 <= s / 65536 <= 65535) by zdiv.
  destruct (Hstep 2%nat s1) as [[H2 ->]|(H2 & s2 & -> & E2 & B2)]; [lia|exists s1, (s / 65536); lia|].
  assert (0 <= s1 / 65536 <= 1) by zdiv.
  destruct (Hstep 1%nat s2) as [[H3 ->]|(H3 & s3 & -> & E3 & B3)];
    [lia|exists s2, (s / 65536 + s1 / 65536); lia|]. exfalso. zdiv.
Qed.

(** [~sum] as a 16-bit value. *)
Lemma lnot16 r : 0 <= r < 65536 -> u16 (Z.lnot r) = 65535 - r.
Proof. intros Hr. unfold u16, Z.lnot. change (2 ^ 16) with 65536. unfold Z.pred. zdiv. Qed.

Lemma checksum_range p : 0 <= net_checksum p < 65536.
Proof. apply u16_range. Qed.

Lemma checksum2_even a b : Nat.Even (length a) -> Forall is_byte a -> Forall is_byte b ->
  Z.of_nat (length (a ++ b)) < 65536 -> net_checksum2 a b = net_checksum (a ++ b).
Proof.
  intros He Ha Hb Hl. unfold net_checksum2, net_checksum.
  pose proof (wsum_range a Ha). pose proof (wsum_range b Hb). rewrite length_app in Hl.
  assert (wsum a + wsum b < 2 ^ 32) by zdiv. assert (0 <= wsum b) by lia.
  rewrite (sum_words_eq a) by (done || lia). rewrite sum_words_eq by (done || lia).
  rewrite sum_words_eq; [by rewrite wsum_app_even|by apply Forall_app|lia|]. rewrite wsum_app_even by done. lia.
Qed.

(** A checksum computed with a zero field and stored there makes the message valid. *)
Lemma checksum_stored p q :
  Nat.Even (length p) -> Forall is_byte p -> Forall is_byte q ->
  Z.of_nat (length (p ++ q)) < 65534 ->
  rfc1071_valid (p ++ st16 (htons (net_checksum (p ++ st16 0 ++ q))) ++ q).
Proof.
  intros He Hp Hq Hl. pose proof (wsum_range p Hp). pose proof (wsum_range q Hq). rewrite length_app in Hl.
  assert (Hle : wsum p + wsum q + 65535 < 2 ^ 32) by zdiv.
  assert (Hc : net_checksum (p ++ st16 0 ++ q) = u16 (Z.lnot (fold_sum 4 (wsum p + wsum q)))).
  { assert (Hw0 : wsum (p ++ st16 0 ++ q) = wsum p + wsum q) by (rewrite wsum_app_even by done; done).
    unfold net_checksum. rewrite sum_words_eq, Hw0, Z.add_0_l; [done| |lia|lia].
    apply Forall_app. split; [done|]. by repeat constructor. }
  rewrite Hc. destruct (fold_spec (wsum p + wsum q)) as (r & k & -> & Er & Hk & Br & _); [lia|].
  rewrite lnot16 by done. rewrite st16_htons, u16_small by lia.
  assert (Hw : wsum (p ++ [(65535 - r) / 256; (65535 - r) `mod` 256] ++ q) = wsum p + wsum q + (65535 - r)).
  { rewrite wsum_app_even by done. cbn [app wsum]. zdiv. }
  apply (rfc1071_intro _ (k + 1)); rewrite ?Hw; [|lia|lia].
  apply Forall_app; split; [done|]; do 2 constructor; [unfold is_byte; zdiv..|done].
Qed.

(** ** The frames the kernel builds *)

Lemma st16_bytes v : Forall is_byte (st16 v).
Proof. repeat constructor; unfold is_byte; by apply Z.mod_pos_bound. Qed.
Lemma st32_bytes v : Forall is_byte (st32 v).
Proof. repeat constructor; unfold is_byte; by apply Z.mod_pos_bound. Qed.
Lemma u8_byte v : is_byte (u8 v).
Proof. unfold is_byte, u8. by apply Z.mod_pos_bound. Qed.
Create HintDb wire.
#[export] Hint Resolve st16_bytes st32_bytes u8_byte Forall_app_2 : wire.

(** All bytes of a message that is put together from fields. *)
Ltac all_bytes :=
  repeat first
    [ assumption | apply st16_bytes | apply st32_bytes | apply Forall_app_2
    | apply Forall_cons_2; [first [assumption | apply u8_byte | unfold is_byte; lia]|]
    | apply Forall_nil_2 ].

(** The parts of a frame. *)
Definition ip_header (f : list Z) : list Z := take 20 (drop 14 f).
Definition ip_payload (f : list Z) : list Z := drop 34 f.

Lemma ipv4_hdr_length t i p s d : length (ipv4_hdr t i p s d) = 20%nat.
Proof. reflexivity. Qed.

Lemma frame_split dst src t h body :
  length dst = 6%nat -> length src = 6%nat -> length h = 20%nat ->
  let f := eth_hdr dst src t ++ h ++ body in ip_header f = h /\ ip_payload f = body.
Proof.
  intros Hd Hs Hh f. assert (He : length (eth_hdr dst src t) = 14%nat).
  { unfold eth_hdr. rewrite !length_app, Hd, Hs. reflexivity. }
  unfold ip_header, ip_payload, f. split.
  - rewrite drop_app_length' by done. by rewrite take_app_length'.
  - rewrite app_assoc, drop_app_length'; [done|]. rewrite length_app. lia.
Qed.

Lemma ipv4_hdr_valid t i p s d : is_byte p -> rfc1071_valid (ipv4_hdr t i p s d).
Proof.
  intros Hp. unfold ipv4_hdr, ipv4_fields.
  assert (E : forall c, [69; 0] ++ st16 (htons t) ++ st16 (htons i) ++ st16 0 ++ [64; p] ++ st16 c ++
    st32 (htonl s) ++ st32 (htonl d) =
    ([69; 0] ++ st16 (htons t) ++ st16 (htons i) ++ st16 0 ++ [64; p]) ++ st16 c ++
    (st32 (htonl s) ++ st32 (htonl d))) by (intros; by rewrite <- !app_assoc).
  rewrite !E. apply checksum_stored.
  - by exists 5%nat.
  - all_bytes.
  - all_bytes.
  - done.
Qed.

Lemma tcp_opts_ok flags o : is_byte (wscale o) ->
  Forall is_byte (tcp_opt_bytes flags o) /\ (length (tcp_opt_bytes flags o) <= 12)%nat.
Proof.
  intros Hw. unfold tcp_opt_bytes, tcp_opt_len. destruct o as [m w k p]. simpl wscale in *. simpl.
  assert (Hk : is_byte (if 14 <? k then 14 else k)) by (destruct (14 <? k); [unfold is_byte; lia|done]).
  destruct (has flags TCP_SYN), m, p, w; simpl; (split; [all_bytes|lia]).
Qed.

Lemma tcp_valid s d sp dp seq ack flags win o payload :
  is_byte flags -> is_byte (wscale o) -> Forall is_byte payload -> (length payload <= 1400)%nat ->
  let seg c := tcp_fields sp dp seq ack flags win c o payload in
  let ps := tcp_pseudo s d (sizeof_tcp_hdr + tcp_opt_len flags o + Z.of_nat (length payload)) in
  rfc1071_valid (ps ++ seg (htons (net_checksum2 ps (seg 0)))).
Proof.
  intros Hf Hw Hp Hl seg ps. destruct (tcp_opts_ok flags o Hw) as [Ho Hol].
  set (pre := st16 (htons sp) ++ st16 (htons dp) ++ st32 (htonl seq) ++ st32 (htonl ack) ++
    [u8 (Z.shiftl (u8 ((sizeof_tcp_hdr + tcp_opt_len flags o) / 4)) 4); flags] ++ st16 (htons win)).
  set (post := st16 0 ++ tcp_opt_bytes flags o ++ payload).
  assert (E : forall c, seg c = pre ++ st16 c ++ post).
  { intros c. unfold seg, tcp_fields, pre, post. by rewrite <- !app_assoc. }
  assert (Hps : Forall is_byte ps) by (unfold ps, tcp_pseudo, IP_PROTO_TCP; all_bytes).
  assert (Hpre : Forall is_byte pre) by (unfold pre; all_bytes).
  assert (Hpost : Forall is_byte post) by (unfold post; all_bytes).
  assert (Hlen : (length post <= 1414)%nat) by (unfold post; rewrite !length_app; simpl length; lia).
  assert (Hall : forall c, net_checksum2 ps (seg c) = net_checksum ((ps ++ pre) ++ st16 c ++ post)).
  { intros c. rewrite E, checksum2_even; [by rewrite <- !app_assoc|by exists 6%nat|done| |].
    - all_bytes.
    - rewrite !length_app. change (length ps) with 12%nat. change (length pre) with 16%nat.
      change (length (st16 c)) with 2%nat. lia. }
  rewrite Hall, E, (app_assoc ps). apply checksum_stored.
  - by exists 14%nat.
  - all_bytes.
  - done.
  - rewrite !length_app. change (length ps) with 12%nat. change (length pre) with 16%nat. lia.
Qed.

Lemma icmp_body_valid payload :
  Forall is_byte payload -> (4 <= length payload <= 1400)%nat -> rfc1071_valid (icmp_body payload).
Proof.
  intros Hp Hl. destruct payload as [|t [|c [|x [|y rest]]]]; simpl in Hl; try lia.
  inversion Hp as [|?? Ht H1]; subst. inversion H1 as [|?? Hc H2]; subst.
  inversion H2 as [|?? _ H3]; subst. inversion H3 as [|?? _ H4]; subst.
  apply (checksum_stored [t; c] rest); [by exists 1%nat|all_bytes|done|simpl; lia].
Qed.

Lemma icmp_echo_valid type ident seq body :
  is_byte type -> Forall is_byte body -> (length body <= 32)%nat ->
  rfc1071_valid (icmp_fields type ident seq (htons (net_checksum (icmp_fields type ident seq 0 body))) body).
Proof.
  intros Ht Hb Hl. apply (checksum_stored [type; 0] (st16 (htons ident) ++ st16 (htons seq) ++ body));
    [by exists 1%nat|all_bytes|all_bytes|simpl; lia].
Qed.

(** A TCP segment has the length its parts have, and the pseudo header is the one the
    receiver makes from the IPv4 header: the two addresses, the protocol and the length
    of the segment. *)
Definition be16 (v : Z) : list Z := [v / 256; v `mod` 256].
Definition pseudo_header (f : list Z) : list Z :=
  take 8 (drop 12 (ip_header f)) ++ 0 :: take 1 (drop 9 (ip_header f)) ++
  be16 (Z.of_nat (length (ip_payload f))).

Lemma tcp_opt_bytes_size flags o : Z.of_nat (length (tcp_opt_bytes flags o)) = tcp_opt_len flags o.
Proof.
  unfold tcp_opt_bytes, tcp_opt_len. destruct o as [m w k p]. simpl.
  by destruct (has flags TCP_SYN), m, p, w.
Qed.
Lemma tcp_segment_length sp dp seq ack flags win c o payload :
  Z.of_nat (length (tcp_fields sp dp seq ack flags win c o payload)) =
  sizeof_tcp_hdr + tcp_opt_len flags o + Z.of_nat (length payload).
Proof.
  unfold tcp_fields. rewrite !length_app. pose proof (tcp_opt_bytes_size flags o). unfold sizeof_tcp_hdr. simpl length. lia.
Qed.

(** C38: receivers take the checksums of the frames the kernel builds.  The judge is
    RFC 1071, not the kernel's own routine: the 16-bit words of a message, an odd last
    byte filled up with a zero, must have a one's complement sum of all ones.  This
    holds of the IPv4 header of every UDP, ICMP, echo and TCP frame; of the ICMP
    message in an ICMP frame, when it is long enough (4 bytes) to have a checksum; of
    an echo message with the caller's data or the default one; and of a TCP segment
    behind the pseudo header that the receiver makes from the IPv4 header, for every
    payload of at most 1400 bytes, of even or odd length, and every option.  UDP
    frames carry no UDP checksum, and ARP frames and raw packets none that is theirs to
    compute. *)
Theorem frames_checksums_valid dst_mac src_mac src dst sp dp type ident seq ack flags win o payload echo :
  length dst_mac = 6%nat -> length src_mac = 6%nat -> is_byte type -> is_byte flags ->
  is_byte (wscale o) -> Forall is_byte payload -> (length payload <= 1400)%nat ->
  (forall p, echo = Some p -> Forall is_byte p) ->
  let udp := udp_frame dst_mac src_mac src dst sp dp payload in
  let icmp := icmp_frame dst_mac src_mac src dst payload in
  let ping := icmp_echo_frame dst_mac src_mac src dst type ident seq echo in
  let tcp := tcp_frame dst_mac src_mac src dst sp dp seq ack flags win o payload in
  rfc1071_valid (ip_header udp) /\ rfc1071_valid (ip_header icmp) /\
  rfc1071_valid (ip_header ping) /\ rfc1071_valid (ip_header tcp) /\
  ((4 <= length payload)%nat -> rfc1071_valid (ip_payload icmp)) /\
  rfc1071_valid (ip_payload ping) /\
  rfc1071_valid (pseudo_header tcp ++ ip_payload tcp).
Proof.
  intros Hd Hs Ht Hf Hw Hp Hl He udp icmp ping tcp. unfold pseudo_header, udp, icmp, ping, tcp.
  unfold udp_frame, icmp_frame, icmp_echo_frame, tcp_frame.
  rewrite !(proj1 (frame_split _ _ _ _ _ Hd Hs (ipv4_hdr_length _ _ _ _ _))).
  rewrite !(proj2 (frame_split _ _ _ _ _ Hd Hs (ipv4_hdr_length _ _ _ _ _))).
  do 4 (split; [by apply ipv4_hdr_valid|]). split; [|split].
  - intros. apply icmp_body_valid; [exact Hp|lia].
  - apply icmp_echo_valid; [exact Ht| |].
    + destruct echo as [p|]; [apply Forall_take, He; done|]. vm_compute. repeat constructor; discriminate.
    + destruct echo as [p|]; [rewrite length_take; lia|done].
  - rewrite tcp_segment_length. pose proof (tcp_valid src dst sp dp seq ack flags win o payload Hf Hw Hp Hl) as H.
    cbv zeta in H. unfold tcp_pseudo at 1 in H. rewrite st16_htons in H.
    destruct (tcp_opts_ok flags o Hw) as [_ Hol]. pose proof (tcp_opt_bytes_size flags o).
    rewrite (u16_small (sizeof_tcp_hdr + _ + _)) in H by (unfold sizeof_tcp_hdr; lia). exact H.
Qed.
