(* ===== verification/NetState.v ===== *)
(** * State of the protocols above IP (kernel/src/net/proto/, socket/)

    The records of TCP connections and listeners, of sockets, of the DNS and DHCP
    clients, and the heap objects they use.  A connection, a socket or a buffer is
    known by its address, 0 is NULL; an object that was freed is absent from its map,
    and using it faults.  A buffer is its size and the bytes that were written; the
    others are zero, since every buffer of this code comes from [kzalloc]. *)

From stdpp Require Import base gmap list.
From Stdlib Require Import ZArith Lia.
From S2P Require Import Prelude.

Local Open Scope Z_scope.

Record nbuf := mkBuf { b_size : Z; b_bytes : gmap Z Z }.

(** ** TCP *)

(** [struct tcp_conn]; its [next] is the order of [tcp_conns].  Handlers are known by
    their address. *)
Record tcp_conn := mkConn {
  c_dev : nat;
  remote_ip : Z; remote_port : Z; local_port : Z; c_seq : Z; c_ack : Z;
  peer_mac : list Z;
  rx_buf : Z; c_rx_cap : Z; c_rx_len : Z; c_rx_head : Z;
  rcv_wscale : Z; snd_wscale : Z;
  peer_wscale_seen : bool; sack_permitted : bool;
  rx_since_ack : Z; rx_full_events : Z;
  c_handler : Z; c_accept_handler : Z; handler_ctx : Z;
  passive : bool; connected : bool; closed : bool; c_error : bool; error_reported : bool; read_shutdown : bool;
  write_shutdown : bool; heap_allocated : bool }.

Definition set_seq (v : Z) (c : tcp_conn) : tcp_conn :=
  mkConn (c_dev c) (remote_ip c) (remote_port c) (local_port c) v (c_ack c) (peer_mac c) (rx_buf c) (c_rx_cap
    c) (c_rx_len c) (c_rx_head c) (rcv_wscale c) (snd_wscale c) (peer_wscale_seen c) (sack_permitted c)
    (rx_since_ack c) (rx_full_events c) (c_handler c) (c_accept_handler c) (handler_ctx c) (passive c)
    (connected c) (closed c) (c_error c) (error_reported c) (read_shutdown c) (write_shutdown c)
    (heap_allocated c).
Definition set_ack (v : Z) (c : tcp_conn) : tcp_conn :=
  mkConn (c_dev c) (remote_ip c) (remote_port c) (local_port c) (c_seq c) v (peer_mac c) (rx_buf c) (c_rx_cap
    c) (c_rx_len c) (c_rx_head c) (rcv_wscale c) (snd_wscale c) (peer_wscale_seen c) (sack_permitted c)
    (rx_since_ack c) (rx_full_events c) (c_handler c) (c_accept_handler c) (handler_ctx c) (passive c)
    (connected c) (closed c) (c_error c) (error_reported c) (read_shutdown c) (write_shutdown c)
    (heap_allocated c).
Definition set_peer_mac (v : list Z) (c : tcp_conn) : tcp_conn :=
  mkConn (c_dev c) (remote_ip c) (remote_port c) (local_port c) (c_seq c) (c_ack c) v (rx_buf c) (c_rx_cap c)
    (c_rx_len c) (c_rx_head c) (rcv_wscale c) (snd_wscale c) (peer_wscale_seen c) (sack_permitted c)
    (rx_since_ack c) (rx_full_events c) (c_handler c) (c_accept_handler c) (handler_ctx c) (passive c)
    (connected c) (closed c) (c_error c) (error_reported c) (read_shutdown c) (write_shutdown c)
    (heap_allocated c).
Definition set_ring_pos (v0 : Z) (v1 : Z) (c : tcp_conn) : tcp_conn :=
  mkConn (c_dev c) (remote_ip c) (remote_port c) (local_port c) (c_seq c) (c_ack c) (peer_mac c) (rx_buf c)
    (c_rx_cap c) v0 v1 (rcv_wscale c) (snd_wscale c) (peer_wscale_seen c) (sack_permitted c)
    (rx_since_ack c) (rx_full_events c) (c_handler c) (c_accept_handler c) (handler_ctx c) (passive c)
    (connected c) (closed c) (c_error c) (error_reported c) (read_shutdown c) (write_shutdown c)
    (heap_allocated c).
Definition set_ring (v0 : Z) (v1 : Z) (v2 : Z) (v3 : Z) (c : tcp_conn) : tcp_conn :=
  mkConn (c_dev c) (remote_ip c) (remote_port c) (local_port c) (c_seq c) (c_ack c) (peer_mac c) v0 v1 v2 v3
    (rcv_wscale c) (snd_wscale c) (peer_wscale_seen c) (sack_permitted c) (rx_since_ack c)
    (rx_full_events c) (c_handler c) (c_accept_handler c) (handler_ctx c) (passive c) (connected c)
    (closed c) (c_error c) (error_reported c) (read_shutdown c) (write_shutdown c) (heap_allocated c).
Definition set_rcv_wscale (v : Z) (c : tcp_conn) : tcp_conn :=
  mkConn (c_dev c) (remote_ip c) (remote_port c) (local_port c) (c_seq c) (c_ack c) (peer_mac c) (rx_buf c)
    (c_rx_cap c) (c_rx_len c) (c_rx_head c) v (snd_wscale c) (peer_wscale_seen c) (sack_permitted c)
    (rx_since_ack c) (rx_full_events c) (c_handler c) (c_accept_handler c) (handler_ctx c) (passive c)
    (connected c) (closed c) (c_error c) (error_reported c) (read_shutdown c) (write_shutdown c)
    (heap_allocated c).
Definition set_snd_wscale (v0 : Z) (v1 : bool) (c : tcp_conn) : tcp_conn :=
  mkConn (c_dev c) (remote_ip c) (remote_port c) (local_port c) (c_seq c) (c_ack c) (peer_mac c) (rx_buf c)
    (c_rx_cap c) (c_rx_len c) (c_rx_head c) (rcv_wscale c) v0 v1 (sack_permitted c) (rx_since_ack c)
    (rx_full_events c) (c_handler c) (c_accept_handler c) (handler_ctx c) (passive c) (connected c)
    (closed c) (c_error c) (error_reported c) (read_shutdown c) (write_shutdown c) (heap_allocated c).
Definition set_sack_permitted (v : bool) (c : tcp_conn) : tcp_conn :=
  mkConn (c_dev c) (remote_ip c) (remote_port c) (local_port c) (c_seq c) (c_ack c) (peer_mac c) (rx_buf c)
    (c_rx_cap c) (c_rx_len c) (c_rx_head c) (rcv_wscale c) (snd_wscale c) (peer_wscale_seen c) v
    (rx_since_ack c) (rx_full_events c) (c_handler c) (c_accept_handler c) (handler_ctx c) (passive c)
    (connected c) (closed c) (c_error c) (error_reported c) (read_shutdown c) (write_shutdown c)
    (heap_allocated c).
Definition set_rx_since_ack (v : Z) (c : tcp_conn) : tcp_conn :=
  mkConn (c_dev c) (remote_ip c) (remote_port c) (local_port c) (c_seq c) (c_ack c) (peer_mac c) (rx_buf c)
    (c_rx_cap c) (c_rx_len c) (c_rx_head c) (rcv_wscale c) (snd_wscale c) (peer_wscale_seen c)
    (sack_permitted c) v (rx_full_events c) (c_handler c) (c_accept_handler c) (handler_ctx c) (passive
    c) (connected c) (closed c) (c_error c) (error_reported c) (read_shutdown c) (write_shutdown c)
    (heap_allocated c).
Definition set_rx_full_events (v : Z) (c : tcp_conn) : tcp_conn :=
  mkConn (c_dev c) (remote_ip c) (remote_port c) (local_port c) (c_seq c) (c_ack c) (peer_mac c) (rx_buf c)
    (c_rx_cap c) (c_rx_len c) (c_rx_head c) (rcv_wscale c) (snd_wscale c) (peer_wscale_seen c)
    (sack_permitted c) (rx_since_ack c) v (c_handler c) (c_accept_handler c) (handler_ctx c) (passive c)
    (connected c) (closed c) (c_error c) (error_reported c) (read_shutdown c) (write_shutdown c)
    (heap_allocated c).
Definition set_listen (v0 : Z) (v1 : Z) (v2 : Z) (v3 : bool) (c : tcp_conn) : tcp_conn :=
  mkConn (c_dev c) (remote_ip c) (remote_port c) (local_port c) (c_seq c) (c_ack c) (peer_mac c) (rx_buf c)
    (c_rx_cap c) (c_rx_len c) (c_rx_head c) (rcv_wscale c) (snd_wscale c) (peer_wscale_seen c)
    (sack_permitted c) (rx_since_ack c) (rx_full_events c) v0 v1 v2 v3 (connected c) (closed c) (c_error
    c) (error_reported c) (read_shutdown c) (write_shutdown c) (heap_allocated c).
Definition set_heap_allocated (v : bool) (c : tcp_conn) : tcp_conn :=
  mkConn (c_dev c) (remote_ip c) (remote_port c) (local_port c) (c_seq c) (c_ack c) (peer_mac c) (rx_buf c)
    (c_rx_cap c) (c_rx_len c) (c_rx_head c) (rcv_wscale c) (snd_wscale c) (peer_wscale_seen c)
    (sack_permitted c) (rx_since_ack c) (rx_full_events c) (c_handler c) (c_accept_handler c)
    (handler_ctx c) (passive c) (connected c) (closed c) (c_error c) (error_reported c) (read_shutdown
    c) (write_shutdown c) v.
Definition set_passive (v : bool) (c : tcp_conn) : tcp_conn :=
  mkConn (c_dev c) (remote_ip c) (remote_port c) (local_port c) (c_seq c) (c_ack c) (peer_mac c) (rx_buf c)
    (c_rx_cap c) (c_rx_len c) (c_rx_head c) (rcv_wscale c) (snd_wscale c) (peer_wscale_seen c)
    (sack_permitted c) (rx_since_ack c) (rx_full_events c) (c_handler c) (c_accept_handler c)
    (handler_ctx c) v (connected c) (closed c) (c_error c) (error_reported c) (read_shutdown c)
    (write_shutdown c) (heap_allocated c).
Definition set_connected (v : bool) (c : tcp_conn) : tcp_conn :=
  mkConn (c_dev c) (remote_ip c) (remote_port c) (local_port c) (c_seq c) (c_ack c) (peer_mac c) (rx_buf c)
    (c_rx_cap c) (c_rx_len c) (c_rx_head c) (rcv_wscale c) (snd_wscale c) (peer_wscale_seen c)
    (sack_permitted c) (rx_since_ack c) (rx_full_events c) (c_handler c) (c_accept_handler c)
    (handler_ctx c) (passive c) v (closed c) (c_error c) (error_reported c) (read_shutdown c)
    (write_shutdown c) (heap_allocated c).
Definition set_closed (v : bool) (c : tcp_conn) : tcp_conn :=
  mkConn (c_dev c) (remote_ip c) (remote_port c) (local_port c) (c_seq c) (c_ack c) (peer_mac c) (rx_buf c)
    (c_rx_cap c) (c_rx_len c) (c_rx_head c) (rcv_wscale c) (snd_wscale c) (peer_wscale_seen c)
    (sack_permitted c) (rx_since_ack c) (rx_full_events c) (c_handler c) (c_accept_handler c)
    (handler_ctx c) (passive c) (connected c) v (c_error c) (error_reported c) (read_shutdown c)
    (write_shutdown c) (heap_allocated c).
Definition set_error (v : bool) (c : tcp_conn) : tcp_conn :=
  mkConn (c_dev c) (remote_ip c) (remote_port c) (local_port c) (c_seq c) (c_ack c) (peer_mac c) (rx_buf c)
    (c_rx_cap c) (c_rx_len c) (c_rx_head c) (rcv_wscale c) (snd_wscale c) (peer_wscale_seen c)
    (sack_permitted c) (rx_since_ack c) (rx_full_events c) (c_handler c) (c_accept_handler c)
    (handler_ctx c) (passive c) (connected c) (closed c) v (error_reported c) (read_shutdown c)
    (write_shutdown c) (heap_allocated c).
Definition set_error_reported (v : bool) (c : tcp_conn) : tcp_conn :=
  mkConn (c_dev c) (remote_ip c) (remote_port c) (local_port c) (c_seq c) (c_ack c) (peer_mac c) (rx_buf c)
    (c_rx_cap c) (c_rx_len c) (c_rx_head c) (rcv_wscale c) (snd_wscale c) (peer_wscale_seen c)
    (sack_permitted c) (rx_since_ack c) (rx_full_events c) (c_handler c) (c_accept_handler c)
    (handler_ctx c) (passive c) (connected c) (closed c) (c_error c) v (read_shutdown c) (write_shutdown
    c) (heap_allocated c).
Definition set_read_shutdown (v : bool) (c : tcp_conn) : tcp_conn :=
  mkConn (c_dev c) (remote_ip c) (remote_port c) (local_port c) (c_seq c) (c_ack c) (peer_mac c) (rx_buf c)
    (c_rx_cap c) (c_rx_len c) (c_rx_head c) (rcv_wscale c) (snd_wscale c) (peer_wscale_seen c)
    (sack_permitted c) (rx_since_ack c) (rx_full_events c) (c_handler c) (c_accept_handler c)
    (handler_ctx c) (passive c) (connected c) (closed c) (c_error c) (error_reported c) v
    (write_shutdown c) (heap_allocated c).
Definition set_write_shutdown (v : bool) (c : tcp_conn) : tcp_conn :=
  mkConn (c_dev c) (remote_ip c) (remote_port c) (local_port c) (c_seq c) (c_ack c) (peer_mac c) (rx_buf c)
    (c_rx_cap c) (c_rx_len c) (c_rx_head c) (rcv_wscale c) (snd_wscale c) (peer_wscale_seen c)
    (sack_permitted c) (rx_since_ack c) (rx_full_events c) (c_handler c) (c_accept_handler c)
    (handler_ctx c) (passive c) (connected c) (closed c) (c_error c) (error_reported c) (read_shutdown
    c) v (heap_allocated c).

(** [kzalloc(sizeof(tcp_conn_t))] *)
Definition zero_conn : tcp_conn :=
  mkConn 0 0 0 0 0 0 (replicate 6 0) 0 0 0 0 0 0 false false 0 0 0 0 0
    false false false false false false false false.

Record tcp_listener := mkListener {
  l_local_ip : Z; l_port : Z; l_handler : Z; l_accept_handler : Z; l_ctx : Z }.

(** ** Sockets *)

Record unix_sock := mkUnix {
  un_name : list Z;
  un_peer : Z; un_rx_buf : Z; un_rx_cap : Z; un_rx_len : Z; un_rx_head : Z; un_tx_buf : Z; un_tx_cap : Z;
  un_tx_len : Z;
  un_readable : bool; un_writable : bool }.

Record inet_sock := mkInet {
  tcp_conn_ptr : Z; in_local_ip : Z; in_local_port : Z; in_remote_ip : Z; in_remote_port : Z; packet_src_ip : Z;
  packet_src_port : Z;
  in_rx_buf : list Z;
  in_rx_len : Z; in_rx_head : Z;
  in_readable : bool;
  recv_timeout_ms : Z; ttl : Z }.

Record socket := mkSock {
  so_domain : Z; so_type : Z; so_protocol : Z; so_flags : Z; domain_ops : Z;
  unix_data : option unix_sock;
  inet_data : option inet_sock;
  backlog : list Z;
  backlog_count : Z; refcount : Z }.

Definition set_un_name (v : list Z) (x : unix_sock) : unix_sock :=
  mkUnix v (un_peer x) (un_rx_buf x) (un_rx_cap x) (un_rx_len x) (un_rx_head x) (un_tx_buf x) (un_tx_cap x)
    (un_tx_len x) (un_readable x) (un_writable x).
Definition set_un_peer (v : Z) (x : unix_sock) : unix_sock :=
  mkUnix (un_name x) v (un_rx_buf x) (un_rx_cap x) (un_rx_len x) (un_rx_head x) (un_tx_buf x) (un_tx_cap x)
    (un_tx_len x) (un_readable x) (un_writable x).
Definition set_un_ring (v0 : Z) (v1 : Z) (x : unix_sock) : unix_sock :=
  mkUnix (un_name x) (un_peer x) (un_rx_buf x) (un_rx_cap x) v0 v1 (un_tx_buf x) (un_tx_cap x) (un_tx_len x)
    (un_readable x) (un_writable x).
Definition set_un_readable (v : bool) (x : unix_sock) : unix_sock :=
  mkUnix (un_name x) (un_peer x) (un_rx_buf x) (un_rx_cap x) (un_rx_len x) (un_rx_head x) (un_tx_buf x)
    (un_tx_cap x) (un_tx_len x) v (un_writable x).
Definition set_tcp_conn_ptr (v : Z) (x : inet_sock) : inet_sock :=
  mkInet v (in_local_ip x) (in_local_port x) (in_remote_ip x) (in_remote_port x) (packet_src_ip x)
    (packet_src_port x) (in_rx_buf x) (in_rx_len x) (in_rx_head x) (in_readable x) (recv_timeout_ms x)
    (ttl x).
Definition set_local (v0 : Z) (v1 : Z) (x : inet_sock) : inet_sock :=
  mkInet (tcp_conn_ptr x) v0 v1 (in_remote_ip x) (in_remote_port x) (packet_src_ip x) (packet_src_port x)
    (in_rx_buf x) (in_rx_len x) (in_rx_head x) (in_readable x) (recv_timeout_ms x) (ttl x).
Definition set_remote (v0 : Z) (v1 : Z) (x : inet_sock) : inet_sock :=
  mkInet (tcp_conn_ptr x) (in_local_ip x) (in_local_port x) v0 v1 (packet_src_ip x) (packet_src_port x)
    (in_rx_buf x) (in_rx_len x) (in_rx_head x) (in_readable x) (recv_timeout_ms x) (ttl x).
Definition set_packet (v0 : Z) (v1 : Z) (v2 : list Z) (v3 : Z) (v4 : Z) (v5 : bool) (x : inet_sock) : inet_sock :=
  mkInet (tcp_conn_ptr x) (in_local_ip x) (in_local_port x) (in_remote_ip x) (in_remote_port x) v0 v1 v2 v3
    v4 v5 (recv_timeout_ms x) (ttl x).
Definition set_recv_timeout (v : Z) (x : inet_sock) : inet_sock :=
  mkInet (tcp_conn_ptr x) (in_local_ip x) (in_local_port x) (in_remote_ip x) (in_remote_port x)
    (packet_src_ip x) (packet_src_port x) (in_rx_buf x) (in_rx_len x) (in_rx_head x) (in_readable x) v
    (ttl x).
Definition set_ttl (v : Z) (x : inet_sock) : inet_sock :=
  mkInet (tcp_conn_ptr x) (in_local_ip x) (in_local_port x) (in_remote_ip x) (in_remote_port x)
    (packet_src_ip x) (packet_src_port x) (in_rx_buf x) (in_rx_len x) (in_rx_head x) (in_readable x)
    (recv_timeout_ms x) v.
Definition set_so_flags (v : Z) (k : socket) : socket :=
  mkSock (so_domain k) (so_type k) (so_protocol k) v (domain_ops k) (unix_data k) (inet_data k) (backlog k)
    (backlog_count k) (refcount k).
Definition set_unix_data (v : option unix_sock) (k : socket) : socket :=
  mkSock (so_domain k) (so_type k) (so_protocol k) (so_flags k) (domain_ops k) v (inet_data k) (backlog k)
    (backlog_count k) (refcount k).
Definition set_inet_data (v : option inet_sock) (k : socket) : socket :=
  mkSock (so_domain k) (so_type k) (so_protocol k) (so_flags k) (domain_ops k) (unix_data k) v (backlog k)
    (backlog_count k) (refcount k).
Definition set_backlog (v0 : list Z) (v1 : Z) (k : socket) : socket :=
  mkSock (so_domain k) (so_type k) (so_protocol k) (so_flags k) (domain_ops k) (unix_data k) (inet_data k) v0
    v1 (refcount k).
Definition set_refcount (v : Z) (k : socket) : socket :=
  mkSock (so_domain k) (so_type k) (so_protocol k) (so_flags k) (domain_ops k) (unix_data k) (inet_data k)
    (backlog k) (backlog_count k) v.

(** ** The DNS and DHCP clients *)

Record dns_state := mkDns {
  dns_query_id : Z; dns_query_port : Z; dns_result_ip : Z;
  dns_dev : option nat;
  dns_ready : bool }.
Record dhcp_state := mkDhcp {
  dhcp_xid : Z; dhcp_offered_ip : Z; dhcp_server_ip : Z; dhcp_netmask : Z; dhcp_gateway : Z; dhcp_dns_server :
  Z; dhcp_seen_type : Z;
  dhcp_ready : bool }.

(** ** All of it

    [next_addr] is the next address the allocator hands out and [grants] says which
    requests it grants; [io_seq] is the sequence number of the scheduler's wait queue
    for input and output. *)
Record upper := mkUpper {
  bufs : gmap Z nbuf;
  next_addr : Z;
  grants : Z -> bool;
  conns : gmap Z tcp_conn;
  tcp_conns : list Z;
  tcp_listeners : list tcp_listener;
  socks : gmap Z socket;
  socket_list : list Z;
  socket_count : Z; udp_next_ephemeral : Z;
  socket_domains : list (option Z);
  socket_builtin_domains_ready : bool;
  dns : dns_state;
  dhcp : dhcp_state;
  io_seq : Z; net_poll_waiters : Z }.

Definition set_bufs (v : gmap Z nbuf) (u : upper) : upper :=
  mkUpper v (next_addr u) (grants u) (conns u) (tcp_conns u) (tcp_listeners u) (socks u) (socket_list u)
    (socket_count u) (udp_next_ephemeral u) (socket_domains u) (socket_builtin_domains_ready u) (dns u)
    (dhcp u) (io_seq u) (net_poll_waiters u).
Definition set_next_addr (v : Z) (u : upper) : upper :=
  mkUpper (bufs u) v (grants u) (conns u) (tcp_conns u) (tcp_listeners u) (socks u) (socket_list u)
    (socket_count u) (udp_next_ephemeral u) (socket_domains u) (socket_builtin_domains_ready u) (dns u)
    (dhcp u) (io_seq u) (net_poll_waiters u).
Definition set_conns (v : gmap Z tcp_conn) (u : upper) : upper :=
  mkUpper (bufs u) (next_addr u) (grants u) v (tcp_conns u) (tcp_listeners u) (socks u) (socket_list u)
    (socket_count u) (udp_next_ephemeral u) (socket_domains u) (socket_builtin_domains_ready u) (dns u)
    (dhcp u) (io_seq u) (net_poll_waiters u).
Definition set_tcp_conns (v : list Z) (u : upper) : upper :=
  mkUpper (bufs u) (next_addr u) (grants u) (conns u) v (tcp_listeners u) (socks u) (socket_list u)
    (socket_count u) (udp_next_ephemeral u) (socket_domains u) (socket_builtin_domains_ready u) (dns u)
    (dhcp u) (io_seq u) (net_poll_waiters u).
Definition set_tcp_listeners (v : list tcp_listener) (u : upper) : upper :=
  mkUpper (bufs u) (next_addr u) (grants u) (conns u) (tcp_conns u) v (socks u) (socket_list u) (socket_count
    u) (udp_next_ephemeral u) (socket_domains u) (socket_builtin_domains_ready u) (dns u) (dhcp u)
    (io_seq u) (net_poll_waiters u).
Definition set_socks (v : gmap Z socket) (u : upper) : upper :=
  mkUpper (bufs u) (next_addr u) (grants u) (conns u) (tcp_conns u) (tcp_listeners u) v (socket_list u)
    (socket_count u) (udp_next_ephemeral u) (socket_domains u) (socket_builtin_domains_ready u) (dns u)
    (dhcp u) (io_seq u) (net_poll_waiters u).
Definition set_dns (v : dns_state) (u : upper) : upper :=
  mkUpper (bufs u) (next_addr u) (grants u) (conns u) (tcp_conns u) (tcp_listeners u) (socks u) (socket_list
    u) (socket_count u) (udp_next_ephemeral u) (socket_domains u) (socket_builtin_domains_ready u) v
    (dhcp u) (io_seq u) (net_poll_waiters u).
Definition set_dhcp (v : dhcp_state) (u : upper) : upper :=
  mkUpper (bufs u) (next_addr u) (grants u) (conns u) (tcp_conns u) (tcp_listeners u) (socks u) (socket_list
    u) (socket_count u) (udp_next_ephemeral u) (socket_domains u) (socket_builtin_domains_ready u) (dns
    u) v (io_seq u) (net_poll_waiters u).
Definition set_io_seq (v : Z) (u : upper) : upper :=
  mkUpper (bufs u) (next_addr u) (grants u) (conns u) (tcp_conns u) (tcp_listeners u) (socks u) (socket_list
    u) (socket_count u) (udp_next_ephemeral u) (socket_domains u) (socket_builtin_domains_ready u) (dns
    u) (dhcp u) v (net_poll_waiters u).
Definition set_net_poll_waiters (v : Z) (u : upper) : upper :=
  mkUpper (bufs u) (next_addr u) (grants u) (conns u) (tcp_conns u) (tcp_listeners u) (socks u) (socket_list
    u) (socket_count u) (udp_next_ephemeral u) (socket_domains u) (socket_builtin_domains_ready u) (dns
    u) (dhcp u) (io_seq u) v.
Definition set_udp_next_ephemeral (v : Z) (u : upper) : upper :=
  mkUpper (bufs u) (next_addr u) (grants u) (conns u) (tcp_conns u) (tcp_listeners u) (socks u) (socket_list
    u) (socket_count u) v (socket_domains u) (socket_builtin_domains_ready u) (dns u) (dhcp u) (io_seq
    u) (net_poll_waiters u).
Definition set_socket_list (v0 : list Z) (v1 : Z) (u : upper) : upper :=
  mkUpper (bufs u) (next_addr u) (grants u) (conns u) (tcp_conns u) (tcp_listeners u) (socks u) v0 v1
    (udp_next_ephemeral u) (socket_domains u) (socket_builtin_domains_ready u) (dns u) (dhcp u) (io_seq
    u) (net_poll_waiters u).
Definition set_socket_domains (v0 : list (option Z)) (v1 : bool) (u : upper) : upper :=
  mkUpper (bufs u) (next_addr u) (grants u) (conns u) (tcp_conns u) (tcp_listeners u) (socks u) (socket_list
    u) (socket_count u) (udp_next_ephemeral u) v0 v1 (dns u) (dhcp u) (io_seq u) (net_poll_waiters u).

(** The static initial values. *)
Definition UDP_EPHEMERAL_MIN : Z := 49152.
Definition UDP_EPHEMERAL_MAX : Z := 65535.
Definition SOCKET_DOMAIN_MAX : nat := 8.
Definition upper0 (g : Z -> bool) : upper :=
  mkUpper ∅ 1 g ∅ [] [] ∅ [] 0 UDP_EPHEMERAL_MIN (replicate SOCKET_DOMAIN_MAX None) false
    (mkDns 0 0 0 None false) (mkDhcp 0 0 0 0 0 0 0 false) 1 0.
