(* ===== verification/Net.v ===== *)
(** * The network core (kernel/src/net/core/netdev.c, proto/)

    The devices in registration order, the ARP cache and the pending request, the
    tables of protocols and UDP handlers, the pending ping, and the clock.  A device
    is its position in the list.  What a driver does with a frame or on a poll, the
    handlers behind UDP (DHCP, DNS, sockets), the TCP receiver, the raw sockets and
    the device file system are arguments.  A frame that a device sends to itself is
    received again before the send returns; [recv] is that inner call. *)

From stdpp Require Import base list.
From Stdlib Require Import ZArith Lia.
From S2P Require Import Prelude Wire NetState.

Local Open Scope Z_scope.

Definition ENOENT : Z := 2.
Definition ENOMEM : Z := 12.
Definition EEXIST : Z := 17.
Definition EINVAL : Z := 22.

Definition NETDEV_RX_QUEUE_LEN : nat := 16.
Definition NET_MTU : Z := 1500.
Definition ARP_CACHE_LEN : nat := 32.
Definition ARP_CACHE_TTL_MS : Z := 60000.
Definition NET_IPV4_PROTOCOL_MAX : nat := 8.
Definition NET_UDP_HANDLER_MAX : nat := 8.
Definition ICMP_ECHO_REPLY : Z := 0.
Definition ICMP_ECHO_REQUEST : Z := 8.

(** ** State *)

(** [dev->send] and [dev->poll]: the loopback functions, or a driver's. *)
Inductive dev_ops := loopback_ops | driver_ops.

Record netdev := mkDev {
  name : list Z; mac : list Z; loopback : bool;
  ipv4_addr : Z; ipv4_gateway : Z; ipv4_netmask : Z; dns_server : Z; mtu : Z;
  dops : dev_ops;
  rx_queue : list (list Z); rx_len : list Z; rx_head : Z; rx_tail : Z; rx_count : Z;
  poll_busy : bool;
  rx_dropped : Z; tx_packets : Z; rx_packets : Z;
  dhcp_server : Z; dhcp_configured : bool }.

Record arp_cache_entry := mkArp { a_dev : option nat; a_ip : Z; a_mac : list Z; expires_tick : Z }.

Record net_ipv4_rx_info := mkRx {
  rx_dev : nat; rx_src_mac : list Z; rx_ip : list Z; rx_ihl : Z; rx_ip_len : Z }.

Record net_udp_dgram := mkDgram {
  dg_rx : net_ipv4_rx_info; dg_payload : list Z; dg_udp_len : Z;
  dg_src_ip : Z; dg_dst_ip : Z; dg_src_port : Z; dg_dst_port : Z }.

Record net_ping_result := mkPing {
  p_src_ip : Z; p_seq : Z; p_bytes : Z; p_ttl : Z; p_time_ms : Z }.

(** A registered protocol: its address, its number and who receives. *)
Inductive receiver := udp_receiver | icmp_receiver | tcp_receiver.
Record proto_ops := mkProto { o_addr : Z; o_protocol : Z; o_receive : receiver }.

Record net := mkNet {
  devs : list netdev;
  default_netdev : option nat;
  arp_cache : list arp_cache_entry;
  arp_mac : list Z; arp_dev : option nat; arp_ip : Z; arp_ready : bool;
  ipv4_protocols : list (option proto_ops);
  udp_handlers : list (option Z);
  net_proto_ready : bool;
  ping_ready : bool; ping_ident : Z; ping_seq : Z; ping_src : Z; ping_dev : option nat;
  ping_started_tick : Z; ping_result : net_ping_result;
  ticks : Z; hz : Z;
  up : upper }.

(** ** Updates *)

Definition set_devs (f : list netdev -> list netdev) (s : net) : net :=
  mkNet (f (devs s)) (default_netdev s) (arp_cache s) (arp_mac s) (arp_dev s) (arp_ip s) (arp_ready s)
    (ipv4_protocols s) (udp_handlers s) (net_proto_ready s) (ping_ready s) (ping_ident s) (ping_seq s)
    (ping_src s) (ping_dev s) (ping_started_tick s) (ping_result s) (ticks s) (hz s) (up s).
Definition set_default (d : option nat) (s : net) : net :=
  mkNet (devs s) d (arp_cache s) (arp_mac s) (arp_dev s) (arp_ip s) (arp_ready s)
    (ipv4_protocols s) (udp_handlers s) (net_proto_ready s) (ping_ready s) (ping_ident s) (ping_seq s)
    (ping_src s) (ping_dev s) (ping_started_tick s) (ping_result s) (ticks s) (hz s) (up s).
Definition set_arp_cache (c : list arp_cache_entry) (s : net) : net :=
  mkNet (devs s) (default_netdev s) c (arp_mac s) (arp_dev s) (arp_ip s) (arp_ready s)
    (ipv4_protocols s) (udp_handlers s) (net_proto_ready s) (ping_ready s) (ping_ident s) (ping_seq s)
    (ping_src s) (ping_dev s) (ping_started_tick s) (ping_result s) (ticks s) (hz s) (up s).
(** The pending ARP request: [arp_mac], [arp_dev], [arp_ip], [arp_ready]. *)
Definition set_arp (m : list Z) (d : option nat) (ip : Z) (r : bool) (s : net) : net :=
  mkNet (devs s) (default_netdev s) (arp_cache s) m d ip r
    (ipv4_protocols s) (udp_handlers s) (net_proto_ready s) (ping_ready s) (ping_ident s) (ping_seq s)
    (ping_src s) (ping_dev s) (ping_started_tick s) (ping_result s) (ticks s) (hz s) (up s).
Definition set_protocols (l : list (option proto_ops)) (s : net) : net :=
  mkNet (devs s) (default_netdev s) (arp_cache s) (arp_mac s) (arp_dev s) (arp_ip s) (arp_ready s)
    l (udp_handlers s) (net_proto_ready s) (ping_ready s) (ping_ident s) (ping_seq s)
    (ping_src s) (ping_dev s) (ping_started_tick s) (ping_result s) (ticks s) (hz s) (up s).
Definition set_handlers (l : list (option Z)) (s : net) : net :=
  mkNet (devs s) (default_netdev s) (arp_cache s) (arp_mac s) (arp_dev s) (arp_ip s) (arp_ready s)
    (ipv4_protocols s) l (net_proto_ready s) (ping_ready s) (ping_ident s) (ping_seq s)
    (ping_src s) (ping_dev s) (ping_started_tick s) (ping_result s) (ticks s) (hz s) (up s).
Definition set_proto_ready (s : net) : net :=
  mkNet (devs s) (default_netdev s) (arp_cache s) (arp_mac s) (arp_dev s) (arp_ip s) (arp_ready s)
    (ipv4_protocols s) (udp_handlers s) true (ping_ready s) (ping_ident s) (ping_seq s)
    (ping_src s) (ping_dev s) (ping_started_tick s) (ping_result s) (ticks s) (hz s) (up s).
(** The pending ping. *)
Definition set_ping (r : bool) (i q src : Z) (d : option nat) (t : Z) (res : net_ping_result) (s : net) : net :=
  mkNet (devs s) (default_netdev s) (arp_cache s) (arp_mac s) (arp_dev s) (arp_ip s) (arp_ready s)
    (ipv4_protocols s) (udp_handlers s) (net_proto_ready s) r i q src d t res (ticks s) (hz s) (up s).

(** The layers above IP. *)
Definition set_up (f : upper -> upper) (s : net) : net :=
  mkNet (devs s) (default_netdev s) (arp_cache s) (arp_mac s) (arp_dev s) (arp_ip s) (arp_ready s)
    (ipv4_protocols s) (udp_handlers s) (net_proto_ready s) (ping_ready s) (ping_ident s) (ping_seq s)
    (ping_src s) (ping_dev s) (ping_started_tick s) (ping_result s) (ticks s) (hz s) (f (up s)).

(** Counters and the receive queue of a device. *)
Definition set_tx (n : Z) (d : netdev) : netdev :=
  mkDev (name d) (mac d) (loopback d) (ipv4_addr d) (ipv4_gateway d) (ipv4_netmask d) (dns_server d) (mtu d)
    (dops d) (rx_queue d) (rx_len d) (rx_head d) (rx_tail d) (rx_count d) (poll_busy d)
    (rx_dropped d) n (rx_packets d) (dhcp_server d) (dhcp_configured d).
Definition set_busy (b : bool) (d : netdev) : netdev :=
  mkDev (name d) (mac d) (loopback d) (ipv4_addr d) (ipv4_gateway d) (ipv4_netmask d) (dns_server d) (mtu d)
    (dops d) (rx_queue d) (rx_len d) (rx_head d) (rx_tail d) (rx_count d) b
    (rx_dropped d) (tx_packets d) (rx_packets d) (dhcp_server d) (dhcp_configured d).
Definition set_queue (q : list (list Z)) (l : list Z) (h t c drop_ pk : Z) (d : netdev) : netdev :=
  mkDev (name d) (mac d) (loopback d) (ipv4_addr d) (ipv4_gateway d) (ipv4_netmask d) (dns_server d) (mtu d)
    (dops d) q l h t c (poll_busy d) drop_ (tx_packets d) pk (dhcp_server d) (dhcp_configured d).
Definition set_addrs (a g m dns : Z) (d : netdev) : netdev :=
  mkDev (name d) (mac d) (loopback d) a g m dns (mtu d)
    (dops d) (rx_queue d) (rx_len d) (rx_head d) (rx_tail d) (rx_count d) (poll_busy d)
    (rx_dropped d) (tx_packets d) (rx_packets d) (dhcp_server d) (dhcp_configured d).

Definition get_dev (d : nat) : M net netdev := fun s =>
  match devs s !! d with Some x => Ret x s | None => Fault end.
Definition upd_dev (d : nat) (f : netdev -> netdev) : M net unit := modify (set_devs (alter f d)).

(** ** The receive queue *)

(** [memcpy] to the front of a slot. *)
Definition copy_into (slot frame : list Z) : list Z := frame ++ drop (length frame) slot.

Definition enqueue (frame : list Z) (d : netdev) : netdev :=
  if rx_count d =? Z.of_nat NETDEV_RX_QUEUE_LEN then
    set_queue (rx_queue d) (rx_len d) (rx_head d) (rx_tail d) (rx_count d) (u64 (rx_dropped d + 1)) (rx_packets d) d
  else
    let idx := Z.to_nat (rx_tail d) in
    set_queue (alter (fun slot => copy_into slot frame) idx (rx_queue d))
      (<[idx := u16 (Z.of_nat (length frame))]> (rx_len d))
      (rx_head d) (u64 (rx_tail d + 1) `mod` Z.of_nat NETDEV_RX_QUEUE_LEN) (u64 (rx_count d + 1))
      (rx_dropped d) (u64 (rx_packets d + 1)) d.

Definition netdev_enqueue_rx (d : nat) (frame : list Z) : M net unit :=
  if (Z.of_nat (length frame) =? 0) || (NET_ETH_FRAME_MAX <? Z.of_nat (length frame)) then ret tt
  else upd_dev d (enqueue frame).

(** The part of [netdev_chr_read] under the lock: the result, the frame and the
    device afterwards. *)
Definition dequeue (len : Z) (d : netdev) : (Z * list Z) * netdev :=
  if rx_count d =? 0 then ((0, []), d)
  else
    let idx := Z.to_nat (rx_head d) in
    let frame_len := nth idx (rx_len d) 0 in
    if len <? frame_len then ((- EINVAL, []), d)
    else
      ((0, take (Z.to_nat frame_len) (nth idx (rx_queue d) [])),
       set_queue (rx_queue d) (<[idx := 0]> (rx_len d))
         (u64 (rx_head d + 1) `mod` Z.of_nat NETDEV_RX_QUEUE_LEN) (rx_tail d) (rx_count d - 1)
         (rx_dropped d) (rx_packets d) d).

(** ** Routing *)

Definition net_first_dev (s : net) : option nat := match devs s with [] => None | _ => Some O end.
Definition net_default_dev (s : net) : option nat :=
  match default_netdev s with Some d => Some d | None => net_first_dev s end.

(** [while (mask & 0x80000000) { n++; mask <<= 1; }]; a 32-bit mask takes at most 32
    rounds. *)
Fixpoint prefix_loop (fuel : nat) (mask n : Z) : Z :=
  match fuel with
  | O => n
  | S f => if has mask (2 ^ 31) then prefix_loop f (u32 (Z.shiftl mask 1)) (n + 1) else n
  end.
Definition netmask_prefix_len (mask : Z) : Z := prefix_loop 33 mask 0.

(** The loop over the devices: position, best device and its prefix length. *)
Fixpoint route_loop (l : list netdev) (i : nat) (dst_ip : Z) (best : option nat) (best_prefix : Z)
    : option nat :=
  match l with
  | [] => best
  | d :: l =>
      if (ipv4_addr d =? 0) || (ipv4_netmask d =? 0) then route_loop l (S i) dst_ip best best_prefix
      else if negb (Z.land dst_ip (ipv4_netmask d) =? Z.land (ipv4_addr d) (ipv4_netmask d))
      then route_loop l (S i) dst_ip best best_prefix
      else
        let prefix := netmask_prefix_len (ipv4_netmask d) in
        if (match best with None => true | Some _ => false end) || (best_prefix <? prefix)
        then route_loop l (S i) dst_ip (Some i) prefix
        else route_loop l (S i) dst_ip best best_prefix
  end.

(** The device and the next hop. *)
Definition net_route (s : net) (dst_ip : Z) : option (nat * Z) :=
  match route_loop (devs s) O dst_ip None 0 with
  | Some b => Some (b, dst_ip)
  | None =>
      match net_default_dev s with
      | None => None
      | Some f =>
          match devs s !! f with
          | None => None
          | Some d => Some (f, if negb (ipv4_gateway d =? 0) then ipv4_gateway d else dst_ip)
          end
      end
  end.

Definition dev_field (s : net) (g : netdev -> Z) : Z :=
  match net_default_dev s with
  | Some i => match devs s !! i with Some d => g d | None => 0 end
  | None => 0
  end.
Definition net_default_ipv4 (s : net) : Z := dev_field s ipv4_addr.
Definition net_default_gateway (s : net) : Z := dev_field s ipv4_gateway.
Definition netdev_count (s : net) : Z := Z.of_nat (length (devs s)).

Definition net_timeout_ticks (s : net) (timeout_ms : Z) : Z :=
  let t := u64 (u64 (timeout_ms * hz s) + 999) / 1000 in
  if negb (t =? 0) then t else 1.

(** ** The ARP cache *)

Definition same_dev (a : option nat) (d : nat) : bool :=
  match a with Some x => Nat.eqb x d | None => false end.

Fixpoint arp_lookup_loop (l : list arp_cache_entry) (now : Z) (d : nat) (ip : Z) : option (list Z) :=
  match l with
  | [] => None
  | e :: l =>
      if negb (same_dev (a_dev e) d) || negb (a_ip e =? ip) || (expires_tick e <=? now)
      then arp_lookup_loop l now d ip
      else Some (a_mac e)
  end.
Definition arp_cache_lookup (s : net) (d : nat) (ip : Z) : option (list Z) :=
  arp_lookup_loop (arp_cache s) (ticks s) d ip.

(** The slot to replace: the entry's own, or a free or expired one; 0 otherwise. *)
Fixpoint arp_victim (l : list arp_cache_entry) (i : nat) (now : Z) (d : nat) (ip : Z) : nat :=
  match l with
  | [] => O
  | e :: l =>
      if same_dev (a_dev e) d && (a_ip e =? ip) then i
      else if (match a_dev e with None => true | Some _ => false end) || (expires_tick e <=? now) then i
      else arp_victim l (S i) now d ip
  end.
Definition arp_cache_store (d : nat) (ip : Z) (m : list Z) : M net unit :=
  modify (fun s =>
    let now := ticks s in
    let ttl := net_timeout_ticks s ARP_CACHE_TTL_MS in
    set_arp_cache (<[arp_victim (arp_cache s) O now d ip := mkArp (Some d) ip m (u64 (now + ttl))]>
      (arp_cache s)) s).

Definition net_arp_cache_count (s : net) (d : nat) : Z :=
  Z.of_nat (length (List.filter (fun e => same_dev (a_dev e) d && (ticks s <? expires_tick e)) (arp_cache s))).

(** An ARP packet: [oper] at 6, [sha] at 8, [spa] at 14. *)
Definition net_arp_receive (d : nat) (arp : list Z) : M net unit :=
  if negb (ntohs (ld16 arp 6) =? 2) then ret tt
  else
    let sender_ip := ntohl (ld32 arp 14) in
    let sha := take 6 (drop 8 arp) in
    arp_cache_store d sender_ip sha ;;;
    let* s := gets (fun s => s) in
    when (same_dev (arp_dev s) d && (sender_ip =? arp_ip s))
      (modify (set_arp sha (arp_dev s) (arp_ip s) true)).

(** ** Registration of protocols and handlers *)

(** The two loops of [register_ops] over slots of protocols. *)
Definition slot_taken (ops : proto_ops) (o : option proto_ops) : bool :=
  match o with
  | None => false
  | Some c => (o_addr c =? o_addr ops) || (o_protocol c =? o_protocol ops)
  end.
Fixpoint first_free {A} (l : list (option A)) (i : nat) : option nat :=
  match l with
  | [] => None
  | None :: _ => Some i
  | Some _ :: l => first_free l (S i)
  end.
Definition register_ops (slots : list (option proto_ops)) (ops : proto_ops) : Z * list (option proto_ops) :=
  if existsb (slot_taken ops) slots then (- EEXIST, slots)
  else match first_free slots O with
       | Some i => (0, <[i := Some ops]> slots)
       | None => (- ENOMEM, slots)
       end.

(** The structures the kernel registers have a name and a receiver. *)
Definition net_ipv4_register_protocol (ops : proto_ops) : M net Z :=
  if o_protocol ops =? 0 then ret (- EINVAL)
  else
    let* slots := gets ipv4_protocols in
    let r := register_ops slots ops in
    modify (set_protocols r.2) ;;; ret r.1.

Definition net_udp_register_handler (h : Z) : M net Z :=
  let* slots := gets udp_handlers in
  if existsb (fun o => match o with Some x => x =? h | None => false end) slots then ret (- EEXIST)
  else match first_free slots O with
       | Some i => modify (set_handlers (<[i := Some h]> slots)) ;;; ret 0
       | None => ret (- ENOMEM)
       end.

Section net.
(** The driver of a device: sending a frame, and polling for received ones. *)
Variable driver_send : nat -> list Z -> M net Z.
Variable driver_poll : nat -> M net Z.
(** [ops->receive] of a UDP handler, of TCP, of the raw ICMP sockets. *)
Variable udp_handler : Z -> net_udp_dgram -> M net Z.
Variable tcp_ipv4_receive : (nat -> list Z -> M net unit) -> net_ipv4_rx_info -> M net Z.
Variable net_socket_raw_icmp_receive : net_ipv4_rx_info -> M net unit.

(** ** Sending *)

Section sending.
(** [net_receive_frame], for frames that come back at once. *)
Variable recv : nat -> list Z -> M net unit.

Definition loopback_send (d : nat) (frame : list Z) : M net Z :=
  let len := Z.of_nat (length frame) in
  if (len =? 0) || (NET_ETH_FRAME_MAX <? len) then ret (- EINVAL)
  else
    upd_dev d (fun x => set_tx (u64 (tx_packets x + 1)) x) ;;;
    recv d frame ;;;
    ret 0.

Definition dev_send (d : nat) (frame : list Z) : M net Z :=
  let* x := get_dev d in
  match dops x with loopback_ops => loopback_send d frame | driver_ops => driver_send d frame end.

(** The end of the three IPv4 senders: a frame to the device's own address is
    received instead of sent. *)
Definition transmit (d : nat) (dst_ip : Z) (frame : list Z) : M net Z :=
  let* x := get_dev d in
  if dst_ip =? ipv4_addr x then
    upd_dev d (fun x => set_tx (u64 (tx_packets x + 1)) x) ;;;
    recv d frame ;;;
    ret 0
  else dev_send d frame.

Definition net_send_ipv4_udp (dev : option nat) (dst_mac : list Z) (src_ip dst_ip src_port dst_port : Z)
    (payload : option (list Z)) : M net Z :=
  match dev, payload with
  | Some d, Some p =>
      if 1400 <? Z.of_nat (length p) then ret (- EINVAL)
      else
        let frame_len := sizeof_eth_hdr + (sizeof_ipv4_hdr + (sizeof_udp_hdr + Z.of_nat (length p))) in
        if NET_ETH_FRAME_MAX <? frame_len then ret (- EINVAL)
        else
          let* x := get_dev d in
          transmit d dst_ip (udp_frame dst_mac (mac x) src_ip dst_ip src_port dst_port p)
  | _, _ => ret (- EINVAL)
  end.

Definition net_send_ipv4_icmp (dev : option nat) (dst_mac : list Z) (src_ip dst_ip : Z)
    (payload : option (list Z)) : M net Z :=
  match dev, payload with
  | Some d, Some p =>
      if 1400 <? Z.of_nat (length p) then ret (- EINVAL)
      else
        let frame_len := sizeof_eth_hdr + (sizeof_ipv4_hdr + Z.of_nat (length p)) in
        if NET_ETH_FRAME_MAX <? frame_len then ret (- EINVAL)
        else
          let* x := get_dev d in
          transmit d dst_ip (icmp_frame dst_mac (mac x) src_ip dst_ip p)
  | _, _ => ret (- EINVAL)
  end.

(** A segment has an empty payload when there is none to send. *)
Definition net_send_ipv4_tcp_with_window_opts_impl (dev : option nat) (dst_mac : option (list Z))
    (dst_ip src_port dst_port seq ack flags window : Z) (o : tcp_opt) (payload : list Z) : M net Z :=
  match dev, dst_mac with
  | Some d, Some dm =>
      if 1400 <? Z.of_nat (length payload) then ret (- EINVAL)
      else
        let tcp_hlen := sizeof_tcp_hdr + tcp_opt_len flags o in
        let frame_len := sizeof_eth_hdr + (sizeof_ipv4_hdr + (tcp_hlen + Z.of_nat (length payload))) in
        if NET_ETH_FRAME_MAX <? frame_len then ret (- EINVAL)
        else
          let* x := get_dev d in
          transmit d dst_ip
            (tcp_frame dm (mac x) (ipv4_addr x) dst_ip src_port dst_port seq ack flags window o payload)
  | _, _ => ret (- EINVAL)
  end.

Definition net_send_ipv4_tcp_window_opts (dev : option nat) (dst_mac : option (list Z))
    (dst_ip src_port dst_port seq ack flags window : Z) (mss ws : bool) (wsc : Z) (sack : bool)
    (payload : list Z) : M net Z :=
  net_send_ipv4_tcp_with_window_opts_impl dev dst_mac dst_ip src_port dst_port seq ack flags window
    (mkTcpOpt mss ws wsc sack) payload.
Definition net_send_ipv4_tcp_window (dev : option nat) (dst_mac : option (list Z))
    (dst_ip src_port dst_port seq ack flags window : Z) (payload : list Z) : M net Z :=
  net_send_ipv4_tcp_with_window_opts_impl dev dst_mac dst_ip src_port dst_port seq ack flags window
    (mkTcpOpt (has flags TCP_SYN) false 0 false) payload.
Definition TCP_WINDOW : Z := 65535.
Definition net_send_ipv4_tcp (dev : option nat) (dst_mac : option (list Z))
    (dst_ip src_port dst_port seq ack flags : Z) (payload : list Z) : M net Z :=
  net_send_ipv4_tcp_with_window_opts_impl dev dst_mac dst_ip src_port dst_port seq ack flags TCP_WINDOW
    (mkTcpOpt (has flags TCP_SYN) false 0 false) payload.

Definition send_arp_request (d : nat) (target_ip : Z) : M net Z :=
  let* x := get_dev d in
  dev_send d (arp_request_frame (mac x) (ipv4_addr x) target_ip).

Definition send_icmp_echo_packet (d : nat) (dst_mac : list Z) (src_ip dst_ip type ident seq : Z)
    (payload : option (list Z)) : M net Z :=
  let* x := get_dev d in
  dev_send d (icmp_echo_frame dst_mac (mac x) src_ip dst_ip type ident seq payload).
Definition send_icmp_echo (d : nat) (dst_mac : list Z) (dst_ip ident seq : Z) : M net Z :=
  let* x := get_dev d in
  send_icmp_echo_packet d dst_mac (ipv4_addr x) dst_ip ICMP_ECHO_REQUEST ident seq None.

(** ** Receiving *)

(** Offsets in the IPv4 header: [proto] 9, [ttl] 8, [src] 12, [dst] 16. *)
Fixpoint deliver_loop (l : list (option Z)) (dgram : net_udp_dgram) (handled : bool) : M net bool :=
  match l with
  | [] => ret handled
  | None :: l => deliver_loop l dgram handled
  | Some h :: l =>
      let* r := udp_handler h dgram in
      deliver_loop l dgram (handled || (0 <? r))
  end.
Definition net_udp_deliver (dgram : net_udp_dgram) : M net Z :=
  let* hs := gets udp_handlers in
  let* handled := deliver_loop hs dgram false in
  ret (if handled then 0 else - ENOENT).

Definition udp_ipv4_receive (rx : net_ipv4_rx_info) : M net Z :=
  if rx_ip_len rx <? rx_ihl rx + sizeof_udp_hdr then ret (- EINVAL)
  else
    let udp := drop (Z.to_nat (rx_ihl rx)) (rx_ip rx) in
    let udp_len := ntohs (ld16 udp 4) in
    if (udp_len <? sizeof_udp_hdr) || (rx_ip_len rx <? rx_ihl rx + udp_len) then ret (- EINVAL)
    else
      net_udp_deliver (mkDgram rx (take (Z.to_nat (udp_len - sizeof_udp_hdr)) (drop 8 udp)) udp_len
        (ntohl (ld32 (rx_ip rx) 12)) (ntohl (ld32 (rx_ip rx) 16)) (ntohs (ld16 udp 0)) (ntohs (ld16 udp 2))).

(** [ident] at 4, [seq] at 6, the payload at 8. *)
Definition icmp_ipv4_receive (rx : net_ipv4_rx_info) : M net Z :=
  let d := rx_dev rx in
  let* x := get_dev d in
  let dst := ntohl (ld32 (rx_ip rx) 16) in
  let src := ntohl (ld32 (rx_ip rx) 12) in
  if negb (dst =? ipv4_addr x) then ret 0
  else if rx_ip_len rx <? rx_ihl rx + sizeof_icmp_echo then ret (- EINVAL)
  else
    let icmp := drop (Z.to_nat (rx_ihl rx)) (rx_ip rx) in
    let type := byte_at icmp 0 in
    let ident := ntohs (ld16 icmp 4) in
    let seq := ntohs (ld16 icmp 6) in
    net_socket_raw_icmp_receive rx ;;;
    if type =? ICMP_ECHO_REQUEST then
      let* x := get_dev d in
      send_icmp_echo_packet d (mac x) dst src ICMP_ECHO_REPLY ident seq (Some (take 32 (drop 8 icmp))) ;;;
      ret 1
    else
      let* s := gets (fun s => s) in
      if negb (same_dev (ping_dev s) d) then ret 0
      else
        when ((type =? ICMP_ECHO_REPLY) && (ident =? ping_ident s) && (seq =? ping_seq s) && (src =? ping_src s))
          (modify (set_ping true (ping_ident s) (ping_seq s) (ping_src s) (ping_dev s) (ping_started_tick s)
            (mkPing src seq (u16 (rx_ip_len rx - rx_ihl rx)) (byte_at (rx_ip rx) 8)
              (if negb (hz s =? 0) then u64 (u64 (ticks s - ping_started_tick s) * 1000) / hz s else 0)))) ;;;
        ret 1.

Fixpoint find_proto (l : list (option proto_ops)) (p : Z) : option receiver :=
  match l with
  | [] => None
  | None :: l => find_proto l p
  | Some o :: l => if negb (o_protocol o =? p) then find_proto l p else Some (o_receive o)
  end.
Definition net_ipv4_receive (rx : net_ipv4_rx_info) : M net Z :=
  let* ps := gets ipv4_protocols in
  match find_proto ps (byte_at (rx_ip rx) 9) with
  | None => ret (- ENOENT)
  | Some udp_receiver => udp_ipv4_receive rx
  | Some icmp_receiver => icmp_ipv4_receive rx
  | Some tcp_receiver => tcp_ipv4_receive recv rx
  end.

(** The checks on a received frame: the packet to hand on, if any. *)
Definition parse_ipv4 (d : nat) (frame : list Z) : option net_ipv4_rx_info :=
  let len := Z.of_nat (length frame) in
  if negb (ntohs (ld16 frame 12) =? ETH_P_IP) || (len <? sizeof_eth_hdr + sizeof_ipv4_hdr) then None
  else
    let ip := drop 14 frame in
    let ihl := Z.land (byte_at ip 0) 15 * 4 in
    if (ihl <? sizeof_ipv4_hdr) || (len <? sizeof_eth_hdr + ihl) then None
    else
      let ip_len := ntohs (ld16 ip 2) in
      if (ip_len <? ihl) || (len <? sizeof_eth_hdr + ip_len) then None
      else Some (mkRx d (take 6 (drop 6 frame)) ip ihl ip_len).

Definition receive_frame_body (d : nat) (frame : list Z) : M net unit :=
  let len := Z.of_nat (length frame) in
  if len <? sizeof_eth_hdr then ret tt
  else
    netdev_enqueue_rx d frame ;;;
    if (ntohs (ld16 frame 12) =? ETH_P_ARP) && (sizeof_eth_hdr + sizeof_arp_pkt <=? len)
    then net_arp_receive d (drop 14 frame)
    else match parse_ipv4 d frame with
         | None => ret tt
         | Some rx => net_ipv4_receive rx ;;; ret tt
         end.
End sending.

(** Each frame a device sends to itself is a nested call; [fuel] bounds the depth of
    the stack. *)
Fixpoint net_receive_frame (fuel : nat) (d : nat) (frame : list Z) : M net unit :=
  match fuel with
  | O => diverge
  | S f => receive_frame_body (net_receive_frame f) d frame
  end.

(** ** Polling and the blocking calls *)

(** [loopback_poll] does nothing. *)
Definition net_poll_dev (d : nat) : M net Z :=
  let* x := get_dev d in
  if poll_busy x then ret 0
  else
    upd_dev d (set_busy true) ;;;
    let* r := match dops x with loopback_ops => ret 0 | driver_ops => driver_poll d end in
    upd_dev d (set_busy false) ;;;
    ret r.

Fixpoint poll_loop (n i : nat) : M net unit :=
  match n with O => ret tt | S n => net_poll_dev i ;;; poll_loop n (S i) end.
Definition net_poll_all : M net unit :=
  let* n := gets (fun s => length (devs s)) in poll_loop n O.

(** [async_io_drain] and the passing of time between two looks at the clock. *)
Variable drain : M net unit.

Fixpoint net_poll_until (fuel : nat) (dev : option nat) (until_tick : Z) (flag : net -> bool) : M net unit :=
  match fuel with
  | O => diverge
  | S f =>
      let* go := gets (fun s => negb (flag s) && (ticks s <? until_tick)) in
      if negb go then ret tt
      else
        drain ;;;
        match dev with Some d => net_poll_dev d ;;; ret tt | None => net_poll_all end ;;;
        net_poll_until f dev until_tick flag
  end.

(** The result and the address that was found. *)
Definition net_arp_resolve (fuel : nat) (d : nat) (target_ip timeout_ms : Z) : M net (Z * list Z) :=
  let* x := get_dev d in
  if loopback x || (target_ip =? ipv4_addr x) then ret (0, mac x)
  else
    let* hit := gets (fun s => arp_cache_lookup s d target_ip) in
    match hit with
    | Some m => ret (0, m)
    | None =>
        modify (fun s => set_arp (arp_mac s) (Some d) target_ip false s) ;;;
        let* r := send_arp_request (net_receive_frame fuel) d target_ip in
        if negb (r =? 0) then ret (r, [])
        else
          let* s := gets (fun s => s) in
          net_poll_until fuel (Some d) (u64 (ticks s + net_timeout_ticks s timeout_ms)) arp_ready ;;;
          let* s := gets (fun s => s) in
          if negb (arp_ready s) then ret (- ENOENT, [])
          else
            arp_cache_store d target_ip (arp_mac s) ;;;
            ret (0, arp_mac s)
    end.

Definition no_ping : net_ping_result := mkPing 0 0 0 0 0.

Definition net_ping_echo_dev (fuel : nat) (dev : option nat) (dst_ip ident seq timeout_ms : Z)
    : M net (Z * net_ping_result) :=
  match dev with
  | None => ret (- ENOENT, no_ping)
  | Some d =>
      let* x := get_dev d in
      let next_hop :=
        if negb (Z.land dst_ip (ipv4_netmask x) =? Z.land (ipv4_addr x) (ipv4_netmask x))
        then ipv4_gateway x else dst_ip in
      let* r := net_arp_resolve fuel d next_hop timeout_ms in
      if negb (r.1 =? 0) then ret (r.1, no_ping)
      else
        modify (fun s => set_ping false ident seq dst_ip (Some d) (ticks s) no_ping s) ;;;
        send_icmp_echo (net_receive_frame fuel) d r.2 dst_ip ident seq ;;;
        let* s := gets (fun s => s) in
        net_poll_until fuel (Some d) (u64 (ticks s + net_timeout_ticks s timeout_ms)) ping_ready ;;;
        let* s := gets (fun s => s) in
        if negb (ping_ready s) then ret (- ENOENT, no_ping) else ret (0, ping_result s)
  end.
Definition net_ping_echo (fuel : nat) (dst_ip ident seq timeout_ms : Z) : M net (Z * net_ping_result) :=
  let* s := gets (fun s => s) in
  match net_route s dst_ip with
  | None => ret (- ENOENT, no_ping)
  | Some (d, _) => net_ping_echo_dev fuel (Some d) dst_ip ident seq timeout_ms
  end.
Definition net_ping (fuel : nat) (dst_ip ident seq timeout_ms : Z) : M net Z :=
  let* r := net_ping_echo fuel dst_ip ident seq timeout_ms in ret r.1.

(** ** The raw device file *)

(** The result and the frame that was read ([*done] is its length). *)
Definition netdev_chr_read (d : nat) (buf : bool) (len : Z) : M net (Z * list Z) :=
  if negb buf then ret (- EINVAL, [])
  else
    net_poll_dev d ;;;
    let* x := get_dev d in
    let r := dequeue len x in
    upd_dev d (fun _ => r.2) ;;;
    ret r.1.

(** The result and [*done]. *)
Definition netdev_chr_write (fuel : nat) (d : nat) (buf : option (list Z)) : M net (Z * Z) :=
  match buf with
  | None => ret (- EINVAL, 0)
  | Some b =>
      let len := Z.of_nat (length b) in
      if (len =? 0) || (NET_ETH_FRAME_MAX <? len) then ret (- EINVAL, 0)
      else
        let* r := dev_send (net_receive_frame fuel) d b in
        if negb (r =? 0) then ret (r, 0)
        else
          upd_dev d (fun x => set_tx (u64 (tx_packets x + 1)) x) ;;;
          ret (0, len)
  end.

(** ** Registration of a device *)

(** [netdev_publish] makes the device files; [net_dhcp_configure_dev] asks for an
    address. *)
Variable netdev_publish : netdev -> M net Z.
Variable net_dhcp_configure_dev : nat -> M net Z.

(** The copy a registration makes: empty queue, no traffic. *)
Definition fresh_dev (src : netdev) : netdev :=
  mkDev (name src) (mac src) (loopback src) (ipv4_addr src) (ipv4_gateway src) (ipv4_netmask src)
    (dns_server src) (if mtu src =? 0 then NET_MTU else mtu src) (dops src)
    (replicate NETDEV_RX_QUEUE_LEN (replicate (Z.to_nat NET_ETH_FRAME_MAX) 0))
    (replicate NETDEV_RX_QUEUE_LEN 0) 0 0 0 (poll_busy src) 0 0 0 (dhcp_server src) (dhcp_configured src).

Definition or_default (v d : Z) : Z := if v =? 0 then d else v.

(** [granted]: whether the device and its queue could be allocated. *)
Definition netdev_register (granted1 granted2 : bool) (src : netdev) : M net Z :=
  match name src with
  | [] => ret (- EINVAL)
  | _ :: _ =>
      if negb granted1 || negb granted2 then ret (- ENOMEM)
      else
        let dev := fresh_dev src in
        let* l := gets devs in
        if existsb (fun c => bool_decide (name c = name dev)) l then ret (- EEXIST)
        else
          let* pr := netdev_publish dev in
          if negb (pr =? 0) then ret pr
          else
            let* s := gets (fun s => s) in
            let i := length (devs s) in
            modify (set_devs (fun l => l ++ [dev])) ;;;
            when ((match devs s, default_netdev s with
                   | [], _ => true | _, None => true | _, Some _ => false end) && negb (loopback dev))
              (modify (set_default (Some i))) ;;;
            if loopback dev then ret 0
            else
              let* r := net_dhcp_configure_dev i in
              when (negb (r =? 0))
                (upd_dev i (fun x => set_addrs (or_default (ipv4_addr x) (net_ipv4 10 0 2 15))
                   (or_default (ipv4_gateway x) (net_ipv4 10 0 2 2))
                   (or_default (ipv4_netmask x) (net_ipv4 255 255 255 0))
                   (or_default (dns_server x) (net_ipv4 10 0 2 3)) x)) ;;;
              ret 0
  end.
End net.

Definition net_udp_resolve_remote_ip (dev : option netdev) (requested_ip requested_port : Z) : Z :=
  match dev with
  | Some x =>
      if (requested_port =? 53) && negb (dns_server x =? 0) && negb (dns_server x =? requested_ip)
      then dns_server x else requested_ip
  | None => requested_ip
  end.
Definition net_udp_peer_matches (dev : option netdev) (requested_ip requested_port src_ip src_port : Z) : bool :=
  ((requested_port =? 53) && (src_port =? 53) &&
   ((src_ip =? requested_ip) ||
    match dev with Some x => negb (dns_server x =? 0) && (src_ip =? dns_server x) | None => false end)) ||
  ((requested_ip =? src_ip) && (requested_port =? src_port)).

(** ** Initialisation *)

(** The static tables of udp.c, icmp.c and tcp.c, and the handlers of dhcp.c and
    dns.c, by address. *)
Definition udp_ipv4_protocol : proto_ops := mkProto 1 IP_PROTO_UDP udp_receiver.
Definition icmp_ipv4_protocol : proto_ops := mkProto 2 IP_PROTO_ICMP icmp_receiver.
Definition tcp_ipv4_protocol : proto_ops := mkProto 3 IP_PROTO_TCP tcp_receiver.
Definition dhcp_udp_handler : Z := 4.
Definition dns_udp_handler : Z := 5.

Definition net_udp_init : M net Z := net_ipv4_register_protocol udp_ipv4_protocol.
Definition net_icmp_init : M net Z := net_ipv4_register_protocol icmp_ipv4_protocol.
Definition net_tcp_init : M net Z := net_ipv4_register_protocol tcp_ipv4_protocol.
Definition net_dhcp_init : M net Z := net_udp_register_handler dhcp_udp_handler.
Definition net_dns_init : M net Z := net_udp_register_handler dns_udp_handler.

(** [if (r != 0 && r != -EEXIST) return r;] *)
Definition or_return (m : M net Z) (k : M net Z) : M net Z :=
  let* r := m in
  if negb (r =? 0) && negb (r =? - EEXIST) then ret r else k.

Definition net_proto_init : M net Z :=
  let* done := gets net_proto_ready in
  if done then ret 0
  else or_return net_udp_init (or_return net_dhcp_init (or_return net_dns_init
    (or_return net_icmp_init (or_return net_tcp_init (modify set_proto_ready ;;; ret 0))))).
