(* ===== verification/Tcp.v ===== *)
(** * TCP (kernel/src/net/proto/tcp.c)

    Connections with their receive rings, listeners, the receiving state machine and
    the calls sockets make.  Everything the code does to a connection goes through its
    address, so a nested reception (a segment a device sends to itself) sees and makes
    the same changes.  Handlers of listeners, signals, the scheduler's wait and the
    resolver are arguments. *)

From stdpp Require Import base gmap list.
From Stdlib Require Import ZArith Lia.
From S2P Require Import Prelude Wire NetState Net.

Local Open Scope Z_scope.

Definition EINTR : Z := 4.
Definition EIO : Z := 5.
Definition EPIPE : Z := 32.
Definition ECONNRESET : Z := 104.
Definition ETIMEDOUT : Z := 110.

Definition TCP_FIN : Z := 1.
Definition TCP_RST : Z := 4.
Definition TCP_PSH : Z := 8.
Definition TCP_ACK : Z := 16.
Definition TCP_PASSIVE_RESPONSE_CAP : Z := 32768.
Definition TCP_ACTIVE_RX_CAP : Z := 4194304.
Definition TCP_RCVBUF_MIN : Z := 65536.
Definition TCP_RCVBUF_MAX : Z := 4194304.
Definition TCP_DELAYED_ACK_SEGMENTS : Z := 2.
Definition TCP_SEGMENT_DATA_MAX : Z := 1460.

(** ** Heap objects *)

Definition upmod (f : upper -> upper) : M net unit := modify (set_up f).

(** The address of a new object; NULL when the request is not granted. *)
Definition kalloc : M net Z := fun s =>
  let a := next_addr (up s) in
  Ret (if grants (up s) a then a else 0) (set_up (set_next_addr (a + 1)) s).

Definition kzalloc_buf (size : Z) : M net Z :=
  let* a := kalloc in
  when (negb (a =? 0)) (upmod (fun u => set_bufs (<[a := mkBuf size ∅]> (bufs u)) u)) ;;;
  ret a.
Definition get_buf (a : Z) : M net nbuf := fun s =>
  match bufs (up s) !! a with Some b => Ret b s | None => Fault end.
Definition kfree_buf (a : Z) : M net unit :=
  let* _ := get_buf a in upmod (fun u => set_bufs (delete a (bufs u)) u).

(** [memcpy] out of and into a buffer. *)
Definition buf_byte (b : nbuf) (i : Z) : Z := default 0 (b_bytes b !! i).
Definition read_bytes (b : nbuf) (off : Z) (n : nat) : list Z :=
  map (fun i => buf_byte b (off + Z.of_nat i)) (seq 0 n).
Fixpoint write_bytes (m : gmap Z Z) (off : Z) (l : list Z) : gmap Z Z :=
  match l with [] => m | x :: l => write_bytes (<[off := x]> m) (off + 1) l end.

Definition buf_read (a off len : Z) : M net (list Z) :=
  let* b := get_buf a in
  if (off <? 0) || (b_size b <? off + len) then fault else ret (read_bytes b off (Z.to_nat len)).
Definition buf_write (a off : Z) (l : list Z) : M net unit :=
  let* b := get_buf a in
  if (off <? 0) || (b_size b <? off + Z.of_nat (length l)) then fault
  else upmod (fun u => set_bufs (<[a := mkBuf (b_size b) (write_bytes (b_bytes b) off l)]> (bufs u)) u).

Definition get_conn (a : Z) : M net tcp_conn := fun s =>
  match conns (up s) !! a with Some c => Ret c s | None => Fault end.
Definition upd_conn (a : Z) (f : tcp_conn -> tcp_conn) : M net unit :=
  let* c := get_conn a in upmod (fun u => set_conns (<[a := f c]> (conns u)) u).
Definition kzalloc_conn (c : tcp_conn) : M net Z :=
  let* a := kalloc in
  when (negb (a =? 0)) (upmod (fun u => set_conns (<[a := c]> (conns u)) u)) ;;;
  ret a.
Definition kfree_conn (a : Z) : M net unit :=
  let* _ := get_conn a in upmod (fun u => set_conns (delete a (conns u)) u).
(** [if (conn->rx_buf) kfree(conn->rx_buf); kfree(conn);] *)
Definition free_conn (a : Z) : M net unit :=
  let* c := get_conn a in
  (if negb (rx_buf c =? 0) then kfree_buf (rx_buf c) else ret tt) ;;;
  kfree_conn a.

(** [sched_io_wake_all]: waiters compare the sequence number. *)
Definition sched_io_wake_all : M net unit := upmod (fun u => set_io_seq (u32 (io_seq u + 1)) u).

(** ** The receive ring and the window *)

Definition tcp_recv_window_full (c : tcp_conn) : Z :=
  if (rx_buf c =? 0) || (c_rx_cap c <=? c_rx_len c) then 0 else c_rx_cap c - c_rx_len c.

Definition tcp_recv_window (c : tcp_conn) : Z :=
  let free := tcp_recv_window_full c in
  let free := if peer_wscale_seen c && negb (rcv_wscale c =? 0) then Z.shiftr free (rcv_wscale c) else free in
  u16 (if 65535 <? free then 65535 else free).

(** A remainder by zero stops the processor. *)
Definition tcp_rx_tail (c : tcp_conn) : M net Z :=
  if c_rx_cap c =? 0 then fault else ret (u64 (c_rx_head c + c_rx_len c) `mod` c_rx_cap c).

Definition tcp_rx_push (a : Z) (payload : list Z) : M net unit :=
  let payload_len := Z.of_nat (length payload) in
  let* c := get_conn a in
  let* tail := tcp_rx_tail c in
  let first := c_rx_cap c - tail in
  let first := if payload_len <? first then payload_len else first in
  buf_write (rx_buf c) tail (take (Z.to_nat first) payload) ;;;
  when (first <? payload_len) (buf_write (rx_buf c) 0 (drop (Z.to_nat first) payload)) ;;;
  upd_conn a (fun c => set_ring_pos (u64 (c_rx_len c + payload_len)) (c_rx_head c) c).

(** The bytes that are copied to the caller's buffer. *)
Definition tcp_rx_pop (a len : Z) : M net (list Z) :=
  let* c := get_conn a in
  let first := u64 (c_rx_cap c - c_rx_head c) in
  let first := if len <? first then len else first in
  let* x := buf_read (rx_buf c) (c_rx_head c) first in
  let* y := if first <? len then buf_read (rx_buf c) 0 (len - first) else ret [] in
  if c_rx_cap c =? 0 then fault
  else
    upd_conn a (fun c => set_ring_pos (u64 (c_rx_len c - len)) (u64 (c_rx_head c + len) `mod` c_rx_cap c) c) ;;;
    ret (x ++ y).

(** [while (shift < 14 && (cap >> shift) > 65535) shift++] *)
Fixpoint wscale_loop (fuel : nat) (shift cap : Z) : Z :=
  match fuel with
  | O => shift
  | S f => if (shift <? 14) && (65535 <? Z.shiftr cap shift) then wscale_loop f (shift + 1) cap else shift
  end.
Definition tcp_wscale_for_cap (cap : Z) : Z := wscale_loop 15 0 cap.

(** ** Options of a SYN *)

(** A byte of the packet; reading past its end is a fault. *)
Definition rd_opt (opt : list Z) (i : nat) : M net Z :=
  match opt !! i with Some b => ret b | None => fault end.

(** [left] decreases in every round. *)
Fixpoint syn_options_loop (fuel : nat) (a : Z) (opt : list Z) (left : Z) : M net unit :=
  match fuel with
  | O => diverge
  | S f =>
      if left =? 0 then ret tt
      else
        let* kind := rd_opt opt 0 in
        if kind =? 0 then ret tt
        else if kind =? 1 then syn_options_loop f a (drop 1 opt) (left - 1)
        else if left <? 2 then ret tt
        else
          let* olen := rd_opt opt 1 in
          if (olen <? 2) || (left <? olen) then ret tt
          else
            (if (kind =? 3) && (olen =? 3) then
               let* ws := rd_opt opt 2 in
               upd_conn a (set_snd_wscale (if 14 <? ws then 14 else ws) true)
             else if (kind =? 4) && (olen =? 2) then upd_conn a (set_sack_permitted true)
             else ret tt) ;;;
            syn_options_loop f a (drop (Z.to_nat olen) opt) (left - olen)
  end.
(** [tcp]: the packet from the TCP header on. *)
Definition tcp_parse_syn_options (a : Z) (tcp : list Z) (tcp_hlen : Z) : M net unit :=
  if tcp_hlen <=? sizeof_tcp_hdr then ret tt
  else
    let left := tcp_hlen - sizeof_tcp_hdr in
    syn_options_loop (S (Z.to_nat left)) a (drop 20 tcp) left.

(** ** Growing the ring *)

Fixpoint autotune_loop (fuel : nat) (new_cap incoming_len len : Z) : M net Z :=
  match fuel with
  | O => diverge
  | S f =>
      if (new_cap <? TCP_RCVBUF_MAX) && (u64 (new_cap - len) <? incoming_len) then
        let n := u64 (new_cap * 2) in
        autotune_loop f (if TCP_RCVBUF_MAX <? n then TCP_RCVBUF_MAX else n) incoming_len len
      else ret new_cap
  end.

Definition tcp_rx_autotune (a incoming_len : Z) : M net Z :=
  let* c := get_conn a in
  if rx_buf c =? 0 then ret (- EINVAL)
  else if incoming_len <=? tcp_recv_window_full c then ret 0
  else if TCP_RCVBUF_MAX <=? c_rx_cap c then ret 0
  else
    let* new_cap := autotune_loop 64 (if negb (c_rx_cap c =? 0) then c_rx_cap c else TCP_RCVBUF_MIN)
                      incoming_len (c_rx_len c) in
    if new_cap <=? c_rx_cap c then ret 0
    else
      let* new_buf := kzalloc_buf new_cap in
      if new_buf =? 0 then ret (- ENOMEM)
      else
        let old_len := c_rx_len c in
        when (negb (old_len =? 0))
          (let* bytes := tcp_rx_pop a old_len in buf_write new_buf 0 bytes) ;;;
        kfree_buf (rx_buf c) ;;;
        upd_conn a (set_ring new_buf new_cap old_len 0) ;;;
        upd_conn a (fun c => set_rcv_wscale (tcp_wscale_for_cap (c_rx_cap c)) c) ;;;
        ret 0.

(** ** Tables of connections and listeners *)

Definition tcp_conn_add (a : Z) : M net unit :=
  upmod (fun u => set_tcp_conns (a :: tcp_conns u) u).

Fixpoint conn_remove_loop (l : list Z) (a : Z) : M net (list Z) :=
  match l with
  | [] => ret []
  | x :: l =>
      let* _ := get_conn x in
      if x =? a then ret l else let* r := conn_remove_loop l a in ret (x :: r)
  end.
Definition tcp_conn_remove (a : Z) : M net unit :=
  let* l := gets (fun s => tcp_conns (up s)) in
  let* l' := conn_remove_loop l a in
  upmod (set_tcp_conns l').

(** [src] of the IPv4 header is at 12; the ports of the TCP header at 0 and 2. *)
Fixpoint conn_find_loop (l : list Z) (d : nat) (rip rport lport : Z) : M net Z :=
  match l with
  | [] => ret 0
  | x :: l =>
      let* c := get_conn x in
      if Nat.eqb (c_dev c) d && (remote_ip c =? rip) && (remote_port c =? rport) && (local_port c =? lport)
      then ret x else conn_find_loop l d rip rport lport
  end.
Definition tcp_conn_find (d : nat) (ip tcp : list Z) : M net Z :=
  let* l := gets (fun s => tcp_conns (up s)) in
  conn_find_loop l d (ntohl (ld32 ip 12)) (ntohs (ld16 tcp 0)) (ntohs (ld16 tcp 2)).

Fixpoint listener_find_loop (l : list tcp_listener) (ip port : Z) (wildcard : option tcp_listener)
    : option tcp_listener :=
  match l with
  | [] => wildcard
  | x :: l =>
      if negb (l_port x =? port) then listener_find_loop l ip port wildcard
      else if l_local_ip x =? ip then Some x
      else listener_find_loop l ip port (if l_local_ip x =? 0 then Some x else wildcard)
  end.
Definition tcp_listener_find (l : list tcp_listener) (ip port : Z) : option tcp_listener :=
  listener_find_loop l ip port None.

Fixpoint tcp_listener_conflicts (l : list tcp_listener) (ip port : Z) : bool :=
  match l with
  | [] => false
  | x :: l =>
      if negb (l_port x =? port) then tcp_listener_conflicts l ip port
      else if (l_local_ip x =? 0) || (ip =? 0) || (l_local_ip x =? ip) then true
      else tcp_listener_conflicts l ip port
  end.
Definition tcp_listener_add (ip port handler accept_handler ctx : Z) : M net Z :=
  if (port =? 0) || ((handler =? 0) && (accept_handler =? 0)) then ret (- EINVAL)
  else
    let* l := gets (fun s => tcp_listeners (up s)) in
    if tcp_listener_conflicts l ip port then ret (- EEXIST)
    else
      let* a := kalloc in
      if a =? 0 then ret (- ENOMEM)
      else
        upmod (fun u => set_tcp_listeners (mkListener ip port handler accept_handler ctx :: tcp_listeners u) u) ;;;
        ret 0.

Definition net_tcp_listen (port handler ctx : Z) : M net Z := tcp_listener_add 0 port handler 0 ctx.
Definition net_tcp_listen_addr (ip port handler ctx : Z) : M net Z := tcp_listener_add ip port handler 0 ctx.
Definition net_tcp_listen_accept (port handler ctx : Z) : M net Z := tcp_listener_add 0 port 0 handler ctx.
Definition net_tcp_listen_accept_addr (ip port handler ctx : Z) : M net Z := tcp_listener_add ip port 0 handler ctx.

(** ** Queries; a null connection has no property. *)

Definition conn_flag (g : tcp_conn -> bool) (a : Z) : M net bool :=
  if a =? 0 then ret false else let* c := get_conn a in ret (g c).
Definition net_tcp_conn_is_read_shutdown : Z -> M net bool := conn_flag read_shutdown.
Definition net_tcp_conn_is_write_shutdown : Z -> M net bool := conn_flag write_shutdown.
Definition net_tcp_conn_has_pending_rx : Z -> M net bool := conn_flag (fun c => 0 <? c_rx_len c).
Definition net_tcp_conn_is_closed : Z -> M net bool := conn_flag closed.
Definition net_tcp_conn_has_error : Z -> M net bool := conn_flag c_error.
Definition net_tcp_conn_local_port (a : Z) : M net Z :=
  if a =? 0 then ret 0 else let* c := get_conn a in ret (local_port c).
Definition net_tcp_conn_error_code (a : Z) : M net Z :=
  if a =? 0 then ret 0
  else
    let* c := get_conn a in
    if negb (c_error c) then ret 0
    else if error_reported c then ret 0
    else upd_conn a (set_error_reported true) ;;; ret ECONNRESET.
Definition net_tcp_conn_shutdown_read (a : Z) : M net Z :=
  if a =? 0 then ret (- EINVAL)
  else upd_conn a (set_read_shutdown true) ;;; sched_io_wake_all ;;; ret 0.

Section tcp.
Variable driver_send : nat -> list Z -> M net Z.
(** [conn->handler] and [conn->accept_handler] by address: the device, the peer, the
    request, the response buffer with its size, the context; the result with the
    length of the response. *)
Variable listen_handler : Z -> nat -> Z -> Z -> list Z -> Z -> Z -> Z -> M net (Z * Z).
Variable accept_handler : Z -> nat -> Z -> Z -> Z -> Z -> M net Z.

(** ** Sending *)

Section sending.
Variable recv : nat -> list Z -> M net unit.

(** A segment of a connection with its window. *)
Definition conn_send (c : tcp_conn) (seq_ flags : Z) (payload : list Z) : M net Z :=
  net_send_ipv4_tcp_window driver_send recv (Some (c_dev c)) (Some (peer_mac c)) (remote_ip c)
    (local_port c) (remote_port c) seq_ (c_ack c) flags (tcp_recv_window c) payload.

Definition tcp_send_conn_packet (a flags : Z) (payload : list Z) : M net Z :=
  let* c := get_conn a in conn_send c (c_seq c) flags payload.
Definition tcp_send_ack (a : Z) : M net Z := tcp_send_conn_packet a TCP_ACK [].

(** [fin_seq = conn->seq; conn->seq++;] and the FIN: the result and [fin_seq]. *)
Definition send_fin (a : Z) : M net (Z * Z) :=
  let* c := get_conn a in
  let fin_seq := c_seq c in
  upd_conn a (set_seq (u32 (fin_seq + 1))) ;;;
  let* c := get_conn a in
  let* r := conn_send c fin_seq (Z.lor TCP_FIN TCP_ACK) [] in
  ret (r, fin_seq).

Definition net_tcp_conn_shutdown_write (a : Z) : M net Z :=
  if a =? 0 then ret (- EINVAL)
  else
    let* c := get_conn a in
    if write_shutdown c then ret 0
    else
      let* ok :=
        if connected c && negb (closed c) && negb (c_error c) then
          let* r := send_fin a in
          if negb (r.1 =? 0) then upd_conn a (set_seq r.2) ;;; ret false else ret true
        else ret true in
      if negb ok then ret (- EIO)
      else upd_conn a (set_write_shutdown true) ;;; sched_io_wake_all ;;; ret 0.

Definition tcp_send_reset (d : nat) (src_mac ip tcp : list Z) : M net Z :=
  let flags_in := byte_at tcp 13 in
  let seq_ := if has flags_in TCP_ACK then ntohl (ld32 tcp 8) else 0 in
  let ack := if has flags_in TCP_ACK then 0 else u32 (ntohl (ld32 tcp 4) + 1) in
  let flags := if has flags_in TCP_ACK then TCP_RST else Z.lor TCP_RST TCP_ACK in
  net_send_ipv4_tcp driver_send recv (Some d) (Some src_mac) (ntohl (ld32 ip 12)) (ntohs (ld16 tcp 2))
    (ntohs (ld16 tcp 0)) seq_ ack flags [].

(** Chunks of 1400 bytes. *)
Fixpoint send_payload_loop (fuel : nat) (a : Z) (p : list Z) : M net Z :=
  match p with
  | [] => ret 0
  | _ :: _ =>
      match fuel with
      | O => diverge
      | S f =>
          let len := Z.of_nat (length p) in
          let chunk := if 1400 <? len then 1400 else len in
          let* c := get_conn a in
          let seq_ := c_seq c in
          upd_conn a (set_seq (u32 (seq_ + chunk))) ;;;
          let* c := get_conn a in
          let* r := conn_send c seq_ (Z.lor TCP_PSH TCP_ACK) (take (Z.to_nat chunk) p) in
          if negb (r =? 0) then upd_conn a (set_seq seq_) ;;; ret r
          else send_payload_loop f a (drop (Z.to_nat chunk) p)
      end
  end.
Definition tcp_send_payload (a : Z) (payload : list Z) : M net Z :=
  send_payload_loop (length payload) a payload.

(** ** Receiving *)

Definition tcp_close_passive (a : Z) : M net unit := tcp_conn_remove a ;;; free_conn a.

(** The header fields: [seq] at 4, [ack] at 8, [data_off] at 12, [flags] at 13. *)
Definition tcp_data_off (tcp : list Z) : Z := Z.shiftr (byte_at tcp 12) 4 * 4.

Definition tcp_handle_listen_syn (d : nat) (src_mac ip tcp : list Z) (listener : tcp_listener) : M net unit :=
  let* a := kzalloc_conn zero_conn in
  if a =? 0 then tcp_send_reset d src_mac ip tcp ;;; ret tt
  else
    let* now := gets ticks in
    upd_conn a (fun _ => mkConn d (ntohl (ld32 ip 12)) (ntohs (ld16 tcp 0)) (ntohs (ld16 tcp 2))
      (u32 (1280922368 + Z.land now 65535)) (u32 (ntohl (ld32 tcp 4) + 1)) src_mac
      0 0 0 0 0 0 false false 0 0 0 0 0 false false false false false false false false) ;;;
    tcp_parse_syn_options a tcp (tcp_data_off tcp) ;;;
    upd_conn a (set_listen (l_handler listener) (l_accept_handler listener) (l_ctx listener) true) ;;;
    let* ok :=
      if negb (l_accept_handler listener =? 0) then
        upd_conn a (fun c => set_rcv_wscale (tcp_wscale_for_cap TCP_ACTIVE_RX_CAP)
                               (set_ring 0 TCP_ACTIVE_RX_CAP 0 0 c)) ;;;
        let* b := kzalloc_buf TCP_ACTIVE_RX_CAP in
        if b =? 0 then
          kfree_conn a ;;; tcp_send_reset d src_mac ip tcp ;;; ret false
        else upd_conn a (set_ring b TCP_ACTIVE_RX_CAP 0 0) ;;; ret true
      else ret true in
    if negb ok then ret tt
    else
      upd_conn a (fun c => set_rcv_wscale (tcp_wscale_for_cap (c_rx_cap c)) c) ;;;
      upd_conn a (set_heap_allocated true) ;;;
      tcp_conn_add a ;;;
      let* c := get_conn a in
      net_send_ipv4_tcp_window_opts driver_send recv (Some d) (Some (peer_mac c)) (remote_ip c)
        (local_port c) (remote_port c) (c_seq c) (c_ack c) (Z.lor TCP_SYN TCP_ACK) (tcp_recv_window c)
        true true (rcv_wscale c) true [] ;;;
      ret tt.

Definition tcp_handle_passive_payload (a : Z) (payload : list Z) : M net unit :=
  let* c := get_conn a in
  if c_handler c =? 0 then ret tt
  else
    let* response := kzalloc_buf TCP_PASSIVE_RESPONSE_CAP in
    if response =? 0 then ret tt
    else
      let* r := listen_handler (c_handler c) (c_dev c) (remote_ip c) (remote_port c) payload response
                  TCP_PASSIVE_RESPONSE_CAP (handler_ctx c) in
      let response_len := if negb (r.1 =? 0) then 0 else r.2 in
      let response_len := if TCP_PASSIVE_RESPONSE_CAP <? response_len then TCP_PASSIVE_RESPONSE_CAP
                          else response_len in
      (if negb (response_len =? 0) then
         let* bytes := buf_read response 0 response_len in
         tcp_send_payload a bytes ;;; ret tt
       else ret tt) ;;;
      kfree_buf response ;;;
      let* f := send_fin a in
      if negb (f.1 =? 0) then upd_conn a (set_seq f.2)
      else upd_conn a (set_closed true) ;;; sched_io_wake_all.

(** [if (flags & TCP_FIN)] at the end of the established state. *)
Definition receive_fin (a flags : Z) : M net unit :=
  if has flags TCP_FIN then
    upd_conn a (fun c => set_ack (u32 (c_ack c + 1)) c) ;;;
    tcp_send_ack a ;;;
    upd_conn a (set_closed true) ;;;
    sched_io_wake_all
  else ret tt.

(** [if (payload_len)] in the established state. *)
Definition receive_payload (a : Z) (payload : list Z) : M net unit :=
  let payload_len := Z.of_nat (length payload) in
  if payload_len =? 0 then ret tt
  else
    tcp_rx_autotune a payload_len ;;;
    let* c := get_conn a in
    let free := tcp_recv_window_full c in
    if payload_len <=? free then
      tcp_rx_push a payload ;;;
      upd_conn a (fun c => set_ack (u32 (c_ack c + payload_len)) c) ;;;
      upd_conn a (fun c => set_rx_since_ack (u32 (rx_since_ack c + 1)) c) ;;;
      upd_conn a (set_rx_full_events 0) ;;;
      sched_io_wake_all ;;;
      let* c := get_conn a in
      if (TCP_DELAYED_ACK_SEGMENTS <=? rx_since_ack c) || (payload_len <? TCP_SEGMENT_DATA_MAX) ||
         (c_rx_cap c <=? c_rx_len c)
      then upd_conn a (set_rx_since_ack 0) ;;; tcp_send_ack a ;;; ret tt
      else ret tt
    else
      upd_conn a (fun c => set_rx_full_events (u32 (rx_full_events c + 1)) c) ;;;
      tcp_send_ack a ;;;
      ret tt.

(** The part after the passive block: an active or accepted connection. *)
Definition receive_active (a flags seq_ ack tcp_hlen : Z) (tcp payload : list Z) : M net unit :=
  let* c := get_conn a in
  if (Z.land flags (Z.lor TCP_SYN TCP_ACK) =? Z.lor TCP_SYN TCP_ACK) && (ack =? u32 (c_seq c + 1)) then
    tcp_parse_syn_options a tcp tcp_hlen ;;;
    upd_conn a (set_ack (u32 (seq_ + 1))) ;;;
    upd_conn a (fun c => set_seq (u32 (c_seq c + 1)) c) ;;;
    upd_conn a (set_connected true) ;;;
    sched_io_wake_all ;;;
    tcp_send_ack a ;;;
    ret tt
  else if negb (connected c) || negb (seq_ =? c_ack c) then ret tt
  else receive_payload a payload ;;; receive_fin a flags.

(** [if (conn->passive)]: the handshake of a connection a listener made.  [true]: the
    connection was closed and the handler returns. *)
Definition receive_handshake (a flags ack : Z) : M net bool :=
  let* c := get_conn a in
  if negb (connected c) && has flags TCP_ACK && (ack =? u32 (c_seq c + 1)) then
    upd_conn a (fun c => set_seq (u32 (c_seq c + 1)) c) ;;;
    upd_conn a (set_connected true) ;;;
    sched_io_wake_all ;;;
    let* c := get_conn a in
    if negb (c_accept_handler c =? 0) then
      let* r := accept_handler (c_accept_handler c) (c_dev c) (remote_ip c) (remote_port c) a (handler_ctx c) in
      if negb (r =? 0) then tcp_close_passive a ;;; ret true
      else upd_conn a (set_passive false) ;;; ret false
    else ret false
  else ret false.

(** A connection that answers through its handler. *)
Definition receive_passive (a flags seq_ : Z) (payload : list Z) : M net unit :=
  let payload_len := Z.of_nat (length payload) in
  let* c := get_conn a in
  if negb (connected c) || negb (seq_ =? c_ack c) then ret tt
  else if negb (payload_len =? 0) then
    upd_conn a (fun c => set_ack (u32 (c_ack c + payload_len)) c) ;;;
    tcp_handle_passive_payload a payload
  else if has flags TCP_FIN then
    upd_conn a (fun c => set_ack (u32 (c_ack c + 1)) c) ;;;
    tcp_send_ack a ;;;
    tcp_close_passive a
  else if closed c && has flags TCP_ACK then tcp_close_passive a
  else ret tt.

(** The body for a connection that was found. *)
Definition receive_conn (a : Z) (tcp : list Z) (tcp_len : Z) : M net unit :=
  let tcp_hlen := tcp_data_off tcp in
  if (tcp_hlen <? sizeof_tcp_hdr) || (tcp_len <? tcp_hlen) then ret tt
  else
    let flags := byte_at tcp 13 in
    let seq_ := ntohl (ld32 tcp 4) in
    let ack := ntohl (ld32 tcp 8) in
    let payload := take (Z.to_nat (tcp_len - tcp_hlen)) (drop (Z.to_nat tcp_hlen) tcp) in
    if has flags TCP_RST then
      upd_conn a (set_error true) ;;;
      upd_conn a (set_closed true) ;;;
      sched_io_wake_all ;;;
      let* c := get_conn a in
      if passive c then tcp_close_passive a else ret tt
    else
      let* c := get_conn a in
      if passive c then
        let* stop := receive_handshake a flags ack in
        if stop then ret tt
        else
          let* c := get_conn a in
          if passive c then receive_passive a flags seq_ payload
          else receive_active a flags seq_ ack tcp_hlen tcp payload
      else receive_active a flags seq_ ack tcp_hlen tcp payload.

(** [ip]: the packet from the IPv4 header on; [dst] is at 16. *)
Definition net_tcp_receive (d : nat) (src_mac ip : list Z) (ihl ip_len : Z) : M net unit :=
  if ip_len <? ihl + sizeof_tcp_hdr then ret tt
  else
    let tcp := drop (Z.to_nat ihl) ip in
    let* a := tcp_conn_find d ip tcp in
    if a =? 0 then
      let* ls := gets (fun s => tcp_listeners (up s)) in
      match tcp_listener_find ls (ntohl (ld32 ip 16)) (ntohs (ld16 tcp 2)) with
      | Some l => if has (byte_at tcp 13) TCP_SYN then tcp_handle_listen_syn d src_mac ip tcp l else ret tt
      | None => tcp_send_reset d src_mac ip tcp ;;; ret tt
      end
    else receive_conn a tcp (ip_len - ihl).
End sending.

Definition tcp_ipv4_receive (recv : nat -> list Z -> M net unit) (rx : net_ipv4_rx_info) : M net Z :=
  net_tcp_receive recv (rx_dev rx) (rx_src_mac rx) (rx_ip rx) (rx_ihl rx) (rx_ip_len rx) ;;; ret 1.
End tcp.

(** ** The calls of sockets and of the HTTP client *)

Section calls.
Variable driver_send : nat -> list Z -> M net Z.
Variable driver_poll : nat -> M net Z.
Variable udp_handler : Z -> net_udp_dgram -> M net Z.
Variable raw_receive : net_ipv4_rx_info -> M net unit.
Variable listen_handler : Z -> nat -> Z -> Z -> list Z -> Z -> Z -> Z -> M net (Z * Z).
Variable accept_handler : Z -> nat -> Z -> Z -> Z -> Z -> M net Z.
(** [async_io_drain], the [pause] of a waiting loop, a pending signal, the scheduler's
    wait for the sequence number to change, the resolver: what time and other threads
    do is theirs. *)
Variable drain : M net unit.
Variable pause : M net unit.
Variable signal_pending : M net bool.
Variable sched_io_wait : Z -> option Z -> M net Z.
Variable net_dns_resolve_dev : nat -> list Z -> Z -> M net (Z * Z).

Definition tcp_receiver_fn := tcp_ipv4_receive driver_send listen_handler accept_handler.
(** [net_receive_frame] with this TCP. *)
Definition stack_receive (fuel : nat) : nat -> list Z -> M net unit :=
  net_receive_frame driver_send udp_handler tcp_receiver_fn raw_receive fuel.

Definition tcp_interrupted : M net Z :=
  let* b := signal_pending in ret (if b then - EINTR else 0).

(** The next hop of a destination; [None]: off-link and no gateway. *)
Definition tcp_next_hop (x : netdev) (dst_ip : Z) : option Z :=
  if negb (Z.land dst_ip (ipv4_netmask x) =? Z.land (ipv4_addr x) (ipv4_netmask x)) then
    if ipv4_gateway x =? 0 then None else Some (ipv4_gateway x)
  else Some dst_ip.

Definition tcp_local_port (now : Z) : Z := u16 (40000 + u16 (Z.land now 16383)).
Definition tcp_active_isn (now : Z) : Z := u32 (1280922112 + u32 (Z.land now 65535)).

(** [true]: a signal came, and the connection was removed and freed. *)
Fixpoint connect_wait (fuel : nat) (a until : Z) : M net bool :=
  match fuel with
  | O => diverge
  | S f =>
      let* c := get_conn a in
      let* now := gets ticks in
      if negb (connected c) && negb (c_error c) && (now <? until) then
        let* i := tcp_interrupted in
        if negb (i =? 0) then tcp_conn_remove a ;;; free_conn a ;;; ret true
        else net_poll_all driver_poll ;;; pause ;;; connect_wait f a until
      else ret false
  end.

(** The result and [*out]. *)
Definition net_tcp_connect_ip (fuel : nat) (dev : option nat) (dst_ip port timeout_ms : Z) : M net (Z * Z) :=
  match dev with
  | None => ret (- EINVAL, 0)
  | Some d =>
      if (dst_ip =? 0) || (port =? 0) then ret (- EINVAL, 0)
      else
        let* x := get_dev d in
        match tcp_next_hop x dst_ip with
        | None => ret (- ENOENT, 0)
        | Some next_hop =>
            let* now := gets ticks in
            let* a := kzalloc_conn zero_conn in
            if a =? 0 then ret (- ENOMEM, 0)
            else
              upd_conn a (fun _ => mkConn d dst_ip port (tcp_local_port now) (tcp_active_isn now) 0
                (replicate 6 0) 0 TCP_ACTIVE_RX_CAP 0 0 (tcp_wscale_for_cap TCP_ACTIVE_RX_CAP) 0 false false
                0 0 0 0 0 false false false false false false false true) ;;;
              let* b := kzalloc_buf TCP_ACTIVE_RX_CAP in
              if b =? 0 then kfree_conn a ;;; ret (- ENOMEM, 0)
              else
                upd_conn a (set_ring b TCP_ACTIVE_RX_CAP 0 0) ;;;
                let* r := net_arp_resolve driver_send driver_poll udp_handler tcp_receiver_fn raw_receive
                            drain fuel d next_hop timeout_ms in
                if negb (r.1 =? 0) then free_conn a ;;; ret (r.1, 0)
                else
                  upd_conn a (set_peer_mac r.2) ;;;
                  tcp_conn_add a ;;;
                  let* c := get_conn a in
                  let* r := net_send_ipv4_tcp_window_opts driver_send (stack_receive fuel) (Some d)
                              (Some (peer_mac c)) dst_ip (local_port c) port (c_seq c) 0 TCP_SYN
                              (tcp_recv_window c) true true (rcv_wscale c) true [] in
                  if negb (r =? 0) then tcp_conn_remove a ;;; free_conn a ;;; ret (r, 0)
                  else
                    let* s := gets (fun s => s) in
                    let* stopped := connect_wait fuel a (u64 (ticks s + net_timeout_ticks s timeout_ms)) in
                    if stopped then ret (- EINTR, 0)
                    else
                      let* c := get_conn a in
                      if c_error c then tcp_conn_remove a ;;; free_conn a ;;; ret (- ENOENT, 0)
                      else if negb (connected c) then tcp_conn_remove a ;;; free_conn a ;;; ret (- ETIMEDOUT, 0)
                      else ret (0, a)
        end
  end.

Definition net_tcp_connect (fuel : nat) (host : list Z) (port timeout_ms : Z) : M net (Z * Z) :=
  if port =? 0 then ret (- EINVAL, 0)
  else
    let* dev := gets net_default_dev in
    match dev with
    | None => ret (- ENOENT, 0)
    | Some d =>
        let* r := net_dns_resolve_dev d host timeout_ms in
        if negb (r.1 =? 0) then ret (r.1, 0)
        else net_tcp_connect_ip fuel (Some d) r.2 port timeout_ms
    end.

(** The result and [*done]; [buf = None] is NULL. *)
Definition net_tcp_send (fuel : nat) (a : Z) (buf : option (list Z)) : M net (Z * Z) :=
  match buf with
  | None => ret (- EINVAL, 0)
  | Some b =>
      if a =? 0 then ret (- EINVAL, 0)
      else
        let* c := get_conn a in
        if negb (connected c) || closed c || c_error c then ret (- ENOENT, 0)
        else if write_shutdown c then ret (- EPIPE, 0)
        else
          let* r := tcp_send_payload driver_send (stack_receive fuel) a b in
          if negb (r =? 0) then ret (r, 0) else ret (0, Z.of_nat (length b))
  end.

Definition net_poll_wait_begin : M net unit :=
  upmod (fun u => set_net_poll_waiters (u32 (net_poll_waiters u + 1)) u).
Definition net_poll_wait_end : M net unit :=
  upmod (fun u => if net_poll_waiters u =? 0 then u else set_net_poll_waiters (net_poll_waiters u - 1) u).
(** The drain hook of the network. *)
Definition net_async_drain : M net Z :=
  let* n := gets (fun s => net_poll_waiters (up s)) in
  if n =? 0 then ret 0 else net_poll_all driver_poll ;;; ret 1.

(** Nothing received, not closed, no error. *)
Definition recv_idle (c : tcp_conn) : bool := (c_rx_len c =? 0) && negb (closed c) && negb (c_error c).

(** The waiting loop; the timeout given to the scheduler is in milliseconds. *)
Fixpoint recv_wait (fuel : nat) (a : Z) (infinite : bool) (until timeout_ms : Z) : M net unit :=
  match fuel with
  | O => diverge
  | S f =>
      let* c := get_conn a in
      let* now := gets ticks in
      if recv_idle c && (infinite || (now <? until)) then
        let* i := tcp_interrupted in
        if negb (i =? 0) then ret tt
        else
          let* s := gets (fun s => s) in
          let remain_ms :=
            if (ticks s <? until) && negb (hz s =? 0)
            then u64 (u64 (until - ticks s) * 1000) / hz s else timeout_ms in
          let* io := gets (fun s => io_seq (up s)) in
          net_poll_all driver_poll ;;;
          let* c := get_conn a in
          if negb (recv_idle c) then ret tt
          else
            let* wr := sched_io_wait io (if infinite then None else Some remain_ms) in
            if wr =? - EINTR then ret tt else recv_wait f a infinite until timeout_ms
      else ret tt
  end.

(** The result and the bytes copied to [buf] ([*done] is their number). *)
Definition net_tcp_recv (fuel : nat) (a : Z) (buf : bool) (cap timeout_ms : Z) : M net (Z * list Z) :=
  let infinite := timeout_ms =? 2 ^ 64 - 1 in
  let immediate := timeout_ms =? 0 in
  if (a =? 0) || negb buf || (cap =? 0) then ret (- EINVAL, [])
  else
    let* c := get_conn a in
    if negb (connected c) then ret (- ENOENT, [])
    else if read_shutdown c then ret (0, [])
    else
      let* s := gets (fun s => s) in
      let until := if infinite then 0 else u64 (ticks s + net_timeout_ticks s timeout_ms) in
      if immediate && recv_idle c then ret (- ETIMEDOUT, [])
      else
        net_poll_wait_begin ;;;
        (if immediate then ret tt else recv_wait fuel a infinite until timeout_ms) ;;;
        net_poll_wait_end ;;;
        let* c := get_conn a in
        if negb (c_rx_len c =? 0) then
          let copy := if cap <? c_rx_len c then cap else c_rx_len c in
          let* bytes := tcp_rx_pop a copy in
          let* c := get_conn a in
          (if negb (closed c) && negb (c_error c) then
             upd_conn a (set_rx_since_ack 0) ;;;
             tcp_send_ack driver_send (stack_receive fuel) a ;;; ret tt
           else ret tt) ;;;
          ret (0, bytes)
        else if c_error c then ret (- ENOENT, [])
        else if closed c then ret (0, [])
        else ret (- ETIMEDOUT, []).

Definition net_tcp_close (fuel : nat) (a : Z) : M net unit :=
  if a =? 0 then ret tt
  else
    let* c := get_conn a in
    (if connected c && negb (closed c) && negb (c_error c) && negb (write_shutdown c) then
       send_fin driver_send (stack_receive fuel) a ;;; ret tt
     else ret tt) ;;;
    tcp_conn_remove a ;;;
    let* c := get_conn a in
    (if negb (rx_buf c =? 0) then kfree_buf (rx_buf c) else ret tt) ;;;
    (if heap_allocated c then kfree_conn a else ret tt).

(** ** The HTTP client's request *)

(** A connection on the stack: it needs no request, and is gone when the call returns. *)
Definition stack_conn (c : tcp_conn) : M net Z := fun s =>
  let a := next_addr (up s) in
  Ret a (set_up (fun u => set_conns (<[a := c]> (conns u)) (set_next_addr (a + 1) u)) s).

Definition conn_is (g : tcp_conn -> bool) (a : Z) (s : net) : bool :=
  match conns (up s) !! a with Some c => g c | None => false end.

(** "GET ", " HTTP/1.0\r\nHost: " and "\r\nConnection: close\r\nUser-Agent: lyr/0\r\n\r\n" *)
Definition http_request_text (path host : list Z) : list Z :=
  [71; 69; 84; 32] ++ path ++
  [32; 72; 84; 84; 80; 47; 49; 46; 48; 13; 10; 72; 111; 115; 116; 58; 32] ++ host ++
  [13; 10; 67; 111; 110; 110; 101; 99; 116; 105; 111; 110; 58; 32; 99; 108; 111; 115; 101; 13; 10;
   85; 115; 101; 114; 45; 65; 103; 101; 110; 116; 58; 32; 108; 121; 114; 47; 48; 13; 10; 13; 10].

(** After the SYN was sent: the request, the response; the result and the length. *)
Definition http_exchange (fuel : nat) (d : nat) (a dst_ip : Z) (host path : list Z) (timeout_ms : Z)
    : M net (Z * Z) :=
  let* s := gets (fun s => s) in
  net_poll_until driver_poll drain fuel (Some d) (u64 (ticks s + net_timeout_ticks s timeout_ms))
    (conn_is connected a) ;;;
  let* c := get_conn a in
  if negb (connected c) || c_error c then ret (- ENOENT, 0)
  else
    let req := http_request_text path host in
    let n := Z.of_nat (length req) in
    if 512 <=? n then ret (- EINVAL, 0)
    else
      let* r := net_send_ipv4_tcp driver_send (stack_receive fuel) (Some d) (Some (peer_mac c)) dst_ip
                  (local_port c) 80 (c_seq c) (c_ack c) (Z.lor TCP_PSH TCP_ACK) req in
      if negb (r =? 0) then ret (r, 0)
      else
        upd_conn a (fun c => set_seq (u32 (c_seq c + n)) c) ;;;
        let* s := gets (fun s => s) in
        net_poll_until driver_poll drain fuel (Some d) (u64 (ticks s + net_timeout_ticks s timeout_ms))
          (conn_is closed a) ;;;
        let* c := get_conn a in
        if c_error c then ret (- ENOENT, 0)
        else ret (if negb (c_rx_len c =? 0) then 0 else - ENOENT, c_rx_len c).

(** [buf] is the caller's buffer of [len] bytes. *)
Definition net_tcp_http_request (fuel : nat) (dev : option nat) (dst_ip : Z) (host path : list Z)
    (buf len timeout_ms : Z) : M net (Z * Z) :=
  match dev with
  | None => ret (- EINVAL, 0)
  | Some d =>
      if (buf =? 0) || (len =? 0) then ret (- EINVAL, 0)
      else
        let* x := get_dev d in
        match tcp_next_hop x dst_ip with
        | None => ret (- ENOENT, 0)
        | Some next_hop =>
            let* now := gets ticks in
            let* a := stack_conn (mkConn d dst_ip 80 (tcp_local_port now) (tcp_active_isn now) 0
                        (replicate 6 0) buf len 0 0 (tcp_wscale_for_cap len) 0 false false
                        0 0 0 0 0 false false false false false false false false) in
            let* r := net_arp_resolve driver_send driver_poll udp_handler tcp_receiver_fn raw_receive
                        drain fuel d next_hop timeout_ms in
            if negb (r.1 =? 0) then kfree_conn a ;;; ret (r.1, 0)
            else
              upd_conn a (set_peer_mac r.2) ;;;
              tcp_conn_add a ;;;
              let* c := get_conn a in
              let* r := net_send_ipv4_tcp_window_opts driver_send (stack_receive fuel) (Some d)
                          (Some (peer_mac c)) dst_ip (local_port c) 80 (c_seq c) 0 TCP_SYN
                          (tcp_recv_window c) true true (rcv_wscale c) true [] in
              let* res := if negb (r =? 0) then ret (r, 0)
                          else http_exchange fuel d a dst_ip host path timeout_ms in
              tcp_conn_remove a ;;;
              kfree_conn a ;;;
              ret res
        end
  end.
End calls.
