(* ===== verification/Dns.v ===== *)
(** * The resolver (kernel/src/net/proto/dns.c)

    A name is an address literal, a line of /etc/hosts or a question to the device's
    name server.  Texts and messages are lists of bytes; a read of a message outside of
    it is a fault.  The file calls, the clock and the drivers are arguments. *)

From stdpp Require Import base gmap list.
From Stdlib Require Import ZArith Lia.
From S2P Require Import Prelude Wire NetState Net Tcp.

Local Open Scope Z_scope.

Definition DNS_PORT : Z := 53.
Definition sizeof_dns_hdr : Z := 12.

(** ** Texts *)

Definition ascii_space (c : Z) : bool := (c =? 32) || (c =? 9) || (c =? 13) || (c =? 10).
Definition ascii_digit (c : Z) : bool := (48 <=? c) && (c <=? 57).

Definition host_token_eq (token name : list Z) : bool := bool_decide (token = name).

(** [while (pos < len && f(s[pos])) pos++]: what is passed over and what is left. *)
Fixpoint take_while (f : Z -> bool) (l : list Z) : list Z :=
  match l with [] => [] | c :: l => if f c then c :: take_while f l else [] end.
Fixpoint skip_while (f : Z -> bool) (l : list Z) : list Z :=
  match l with [] => [] | c :: l' => if f c then skip_while f l' else l end.

(** The digits of one part: its value and the rest of the text. *)
Fixpoint digits_loop (s : list Z) (value : Z) : option (Z * list Z) :=
  match s with
  | [] => Some (value, [])
  | c :: s' =>
      if ascii_digit c then
        let value := u32 (u32 (value * 10) + u32 (c - 48)) in
        if 255 <? value then None else digits_loop s' value
      else Some (value, s)
  end.

(** [parts] more parts, the last without a dot behind it. *)
Fixpoint parts_loop (parts : nat) (s : list Z) : option (list Z * list Z) :=
  match parts with
  | O => Some ([], s)
  | S n =>
      match s with
      | [] => None
      | c :: _ =>
          if negb (ascii_digit c) then None
          else
            match digits_loop s 0 with
            | None => None
            | Some (v, s) =>
                if (0 <? n)%nat then
                  match s with
                  | 46 :: s =>
                      match parts_loop n s with
                      | Some (vs, s) => Some (v :: vs, s)
                      | None => None
                      end
                  | _ => None
                  end
                else Some ([v], s)
            end
      end
  end.

(** The address; [None] is [-EINVAL]. *)
Definition parse_ipv4_literal (s : list Z) : option Z :=
  match s with
  | [] => None
  | _ =>
      match parts_loop 4 s with
      | Some ([a; b; c; d], []) =>
          Some (Z.lor (Z.lor (Z.lor (u32 (Z.shiftl a 24)) (u32 (Z.shiftl b 16))) (u32 (Z.shiftl c 8))) d)
      | _ => None
      end
  end.

(** [%u] for a value of at most three digits. *)
Definition dec_byte (v : Z) : list Z :=
  if v <? 10 then [48 + v]
  else if v <? 100 then [48 + v / 10; 48 + v `mod` 10]
  else [48 + v / 100; 48 + (v / 10) `mod` 10; 48 + v `mod` 10].
(** [net_ipv4_format] into a buffer that is large enough. *)
Definition net_ipv4_format (ip : Z) : list Z :=
  dec_byte (Z.land (Z.shiftr ip 24) 255) ++ 46 :: dec_byte (Z.land (Z.shiftr ip 16) 255) ++
  46 :: dec_byte (Z.land (Z.shiftr ip 8) 255) ++ 46 :: dec_byte (Z.land ip 255).

(** ** /etc/hosts *)

Definition is_nl (c : Z) : bool := (c =? 10) || (c =? 13).

(** The names behind the address of a line. *)
Fixpoint names_loop (fuel : nat) (p name : list Z) : M net bool :=
  match fuel with
  | O => diverge
  | S f =>
      match p with
      | [] => ret false
      | _ =>
          let p := skip_while ascii_space p in
          let host := take_while (fun c => negb (ascii_space c)) p in
          let p := skip_while (fun c => negb (ascii_space c)) p in
          if negb (Z.of_nat (length host) =? 0) && host_token_eq host name then ret true
          else names_loop f p name
      end
  end.

Fixpoint hosts_loop (fuel : nat) (buf name : list Z) : M net (option Z) :=
  match fuel with
  | O => diverge
  | S f =>
      match buf with
      | [] => ret None
      | _ =>
          let buf := skip_while is_nl buf in
          let line := take_while (fun c => negb (is_nl c)) buf in
          let buf := skip_while (fun c => negb (is_nl c)) buf in
          let line := take_while (fun c => negb (c =? 35)) line in
          let p := skip_while ascii_space line in
          let ip := take_while (fun c => negb (ascii_space c)) p in
          let p := skip_while (fun c => negb (ascii_space c)) p in
          if Z.of_nat (length ip) =? 0 then hosts_loop f buf name
          else
            match parse_ipv4_literal ip with
            | None => hosts_loop f buf name
            | Some v =>
                let* b := names_loop (S (length p)) p name in
                if b then ret (Some v) else hosts_loop f buf name
            end
      end
  end.

(** The calls of vfs.c the resolver makes: the status and the file, the size and mode of
    its node, the status and the bytes read. *)
Class HostsVfs := {
  h_open : list Z -> M net (Z * Z);
  h_size : Z -> M net Z;
  h_is_chr : Z -> M net bool;
  h_read : Z -> Z -> M net (Z * list Z);
  h_close : Z -> M net unit }.

(** /etc/hosts *)
Definition hosts_path : list Z := [47; 101; 116; 99; 47; 104; 111; 115; 116; 115].

(** The result and [*out_ip]. *)
Definition hosts_lookup `{!HostsVfs} (name : list Z) : M net (Z * Z) :=
  let* r := h_open hosts_path in
  if negb (r.1 =? 0) then ret (r.1, 0)
  else
    let file := r.2 in
    let* size := h_size file in
    let* chr := h_is_chr file in
    let cap := if (size =? 0) || chr then 4096 else size in
    let* buf := kzalloc_buf (u64 (cap + 1)) in
    if buf =? 0 then h_close file ;;; ret (- ENOMEM, 0)
    else
      let* r := h_read file cap in
      h_close file ;;;
      if negb (r.1 =? 0) then kfree_buf buf ;;; ret (r.1, 0)
      else
        let done := Z.of_nat (length r.2) in
        buf_write buf 0 r.2 ;;;
        buf_write buf done [0] ;;;
        let* text := buf_read buf 0 done in
        let* res := hosts_loop (S (length text)) text name in
        kfree_buf buf ;;;
        match res with Some ip => ret (0, ip) | None => ret (- ENOENT, 0) end.

(** ** Names in messages *)

(** The output array and [*done]; [None] is [-EINVAL]. *)
Fixpoint encode_loop (name out : list Z) (cap pos label_len label_pos : Z) : option (list Z * Z) :=
  match name with
  | [] =>
      if label_len =? 0 then None
      else
        let out := <[Z.to_nat label_pos := u8 label_len]> out in
        if cap <=? pos then None else Some (<[Z.to_nat pos := 0]> out, pos + 1)
  | c :: name =>
      if (label_len =? 0) && (cap <=? pos) then None
      else
        let label_pos := if label_len =? 0 then pos else label_pos in
        let pos := if label_len =? 0 then pos + 1 else pos in
        if c =? 46 then
          if (label_len =? 0) || (63 <? label_len) then None
          else encode_loop name (<[Z.to_nat label_pos := u8 label_len]> out) cap pos 0 label_pos
        else if cap <=? pos then None
        else if 63 <? label_len + 1 then None
        else encode_loop name (<[Z.to_nat pos := u8 c]> out) cap (pos + 1) (label_len + 1) label_pos
  end.
Definition dns_encode_name (name out : list Z) (cap : Z) : option (list Z * Z) :=
  match name with [] => None | _ => encode_loop name out cap 0 0 0 end.

(** [p[i]] of a message. *)
Definition rd_msg (msg : list Z) (i : Z) : M net Z :=
  match msg !! Z.to_nat i with Some b => ret b | None => fault end.

(** The position behind the name; [None] is [-EINVAL]. *)
Fixpoint skip_loop (fuel : nat) (msg : list Z) (len p : Z) : M net (option Z) :=
  match fuel with
  | O => diverge
  | S f =>
      if len <=? p then ret None
      else
        let* n := rd_msg msg p in
        let p := p + 1 in
        if n =? 0 then ret (Some p)
        else if Z.land n 192 =? 192 then
          if len <=? p then ret None else ret (Some (p + 1))
        else if has n 192 then ret None
        else if len <? p + n then ret None
        else skip_loop f msg len (p + n)
  end.
Definition dns_skip_name (msg : list Z) (len pos : Z) : M net (option Z) :=
  skip_loop (S (Z.to_nat len)) msg len pos.

(** ** Questions *)

(** The message of [send_dns_query], [None] when the name does not fit. *)
Definition dns_query (id : Z) (name : list Z) : option (list Z) :=
  let hdr := st16 (htons id) ++ st16 (htons 256) ++ st16 (htons 1) ++ replicate 6 0 in
  match dns_encode_name name (replicate 500 0) 500 with
  | None => None
  | Some (out, name_len) =>
      if 512 <? sizeof_dns_hdr + name_len + 4 then None
      else Some (hdr ++ take (Z.to_nat name_len) out ++ [0; 1; 0; 1])
  end.

(** ** Answers *)

Fixpoint questions_loop (qd : nat) (msg : list Z) (len pos : Z) : M net (option Z) :=
  match qd with
  | O => ret (Some pos)
  | S n =>
      let* r := dns_skip_name msg len pos in
      match r with
      | None => ret None
      | Some pos => if len <? pos + 4 then ret None else questions_loop n msg len (pos + 4)
      end
  end.

Definition rd_be16 (msg : list Z) (i : Z) : M net Z :=
  let* a := rd_msg msg i in
  let* b := rd_msg msg (i + 1) in
  ret (Z.lor (u16 (Z.shiftl a 8)) b).
Definition rd_be32 (msg : list Z) (i : Z) : M net Z :=
  let* a := rd_msg msg i in
  let* b := rd_msg msg (i + 1) in
  let* c := rd_msg msg (i + 2) in
  let* d := rd_msg msg (i + 3) in
  ret (Z.lor (Z.lor (Z.lor (u32 (Z.shiftl a 24)) (u32 (Z.shiftl b 16))) (u32 (Z.shiftl c 8))) d).

Definition set_answer (ip : Z) (d : dns_state) : dns_state :=
  mkDns (dns_query_id d) (dns_query_port d) ip (dns_dev d) true.

Fixpoint answers_loop (an : nat) (msg : list Z) (len pos : Z) : M net Z :=
  match an with
  | O => ret 0
  | S n =>
      let* r := dns_skip_name msg len pos in
      match r with
      | None => ret (- EINVAL)
      | Some pos =>
          if len <? pos + 10 then ret (- EINVAL)
          else
            let* type := rd_be16 msg pos in
            let* klass := rd_be16 msg (pos + 2) in
            let* rdlen := rd_be16 msg (pos + 8) in
            let pos := pos + 10 in
            if len <? pos + rdlen then ret (- EINVAL)
            else if (type =? 1) && (klass =? 1) && (rdlen =? 4) then
              let* ip := rd_be32 msg pos in
              upmod (fun u => set_dns (set_answer ip (dns u)) u) ;;;
              ret 1
            else answers_loop n msg len (pos + rdlen)
      end
  end.

Definition dns_udp_receive (dg : net_udp_dgram) : M net Z :=
  let* d := gets (fun s => dns (up s)) in
  if negb (same_dev (dns_dev d) (rx_dev (dg_rx dg))) then ret 0
  else if negb (dg_src_port dg =? DNS_PORT) || negb (dg_dst_port dg =? dns_query_port d) then ret 0
  else if dg_udp_len dg <? sizeof_udp_hdr + sizeof_dns_hdr then ret 0
  else
    let msg := dg_payload dg in
    let len := dg_udp_len dg - sizeof_udp_hdr in
    let* id := rd_be16 msg 0 in
    let* flags := rd_be16 msg 2 in
    if negb (id =? dns_query_id d) || negb (has flags 32768) then ret 0
    else
      let* qd := rd_be16 msg 4 in
      let* an := rd_be16 msg 6 in
      let* r := questions_loop (Z.to_nat qd) msg len sizeof_dns_hdr in
      match r with
      | None => ret (- EINVAL)
      | Some pos => answers_loop (Z.to_nat an) msg len pos
      end.

(** ** Resolving *)

Section resolver.
Variable driver_send : nat -> list Z -> M net Z.
Variable driver_poll : nat -> M net Z.
Variable udp_handler : Z -> net_udp_dgram -> M net Z.
Variable tcp_receiver : (nat -> list Z -> M net unit) -> net_ipv4_rx_info -> M net Z.
Variable raw_receive : net_ipv4_rx_info -> M net unit.
Variable drain : M net unit.
Context `{!HostsVfs}.

Definition dns_receive_frames (fuel : nat) : nat -> list Z -> M net unit :=
  net_receive_frame driver_send udp_handler tcp_receiver raw_receive fuel.

Definition send_dns_query (fuel : nat) (d : nat) (server_ip : Z) (name : list Z) : M net Z :=
  let* st := gets (fun s => dns (up s)) in
  match dns_query (dns_query_id st) name with
  | None => ret (- EINVAL)
  | Some query =>
      let* x := get_dev d in
      let next_hop :=
        if negb (Z.land server_ip (ipv4_netmask x) =? Z.land (ipv4_addr x) (ipv4_netmask x))
        then ipv4_gateway x else server_ip in
      let* r := net_arp_resolve driver_send driver_poll udp_handler tcp_receiver raw_receive drain
                  fuel d next_hop 1000 in
      if negb (r.1 =? 0) then ret r.1
      else
        let* x := get_dev d in
        let* st := gets (fun s => dns (up s)) in
        net_send_ipv4_udp driver_send (dns_receive_frames fuel) (Some d) r.2 (ipv4_addr x) server_ip
          (dns_query_port st) DNS_PORT (Some query)
  end.

(** The next identifier, never 0, and the port it selects. *)
Definition next_query_id (id : Z) : Z := let id := u16 (id + 1) in if id =? 0 then 1 else id.
Definition query_port (id : Z) : Z := u16 (49152 + Z.land id 16383).

(** The result and [*out_ip]. *)
Definition net_dns_resolve_dev (fuel : nat) (d : nat) (name : list Z) (timeout_ms : Z) : M net (Z * Z) :=
  match parse_ipv4_literal name with
  | Some ip => ret (0, ip)
  | None =>
      let* r := hosts_lookup name in
      if r.1 =? 0 then ret r
      else
        let* x := get_dev d in
        if dns_server x =? 0 then ret (- ENOENT, 0)
        else
          upmod (fun u => let id := next_query_id (dns_query_id (dns u)) in
                          set_dns (mkDns id (query_port id) 0 (Some d) false) u) ;;;
          let* r := send_dns_query fuel d (dns_server x) name in
          if negb (r =? 0) then ret (r, 0)
          else
            let* s := gets (fun s => s) in
            net_poll_until driver_poll drain fuel (Some d) (u64 (ticks s + net_timeout_ticks s timeout_ms))
              (fun s => dns_ready (dns (up s))) ;;;
            let* st := gets (fun s => dns (up s)) in
            if negb (dns_ready st) || (dns_result_ip st =? 0) then ret (- ENOENT, 0)
            else ret (0, dns_result_ip st)
  end.

Definition net_dns_resolve (fuel : nat) (name : list Z) (timeout_ms : Z) : M net (Z * Z) :=
  let* dev := gets net_default_dev in
  match dev with
  | None => ret (- ENOENT, 0)
  | Some d => net_dns_resolve_dev fuel d name timeout_ms
  end.
End resolver.
