(* ===== verification/Dhcp.v ===== *)
(** * Address configuration (kernel/src/net/proto/dhcp.c)

    The messages the client sends, the replies it takes apart and the lease it installs
    in the device. *)

From stdpp Require Import base gmap list.
From Stdlib Require Import ZArith Lia.
From S2P Require Import Prelude Wire NetState Net Tcp Dns.

Local Open Scope Z_scope.

Definition DHCP_CLIENT_PORT : Z := 68.
Definition DHCP_SERVER_PORT : Z := 67.
Definition DHCP_MAGIC : Z := 1669485411.
Definition DHCP_DISCOVER : Z := 1.
Definition DHCP_OFFER : Z := 2.
Definition DHCP_REQUEST : Z := 3.
Definition DHCP_ACK : Z := 5.

(** The part of [dhcp_pkt_t] before the options, and all of it. *)
Definition dhcp_fixed : Z := 240.
Definition sizeof_dhcp_pkt : Z := 552.

(** ** Requests *)

Definition dhcp_add_u8 (opts : list Z) (code val : Z) : list Z := opts ++ [code; 1; u8 val].
Definition dhcp_add_u32 (opts : list Z) (code val : Z) : list Z :=
  opts ++ [code; 4; u8 (Z.shiftr val 24); u8 (Z.shiftr val 16); u8 (Z.shiftr val 8); u8 val].

(** The options [send_dhcp] writes: the array up to [pos]. *)
Definition dhcp_options (type requested_ip server_ip : Z) : list Z :=
  let opts := dhcp_add_u8 [] 53 type in
  let opts := if negb (requested_ip =? 0) then dhcp_add_u32 opts 50 requested_ip else opts in
  let opts := if negb (server_ip =? 0) then dhcp_add_u32 opts 54 server_ip else opts in
  opts ++ [55; 4; 1; 3; 6; 51; 255].

(** [op], [htype], [hlen], [hops], [xid], [secs], [flags], the four addresses, [chaddr],
    [sname], [file], [magic]. *)
Definition dhcp_packet (xid : Z) (mac opts : list Z) : list Z :=
  [1; 1; 6; 0] ++ st32 (htonl xid) ++ [0; 0] ++ st16 (htons 32768) ++ replicate 16 0 ++
  (mac ++ replicate 10 0) ++ replicate 64 0 ++ replicate 128 0 ++ st32 (htonl DHCP_MAGIC) ++ opts.

(** ** Replies *)

(** What the options say: type, server, mask, gateway, name server. *)
Record dhcp_reply := mkReply {
  r_type : Z; r_server : Z; r_mask : Z; r_gateway : Z; r_dns : Z }.

Definition reply_option (code len : Z) (pkt : list Z) (v : Z) (r : dhcp_reply) : M net dhcp_reply :=
  if (code =? 53) && (1 <=? len) then
    let* t := rd_msg pkt v in ret (mkReply t (r_server r) (r_mask r) (r_gateway r) (r_dns r))
  else if (code =? 54) && (4 <=? len) then
    let* x := rd_be32 pkt v in ret (mkReply (r_type r) x (r_mask r) (r_gateway r) (r_dns r))
  else if (code =? 1) && (4 <=? len) then
    let* x := rd_be32 pkt v in ret (mkReply (r_type r) (r_server r) x (r_gateway r) (r_dns r))
  else if (code =? 3) && (4 <=? len) then
    let* x := rd_be32 pkt v in ret (mkReply (r_type r) (r_server r) (r_mask r) x (r_dns r))
  else if (code =? 6) && (4 <=? len) then
    let* x := rd_be32 pkt v in ret (mkReply (r_type r) (r_server r) (r_mask r) (r_gateway r) x)
  else ret r.

(** [while (pos < opt_len)]; [pos] counts from the options on. *)
Fixpoint options_loop (fuel : nat) (pkt : list Z) (opt_len pos : Z) (r : dhcp_reply) : M net dhcp_reply :=
  match fuel with
  | O => diverge
  | S f =>
      if pos <? opt_len then
        let* code := rd_msg pkt (dhcp_fixed + pos) in
        let pos := pos + 1 in
        if code =? 0 then options_loop f pkt opt_len pos r
        else if code =? 255 then ret r
        else if opt_len <=? pos then ret r
        else
          let* len := rd_msg pkt (dhcp_fixed + pos) in
          let pos := pos + 1 in
          if opt_len <? pos + len then ret r
          else
            let* r := reply_option code len pkt (dhcp_fixed + pos) r in
            options_loop f pkt opt_len (pos + len) r
      else ret r
  end.

Definition set_reply (xid ip : Z) (r : dhcp_reply) : dhcp_state :=
  mkDhcp xid ip (r_server r) (r_mask r) (r_gateway r) (r_dns r) (r_type r) true.

(** [xid] at 4, [yiaddr] at 16, [chaddr] at 28, [magic] at 236. *)
Definition dhcp_udp_receive (dg : net_udp_dgram) : M net Z :=
  if dg_udp_len dg <? sizeof_udp_hdr + sizeof_dhcp_pkt - 312 then ret 0
  else if negb (dg_src_port dg =? DHCP_SERVER_PORT) || negb (dg_dst_port dg =? DHCP_CLIENT_PORT) then ret 0
  else
    let* x := get_dev (rx_dev (dg_rx dg)) in
    let* st := gets (fun s => dhcp (up s)) in
    let pkt := dg_payload dg in
    let pkt_len := dg_udp_len dg - sizeof_udp_hdr in
    if pkt_len <? dhcp_fixed then ret 0
    else
      let* op := rd_msg pkt 0 in
      let* xid := rd_be32 pkt 4 in
      let* yiaddr := rd_be32 pkt 16 in
      let* magic := rd_be32 pkt 236 in
      if negb (xid =? dhcp_xid st) || negb (magic =? DHCP_MAGIC) || negb (op =? 2) ||
         negb (bool_decide (take 6 (drop 28 pkt) = mac x))
      then ret 0
      else
        let opt_len := pkt_len - dhcp_fixed in
        let* r := options_loop (S (Z.to_nat opt_len)) pkt opt_len 0 (mkReply 0 0 0 0 0) in
        if negb (r_type r =? DHCP_OFFER) && negb (r_type r =? DHCP_ACK) then ret 0
        else
          upmod (fun u => set_dhcp (set_reply (dhcp_xid (dhcp u)) yiaddr r) u) ;;;
          ret 1.

(** ** The client *)

Definition set_lease (addr server mask gateway dns : Z) (d : netdev) : netdev :=
  mkDev (name d) (mac d) (loopback d) addr gateway mask dns (mtu d) (dops d) (rx_queue d) (rx_len d)
    (rx_head d) (rx_tail d) (rx_count d) (poll_busy d) (rx_dropped d) (tx_packets d) (rx_packets d) server true.

Definition dhcp_lease (st : dhcp_state) (x : netdev) : netdev :=
  let gateway := if negb (dhcp_gateway st =? 0) then dhcp_gateway st else dhcp_server_ip st in
  set_lease (dhcp_offered_ip st) (dhcp_server_ip st)
    (if negb (dhcp_netmask st =? 0) then dhcp_netmask st else net_ipv4 255 255 255 0)
    gateway (if negb (dhcp_dns_server st =? 0) then dhcp_dns_server st else gateway) x.

Section client.
Variable driver_send : nat -> list Z -> M net Z.
Variable driver_poll : nat -> M net Z.
Variable udp_handler : Z -> net_udp_dgram -> M net Z.
Variable tcp_receiver : (nat -> list Z -> M net unit) -> net_ipv4_rx_info -> M net Z.
Variable raw_receive : net_ipv4_rx_info -> M net unit.
Variable drain : M net unit.

Definition send_dhcp (fuel : nat) (d : nat) (type requested_ip server_ip : Z) : M net Z :=
  let* x := get_dev d in
  let* st := gets (fun s => dhcp (up s)) in
  net_send_ipv4_udp driver_send (net_receive_frame driver_send udp_handler tcp_receiver raw_receive fuel)
    (Some d) (replicate 6 255) 0 4294967295 DHCP_CLIENT_PORT DHCP_SERVER_PORT
    (Some (dhcp_packet (dhcp_xid st) (mac x) (dhcp_options type requested_ip server_ip))).

Definition dhcp_wait (fuel : nat) (d : nat) (until : Z) : M net unit :=
  net_poll_until driver_poll drain fuel (Some d) until (fun s => dhcp_ready (dhcp (up s))).

Definition net_dhcp_configure_dev (fuel : nat) (dev : option nat) (timeout_ms : Z) : M net Z :=
  match dev with
  | None => ret (- ENOENT)
  | Some d =>
      upmod (set_dhcp (mkDhcp 1280922180 0 0 0 0 0 0 false)) ;;;
      let* s := gets (fun s => s) in
      let until := u64 (ticks s + net_timeout_ticks s timeout_ms) in
      let* r := send_dhcp fuel d DHCP_DISCOVER 0 0 in
      if negb (r =? 0) then ret r
      else
        dhcp_wait fuel d until ;;;
        let* st := gets (fun s => dhcp (up s)) in
        if negb (dhcp_ready st) || negb (dhcp_seen_type st =? DHCP_OFFER) || (dhcp_offered_ip st =? 0)
        then ret (- ENOENT)
        else
          upmod (fun u => let st := dhcp u in
            set_dhcp (mkDhcp (dhcp_xid st) (dhcp_offered_ip st) (dhcp_server_ip st) (dhcp_netmask st)
                        (dhcp_gateway st) (dhcp_dns_server st) 0 false) u) ;;;
          let* s := gets (fun s => s) in
          let until := u64 (ticks s + net_timeout_ticks s timeout_ms) in
          let* r := send_dhcp fuel d DHCP_REQUEST (dhcp_offered_ip st) (dhcp_server_ip st) in
          if negb (r =? 0) then ret r
          else
            dhcp_wait fuel d until ;;;
            let* st := gets (fun s => dhcp (up s)) in
            if negb (dhcp_ready st) || negb (dhcp_seen_type st =? DHCP_ACK) then ret (- ENOENT)
            else upd_dev d (dhcp_lease st) ;;; ret 0
  end.

Definition net_dhcp_configure (fuel : nat) (timeout_ms : Z) : M net Z :=
  let* dev := gets net_default_dev in net_dhcp_configure_dev fuel dev timeout_ms.
End client.
