(* ===== verification/NetProps.v ===== *)
(** * Properties of the network core

    Routing, the ARP cache, the receive queue of a device, and what arrives when a
    frame the kernel built is received. *)

From stdpp Require Import base list.
From Stdlib Require Import ZArith Lia.
From S2P Require Import Prelude Wire WireProps NetState Net.

Local Open Scope Z_scope.

(** ** Routing *)

(** A device is a candidate when it is configured and on the network of [ip]. *)
Definition on_link (ip : Z) (d : netdev) : bool :=
  negb (ipv4_addr d =? 0) && negb (ipv4_netmask d =? 0) &&
  (Z.land ip (ipv4_netmask d) =? Z.land (ipv4_addr d) (ipv4_netmask d)).

(** [b] is the first of the longest-prefix candidates among the devices [l]. *)
Definition best_route (l : list netdev) (ip : Z) (b : nat) : Prop :=
  exists d, l !! b = Some d /\ on_link ip d = true /\
    forall j e, l !! j = Some e -> on_link ip e = true ->
      netmask_prefix_len (ipv4_netmask e) <= netmask_prefix_len (ipv4_netmask d) /\
      ((j < b)%nat -> netmask_prefix_len (ipv4_netmask e) < netmask_prefix_len (ipv4_netmask d)).

Lemma on_link_skip ip d :
  on_link ip d = false ->
  (ipv4_addr d =? 0) || (ipv4_netmask d =? 0) = true \/
  (ipv4_addr d =? 0) || (ipv4_netmask d =? 0) = false /\
  negb (Z.land ip (ipv4_netmask d) =? Z.land (ipv4_addr d) (ipv4_netmask d)) = true.
Proof.
  unfold on_link. destruct (ipv4_addr d =? 0), (ipv4_netmask d =? 0); simpl; auto.
  intros ->. auto.
Qed.
Lemma on_link_take ip d :
  on_link ip d = true ->
  (ipv4_addr d =? 0) || (ipv4_netmask d =? 0) = false /\
  negb (Z.land ip (ipv4_netmask d) =? Z.land (ipv4_addr d) (ipv4_netmask d)) = false.
Proof.
  unfold on_link. destruct (ipv4_addr d =? 0), (ipv4_netmask d =? 0); simpl; try done.
  intros ->. auto.
Qed.

(** What the loop knows after the devices [pre]: the best of them. *)
Definition route_inv (pre : list netdev) (ip : Z) (best : option nat) (prefix : Z) : Prop :=
  match best with
  | None => forall j e, pre !! j = Some e -> on_link ip e = false
  | Some b => best_route pre ip b /\ exists d, pre !! b = Some d /\ prefix = netmask_prefix_len (ipv4_netmask d)
  end.

Lemma lookup_snoc {A} (l : list A) x j e :
  (l ++ [x]) !! j = Some e -> l !! j = Some e \/ (j = length l /\ e = x).
Proof.
  intros H. apply lookup_app_Some in H as [H|[Hl H]]; [by left|right].
  assert (j - length l = 0)%nat as E by (apply lookup_lt_Some in H; simpl in H; lia).
  rewrite E in H. simpl in H. split; [lia|congruence].
Qed.

Lemma route_inv_skip pre ip best prefix d :
  route_inv pre ip best prefix -> on_link ip d = false -> route_inv (pre ++ [d]) ip best prefix.
Proof.
  intros Hi Hd. destruct best as [b|]; simpl in *.
  - destruct Hi as [(x & Hx & Ho & Hb) (y & Hy & ->)].
    assert (Hl : forall z, pre !! b = Some z -> (pre ++ [d]) !! b = Some z) by (intros z; apply lookup_app_l_Some).
    split; [|by exists y; split; [apply Hl|]]. exists x. split_and!; [by apply Hl|done|].
    intros j e He Hoe. apply lookup_snoc in He as [He|[_ ->]]; [by apply Hb|congruence].
  - intros j e He. apply lookup_snoc in He as [He|[_ ->]]; [by eapply Hi|done].
Qed.

Lemma route_inv_take pre ip best prefix d :
  route_inv pre ip best prefix -> on_link ip d = true ->
  let p := netmask_prefix_len (ipv4_netmask d) in
  if (match best with None => true | Some _ => false end) || (prefix <? p)
  then route_inv (pre ++ [d]) ip (Some (length pre)) p
  else route_inv (pre ++ [d]) ip best prefix.
Proof.
  intros Hi Hd p. destruct best as [b|]; simpl in *.
  - destruct Hi as [(y & Hy & Ho & Hb) (y' & Hy' & ->)]. rewrite Hy in Hy'. injection Hy' as <-.
    destruct (_ <? p) eqn:E; bools.
    + split; [|exists d; split; [|done]]; [exists d; split_and!; [|done|]|].
      * by rewrite lookup_app_r, Nat.sub_diag by lia.
      * intros j e He Hoe. apply lookup_snoc in He as [He|[-> ->]]; [|lia].
        destruct (Hb j e He Hoe). fold p. lia.
      * by rewrite lookup_app_r, Nat.sub_diag by lia.
    + split; [|exists y; split; [by apply lookup_app_l_Some|done]].
      exists y. split_and!; [by apply lookup_app_l_Some|done|].
      intros j e He Hoe. apply lookup_snoc in He as [He|[-> ->]]; [by apply Hb|].
      apply lookup_lt_Some in Hy. fold p. lia.
  - split; [|exists d; split; [|done]]; [exists d; split_and!; [|done|]|].
    + by rewrite lookup_app_r, Nat.sub_diag by lia.
    + intros j e He Hoe. apply lookup_snoc in He as [He|[-> ->]]; [|lia]. rewrite (Hi j e He) in Hoe. done.
    + by rewrite lookup_app_r, Nat.sub_diag by lia.
Qed.

Lemma route_loop_inv l : forall pre ip best prefix,
  route_inv pre ip best prefix ->
  exists p, route_inv (pre ++ l) ip (route_loop l (length pre) ip best prefix) p.
Proof.
  induction l as [|d l IH]; intros pre ip best prefix Hi; simpl.
  { exists prefix. by rewrite app_nil_r. }
  rewrite (cons_middle d pre l), app_assoc.
  assert (Hlen : S (length pre) = length (pre ++ [d])) by (rewrite length_app; simpl; lia).
  destruct (on_link ip d) eqn:Ho.
  - destruct (on_link_take ip d Ho) as [-> ->].
    pose proof (route_inv_take pre ip best prefix d Hi Ho) as Ht. simpl in Ht.
    destruct (_ || _); rewrite Hlen; by eapply IH.
  - pose proof (route_inv_skip pre ip best prefix d Hi Ho) as Hs.
    destruct (on_link_skip ip d Ho) as [-> |[-> ->]]; rewrite Hlen; by eapply IH.
Qed.

(** routing is longest-prefix match.  If some configured device is on the
    destination's network, [net_route] returns one whose netmask has the longest
    prefix, the first registered of them, with the destination itself as next hop;
    otherwise the default device and its gateway. *)
Theorem net_route_longest_prefix s ip :
  match net_route s ip with
  | Some (b, hop) =>
      (best_route (devs s) ip b /\ hop = ip) \/
      ((forall j e, devs s !! j = Some e -> on_link ip e = false) /\ net_default_dev s = Some b /\
       exists d, devs s !! b = Some d /\ hop = if negb (ipv4_gateway d =? 0) then ipv4_gateway d else ip)
  | None => (forall j e, devs s !! j = Some e -> on_link ip e = false)
  end.
Proof.
  destruct (route_loop_inv (devs s) [] ip None 0) as (p & Hp); [done|]. simpl in Hp.
  unfold net_route. destruct (route_loop (devs s) 0 ip None 0) as [b|].
  - destruct Hp as [Hb _]. by left.
  - simpl in Hp. destruct (net_default_dev s) as [f|] eqn:Ed; [|done].
    destruct (devs s !! f) as [d|] eqn:El; [|done]. right. split_and!; [done|done|]. by exists d.
Qed.

(** ** The ARP cache *)

Definition arp_hit (d : nat) (ip : Z) (e : arp_cache_entry) : bool := same_dev (a_dev e) d && (a_ip e =? ip).
Definition arp_stale (now : Z) (e : arp_cache_entry) : bool :=
  (match a_dev e with None => true | Some _ => false end) || (expires_tick e <=? now).

(** The loop of [arp_cache_lookup], one entry at a time. *)
Lemma arp_lookup_cons e l t d ip :
  arp_lookup_loop (e :: l) t d ip =
  if arp_hit d ip e && negb (expires_tick e <=? t) then Some (a_mac e) else arp_lookup_loop l t d ip.
Proof.
  simpl. unfold arp_hit. destruct (same_dev _ d), (a_ip e =? ip), (expires_tick e <=? t); done.
Qed.

Lemma arp_lookup_skip pre l t d ip :
  Forall (fun e => arp_hit d ip e = false) pre ->
  arp_lookup_loop (pre ++ l) t d ip = arp_lookup_loop l t d ip.
Proof. induction 1 as [|e pre He _ IH]; [done|]. simpl app. by rewrite arp_lookup_cons, He. Qed.

(** Replacing an entry that does not matter for a key. *)
Lemma arp_lookup_replace pre e e' post t d ip :
  arp_hit d ip e && negb (expires_tick e <=? t) = false -> arp_hit d ip e' = false ->
  arp_lookup_loop (pre ++ e' :: post) t d ip = arp_lookup_loop (pre ++ e :: post) t d ip.
Proof.
  intros He He'. induction pre as [|x pre IH]; simpl app; rewrite !arp_lookup_cons; [by rewrite He, He'|].
  by rewrite IH.
Qed.

Lemma insert_middle {A} (pre : list A) e x post : <[length pre := x]> (pre ++ e :: post) = pre ++ x :: post.
Proof. induction pre as [|y pre IH]; simpl; [done|]. by rewrite IH. Qed.

Lemma arp_victim_split l i now d ip :
  (exists pre e post, l = pre ++ e :: post /\ arp_victim l i now d ip = (i + length pre)%nat /\
     Forall (fun x => arp_hit d ip x = false /\ arp_stale now x = false) pre /\
     arp_hit d ip e || arp_stale now e = true) \/
  (Forall (fun x => arp_hit d ip x = false /\ arp_stale now x = false) l /\ arp_victim l i now d ip = O).
Proof.
  revert i. induction l as [|e l IH]; intros i; [by right|]. simpl arp_victim.
  fold (arp_hit d ip e). destruct (arp_hit d ip e) eqn:E1.
  { left. exists [], e, l. rewrite E1. split_and!; [done|simpl; lia|done|done]. }
  fold (arp_stale now e). destruct (arp_stale now e) eqn:E2.
  { left. exists [], e, l. rewrite E2, orb_true_r. split_and!; [done|simpl; lia|done|done]. }
  destruct (IH (S i)) as [(pre & x & post & -> & -> & Hp & Hx)|[Hl ->]].
  - left. exists (e :: pre), x, post. split_and!; [done|simpl; lia|by constructor|done].
  - right. split; [by constructor|done].
Qed.

Lemma arp_hit_other d ip d' ip' e : (d', ip') <> (d, ip) -> arp_hit d ip e = true -> arp_hit d' ip' e = false.
Proof.
  unfold arp_hit. intros Hne H. bools. destruct (a_dev e) as [x|]; [|done]. simpl in *.
  apply Nat.eqb_eq in H. subst x. destruct (Nat.eqb d d') eqn:E1; [|done].
  apply Nat.eqb_eq in E1. subst d'. destruct (a_ip e =? ip') eqn:E2; [|done]. bools. congruence.
Qed.

Lemma arp_stale_dead now t d ip e :
  now <= t -> arp_stale now e = true -> arp_hit d ip e && negb (expires_tick e <=? t) = false.
Proof.
  intros Ht H. unfold arp_stale, arp_hit in *. destruct (a_dev e) as [x|]; simpl in *; [|done].
  bools. rewrite (proj2 (Z.leb_le _ _)) by lia. by rewrite andb_false_r.
Qed.

Lemma net_timeout_pos s ms : 0 < net_timeout_ticks s ms.
Proof.
  unfold net_timeout_ticks. pose proof (u64_range (u64 (ms * hz s) + 999)) as H. revert H.
  generalize (u64 (u64 (ms * hz s) + 999)). intros x Hx. destruct (x / 1000 =? 0) eqn:E; bools; simpl; zdiv.
Qed.

(** the ARP cache remembers.  After an address was stored, a lookup finds it until
    it expires, whatever the cache held.  Every other address is found exactly as
    before, unless the cache was full of live entries and the other address had the
    first of them, which is the one that is replaced. *)
Theorem arp_store_lookup s d ip m t :
  length (arp_cache s) = ARP_CACHE_LEN -> 0 <= ticks s <= t ->
  t < ticks s + net_timeout_ticks s ARP_CACHE_TTL_MS < 2 ^ 64 ->
  let c := arp_cache s in
  let c' := arp_cache (final (arp_cache_store d ip m) s) in
  arp_lookup_loop c' t d ip = Some m /\
  forall d' ip', (d', ip') <> (d, ip) ->
    arp_lookup_loop c' t d' ip' = arp_lookup_loop c t d' ip' \/
    (Forall (fun e => arp_hit d ip e = false /\ arp_stale (ticks s) e = false) c /\
     exists e l, c = e :: l /\ arp_hit d' ip' e = true).
Proof.
  intros Hl Ht Hexp c c'. unfold c'. simpl arp_cache. fold c. rewrite u64_small by lia.
  set (new := mkArp (Some d) ip m (ticks s + net_timeout_ticks s ARP_CACHE_TTL_MS)).
  assert (Hnew : arp_hit d ip new && negb (expires_tick new <=? t) = true).
  { unfold arp_hit. simpl. rewrite Nat.eqb_refl, Z.eqb_refl. simpl. rewrite (proj2 (Z.leb_gt _ _)) by lia. done. }
  assert (Hother : forall d' ip', (d', ip') <> (d, ip) -> arp_hit d' ip' new = false).
  { intros d' ip' Hne. apply (arp_hit_other d ip); [done|]. by bools. }
  destruct (arp_victim_split c 0 (ticks s) d ip) as [(pre & e & post & Hc & Hv & Hp & He)|[Hall Hv]]; rewrite Hv.
  - rewrite Hc, Nat.add_0_l, insert_middle. split.
    + rewrite arp_lookup_skip by (eapply Forall_impl; [exact Hp|]; by intros x []). by rewrite arp_lookup_cons, Hnew.
    + intros d' ip' Hne. left. apply arp_lookup_replace; [|by apply Hother].
      apply orb_true_iff in He as [He|He]; [by rewrite (arp_hit_other d ip)|]. apply (arp_stale_dead (ticks s)); [lia|done].
  - destruct c as [|e l] eqn:Ec; [by unfold c in Ec; rewrite Ec in Hl|]. simpl insert. split; [by rewrite arp_lookup_cons, Hnew|].
    intros d' ip' Hne. rewrite !arp_lookup_cons, (Hother d' ip' Hne). simpl.
    destruct (arp_hit d' ip' e) eqn:Eh; [right|by left]. split; [done|]. by exists e, l.
Qed.

(** ** The receive queue *)

(** The abstract queue: the frames in order of arrival, at most sixteen. *)
Inductive rx_op := RxFrame (frame : list Z) | RxRead (len : Z).

Definition frame_ok (f : list Z) : Prop := (0 < length f)%nat /\ Z.of_nat (length f) <= NET_ETH_FRAME_MAX.

Definition fifo_op (q : list (list Z)) (op : rx_op) : list (list Z) * option (Z * list Z) :=
  match op with
  | RxFrame f => (if (length q =? NETDEV_RX_QUEUE_LEN)%nat then q else q ++ [f], None)
  | RxRead len =>
      match q with
      | [] => ([], Some (0, []))
      | f :: q' => if len <? Z.of_nat (length f) then (q, Some (- EINVAL, [])) else (q', Some (0, f))
      end
  end.
Fixpoint fifo_run (q : list (list Z)) (ops : list rx_op) : list (list Z) * list (option (Z * list Z)) :=
  match ops with
  | [] => (q, [])
  | op :: ops => let r := fifo_op q op in let rs := fifo_run r.1 ops in (rs.1, r.2 :: rs.2)
  end.

(** The same operations on a device. *)
Definition rx_op_run (op : rx_op) (d : netdev) : netdev * option (Z * list Z) :=
  match op with
  | RxFrame f => (enqueue f d, None)
  | RxRead len => let r := dequeue len d in (r.2, Some r.1)
  end.
Fixpoint rx_run (ops : list rx_op) (d : netdev) : netdev * list (option (Z * list Z)) :=
  match ops with
  | [] => (d, [])
  | op :: ops => let r := rx_op_run op d in let rs := rx_run ops r.1 in (rs.1, r.2 :: rs.2)
  end.

(** The frame in a slot. *)
Definition slot_frame (d : netdev) (i : nat) (f : list Z) : Prop :=
  nth i (rx_len d) 0 = Z.of_nat (length f) /\ take (length f) (nth i (rx_queue d) []) = f.

Definition slot (h i : Z) : nat := Z.to_nat ((h + i) `mod` 16).

Record ring_rep (d : netdev) (q : list (list Z)) : Prop := {
  rr_slots : length (rx_queue d) = 16%nat;
  rr_lens : length (rx_len d) = 16%nat;
  rr_head : 0 <= rx_head d < 16;
  rr_count : rx_count d = Z.of_nat (length q) /\ (length q <= 16)%nat;
  rr_tail : rx_tail d = (rx_head d + rx_count d) `mod` 16;
  rr_frames : forall i f, q !! i = Some f -> slot_frame d (slot (rx_head d) (Z.of_nat i)) f;
  rr_ok : Forall frame_ok q }.

Lemma slot_range h i : (slot h i < 16)%nat.
Proof. unfold slot. pose proof (Z.mod_pos_bound (h + i) 16 ltac:(lia)). lia. Qed.
Lemma slot_inj h i j : 0 <= i < 16 -> 0 <= j < 16 -> slot h i = slot h j -> i = j.
Proof.
  unfold slot. intros Hi Hj E. pose proof (Z.mod_pos_bound (h + i) 16 ltac:(lia)).
  pose proof (Z.mod_pos_bound (h + j) 16 ltac:(lia)). apply Z2Nat.inj in E; [|lia|lia]. zdiv.
Qed.

Lemma enqueue_full d q f : ring_rep d q -> length q = 16%nat -> ring_rep (enqueue f d) q.
Proof.
  intros R Hq. pose proof (rr_count _ _ R) as [Hc _]. unfold enqueue.
  rewrite (proj2 (Z.eqb_eq _ _)) by (unfold NETDEV_RX_QUEUE_LEN; lia). destruct R. constructor; done.
Qed.

Lemma nth_alter_eq {A} (g : A -> A) i (l : list A) x : (i < length l)%nat -> nth i (alter g i l) x = g (nth i l x).
Proof. revert i. induction l as [|y l IH]; intros [|i] Hi; simpl in *; try lia; [done|]. apply IH. lia. Qed.
Lemma nth_alter_ne {A} (g : A -> A) i j (l : list A) x : i <> j -> nth j (alter g i l) x = nth j l x.
Proof. revert i j. induction l as [|y l IH]; intros [|i] [|j] Hi; simpl; try done. apply IH. lia. Qed.
Lemma nth_insert_eq {A} i (l : list A) v x : (i < length l)%nat -> nth i (<[i := v]> l) x = v.
Proof. revert i. induction l as [|y l IH]; intros [|i] Hi; simpl in *; try lia; [done|]. apply IH. lia. Qed.
Lemma nth_insert_ne {A} i j (l : list A) v x : i <> j -> nth j (<[i := v]> l) x = nth j l x.
Proof. revert i j. induction l as [|y l IH]; intros [|i] [|j] Hi; simpl; try done. apply IH. lia. Qed.

Lemma enqueue_rep d q f :
  ring_rep d q -> frame_ok f -> (length q < 16)%nat -> ring_rep (enqueue f d) (q ++ [f]).
Proof.
  intros R Hf Hq. destruct (R) as [Hs Hl Hh [Hc _] Ht Hfr Hok]. destruct (Hf) as [Hf1 Hf2].
  unfold enqueue. rewrite (proj2 (Z.eqb_neq _ _)) by (unfold NETDEV_RX_QUEUE_LEN; lia).
  assert (Hidx : Z.to_nat (rx_tail d) = slot (rx_head d) (Z.of_nat (length q))) by (unfold slot; by rewrite Ht, Hc).
  rewrite Hidx. pose proof (slot_range (rx_head d) (Z.of_nat (length q))) as Hr.
  rewrite Hc, !u64_small by (rewrite ?Ht; try apply Z.mod_pos_bound; zdiv).
  constructor; simpl; rewrite ?length_alter, ?length_insert, ?length_app; simpl; try done.
  - lia.
  - change (Z.of_nat NETDEV_RX_QUEUE_LEN) with 16. rewrite Ht, Hc. zdiv.
  - intros i g Hi. apply lookup_snoc in Hi as [Hi|[-> ->]].
    + assert (Hne : slot (rx_head d) (Z.of_nat (length q)) <> slot (rx_head d) (Z.of_nat i)).
      { apply lookup_lt_Some in Hi. intros E. apply slot_inj in E; lia. }
      destruct (Hfr i g Hi) as [H1 H2]. split; simpl; by rewrite ?nth_insert_ne, ?nth_alter_ne.
    + split; simpl; [rewrite nth_insert_eq by lia|rewrite nth_alter_eq by lia].
      * unfold NET_ETH_FRAME_MAX in Hf2. apply u16_small. lia.
      * unfold copy_into. by rewrite take_app_length.
  - by apply Forall_app_2; [|constructor].
Qed.

Lemma dequeue_rep d f q :
  ring_rep d (f :: q) -> forall len, Z.of_nat (length f) <= len ->
  (dequeue len d).1 = (0, f) /\ ring_rep (dequeue len d).2 q.
Proof.
  intros R len Hlen. destruct (R) as [Hs Hl Hh [Hc Hle] Ht Hfr Hok]. simpl in Hc, Hle.
  assert (H0 : slot (rx_head d) (Z.of_nat 0) = Z.to_nat (rx_head d)).
  { unfold slot. rewrite Z.add_0_r, Z.mod_small by lia. done. }
  destruct (Hfr 0%nat f eq_refl) as [F1 F2]. rewrite H0 in F1, F2.
  unfold dequeue. rewrite (proj2 (Z.eqb_neq _ _)) by lia. rewrite F1, (proj2 (Z.ltb_ge _ _)), Nat2Z.id, F2 by lia.
  split; [done|]. rewrite u64_small by lia.
  assert (Hsl : forall i, 0 <= i -> slot ((rx_head d + 1) `mod` 16) i = slot (rx_head d) (i + 1)).
  { intros i Hi. unfold slot. f_equal. zdiv. }
  constructor; simpl; rewrite ?length_insert; try done.
  - by apply Z.mod_pos_bound.
  - lia.
  - change (Z.of_nat NETDEV_RX_QUEUE_LEN) with 16. rewrite Ht. zdiv.
  - intros i g Hi. change (Z.of_nat NETDEV_RX_QUEUE_LEN) with 16. rewrite Hsl by lia.
    replace (Z.of_nat i + 1) with (Z.of_nat (S i)) by lia. destruct (Hfr (S i) g Hi) as [G1 G2].
    assert (Hne : Z.to_nat (rx_head d) <> slot (rx_head d) (Z.of_nat (S i))).
    { rewrite <- H0. apply lookup_lt_Some in Hi. intros E. apply slot_inj in E; simpl in *; lia. }
    split; simpl; [by rewrite nth_insert_ne|done].
  - by inversion Hok.
Qed.

Lemma ring_op d q op :
  ring_rep d q -> (forall f, op = RxFrame f -> frame_ok f) ->
  (rx_op_run op d).2 = (fifo_op q op).2 /\ ring_rep (rx_op_run op d).1 (fifo_op q op).1.
Proof.
  intros R Hop. destruct op as [f|len]; simpl.
  - split; [done|]. pose proof (rr_count _ _ R) as [_ Hle]. unfold NETDEV_RX_QUEUE_LEN.
    destruct (length q =? 16)%nat eqn:E; [apply Nat.eqb_eq in E; by apply enqueue_full|].
    apply Nat.eqb_neq in E. apply enqueue_rep; [done|by apply Hop|lia].
  - destruct q as [|f q].
    + pose proof (rr_count _ _ R) as [Hc _]. unfold dequeue. by rewrite Hc.
    + destruct (len <? Z.of_nat (length f)) eqn:E; bools.
      * destruct (rr_frames _ _ R 0%nat f eq_refl) as [F1 _]. pose proof (rr_count _ _ R) as [Hc _]. simpl in Hc.
        assert (slot (rx_head d) (Z.of_nat 0) = Z.to_nat (rx_head d)) as H0.
        { unfold slot. pose proof (rr_head _ _ R). rewrite Z.add_0_r, Z.mod_small by lia. done. }
        rewrite H0 in F1. unfold dequeue. rewrite (proj2 (Z.eqb_neq _ _)) by lia.
        by rewrite F1, (proj2 (Z.ltb_lt _ _)) by lia.
      * destruct (dequeue_rep d f q R len E) as [-> R']. done.
Qed.

(** the receive queue is a bounded first-in first-out queue.  From a newly
    registered device, any sequence of arriving frames and reads of the device file
    gives exactly the results of a queue of at most sixteen frames: frames come out
    whole and in order of arrival, a frame that finds the queue full is dropped, a
    read with too small a buffer takes nothing, across any number of wrap-arounds. *)
Theorem rx_queue_fifo src ops :
  (forall f, RxFrame f ∈ ops -> frame_ok f) ->
  (rx_run ops (fresh_dev src)).2 = (fifo_run [] ops).2.
Proof.
  intros Hops. assert (R : ring_rep (fresh_dev src) []).
  { constructor; simpl; try done; lia. }
  revert R. generalize (fresh_dev src) as d, (@nil (list Z)) as q.
  induction ops as [|op ops IH]; intros d q R; [done|]. simpl.
  destruct (ring_op d q op R) as [H1 H2].
  { intros f ->. apply Hops. apply elem_of_cons. by left. }
  rewrite H1. f_equal. apply IH; [|done]. intros f Hf. apply Hops. apply elem_of_cons. by right.
Qed.

(** ** Sending to oneself *)

Lemma ntohs_field v : ntohs (htons v `mod` 256 + 256 * ((htons v / 256) `mod` 256)) = u16 v.
Proof.
  pose proof (st16_htons v) as E. unfold st16 in E. injection E as -> ->.
  pose proof (u16_range v). rewrite ntohs_ld by zdiv. zdiv.
Qed.
Lemma ntohl_field v :
  ntohl (htonl v `mod` 256 + 256 * ((htonl v / 256) `mod` 256) + 65536 * ((htonl v / 65536) `mod` 256) +
         16777216 * ((htonl v / 16777216) `mod` 256)) = u32 v.
Proof.
  destruct (htonl_bytes v) as (a & b & c & d & E & -> & Ha & Hb & Hc & Hd).
  unfold st32 in E. injection E as -> -> -> ->. by apply ntohl_ld.
Qed.

(** A hardware address has six bytes. *)
Lemma mac_bytes (m : list Z) : length m = 6%nat -> exists a b c d e f, m = [a; b; c; d; e; f].
Proof.
  intros H. destruct m as [|a [|b [|c [|d [|e [|f [|]]]]]]]; simpl in H; try lia. by exists a, b, c, d, e, f.
Qed.

(** What the receiver makes of an IPv4 frame with an option-free header. *)
Lemma parse_ipv4_frame d dm sm t i p src dst body :
  length dm = 6%nat -> length sm = 6%nat -> 20 <= t < 65536 -> t <= 20 + Z.of_nat (length body) ->
  let ip := ipv4_hdr t i p src dst ++ body in
  parse_ipv4 d (eth_hdr dm sm ETH_P_IP ++ ip) = Some (mkRx d sm ip 20 t).
Proof.
  intros Hd Hs Ht Hlen ip.
  destruct (mac_bytes dm Hd) as (? & ? & ? & ? & ? & ? & ->).
  destruct (mac_bytes sm Hs) as (? & ? & ? & ? & ? & ? & ->).
  assert (Hip : length ip = (20 + length body)%nat) by (unfold ip; by rewrite length_app).
  unfold parse_ipv4. rewrite length_app, Hip.
  change (length (eth_hdr _ _ _)) with 14%nat.
  change (negb (ntohs (ld16 _ 12) =? ETH_P_IP)) with false.
  unfold sizeof_eth_hdr, sizeof_ipv4_hdr. rewrite (proj2 (Z.ltb_ge _ _)) by lia. cbn [orb].
  change (drop 14 _) with ip. change (Z.land (byte_at ip 0) 15 * 4) with 20.
  rewrite (proj2 (Z.ltb_ge _ _)), (proj2 (Z.ltb_ge _ _)) by lia. cbn [orb].
  assert (ntohs (ld16 ip 2) = t) as -> by (etrans; [apply (ntohs_field t)|apply u16_small; lia]).
  by rewrite (proj2 (Z.ltb_ge _ _)), (proj2 (Z.ltb_ge _ _)) by lia.
Qed.

Section udp.
Context (driver_send : nat -> list Z -> M net Z) (udp_handler : Z -> net_udp_dgram -> M net Z).
Context (tcp_receive : (nat -> list Z -> M net unit) -> net_ipv4_rx_info -> M net Z) (raw_receive : net_ipv4_rx_info -> M net unit).

(** The datagram a receiver sees. *)
Definition udp_dgram (d : nat) (dm sm : list Z) (src dst sp dp : Z) (payload : list Z) : net_udp_dgram :=
  let len := 8 + Z.of_nat (length payload) in
  mkDgram (mkRx d sm (drop 14 (udp_frame dm sm src dst sp dp payload)) 20 (20 + len)) payload len src dst sp dp.

Lemma udp_received d dm sm src dst sp dp payload s :
  length dm = 6%nat -> length sm = 6%nat -> 0 <= src < 2 ^ 32 -> 0 <= dst < 2 ^ 32 ->
  0 <= sp < 65536 -> 0 <= dp < 65536 -> (length payload <= 1400)%nat ->
  let dg := udp_dgram d dm sm src dst sp dp payload in
  udp_ipv4_receive udp_handler (dg_rx dg) s = net_udp_deliver udp_handler dg s.
Proof.
  intros Hd Hs Hsrc Hdst Hsp Hdp Hl dg.
  destruct (mac_bytes dm Hd) as (? & ? & ? & ? & ? & ? & ->).
  destruct (mac_bytes sm Hs) as (? & ? & ? & ? & ? & ? & ->).
  unfold udp_ipv4_receive. cbn [dg_rx dg udp_dgram rx_ip_len rx_ihl rx_ip].
  unfold sizeof_udp_hdr. rewrite (proj2 (Z.ltb_ge _ _)) by lia.
  set (ip := drop 14 _). set (udp := drop (Z.to_nat 20) ip).
  assert (ntohs (ld16 udp 4) = 8 + Z.of_nat (length payload)) as ->.
  { etrans; [apply (ntohs_field (8 + Z.of_nat (length payload)))|apply u16_small; lia]. }
  rewrite !(proj2 (Z.ltb_ge _ _)) by lia. cbn [orb].
  assert (ntohl (ld32 ip 12) = src) as -> by (etrans; [apply (ntohl_field src)|apply u32_small; lia]).
  assert (ntohl (ld32 ip 16) = dst) as -> by (etrans; [apply (ntohl_field dst)|apply u32_small; lia]).
  assert (ntohs (ld16 udp 0) = sp) as -> by (etrans; [apply (ntohs_field sp)|apply u16_small; lia]).
  assert (ntohs (ld16 udp 2) = dp) as -> by (etrans; [apply (ntohs_field dp)|apply u16_small; lia]).
  change (drop 8 udp) with payload. rewrite take_ge by lia. done.
Qed.

Lemma receive_udp_frame d dm sm src dst sp dp payload s x f :
  length dm = 6%nat -> length sm = 6%nat -> 0 <= src < 2 ^ 32 -> 0 <= dst < 2 ^ 32 ->
  0 <= sp < 65536 -> 0 <= dp < 65536 -> (length payload <= 1400)%nat ->
  devs s !! d = Some x -> find_proto (ipv4_protocols s) IP_PROTO_UDP = Some udp_receiver ->
  let frame := udp_frame dm sm src dst sp dp payload in
  net_receive_frame driver_send udp_handler tcp_receive raw_receive (S f) d frame s =
  (net_udp_deliver udp_handler (udp_dgram d dm sm src dst sp dp payload) ;;; ret tt)
    (set_devs (alter (enqueue frame) d) s).
Proof.
  intros Hd Hs Hsrc Hdst Hsp Hdp Hl Hx Hp frame.
  assert (Hlen : length frame = (42 + length payload)%nat).
  { destruct (mac_bytes dm Hd) as (? & ? & ? & ? & ? & ? & ->).
    destruct (mac_bytes sm Hs) as (? & ? & ? & ? & ? & ? & ->). reflexivity. }
  simpl net_receive_frame. unfold receive_frame_body. rewrite Hlen. unfold sizeof_eth_hdr.
  rewrite (proj2 (Z.ltb_ge _ _)) by lia. unfold netdev_enqueue_rx. rewrite Hlen. unfold NET_ETH_FRAME_MAX.
  rewrite (proj2 (Z.eqb_neq _ _)), (proj2 (Z.ltb_ge _ _)) by lia. cbn [orb].
  assert (ntohs (ld16 frame 12) = ETH_P_IP) as ->.
  { unfold frame. destruct (mac_bytes dm Hd) as (? & ? & ? & ? & ? & ? & ->).
    destruct (mac_bytes sm Hs) as (? & ? & ? & ? & ? & ? & ->). reflexivity. }
  change (ETH_P_IP =? ETH_P_ARP) with false. cbn [andb].
  unfold frame at 2, udp_frame.
  rewrite parse_ipv4_frame; [|done|done|unfold sizeof_ipv4_hdr, sizeof_udp_hdr; lia|].
  2: { rewrite !length_app. unfold sizeof_ipv4_hdr, sizeof_udp_hdr. simpl length. lia. }
  unfold upd_dev, modify, bind at 1. unfold net_ipv4_receive. rewrite !bind_assoc.
  change (ret tt) with (ret tt : M net unit). unfold gets, bind at 1. cbn [ipv4_protocols set_devs].
  change (byte_at _ 9) with IP_PROTO_UDP. rewrite Hp. unfold bind.
  pose proof (udp_received d dm sm src dst sp dp payload (set_devs (alter (enqueue frame) d) s)
    Hd Hs Hsrc Hdst Hsp Hdp Hl) as E. cbn zeta in E.
  assert (Hrx : dg_rx (udp_dgram d dm sm src dst sp dp payload) = mkRx d sm (drop 14 frame) 20
    (20 + (8 + Z.of_nat (length payload)))) by done.
  rewrite Hrx in E.
  assert (Hdrop : drop 14 frame = ipv4_hdr (sizeof_ipv4_hdr + (sizeof_udp_hdr + Z.of_nat (length payload)))
     17480 IP_PROTO_UDP src dst ++ st16 (htons sp) ++ st16 (htons dp) ++
     st16 (htons (sizeof_udp_hdr + Z.of_nat (length payload))) ++ st16 0 ++ payload).
  { unfold frame. destruct (mac_bytes dm Hd) as (? & ? & ? & ? & ? & ? & ->).
    destruct (mac_bytes sm Hs) as (? & ? & ? & ? & ? & ? & ->). reflexivity. }
  rewrite Hdrop in E. unfold sizeof_ipv4_hdr, sizeof_udp_hdr in *. rewrite E. done.
Qed.

Lemma udp_self_run d dm src dst sp dp payload s x f :
  length dm = 6%nat -> length (mac x) = 6%nat -> 0 <= src < 2 ^ 32 -> 0 <= dst < 2 ^ 32 ->
  0 <= sp < 65536 -> 0 <= dp < 65536 -> (length payload <= 1400)%nat ->
  devs s !! d = Some x -> dst = ipv4_addr x ->
  find_proto (ipv4_protocols s) IP_PROTO_UDP = Some udp_receiver ->
  let recv := net_receive_frame driver_send udp_handler tcp_receive raw_receive (S f) in
  net_send_ipv4_udp driver_send recv (Some d) dm src dst sp dp (Some payload) s =
  (upd_dev d (fun x => set_tx (u64 (tx_packets x + 1)) x) ;;;
   upd_dev d (enqueue (udp_frame dm (mac x) src dst sp dp payload)) ;;;
   net_udp_deliver udp_handler (udp_dgram d dm (mac x) src dst sp dp payload) ;;;
   ret 0) s.
Proof.
  intros Hd Hs Hsrc Hdst Hsp Hdp Hl Hx Hown Hp recv. unfold net_send_ipv4_udp.
  rewrite (proj2 (Z.ltb_ge _ _)) by lia.
  rewrite (proj2 (Z.ltb_ge _ _)) by (unfold NET_ETH_FRAME_MAX, sizeof_eth_hdr, sizeof_ipv4_hdr, sizeof_udp_hdr; lia).
  assert (Hg : get_dev d s = Ret x s) by (unfold get_dev; by rewrite Hx).
  rewrite (bind_ret _ _ _ _ _ Hg). unfold transmit. rewrite (bind_ret _ _ _ _ _ Hg).
  rewrite (proj2 (Z.eqb_eq _ _) Hown). unfold upd_dev, modify, bind, recv.
  rewrite (receive_udp_frame d dm (mac x) src dst sp dp payload _ (set_tx (u64 (tx_packets x + 1)) x)); try done.
  - unfold bind. by destruct (net_udp_deliver _ _ _).
  - simpl. rewrite list_lookup_alter_eq, Hx. done.
Qed.

(** One call after the other, whatever each returns. *)
Definition call_each (calls : list (M net Z)) : M net unit :=
  foldr (fun c k => c ;;; k) (ret tt) calls.

Lemma deliver_calls hs dg b s :
  (deliver_loop udp_handler hs dg b ;;; ret tt) s = call_each (map (fun h => udp_handler h dg) (omap id hs)) s.
Proof.
  revert b s. induction hs as [|[h|] hs IH]; intros b s; [done| |apply IH].
  change (omap id (Some h :: hs)) with (h :: omap id hs). cbn [deliver_loop map call_each foldr]. rewrite bind_assoc.
  unfold bind at 1 3. destruct (udp_handler h dg s) as [r s'| | |]; [apply IH|done..].
Qed.

(** C21: a UDP datagram sent to the device's own address arrives as it was sent, for
    every payload of at most 1400 bytes.  The send counts a packet, puts the frame in
    the receive queue and then calls every registered handler, in the order of the
    table and each of them once, whatever those before it returned, with a datagram
    that has the sender's addresses, ports and payload; the result is 0.  This
    composes the frame builder, the loop-back path, the frame and UDP parsers and the
    dispatch. *)
Theorem udp_self_roundtrip d dm src dst sp dp payload s x f :
  length dm = 6%nat -> length (mac x) = 6%nat -> 0 <= src < 2 ^ 32 -> 0 <= dst < 2 ^ 32 ->
  0 <= sp < 65536 -> 0 <= dp < 65536 -> (length payload <= 1400)%nat ->
  devs s !! d = Some x -> dst = ipv4_addr x ->
  find_proto (ipv4_protocols s) IP_PROTO_UDP = Some udp_receiver ->
  let recv := net_receive_frame driver_send udp_handler tcp_receive raw_receive (S f) in
  let registered := omap id (udp_handlers s) in
  net_send_ipv4_udp driver_send recv (Some d) dm src dst sp dp (Some payload) s =
  (upd_dev d (fun x => set_tx (u64 (tx_packets x + 1)) x) ;;;
   upd_dev d (enqueue (udp_frame dm (mac x) src dst sp dp payload)) ;;;
   call_each (map (fun h => udp_handler h (udp_dgram d dm (mac x) src dst sp dp payload)) registered) ;;;
   ret 0) s.
Proof.
  intros Hd Hs Hsrc Hdst Hsp Hdp Hl Hx Hown Hp recv registered. unfold recv, registered.
  rewrite (udp_self_run d dm src dst sp dp payload s x f) by done.
  unfold upd_dev, modify, bind at 1 2 4 5. unfold bind at 1 2. rewrite <- (deliver_calls _ _ false).
  unfold net_udp_deliver, gets, bind. cbn [udp_handlers set_devs]. by destruct (deliver_loop _ _ _ _ _).
Qed.

(** ** Echo requests *)

Definition echo_rx (d : nat) (frame sm : list Z) : net_ipv4_rx_info := mkRx d sm (drop 14 frame) 20 60.

Lemma icmp_echo_length dm sm src dst type ident seq data :
  length dm = 6%nat -> length sm = 6%nat -> length data = 32%nat ->
  length (icmp_echo_frame dm sm src dst type ident seq (Some data)) = 74%nat.
Proof.
  intros Hd Hs Hl. unfold icmp_echo_frame, eth_hdr, icmp_fields. rewrite !length_app, Hd, Hs, length_take, Hl. reflexivity.
Qed.

Lemma echo_received d dm sm src dst type ident seq data s :
  length dm = 6%nat -> length sm = 6%nat -> length data = 32%nat ->
  find_proto (ipv4_protocols s) IP_PROTO_ICMP = Some icmp_receiver ->
  let frame := icmp_echo_frame dm sm src dst type ident seq (Some data) in
  forall f, net_receive_frame driver_send udp_handler tcp_receive raw_receive (S f) d frame s =
  (icmp_ipv4_receive driver_send raw_receive
     (net_receive_frame driver_send udp_handler tcp_receive raw_receive f) (echo_rx d frame sm) ;;; ret tt)
    (set_devs (alter (enqueue frame) d) s).
Proof.
  intros Hd Hs Hl Hp frame f. pose proof (icmp_echo_length dm sm src dst type ident seq data Hd Hs Hl) as Hlen.
  fold frame in Hlen. simpl net_receive_frame. unfold receive_frame_body. rewrite Hlen.
  change (Z.of_nat 74 <? sizeof_eth_hdr) with false. unfold netdev_enqueue_rx. rewrite Hlen.
  change ((Z.of_nat 74 =? 0) || (NET_ETH_FRAME_MAX <? Z.of_nat 74)) with false. cbn iota.
  assert (ntohs (ld16 frame 12) = ETH_P_IP) as ->.
  { unfold frame. destruct (mac_bytes dm Hd) as (? & ? & ? & ? & ? & ? & ->).
    destruct (mac_bytes sm Hs) as (? & ? & ? & ? & ? & ? & ->). reflexivity. }
  change (ETH_P_IP =? ETH_P_ARP) with false. cbn [andb].
  assert (Hpa : parse_ipv4 d frame = Some (echo_rx d frame sm)).
  { unfold frame, icmp_echo_frame. rewrite parse_ipv4_frame; [|done|done|by unfold sizeof_ipv4_hdr, sizeof_icmp_echo|].
    - unfold echo_rx. do 2 f_equal. destruct (mac_bytes dm Hd) as (? & ? & ? & ? & ? & ? & ->).
      destruct (mac_bytes sm Hs) as (? & ? & ? & ? & ? & ? & ->). reflexivity.
    - unfold icmp_fields. rewrite !length_app, length_take, Hl. simpl. by unfold sizeof_ipv4_hdr, sizeof_icmp_echo. }
  rewrite Hpa. unfold upd_dev, modify, bind at 1. unfold net_ipv4_receive. rewrite !bind_assoc.
  unfold gets, bind at 1. cbn [ipv4_protocols set_devs].
  assert (byte_at (rx_ip (echo_rx d frame sm)) 9 = IP_PROTO_ICMP) as ->.
  { unfold frame. destruct (mac_bytes dm Hd) as (? & ? & ? & ? & ? & ? & ->).
    destruct (mac_bytes sm Hs) as (? & ? & ? & ? & ? & ? & ->). reflexivity. }
  by rewrite Hp.
Qed.

(** what an echo request is answered with.  A well-formed echo request for the
    device's address, on a device with a driver, makes it send exactly one frame: an
    echo reply with the request's identifier, sequence number and data and with the
    IPv4 addresses exchanged.  Its Ethernet destination is the device's own address,
    not that of the station that asked. *)
Theorem icmp_echo_reply d dm sm src dst ident seq data s x f :
  length dm = 6%nat -> length sm = 6%nat -> length data = 32%nat ->
  0 <= src < 2 ^ 32 -> 0 <= dst < 2 ^ 32 -> 0 <= ident < 65536 -> 0 <= seq < 65536 ->
  devs s !! d = Some x -> dst = ipv4_addr x -> dops x = driver_ops ->
  find_proto (ipv4_protocols s) IP_PROTO_ICMP = Some icmp_receiver ->
  (forall rx s1 s2, raw_receive rx s1 = Ret tt s2 -> devs s2 = devs s1) ->
  let frame := icmp_echo_frame dm sm src dst ICMP_ECHO_REQUEST ident seq (Some data) in
  net_receive_frame driver_send udp_handler tcp_receive raw_receive (S f) d frame s =
  (upd_dev d (enqueue frame) ;;;
   raw_receive (echo_rx d frame sm) ;;;
   driver_send d (icmp_echo_frame (mac x) (mac x) dst src ICMP_ECHO_REPLY ident seq (Some data)) ;;;
   ret tt) s.
Proof.
  intros Hd Hs Hl Hsrc Hdst Hid Hseq Hx Hown Hop Hp Hraw frame.
  unfold frame. rewrite echo_received by done. fold frame.
  change ((upd_dev d (enqueue frame) ;;; raw_receive (echo_rx d frame sm) ;;;
    driver_send d (icmp_echo_frame (mac x) (mac x) dst src ICMP_ECHO_REPLY ident seq (Some data)) ;;; ret tt) s)
    with ((raw_receive (echo_rx d frame sm) ;;;
    driver_send d (icmp_echo_frame (mac x) (mac x) dst src ICMP_ECHO_REPLY ident seq (Some data)) ;;; ret tt)
      (set_devs (alter (enqueue frame) d) s)).
  set (s1 := set_devs (alter (enqueue frame) d) s).
  assert (Hx1 : devs s1 !! d = Some (enqueue frame x)) by (unfold s1; simpl; by rewrite list_lookup_alter_eq, Hx).
  assert (Hsame : mac (enqueue frame x) = mac x /\ ipv4_addr (enqueue frame x) = ipv4_addr x /\
    dops (enqueue frame x) = dops x) by (unfold enqueue; by destruct (rx_count x =? _)).
  destruct Hsame as (Hm & Ha & Ho).
  assert (Hg : forall s2, devs s2 = devs s1 -> get_dev d s2 = Ret (enqueue frame x) s2).
  { intros s2 E. unfold get_dev. by rewrite E, Hx1. }
  assert (Hfields : let rx := echo_rx d frame sm in let icmp := drop (Z.to_nat (rx_ihl rx)) (rx_ip rx) in
    ntohl (ld32 (rx_ip rx) 16) = dst /\ ntohl (ld32 (rx_ip rx) 12) = src /\ byte_at icmp 0 = 8 /\
    ntohs (ld16 icmp 4) = ident /\ ntohs (ld16 icmp 6) = seq /\ take 32 (drop 8 icmp) = data).
  { unfold echo_rx, frame. destruct (mac_bytes dm Hd) as (? & ? & ? & ? & ? & ? & ->).
    destruct (mac_bytes sm Hs) as (? & ? & ? & ? & ? & ? & ->). cbn [rx_ip rx_ihl]. split_and!.
    - etrans; [apply (ntohl_field dst)|apply u32_small; lia].
    - etrans; [apply (ntohl_field src)|apply u32_small; lia].
    - reflexivity.
    - etrans; [apply (ntohs_field ident)|apply u16_small; lia].
    - etrans; [apply (ntohs_field seq)|apply u16_small; lia].
    - change (take 32 (take 32 data) = data). rewrite take_take. apply take_ge. lia. }
  cbn zeta in Hfields. destruct Hfields as (F1 & F2 & F3 & F4 & F5 & F6).
  unfold icmp_ipv4_receive. rewrite F1, F2, F3, F4, F5, F6. cbn [rx_dev echo_rx rx_ip_len rx_ihl].
  rewrite bind_assoc, (bind_ret _ _ _ _ _ (Hg s1 eq_refl)). rewrite Ha, Hown, Z.eqb_refl. cbn [negb].
  change (60 <? 20 + sizeof_icmp_echo) with false. change (8 =? ICMP_ECHO_REQUEST) with true. cbn iota.
  unfold send_icmp_echo_packet, dev_send, bind.
  destruct (raw_receive (echo_rx d frame sm) s1) as [[] s2| | |] eqn:Er; [|done..].
  rewrite !(Hg s2 (Hraw _ _ _ Er)), !Hm, !Ho, Hop.
  by destruct (driver_send d _ s2).
Qed.
End udp.

(** ** A concrete network *)

Definition ex_card : netdev :=
  fresh_dev (mkDev [101; 116; 104; 48] [82; 84; 0; 18; 52; 86] false (net_ipv4 10 0 2 15) (net_ipv4 10 0 2 2)
    (net_ipv4 255 255 255 0) 0 0 driver_ops [] [] 0 0 0 false 0 0 0 0 false).
Definition ex_lo : netdev :=
  fresh_dev (mkDev [108; 111] [0; 0; 0; 0; 0; 0] true (net_ipv4 127 0 0 1) 0 (net_ipv4 255 0 0 0) 0 65535
    loopback_ops [] [] 0 0 0 false 0 0 0 0 false).

(** The empty core with two devices, then initialised. *)
Definition ex_net0 : net :=
  mkNet [ex_lo; ex_card] (Some 1%nat) (replicate ARP_CACHE_LEN (mkArp None 0 [] 0)) [] None 0 false
    (replicate NET_IPV4_PROTOCOL_MAX None) (replicate NET_UDP_HANDLER_MAX None) false
    false 0 0 0 None 0 no_ping 1000 100 (upper0 (fun _ => true)).
Definition ex_net : net := final net_proto_init ex_net0.

(** Every protocol finds its receiver, and both handlers are registered. *)
Lemma ex_net_dispatch :
  find_proto (ipv4_protocols ex_net) IP_PROTO_UDP = Some udp_receiver /\
  find_proto (ipv4_protocols ex_net) IP_PROTO_ICMP = Some icmp_receiver /\
  find_proto (ipv4_protocols ex_net) IP_PROTO_TCP = Some tcp_receiver /\
  omap id (udp_handlers ex_net) = [dhcp_udp_handler; dns_udp_handler].
Proof. vm_compute. done. Qed.

(** A TCP segment with three bytes of data. *)
Lemma frames_checksums_valid_witness :
  let tcp := tcp_frame (mac ex_card) (mac ex_lo) 1 2 68 67 1 0 2 0 (mkTcpOpt true true 7 true) [1; 2; 3] in
  ones_sum (words16 (pseudo_header tcp ++ ip_payload tcp)) = 65535.
Proof.
  assert (Hb : Forall is_byte [1; 2; 3]) by (repeat constructor; discriminate).
  exact (proj2 (proj2 (proj2 (proj2 (proj2 (proj2
    (frames_checksums_valid (mac ex_card) (mac ex_lo) 1 2 68 67 8 1 1 0 2 0
    (mkTcpOpt true true 7 true) [1; 2; 3] None eq_refl eq_refl ltac:(split; [discriminate|reflexivity])
    ltac:(split; [discriminate|reflexivity]) ltac:(split; [discriminate|reflexivity]) Hb ltac:(simpl; lia)
    ltac:(intros p E; discriminate E)))))))).
Defined.

Lemma arp_store_lookup_witness :
  arp_cache_lookup (final (arp_cache_store 1 (net_ipv4 10 0 2 2) [1; 2; 3; 4; 5; 6]) ex_net) 1 (net_ipv4 10 0 2 2)
    = Some [1; 2; 3; 4; 5; 6].
Proof.
  exact (proj1 (arp_store_lookup ex_net 1 (net_ipv4 10 0 2 2) [1; 2; 3; 4; 5; 6] 1000 eq_refl
    ltac:(split; discriminate) ltac:(split; reflexivity))).
Defined.

Lemma rx_queue_fifo_witness :
  (rx_run [RxFrame [1; 2]; RxFrame [3]; RxRead 1; RxRead 9; RxRead 9; RxRead 9] (fresh_dev ex_card)).2 =
  [None; None; Some (- EINVAL, []); Some (0, [1; 2]); Some (0, [3]); Some (0, [])].
Proof.
  apply (rx_queue_fifo ex_card [RxFrame [1; 2]; RxFrame [3]; RxRead 1; RxRead 9; RxRead 9; RxRead 9]).
  intros f Hf. rewrite !elem_of_cons, elem_of_nil in Hf.
  destruct Hf as [E|[E|[E|[E|[E|[E|E]]]]]]; try discriminate E; try contradiction; injection E as ->;
    split; simpl; (lia || discriminate).
Defined.

(** A driver that accepts every frame, and no one else listening. *)
Definition ex_send (d : nat) (frame : list Z) : M net Z := ret 0.
Definition ex_handler (h : Z) (dg : net_udp_dgram) : M net Z := ret (if h =? dns_udp_handler then 1 else 0).

Lemma udp_self_roundtrip_witness :
  exists s', net_send_ipv4_udp ex_send
    (net_receive_frame ex_send ex_handler (fun _ _ => ret 0) (fun _ => ret tt) 1)
    (Some 1%nat) [1; 2; 3; 4; 5; 6] 7 (net_ipv4 10 0 2 15) 68 67 (Some [9; 8; 7]) ex_net = Ret 0 s'.
Proof.
  eexists. rewrite (udp_self_roundtrip ex_send ex_handler (fun _ _ => ret 0) (fun _ => ret tt) 1
    [1; 2; 3; 4; 5; 6] 7 (net_ipv4 10 0 2 15) 68 67 [9; 8; 7] ex_net ex_card 0);
    [reflexivity|reflexivity|reflexivity|lia|split; [discriminate|reflexivity]|lia|lia|simpl; lia|reflexivity|reflexivity|reflexivity].
Defined.

Lemma icmp_echo_reply_witness :
  exists s', net_receive_frame ex_send ex_handler (fun _ _ => ret 0) (fun _ => ret tt) 1 1
    (icmp_echo_frame (mac ex_card) [2; 2; 2; 2; 2; 2] (net_ipv4 10 0 2 2) (net_ipv4 10 0 2 15) ICMP_ECHO_REQUEST 3 4
      (Some (replicate 32 5))) ex_net = Ret tt s'.
Proof.
  eexists. rewrite (icmp_echo_reply ex_send ex_handler (fun _ _ => ret 0) (fun _ => ret tt) 1
    (mac ex_card) [2; 2; 2; 2; 2; 2] (net_ipv4 10 0 2 2) (net_ipv4 10 0 2 15) 3 4 (replicate 32 5) ex_net ex_card 0);
    [reflexivity|reflexivity|reflexivity|reflexivity|split; [discriminate|reflexivity]|split; [discriminate|reflexivity]
    |lia|lia|reflexivity|reflexivity|reflexivity|reflexivity|].
  intros rx s1 s2 E. injection E as <-. reflexivity.
Defined.
