(* ===== verification/TcpRing.v ===== *)
(** * The receive ring of a TCP connection is a byte queue

    The bytes a ring holds, and what pushing, popping and growing do to them.  The
    states these operations leave are given in full, as updates of the connection and
    of its buffer. *)

From stdpp Require Import base gmap list.
From Stdlib Require Import ZArith Lia.
From S2P Require Import Prelude Wire NetState Net Tcp.

Local Open Scope Z_scope.

(** ** Buffers *)

Lemma write_bytes_lookup m off l i :
  write_bytes m off l !! i =
  if (off <=? i) && (i <? off + Z.of_nat (length l)) then l !! Z.to_nat (i - off) else m !! i.
Proof.
  revert m off. induction l as [|x l IH]; intros m off; cbn [write_bytes length].
  - destruct (off <=? i) eqn:E1, (i <? off + Z.of_nat 0) eqn:E2; simpl; try done. blia.
  - rewrite IH. destruct (decide (i = off)) as [->|Hne].
    + destruct (off + 1 <=? off) eqn:E1; [blia|]. rewrite (proj2 (Z.leb_le off off)) by lia.
      cbn [andb]. rewrite (proj2 (Z.ltb_lt off _)) by lia. rewrite lookup_insert_eq, Z.sub_diag. reflexivity.
    + rewrite (lookup_insert_ne m off i x) by done.
      destruct (off + 1 <=? i) eqn:E1, (i <? off + 1 + Z.of_nat (length l)) eqn:E2,
        (off <=? i) eqn:E3, (i <? off + Z.of_nat (S (length l))) eqn:E4; simpl; try done; try blia.
      replace (Z.to_nat (i - off)) with (S (Z.to_nat (i - (off + 1)))) by blia. done.
Qed.

Lemma write_bytes_nil m off : write_bytes m off [] = m.
Proof. done. Qed.

Definition wr_buf (b : nbuf) (off : Z) (l : list Z) : nbuf := mkBuf (b_size b) (write_bytes (b_bytes b) off l).

Lemma buf_byte_wr b off l i :
  buf_byte (wr_buf b off l) i =
  if (off <=? i) && (i <? off + Z.of_nat (length l)) then nth (Z.to_nat (i - off)) l 0 else buf_byte b i.
Proof.
  unfold buf_byte, wr_buf. simpl. rewrite write_bytes_lookup.
  destruct ((off <=? i) && (i <? off + Z.of_nat (length l))); [|done].
  symmetry. apply nth_lookup.
Qed.

(** ** States *)

Definition put_conn (a : Z) (c : tcp_conn) (s : net) : net :=
  set_up (fun u => set_conns (<[a := c]> (conns u)) u) s.
Definition put_buf (a : Z) (b : nbuf) (s : net) : net :=
  set_up (fun u => set_bufs (<[a := b]> (bufs u)) u) s.

Lemma set_up_set_up f g s : set_up f (set_up g s) = set_up (fun u => f (g u)) s.
Proof. done. Qed.

Lemma set_up_id s : set_up (fun u => u) s = s.
Proof. by destruct s. Qed.

Lemma put_conn_conn a c c' s : put_conn a c (put_conn a c' s) = put_conn a c s.
Proof.
  unfold put_conn. rewrite set_up_set_up. unfold set_up, set_conns. simpl. by rewrite insert_insert_eq.
Qed.
Lemma put_buf_buf a b b' s : put_buf a b (put_buf a b' s) = put_buf a b s.
Proof.
  unfold put_buf. rewrite set_up_set_up. unfold set_up, set_bufs. simpl. by rewrite insert_insert_eq.
Qed.
Lemma put_buf_conn a b a' c s : put_buf a b (put_conn a' c s) = put_conn a' c (put_buf a b s).
Proof. done. Qed.
Lemma put_conn_id a c s : conns (up s) !! a = Some c -> put_conn a c s = s.
Proof.
  intros H. unfold put_conn. rewrite <- (set_up_id s) at 2. unfold set_up, set_conns. rewrite insert_id by done.
  by destruct (up s).
Qed.
Lemma put_buf_id a b s : bufs (up s) !! a = Some b -> put_buf a b s = s.
Proof.
  intros H. unfold put_buf. rewrite <- (set_up_id s) at 2. unfold set_up, set_bufs. rewrite insert_id by done.
  by destruct (up s).
Qed.
Lemma conns_put a c s : conns (up (put_conn a c s)) !! a = Some c.
Proof. apply lookup_insert_eq. Qed.
Lemma bufs_put a b s : bufs (up (put_buf a b s)) !! a = Some b.
Proof. apply lookup_insert_eq. Qed.

Lemma get_conn_run a c s : conns (up s) !! a = Some c -> get_conn a s = Ret c s.
Proof. unfold get_conn. by intros ->. Qed.
Lemma get_buf_run a b s : bufs (up s) !! a = Some b -> get_buf a s = Ret b s.
Proof. unfold get_buf. by intros ->. Qed.
Lemma upd_conn_run a f c s : conns (up s) !! a = Some c -> upd_conn a f s = Ret tt (put_conn a (f c) s).
Proof. intros H. unfold upd_conn. by rewrite (bind_ret _ _ _ _ _ (get_conn_run _ _ _ H)). Qed.

Lemma buf_write_run a off l b s :
  bufs (up s) !! a = Some b -> 0 <= off -> off + Z.of_nat (length l) <= b_size b ->
  buf_write a off l s = Ret tt (put_buf a (wr_buf b off l) s).
Proof.
  intros H H1 H2. unfold buf_write. rewrite (bind_ret _ _ _ _ _ (get_buf_run _ _ _ H)).
  rewrite (proj2 (Z.ltb_ge off 0)), (proj2 (Z.ltb_ge (b_size b) _)) by lia. done.
Qed.
Lemma buf_read_run a off len b s :
  bufs (up s) !! a = Some b -> 0 <= off -> off + len <= b_size b ->
  buf_read a off len s = Ret (read_bytes b off (Z.to_nat len)) s.
Proof.
  intros H H1 H2. unfold buf_read. rewrite (bind_ret _ _ _ _ _ (get_buf_run _ _ _ H)).
  rewrite (proj2 (Z.ltb_ge off 0)), (proj2 (Z.ltb_ge (b_size b) _)) by lia. done.
Qed.
Lemma kfree_buf_run a b s :
  bufs (up s) !! a = Some b ->
  kfree_buf a s = Ret tt (set_up (fun u => set_bufs (delete a (bufs u)) u) s).
Proof. intros H. unfold kfree_buf. by rewrite (bind_ret _ _ _ _ _ (get_buf_run _ _ _ H)). Qed.

(** ** The ring *)

(** A connection whose ring is in order, with its buffer. *)
Record ring_wf (c : tcp_conn) (b : nbuf) : Prop := {
  rw_cap : 0 < c_rx_cap c <= TCP_RCVBUF_MAX;
  rw_size : c_rx_cap c <= b_size b;
  rw_head : 0 <= c_rx_head c < c_rx_cap c;
  rw_len : 0 <= c_rx_len c <= c_rx_cap c }.

(** The byte at distance [i] from the head. *)
Definition ring_at (c : tcp_conn) (b : nbuf) (i : nat) : Z :=
  buf_byte b ((c_rx_head c + Z.of_nat i) `mod` c_rx_cap c).
Definition ring_bytes (c : tcp_conn) (b : nbuf) : list Z := map (ring_at c b) (seq 0 (Z.to_nat (c_rx_len c))).

Lemma ring_bytes_length c b : length (ring_bytes c b) = Z.to_nat (c_rx_len c).
Proof. unfold ring_bytes. by rewrite length_map, length_seq. Qed.

Lemma mod_wrap x n : 0 <= x < 2 * n -> x `mod` n = if x <? n then x else x - n.
Proof.
  intros H. destruct (x <? n) eqn:E; [apply Z.mod_small; blia|].
  replace x with ((x - n) + 1 * n) at 1 by lia. rewrite Z.mod_add by lia. apply Z.mod_small. blia.
Qed.

Lemma map_seq_ext {A} (f g : nat -> A) k n :
  (forall i, (k <= i < k + n)%nat -> f i = g i) -> map f (seq k n) = map g (seq k n).
Proof. intros H. apply map_ext_in. intros i Hi. apply in_seq in Hi. apply H. lia. Qed.

Lemma map_seq_nth (l : list Z) k n :
  (k + n <= length l)%nat -> map (fun i => nth i l 0) (seq k n) = take n (drop k l).
Proof.
  revert k. induction n as [|n IH]; intros k H; [done|].
  cbn [seq map]. rewrite IH by lia.
  destruct (lookup_lt_is_Some_2 l k) as [x Hx]; [lia|].
  rewrite (drop_S l x k Hx). simpl. f_equal. by apply nth_lookup_Some.
Qed.

Lemma map_seq_shift {A} (f : nat -> A) k n : map f (seq k n) = map (fun i => f (k + i)%nat) (seq 0 n).
Proof. rewrite <- (Nat.add_0_r k) at 1. rewrite <- (fmap_add_seq k 0 n). by rewrite <- list_fmap_compose. Qed.

(** [cap - tail] bytes at the tail, the others at the start. *)
Definition push_buf (c : tcp_conn) (b : nbuf) (payload : list Z) : nbuf :=
  let tail := (c_rx_head c + c_rx_len c) `mod` c_rx_cap c in
  let first := Z.to_nat (c_rx_cap c - tail) in
  wr_buf (wr_buf b tail (take first payload)) 0 (drop first payload).

Lemma push_buf_byte c b payload i :
  ring_wf c b -> Z.of_nat (length payload) <= c_rx_cap c - c_rx_len c -> 0 <= i < c_rx_len c + Z.of_nat (length payload) ->
  buf_byte (push_buf c b payload) ((c_rx_head c + i) `mod` c_rx_cap c) =
  if i <? c_rx_len c then buf_byte b ((c_rx_head c + i) `mod` c_rx_cap c) else nth (Z.to_nat (i - c_rx_len c)) payload 0.
Proof.
  intros [Hc Hs Hh Hl] Hp Hi. unfold push_buf. rewrite !buf_byte_wr, length_drop, length_take.
  rewrite (mod_wrap (c_rx_head c + i)), (mod_wrap (c_rx_head c + c_rx_len c)) by lia.
  rewrite nth_lookup, lookup_drop, nth_lookup.
  destruct (c_rx_head c + i <? c_rx_cap c) eqn:E1, (c_rx_head c + c_rx_len c <? c_rx_cap c) eqn:E2,
    (i <? c_rx_len c) eqn:E3; bools;
    repeat match goal with |- context [(?x <=? ?y) && (?z <? ?w)] =>
      let E := fresh "E" in destruct ((x <=? y) && (z <? w)) eqn:E;
      [apply andb_true_iff in E as [?%Z.leb_le ?%Z.ltb_lt]
      |apply andb_false_iff in E as [?%Z.leb_gt|?%Z.ltb_ge]] end;
    try lia; try done.
  all: rewrite ?nth_lookup, ?lookup_take_lt by lia; try (f_equal; f_equal; lia).
Qed.

Definition push_conn (c : tcp_conn) (n : Z) : tcp_conn := set_ring_pos (c_rx_len c + n) (c_rx_head c) c.

Lemma push_ring c b payload :
  ring_wf c b -> Z.of_nat (length payload) <= c_rx_cap c - c_rx_len c ->
  ring_wf (push_conn c (Z.of_nat (length payload))) (push_buf c b payload) /\
  ring_bytes (push_conn c (Z.of_nat (length payload))) (push_buf c b payload) = ring_bytes c b ++ payload.
Proof.
  intros H Hp. destruct H as [Hc Hs Hh Hl] eqn:EH. clear EH. split; [split; simpl; lia|].
  unfold ring_bytes, push_conn. simpl c_rx_len.
  rewrite Z2Nat.inj_add, Nat2Z.id by lia. rewrite seq_app, map_app, Nat.add_0_l. f_equal.
  - apply map_seq_ext. intros i Hi. unfold ring_at. simpl c_rx_head. simpl c_rx_cap.
    rewrite push_buf_byte by (done || lia). by rewrite (proj2 (Z.ltb_lt (Z.of_nat i) _)) by lia.
  - rewrite map_seq_shift. etrans; [apply (map_seq_ext _ (fun i => nth i payload 0))|].
    + intros i Hi. unfold ring_at. simpl c_rx_head. simpl c_rx_cap.
      rewrite push_buf_byte by (done || lia). rewrite (proj2 (Z.ltb_ge _ _)) by lia. f_equal. lia.
    + rewrite map_seq_nth by lia. by rewrite drop_0, firstn_all.
Qed.

Lemma rx_tail_run c b s :
  ring_wf c b -> tcp_rx_tail c s = Ret ((c_rx_head c + c_rx_len c) `mod` c_rx_cap c) s.
Proof.
  intros [Hc Hs Hh Hl]. unfold TCP_RCVBUF_MAX in *. unfold tcp_rx_tail.
  rewrite (proj2 (Z.eqb_neq (c_rx_cap c) 0)) by lia. rewrite u64_small by lia. done.
Qed.

Lemma rx_push_run a c b payload s :
  conns (up s) !! a = Some c -> bufs (up s) !! rx_buf c = Some b -> ring_wf c b ->
  Z.of_nat (length payload) <= c_rx_cap c - c_rx_len c ->
  tcp_rx_push a payload s =
  Ret tt (put_conn a (push_conn c (Z.of_nat (length payload))) (put_buf (rx_buf c) (push_buf c b payload) s)).
Proof.
  intros Ha Hb Hw Hp. pose proof Hw as [Hc Hs Hh Hl]. unfold TCP_RCVBUF_MAX in *.
  unfold tcp_rx_push. rewrite (bind_ret _ _ _ _ _ (get_conn_run _ _ _ Ha)).
  rewrite (bind_ret _ _ _ _ _ (rx_tail_run _ _ _ Hw)).
  set (tail := (c_rx_head c + c_rx_len c) `mod` c_rx_cap c).
  assert (Ht : 0 <= tail < c_rx_cap c) by (apply Z.mod_pos_bound; lia).
  unfold push_buf. fold tail. set (n := Z.of_nat (length payload)) in *.
  destruct (n <? c_rx_cap c - tail) eqn:E; bools.
  - rewrite Z.ltb_irrefl. unfold n. rewrite Nat2Z.id, !firstn_all.
    rewrite (bind_ret _ _ _ _ _ (buf_write_run _ tail payload b s Hb ltac:(lia) ltac:(lia))).
    rewrite (bind_ret _ _ _ _ _ (eq_refl : when false _ _ = Ret tt _)).
    rewrite upd_conn_run with (c := c) by done.
    rewrite take_ge by lia. rewrite drop_ge by lia. unfold push_conn. rewrite u64_small by lia. done.
  - assert (Hlen : length (take (Z.to_nat (c_rx_cap c - tail)) payload) = Z.to_nat (c_rx_cap c - tail))
      by (rewrite length_take; lia).
    rewrite (bind_ret _ _ _ _ _ (buf_write_run _ tail _ b s Hb ltac:(lia) ltac:(rewrite Hlen; lia))).
    set (b1 := wr_buf b tail _). set (s1 := put_buf _ b1 s).
    set (l2 := drop _ payload).
    assert (Hl2 : Z.of_nat (length l2) = n - (c_rx_cap c - tail)) by (unfold l2; rewrite length_drop; lia).
    assert (H2 : when (c_rx_cap c - tail <? n) (buf_write (rx_buf c) 0 l2) s1 =
                 Ret tt (put_buf (rx_buf c) (wr_buf b1 0 l2) s)).
    { destruct (c_rx_cap c - tail <? n) eqn:E2; bools.
      - unfold when. rewrite buf_write_run with (b := b1); [|apply bufs_put|lia|simpl; lia].
        unfold s1. by rewrite put_buf_buf.
      - destruct l2 as [|y l2']; [|simpl in Hl2; lia]. unfold wr_buf. by destruct b1. }
    rewrite (bind_ret _ _ _ _ _ H2). rewrite upd_conn_run with (c := c) by done.
    unfold push_conn. rewrite u64_small by lia. done.
Qed.

Definition pop_conn (c : tcp_conn) (n : Z) : tcp_conn :=
  set_ring_pos (c_rx_len c - n) ((c_rx_head c + n) `mod` c_rx_cap c) c.

Lemma pop_ring c b n :
  ring_wf c b -> 0 <= n <= c_rx_len c ->
  ring_wf (pop_conn c n) b /\ ring_bytes (pop_conn c n) b = drop (Z.to_nat n) (ring_bytes c b).
Proof.
  intros [Hc Hs Hh Hl] Hn. split.
  { split; simpl; try lia. apply Z.mod_pos_bound. lia. }
  unfold ring_bytes. simpl c_rx_len.
  replace (Z.to_nat (c_rx_len c)) with (Z.to_nat n + Z.to_nat (c_rx_len c - n))%nat by lia.
  rewrite seq_app, map_app. rewrite drop_app_length' by (by rewrite length_map, length_seq).
  rewrite Nat.add_0_l, (map_seq_shift _ (Z.to_nat n)). apply map_seq_ext. intros i Hi. unfold ring_at.
  simpl c_rx_head. simpl c_rx_cap. rewrite Zplus_mod_idemp_l. f_equal. f_equal. lia.
Qed.

Lemma rx_pop_run a c b n s :
  conns (up s) !! a = Some c -> bufs (up s) !! rx_buf c = Some b -> ring_wf c b ->
  0 <= n <= c_rx_len c ->
  tcp_rx_pop a n s = Ret (take (Z.to_nat n) (ring_bytes c b)) (put_conn a (pop_conn c n) s).
Proof.
  intros Ha Hb Hw Hn. pose proof Hw as [Hc Hs Hh Hl]. unfold TCP_RCVBUF_MAX in *.
  unfold tcp_rx_pop. rewrite (bind_ret _ _ _ _ _ (get_conn_run _ _ _ Ha)).
  rewrite (u64_small (c_rx_cap c - c_rx_head c)) by lia.
  set (first := if n <? c_rx_cap c - c_rx_head c then n else c_rx_cap c - c_rx_head c).
  assert (Hf : first = Z.min n (c_rx_cap c - c_rx_head c)) by (unfold first; case_match eqn:E; blia).
  rewrite (bind_ret _ _ _ _ _ (buf_read_run _ (c_rx_head c) first b s Hb ltac:(lia) ltac:(lia))).
  assert (H2 : (if first <? n then buf_read (rx_buf c) 0 (n - first) else ret []) s =
               Ret (read_bytes b 0 (Z.to_nat (n - first))) s).
  { destruct (first <? n) eqn:E; bools.
    - apply buf_read_run; [done|lia|lia].
    - replace (n - first) with 0 by lia. done. }
  rewrite (bind_ret _ _ _ _ _ H2). rewrite (proj2 (Z.eqb_neq (c_rx_cap c) 0)) by lia.
  rewrite (bind_ret _ _ _ _ _ (upd_conn_run _ _ _ _ Ha)).
  unfold pop_conn. rewrite !u64_small by lia. unfold ret. f_equal.
  unfold ring_bytes, read_bytes.
  replace (Z.to_nat (c_rx_len c)) with (Z.to_nat n + Z.to_nat (c_rx_len c - n))%nat by lia.
  rewrite seq_app, map_app. rewrite take_app_length' by (by rewrite length_map, length_seq).
  replace (Z.to_nat n) with (Z.to_nat first + Z.to_nat (n - first))%nat by lia.
  rewrite seq_app, map_app, Nat.add_0_l. f_equal.
  - apply map_seq_ext. intros i Hi. unfold ring_at. by rewrite Z.mod_small by lia.
  - rewrite (map_seq_shift _ (Z.to_nat first)). apply map_seq_ext. intros i Hi. unfold ring_at.
    rewrite mod_wrap by lia. rewrite (proj2 (Z.ltb_ge (c_rx_head c + _) _)) by lia. f_equal. lia.
Qed.

(** ** Growing *)

Lemma autotune_loop_S f new_cap incoming len :
  autotune_loop (S f) new_cap incoming len =
  if (new_cap <? TCP_RCVBUF_MAX) && (u64 (new_cap - len) <? incoming) then
    let n := u64 (new_cap * 2) in
    autotune_loop f (if TCP_RCVBUF_MAX <? n then TCP_RCVBUF_MAX else n) incoming len
  else ret new_cap.
Proof. done. Qed.

(** The loop ends with a size between the old one and the largest. *)
Lemma autotune_loop_run fuel new_cap incoming len s :
  0 < new_cap <= TCP_RCVBUF_MAX -> TCP_RCVBUF_MAX <= new_cap * 2 ^ Z.of_nat fuel ->
  exists n, autotune_loop (S fuel) new_cap incoming len s = Ret n s /\ new_cap <= n <= TCP_RCVBUF_MAX.
Proof.
  revert new_cap. induction fuel as [|fuel IH]; intros new_cap H1 H2; rewrite autotune_loop_S; cbv zeta.
  - rewrite (proj2 (Z.ltb_ge new_cap _)) by lia. eexists; split; [done|lia].
  - destruct ((new_cap <? TCP_RCVBUF_MAX) && (u64 (new_cap - len) <? incoming)) eqn:E;
      [|eexists; split; [done|lia]].
    rewrite u64_small by (unfold TCP_RCVBUF_MAX in *; lia).
    rewrite Nat2Z.inj_succ, Z.pow_succ_r in H2 by lia.
    destruct (TCP_RCVBUF_MAX <? new_cap * 2) eqn:E2; bools.
    + destruct (IH TCP_RCVBUF_MAX) as (n & -> & Hn); [done| |eexists; split; [done|lia]].
      assert (0 < 2 ^ Z.of_nat fuel) by (apply Z.pow_pos_nonneg; lia).
      assert (TCP_RCVBUF_MAX * 1 <= TCP_RCVBUF_MAX * 2 ^ Z.of_nat fuel) by (apply Z.mul_le_mono_nonneg_l; lia).
      lia.
    + destruct (IH (new_cap * 2)) as (n & -> & Hn); [lia|lia|]. eexists; split; [done|lia].
Qed.

(** ** What an operation on one connection leaves alone *)

Definition ident (c : tcp_conn) := (c_dev c, remote_ip c, remote_port c, local_port c).

(** What the sockets and their users own of the state of the upper layers. *)
Definition side (u : upper) :=
  (socks u, socket_list u, (socket_count u, udp_next_ephemeral u), socket_domains u, socket_builtin_domains_ready u,
   dns u, dhcp u, grants u).

(** Devices keep their driver and address, the tables stay, other connections stay,
    connection [a] keeps its device, peer and ports, the sockets stay, and no address is
    given out twice. *)
Record keeps (a : Z) (s s' : net) : Prop := {
  k_devs : forall d x, devs s !! d = Some x ->
    exists x', devs s' !! d = Some x' /\ dops x' = dops x /\ ipv4_addr x' = ipv4_addr x;
  k_conns : tcp_conns (up s') = tcp_conns (up s);
  k_listeners : tcp_listeners (up s') = tcp_listeners (up s);
  k_side : side (up s') = side (up s);
  k_addr : next_addr (up s) <= next_addr (up s');
  k_others : forall a', a' <> a -> conns (up s') !! a' = conns (up s) !! a';
  k_ident : forall c, conns (up s) !! a = Some c -> exists c', conns (up s') !! a = Some c' /\ ident c' = ident c }.

#[global] Instance keeps_refl a : Reflexive (keeps a).
Proof. intros s. split; eauto. lia. Qed.
#[global] Instance keeps_trans a : Transitive (keeps a).
Proof.
  intros s1 s2 s3 [D1 L1 M1 S1 A1 O1 I1] [D2 L2 M2 S2 A2 O2 I2]. split; try congruence; [|lia|..].
  - intros d x Hx. destruct (D1 _ _ Hx) as (x1 & Hx1 & ? & ?). destruct (D2 _ _ Hx1) as (x2 & Hx2 & ? & ?).
    exists x2. repeat split; congruence.
  - intros a' Ha. rewrite O2 by done. by apply O1.
  - intros c Hc. destruct (I1 _ Hc) as (c1 & Hc1 & ?). destruct (I2 _ Hc1) as (c2 & Hc2 & ?).
    exists c2. split; congruence.
Qed.

(** A change of the upper layers that leaves the tables and gives [a] a new record. *)
Lemma keeps_up a f c c' s :
  conns (up s) !! a = Some c -> ident c' = ident c ->
  tcp_conns (f (up s)) = tcp_conns (up s) -> tcp_listeners (f (up s)) = tcp_listeners (up s) ->
  side (f (up s)) = side (up s) -> next_addr (f (up s)) = next_addr (up s) ->
  conns (f (up s)) = <[a := c']> (conns (up s)) -> keeps a s (set_up f s).
Proof.
  intros Ha Hi H1 H2 Hs Hn H3. split; simpl; [eauto|done|done|done|lia| |].
  - intros a' Hne. rewrite H3. by apply lookup_insert_ne.
  - intros c0 Hc0. exists c'. rewrite H3, lookup_insert_eq. split; congruence.
Qed.
(** A change that leaves the connections. *)
Lemma keeps_up_same a f s :
  tcp_conns (f (up s)) = tcp_conns (up s) -> tcp_listeners (f (up s)) = tcp_listeners (up s) ->
  side (f (up s)) = side (up s) -> next_addr (f (up s)) = next_addr (up s) ->
  conns (f (up s)) = conns (up s) -> keeps a s (set_up f s).
Proof. intros H1 H2 Hs Hn H3. split; simpl; try rewrite H3; eauto. lia. Qed.
(** An address is given out. *)
Lemma keeps_next a n s : next_addr (up s) <= n -> keeps a s (set_up (set_next_addr n) s).
Proof. intros Hn. split; simpl; eauto. Qed.

Lemma keeps_put_conn a c c' s :
  conns (up s) !! a = Some c -> ident c' = ident c -> keeps a s (put_conn a c' s).
Proof. intros H1 H2. by eapply keeps_up. Qed.
Lemma keeps_put_buf a x b s : keeps a s (put_buf x b s).
Proof. by apply keeps_up_same. Qed.

(** A connection with its ring; its buffer is one the allocator handed out. *)
Record conn_at (a : Z) (c : tcp_conn) (b : nbuf) (s : net) : Prop := {
  ca_conn : conns (up s) !! a = Some c;
  ca_buf : bufs (up s) !! rx_buf c = Some b;
  ca_ring : ring_wf c b;
  ca_addr : 0 < rx_buf c < next_addr (up s) }.

(** Updating fields outside the ring. *)
Lemma conn_at_upd a c c' b s :
  conn_at a c b s -> rx_buf c' = rx_buf c -> c_rx_cap c' = c_rx_cap c -> c_rx_len c' = c_rx_len c ->
  c_rx_head c' = c_rx_head c ->
  conn_at a c' b (put_conn a c' s) /\ ring_bytes c' b = ring_bytes c b.
Proof.
  intros [H1 H2 [R1 R2 R3 R4] H4] E1 E2 E3 E4. split.
  - split; [apply conns_put|simpl; congruence|split; congruence|simpl; congruence].
  - unfold ring_bytes, ring_at. rewrite E3. apply map_seq_ext. intros i _. by rewrite E2, E4.
Qed.
Lemma conn_at_wake a c b s :
  conn_at a c b s -> conn_at a c b (set_up (fun u => set_io_seq (u32 (io_seq u + 1)) u) s).
Proof. intros [H1 H2 H3 H4]. by split. Qed.

(** The fields that growing the ring leaves alone. *)
Definition core (c : tcp_conn) :=
  (ident c, (c_seq c, c_ack c), (passive c, connected c, closed c, c_error c),
   (read_shutdown c, write_shutdown c), (c_handler c, c_accept_handler c, handler_ctx c),
   (rx_since_ack c, rx_full_events c)).

Lemma core_ident c c' : core c = core c' -> ident c = ident c'.
Proof. unfold core. congruence. Qed.

(** A request: the next address, or NULL. *)
Lemma kzalloc_buf_run size s :
  0 < next_addr (up s) ->
  kzalloc_buf size s =
  if grants (up s) (next_addr (up s))
  then Ret (next_addr (up s)) (put_buf (next_addr (up s)) (mkBuf size ∅) (set_up (set_next_addr (next_addr (up s) + 1)) s))
  else Ret 0 (set_up (set_next_addr (next_addr (up s) + 1)) s).
Proof.
  intros H. unfold kzalloc_buf, kalloc, bind. destruct (grants _ _); [|done].
  by rewrite (proj2 (Z.eqb_neq (next_addr (up s)) 0)) by lia.
Qed.

Lemma ring_bytes_fresh c b size bytes :
  c_rx_head c = 0 -> 0 < c_rx_cap c -> Z.of_nat (length bytes) = c_rx_len c -> c_rx_len c <= c_rx_cap c ->
  ring_bytes c (wr_buf (mkBuf size b) 0 bytes) = bytes.
Proof.
  intros Hh Hc Hl Hle. unfold ring_bytes.
  etrans; [apply (map_seq_ext _ (fun i => nth i bytes 0))|].
  - intros i Hi. unfold ring_at. rewrite Hh, Z.mod_small by lia. rewrite buf_byte_wr.
    rewrite (proj2 (Z.leb_le 0 _)), (proj2 (Z.ltb_lt _ _)) by lia. simpl. f_equal. lia.
  - rewrite map_seq_nth by lia. rewrite drop_0. apply take_ge. lia.
Qed.

(** The state after the bytes were moved to the new buffer [nb]. *)
Lemma autotune_move a c b nb m s :
  conns (up s) !! a = Some c -> bufs (up s) !! rx_buf c = Some b -> ring_wf c b ->
  bufs (up s) !! nb = Some (mkBuf m ∅) -> rx_buf c <> nb -> c_rx_cap c < m <= TCP_RCVBUF_MAX ->
  0 < nb < next_addr (up s) ->
  wp (when (negb (c_rx_len c =? 0)) (let* bytes := tcp_rx_pop a (c_rx_len c) in buf_write nb 0 bytes) ;;;
      kfree_buf (rx_buf c) ;;;
      upd_conn a (set_ring nb m (c_rx_len c) 0) ;;;
      upd_conn a (fun c => set_rcv_wscale (tcp_wscale_for_cap (c_rx_cap c)) c) ;;;
      ret 0) s
   (fun _ s' => exists c' b', conn_at a c' b' s' /\ ring_bytes c' b' = ring_bytes c b /\ core c' = core c /\
     c_rx_cap c <= c_rx_cap c' /\ keeps a s s').
Proof.
  intros Ha Hb Hw Hnb Hne Hm Hnx. pose proof Hw as [Hc Hs Hh Hl].
  set (bytes := ring_bytes c b). assert (Hlen : length bytes = Z.to_nat (c_rx_len c)) by apply ring_bytes_length.
  assert (Hmove : exists c1 s1, when (negb (c_rx_len c =? 0))
      (let* bytes := tcp_rx_pop a (c_rx_len c) in buf_write nb 0 bytes) s = Ret tt s1 /\
    s1 = put_conn a c1 (put_buf nb (wr_buf (mkBuf m ∅) 0 bytes) s) /\ core c1 = core c).
  { destruct (c_rx_len c =? 0) eqn:E0; bools.
    - exists c, s. split; [done|]. split; [|done].
      assert (bytes = []) as -> by (apply length_zero_iff_nil; lia).
      change (wr_buf (mkBuf m ∅) 0 []) with (mkBuf m ∅). by rewrite put_buf_id, put_conn_id.
    - eexists _, _. split; [|split; [reflexivity|]].
      + cbn [negb when]. rewrite (bind_ret _ _ _ _ _ (rx_pop_run a c b (c_rx_len c) s Ha Hb Hw ltac:(lia))).
        fold bytes. rewrite take_ge by lia.
        rewrite buf_write_run with (b := mkBuf m ∅); [by rewrite put_buf_conn|done|lia|simpl; lia].
      + done. }
  destruct Hmove as (c1 & s1 & H1 & Es1 & Hcore). apply wp_bind. eapply wp_intro; [exact H1|]. cbn beta. clear H1.
  apply wp_bind. eapply wp_intro.
  { apply (kfree_buf_run _ b). subst s1. simpl. by rewrite lookup_insert_ne by done. }
  cbn beta. subst s1.
  apply wp_bind. eapply wp_intro; [eapply upd_conn_run; simpl; apply lookup_insert_eq|]. cbn beta.
  apply wp_bind. eapply wp_intro; [eapply upd_conn_run; simpl; apply lookup_insert_eq|]. cbn beta.
  apply wp_ret. eexists _, (wr_buf (mkBuf m ∅) 0 bytes). split; [split|split; [|split; [|split]]].
  - apply conns_put.
  - simpl. rewrite lookup_delete_ne by done. apply lookup_insert_eq.
  - split; simpl; lia.
  - simpl. lia.
  - apply ring_bytes_fresh; simpl; lia.
  - etrans; [|exact Hcore]. done.
  - simpl. lia.
  - split; simpl.
    + eauto.
    + done.
    + done.
    + done.
    + lia.
    + intros a' Hne'. by rewrite !lookup_insert_ne.
    + intros c0 Hc0. eexists. split; [apply lookup_insert_eq|].
      assert (c0 = c) as -> by congruence. by apply core_ident in Hcore.
Qed.

(** Growing moves the bytes to a new buffer or changes nothing. *)
Lemma autotune_spec a c b n s :
  conn_at a c b s ->
  wp (tcp_rx_autotune a n) s (fun _ s' => exists c' b',
    conn_at a c' b' s' /\ ring_bytes c' b' = ring_bytes c b /\ core c' = core c /\
     c_rx_cap c <= c_rx_cap c' /\ keeps a s s').
Proof.
  intros Hat. pose proof Hat as [Ha Hb Hw Hn]. pose proof Hw as [Hc Hs Hh Hl].
  assert (Hsame : wp (ret 0 : M net Z) s (fun _ s' => exists c' b', conn_at a c' b' s' /\
    ring_bytes c' b' = ring_bytes c b /\ core c' = core c /\
     c_rx_cap c <= c_rx_cap c' /\ keeps a s s'))
    by (apply wp_ret; exists c, b; split_and!; done).
  unfold tcp_rx_autotune. apply wp_bind. eapply wp_intro; [by apply get_conn_run|]. cbn beta.
  rewrite (proj2 (Z.eqb_neq (rx_buf c) 0)) by lia.
  destruct (n <=? tcp_recv_window_full c); [done|].
  destruct (TCP_RCVBUF_MAX <=? c_rx_cap c); [done|].
  rewrite (proj2 (Z.eqb_neq (c_rx_cap c) 0)) by lia. cbn [negb].
  destruct (autotune_loop_run 63 (c_rx_cap c) n (c_rx_len c) s) as (m & Hm & Hrange); [lia| |].
  { unfold TCP_RCVBUF_MAX in *. change (2 ^ Z.of_nat 63) with 9223372036854775808. lia. }
  apply wp_bind. eapply wp_intro; [exact Hm|]. cbn beta.
  destruct (m <=? c_rx_cap c) eqn:Em; [done|]. bools.
  apply wp_bind. unfold wp. rewrite kzalloc_buf_run by lia. set (nb := next_addr (up s)) in *.
  set (s1 := set_up (set_next_addr (nb + 1)) s).
  destruct (grants (up s) nb).
  - rewrite (proj2 (Z.eqb_neq nb 0)) by lia. cbv zeta.
    eapply wp_mono; [apply (autotune_move a c b nb m (put_buf nb (mkBuf m ∅) s1))|].
    + done.
    + simpl. rewrite lookup_insert_ne by lia. done.
    + done.
    + apply lookup_insert_eq.
    + lia.
    + lia.
    + simpl. lia.
    + intros _ s' (c' & b' & H1 & H2 & H3 & H5 & H4). exists c', b'. split_and!; try done.
      etrans; [|exact H4]. etrans; [|apply keeps_put_buf]. apply keeps_next. lia.
  - cbn. exists c, b. split_and!; try done; [|apply keeps_next; lia].
    split; simpl; try done. lia.
Qed.
