(* ===== verification/TcpProps.v ===== *)
(** * TCP: receiving as a byte queue, windows, options, listeners

    An established connection over a network card refines an abstract receive queue,
    for any sequence of segments and reads; the bytes it hands out are a prefix of what
    the peer sent whatever the network does with the segments. *)

From stdpp Require Import base gmap list.
From Stdlib Require Import ZArith Lia.
From S2P Require Import Prelude Wire WireProps NetState Net NetProps Tcp TcpRing.

Local Open Scope Z_scope.

(** ** Sending over a card *)

Definition devs_keep (s s' : net) : Prop := forall d x, devs s !! d = Some x ->
  exists x', devs s' !! d = Some x' /\ dops x' = dops x /\ ipv4_addr x' = ipv4_addr x.

(** A driver puts the frame on the wire: it returns, and changes no protocol state. *)
Definition driver_quiet (driver_send : nat -> list Z -> M net Z) : Prop := forall d frame s,
  wp (driver_send d frame) s (fun _ s' => up s' = up s /\ devs_keep s s').

Lemma keeps_devs a s s' : up s' = up s -> devs_keep s s' -> keeps a s s'.
Proof. intros E H. split; rewrite ?E; eauto; lia. Qed.

(** The connection goes through a card, to another machine. *)
Definition on_card (c : tcp_conn) (s : net) : Prop := exists x,
  devs s !! c_dev c = Some x /\ dops x = driver_ops /\ remote_ip c <> ipv4_addr x.

Lemma on_card_keeps a c c' s s' : on_card c s -> ident c' = ident c -> keeps a s s' -> on_card c' s'.
Proof.
  intros (x & Hx & Ho & Hr) Hi Hk. unfold ident in Hi. injection Hi as Ed Er _ _.
  destruct (k_devs _ _ _ Hk _ _ Hx) as (x' & Hx' & Ho' & Ha'). exists x'.
  rewrite Ed, Er, Ho', Ha'. done.
Qed.

Section card.
Context (driver_send : nat -> list Z -> M net Z) (Hdrv : driver_quiet driver_send).
Context (recv : nat -> list Z -> M net unit).

Lemma tcp_impl_card d x m dst sp dp q k f w o p s :
  devs s !! d = Some x -> dops x = driver_ops -> dst <> ipv4_addr x ->
  wp (net_send_ipv4_tcp_with_window_opts_impl driver_send recv (Some d) (Some m) dst sp dp q k f w o p) s
    (fun _ s' => up s' = up s /\ devs_keep s s').
Proof.
  intros Hx Ho Hd. unfold net_send_ipv4_tcp_with_window_opts_impl.
  assert (Hid : forall r, wp (ret r : M net Z) s (fun _ s' => up s' = up s /\ devs_keep s s')).
  { intros r. apply wp_ret. split; [done|]. intros d' x' H'. eauto. }
  case_match; [done|]. case_match; [done|].
  assert (Hg : get_dev d s = Ret x s) by (unfold get_dev; by rewrite Hx).
  apply wp_bind. eapply wp_intro; [exact Hg|]. cbn beta.
  unfold transmit. apply wp_bind. eapply wp_intro; [exact Hg|]. cbn beta.
  rewrite (proj2 (Z.eqb_neq dst (ipv4_addr x))) by done.
  unfold dev_send. apply wp_bind. eapply wp_intro; [exact Hg|]. cbn beta. rewrite Ho. apply Hdrv.
Qed.

Lemma conn_send_card a c q f p s :
  on_card c s -> wp (conn_send driver_send recv c q f p) s (fun _ s' => up s' = up s /\ keeps a s s').
Proof.
  intros (x & Hx & Ho & Hr). eapply wp_mono; [by eapply tcp_impl_card|].
  intros _ s' [H1 H2]. split; [done|]. by apply keeps_devs.
Qed.

Lemma send_ack_card a c s :
  conns (up s) !! a = Some c -> on_card c s ->
  wp (tcp_send_ack driver_send recv a) s (fun _ s' => up s' = up s /\ keeps a s s').
Proof.
  intros Hc Hd. unfold tcp_send_ack, tcp_send_conn_packet. apply wp_bind.
  eapply wp_intro; [by apply get_conn_run|]. by apply conn_send_card.
Qed.

(** ** One segment on an established connection *)

Lemma conn_at_up a c b s s' : conn_at a c b s -> up s' = up s -> conn_at a c b s'.
Proof. intros [H1 H2 H3 H4] E. split; by rewrite ?E. Qed.

(** What the rest of the connection shows: whether it is passive, connected, closed,
    reset, and shut down for reading. *)
Definition status (c : tcp_conn) := (passive c, connected c, closed c, c_error c, read_shutdown c).

(** A point of a run that started in [s0] with connection [c0]. *)
Record run_at (a : Z) (c0 : tcp_conn) (s0 : net) (c : tcp_conn) (b : nbuf) (s : net) : Prop := {
  ra_at : conn_at a c b s;
  ra_keeps : keeps a s0 s;
  ra_ident : ident c = ident c0;
  ra_card : on_card c s }.

Lemma run_start a c b s : conn_at a c b s -> on_card c s -> run_at a c s c b s.
Proof. by split. Qed.
Lemma run_step a c0 s0 c b s c' b' s' :
  run_at a c0 s0 c b s -> conn_at a c' b' s' -> keeps a s s' -> ident c' = ident c -> run_at a c0 s0 c' b' s'.
Proof.
  intros [H1 H2 H3 H4] H5 H6 H7. split; [done|by etrans|congruence|by eapply on_card_keeps].
Qed.

(** Steps of such a run: an update outside the ring, a wake-up, an acknowledgement. *)
Lemma wp_upd {A} a c0 s0 f (k : unit -> M net A) c b s Q :
  run_at a c0 s0 c b s -> rx_buf (f c) = rx_buf c -> c_rx_cap (f c) = c_rx_cap c ->
  c_rx_len (f c) = c_rx_len c -> c_rx_head (f c) = c_rx_head c -> ident (f c) = ident c ->
  (forall s', run_at a c0 s0 (f c) b s' -> ring_bytes (f c) b = ring_bytes c b -> wp (k tt) s' Q) ->
  wp (bind (upd_conn a f) k) s Q.
Proof.
  intros Hr E1 E2 E3 E4 E5 Hk. pose proof (ra_at _ _ _ _ _ _ Hr) as Hat.
  destruct (conn_at_upd a c (f c) b s Hat E1 E2 E3 E4) as [H1 H2].
  apply wp_bind. eapply wp_intro; [apply upd_conn_run, Hat|]. apply Hk; [|done].
  eapply run_step; [exact Hr|exact H1| |done]. by apply keeps_put_conn with c; [apply Hat|].
Qed.
Lemma wp_wake {A} a c0 s0 (k : unit -> M net A) c b s Q :
  run_at a c0 s0 c b s -> (forall s', run_at a c0 s0 c b s' -> wp (k tt) s' Q) ->
  wp (bind sched_io_wake_all k) s Q.
Proof.
  intros Hr Hk. apply wp_bind. eapply wp_intro; [done|]. apply Hk.
  eapply run_step; [exact Hr|apply conn_at_wake, Hr| |done]. by apply keeps_up_same.
Qed.
Lemma wp_send_ack {A} a c0 s0 (k : Z -> M net A) c b s Q :
  run_at a c0 s0 c b s -> (forall r s', run_at a c0 s0 c b s' -> wp (k r) s' Q) ->
  wp (bind (tcp_send_ack driver_send recv a) k) s Q.
Proof.
  intros Hr Hk. apply wp_bind. eapply wp_mono; [apply send_ack_card with c; apply Hr|].
  intros r s' [E Hks]. apply Hk. eapply run_step; [exact Hr|eapply conn_at_up; [apply Hr|done]|done|done].
Qed.
Lemma wp_get {A} a c0 s0 (k : tcp_conn -> M net A) c b s Q :
  run_at a c0 s0 c b s -> wp (k c) s Q -> wp (bind (get_conn a) k) s Q.
Proof. intros Hr Hk. apply wp_bind. eapply wp_intro; [apply get_conn_run, Hr|done]. Qed.

Lemma window_full c b : 0 < rx_buf c -> ring_wf c b -> tcp_recv_window_full c = c_rx_cap c - c_rx_len c.
Proof.
  intros Hb [Wc Ws Wh Wl]. unfold tcp_recv_window_full. rewrite (proj2 (Z.eqb_neq _ 0)) by lia.
  case_match eqn:E; blia.
Qed.

Lemma wp_push {A} a c0 s0 (k : unit -> M net A) c b s payload Q :
  run_at a c0 s0 c b s -> Z.of_nat (length payload) <= c_rx_cap c - c_rx_len c ->
  (forall b' s', let c' := push_conn c (Z.of_nat (length payload)) in
     run_at a c0 s0 c' b' s' -> ring_bytes c' b' = ring_bytes c b ++ payload -> wp (k tt) s' Q) ->
  wp (bind (tcp_rx_push a payload) k) s Q.
Proof.
  intros Hr Hfit Hk. pose proof (ra_at _ _ _ _ _ _ Hr) as [H1 H2 H3 H4].
  apply wp_bind. eapply wp_intro; [by eapply rx_push_run|]. cbn beta.
  destruct (push_ring c b payload H3 Hfit) as [W2 R2]. eapply Hk; [|exact R2].
  eapply run_step; [exact Hr| | |done].
  - split; [apply conns_put|apply bufs_put|done|done].
  - etrans; [apply keeps_put_buf|]. by apply keeps_put_conn with c.
Qed.

Lemma wp_autotune {A} a c0 s0 (k : Z -> M net A) c b s n Q :
  run_at a c0 s0 c b s ->
  (forall r c' b' s', run_at a c0 s0 c' b' s' -> ring_bytes c' b' = ring_bytes c b -> core c' = core c ->
     c_rx_cap c <= c_rx_cap c' -> wp (k r) s' Q) ->
  wp (bind (tcp_rx_autotune a n) k) s Q.
Proof.
  intros Hr Hk. apply wp_bind. eapply wp_mono; [eapply autotune_spec, Hr|].
  intros r s' (c' & b' & H1 & H2 & H3 & H4 & H5). eapply Hk; try done.
  eapply run_step; [exact Hr|done|done|by apply core_ident].
Qed.

Lemma core_status c c' : core c = core c' -> status c = status c' /\ c_ack c = c_ack c'.
Proof. unfold core, status. intros H. split; congruence. Qed.

Lemma ring_len_eq c b c' b' : 
  ring_wf c b -> ring_wf c' b' -> ring_bytes c' b' = ring_bytes c b -> c_rx_len c' = c_rx_len c.
Proof.
  intros [_ _ _ H1] [_ _ _ H2] E. apply (f_equal length) in E. rewrite !ring_bytes_length in E. lia.
Qed.

(** A payload at the expected place: queued and acknowledged, or refused. *)
Lemma receive_payload_card {A} a c0 s0 (k : unit -> M net A) c b payload s Q :
  run_at a c0 s0 c b s -> 0 <= c_ack c < 2 ^ 32 ->
  (forall c' b' s', run_at a c0 s0 c' b' s' -> status c' = status c -> c_rx_cap c <= c_rx_cap c' ->
    ((ring_bytes c' b' = ring_bytes c b ++ payload /\ c_ack c' = u32 (c_ack c + Z.of_nat (length payload))) \/
     (ring_bytes c' b' = ring_bytes c b /\ c_ack c' = c_ack c /\
      c_rx_cap c - c_rx_len c < Z.of_nat (length payload))) -> wp (k tt) s' Q) ->
  wp (bind (receive_payload driver_send recv a payload) k) s Q.
Proof.
  intros Hr Hack Hk. apply wp_bind. unfold receive_payload. set (n := Z.of_nat (length payload)).
  destruct (n =? 0) eqn:E0; bools.
  { apply wp_ret. apply (Hk c b); [done|done|done|]. left.
    assert (payload = []) as -> by (destruct payload; [done|simpl in *; lia]).
    rewrite app_nil_r. simpl. rewrite u32_small by lia. split; [done|lia]. }
  eapply wp_autotune; [exact Hr|]. intros _ c1 b1 s1 H1 R1 C1 Hcap.
  eapply wp_get; [exact H1|]. pose proof (ra_at _ _ _ _ _ _ H1) as [_ _ W1 A1].
  pose proof (ra_at _ _ _ _ _ _ Hr) as [_ _ W0 _].
  pose proof (ring_len_eq _ _ _ _ W0 W1 R1) as El. rewrite (window_full c1 b1) by (done || lia).
  destruct (core_status _ _ C1) as [St1 Ack1].
  destruct (n <=? c_rx_cap c1 - c_rx_len c1) eqn:Efit; bools.
  - eapply wp_push; [exact H1|done|]. intros b2 s2 c2 H2 R2.
    eapply wp_upd; [exact H2|done..|]. intros s3 H3 R3.
    eapply wp_upd; [exact H3|done..|]. intros s4 H4 R4.
    eapply wp_upd; [exact H4|done..|]. intros s5 H5 R5.
    eapply wp_wake; [exact H5|]. intros s6 H6.
    eapply wp_get; [exact H6|].
    assert (Hdone : forall c' s', run_at a c0 s0 c' b2 s' -> ring_bytes c' b2 = ring_bytes c2 b2 ->
      status c' = status c1 -> c_rx_cap c' = c_rx_cap c1 -> c_ack c' = u32 (c_ack c1 + n) -> wp (k tt) s' Q).
    { intros c' s' H' R' St' E' A'. apply (Hk c' b2); [done| | |].
      - congruence.
      - by rewrite E'.
      - left. split; [congruence|]. by rewrite A', Ack1. }
    case_match.
    + eapply wp_upd; [exact H6|done..|]. intros s7 H7 R7.
      eapply wp_send_ack; [exact H7|]. intros r s8 H8. apply wp_ret. eapply Hdone; [exact H8| |done|done|done].
      congruence.
    + apply wp_ret. eapply Hdone; [exact H6| |done|done|done]. congruence.
  - eapply wp_upd; [exact H1|done..|]. intros s2 H2 R2.
    eapply wp_send_ack; [exact H2|]. intros r s3 H3. apply wp_ret.
    eapply Hk; [exact H3| | |].
    + exact St1.
    + done.
    + right. split; [congruence|]. split; [done|]. fold n. lia.
Qed.

(** ** The abstract receive queue *)

End card.

(** The bytes waiting for the reader, the next sequence number, and whether the peer
    finished or reset. *)
Record rxq := mkRxq { rq_bytes : list Z; rq_next : Z; rq_fin : bool; rq_rst : bool }.

Definition rx_data (x : rxq) (p : list Z) : rxq :=
  if Z.of_nat (length p) <=? TCP_RCVBUF_MAX - Z.of_nat (length (rq_bytes x))
  then mkRxq (rq_bytes x ++ p) (u32 (rq_next x + Z.of_nat (length p))) (rq_fin x) (rq_rst x) else x.
Definition rx_segment (x : rxq) (flags seq_ : Z) (p : list Z) : rxq :=
  if has flags TCP_RST then mkRxq (rq_bytes x) (rq_next x) true true
  else if negb (seq_ =? rq_next x) then x
  else
    let y := rx_data x p in
    if has flags TCP_FIN then mkRxq (rq_bytes y) (u32 (rq_next y + 1)) true (rq_rst y) else y.

(** A packet: the segment it carries, if its lengths are consistent. *)
Definition seg_flags (tcp : list Z) : Z := byte_at tcp 13.
Definition seg_seq (tcp : list Z) : Z := ntohl (ld32 tcp 4).
Definition seg_payload (tcp : list Z) (tcp_len : Z) : list Z :=
  take (Z.to_nat (tcp_len - tcp_data_off tcp)) (drop (Z.to_nat (tcp_data_off tcp)) tcp).
Definition rx_packet (x : rxq) (tcp : list Z) (tcp_len : Z) : rxq :=
  if (tcp_len <? sizeof_tcp_hdr) || (tcp_data_off tcp <? sizeof_tcp_hdr) || (tcp_len <? tcp_data_off tcp) then x
  else rx_segment x (seg_flags tcp) (seg_seq tcp) (seg_payload tcp tcp_len).

(** A read of at most [cap] bytes that does not wait: data first, then the reset, then
    the end of the stream. *)
Definition rx_read (x : rxq) (cap : Z) : (Z * list Z) * rxq :=
  match rq_bytes x with
  | [] => ((if rq_rst x then - ENOENT else if rq_fin x then 0 else - ETIMEDOUT, []), x)
  | _ :: _ => ((0, take (Z.to_nat cap) (rq_bytes x)),
               mkRxq (drop (Z.to_nat cap) (rq_bytes x)) (rq_next x) (rq_fin x) (rq_rst x))
  end.

(** The queue a connection stands for. *)
Definition rx_abs (c : tcp_conn) (b : nbuf) : rxq := mkRxq (ring_bytes c b) (c_ack c) (closed c) (c_error c).

(** A connected connection that is not waiting in a listener, over a card, with the
    buffer every connection of a socket gets; segments for its peer and ports find it. *)
Record established (a : Z) (c : tcp_conn) (b : nbuf) (s : net) : Prop := {
  es_addr : a <> 0;
  es_at : conn_at a c b s;
  es_card : on_card c s;
  es_passive : passive c = false;
  es_connected : connected c = true;
  es_open : read_shutdown c = false;
  es_cap : c_rx_cap c = TCP_RCVBUF_MAX;
  es_ack : 0 <= c_ack c < 2 ^ 32;
  es_found : conn_find_loop (tcp_conns (up s)) (c_dev c) (remote_ip c) (remote_port c) (local_port c) s = Ret a s }.

Lemma find_keeps l d r p q a x c s s' :
  conns (up s) !! a = Some c -> keeps a s s' ->
  conn_find_loop l d r p q s = Ret x s -> conn_find_loop l d r p q s' = Ret x s'.
Proof.
  intros Ha Hk. induction l as [|y l IH]; cbn [conn_find_loop].
  { intros [= <-]. done. }
  unfold bind, get_conn. destruct (conns (up s) !! y) as [cy|] eqn:Ey; [|done].
  assert (exists cy', conns (up s') !! y = Some cy' /\ ident cy' = ident cy) as (cy' & -> & Ei).
  { destruct (decide (y = a)) as [->|Hne].
    - destruct (k_ident _ _ _ Hk _ Ha) as (c' & H1 & H2). exists c'. split; [done|]. congruence.
    - exists cy. by rewrite (k_others _ _ _ Hk) by done. }
  unfold ident in Ei. injection Ei as -> -> -> ->. case_match; [|done]. by intros [= ->].
Qed.

Lemma established_step a c b s c0 s0 c' b' s' :
  established a c b s -> s0 = s -> c0 = c -> run_at a c0 s0 c' b' s' ->
  passive c' = false -> connected c' = true -> read_shutdown c' = false -> c_rx_cap c <= c_rx_cap c' ->
  0 <= c_ack c' < 2 ^ 32 -> established a c' b' s'.
Proof.
  intros [H0 H1 H2 H3 H4 H5 H6 H7 H8] -> -> [R1 R2 R3 R4] P1 P2 P3 P4 P5. split; try done.
  - pose proof (rw_cap _ _ (ca_ring _ _ _ _ R1)). lia.
  - rewrite (k_conns _ _ _ R2). unfold ident in R3. injection R3 as -> -> -> ->.
    eapply find_keeps; [apply H1|done|done].
Qed.

Lemma u32_bounds x : 0 <= u32 x < 2 ^ 32.
Proof. by apply Z.mod_pos_bound. Qed.

(** No SYN: not the answer to a connection request. *)
Lemma no_syn_ack flags : has flags TCP_SYN = false ->
  (Z.land flags (Z.lor TCP_SYN TCP_ACK) =? Z.lor TCP_SYN TCP_ACK) = false.
Proof.
  intros H. change TCP_SYN with (2 ^ 1) in H. rewrite has_bit in H by lia.
  apply Z.eqb_neq. intros E. apply (f_equal (fun z => Z.testbit z 1)) in E.
  rewrite Z.land_spec, H in E. discriminate E.
Qed.

(** The packet is for the connection: same device, peer and ports. *)
Definition addressed (c : tcp_conn) (d : nat) (ip tcp : list Z) : Prop :=
  (d, ntohl (ld32 ip 12), ntohs (ld16 tcp 0), ntohs (ld16 tcp 2)) = ident c.

(** Segments of the peer and reads of the application, in the order they happen. *)
Inductive tcp_event := Segment (m ip : list Z) (ihl ip_len : Z) | Read (cap : Z).

(** A segment for the connection, without SYN; a read with room for a byte. *)
Definition event_ok (c : tcp_conn) (e : tcp_event) : Prop :=
  match e with
  | Segment _ ip ihl _ =>
      addressed c (c_dev c) ip (drop (Z.to_nat ihl) ip) /\ has (seg_flags (drop (Z.to_nat ihl) ip)) TCP_SYN = false
  | Read cap => 0 < cap
  end.

Definition spec_event (x : rxq) (e : tcp_event) : list (Z * list Z) * rxq :=
  match e with
  | Segment _ ip ihl ip_len => ([], rx_packet x (drop (Z.to_nat ihl) ip) (ip_len - ihl))
  | Read cap => ([(rx_read x cap).1], (rx_read x cap).2)
  end.
Fixpoint spec_events (x : rxq) (es : list tcp_event) : list (Z * list Z) * rxq :=
  match es with
  | [] => ([], x)
  | e :: es => let r := spec_event x e in let q := spec_events r.2 es in (r.1 ++ q.1, q.2)
  end.

(** The segment carries data of [stream] at its place, and neither ends nor resets it. *)
Definition of_stream (irs : Z) (stream : list Z) (e : tcp_event) : Prop :=
  match e with
  | Segment _ ip ihl ip_len =>
      let tcp := drop (Z.to_nat ihl) ip in
      let p := seg_payload tcp (ip_len - ihl) in
      has (seg_flags tcp) TCP_RST = false /\ has (seg_flags tcp) TCP_FIN = false /\
      exists o, (o + length p <= length stream)%nat /\ seg_seq tcp = u32 (irs + Z.of_nat o) /\
        p = take (length p) (drop o stream)
  | Read _ => True
  end.

Lemma u32_inj_offset irs a b :
  u32 (irs + a) = u32 (irs + b) -> 0 <= a < 2 ^ 32 -> 0 <= b < 2 ^ 32 -> a = b.
Proof.
  intros H Ha Hb. unfold u32 in H.
  assert (H0 : (a - b) `mod` 2 ^ 32 = 0).
  { replace (a - b) with ((irs + a) - (irs + b)) by lia. rewrite Zminus_mod, H, Z.sub_diag. done. }
  apply Z.mod_divide in H0 as [q Hq]; lia.
Qed.

Lemma u32_add x y : u32 (u32 x + y) = u32 (x + y).
Proof. unfold u32. apply Zplus_mod_idemp_l. Qed.

(** One event keeps "read, then queued, is a prefix". *)
Lemma spec_event_prefix irs stream e x out k :
  of_stream irs stream e -> Z.of_nat (length stream) < 2 ^ 32 -> (k <= length stream)%nat ->
  out ++ rq_bytes x = take k stream -> rq_next x = u32 (irs + Z.of_nat k) ->
  exists k', (out ++ concat (map snd (spec_event x e).1)) ++ rq_bytes (spec_event x e).2 = take k' stream /\
    (k' <= length stream)%nat /\ rq_next (spec_event x e).2 = u32 (irs + Z.of_nat k').
Proof.
  intros Ho Hlen Hk Hp Hn. destruct e as [m ip ihl n|cap]; cbn [spec_event of_stream fst snd] in *.
  - destruct Ho as (F1 & F2 & o & O1 & O2 & O3). simpl concat. rewrite app_nil_r.
    unfold rx_packet. case_match; [by exists k|].
    unfold rx_segment. rewrite F1, F2. set (p := seg_payload _ _) in *.
    destruct (seg_seq _ =? rq_next x) eqn:Eq; cbn [negb]; [|by exists k]. bools.
    unfold rx_data. destruct (Z.of_nat (length p) <=? _); [|by exists k]. cbn [rq_bytes rq_next].
    assert (o = k) as ->.
    { rewrite O2, Hn in Eq. apply u32_inj_offset in Eq; lia. }
    exists (k + length p)%nat. split; [|split; [lia|]].
    + rewrite app_assoc, Hp. rewrite O3 at 1. by rewrite take_take_drop.
    + rewrite Hn, u32_add. f_equal. lia.
  - exists k. unfold rx_read. destruct (rq_bytes x) as [|y l] eqn:E; cbn [fst snd rq_bytes rq_next].
    + simpl concat. rewrite app_nil_r, E. done.
    + cbn [map snd concat]. rewrite app_nil_r, <- app_assoc, take_drop. done.
Qed.

Lemma spec_events_prefix irs stream es x out k :
  Forall (of_stream irs stream) es -> Z.of_nat (length stream) < 2 ^ 32 -> (k <= length stream)%nat ->
  out ++ rq_bytes x = take k stream -> rq_next x = u32 (irs + Z.of_nat k) ->
  exists k', (out ++ concat (map snd (spec_events x es).1)) ++ rq_bytes (spec_events x es).2 = take k' stream /\
    (k' <= length stream)%nat /\ rq_next (spec_events x es).2 = u32 (irs + Z.of_nat k').
Proof.
  intros Hall Hlen. revert x out k. induction es as [|e es IH]; intros x out k Hk Hp Hn; cbn [spec_events fst snd].
  - exists k. simpl concat. by rewrite app_nil_r.
  - inversion Hall as [|? ? H1 H2]; subst.
    destruct (spec_event_prefix irs stream e x out k) as (k1 & K1 & K2 & K3); try done.
    destruct (IH H2 _ _ _ K2 K1 K3) as (k2 & L1 & L2 & L3). exists k2. split; [|done].
    rewrite map_app, concat_app, app_assoc. exact L1.
Qed.

Section refinement.
Context (driver_send : nat -> list Z -> M net Z) (Hdrv : driver_quiet driver_send).
Context (listen_handler : Z -> nat -> Z -> Z -> list Z -> Z -> Z -> Z -> M net (Z * Z)).
Context (accept_handler : Z -> nat -> Z -> Z -> Z -> Z -> M net Z).

(** The established part of the receiver. *)
Lemma receive_active_refines recv a c b flags ack hlen tcp p s :
  established a c b s -> has flags TCP_SYN = false -> has flags TCP_RST = false ->
  wp (receive_active driver_send recv a flags (seg_seq tcp) ack hlen tcp p) s (fun _ s' => exists c' b',
    established a c' b' s' /\ ident c' = ident c /\ rx_abs c' b' = rx_segment (rx_abs c b) flags (seg_seq tcp) p /\
    keeps a s s').
Proof.
  intros He Hsyn Hrst. pose proof He as [H0 H1 H2 H3 H4 H5 H6 H7 H8].
  pose proof (run_start _ _ _ _ H1 H2) as Hr. unfold receive_active, rx_segment. rewrite Hrst.
  eapply wp_get; [exact Hr|]. rewrite no_syn_ack, H4 by done. cbn [andb negb orb rq_next rx_abs].
  destruct (seg_seq tcp =? c_ack c) eqn:Eq; cbn [negb]; [|apply wp_ret; exists c, b; split_and!; done].
  eapply receive_payload_card; [done|exact Hr|done|]. intros c1 b1 s1 R1 St1 Hcap Hcase.
  pose proof (ra_at _ _ _ _ _ _ R1) as [_ _ W1 _]. pose proof (ca_ring _ _ _ _ H1) as W0.
  unfold status in St1. injection St1 as Sp Sc Scl Se Sr.
  assert (Hcap1 : c_rx_cap c1 = TCP_RCVBUF_MAX) by (pose proof (rw_cap _ _ W1); lia).
  assert (Hack1 : 0 <= c_ack c1 < 2 ^ 32) by (destruct Hcase as [[_ ->]|[_ [-> _]]]; [apply u32_bounds|done]).
  assert (Ed : rx_abs c1 b1 = rx_data (rx_abs c b) p).
  { pose proof (rw_len _ _ W0) as Wl0. pose proof (rw_len _ _ W1) as Wl1.
    pose proof (ring_bytes_length c b) as L0. pose proof (ring_bytes_length c1 b1) as L1.
    unfold rx_abs, rx_data. cbn [rq_bytes rq_next rq_fin rq_rst]. rewrite Scl, Se.
    destruct Hcase as [[E1 ->]|(E1 & -> & Hbig)]; rewrite E1; rewrite E1 in L1.
    - rewrite length_app in L1. rewrite (proj2 (Z.leb_le _ _)) by lia. done.
    - rewrite (proj2 (Z.leb_gt _ _)) by lia. done. }
  rewrite <- Ed. cbn [rx_abs rq_bytes rq_next rq_fin rq_rst]. unfold receive_fin.
  destruct (has flags TCP_FIN).
  - eapply wp_upd; [exact R1|done..|]. intros s2 R2 B2.
    eapply wp_send_ack; [done|exact R2|]. intros r s3 R3.
    eapply wp_upd; [exact R3|done..|]. intros s4 R4 B4.
    apply wp_modify.
    assert (R5 := run_step _ _ _ _ _ _ _ _ _ R4 (conn_at_wake _ _ _ _ (ra_at _ _ _ _ _ _ R4)) ltac:(by apply keeps_up_same) eq_refl).
    exists (set_closed true (set_ack (u32 (c_ack c1 + 1)) c1)), b1. split; [|split; [|split]].
    + eapply established_step; [exact He|done|done| |simpl; congruence..|done|apply u32_bounds].
      exact R5.
    + apply (ra_ident _ _ _ _ _ _ R4).
    + unfold rx_abs. rewrite B4, B2. done.
    + apply R5.
  - apply wp_ret. exists c1, b1. split; [|split; [apply R1|split; [done|apply R1]]].
    eapply established_step; [exact He|done|done|exact R1|congruence..|done|done].
Qed.

Lemma tcp_receive_refines recv a c b d m ip ihl ip_len s :
  let tcp := drop (Z.to_nat ihl) ip in
  established a c b s -> addressed c d ip tcp -> has (seg_flags tcp) TCP_SYN = false ->
  wp (net_tcp_receive driver_send listen_handler accept_handler recv d m ip ihl ip_len) s (fun _ s' => exists c' b',
    established a c' b' s' /\ ident c' = ident c /\ rx_abs c' b' = rx_packet (rx_abs c b) tcp (ip_len - ihl)).
Proof.
  intros tcp He Had Hsyn. unfold net_tcp_receive. fold tcp. unfold rx_packet.
  pose proof He as [H0 H1 H2 H3 H4 H5 H6 H7 H8].
  replace (ip_len <? ihl + sizeof_tcp_hdr) with (ip_len - ihl <? sizeof_tcp_hdr)
    by (apply eq_true_iff_eq; rewrite !Z.ltb_lt; lia).
  destruct (ip_len - ihl <? sizeof_tcp_hdr); cbn [orb]; [apply wp_ret; eauto 10|].
  assert (Hf : tcp_conn_find d ip tcp s = Ret a s).
  { unfold tcp_conn_find. unfold addressed, ident in Had. injection Had as -> -> -> ->. exact H8. }
  apply wp_bind. eapply wp_intro; [exact Hf|]. cbn beta.
  rewrite (proj2 (Z.eqb_neq a 0)) by done. unfold receive_conn.
  destruct ((tcp_data_off tcp <? sizeof_tcp_hdr) || (ip_len - ihl <? tcp_data_off tcp)); [apply wp_ret; eauto 10|].
  change (byte_at tcp 13) with (seg_flags tcp). change (ntohl (ld32 tcp 4)) with (seg_seq tcp).
  pose proof (run_start _ _ _ _ H1 H2) as Hr.
  destruct (has (seg_flags tcp) TCP_RST) eqn:Erst.
  - eapply wp_upd; [exact Hr|done..|]. intros s1 R1 B1.
    eapply wp_upd; [exact R1|done..|]. intros s2 R2 B2.
    eapply wp_wake; [exact R2|]. intros s3 R3.
    eapply wp_get; [exact R3|]. cbn [passive set_closed set_error]. rewrite H3. apply wp_ret.
    exists (set_closed true (set_error true c)), b. split; [|split; [done|]].
    + by eapply established_step; [exact He|done|done|exact R3|..].
    + unfold rx_abs, rx_segment. rewrite Erst, B2, B1. done.
  - eapply wp_get; [exact Hr|]. rewrite H3. eapply wp_mono; [by apply receive_active_refines|].
    intros _ s' (c' & b' & E1 & E2 & E3 & _). eauto.
Qed.

(** A read that does not wait. *)
Section reading.
Context (driver_poll : nat -> M net Z) (udp_handler : Z -> net_udp_dgram -> M net Z).
Context (raw_receive : net_ipv4_rx_info -> M net unit) (signal_pending : M net bool).
Context (sched_io_wait : Z -> option Z -> M net Z).

(** Counting the waiters before and after the wait. *)
Definition waited (s : net) : net := final net_poll_wait_end (final net_poll_wait_begin s).
Lemma conn_at_waiters a c b s : conn_at a c b s -> conn_at a c b (waited s).
Proof.
  intros [H1 H2 H3 H4]. split; unfold waited, final, net_poll_wait_end, net_poll_wait_begin, upmod; simpl;
    try done; by destruct (_ =? 0).
Qed.
Lemma waiters_keeps a s : keeps a s (waited s).
Proof.
  unfold waited, final, net_poll_wait_end, net_poll_wait_begin, upmod. simpl.
  rewrite set_up_set_up. apply keeps_up_same; simpl; by destruct (_ =? 0).
Qed.

Lemma tcp_recv_refines fuel a c b cap s :
  established a c b s -> 0 < cap ->
  wp (net_tcp_recv driver_send driver_poll udp_handler raw_receive listen_handler accept_handler
        signal_pending sched_io_wait fuel a true cap 0) s (fun r s' => exists c' b',
    established a c' b' s' /\ ident c' = ident c /\ (r, rx_abs c' b') = rx_read (rx_abs c b) cap).
Proof.
  intros He Hcap. pose proof He as [H0 H1 H2 H3 H4 H5 H6 H7 H8].
  unfold net_tcp_recv. rewrite (proj2 (Z.eqb_neq a 0)), (proj2 (Z.eqb_neq cap 0)) by lia. cbn [orb negb].
  eapply wp_get; [by apply run_start|]. rewrite H4, H5. cbn [negb]. wp_go.
  change (0 =? 0) with true. change (0 =? 2 ^ 64 - 1) with false. cbn [andb]. unfold rx_read. cbn [rq_bytes rx_abs].
  pose proof (ring_bytes_length c b) as Lr. pose proof (ca_ring _ _ _ _ H1) as W. pose proof (rw_len _ _ W) as Wl.
  assert (He0 : c_rx_len c = 0 -> ring_bytes c b = []) by (intros E; apply length_zero_iff_nil; lia).
  destruct (recv_idle c) eqn:Ei.
  { unfold recv_idle in Ei. bools. rewrite He0 by done. apply wp_ret. exists c, b.
    split; [done|]. split; [done|]. unfold rx_abs. rewrite He0 by done.
    replace (c_error c) with false by done. by replace (closed c) with false by done. }
  apply wp_bind. apply wp_modify. apply wp_bind. apply wp_ret. apply wp_bind. apply wp_modify.
  assert (R1 : run_at a c s c b (waited s)).
  { eapply run_step; [by apply run_start| | |done].
    - by apply conn_at_waiters.
    - apply waiters_keeps. }
  change (set_up _ (set_up _ s)) with (waited s).
  set (s1 := waited s) in *. clearbody s1.
  eapply wp_get; [exact R1|]. destruct (c_rx_len c =? 0) eqn:E0; cbn [negb]; bools.
  { rewrite He0 by done. assert (Hab : rx_abs c b = mkRxq [] (c_ack c) (closed c) (c_error c))
      by (unfold rx_abs; by rewrite He0).
    assert (He1 : established a c b s1) by by eapply established_step.
    unfold recv_idle in Ei. rewrite E0 in Ei. simpl in Ei.
    destruct (c_error c) eqn:Ec; [apply wp_ret; exists c, b; rewrite Hab; eauto|].
    destruct (closed c) eqn:Ed; [|done]. apply wp_ret; exists c, b; rewrite Hab; eauto. }
  set (n := if cap <? c_rx_len c then cap else c_rx_len c).
  assert (Hn : n = Z.min cap (c_rx_len c)) by (unfold n; case_match eqn:E; blia).
  apply wp_bind. eapply wp_intro; [eapply rx_pop_run; [apply R1|apply R1|done|lia]|]. cbn beta.
  destruct (pop_ring c b n W ltac:(lia)) as [W2 B2].
  assert (R2 : run_at a c s (pop_conn c n) b (put_conn a (pop_conn c n) s1)).
  { pose proof (ra_at _ _ _ _ _ _ R1) as [A1 A2 A3 A4].
    eapply run_step; [exact R1|split; [apply conns_put|done|done|done]| |done].
    by apply keeps_put_conn with c. }
  set (s2 := put_conn _ _ s1) in *. clearbody s2.
  assert (Hfin : forall c' s', run_at a c s c' b s' -> ring_bytes c' b = ring_bytes (pop_conn c n) b ->
    c_ack c' = c_ack c -> status c' = status c -> c_rx_cap c <= c_rx_cap c' ->
    exists c' b', established a c' b' s' /\ ident c' = ident c /\
      (0, take (Z.to_nat n) (ring_bytes c b), rx_abs c' b') =
      match ring_bytes c b with
      | [] => (if c_error c then - ENOENT else if closed c then 0 else - ETIMEDOUT, [], rx_abs c b)
      | _ :: _ => (0, take (Z.to_nat cap) (ring_bytes c b),
          mkRxq (drop (Z.to_nat cap) (ring_bytes c b)) (c_ack c) (closed c) (c_error c))
      end).
  { intros c' s' R' B' A' St' C'. unfold status in St'. injection St' as Sp Sc Scl Se Sr. exists c', b.
    split; [by eapply established_step; [exact He|done|done|exact R'|congruence..]|].
    split; [apply R'|]. unfold rx_abs. rewrite B', B2, A', Scl, Se.
    destruct (ring_bytes c b) as [|y l] eqn:Er; [simpl in Lr; lia|].
    destruct (cap <? c_rx_len c) eqn:Ecl; [done|]. bools.
    rewrite !take_ge, !drop_ge by (simpl in *; lia). done. }
  eapply wp_get; [exact R2|]. cbn [closed c_error pop_conn set_ring_pos]. apply wp_bind.
  destruct (negb (closed c) && negb (c_error c)).
  - eapply wp_upd; [exact R2|done..|]. intros s3 R3 B3.
    eapply wp_send_ack; [done|exact R3|]. intros r s4 R4. apply wp_ret. apply wp_ret.
    eapply Hfin; [exact R4|done..].
  - apply wp_ret. apply wp_ret. by eapply Hfin.
Qed.

(** ** Sequences of segments and reads *)

Definition run_event (fuel d : nat) (a : Z) (e : tcp_event) : M net (list (Z * list Z)) :=
  match e with
  | Segment m ip ihl ip_len =>
      net_tcp_receive driver_send listen_handler accept_handler
        (stack_receive driver_send udp_handler raw_receive listen_handler accept_handler fuel) d m ip ihl ip_len ;;;
      ret []
  | Read cap =>
      let* r := net_tcp_recv driver_send driver_poll udp_handler raw_receive listen_handler accept_handler
                  signal_pending sched_io_wait fuel a true cap 0 in
      ret [r]
  end.
Fixpoint run_events (fuel d : nat) (a : Z) (es : list tcp_event) : M net (list (Z * list Z)) :=
  match es with
  | [] => ret []
  | e :: es => let* x := run_event fuel d a e in let* y := run_events fuel d a es in ret (x ++ y)
  end.

Lemma run_events_refine fuel a c b es s :
  established a c b s -> Forall (event_ok c) es ->
  wp (run_events fuel (c_dev c) a es) s (fun out s' => exists c' b',
    established a c' b' s' /\ (out, rx_abs c' b') = spec_events (rx_abs c b) es).
Proof.
  revert c b s. induction es as [|e es IH]; intros c b s He Hok; cbn [run_events spec_events].
  { apply wp_ret. eauto. }
  inversion Hok as [|? ? H1 H2]; subst.
  assert (Hstep : wp (run_event fuel (c_dev c) a e) s (fun x s' => exists c' b',
    established a c' b' s' /\ ident c' = ident c /\ (x, rx_abs c' b') = spec_event (rx_abs c b) e)).
  { destruct e as [m ip ihl ip_len|cap]; simpl in H1; cbn [run_event spec_event].
    - destruct H1 as [Ha Hs]. apply wp_bind. eapply wp_mono; [by eapply tcp_receive_refines|].
      intros _ s' (c' & b' & E1 & E2 & E3). apply wp_ret. exists c', b'. by rewrite E3.
    - apply wp_bind. eapply wp_mono; [by eapply tcp_recv_refines|].
      intros r s' (c' & b' & E1 & E2 & E3). apply wp_ret. exists c', b'. rewrite <- E3. done. }
  apply wp_bind. eapply wp_mono; [exact Hstep|]. intros x s1 (c1 & b1 & He1 & Hi1 & Hx).
  assert (Hd : c_dev c1 = c_dev c) by (unfold ident in Hi1; congruence).
  assert (Hok1 : Forall (event_ok c1) es).
  { eapply Forall_impl; [exact H2|]. intros [m ip ihl n|cap]; simpl; [|done].
    unfold addressed. by rewrite Hi1, Hd. }
  apply wp_bind. rewrite <- Hd. eapply wp_mono; [by eapply IH|]. intros y s2 (c2 & b2 & He2 & Hy).
  apply wp_ret. exists c2, b2. split; [done|]. rewrite <- Hx. simpl. by rewrite <- Hy.
Qed.

(** C6: the receive side of TCP is a queue of bytes.  Take an established connection
    whose peer is behind a network card (not on the loop-back path), any sequence of
    packets for it (any bytes and lengths, in any order, with any flags but SYN) and of
    reads that do not wait (a timeout of 0, room for at least a byte).  The receiver and
    [net_tcp_recv] return for each of them and answer as the abstract queue does: a
    segment at the expected sequence number that fits is appended and moves the expected
    number, which is the one acknowledgements carry, behind it; every other segment
    leaves the bytes alone; a reset or an end of the stream is remembered; reads take
    the bytes in order, report the reset or the end only when no byte is left, and a
    timeout when there is nothing to report.  When acknowledgements are sent is not part
    of this property. *)
Theorem tcp_stream_refines fuel a c b es s :
  established a c b s -> Forall (event_ok c) es ->
  wp (run_events fuel (c_dev c) a es) s (fun out s' => exists c' b',
    established a c' b' s' /\ (out, rx_abs c' b') = spec_events (rx_abs c b) es).
Proof. apply run_events_refine. Qed.

(** C14: the bytes of a stream arrive in order and without gaps.  Let the packets for an
    established connection over a card, which has read nothing yet, carry neither FIN nor
    RST (nor SYN), and each of them, at its sequence number, bytes of one stream of less
    than 2^32 bytes.  Whatever order, loss and repetition they arrive with, and whatever
    reads that do not wait come in between, the bytes read so far followed by the bytes
    queued are a prefix of that stream, and the expected sequence number is the stream's
    start plus the length of that prefix. *)
Theorem tcp_stream_prefix fuel a c b es s irs stream :
  established a c b s -> Forall (event_ok c) es -> Forall (of_stream irs stream) es ->
  Z.of_nat (length stream) < 2 ^ 32 -> ring_bytes c b = [] -> c_ack c = u32 irs ->
  wp (run_events fuel (c_dev c) a es) s (fun out s' => exists c' b' k,
    conns (up s') !! a = Some c' /\ bufs (up s') !! rx_buf c' = Some b' /\
    concat (map snd out) ++ ring_bytes c' b' = take k stream /\ (k <= length stream)%nat /\
    c_ack c' = u32 (irs + Z.of_nat k)).
Proof.
  intros He Hok Hst Hlen Hb Hack.
  eapply wp_mono; [by eapply run_events_refine|]. intros out s' (c' & b' & He' & Heq).
  destruct (spec_events_prefix irs stream es (rx_abs c b) [] 0) as (k & K1 & K2 & K3);
    [done|done|lia|exact Hb|simpl; rewrite Hack; f_equal; lia|].
  exists c', b', k. pose proof (es_at _ _ _ _ He') as [A1 A2 _ _]. rewrite <- Heq in K1, K3.
  split_and!; done.
Qed.
End reading.
End refinement.
