(* ===== verification/TcpWire.v ===== *)
(** * TCP segments through the frame receiver

    What [net_receive_frame] hands to TCP for a frame [tcp_frame] built, and a segment
    to the device's own address on a closed port: the answer is received like the
    segment was, and the recursion never ends. *)

From stdpp Require Import base gmap list.
From Stdlib Require Import ZArith Lia.
From S2P Require Import Prelude Wire WireProps NetState Net NetProps Tcp TcpRing TcpProps.

Local Open Scope Z_scope.

Lemma tcp_opt_len_range fl o : 0 <= tcp_opt_len fl o <= 12 /\ tcp_opt_len fl o `mod` 4 = 0.
Proof.
  unfold tcp_opt_len. destruct (has fl TCP_SYN); [|done].
  destruct (include_mss o), (include_sack_permitted o), (include_wscale o); vm_compute; split; [split|..]; done.
Qed.
Lemma tcp_opt_bytes_length fl o : length (tcp_opt_bytes fl o) = Z.to_nat (tcp_opt_len fl o).
Proof.
  unfold tcp_opt_bytes, tcp_opt_len. destruct (has fl TCP_SYN); [|done].
  destruct (include_mss o), (include_sack_permitted o), (include_wscale o); reflexivity.
Qed.

(** The fields of a segment, as the receiver reads them. *)
Record seg_view (tcp : list Z) (sp dp q k fl hlen : Z) (p : list Z) : Prop := {
  sv_sp : ntohs (ld16 tcp 0) = sp;
  sv_dp : ntohs (ld16 tcp 2) = dp;
  sv_seq : seg_seq tcp = q;
  sv_ack : ntohl (ld32 tcp 8) = k;
  sv_flags : byte_at tcp 13 = fl;
  sv_hlen : tcp_data_off tcp = hlen;
  sv_payload : seg_payload tcp (hlen + Z.of_nat (length p)) = p }.

Lemma tcp_fields_view sp dp q k fl w ck o p :
  0 <= sp < 65536 -> 0 <= dp < 65536 -> 0 <= q < 2 ^ 32 -> 0 <= k < 2 ^ 32 ->
  seg_view (tcp_fields sp dp q k fl w ck o p) sp dp q k fl (sizeof_tcp_hdr + tcp_opt_len fl o) p.
Proof.
  intros Hsp Hdp Hq Hk. set (tcp := tcp_fields _ _ _ _ _ _ _ _ _).
  pose proof (tcp_opt_len_range fl o) as [Hr Hm]. unfold sizeof_tcp_hdr.
  assert (Hoff : tcp_data_off tcp = 20 + tcp_opt_len fl o).
  { unfold tcp_data_off. change (byte_at tcp 12) with (u8 (Z.shiftl (u8 ((20 + tcp_opt_len fl o) / 4)) 4)).
    rewrite shl, shr by lia. unfold u8. rewrite (Z.mod_small (_ / 4)) by zdiv. rewrite Z.mod_small by zdiv. zdiv. }
  split.
  - etrans; [apply (ntohs_field sp)|by apply u16_small].
  - etrans; [apply (ntohs_field dp)|by apply u16_small].
  - etrans; [apply (ntohl_field q)|by apply u32_small].
  - etrans; [apply (ntohl_field k)|by apply u32_small].
  - done.
  - exact Hoff.
  - unfold seg_payload. rewrite Hoff.
    assert (Hs : tcp = (take 20 tcp ++ tcp_opt_bytes fl o) ++ p) by (rewrite <- app_assoc; reflexivity).
    rewrite Hs at 1. rewrite drop_app_length'.
    + apply take_ge. lia.
    + rewrite length_app, tcp_opt_bytes_length. change (length (take 20 tcp)) with 20%nat. lia.
Qed.

(** The packet of a frame, with its lengths. *)
Definition tcp_len (fl : Z) (o : tcp_opt) (p : list Z) : Z := sizeof_tcp_hdr + tcp_opt_len fl o + Z.of_nat (length p).
Definition frame_ip (f : list Z) : list Z := drop 14 f.
Definition frame_tcp (f : list Z) : list Z := drop 20 (drop 14 f).

Lemma tcp_frame_parts dm sm src dst sp dp q k fl w o p :
  length dm = 6%nat -> length sm = 6%nat ->
  let f := tcp_frame dm sm src dst sp dp q k fl w o p in
  exists ck, frame_tcp f = tcp_fields sp dp q k fl w ck o p /\
    frame_ip f = ipv4_hdr (sizeof_ipv4_hdr + tcp_len fl o p) 21571 IP_PROTO_TCP src dst ++ frame_tcp f /\
    f = eth_hdr dm sm ETH_P_IP ++ frame_ip f.
Proof.
  intros Hd Hs f.
  destruct (mac_bytes dm Hd) as (? & ? & ? & ? & ? & ? & ->).
  destruct (mac_bytes sm Hs) as (? & ? & ? & ? & ? & ? & ->).
  unfold f, tcp_frame. set (ck := htons (net_checksum2 _ _)). exists ck. clearbody ck. split_and!; reflexivity.
Qed.

Lemma frame_ip_addrs dm sm src dst sp dp q k fl w o p :
  length dm = 6%nat -> length sm = 6%nat -> 0 <= src < 2 ^ 32 -> 0 <= dst < 2 ^ 32 ->
  let ip := frame_ip (tcp_frame dm sm src dst sp dp q k fl w o p) in
  ntohl (ld32 ip 12) = src /\ ntohl (ld32 ip 16) = dst.
Proof.
  intros Hd Hs H1 H2 ip. destruct (tcp_frame_parts dm sm src dst sp dp q k fl w o p Hd Hs) as (ck & E1 & E2 & _).
  unfold ip. rewrite E2. generalize (frame_tcp (tcp_frame dm sm src dst sp dp q k fl w o p)). intros rest. split.
  - etrans; [apply (ntohl_field src)|by apply u32_small].
  - etrans; [apply (ntohl_field dst)|by apply u32_small].
Qed.

Lemma tcp_frame_length dm sm src dst sp dp q k fl w o p :
  length dm = 6%nat -> length sm = 6%nat ->
  Z.of_nat (length (tcp_frame dm sm src dst sp dp q k fl w o p)) = 34 + tcp_len fl o p.
Proof.
  intros Hd Hs. destruct (tcp_frame_parts dm sm src dst sp dp q k fl w o p Hd Hs) as (ck & E1 & E2 & E3).
  rewrite E3, E2, E1. unfold eth_hdr, tcp_fields. rewrite !length_app, Hd, Hs, tcp_opt_bytes_length, ipv4_hdr_length.
  pose proof (tcp_opt_len_range fl o). unfold tcp_len, sizeof_tcp_hdr. simpl length. lia.
Qed.

Section receiving.
Context (driver_send : nat -> list Z -> M net Z) (udp_handler : Z -> net_udp_dgram -> M net Z).
Context (tcp_receive : (nat -> list Z -> M net unit) -> net_ipv4_rx_info -> M net Z).
Context (raw_receive : net_ipv4_rx_info -> M net unit).

Lemma receive_tcp_frame d dm sm src dst sp dp q k fl w o p s f :
  length dm = 6%nat -> length sm = 6%nat -> (length p <= 1400)%nat ->
  find_proto (ipv4_protocols s) IP_PROTO_TCP = Some tcp_receiver ->
  let frame := tcp_frame dm sm src dst sp dp q k fl w o p in
  net_receive_frame driver_send udp_handler tcp_receive raw_receive (S f) d frame s =
  (tcp_receive (net_receive_frame driver_send udp_handler tcp_receive raw_receive f)
     (mkRx d sm (frame_ip frame) 20 (20 + tcp_len fl o p)) ;;; ret tt)
    (set_devs (alter (enqueue frame) d) s).
Proof.
  intros Hd Hs Hl Hp frame. pose proof (tcp_opt_len_range fl o) as [Hr _].
  pose proof (tcp_frame_length dm sm src dst sp dp q k fl w o p Hd Hs) as Hlen. fold frame in Hlen.
  destruct (tcp_frame_parts dm sm src dst sp dp q k fl w o p Hd Hs) as (ck & E1 & E2 & E3). fold frame in E1, E2, E3.
  unfold tcp_len, sizeof_tcp_hdr in *.
  cbn [net_receive_frame]. unfold receive_frame_body. rewrite Hlen. unfold sizeof_eth_hdr.
  rewrite (proj2 (Z.ltb_ge _ _)) by lia. unfold netdev_enqueue_rx. rewrite Hlen. unfold NET_ETH_FRAME_MAX.
  rewrite (proj2 (Z.eqb_neq _ _)), (proj2 (Z.ltb_ge _ _)) by lia. cbn [orb].
  assert (Htype : ntohs (ld16 frame 12) = ETH_P_IP).
  { rewrite E3. destruct (mac_bytes dm Hd) as (? & ? & ? & ? & ? & ? & ->).
    destruct (mac_bytes sm Hs) as (? & ? & ? & ? & ? & ? & ->). reflexivity. }
  rewrite Htype. change (ETH_P_IP =? ETH_P_ARP) with false. cbn [andb].
  assert (Hparse : parse_ipv4 d frame = Some (mkRx d sm (frame_ip frame) 20 (20 + (20 + tcp_opt_len fl o + Z.of_nat (length p))))).
  { rewrite E3 at 1. rewrite E2. apply parse_ipv4_frame; [done|done|unfold sizeof_ipv4_hdr; lia|].
    assert (Hfl : length frame = (34 + length (frame_tcp frame))%nat).
    { rewrite E3 at 1. rewrite E2 at 1. unfold eth_hdr. rewrite !length_app, Hd, Hs, ipv4_hdr_length. done. }
    unfold sizeof_ipv4_hdr. lia. }
  rewrite Hparse. unfold upd_dev, modify, bind at 1. unfold net_ipv4_receive. rewrite !bind_assoc.
  unfold gets, bind at 1. cbn [ipv4_protocols set_devs rx_ip].
  assert (Hproto : byte_at (frame_ip frame) 9 = IP_PROTO_TCP) by (rewrite E2; reflexivity).
  rewrite Hproto, Hp. unfold bind. done.
Qed.
End receiving.

(** ** A segment from the device's own address to a closed port *)

Section land.
Context (driver_send : nat -> list Z -> M net Z) (udp_handler : Z -> net_udp_dgram -> M net Z).
Context (raw_receive : net_ipv4_rx_info -> M net unit).
Context (listen_handler : Z -> nat -> Z -> Z -> list Z -> Z -> Z -> Z -> M net (Z * Z)).
Context (accept_handler : Z -> nat -> Z -> Z -> Z -> Z -> M net Z).

(** No connection and no listener has the two ports at this address. *)
Record closed_ports (d : nat) (addr sp dp : Z) (s : net) : Prop := {
  cp_dev : exists x, devs s !! d = Some x /\ ipv4_addr x = addr /\ length (mac x) = 6%nat;
  cp_proto : find_proto (ipv4_protocols s) IP_PROTO_TCP = Some tcp_receiver;
  cp_conn : conn_find_loop (tcp_conns (up s)) d addr sp dp s = Ret 0 s;
  cp_conn' : conn_find_loop (tcp_conns (up s)) d addr dp sp s = Ret 0 s;
  cp_listener : tcp_listener_find (tcp_listeners (up s)) addr sp = None;
  cp_listener' : tcp_listener_find (tcp_listeners (up s)) addr dp = None }.

(** The search depends on the connections only. *)
Lemma conn_find_up l d r p q x s s' :
  up s' = up s -> conn_find_loop l d r p q s = Ret x s -> conn_find_loop l d r p q s' = Ret x s'.
Proof.
  intros E. induction l as [|y l IH]; cbn [conn_find_loop]; [by intros [= <-]|].
  unfold bind, get_conn. rewrite E. destruct (conns (up s) !! y); [|done]. case_match; [by intros [= ->]|done].
Qed.

Lemma closed_ports_alter g d addr sp dp s :
  (forall x, ipv4_addr (g x) = ipv4_addr x /\ mac (g x) = mac x) ->
  closed_ports d addr sp dp s -> closed_ports d addr sp dp (set_devs (alter g d) s).
Proof.
  intros Hg [(x & H1 & H2 & H3) H4 H5 H6 H7 H8]. split; try done.
  - exists (g x). destruct (Hg x) as [-> ->]. split; [|done]. simpl. by rewrite list_lookup_alter_eq, H1.
  - by apply conn_find_up with s.
  - by apply conn_find_up with s.
Qed.

Lemma closed_ports_swap d addr sp dp s : closed_ports d addr sp dp s -> closed_ports d addr dp sp s.
Proof. intros [H1 H2 H3 H4 H5 H6]. by split. Qed.

Lemma enqueue_addr frame x : ipv4_addr (enqueue frame x) = ipv4_addr x /\ mac (enqueue frame x) = mac x.
Proof. unfold enqueue. by case_match. Qed.

(** The receiver's answer to a segment nobody wants. *)
Lemma closed_port_reset recv d dm sm addr sp dp q k fl w o p s :
  length dm = 6%nat -> length sm = 6%nat -> 0 <= addr < 2 ^ 32 -> 0 <= sp < 65536 -> 0 <= dp < 65536 ->
  0 <= q < 2 ^ 32 -> 0 <= k < 2 ^ 32 -> closed_ports d addr sp dp s ->
  exists x q' k' fl', devs s !! d = Some x /\ length (mac x) = 6%nat /\ 0 <= q' < 2 ^ 32 /\ 0 <= k' < 2 ^ 32 /\
  tcp_ipv4_receive driver_send listen_handler accept_handler recv
    (mkRx d sm (frame_ip (tcp_frame dm sm addr addr sp dp q k fl w o p)) 20 (20 + tcp_len fl o p)) s =
  (recv d (tcp_frame sm (mac x) addr addr dp sp q' k' fl' TCP_WINDOW (mkTcpOpt (has fl' TCP_SYN) false 0 false) []) ;;;
   ret 1) (set_devs (alter (fun x => set_tx (u64 (tx_packets x + 1)) x) d) s).
Proof.
  intros Hd Hs Ha Hsp Hdp Hq Hk [(x & Hx & Hxa & Hxm) Hpr Hc1 Hc2 Hl1 Hl2].
  destruct (frame_ip_addrs dm sm addr addr sp dp q k fl w o p Hd Hs Ha Ha) as [Es Ed].
  destruct (tcp_frame_parts dm sm addr addr sp dp q k fl w o p Hd Hs) as (ck & E1 & _ & _).
  set (frame := tcp_frame dm sm addr addr sp dp q k fl w o p) in *.
  pose proof (tcp_fields_view sp dp q k fl w ck o p Hsp Hdp Hq Hk) as V. rewrite <- E1 in V.
  destruct V as [V1 V2 V3 V4 V5 _ _]. unfold seg_seq in V3.
  exists x, (if has fl TCP_ACK then k else 0), (if has fl TCP_ACK then 0 else u32 (q + 1)),
    (if has fl TCP_ACK then TCP_RST else Z.lor TCP_RST TCP_ACK).
  split; [done|]. split; [done|]. split; [case_match; lia|]. split; [case_match; [lia|apply u32_bounds]|].
  unfold tcp_ipv4_receive, net_tcp_receive. cbn [rx_dev rx_src_mac rx_ip rx_ihl rx_ip_len].
  pose proof (tcp_opt_len_range fl o) as [Hr _]. unfold tcp_len, sizeof_tcp_hdr.
  rewrite (proj2 (Z.ltb_ge _ _)) by lia. change (Z.to_nat 20) with 20%nat.
  change (drop 20 (frame_ip frame)) with (frame_tcp frame).
  rewrite bind_assoc. rewrite bind_ret with (a := 0) (s' := s)
    by (unfold tcp_conn_find, gets, bind; by rewrite Es, V1, V2).
  cbn [Z.eqb]. rewrite bind_assoc, (bind_ret (gets _) _ s _ s) by done.
  rewrite Ed, V2, Hl2. unfold tcp_send_reset. rewrite V1, V2, V3, V4, V5, Es.
  assert (Hg : get_dev d s = Ret x s) by (unfold get_dev; by rewrite Hx).
  unfold net_send_ipv4_tcp, net_send_ipv4_tcp_with_window_opts_impl.
  change (1400 <? Z.of_nat (length [])) with false. cbv iota.
  set (fl' := if has fl TCP_ACK then TCP_RST else _). set (o' := mkTcpOpt _ _ _ _).
  pose proof (tcp_opt_len_range fl' o') as [Hr' _].
  unfold NET_ETH_FRAME_MAX, sizeof_eth_hdr, sizeof_ipv4_hdr, sizeof_tcp_hdr. cbv zeta.
  change (Z.of_nat (length [])) with 0. rewrite (proj2 (Z.ltb_ge 1518 _)) by lia.
  rewrite !bind_assoc, (bind_ret _ _ _ _ _ Hg). unfold transmit. rewrite !bind_assoc, (bind_ret _ _ _ _ _ Hg).
  rewrite Hxa, Z.eqb_refl. rewrite bind_assoc. rewrite (bind_ret (upd_dev _ _) _ s tt _ eq_refl).
  unfold bind. by destruct (recv _ _ _).
Qed.

(** C30: a TCP segment whose source and destination are the device's own address, with
    ports that are closed, is never done with: the reset the kernel answers with goes to
    its own address, is received in the same way before the first call returns, and is
    answered by a reset again.  Whatever bound is put on the depth of the calls, it is
    used up. *)
Theorem tcp_land_no_return f d dm sm addr sp dp q k fl w o p s :
  length dm = 6%nat -> length sm = 6%nat -> (length p <= 1400)%nat -> 0 <= addr < 2 ^ 32 ->
  0 <= sp < 65536 -> 0 <= dp < 65536 -> 0 <= q < 2 ^ 32 -> 0 <= k < 2 ^ 32 -> closed_ports d addr sp dp s ->
  net_receive_frame driver_send udp_handler (tcp_ipv4_receive driver_send listen_handler accept_handler)
    raw_receive f d (tcp_frame dm sm addr addr sp dp q k fl w o p) s = Diverge.
Proof.
  revert dm sm sp dp q k fl w o p s. induction f as [|f IH]; [done|].
  intros dm sm sp dp q k fl w o p s Hd Hs Hl Ha Hsp Hdp Hq Hk Hc.
  rewrite receive_tcp_frame by (done || apply Hc).
  set (frame := tcp_frame dm sm addr addr sp dp q k fl w o p). set (s1 := set_devs _ s).
  assert (Hc1 : closed_ports d addr sp dp s1) by (apply closed_ports_alter; [apply enqueue_addr|done]).
  set (recv := net_receive_frame _ _ _ _ f).
  destruct (closed_port_reset recv d dm sm addr sp dp q k fl w o p s1 Hd Hs Ha Hsp Hdp Hq Hk Hc1)
    as (x & q' & k' & fl' & Hx & Hm & Hq' & Hk' & E).
  unfold bind at 1. fold frame in E. rewrite E. unfold bind, recv.
  rewrite IH; try done; [simpl; lia|]. apply closed_ports_alter; [done|]. by apply closed_ports_swap.
Qed.
End land.
