(* ===== verification/TcpSpecs.v ===== *)
(** * TCP: windows, options, listeners, opening a connection, sending

    The window a connection announces, the options of a SYN, the table of listeners,
    and the way from a SYN to an established connection. *)

From stdpp Require Import base gmap list.
From Stdlib Require Import ZArith Lia.
From S2P Require Import Prelude Wire WireProps NetState Net NetProps Tcp TcpRing TcpProps.

Local Open Scope Z_scope.

(** A program that comes down to another one in another state. *)
Lemma wp_eq_at {S A} (m m' : M S A) s s' Q : m s = m' s' -> wp m' s' Q -> wp m s Q.
Proof. unfold wp. by intros ->. Qed.

(** ** The window *)

Lemma wscale_loop_spec fuel sh cap :
  0 <= sh <= 14 -> 14 - sh < Z.of_nat fuel ->
  let w := wscale_loop fuel sh cap in
  sh <= w <= 14 /\ (w = 14 \/ Z.shiftr cap w <= 65535) /\ (sh < w -> 65535 < Z.shiftr cap (w - 1)).
Proof.
  revert sh. induction fuel as [|fuel IH]; intros sh H1 H2; [lia|]. cbn [wscale_loop].
  destruct ((sh <? 14) && (65535 <? Z.shiftr cap sh)) eqn:E; cbv zeta.
  - bools. destruct (IH (sh + 1)) as (I1 & I2 & I3); [lia|lia|]. split; [lia|]. split; [done|]. intros _.
    destruct (decide (wscale_loop fuel (sh + 1) cap = sh + 1)) as [->|Hne]; [by replace (sh + 1 - 1) with sh by lia|].
    apply I3. lia.
  - split; [lia|]. split; [|lia]. apply andb_false_iff in E as [E|E]; bools; [left; lia|by right].
Qed.

(** The shift of the window field. *)
Definition window_shift (c : tcp_conn) : Z := if peer_wscale_seen c then rcv_wscale c else 0.

Lemma recv_window_eq c :
  0 <= rcv_wscale c ->
  let free := tcp_recv_window_full c in
  0 <= free -> tcp_recv_window c = Z.min 65535 (free / 2 ^ window_shift c).
Proof.
  intros Hw free Hf. unfold tcp_recv_window, window_shift. fold free.
  set (g := if peer_wscale_seen c && negb (rcv_wscale c =? 0) then Z.shiftr free (rcv_wscale c) else free).
  assert (Hg : g = free / 2 ^ (if peer_wscale_seen c then rcv_wscale c else 0)).
  { unfold g. destruct (peer_wscale_seen c); cbn [andb]; [|by rewrite Z.pow_0_r, Z.div_1_r].
    destruct (rcv_wscale c =? 0) eqn:E; cbn [negb]; [|by apply Z.shiftr_div_pow2].
    apply Z.eqb_eq in E. by rewrite E, Z.pow_0_r, Z.div_1_r. }
  rewrite <- Hg. assert (0 <= g) by (rewrite Hg; apply Z.div_pos; [done|apply Z.pow_pos_nonneg; [lia|by destruct (peer_wscale_seen c)]]).
  destruct (65535 <? g) eqn:E; bools; rewrite u16_small by lia; lia.
Qed.

(** a connection with the ring of [cap] bytes never announces more than its free
    space: the 16-bit window, scaled the way the peer reads it, is at most the free
    bytes.  With the scale the code computes for that size, once the peer takes part in
    scaling, the announced window is the free space up to one unit of the scale. *)
Theorem tcp_window_bounds c b :
  ring_wf c b -> 0 < rx_buf c -> rcv_wscale c = tcp_wscale_for_cap (c_rx_cap c) ->
  let free := c_rx_cap c - c_rx_len c in
  0 <= tcp_recv_window c <= 65535 /\ tcp_recv_window c * 2 ^ window_shift c <= free /\
  (peer_wscale_seen c = true -> free < (tcp_recv_window c + 1) * 2 ^ window_shift c).
Proof.
  intros Hr Hb Hw free. pose proof Hr as [Wc Ws Wh Wl].
  destruct (wscale_loop_spec 15 0 (c_rx_cap c)) as (S1 & S2 & _); [lia|lia|].
  change (wscale_loop 15 0 (c_rx_cap c)) with (tcp_wscale_for_cap (c_rx_cap c)) in *. rewrite <- Hw in *.
  pose proof (window_full c b Hb Hr) as Hfull. fold free in Hfull.
  pose proof (recv_window_eq c) as E. rewrite Hfull in E. cbv zeta in E. rewrite E by lia.
  set (sh := window_shift c). assert (Hsh : 0 <= sh) by (unfold sh, window_shift; case_match; lia).
  assert (Hp : 0 < 2 ^ sh) by (apply Z.pow_pos_nonneg; lia).
  pose proof (Z.mul_div_le free (2 ^ sh) Hp) as Hle.
  pose proof (Z.mul_succ_div_gt free (2 ^ sh) Hp) as Hgt.
  assert (0 <= free / 2 ^ sh) by (apply Z.div_pos; lia).
  split; [lia|]. split; [nia|]. intros Hseen.
  assert (free / 2 ^ sh <= 65535); [|nia].
  unfold sh, window_shift in *. rewrite Hseen in *.
  etrans; [apply Z.div_le_mono with (b := c_rx_cap c); lia|].
  destruct S2 as [E14|S2]; [|by rewrite Z.shiftr_div_pow2 in S2 by lia].
  rewrite E14. unfold TCP_RCVBUF_MAX in *. zdiv.
Qed.

(** ** The options of a SYN *)

(** What parsing may change. *)
Definition syn_same (c c' : tcp_conn) : Prop :=
  core c' = core c /\ rx_buf c' = rx_buf c /\ c_rx_cap c' = c_rx_cap c /\ c_rx_len c' = c_rx_len c /\
  c_rx_head c' = c_rx_head c /\ rcv_wscale c' = rcv_wscale c /\ peer_mac c' = peer_mac c /\
  heap_allocated c' = heap_allocated c.

Lemma syn_same_refl c : syn_same c c.
Proof. by repeat split. Qed.
Lemma syn_same_trans c1 c2 c3 : syn_same c1 c2 -> syn_same c2 c3 -> syn_same c1 c3.
Proof. unfold syn_same. intuition congruence. Qed.

Lemma syn_options_loop_run fuel a opt left c s :
  0 <= left <= Z.of_nat (length opt) -> left < Z.of_nat fuel -> snd_wscale c <= 14 ->
  exists c', syn_options_loop fuel a opt left (put_conn a c s) = Ret tt (put_conn a c' s) /\
    syn_same c c' /\ snd_wscale c' <= 14.
Proof.
  revert opt left c. induction fuel as [|fuel IH]; intros opt left c Hl Hf Hw; [lia|]. cbn [syn_options_loop].
  destruct (left =? 0) eqn:E0; [exists c; split; [done|]; split; [apply syn_same_refl|done]|]. bools.
  assert (Hrd : forall i, (i < length opt)%nat -> exists x, rd_opt opt i (put_conn a c s) = Ret x (put_conn a c s)).
  { intros i Hi. destruct (lookup_lt_is_Some_2 opt i Hi) as [x Hx]. exists x. unfold rd_opt. by rewrite Hx. }
  assert (Hstop : exists c', ret tt (put_conn a c s) = Ret tt (put_conn a c' s) /\ syn_same c c' /\ snd_wscale c' <= 14)
    by (exists c; split; [done|]; split; [apply syn_same_refl|done]).
  destruct (Hrd 0%nat ltac:(lia)) as [kind H0]. rewrite (bind_ret _ _ _ _ _ H0).
  destruct (kind =? 0); [done|].
  destruct (kind =? 1).
  { apply IH; [rewrite length_drop; lia|lia|done]. }
  destruct (left <? 2) eqn:E2; [done|]. bools.
  destruct (Hrd 1%nat ltac:(lia)) as [olen H1]. rewrite (bind_ret _ _ _ _ _ H1).
  destruct ((olen <? 2) || (left <? olen)) eqn:E3; [done|]. bools.
  assert (Hgo : forall c1, syn_same c c1 -> snd_wscale c1 <= 14 ->
    exists c', syn_options_loop fuel a (drop (Z.to_nat olen) opt) (left - olen) (put_conn a c1 s) =
      Ret tt (put_conn a c' s) /\ syn_same c c' /\ snd_wscale c' <= 14).
  { intros c1 S1 W1. destruct (IH (drop (Z.to_nat olen) opt) (left - olen) c1) as (c' & E & S' & W');
      [rewrite length_drop; lia|lia|done|]. exists c'. split; [done|]. split; [by eapply syn_same_trans|done]. }
  destruct ((kind =? 3) && (olen =? 3)) eqn:E4.
  - bools. destruct (Hrd 2%nat ltac:(lia)) as [ws Hws]. rewrite bind_assoc, (bind_ret _ _ _ _ _ Hws).
    rewrite (bind_ret _ _ _ _ _ (upd_conn_run a _ c _ (conns_put a c s))), put_conn_conn.
    apply Hgo; [by repeat split|]. simpl. case_match eqn:E5; blia.
  - destruct ((kind =? 4) && (olen =? 2)).
    + rewrite (bind_ret _ _ _ _ _ (upd_conn_run a _ c _ (conns_put a c s))), put_conn_conn.
      apply Hgo; [by repeat split|done].
    + rewrite (bind_ret (ret tt) _ _ tt _ eq_refl). by apply Hgo, Hw; apply syn_same_refl.
Qed.

Lemma syn_options_run a tcp hlen c s :
  conns (up s) !! a = Some c -> hlen <= Z.of_nat (length tcp) -> snd_wscale c <= 14 ->
  exists c', tcp_parse_syn_options a tcp hlen s = Ret tt (put_conn a c' s) /\
    syn_same c c' /\ snd_wscale c' <= 14.
Proof.
  intros Ha Hl Hw. unfold tcp_parse_syn_options. unfold sizeof_tcp_hdr.
  destruct (hlen <=? 20) eqn:E; bools.
  - exists c. rewrite put_conn_id by done. split; [done|]. split; [apply syn_same_refl|done].
  - destruct (syn_options_loop_run (S (Z.to_nat (hlen - 20))) a (drop 20 tcp) (hlen - 20) c s) as (c' & Hrun & H');
      [rewrite length_drop; lia|lia|done|]. rewrite put_conn_id in Hrun by done. by exists c'.
Qed.

(** C31: reading the options of a SYN ends for every option area that lies inside the
    packet, whatever its bytes are: each round consumes at least one byte, no byte past
    the header is read, and only the window scale of the peer (capped at 14) and the
    two negotiation flags of the connection can change. *)
Theorem tcp_syn_options_safe a tcp hlen c s :
  conns (up s) !! a = Some c -> hlen <= Z.of_nat (length tcp) -> snd_wscale c <= 14 ->
  exists c', tcp_parse_syn_options a tcp hlen s = Ret tt (put_conn a c' s) /\
    syn_same c c' /\ snd_wscale c' <= 14.
Proof. apply syn_options_run. Qed.

(** ** Listeners *)

(** Two binds that may exist together. *)
Definition compatible (x y : tcp_listener) : Prop :=
  l_port x = l_port y -> l_local_ip x <> 0 /\ l_local_ip y <> 0 /\ l_local_ip x <> l_local_ip y.
Fixpoint listeners_ok (l : list tcp_listener) : Prop :=
  match l with [] => True | x :: l => Forall (compatible x) l /\ listeners_ok l end.

(** The listener is for packets to this address and port. *)
Definition accepts (x : tcp_listener) (ip port : Z) : Prop :=
  l_port x = port /\ (l_local_ip x = ip \/ l_local_ip x = 0).

Lemma conflicts_spec l ip port h ah ctx :
  tcp_listener_conflicts l ip port = false <-> Forall (compatible (mkListener ip port h ah ctx)) l.
Proof.
  induction l as [|x l IH]; cbn [tcp_listener_conflicts]; [split; [constructor|done]|].
  rewrite Forall_cons. unfold compatible at 1. cbn [l_port l_local_ip].
  destruct (l_port x =? port) eqn:E1; cbn [negb]; bools.
  - destruct ((l_local_ip x =? 0) || (ip =? 0) || (l_local_ip x =? ip)) eqn:E2.
    + split; [done|]. intros [H _]. destruct H as (H1 & H2 & H3); [done|].
      apply orb_true_iff in E2 as [[?|?]%orb_true_iff|?]; bools; congruence.
    + bools. rewrite IH. split; [|tauto]. intros HF. split; [|done]. intros _. split_and!; congruence.
  - rewrite IH. split; [|tauto]. intros HF. split; [|done]. intros HE. congruence.
Qed.

Lemma listener_find_loop_spec l ip port w :
  (forall x, w = Some x -> accepts x ip port /\ l_local_ip x = 0) ->
  match listener_find_loop l ip port w with
  | Some x => (x ∈ l \/ w = Some x) /\ accepts x ip port
  | None => w = None /\ Forall (fun y => ~ accepts y ip port) l
  end.
Proof.
  revert w. induction l as [|y l IH]; intros w Hw; cbn [listener_find_loop].
  - destruct w as [x|]; [|done]. split; [by right|]. by apply Hw.
  - destruct (l_port y =? port) eqn:E1; cbn [negb]; bools.
    + destruct (l_local_ip y =? ip) eqn:E2; bools.
      { split; [left; left|]. split; [done|by left]. }
      destruct (l_local_ip y =? 0) eqn:E3; bools.
      * specialize (IH (Some y)). destruct (listener_find_loop l ip port (Some y)) as [x|].
        -- destruct IH as [[H|[= ->]] H2]; [by intros x0 [= <-]; repeat split; auto; right| |].
           ++ split; [left; by right|done].
           ++ split; [left; by left|done].
        -- destruct IH as [H _]; [by intros x0 [= <-]; repeat split; auto; right|done].
      * specialize (IH w Hw). destruct (listener_find_loop l ip port w) as [x|].
        -- destruct IH as [[H|H] H2]; split; [left; by right|done|by right|done].
        -- destruct IH as [H1 H2]. split; [done|]. constructor; [|done]. intros [_ [?|?]]; congruence.
    + specialize (IH w Hw). destruct (listener_find_loop l ip port w) as [x|].
      * destruct IH as [[H|H] H2]; split; [left; by right|done|by right|done].
      * destruct IH as [H1 H2]. split; [done|]. constructor; [|done]. intros [? _]; congruence.
Qed.

(** In a table of compatible binds at most one listener accepts a packet. *)
Lemma accepts_unique l x y ip port :
  listeners_ok l -> x ∈ l -> y ∈ l -> accepts x ip port -> accepts y ip port -> x = y.
Proof.
  induction l as [|z l IH]; [by intros _ ?%elem_of_nil|]. intros [Hz Hl] Hx Hy Ax Ay.
  assert (Hno : forall u, u ∈ l -> accepts z ip port -> accepts u ip port -> False).
  { intros u Hu [P1 Q1] [P2 Q2]. rewrite Forall_forall in Hz.
    destruct (Hz u Hu) as (H1 & H2 & H3); [congruence|]. destruct Q1, Q2; congruence. }
  apply elem_of_cons in Hx as [->|Hx]; apply elem_of_cons in Hy as [->|Hy]; [done| | |by apply IH].
  - by destruct (Hno y Hy).
  - by destruct (Hno x Hx).
Qed.

(** C24: adding a listener refuses exactly the binds that clash with one in the table
    (the same port, and the same address or one of the two for all addresses), keeps
    the table free of clashes, and in such a table the search for the listener of a
    packet finds the one that accepts it, or none if there is none. *)
Theorem tcp_listener_table ip port h ah ctx s :
  let l := tcp_listeners (up s) in
  listeners_ok l -> 0 < next_addr (up s) -> port <> 0 -> h <> 0 \/ ah <> 0 -> grants (up s) (next_addr (up s)) = true ->
  exists r s', tcp_listener_add ip port h ah ctx s = Ret r s' /\
    listeners_ok (tcp_listeners (up s')) /\
    (r = 0 \/ r = - EEXIST) /\
    (r = 0 <-> Forall (compatible (mkListener ip port h ah ctx)) l) /\
    tcp_listeners (up s') = (if r =? 0 then [mkListener ip port h ah ctx] else []) ++ l /\
    (forall ip' port' x, tcp_listener_find (tcp_listeners (up s')) ip' port' = Some x <->
       x ∈ tcp_listeners (up s') /\ accepts x ip' port').
Proof.
  intros l Hok Hn Hp Hh Hg.
  assert (Hfind : forall l ip' port' x, listeners_ok l ->
    (tcp_listener_find l ip' port' = Some x <-> x ∈ l /\ accepts x ip' port')).
  { intros l' ip' port' x Hl'. unfold tcp_listener_find.
    pose proof (listener_find_loop_spec l' ip' port' None) as H.
    destruct (listener_find_loop l' ip' port' None) as [y|].
    - destruct H as [[Hy|?] Ha]; [done| |done]. split; [by intros [= ->]|].
      intros [Hx Hax]. f_equal. by eapply accepts_unique.
    - destruct H as [_ H]; [done|]. split; [done|]. intros [Hx Hax]. rewrite Forall_forall in H. by destruct (H x Hx). }
  unfold tcp_listener_add. rewrite (proj2 (Z.eqb_neq port 0)) by done.
  assert ((h =? 0) && (ah =? 0) = false) as -> by (apply andb_false_iff; rewrite !Z.eqb_neq; tauto). cbn [orb].
  rewrite (bind_ret (gets _) _ s l s) by done.
  pose proof (conflicts_spec l ip port h ah ctx) as Hc.
  destruct (tcp_listener_conflicts l ip port).
  - exists (- EEXIST), s. split; [done|]. split; [done|]. split; [by right|].
    split; [|split; [done|intros; by apply Hfind]]. split; [done|]. intros H. by apply Hc in H.
  - assert (Hc' : Forall (compatible (mkListener ip port h ah ctx)) l) by by apply Hc.
    unfold kalloc, bind. rewrite Hg, (proj2 (Z.eqb_neq (next_addr (up s)) 0)) by lia. cbn.
    eexists 0, _. split; [done|]. split; [done|]. split; [by left|]. split; [done|].
    split; [done|]. intros. by apply Hfind.
Qed.

(** ** Opening a connection from a listener *)

(** The initial sequence number of a passive connection. *)
Definition passive_isn (now : Z) : Z := u32 (1280922368 + Z.land now 65535).

(** In every state in which the sockets are those of [s], and the addresses below
    [next] are given out, the call of an accept handler takes the connection: it
    returns 0, leaves TCP's tables, connections and buffers alone, and the sockets it
    leaves are as [asked] says. *)
Definition accept_takes (asked : gmap Z socket -> Prop) (s : net) (next : Z) (call : M net Z) : Prop := forall s1,
  side (up s1) = side (up s) -> next <= next_addr (up s1) -> devs_keep s s1 ->
  wp call s1 (fun r s2 => r = 0 /\ conns (up s2) = conns (up s1) /\ bufs (up s2) = bufs (up s1) /\
    next_addr (up s1) <= next_addr (up s2) /\ tcp_conns (up s2) = tcp_conns (up s1) /\
    tcp_listeners (up s2) = tcp_listeners (up s1) /\ devs_keep s1 s2 /\ asked (socks (up s2))).

Lemma devs_keep_trans s1 s2 s3 : devs_keep s1 s2 -> devs_keep s2 s3 -> devs_keep s1 s3.
Proof.
  intros D1 D2 d x Hx. destruct (D1 _ _ Hx) as (x1 & Hx1 & ? & ?). destruct (D2 _ _ Hx1) as (x2 & Hx2 & ? & ?).
  exists x2. repeat split; congruence.
Qed.
Lemma on_card_devs c c' s s' : on_card c s -> ident c' = ident c -> devs_keep s s' -> on_card c' s'.
Proof.
  intros (x & Hx & Ho & Hr) Hi Hk. unfold ident in Hi. injection Hi as Ed Er _ _.
  destruct (Hk _ _ Hx) as (x' & Hx' & Ho' & Ha'). exists x'. rewrite Ed, Er, Ho', Ha'. done.
Qed.

Lemma find_head a c l s :
  conns (up s) !! a = Some c ->
  conn_find_loop (a :: l) (c_dev c) (remote_ip c) (remote_port c) (local_port c) s = Ret a s.
Proof.
  intros H. cbn [conn_find_loop]. rewrite (bind_ret _ _ _ _ _ (get_conn_run _ _ _ H)).
  by rewrite Nat.eqb_refl, !Z.eqb_refl.
Qed.

(** A connection a SYN made, waiting for its acknowledgement. *)
Record half_open (a : Z) (l : tcp_listener) (isn irs : Z) (c : tcp_conn) (b : nbuf) (s : net) : Prop := {
  ho_addr : a <> 0;
  ho_at : conn_at a c b s;
  ho_card : on_card c s;
  ho_flags : (passive c, connected c, closed c, c_error c, read_shutdown c) = (true, false, false, false, false);
  ho_cap : c_rx_cap c = TCP_RCVBUF_MAX;
  ho_empty : ring_bytes c b = [];
  ho_seq : c_seq c = isn;
  ho_ack : c_ack c = u32 (irs + 1);
  ho_handlers : (c_accept_handler c, handler_ctx c) = (l_accept_handler l, l_ctx l);
  ho_listed : exists rest, tcp_conns (up s) = a :: rest }.

Section opening.
Context (driver_send : nat -> list Z -> M net Z) (Hdrv : driver_quiet driver_send).
Context (listen_handler : Z -> nat -> Z -> Z -> list Z -> Z -> Z -> Z -> M net (Z * Z)).
Context (accept_handler : Z -> nat -> Z -> Z -> Z -> Z -> M net Z).
Context (recv : nat -> list Z -> M net unit).

(** Rewriting with an update of the connection at address [a]. *)
Ltac step_conn := rewrite (bind_ret _ _ _ _ _ (upd_conn_run _ _ _ _ (conns_put _ _ _))), put_conn_conn; cbv beta.

(** The new connection and the state in which the answer is sent. *)
Lemma listen_syn_run d m ip tcp l s :
  let a := next_addr (up s) in
  0 < a -> grants (up s) a = true -> grants (up s) (a + 1) = true -> l_accept_handler l <> 0 ->
  tcp_data_off tcp <= Z.of_nat (length tcp) ->
  exists c,
    let s' := set_up (fun u => set_tcp_conns (a :: tcp_conns u) u)
      (put_conn a c (put_buf (a + 1) (mkBuf TCP_ACTIVE_RX_CAP ∅) (set_up (set_next_addr (a + 2)) s))) in
    tcp_handle_listen_syn driver_send recv d m ip tcp l s =
    (net_send_ipv4_tcp_window_opts driver_send recv (Some d) (Some (peer_mac c)) (remote_ip c)
        (local_port c) (remote_port c) (c_seq c) (c_ack c) (Z.lor TCP_SYN TCP_ACK) (tcp_recv_window c)
        true true (rcv_wscale c) true [] ;;; ret tt) s' /\
    ident c = (d, ntohl (ld32 ip 12), ntohs (ld16 tcp 0), ntohs (ld16 tcp 2)) /\
    status c = (true, false, false, false, false) /\
    (rx_buf c, c_rx_cap c, c_rx_len c, c_rx_head c) = (a + 1, TCP_ACTIVE_RX_CAP, 0, 0) /\
    (c_seq c, c_ack c, (c_accept_handler c, handler_ctx c)) =
    (passive_isn (ticks s), u32 (seg_seq tcp + 1), (l_accept_handler l, l_ctx l)).
Proof.
  intros a Ha Hg1 Hg2 Hl Hoff. unfold tcp_handle_listen_syn. set (s0 := set_up (set_next_addr (a + 1)) s).
  assert (H1 : kzalloc_conn zero_conn s = Ret a (put_conn a zero_conn s0)).
  { unfold kzalloc_conn, kalloc, bind. fold a. rewrite Hg1, (proj2 (Z.eqb_neq a 0)) by lia. done. }
  rewrite (bind_ret _ _ _ _ _ H1), (proj2 (Z.eqb_neq a 0)) by lia.
  rewrite (bind_ret (gets ticks) _ (put_conn a zero_conn s0) (ticks s) (put_conn a zero_conn s0) eq_refl). step_conn.
  match goal with |- context [put_conn a ?c s0] => set (c0 := c) end.
  destruct (syn_options_run a tcp (tcp_data_off tcp) c0 (put_conn a c0 s0)) as (c1 & E1 & S1 & _);
    [apply conns_put|done|done|].
  rewrite (bind_ret _ _ _ _ _ E1), put_conn_conn.
  step_conn. rewrite (proj2 (Z.eqb_neq (l_accept_handler l) 0)) by done. cbn [negb]. rewrite !bind_assoc. step_conn.
  match goal with |- context [put_conn a ?c s0] => set (c2 := c) end.
  rewrite bind_assoc. rewrite (bind_ret (kzalloc_buf _) _ _ (a + 1)
    (put_conn a c2 (put_buf (a + 1) (mkBuf TCP_ACTIVE_RX_CAP ∅) (set_up (set_next_addr (a + 2)) s)))).
  2: { rewrite kzalloc_buf_run by (simpl; lia). cbn [next_addr up set_up set_conns put_conn s0 set_next_addr grants].
       rewrite Hg2. unfold put_buf, put_conn, s0, set_up, set_bufs, set_conns, set_next_addr. simpl.
       by replace (a + 1 + 1) with (a + 2) by lia. }
  rewrite (proj2 (Z.eqb_neq (a + 1) 0)) by lia. rewrite !bind_assoc. step_conn. cbn [negb].
  rewrite (bind_ret (ret true) _ _ true _ eq_refl). cbn [negb]. step_conn. step_conn.
  rewrite (bind_ret (tcp_conn_add a) _ _ tt _ eq_refl).
  match goal with |- context [put_conn a ?c (put_buf _ _ _)] => set (c3 := c) end.
  set (s3 := set_up _ _). assert (Hc3 : conns (up s3) !! a = Some c3) by apply lookup_insert_eq.
  exists c3. cbv zeta. fold s3. rewrite (bind_ret _ _ _ _ _ (get_conn_run _ _ _ Hc3)). split; [done|].
  destruct S1 as (S1 & _). unfold core in S1.
  assert (S2 : ident c1 = ident c0) by congruence.
  assert (S3 : (closed c1, c_error c1, read_shutdown c1, connected c1, c_seq c1, c_ack c1) =
    (closed c0, c_error c0, read_shutdown c0, connected c0, c_seq c0, c_ack c0)) by congruence.
  injection S3 as T1 T2 T3 T4 T5 T6.
  split; [exact S2|]. split; [unfold status; simpl; by rewrite T1, T2, T3, T4|]. split; [done|].
  simpl. by rewrite T5, T6.
Qed.

Lemma listen_syn_opens d m ip tcp l x s :
  let a := next_addr (up s) in
  0 < a -> grants (up s) a = true -> grants (up s) (a + 1) = true -> l_accept_handler l <> 0 ->
  tcp_data_off tcp <= Z.of_nat (length tcp) ->
  devs s !! d = Some x -> dops x = driver_ops -> ntohl (ld32 ip 12) <> ipv4_addr x ->
  wp (tcp_handle_listen_syn driver_send recv d m ip tcp l) s (fun _ s' => exists c b,
    half_open a l (passive_isn (ticks s)) (seg_seq tcp) c b s' /\
    side (up s') = side (up s) /\ a + 2 <= next_addr (up s') /\ devs_keep s s' /\
    ident c = (d, ntohl (ld32 ip 12), ntohs (ld16 tcp 0), ntohs (ld16 tcp 2))).
Proof.
  intros a Ha Hg1 Hg2 Hl Hoff Hx Hops Hip.
  destruct (listen_syn_run d m ip tcp l s Ha Hg1 Hg2 Hl Hoff) as (c & E & Hi & Hs & Hr & Hq).
  fold a in E, Hr. eapply wp_eq_at; [exact E|]. clear E.
  pose proof Hi as Hi'. unfold ident in Hi'. injection Hi' as Ed Er Ep Eq.
  injection Hr as Rb Rc Rl Rh. injection Hq as Qs Qa Qh Qc.
  set (s1 := set_up _ (put_conn a c _)). set (b := mkBuf TCP_ACTIVE_RX_CAP ∅).
  assert (Hcard : on_card c s1) by (exists x; rewrite Ed, Er; done).
  assert (Hat : conn_at a c b s1).
  { split; [apply lookup_insert_eq|rewrite Rb; apply lookup_insert_eq| |rewrite Rb; simpl; lia].
    split; rewrite ?Rc, ?Rl, ?Rh; simpl; unfold TCP_ACTIVE_RX_CAP, TCP_RCVBUF_MAX; lia. }
  apply wp_bind. unfold net_send_ipv4_tcp_window_opts. rewrite Er.
  eapply wp_mono; [apply (tcp_impl_card driver_send Hdrv recv d x); done|].
  intros _ s' [Hup Hdk]. apply wp_ret. exists c, b. split; [|split_and!; [by rewrite Hup|rewrite Hup; simpl; lia|exact Hdk|done]].
  assert (Hk : keeps a s1 s') by by apply keeps_devs.
  split; try done.
  - lia.
  - by eapply conn_at_up.
  - by eapply on_card_keeps.
  - unfold ring_bytes. by rewrite Rl.
  - by rewrite Qh, Qc.
  - exists (tcp_conns (up s)). by rewrite Hup.
Qed.

(** The acknowledgement of the SYN: the handler is called and the connection becomes
    established; data in the same segment is received. *)
Lemma ack_establishes asked s0 next a l isn irs c b d m ip ihl n s :
  let tcp := drop (Z.to_nat ihl) ip in
  accept_takes asked s0 next (accept_handler (l_accept_handler l) d (remote_ip c) (remote_port c) a (l_ctx l)) ->
  side (up s) = side (up s0) -> next <= next_addr (up s) -> devs_keep s0 s ->
  half_open a l isn irs c b s -> l_accept_handler l <> 0 -> addressed c d ip tcp ->
  sizeof_tcp_hdr <= n - ihl -> sizeof_tcp_hdr <= tcp_data_off tcp <= n - ihl ->
  has (seg_flags tcp) TCP_ACK = true -> has (seg_flags tcp) TCP_RST = false -> has (seg_flags tcp) TCP_SYN = false ->
  ntohl (ld32 tcp 8) = u32 (isn + 1) ->
  wp (net_tcp_receive driver_send listen_handler accept_handler recv d m ip ihl n) s (fun _ s' => exists c' b',
    established a c' b' s' /\ ident c' = ident c /\
    rx_abs c' b' = rx_packet (mkRxq [] (u32 (irs + 1)) false false) tcp (n - ihl) /\ asked (socks (up s'))).
Proof.
  intros tcp Hacc Hside Hnext Hdevs Hho Hl Had Hn Hoff Fa Fr Fs Hack.
  destruct Hho as [H0 H1 H2 H3 H4 H5 H6 H7 H8 (rest & H9)].
  injection H3 as P1 P2 P3 P4 P5. injection H8 as H8 H8c.
  unfold net_tcp_receive. fold tcp. rewrite (proj2 (Z.ltb_ge n _)) by lia.
  assert (Hf : tcp_conn_find d ip tcp s = Ret a s).
  { unfold tcp_conn_find. unfold addressed, ident in Had. injection Had as -> -> -> ->.
    rewrite (bind_ret (gets _) _ s (a :: rest) s) by (unfold gets; by rewrite H9).
    apply find_head, H1. }
  apply wp_bind. eapply wp_intro; [exact Hf|]. cbn beta. rewrite (proj2 (Z.eqb_neq a 0)) by done.
  unfold receive_conn, rx_packet. rewrite (proj2 (Z.ltb_ge (n - ihl) sizeof_tcp_hdr)) by lia.
  rewrite (proj2 (Z.ltb_ge (tcp_data_off tcp) _)), (proj2 (Z.ltb_ge (n - ihl) (tcp_data_off tcp))) by lia. cbn [orb].
  change (byte_at tcp 13) with (seg_flags tcp). change (ntohl (ld32 tcp 4)) with (seg_seq tcp). rewrite Fr.
  pose proof (run_start _ _ _ _ H1 H2) as Hr.
  eapply wp_get; [exact Hr|]. rewrite P1. apply wp_bind. unfold receive_handshake.
  eapply wp_get; [exact Hr|]. rewrite P2, Fa, Hack, H6, Z.eqb_refl. cbn [negb andb].
  eapply wp_upd; [exact Hr|done..|]. intros s1 R1 B1.
  eapply wp_upd; [exact R1|done..|]. intros s2 R2 B2.
  eapply wp_wake; [exact R2|]. intros s3 R3. eapply wp_get; [exact R3|].
  match type of R3 with run_at _ _ _ ?c _ _ => set (c3 := c) in * end.
  change (c_accept_handler c3) with (c_accept_handler c). rewrite H8, (proj2 (Z.eqb_neq _ 0)) by done. cbn [negb].
  change (handler_ctx c3) with (handler_ctx c). change (c_dev c3) with (c_dev c).
  change (remote_ip c3) with (remote_ip c). change (remote_port c3) with (remote_port c).
  assert (c_dev c = d) as Ecd by (unfold addressed, ident in Had; congruence). rewrite H8c, Ecd.
  pose proof (ra_keeps _ _ _ _ _ _ R3) as K3.
  apply wp_bind. eapply wp_mono.
  { apply Hacc; [by rewrite (k_side _ _ _ K3)|pose proof (k_addr _ _ _ K3); lia|].
    eapply devs_keep_trans; [exact Hdevs|exact (k_devs _ _ _ K3)]. }
  intros r s4 (-> & A1 & A2 & A3 & A4 & A5 & A6 & Asked). cbn [Z.eqb negb].
  assert (R4 : run_at a c3 s4 c3 b s4).
  { pose proof (ra_at _ _ _ _ _ _ R3) as [Q1 Q2 Q3 Q4]. apply run_start.
    - split; [by rewrite A1|by rewrite A2|done|lia].
    - eapply on_card_devs; [exact (ra_card _ _ _ _ _ _ R3)|done|exact A6]. }
  eapply wp_upd; [exact R4|done..|]. intros s5 R5 B5. apply wp_ret.
  eapply wp_get; [exact R5|]. cbn [passive set_passive].
  set (c5 := set_passive false c3) in *.
  assert (He : established a c5 b s5).
  { pose proof (ra_at _ _ _ _ _ _ R5) as Q. split; try done.
    - apply R5.
    - change (c_ack c5) with (c_ack c). rewrite H7. apply u32_bounds.
    - rewrite (k_conns _ _ _ (ra_keeps _ _ _ _ _ _ R5)), A4, (k_conns _ _ _ K3), H9. apply find_head, Q. }
  assert (Hab : rx_abs c5 b = mkRxq [] (u32 (irs + 1)) false false).
  { unfold rx_abs. rewrite B5. change (c_ack c5) with (c_ack c). change (closed c5) with (closed c).
    change (c_error c5) with (c_error c). rewrite B2, B1, H5, H7, P3, P4. done. }
  eapply wp_mono; [by apply receive_active_refines|].
  intros _ s' (c' & b' & E1 & E2 & E3 & K). exists c', b'. split; [done|]. split; [by rewrite E2|].
  split; [by rewrite E3, Hab|].
  assert (side (up s') = side (up s4)) as Es by (by rewrite (k_side _ _ _ K), (k_side _ _ _ (ra_keeps _ _ _ _ _ _ R5))).
  assert (socks (up s') = socks (up s4)) as -> by (unfold side in Es; congruence). done.
Qed.
End opening.

Section open_and_send.
Context (driver_send : nat -> list Z -> M net Z).
Context (listen_handler : Z -> nat -> Z -> Z -> list Z -> Z -> Z -> Z -> M net (Z * Z)).
Context (accept_handler : Z -> nat -> Z -> Z -> Z -> Z -> M net Z).
Context (recv : nat -> list Z -> M net unit).

(** C23: a connection is opened and accepted.  A SYN from a machine behind a card, for
    which there is no connection yet, to a listener with an accept handler, followed by
    the acknowledgement of the answer, leaves an established connection: it is found by
    the segments of its peer, and its receive queue starts behind the SYN's sequence
    number with nothing in it but the data the acknowledgement carries.  The accept
    handler was called with the device, the peer and the connection: whatever the call
    makes of the sockets, [asked], holds of them in the end.  The heap has to grant the
    connection and its buffer, and the handler has to take the connection (for a
    listening socket: its backlog is not full and there is memory for a socket). *)
Theorem tcp_accept_opens asked d m ip ihl n l x m2 ip2 ihl2 n2 s :
  let a := next_addr (up s) in let tcp := drop (Z.to_nat ihl) ip in let tcp2 := drop (Z.to_nat ihl2) ip2 in
  let peer := ntohl (ld32 ip 12) in let peer_port := ntohs (ld16 tcp 0) in
  driver_quiet driver_send ->
  accept_takes asked s (a + 2) (accept_handler (l_accept_handler l) d peer peer_port a (l_ctx l)) ->
  sizeof_tcp_hdr <= n - ihl -> tcp_data_off tcp <= Z.of_nat (length tcp) -> has (byte_at tcp 13) TCP_SYN = true ->
  tcp_conn_find d ip tcp s = Ret 0 s ->
  tcp_listener_find (tcp_listeners (up s)) (ntohl (ld32 ip 16)) (ntohs (ld16 tcp 2)) = Some l ->
  l_accept_handler l <> 0 -> 0 < a -> grants (up s) a = true -> grants (up s) (a + 1) = true ->
  devs s !! d = Some x -> dops x = driver_ops -> ntohl (ld32 ip 12) <> ipv4_addr x ->
  (ntohl (ld32 ip2 12), ntohs (ld16 tcp2 0), ntohs (ld16 tcp2 2)) =
    (ntohl (ld32 ip 12), ntohs (ld16 tcp 0), ntohs (ld16 tcp 2)) ->
  sizeof_tcp_hdr <= n2 - ihl2 -> sizeof_tcp_hdr <= tcp_data_off tcp2 <= n2 - ihl2 ->
  has (seg_flags tcp2) TCP_ACK = true -> has (seg_flags tcp2) TCP_RST = false -> has (seg_flags tcp2) TCP_SYN = false ->
  ntohl (ld32 tcp2 8) = u32 (passive_isn (ticks s) + 1) ->
  wp (net_tcp_receive driver_send listen_handler accept_handler recv d m ip ihl n ;;;
      net_tcp_receive driver_send listen_handler accept_handler recv d m2 ip2 ihl2 n2) s
    (fun _ s' => exists c b, established a c b s' /\
       ident c = (d, peer, peer_port, ntohs (ld16 tcp 2)) /\
       rx_abs c b = rx_packet (mkRxq [] (u32 (seg_seq tcp + 1)) false false) tcp2 (n2 - ihl2) /\
       asked (socks (up s'))).
Proof.
  intros a tcp tcp2 peer peer_port Hdrv Hacc Hn Hoff Hsyn Hfind Hlist Hl Ha Hg1 Hg2 Hx Hops Hip Hsame Hn2 Hoff2 Fa Fr Fs Hack.
  apply wp_bind. unfold net_tcp_receive at 1. fold tcp. rewrite (proj2 (Z.ltb_ge n _)) by lia.
  apply wp_bind. eapply wp_intro; [exact Hfind|]. cbn [Z.eqb]. apply wp_bind, wp_gets. rewrite Hlist, Hsyn.
  eapply wp_mono; [by apply (listen_syn_opens driver_send Hdrv recv d m ip tcp l x s)|].
  intros _ s1 (c & b & Hho & Hside & Hnext & Hdevs & Hi). pose proof Hi as Hi'. unfold ident in Hi'. injection Hi' as I1 I2 I3 I4.
  eapply wp_mono; [eapply (ack_establishes driver_send Hdrv listen_handler accept_handler recv asked s (a + 2)); try done|].
  - rewrite I2, I3. exact Hacc.
  - unfold addressed. rewrite Hi. fold tcp2. injection Hsame as E1 E2 E3. by rewrite E1, E2, E3.
  - intros _ s' (c' & b' & E1 & E2 & E3 & E4). exists c', b'. split; [done|]. split; [by rewrite E2, Hi|done].
Qed.

(** ** Sending *)

(** The pieces of a message, at most 1400 bytes each. *)
Fixpoint chunks (fuel : nat) (p : list Z) : list (list Z) :=
  match p, fuel with
  | [], _ => []
  | _ :: _, O => []
  | _ :: _, S f => take 1400 p :: chunks f (drop 1400 p)
  end.
Lemma chunks_concat fuel p : (length p <= fuel)%nat -> concat (chunks fuel p) = p.
Proof.
  revert p. induction fuel as [|f IH]; intros p H; destruct p as [|x p]; try done; [simpl in H; lia|].
  cbn [chunks concat]. rewrite IH; [apply take_drop|]. rewrite length_drop. simpl in *. lia.
Qed.

(** The frames of the pieces: consecutive sequence numbers. *)
Fixpoint segment_frames (c : tcp_conn) (x : netdev) (q : Z) (cs : list (list Z)) : list (nat * list Z) :=
  match cs with
  | [] => []
  | p :: cs =>
      (c_dev c, tcp_frame (peer_mac c) (mac x) (ipv4_addr x) (remote_ip c) (local_port c) (remote_port c) q (c_ack c)
        (Z.lor TCP_PSH TCP_ACK) (tcp_recv_window c) (mkTcpOpt false false 0 false) p) ::
      segment_frames c x (u32 (q + Z.of_nat (length p))) cs
  end.

(** [P sent s]: in state [s] the driver has sent [sent].  A driver that sends every
    frame it is given, and a record that only the driver changes. *)
Definition sends_all (P : list (nat * list Z) -> net -> Prop) : Prop :=
  (forall sent g s, P sent s -> P sent (set_up g s)) /\
  forall d f sent s, P sent s -> wp (driver_send d f) s (fun r s' =>
    r = 0 /\ up s' = up s /\ devs s' = devs s /\ P (sent ++ [(d, f)]) s').

Lemma segment_frames_ext c c' x q cs :
  ident c' = ident c -> c_ack c' = c_ack c -> peer_mac c' = peer_mac c -> tcp_recv_window c' = tcp_recv_window c ->
  segment_frames c' x q cs = segment_frames c x q cs.
Proof.
  intros Hi Ha Hm Hw. unfold ident in Hi. injection Hi as E1 E2 E3 E4.
  revert q. induction cs as [|p cs IH]; intros q; [done|]. cbn [segment_frames]. by rewrite IH, E1, E2, E3, E4, Ha, Hm, Hw.
Qed.

Lemma send_payload_loop_S f a p :
  p <> [] ->
  send_payload_loop driver_send recv (S f) a p =
  (let len := Z.of_nat (length p) in
   let chunk := if 1400 <? len then 1400 else len in
   let* c := get_conn a in
   let seq_ := c_seq c in
   upd_conn a (set_seq (u32 (seq_ + chunk))) ;;;
   let* c := get_conn a in
   let* r := conn_send driver_send recv c seq_ (Z.lor TCP_PSH TCP_ACK) (take (Z.to_nat chunk) p) in
   if negb (r =? 0) then upd_conn a (set_seq seq_) ;;; ret r
   else send_payload_loop driver_send recv f a (drop (Z.to_nat chunk) p)).
Proof. by destruct p. Qed.

Lemma chunks_S f p : p <> [] -> chunks (S f) p = take 1400 p :: chunks f (drop 1400 p).
Proof. by destruct p. Qed.

(** One piece. *)
Lemma conn_send_frame P c x q p sent s :
  sends_all P -> P sent s -> (length p <= 1400)%nat -> devs s !! c_dev c = Some x -> dops x = driver_ops ->
  remote_ip c <> ipv4_addr x ->
  wp (conn_send driver_send recv c q (Z.lor TCP_PSH TCP_ACK) p) s (fun r s' => r = 0 /\ up s' = up s /\
    devs s' = devs s /\
    P (sent ++ [(c_dev c, tcp_frame (peer_mac c) (mac x) (ipv4_addr x) (remote_ip c) (local_port c) (remote_port c)
      q (c_ack c) (Z.lor TCP_PSH TCP_ACK) (tcp_recv_window c) (mkTcpOpt false false 0 false) p)]) s').
Proof.
  intros [_ Hsend] HP Hl Hx Hops Hip. unfold conn_send, net_send_ipv4_tcp_window.
  change (has (Z.lor TCP_PSH TCP_ACK) TCP_SYN) with false. unfold net_send_ipv4_tcp_with_window_opts_impl.
  rewrite (proj2 (Z.ltb_ge 1400 _)) by lia. cbv zeta.
  change (tcp_opt_len (Z.lor TCP_PSH TCP_ACK) (mkTcpOpt false false 0 false)) with 0.
  unfold NET_ETH_FRAME_MAX, sizeof_eth_hdr, sizeof_ipv4_hdr, sizeof_tcp_hdr.
  rewrite (proj2 (Z.ltb_ge 1518 _)) by lia.
  assert (Hg : get_dev (c_dev c) s = Ret x s) by (unfold get_dev; by rewrite Hx).
  apply wp_bind. eapply wp_intro; [exact Hg|]. cbn beta.
  unfold transmit. apply wp_bind. eapply wp_intro; [exact Hg|]. cbn beta.
  rewrite (proj2 (Z.eqb_neq (remote_ip c) (ipv4_addr x))) by done.
  unfold dev_send. apply wp_bind. eapply wp_intro; [exact Hg|]. cbn beta. rewrite Hops. by apply Hsend.
Qed.

Lemma send_payload_loop_frames P fuel a c x p sent s :
  sends_all P -> P sent s -> (length p <= fuel)%nat -> conns (up s) !! a = Some c ->
  devs s !! c_dev c = Some x -> dops x = driver_ops -> remote_ip c <> ipv4_addr x -> 0 <= c_seq c < 2 ^ 32 ->
  wp (send_payload_loop driver_send recv fuel a p) s (fun r s' => r = 0 /\
    P (sent ++ segment_frames c x (c_seq c) (chunks fuel p)) s' /\
    conns (up s') !! a = Some (set_seq (u32 (c_seq c + Z.of_nat (length p))) c)).
Proof.
  intros HS. pose proof HS as [Hup _]. revert p sent c s.
  induction fuel as [|fuel IH]; intros p sent c s HP Hlen Hc Hx Hops Hip Hq.
  all: destruct (decide (p = [])) as [->|Hne].
  1,3: apply wp_ret; cbn; rewrite app_nil_r; split; [done|]; split; [done|];
    rewrite Hc, Z.add_0_r, u32_small by done; by destruct c.
  { destruct p; [done|simpl in Hlen; lia]. }
  rewrite send_payload_loop_S, chunks_S by done. cbv zeta.
  set (chunk := if 1400 <? Z.of_nat (length p) then 1400 else Z.of_nat (length p)).
  assert (Hch : take (Z.to_nat chunk) p = take 1400 p /\ drop (Z.to_nat chunk) p = drop 1400 p /\
    Z.of_nat (length (take 1400 p)) = chunk /\ 0 < chunk).
  { assert (0 < length p)%nat by (destruct p; [done|simpl; lia]). rewrite length_take.
    unfold chunk. destruct (1400 <? Z.of_nat (length p)) eqn:E; bools; [split_and!; [done|done|lia|lia]|].
    rewrite !take_ge, !drop_ge by lia. split_and!; [done|done|lia|lia]. }
  destruct Hch as (E1 & E2 & E3 & E4). rewrite E1, E2.
  apply wp_bind. eapply wp_intro; [by apply get_conn_run|]. cbn beta.
  apply wp_bind. eapply wp_intro; [by apply upd_conn_run|]. cbn beta.
  set (c1 := set_seq (u32 (c_seq c + chunk)) c). set (s1 := put_conn a c1 s).
  apply wp_bind. eapply wp_intro; [apply get_conn_run, conns_put|]. cbn beta.
  apply wp_bind. eapply wp_mono.
  { apply (conn_send_frame P c1 x (c_seq c) (take 1400 p) sent s1); try done; [by apply Hup|rewrite length_take; lia]. }
  intros r s2 (-> & U2 & D2 & P2). cbn [Z.eqb negb].
  eapply wp_mono; [apply (IH (drop 1400 p) _ c1 s2 P2); try done|].
  - rewrite length_drop. assert (0 < length p)%nat by (destruct p; [done|simpl; lia]). lia.
  - rewrite U2. apply conns_put.
  - by rewrite D2.
  - apply u32_bounds.
  - intros r s3 (-> & P3 & C3). split; [done|]. cbn [segment_frames]. rewrite E3. split.
    + rewrite <- app_assoc in P3. cbn [app] in P3.
      rewrite (segment_frames_ext c c1) in P3 by done. exact P3.
    + rewrite C3. unfold c1. cbn [c_seq set_seq]. rewrite u32_add, length_drop. f_equal. unfold set_seq. simpl.
      f_equal. f_equal. rewrite length_take in E3. lia.
Qed.

(** sending a message over a connection hands the driver the frames of its pieces,
    in order and nothing else: pieces of at most 1400 bytes whose concatenation is the
    message, with consecutive sequence numbers from the connection's on; it returns 0
    and the connection's sequence number moves on by the length of the message. *)
Theorem tcp_send_frames P a c x data sent s :
  sends_all P -> P sent s -> conns (up s) !! a = Some c ->
  devs s !! c_dev c = Some x -> dops x = driver_ops -> remote_ip c <> ipv4_addr x -> 0 <= c_seq c < 2 ^ 32 ->
  let cs := chunks (length data) data in
  concat cs = data /\
  wp (tcp_send_payload driver_send recv a data) s (fun r s' => r = 0 /\
    P (sent ++ segment_frames c x (c_seq c) cs) s' /\
    conns (up s') !! a = Some (set_seq (u32 (c_seq c + Z.of_nat (length data))) c)).
Proof.
  intros HS HP Hc Hx Hops Hip Hq cs. split; [by apply chunks_concat|]. by eapply send_payload_loop_frames.
Qed.
End open_and_send.
