(* ===== verification/TcpExamples.v ===== *)
(** * TCP on concrete networks

    The theorems of TCP at concrete inputs, and runs that show what the code does on
    the edges: a conversation over the loop-back device, a header length that points
    outside the packet, a response longer than the HTTP client's buffer, data that is
    acknowledged without being received. *)

From stdpp Require Import base gmap list.
From Stdlib Require Import ZArith Lia.
From S2P Require Import Prelude Wire WireProps NetState Net NetProps Tcp TcpRing TcpProps TcpWire TcpSpecs.

Local Open Scope Z_scope.

(** Handlers that accept, and that answer "OK". *)
Definition ex_accept (h : Z) (d : nat) (ip port conn ctx : Z) : M net Z := ret 0.
Definition ex_listen (h : Z) (d : nat) (ip port : Z) (req : list Z) (resp cap ctx : Z) : M net (Z * Z) :=
  buf_write resp 0 [79; 75] ;;; ret (0, 2).
Definition ex_poll (d : nat) : M net Z := ret 0.
Definition ex_raw (rx : net_ipv4_rx_info) : M net unit := ret tt.
Definition ex_peer : list Z := [82; 85; 10; 0; 2; 2].

(** The card's connection to port 80 of 10.0.2.2. *)
Definition ex_conn : tcp_conn :=
  mkConn 1 (net_ipv4 10 0 2 2) 80 40000 500 1000 ex_peer 2 TCP_ACTIVE_RX_CAP 0 0 7 7 true true 0 0 0 0 0
    false true false false false false false true.
Definition ex_ring : nbuf := mkBuf TCP_ACTIVE_RX_CAP ∅.
Definition ex_tcp : net :=
  set_up (fun u => set_next_addr 3 (set_tcp_conns [1] u)) (put_conn 1 ex_conn (put_buf 2 ex_ring ex_net)).

Lemma ex_send_quiet : driver_quiet ex_send.
Proof. intros d f s. apply wp_ret. split; [done|]. intros d' x Hx. eauto. Qed.

Lemma ex_established : established 1 ex_conn ex_ring ex_tcp.
Proof.
  split; try done. exists ex_card. split_and!; [reflexivity|reflexivity|discriminate].
Qed.

(** A segment of the peer. *)
Definition ex_packet (q fl : Z) (p : list Z) : list Z :=
  frame_ip (tcp_frame (mac ex_card) ex_peer (net_ipv4 10 0 2 2) (net_ipv4 10 0 2 15) 80 40000 q 500 fl 65535
    (mkTcpOpt false false 0 false) p).
Definition ex_segment (q fl : Z) (p : list Z) : tcp_event :=
  Segment ex_peer (ex_packet q fl p) 20 (40 + Z.of_nat (length p)).

(** Out of order, repeated, read in between, and the end. *)
Definition ex_events : list tcp_event :=
  [ex_segment 1003 24 [14; 15]; ex_segment 1000 24 [11; 12; 13]; ex_segment 1000 24 [11; 12; 13]; Read 2;
   ex_segment 1003 24 [14; 15]; Read 100].

Lemma tcp_stream_refines_witness :
  Forall (event_ok ex_conn) ex_events /\
  wp (run_events ex_send ex_listen ex_accept ex_poll ex_handler ex_raw (ret false) (fun _ _ => ret 0) 5 1 1 ex_events) ex_tcp
    (fun out s' => exists c' b', established 1 c' b' s' /\
       (out, rx_abs c' b') = ([(0, [11; 12]); (0, [13; 14; 15])], mkRxq [] 1005 false false)).
Proof.
  assert (Hok : Forall (event_ok ex_conn) ex_events) by (repeat constructor).
  split; [exact Hok|].
  exact (tcp_stream_refines ex_send ex_send_quiet ex_listen ex_accept ex_poll ex_handler ex_raw (ret false)
    (fun _ _ => ret 0) 5 1 ex_conn ex_ring ex_events ex_tcp ex_established Hok).
Defined.

Lemma tcp_stream_prefix_witness :
  wp (run_events ex_send ex_listen ex_accept ex_poll ex_handler ex_raw (ret false) (fun _ _ => ret 0) 5 1 1 ex_events) ex_tcp
    (fun out s' => exists c' b' k, conns (up s') !! 1 = Some c' /\ bufs (up s') !! rx_buf c' = Some b' /\
      concat (map snd out) ++ ring_bytes c' b' = take k [11; 12; 13; 14; 15; 16] /\ (k <= 6)%nat /\
      c_ack c' = u32 (1000 + Z.of_nat k)).
Proof.
  apply (tcp_stream_prefix ex_send ex_send_quiet ex_listen ex_accept ex_poll ex_handler ex_raw (ret false)
    (fun _ _ => ret 0) 5 1 ex_conn ex_ring ex_events ex_tcp 1000 [11; 12; 13; 14; 15; 16] ex_established);
    [repeat constructor| |reflexivity|reflexivity|reflexivity].
  repeat constructor; (exists 3%nat + exists 0%nat); (split; [simpl; lia|]); split; reflexivity.
Defined.

Lemma tcp_window_bounds_witness :
  ring_wf ex_conn ex_ring /\ tcp_recv_window ex_conn * 2 ^ window_shift ex_conn <= 4194304.
Proof.
  assert (Hr : ring_wf ex_conn ex_ring) by done. split; [exact Hr|].
  exact (proj1 (proj2 (tcp_window_bounds ex_conn ex_ring Hr ltac:(done) ltac:(reflexivity)))).
Defined.

(** A SYN with the options this kernel sends. *)
Definition ex_syn : list Z :=
  frame_ip (tcp_frame (mac ex_card) ex_peer (net_ipv4 10 0 2 2) (net_ipv4 10 0 2 15) 3000 22 7000 0 TCP_SYN 65535
    (mkTcpOpt true true 7 true) []).

Lemma tcp_syn_options_safe_witness :
  exists c', tcp_parse_syn_options 1 (drop 20 ex_syn) 32 ex_tcp = Ret tt (put_conn 1 c' ex_tcp) /\
    syn_same ex_conn c' /\ snd_wscale c' <= 14.
Proof. apply tcp_syn_options_safe; [reflexivity|vm_compute; discriminate|discriminate]. Defined.

Lemma tcp_listener_table_witness :
  exists r s', tcp_listener_add 0 22 0 9 0 ex_net = Ret r s' /\ (r = 0 \/ r = - EEXIST).
Proof.
  destruct (tcp_listener_table 0 22 0 9 0 ex_net) as (r & s' & E & _ & Hr & _);
    [exact I|reflexivity|discriminate|by right|reflexivity|]. by exists r, s'.
Defined.

(** The card with a listener on port 22 that accepts, and the acknowledgement of the
    answer to the SYN. *)
Definition ex_listening : net := final (net_tcp_listen_accept 22 9 0) ex_net.
Definition ex_ack (p : list Z) : list Z :=
  frame_ip (tcp_frame (mac ex_card) ex_peer (net_ipv4 10 0 2 2) (net_ipv4 10 0 2 15) 3000 22 7001
    (u32 (passive_isn 1000 + 1)) TCP_ACK 65535 (mkTcpOpt false false 0 false) p).

(** A driver that keeps the bytes it sent in the address field of the ARP request. *)
Definition log_send (d : nat) (f : list Z) : M net Z :=
  modify (fun s => set_arp (arp_mac s ++ f) (arp_dev s) (arp_ip s) (arp_ready s) s) ;;; ret 0.
Definition logged (sent : list (nat * list Z)) (s : net) : Prop := arp_mac s = concat (map snd sent).

Lemma tcp_send_frames_witness :
  let data := replicate 3000 7 in
  wp (tcp_send_payload log_send (fun _ _ => ret tt) 1 data) ex_tcp (fun r s' => r = 0 /\
    logged ([] ++ segment_frames ex_conn ex_card 500 (chunks (length data) data)) s' /\
    conns (up s') !! 1 = Some (set_seq 3500 ex_conn)).
Proof.
  intros data. assert (Hs : sends_all log_send logged).
  { split; [done|]. intros d f sent s HP. unfold log_send. wp_go. split_and!; try done.
    unfold logged in *. simpl. by rewrite HP, map_app, concat_app; simpl; rewrite app_nil_r. }
  exact (proj2 (tcp_send_frames log_send (fun _ _ => ret tt) logged 1 ex_conn ex_card data [] ex_tcp Hs
    ltac:(reflexivity) ltac:(reflexivity) ltac:(reflexivity) ltac:(reflexivity) ltac:(vm_compute; discriminate)
    ltac:(vm_compute; split; [discriminate|reflexivity]))).
Defined.

Lemma tcp_land_no_return_witness :
  net_receive_frame ex_send ex_handler (tcp_ipv4_receive ex_send ex_listen ex_accept) ex_raw 100 1
    (tcp_frame (mac ex_card) ex_peer (net_ipv4 10 0 2 15) (net_ipv4 10 0 2 15) 5 6 0 0 TCP_SYN 100
      (mkTcpOpt false false 0 false) []) ex_net = Diverge.
Proof.
  apply tcp_land_no_return;
    [reflexivity|reflexivity|simpl; lia|vm_compute; split; [discriminate|reflexivity]|lia|lia|lia|lia|].
  split; try reflexivity. exists ex_card. split_and!; reflexivity.
Defined.

(** ** A conversation over the loop-back device *)

(** Listen, connect to oneself, send five bytes, read three of them at the other end. *)
Definition ex_conversation : M net (Z * Z * list Z) :=
  net_tcp_listen_accept 80 7 0 ;;;
  let* r := net_tcp_connect_ip ex_send ex_poll ex_handler ex_raw ex_listen ex_accept (ret tt) (ret tt) (ret false)
              10 (Some 0%nat) (net_ipv4 127 0 0 1) 80 1000 in
  let* q := net_tcp_send ex_send ex_handler ex_raw ex_listen ex_accept 10 r.2 (Some [1; 2; 3; 4; 5]) in
  let* l := gets (fun s => tcp_conns (up s)) in
  let* b := net_tcp_recv ex_send ex_poll ex_handler ex_raw ex_listen ex_accept (ret false) (fun _ _ => ret 0)
              10 (hd 0 l) true 3 0 in
  ret (r.1, q.1, b.2).

(** The connection is made in both directions inside the call that sends the SYN. *)
Example tcp_loopback_conversation :
  exists s, ex_conversation ex_net = Ret (0, 0, [1; 2; 3]) s /\
    map (fun a => connected <$> conns (up s) !! a) (tcp_conns (up s)) = [Some true; Some true].
Proof. eexists. split; vm_compute; reflexivity. Qed.

(** ** A header length that points outside the packet *)

(** The SYN says its header has 60 bytes, the packet ends after 20. *)
Definition ex_short_syn : list Z := take 32 ex_syn ++ [240] ++ drop 33 (take 40 ex_syn).

(** a SYN for a listener is parsed by the header length it claims, which nothing
    compares with the length of the packet: a 40-byte packet that claims 60 bytes of TCP
    header makes the kernel read option bytes behind the end of the frame. *)
Theorem tcp_syn_overread :
  length ex_short_syn = 40%nat /\
  net_tcp_receive ex_send ex_listen ex_accept (fun _ _ => ret tt) 1 ex_peer ex_short_syn 20 40 ex_listening = Fault.
Proof. split; vm_compute; reflexivity. Qed.

(** ** The HTTP client and a long response *)

(** A server that answers ten bytes, a caller with a buffer of four at address 1. *)
Definition ex_server (h : Z) (d : nat) (ip port : Z) (req : list Z) (resp cap ctx : Z) : M net (Z * Z) :=
  buf_write resp 0 [1; 2; 3; 4; 5; 6; 7; 8; 9; 10] ;;; ret (0, 10).
Definition ex_caller : net := set_up (set_next_addr 2) (put_buf 1 (mkBuf 4 ∅) ex_net).
Definition ex_request (buf len : Z) : M net (Z * Z) :=
  net_tcp_listen 80 7 0 ;;;
  net_tcp_http_request ex_send ex_poll ex_handler ex_raw ex_server ex_accept (ret tt) 20 (Some 0%nat)
    (net_ipv4 127 0 0 1) [104] [47] buf len 1000.

(** a response that does not fit the caller's buffer makes the HTTP client free it.
    The receive ring of the request is the caller's memory; growing it frees that memory
    and moves the bytes to a new buffer.  The call reports success and ten bytes, the
    caller's buffer is gone, and nothing refers to the buffer that has them. *)
Theorem http_frees_caller_buffer :
  exists s, ex_request 1 4 ex_caller = Ret (0, 10) s /\ bufs (up ex_caller) !! 1 = Some (mkBuf 4 ∅) /\
    bufs (up s) !! 1 = None /\ tcp_conns (up s) = [4] /\ rx_buf <$> conns (up s) !! 4 = Some 0.
Proof. eexists. split; [vm_compute; reflexivity|]. split_and!; vm_compute; reflexivity. Qed.

(** ** The end of the stream overtakes data *)

(** The same connection with a full ring. *)
Definition ex_full : net := put_conn 1 (set_ring_pos TCP_ACTIVE_RX_CAP 0 ex_conn) ex_tcp.

(** A segment with three bytes and FIN, for which there is no room: the bytes are not
    queued, but the sequence number moves on by one and the connection counts as
    finished, so the peer sees its first byte acknowledged and the reader the end. *)
Example tcp_fin_without_room :
  exists s c, net_tcp_receive ex_send ex_listen ex_accept (fun _ _ => ret tt) 1 ex_peer
      (ex_packet 1000 25 [1; 2; 3]) 20 43 ex_full = Ret tt s /\
    conns (up s) !! 1 = Some c /\ c_rx_len c = TCP_ACTIVE_RX_CAP /\ c_ack c = 1001 /\ closed c = true.
Proof. eexists _, _. split; [vm_compute; reflexivity|]. split_and!; vm_compute; reflexivity. Qed.

(** ** A listener with a handler has no receive window *)

(** The answer to the SYN announces a window of 0 bytes: a connection that is served by
    a handler has no ring, and a peer that respects the window sends no request. *)
Example tcp_handler_zero_window :
  exists s c, (net_tcp_listen 80 7 0 ;;;
     net_tcp_receive ex_send ex_listen ex_accept (fun _ _ => ret tt) 1 ex_peer
       (frame_ip (tcp_frame (mac ex_card) ex_peer (net_ipv4 10 0 2 2) (net_ipv4 10 0 2 15) 3000 80 7000 0 TCP_SYN 65535
         (mkTcpOpt true true 7 true) [])) 20 52) ex_net = Ret tt s /\
    conns (up s) !! 2 = Some c /\ passive c = true /\ tcp_recv_window c = 0.
Proof. eexists _, _. split; [vm_compute; reflexivity|]. split_and!; vm_compute; reflexivity. Qed.
