(* ===== verification/Socket.v ===== *)
(** * Sockets (kernel/src/net/socket/socket.c)

    The sockets of the two built-in domains over TCP, UDP and raw ICMP.  A socket is
    known by its address; its domain data is part of the record, since nothing else
    points to it.  A socket address is the list of its bytes: the family at 0, the port
    at 2 and the IPv4 address at 4, or the path at 2.  Other domains, the handlers other
    code registers, signals and the passing of time are arguments. *)

From stdpp Require Import base gmap list.
From Stdlib Require Import ZArith Lia.
From S2P Require Import Prelude Wire NetState Net Tcp.

Local Open Scope Z_scope.

Definition AF_UNIX : Z := 1.
Definition AF_INET : Z := 2.
Definition IPPROTO_IP : Z := 0.
Definition IPPROTO_ICMP : Z := 1.
Definition SOCK_STREAM : Z := 1.
Definition SOCK_DGRAM : Z := 2.
Definition SOCK_RAW : Z := 3.
Definition SOCK_SEQPACKET : Z := 5.
Definition SOCK_NONBLOCK : Z := 2048.
Definition SOCK_CLOEXEC : Z := 524288.
Definition SOL_SOCKET : Z := 1.
Definition SO_TYPE : Z := 3.
Definition SO_ERROR : Z := 4.
Definition SO_RCVTIMEO : Z := 20.
Definition IP_TTL : Z := 2.
Definition SHUT_RD : Z := 0.
Definition SHUT_WR : Z := 1.
Definition SHUT_RDWR : Z := 2.
Definition MSG_DONTWAIT : Z := 64.

Definition NET_SOCK_OK : Z := 0.
Definition NET_SOCK_ERR_INVAL : Z := -22.
Definition NET_SOCK_ERR_NOMEM : Z := -12.
Definition NET_SOCK_ERR_NOTCONN : Z := -107.
Definition NET_SOCK_ERR_MSGSIZE : Z := -90.
Definition NET_SOCK_ERR_WOULDBLOCK : Z := -11.
Definition NET_SOCK_ERR_NOENT : Z := -2.
Definition NET_SOCK_ERR_AFNOSUPPORT : Z := -97.
Definition NET_SOCK_ERR_PROTONOSUPPORT : Z := -93.
Definition NET_SOCK_ERR_ADDRINUSE : Z := -98.
Definition NET_SOCK_ERR_ADDRNOTAVAIL : Z := -99.
Definition NET_SOCK_ERR_NETUNREACH : Z := -101.
Definition NET_SOCK_ERR_CONNREFUSED : Z := -111.
Definition NET_SOCK_ERR_TIMEDOUT : Z := -110.

Definition NET_SOCK_NONBLOCK : Z := 1.
Definition NET_SOCK_LISTENING : Z := 2.
Definition NET_SOCK_CONNECTED : Z := 4.
Definition NET_SOCK_BINDED : Z := 8.

Definition SOCKET_BACKLOG : Z := 16.
Definition SOCKET_NAME_MAX : Z := 64.
Definition SOCKET_BUF_SIZE : Z := 4096.
Definition sizeof_sockaddr_in : Z := 16.
Definition sizeof_sockaddr : Z := 112.

(** The addresses of the built-in domains and of the two handlers of this file. *)
Definition unix_socket_domain : Z := 1.
Definition inet_socket_domain : Z := 2.
Definition socket_udp_handler : Z := 6.
Definition TCP_SOCKET_ACCEPT : Z := 7.

(** ** Objects *)

Definition get_sock (a : Z) : M net socket := fun s =>
  match socks (up s) !! a with Some k => Ret k s | None => Fault end.
Definition upd_sock (a : Z) (f : socket -> socket) : M net unit :=
  let* k := get_sock a in upmod (fun u => set_socks (<[a := f k]> (socks u)) u).
Definition add_flags (a fl : Z) : M net unit := upd_sock a (fun k => set_so_flags (Z.lor (so_flags k) fl) k).
(** [sock->inet_data->...] and [sock->unix_data->...]: a null pointer faults. *)
Definition get_inet (a : Z) : M net inet_sock :=
  let* k := get_sock a in match inet_data k with Some i => ret i | None => fault end.
Definition upd_inet (a : Z) (f : inet_sock -> inet_sock) : M net unit :=
  let* i := get_inet a in upd_sock a (set_inet_data (Some (f i))).
Definition get_unix (a : Z) : M net unix_sock :=
  let* k := get_sock a in match unix_data k with Some x => ret x | None => fault end.
Definition upd_unix (a : Z) (f : unix_sock -> unix_sock) : M net unit :=
  let* x := get_unix a in upd_sock a (set_unix_data (Some (f x))).
Definition kfree_sock (a : Z) : M net unit :=
  let* _ := get_sock a in upmod (fun u => set_socks (delete a (socks u)) u).

Definition zero_inet : inet_sock :=
  mkInet 0 0 0 0 0 0 0 (replicate (Z.to_nat SOCKET_BUF_SIZE) 0) 0 0 false 0 0.

Definition has_flag (k : socket) (fl : Z) : bool := has (so_flags k) fl.

(** ** Domains *)

Section domains.
(** [domain], [validate], [init] and [destroy] of a domain that is not built in. *)
Variable other_domain : Z -> Z.
Variable other_validate : Z -> Z -> Z -> Z.
Variable other_init : Z -> Z -> M net Z.
Variable other_destroy : Z -> Z -> M net unit.

Definition domain_of (ops : Z) : Z :=
  if ops =? unix_socket_domain then AF_UNIX else if ops =? inet_socket_domain then AF_INET else other_domain ops.

(** A structure with a domain, a name and all operations. *)
Definition net_socket_register_domain (ops : Z) : M net Z :=
  let* slots := gets (fun s => socket_domains (up s)) in
  if existsb (fun o => match o with Some x => domain_of x =? domain_of ops | None => false end) slots
  then ret NET_SOCK_ERR_ADDRINUSE
  else match first_free slots O with
       | Some i =>
           upmod (fun u => set_socket_domains (<[i := Some ops]> slots) (socket_builtin_domains_ready u) u) ;;;
           ret NET_SOCK_OK
       | None => ret NET_SOCK_ERR_NOMEM
       end.

Definition socket_register_builtin_domains : M net unit :=
  let* ready := gets (fun s => socket_builtin_domains_ready (up s)) in
  if ready then ret tt
  else
    net_socket_register_domain unix_socket_domain ;;;
    net_socket_register_domain inet_socket_domain ;;;
    upmod (fun u => set_socket_domains (socket_domains u) true u).

Fixpoint domain_find (l : list (option Z)) (domain : Z) : option Z :=
  match l with
  | [] => None
  | Some x :: l => if domain_of x =? domain then Some x else domain_find l domain
  | None :: l => domain_find l domain
  end.
Definition socket_domain_lookup (domain : Z) : M net (option Z) :=
  socket_register_builtin_domains ;;;
  gets (fun s => domain_find (socket_domains (up s)) domain).

Definition unix_socket_validate (type : Z) : Z :=
  if negb (type =? SOCK_STREAM) && negb (type =? SOCK_DGRAM) && negb (type =? SOCK_SEQPACKET)
  then NET_SOCK_ERR_PROTONOSUPPORT else NET_SOCK_OK.
Definition inet_socket_validate (type protocol : Z) : Z :=
  if negb (type =? SOCK_STREAM) && negb (type =? SOCK_DGRAM) && negb (type =? SOCK_RAW)
  then NET_SOCK_ERR_PROTONOSUPPORT
  else if (type =? SOCK_RAW) && negb (protocol =? IPPROTO_ICMP) then NET_SOCK_ERR_PROTONOSUPPORT
  else NET_SOCK_OK.

Definition unix_socket_init (a : Z) : M net Z :=
  let* x := kalloc in
  if x =? 0 then ret NET_SOCK_ERR_NOMEM
  else
    let* rx := kzalloc_buf SOCKET_BUF_SIZE in
    if rx =? 0 then ret NET_SOCK_ERR_NOMEM
    else
      let* tx := kzalloc_buf SOCKET_BUF_SIZE in
      if tx =? 0 then kfree_buf rx ;;; ret NET_SOCK_ERR_NOMEM
      else
        upd_sock a (set_unix_data (Some (mkUnix [] 0 rx SOCKET_BUF_SIZE 0 0 tx SOCKET_BUF_SIZE 0 false true))) ;;;
        ret NET_SOCK_OK.
Definition unix_socket_destroy (a : Z) : M net unit :=
  let* k := get_sock a in
  match unix_data k with
  | None => ret tt
  | Some x =>
      (if negb (un_rx_buf x =? 0) then kfree_buf (un_rx_buf x) else ret tt) ;;;
      (if negb (un_tx_buf x =? 0) then kfree_buf (un_tx_buf x) else ret tt) ;;;
      upd_sock a (set_unix_data None)
  end.

Definition inet_socket_init (a : Z) : M net Z :=
  let* x := kalloc in
  if x =? 0 then ret NET_SOCK_ERR_NOMEM
  else upd_sock a (set_inet_data (Some (set_ttl 64 (set_recv_timeout (2 ^ 64 - 1) zero_inet)))) ;;; ret NET_SOCK_OK.

(** [net_tcp_close], for a socket that has a connection. *)
Variable tcp_close : Z -> M net unit.

Definition inet_socket_destroy (a : Z) : M net unit :=
  let* k := get_sock a in
  match inet_data k with
  | None => ret tt
  | Some i =>
      (if negb (tcp_conn_ptr i =? 0) then tcp_close (tcp_conn_ptr i) else ret tt) ;;;
      upd_sock a (set_inet_data None)
  end.

Definition domain_validate (ops type protocol : Z) : Z :=
  if ops =? unix_socket_domain then unix_socket_validate type
  else if ops =? inet_socket_domain then inet_socket_validate type protocol
  else other_validate ops type protocol.
Definition domain_init (ops a : Z) : M net Z :=
  if ops =? unix_socket_domain then unix_socket_init a
  else if ops =? inet_socket_domain then inet_socket_init a else other_init ops a.
Definition domain_destroy (ops a : Z) : M net unit :=
  if ops =? unix_socket_domain then unix_socket_destroy a
  else if ops =? inet_socket_domain then inet_socket_destroy a else other_destroy ops a.

(** The entry of the list is an object of its own. *)
Definition socket_add (a : Z) : M net Z :=
  let* e := kalloc in
  if e =? 0 then ret NET_SOCK_ERR_NOMEM
  else upmod (fun u => set_socket_list (a :: socket_list u) (socket_count u + 1) u) ;;; ret NET_SOCK_OK.

Fixpoint remove_first (l : list Z) (a : Z) : option (list Z) :=
  match l with
  | [] => None
  | x :: l => if x =? a then Some l else (fun r => x :: r) <$> remove_first l a
  end.
Definition socket_remove (a : Z) : M net unit :=
  upmod (fun u => match remove_first (socket_list u) a with
                  | Some l => set_socket_list l (socket_count u - 1) u
                  | None => u
                  end).

(** The result and [*out]. *)
Definition net_socket (domain type protocol : Z) : M net (Z * Z) :=
  let base_type := Z.ldiff type (Z.lor SOCK_NONBLOCK SOCK_CLOEXEC) in
  let* ops := socket_domain_lookup domain in
  match ops with
  | None => ret (NET_SOCK_ERR_AFNOSUPPORT, 0)
  | Some ops =>
      let v := domain_validate ops base_type protocol in
      if negb (v =? NET_SOCK_OK) then ret (v, 0)
      else
        let* a := kalloc in
        if a =? 0 then ret (NET_SOCK_ERR_NOMEM, 0)
        else
          upmod (fun u => set_socks (<[a := mkSock domain base_type protocol
            (if has type SOCK_NONBLOCK then NET_SOCK_NONBLOCK else 0) ops None None
            (replicate (Z.to_nat SOCKET_BACKLOG) 0) 0 1]> (socks u)) u) ;;;
          let* r := domain_init ops a in
          if negb (r =? NET_SOCK_OK) then kfree_sock a ;;; ret (r, 0)
          else
            let* r := socket_add a in
            if negb (r =? NET_SOCK_OK) then domain_destroy ops a ;;; kfree_sock a ;;; ret (r, 0)
            else ret (NET_SOCK_OK, a)
  end.

Definition net_close (a : Z) : M net Z :=
  if a =? 0 then ret NET_SOCK_ERR_INVAL
  else
    upd_sock a (fun k => set_refcount (refcount k - 1) k) ;;;
    let* k := get_sock a in
    if 0 <? refcount k then ret NET_SOCK_OK
    else
      (if negb (domain_ops k =? 0) then domain_destroy (domain_ops k) a
       else unix_socket_destroy a ;;; inet_socket_destroy a) ;;;
      socket_remove a ;;;
      kfree_sock a ;;;
      ret NET_SOCK_OK.

(** The accept handler of listening sockets.  A socket that was just made has no TCP
    connection to close. *)
Definition tcp_socket_accept (d : nat) (rip rport conn ctx : Z) : M net Z :=
  if ctx =? 0 then ret NET_SOCK_ERR_INVAL
  else
    let* k := get_sock ctx in
    match inet_data k with
    | None => ret NET_SOCK_ERR_INVAL
    | Some li =>
        if conn =? 0 then ret NET_SOCK_ERR_INVAL
        else if SOCKET_BACKLOG <=? backlog_count k then ret NET_SOCK_ERR_WOULDBLOCK
        else
          let* r := net_socket AF_INET SOCK_STREAM 0 in
          if negb (r.1 =? NET_SOCK_OK) then ret r.1
          else
            let* x := get_dev d in
            upd_inet r.2 (fun i => set_remote rip rport
              (set_local (if negb (in_local_ip li =? 0) then in_local_ip li else ipv4_addr x) (in_local_port li)
                (set_tcp_conn_ptr conn i))) ;;;
            add_flags r.2 (Z.lor NET_SOCK_BINDED NET_SOCK_CONNECTED) ;;;
            upd_sock ctx (fun k => set_backlog (<[Z.to_nat (backlog_count k) := r.2]> (backlog k))
                                     (backlog_count k + 1) k) ;;;
            ret NET_SOCK_OK
    end.
End domains.

(** ** Received packets *)

(** [for (entry = socket_list; ...)]: a socket that was freed and still listed would
    fault; the checks of the loop bodies come as a function. *)
Fixpoint any_socket (l : list Z) (test : Z -> socket -> bool) : M net bool :=
  match l with
  | [] => ret false
  | a :: l => let* k := get_sock a in if test a k then ret true else any_socket l test
  end.

Definition is_inet (k : socket) : option inet_sock := if so_domain k =? AF_INET then inet_data k else None.

(** One packet at a time; the receive buffer has [SOCKET_BUF_SIZE] bytes. *)
Definition put_packet (src_ip src_port : Z) (p : list Z) (i : inet_sock) : inet_sock :=
  let p := take (Z.to_nat SOCKET_BUF_SIZE) p in
  set_packet src_ip src_port (copy_into (in_rx_buf i) p) (Z.of_nat (length p)) 0 true i.

Fixpoint udp_receive_loop (l : list Z) (dev : option netdev) (dg : net_udp_dgram) : M net Z :=
  match l with
  | [] => ret 0
  | a :: l =>
      let* k := get_sock a in
      match is_inet k with
      | None => udp_receive_loop l dev dg
      | Some i =>
          if negb (so_type k =? SOCK_DGRAM) || negb (in_local_port i =? dg_dst_port dg) ||
             (negb (in_local_ip i =? 0) && negb (in_local_ip i =? dg_dst_ip dg)) ||
             (has_flag k NET_SOCK_CONNECTED &&
              negb (net_udp_peer_matches dev (in_remote_ip i) (in_remote_port i) (dg_src_ip dg) (dg_src_port dg)))
          then udp_receive_loop l dev dg
          else if negb (in_rx_len i =? 0) then ret 0
          else
            upd_inet a (put_packet (dg_src_ip dg) (dg_src_port dg) (dg_payload dg)) ;;;
            sched_io_wake_all ;;;
            ret 1
      end
  end.
Definition socket_udp_receive (dg : net_udp_dgram) : M net Z :=
  let* x := get_dev (rx_dev (dg_rx dg)) in
  let* l := gets (fun s => socket_list (up s)) in
  udp_receive_loop l (Some x) dg.

(** Every socket that matches and has room gets the packet. *)
Fixpoint raw_receive_loop (l : list Z) (src_ip dst_ip : Z) (packet : list Z) : M net unit :=
  match l with
  | [] => ret tt
  | a :: l =>
      let* k := get_sock a in
      match is_inet k with
      | None => raw_receive_loop l src_ip dst_ip packet
      | Some i =>
          if negb (so_type k =? SOCK_RAW) || negb (so_protocol k =? IPPROTO_ICMP) ||
             (negb (in_local_ip i =? 0) && negb (in_local_ip i =? dst_ip)) ||
             (has_flag k NET_SOCK_CONNECTED && negb (in_remote_ip i =? src_ip)) || negb (in_rx_len i =? 0)
          then raw_receive_loop l src_ip dst_ip packet
          else
            upd_inet a (put_packet src_ip 0 packet) ;;;
            sched_io_wake_all ;;;
            raw_receive_loop l src_ip dst_ip packet
      end
  end.
Definition net_socket_raw_icmp_receive (rx : net_ipv4_rx_info) : M net unit :=
  let ip := rx_ip rx in
  if rx_ip_len rx <? rx_ihl rx then ret tt
  else
    let src_ip := ntohl (ld32 ip 12) in
    let dst_ip := ntohl (ld32 ip 16) in
    let* x := get_dev (rx_dev rx) in
    if (rx_ihl rx + sizeof_icmp_echo <=? rx_ip_len rx) && loopback x && (src_ip =? dst_ip) &&
       (byte_at ip (Z.to_nat (rx_ihl rx)) =? 8)
    then ret tt
    else
      let* l := gets (fun s => socket_list (up s)) in
      raw_receive_loop l src_ip dst_ip (take (Z.to_nat (rx_ip_len rx)) ip).

(** ** Names *)

Definition ipv4_addr_is_local (s : net) (ip : Z) : bool :=
  (ip =? 0) || existsb (fun x => ipv4_addr x =? ip) (devs s).

Definition inet_bind_conflicts (a ip port : Z) : M net bool :=
  if port =? 0 then ret false
  else
    let* l := gets (fun s => socket_list (up s)) in
    any_socket l (fun x k =>
      match is_inet k with
      | Some i => negb (x =? a) && (in_local_port i =? port) &&
                  ((in_local_ip i =? 0) || (ip =? 0) || (in_local_ip i =? ip))
      | None => false
      end).

Definition udp_port_in_use (port : Z) : M net bool :=
  let* l := gets (fun s => socket_list (up s)) in
  any_socket l (fun _ k =>
    match is_inet k with Some i => (so_type k =? SOCK_DGRAM) && (in_local_port i =? port) | None => false end).

Fixpoint auto_bind_loop (tries : nat) (a : Z) : M net Z :=
  match tries with
  | O => ret NET_SOCK_ERR_ADDRINUSE
  | S n =>
      let* port := gets (fun s => udp_next_ephemeral (up s)) in
      let next := u16 (port + 1) in
      upmod (set_udp_next_ephemeral (if next <? UDP_EPHEMERAL_MIN then UDP_EPHEMERAL_MIN else next)) ;;;
      let* used := udp_port_in_use port in
      if negb used then
        upd_inet a (set_local 0 port) ;;; add_flags a NET_SOCK_BINDED ;;; ret NET_SOCK_OK
      else auto_bind_loop n a
  end.
Definition udp_auto_bind (a : Z) : M net Z :=
  if a =? 0 then ret NET_SOCK_ERR_INVAL
  else
    let* k := get_sock a in
    match is_inet k with
    | None => ret NET_SOCK_ERR_INVAL
    | Some i =>
        if negb (so_type k =? SOCK_DGRAM) then ret NET_SOCK_ERR_INVAL
        else if negb (in_local_port i =? 0) then ret NET_SOCK_OK
        else auto_bind_loop (Z.to_nat (UDP_EPHEMERAL_MAX - UDP_EPHEMERAL_MIN + 1)) a
    end.

(** The bytes of a path up to its terminator, at most [n] of them. *)
Fixpoint path_bytes (n : nat) (p : list Z) : list Z :=
  match n, p with
  | S n, c :: p => if c =? 0 then [] else c :: path_bytes n p
  | _, _ => []
  end.
Definition sa_family (addr : list Z) : Z := ld16 addr 0.
Definition sun_path (addr : list Z) : list Z := drop 2 addr.
Definition sin_port (addr : list Z) : Z := ntohs (ld16 addr 2).
Definition sin_addr (addr : list Z) : Z := ntohl (ld32 addr 4).
(** A zeroed address with family, port and address. *)
Definition mk_sockaddr_in (ip port : Z) : list Z :=
  st16 AF_INET ++ st16 (htons port) ++ st32 (htonl ip) ++ replicate 104 0.
Definition mk_sockaddr_un (path : list Z) : list Z :=
  st16 AF_UNIX ++ path ++ replicate (110 - length path) 0.

(** [name] has 65 bytes; a longer path leaves its terminator behind it. *)
Definition net_bind (a : Z) (addr : option (list Z)) (addrlen : Z) : M net Z :=
  match addr with
  | None => ret NET_SOCK_ERR_INVAL
  | Some addr =>
      if a =? 0 then ret NET_SOCK_ERR_INVAL
      else
        let* k := get_sock a in
        if so_domain k =? AF_UNIX then
          if addrlen <? 2 then ret NET_SOCK_ERR_INVAL
          else if negb (sa_family addr =? AF_UNIX) then ret NET_SOCK_ERR_INVAL
          else
            upd_unix a (set_un_name (path_bytes (Z.to_nat (Z.min (addrlen - 2) (SOCKET_NAME_MAX + 1))) (sun_path addr))) ;;;
            add_flags a NET_SOCK_BINDED ;;;
            ret NET_SOCK_OK
        else if so_domain k =? AF_INET then
          if addrlen <? sizeof_sockaddr_in then ret NET_SOCK_ERR_INVAL
          else if negb (sa_family addr =? AF_INET) then ret NET_SOCK_ERR_INVAL
          else
            let ip := sin_addr addr in
            let port := sin_port addr in
            let* local := gets (fun s => ipv4_addr_is_local s ip) in
            if negb local then ret NET_SOCK_ERR_ADDRNOTAVAIL
            else
              let* used := inet_bind_conflicts a ip port in
              if used then ret NET_SOCK_ERR_ADDRINUSE
              else upd_inet a (set_local ip port) ;;; add_flags a NET_SOCK_BINDED ;;; ret NET_SOCK_OK
        else ret NET_SOCK_OK
  end.

Definition net_listen (a : Z) : M net Z :=
  if a =? 0 then ret NET_SOCK_ERR_INVAL
  else
    let* k := get_sock a in
    if so_domain k =? AF_UNIX then add_flags a NET_SOCK_LISTENING ;;; ret NET_SOCK_OK
    else if so_domain k =? AF_INET then
      if negb (so_type k =? SOCK_STREAM) then ret NET_SOCK_ERR_INVAL
      else match inet_data k with
           | None => ret NET_SOCK_ERR_INVAL
           | Some i =>
               if in_local_port i =? 0 then ret NET_SOCK_ERR_INVAL
               else
                 let* r := net_tcp_listen_accept_addr (in_local_ip i) (in_local_port i) TCP_SOCKET_ACCEPT a in
                 if negb (r =? 0) then ret r else add_flags a NET_SOCK_LISTENING ;;; ret NET_SOCK_OK
           end
    else ret NET_SOCK_OK.

(** The result, the address and the length; [*addrlen - 1] is 32-bit arithmetic, and
    the path has 108 bytes. *)
Definition net_getsockname (a : Z) (addrlen : Z) : M net (Z * list Z * Z) :=
  if a =? 0 then ret (NET_SOCK_ERR_INVAL, [], addrlen)
  else
    let* k := get_sock a in
    match (if so_domain k =? AF_UNIX then unix_data k else None) with
    | Some x =>
        let name := path_bytes (Z.to_nat SOCKET_NAME_MAX) (un_name x) in
        let len := Z.of_nat (length name) in
        let len := if addrlen <? len + 1 then u32 (addrlen - 1) else len in
        if 108 <? len then fault
        else ret (NET_SOCK_OK, mk_sockaddr_un (take (Z.to_nat len) (un_name x)), u32 (2 + len))
    | None =>
        if so_domain k =? AF_INET then
          match inet_data k with
          | Some i => ret (NET_SOCK_OK, mk_sockaddr_in (in_local_ip i) (in_local_port i), sizeof_sockaddr_in)
          | None => ret (NET_SOCK_OK, mk_sockaddr_in 0 0, sizeof_sockaddr_in)
          end
        else ret (NET_SOCK_OK, [], addrlen)
    end.

Definition net_getpeername (a : Z) (addrlen : Z) : M net (Z * list Z * Z) :=
  if a =? 0 then ret (NET_SOCK_ERR_INVAL, [], addrlen)
  else
    let* k := get_sock a in
    match (if so_domain k =? AF_UNIX then unix_data k else None), is_inet k with
    | Some _, _ =>
        if negb (has_flag k NET_SOCK_CONNECTED) then ret (NET_SOCK_ERR_NOTCONN, [], addrlen)
        else ret (NET_SOCK_OK, mk_sockaddr_un [], 2)
    | None, Some i =>
        if negb (has_flag k NET_SOCK_CONNECTED) then ret (NET_SOCK_ERR_NOTCONN, [], addrlen)
        else ret (NET_SOCK_OK, mk_sockaddr_in (in_remote_ip i) (in_remote_port i), sizeof_sockaddr_in)
    | None, None => ret (NET_SOCK_ERR_INVAL, [], addrlen)
    end.

(** ** Options and flags *)

(** A 64-bit or 32-bit signed member. *)
Definition ld64s (p : list Z) (i : nat) : Z :=
  let v := ld32 p i + 2 ^ 32 * ld32 p (i + 4) in if v <? 2 ^ 63 then v else v - 2 ^ 64.
Definition ld32s (p : list Z) (i : nat) : Z :=
  let v := ld32 p i in if v <? 2 ^ 31 then v else v - 2 ^ 32.

Definition net_setsockopt (a level optname : Z) (optval : option (list Z)) (optlen : Z) : M net Z :=
  match optval with
  | None => ret NET_SOCK_ERR_INVAL
  | Some v =>
      if a =? 0 then ret NET_SOCK_ERR_INVAL
      else
        let* k := get_sock a in
        match is_inet k with
        | None => ret NET_SOCK_OK
        | Some _ =>
            if (level =? SOL_SOCKET) && (optname =? SO_RCVTIMEO) then
              if optlen <? 16 then ret NET_SOCK_ERR_INVAL
              else
                let sec := ld64s v 0 in
                let usec := ld64s v 8 in
                if (sec <? 0) || (usec <? 0) then ret NET_SOCK_ERR_INVAL
                else upd_inet a (set_recv_timeout (u64 (u64 (sec * 1000) + usec / 1000))) ;;; ret NET_SOCK_OK
            else if (level =? IPPROTO_IP) && (optname =? IP_TTL) then
              if optlen <? 4 then ret NET_SOCK_ERR_INVAL
              else
                let t := ld32s v 0 in
                if (t <=? 0) || (255 <? t) then ret NET_SOCK_ERR_INVAL
                else upd_inet a (set_ttl t) ;;; ret NET_SOCK_OK
            else ret NET_SOCK_OK
        end
  end.

(** The result and the value. *)
Definition net_getsockopt (a level optname optlen : Z) : M net (Z * Z) :=
  if a =? 0 then ret (NET_SOCK_ERR_INVAL, 0)
  else
    let* k := get_sock a in
    if (level =? SOL_SOCKET) && (optname =? SO_TYPE) then
      if optlen <? 4 then ret (NET_SOCK_ERR_INVAL, 0) else ret (NET_SOCK_OK, so_type k)
    else if (level =? SOL_SOCKET) && (optname =? SO_ERROR) then
      if optlen <? 4 then ret (NET_SOCK_ERR_INVAL, 0)
      else match is_inet k with
           | Some i =>
               if negb (tcp_conn_ptr i =? 0) then
                 let* e := net_tcp_conn_error_code (tcp_conn_ptr i) in ret (NET_SOCK_OK, e)
               else ret (NET_SOCK_OK, 0)
           | None => ret (NET_SOCK_OK, 0)
           end
    else ret (NET_SOCK_ERR_INVAL, 0).

Definition net_socket_ref (a : Z) : M net Z :=
  if a =? 0 then ret NET_SOCK_ERR_INVAL
  else upd_sock a (fun k => set_refcount (refcount k + 1) k) ;;; ret NET_SOCK_OK.
Definition net_socket_get_status_flags (a : Z) : M net (Z * Z) :=
  if a =? 0 then ret (NET_SOCK_ERR_INVAL, 0)
  else let* k := get_sock a in ret (NET_SOCK_OK, if has_flag k NET_SOCK_NONBLOCK then SOCK_NONBLOCK else 0).
Definition net_socket_set_status_flags (a flags : Z) : M net Z :=
  if a =? 0 then ret NET_SOCK_ERR_INVAL
  else
    upd_sock a (fun k => set_so_flags (if has flags SOCK_NONBLOCK then Z.lor (so_flags k) NET_SOCK_NONBLOCK
                                       else Z.ldiff (so_flags k) NET_SOCK_NONBLOCK) k) ;;;
    ret NET_SOCK_OK.

Definition socket_recv_timeout_ms (k : socket) (flags : Z) : Z :=
  if has flags MSG_DONTWAIT || has_flag k NET_SOCK_NONBLOCK then 0
  else match is_inet k with Some i => recv_timeout_ms i | None => 2 ^ 64 - 1 end.

(** ** Polling *)

Definition LYR_POLLIN : Z := 1.
Definition LYR_POLLOUT : Z := 4.
Definition LYR_POLLERR : Z := 8.
Definition LYR_POLLHUP : Z := 16.
Definition LYR_POLLNVAL : Z := 32.
Definition LYR_POLLRDNORM : Z := 64.
Definition LYR_POLLWRNORM : Z := 256.
Definition LYR_POLL_READ_MASK : Z := 193.
Definition LYR_POLL_WRITE_MASK : Z := 772.

Definition poll_inet (k : socket) (i : inet_sock) (events : Z) : M net Z :=
  let conn := tcp_conn_ptr i in
  let* rx := net_tcp_conn_has_pending_rx conn in
  let* cl := net_tcp_conn_is_closed conn in
  let* er := net_tcp_conn_has_error conn in
  let* rs := net_tcp_conn_is_read_shutdown conn in
  let rd := if has events LYR_POLL_READ_MASK && ((0 <? in_rx_len i) || rx || cl || er || rs)
            then Z.lor LYR_POLLIN LYR_POLLRDNORM else 0 in
  let st := if (so_type k =? SOCK_STREAM) && negb (conn =? 0) then
              if er then LYR_POLLERR
              else if cl || rs then LYR_POLLHUP
              else if negb (has_flag k NET_SOCK_CONNECTED) then LYR_POLLHUP else 0
            else 0 in
  let wr := if has events LYR_POLL_WRITE_MASK &&
               ((so_type k =? SOCK_DGRAM) || (so_type k =? SOCK_RAW) || has_flag k NET_SOCK_CONNECTED)
            then Z.lor LYR_POLLOUT LYR_POLLWRNORM else 0 in
  ret (Z.lor (Z.lor rd st) wr).
Definition net_poll_socket (a events : Z) : M net Z :=
  if a =? 0 then ret LYR_POLLNVAL
  else
    let* k := get_sock a in
    match (if so_domain k =? AF_UNIX then unix_data k else None), is_inet k with
    | Some x, _ =>
        ret (Z.lor (if has events LYR_POLL_READ_MASK && (0 <? un_rx_len x) then Z.lor LYR_POLLIN LYR_POLLRDNORM else 0)
               (if has events LYR_POLL_WRITE_MASK && ((un_rx_cap x =? 0) || (un_rx_len x <? un_rx_cap x))
                then Z.lor LYR_POLLOUT LYR_POLLWRNORM else 0))
    | None, Some i => poll_inet k i events
    | None, None => ret LYR_POLLERR
    end.

(** ** Connecting, sending, receiving *)

Section calls.
Variable driver_send : nat -> list Z -> M net Z.
Variable driver_poll : nat -> M net Z.
Variable other_udp : Z -> net_udp_dgram -> M net Z.
Variable listen_handler : Z -> nat -> Z -> Z -> list Z -> Z -> Z -> Z -> M net (Z * Z).
Variable other_accept : Z -> nat -> Z -> Z -> Z -> Z -> M net Z.
Variable drain : M net unit.
Variable pause : M net unit.
Variable signal_pending : M net bool.
Variable sched_io_wait : Z -> option Z -> M net Z.
(** [time_timeout_expired] of a timeout of so many milliseconds that started with the call. *)
Variable timeout_expired : Z -> M net bool.
Variable other_domain : Z -> Z.
Variable other_validate : Z -> Z -> Z -> Z.
Variable other_init : Z -> Z -> M net Z.
Variable other_destroy : Z -> Z -> M net unit.

(** The handlers of this file, among others. *)
Definition udp_handlers_fn (h : Z) (dg : net_udp_dgram) : M net Z :=
  if h =? socket_udp_handler then socket_udp_receive dg else other_udp h dg.
(** The connection of a socket that could not be listed is never closed here: it has none. *)
Definition accept_fn (h : Z) (d : nat) (rip rport conn ctx : Z) : M net Z :=
  if h =? TCP_SOCKET_ACCEPT
  then tcp_socket_accept other_domain other_validate other_init other_destroy (fun _ => fault) d rip rport conn ctx
  else other_accept h d rip rport conn ctx.

Definition tcp_close_fn (fuel : nat) : Z -> M net unit :=
  net_tcp_close driver_send udp_handlers_fn net_socket_raw_icmp_receive listen_handler accept_fn fuel.
Definition new_socket (fuel : nat) : Z -> Z -> Z -> M net (Z * Z) :=
  net_socket other_domain other_validate other_init other_destroy (tcp_close_fn fuel).
Definition close_socket (fuel : nat) : Z -> M net Z := net_close other_destroy (tcp_close_fn fuel).
Definition arp_resolve (fuel : nat) : nat -> Z -> Z -> M net (Z * list Z) :=
  net_arp_resolve driver_send driver_poll udp_handlers_fn (tcp_receiver_fn driver_send listen_handler accept_fn)
    net_socket_raw_icmp_receive drain fuel.
Definition receive_frames (fuel : nat) : nat -> list Z -> M net unit :=
  stack_receive driver_send udp_handlers_fn net_socket_raw_icmp_receive listen_handler accept_fn fuel.

Definition socket_interrupted : M net Z := let* b := signal_pending in ret (if b then - EINTR else 0).

(** [backlog[i] = backlog[i + 1]] for the first [n] entries. *)
Fixpoint shift_loop (n i : nat) (l : list Z) : list Z :=
  match n with O => l | S n => shift_loop n (S i) (<[i := nth (S i) l 0]> l) end.
Definition pop_backlog (a : Z) : M net Z :=
  let* k := get_sock a in
  upd_sock a (set_backlog (shift_loop (Z.to_nat (backlog_count k - 1)) 0 (backlog k)) (backlog_count k - 1)) ;;;
  ret (nth 0 (backlog k) 0).

(** 0 when a client is waiting, or the error that ends the call. *)
Fixpoint accept_wait (fuel : nat) (a : Z) : M net Z :=
  match fuel with
  | O => diverge
  | S f =>
      let* k := get_sock a in
      if negb (backlog_count k =? 0) then ret 0
      else if has_flag k NET_SOCK_NONBLOCK then ret NET_SOCK_ERR_WOULDBLOCK
      else
        let* i := socket_interrupted in
        if negb (i =? 0) then ret (- EINTR) else net_poll_all driver_poll ;;; accept_wait f a
  end.

(** The result, [*out] and the address of the peer, when the caller has room for it. *)
Definition net_accept (fuel : nat) (a addrlen : Z) : M net (Z * Z * option (list Z)) :=
  if a =? 0 then ret (NET_SOCK_ERR_INVAL, 0, None)
  else
    let* k := get_sock a in
    if so_domain k =? AF_UNIX then
      if negb (has_flag k NET_SOCK_LISTENING) then ret (NET_SOCK_ERR_INVAL, 0, None)
      else if backlog_count k =? 0 then ret (NET_SOCK_ERR_INVAL, 0, None)
      else
        let* client := pop_backlog a in
        ret (NET_SOCK_OK, client, if 2 <=? addrlen then Some (mk_sockaddr_un []) else None)
    else if so_domain k =? AF_INET then
      if negb (has_flag k NET_SOCK_LISTENING) then ret (NET_SOCK_ERR_INVAL, 0, None)
      else
        let* r := accept_wait fuel a in
        if negb (r =? 0) then ret (r, 0, None)
        else
          let* client := pop_backlog a in
          if sizeof_sockaddr_in <=? addrlen then
            let* i := get_inet client in
            ret (NET_SOCK_OK, client, Some (mk_sockaddr_in (in_remote_ip i) (in_remote_port i)))
          else ret (NET_SOCK_OK, client, None)
    else ret (NET_SOCK_ERR_INVAL, 0, None).

(** The loop over listening sockets of the domain; [name] is what the path spells. *)
Fixpoint unix_connect_loop (fuel : nat) (l : list Z) (a : Z) (name : list Z) : M net Z :=
  match l with
  | [] => ret NET_SOCK_ERR_NOENT
  | ls :: l =>
      let* k := get_sock ls in
      match (if (so_domain k =? AF_UNIX) && has_flag k NET_SOCK_LISTENING then unix_data k else None) with
      | None => unix_connect_loop fuel l a name
      | Some x =>
          if bool_decide (take (Z.to_nat SOCKET_NAME_MAX) (un_name x) = take (Z.to_nat SOCKET_NAME_MAX) name) then
            let* r := new_socket fuel AF_UNIX SOCK_STREAM 0 in
            if negb (r.1 =? NET_SOCK_OK) then ret r.1
            else
              upd_unix r.2 (set_un_peer ls) ;;;
              add_flags r.2 (Z.lor NET_SOCK_CONNECTED NET_SOCK_BINDED) ;;;
              let* k := get_sock ls in
              if backlog_count k <? SOCKET_BACKLOG then
                upd_sock ls (fun k => set_backlog (<[Z.to_nat (backlog_count k) := r.2]> (backlog k))
                                        (backlog_count k + 1) k) ;;;
                upd_unix a (set_un_peer ls) ;;;
                add_flags a (Z.lor NET_SOCK_CONNECTED NET_SOCK_BINDED) ;;;
                ret NET_SOCK_OK
              else close_socket fuel r.2 ;;; ret NET_SOCK_ERR_INVAL
          else unix_connect_loop fuel l a name
      end
  end.

Definition net_connect (fuel : nat) (a : Z) (addr : option (list Z)) (addrlen : Z) : M net Z :=
  match addr with
  | None => ret NET_SOCK_ERR_INVAL
  | Some addr =>
      if a =? 0 then ret NET_SOCK_ERR_INVAL
      else
        let* k := get_sock a in
        if so_domain k =? AF_UNIX then
          if negb (sa_family addr =? AF_UNIX) then ret NET_SOCK_ERR_INVAL
          else
            let* l := gets (fun s => socket_list (up s)) in
            unix_connect_loop fuel l a
              (path_bytes (Z.to_nat (Z.min (u64 (addrlen - 2)) SOCKET_NAME_MAX)) (sun_path addr))
        else if so_domain k =? AF_INET then
          if addrlen <? sizeof_sockaddr_in then ret NET_SOCK_ERR_INVAL
          else if negb (sa_family addr =? AF_INET) then ret NET_SOCK_ERR_INVAL
          else
            upd_inet a (set_remote (sin_addr addr) (sin_port addr)) ;;;
            if so_type k =? SOCK_DGRAM then
              let* r := udp_auto_bind a in
              if negb (r =? NET_SOCK_OK) then ret r else add_flags a NET_SOCK_CONNECTED ;;; ret NET_SOCK_OK
            else if so_type k =? SOCK_RAW then add_flags a NET_SOCK_CONNECTED ;;; ret NET_SOCK_OK
            else
              let* s := gets (fun s => s) in
              match net_route s (sin_addr addr) with
              | None => ret NET_SOCK_ERR_NOENT
              | Some (d, _) =>
                  let* x := get_dev d in
                  let* i := get_inet a in
                  (if in_local_ip i =? 0 then upd_inet a (fun i => set_local (ipv4_addr x) (in_local_port i) i)
                   else ret tt) ;;;
                  let* r := net_tcp_connect_ip driver_send driver_poll udp_handlers_fn net_socket_raw_icmp_receive
                              listen_handler accept_fn drain pause signal_pending fuel (Some d)
                              (sin_addr addr) (sin_port addr) 5000 in
                  if negb (r.1 =? 0) then
                    if r.1 =? - EINTR then ret r.1
                    else if r.1 =? - ETIMEDOUT then ret NET_SOCK_ERR_TIMEDOUT else ret NET_SOCK_ERR_CONNREFUSED
                  else
                    let* port := net_tcp_conn_local_port r.2 in
                    upd_inet a (fun i => set_local (in_local_ip i) port (set_tcp_conn_ptr r.2 i)) ;;;
                    add_flags a (Z.lor NET_SOCK_BINDED NET_SOCK_CONNECTED) ;;;
                    ret NET_SOCK_OK
              end
        else ret NET_SOCK_ERR_INVAL
  end.

(** The hardware address for a destination, or [None] when it does not answer. *)
Definition resolve_mac (fuel : nat) (d : nat) (x : netdev) (dst_ip next_hop : Z) : M net (option (list Z)) :=
  if negb (loopback x) && negb (dst_ip =? ipv4_addr x) then
    let* r := arp_resolve fuel d (if negb (next_hop =? 0) then next_hop else dst_ip) 1000 in
    ret (if negb (r.1 =? 0) then None else Some r.2)
  else ret (Some (replicate 6 0)).

Definition udp_send_packet (fuel : nat) (a dst_ip dst_port : Z) (buf : list Z) : M net Z :=
  let len := Z.of_nat (length buf) in
  let* _ := get_inet a in
  if 1400 <? len then ret NET_SOCK_ERR_MSGSIZE
  else
    let* r := udp_auto_bind a in
    if negb (r =? NET_SOCK_OK) then ret r
    else
      let* s := gets (fun s => s) in
      match net_route s dst_ip with
      | None => ret NET_SOCK_ERR_NETUNREACH
      | Some (d0, _) =>
          let* x0 := get_dev d0 in
          if ipv4_addr x0 =? 0 then ret NET_SOCK_ERR_NETUNREACH
          else
            let tx_dst_ip := net_udp_resolve_remote_ip (Some x0) dst_ip dst_port in
            match net_route s tx_dst_ip with
            | None => ret NET_SOCK_ERR_NETUNREACH
            | Some (d, next_hop) =>
                let* x := get_dev d in
                if ipv4_addr x =? 0 then ret NET_SOCK_ERR_NETUNREACH
                else
                  let* m := resolve_mac fuel d x tx_dst_ip next_hop in
                  match m with
                  | None => ret NET_SOCK_ERR_NETUNREACH
                  | Some m =>
                      let* i := get_inet a in
                      let* x := get_dev d in
                      let src_ip := if negb (in_local_ip i =? 0) then in_local_ip i else ipv4_addr x in
                      let* r := net_send_ipv4_udp driver_send (receive_frames fuel) (Some d) m src_ip tx_dst_ip
                                  (in_local_port i) dst_port (Some buf) in
                      if negb (r =? 0) then ret r
                      else
                        upd_inet a (fun i => set_local src_ip (in_local_port i) i) ;;;
                        add_flags a NET_SOCK_BINDED ;;;
                        ret len
                  end
            end
      end.

Definition raw_icmp_send_packet (fuel : nat) (a dst_ip : Z) (buf : list Z) : M net Z :=
  let len := Z.of_nat (length buf) in
  let* _ := get_inet a in
  if (len =? 0) || (1400 <? len) then ret NET_SOCK_ERR_MSGSIZE
  else
    let* s := gets (fun s => s) in
    match net_route s dst_ip with
    | None => ret NET_SOCK_ERR_NETUNREACH
    | Some (d, next_hop) =>
        let* x := get_dev d in
        if ipv4_addr x =? 0 then ret NET_SOCK_ERR_NETUNREACH
        else
          let* m := resolve_mac fuel d x dst_ip next_hop in
          match m with
          | None => ret NET_SOCK_ERR_NETUNREACH
          | Some m =>
              let* i := get_inet a in
              let* x := get_dev d in
              let src_ip := if negb (in_local_ip i =? 0) then in_local_ip i else ipv4_addr x in
              let* r := net_send_ipv4_icmp driver_send (receive_frames fuel) (Some d) m src_ip dst_ip (Some buf) in
              if negb (r =? 0) then ret r
              else
                upd_inet a (fun i => set_local src_ip (in_local_port i) i) ;;;
                add_flags a NET_SOCK_BINDED ;;;
                ret len
          end
    end.

(** The destination of a datagram: given, or the connected one; or an error. *)
Definition dgram_dest (k : socket) (i : inet_sock) (dest : option (list Z)) (addrlen : Z) : Z + Z * Z :=
  match (if sizeof_sockaddr_in <=? addrlen then dest else None) with
  | Some addr => if negb (sa_family addr =? AF_INET) then inl NET_SOCK_ERR_INVAL else inr (sin_addr addr, sin_port addr)
  | None => if has_flag k NET_SOCK_CONNECTED then inr (in_remote_ip i, in_remote_port i) else inl NET_SOCK_ERR_NOTCONN
  end.

(** [peer->rx_buf[(peer->rx_head + peer->rx_len) % peer->rx_cap] = byte; peer->rx_len++] *)
Fixpoint unix_push_loop (peer : Z) (bytes : list Z) : M net unit :=
  match bytes with
  | [] => ret tt
  | c :: bytes =>
      let* x := get_unix peer in
      if un_rx_cap x =? 0 then fault
      else
        buf_write (un_rx_buf x) (u64 (un_rx_head x + un_rx_len x) `mod` un_rx_cap x) [c] ;;;
        upd_unix peer (set_un_ring (u64 (un_rx_len x + 1)) (un_rx_head x)) ;;;
        unix_push_loop peer bytes
  end.

Definition net_sendto (fuel : nat) (a : Z) (buf : option (list Z)) (dest : option (list Z)) (addrlen : Z) : M net Z :=
  match buf with
  | None => ret NET_SOCK_ERR_INVAL
  | Some buf =>
      if a =? 0 then ret NET_SOCK_ERR_INVAL
      else
        let* k := get_sock a in
        if so_domain k =? AF_UNIX then
          match unix_data k with
          | None => ret NET_SOCK_ERR_NOTCONN
          | Some us =>
              if un_peer us =? 0 then ret NET_SOCK_ERR_NOTCONN
              else if negb (has_flag k NET_SOCK_CONNECTED) then ret NET_SOCK_ERR_NOTCONN
              else
                let* pk := get_sock (un_peer us) in
                match unix_data pk with
                | None => ret NET_SOCK_ERR_NOTCONN
                | Some peer =>
                    let len := Z.of_nat (length buf) in
                    let room := u64 (un_rx_cap peer - un_rx_len peer) in
                    let to_copy := if room <? len then room else len in
                    if to_copy =? 0 then ret NET_SOCK_ERR_INVAL
                    else
                      unix_push_loop (un_peer us) (take (Z.to_nat to_copy) buf) ;;;
                      upd_unix (un_peer us) (set_un_readable true) ;;;
                      sched_io_wake_all ;;;
                      ret to_copy
                end
          end
        else if so_domain k =? AF_INET then
          let* i := get_inet a in
          if so_type k =? SOCK_DGRAM then
            match dgram_dest k i dest addrlen with
            | inl e => ret e
            | inr (ip, port) => udp_send_packet fuel a ip port buf
            end
          else if (so_type k =? SOCK_RAW) && (so_protocol k =? IPPROTO_ICMP) then
            match dgram_dest k i dest addrlen with
            | inl e => ret e
            | inr (ip, _) => raw_icmp_send_packet fuel a ip buf
            end
          else if tcp_conn_ptr i =? 0 then ret NET_SOCK_ERR_NOTCONN
          else if negb (has_flag k NET_SOCK_CONNECTED) then ret NET_SOCK_ERR_WOULDBLOCK
          else
            let* r := net_tcp_send driver_send udp_handlers_fn net_socket_raw_icmp_receive listen_handler accept_fn
                        fuel (tcp_conn_ptr i) (Some buf) in
            if negb (r.1 =? 0) then ret NET_SOCK_ERR_INVAL else ret r.2
        else ret NET_SOCK_ERR_INVAL
  end.
Definition net_send (fuel : nat) (a : Z) (buf : option (list Z)) : M net Z := net_sendto fuel a buf None 0.

(** [n] bytes from the head of the ring. *)
Fixpoint unix_pop_loop (n : nat) (a : Z) : M net (list Z) :=
  match n with
  | O => ret []
  | S n =>
      let* x := get_unix a in
      let* c := buf_read (un_rx_buf x) (un_rx_head x) 1 in
      if un_rx_cap x =? 0 then fault
      else
        upd_unix a (set_un_ring (u64 (un_rx_len x - 1)) (u64 (un_rx_head x + 1) `mod` un_rx_cap x)) ;;;
        let* r := unix_pop_loop n a in
        ret (c ++ r)
  end.

(** Waiting for a packet: 0, or the error that ends the call. *)
Fixpoint packet_wait (fuel : nat) (a timeout_ms : Z) : M net Z :=
  match fuel with
  | O => diverge
  | S f =>
      let* i := get_inet a in
      let* e := if in_readable i then ret true else timeout_expired timeout_ms in
      if in_readable i || e then ret 0
      else
        let* n := socket_interrupted in
        if negb (n =? 0) then ret (- EINTR)
        else
          let* io := gets (fun s => io_seq (up s)) in
          net_poll_all driver_poll ;;;
          let* i := get_inet a in
          if in_readable i then ret 0
          else
            let* wr := sched_io_wait io (Some timeout_ms) in
            if wr =? - EINTR then ret (- EINTR)
            else if wr =? - ETIMEDOUT then ret 0 else packet_wait f a timeout_ms
  end.

(** The result, the bytes and the sender's address when the caller has room for it. *)
Definition net_recvfrom (fuel : nat) (a : Z) (buf : bool) (len flags addrlen : Z)
    : M net (Z * list Z * option (list Z)) :=
  if (a =? 0) || negb buf then ret (NET_SOCK_ERR_INVAL, [], None)
  else
    let* k := get_sock a in
    if so_domain k =? AF_UNIX then
      match unix_data k with
      | None => ret (NET_SOCK_ERR_NOTCONN, [], None)
      | Some us =>
          if un_peer us =? 0 then ret (NET_SOCK_ERR_NOTCONN, [], None)
          else if negb (has_flag k NET_SOCK_CONNECTED) then ret (NET_SOCK_ERR_NOTCONN, [], None)
          else
            let to_read := if len <? un_rx_len us then len else un_rx_len us in
            if to_read =? 0 then ret (0, [], None)
            else
              let* bytes := unix_pop_loop (Z.to_nat to_read) a in
              let* x := get_unix a in
              (if un_rx_len x =? 0 then upd_unix a (set_un_readable false) else ret tt) ;;;
              ret (to_read, bytes, None)
      end
    else if so_domain k =? AF_INET then
      let* i := get_inet a in
      let timeout_ms := socket_recv_timeout_ms k flags in
      if (so_type k =? SOCK_DGRAM) || (so_type k =? SOCK_RAW) then
        if (in_rx_len i =? 0) && (timeout_ms =? 0) then ret (NET_SOCK_ERR_WOULDBLOCK, [], None)
        else
          let* w := if in_rx_len i =? 0 then packet_wait fuel a timeout_ms else ret 0 in
          if negb (w =? 0) then ret (w, [], None)
          else
            let* i := get_inet a in
            if in_rx_len i =? 0 then ret (NET_SOCK_ERR_WOULDBLOCK, [], None)
            else
              let to_read := if len <? in_rx_len i then len else in_rx_len i in
              let bytes := take (Z.to_nat to_read) (drop (Z.to_nat (in_rx_head i)) (in_rx_buf i)) in
              upd_inet a (fun i => set_packet (packet_src_ip i) (packet_src_port i) (in_rx_buf i) 0 0 false i) ;;;
              ret (to_read, bytes,
                   if sizeof_sockaddr_in <=? addrlen
                   then Some (mk_sockaddr_in (packet_src_ip i) (packet_src_port i)) else None)
      else if tcp_conn_ptr i =? 0 then ret (NET_SOCK_ERR_NOTCONN, [], None)
      else if negb (has_flag k NET_SOCK_CONNECTED) then ret (NET_SOCK_ERR_WOULDBLOCK, [], None)
      else
        let* r := net_tcp_recv driver_send driver_poll udp_handlers_fn net_socket_raw_icmp_receive listen_handler
                    accept_fn signal_pending sched_io_wait fuel (tcp_conn_ptr i) true len timeout_ms in
        if r.1 =? - EINTR then ret (r.1, [], None)
        else if r.1 =? - ETIMEDOUT then ret (NET_SOCK_ERR_WOULDBLOCK, [], None)
        else if negb (r.1 =? 0) then ret (NET_SOCK_ERR_NOTCONN, [], None)
        else ret (Z.of_nat (length r.2), r.2, None)
    else ret (NET_SOCK_ERR_INVAL, [], None).
Definition net_recv (fuel : nat) (a : Z) (buf : bool) (len flags : Z) : M net (Z * list Z * option (list Z)) :=
  net_recvfrom fuel a buf len flags 0.

Definition net_shutdown (fuel : nat) (a how : Z) : M net Z :=
  if a =? 0 then ret NET_SOCK_ERR_INVAL
  else if negb (how =? SHUT_RD) && negb (how =? SHUT_WR) && negb (how =? SHUT_RDWR) then ret NET_SOCK_ERR_INVAL
  else
    let* k := get_sock a in
    match is_inet k with
    | None => ret NET_SOCK_OK
    | Some i =>
        if tcp_conn_ptr i =? 0 then ret NET_SOCK_OK
        else
          (if (how =? SHUT_RD) || (how =? SHUT_RDWR)
           then net_tcp_conn_shutdown_read (tcp_conn_ptr i) ;;; ret tt else ret tt) ;;;
          if (how =? SHUT_WR) || (how =? SHUT_RDWR)
          then net_tcp_conn_shutdown_write driver_send (receive_frames fuel) (tcp_conn_ptr i)
          else ret NET_SOCK_OK
    end.

Definition socket_init : M net Z :=
  socket_register_builtin_domains other_domain ;;;
  net_udp_register_handler socket_udp_handler ;;;
  ret NET_SOCK_OK.
End calls.
