(* ===== verification/SocketProps.v ===== *)
(** * Sockets: ports, names, backlogs and datagrams from end to end

    The automatic choice of a port, the name of a local socket, the queue of clients
    that wait to be accepted, and a datagram on its way from one socket through UDP,
    IPv4 and the frame receiver to another. *)

From stdpp Require Import base gmap list.
From Stdlib Require Import ZArith Lia.
From S2P Require Import Prelude Wire WireProps NetState Net NetProps Tcp Dns Dhcp TcpRing TcpProps TcpSpecs Socket.

Local Open Scope Z_scope.

(** ** Objects *)

Definition put_sock (a : Z) (k : socket) (s : net) : net :=
  set_up (fun u => set_socks (<[a := k]> (socks u)) u) s.

Lemma get_sock_run a k s : socks (up s) !! a = Some k -> get_sock a s = Ret k s.
Proof. unfold get_sock. by intros ->. Qed.
Lemma upd_sock_run a f k s : socks (up s) !! a = Some k -> upd_sock a f s = Ret tt (put_sock a (f k) s).
Proof. intros H. unfold upd_sock. by rewrite (bind_ret _ _ _ _ _ (get_sock_run _ _ _ H)). Qed.
Lemma get_inet_run a k i s : socks (up s) !! a = Some k -> inet_data k = Some i -> get_inet a s = Ret i s.
Proof. intros H Hi. unfold get_inet. rewrite (bind_ret _ _ _ _ _ (get_sock_run _ _ _ H)). by rewrite Hi. Qed.
Lemma upd_inet_run a f k i s :
  socks (up s) !! a = Some k -> inet_data k = Some i ->
  upd_inet a f s = Ret tt (put_sock a (set_inet_data (Some (f i)) k) s).
Proof.
  intros H Hi. unfold upd_inet. rewrite (bind_ret _ _ _ _ _ (get_inet_run _ _ _ _ H Hi)). by apply upd_sock_run.
Qed.
Lemma put_sock_sock a k k' s : put_sock a k (put_sock a k' s) = put_sock a k s.
Proof. unfold put_sock, set_up, set_socks. simpl. by rewrite insert_insert_eq. Qed.
Lemma socks_put a k s : socks (up (put_sock a k s)) !! a = Some k.
Proof. apply lookup_insert_eq. Qed.
Lemma socks_put_ne a b k s : a <> b -> socks (up (put_sock a k s)) !! b = socks (up s) !! b.
Proof. intros H. by apply lookup_insert_ne. Qed.

(** Every listed socket is live. *)
Definition listed_live (s : net) : Prop := Forall (fun a => is_Some (socks (up s) !! a)) (socket_list (up s)).

Definition sock_test (s : net) (test : Z -> socket -> bool) (a : Z) : bool :=
  match socks (up s) !! a with Some k => test a k | None => false end.

Lemma any_socket_run l test s :
  Forall (fun a => is_Some (socks (up s) !! a)) l -> any_socket l test s = Ret (existsb (sock_test s test) l) s.
Proof.
  induction 1 as [|a l [k Hk] Hl IH]; [done|]. cbn [any_socket existsb].
  rewrite (bind_ret _ _ _ _ _ (get_sock_run _ _ _ Hk)). unfold sock_test at 1. rewrite Hk.
  by destruct (test a k).
Qed.

(** ** The automatic port of a UDP socket *)

(** A datagram socket has the port. *)
Definition port_used (s : net) (port : Z) : bool :=
  existsb (sock_test s (fun _ k =>
    match is_inet k with Some i => (so_type k =? SOCK_DGRAM) && (in_local_port i =? port) | None => false end))
    (socket_list (up s)).

Lemma port_in_use_run port s : listed_live s -> udp_port_in_use port s = Ret (port_used s port) s.
Proof. intros H. unfold udp_port_in_use, gets, bind. by apply any_socket_run. Qed.

(** The [i]-th port after [p], around the range. *)
Definition nth_port (p : Z) (i : nat) : Z := UDP_EPHEMERAL_MIN + (p - UDP_EPHEMERAL_MIN + Z.of_nat i) `mod` 16384.

Lemma nth_port_0 p : UDP_EPHEMERAL_MIN <= p <= UDP_EPHEMERAL_MAX -> nth_port p 0 = p.
Proof. unfold nth_port, UDP_EPHEMERAL_MIN, UDP_EPHEMERAL_MAX. intros H. rewrite Z.mod_small by lia. lia. Qed.
Lemma nth_port_S p i :
  UDP_EPHEMERAL_MIN <= p <= UDP_EPHEMERAL_MAX ->
  let n := u16 (p + 1) in
  let q := if n <? UDP_EPHEMERAL_MIN then UDP_EPHEMERAL_MIN else n in
  UDP_EPHEMERAL_MIN <= q <= UDP_EPHEMERAL_MAX /\ nth_port q i = nth_port p (S i).
Proof.
  intros H n q. unfold q. clear q. unfold nth_port, UDP_EPHEMERAL_MIN, UDP_EPHEMERAL_MAX in *.
  assert (Hn : n = if p =? 65535 then 0 else p + 1).
  { unfold n. destruct (p =? 65535) eqn:E; bools; [subst; done|]. apply u16_small. lia. }
  destruct (p =? 65535) eqn:E; bools; rewrite Hn.
  - split; [simpl; lia|]. subst p. change (if 0 <? 49152 then 49152 else 0) with 49152.
    replace (65535 - 49152 + Z.of_nat (S i)) with (49152 - 49152 + Z.of_nat i + 1 * 16384) by lia.
    by rewrite Z.mod_add.
  - rewrite (proj2 (Z.ltb_ge (p + 1) _)) by lia. split; [lia|]. f_equal. f_equal. lia.
Qed.
Lemma nth_port_range p i : UDP_EPHEMERAL_MIN <= nth_port p i <= UDP_EPHEMERAL_MAX.
Proof.
  unfold nth_port, UDP_EPHEMERAL_MIN, UDP_EPHEMERAL_MAX.
  pose proof (Z.mod_pos_bound (p - 49152 + Z.of_nat i) 16384). lia.
Qed.
(** Every port of the range comes up within one round. *)
Lemma nth_port_onto p port :
  UDP_EPHEMERAL_MIN <= p <= UDP_EPHEMERAL_MAX -> UDP_EPHEMERAL_MIN <= port <= UDP_EPHEMERAL_MAX ->
  exists i, (i < Z.to_nat 16384)%nat /\ nth_port p i = port.
Proof.
  unfold nth_port, UDP_EPHEMERAL_MIN, UDP_EPHEMERAL_MAX. intros H1 H2. exists (Z.to_nat ((port - p) `mod` 16384)).
  pose proof (Z.mod_pos_bound (port - p) 16384). split; [lia|]. rewrite Z2Nat.id by lia.
  rewrite Zplus_mod_idemp_r. replace (p - 49152 + (port - p)) with (port - 49152) by lia.
  rewrite Z.mod_small by lia. lia.
Qed.

(** What binding to a port leaves. *)
Definition bound_sock (k : socket) (i : inet_sock) (port : Z) : socket :=
  set_so_flags (Z.lor (so_flags k) NET_SOCK_BINDED) (set_inet_data (Some (set_local 0 port i)) k).

Lemma auto_bind_loop_run n a k i s :
  listed_live s -> socks (up s) !! a = Some k -> inet_data k = Some i ->
  let p := udp_next_ephemeral (up s) in
  UDP_EPHEMERAL_MIN <= p <= UDP_EPHEMERAL_MAX ->
  wp (auto_bind_loop n a) s (fun r s' =>
    (exists m, (m < n)%nat /\ r = NET_SOCK_OK /\ port_used s (nth_port p m) = false /\
       socks (up s') = <[a := bound_sock k i (nth_port p m)]> (socks (up s))) \/
    (r = NET_SOCK_ERR_ADDRINUSE /\ forall m, (m < n)%nat -> port_used s (nth_port p m) = true)).
Proof.
  revert s. induction n as [|n IH]; intros s Hlive Hk Hi p Hp; cbn [auto_bind_loop].
  { apply wp_ret. right. split; [done|lia]. }
  apply wp_bind, wp_gets. apply wp_bind. apply wp_modify. fold p.
  set (q := if u16 (p + 1) <? UDP_EPHEMERAL_MIN then UDP_EPHEMERAL_MIN else u16 (p + 1)).
  set (s1 := set_up _ s).
  apply wp_bind. eapply wp_intro; [by apply (port_in_use_run p s1)|]. cbn beta.
  change (port_used s1 p) with (port_used s p).
  destruct (port_used s p) eqn:Eu; cbn [negb].
  - assert (Hq : UDP_EPHEMERAL_MIN <= q <= UDP_EPHEMERAL_MAX) by apply (nth_port_S p 0 Hp).
    eapply wp_mono; [by apply (IH s1)|]. change (udp_next_ephemeral (up s1)) with q.
    intros r s' [(m & Hm & -> & Hu & Hs')|[-> Hall]].
    + left. exists (S m). destruct (nth_port_S p m Hp) as [_ E]. fold q in E. rewrite <- E.
      split; [lia|]. done.
    + right. split; [done|]. intros [|m] Hm; [by rewrite nth_port_0|].
      destruct (nth_port_S p m Hp) as [_ E]. fold q in E. rewrite <- E. apply Hall. lia.
  - apply wp_bind. eapply wp_intro; [by apply (upd_inet_run a _ k i s1)|]. cbn beta.
    apply wp_bind. eapply wp_intro; [apply upd_sock_run, socks_put|]. cbn beta. rewrite put_sock_sock.
    apply wp_ret. left. exists O. rewrite nth_port_0 by done. split; [lia|]. split; [done|]. split; [done|]. done.
Qed.

(** a datagram socket without a port gets one from the ephemeral range that no other
    datagram socket has, and becomes bound to it for all addresses; the call fails only
    when all 16384 ports of the range are taken. *)
Theorem udp_auto_bind_spec a k i s :
  listed_live s -> a <> 0 -> socks (up s) !! a = Some k -> is_inet k = Some i -> so_type k = SOCK_DGRAM ->
  in_local_port i = 0 -> UDP_EPHEMERAL_MIN <= udp_next_ephemeral (up s) <= UDP_EPHEMERAL_MAX ->
  wp (udp_auto_bind a) s (fun r s' =>
    (exists port, r = NET_SOCK_OK /\ UDP_EPHEMERAL_MIN <= port <= UDP_EPHEMERAL_MAX /\ port_used s port = false /\
       socks (up s') = <[a := bound_sock k i port]> (socks (up s))) \/
    (r = NET_SOCK_ERR_ADDRINUSE /\
     forall port, UDP_EPHEMERAL_MIN <= port <= UDP_EPHEMERAL_MAX -> port_used s port = true)).
Proof.
  intros Hlive Ha Hk Hi Ht Hp Hn. unfold udp_auto_bind. rewrite (proj2 (Z.eqb_neq a 0)) by done.
  apply wp_bind. eapply wp_intro; [by apply get_sock_run|]. cbn beta. rewrite Hi, Ht, Hp. cbn [Z.eqb negb].
  change (SOCK_DGRAM =? SOCK_DGRAM) with true. cbn [negb].
  change (UDP_EPHEMERAL_MAX - UDP_EPHEMERAL_MIN + 1) with 16384.
  assert (Hid : inet_data k = Some i) by (unfold is_inet in Hi; by destruct (so_domain k =? AF_INET)).
  eapply wp_mono; [by apply (auto_bind_loop_run (Z.to_nat 16384) a k i s)|].
  intros r s' [(m & _ & -> & Hu & Hs')|[-> Hall]].
  - left. exists (nth_port (udp_next_ephemeral (up s)) m). split_and!; try done; apply nth_port_range.
  - right. split; [done|]. intros port Hport. destruct (nth_port_onto _ _ Hn Hport) as (m & Hm & <-). by apply Hall.
Qed.

(** ** The name of a local socket *)

(** asking for the name of a local socket with a length of 0 copies 4 gigabytes: the
    room for the path is computed as the length minus one in 32 bits.  Whatever the
    socket, the copy leaves the 108 bytes of the path behind. *)
Theorem getsockname_overflows a k x s :
  a <> 0 -> socks (up s) !! a = Some k -> so_domain k = AF_UNIX -> unix_data k = Some x ->
  net_getsockname a 0 s = Fault.
Proof.
  intros Ha Hk Hd Hx. unfold net_getsockname. rewrite (proj2 (Z.eqb_neq a 0)) by done.
  rewrite (bind_ret _ _ _ _ _ (get_sock_run _ _ _ Hk)), Hd, Hx. change (AF_UNIX =? AF_UNIX) with true. cbv beta iota zeta.
  rewrite (proj2 (Z.ltb_lt 0 _)) by lia. done.
Qed.

(** ** The accept handler of listening sockets *)

Section accepting.
Context (other_domain : Z -> Z) (other_validate : Z -> Z -> Z -> Z) (other_init : Z -> Z -> M net Z).
Context (other_destroy : Z -> Z -> M net unit) (tcp_close : Z -> M net unit).

(** What TCP and the drivers own stays. *)
Definition lower_same (s s' : net) : Prop :=
  conns (up s') = conns (up s) /\ bufs (up s') = bufs (up s) /\ next_addr (up s) <= next_addr (up s') /\
  tcp_conns (up s') = tcp_conns (up s) /\ tcp_listeners (up s') = tcp_listeners (up s) /\ devs s' = devs s.

Lemma stream_socket_wp s :
  let n := next_addr (up s) in
  0 < n -> socket_builtin_domains_ready (up s) = true ->
  domain_find other_domain (socket_domains (up s)) AF_INET = Some inet_socket_domain ->
  (forall a, n <= a -> grants (up s) a = true) ->
  wp (net_socket other_domain other_validate other_init other_destroy tcp_close AF_INET SOCK_STREAM 0) s (fun r s' =>
    exists k i, r = (NET_SOCK_OK, n) /\ socks (up s') = <[n := k]> (socks (up s)) /\ inet_data k = Some i /\ lower_same s s').
Proof.
  intros n Hn Hready Hfind Hg.
  assert (Hk : forall s1, n <= next_addr (up s1) -> grants (up s1) = grants (up s) ->
    kalloc s1 = Ret (next_addr (up s1)) (set_up (set_next_addr (next_addr (up s1) + 1)) s1)).
  { intros s1 H1 H2. unfold kalloc. by rewrite H2, Hg by lia. }
  unfold net_socket, socket_domain_lookup, socket_register_builtin_domains. cbv zeta.
  apply wp_bind, wp_bind, wp_bind, wp_gets. rewrite Hready. apply wp_ret, wp_gets. rewrite Hfind.
  change (negb (domain_validate other_validate inet_socket_domain (Z.ldiff SOCK_STREAM (Z.lor SOCK_NONBLOCK SOCK_CLOEXEC)) 0 =? NET_SOCK_OK))
    with false. cbv iota.
  apply wp_bind. eapply wp_intro; [exact (Hk s ltac:(lia) eq_refl)|]. cbn beta.
  rewrite (proj2 (Z.eqb_neq (next_addr (up s)) 0)) by lia. fold n.
  set (k0 := mkSock _ _ _ _ _ _ _ _ _ _). set (s1 := set_up (set_next_addr (n + 1)) s).
  apply wp_bind. eapply (wp_intro _ s1 tt (put_sock n k0 s1)); [done|]. cbn beta.
  assert (Hi : domain_init other_init inet_socket_domain n (put_sock n k0 s1) =
    Ret NET_SOCK_OK (put_sock n (set_inet_data (Some (set_ttl 64 (set_recv_timeout (2 ^ 64 - 1) zero_inet))) k0)
      (set_up (set_next_addr (n + 2)) s))).
  { change (domain_init other_init inet_socket_domain n) with (inet_socket_init n). unfold inet_socket_init.
    rewrite (bind_ret _ _ _ _ _ (Hk (put_sock n k0 s1) ltac:(simpl; lia) eq_refl)).
    change (next_addr (up (put_sock n k0 s1))) with (n + 1). rewrite (proj2 (Z.eqb_neq (n + 1) 0)) by lia.
    assert (Hl : forall s', socks (up s') = <[n := k0]> (socks (up s)) -> socks (up s') !! n = Some k0)
      by (intros s' ->; apply lookup_insert_eq).
    erewrite bind_ret; [|apply upd_sock_run, Hl; reflexivity].
    unfold ret, put_sock, s1, set_up, set_socks, set_next_addr. simpl. rewrite insert_insert_eq.
    by replace (n + 1 + 1) with (n + 2) by lia. }
  apply wp_bind. eapply wp_intro; [exact Hi|]. cbn beta. set (k1 := set_inet_data _ k0). set (s2 := put_sock n k1 _).
  change (negb (NET_SOCK_OK =? NET_SOCK_OK)) with false. cbv iota. unfold socket_add.
  apply wp_bind, wp_bind. eapply wp_intro; [exact (Hk s2 ltac:(simpl; lia) eq_refl)|]. cbn beta.
  change (next_addr (up s2)) with (n + 2). rewrite (proj2 (Z.eqb_neq (n + 2) 0)) by lia.
  apply wp_bind, wp_modify, wp_ret.
  change (negb (NET_SOCK_OK =? NET_SOCK_OK)) with false. cbv iota. apply wp_ret.
  eexists k1, _. split; [done|]. split; [done|]. split; [done|]. unfold lower_same. simpl. split_and!; try done. lia.
Qed.

(** The new connection is in the backlog: the entry behind the [count] there were is a
    socket for it, connected to the peer. *)
Definition accepted (ctx : Z) (count : nat) (conn rip rport : Z) (m : gmap Z socket) : Prop := exists k a n i,
  m !! ctx = Some k /\ backlog_count k = Z.of_nat count + 1 /\ backlog k !! count = Some a /\
  m !! a = Some n /\ inet_data n = Some i /\ tcp_conn_ptr i = conn /\ in_remote_ip i = rip /\ in_remote_port i = rport.

(** A listening socket with room in its backlog, and memory, takes the connection. *)
Lemma socket_accept_takes s next d x rip rport conn ctx k li :
  socks (up s) !! ctx = Some k -> inet_data k = Some li -> 0 < ctx < next -> conn <> 0 ->
  0 <= backlog_count k < SOCKET_BACKLOG -> length (backlog k) = Z.to_nat SOCKET_BACKLOG ->
  socket_builtin_domains_ready (up s) = true ->
  domain_find other_domain (socket_domains (up s)) AF_INET = Some inet_socket_domain ->
  (forall a, next <= a -> grants (up s) a = true) -> devs s !! d = Some x ->
  accept_takes (accepted ctx (Z.to_nat (backlog_count k)) conn rip rport) s next
    (tcp_socket_accept other_domain other_validate other_init other_destroy tcp_close d rip rport conn ctx).
Proof.
  intros Hk Hi Hctx Hconn Hb Hbl Hready Hfind Hg Hx s1 Hside Hnext Hdevs.
  unfold side in Hside. injection Hside as E1 E2 E3 E4 E5 E6 E7 E8 E9.
  destruct (Hdevs _ _ Hx) as (x1 & Hx1 & _). rewrite <- E1 in Hk.
  unfold tcp_socket_accept. rewrite (proj2 (Z.eqb_neq ctx 0)) by lia.
  apply wp_bind. eapply wp_intro; [exact (get_sock_run _ _ _ Hk)|]. cbn beta. rewrite Hi, (proj2 (Z.eqb_neq conn 0)), (proj2 (Z.leb_gt SOCKET_BACKLOG _)) by lia.
  apply wp_bind. eapply wp_mono; [apply stream_socket_wp|].
  - lia.
  - by rewrite E6.
  - by rewrite E5.
  - intros a Ha. rewrite E9. apply Hg. lia.
  - intros r s2 (kn & i & -> & Hs2 & Hki & L1 & L2 & L3 & L4 & L5 & L6). cbn [fst snd].
    change (negb (NET_SOCK_OK =? NET_SOCK_OK)) with false. cbv iota. set (n := next_addr (up s1)) in *.
    assert (Hne : n <> ctx) by lia.
    assert (Hn2 : socks (up s2) !! n = Some kn) by (rewrite Hs2; apply lookup_insert_eq).
    assert (Hg2 : get_dev d s2 = Ret x1 s2) by (unfold get_dev; by rewrite L6, Hx1).
    apply wp_bind. eapply wp_intro; [exact Hg2|]. cbn beta.
    apply wp_bind. eapply wp_intro; [exact (upd_inet_run _ _ _ _ _ Hn2 Hki)|]. cbn beta.
    set (kn1 := set_inet_data _ kn). unfold add_flags.
    apply wp_bind. eapply wp_intro; [exact (upd_sock_run _ _ _ _ (socks_put _ _ _))|]. cbn beta. rewrite put_sock_sock.
    assert (Hc : socks (up (put_sock n (set_so_flags (Z.lor (so_flags kn1) (Z.lor NET_SOCK_BINDED NET_SOCK_CONNECTED)) kn1) s2))
      !! ctx = Some k) by (rewrite socks_put_ne, Hs2, lookup_insert_ne by done; done).
    apply wp_bind. eapply wp_intro; [exact (upd_sock_run _ _ _ _ Hc)|]. apply wp_ret.
    split_and!; [done|done|done|simpl; lia|done|done|intros d' y Hy; exists y; simpl; by rewrite L6|].
    unfold accepted. eexists _, n, _, _. simpl. rewrite lookup_insert_eq. split; [done|].
    split; [simpl; lia|]. split; [by apply list_lookup_insert_eq; lia|].
    rewrite lookup_insert_ne, lookup_insert_eq by done. split_and!; done.
Qed.
End accepting.

(** ** A datagram from socket to socket *)

Lemma sin_of_mk ip port :
  0 <= ip < 2 ^ 32 -> 0 <= port < 65536 ->
  let addr := mk_sockaddr_in ip port in sa_family addr = AF_INET /\ sin_addr addr = ip /\ sin_port addr = port.
Proof.
  intros H1 H2 addr. split; [reflexivity|]. split.
  - etrans; [apply (ntohl_field ip)|by apply u32_small].
  - etrans; [apply (ntohs_field port)|by apply u16_small].
Qed.

(** The socket takes the datagram. *)
Definition udp_wants (dev : option netdev) (dg : net_udp_dgram) (k : socket) : bool :=
  match is_inet k with
  | None => false
  | Some i =>
      negb (negb (so_type k =? SOCK_DGRAM) || negb (in_local_port i =? dg_dst_port dg) ||
        (negb (in_local_ip i =? 0) && negb (in_local_ip i =? dg_dst_ip dg)) ||
        (has_flag k NET_SOCK_CONNECTED &&
         negb (net_udp_peer_matches dev (in_remote_ip i) (in_remote_port i) (dg_src_ip dg) (dg_src_port dg))))
  end.

(** The first socket of the list that takes it gets it. *)
Lemma udp_loop_run l1 b l2 dev dg k i s :
  Forall (fun a => exists k, socks (up s) !! a = Some k /\ udp_wants dev dg k = false) l1 ->
  socks (up s) !! b = Some k -> is_inet k = Some i -> udp_wants dev dg k = true -> in_rx_len i = 0 ->
  udp_receive_loop (l1 ++ b :: l2) dev dg s =
  Ret 1 (set_up (fun u => set_io_seq (u32 (io_seq u + 1)) u)
    (put_sock b (set_inet_data (Some (put_packet (dg_src_ip dg) (dg_src_port dg) (dg_payload dg) i)) k) s)).
Proof.
  intros H1 Hk Hi Hw Hr. induction H1 as [|a l1 (ka & Ha & Hwa) H1 IH]; cbn [udp_receive_loop app].
  - rewrite (bind_ret _ _ _ _ _ (get_sock_run _ _ _ Hk)). unfold udp_wants in Hw. rewrite Hi in *.
    apply negb_true_iff in Hw. rewrite Hw, Hr. cbn [Z.eqb negb].
    assert (Hid : inet_data k = Some i) by (unfold is_inet in Hi; by destruct (so_domain k =? AF_INET)).
    by rewrite (bind_ret _ _ _ _ _ (upd_inet_run _ _ _ _ _ Hk Hid)).
  - rewrite (bind_ret _ _ _ _ _ (get_sock_run _ _ _ Ha)). unfold udp_wants in Hwa.
    destruct (is_inet ka) as [ia|]; [|done]. apply negb_false_iff in Hwa. by rewrite Hwa.
Qed.

Section datagram.
Context (driver_send : nat -> list Z -> M net Z) (driver_poll : nat -> M net Z).
Context (other_udp : Z -> net_udp_dgram -> M net Z).
Context (listen_handler : Z -> nat -> Z -> Z -> list Z -> Z -> Z -> Z -> M net (Z * Z)).
Context (other_accept : Z -> nat -> Z -> Z -> Z -> Z -> M net Z).
Context (drain : M net unit) (signal_pending : M net bool) (sched_io_wait : Z -> option Z -> M net Z).
Context (timeout_expired : Z -> M net bool).
Context (other_domain : Z -> Z) (other_validate : Z -> Z -> Z -> Z) (other_init : Z -> Z -> M net Z).
Context (other_destroy : Z -> Z -> M net unit).

(** The other handlers let a datagram that no name or DHCP server sent pass: they return
    and change nothing. *)
Definition others_pass : Prop := forall h dg s,
  dg_src_port dg <> DNS_PORT -> dg_src_port dg <> DHCP_SERVER_PORT -> exists r, other_udp h dg s = Ret r s.

Lemma deliver_others hs dg handled s :
  others_pass -> dg_src_port dg <> DNS_PORT -> dg_src_port dg <> DHCP_SERVER_PORT ->
  Forall (fun h => h <> Some socket_udp_handler) hs ->
  exists b, deliver_loop (udp_handlers_fn other_udp) hs dg handled s = Ret b s.
Proof.
  intros Ho P1 P2 H. revert handled. induction H as [|h hs Hh H IH]; intros handled; [by exists handled|].
  cbn [deliver_loop]. destruct h as [h|]; [|apply IH].
  unfold udp_handlers_fn at 1. rewrite (proj2 (Z.eqb_neq h socket_udp_handler)) by congruence.
  destruct (Ho h dg s P1 P2) as [r E]. rewrite (bind_ret _ _ _ _ _ E). apply IH.
Qed.

Lemma deliver_app h1 h2 dg handled s s' b :
  deliver_loop (udp_handlers_fn other_udp) h1 dg handled s = Ret b s' ->
  deliver_loop (udp_handlers_fn other_udp) (h1 ++ h2) dg handled s =
  deliver_loop (udp_handlers_fn other_udp) h2 dg b s'.
Proof.
  revert handled s. induction h1 as [|h h1 IH]; intros handled s; cbn [deliver_loop app]; [by intros [= -> ->]|].
  destruct h as [h|]; [|apply IH]. unfold bind. destruct (udp_handlers_fn other_udp h dg s); try done. apply IH.
Qed.

(** The state a delivery leaves is the one the socket handler leaves. *)
Lemma deliver_run h1 h2 dg s s' r :
  others_pass -> dg_src_port dg <> DNS_PORT -> dg_src_port dg <> DHCP_SERVER_PORT ->
  Forall (fun h => h <> Some socket_udp_handler) h1 -> Forall (fun h => h <> Some socket_udp_handler) h2 ->
  udp_handlers s = h1 ++ Some socket_udp_handler :: h2 -> socket_udp_receive dg s = Ret r s' ->
  exists r', net_udp_deliver (udp_handlers_fn other_udp) dg s = Ret r' s'.
Proof.
  intros Ho P1 P2 H1 H2 Hh Hr. unfold net_udp_deliver.
  rewrite (bind_ret (gets udp_handlers) _ s _ s eq_refl), Hh.
  destruct (deliver_others h1 dg false s Ho P1 P2 H1) as [b1 E1].
  destruct (deliver_others h2 dg (b1 || (0 <? r)) s' Ho P1 P2 H2) as [b2 E2].
  eexists. rewrite bind_ret with (a := b2) (s' := s'); [done|].
  rewrite (deliver_app h1 _ dg false s s b1 E1). cbn [deliver_loop].
  unfold udp_handlers_fn at 1. rewrite Z.eqb_refl. by rewrite (bind_ret _ _ _ _ _ Hr).
Qed.

Definition send_to : nat -> Z -> option (list Z) -> option (list Z) -> Z -> M net Z :=
  net_sendto driver_send driver_poll other_udp listen_handler other_accept drain
    other_domain other_validate other_init other_destroy.
Definition recv_from : nat -> Z -> bool -> Z -> Z -> Z -> M net (Z * list Z * option (list Z)) :=
  net_recvfrom driver_send driver_poll other_udp listen_handler other_accept signal_pending sched_io_wait
    timeout_expired other_domain other_validate other_init other_destroy.

(** A bound datagram socket. *)
Definition dgram_socket (s : net) (a : Z) (k : socket) (i : inet_sock) : Prop :=
  a <> 0 /\ socks (up s) !! a = Some k /\ so_domain k = AF_INET /\ inet_data k = Some i /\ so_type k = SOCK_DGRAM /\
  0 < in_local_port i < 65536.

(** The device that has the destination address, reached without asking for it. *)
Definition own_device (s : net) (d : nat) (x : netdev) (ip : Z) : Prop :=
  net_route s ip = Some (d, ip) /\ devs s !! d = Some x /\ ipv4_addr x = ip /\ 0 < ip < 2 ^ 32 /\
  length (mac x) = 6%nat /\ find_proto (ipv4_protocols s) IP_PROTO_UDP = Some udp_receiver.

Lemma auto_bind_bound a k i s : dgram_socket s a k i -> udp_auto_bind a s = Ret NET_SOCK_OK s.
Proof.
  intros (Ha & Hk & Hd & Hi & Ht & Hp). unfold udp_auto_bind. rewrite (proj2 (Z.eqb_neq a 0)) by done.
  rewrite (bind_ret _ _ _ _ _ (get_sock_run _ _ _ Hk)). unfold is_inet. rewrite Hd, Ht. cbn [Z.eqb].
  change (AF_INET =? AF_INET) with true. change (SOCK_DGRAM =? SOCK_DGRAM) with true. rewrite Hi. cbn [negb].
  by rewrite (proj2 (Z.eqb_neq (in_local_port i) 0)) by lia.
Qed.

(** The datagram reaches the socket that takes it. *)
Lemma socket_receive_run dg dev x' l1 b l2 kb ib s :
  devs s !! dev = Some x' -> rx_dev (dg_rx dg) = dev -> socket_list (up s) = l1 ++ b :: l2 ->
  Forall (fun c => exists k, socks (up s) !! c = Some k /\ udp_wants (Some x') dg k = false) l1 ->
  udp_wants (Some x') dg kb = true -> socks (up s) !! b = Some kb -> is_inet kb = Some ib -> in_rx_len ib = 0 ->
  socket_udp_receive dg s =
  Ret 1 (set_up (fun u => set_io_seq (u32 (io_seq u + 1)) u)
    (put_sock b (set_inet_data (Some (put_packet (dg_src_ip dg) (dg_src_port dg) (dg_payload dg) ib)) kb) s)).
Proof.
  intros Hx Hd Hl H1 Hw Hb Hi Hr. unfold socket_udp_receive. rewrite Hd.
  assert (Hg : get_dev dev s = Ret x' s) by (unfold get_dev; by rewrite Hx).
  rewrite (bind_ret _ _ _ _ _ Hg), (bind_ret (gets _) _ s _ s eq_refl), Hl. by apply udp_loop_run.
Qed.

(** What the receiving socket holds after the send. *)
Lemma udp_send_delivers f d x ip a ka ia b kb ib port buf h1 h2 l1 l2 s :
  others_pass -> own_device s d x ip -> dgram_socket s a ka ia -> dgram_socket s b kb ib -> a <> b ->
  0 <= in_local_ip ia < 2 ^ 32 -> port = in_local_port ib -> port <> 53 ->
  in_local_port ia <> DNS_PORT -> in_local_port ia <> DHCP_SERVER_PORT ->
  (length buf <= 1400)%nat ->
  udp_handlers s = h1 ++ Some socket_udp_handler :: h2 ->
  Forall (fun h => h <> Some socket_udp_handler) h1 -> Forall (fun h => h <> Some socket_udp_handler) h2 ->
  socket_list (up s) = l1 ++ b :: l2 ->
  let src := if negb (in_local_ip ia =? 0) then in_local_ip ia else ip in
  (forall x' dg, dg_src_ip dg = src -> dg_src_port dg = in_local_port ia -> dg_dst_ip dg = ip -> dg_dst_port dg = port ->
     Forall (fun c => exists k, socks (up s) !! c = Some k /\ udp_wants (Some x') dg k = false) l1 /\
     udp_wants (Some x') dg kb = true) ->
  in_rx_len ib = 0 ->
  exists s1, udp_send_packet driver_send driver_poll other_udp listen_handler other_accept drain
      other_domain other_validate other_init other_destroy (S f) a ip port buf s = Ret (Z.of_nat (length buf)) s1 /\
    socks (up s1) !! b = Some (set_inet_data (Some (put_packet src (in_local_port ia) buf ib)) kb).
Proof.
  intros Ho (Hroute & Hx & Hxa & Hip & Hmac & Hproto) Ha Hb Hab Hia -> Hport P1 P2 Hlen Hhs Hh1 Hh2 Hlist src Hwant Hrx.
  pose proof Ha as (Ha0 & Hka & _ & Hida & _ & Hpa). pose proof Hb as (Hb0 & Hkb & Hdb & Hidb & _ & Hpb).
  set (port := in_local_port ib) in *.
  assert (Hg : get_dev d s = Ret x s) by (unfold get_dev; by rewrite Hx).
  assert (Hgi : get_inet a s = Ret ia s) by by eapply get_inet_run.
  unfold udp_send_packet. rewrite (bind_ret _ _ _ _ _ Hgi).
  rewrite (proj2 (Z.ltb_ge 1400 _)) by lia. rewrite (bind_ret _ _ _ _ _ (auto_bind_bound _ _ _ _ Ha)).
  change (negb (NET_SOCK_OK =? NET_SOCK_OK)) with false. cbv iota.
  rewrite (bind_ret (gets _) _ s s s eq_refl). rewrite Hroute, (bind_ret _ _ _ _ _ Hg), Hxa.
  rewrite (proj2 (Z.eqb_neq ip 0)) by lia.
  assert (Hres : net_udp_resolve_remote_ip (Some x) ip port = ip).
  { unfold net_udp_resolve_remote_ip. by rewrite (proj2 (Z.eqb_neq port 53)) by done. }
  rewrite Hres, Hroute, (bind_ret _ _ _ _ _ Hg), Hxa. rewrite (proj2 (Z.eqb_neq ip 0)) by lia.
  rewrite bind_ret with (a := Some (replicate 6 0)) (s' := s).
  2: { unfold resolve_mac. by rewrite Hxa, Z.eqb_refl, andb_false_r. }
  rewrite (bind_ret _ _ _ _ _ Hgi), (bind_ret _ _ _ _ _ Hg), Hxa. fold src.
  assert (Hsrc : 0 <= src < 2 ^ 32) by (unfold src; case_match; lia).
  unfold receive_frames, stack_receive. cbv zeta.
  set (recv := net_receive_frame _ _ _ _ (S f)).
  assert (Hsend : exists s2 r', net_send_ipv4_udp driver_send recv (Some d) (replicate 6 0) src ip
      (in_local_port ia) port (Some buf) s = Ret r' s2 /\ r' = 0 /\
    socks (up s2) = <[b := set_inet_data (Some (put_packet src (in_local_port ia) buf ib)) kb]> (socks (up s))).
  { unfold recv. rewrite (udp_self_run driver_send _ _ _ d (replicate 6 0) src ip (in_local_port ia) port buf s x f);
      try done; try lia.
    set (dg := udp_dgram d (replicate 6 0) (mac x) src ip (in_local_port ia) port buf).
    rewrite (bind_ret (upd_dev _ _) _ s tt _ eq_refl).
    set (s1 := set_devs _ s). rewrite (bind_ret (upd_dev _ _) _ s1 tt _ eq_refl). set (s2 := set_devs _ s1).
    assert (Hx2 : exists x2, devs s2 !! d = Some x2).
    { unfold s2, s1. simpl. rewrite !list_lookup_alter_eq, Hx. simpl. eauto. }
    destruct Hx2 as [x2 Hx2]. destruct (Hwant x2 dg eq_refl eq_refl eq_refl eq_refl) as [W1 W2].
    assert (Hi : is_inet kb = Some ib) by (unfold is_inet; by rewrite Hdb).
    pose proof (socket_receive_run dg d x2 l1 b l2 kb ib s2 Hx2 eq_refl Hlist W1 W2 Hkb Hi Hrx) as E.
    destruct (deliver_run h1 h2 dg s2 _ 1 Ho P1 P2 Hh1 Hh2 Hhs E) as [r' E'].
    eexists _, 0. rewrite (bind_ret _ _ _ _ _ E'). split; [reflexivity|]. done. }
  destruct Hsend as (s2 & r' & E & -> & Hs2). rewrite (bind_ret _ _ _ _ _ E). cbn [Z.eqb negb].
  assert (Hka2 : socks (up s2) !! a = Some ka) by (rewrite Hs2, lookup_insert_ne by done; done).
  rewrite (bind_ret _ _ _ _ _ (upd_inet_run _ _ _ _ _ Hka2 Hida)).
  unfold add_flags. rewrite (bind_ret _ _ _ _ _ (upd_sock_run _ _ _ _ (socks_put _ _ _))), put_sock_sock.
  eexists. split; [reflexivity|]. rewrite socks_put_ne by done. by rewrite Hs2, lookup_insert_eq.
Qed.

(** C22: a datagram arrives.  A bound datagram socket sends 1 to 1400 bytes to an address
    of the machine itself: the call returns their number.  The socket that gets them is
    the first of the list that matches the destination, another one than the sender; if
    it holds no unread datagram, receiving on it, without waiting and with room for the
    bytes, returns exactly those bytes together with the address and port of the sender,
    through UDP, IPv4, the frame receiver and the handlers of DHCP and DNS.  The
    destination is not port 53, whose datagrams are redirected to the configured name
    server, and the sender's port is not that of a name or DHCP server, whose datagrams
    those handlers look at. *)
Theorem udp_sockets_deliver f f' d x ip a ka ia b kb ib buf len flags h1 h2 l1 l2 s :
  let port := in_local_port ib in
  let src := if negb (in_local_ip ia =? 0) then in_local_ip ia else ip in
  others_pass -> own_device s d x ip -> dgram_socket s a ka ia -> dgram_socket s b kb ib -> a <> b ->
  0 <= in_local_ip ia < 2 ^ 32 -> port <> 53 ->
  in_local_port ia <> DNS_PORT -> in_local_port ia <> DHCP_SERVER_PORT ->
  (0 < length buf <= 1400)%nat -> Z.of_nat (length buf) <= len ->
  udp_handlers s = h1 ++ Some socket_udp_handler :: h2 ->
  Forall (fun h => h <> Some socket_udp_handler) h1 -> Forall (fun h => h <> Some socket_udp_handler) h2 ->
  socket_list (up s) = l1 ++ b :: l2 ->
  (forall x' dg, dg_src_ip dg = src -> dg_src_port dg = in_local_port ia -> dg_dst_ip dg = ip -> dg_dst_port dg = port ->
     Forall (fun c => exists k, socks (up s) !! c = Some k /\ udp_wants (Some x') dg k = false) l1 /\
     udp_wants (Some x') dg kb = true) ->
  in_rx_len ib = 0 ->
  wp (let* n := send_to (S f) a (Some buf) (Some (mk_sockaddr_in ip port)) 16 in
      let* r := recv_from f' b true len flags 16 in ret (n, r)) s
    (fun res _ => res = (Z.of_nat (length buf),
                         (Z.of_nat (length buf), buf, Some (mk_sockaddr_in src (in_local_port ia))))).
Proof.
  intros port src Ho Hdev Ha Hb Hab Hia Hport P1 P2 Hlen Hcap Hhs Hh1 Hh2 Hlist Hwant Hrx.
  destruct (udp_send_delivers f d x ip a ka ia b kb ib port buf h1 h2 l1 l2 s) as (s1 & E & Hb1); try done; [lia|].
  pose proof Ha as (Ha0 & Hka & Hda & Hida & Hta & Hpa). pose proof Hb as (Hb0 & Hkb & Hdb & Hidb & Htb & Hpb).
  pose proof Hdev as (_ & _ & _ & Hip & _).
  destruct (sin_of_mk ip port) as (F1 & F2 & F3); [lia|lia|].
  assert (Hsend : send_to (S f) a (Some buf) (Some (mk_sockaddr_in ip port)) 16 s = Ret (Z.of_nat (length buf)) s1).
  { unfold send_to, net_sendto. rewrite (proj2 (Z.eqb_neq a 0)) by done.
    rewrite (bind_ret _ _ _ _ _ (get_sock_run _ _ _ Hka)), Hda.
    change (AF_INET =? AF_UNIX) with false. change (AF_INET =? AF_INET) with true. cbv iota.
    rewrite (bind_ret _ _ _ _ _ (get_inet_run _ _ _ _ Hka Hida)), Hta. change (SOCK_DGRAM =? SOCK_DGRAM) with true.
    unfold dgram_dest. change (sizeof_sockaddr_in <=? 16) with true. cbv iota. rewrite F1, F2, F3.
    change (negb (AF_INET =? AF_INET)) with false. cbv iota. exact E. }
  apply wp_bind. eapply wp_intro; [exact Hsend|]. cbn beta. fold src in Hb1.
  set (i1 := put_packet src (in_local_port ia) buf ib) in *. set (k1 := set_inet_data (Some i1) kb) in *.
  assert (Hbuf : take (Z.to_nat SOCKET_BUF_SIZE) buf = buf) by (apply take_ge; unfold SOCKET_BUF_SIZE; lia).
  assert (Hrl : in_rx_len i1 = Z.of_nat (length buf)) by (unfold i1, put_packet; by rewrite Hbuf).
  assert (Hg1 : get_inet b s1 = Ret i1 s1) by by eapply get_inet_run.
  apply wp_bind. unfold recv_from, net_recvfrom. rewrite (proj2 (Z.eqb_neq b 0)) by done. cbn [orb negb].
  apply wp_bind. eapply wp_intro; [by apply get_sock_run|]. cbn beta.
  change (so_domain k1) with (so_domain kb). change (so_type k1) with (so_type kb). rewrite Hdb, Htb.
  change (AF_INET =? AF_UNIX) with false. change (AF_INET =? AF_INET) with true.
  change (SOCK_DGRAM =? SOCK_DGRAM) with true. cbn [orb].
  apply wp_bind. eapply wp_intro; [exact Hg1|]. cbn beta. rewrite Hrl, (proj2 (Z.eqb_neq _ 0)) by lia. cbn [andb].
  apply wp_bind, wp_ret. cbn [Z.eqb negb]. apply wp_bind. eapply wp_intro; [exact Hg1|]. cbn beta.
  rewrite Hrl, (proj2 (Z.eqb_neq _ 0)), (proj2 (Z.ltb_ge len _)) by lia.
  apply wp_bind. eapply wp_intro; [by eapply upd_inet_run|]. cbn beta. apply wp_ret, wp_ret.
  change (sizeof_sockaddr_in <=? 16) with true. cbv iota. f_equal. f_equal. f_equal.
  unfold i1, put_packet. rewrite Hbuf. cbn [in_rx_head in_rx_buf set_packet]. unfold copy_into.
  rewrite Nat2Z.id. cbn [Z.to_nat]. rewrite drop_0. by rewrite take_app_length.
Qed.
End datagram.
