(* ===== verification/SocketExamples.v ===== *)
(** * Sockets on concrete networks

    Whole conversations through the socket calls over the loop-back device, and runs
    that show where the code loses track: local sockets that deliver to the listener,
    a closed listening socket that TCP still calls. *)

From stdpp Require Import base gmap list.
From Stdlib Require Import ZArith Lia.
From S2P Require Import Prelude Wire WireProps NetState Net NetProps Tcp TcpRing TcpProps TcpWire TcpSpecs TcpExamples Dns Dhcp Socket SocketProps.

Local Open Scope Z_scope.

(** A machine with the loop-back device, a card, and no other domains or handlers. *)
Definition no_domain (ops : Z) : Z := 0.
Definition no_validate (ops type protocol : Z) : Z := NET_SOCK_ERR_INVAL.
Definition no_init (ops a : Z) : M net Z := ret NET_SOCK_ERR_INVAL.
Definition no_destroy (ops a : Z) : M net unit := ret tt.
Definition ex_wait (io : Z) (t : option Z) : M net Z := ret (- ETIMEDOUT).
Definition ex_expired (t : Z) : M net bool := ret true.

Definition sk_new : Z -> Z -> Z -> M net (Z * Z) :=
  new_socket ex_send ex_handler ex_listen ex_accept no_domain no_validate no_init no_destroy 20.
Definition sk_close : Z -> M net Z :=
  close_socket ex_send ex_handler ex_listen ex_accept no_domain no_validate no_init no_destroy 20.
Definition sk_connect : Z -> option (list Z) -> Z -> M net Z :=
  net_connect ex_send ex_poll ex_handler ex_listen ex_accept (ret tt) (ret tt) (ret false)
    no_domain no_validate no_init no_destroy 20.
Definition sk_accept : Z -> Z -> M net (Z * Z * option (list Z)) := net_accept ex_poll (ret false) 20.
Definition sk_send : Z -> option (list Z) -> M net Z :=
  net_send ex_send ex_poll ex_handler ex_listen ex_accept (ret tt) no_domain no_validate no_init no_destroy 20.
Definition sk_sendto : Z -> option (list Z) -> option (list Z) -> Z -> M net Z :=
  net_sendto ex_send ex_poll ex_handler ex_listen ex_accept (ret tt) no_domain no_validate no_init no_destroy 20.
Definition sk_recv : Z -> bool -> Z -> Z -> M net (Z * list Z * option (list Z)) :=
  net_recv ex_send ex_poll ex_handler ex_listen ex_accept (ret false) ex_wait ex_expired
    no_domain no_validate no_init no_destroy 20.
Definition sk_recvfrom : Z -> bool -> Z -> Z -> Z -> M net (Z * list Z * option (list Z)) :=
  net_recvfrom ex_send ex_poll ex_handler ex_listen ex_accept (ret false) ex_wait ex_expired
    no_domain no_validate no_init no_destroy 20.
Definition sk_receive : nat -> list Z -> M net unit :=
  receive_frames ex_send ex_handler ex_listen ex_accept no_domain no_validate no_init no_destroy 20.

Definition ex_sockets : net := final (socket_init no_domain) ex_net.
Definition lo_addr (port : Z) : option (list Z) := Some (mk_sockaddr_in (net_ipv4 127 0 0 1) port).

(** ** A stream conversation *)

Definition ex_tcp_sockets : M net (list Z * list Z * option (list Z)) :=
  let* ls := sk_new AF_INET SOCK_STREAM 0 in
  net_bind ls.2 (lo_addr 80) 16 ;;;
  net_listen ls.2 ;;;
  let* c := sk_new AF_INET SOCK_STREAM 0 in
  let* r := sk_connect c.2 (lo_addr 80) 16 in
  let* p := sk_accept ls.2 16 in
  let* n := sk_send c.2 (Some [1; 2; 3; 4]) in
  let* x := sk_recv p.1.2 true 3 MSG_DONTWAIT in
  let* m := sk_send p.1.2 (Some [9; 8]) in
  let* y := sk_recv c.2 true 10 MSG_DONTWAIT in
  ret ([r; p.1.1; n; m] ++ x.1.2, y.1.2, p.2).

(** Connecting, accepting, and data in both directions. *)
Example tcp_sockets_talk :
  exists s, ex_tcp_sockets ex_sockets =
    Ret ([0; 0; 4; 2; 1; 2; 3], [9; 8], Some (mk_sockaddr_in (net_ipv4 127 0 0 1) 41000)) s.
Proof. eexists. vm_compute. reflexivity. Qed.

(** ** Local sockets *)

Definition un_addr : option (list Z) := Some (mk_sockaddr_un [47; 115]).
Definition ex_unix : M net (list Z * list Z * list Z) :=
  let* ls := sk_new AF_UNIX SOCK_STREAM 0 in
  net_bind ls.2 un_addr 4 ;;;
  net_listen ls.2 ;;;
  let* c := sk_new AF_UNIX SOCK_STREAM 0 in
  let* r := sk_connect c.2 un_addr 4 in
  let* p := sk_accept ls.2 0 in
  let* n := sk_send c.2 (Some [1; 2; 3]) in
  let* x := sk_recv p.1.2 true 10 0 in
  let* m := sk_send p.1.2 (Some [4; 5]) in
  let* y := sk_recv c.2 true 10 0 in
  let* l := get_unix ls.2 in
  let* b := get_buf (un_rx_buf l) in
  ret ([r; p.1.1; n; x.1.1; m; y.1.1], x.1.2 ++ y.1.2, read_bytes b 0 (Z.to_nat (un_rx_len l))).

(** local stream sockets do not deliver to each other.  After a client connected and
    the server accepted, both sends report success, both ends receive nothing, and all
    the bytes are in the buffer of the listening socket, which is the peer both ends
    point to. *)
Theorem unix_sockets_feed_listener :
  exists s, ex_unix ex_sockets = Ret ([0; 0; 3; 0; 2; 0], [], [1; 2; 3; 4; 5]) s.
Proof. eexists. vm_compute. reflexivity. Qed.

(** ** A listening socket that was closed *)

Definition ex_closed_listener : M net Z :=
  let* ls := sk_new AF_INET SOCK_STREAM 0 in
  net_bind ls.2 (lo_addr 80) 16 ;;;
  net_listen ls.2 ;;;
  let* r := sk_close ls.2 in
  let* c := sk_new AF_INET SOCK_STREAM 0 in
  sk_connect c.2 (lo_addr 80) 16.

(** closing a listening socket leaves TCP's listener behind, with the address of the
    freed socket.  The next connection to the port completes its handshake and calls the
    accept handler, which uses the freed socket. *)
Theorem closed_listener_is_used : ex_closed_listener ex_sockets = Fault.
Proof. vm_compute. reflexivity. Qed.

(** ** A connection for a listening socket *)

(** A socket that listens on port 22 of the card; TCP's listener has its address. *)
Definition ex_sk_listening : net :=
  final (let* ls := sk_new AF_INET SOCK_STREAM 0 in
         net_bind ls.2 (Some (mk_sockaddr_in (net_ipv4 10 0 2 15) 22)) 16 ;;;
         net_listen ls.2) ex_sockets.
Definition ex_listener : tcp_listener := mkListener (net_ipv4 10 0 2 15) 22 0 TCP_SOCKET_ACCEPT 1.
Definition ex_accept_fn : Z -> nat -> Z -> Z -> Z -> Z -> M net Z :=
  accept_fn ex_accept no_domain no_validate no_init no_destroy.

Lemma ex_accept_takes :
  accept_takes (accepted 1 0 5 (net_ipv4 10 0 2 2) 3000) ex_sk_listening 7
    (ex_accept_fn TCP_SOCKET_ACCEPT 1 (net_ipv4 10 0 2 2) 3000 5 1).
Proof.
  refine (socket_accept_takes no_domain no_validate no_init no_destroy _ ex_sk_listening 7 1 ex_card _ _ 5 1 _ _
    eq_refl eq_refl _ _ _ eq_refl eq_refl eq_refl _ eq_refl); [lia|lia|vm_compute; split; congruence|done].
Qed.

(** The backlog of the socket has the new connection. *)
Lemma tcp_accept_opens_witness :
  wp (net_tcp_receive ex_send ex_listen ex_accept_fn (fun _ _ => ret tt) 1 ex_peer ex_syn 20 52 ;;;
      net_tcp_receive ex_send ex_listen ex_accept_fn (fun _ _ => ret tt) 1 ex_peer (ex_ack [5; 6]) 20 42) ex_sk_listening
    (fun _ s' => exists c b, established 5 c b s' /\
       ident c = (1%nat, net_ipv4 10 0 2 2, 3000, 22) /\ rx_abs c b = mkRxq [5; 6] 7003 false false /\
       accepted 1 0 5 (net_ipv4 10 0 2 2) 3000 (socks (up s'))).
Proof.
  exact (tcp_accept_opens ex_send ex_listen ex_accept_fn (fun _ _ => ret tt)
    (accepted 1 0 5 (net_ipv4 10 0 2 2) 3000) 1 ex_peer ex_syn 20 52
    ex_listener ex_card ex_peer (ex_ack [5; 6]) 20 42 ex_sk_listening ex_send_quiet ex_accept_takes
    ltac:(vm_compute; discriminate) ltac:(vm_compute; discriminate) ltac:(reflexivity) ltac:(reflexivity)
    ltac:(reflexivity) ltac:(discriminate) ltac:(reflexivity) ltac:(reflexivity) ltac:(reflexivity)
    ltac:(reflexivity) ltac:(reflexivity) ltac:(vm_compute; discriminate) ltac:(reflexivity)
    ltac:(vm_compute; discriminate) ltac:(vm_compute; split; discriminate) ltac:(reflexivity) ltac:(reflexivity)
    ltac:(reflexivity) ltac:(reflexivity)).
Defined.

(** ** Datagrams *)

(** Two datagram sockets on the loop-back device, ports 5000 and 6000. *)
Definition ex_dgrams : net :=
  final (let* a := sk_new AF_INET SOCK_DGRAM 0 in
         net_bind a.2 (lo_addr 5000) 16 ;;;
         let* b := sk_new AF_INET SOCK_DGRAM 0 in
         net_bind b.2 (lo_addr 6000) 16) ex_sockets.
Definition ex_inet (port : Z) : inet_sock :=
  set_local (net_ipv4 127 0 0 1) port (set_ttl 64 (set_recv_timeout (2 ^ 64 - 1) zero_inet)).
Definition ex_dgram (port : Z) : socket :=
  mkSock AF_INET SOCK_DGRAM 0 NET_SOCK_BINDED inet_socket_domain None (Some (ex_inet port)) (replicate 16 0) 0 1.

Lemma ex_dgram_at port a : (port, a) = (5000, 1) \/ (port, a) = (6000, 4) ->
  dgram_socket ex_dgrams a (ex_dgram port) (ex_inet port).
Proof. intros [[= -> ->]|[= -> ->]]; repeat split; vm_compute; congruence. Qed.

Lemma ex_inet_local p : in_local_port (ex_inet p) = p /\ in_local_ip (ex_inet p) = net_ipv4 127 0 0 1.
Proof. split; reflexivity. Qed.

(** The handlers of DHCP and DNS. *)
Definition lyr_udp (h : Z) (dg : net_udp_dgram) : M net Z :=
  if h =? dhcp_udp_handler then dhcp_udp_receive dg
  else if h =? dns_udp_handler then dns_udp_receive dg
  else ret 0.
Lemma lyr_udp_pass : others_pass lyr_udp.
Proof.
  intros h dg s P1 P2. unfold lyr_udp. apply Z.eqb_neq in P1, P2. destruct (h =? dhcp_udp_handler).
  { unfold dhcp_udp_receive. rewrite P2. destruct (_ <? _); eexists; reflexivity. }
  destruct (h =? dns_udp_handler); [|by eexists]. unfold dns_udp_receive. rewrite P1.
  rewrite (bind_ret (gets _) _ s _ s eq_refl). destruct (negb (same_dev _ _)); eexists; reflexivity.
Qed.

Lemma udp_sockets_deliver_witness :
  wp (let* n := send_to ex_send ex_poll lyr_udp ex_listen ex_accept (ret tt) no_domain no_validate no_init no_destroy
                  3 1 (Some [7; 8; 9]) (Some (mk_sockaddr_in (net_ipv4 127 0 0 1) 6000)) 16 in
      let* r := recv_from ex_send ex_poll lyr_udp ex_listen ex_accept (ret false) ex_wait ex_expired
                  no_domain no_validate no_init no_destroy 1 4 true 100 0 16 in
      ret (n, r)) ex_dgrams
    (fun res _ => res = (3, (3, [7; 8; 9], Some (mk_sockaddr_in (net_ipv4 127 0 0 1) 5000)))).
Proof.
  pose proof (udp_sockets_deliver ex_send ex_poll lyr_udp ex_listen ex_accept (ret tt) (ret false) ex_wait ex_expired
    no_domain no_validate no_init no_destroy 2 1 0 ex_lo (net_ipv4 127 0 0 1) 1 (ex_dgram 5000) (ex_inet 5000)
    4 (ex_dgram 6000) (ex_inet 6000) [7; 8; 9] 100 0 [Some dhcp_udp_handler; Some dns_udp_handler]
    [None; None; None; None; None] [] [1] ex_dgrams) as H. cbv zeta in H.
  rewrite (proj1 (ex_inet_local 5000)), (proj1 (ex_inet_local 6000)), (proj2 (ex_inet_local 5000)) in H.
  change (Z.of_nat (length [7; 8; 9])) with 3 in H.
  change (negb (net_ipv4 127 0 0 1 =? 0)) with true in H. cbv iota in H. apply H; clear H.
  - exact lyr_udp_pass.
  - repeat split; vm_compute; congruence.
  - apply ex_dgram_at. by left.
  - apply ex_dgram_at. by right.
  - discriminate.
  - vm_compute. split; congruence.
  - discriminate.
  - discriminate.
  - discriminate.
  - simpl. lia.
  - lia.
  - vm_compute. reflexivity.
  - repeat constructor; discriminate.
  - repeat constructor; discriminate.
  - vm_compute. reflexivity.
  - intros x' dg E1 E2 E3 E4. split; [constructor|]. unfold udp_wants. simpl is_inet. rewrite E3, E4. reflexivity.
  - reflexivity.
Defined.

(** A datagram socket that is not bound. *)
Definition ex_unbound : net := final (sk_new AF_INET SOCK_DGRAM 0) ex_dgrams.

Definition ex_free_inet : inet_sock := set_ttl 64 (set_recv_timeout (2 ^ 64 - 1) zero_inet).
Definition ex_free_dgram : socket :=
  mkSock AF_INET SOCK_DGRAM 0 0 inet_socket_domain None (Some ex_free_inet) (replicate 16 0) 0 1.

Lemma ex_unbound_live : listed_live ex_unbound.
Proof.
  unfold listed_live. replace (socket_list (up ex_unbound)) with [7; 4; 1] by (vm_compute; reflexivity).
  repeat constructor; vm_compute; eexists; reflexivity.
Qed.

Lemma udp_auto_bind_spec_witness :
  wp (udp_auto_bind 7) ex_unbound (fun r s' =>
    (exists port, r = NET_SOCK_OK /\ UDP_EPHEMERAL_MIN <= port <= UDP_EPHEMERAL_MAX /\
       port_used ex_unbound port = false /\
       socks (up s') = <[7 := bound_sock ex_free_dgram ex_free_inet port]> (socks (up ex_unbound))) \/
    (r = NET_SOCK_ERR_ADDRINUSE /\
     forall port, UDP_EPHEMERAL_MIN <= port <= UDP_EPHEMERAL_MAX -> port_used ex_unbound port = true)).
Proof.
  apply (udp_auto_bind_spec 7 ex_free_dgram ex_free_inet ex_unbound ex_unbound_live).
  - discriminate.
  - vm_compute. reflexivity.
  - reflexivity.
  - reflexivity.
  - reflexivity.
  - vm_compute. split; congruence.
Defined.

Definition ex_local : net := final (sk_new AF_UNIX SOCK_STREAM 0) ex_sockets.
Lemma getsockname_overflows_witness : net_getsockname 1 0 ex_local = Fault.
Proof.
  eapply getsockname_overflows; [discriminate|vm_compute; reflexivity|reflexivity|reflexivity].
Defined.
