(* ===== verification/DnsProps.v ===== *)
(** * What the resolver does (kernel/src/net/proto/dns.c)

    Address literals are read back from their printed form; the scan of /etc/hosts finds
    what a line-by-line reading of the file finds; encoded names are the labels with
    their lengths; the reader of answers stays in the message whatever it holds, and finds
    the first address record of a well-formed one. *)

From stdpp Require Import base gmap list.
From Stdlib Require Import ZArith Lia.
From S2P Require Import Prelude Wire WireProps NetState Net Tcp Dns.

Local Open Scope Z_scope.

(** ** Address literals *)

Definition starts_with_digit (l : list Z) : bool :=
  match l with c :: _ => ascii_digit c | [] => false end.

Lemma digits_loop_stop l v : starts_with_digit l = false -> digits_loop l v = Some (v, l).
Proof. destruct l as [|c l]; simpl; [done|]. by intros ->. Qed.

Lemma digits_loop_step d l v :
  0 <= d <= 9 -> 0 <= v * 10 + d <= 255 -> 0 <= v ->
  digits_loop (48 + d :: l) v = digits_loop l (v * 10 + d).
Proof.
  intros Hd Hv Hv0. simpl. unfold ascii_digit.
  rewrite (proj2 (Z.leb_le 48 (48 + d))), (proj2 (Z.leb_le (48 + d) 57)) by lia. simpl.
  replace (48 + d - 48) with d by lia.
  rewrite (u32_small (v * 10)), (u32_small d), u32_small by lia.
  by rewrite (proj2 (Z.ltb_ge 255 _)) by lia.
Qed.

Lemma dec_byte_parse v l :
  0 <= v < 256 -> starts_with_digit l = false ->
  starts_with_digit (dec_byte v ++ l) = true /\ digits_loop (dec_byte v ++ l) 0 = Some (v, l).
Proof.
  intros Hv Hl. unfold dec_byte.
  destruct (v <? 10) eqn:E1; [|destruct (v <? 100) eqn:E2]; bools; simpl app.
  - split; [unfold starts_with_digit, ascii_digit; apply andb_true_iff; split; apply Z.leb_le; lia|].
    rewrite digits_loop_step, digits_loop_stop by (done || lia). repeat f_equal; lia.
  - split; [unfold starts_with_digit, ascii_digit; apply andb_true_iff; split; apply Z.leb_le; zdiv|].
    rewrite !digits_loop_step, digits_loop_stop by (done || zdiv). repeat f_equal; zdiv.
  - split; [unfold starts_with_digit, ascii_digit; apply andb_true_iff; split; apply Z.leb_le; zdiv|].
    rewrite !digits_loop_step, digits_loop_stop by (done || zdiv). repeat f_equal; zdiv.
Qed.

Lemma parts_loop_dec n v l :
  0 <= v < 256 -> starts_with_digit l = false ->
  parts_loop (S n) (dec_byte v ++ l) =
    if (0 <? n)%nat then
      match l with
      | 46 :: l => match parts_loop n l with Some (vs, l) => Some (v :: vs, l) | None => None end
      | _ => None
      end
    else Some ([v], l).
Proof.
  intros Hv Hl. destruct (dec_byte_parse v l Hv Hl) as [H1 H2].
  destruct (dec_byte v ++ l) as [|c r] eqn:E; [done|]. simpl in H1.
  cbn [parts_loop]. rewrite H1. cbn [negb]. by rewrite H2.
Qed.

Lemma ipv4_parts ip : 0 <= ip < 2 ^ 32 ->
  Z.lor (Z.lor (Z.lor (u32 (Z.shiftl (Z.land (Z.shiftr ip 24) 255) 24))
    (u32 (Z.shiftl (Z.land (Z.shiftr ip 16) 255) 16)))
    (u32 (Z.shiftl (Z.land (Z.shiftr ip 8) 255) 8))) (Z.land ip 255) = ip.
Proof.
  intros H. apply Z.bits_inj'. intros n Hn. unfold u32.
  rewrite !Z.lor_spec. change 255 with (Z.ones 8).
  destruct (decide (n < 32)) as [Hlt|Hge].
  2:{ rewrite !Z.mod_pow2_bits_high by lia. rewrite (testbit_high ip 32) by lia.
      rewrite Z.land_spec, (testbit_high ip 32) by lia. done. }
  rewrite !Z.mod_pow2_bits_low by lia. rewrite !Z.shiftl_spec by lia.
  assert (Hs : forall k, 0 <= k -> (Z.testbit (Z.land (Z.shiftr ip k) (Z.ones 8)) (n - k))
    = (Z.testbit ip n && bool_decide (k <= n < k + 8))).
  { intros k Hk. rewrite Z.land_spec. destruct (decide (k <= n)) as [Hkn|Hkn].
    - rewrite Z.shiftr_spec by lia. replace (n - k + k) with n by lia. f_equal.
      rewrite Z.testbit_ones_nonneg by lia. apply eq_bool_prop_intro.
      rewrite Is_true_true, Is_true_true, Z.ltb_lt, bool_decide_eq_true. lia.
    - rewrite !Z.testbit_neg_r by lia. rewrite bool_decide_false by lia. by rewrite !andb_false_r. }
  rewrite !Hs by lia. rewrite (Z.land_spec ip), Z.testbit_ones_nonneg by lia.
  destruct (Z.testbit ip n); [|done]. simpl.
  repeat case_bool_decide; try lia; done.
Qed.

(** printing an address and parsing the text gives the address back, for all 2^32
    addresses. *)
Theorem ipv4_literal_roundtrip ip :
  0 <= ip < 2 ^ 32 -> parse_ipv4_literal (net_ipv4_format ip) = Some ip.
Proof.
  intros H. unfold net_ipv4_format.
  assert (Hb : forall x, 0 <= Z.land x 255 < 256).
  { intros x. change 255 with (Z.ones 8). rewrite Z.land_ones by lia. apply (Z.mod_pos_bound x 256). lia. }
  set (a := Z.land (Z.shiftr ip 24) 255). set (b := Z.land (Z.shiftr ip 16) 255).
  set (c := Z.land (Z.shiftr ip 8) 255). set (d := Z.land ip 255).
  unfold parse_ipv4_literal.
  pose proof (dec_byte_parse a (46 :: dec_byte b ++ 46 :: dec_byte c ++ 46 :: dec_byte d) (Hb _) eq_refl) as [Hs _].
  destruct (dec_byte a ++ _) as [|y r] eqn:E; [done|]. rewrite <- E.
  rewrite (parts_loop_dec 3) by (apply Hb || done). simpl (0 <? 3)%nat. cbv iota.
  rewrite (parts_loop_dec 2) by (apply Hb || done). simpl (0 <? 2)%nat. cbv iota.
  rewrite (parts_loop_dec 1) by (apply Hb || done). simpl (0 <? 1)%nat. cbv iota.
  rewrite <- (app_nil_r (dec_byte d)), (parts_loop_dec 0) by (apply Hb || done). simpl (0 <? 0)%nat. cbv iota.
  f_equal. by apply ipv4_parts.
Qed.

(** ** /etc/hosts *)

(** The maximal runs of bytes that are not separators. *)
Fixpoint tokens (sep : Z -> bool) (l : list Z) : list (list Z) :=
  match l with
  | [] => []
  | c :: l' =>
      if sep c then tokens sep l'
      else match l' with
           | [] => [[c]]
           | d :: _ => if sep d then [c] :: tokens sep l'
                       else match tokens sep l' with t :: ts => (c :: t) :: ts | [] => [[c]] end
           end
  end.

(** What a line says about a name, and the first line that says something. *)
Definition line_addr (name line : list Z) : option Z :=
  match tokens ascii_space (take_while (fun c => negb (c =? 35)) line) with
  | [] => None
  | ip :: names =>
      match parse_ipv4_literal ip with
      | Some v => if bool_decide (name ∈ names) then Some v else None
      | None => None
      end
  end.
Definition hosts_spec (buf name : list Z) : option Z := head (omap (line_addr name) (tokens is_nl buf)).

Lemma tokens_skip sep l : tokens sep l = tokens sep (skip_while sep l).
Proof. induction l as [|c l IH]; simpl; [done|]. destruct (sep c) eqn:E; [done|]. simpl. by rewrite E. Qed.

Lemma tokens_cons sep c l :
  sep c = false ->
  tokens sep (c :: l) = (c :: take_while (fun c => negb (sep c)) l) :: tokens sep (skip_while (fun c => negb (sep c)) l).
Proof.
  revert c. induction l as [|d l IH]; intros c Hc; simpl; rewrite Hc; [done|].
  destruct (sep d) eqn:Hd; simpl; [by rewrite ?Hd|].
  specialize (IH d Hd). simpl in IH. rewrite Hd in IH. by rewrite IH.
Qed.

(** One round of both scanning loops: skip separators, take a token. *)
Lemma tokens_round sep l :
  let r := skip_while sep l in
  let t := take_while (fun c => negb (sep c)) r in
  let l' := skip_while (fun c => negb (sep c)) r in
  tokens sep l = (if Z.of_nat (length t) =? 0 then [] else [t]) ++ tokens sep l' /\
  (l <> [] -> (length l' < length l)%nat).
Proof.
  assert (Hsk : forall f l, (length (skip_while f l) <= length l)%nat).
  { intros f k. induction k as [|c k IH]; simpl; [lia|]. destruct (f c); simpl; lia. }
  assert (Hhd : forall f k, match skip_while f k with c :: _ => f c = false | [] => True end).
  { intros f k. induction k as [|c k IH]; simpl; [done|]. destruct (f c) eqn:E; [done|]. exact E. }
  cbv zeta. rewrite (tokens_skip sep l). pose proof (Hhd sep l) as Hh. pose proof (Hsk sep l) as Hl.
  destruct (skip_while sep l) as [|c r]; cbn [take_while skip_while].
  - split; [done|]. destruct l; [done|]. simpl. lia.
  - rewrite Hh. cbn [negb]. split; [by apply tokens_cons|]. pose proof (Hsk (fun c => negb (sep c)) r). simpl in Hl. lia.
Qed.

Lemma names_loop_run fuel p name s :
  (length p < fuel)%nat -> names_loop fuel p name s = Ret (bool_decide (name ∈ tokens ascii_space p)) s.
Proof.
  revert p. induction fuel as [|f IH]; intros p Hp; [lia|]. cbn [names_loop].
  destruct p as [|c p]; [done|]. set (q := c :: p) in *.
  destruct (tokens_round ascii_space q) as [E Hlt]. cbv zeta in *. specialize (Hlt ltac:(done)). rewrite E.
  set (t := take_while _ _) in *. set (l' := skip_while (fun c => negb _) _) in *.
  destruct (Z.of_nat (length t) =? 0) eqn:Et; simpl.
  - apply IH. lia.
  - unfold host_token_eq. case_bool_decide as Hn.
    + unfold ret. f_equal. symmetry. apply bool_decide_eq_true. subst name. left.
    + rewrite IH by lia. f_equal. apply bool_decide_ext. rewrite elem_of_cons. naive_solver.
Qed.

Lemma hosts_loop_run fuel buf name s :
  (length buf < fuel)%nat -> hosts_loop fuel buf name s = Ret (hosts_spec buf name) s.
Proof.
  revert buf. induction fuel as [|f IH]; intros buf Hb; [lia|]. cbn [hosts_loop].
  destruct buf as [|c buf]; [done|]. set (q := c :: buf) in *.
  destruct (tokens_round is_nl q) as [E Hlt]. cbv zeta in *. specialize (Hlt ltac:(done)).
  unfold hosts_spec. rewrite E, omap_app.
  set (line := take_while _ (skip_while is_nl q)) in *. set (rest := skip_while (fun c => negb _) _) in *.
  assert (IH' : hosts_loop f rest name s = Ret (hosts_spec rest name) s) by (apply IH; lia).
  unfold hosts_spec in IH'. set (cut := take_while (fun c => negb (c =? 35)) line) in *.
  destruct (tokens_round ascii_space cut) as [E2 _]. cbv zeta in E2.
  set (ip := take_while _ (skip_while ascii_space cut)) in *.
  set (p := skip_while _ (skip_while ascii_space cut)) in *.
  assert (Hone : omap (line_addr name) (if Z.of_nat (length line) =? 0 then [] else [line]) =
    match line_addr name line with Some v => [v] | None => [] end).
  { destruct (Z.of_nat (length line) =? 0) eqn:El; simpl; [|by destruct (line_addr name line)].
    bools. by destruct line. }
  rewrite Hone. unfold line_addr. fold cut. rewrite E2.
  destruct (Z.of_nat (length ip) =? 0) eqn:Eip; simpl app.
  - replace (tokens ascii_space p) with (@nil (list Z)); [done|].
    bools. unfold p, ip in *. destruct (skip_while ascii_space cut) as [|d r] eqn:Ed; [done|].
    exfalso. assert (Hd : ascii_space d = false).
    { clear -Ed. induction cut as [|x k IH]; simpl in Ed; [done|]. destruct (ascii_space x) eqn:Ex; [auto|]. by simplify_eq. }
    simpl in Eip. rewrite Hd in Eip. simpl in Eip. lia.
  - destruct (parse_ipv4_literal ip) as [v|]; [|done].
    rewrite (bind_ret _ _ _ _ _ (names_loop_run (S (length p)) p name s ltac:(lia))).
    case_bool_decide; [done|exact IH'].
Qed.

(** C28: the scan of the text of /etc/hosts always ends, within as many rounds as it has bytes,
    and finds the address of the first line, comments cut off, whose first word is an
    address literal and one of whose other words is the name. *)
Theorem hosts_lookup_first_line buf name s :
  hosts_loop (S (length buf)) buf name s = Ret (hosts_spec buf name) s.
Proof. apply hosts_loop_run. lia. Qed.

(** ** Encoded names *)

Fixpoint labels (l : list Z) : list (list Z) :=
  match l with
  | [] => [[]]
  | c :: l =>
      if c =? 46 then [] :: labels l
      else match labels l with t :: ts => (c :: t) :: ts | [] => [[c]] end
  end.
Definition label_ok (l : list Z) : bool := (1 <=? Z.of_nat (length l)) && (Z.of_nat (length l) <=? 63).
Definition wire_labels (ls : list (list Z)) : list Z :=
  concat (map (fun l => Z.of_nat (length l) :: l) ls) ++ [0].

Lemma labels_cons l : exists t ts, labels l = t :: ts.
Proof. induction l as [|c l (t & ts & IH)]; simpl; [eauto|]. rewrite IH. destruct (c =? 46); eauto. Qed.

Lemma insert_mid {A} (pre : list A) (x y : A) post n :
  n = length pre -> <[n := y]> (pre ++ x :: post) = pre ++ y :: post.
Proof. intros ->. by rewrite insert_app_r_alt, Nat.sub_diag by lia. Qed.

(** What the loop leaves when it writes [w] over the start of [post]. *)
Definition encoded (ok : bool) (pre w post : list Z) : option (list Z * Z) :=
  if ok && (Z.of_nat (length w) <=? Z.of_nat (length post))
  then Some (pre ++ w ++ drop (length w) post, Z.of_nat (length pre) + Z.of_nat (length w)) else None.

Lemma encoded_false pre w post : encoded false pre w post = None.
Proof. done. Qed.
Lemma encoded_short ok pre w post :
  (length post < length w)%nat -> encoded ok pre w post = None.
Proof. intros H. unfold encoded. rewrite (proj2 (Z.leb_gt _ _)) by lia. by rewrite andb_false_r. Qed.
Lemma encoded_shift ok pre u w u' post :
  length u = length u' -> encoded ok (pre ++ u) w post = encoded ok pre (u ++ w) (u' ++ post).
Proof.
  intros Hu. unfold encoded. rewrite !length_app.
  replace (Z.of_nat (length u + length w) <=? Z.of_nat (length u' + length post))
    with (Z.of_nat (length w) <=? Z.of_nat (length post)).
  2:{ rewrite Hu. apply eq_bool_prop_intro. rewrite !Is_true_true, !Z.leb_le. lia. }
  destruct (ok && _); [|done]. f_equal. f_equal; [|lia].
  rewrite Hu, drop_app_ge, <- !app_assoc by lia. by replace (length u' + length w - length u')%nat with (length w) by lia.
Qed.

Lemma encoded_same ok pre w a a' b :
  length a = length a' -> (length a <= length w)%nat ->
  encoded ok pre w (a ++ b) = encoded ok pre w (a' ++ b).
Proof.
  intros H1 H2. unfold encoded. rewrite !length_app, H1, !drop_app_ge by lia. by rewrite H1.
Qed.

Lemma wire_labels_cons l ls : wire_labels (l :: ls) = (Z.of_nat (length l) :: l) ++ wire_labels ls.
Proof. unfold wire_labels. simpl. by rewrite <- app_assoc. Qed.

Lemma wire_labels_pos ls : (1 <= length (wire_labels ls))%nat.
Proof. unfold wire_labels. rewrite length_app. simpl. lia. Qed.

(** One round of the loop, by what it sees: the output so far is [pre], with a label of
    which [cur] is written behind the place [x] of its length. *)
Section rounds.
Variables (name pre post : list Z) (cap : Z).

Lemma encode_end x cur :
  label_ok cur = true -> cap = Z.of_nat (length (pre ++ x :: cur ++ post)) ->
  encode_loop [] (pre ++ x :: cur ++ post) cap (Z.of_nat (length (pre ++ x :: cur))) (Z.of_nat (length cur))
      (Z.of_nat (length pre)) =
    encoded true pre (wire_labels [cur]) (x :: cur ++ post).
Proof.
  intros Hok ->. assert (1 <= Z.of_nat (length cur) <= 63) as Hc by (unfold label_ok in Hok; blia).
  cbn [encode_loop]. rewrite (proj2 (Z.eqb_neq _ 0)) by lia.
  rewrite insert_mid by lia. unfold u8. rewrite Z.mod_small by lia.
  set (n := Z.of_nat (length cur)). change (?a :: cur ++ post) with ((a :: cur) ++ post).
  change (x :: cur ++ post) with ((x :: cur) ++ post).
  rewrite wire_labels_cons, <- (encoded_shift true pre (n :: cur) _ (x :: cur)) by done.
  rewrite !app_assoc, !length_app. cbn [length].
  destruct post as [|y post'].
  - rewrite (proj2 (Z.leb_le _ _)) by (simpl; lia). by rewrite encoded_short by (simpl; lia).
  - rewrite (proj2 (Z.leb_gt _ _)) by (simpl; lia). rewrite insert_mid by (rewrite length_app; simpl; lia).
    unfold encoded. cbn [length wire_labels concat map app]. rewrite (proj2 (Z.leb_le _ _)) by lia.
    cbn [andb]. rewrite !length_app. done.
Qed.

Lemma encode_first c lp :
  is_byte c -> c <> 46 -> cap = Z.of_nat (length (pre ++ post)) ->
  encode_loop (c :: name) (pre ++ post) cap (Z.of_nat (length pre)) 0 lp =
    match post with
    | x :: y :: post' => encode_loop name (pre ++ x :: [c] ++ post') cap (Z.of_nat (length (pre ++ x :: [c]))) 1
                           (Z.of_nat (length pre))
    | _ => None
    end.
Proof.
  intros Hc E ->. cbn [encode_loop]. cbn [Z.eqb andb]. rewrite (proj2 (Z.eqb_neq c 46)) by done.
  rewrite length_app. destruct post as [|x [|y post']].
  - by rewrite (proj2 (Z.leb_le _ _)) by (simpl; lia).
  - rewrite (proj2 (Z.leb_gt _ _)) by (simpl; lia). by rewrite (proj2 (Z.leb_le _ _)) by (simpl; lia).
  - rewrite !(proj2 (Z.leb_gt _ _)) by (simpl; lia). cbn [Z.add Z.ltb Z.compare].
    change (pre ++ x :: y :: post') with (pre ++ [x] ++ y :: post').
    rewrite app_assoc, insert_mid by (rewrite length_app; simpl; lia).
    unfold u8. rewrite Z.mod_small by (unfold is_byte in Hc; lia).
    rewrite <- app_assoc, length_app. simpl. f_equal. lia.
Qed.

Lemma encode_dot x cur :
  label_ok cur = true ->
  encode_loop (46 :: name) (pre ++ x :: cur ++ post) cap (Z.of_nat (length (pre ++ x :: cur)))
      (Z.of_nat (length cur)) (Z.of_nat (length pre)) =
    let pre' := pre ++ Z.of_nat (length cur) :: cur in
    encode_loop name (pre' ++ post) cap (Z.of_nat (length pre')) 0 (Z.of_nat (length pre)).
Proof.
  intros Hok. assert (1 <= Z.of_nat (length cur) <= 63) as Hc by (unfold label_ok in Hok; blia).
  cbn [encode_loop]. rewrite (proj2 (Z.eqb_neq (Z.of_nat (length cur)) 0)) by lia. cbn [andb orb Z.eqb Pos.eqb].
  rewrite (proj2 (Z.ltb_ge 63 _)), insert_mid by lia. unfold u8. rewrite Z.mod_small by lia.
  cbv zeta. rewrite <- app_assoc, !length_app. done.
Qed.

Lemma encode_char c x cur :
  is_byte c -> c <> 46 -> label_ok cur = true -> cap = Z.of_nat (length (pre ++ x :: cur ++ post)) ->
  encode_loop (c :: name) (pre ++ x :: cur ++ post) cap (Z.of_nat (length (pre ++ x :: cur)))
      (Z.of_nat (length cur)) (Z.of_nat (length pre)) =
    match post with
    | [] => None
    | y :: post' =>
        if label_ok (cur ++ [c]) then
          encode_loop name (pre ++ x :: (cur ++ [c]) ++ post') cap (Z.of_nat (length (pre ++ x :: cur ++ [c])))
            (Z.of_nat (length (cur ++ [c]))) (Z.of_nat (length pre))
        else None
    end.
Proof.
  intros Hc E Hok ->. assert (1 <= Z.of_nat (length cur) <= 63) as Hl by (unfold label_ok in Hok; blia).
  cbn [encode_loop]. rewrite (proj2 (Z.eqb_neq (Z.of_nat (length cur)) 0)), (proj2 (Z.eqb_neq c 46)) by lia.
  cbn [andb]. change (x :: cur ++ post) with ((x :: cur) ++ post). rewrite app_assoc, length_app.
  destruct post as [|y post']; [by rewrite (proj2 (Z.leb_le _ _)) by (simpl; lia)|].
  rewrite (proj2 (Z.leb_gt _ _)) by (simpl; lia). unfold label_ok. rewrite (length_app cur). cbn [length].
  rewrite (proj2 (Z.leb_le 1 _)) by lia. cbn [andb]. rewrite Z.ltb_antisym.
  replace (Z.of_nat (length cur + 1)) with (Z.of_nat (length cur) + 1) by lia.
  destruct (Z.of_nat (length cur) + 1 <=? 63); [|done]. cbn [negb].
  rewrite insert_mid by lia. unfold u8. rewrite Z.mod_small by (unfold is_byte in Hc; lia).
  rewrite <- !app_assoc, !length_app. simpl. rewrite length_app. simpl. f_equal. lia.
Qed.
End rounds.

Lemma encode_loop_run name :
  Forall is_byte name ->
  (forall pre post cap lp, cap = Z.of_nat (length (pre ++ post)) ->
     encode_loop name (pre ++ post) cap (Z.of_nat (length pre)) 0 lp =
       encoded (forallb label_ok (labels name)) pre (wire_labels (labels name)) post) /\
  (forall pre x cur post cap t ts, cap = Z.of_nat (length (pre ++ x :: cur ++ post)) ->
     labels name = t :: ts -> label_ok cur = true ->
     encode_loop name (pre ++ x :: cur ++ post) cap (Z.of_nat (length (pre ++ x :: cur))) (Z.of_nat (length cur))
         (Z.of_nat (length pre)) =
       encoded (forallb label_ok ((cur ++ t) :: ts)) pre (wire_labels ((cur ++ t) :: ts)) (x :: cur ++ post)).
Proof.
  induction name as [|c name IH]; intros Hb.
  { split; [done|]. intros pre x cur post cap t ts Hcap [= <- <-] Hok.
    rewrite encode_end, app_nil_r by done. cbn [forallb]. by rewrite Hok. }
  inversion_clear Hb as [|? ? Hc Hb']. destruct (IH Hb') as [IHA IHB]. clear IH.
  destruct (labels_cons name) as (t & ts & Et). cbn [labels]. rewrite Et. split.
  - intros pre post cap lp Hcap. destruct (c =? 46) eqn:E.
    { apply Z.eqb_eq in E as ->. cbn [encode_loop Z.eqb andb orb Pos.eqb]. by destruct (cap <=? _). }
    apply Z.eqb_neq in E. rewrite encode_first by done.
    assert (Hw : (2 < length (wire_labels ((c :: t) :: ts)))%nat).
    { rewrite wire_labels_cons, length_app. simpl. pose proof (wire_labels_pos ts). lia. }
    destruct post as [|x [|y post]]; [rewrite encoded_short by (simpl; lia); done..|].
    apply (IHB pre x [c]); try done. subst cap. by rewrite !length_app.
  - intros pre x cur post cap t' ts' Hcap Et' Hok. destruct (c =? 46) eqn:E.
    { apply Z.eqb_eq in E as ->. injection Et' as <- <-. rewrite encode_dot by done. cbv zeta.
      rewrite IHA by (subst cap; rewrite <- app_assoc, !length_app; simpl; rewrite !length_app; done).
      rewrite (encoded_shift _ _ _ _ (x :: cur)) by done.
      rewrite app_nil_r. cbn [forallb]. rewrite Hok, Et. cbn [andb]. rewrite (wire_labels_cons cur). reflexivity. }
    apply Z.eqb_neq in E. injection Et' as <- <-. rewrite encode_char by done.
    replace (cur ++ c :: t) with ((cur ++ [c]) ++ t) by by rewrite <- app_assoc.
    destruct post as [|y post].
    { rewrite encoded_short; [done|]. rewrite wire_labels_cons, app_nil_r, !length_app. simpl. rewrite !length_app. simpl.
      pose proof (wire_labels_pos ts). lia. }
    destruct (label_ok (cur ++ [c])) eqn:E2.
    + rewrite (IHB pre x (cur ++ [c]) post cap t ts); try done.
      2:{ subst cap. rewrite !length_app. simpl. rewrite !length_app. simpl. lia. }
      change (x :: (cur ++ [c]) ++ post) with ((x :: cur ++ [c]) ++ post).
      replace (x :: cur ++ y :: post) with ((x :: cur ++ [y]) ++ post) by (simpl; by rewrite <- app_assoc).
      apply encoded_same; [simpl; by rewrite !length_app|].
      rewrite wire_labels_cons, !length_app. simpl. rewrite !length_app. simpl. lia.
    + symmetry. replace (forallb _ _) with false; [done|]. symmetry. cbn [forallb].
      unfold label_ok in Hok, E2. unfold label_ok at 1. rewrite !length_app in *. simpl in *.
      destruct (Z.of_nat (length cur + 1 + length t) <=? 63) eqn:E3; [|by rewrite andb_false_r]. exfalso.
      apply andb_false_iff in E2 as [E2|E2]; blia.
Qed.

(** C26: a name is encoded exactly when its labels, the parts between dots, have 1 to 63
    bytes each and everything fits; the encoding is each label behind its length and a
    zero byte, two bytes longer than the name, and nothing behind it is written. *)
Theorem dns_encode_name_exact name out cap :
  Forall is_byte name -> cap = Z.of_nat (length out) ->
  dns_encode_name name out cap =
    if forallb label_ok (labels name) && (Z.of_nat (length name) + 2 <=? cap)
    then Some (wire_labels (labels name) ++ drop (length name + 2) out, Z.of_nat (length name) + 2) else None.
Proof.
  intros Hb ->. assert (Hw : length (wire_labels (labels name)) = (length name + 2)%nat).
  { clear Hb. induction name as [|c name IH]; [done|]. simpl. destruct (labels_cons name) as (t & ts & Et).
    rewrite Et in *. rewrite wire_labels_cons, length_app in IH. simpl in IH.
    destruct (c =? 46); rewrite !wire_labels_cons, !length_app; simpl; lia. }
  destruct name as [|c name]; [done|]. unfold dns_encode_name.
  pose proof (proj1 (encode_loop_run _ Hb) [] out _ 0 eq_refl) as E. simpl app in E.
  change (Z.of_nat (length (@nil Z))) with 0 in E. rewrite E. unfold encoded. rewrite Hw.
  replace (Z.of_nat (length (c :: name) + 2)) with (Z.of_nat (length (c :: name)) + 2) by lia. done.
Qed.

(** ** Reading a message *)

Lemma rd_msg_run msg i (s : net) :
  0 <= i < Z.of_nat (length msg) -> Forall is_byte msg -> exists b, rd_msg msg i s = Ret b s /\ is_byte b.
Proof.
  intros Hi Hb. unfold rd_msg. destruct (lookup_lt_is_Some_2 msg (Z.to_nat i)) as [b E]; [lia|].
  rewrite E. exists b. split; [done|]. by eapply Forall_lookup_1.
Qed.

Lemma wp_rd_msg msg i (s : net) Q :
  0 <= i < Z.of_nat (length msg) -> Forall is_byte msg -> (forall b, is_byte b -> Q b s) -> wp (rd_msg msg i) s Q.
Proof. intros Hi Hb HQ. destruct (rd_msg_run msg i s Hi Hb) as (b & E & H). eapply wp_intro; [exact E|auto]. Qed.

Lemma wp_rd_be16 msg i (s : net) Q :
  0 <= i -> i + 2 <= Z.of_nat (length msg) -> Forall is_byte msg -> (forall v, 0 <= v < 65536 -> Q v s) ->
  wp (rd_be16 msg i) s Q.
Proof.
  intros Hi Hl Hb HQ. unfold rd_be16. apply wp_bind, wp_rd_msg; [lia|done|]. intros a Ha.
  apply wp_bind, wp_rd_msg; [lia|done|]. intros b Hb'. apply wp_ret, HQ. unfold is_byte in *.
  rewrite shl, u16_small by lia. rewrite (lor_add 8) by lia. lia.
Qed.

Lemma wp_rd_be32 msg i (s : net) Q :
  0 <= i -> i + 4 <= Z.of_nat (length msg) -> Forall is_byte msg -> (forall v, Q v s) -> wp (rd_be32 msg i) s Q.
Proof.
  intros Hi Hl Hb HQ. unfold rd_be32. do 4 (apply wp_bind, wp_rd_msg; [lia|done|]; intros ? _). by apply wp_ret.
Qed.

Lemma wp_skip_loop fuel msg p (s : net) Q :
  0 <= p -> Forall is_byte msg -> Z.max 0 (Z.of_nat (length msg) - p) < Z.of_nat fuel ->
  Q None s -> (forall p', p < p' <= Z.of_nat (length msg) -> Q (Some p') s) ->
  wp (skip_loop fuel msg (Z.of_nat (length msg)) p) s Q.
Proof.
  intros Hp Hb Hf HN HS. revert p Hp Hf HS. induction fuel as [|f IH]; intros p Hp Hf HS; [lia|].
  cbn [skip_loop]. destruct (Z.of_nat (length msg) <=? p) eqn:E1; bools; [by apply wp_ret|].
  apply wp_bind, wp_rd_msg; [lia|done|]. intros n Hn. unfold is_byte in Hn.
  destruct (n =? 0); [apply wp_ret, HS; lia|].
  destruct (Z.land n 192 =? 192).
  { destruct (Z.of_nat (length msg) <=? p + 1) eqn:E2; bools; [by apply wp_ret|apply wp_ret, HS; lia]. }
  destruct (has n 192); [by apply wp_ret|].
  destruct (Z.of_nat (length msg) <? p + 1 + n) eqn:E3; bools; [by apply wp_ret|].
  apply IH; [lia|lia|]. intros p' Hp'. apply HS. lia.
Qed.

Lemma wp_skip_name msg p (s : net) Q :
  0 <= p -> Forall is_byte msg -> Q None s -> (forall p', p < p' <= Z.of_nat (length msg) -> Q (Some p') s) ->
  wp (dns_skip_name msg (Z.of_nat (length msg)) p) s Q.
Proof. intros Hp Hb HN HS. apply wp_skip_loop; try done. lia. Qed.

Lemma wp_questions qd msg p (s : net) Q :
  0 <= p -> Forall is_byte msg -> Q None s -> (forall p', p <= p' -> Q (Some p') s) ->
  wp (questions_loop qd msg (Z.of_nat (length msg)) p) s Q.
Proof.
  intros Hp Hb HN HS. revert p Hp HS. induction qd as [|n IH]; intros p Hp HS; cbn [questions_loop].
  - apply wp_ret, HS. lia.
  - apply wp_bind, wp_skip_name; [done|done|by apply wp_ret|]. intros p' Hp'. cbn beta iota.
    destruct (_ <? p' + 4); [by apply wp_ret|]. apply IH; [lia|]. intros q Hq. apply HS. lia.
Qed.

(** The state with an answer. *)
Definition answered (ip : Z) (s : net) : net := set_up (fun u => set_dns (set_answer ip (dns u)) u) s.

Lemma wp_answers an msg p (s : net) Q :
  0 <= p -> Forall is_byte msg -> (forall ip, Q 1 (answered ip s)) -> (forall r, r <> 1 -> Q r s) ->
  wp (answers_loop an msg (Z.of_nat (length msg)) p) s Q.
Proof.
  intros Hp Hb H1 H0. revert p Hp. induction an as [|n IH]; intros p Hp; cbn [answers_loop].
  - by apply wp_ret, H0.
  - apply wp_bind, wp_skip_name; [done|done|by apply wp_ret, H0|]. intros q Hq. cbn beta iota.
    destruct (_ <? q + 10) eqn:E; bools; [by apply wp_ret, H0|].
    do 3 (apply wp_bind, wp_rd_be16; [lia|lia|done|]; intros ? ?).
    destruct (_ <? _) eqn:E2; bools; [by apply wp_ret, H0|].
    destruct (_ && _) eqn:E3; [|apply IH; lia]. bools.
    apply wp_bind, wp_rd_be32; [lia|lia|done|]. intros ip. apply wp_bind. apply wp_modify, wp_ret, H1.
Qed.

(** C27: whatever bytes a datagram holds, the receiver of answers returns without reading
    outside of it, and changes nothing unless the datagram came from port 53, to the port
    and device of the outstanding question, with its identifier and the response bit; then
    it sets the result and nothing else. *)
Theorem dns_receive_safe dg s :
  Forall is_byte (dg_payload dg) -> Z.of_nat (length (dg_payload dg)) = dg_udp_len dg - sizeof_udp_hdr ->
  wp (dns_udp_receive dg) s (fun r s' =>
    (r <> 1 /\ s' = s) \/
    (r = 1 /\ (exists ip, s' = answered ip s) /\ dns_dev (dns (up s)) = Some (rx_dev (dg_rx dg)) /\
     dg_src_port dg = DNS_PORT /\ dg_dst_port dg = dns_query_port (dns (up s)) /\
     rd_be16 (dg_payload dg) 0 s = Ret (dns_query_id (dns (up s))) s /\
     exists flags, rd_be16 (dg_payload dg) 2 s = Ret flags s /\ has flags 32768 = true)).
Proof.
  intros Hb Hl. unfold dns_udp_receive. apply wp_bind, wp_gets.
  destruct (same_dev _ _) eqn:Ed; cbn [negb]; [|apply wp_ret; left; done].
  destruct (_ || _) eqn:Ep; [apply wp_ret; left; done|].
  destruct (dg_udp_len dg <? _) eqn:Eu; [apply wp_ret; left; done|]. rewrite <- Hl.
  unfold sizeof_udp_hdr, sizeof_dns_hdr in *. bools.
  assert (Hr : forall i, 0 <= i <= 10 -> exists v, rd_be16 (dg_payload dg) i s = Ret v s).
  { intros i Hi. assert (W : wp (rd_be16 (dg_payload dg) i) s (fun _ s' => s' = s)).
    { apply wp_rd_be16; [lia|lia|done|done]. }
    destruct (wp_inv _ _ _ W) as (v & s' & E & ->). eauto. }
  destruct (Hr 0 ltac:(lia)) as [id E0]. destruct (Hr 2 ltac:(lia)) as [fl E2].
  apply wp_bind. eapply wp_intro; [exact E0|]. apply wp_bind. eapply wp_intro; [exact E2|]. cbn beta.
  destruct (_ || _) eqn:Ei; [apply wp_ret; left; done|]. bools.
  do 2 (apply wp_bind, wp_rd_be16; [lia|lia|done|]; intros ? _).
  apply wp_bind, wp_questions; [lia|done|apply wp_ret; left; done|]. intros p Hp.
  apply wp_answers; [lia|done| |intros r Hr'; by left].
  intros ip. right. split; [done|]. split; [by exists ip|].
  assert (dns_dev (dns (up s)) = Some (rx_dev (dg_rx dg))).
  { unfold same_dev in Ed. destruct (dns_dev _); [|done]. by apply Nat.eqb_eq in Ed as ->. }
  split_and!; try done; [congruence|]. by exists fl.
Qed.

(** ** Well-formed answers *)

(** A name on the wire: labels up to a zero byte or up to a pointer to an earlier place. *)
Inductive wire_name : list Z -> Prop :=
| wn_root : wire_name [0]
| wn_pointer a b : 192 <= a < 256 -> is_byte b -> wire_name [a; b]
| wn_label l rest : 0 < Z.of_nat (length l) <= 63 -> wire_name rest -> wire_name (Z.of_nat (length l) :: l ++ rest).

Definition be16 (v : Z) : list Z := [v / 256; v `mod` 256].

Record rr := mkRr { rr_name : list Z; rr_type : Z; rr_class : Z; rr_ttl : list Z; rr_data : list Z }.
Definition rr_bytes (r : rr) : list Z :=
  rr_name r ++ be16 (rr_type r) ++ be16 (rr_class r) ++ rr_ttl r ++ be16 (Z.of_nat (length (rr_data r))) ++ rr_data r.
Definition rr_wf (r : rr) : Prop :=
  wire_name (rr_name r) /\ 0 <= rr_type r < 65536 /\ 0 <= rr_class r < 65536 /\ length (rr_ttl r) = 4%nat /\
  Z.of_nat (length (rr_data r)) < 65536 /\ Forall is_byte (rr_data r).

(** The address of a record, when it is an address record of the Internet class. *)
Definition rr_addr (r : rr) : option Z :=
  match rr_data r with
  | [a; b; c; d] => if (rr_type r =? 1) && (rr_class r =? 1) then Some (net_ipv4 a b c d) else None
  | _ => None
  end.

Lemma rd_msg_at pre b post (s : net) : rd_msg (pre ++ b :: post) (Z.of_nat (length pre)) s = Ret b s.
Proof. unfold rd_msg. by rewrite Nat2Z.id, list_lookup_middle. Qed.

Lemma rd_be16_at pre v post (s : net) :
  0 <= v < 65536 -> rd_be16 (pre ++ be16 v ++ post) (Z.of_nat (length pre)) s = Ret v s.
Proof.
  intros Hv. unfold rd_be16, be16. simpl app. rewrite (bind_ret _ _ _ _ _ (rd_msg_at _ _ _ _)).
  pose proof (rd_msg_at (pre ++ [v / 256]) (v `mod` 256) post s) as E.
  rewrite <- app_assoc, length_app in E. simpl in E. rewrite Nat2Z.inj_add in E. simpl in E.
  rewrite (bind_ret _ _ _ _ _ E). unfold ret. f_equal.
  rewrite shl by lia. rewrite u16_small by (change (2 ^ 8) with 256; zdiv).
  rewrite (lor_add 8) by (change (2 ^ 8) with 256; zdiv). change (2 ^ 8) with 256. zdiv.
Qed.

Lemma rd_be32_at pre a b c d post (s : net) :
  is_byte a -> is_byte b -> is_byte c ->
  rd_be32 (pre ++ a :: b :: c :: d :: post) (Z.of_nat (length pre)) s = Ret (net_ipv4 a b c d) s.
Proof.
  unfold is_byte. intros Ha Hb Hc. unfold rd_be32. rewrite (bind_ret _ _ _ _ _ (rd_msg_at _ _ _ _)).
  assert (H : forall l x post', rd_msg (pre ++ l ++ x :: post') (Z.of_nat (length pre) + Z.of_nat (length l)) s = Ret x s).
  { intros l x post'. rewrite app_assoc, <- Nat2Z.inj_add, <- length_app. apply rd_msg_at. }
  rewrite (bind_ret _ _ _ _ _ (H [a] b (c :: d :: post))), (bind_ret _ _ _ _ _ (H [a; b] c (d :: post))),
    (bind_ret _ _ _ _ _ (H [a; b; c] d post)).
  unfold ret, net_ipv4. by rewrite !shl, !u32_small by lia.
Qed.

Lemma has_192 n : 0 <= n <= 63 -> has n 192 = false /\ Z.land n 192 = 0.
Proof.
  intros H. assert (Z.land n 192 = 0) as E; [|by unfold has; rewrite E].
  apply Z.bits_inj'. intros i Hi. rewrite Z.land_spec, Z.bits_0.
  destruct (decide (i < 6)) as [Hl|Hg]; [|by rewrite (testbit_high n 6) by lia].
  change 192 with (3 * 2 ^ 6). by rewrite testbit_mul_pow2_low, andb_false_r by lia.
Qed.

Lemma land_192 n : 192 <= n < 256 -> Z.land n 192 = 192.
Proof.
  intros H. replace n with (Z.lor (3 * 2 ^ 6) (n - 192)) by (rewrite lor_add by lia; lia).
  rewrite Z.land_lor_distr_l. change (3 * 2 ^ 6) with 192 at 1. rewrite Z.land_diag.
  rewrite (proj2 (has_192 (n - 192) ltac:(lia))). apply Z.lor_0_r.
Qed.

Lemma skip_loop_wire n : wire_name n -> forall fuel pre post len (s : net),
  (length n < fuel)%nat -> len = Z.of_nat (length (pre ++ n ++ post)) ->
  skip_loop fuel (pre ++ n ++ post) len (Z.of_nat (length pre)) s =
    Ret (Some (Z.of_nat (length pre) + Z.of_nat (length n))) s.
Proof.
  induction 1 as [|a b Ha Hb|l rest Hl Hw IH]; intros fuel pre post len s Hf ->;
    (destruct fuel as [|f]; [lia|]); cbn [skip_loop app]; rewrite length_app;
    rewrite (proj2 (Z.leb_gt _ _)) by (simpl; lia); rewrite (bind_ret _ _ _ _ _ (rd_msg_at _ _ _ _)).
  - done.
  - rewrite (proj2 (Z.eqb_neq a 0)) by lia. rewrite land_192 by done. cbn [Z.eqb Pos.eqb].
    rewrite (proj2 (Z.leb_gt _ _)) by (simpl; lia). unfold ret. do 2 f_equal. simpl. lia.
  - destruct (has_192 (Z.of_nat (length l)) ltac:(lia)) as [H1 H2].
    rewrite (proj2 (Z.eqb_neq (Z.of_nat (length l)) 0)) by lia. rewrite H1, H2. cbn [Z.eqb].
    rewrite (proj2 (Z.ltb_ge _ _)) by (simpl; rewrite !length_app; lia).
    simpl in Hf. rewrite length_app in Hf.
    specialize (IH f (pre ++ Z.of_nat (length l) :: l) post _ s ltac:(lia) eq_refl).
    rewrite <- app_assoc in IH. simpl in IH. rewrite <- app_assoc.
    rewrite !length_app in *. simpl length in *. rewrite !length_app in *.
    replace (Z.of_nat (length pre) + 1 + Z.of_nat (length l)) with (Z.of_nat (length pre + S (length l))) by lia.
    rewrite IH. do 2 f_equal. lia.
Qed.

Lemma skip_name_wire n pre post (s : net) : wire_name n ->
  let msg := pre ++ n ++ post in
  dns_skip_name msg (Z.of_nat (length msg)) (Z.of_nat (length pre)) s =
    Ret (Some (Z.of_nat (length pre) + Z.of_nat (length n))) s.
Proof.
  intros Hw msg. apply skip_loop_wire; [done| |done]. unfold msg. rewrite !length_app. lia.
Qed.

(** A question: a name and the four bytes of its type and class. *)
Definition question_wf (q : list Z * list Z) : Prop := wire_name q.1 /\ length q.2 = 4%nat.
Definition question_bytes (q : list Z * list Z) : list Z := q.1 ++ q.2.

Lemma questions_run qs : Forall question_wf qs -> forall pre post (s : net),
  let msg := pre ++ concat (map question_bytes qs) ++ post in
  questions_loop (length qs) msg (Z.of_nat (length msg)) (Z.of_nat (length pre)) s =
    Ret (Some (Z.of_nat (length (pre ++ concat (map question_bytes qs))))) s.
Proof.
  induction 1 as [|[n t] qs [Hw Ht] _ IH]; intros pre post s; cbv zeta; cbn [questions_loop length map concat].
  { by rewrite app_nil_r. }
  cbn [fst snd] in *. change (question_bytes (n, t)) with (n ++ t).
  set (rest := concat (map question_bytes qs)) in *.
  replace (pre ++ ((n ++ t) ++ rest) ++ post) with (pre ++ n ++ t ++ rest ++ post) by by rewrite !app_assoc.
  pose proof (skip_name_wire n pre (t ++ rest ++ post) s Hw) as E. cbv zeta in E.
  rewrite (bind_ret _ _ _ _ _ E).
  rewrite (proj2 (Z.ltb_ge _ _)) by (rewrite !length_app; lia).
  specialize (IH (pre ++ n ++ t) post s). cbv zeta in IH. rewrite <- !app_assoc in IH.
  replace (Z.of_nat (length (pre ++ n ++ t))) with (Z.of_nat (length pre) + Z.of_nat (length n) + 4) in IH
    by (rewrite !length_app; lia).
  rewrite IH. by rewrite !app_assoc.
Qed.

Lemma answer_run n r pre post (s : net) : rr_wf r ->
  let msg := pre ++ rr_bytes r ++ post in
  answers_loop (S n) msg (Z.of_nat (length msg)) (Z.of_nat (length pre)) s =
    match rr_addr r with
    | Some ip => Ret 1 (answered ip s)
    | None => answers_loop n msg (Z.of_nat (length msg)) (Z.of_nat (length (pre ++ rr_bytes r))) s
    end.
Proof.
  destruct r as [nm ty cl ttl data]. intros (Hw & Hty & Hcl & Httl & Hd & Hb). cbn [rr_name rr_type rr_class rr_ttl rr_data] in *.
  cbv zeta. cbn [answers_loop]. unfold rr_bytes. cbn [rr_name rr_type rr_class rr_ttl rr_data].
  set (dl := Z.of_nat (length data)) in *. rewrite <- !app_assoc.
  set (tail := be16 ty ++ be16 cl ++ ttl ++ be16 dl ++ data ++ post).
  set (msg := pre ++ nm ++ tail).
  assert (Hm : Z.of_nat (length msg) =
    Z.of_nat (length pre) + Z.of_nat (length nm) + 10 + dl + Z.of_nat (length post)).
  { unfold msg, tail. rewrite !length_app. simpl. lia. }
  pose proof (skip_name_wire nm pre tail s Hw) as E. cbv zeta in E. fold msg in E. rewrite (bind_ret _ _ _ _ _ E).
  set (q := Z.of_nat (length pre) + Z.of_nat (length nm)) in *.
  rewrite (proj2 (Z.ltb_ge _ _)) by lia.
  assert (R : forall l v r, msg = (pre ++ nm ++ l) ++ be16 v ++ r -> 0 <= v < 65536 ->
    rd_be16 msg (q + Z.of_nat (length l)) s = Ret v s).
  { intros l v r -> Hv. replace (q + Z.of_nat (length l)) with (Z.of_nat (length (pre ++ nm ++ l)))
      by (rewrite !length_app; lia). by apply rd_be16_at. }
  pose proof (R [] ty (be16 cl ++ ttl ++ be16 dl ++ data ++ post)) as R0. simpl length in R0. rewrite Z.add_0_r in R0.
  rewrite (bind_ret _ _ _ _ _ (R0 ltac:(unfold msg, tail; by rewrite app_nil_r, <- app_assoc) Hty)).
  rewrite (bind_ret _ _ _ _ _ (R (be16 ty) cl (ttl ++ be16 dl ++ data ++ post)
    ltac:(unfold msg, tail; by rewrite <- !app_assoc) Hcl)).
  pose proof (R (be16 ty ++ be16 cl ++ ttl) dl (data ++ post)) as R8. rewrite !length_app, Httl in R8.
  rewrite (bind_ret _ _ _ _ _ (R8 ltac:(unfold msg, tail; by rewrite <- !app_assoc) ltac:(lia))).
  rewrite (proj2 (Z.ltb_ge _ _)) by lia. unfold rr_addr. cbn [rr_data rr_type rr_class].
  assert (Hnext : q + 10 + dl = Z.of_nat (length (pre ++ nm ++ be16 ty ++ be16 cl ++ ttl ++ be16 dl ++ data)))
    by (rewrite !length_app; simpl; lia).
  destruct ((ty =? 1) && (cl =? 1)) eqn:Etc; cbn [andb].
  2:{ rewrite Hnext. destruct data as [|? [|? [|? [|? [|]]]]]; done. }
  destruct (dl =? 4) eqn:Edl; bools.
  2:{ rewrite Hnext. destruct data as [|? [|? [|? [|? [|]]]]]; done. }
  destruct data as [|a [|b [|c [|d [|]]]]]; try (exfalso; unfold dl in Edl; simpl in Edl; lia).
  inversion_clear Hb as [|? ? Ha Hb1]. inversion_clear Hb1 as [|? ? Hb' Hb2]. inversion_clear Hb2 as [|? ? Hc _].
  assert (E10 : rd_be32 msg (q + 10) s = Ret (net_ipv4 a b c d) s).
  { replace msg with ((pre ++ nm ++ be16 ty ++ be16 cl ++ ttl ++ be16 dl) ++ a :: b :: c :: d :: post)
      by (unfold msg, tail; by rewrite <- !app_assoc).
    replace (q + 10) with (Z.of_nat (length (pre ++ nm ++ be16 ty ++ be16 cl ++ ttl ++ be16 dl)))
      by (rewrite !length_app; simpl; lia). by apply rd_be32_at. }
  by rewrite (bind_ret _ _ _ _ _ E10).
Qed.

Lemma answers_run rrs : Forall rr_wf rrs -> forall pre post (s : net),
  let msg := pre ++ concat (map rr_bytes rrs) ++ post in
  answers_loop (length rrs) msg (Z.of_nat (length msg)) (Z.of_nat (length pre)) s =
    match head (omap rr_addr rrs) with Some ip => Ret 1 (answered ip s) | None => Ret 0 s end.
Proof.
  induction 1 as [|r rrs Hr _ IH]; intros pre post s; cbv zeta; [done|]. cbn [length map concat].
  rewrite <- app_assoc. pose proof (answer_run (length rrs) r pre (concat (map rr_bytes rrs) ++ post) s Hr) as E.
  cbv zeta in E. rewrite E. simpl omap. destruct (rr_addr r); [done|].
  specialize (IH (pre ++ rr_bytes r) post s). cbv zeta in IH. rewrite <- !app_assoc in IH. exact IH.
Qed.

(** The bytes of a response. *)
Definition dns_response (id flags : Z) (qs : list (list Z * list Z)) (rrs : list rr) (counts post : list Z) : list Z :=
  (be16 id ++ be16 flags ++ be16 (Z.of_nat (length qs)) ++ be16 (Z.of_nat (length rrs)) ++ counts) ++
  concat (map question_bytes qs) ++ concat (map rr_bytes rrs) ++ post.

(** C25: the answer to the outstanding question is the first address record of the Internet
    class in the response, however many questions and other records come before it and
    whatever follows; a response without one changes nothing. *)
Theorem dns_receive_first_address dg s flags qs rrs counts post :
  let d := dns (up s) in
  Forall question_wf qs -> Forall rr_wf rrs ->
  Z.of_nat (length qs) < 65536 -> Z.of_nat (length rrs) < 65536 ->
  0 <= dns_query_id d < 65536 -> 0 <= flags < 65536 -> has flags 32768 = true -> length counts = 4%nat ->
  dg_payload dg = dns_response (dns_query_id d) flags qs rrs counts post ->
  dg_udp_len dg = Z.of_nat (length (dg_payload dg)) + sizeof_udp_hdr ->
  dns_dev d = Some (rx_dev (dg_rx dg)) -> dg_src_port dg = DNS_PORT -> dg_dst_port dg = dns_query_port d ->
  dns_udp_receive dg s =
    match head (omap rr_addr rrs) with Some ip => Ret 1 (answered ip s) | None => Ret 0 s end.
Proof.
  intros d Hq Hr Hnq Hnr Hid Hfl Hqr Hc Hp Hl Hdev Hsrc Hdst. unfold dns_udp_receive.
  rewrite (bind_ret (gets _) _ s _ _ eq_refl). fold d. rewrite Hdev. cbn [same_dev]. rewrite Nat.eqb_refl.
  rewrite Hsrc, Hdst, !Z.eqb_refl. cbn [negb orb].
  assert (Hlen : (12 <= length (dg_payload dg))%nat).
  { rewrite Hp. unfold dns_response. rewrite !length_app, Hc. simpl. lia. }
  unfold sizeof_udp_hdr, sizeof_dns_hdr in *. rewrite (proj2 (Z.ltb_ge _ _)) by lia.
  replace (dg_udp_len dg - 8) with (Z.of_nat (length (dg_payload dg))) by lia.
  set (msg := dg_payload dg) in *.
  assert (R : forall l v r, msg = l ++ be16 v ++ r -> 0 <= v < 65536 -> rd_be16 msg (Z.of_nat (length l)) s = Ret v s).
  { intros l v r -> Hv. by apply rd_be16_at. }
  unfold dns_response in Hp.
  set (Q := concat (map question_bytes qs)) in *. set (A := concat (map rr_bytes rrs)) in *.
  set (nq := Z.of_nat (length qs)) in *. set (na := Z.of_nat (length rrs)) in *. set (id := dns_query_id d) in *.
  rewrite (bind_ret _ _ _ _ _ (R [] id _ ltac:(rewrite Hp, <- !app_assoc; reflexivity) Hid)).
  rewrite (bind_ret _ _ _ _ _ (R (be16 id) flags _ ltac:(rewrite Hp, <- !app_assoc; reflexivity) Hfl)).
  rewrite Z.eqb_refl, Hqr. cbn [negb orb].
  rewrite (bind_ret _ _ _ _ _ (R (be16 id ++ be16 flags) nq _ ltac:(rewrite Hp, <- !app_assoc; reflexivity) ltac:(lia))).
  rewrite (bind_ret _ _ _ _ _ (R (be16 id ++ be16 flags ++ be16 nq) na _
    ltac:(rewrite Hp, <- !app_assoc; reflexivity) ltac:(lia))).
  unfold nq, na. rewrite !Nat2Z.id. fold nq na.
  set (hdr := be16 id ++ be16 flags ++ be16 nq ++ be16 na ++ counts) in *.
  assert (Hh : 12 = Z.of_nat (length hdr)) by (unfold hdr; rewrite !length_app, Hc; done).
  pose proof (questions_run qs Hq hdr (A ++ post) s) as E1. cbv zeta in E1. fold Q in E1. rewrite <- Hp, <- Hh in E1.
  rewrite (bind_ret _ _ _ _ _ E1).
  pose proof (answers_run rrs Hr (hdr ++ Q) post s) as E2. cbv zeta in E2. fold A in E2.
  rewrite <- app_assoc, <- Hp in E2. exact E2.
Qed.
