(* ===== verification/Http.v ===== *)
(** * HTTP responses (kernel/src/net/proto/http.c)

    The parser of a response, over the bytes of the buffer, and the two client calls.
    A read of the buffer outside of the bytes received is a fault. *)

From stdpp Require Import base gmap list.
From Stdlib Require Import ZArith Lia.
From S2P Require Import Prelude Wire NetState Net Tcp Dns.

Local Open Scope Z_scope.

Record net_http_response := mkHttp { h_status : Z; h_header_len : Z; h_body_len : Z }.

(** HTTP/ and Content-Length *)
Definition str_http : list Z := [72; 84; 84; 80; 47].
Definition str_content_length : list Z := [67; 111; 110; 116; 101; 110; 116; 45; 76; 101; 110; 103; 116; 104].

(** [while (p < end && f(buf[p])) p++] *)
Fixpoint scan (fuel : nat) (buf : list Z) (p end_ : Z) (f : Z -> bool) : M net Z :=
  match fuel with
  | O => diverge
  | S n =>
      if p <? end_ then
        let* c := rd_msg buf p in
        if f c then scan n buf (p + 1) end_ f else ret p
      else ret p
  end.

(** [buf[p..p+l)] compared with a text. *)
Fixpoint text_at (buf : list Z) (p : Z) (t : list Z) : M net bool :=
  match t with
  | [] => ret true
  | c :: t =>
      let* b := rd_msg buf p in
      if b =? c then text_at buf (p + 1) t else ret false
  end.
Definition header_name_eq (buf : list Z) (p len : Z) (name : list Z) : M net bool :=
  if len =? Z.of_nat (length name) then text_at buf p name else ret false.

(** The first empty line: the position behind it, 0 when there is none. *)
Fixpoint header_end_loop (n : nat) (buf : list Z) (i : Z) : M net Z :=
  match n with
  | O => ret 0
  | S n =>
      let* b := text_at buf i [13; 10; 13; 10] in
      if b then ret (i + 4) else header_end_loop n buf (i + 1)
  end.

(** [while (next + 1 < header_end && !(CR LF at next)) next++] *)
Fixpoint line_end_loop (fuel : nat) (buf : list Z) (next header_end : Z) : M net Z :=
  match fuel with
  | O => diverge
  | S n =>
      if next + 1 <? header_end then
        let* b := text_at buf next [13; 10] in
        if b then ret next else line_end_loop n buf (next + 1) header_end
      else ret next
  end.

(** The number of [Content-Length]. *)
Fixpoint number_loop (fuel : nat) (buf : list Z) (v next n : Z) : M net Z :=
  match fuel with
  | O => diverge
  | S f =>
      if v <? next then
        let* c := rd_msg buf v in
        if ascii_digit c then number_loop f buf (v + 1) next (u64 (u64 (n * 10) + u64 (c - 48))) else ret n
      else ret n
  end.

(** [while (line < header_end)]: the body length, when a header gives it. *)
Fixpoint headers_loop (fuel : nat) (buf : list Z) (line header_end : Z) : M net (option Z) :=
  match fuel with
  | O => diverge
  | S f =>
      if line <? header_end then
        let bound := S (length buf) in
        let* next := line_end_loop bound buf line header_end in
        let* colon := scan bound buf line next (fun c => negb (c =? 58)) in
        let* found := if colon <? next then header_name_eq buf line (colon - line) str_content_length else ret false in
        if found : bool then
          let* v := scan bound buf (colon + 1) next (fun c => c =? 32) in
          let* n := number_loop bound buf v next 0 in
          ret (Some n)
        else headers_loop f buf (next + 2) header_end
      else ret None
  end.

(** The result and [*out]; a result that is not 0 leaves the part that was filled. *)
Definition net_http_parse (buf : list Z) : M net (Z * option net_http_response) :=
  let len := Z.of_nat (length buf) in
  if len <? 12 then ret (- EINVAL, None)
  else
    let* magic := text_at buf 0 str_http in
    if negb magic then ret (- EINVAL, None)
    else
      let* pos := scan (S (length buf)) buf 0 len (fun c => negb (c =? 32)) in
      if len <=? pos + 4 then ret (- EINVAL, None)
      else
        let* sp := rd_msg buf pos in
        if negb (sp =? 32) then ret (- EINVAL, None)
        else
          let pos := pos + 1 in
          let* a := rd_msg buf pos in
          let* b := rd_msg buf (pos + 1) in
          let* c := rd_msg buf (pos + 2) in
          if negb (ascii_digit a) || negb (ascii_digit b) || negb (ascii_digit c) then ret (- EINVAL, None)
          else
            let status := u16 ((a - 48) * 100 + (b - 48) * 10 + (c - 48)) in
            let* header_end := header_end_loop (length buf - 3) buf 0 in
            if header_end =? 0 then ret (- ENOENT, Some (mkHttp status 0 0))
            else
              let* body := headers_loop (S (length buf)) buf 0 header_end in
              match body with
              | Some n => ret (0, Some (mkHttp status header_end n))
              | None => ret (0, Some (mkHttp status header_end (len - header_end)))
              end.

(** ** The client *)

Section client.
Variable driver_send : nat -> list Z -> M net Z.
Variable driver_poll : nat -> M net Z.
Variable udp_handler : Z -> net_udp_dgram -> M net Z.
Variable raw_receive : net_ipv4_rx_info -> M net unit.
Variable listen_handler : Z -> nat -> Z -> Z -> list Z -> Z -> Z -> Z -> M net (Z * Z).
Variable accept_handler : Z -> nat -> Z -> Z -> Z -> Z -> M net Z.
Variable drain : M net unit.
Context `{!HostsVfs}.

(** The end of both calls, from the request on: the result, [*done] and [*response]. *)
Definition http_get_ip (fuel : nat) (d : nat) (ip : Z) (host path : list Z) (buf len : Z) (response : bool)
    (timeout_ms : Z) : M net (Z * Z * option net_http_response) :=
  let* r := net_tcp_http_request driver_send driver_poll udp_handler raw_receive listen_handler accept_handler
              drain fuel (Some d) ip host path buf len timeout_ms in
  if negb (r.1 =? 0) then ret (r.1, r.2, None)
  else if response then
    let* text := buf_read buf 0 r.2 in
    let* p := net_http_parse text in
    ret (p.1, r.2, p.2)
  else ret (0, r.2, None).

Definition net_http_get (fuel : nat) (host path : list Z) (buf len : Z) (response : bool) (timeout_ms : Z)
    : M net (Z * Z * option net_http_response) :=
  if (buf =? 0) || (len =? 0) then ret (- EINVAL, 0, None)
  else
    let* r := net_dns_resolve driver_send driver_poll udp_handler
                (tcp_receiver_fn driver_send listen_handler accept_handler) raw_receive drain fuel host timeout_ms in
    if negb (r.1 =? 0) then ret (r.1, 0, None)
    else
      let* route := gets (fun s => net_route s r.2) in
      match route with
      | None => ret (- ENOENT, 0, None)
      | Some (d, _) => http_get_ip fuel d r.2 host path buf len response timeout_ms
      end.

Definition net_http_get_dev (fuel : nat) (dev : option nat) (host path : list Z) (buf len : Z) (response : bool)
    (timeout_ms : Z) : M net (Z * Z * option net_http_response) :=
  match dev with
  | None => ret (- EINVAL, 0, None)
  | Some d =>
      if (buf =? 0) || (len =? 0) then ret (- EINVAL, 0, None)
      else
        let* r := net_dns_resolve_dev driver_send driver_poll udp_handler
                    (tcp_receiver_fn driver_send listen_handler accept_handler) raw_receive drain fuel d host
                    timeout_ms in
        if negb (r.1 =? 0) then ret (r.1, 0, None)
        else http_get_ip fuel d r.2 host path buf len response timeout_ms
  end.
End client.
