(* ===== verification/DhcpProps.v ===== *)
(** * What the DHCP client and the HTTP parser do (dhcp.c, http.c)

    Replies and responses come from the network: neither reader leaves the bytes it was
    given, whatever they are.  The options of a well-formed reply are all taken, the last
    of each kind winning. *)

From stdpp Require Import base gmap list.
From Stdlib Require Import ZArith Lia.
From S2P Require Import Prelude Wire WireProps NetState Net Tcp Dns DnsProps Dhcp Http.

Local Open Scope Z_scope.

(** ** Replies *)

Lemma wp_reply_option code len pkt v r (s : net) Q :
  0 <= v -> v + len <= Z.of_nat (length pkt) -> Forall is_byte pkt -> (forall r', Q r' s) ->
  wp (reply_option code len pkt v r) s Q.
Proof.
  intros Hv Hl Hb HQ. unfold reply_option.
  repeat match goal with
  | |- wp (if ?b then _ else _) _ _ => let E := fresh "E" in destruct b eqn:E; bools
  end; try by apply wp_ret.
  - apply wp_bind, wp_rd_msg; [lia|done|]. intros t _. by apply wp_ret.
  - apply wp_bind, wp_rd_be32; [lia|lia|done|]. intros x. by apply wp_ret.
  - apply wp_bind, wp_rd_be32; [lia|lia|done|]. intros x. by apply wp_ret.
  - apply wp_bind, wp_rd_be32; [lia|lia|done|]. intros x. by apply wp_ret.
  - apply wp_bind, wp_rd_be32; [lia|lia|done|]. intros x. by apply wp_ret.
Qed.

Lemma wp_options_loop fuel pkt opt_len pos r (s : net) Q :
  0 <= pos -> Z.max 0 (opt_len - pos) < Z.of_nat fuel -> Z.of_nat (length pkt) = dhcp_fixed + opt_len ->
  Forall is_byte pkt -> (forall r', Q r' s) -> wp (options_loop fuel pkt opt_len pos r) s Q.
Proof.
  intros Hp Hf Hl Hb HQ. revert pos r Hp Hf. unfold dhcp_fixed in *.
  induction fuel as [|f IH]; intros pos r Hp Hf; [lia|]. cbn [options_loop].
  destruct (pos <? opt_len) eqn:E; bools; [|by apply wp_ret]. unfold dhcp_fixed.
  apply wp_bind, wp_rd_msg; [lia|done|]. intros code Hc.
  destruct (code =? 0); [apply IH; lia|]. destruct (code =? 255); [by apply wp_ret|].
  destruct (opt_len <=? pos + 1) eqn:E2; bools; [by apply wp_ret|].
  apply wp_bind, wp_rd_msg; [lia|done|]. intros len Hlen. unfold is_byte in Hlen.
  destruct (opt_len <? pos + 1 + 1 + len) eqn:E3; bools; [by apply wp_ret|].
  apply wp_bind, wp_reply_option; [lia|lia|done|]. intros r'. apply IH; lia.
Qed.

(** whatever bytes a datagram holds, the DHCP receiver returns without reading outside
    of it, and leaves the state alone unless the datagram is an offer or an acknowledgement
    from a server's port with the client's transaction number. *)
Theorem dhcp_receive_safe dg s x :
  Forall is_byte (dg_payload dg) -> Z.of_nat (length (dg_payload dg)) = dg_udp_len dg - sizeof_udp_hdr ->
  devs s !! rx_dev (dg_rx dg) = Some x ->
  wp (dhcp_udp_receive dg) s (fun r s' =>
    (r = 0 /\ s' = s) \/
    (r = 1 /\ dg_src_port dg = DHCP_SERVER_PORT /\ dg_dst_port dg = DHCP_CLIENT_PORT /\
     rd_be32 (dg_payload dg) 4 s = Ret (dhcp_xid (dhcp (up s))) s /\
     exists ip rep, (r_type rep = DHCP_OFFER \/ r_type rep = DHCP_ACK) /\
       s' = set_up (set_dhcp (set_reply (dhcp_xid (dhcp (up s))) ip rep)) s)).
Proof.
  intros Hb Hl Hx. unfold dhcp_udp_receive.
  destruct (dg_udp_len dg <? _) eqn:Eu; [apply wp_ret; by left|].
  destruct (_ || _) eqn:Ep; [apply wp_ret; by left|]. unfold sizeof_udp_hdr, sizeof_dhcp_pkt in *. bools.
  apply wp_bind. unfold get_dev. eapply wp_intro; [by rewrite Hx|]. apply wp_bind, wp_gets.
  rewrite <- Hl. destruct (_ <? dhcp_fixed) eqn:Ef; [apply wp_ret; by left|].
  unfold dhcp_fixed in Ef. bools.
  apply wp_bind, wp_rd_msg; [lia|done|]. intros op _.
  assert (W : wp (rd_be32 (dg_payload dg) 4) s (fun _ s' => s' = s)) by (apply wp_rd_be32; [lia|lia|done|done]).
  destruct (wp_inv _ _ _ W) as (xid & s' & E4 & ->).
  apply wp_bind. eapply wp_intro; [exact E4|].
  apply wp_bind, wp_rd_be32; [lia|lia|done|]. intros yi.
  apply wp_bind, wp_rd_be32; [lia|lia|done|]. intros magic. cbn beta.
  destruct (_ || _) eqn:Em; [apply wp_ret; by left|].
  apply wp_bind. apply wp_options_loop; [lia|lia|unfold dhcp_fixed; lia|done|]. intros rep.
  destruct (_ && _) eqn:Et; [apply wp_ret; by left|]. apply wp_bind, wp_modify, wp_ret. right.
  bools. split_and!; try done; [congruence|]. exists yi, rep. split; [|done].
  apply andb_false_iff in Et as [Et|Et]; bools; auto.
Qed.

(** *** Well-formed options *)

Definition option_wf (o : Z * list Z) : Prop :=
  o.1 <> 0 /\ o.1 <> 255 /\ is_byte o.1 /\ Z.of_nat (length o.2) < 256 /\ Forall is_byte o.2.
Definition option_bytes (o : Z * list Z) : list Z := o.1 :: Z.of_nat (length o.2) :: o.2.

Definition value32 (v : list Z) : Z :=
  match v with a :: b :: c :: d :: _ => net_ipv4 a b c d | _ => 0 end.
(** What an option says. *)
Definition apply_option (r : dhcp_reply) (o : Z * list Z) : dhcp_reply :=
  let long := (4 <=? Z.of_nat (length o.2)) in
  if (o.1 =? 53) && (1 <=? Z.of_nat (length o.2))
  then mkReply (hd 0 o.2) (r_server r) (r_mask r) (r_gateway r) (r_dns r)
  else if (o.1 =? 54) && long then mkReply (r_type r) (value32 o.2) (r_mask r) (r_gateway r) (r_dns r)
  else if (o.1 =? 1) && long then mkReply (r_type r) (r_server r) (value32 o.2) (r_gateway r) (r_dns r)
  else if (o.1 =? 3) && long then mkReply (r_type r) (r_server r) (r_mask r) (value32 o.2) (r_dns r)
  else if (o.1 =? 6) && long then mkReply (r_type r) (r_server r) (r_mask r) (r_gateway r) (value32 o.2)
  else r.

Lemma reply_option_run pre o post r (s : net) :
  option_wf o ->
  reply_option o.1 (Z.of_nat (length o.2)) (pre ++ o.2 ++ post) (Z.of_nat (length pre)) r s = Ret (apply_option r o) s.
Proof.
  destruct o as [code v]. intros (_ & _ & _ & _ & Hb). cbn [fst snd] in *. unfold reply_option, apply_option. cbn [fst snd].
  assert (H4 : 4 <= Z.of_nat (length v) ->
    rd_be32 (pre ++ v ++ post) (Z.of_nat (length pre)) s = Ret (value32 v) s).
  { intros Hl. destruct v as [|a [|b [|c [|d v]]]]; try (simpl in Hl; lia).
    inversion_clear Hb as [|? ? Ha Hb1]. inversion_clear Hb1 as [|? ? Hb' Hb2]. inversion_clear Hb2 as [|? ? Hc _].
    by apply rd_be32_at. }
  destruct ((code =? 53) && _) eqn:E.
  { bools. destruct v as [|t v]; [simpl in *; lia|]. cbn [app]. by rewrite (bind_ret _ _ _ _ _ (rd_msg_at _ _ _ _)). }
  repeat match goal with
  | |- (if ?b then _ else _) _ = _ =>
      let F := fresh "F" in destruct b eqn:F; [bools; by rewrite (bind_ret _ _ _ _ _ (H4 ltac:(lia)))|]
  end. done.
Qed.

Lemma options_loop_run os : Forall option_wf os -> forall fuel pre post opt_len r (s : net),
  (length pre >= Z.to_nat dhcp_fixed)%nat ->
  opt_len = Z.of_nat (length (pre ++ concat (map option_bytes os) ++ 255 :: post)) - dhcp_fixed ->
  (length os < fuel)%nat ->
  options_loop fuel (pre ++ concat (map option_bytes os) ++ 255 :: post) opt_len
      (Z.of_nat (length pre) - dhcp_fixed) r s =
    Ret (foldl apply_option r os) s.
Proof.
  unfold dhcp_fixed.
  induction 1 as [|o os Ho _ IH]; intros fuel pre post opt_len r s Hpre -> Hf;
    (destruct fuel as [|f]; [simpl in Hf; lia|]); cbn [options_loop map concat]; unfold dhcp_fixed.
  - change ([] ++ 255 :: post) with (255 :: post). rewrite (proj2 (Z.ltb_lt _ _)) by (rewrite length_app; simpl; lia).
    replace (240 + (Z.of_nat (length pre) - 240)) with (Z.of_nat (length pre)) by lia.
    by rewrite (bind_ret _ _ _ _ _ (rd_msg_at _ _ _ _)).
  - pose proof Ho as (H0 & H255 & _ & Hlen & _). destruct o as [code v]. cbn [fst snd] in *.
    change (option_bytes (code, v)) with (code :: Z.of_nat (length v) :: v).
    set (rest := concat (map option_bytes os) ++ 255 :: post) in *.
    rewrite <- app_assoc. cbn [app]. fold rest.
    set (pkt := pre ++ code :: Z.of_nat (length v) :: v ++ rest).
    assert (Hl : Z.of_nat (length pkt) = Z.of_nat (length pre) + 2 + Z.of_nat (length v) + Z.of_nat (length rest)).
    { unfold pkt. rewrite length_app. simpl. rewrite length_app. lia. }
    assert (Hrest : (1 <= length rest)%nat) by (unfold rest; rewrite length_app; simpl; lia).
    rewrite (proj2 (Z.ltb_lt _ _)) by lia.
    replace (240 + (Z.of_nat (length pre) - 240)) with (Z.of_nat (length pre)) by lia.
    unfold pkt at 1. rewrite (bind_ret _ _ _ _ _ (rd_msg_at _ _ _ _)).
    rewrite (proj2 (Z.eqb_neq code 0)), (proj2 (Z.eqb_neq code 255)) by done.
    rewrite (proj2 (Z.leb_gt _ _)) by lia.
    pose proof (rd_msg_at (pre ++ [code]) (Z.of_nat (length v)) (v ++ rest) s) as E1.
    rewrite <- app_assoc in E1. simpl app in E1. fold pkt in E1. rewrite length_app in E1. simpl length in E1.
    replace (240 + (Z.of_nat (length pre) - 240 + 1)) with (Z.of_nat (length pre + 1)) by lia.
    rewrite (bind_ret _ _ _ _ _ E1). rewrite (proj2 (Z.ltb_ge _ _)) by lia.
    pose proof (reply_option_run (pre ++ [code; Z.of_nat (length v)]) (code, v) rest r s Ho) as E2. cbn [fst snd] in E2.
    rewrite <- app_assoc in E2. simpl app in E2. fold pkt in E2. rewrite length_app in E2. simpl length in E2.
    replace (240 + (Z.of_nat (length pre) - 240 + 1 + 1)) with (Z.of_nat (length pre + 2)) by lia.
    rewrite (bind_ret _ _ _ _ _ E2).
    specialize (IH f (pre ++ code :: Z.of_nat (length v) :: v) post _ (apply_option r (code, v)) s
      ltac:(rewrite length_app; lia) eq_refl ltac:(simpl in Hf; lia)). fold rest in IH.
    rewrite <- app_assoc in IH. simpl app in IH. fold pkt in IH.
    rewrite (length_app pre (code :: _)) in IH. simpl length in IH.
    replace (Z.of_nat (length pre) - 240 + 1 + 1 + Z.of_nat (length v))
      with (Z.of_nat (length pre + S (S (length v))) - 240) by lia. exact IH.
Qed.

(** The fixed part of a reply: [op], hardware, hops, [xid], [secs] and [flags], [ciaddr],
    [yiaddr], two more addresses, [chaddr] with [mac] in front, names, [magic]. *)
Definition reply_fixed (xid ip : Z) (mac secs ci other pad names : list Z) : list Z :=
  [2; 1; 6; 0] ++ st32 (htonl xid) ++ secs ++ ci ++ st32 (htonl ip) ++ other ++ (mac ++ pad) ++ names ++
  st32 (htonl DHCP_MAGIC).

Lemma rd_be32_htonl pre v post (s : net) :
  rd_be32 (pre ++ st32 (htonl v) ++ post) (Z.of_nat (length pre)) s = Ret (u32 v) s.
Proof.
  destruct (htonl_bytes v) as (a & b & c & d & E & Eu & Ha & Hb & Hc & Hd). rewrite E. simpl app.
  rewrite rd_be32_at by done. unfold is_byte in *. rewrite Eu. unfold ret, net_ipv4, digits. f_equal.
  rewrite !shl by lia.
  replace (Z.lor (a * 2 ^ 24) (b * 2 ^ 16)) with ((a * 256 + b) * 2 ^ 16)
    by (replace (a * 2 ^ 24) with (a * 2 ^ 8 * 2 ^ 16) by lia;
        rewrite <- !shl, <- Z.shiftl_lor, !shl by lia; rewrite lor_add by lia; lia).
  replace (Z.lor ((a * 256 + b) * 2 ^ 16) (c * 2 ^ 8)) with (((a * 256 + b) * 256 + c) * 2 ^ 8)
    by (replace ((a * 256 + b) * 2 ^ 16) with ((a * 256 + b) * 2 ^ 8 * 2 ^ 8) by lia;
        rewrite <- (shl ((a * 256 + b) * 2 ^ 8) 8), <- (shl c 8), <- Z.shiftl_lor, shl by lia;
        rewrite lor_add by lia; lia).
  rewrite lor_add by lia. lia.
Qed.

Section fixed.
Context (xid ip : Z) (mc secs ci other pad names opts : list Z).
Context (H1 : length secs = 4%nat) (H2 : length ci = 4%nat) (H3 : length other = 8%nat) (H4 : length mc = 6%nat).
Context (H5 : length pad = 10%nat) (H6 : length names = 192%nat) (Hx : 0 <= xid < 2 ^ 32) (Hi : 0 <= ip < 2 ^ 32).
Let pkt : list Z := reply_fixed xid ip mc secs ci other pad names ++ opts.

Lemma reply_fixed_length : length (reply_fixed xid ip mc secs ci other pad names) = 240%nat.
Proof. unfold reply_fixed. by rewrite !length_app, H1, H2, H3, H4, H5, H6. Qed.

(** The members the receiver looks at. *)
Lemma reply_fixed_reads (s : net) :
  rd_msg pkt 0 s = Ret 2 s /\ rd_be32 pkt 4 s = Ret xid s /\ rd_be32 pkt 16 s = Ret ip s /\
  rd_be32 pkt 236 s = Ret DHCP_MAGIC s /\ take 6 (drop 28 pkt) = mc.
Proof.
  assert (R : forall l v r, pkt = l ++ st32 (htonl v) ++ r -> rd_be32 pkt (Z.of_nat (length l)) s = Ret (u32 v) s).
  { intros l v r ->. apply rd_be32_htonl. }
  set (xb := st32 (htonl xid)) in *. set (ib := st32 (htonl ip)) in *.
  split_and!.
  - unfold pkt, reply_fixed. apply (rd_msg_at []).
  - pose proof (R [2; 1; 6; 0] xid (secs ++ ci ++ ib ++ other ++ (mc ++ pad) ++ names ++ st32 (htonl DHCP_MAGIC) ++ opts)) as E.
    rewrite u32_small in E by done. apply E. unfold pkt, reply_fixed. by rewrite <- !app_assoc.
  - pose proof (R ([2; 1; 6; 0] ++ xb ++ secs ++ ci) ip (other ++ (mc ++ pad) ++ names ++ st32 (htonl DHCP_MAGIC) ++ opts)) as E.
    rewrite !length_app, H1, H2, u32_small in E by done. apply E. unfold pkt, reply_fixed. by rewrite <- !app_assoc.
  - pose proof (R ([2; 1; 6; 0] ++ xb ++ secs ++ ci ++ ib ++ other ++ (mc ++ pad) ++ names) DHCP_MAGIC opts) as E.
    rewrite !length_app, H1, H2, H3, H4, H5, H6 in E. apply E. unfold pkt, reply_fixed. by rewrite <- !app_assoc.
  - replace pkt with (([2; 1; 6; 0] ++ xb ++ secs ++ ci ++ ib ++ other) ++ mc ++ pad ++ names ++
      st32 (htonl DHCP_MAGIC) ++ opts) by (unfold pkt, reply_fixed; by rewrite <- !app_assoc).
    rewrite drop_app_length' by (rewrite !length_app, H1, H2, H3; done). by rewrite take_app_length'.
Qed.
End fixed.

(** C29: an offer or acknowledgement for this client is taken as a whole: the address from
    its fixed part, and of each kind of option, however many there are and in whatever
    order, the value of the last one. *)
Theorem dhcp_reply_taken dg s x ip os secs ci other pad names post :
  let st := dhcp (up s) in
  let rep := foldl apply_option (mkReply 0 0 0 0 0) os in
  Forall option_wf os -> r_type rep = DHCP_OFFER \/ r_type rep = DHCP_ACK ->
  length secs = 4%nat -> length ci = 4%nat -> length other = 8%nat -> length (mac x) = 6%nat ->
  length pad = 10%nat -> length names = 192%nat ->
  0 <= dhcp_xid st < 2 ^ 32 -> 0 <= ip < 2 ^ 32 ->
  dg_payload dg = reply_fixed (dhcp_xid st) ip (mac x) secs ci other pad names ++
                  concat (map option_bytes os) ++ 255 :: post ->
  dg_udp_len dg = Z.of_nat (length (dg_payload dg)) + sizeof_udp_hdr ->
  devs s !! rx_dev (dg_rx dg) = Some x ->
  dg_src_port dg = DHCP_SERVER_PORT -> dg_dst_port dg = DHCP_CLIENT_PORT ->
  dhcp_udp_receive dg s = Ret 1 (set_up (set_dhcp (set_reply (dhcp_xid st) ip rep)) s).
Proof.
  intros st rep Hos Hty H1 H2 H3 H4 H5 H6 Hxid Hip Hp Hu Hx Hs Hd. unfold dhcp_udp_receive.
  set (opts := concat (map option_bytes os) ++ 255 :: post) in *.
  pose proof (reply_fixed_length (dhcp_xid st) ip _ _ _ _ _ _ H1 H2 H3 H4 H5 H6) as Hfx.
  destruct (reply_fixed_reads (dhcp_xid st) ip (mac x) secs ci other pad names opts H1 H2 H3 H4 H5 H6 Hxid Hip s)
    as (E0 & E4 & E16 & E236 & Emac). rewrite <- Hp in E0, E4, E16, E236, Emac.
  set (fx := reply_fixed _ _ _ _ _ _ _ _) in *. set (pkt := dg_payload dg) in *.
  assert (Hpl : length pkt = (240 + length opts)%nat) by (rewrite Hp, length_app, Hfx; done).
  unfold sizeof_udp_hdr, sizeof_dhcp_pkt, dhcp_fixed in *. rewrite Hs, Hd, !Z.eqb_refl. cbn [negb orb].
  rewrite (proj2 (Z.ltb_ge (dg_udp_len dg) _)) by lia.
  rewrite (bind_ret _ _ s x s) by (unfold get_dev; by rewrite Hx).
  rewrite (bind_ret (gets _) _ s _ _ eq_refl). replace (dg_udp_len dg - 8) with (Z.of_nat (length pkt)) by lia.
  rewrite (proj2 (Z.ltb_ge (Z.of_nat (length pkt)) _)) by lia.
  rewrite (bind_ret _ _ _ _ _ E0), (bind_ret _ _ _ _ _ E4), (bind_ret _ _ _ _ _ E16), (bind_ret _ _ _ _ _ E236).
  fold st. rewrite !Z.eqb_refl, bool_decide_true by done. cbn [negb orb].
  assert (Eo : options_loop (S (Z.to_nat (Z.of_nat (length pkt) - 240))) pkt (Z.of_nat (length pkt) - 240) 0
    (mkReply 0 0 0 0 0) s = Ret rep s).
  { rewrite Hp. pose proof (options_loop_run os Hos (S (Z.to_nat (Z.of_nat (length (fx ++ opts)) - 240))) fx post _
      (mkReply 0 0 0 0 0) s ltac:(rewrite Hfx; unfold dhcp_fixed; lia) eq_refl) as E.
    fold opts in E. rewrite Hfx in E. apply E. rewrite length_app, Hfx. unfold opts. rewrite length_app. simpl.
    assert (length os <= length (concat (map option_bytes os)))%nat; [|lia].
    clear. induction os as [|o os IH]; simpl; [lia|]. rewrite length_app. lia. }
  rewrite (bind_ret _ _ _ _ _ Eo).
  replace (negb (r_type rep =? DHCP_OFFER) && negb (r_type rep =? DHCP_ACK)) with false
    by (destruct Hty as [-> | ->]; done).
  done.
Qed.

(** ** HTTP responses *)

Section http.
Context (buf : list Z) (Hbytes : Forall is_byte buf) (s : net).
Let len : Z := Z.of_nat (length buf).

Lemma wp_scan fuel p end_ f Q :
  0 <= p <= end_ -> end_ <= len -> end_ - p < Z.of_nat fuel ->
  (forall p', p <= p' <= end_ -> Q p' s) -> wp (scan fuel buf p end_ f) s Q.
Proof.
  intros Hp He Hf. revert p Hp Hf. induction fuel as [|n IH]; intros p Hp Hf HQ; [lia|]. cbn [scan].
  destruct (p <? end_) eqn:E; bools; [|apply wp_ret, HQ; lia].
  apply wp_bind, wp_rd_msg; [fold len; lia|done|]. intros c _. destruct (f c); [|apply wp_ret, HQ; lia].
  apply IH; [lia|lia|]. intros p' Hp'. apply HQ. lia.
Qed.

Lemma wp_text_at t p Q :
  0 <= p -> p + Z.of_nat (length t) <= len ->
  (forall b, text_at buf p t s = Ret b s -> Q b s) -> wp (text_at buf p t) s Q.
Proof.
  intros Hp Hl HQ. assert (exists b, text_at buf p t s = Ret b s) as [b E].
  { clear HQ. revert p Hp Hl. induction t as [|c t IH]; intros p Hp Hl; simpl in *; [by exists true|].
    destruct (rd_msg_run buf p s) as (x & E & _); [fold len; lia|done|].
    rewrite (bind_ret _ _ _ _ _ E). destruct (x =? c); [apply IH; lia|by exists false]. }
  eapply wp_intro; [exact E|auto].
Qed.

Lemma wp_header_end n i Q :
  0 <= i -> i + Z.of_nat n + 3 <= len -> Q 0 s ->
  (forall e, i + 4 <= e <= len -> text_at buf (e - 4) [13; 10; 13; 10] s = Ret true s -> Q e s) ->
  wp (header_end_loop n buf i) s Q.
Proof.
  intros Hi Hl H0 HQ. revert i Hi Hl HQ. induction n as [|n IH]; intros i Hi Hl HQ; cbn [header_end_loop].
  - by apply wp_ret.
  - apply wp_bind, wp_text_at; [lia|simpl; lia|]. intros b E. destruct b.
    + apply wp_ret, HQ; [lia|]. by replace (i + 4 - 4) with i by lia.
    + apply IH; [lia|lia|]. intros e He. apply HQ. lia.
Qed.

Lemma wp_line_end fuel next e Q :
  0 <= next <= e -> e <= len -> e - next < Z.of_nat fuel -> (forall p, next <= p <= e -> Q p s) ->
  wp (line_end_loop fuel buf next e) s Q.
Proof.
  intros Hp He Hf. revert next Hp Hf. induction fuel as [|n IH]; intros p Hp Hf HQ; [lia|]. cbn [line_end_loop].
  destruct (p + 1 <? e) eqn:E; bools; [|apply wp_ret, HQ; lia].
  apply wp_bind, wp_text_at; [lia|simpl; lia|]. intros b _. destruct b; [apply wp_ret, HQ; lia|].
  apply IH; [lia|lia|]. intros p' Hp'. apply HQ. lia.
Qed.

Lemma wp_number fuel v next n Q :
  0 <= v -> next <= len -> Z.max 0 (next - v) < Z.of_nat fuel -> (forall k, Q k s) ->
  wp (number_loop fuel buf v next n) s Q.
Proof.
  intros Hv Hn Hf HQ. revert v n Hv Hf. induction fuel as [|f IH]; intros v n Hv Hf; [lia|]. cbn [number_loop].
  destruct (v <? next) eqn:E; bools; [|by apply wp_ret].
  apply wp_bind, wp_rd_msg; [fold len; lia|done|]. intros c _. destruct (ascii_digit c); [apply IH; lia|by apply wp_ret].
Qed.

Lemma wp_headers fuel line e Q :
  0 <= line -> e <= len -> Z.max 0 (e - line) < Z.of_nat fuel -> (forall r, Q r s) ->
  wp (headers_loop fuel buf line e) s Q.
Proof.
  intros Hl He Hf HQ. revert line Hl Hf. induction fuel as [|f IH]; intros line Hl Hf; [lia|]. cbn [headers_loop].
  destruct (line <? e) eqn:E; bools; [|by apply wp_ret].
  apply wp_bind, wp_line_end; [lia|lia|unfold len in *; lia|]. intros next Hn.
  apply wp_bind, wp_scan; [lia|lia|unfold len in *; lia|]. intros colon Hc.
  assert (Hskip : wp (headers_loop f buf (next + 2) e) s Q) by (apply IH; lia).
  apply wp_bind. destruct (colon <? next) eqn:Ec; bools; [|by apply wp_ret]. unfold header_name_eq.
  destruct (colon - line =? _) eqn:En; bools; [|by apply wp_ret].
  apply wp_text_at; [lia|lia|]. intros b _. cbn beta. destruct b; [|done].
  apply wp_bind, wp_scan; [lia|lia|unfold len in *; lia|]. intros v Hv.
  apply wp_bind, wp_number; [lia|lia|unfold len in *; lia|]. intros n. apply wp_ret, HQ.
Qed.

(** the parser of responses returns for every buffer without reading outside of it;
    when it reports success the status has at most three digits and the header ends within
    the buffer, right behind an empty line. *)
Theorem http_parse_safe :
  wp (net_http_parse buf) s (fun r s' => s' = s /\
    (r.1 = 0 -> exists h, r.2 = Some h /\ 0 <= h_status h <= 999 /\ 4 <= h_header_len h <= len /\
       text_at buf (h_header_len h - 4) [13; 10; 13; 10] s = Ret true s)).
Proof.
  unfold net_http_parse. fold len.
  assert (Herr : forall o, wp (ret (- EINVAL, o)) s (fun r s' => s' = s /\
    (r.1 = 0 -> exists h, r.2 = Some h /\ 0 <= h_status h <= 999 /\ 4 <= h_header_len h <= len /\
       text_at buf (h_header_len h - 4) [13; 10; 13; 10] s = Ret true s))) by (intros o; by apply wp_ret).
  destruct (len <? 12) eqn:E; bools; [apply Herr|].
  apply wp_bind, wp_text_at; [lia|simpl; lia|]. intros m _. destruct m; cbn [negb]; [|apply Herr].
  apply wp_bind, wp_scan; [lia|lia|unfold len in *; lia|]. intros pos Hpos.
  destruct (len <=? pos + 4) eqn:E2; bools; [apply Herr|].
  apply wp_bind, wp_rd_msg; [fold len; lia|done|]. intros sp _. destruct (sp =? 32); cbn [negb]; [|apply Herr].
  do 3 (apply wp_bind, wp_rd_msg; [fold len; lia|done|]; intros ? _). cbn beta.
  destruct (_ || _ || _) eqn:Ed; [apply Herr|]. unfold ascii_digit in Ed. bools.
  apply wp_bind, wp_header_end; [lia|unfold len in *; lia|by apply wp_ret|]. intros e He Et.
  rewrite (proj2 (Z.eqb_neq e 0)) by lia.
  apply wp_bind, wp_headers; [lia|lia|unfold len in *; lia|]. intros r.
  destruct r; apply wp_ret; (split; [done|]); intros _; eexists; (split; [reflexivity|]); cbn [h_status h_header_len];
    (split; [rewrite u16_small by lia; lia|]); split; done || lia.
Qed.
End http.
