(* ===== verification/AppsExamples.v ===== *)
(** * The resolver, the DHCP client and the HTTP parser on concrete networks

    Their theorems at concrete inputs, and whole runs against a server behind the card:
    each poll of the card delivers what the server would answer. *)

From stdpp Require Import base gmap list.
From Stdlib Require Import ZArith Lia.
From S2P Require Import Prelude Wire WireProps NetState Net NetProps Tcp TcpExamples Dns DnsProps Dhcp Http DhcpProps.

Local Open Scope Z_scope.

Definition app_handler (h : Z) (dg : net_udp_dgram) : M net Z :=
  if h =? dns_udp_handler then dns_udp_receive dg
  else if h =? dhcp_udp_handler then dhcp_udp_receive dg else ret 0.
Definition app_receive : nat -> list Z -> M net unit :=
  net_receive_frame ex_send app_handler (tcp_receiver_fn ex_send ex_listen ex_accept) ex_raw 5.

(** ** Texts *)

Lemma ipv4_literal_roundtrip_witness : parse_ipv4_literal (net_ipv4_format 3221226219) = Some 3221226219.
Proof. apply (ipv4_literal_roundtrip 3221226219). lia. Defined.

(** "# a\n10.0.2.2 gw # b\n 1.2.3.4\tx y" *)
Example hosts_example :
  hosts_spec [35; 32; 97; 10; 49; 48; 46; 48; 46; 50; 46; 50; 32; 103; 119; 32; 35; 32; 98; 10; 32; 49; 46; 50; 46;
    51; 46; 52; 9; 120; 32; 121] [121] = Some (net_ipv4 1 2 3 4).
Proof. vm_compute. reflexivity. Qed.

(** "www.x" *)
Lemma dns_encode_name_exact_witness :
  dns_encode_name [119; 119; 119; 46; 120] (replicate 10 7) 10 = Some ([3; 119; 119; 119; 1; 120; 0; 7; 7; 7], 7).
Proof. apply (dns_encode_name_exact [119; 119; 119; 46; 120] (replicate 10 7) 10); [repeat constructor; lia|done]. Defined.

(** ** A question and its answer *)

Definition srv_ip : Z := net_ipv4 10 0 2 3.
Definition no_hosts : HostsVfs := {|
  h_open _ := ret (- ENOENT, 0); h_size _ := ret 0; h_is_chr _ := ret false;
  h_read _ _ := ret (0, []); h_close _ := ret tt |}.

(** Before the question: the card knows the server's hardware address. *)
Definition app_net : net :=
  final (arp_cache_store 1 srv_ip [2; 2; 2; 2; 2; 3])
    (set_devs (alter (set_addrs (net_ipv4 10 0 2 15) (net_ipv4 10 0 2 2) (net_ipv4 255 255 255 0) srv_ip) 1%nat) ex_net).

(** The alias www.x, then the address of what it stands for. *)
Definition app_records : list rr :=
  [mkRr [192; 12] 5 1 [0; 0; 0; 9] [1; 121; 0]; mkRr [1; 121; 0] 1 1 [0; 0; 0; 9] [93; 184; 216; 34]].
Definition app_questions : list (list Z * list Z) := [([3; 119; 119; 119; 1; 120; 0], [0; 1; 0; 1])].
Definition app_response (id : Z) : list Z := dns_response id 33152 app_questions app_records [0; 0; 0; 0] [].

Definition dns_poll (d : nat) : M net Z :=
  let* x := get_dev d in
  let* st := gets (fun s => dns (up s)) in
  app_receive d (udp_frame (mac x) [2; 2; 2; 2; 2; 3] srv_ip (ipv4_addr x) 53 (dns_query_port st)
                   (app_response (dns_query_id st))) ;;;
  ret 0.

Example dns_conversation :
  match net_dns_resolve (H := no_hosts) ex_send dns_poll app_handler (tcp_receiver_fn ex_send ex_listen ex_accept) ex_raw
          (ret tt) 5 [119; 119; 119; 46; 120] 1000 app_net with
  | Ret r _ => r = (0, net_ipv4 93 184 216 34)
  | _ => False
  end.
Proof. vm_compute. reflexivity. Qed.

(** The state after the question was sent, and a datagram with the answer. *)
Definition app_asked : net :=
  set_up (set_dns (mkDns 1 49153 0 (Some 1%nat) false)) app_net.
Definition app_dgram (src dst : Z) (p : list Z) : net_udp_dgram :=
  mkDgram (mkRx 1 [2; 2; 2; 2; 2; 3] [] 20 0) p (Z.of_nat (length p) + 8) srv_ip (net_ipv4 10 0 2 15) src dst.

Lemma dns_receive_safe_witness :
  wp (dns_udp_receive (app_dgram 53 49153 [0; 1; 129; 128; 0; 9; 0; 9; 0; 0; 0; 0; 63; 1; 2])) app_asked
    (fun r s' => (r <> 1 /\ s' = app_asked) \/ r = 1).
Proof.
  eapply wp_mono; [apply (dns_receive_safe (app_dgram 53 49153 [0; 1; 129; 128; 0; 9; 0; 9; 0; 0; 0; 0; 63; 1; 2]) app_asked)|].
  - repeat constructor; unfold is_byte; lia.
  - reflexivity.
  - intros r s' [H|(H & _)]; auto.
Defined.

Lemma dns_receive_first_address_witness :
  dns_udp_receive (app_dgram 53 49153 (app_response 1)) app_asked = Ret 1 (answered (net_ipv4 93 184 216 34) app_asked).
Proof.
  apply (dns_receive_first_address (app_dgram 53 49153 (app_response 1)) app_asked 33152 app_questions app_records
    [0; 0; 0; 0] []); try reflexivity; try (vm_compute; split; congruence).
  - repeat constructor.
    + apply (wn_label [119; 119; 119]); [simpl; lia|]. apply (wn_label [120]); [simpl; lia|]. apply wn_root.
  - repeat constructor; unfold is_byte; simpl; try lia.
    apply (wn_label [121]); [simpl; lia|]. apply wn_root.
Defined.

(** ** A lease *)

Definition lease_options (type : Z) : list (Z * list Z) :=
  [(53, [type]); (54, [10; 0; 2; 2]); (1, [255; 255; 0; 0]); (12, [104]); (6, [10; 0; 2; 3]); (6, [8; 8; 8; 8])].
Definition lease_reply (type : Z) : list Z :=
  reply_fixed 1280922180 (net_ipv4 10 0 2 77) (mac ex_card) (replicate 4 0) (replicate 4 0) (replicate 8 0) (replicate 10 0)
    (replicate 192 0) ++ concat (map option_bytes (lease_options type)) ++ [255].

(** The server offers, then acknowledges. *)
Definition dhcp_poll (d : nat) : M net Z :=
  let* st := gets (fun s => dhcp (up s)) in
  app_receive d (udp_frame (mac ex_card) [2; 2; 2; 2; 2; 2] (net_ipv4 10 0 2 2) 4294967295 67 68
                   (lease_reply (if dhcp_offered_ip st =? 0 then DHCP_OFFER else DHCP_ACK))) ;;;
  ret 0.

Example dhcp_conversation :
  match net_dhcp_configure ex_send dhcp_poll app_handler (tcp_receiver_fn ex_send ex_listen ex_accept) ex_raw
          (ret tt) 5 1000 ex_net with
  | Ret r s' => r = 0 /\ exists x, devs s' !! 1%nat = Some x /\ ipv4_addr x = net_ipv4 10 0 2 77 /\
      ipv4_gateway x = net_ipv4 10 0 2 2 /\ ipv4_netmask x = net_ipv4 255 255 0 0 /\ dns_server x = net_ipv4 8 8 8 8 /\
      dhcp_configured x = true
  | _ => False
  end.
Proof. vm_compute. split; [reflexivity|]. eexists. repeat split. Qed.

Definition app_waiting : net := set_up (set_dhcp (mkDhcp 1280922180 0 0 0 0 0 0 false)) ex_net.

Lemma dhcp_receive_safe_witness :
  wp (dhcp_udp_receive (app_dgram 67 68 (replicate 240 0 ++ [53; 9]))) app_waiting
    (fun r s' => (r = 0 /\ s' = app_waiting) \/ r = 1).
Proof.
  eapply wp_mono; [apply (dhcp_receive_safe (app_dgram 67 68 (replicate 240 0 ++ [53; 9])) app_waiting ex_card)|].
  - repeat constructor; unfold is_byte; lia.
  - reflexivity.
  - reflexivity.
  - intros r s' [H|(H & _)]; auto.
Defined.

Lemma dhcp_reply_taken_witness :
  dhcp_udp_receive (app_dgram 67 68 (lease_reply DHCP_OFFER)) app_waiting =
    Ret 1 (set_up (set_dhcp (set_reply 1280922180 (net_ipv4 10 0 2 77)
      (mkReply DHCP_OFFER (net_ipv4 10 0 2 2) (net_ipv4 255 255 0 0) 0 (net_ipv4 8 8 8 8)))) app_waiting).
Proof.
  apply (dhcp_reply_taken (app_dgram 67 68 (lease_reply DHCP_OFFER)) app_waiting ex_card (net_ipv4 10 0 2 77)
    (lease_options DHCP_OFFER) (replicate 4 0) (replicate 4 0) (replicate 8 0) (replicate 10 0) (replicate 192 0) []);
    try reflexivity; try (vm_compute; split; congruence).
  - repeat constructor; unfold is_byte; simpl; (lia || discriminate).
  - by left.
Defined.

(** ** A response *)

(** "HTTP/1.0 200 OK\r\nContent-Length: 2\r\n\r\nhi" *)
Definition app_http : list Z :=
  [72; 84; 84; 80; 47; 49; 46; 48; 32; 50; 48; 48; 32; 79; 75; 13; 10] ++ str_content_length ++
  [58; 32; 50; 13; 10; 13; 10; 104; 105].

Example http_example : net_http_parse app_http ex_net = Ret (0, Some (mkHttp 200 38 2)) ex_net.
Proof. vm_compute. reflexivity. Qed.

Lemma http_parse_safe_witness :
  wp (net_http_parse [72; 84; 84; 80; 47; 32; 50; 48; 48; 13; 10; 13]) ex_net (fun _ s' => s' = ex_net).
Proof.
  eapply wp_mono; [apply (http_parse_safe [72; 84; 84; 80; 47; 32; 50; 48; 48; 13; 10; 13])|].
  - repeat constructor; unfold is_byte; lia.
  - by intros r s' [H _].
Defined.
