(* ===== verification/Cpio.v ===== *)
(** * The initial ram disk archive (kernel/src/fs/cpio.c)

    [cpio_newc_extract] reads an archive in the newc format and creates its
    directories and files.  The archive is the list of its bytes; reading outside
    of it faults.  What it calls of the file system and the heap is the class
    [CpioVfs]: the properties hold for every implementation. *)

From stdpp Require Import base list.
From Stdlib Require Import ZArith Lia.
From S2P Require Import Prelude.

Local Open Scope Z_scope.

Definition ENOMEM : Z := 12.
Definition EEXIST : Z := 17.
Definition EINVAL : Z := 22.
Definition ENOSYS : Z := 38.

Definition CPIO_NEWC_HEADER_SIZE : Z := 110.
(** [070701] *)
Definition CPIO_NEWC_MAGIC : list Z := [48; 55; 48; 55; 48; 49].
(** [TRAILER!!!] *)
Definition CPIO_TRAILER : list Z := [84; 82; 65; 73; 76; 69; 82; 33; 33; 33].

Definition VFS_S_IFMT : Z := 61440.
Definition VFS_S_IFREG : Z := 32768.
Definition VFS_S_IFDIR : Z := 16384.
Definition VFS_S_PERM : Z := 4095.
Definition VFS_S_ISREG (m : Z) : bool := Z.land m VFS_S_IFMT =? VFS_S_IFREG.
Definition VFS_S_ISDIR (m : Z) : bool := Z.land m VFS_S_IFMT =? VFS_S_IFDIR.
(** [VFS_O_CREAT | VFS_O_TRUNC | VFS_O_RDWR] *)
Definition CREATE_FLAGS : Z := Z.lor 256 (Z.lor 1024 2).

(** What the extraction calls, as the super user.  A result of 0 is success.
    [kmalloc] returns 0 when there is no memory. *)
Class CpioVfs (St : Type) := {
  vfs_mkdir : list Z -> Z -> M St Z;
  vfs_chown : list Z -> Z -> Z -> M St Z;
  vfs_chmod : list Z -> Z -> M St Z;
  vfs_open : list Z -> Z -> Z -> M St (Z * Z);
  vfs_write : Z -> list Z -> M St (Z * Z);
  vfs_close : Z -> M St Z;
  kmalloc : Z -> M St Z;
  kfree : Z -> M St unit;
}.

Definition _align4 (v : Z) : Z := Z.land (u64 (v + 3)) (Z.lnot 3).

Definition _hex_nibble (c : Z) : Z :=
  if (48 <=? c) && (c <=? 57) then c - 48
  else if (97 <=? c) && (c <=? 102) then c - 97 + 10
  else if (65 <=? c) && (c <=? 70) then c - 65 + 10
  else -1.

(** Skip leading [./], then leading slashes. *)
Fixpoint skip_dots (name : list Z) : list Z :=
  match name with
  | 46 :: 47 :: rest => skip_dots rest
  | _ => name
  end.
Fixpoint skip_slashes (name : list Z) : list Z :=
  match name with
  | 47 :: rest => skip_slashes rest
  | _ => name
  end.
Definition _clean_name (name : list Z) : list Z := skip_slashes (skip_dots name).

Section cpio.
Context {St : Type} `{!CpioVfs St}.

(** The result, where the path is and the path. *)
Definition _make_path (name : list Z) : M St (Z * (Z * list Z)) :=
  match _clean_name name with
  | [] => ret (- EINVAL, (0, []))
  | n =>
      let* path := kmalloc (Z.of_nat (length n) + 2) in
      if path =? 0 then ret (- ENOMEM, (0, [])) else ret (0, (path, 47 :: n))
  end.

(** [for (i = 1; tmp[i]; i++)]: [n] characters from index [i] on. *)
Fixpoint parents_loop (path : list Z) (n i : nat) : M St Z :=
  match n with
  | O => ret 0
  | S n =>
      if negb (nth i path 0 =? 47) then parents_loop path n (S i)
      else
        let* r := vfs_mkdir (take i path) 493 in
        if negb (r =? 0) && negb (r =? - EEXIST) then ret r else parents_loop path n (S i)
  end.
Definition _ensure_parent_dirs (path : list Z) : M St Z :=
  if Z.of_nat (length path) <? 2 then ret 0
  else
    let* tmp := kmalloc (Z.of_nat (length path) + 1) in
    if tmp =? 0 then ret (- ENOMEM)
    else
      let* r := parents_loop path (length path - 1) 1 in
      let* _ := kfree tmp in
      ret r.

Definition _extract_dir (path : list Z) (mode uid gid : Z) : M St Z :=
  let* r := vfs_mkdir path (Z.land mode VFS_S_PERM) in
  if negb (r =? 0) && negb (r =? - EEXIST) then ret r
  else
    let* r := vfs_chown path uid gid in
    if negb (r =? 0) then ret r else vfs_chmod path (Z.land mode VFS_S_PERM).

Definition _extract_file (path : list Z) (mode uid gid : Z) (data : list Z) : M St Z :=
  let* o := vfs_open path CREATE_FLAGS (Z.land mode VFS_S_PERM) in
  if negb (o.1 =? 0) then ret o.1
  else
    let* w := (if 0 <? Z.of_nat (length data) then vfs_write o.2 data else ret (0, 0)) in
    let* close_r := vfs_close o.2 in
    let r := if (w.1 =? 0) && negb (close_r =? 0) then close_r else w.1 in
    if negb (r =? 0) then ret r
    else if negb (w.2 =? Z.of_nat (length data)) then ret (- ENOSYS)
    else
      let* r := vfs_chown path uid gid in
      if negb (r =? 0) then ret r else vfs_chmod path (Z.land mode VFS_S_PERM).

(** What an entry of the archive makes the kernel do: the result. *)
Definition extract_entry (name : list Z) (mode uid gid : Z) (data : list Z) : M St Z :=
  let* p := _make_path name in
  if negb (p.1 =? 0) then ret p.1
  else
    let (ptr, path) := p.2 in
    let* r := _ensure_parent_dirs path in
    let* r :=
      if (r =? 0) && VFS_S_ISDIR mode then _extract_dir path mode uid gid
      else if (r =? 0) && VFS_S_ISREG mode then _extract_file path mode uid gid data
      else ret r in
    let* _ := kfree ptr in
    ret r.

(** ** Reading the archive *)

Variable ar : list Z.
Let size : Z := Z.of_nat (length ar).

Definition rd (off : Z) : M St Z :=
  if off <? 0 then fault else match ar !! Z.to_nat off with Some b => ret b | None => fault end.

Fixpoint rd_block (n : nat) (off : Z) : M St (list Z) :=
  match n with
  | O => ret []
  | S n => let* b := rd off in let* bs := rd_block n (off + 1) in ret (b :: bs)
  end.

(** The characters up to the terminator. *)
Fixpoint rd_cstr (fuel : nat) (off : Z) : M St (list Z) :=
  match fuel with
  | O => diverge
  | S f =>
      let* b := rd off in
      if b =? 0 then ret [] else let* bs := rd_cstr f (off + 1) in ret (b :: bs)
  end.

Fixpoint hex8_loop (n : nat) (off v : Z) : M St (option Z) :=
  match n with
  | O => ret (Some v)
  | S n =>
      let* c := rd off in
      let d := _hex_nibble c in
      if d <? 0 then ret None else hex8_loop n (off + 1) (Z.lor (u32 (Z.shiftl v 4)) d)
  end.
(** [None] is -EINVAL. *)
Definition _hex8 (off : Z) : M St (option Z) := hex8_loop 8 off 0.

(** A header field or the end of the extraction. *)
Definition with_hex8 {A} (off : Z) (err : A) (k : Z -> M St A) : M St A :=
  let* v := _hex8 off in
  match v with None => ret err | Some v => k v end.

(** One round of the loop: the function's result and count, or the next offset and
    count. *)
Definition extract_step (off entries : Z) : M St ((Z * Z) + (Z * Z)) :=
  let err := inl (- EINVAL, 0) in
  let* magic := rd_block 6 off in
  if negb (bool_decide (magic = CPIO_NEWC_MAGIC)) then ret err
  else
  with_hex8 (off + 14) err (fun mode =>
  with_hex8 (off + 22) err (fun uid =>
  with_hex8 (off + 30) err (fun gid =>
  with_hex8 (off + 54) err (fun filesize =>
  with_hex8 (off + 94) err (fun namesize =>
    if namesize =? 0 then ret err
    else
      let off := u64 (off + CPIO_NEWC_HEADER_SIZE) in
      if size <? u64 (off + namesize) then ret err
      else
        let* last := rd (off + namesize - 1) in
        if negb (last =? 0) then ret err
        else
          let name_off := off in
          let off := _align4 (off + namesize) in
          if (size <? off) || (size <? u64 (off + filesize)) then ret err
          else
            let* name := rd_cstr (Z.to_nat namesize) name_off in
            if bool_decide (name = CPIO_TRAILER) then ret (inl (0, entries))
            else
              let* data := (if VFS_S_ISREG mode then rd_block (Z.to_nat filesize) off else ret []) in
              let* r := extract_entry name mode uid gid data in
              if negb (r =? 0) then ret (inl (r, 0))
              else
                let entries := if VFS_S_ISDIR mode || VFS_S_ISREG mode then entries + 1 else entries in
                ret (inr (_align4 (off + filesize), entries))))))).

Fixpoint extract_loop (fuel : nat) (off entries : Z) : M St (Z * Z) :=
  match fuel with
  | O => diverge
  | S f =>
      if negb (u64 (off + CPIO_NEWC_HEADER_SIZE) <=? size) then ret (- EINVAL, 0)
      else
        let* r := extract_step off entries in
        match r with inl res => ret res | inr (off, entries) => extract_loop f off entries end
  end.
End cpio.

(** [None] is a null pointer.  The result and the number of entries.  A round consumes
    at least a header, so one round per byte is enough. *)
Definition cpio_newc_extract {St : Type} `{!CpioVfs St} (archive : option (list Z)) : M St (Z * Z) :=
  match archive with
  | None => ret (- EINVAL, 0)
  | Some ar => extract_loop ar (S (length ar)) 0 0
  end.
