(* ===== verification/CpioProps.v ===== *)
(** * Properties of the archive reader

    Whatever the bytes of an archive are, the reader stays inside it and comes to an
    end; an archive written in the newc format is extracted entry by entry. *)

From stdpp Require Import base list.
From Stdlib Require Import ZArith Lia.
From S2P Require Import Prelude Cpio.

Local Open Scope Z_scope.

(** ** Programs that return *)

Definition total {St A} (m : M St A) : Prop := forall s, wp m s (fun _ _ => True).

Lemma total_ret {St A} (a : A) : total (St := St) (ret a).
Proof. by intros s. Qed.
Lemma total_bind {St A B} (m : M St A) (k : A -> M St B) :
  total m -> (forall a, total (k a)) -> total (bind m k).
Proof. intros Hm Hk s. apply wp_bind. eapply wp_mono; [apply Hm|]. intros a s' _. apply Hk. Qed.

Create HintDb total.
#[export] Hint Resolve total_ret : total.
Ltac totals :=
  repeat (cbn beta zeta; lazymatch goal with
    | |- total (bind _ _) => apply total_bind; [|intros ?]
    | |- total (if ?c then _ else _) => destruct c
    | |- total (match ?x with _ => _ end) => destruct x
    end); auto with total.

(** A file system whose operations return. *)
Class CpioVfsTotal (St : Type) `{!CpioVfs St} : Prop := {
  mkdir_total p m : total (vfs_mkdir p m);
  chown_total p u g : total (vfs_chown p u g);
  chmod_total p m : total (vfs_chmod p m);
  open_total p f m : total (vfs_open p f m);
  write_total f d : total (vfs_write f d);
  close_total f : total (vfs_close f);
  kmalloc_total n : total (kmalloc n);
  kfree_total p : total (kfree p);
}.
#[export] Hint Resolve mkdir_total chown_total chmod_total open_total write_total close_total kmalloc_total kfree_total : total.

Section props.
Context {St : Type} `{!CpioVfs St}.

(** ** Inside the archive *)

Lemma rd_in ar off s : 0 <= off < Z.of_nat (length ar) ->
  rd ar off s = Ret (nth (Z.to_nat off) ar 0) (s : St).
Proof.
  intros H. unfold rd. rewrite (proj2 (Z.ltb_ge _ _)) by lia.
  destruct (ar !! Z.to_nat off) as [b|] eqn:E.
  - by rewrite (nth_lookup_Some _ _ _ _ E).
  - apply lookup_ge_None in E. lia.
Qed.

Lemma rd_block_in ar n off s : 0 <= off -> off + Z.of_nat n <= Z.of_nat (length ar) ->
  rd_block ar n off s = Ret (take n (drop (Z.to_nat off) ar)) (s : St).
Proof.
  revert off. induction n as [|n IH]; intros off H0 H1; [by rewrite take_0|]. simpl.
  rewrite (bind_ret _ _ _ _ _ (rd_in ar off s ltac:(lia))).
  rewrite (bind_ret _ _ _ _ _ (IH (off + 1) ltac:(lia) ltac:(lia))). unfold ret. f_equal.
  replace (Z.to_nat (off + 1)) with (S (Z.to_nat off)) by lia.
  destruct (lookup_lt_is_Some_2 ar (Z.to_nat off)) as [b Hb]; [lia|].
  by rewrite (drop_S _ _ _ Hb), (nth_lookup_Some _ _ _ _ Hb).
Qed.

(** The string read is what precedes the terminator. *)
Lemma rd_cstr_total ar fuel off k s :
  0 <= off -> (k < fuel)%nat -> off + Z.of_nat k < Z.of_nat (length ar) -> nth (Z.to_nat off + k) ar 0 = 0 ->
  wp (rd_cstr ar fuel off) (s : St) (fun _ s' => s' = s).
Proof.
  revert off k. induction fuel as [|fuel IH]; intros off k H0 Hk Hin Hz; [lia|]. simpl.
  apply wp_bind. eapply wp_intro; [apply rd_in; lia|]. cbn beta.
  destruct (_ =? 0) eqn:E; bools; [by apply wp_ret|].
  destruct k as [|k]; [by rewrite Nat.add_0_r in Hz|].
  apply wp_bind. eapply wp_mono; [apply (IH (off + 1) k); [lia|lia|lia|]|].
  - etrans; [|exact Hz]. f_equal. lia.
  - intros ? ? ->. by apply wp_ret.
Qed.

Lemma hex_nibble_range c : _hex_nibble c < 16.
Proof.
  unfold _hex_nibble. destruct ((48 <=? c) && (c <=? 57)) eqn:E1; [blia|].
  destruct ((97 <=? c) && (c <=? 102)) eqn:E2; [blia|].
  destruct ((65 <=? c) && (c <=? 70)) eqn:E3; [blia|lia].
Qed.

Lemma hex8_range ar n off v s :
  0 <= v < 2 ^ 32 -> 0 <= off -> off + Z.of_nat n <= Z.of_nat (length ar) ->
  wp (hex8_loop ar n off v) (s : St) (fun r s' => s' = s /\ forall x, r = Some x -> 0 <= x < 2 ^ 32).
Proof.
  revert off v. induction n as [|n IH]; intros off v Hv H0 H1; simpl.
  { apply wp_ret. split; [done|]. by intros x [= <-]. }
  apply wp_bind. eapply wp_intro; [apply rd_in; lia|]. cbn beta. pose proof (hex_nibble_range (nth (Z.to_nat off) ar 0)).
  destruct (_ <? 0) eqn:E; bools; [apply wp_ret; by split|]. apply IH; [|lia|lia].
  assert (0 <= u32 (Z.shiftl v 4) < 2 ^ 32) by (by apply Z.mod_pos_bound).
  split; [apply Z.lor_nonneg; lia|]. destruct (decide (Z.lor (u32 (Z.shiftl v 4)) (_hex_nibble (nth (Z.to_nat off) ar 0)) = 0)) as [->|Hne]; [lia|].
  apply Z.log2_lt_pow2; [assert (0 <= Z.lor (u32 (Z.shiftl v 4)) (_hex_nibble (nth (Z.to_nat off) ar 0)))
    by (apply Z.lor_nonneg; lia); lia|].
  rewrite Z.log2_lor by lia. apply Z.max_lub_lt.
  - destruct (decide (u32 (Z.shiftl v 4) = 0)) as [->|]; [done|]. apply Z.log2_lt_pow2; lia.
  - apply Z.le_lt_trans with (Z.log2 15); [apply Z.log2_le_mono; lia|done].
Qed.

Lemma align4_ge v : 0 <= v < 2 ^ 64 - 3 -> v <= _align4 v < v + 4 /\ _align4 v `mod` 4 = 0.
Proof.
  intros Hv. unfold _align4. rewrite u64_small by lia. rewrite <- Z.ldiff_land.
  assert (Z.ldiff (v + 3) 3 = (v + 3) / 4 * 4) as ->; [|zdiv].
  etrans; [apply (Z.ldiff_ones_r (v + 3) 2); lia|]. by rewrite Z.shiftl_mul_pow2, Z.shiftr_div_pow2 by lia.
Qed.
End props.

(** ** Any archive *)

Section safety.
Context {St : Type} `{!CpioVfs St} `{!CpioVfsTotal St}.

Lemma parents_total path n i : total (parents_loop path n i).
Proof. revert i. induction n; intros i; simpl; totals. Qed.
Hint Resolve parents_total : total.

Lemma extract_entry_total name mode uid gid data : total (extract_entry name mode uid gid data).
Proof.
  unfold extract_entry, _make_path, _ensure_parent_dirs, _extract_dir, _extract_file. totals.
Qed.

Lemma with_hex8_wp {A} ar off (err : A) k (s : St) Q :
  0 <= off -> off + 8 <= Z.of_nat (length ar) -> Q err s ->
  (forall v, 0 <= v < 2 ^ 32 -> wp (k v) s Q) -> wp (with_hex8 ar off err k) s Q.
Proof.
  intros H0 H1 He Hk. unfold with_hex8, _hex8. apply wp_bind.
  eapply wp_mono; [apply hex8_range; [lia|done|done]|]. intros [v|] s' [-> Hv]; [|by apply wp_ret].
  apply Hk. by apply Hv.
Qed.

(** A round stays inside the archive and moves on by at least a header. *)
Lemma extract_step_wp ar off n (s : St) :
  Z.of_nat (length ar) < 2 ^ 62 -> 0 <= off -> off + 110 <= Z.of_nat (length ar) ->
  wp (extract_step ar off n) s (fun r _ => forall off' n', r = inr (off', n') -> off + 110 <= off' < 2 ^ 63).
Proof.
  intros Hs H0 H1. unfold extract_step, CPIO_NEWC_HEADER_SIZE. apply wp_bind.
  eapply wp_intro; [apply rd_block_in; lia|]. cbn beta zeta.
  destruct (negb _); [by apply wp_ret|].
  apply with_hex8_wp; [lia|lia|done|]. intros mode Hmode.
  apply with_hex8_wp; [lia|lia|done|]. intros uid Huid.
  apply with_hex8_wp; [lia|lia|done|]. intros gid Hgid.
  apply with_hex8_wp; [lia|lia|done|]. intros fs Hfs.
  apply with_hex8_wp; [lia|lia|done|]. intros ns Hns.
  destruct (ns =? 0) eqn:E0; bools; [by apply wp_ret|].
  rewrite !(u64_small (off + 110)) by lia. rewrite (u64_small (off + 110 + ns)) by lia.
  destruct (_ <? off + 110 + ns) eqn:E1; bools; [by apply wp_ret|].
  apply wp_bind. eapply wp_intro; [apply rd_in; lia|]. cbn beta.
  destruct (nth _ _ _ =? 0) eqn:E2; bools; [cbn [negb]|by apply wp_ret].
  destruct (align4_ge (off + 110 + ns)) as [Ha _]; [lia|].
  set (o := _align4 (off + 110 + ns)) in *. rewrite (u64_small (o + fs)) by lia.
  destruct ((_ <? o) || (_ <? o + fs)) eqn:E3; bools; [by apply wp_ret|].
  apply wp_bind. eapply wp_mono.
  { apply (rd_cstr_total ar _ (off + 110) (Z.to_nat (ns - 1)) s); [lia|lia|lia|].
    etrans; [|exact E2]. f_equal. lia. }
  intros name s' ->. case_bool_decide; [by apply wp_ret|]. apply wp_bind.
  assert (Hd : wp (if VFS_S_ISREG mode then rd_block ar (Z.to_nat fs) o else ret []) s (fun _ _ => True)).
  { destruct (VFS_S_ISREG mode); [|done]. eapply wp_intro; [apply rd_block_in; lia|done]. }
  eapply wp_mono; [exact Hd|]. intros data s1 _. apply wp_bind.
  eapply wp_mono; [apply extract_entry_total|]. intros r s2 _.
  destruct (negb (r =? 0)); [by apply wp_ret|]. apply wp_ret. intros off' n' [= <- _].
  destruct (align4_ge (o + fs)) as [Hb _]; lia.
Qed.

Lemma extract_loop_total ar fuel off n (s : St) :
  Z.of_nat (length ar) < 2 ^ 62 -> 0 <= off < 2 ^ 63 ->
  (0 < fuel)%nat -> Z.of_nat (length ar) - off < Z.of_nat fuel ->
  wp (extract_loop ar fuel off n) s (fun _ _ => True).
Proof.
  intros Hs. revert off n s. induction fuel as [|fuel IH]; intros off n s H0 Hf H1; [lia|].
  simpl extract_loop. unfold CPIO_NEWC_HEADER_SIZE in *.
  rewrite u64_small by lia. destruct (_ <=? _) eqn:E; bools; cbn [negb]; [|by apply wp_ret].
  apply wp_bind. eapply wp_mono; [apply extract_step_wp; lia|].
  intros [res|[off' n']] s' Hr; [by apply wp_ret|]. specialize (Hr off' n' eq_refl). apply IH; lia.
Qed.

(** the archive reader is safe on every input.  For any bytes, with any file
    system whose operations return, the extraction comes to an end and never reads
    outside the archive: not in a truncated header or name, not behind a name without
    a terminator, not for any announced size. *)
Theorem cpio_extract_safe ar (s : St) :
  Z.of_nat (length ar) < 2 ^ 62 -> exists r s', cpio_newc_extract (Some ar) s = Ret r s'.
Proof.
  intros Hs. pose proof (extract_loop_total ar (S (length ar)) 0 0 s Hs ltac:(lia) ltac:(lia) ltac:(lia)) as H.
  apply wp_inv in H as (r & s' & E & _). by exists r, s'.
Qed.
End safety.

(** ** Writing archives *)

Definition hex_digit (d : Z) : Z := if d <? 10 then 48 + d else 87 + d.
Definition hex8 (v : Z) : list Z :=
  [hex_digit (v / 2 ^ 28); hex_digit ((v / 2 ^ 24) `mod` 16); hex_digit ((v / 2 ^ 20) `mod` 16);
   hex_digit ((v / 2 ^ 16) `mod` 16); hex_digit ((v / 2 ^ 12) `mod` 16); hex_digit ((v / 2 ^ 8) `mod` 16);
   hex_digit ((v / 2 ^ 4) `mod` 16); hex_digit (v `mod` 16)].

(** An entry names its file relative to the root, behind any number of [./] and of
    slashes. *)
Record entry := mkEntry {
  e_dots : nat; e_slashes : nat; e_rel : list Z;
  e_mode : Z; e_uid : Z; e_gid : Z; e_data : list Z }.
Definition e_name (e : entry) : list Z :=
  concat (replicate (e_dots e) [46; 47]) ++ replicate (e_slashes e) 47 ++ e_rel e.

(** The zeros that fill [n] bytes up to a multiple of four. *)
Definition pad4 (n : nat) : list Z := replicate ((4 - n mod 4) mod 4) 0.

(** [ino mode uid gid nlink mtime filesize dev rdev namesize check] *)
Definition newc_header (e : entry) : list Z :=
  CPIO_NEWC_MAGIC ++ hex8 0 ++ hex8 (e_mode e) ++ hex8 (e_uid e) ++ hex8 (e_gid e) ++ hex8 1 ++ hex8 0 ++
  hex8 (Z.of_nat (length (e_data e))) ++ hex8 0 ++ hex8 0 ++ hex8 0 ++ hex8 0 ++
  hex8 (Z.of_nat (length (e_name e)) + 1) ++ hex8 0.
Definition newc_entry (e : entry) : list Z :=
  newc_header e ++ e_name e ++ [0] ++ pad4 (110 + length (e_name e) + 1) ++
  e_data e ++ pad4 (length (e_data e)).
Definition newc_trailer : list Z := newc_entry (mkEntry 0 0 CPIO_TRAILER 0 0 0 []).
Definition newc_archive (es : list entry) : list Z := concat (map newc_entry es) ++ newc_trailer.

(** What an entry can be. *)
Record entry_fits (e : entry) : Prop := {
  eo_mode : 0 <= e_mode e < 2 ^ 32;
  eo_uid : 0 <= e_uid e < 2 ^ 32;
  eo_gid : 0 <= e_gid e < 2 ^ 32;
  eo_rel : head (e_rel e) <> Some 47;
  eo_rel_dots : e_slashes e = 0%nat -> forall rest, e_rel e <> 46 :: 47 :: rest;
  eo_name : Forall (fun c => c <> 0) (e_name e);
  eo_namesize : Z.of_nat (length (e_name e)) + 1 < 2 ^ 32;
  eo_data : Z.of_nat (length (e_data e)) < 2 ^ 32 }.
Definition entry_ok (e : entry) : Prop := entry_fits e /\ e_name e <> CPIO_TRAILER.

(** Every name is that of an entry. *)
Lemma slashes_split l : exists k rel, l = replicate k 47 ++ rel /\ head rel <> Some 47.
Proof.
  induction l as [|c l (k & rel & -> & Hr)]; [by exists 0%nat, []|].
  destruct (decide (c = 47)) as [->|Hc]; [by exists (S k), rel|]. exists 0%nat. eexists. split; [done|]. simpl. congruence.
Qed.
Lemma entry_name_any name : exists d k rel,
  name = concat (replicate d [46; 47]) ++ replicate k 47 ++ rel /\
  head rel <> Some 47 /\ (k = 0%nat -> forall rest, rel <> 46 :: 47 :: rest).
Proof.
  remember (length name) as n eqn:Hn. revert name Hn. induction (lt_wf n) as [n _ IH]. intros name ->.
  destruct (decide (take 2 name = [46; 47])) as [Ht|Hno].
  - assert (name = 46 :: 47 :: drop 2 name) as E by (by rewrite <- (take_drop 2 name), Ht at 1).
    revert E. generalize (drop 2 name). intros rest ->. clear Ht.
    destruct (IH (length rest) ltac:(simpl; lia) rest eq_refl) as (d & k & rel & -> & ? & ?). by exists (S d), k, rel.
  - destruct (slashes_split name) as (k & rel & -> & Hr). exists 0%nat, k, rel. split; [done|]. split; [done|].
    intros -> rest ->. by apply Hno.
Qed.

Section roundtrip.
Context {St : Type} `{!CpioVfs St}.

(** *** What creating an entry means *)

(** One thing after the other, up to the first that fails. *)
Fixpoint in_turn (ms : list (M St Z)) : M St Z :=
  match ms with
  | [] => ret 0
  | m :: ms => let* r := m in if r =? 0 then in_turn ms else ret r
  end.

(** With a buffer of [n] bytes. *)
Definition with_buffer (n : Z) (m : M St Z) : M St Z :=
  let* p := kmalloc n in
  if p =? 0 then ret (- ENOMEM) else let* r := m in let* _ := kfree p in ret r.

(** A directory that exists is as good as a new one. *)
Definition make_dir (perm : Z) (path : list Z) : M St Z :=
  let* r := vfs_mkdir path perm in ret (if r =? - EEXIST then 0 else r).

(** An empty file, written with all of the data and closed. *)
Definition make_file (perm : Z) (path data : list Z) : M St Z :=
  let* (r, file) := vfs_open path 1282 perm in
  if negb (r =? 0) then ret r
  else
    let* (w, done) := match data with [] => ret (0, 0) | _ => vfs_write file data end in
    let* c := vfs_close file in
    ret (if negb (w =? 0) then w
         else if negb (c =? 0) then c
         else if done =? Z.of_nat (length data) then 0 else - ENOSYS).

(** The directories a path leads through: its prefixes before an inner slash. *)
Definition ancestors (path : list Z) : list (list Z) :=
  map (fun i => take i path) (filter (fun i => path !! i = Some 47) (seq 1 (length path - 1))).

(** The file type and the permissions in a mode. *)
Definition mode_type (m : Z) : Z := (m / 4096) `mod` 16.
Definition mode_perm (m : Z) : Z := m `mod` 4096.
Definition is_dir (e : entry) : bool := mode_type (e_mode e) =? 4.
Definition is_reg (e : entry) : bool := mode_type (e_mode e) =? 8.

Definition create_entry (e : entry) : M St Z :=
  let path := 47 :: e_rel e in
  let room := Z.of_nat (length path) + 1 in
  let perm := mode_perm (e_mode e) in
  let own := [vfs_chown path (e_uid e) (e_gid e); vfs_chmod path perm] in
  if bool_decide (e_rel e = []) then ret (- EINVAL)
  else
    with_buffer room (in_turn
      (with_buffer room (in_turn (map (make_dir 493) (ancestors path))) ::
       if is_dir e then make_dir perm path :: own
       else if is_reg e then make_file perm path (e_data e) :: own
       else [])).

(** The result and, when nothing failed, the number of directories and files. *)
Definition create_all (es : list entry) : M St (Z * Z) :=
  let* r := in_turn (map create_entry es) in
  ret (r, if r =? 0 then Z.of_nat (length (filter (fun e => is_dir e || is_reg e) es)) else 0).

(** *** The extraction of an entry creates it *)

Lemma bind_congr {A B} (m m' : M St A) (k k' : A -> M St B) s :
  m s = m' s -> (forall a s', k a s' = k' a s') -> bind m k s = bind m' k' s.
Proof. unfold bind. intros ->. by destruct (m' s). Qed.

(** The last of a list of things decides. *)
Lemma in_turn_last (m : M St Z) s : in_turn [m] s = m s.
Proof. simpl. unfold bind. destruct (m s) as [r s'| | |]; try done. by destruct (r =? 0) eqn:E; bools; subst. Qed.

Lemma make_dir_spec perm path (k : Z -> M St Z) s :
  bind (vfs_mkdir path perm) (fun r => if negb (r =? 0) && negb (r =? - EEXIST) then ret r else k r) s =
  bind (vfs_mkdir path perm) (fun r => if (if r =? - EEXIST then 0 else r) =? 0 then k r else ret r) s.
Proof.
  apply bind_congr; [done|]. intros r s'. unfold EEXIST.
  destruct (r =? - (17)) eqn:E; bools; [by subst|]. by destruct (r =? 0).
Qed.

Lemma parents_create path n i s : (i + n <= length path)%nat ->
  parents_loop path n i s =
  in_turn (map (make_dir 493) (map (fun i => take i path) (filter (fun i => path !! i = Some 47) (seq i n)))) s.
Proof.
  revert i s. induction n as [|n IH]; intros i s Hi; [done|]. cbn [parents_loop seq].
  destruct (lookup_lt_is_Some_2 path i) as [c Hc]; [lia|]. rewrite (nth_lookup_Some _ _ _ _ Hc), filter_cons, Hc.
  destruct (c =? 47) eqn:E; bools; cbn [negb].
  - rewrite decide_True by congruence. rewrite make_dir_spec. cbn [map in_turn]. unfold make_dir at 1.
    rewrite bind_assoc. apply bind_congr; [done|]. intros r s'. change (bind (ret ?a) ?k s') with (k a s'). cbn beta.
    destruct (r =? - EEXIST) eqn:Er; cbn [Z.eqb]; [apply IH; lia|]. destruct (r =? 0); [apply IH; lia|done].
  - rewrite decide_False by congruence. apply IH. lia.
Qed.

Lemma clean_name_rel e : entry_fits e -> _clean_name (e_name e) = e_rel e.
Proof.
  intros [_ _ _ Hrel Hdots _ _ _]. unfold _clean_name, e_name.
  assert (skip_dots (replicate (e_slashes e) 47 ++ e_rel e) = replicate (e_slashes e) 47 ++ e_rel e) as Hs.
  { destruct (e_slashes e) as [|k]; [|done]. specialize (Hdots eq_refl). cbn [replicate app].
    destruct (e_rel e) as [|a [|b rest]]; [done| |]; simpl; repeat case_match; subst; try done. by edestruct Hdots. }
  assert (skip_slashes (replicate (e_slashes e) 47 ++ e_rel e) = e_rel e) as Hl.
  { clear Hdots Hs. induction (e_slashes e) as [|k IH]; [|exact IH]. cbn [replicate app].
    destruct (e_rel e) as [|a rest]; [done|]. simpl in *. by repeat case_match; subst. }
  rewrite <- Hl at 2. rewrite <- Hs at 2. f_equal. clear Hl Hs.
  induction (e_dots e) as [|k IH]; [done|]. exact IH.
Qed.

Lemma mode_type_land m k : 0 <= m -> 0 <= k -> (Z.land m VFS_S_IFMT =? k * 4096) = (mode_type m =? k).
Proof.
  intros Hm Hk. unfold VFS_S_IFMT, mode_type.
  assert (Z.land m 61440 = (m / 4096) `mod` 16 * 4096) as ->; [|by destruct (_ =? k) eqn:E; bools; [apply Z.eqb_eq; lia|apply Z.eqb_neq; lia]].
  change 61440 with (Z.shiftl (Z.ones 4) 12). change 4096 with (2 ^ 12). change 16 with (2 ^ 4).
  rewrite <- Z.shiftr_div_pow2, <- Z.land_ones, <- Z.shiftl_mul_pow2 by lia.
  apply Z.bits_inj'. intros n Hn. rewrite Z.land_spec, !Z.shiftl_spec by done.
  destruct (decide (n < 12)); [by rewrite !(Z.testbit_neg_r _ (n - 12)), andb_false_r by lia|].
  rewrite Z.land_spec, Z.shiftr_spec by lia. do 2 f_equal. lia.
Qed.
Lemma mode_dir e : 0 <= e_mode e -> VFS_S_ISDIR (e_mode e) = is_dir e.
Proof. intros H. exact (mode_type_land _ 4 H ltac:(lia)). Qed.
Lemma mode_reg e : 0 <= e_mode e -> VFS_S_ISREG (e_mode e) = is_reg e.
Proof. intros H. exact (mode_type_land _ 8 H ltac:(lia)). Qed.
Lemma mode_perm_land m : 0 <= m -> Z.land m VFS_S_PERM = mode_perm m.
Proof. intros H. exact (Z.land_ones m 12 ltac:(lia)). Qed.

Lemma own_create path perm uid gid (s : St) :
  (let* r := vfs_chown path uid gid in if negb (r =? 0) then ret r else vfs_chmod path perm) s =
  in_turn [vfs_chown path uid gid; vfs_chmod path perm] s.
Proof.
  cbn [in_turn]. apply bind_congr; [done|]. intros r s'. destruct (r =? 0); cbn [negb]; [|done].
  symmetry. apply in_turn_last.
Qed.

Lemma dir_create path mode uid gid (s : St) : 0 <= mode ->
  _extract_dir path mode uid gid s =
  in_turn [make_dir (mode_perm mode) path; vfs_chown path uid gid; vfs_chmod path (mode_perm mode)] s.
Proof.
  intros H. unfold _extract_dir. rewrite (mode_perm_land _ H), make_dir_spec.
  change (in_turn (?m :: ?l)) with (let* r := m in if r =? 0 then in_turn l else ret r). unfold make_dir.
  rewrite bind_assoc. apply bind_congr; [done|]. intros r s'. change (bind (ret ?a) ?k s') with (k a s'). cbn beta.
  destruct (r =? - EEXIST) eqn:Er; [apply own_create|]. destruct (r =? 0); [apply own_create|done].
Qed.

Lemma file_create path mode uid gid data (s : St) : 0 <= mode ->
  _extract_file path mode uid gid data s =
  in_turn [make_file (mode_perm mode) path data; vfs_chown path uid gid; vfs_chmod path (mode_perm mode)] s.
Proof.
  intros H. unfold _extract_file. rewrite (mode_perm_land _ H).
  change (in_turn (?m :: ?l)) with (let* r := m in if r =? 0 then in_turn l else ret r). unfold make_file.
  rewrite bind_assoc. apply bind_congr; [done|]. intros [r f] s'. cbn [fst snd].
  destruct (r =? 0) eqn:Er; cbn [negb]; [|unfold bind, ret; by rewrite Er].
  rewrite bind_assoc. apply bind_congr; [by destruct data|]. intros [w dn] s1. cbn [fst snd].
  rewrite bind_assoc. apply bind_congr; [done|]. intros c s2. change (bind (ret ?a) ?k s2) with (k a s2). cbn beta.
  destruct (w =? 0) eqn:Ew, (c =? 0) eqn:Ec; cbn [negb andb]; rewrite ?Ew, ?Ec; try done.
  destruct (dn =? _); [apply own_create|done].
Qed.

Lemma parents_dirs rel (s : St) : rel <> [] ->
  _ensure_parent_dirs (47 :: rel) s =
  with_buffer (Z.of_nat (length rel) + 2) (in_turn (map (make_dir 493) (ancestors (47 :: rel)))) s.
Proof.
  intros Hr. assert (0 < length rel)%nat by (by destruct rel; [|simpl; lia]).
  unfold _ensure_parent_dirs, with_buffer, ancestors. cbn [length].
  rewrite (proj2 (Z.ltb_ge _ 2)) by lia. replace (Z.of_nat (S (length rel)) + 1) with (Z.of_nat (length rel) + 2) by lia.
  apply bind_congr; [done|]. intros p s1. destruct (p =? 0); [done|].
  apply bind_congr; [|done]. apply parents_create. simpl. lia.
Qed.

Lemma extract_entry_create e (s : St) : entry_fits e ->
  extract_entry (e_name e) (e_mode e) (e_uid e) (e_gid e) (if VFS_S_ISREG (e_mode e) then e_data e else []) s =
  create_entry e s.
Proof.
  intros He. pose proof (eo_mode e He) as [Hm _]. unfold extract_entry, _make_path, create_entry.
  rewrite (clean_name_rel e He). destruct (e_rel e) as [|c rel] eqn:Er; [done|]. rewrite <- Er in *.
  rewrite bool_decide_false by (by rewrite Er). unfold with_buffer at 1. rewrite bind_assoc.
  cbn [length]. replace (Z.of_nat (S (length (e_rel e))) + 1) with (Z.of_nat (length (e_rel e)) + 2) by lia.
  apply bind_congr; [done|]. intros p s1. destruct (p =? 0); [done|]. change (bind (ret ?a) ?k s1) with (k a s1).
  cbn [fst snd Z.eqb negb in_turn]. rewrite bind_assoc. apply bind_congr; [exact (parents_dirs (e_rel e) s1 ltac:(by rewrite Er))|].
  intros r s2. rewrite (mode_dir e Hm), (mode_reg e Hm).
  apply bind_congr; [|done]. destruct (r =? 0) eqn:E; cbn [andb]; [|done]. bools; subst.
  destruct (is_dir e); [by apply dir_create|]. destruct (is_reg e); [by apply file_create|done].
Qed.

Lemma hex_nibble_digit d : 0 <= d < 16 -> _hex_nibble (hex_digit d) = d.
Proof.
  intros H. assert (d = 0 \/ d = 1 \/ d = 2 \/ d = 3 \/ d = 4 \/ d = 5 \/ d = 6 \/ d = 7 \/ d = 8 \/ d = 9 \/
    d = 10 \/ d = 11 \/ d = 12 \/ d = 13 \/ d = 14 \/ d = 15) as Hd by lia.
  repeat destruct Hd as [->|Hd]; try done. by subst.
Qed.

(** Reading digits accumulates their value. *)
Lemma hex8_loop_digits ar ds off v (s : St) :
  Forall (fun d => 0 <= d < 16) ds -> 0 <= off -> 0 <= v ->
  v * 16 ^ Z.of_nat (length ds) + 16 ^ Z.of_nat (length ds) <= 2 ^ 32 ->
  take (length ds) (drop (Z.to_nat off) ar) = map hex_digit ds ->
  off + Z.of_nat (length ds) <= Z.of_nat (length ar) ->
  hex8_loop ar (length ds) off v s = Ret (Some (fold_left (fun v d => v * 16 + d) ds v)) s.
Proof.
  intros Hds. revert off v. induction Hds as [|d ds Hd _ IH]; intros off v H0 Hv Hb Ht Hin; [done|].
  simpl length in *. simpl hex8_loop. rewrite (bind_ret _ _ _ _ _ (rd_in ar off s ltac:(lia))).
  destruct (lookup_lt_is_Some_2 ar (Z.to_nat off)) as [b Hbb]; [lia|].
  rewrite (drop_S _ _ _ Hbb) in Ht. simpl in Ht. injection Ht as -> Ht.
  rewrite (nth_lookup_Some _ _ _ _ Hbb), hex_nibble_digit by done.
  rewrite (proj2 (Z.ltb_ge _ _)) by lia. rewrite Nat2Z.inj_succ, Z.pow_succ_r in Hb by lia.
  pose proof (Z.pow_pos_nonneg 16 (Z.of_nat (length ds)) ltac:(lia) ltac:(lia)) as Hp.
  assert (Z.lor (u32 (Z.shiftl v 4)) d = v * 16 + d) as ->.
  { rewrite Z.shiftl_mul_pow2 by lia. change (2 ^ 4) with 16. rewrite u32_small by nia.
    rewrite <- Z.add_lor_land. assert (Z.land (v * 16) d = 0) as ->; [|lia].
    apply Z.bits_inj'. intros k Hk. rewrite Z.land_spec, Z.bits_0. change 16 with (2 ^ 4).
    destruct (decide (k < 4)); [by rewrite Z.mul_pow2_bits_low|]. rewrite (testbit_high d 4 k) by lia.
    apply andb_false_r. }
  rewrite IH; [done|lia|lia|nia| |lia]. replace (Z.to_nat (off + 1)) with (S (Z.to_nat off)) by lia. done.
Qed.

Lemma hex8_read ar off v (s : St) :
  0 <= off -> 0 <= v < 2 ^ 32 -> take 8 (drop (Z.to_nat off) ar) = hex8 v ->
  off + 8 <= Z.of_nat (length ar) -> _hex8 ar off s = Ret (Some v) s.
Proof.
  intros H0 Hv Ht Hin. unfold _hex8.
  etrans; [apply (hex8_loop_digits ar [v / 2 ^ 28; (v / 2 ^ 24) `mod` 16; (v / 2 ^ 20) `mod` 16; (v / 2 ^ 16) `mod` 16;
    (v / 2 ^ 12) `mod` 16; (v / 2 ^ 8) `mod` 16; (v / 2 ^ 4) `mod` 16; v `mod` 16] off 0 s); try done; try lia|].
  - repeat constructor; try (by apply Z.mod_pos_bound); zdiv.
  - simpl fold_left. do 2 f_equal.
    assert (Hstep : forall k j, 0 <= k -> j = k + 4 -> v / 2 ^ j * 16 + (v / 2 ^ k) `mod` 16 = v / 2 ^ k).
    { intros k j Hk ->. rewrite Z.pow_add_r, <- Z.div_div by (try apply Z.pow_pos_nonneg; lia).
      change (2 ^ 4) with 16. zdiv. }
    rewrite Z.mul_0_l, Z.add_0_l, (Hstep 24 28), (Hstep 20 24), (Hstep 16 20), (Hstep 12 16), (Hstep 8 12), (Hstep 4 8) by lia.
    pose proof (Hstep 0 4 ltac:(lia) ltac:(lia)) as H. by rewrite Z.pow_0_r, Z.div_1_r in H.
Qed.

Lemma with_hex8_read {A} ar p hd post k (err : A) kont v (s : St) :
  drop p ar = hd ++ post ->
  0 <= v < 2 ^ 32 -> take 8 (drop k hd) = hex8 v -> (k + 8 <= length hd)%nat ->
  with_hex8 ar (Z.of_nat p + Z.of_nat k) err kont s = kont v s.
Proof.
  intros Hp Hv Ht Hk. unfold with_hex8.
  pose proof (f_equal length Hp) as Hl. rewrite length_drop, length_app in Hl.
  assert (_hex8 ar (Z.of_nat p + Z.of_nat k) s = Ret (Some v) s) as E.
  { apply hex8_read; [lia|done| |lia].
    replace (Z.to_nat (Z.of_nat p + Z.of_nat k)) with (p + k)%nat by lia.
    rewrite <- drop_drop, Hp, drop_app_le, take_app_le by (rewrite ?length_drop; lia). done. }
  by rewrite (bind_ret _ _ _ _ _ E).
Qed.

Lemma rd_cstr_read ar fuel off name (s : St) :
  0 <= off -> Forall (fun c => c <> 0) name -> (length name < fuel)%nat ->
  take (S (length name)) (drop (Z.to_nat off) ar) = name ++ [0] ->
  rd_cstr ar fuel off s = Ret name s.
Proof.
  intros H0 Hn. revert off fuel H0. induction name as [|c name IH]; intros off fuel H0 Hf Ht;
    (destruct fuel as [|fuel]; [simpl in Hf; lia|]); simpl rd_cstr;
    (destruct (drop (Z.to_nat off) ar) as [|b rest] eqn:E; [done|]).
  all: pose proof (f_equal length E) as El; rewrite length_drop in El; simpl in El;
    assert (Hl : ar !! Z.to_nat off = Some b) by (rewrite <- (Nat.add_0_r (Z.to_nat off)), <- lookup_drop, E; done);
    rewrite (bind_ret _ _ _ _ _ (rd_in ar off s ltac:(lia))), (nth_lookup_Some _ _ _ _ Hl).
  - by injection Ht as ->.
  - injection Ht as -> Ht. apply Forall_cons in Hn as [Hc Hn]. rewrite (proj2 (Z.eqb_neq _ _) Hc).
    assert (rd_cstr ar fuel (off + 1) s = Ret name s) as Er.
    { apply IH; [done|lia|simpl in Hf; lia|]. replace (Z.to_nat (off + 1)) with (S (Z.to_nat off)) by lia.
      rewrite (drop_S _ _ _ Hl) in E. injection E as ->. done. }
    by rewrite (bind_ret _ _ _ _ _ Er).
Qed.

Lemma align4_add off v : 0 <= off -> 0 <= v -> off + v < 2 ^ 62 -> off `mod` 4 = 0 ->
  _align4 (off + v) = off + _align4 v.
Proof.
  intros H0 Hv Hb Hm. destruct (align4_ge (off + v)) as [? ?]; [lia|].
  destruct (align4_ge v) as [? ?]; [lia|]. zdiv.
Qed.

Lemma pad4_length n : Z.of_nat n < 2 ^ 62 -> Z.of_nat (n + length (pad4 n)) = _align4 (Z.of_nat n).
Proof.
  intros H. unfold pad4. rewrite length_replicate. destruct (align4_ge (Z.of_nat n)) as [H1 H2]; [lia|].
  pose proof (Nat.div_mod_eq n 4). pose proof (Nat.mod_upper_bound n 4 ltac:(lia)).
  pose proof (Nat.div_mod_eq (4 - n mod 4) 4). pose proof (Nat.mod_upper_bound (4 - n mod 4) 4 ltac:(lia)). zdiv.
Qed.

Lemma newc_header_length e : length (newc_header e) = 110%nat.
Proof. reflexivity. Qed.
Lemma newc_header_fields e :
  take 6 (newc_header e) = CPIO_NEWC_MAGIC /\ take 8 (drop 14 (newc_header e)) = hex8 (e_mode e) /\
  take 8 (drop 22 (newc_header e)) = hex8 (e_uid e) /\ take 8 (drop 30 (newc_header e)) = hex8 (e_gid e) /\
  take 8 (drop 54 (newc_header e)) = hex8 (Z.of_nat (length (e_data e))) /\
  take 8 (drop 94 (newc_header e)) = hex8 (Z.of_nat (length (e_name e)) + 1).
Proof. repeat split; reflexivity. Qed.
Local Opaque newc_header pad4 hex8.
Lemma newc_entry_length e : entry_fits e ->
  Z.of_nat (length (newc_entry e)) =
  _align4 (110 + (Z.of_nat (length (e_name e)) + 1)) + _align4 (Z.of_nat (length (e_data e))).
Proof.
  intros [? ? ? ? ? ? Hn Hd]. unfold newc_entry. rewrite !length_app, newc_header_length.
  pose proof (pad4_length (110 + length (e_name e) + 1) ltac:(lia)) as P1.
  pose proof (pad4_length (length (e_data e)) ltac:(lia)) as P2. simpl length in *.
  replace (Z.of_nat (110 + length (e_name e) + 1)) with (110 + (Z.of_nat (length (e_name e)) + 1)) in P1 by lia. lia.
Qed.

(** Where the parts of a written entry are. *)
Lemma newc_entry_layout pre e post :
  entry_fits e ->
  let nl := length (e_name e) in
  let ar := pre ++ newc_entry e ++ post in
  drop (length pre) ar = newc_header e ++ drop (length pre + 110) ar /\
  take (S nl) (drop (length pre + 110) ar) = e_name e ++ [0] /\
  ar !! (length pre + 110 + nl)%nat = Some 0 /\
  take (length (e_data e)) (drop (length pre + Z.to_nat (_align4 (110 + (Z.of_nat nl + 1)))) ar) = e_data e.
Proof.
  intros [_ _ _ _ _ _ Hn _] nl ar. pose proof (newc_header_length e) as Hh.
  assert (P1 := pad4_length (110 + nl + 1) ltac:(lia)).
  replace (Z.of_nat (110 + nl + 1)) with (110 + (Z.of_nat nl + 1)) in P1 by lia.
  set (o := _align4 _) in *. set (pad := pad4 _) in *.
  assert (Ear : drop (length pre) ar = newc_header e ++ e_name e ++ [0] ++ pad ++ e_data e ++ pad4 (length (e_data e)) ++ post).
  { unfold ar. rewrite drop_app_length. unfold newc_entry. fold nl. by rewrite <- !(assoc_L (++)). }
  assert (Hrest : drop (length pre + 110) ar = e_name e ++ [0] ++ pad ++ e_data e ++ pad4 (length (e_data e)) ++ post).
  { rewrite <- drop_drop, Ear, drop_app_length'; done. }
  rewrite Hrest. split; [done|]. split; [|split].
  - rewrite (assoc_L (++)), take_app_length' by (rewrite length_app; simpl; lia). done.
  - rewrite <- lookup_drop, Hrest, lookup_app_r by lia. by rewrite Nat.sub_diag.
  - replace (length pre + Z.to_nat o)%nat with (length pre + 110 + (nl + 1 + length pad))%nat by lia.
    rewrite <- drop_drop, Hrest, <- (drop_drop _ (length pad) (nl + 1)), (assoc_L (++) (e_name e)).
    rewrite drop_app_length' by (rewrite length_app; simpl; lia). by rewrite drop_app_length, take_app_length.
Qed.

(** One round over a written entry: the fields and the data are the written ones. *)
Lemma extract_step_entry pre e post n (s : St) :
  entry_fits e -> Z.of_nat (length (pre ++ newc_entry e ++ post)) < 2 ^ 62 ->
  Z.of_nat (length pre) `mod` 4 = 0 ->
  extract_step (pre ++ newc_entry e ++ post) (Z.of_nat (length pre)) n s =
  (if bool_decide (e_name e = CPIO_TRAILER) then ret (inl (0, n))
   else
     let* r := create_entry e in
     if negb (r =? 0) then ret (inl (r, 0))
     else ret (inr (Z.of_nat (length (pre ++ newc_entry e)),
                    if is_dir e || is_reg e then n + 1 else n))) s.
Proof.
  intros He Hs Hm. pose proof (newc_entry_length e He) as Hlen.
  destruct (newc_entry_layout pre e post He) as (L1 & L2 & L3 & L4). cbv zeta in *.
  rewrite !length_app in Hs. pose proof He as [Hmode Huid Hgid _ _ Hnz Hn Hd].
  destruct (newc_header_fields e) as (F0 & F1 & F2 & F3 & F4 & F5). pose proof (newc_header_length e) as Hh.
  set (nl := length (e_name e)) in *. set (dl := length (e_data e)) in *.
  destruct (align4_ge (110 + (Z.of_nat nl + 1))) as [Ho Ho4]; [lia|].
  destruct (align4_ge (Z.of_nat dl)) as [Hq _]; [lia|].
  pose proof (align4_add (Z.of_nat (length pre)) (110 + (Z.of_nat nl + 1)) ltac:(lia) ltac:(lia) ltac:(lia) Hm) as Ha.
  set (o := _align4 (110 + (Z.of_nat nl + 1))) in *.
  pose proof (align4_add (Z.of_nat (length pre) + o) (Z.of_nat dl) ltac:(lia) ltac:(lia) ltac:(lia) ltac:(zdiv)) as Hb.
  assert (Hl : length (pre ++ newc_entry e ++ post) = (length pre + (length (newc_entry e) + length post))%nat)
    by (by rewrite !length_app).
  assert (Hl2 : Z.of_nat (length (pre ++ newc_entry e)) = Z.of_nat (length pre) + o + _align4 (Z.of_nat dl))
    by (rewrite length_app; lia).
  set (ar := pre ++ newc_entry e ++ post) in *. set (rest := drop (length pre + 110) ar) in *.
  unfold extract_step. cbv zeta.
  rewrite (bind_ret _ _ _ _ _ (rd_block_in ar 6 (Z.of_nat (length pre)) s ltac:(lia) ltac:(lia))).
  rewrite Nat2Z.id, L1, take_app_le, F0 by lia. rewrite bool_decide_true by done. cbn [negb].
  unfold CPIO_NEWC_HEADER_SIZE. rewrite (u64_small (_ + 110)) by lia.
  rewrite (with_hex8_read ar _ _ _ 14 _ _ _ s L1 Hmode F1), (with_hex8_read ar _ _ _ 22 _ _ _ s L1 Huid F2),
    (with_hex8_read ar _ _ _ 30 _ _ _ s L1 Hgid F3), (with_hex8_read ar _ _ _ 54 _ _ (Z.of_nat dl) s L1 ltac:(lia) F4),
    (with_hex8_read ar _ _ _ 94 _ _ (Z.of_nat nl + 1) s L1 ltac:(lia) F5) by lia.
  rewrite (proj2 (Z.eqb_neq (Z.of_nat nl + 1) 0)), (u64_small (_ + (Z.of_nat nl + 1))) by lia.
  rewrite (proj2 (Z.ltb_ge _ (_ + (Z.of_nat nl + 1)))) by lia.
  rewrite (bind_ret _ _ _ _ _ (rd_in ar (Z.of_nat (length pre) + 110 + (Z.of_nat nl + 1) - 1) s ltac:(lia))).
  replace (Z.to_nat (Z.of_nat (length pre) + 110 + (Z.of_nat nl + 1) - 1)) with (length pre + 110 + nl)%nat by lia.
  rewrite (nth_lookup_Some _ _ _ _ L3). cbn [Z.eqb negb].
  rewrite <- (Z.add_assoc _ 110), Ha, (u64_small (_ + Z.of_nat dl)) by lia.
  rewrite (proj2 (Z.ltb_ge _ (Z.of_nat (length pre) + o))), (proj2 (Z.ltb_ge _ (_ + Z.of_nat dl))) by lia. cbn [orb].
  assert (rd_cstr ar (Z.to_nat (Z.of_nat nl + 1)) (Z.of_nat (length pre) + 110) s = Ret (e_name e) s) as Er.
  { apply rd_cstr_read; [lia|done|lia|]. by replace (Z.to_nat (Z.of_nat (length pre) + 110)) with (length pre + 110)%nat by lia. }
  rewrite (bind_ret _ _ _ _ _ Er). case_bool_decide; [done|].
  assert ((if VFS_S_ISREG (e_mode e) then rd_block ar (Z.to_nat (Z.of_nat dl)) (Z.of_nat (length pre) + o) else ret []) s =
    Ret (if VFS_S_ISREG (e_mode e) then e_data e else []) s) as Ed.
  { destruct (VFS_S_ISREG (e_mode e)); [|done]. rewrite rd_block_in by lia.
    replace (Z.to_nat (Z.of_nat (length pre) + o)) with (length pre + Z.to_nat o)%nat by lia. by rewrite Nat2Z.id, L4. }
  rewrite (bind_ret _ _ _ _ _ Ed), Hb, <- Hl2, (mode_dir e), <- (mode_reg e) by lia.
  apply bind_congr; [by apply extract_entry_create|done].
Qed.

Lemma newc_entry_align e : entry_fits e -> Z.of_nat (length (newc_entry e)) `mod` 4 = 0 /\ (110 <= length (newc_entry e))%nat.
Proof.
  intros He. pose proof (newc_entry_length e He) as Hl. destruct He as [_ _ _ _ _ _ Hn Hd].
  destruct (align4_ge (110 + (Z.of_nat (length (e_name e)) + 1))) as [Ho Ho4]; [lia|].
  destruct (align4_ge (Z.of_nat (length (e_data e)))) as [Hq Hq4]; [lia|]. split; zdiv.
Qed.

Lemma trailer_fits : entry_fits (mkEntry 0 0 CPIO_TRAILER 0 0 0 []).
Proof. split; simpl; try lia; try done. by repeat constructor. Qed.

Lemma extract_loop_archive es : forall pre junk fuel n (s : St),
  Forall entry_ok es -> (length es < fuel)%nat -> Z.of_nat (length pre) `mod` 4 = 0 ->
  Z.of_nat (length (pre ++ newc_archive es ++ junk)) < 2 ^ 62 ->
  extract_loop (pre ++ newc_archive es ++ junk) fuel (Z.of_nat (length pre)) n s =
  (let* r := in_turn (map create_entry es) in
   ret (r, if r =? 0 then n + Z.of_nat (length (filter (fun e => is_dir e || is_reg e) es)) else 0)) s.
Proof.
  induction es as [|e es IH]; intros pre junk fuel n s Hes Hf Hm Hs; (destruct fuel as [|fuel]; [simpl in Hf; lia|]);
    simpl extract_loop; unfold CPIO_NEWC_HEADER_SIZE.
  - destruct (newc_entry_align _ trailer_fits) as [_ Ht].
    change (newc_archive []) with (newc_entry (mkEntry 0 0 CPIO_TRAILER 0 0 0 [])) in *.
    rewrite u64_small by (rewrite !length_app in Hs; lia).
    rewrite (proj2 (Z.leb_le _ _)) by (rewrite !length_app; lia). cbn [negb].
    unfold bind. rewrite (extract_step_entry pre _ junk n s trailer_fits Hs Hm). cbn. by rewrite Z.add_0_r.
  - apply Forall_cons in Hes as [[He Hne] Hes]. destruct (newc_entry_align _ He) as [Ha Hl].
    assert (newc_archive (e :: es) ++ junk = newc_entry e ++ newc_archive es ++ junk) as Ear.
    { unfold newc_archive. simpl. by rewrite <- !(assoc_L (++)). }
    rewrite Ear in Hs |- *. rewrite u64_small by (rewrite !length_app in Hs; lia).
    rewrite (proj2 (Z.leb_le _ _)) by (rewrite !length_app; lia). cbn [negb].
    unfold bind at 1. rewrite (extract_step_entry pre _ _ n s He Hs Hm), bool_decide_false by done.
    cbn [map in_turn]. unfold bind. destruct (create_entry e s) as [r s'| | |]; try done.
    destruct (r =? 0) eqn:Er; cbn [negb ret]; [|by rewrite Er].
    rewrite (assoc_L (++)) in Hs |- *. rewrite IH; [|done|simpl in Hf; lia|rewrite length_app; zdiv|done].
    apply bind_congr; [done|]. intros r' s1. unfold ret. do 2 f_equal. destruct (r' =? 0); [|done].
    rewrite filter_cons. destruct (is_dir e || is_reg e); simpl; lia.
Qed.

Lemma newc_archive_length es : Forall entry_ok es -> (length es < S (length (newc_archive es)))%nat.
Proof.
  induction 1 as [|e es [He _] _ IH]; [simpl; lia|]. destruct (newc_entry_align _ He) as [_ Hl].
  assert (newc_archive (e :: es) = newc_entry e ++ newc_archive es) as ->
    by (unfold newc_archive; simpl; by rewrite <- (assoc_L (++))).
  rewrite length_app. simpl length in *. lia.
Qed.

(** C39: reading inverts writing.  Take any entries and write them as a newc archive:
    for each the header of 110 characters with its numbers in hexadecimal, the name
    with its terminator, the data, the last two filled up with zeros to a multiple of
    four bytes, and the trailer at the end.  Extracting the archive, whatever follows
    the trailer, does the same to every file system as creating the entries one after
    the other: the directories on the way to an entry with mode 0755 (that one exists
    is no error), a directory, or a file that is opened empty, written with all of
    its data and closed, and then the owner and the permissions.  The first failure
    is the result; otherwise the count is that of the directories and regular files.
    Entries of other types (links, devices) only create the directories on the way. *)
Theorem cpio_roundtrip es junk (s : St) :
  Forall entry_ok es -> Z.of_nat (length (newc_archive es ++ junk)) < 2 ^ 62 ->
  cpio_newc_extract (Some (newc_archive es ++ junk)) s = create_all es s.
Proof.
  intros Hes Hs. pose proof (newc_archive_length es Hes).
  apply (extract_loop_archive es [] junk); [done| |done|done]. rewrite length_app. lia.
Qed.
End roundtrip.

(** ** A concrete archive

    A file system that records what is asked of it. *)
Inductive call :=
  | CMkdir (p : list Z) (m : Z)
  | CChown (p : list Z) (u g : Z)
  | CChmod (p : list Z) (m : Z)
  | COpen (p : list Z) (f m : Z)
  | CWrite (f : Z) (d : list Z)
  | CClose (f : Z).
#[global] Instance call_eq_dec : EqDecision call.
Proof. solve_decision. Defined.

Definition log_call (c : call) : M (list call) unit := fun s => Ret tt (s ++ [c]).
Definition log_done (c : call) : M (list call) Z := let* _ := log_call c in ret 0.
Definition is_mkdir (p : list Z) (c : call) : bool :=
  match c with CMkdir p' _ => bool_decide (p' = p) | _ => false end.
#[export] Instance log_vfs : CpioVfs (list call) := {
  vfs_mkdir p m := fun s => if existsb (is_mkdir p) s then Ret (- EEXIST) s else log_done (CMkdir p m) s;
  vfs_chown p u g := log_done (CChown p u g);
  vfs_chmod p m := log_done (CChmod p m);
  vfs_open p f m := let* r := log_done (COpen p f m) in ret (r, 3);
  vfs_write f d := let* r := log_done (CWrite f d) in ret (r, Z.of_nat (length d));
  vfs_close f := log_done (CClose f);
  kmalloc n := ret 4096;
  kfree p := ret tt;
}.
#[export] Instance log_vfs_total : CpioVfsTotal (list call).
Proof.
  split; try (intros; by intros s). intros p m s. unfold vfs_mkdir, log_vfs, wp. by destruct (existsb (is_mkdir p) s).
Qed.

(** [./bin], a directory; [/bin/sh], a file; [lnk], a symbolic link. *)
Definition demo_entries : list entry :=
  [mkEntry 1 0 [98; 105; 110] 16877 0 0 [];
   mkEntry 0 1 [98; 105; 110; 47; 115; 104] 33261 1 2 [127; 69; 76; 70; 2];
   mkEntry 0 0 [108; 110; 107] 41471 0 0 [115; 104]].

Lemma cpio_roundtrip_witness :
  cpio_newc_extract (Some (newc_archive demo_entries ++ [0; 0; 0])) [] =
  Ret (0, 2) [CMkdir [47; 98; 105; 110] 493; CChown [47; 98; 105; 110] 0 0; CChmod [47; 98; 105; 110] 493;
    COpen [47; 98; 105; 110; 47; 115; 104] 1282 493; CWrite 3 [127; 69; 76; 70; 2]; CClose 3;
    CChown [47; 98; 105; 110; 47; 115; 104] 1 2; CChmod [47; 98; 105; 110; 47; 115; 104] 493].
Proof.
  rewrite (cpio_roundtrip demo_entries [0; 0; 0] []); [vm_compute; reflexivity| |vm_compute; reflexivity].
  repeat constructor; simpl; try lia; try discriminate.
Defined.

(** A header, a name and nothing else. *)
Lemma cpio_extract_safe_witness :
  exists r s', cpio_newc_extract (Some (take 118 (newc_archive demo_entries))) [] = Ret r (s' : list call).
Proof. apply (cpio_extract_safe (take 118 (newc_archive demo_entries)) []). vm_compute. reflexivity. Defined.
