(* ===== verification/VfsBase.v ===== *)
(** * Nodes, open files and their store (kernel/include/fs/vfs.h, fs/vfs.c, fs/tmpfs.c)

    The objects of the file system live in a store from addresses to objects; 0 is
    NULL, and an access to an address with no object of the expected kind faults.  The
    heap grants the next [budget] requests and then returns NULL; an array on it has
    the usable size the heap's size classes give it.  Page frames come from the abstract
    allocator of Pmm, which pmm.c implements; a frame keeps its bytes when it is freed.
    A node is embedded at the start of its file system's node, so both have one address.
    The intrusive list of a directory's children is the list of their addresses. *)

From stdpp Require Import gmap list.
From Stdlib Require Import ZArith Lia.
From S2P Require Import Prelude Pmm Heap Pipe.

Local Open Scope Z_scope.

(** ** Constants *)

Definition EPERM : Z := 1.
Definition ENOENT : Z := 2.
Definition EBADF : Z := 9.
Definition ENOMEM : Z := 12.
Definition EACCES : Z := 13.
Definition EEXIST : Z := 17.
Definition EXDEV : Z := 18.
Definition ENOTDIR : Z := 20.
Definition EISDIR : Z := 21.
Definition EINVAL : Z := 22.
Definition ENOTTY : Z := 25.
Definition ESPIPE : Z := 29.
Definition ENAMETOOLONG : Z := 36.
Definition ENOSYS : Z := 38.
Definition ENOTEMPTY : Z := 39.

Definition VFS_NAME_MAX : Z := 255.
Definition VFS_SUPP_GROUP_MAX : Z := 8.
Definition VFS_S_IFMT : Z := 61440.
Definition VFS_S_IFLNK : Z := 40960.
Definition VFS_S_IFREG : Z := 32768.
Definition VFS_S_IFDIR : Z := 16384.
Definition VFS_S_IFIFO : Z := 4096.
Definition VFS_S_ISUID : Z := 2048.
Definition VFS_S_ISGID : Z := 1024.
Definition VFS_S_ISVTX : Z := 512.
Definition VFS_S_PERM : Z := 4095.
Definition VFS_S_ISREG (m : Z) : bool := Z.land m VFS_S_IFMT =? VFS_S_IFREG.
Definition VFS_S_ISDIR (m : Z) : bool := Z.land m VFS_S_IFMT =? VFS_S_IFDIR.
Definition VFS_S_ISFIFO (m : Z) : bool := Z.land m VFS_S_IFMT =? VFS_S_IFIFO.
Definition VFS_S_ISLNK (m : Z) : bool := Z.land m VFS_S_IFMT =? VFS_S_IFLNK.

Definition VFS_R_OK : Z := 4.
Definition VFS_W_OK : Z := 2.
Definition VFS_X_OK : Z := 1.

(** ** Data *)

Record vfs_cred := mkCred {
  c_uid : Z; c_gid : Z; c_groups : list Z; c_group_count : Z; c_umask : Z }.
Definition vfs_root_cred : vfs_cred := mkCred 0 0 (replicate 8 0) 0 18.

(** [dev] is 0 and [ino] the node's address in every node of the modelled code. *)
Record vfs_node := mkNode {
  n_ops : Z; n_mode : Z; n_uid : Z; n_gid : Z; n_size : Z; n_nlink : Z; n_refs : Z }.

Record tmpfs_node := mkTmp {
  vnode : vfs_node; parent : Z; children : list Z; name : list Z;
  pages : Z; page_count : Z; page_cap : Z }.

Record vfs_file := mkFile {
  f_node : Z; f_flags : Z; f_offset : Z; f_refs : Z; f_cred : vfs_cred }.

Record vfs_dirent := mkDirent {
  d_name : list Z; d_mode : Z; d_uid : Z; d_gid : Z; d_size : Z; d_nlink : Z }.

(** The C list node is the heap object at [m_addr]. *)
Record vfs_mount := mkMount { m_addr : Z; m_covered : Z; m_root : Z; m_path : list Z }.

(** A node of another file system, a tmpfs node, its array of page pointers, an open
    file, and memory whose contents do not matter here. *)
Inductive obj :=
  | ONode (v : vfs_node)
  | OTmp (t : tmpfs_node)
  | OArr (l : list (option Z))
  | OFile (f : vfs_file)
  | OBlob.

Record fs := mkFs {
  objs : gmap Z obj;
  next_addr : Z;
  budget : nat;
  free_frames : list Z;
  used_frames : gmap Z ustate;
  bytes : gmap Z (list Z);
  root_node : Z;
  mounts : list vfs_mount }.

Definition set_objs (f : gmap Z obj -> gmap Z obj) (s : fs) : fs :=
  mkFs (f (objs s)) (next_addr s) (budget s) (free_frames s) (used_frames s) (bytes s) (root_node s) (mounts s).
Definition set_frames (l : list Z) (u : gmap Z ustate) (s : fs) : fs :=
  mkFs (objs s) (next_addr s) (budget s) l u (bytes s) (root_node s) (mounts s).
Definition set_bytes (f : gmap Z (list Z) -> gmap Z (list Z)) (s : fs) : fs :=
  mkFs (objs s) (next_addr s) (budget s) (free_frames s) (used_frames s) (f (bytes s)) (root_node s) (mounts s).
Definition set_root (r : Z) (s : fs) : fs :=
  mkFs (objs s) (next_addr s) (budget s) (free_frames s) (used_frames s) (bytes s) r (mounts s).
Definition set_mounts (l : list vfs_mount) (s : fs) : fs :=
  mkFs (objs s) (next_addr s) (budget s) (free_frames s) (used_frames s) (bytes s) (root_node s) l.

(** ** Access to objects *)

Definition put (a : Z) (o : obj) : M fs unit := modify (set_objs (insert a o)).

(** The embedded node, of whatever file system. *)
Definition get_node (a : Z) : M fs vfs_node := fun s =>
  match objs s !! a with Some (ONode v) => Ret v s | Some (OTmp t) => Ret (vnode t) s | _ => Fault end.
Definition set_vnode (v : vfs_node) (t : tmpfs_node) : tmpfs_node :=
  mkTmp v (parent t) (children t) (name t) (pages t) (page_count t) (page_cap t).
Definition put_node (a : Z) (v : vfs_node) : M fs unit := fun s =>
  match objs s !! a with
  | Some (ONode _) => put a (ONode v) s
  | Some (OTmp t) => put a (OTmp (set_vnode v t)) s
  | _ => Fault
  end.
(** [(tmpfs_node_t * )node] *)
Definition get_tmp (a : Z) : M fs tmpfs_node := fun s =>
  match objs s !! a with Some (OTmp t) => Ret t s | _ => Fault end.
Definition get_file (a : Z) : M fs vfs_file := fun s =>
  match objs s !! a with Some (OFile f) => Ret f s | _ => Fault end.
Definition get_arr (a : Z) : M fs (list (option Z)) := fun s =>
  match objs s !! a with Some (OArr l) => Ret l s | _ => Fault end.

Definition with_refs (v : vfs_node) (r : Z) : vfs_node :=
  mkNode (n_ops v) (n_mode v) (n_uid v) (n_gid v) (n_size v) (n_nlink v) r.
Definition with_nlink (v : vfs_node) (n : Z) : vfs_node :=
  mkNode (n_ops v) (n_mode v) (n_uid v) (n_gid v) (n_size v) n (n_refs v).
Definition with_size (v : vfs_node) (n : Z) : vfs_node :=
  mkNode (n_ops v) (n_mode v) (n_uid v) (n_gid v) n (n_nlink v) (n_refs v).
Definition with_mode (v : vfs_node) (m : Z) : vfs_node :=
  mkNode (n_ops v) m (n_uid v) (n_gid v) (n_size v) (n_nlink v) (n_refs v).

(** ** Heap *)

Definition alloc (o : obj) : M fs Z := fun s =>
  match budget s with
  | O => Ret 0 s
  | S b => Ret (next_addr s) (mkFs (<[next_addr s := o]> (objs s)) (next_addr s + 1) b (free_frames s)
                                (used_frames s) (bytes s) (root_node s) (mounts s))
  end.
Definition free (a : Z) : M fs unit :=
  if a =? 0 then ret tt
  else fun s => match objs s !! a with
                | Some _ => Ret tt (set_objs (delete a) s)
                | None => Fault
                end.

Section heap.
(** What memory holds that [kmalloc] hands out. *)
Variable junk : option Z.

(** Pointers are 8 bytes. *)
Definition kmalloc_arr (size : Z) : M fs Z :=
  if size =? 0 then ret 0 else alloc (OArr (replicate (Z.to_nat (usable size / 8)) junk)).
Definition krealloc_arr (ptr size : Z) : M fs Z :=
  if ptr =? 0 then kmalloc_arr size
  else if size =? 0 then free ptr ;;; ret 0
  else
    let* old := get_arr ptr in
    let old_size := Z.of_nat (length old) * 8 in
    if (cache_idx size =? cache_idx old_size)%nat then ret ptr
    else
      let* n := kmalloc_arr size in
      if n =? 0 then ret 0
      else
        let* b := get_arr n in
        let k := Z.to_nat (Z.min old_size size / 8) in
        put n (OArr (take k old ++ drop k b)) ;;;
        free ptr ;;;
        ret n.
End heap.

(** [a[i]] and [a[i] = v]; outside the object they fault. *)
Definition arr_load (a i : Z) : M fs (option Z) :=
  let* l := get_arr a in
  if i <? 0 then fault else match l !! Z.to_nat i with Some v => ret v | None => fault end.
Definition arr_store (a i : Z) (v : option Z) : M fs unit :=
  let* l := get_arr a in
  if (0 <=? i) && (i <? Z.of_nat (length l)) then put a (OArr (<[Z.to_nat i := v]> l)) else fault.
(** [memset(a + from, 0, n * sizeof(page_t * ))] *)
Definition arr_zero (a from n : Z) : M fs unit :=
  let* l := get_arr a in
  if (0 <=? from) && (0 <=? n) && (from + n <=? Z.of_nat (length l)) then
    put a (OArr (take (Z.to_nat from) l ++ replicate (Z.to_nat n) None ++ drop (Z.to_nat (from + n)) l))
  else fault.

(** ** Page frames *)

(** [kpanic] without a free frame, so callers never see [None]. *)
Definition palloc_page : M fs (option Z) := fun s =>
  match free_frames s with
  | [] => Panic
  | p :: _ => match abs_step OpAlloc (free_frames s) (used_frames s) with
              | AOk l u => Ret (Some p) (set_frames l u s)
              | _ => Panic
              end
  end.
Definition page_unref (p : Z) : M fs unit := fun s =>
  match abs_step (OpUnref p) (free_frames s) (used_frames s) with
  | AOk l u => Ret tt (set_frames l u s)
  | _ => Panic
  end.

(** [memcpy] from and into a frame. *)
Definition frame_load (p off n : Z) : M fs (list Z) := fun s =>
  match bytes s !! p with
  | Some b => if (0 <=? off) && (0 <=? n) && (off + n <=? Z.of_nat (length b))
              then Ret (take (Z.to_nat n) (drop (Z.to_nat off) b)) s else Fault
  | None => Fault
  end.
Definition frame_store (p off : Z) (data : list Z) : M fs unit := fun s =>
  match bytes s !! p with
  | Some b =>
      if (0 <=? off) && (off + Z.of_nat (length data) <=? Z.of_nat (length b)) then
        Ret tt (set_bytes (insert p (take (Z.to_nat off) b ++ data ++ drop (Z.to_nat off + length data) b)) s)
      else Fault
  | None => Fault
  end.

(** ** Reference counts *)

(** The fields [vfs_node_init] sets. *)
Definition vfs_node_init (ops mode uid gid : Z) : vfs_node :=
  mkNode ops mode uid gid 0 (if VFS_S_ISDIR mode then 2 else 1) 1.

Definition vfs_node_ref (node : Z) : M fs unit :=
  if node =? 0 then ret tt
  else let* v := get_node node in put_node node (with_refs v (u32 (n_refs v + 1))).

Section release.
(** [node->ops->release], by the operations' address; its argument is the inner
    [vfs_node_release]. *)
Variable release_op : Z -> option ((Z -> M fs unit) -> Z -> M fs unit).

Fixpoint vfs_node_release_fuel (fuel : nat) (node : Z) : M fs unit :=
  match fuel with
  | O => diverge
  | S f =>
      if node =? 0 then ret tt
      else
        let* v := get_node node in
        if n_refs v =? 0 then ret tt
        else
          put_node node (with_refs v (u32 (n_refs v - 1))) ;;;
          if u32 (n_refs v - 1) =? 0 then
            match release_op (n_ops v) with
            | Some rel => rel (vfs_node_release_fuel f) node
            | None => ret tt
            end
          else ret tt
  end.
(** A nested release starts from a node whose count has just become 0, and no node
    does so twice: the nesting is at most the number of objects. *)
Definition vfs_node_release (node : Z) : M fs unit := fun s =>
  vfs_node_release_fuel (2 + size (objs s)) node s.
End release.

Definition vfs_file_ref (file : Z) : M fs Z :=
  if file =? 0 then ret file
  else
    let* f := get_file file in
    put file (OFile (mkFile (f_node f) (f_flags f) (f_offset f) (u32 (f_refs f + 1)) (f_cred f))) ;;;
    ret file.

(** ** The operations of a file system *)

Record vfs_ops := mkOps {
  op_lookup : option (Z -> list Z -> M fs (Z * Z));
  op_create : option (Z -> list Z -> Z -> vfs_cred -> M fs (Z * Z));
  op_mkdir : option (Z -> list Z -> Z -> vfs_cred -> M fs (Z * Z));
  op_unlink : option (Z -> list Z -> M fs Z);
  op_rmdir : option (Z -> list Z -> M fs Z);
  op_symlink : option (Z -> list Z -> list Z -> vfs_cred -> M fs Z);
  op_link : option (Z -> list Z -> Z -> M fs Z);
  op_rename : option (Z -> list Z -> Z -> list Z -> M fs Z);
  op_read : option (Z -> Z -> Z -> M fs (Z * list Z));
  op_write : option (Z -> Z -> list Z -> M fs (Z * Z));
  op_open : option (Z -> M fs Z);
  op_ioctl : option (Z -> Z -> Z -> M fs Z);
  op_poll : option (Z -> Z -> M fs Z);
  op_close : option (Z -> M fs Z);
  op_fsync : option (Z -> M fs Z);
  op_fadvise : option (Z -> Z -> Z -> Z -> M fs Z);
  op_mmap : option (Z -> Z -> Z -> Z -> Z -> Z -> M fs Z);
  op_readdir : option (Z -> Z -> M fs (Z * vfs_dirent));
  op_truncate : option (Z -> Z -> M fs Z);
  op_get_page : option (Z -> Z -> Z -> M fs (Z * option Z));
}.
