(* ===== verification/Tmpfs.v ===== *)
(** * The memory file system (kernel/src/fs/tmpfs.c)

    A regular file is an array of page frames that grows on demand, a directory a list
    of nodes.  [rel] is [vfs_node_release], which calls [tmpfs_release] back when the
    last reference goes. *)

From stdpp Require Import gmap list.
From Stdlib Require Import ZArith Lia.
From S2P Require Import Prelude Pmm VfsBase.

Local Open Scope Z_scope.

(** [&tmpfs_ops] *)
Definition TMPFS_OPS : Z := 1.

Definition set_parent (p : Z) (t : tmpfs_node) : tmpfs_node :=
  mkTmp (vnode t) p (children t) (name t) (pages t) (page_count t) (page_cap t).
Definition set_children (l : list Z) (t : tmpfs_node) : tmpfs_node :=
  mkTmp (vnode t) (parent t) l (name t) (pages t) (page_count t) (page_cap t).
Definition set_name (n : list Z) (t : tmpfs_node) : tmpfs_node :=
  mkTmp (vnode t) (parent t) (children t) n (pages t) (page_count t) (page_cap t).
Definition set_pages (p c k : Z) (t : tmpfs_node) : tmpfs_node :=
  mkTmp (vnode t) (parent t) (children t) (name t) p c k.
Definition upd_tmp (a : Z) (f : tmpfs_node -> tmpfs_node) : M fs unit :=
  let* t := get_tmp a in put a (OTmp (f t)).

(** ** Directories *)

Definition _name_eq (t : tmpfs_node) (nm : list Z) : bool := bool_decide (name t = nm).

Fixpoint find_loop (l : list Z) (nm : list Z) : M fs Z :=
  match l with
  | [] => ret 0
  | c :: l => let* t := get_tmp c in if _name_eq t nm then ret c else find_loop l nm
  end.
Definition _find_child (dir : Z) (nm : list Z) : M fs Z :=
  let* d := get_tmp dir in find_loop (children d) nm.

Definition _alloc_node (nm : list Z) (mode uid gid : Z) : M fs Z :=
  if VFS_NAME_MAX <? Z.of_nat (length nm) then ret 0
  else alloc (OTmp (mkTmp (vfs_node_init TMPFS_OPS mode uid gid) 0 [] nm 0 0 0)).

Definition _insert_child (dir child : Z) : M fs unit :=
  upd_tmp child (set_parent dir) ;;;
  let* d := get_tmp dir in
  put dir (OTmp (set_children (child :: children d) d)) ;;;
  let* c := get_tmp child in
  if VFS_S_ISDIR (n_mode (vnode c)) then
    let* d := get_tmp dir in
    put dir (OTmp (set_vnode (with_nlink (vnode d) (u32 (n_nlink (vnode d) + 1))) d))
  else ret tt.

(** The list without the first occurrence of the child; [None] when it is not there. *)
Fixpoint remove_child (c : Z) (l : list Z) : option (list Z) :=
  match l with
  | [] => None
  | x :: l => if x =? c then Some l else cons x <$> remove_child c l
  end.
Definition _unlink_child (dir child : Z) : M fs unit :=
  let* d := get_tmp dir in
  match remove_child child (children d) with
  | None => ret tt
  | Some l =>
      put dir (OTmp (set_children l d)) ;;;
      upd_tmp child (set_parent 0) ;;;
      let* c := get_tmp child in
      let* d := get_tmp dir in
      if VFS_S_ISDIR (n_mode (vnode c)) && (0 <? n_nlink (vnode d)) then
        put dir (OTmp (set_vnode (with_nlink (vnode d) (u32 (n_nlink (vnode d) - 1))) d))
      else ret tt
  end.

Definition tmpfs_create_root (mode uid gid : Z) : M fs Z :=
  let* root := _alloc_node [] (Z.lor VFS_S_IFDIR (Z.land mode VFS_S_PERM)) uid gid in
  if root =? 0 then ret 0 else upd_tmp root (set_parent root) ;;; ret root.

Definition tmpfs_lookup (dir_node : Z) (nm : list Z) : M fs (Z * Z) :=
  let* v := get_node dir_node in
  if negb (VFS_S_ISDIR (n_mode v)) then ret (- ENOTDIR, 0)
  else if bool_decide (nm = [46]) then vfs_node_ref dir_node ;;; ret (0, dir_node)
  else
    let* d := get_tmp dir_node in
    if bool_decide (nm = [46; 46]) then vfs_node_ref (parent d) ;;; ret (0, parent d)
    else
      let* child := _find_child dir_node nm in
      if child =? 0 then ret (- ENOENT, 0) else vfs_node_ref child ;;; ret (0, child).

Definition _create_child (dir_node : Z) (nm : list Z) (mode : Z) (cred : vfs_cred) : M fs (Z * Z) :=
  let* v := get_node dir_node in
  let len := Z.of_nat (length nm) in
  if negb (VFS_S_ISDIR (n_mode v)) then ret (- ENOTDIR, 0)
  else if (len =? 0) || (VFS_NAME_MAX <? len) then ret (if len =? 0 then - EINVAL else - ENAMETOOLONG, 0)
  else
    let* c := _find_child dir_node nm in
    if negb (c =? 0) then ret (- EEXIST, 0)
    else
      let* child := _alloc_node nm mode (c_uid cred) (c_gid cred) in
      if child =? 0 then ret (- ENOMEM, 0)
      else
        _insert_child dir_node child ;;;
        vfs_node_ref child ;;;
        ret (0, child).

Definition tmpfs_create (dir : Z) (nm : list Z) (mode : Z) (cred : vfs_cred) : M fs (Z * Z) :=
  _create_child dir nm (Z.lor VFS_S_IFREG (Z.land mode VFS_S_PERM)) cred.
Definition tmpfs_mkdir (dir : Z) (nm : list Z) (mode : Z) (cred : vfs_cred) : M fs (Z * Z) :=
  _create_child dir nm (Z.lor VFS_S_IFDIR (Z.land mode VFS_S_PERM)) cred.

Definition set_nlink (a n : Z) : M fs unit :=
  let* v := get_node a in put_node a (with_nlink v n).

Definition tmpfs_readdir (dir_node index : Z) : M fs (Z * vfs_dirent) :=
  let empty := mkDirent [] 0 0 0 0 0 in
  let* v := get_node dir_node in
  if negb (VFS_S_ISDIR (n_mode v)) then ret (- ENOTDIR, empty)
  else
    let* d := get_tmp dir_node in
    match children d !! Z.to_nat index with
    | None => ret (- ENOENT, empty)
    | Some c =>
        let* t := get_tmp c in
        let v := vnode t in
        ret (0, mkDirent (take (Z.to_nat VFS_NAME_MAX) (name t)) (n_mode v) (n_uid v) (n_gid v) (n_size v) (n_nlink v))
    end.

Section names.
Variable rel : Z -> M fs unit.

Definition tmpfs_unlink (dir_node : Z) (nm : list Z) : M fs Z :=
  let* child := _find_child dir_node nm in
  if child =? 0 then ret (- ENOENT)
  else
    let* c := get_tmp child in
    if VFS_S_ISDIR (n_mode (vnode c)) then ret (- EISDIR)
    else
      _unlink_child dir_node child ;;;
      set_nlink child 0 ;;;
      rel child ;;;
      ret 0.

Definition tmpfs_rmdir (dir_node : Z) (nm : list Z) : M fs Z :=
  let* child := _find_child dir_node nm in
  if child =? 0 then ret (- ENOENT)
  else
    let* c := get_tmp child in
    if negb (VFS_S_ISDIR (n_mode (vnode c))) then ret (- ENOTDIR)
    else match children c with
    | _ :: _ => ret (- ENOTEMPTY)
    | [] =>
        _unlink_child dir_node child ;;;
        set_nlink child 0 ;;;
        rel child ;;;
        ret 0
    end.

Definition tmpfs_symlink (dir_node : Z) (target nm : list Z) (cred : vfs_cred) : M fs Z :=
  let* r := _create_child dir_node nm (Z.lor VFS_S_IFLNK 511) cred in
  if negb (r.1 =? 0) then ret r.1
  else
    upd_tmp r.2 (fun t => set_vnode (with_size (vnode t) (Z.of_nat (length target))) t) ;;;
    rel r.2 ;;;
    ret 0.

Definition tmpfs_link (dir_node : Z) (nm : list Z) (target : Z) : M fs Z :=
  let* c := _find_child dir_node nm in
  let len := Z.of_nat (length nm) in
  if negb (c =? 0) then ret (- EEXIST)
  else if (len =? 0) || (VFS_NAME_MAX <? len) then ret (if len =? 0 then - EINVAL else - ENAMETOOLONG)
  else
    let* v := get_node dir_node in
    if negb (VFS_S_ISDIR (n_mode v)) then ret (- ENOTDIR)
    else
      let* tn := get_tmp target in
      let tv := vnode tn in
      let cv := with_size (with_nlink (vfs_node_init TMPFS_OPS (n_mode tv) (n_uid tv) (n_gid tv)) 1) (n_size tv) in
      let* child := alloc (OTmp (mkTmp cv 0 [] nm (pages tn) (page_count tn) (page_cap tn))) in
      if child =? 0 then ret (- ENOMEM)
      else
        _insert_child dir_node child ;;;
        let* tv := get_node target in
        put_node target (with_nlink tv (u32 (n_nlink tv + 1))) ;;;
        ret 0.

(** [while (root->parent != root) root = root->parent] *)
Fixpoint root_loop (fuel : nat) (a : Z) : M fs Z :=
  match fuel with
  | O => diverge
  | S f => let* t := get_tmp a in if parent t =? a then ret a else root_loop f (parent t)
  end.
(** Is [child] on the way from [cur] to the root? *)
Fixpoint ancestor_loop (fuel : nat) (cur child : Z) : M fs bool :=
  match fuel with
  | O => diverge
  | S f =>
      if cur =? 0 then ret false
      else if cur =? child then ret true
      else
        let* t := get_tmp cur in
        if cur =? parent t then ret false else ancestor_loop f (parent t) child
  end.

(** The way to the root is at most the number of objects. *)
Definition tmpfs_rename (old_dir : Z) (old_name : list Z) (new_dir : Z) (new_name : list Z) : M fs Z :=
  let* ov := get_node old_dir in
  let* nv := get_node new_dir in
  let new_len := Z.of_nat (length new_name) in
  if negb (VFS_S_ISDIR (n_mode ov)) || negb (VFS_S_ISDIR (n_mode nv)) then ret (- ENOTDIR)
  else if (new_len =? 0) || (VFS_NAME_MAX <? new_len) then ret (if new_len =? 0 then - EINVAL else - ENAMETOOLONG)
  else
    let* n := gets (fun s => S (size (objs s))) in
    let* old_root := root_loop n old_dir in
    let* new_root := root_loop n new_dir in
    if negb (old_root =? new_root) then ret (- EXDEV)
    else
      let* child := _find_child old_dir old_name in
      if child =? 0 then ret (- ENOENT)
      else
        let* c := get_tmp child in
        if (old_dir =? new_dir) && _name_eq c new_name then ret 0
        else
          let cdir := VFS_S_ISDIR (n_mode (vnode c)) in
          let* anc := (if cdir then ancestor_loop n new_dir child else ret false) in
          if anc then ret (- EINVAL)
          else
            let finish :=
              _unlink_child old_dir child ;;;
              upd_tmp child (set_name new_name) ;;;
              _insert_child new_dir child ;;;
              ret 0 in
            let* target := _find_child new_dir new_name in
            if target =? 0 then finish
            else if target =? child then ret 0
            else
              let* t := get_tmp target in
              let tdir := VFS_S_ISDIR (n_mode (vnode t)) in
              if negb (Bool.eqb cdir tdir) then ret (if cdir then - ENOTDIR else - EISDIR)
              else if tdir && negb (bool_decide (children t = [])) then ret (- ENOTEMPTY)
              else
                _unlink_child new_dir target ;;;
                set_nlink target 0 ;;;
                rel target ;;;
                finish.
End names.

(** ** Contents of files *)

Section data.
(** What a fresh array holds. *)
Variable junk : option Z.

(** [while (new_cap < count) new_cap *= 2] *)
Fixpoint grow_cap (fuel : nat) (new_cap count : Z) : M fs Z :=
  match fuel with
  | O => diverge
  | S f => if new_cap <? count then grow_cap f (u64 (new_cap * 2)) count else ret new_cap
  end.

Definition _ensure_pages (node count : Z) : M fs Z :=
  let* t := get_tmp node in
  if count <=? page_cap t then ret 0
  else
    let* new_cap := grow_cap 65 (if page_cap t =? 0 then 4 else page_cap t) count in
    let* ps := krealloc_arr junk (pages t) (u64 (new_cap * 8)) in
    if ps =? 0 then ret (- ENOMEM)
    else
      arr_zero ps (page_cap t) (new_cap - page_cap t) ;;;
      upd_tmp node (fun t => set_pages ps (page_count t) new_cap t) ;;;
      ret 0.

(** The result, and the page. *)
Definition _ensure_page (node index : Z) : M fs (Z * option Z) :=
  let* r := _ensure_pages node (u64 (index + 1)) in
  if negb (r =? 0) then ret (r, None)
  else
    let* t := get_tmp node in
    let* p := arr_load (pages t) index in
    let* ok :=
      match p with
      | Some _ => ret true
      | None =>
          let* page := palloc_page in
          match page with
          | None => ret false
          | Some pg =>
              frame_store pg 0 (replicate (Z.to_nat PAGE_SIZE) 0) ;;;
              arr_store (pages t) index (Some pg) ;;;
              ret true
          end
      end in
    if negb ok then ret (- ENOMEM, None)
    else
      (if page_count t <? u64 (index + 1)
       then upd_tmp node (fun t => set_pages (pages t) (u64 (index + 1)) (page_cap t) t) else ret tt) ;;;
      let* p := arr_load (pages t) index in
      ret (0, p).

(** [for (i = first; i < page_count; i++)]: [n] rounds. *)
Fixpoint free_loop (n : nat) (ps i : Z) : M fs unit :=
  match n with
  | O => ret tt
  | S n =>
      let* p := arr_load ps i in
      match p with
      | None => ret tt
      | Some p => page_unref p ;;; arr_store ps i None
      end ;;;
      free_loop n ps (i + 1)
  end.
Definition _free_pages_from (node first : Z) : M fs unit :=
  let* t := get_tmp node in
  if pages t =? 0 then ret tt
  else
    free_loop (Z.to_nat (page_count t - first)) (pages t) first ;;;
    if first <? page_count t then upd_tmp node (fun t => set_pages (pages t) first (page_cap t) t) else ret tt.

(** [todo] bytes at [off]. *)
Fixpoint read_loop (fuel : nat) (tn off todo copied : Z) : M fs (list Z) :=
  if todo <=? copied then ret []
  else match fuel with
  | O => diverge
  | S f =>
      let pos := u64 (off + copied) in
      let page_index := pos / PAGE_SIZE in
      let page_off := Z.land pos (PAGE_SIZE - 1) in
      let chunk := Z.min (PAGE_SIZE - page_off) (todo - copied) in
      let* t := get_tmp tn in
      let* p := (if page_index <? page_count t then arr_load (pages t) page_index else ret None) in
      let* d := match p with
                | Some p => frame_load p page_off chunk
                | None => ret (replicate (Z.to_nat chunk) 0)
                end in
      let* rest := read_loop f tn off todo (copied + chunk) in
      ret (d ++ rest)
  end.
Definition chunks (n : Z) : nat := Z.to_nat (n / PAGE_SIZE + 2).

(** The result and the bytes copied to the buffer, [*done] of them. *)
Definition tmpfs_read (node off len : Z) : M fs (Z * list Z) :=
  let* v := get_node node in
  if negb (VFS_S_ISREG (n_mode v)) then ret (- EISDIR, [])
  else if (n_size v <=? off) || (len =? 0) then ret (0, [])
  else
    let todo := Z.min len (n_size v - off) in
    let* d := read_loop (chunks todo) node off todo 0 in
    ret (0, d).

(** The number of bytes copied, and the error that stopped it. *)
Fixpoint write_loop (fuel : nat) (tn off : Z) (buf : list Z) (copied : Z) : M fs (Z * Z) :=
  if Z.of_nat (length buf) <=? copied then ret (copied, 0)
  else match fuel with
  | O => diverge
  | S f =>
      let pos := u64 (off + copied) in
      let page_index := pos / PAGE_SIZE in
      let page_off := Z.land pos (PAGE_SIZE - 1) in
      let chunk := Z.min (PAGE_SIZE - page_off) (Z.of_nat (length buf) - copied) in
      let* r := _ensure_page tn page_index in
      if negb (r.1 =? 0) then ret (copied, r.1)
      else
        match r.2 with
        | None => fault
        | Some page =>
            frame_store page page_off (take (Z.to_nat chunk) (drop (Z.to_nat copied) buf)) ;;;
            write_loop f tn off buf (copied + chunk)
        end
  end.
Definition tmpfs_write (node off : Z) (buf : list Z) : M fs (Z * Z) :=
  let* v := get_node node in
  if negb (VFS_S_ISREG (n_mode v)) then ret (- EISDIR, 0)
  else
    let* w := write_loop (chunks (Z.of_nat (length buf))) node off buf 0 in
    let (copied, r) := w in
    if negb (r =? 0) then ret (if copied =? 0 then r else 0, copied)
    else
      let* v := get_node node in
      (if n_size v <? u64 (off + copied) then put_node node (with_size v (u64 (off + copied))) else ret tt) ;;;
      ret (0, copied).

Definition tmpfs_truncate (node size : Z) : M fs Z :=
  let* v := get_node node in
  if negb (VFS_S_ISREG (n_mode v)) then ret (- EISDIR)
  else
    let keep_pages := u64 (size + PAGE_SIZE - 1) / PAGE_SIZE in
    let* t := get_tmp node in
    (if keep_pages <? page_count t then _free_pages_from node keep_pages else ret tt) ;;;
    let* r := (if (n_size v <? size) && (0 <? keep_pages) then _ensure_page node (keep_pages - 1) else ret (0, None)) in
    if negb (r.1 =? 0) then ret r.1
    else
      let* v := get_node node in
      put_node node (with_size v size) ;;;
      let* t := get_tmp node in
      let tail := Z.land size (PAGE_SIZE - 1) in
      (if negb (tail =? 0) && (0 <? keep_pages) && (keep_pages - 1 <? page_count t) then
         let* p := arr_load (pages t) (keep_pages - 1) in
         match p with
         | Some p => frame_store p tail (replicate (Z.to_nat (PAGE_SIZE - tail)) 0)
         | None => ret tt
         end
       else ret tt) ;;;
      ret 0.

Definition tmpfs_get_page (node page_index for_write : Z) : M fs (Z * option Z) :=
  let* v := get_node node in
  if negb (VFS_S_ISREG (n_mode v)) then ret (- EISDIR, None)
  else if 2 ^ 64 - 1 - 1 <? page_index then ret (- EINVAL, None)
  else _ensure_page node page_index.
End data.

(** ** The last reference *)

Fixpoint release_loop (fuel : nat) (rel : Z -> M fs unit) (tn : Z) : M fs unit :=
  let* t := get_tmp tn in
  match children t with
  | [] => ret tt
  | child :: _ =>
      match fuel with
      | O => diverge
      | S f =>
          _unlink_child tn child ;;;
          set_nlink child 0 ;;;
          rel child ;;;
          release_loop f rel tn
      end
  end.
(** Every round removes a child. *)
Definition tmpfs_release (rel : Z -> M fs unit) (node : Z) : M fs unit :=
  let* t := get_tmp node in
  release_loop (length (children t)) rel node ;;;
  _free_pages_from node 0 ;;;
  let* t := get_tmp node in
  free (pages t) ;;;
  free node.

Definition tmpfs_ops (junk : option Z) (rel : Z -> M fs unit) : vfs_ops := {|
  op_lookup := Some tmpfs_lookup;
  op_create := Some tmpfs_create;
  op_mkdir := Some tmpfs_mkdir;
  op_unlink := Some (tmpfs_unlink rel);
  op_rmdir := Some (tmpfs_rmdir rel);
  op_symlink := Some (tmpfs_symlink rel);
  op_link := Some tmpfs_link;
  op_rename := Some (tmpfs_rename rel);
  op_read := Some tmpfs_read;
  op_write := Some (tmpfs_write junk);
  op_open := None;
  op_ioctl := None;
  op_poll := None;
  op_close := None;
  op_fsync := None;
  op_fadvise := None;
  op_mmap := None;
  op_readdir := Some tmpfs_readdir;
  op_truncate := Some (tmpfs_truncate junk);
  op_get_page := Some (tmpfs_get_page junk);
|}.
