(* ===== verification/TmpfsProps.v ===== *)
(** * Files of the memory file system are byte sequences

    The contents of a file as a list of bytes, read off the page arrays and frames; the
    invariant under which files do not share pages; what reading, writing and truncating
    do to the contents of all files. *)

From stdpp Require Import gmap list.
From Stdlib Require Import ZArith Lia ZifyClasses.
From S2P Require Import Prelude Pmm Heap Pipe VfsBase Tmpfs.

Local Open Scope Z_scope.

(** The bytes of a page, a constant for [lia]. *)
Definition PGSZ : nat := Z.to_nat 4096.
Arguments PGSZ : simpl never.
#[global] Instance PGSZ_cst : ZifyClasses.CstOp PGSZ := { TCst := 4096; TCstInj := eq_refl }.
Add Zify CstOp PGSZ_cst.

(** ** Contents *)

Definition arr_of (s : fs) (t : tmpfs_node) : list (option Z) :=
  match objs s !! pages t with Some (OArr l) => l | _ => [] end.

(** The frame behind page [i] of the node at [a]. *)
Definition page_at (s : fs) (a : Z) (i : nat) : option Z :=
  match objs s !! a with
  | Some (OTmp t) => match arr_of s t !! i with Some (Some p) => Some p | _ => None end
  | _ => None
  end.

Definition frame_byte (s : fs) (p : Z) (j : nat) : Z :=
  match bytes s !! p with Some b => nth j b 0 | None => 0 end.

(** Byte [i] of the node at [a], whatever its size: holes are zero. *)
Definition file_byte (s : fs) (a : Z) (i : nat) : Z :=
  match page_at s a (i / PGSZ)%nat with Some p => frame_byte s p (i mod PGSZ)%nat | None => 0 end.

Definition file_size (s : fs) (a : Z) : Z :=
  match objs s !! a with Some (OTmp t) => n_size (vnode t) | _ => 0 end.
Definition contents (s : fs) (a : Z) : list Z := file_byte s a <$> seq 0 (Z.to_nat (file_size s a)).

(** Everything but the page arrays and the fields that lead to them. *)
Definition view (s : fs) (x : Z) : option obj :=
  match objs s !! x with
  | Some (OTmp t) => Some (OTmp (Tmpfs.set_pages 0 0 0 t))
  | Some (OArr _) => None
  | o => o
  end.

(** ** The invariant *)

(** The array has the capacity of the node; the capacity doubles from 4 and the array
    fits in one object of at most a page. *)
Record node_wf (s : fs) (t : tmpfs_node) : Prop := {
  nw_cap : (pages t = 0 /\ page_cap t = 0) \/
    (exists k l, (k <= 7)%nat /\ page_cap t = 4 * 2 ^ Z.of_nat k /\
       objs s !! pages t = Some (OArr l) /\ Z.of_nat (length l) = page_cap t);
  nw_count : 0 <= page_count t <= page_cap t;
  nw_entries : forall i p, arr_of s t !! i = Some (Some p) -> Z.of_nat i < page_count t;
  nw_size : 0 <= n_size (vnode t) < 2 ^ 63;
}.

Definition frame_ok (s : fs) (p : Z) : Prop := exists b, bytes s !! p = Some b /\ length b = PGSZ.

Record fs_wf (s : fs) : Prop := {
  fw_null : objs s !! 0 = None;
  fw_pos : 0 < next_addr s;
  fw_next : forall a, is_Some (objs s !! a) -> a < next_addr s;
  fw_nodes : forall a t, objs s !! a = Some (OTmp t) -> node_wf s t;
  fw_arrs : forall a a' t t', objs s !! a = Some (OTmp t) -> objs s !! a' = Some (OTmp t') ->
    pages t = pages t' -> pages t <> 0 -> a = a';
  fw_pages : forall a i p, page_at s a i = Some p ->
    (exists st, used_frames s !! p = Some st /\ u_share st = 0 /\ 0 < u_ref st) /\ frame_ok s p;
  fw_inj : forall a i a' i' p, page_at s a i = Some p -> page_at s a' i' = Some p -> a = a' /\ i = i';
  fw_nodup : NoDup (free_frames s);
  fw_free : forall p, p ∈ free_frames s -> used_frames s !! p = None /\ frame_ok s p;
}.

(** Behind the end of every file there is nothing but zeros. *)
Definition zero_tails (s : fs) : Prop := forall a i, file_size s a <= Z.of_nat i -> file_byte s a i = 0.

(** ** Access to objects *)

(** [data] over the bytes from [off] on. *)
Definition splice (b : list Z) (off : nat) (data : list Z) : list Z :=
  take off b ++ data ++ drop (off + length data) b.

Lemma get_tmp_eq s a t : objs s !! a = Some (OTmp t) -> get_tmp a s = Ret t s.
Proof. unfold get_tmp. by intros ->. Qed.
Lemma get_node_tmp s a t : objs s !! a = Some (OTmp t) -> get_node a s = Ret (vnode t) s.
Proof. unfold get_node. by intros ->. Qed.
Lemma put_node_tmp s a t v : objs s !! a = Some (OTmp t) ->
  put_node a v s = Ret tt (set_objs (insert a (OTmp (set_vnode v t))) s).
Proof. unfold put_node. by intros ->. Qed.
Lemma upd_tmp_eq s a t f : objs s !! a = Some (OTmp t) ->
  upd_tmp a f s = Ret tt (set_objs (insert a (OTmp (f t))) s).
Proof. intros H. unfold upd_tmp. by rewrite (bind_ret _ _ _ _ _ (get_tmp_eq _ _ _ H)). Qed.
Lemma get_arr_eq s a l : objs s !! a = Some (OArr l) -> get_arr a s = Ret l s.
Proof. unfold get_arr. by intros ->. Qed.
Lemma arr_load_eq s a l i v : objs s !! a = Some (OArr l) -> 0 <= i -> l !! Z.to_nat i = Some v ->
  arr_load a i s = Ret v s.
Proof.
  intros H Hi Hv. unfold arr_load. rewrite (bind_ret _ _ _ _ _ (get_arr_eq _ _ _ H)).
  rewrite (proj2 (Z.ltb_ge _ _)) by lia. by rewrite Hv.
Qed.
Lemma arr_load_nat s a l i v : objs s !! a = Some (OArr l) -> l !! i = Some v -> arr_load a (Z.of_nat i) s = Ret v s.
Proof. intros H Hv. apply (arr_load_eq _ _ l); [done|lia|by rewrite Nat2Z.id]. Qed.
Lemma arr_store_eq s a l i v : objs s !! a = Some (OArr l) -> 0 <= i < Z.of_nat (length l) ->
  arr_store a i v s = Ret tt (set_objs (insert a (OArr (<[Z.to_nat i := v]> l))) s).
Proof.
  intros H Hi. unfold arr_store. rewrite (bind_ret _ _ _ _ _ (get_arr_eq _ _ _ H)).
  rewrite (proj2 (Z.leb_le _ _)), (proj2 (Z.ltb_lt _ _)) by lia. done.
Qed.

Lemma frame_load_eq s p b off n : bytes s !! p = Some b -> 0 <= off -> 0 <= n -> off + n <= Z.of_nat (length b) ->
  frame_load p off n s = Ret (take (Z.to_nat n) (drop (Z.to_nat off) b)) s.
Proof.
  intros H H0 Hn Hb. unfold frame_load. rewrite H.
  by rewrite (proj2 (Z.leb_le _ _)), (proj2 (Z.leb_le 0 n)), (proj2 (Z.leb_le (off + n) _)) by lia.
Qed.
Lemma frame_store_eq s p b off data : bytes s !! p = Some b -> 0 <= off ->
  off + Z.of_nat (length data) <= Z.of_nat (length b) ->
  frame_store p off data s =
    Ret tt (set_bytes (insert p (splice b (Z.to_nat off) data)) s).
Proof.
  intros H H0 Hb. unfold frame_store. rewrite H. by rewrite !(proj2 (Z.leb_le _ _)) by lia.
Qed.

(** ** Lists of bytes *)

Lemma splice_length b off data : (off + length data <= length b)%nat -> length (splice b off data) = length b.
Proof. intros H. unfold splice. rewrite !length_app, length_take, length_drop. lia. Qed.
Lemma splice_nth b off data j : (off + length data <= length b)%nat ->
  nth j (splice b off data) 0 =
  if decide ((off <= j < off + length data)%nat) then nth (j - off) data 0 else nth j b 0.
Proof.
  intros H. unfold splice. destruct (decide _) as [Hd|Hd].
  - rewrite app_nth2; rewrite length_take; [|lia]. rewrite app_nth1 by lia. f_equal. lia.
  - destruct (decide (j < off)%nat) as [Hj|Hj].
    + rewrite app_nth1 by (rewrite length_take; lia). rewrite nth_firstn. by rewrite (proj2 (Nat.ltb_lt _ _)) by lia.
    + rewrite app_nth2; rewrite length_take; [|lia]. rewrite app_nth2 by lia. rewrite nth_skipn. f_equal. lia.
Qed.

(** Reading off a list: [contents] is determined by the bytes. *)
Lemma contents_length s a : length (contents s a) = Z.to_nat (file_size s a).
Proof. unfold contents. by rewrite length_fmap, length_seq. Qed.
Lemma contents_nth s a i : (i < Z.to_nat (file_size s a))%nat -> nth i (contents s a) 0 = file_byte s a i.
Proof.
  intros H. assert (contents s a !! i = Some (file_byte s a i)) as E.
  { unfold contents. by rewrite list_lookup_fmap, lookup_seq_lt. }
  by apply nth_lookup_Some.
Qed.
Lemma nth_ext_z (l k : list Z) : length l = length k -> (forall i, (i < length l)%nat -> nth i l 0 = nth i k 0) -> l = k.
Proof. intros Hl Hn. by apply (nth_ext _ _ 0 0). Qed.
(** With zeros behind the end the byte function is the list. *)
Lemma file_byte_contents s a i : zero_tails s -> file_byte s a i = nth i (contents s a) 0.
Proof.
  intros Z. destruct (decide (i < Z.to_nat (file_size s a))%nat) as [H|H]; [by rewrite contents_nth|].
  rewrite nth_overflow by (rewrite contents_length; lia). apply Z.
  destruct (decide (file_size s a <= 0)); lia.
Qed.

Lemma nth_zeros n j : nth j (replicate n 0) 0 = 0.
Proof. revert j. induction n as [|n IH]; intros [|j]; try done. apply IH. Qed.
Lemma page_idx i j : (i * PGSZ <= j < i * PGSZ + PGSZ)%nat -> (j / PGSZ)%nat = i.
Proof. intros H. symmetry. apply Nat.div_unique with (j - i * PGSZ)%nat; lia. Qed.

(** ** A page is stored to *)

Lemma frame_byte_store s p b off data q j :
  bytes s !! p = Some b -> (off + length data <= length b)%nat ->
  frame_byte (set_bytes (insert p (splice b off data)) s) q j =
  if decide (q = p /\ (off <= j < off + length data)%nat) then nth (j - off) data 0 else frame_byte s q j.
Proof.
  intros Hb Hl. unfold frame_byte. simpl. destruct (decide (q = p)) as [->|Hq].
  - rewrite lookup_insert_eq, Hb, splice_nth by done. by repeat destruct (decide _); try tauto.
  - rewrite lookup_insert_ne by done. destruct (decide _) as [[? _]|]; [done|]. done.
Qed.

Lemma frame_ok_store s p b b' q : bytes s !! p = Some b -> length b' = length b ->
  frame_ok s q -> frame_ok (set_bytes (insert p b') s) q.
Proof.
  intros Hb Hl (c & Hc & Hlc). unfold frame_ok. simpl. destruct (decide (q = p)) as [->|].
  - rewrite lookup_insert_eq. exists b'. split; [done|]. congruence.
  - rewrite lookup_insert_ne by done. by exists c.
Qed.

(** Writing [data] into page [i] of [a] changes those bytes of [a] and no others. *)
Lemma file_byte_store s a i p b off data a' j :
  fs_wf s -> page_at s a i = Some p -> bytes s !! p = Some b -> (off + length data <= PGSZ)%nat ->
  length b = PGSZ ->
  file_byte (set_bytes (insert p (splice b off data)) s) a' j =
  if decide (a' = a /\ (i * PGSZ + off <= j < i * PGSZ + off + length data)%nat)
  then nth (j - (i * PGSZ + off)) data 0 else file_byte s a' j.
Proof.
  intros W Hp Hb Hl Hlb. unfold file_byte at 1. change (page_at (set_bytes _ s) a' (j / PGSZ)) with (page_at s a' (j / PGSZ)).
  assert (Hj : j = (j / PGSZ * PGSZ + j mod PGSZ)%nat) by (rewrite Nat.mul_comm; apply Nat.div_mod; lia).
  assert (Hm : (j mod PGSZ < PGSZ)%nat) by (apply Nat.mod_upper_bound; lia).
  destruct (page_at s a' (j / PGSZ)) as [q|] eqn:E.
  - rewrite frame_byte_store by (try done; lia). unfold file_byte. rewrite E.
    destruct (decide (q = p)) as [->|Hq].
    + destruct (fw_inj _ W _ _ _ _ _ Hp E) as [-> ->].
      repeat destruct (decide _); try lia; try done. f_equal. lia.
    + destruct (decide _) as [[? _]|_]; [done|]. destruct (decide _) as [[-> Hr]|_]; [|done].
      assert ((j / PGSZ)%nat = i) by (apply page_idx; lia). congruence.
  - unfold file_byte. rewrite E. destruct (decide _) as [[-> Hr]|_]; [|done].
    assert ((j / PGSZ)%nat = i) by (apply page_idx; lia). congruence.
Qed.

(** ** Facts about well-formed nodes *)

Lemma wf_arr s a t : fs_wf s -> objs s !! a = Some (OTmp t) -> 0 < page_cap t ->
  exists l, objs s !! pages t = Some (OArr l) /\ Z.of_nat (length l) = page_cap t /\ arr_of s t = l.
Proof.
  intros W Ha Hc. destruct (nw_cap _ _ (fw_nodes _ W _ _ Ha)) as [[_ ?]|(k & l & _ & _ & Hl & Hlen)]; [lia|].
  exists l. split; [done|]. split; [done|]. unfold arr_of. by rewrite Hl.
Qed.

Lemma page_at_tmp s a t i : objs s !! a = Some (OTmp t) ->
  page_at s a i = match arr_of s t !! i with Some (Some p) => Some p | _ => None end.
Proof. unfold page_at. by intros ->. Qed.

(** ** Growing the array *)

Lemma grow_cap_ok fuel k count (s : fs) :
  (k <= 7)%nat -> count <= 512 -> (7 - k < fuel)%nat ->
  exists k', (k <= k' <= 7)%nat /\ count <= 4 * 2 ^ Z.of_nat k' /\
    (4 * 2 ^ Z.of_nat k < count -> (k < k')%nat) /\
    grow_cap fuel (4 * 2 ^ Z.of_nat k) count s = Ret (4 * 2 ^ Z.of_nat k') s.
Proof.
  revert k. induction fuel as [|fuel IH]; intros k Hk Hc Hf; [lia|]. simpl grow_cap.
  destruct (_ <? count) eqn:E; bools.
  - assert (k < 7)%nat as Hlt.
    { destruct (decide (k = 7%nat)) as [->|]; [change (4 * 2 ^ Z.of_nat 7) with 512 in E|]; lia. }
    assert (u64 (4 * 2 ^ Z.of_nat k * 2) = 4 * 2 ^ Z.of_nat (S k)) as ->.
    { rewrite Nat2Z.inj_succ, Z.pow_succ_r by lia. rewrite u64_small; [lia|].
      assert (0 < 2 ^ Z.of_nat k <= 2 ^ 7); [|lia]. split; [lia|]. apply Z.pow_le_mono_r; lia. }
    destruct (IH (S k)) as (k' & ? & ? & _ & ->); [lia|done|lia|]. exists k'. repeat split; try lia.
  - exists k. repeat split; try lia.
Qed.

Lemma usable_cap k : (k <= 7)%nat -> usable (4 * 2 ^ Z.of_nat k * 8) / 8 = 4 * 2 ^ Z.of_nat k.
Proof. intros H. do 8 (destruct k as [|k]; [vm_compute; reflexivity|]). lia. Qed.
Lemma cap_class k k' : (k < k' <= 7)%nat ->
  (cache_idx (4 * 2 ^ Z.of_nat k' * 8) =? cache_idx (4 * 2 ^ Z.of_nat k * 8))%nat = false.
Proof.
  intros H. do 8 (destruct k as [|k]; [do 8 (destruct k' as [|k']; [try lia; vm_compute; reflexivity|]); lia|]). lia.
Qed.
Lemma cap_range k : (k <= 7)%nat -> 4 <= 4 * 2 ^ Z.of_nat k <= 512.
Proof. intros H. do 8 (destruct k as [|k]; [vm_compute; split; discriminate|]). lia. Qed.

(** The store once the array of the node at [a] is [l] at [ps]. *)
Definition moved (s : fs) (a : Z) (t : tmpfs_node) (ps : Z) (l : list (option Z)) : gmap Z obj :=
  <[a := OTmp (Tmpfs.set_pages ps (page_count t) (Z.of_nat (length l)) t)]>
    (<[ps := OArr l]> (delete (pages t) (objs s))).

Lemma krealloc_cap junk s a t k :
  fs_wf s -> objs s !! a = Some (OTmp t) -> (0 < budget s)%nat -> (k <= 7)%nat -> page_cap t < 4 * 2 ^ Z.of_nat k ->
  exists l', krealloc_arr junk (pages t) (4 * 2 ^ Z.of_nat k * 8) s =
    Ret (next_addr s) (mkFs (<[next_addr s := OArr (arr_of s t ++ l')]> (delete (pages t) (objs s)))
      (next_addr s + 1) (budget s - 1) (free_frames s) (used_frames s) (bytes s) (root_node s) (mounts s)) /\
    Z.of_nat (length (arr_of s t ++ l')) = 4 * 2 ^ Z.of_nat k.
Proof.
  intros W Ha Hb Hk Hcap. pose proof (cap_range k Hk) as Hr.
  assert (Hpos := fw_pos _ W). destruct (budget s) as [|bd] eqn:Ebd; [lia|]. rewrite Nat.sub_succ, Nat.sub_0_r.
  assert (Hal : forall o, alloc o s = Ret (next_addr s) (mkFs (<[next_addr s := o]> (objs s))
      (next_addr s + 1) bd (free_frames s) (used_frames s) (bytes s) (root_node s) (mounts s))).
  { intros o. unfold alloc. by rewrite Ebd. }
  unfold krealloc_arr, kmalloc_arr. rewrite (proj2 (Z.eqb_neq (4 * 2 ^ Z.of_nat k * 8) 0)) by lia.
  rewrite usable_cap by done.
  destruct (nw_cap _ _ (fw_nodes _ W _ _ Ha)) as [[Hp Hc]|(k0 & l & Hk0 & Hc & Hl & Hlen)].
  - rewrite Hp. cbn [Z.eqb]. rewrite Hal. rewrite (delete_id (objs s)) by apply (fw_null _ W).
    assert (arr_of s t = []) as -> by (unfold arr_of; by rewrite Hp, (fw_null _ W)).
    eexists. split; [done|]. simpl. rewrite length_replicate. lia.
  - assert (arr_of s t = l) as -> by (unfold arr_of; by rewrite Hl).
    assert (Hp0 : pages t <> 0) by (intros E; rewrite E, (fw_null _ W) in Hl; done).
    assert (Hpn : pages t < next_addr s) by (apply (fw_next _ W); eauto).
    rewrite (proj2 (Z.eqb_neq _ _) Hp0), (bind_ret _ _ _ _ _ (get_arr_eq _ _ _ Hl)).
    rewrite Hlen, Hc, cap_class.
    2:{ split; [|done]. destruct (decide (k0 < k)%nat); [done|]. exfalso.
        assert (2 ^ Z.of_nat k <= 2 ^ Z.of_nat k0) by (apply Z.pow_le_mono_r; lia). lia. }
    rewrite (bind_ret _ _ _ _ _ (Hal _)), (proj2 (Z.eqb_neq (next_addr s) 0)) by lia.
    unfold bind at 1, get_arr. cbn [objs]. rewrite lookup_insert_eq. cbn beta iota.
    unfold bind, put, modify, free, ret. rewrite (proj2 (Z.eqb_neq _ _) Hp0). unfold set_objs. cbn [objs next_addr budget free_frames used_frames bytes root_node mounts].
    rewrite !lookup_insert_ne, Hl by lia. rewrite insert_insert_eq, delete_insert_ne by lia.
    rewrite Z.min_l by lia.
    replace (Z.to_nat (4 * 2 ^ Z.of_nat k0 * 8 / 8)) with (length l) by (rewrite Z.div_mul by lia; lia).
    rewrite firstn_all. eexists. split; [done|]. rewrite length_app, length_drop, length_replicate. lia.
Qed.

(** ** States that differ in the page arrays only *)

Lemma view_tmp s s' a t : view s' a = view s a -> objs s !! a = Some (OTmp t) ->
  exists t', objs s' !! a = Some (OTmp t') /\ Tmpfs.set_pages 0 0 0 t' = Tmpfs.set_pages 0 0 0 t.
Proof.
  unfold view. intros Hv Ha. rewrite Ha in Hv. destruct (objs s' !! a) as [[v|t'|l|f|]|]; try done.
  exists t'. split; [done|congruence].
Qed.
Lemma set_pages_vnode t t' : Tmpfs.set_pages 0 0 0 t' = Tmpfs.set_pages 0 0 0 t ->
  vnode t' = vnode t /\ parent t' = parent t /\ children t' = children t /\ name t' = name t.
Proof. intros E. by injection E. Qed.

Lemma view_size s s' a : view s' a = view s a -> file_size s' a = file_size s a.
Proof.
  unfold view, file_size. destruct (objs s' !! a) as [[|t'| | |]|], (objs s !! a) as [[|t| | |]|]; try done.
  intros E. assert (Tmpfs.set_pages 0 0 0 t' = Tmpfs.set_pages 0 0 0 t) as Et by congruence.
  by apply set_pages_vnode in Et as [-> _].
Qed.

(** The rest of the state: nothing but objects, pages and bytes differ. *)
Record same_but_data (s s' : fs) : Prop := {
  sb_view : forall x, view s' x = view s x;
  sb_root : root_node s' = root_node s;
  sb_mounts : mounts s' = mounts s;
}.
#[global] Instance same_refl : Reflexive same_but_data.
Proof. by split. Qed.
#[global] Instance same_trans : Transitive same_but_data.
Proof. intros s1 s2 s3 [] []. split; intros; etrans; eauto. Qed.

(** Another array at a new address: nothing changes that can be observed. *)
Record grown (s s' : fs) : Prop := {
  gr_same : same_but_data s s';
  gr_page : forall b i, page_at s' b i = page_at s b i;
  gr_bytes : bytes s' = bytes s;
  gr_free : free_frames s' = free_frames s;
  gr_used : used_frames s' = used_frames s;
  gr_budget : (budget s <= S (budget s'))%nat;
  gr_wf : fs_wf s';
}.

Lemma grown_refl s : fs_wf s -> grown s s.
Proof. intros W. by split; try done; lia. Qed.
Lemma grown_byte s s' a i : grown s s' -> file_byte s' a i = file_byte s a i.
Proof. intros G. unfold file_byte, frame_byte. by rewrite (gr_page _ _ G), (gr_bytes _ _ G). Qed.

Lemma wf_fresh s : fs_wf s -> objs s !! next_addr s = None.
Proof.
  intros W. destruct (objs s !! next_addr s) eqn:E; [|done]. pose proof (fw_next _ W (next_addr s)) as H.
  rewrite E in H. specialize (H ltac:(eauto)). lia.
Qed.
Lemma wf_pages_ne s a b t o : fs_wf s -> objs s !! a = Some (OTmp t) -> objs s !! b = Some o ->
  (forall l, o <> OArr l) -> pages t <> b.
Proof.
  intros W Ha Hb Ho E. destruct (nw_cap _ _ (fw_nodes _ W _ _ Ha)) as [[Hp _]|(? & l & _ & _ & Hp & _)]; rewrite E in Hp.
  - by rewrite Hp, (fw_null _ W) in Hb.
  - rewrite Hb in Hp. injection Hp as ->. by destruct (Ho l).
Qed.
Lemma wf_addr_ne s a t : fs_wf s -> objs s !! a = Some (OTmp t) -> a <> next_addr s.
Proof. intros W Ha E. rewrite E, wf_fresh in Ha; done. Qed.

Section moved.
Context (s : fs) (a : Z) (t : tmpfs_node) (bd : nat).
Context (W : fs_wf s) (Ha : objs s !! a = Some (OTmp t)) (n : nat).
Let l := arr_of s t ++ replicate n None.
Context (k : nat) (Hk : (k <= 7)%nat) (Hlen : Z.of_nat (length l) = 4 * 2 ^ Z.of_nat k).
Context (Hcap : page_cap t <= Z.of_nat (length l)).
Let s' := mkFs (moved s a t (next_addr s) l) (next_addr s + 1) bd (free_frames s) (used_frames s) (bytes s)
  (root_node s) (mounts s).

Lemma moved_lookup x : objs s' !! x =
  if decide (x = a) then Some (OTmp (Tmpfs.set_pages (next_addr s) (page_count t) (Z.of_nat (length l)) t))
  else if decide (x = next_addr s) then Some (OArr l)
  else if decide (x = pages t) then None else objs s !! x.
Proof.
  unfold s', moved. cbn [objs]. destruct (decide (x = a)) as [->|]; [by rewrite lookup_insert_eq|].
  rewrite lookup_insert_ne by done. destruct (decide (x = next_addr s)) as [->|]; [by rewrite lookup_insert_eq|].
  rewrite lookup_insert_ne by done. destruct (decide (x = pages t)) as [->|]; [by rewrite lookup_delete_eq|].
  by rewrite lookup_delete_ne by done.
Qed.

(** The other nodes keep their arrays. *)
Lemma moved_other b t2 : b <> a -> objs s' !! b = Some (OTmp t2) ->
  objs s !! b = Some (OTmp t2) /\ (pages t2 = 0 \/ objs s' !! pages t2 = objs s !! pages t2) /\ arr_of s' t2 = arr_of s t2.
Proof.
  intros Hb. rewrite moved_lookup. repeat destruct (decide _); try done. intros Hb2. split; [done|].
  destruct (decide (pages t2 = 0)) as [E0|E0].
  { split; [by left|]. unfold arr_of. rewrite E0, moved_lookup. pose proof (fw_pos _ W). rewrite (fw_null _ W).
    repeat destruct (decide _); try done; subst; lia. }
  assert (objs s' !! pages t2 = objs s !! pages t2) as E.
  { rewrite moved_lookup. destruct (nw_cap _ _ (fw_nodes _ W _ _ Hb2)) as [[? _]|(? & ? & _ & _ & Hp & _)]; [done|].
    repeat destruct (decide _) as [Ex|]; try done.
    - by rewrite Ex, Ha in Hp.
    - by rewrite Ex, wf_fresh in Hp.
    - exfalso. by apply Hb, (fw_arrs _ W b a t2 t). }
  split; [by right|]. unfold arr_of. by rewrite E.
Qed.

Lemma moved_arr : arr_of s' (Tmpfs.set_pages (next_addr s) (page_count t) (Z.of_nat (length l)) t) = l.
Proof.
  unfold arr_of. cbn [pages Tmpfs.set_pages]. rewrite moved_lookup. pose proof (wf_addr_ne _ _ _ W Ha).
  repeat destruct (decide _); done.
Qed.

Lemma moved_page b i : page_at s' b i = page_at s b i.
Proof.
  destruct (decide (b = a)) as [->|Hb].
  - rewrite (page_at_tmp s a t i Ha). unfold page_at. rewrite moved_lookup. destruct (decide (a = a)); [|done].
    rewrite moved_arr. unfold l. destruct (decide (i < length (arr_of s t))%nat) as [Hi|Hi].
    + by rewrite lookup_app_l by done.
    + rewrite lookup_app_r by lia. rewrite (lookup_ge_None_2 (arr_of s t)) by lia.
      destruct (replicate n None !! _) as [o|] eqn:E; [|done]. apply lookup_replicate in E as [-> _]. done.
  - unfold page_at at 1. destruct (objs s' !! b) as [[| t2 | | |]|] eqn:E.
    2:{ destruct (moved_other b t2 Hb E) as (E2 & _ & Ear). by rewrite (page_at_tmp _ _ _ _ E2), Ear. }
    all: rewrite moved_lookup in E; pose proof (wf_fresh _ W) as Hn; unfold page_at;
      repeat destruct (decide _); try done; subst; try (by rewrite E); try (by rewrite Hn).
    destruct (nw_cap _ _ (fw_nodes _ W _ _ Ha)) as [[Hp _]|(? & ? & _ & _ & Hp & _)]; rewrite Hp; [by rewrite (fw_null _ W)|done].
Qed.

Lemma moved_view x : view s' x = view s x.
Proof.
  unfold view. rewrite moved_lookup. pose proof (wf_fresh _ W) as Hn. destruct (decide (x = a)) as [->|Hx]; [by rewrite Ha|].
  repeat destruct (decide _); try done; subst; [by rewrite Hn|].
  destruct (nw_cap _ _ (fw_nodes _ W _ _ Ha)) as [[Hp _]|(? & ? & _ & _ & Hp & _)]; rewrite Hp; [by rewrite (fw_null _ W)|done].
Qed.

Lemma moved_wf : fs_wf s'.
Proof.
  pose proof (wf_fresh _ W) as Hn. pose proof (wf_addr_ne _ _ _ W Ha) as Hna. pose proof (fw_pos _ W) as Hpos.
  split.
  - rewrite moved_lookup. repeat destruct (decide _); try done; subst; [|lia|apply (fw_null _ W)]. by rewrite (fw_null _ W) in Ha.
  - simpl. lia.
  - intros x. rewrite moved_lookup. intros Hx. simpl. enough (x <= next_addr s) by lia.
    repeat destruct (decide _); subst; try lia; try (by destruct Hx as [? [=]]).
    + pose proof (fw_next _ W a ltac:(eauto)); lia.
    + pose proof (fw_next _ W _ Hx). lia.
  - intros b t2 Hb. destruct (decide (b = a)) as [->|Hne].
    + rewrite moved_lookup in Hb. destruct (decide (a = a)); [|done]. injection Hb as <-.
      pose proof (fw_nodes _ W _ _ Ha) as [_ Hc He Hs]. split; cbn [page_cap pages page_count vnode Tmpfs.set_pages]; [|lia| |done].
      * right. exists k, l. rewrite moved_lookup. by repeat destruct (decide _).
      * intros i p. rewrite moved_arr. unfold l. intros Hl. apply (He i p).
        apply lookup_app_Some in Hl as [?|[_ Hl]]; [done|]. by apply lookup_replicate in Hl as [? _].
    + destruct (moved_other b t2 Hne Hb) as (Hb0 & Harr & Ear).
      pose proof (fw_nodes _ W _ _ Hb0) as [Hcp Hc He Hs]. split; [|done|by rewrite Ear|done].
      destruct Hcp as [?|(k0 & l0 & ? & ? & Hp & ?)]; [by left|]. right. exists k0, l0. repeat split; try done.
      destruct Harr as [E|E]; [|congruence]. by rewrite E, (fw_null _ W) in Hp.
  - intros b b' t1 t2 H1 H2 Heq Hp0. destruct (decide (b = a)) as [->|Hb], (decide (b' = a)) as [->|Hb']; try done.
    + destruct (moved_other b' t2 Hb' H2) as (H2' & _). rewrite moved_lookup in H1. destruct (decide (a = a)); [|done].
      injection H1 as <-. cbn in Heq. exfalso.
      destruct (nw_cap _ _ (fw_nodes _ W _ _ H2')) as [[Hp _]|(? & ? & _ & _ & Hp & _)]; [lia|]. by rewrite <- Heq, Hn in Hp.
    + destruct (moved_other b t1 Hb H1) as (H1' & _). rewrite moved_lookup in H2. destruct (decide (a = a)); [|done].
      injection H2 as <-. cbn in Heq. exfalso.
      destruct (nw_cap _ _ (fw_nodes _ W _ _ H1')) as [[Hp _]|(? & ? & _ & _ & Hp & _)]; [lia|]. by rewrite Heq, Hn in Hp.
    + destruct (moved_other b t1 Hb H1) as (H1' & _), (moved_other b' t2 Hb' H2) as (H2' & _).
      by apply (fw_arrs _ W b b' t1 t2).
  - intros b i p. rewrite moved_page. apply (fw_pages _ W).
  - intros b i b' i' p. rewrite !moved_page. apply (fw_inj _ W).
  - apply (fw_nodup _ W).
  - apply (fw_free _ W).
Qed.

Lemma moved_grown : (budget s <= S bd)%nat -> grown s s'.
Proof.
  intros Hb. split; try done; [|exact moved_page|exact moved_wf]. split; try done. exact moved_view.
Qed.
End moved.

Lemma ensure_pages_ok junk s a t count :
  fs_wf s -> objs s !! a = Some (OTmp t) -> count <= 512 -> (page_cap t < count -> (0 < budget s)%nat) ->
  exists s' t', _ensure_pages junk a count s = Ret 0 s' /\ grown s s' /\
    objs s' !! a = Some (OTmp t') /\ count <= page_cap t' /\ page_count t' = page_count t.
Proof.
  intros W Ha Hc Hb. unfold _ensure_pages. rewrite (bind_ret _ _ _ _ _ (get_tmp_eq _ _ _ Ha)).
  destruct (count <=? page_cap t) eqn:E; bools.
  { exists s, t. split; [done|]. split; [by apply grown_refl|done]. }
  pose proof (nw_cap _ _ (fw_nodes _ W _ _ Ha)) as Hcap.
  assert (exists k, (k <= 7)%nat /\ (if page_cap t =? 0 then 4 else page_cap t) = 4 * 2 ^ Z.of_nat k) as (k0 & Hk0 & ->).
  { destruct Hcap as [[_ ->]|(k0 & _ & Hk0 & -> & _)]; [by exists 0%nat; split; [lia|]|].
    exists k0. split; [done|]. pose proof (cap_range k0 Hk0). by rewrite (proj2 (Z.eqb_neq _ _)) by lia. }
  destruct (grow_cap_ok 65 k0 count s Hk0 Hc ltac:(lia)) as (k & Hk & Hck & _ & Hg).
  rewrite (bind_ret _ _ _ _ _ Hg). pose proof (cap_range k ltac:(lia)) as Hkr.
  rewrite u64_small by lia.
  destruct (krealloc_cap junk s a t k W Ha (Hb E) ltac:(lia) ltac:(lia)) as (l' & Hr & Hlen).
  rewrite (bind_ret _ _ _ _ _ Hr). pose proof (fw_pos _ W) as Hpos. rewrite (proj2 (Z.eqb_neq (next_addr s) 0)) by lia.
  assert (Hla : Z.of_nat (length (arr_of s t)) = page_cap t).
  { destruct Hcap as [[Hp ->]|(k1 & l & _ & _ & Hl & <-)]; unfold arr_of; [by rewrite Hp, (fw_null _ W)|by rewrite Hl]. }
  pose proof (wf_addr_ne s a t W Ha) as Hna. pose proof (wf_pages_ne s a a t _ W Ha Ha ltac:(done)) as Hpa.
  set (n := Z.to_nat (4 * 2 ^ Z.of_nat k - page_cap t)).
  assert (Hn : length l' = n) by (rewrite length_app in Hlen; lia).
  assert (Hz : arr_of s t ++ replicate n None = take (Z.to_nat (page_cap t)) (arr_of s t ++ l') ++
    replicate n None ++ drop (Z.to_nat (page_cap t + (4 * 2 ^ Z.of_nat k - page_cap t))) (arr_of s t ++ l')).
  { rewrite take_app_length' by lia. rewrite drop_ge by lia. by rewrite app_nil_r. }
  assert (Hlz : Z.of_nat (length (arr_of s t ++ replicate n None)) = 4 * 2 ^ Z.of_nat k)
    by (rewrite length_app, length_replicate; lia).
  unfold arr_zero. unfold bind at 1. unfold bind at 1. unfold get_arr at 1. cbn [objs].
  rewrite lookup_insert_eq. cbn beta iota.
  rewrite !(proj2 (Z.leb_le _ _)) by (pose proof (nw_count _ _ (fw_nodes _ W _ _ Ha)); lia). cbn [andb].
  fold n. rewrite <- Hz. unfold put, modify. unfold set_objs at 1. cbn [objs next_addr budget free_frames used_frames bytes root_node mounts].
  rewrite insert_insert_eq.
  eexists _, _. split.
  { erewrite bind_ret; [done|]. apply upd_tmp_eq. cbn [objs]. rewrite lookup_insert_ne, lookup_delete_ne by done. exact Ha. }
  unfold set_objs. cbn [objs next_addr budget free_frames used_frames bytes root_node mounts].
  rewrite <- Hlz at 1.
  assert (Hle : page_cap t <= Z.of_nat (length (arr_of s t ++ replicate n None))) by lia.
  split; [|split; [apply lookup_insert_eq|]; cbn; lia].
  exact (moved_grown s a t (budget s - 1) W Ha n k ltac:(lia) Hlz Hle ltac:(lia)).
Qed.

(** ** A new page *)

Section filled.
Context (s : fs) (a : Z) (t : tmpfs_node) (l : list (option Z)) (idx : nat) (p : Z) (fr : list Z).
Context (W : fs_wf s) (Ha : objs s !! a = Some (OTmp t)) (Hl : objs s !! pages t = Some (OArr l)).
Context (Hidx : l !! idx = Some None) (Hfree : free_frames s = p :: fr).
Let l' := <[idx := Some p]> l.
Let t' := Tmpfs.set_pages (pages t) (Z.max (page_count t) (Z.of_nat idx + 1)) (page_cap t) t.
Let s' := mkFs (<[a := OTmp t']> (<[pages t := OArr l']> (objs s))) (next_addr s) (budget s) fr
  (<[p := mkU 1 0 false]> (used_frames s)) (<[p := replicate PGSZ 0]> (bytes s)) (root_node s) (mounts s).

Lemma filled_lookup x : objs s' !! x =
  if decide (x = a) then Some (OTmp t') else if decide (x = pages t) then Some (OArr l') else objs s !! x.
Proof.
  unfold s'. cbn [objs]. destruct (decide (x = a)) as [->|]; [by rewrite lookup_insert_eq|].
  rewrite lookup_insert_ne by done. destruct (decide (x = pages t)) as [->|]; [by rewrite lookup_insert_eq|].
  by rewrite lookup_insert_ne by done.
Qed.

Lemma filled_ne : pages t <> a.
Proof. by apply (wf_pages_ne s a a t _ W Ha Ha). Qed.

Lemma filled_other b t2 : b <> a -> objs s' !! b = Some (OTmp t2) ->
  objs s !! b = Some (OTmp t2) /\ objs s' !! pages t2 = objs s !! pages t2 /\ arr_of s' t2 = arr_of s t2.
Proof.
  intros Hb. rewrite filled_lookup. repeat destruct (decide _); try done. intros Hb2. split; [done|].
  enough (objs s' !! pages t2 = objs s !! pages t2) as E by (split; [done|]; unfold arr_of; by rewrite E).
  rewrite filled_lookup. destruct (decide (pages t2 = a)) as [E|_].
  { exfalso. revert E. by apply (wf_pages_ne s b a t2 _ W Hb2 Ha). }
  destruct (decide (pages t2 = pages t)) as [E|]; [|done]. exfalso. apply Hb, (fw_arrs _ W b a t2 t); try done.
  intros E0. by rewrite E0 in E; rewrite <- E, (fw_null _ W) in Hl.
Qed.

Lemma filled_arr : arr_of s' t' = l'.
Proof.
  unfold arr_of. cbn [pages t' Tmpfs.set_pages]. rewrite filled_lookup. pose proof filled_ne.
  by repeat destruct (decide _).
Qed.

Lemma filled_page b i : page_at s' b i = if decide (b = a /\ i = idx) then Some p else page_at s b i.
Proof.
  assert (Hlt : (idx < length l)%nat) by (by eapply lookup_lt_Some).
  destruct (decide (b = a)) as [->|Hb].
  - rewrite (page_at_tmp s a t i Ha). unfold page_at. rewrite filled_lookup. destruct (decide (a = a)); [|done].
    rewrite filled_arr. assert (arr_of s t = l) as -> by (unfold arr_of; by rewrite Hl). unfold l'.
    destruct (decide (i = idx)) as [->|Hi].
    + rewrite list_lookup_insert_eq by done. by destruct (decide _) as [|[]].
    + rewrite list_lookup_insert_ne by done. by destruct (decide _) as [[_ ?]|].
  - destruct (decide (b = a /\ i = idx)) as [[? _]|_]; [done|]. unfold page_at at 1.
    destruct (objs s' !! b) as [[| t2 | | |]|] eqn:E.
    2:{ destruct (filled_other b t2 Hb E) as (E2 & _ & Ear). by rewrite (page_at_tmp _ _ _ _ E2), Ear. }
    all: rewrite filled_lookup in E; unfold page_at; repeat destruct (decide _); try done; subst; try (by rewrite E); by rewrite Hl.
Qed.

Lemma filled_view x : view s' x = view s x.
Proof.
  unfold view. rewrite filled_lookup. destruct (decide (x = a)) as [->|Hx]; [by rewrite Ha|].
  destruct (decide _) as [->|]; [by rewrite Hl|done].
Qed.

(** The frame was not in use. *)
Lemma filled_new : used_frames s !! p = None /\ frame_ok s p /\ forall b i q, page_at s b i = Some q -> q <> p.
Proof.
  destruct (fw_free _ W p) as [Hu Hp]; [rewrite Hfree; set_solver|]. split; [done|]. split; [done|].
  intros b i q Hq ->. destruct (fw_pages _ W _ _ _ Hq) as [(st & Hst & _) _]. congruence.
Qed.

Lemma filled_byte b i : file_byte s' b i = file_byte s b i.
Proof.
  destruct filled_new as (_ & _ & Hne). unfold file_byte. rewrite filled_page. unfold frame_byte. cbn [bytes s'].
  destruct (decide _) as [[-> Hi]|_].
  - rewrite lookup_insert_eq. rewrite (page_at_tmp _ _ _ _ Ha).
    assert (arr_of s t = l) as -> by (unfold arr_of; by rewrite Hl). rewrite Hi, Hidx.
    apply nth_zeros.
  - destruct (page_at s b (i / PGSZ)) as [q|] eqn:E; [|done]. by rewrite lookup_insert_ne by (symmetry; by eapply Hne).
Qed.

Lemma filled_wf : fs_wf s'.
Proof.
  pose proof filled_ne as Hpa. destruct filled_new as (Hu & Hfp & Hne).
  assert (Hlt : (idx < length l)%nat) by (by eapply lookup_lt_Some).
  assert (Hfok : forall q, frame_ok s q -> frame_ok s' q).
  { intros q (b & Hb & Hlb). unfold frame_ok, s'. cbn [bytes]. destruct (decide (q = p)) as [->|].
    - rewrite lookup_insert_eq. eexists. split; [done|]. by rewrite length_replicate.
    - rewrite lookup_insert_ne by done. by exists b. }
  destruct (NoDup_cons p fr) as [Hnd _]. pose proof (fw_nodup _ W) as Hnd0. rewrite Hfree in Hnd0.
  destruct (Hnd Hnd0) as [Hpfr Hndfr]. split.
  - rewrite filled_lookup. destruct (decide (0 = a)) as [<-|]; [by rewrite (fw_null _ W) in Ha|].
    destruct (decide (0 = pages t)) as [E|]; [by rewrite <- E, (fw_null _ W) in Hl|]. apply (fw_null _ W).
  - apply (fw_pos _ W).
  - intros x. rewrite filled_lookup. intros Hx. apply (fw_next _ W). repeat destruct (decide _); subst; eauto.
  - intros b t2 Hb. destruct (decide (b = a)) as [->|Hba].
    + rewrite filled_lookup in Hb. destruct (decide (a = a)); [|done]. injection Hb as <-.
      pose proof (fw_nodes _ W _ _ Ha) as [Hcp Hc He Hs].
      destruct Hcp as [[Hp _]|(k & l0 & Hk & Hcap & Hp & Hlen)]; [by rewrite Hp, (fw_null _ W) in Hl|].
      assert (l0 = l) as -> by congruence.
      split; cbn [page_cap pages page_count vnode t' Tmpfs.set_pages]; [|lia| |done].
      * right. exists k, l'. rewrite filled_lookup. repeat destruct (decide _); try done. repeat split; try done.
        unfold l'. by rewrite length_insert.
      * intros i q. rewrite filled_arr. unfold l'. intros Hq.
        destruct (decide (i = idx)) as [->|Hi]; [lia|]. rewrite list_lookup_insert_ne in Hq by done.
        enough (Z.of_nat i < page_count t) by lia. apply (He i q). unfold arr_of. by rewrite Hl.
    + destruct (filled_other b t2 Hba Hb) as (Hb0 & Harr & Ear).
      pose proof (fw_nodes _ W _ _ Hb0) as [Hcp Hc He Hs]. split; [|done|by rewrite Ear|done].
      destruct Hcp as [?|(k0 & l0 & ? & ? & Hp & ?)]; [by left|]. right. exists k0, l0. by rewrite Harr.
  - assert (Hpg : forall b t1, objs s' !! b = Some (OTmp t1) -> exists t0, objs s !! b = Some (OTmp t0) /\ pages t0 = pages t1).
    { intros b t1 H1. destruct (decide (b = a)) as [->|Hb].
      - rewrite filled_lookup in H1. destruct (decide (a = a)); [|done]. injection H1 as <-. by exists t.
      - destruct (filled_other b t1 Hb H1) as (H1' & _). by exists t1. }
    intros b b' t1 t2 H1 H2 Heq Hp0. destruct (Hpg _ _ H1) as (t1' & H1' & E1), (Hpg _ _ H2) as (t2' & H2' & E2).
    apply (fw_arrs _ W b b' t1' t2'); congruence.
  - intros b i q. rewrite filled_page. unfold s' at 1. cbn [used_frames]. destruct (decide _) as [_|_].
    + intros [= <-]. rewrite lookup_insert_eq. split; [|by apply Hfok]. eexists. repeat split; lia.
    + intros Hq. destruct (fw_pages _ W _ _ _ Hq) as [Hst Hok]. split; [|by apply Hfok].
      by rewrite lookup_insert_ne by (symmetry; by eapply Hne).
  - intros b i b' i' q. rewrite !filled_page. repeat destruct (decide _) as [[-> ->]|_]; try done.
    + intros [= <-] Hq. by destruct (Hne _ _ _ Hq).
    + intros Hq [= <-]. by destruct (Hne _ _ _ Hq).
    + apply (fw_inj _ W).
  - done.
  - intros q Hq. cbn [free_frames used_frames s'] in *. destruct (fw_free _ W q) as [Hqu Hqf]; [rewrite Hfree; set_solver|].
    split; [|by apply Hfok]. rewrite lookup_insert_ne by (intros <-; done). done.
Qed.
End filled.

(** Page [idx] of [a] is there, nothing else that can be observed has changed. *)
Record touched (s s' : fs) (a : Z) (idx : nat) (p : Z) : Prop := {
  to_same : same_but_data s s';
  to_page : page_at s' a idx = Some p;
  to_byte : forall b i, file_byte s' b i = file_byte s b i;
  to_free : (length (free_frames s) <= S (length (free_frames s')))%nat;
  to_budget : (budget s <= S (budget s'))%nat;
  to_wf : fs_wf s';
}.

Lemma ensure_page_ok junk s a t idx :
  fs_wf s -> objs s !! a = Some (OTmp t) -> (idx < 512)%nat -> (0 < budget s)%nat -> free_frames s <> [] ->
  exists s' p, _ensure_page junk a (Z.of_nat idx) s = Ret (0, Some p) s' /\ touched s s' a idx p.
Proof.
  intros W Ha Hidx Hb Hf. unfold _ensure_page. rewrite u64_small by lia.
  destruct (ensure_pages_ok junk s a t (Z.of_nat idx + 1) W Ha ltac:(lia) ltac:(auto)) as (s1 & t1 & E1 & G & Ha1 & Hc1 & Hpc).
  rewrite (bind_ret _ _ _ _ _ E1). cbn [negb Z.eqb]. rewrite (bind_ret _ _ _ _ _ (get_tmp_eq _ _ _ Ha1)).
  pose proof (gr_wf _ _ G) as W1.
  destruct (wf_arr s1 a t1 W1 Ha1 ltac:(lia)) as (l & Hl & Hlen & Harr).
  destruct (lookup_lt_is_Some_2 l idx) as [v Hv]; [lia|].
  rewrite (bind_ret _ _ _ _ _ (arr_load_nat _ _ _ _ _ Hl Hv)).
  destruct v as [p|].
  - assert (Hp : page_at s1 a idx = Some p) by (by rewrite (page_at_tmp _ _ _ _ Ha1), Harr, Hv).
    rewrite bind_ret with (a := true) (s' := s1) by done. cbn [negb].
    assert (Z.of_nat idx < page_count t1) as Hi by (apply (nw_entries _ _ (fw_nodes _ W1 _ _ Ha1) idx p); by rewrite Harr).
    rewrite (proj2 (Z.ltb_ge _ _)) by lia. rewrite bind_ret with (a := tt) (s' := s1) by done.
    rewrite (bind_ret _ _ _ _ _ (arr_load_nat _ _ _ _ _ Hl Hv)).
    exists s1, p. split; [done|]. split; [apply G|done|intros; by apply grown_byte| |apply G|done].
    rewrite (gr_free _ _ G). lia.
  - destruct (free_frames s) as [|p fr] eqn:Ef; [done|].
    assert (Ef1 : free_frames s1 = p :: fr) by (by rewrite (gr_free _ _ G)).
    destruct (fw_free _ W1 p) as (_ & bs & Hbs & Hlbs); [rewrite Ef1; set_solver|].
    pose proof (filled_wf s1 a t1 l idx p fr W1 Ha1 Hl Hv Ef1) as W2.
    pose proof (filled_page s1 a t1 l idx p fr W1 Ha1 Hl Hv) as Hpg.
    pose proof (filled_byte s1 a t1 l idx p fr W1 Ha1 Hl Hv Ef1) as Hby.
    pose proof (filled_view s1 a t1 l idx p fr Ha1 Hl) as Hvw.
    set (s2 := mkFs _ _ _ _ _ _ _ _) in W2, Hpg, Hby, Hvw.
    assert (Epa : palloc_page s1 = Ret (Some p) (set_frames fr (<[p := mkU 1 0 false]> (used_frames s1)) s1))
      by (unfold palloc_page; by rewrite Ef1).
    assert (Hz : splice bs 0 (replicate PGSZ 0) = replicate PGSZ 0)
      by (unfold splice; rewrite drop_ge, app_nil_r by (rewrite length_replicate; lia); done).
    rewrite bind_ret with (a := true)
      (s' := mkFs (<[pages t1 := OArr (<[idx := Some p]> l)]> (objs s1)) (next_addr s1) (budget s1) fr
        (<[p := mkU 1 0 false]> (used_frames s1)) (<[p := replicate PGSZ 0]> (bytes s1)) (root_node s1) (mounts s1)).
    2:{ rewrite (bind_ret _ _ _ _ _ Epa). cbn beta iota.
        erewrite bind_ret; [|by apply (frame_store_eq _ p bs); [|lia|rewrite length_replicate; unfold PAGE_SIZE; lia]].
        erewrite bind_ret; [|by apply (arr_store_eq _ (pages t1) l); [|lia]].
        unfold ret, set_objs, set_bytes, set_frames. cbn [objs next_addr budget free_frames used_frames bytes root_node mounts].
        rewrite Nat2Z.id. change (Z.to_nat PAGE_SIZE) with PGSZ. change (Z.to_nat 0) with 0%nat. by rewrite Hz. }
    cbn [negb]. rewrite bind_ret with (a := tt) (s' := s2).
    2:{ pose proof (wf_pages_ne s1 a a t1 _ W1 Ha1 Ha1 ltac:(done)) as Hne. destruct (page_count t1 <? _) eqn:Ec; bools.
        - erewrite upd_tmp_eq; [|cbn [objs]; rewrite lookup_insert_ne by done; exact Ha1].
          unfold s2, set_objs. cbn [objs next_addr budget free_frames used_frames bytes root_node mounts]. by rewrite Z.max_r by lia.
        - unfold ret, s2. do 2 f_equal. symmetry. apply insert_id. rewrite lookup_insert_ne by done. rewrite Ha1.
          rewrite Z.max_l by lia. by destruct t1. }
    assert (Hl2 : objs s2 !! pages t1 = Some (OArr (<[idx := Some p]> l))).
    { unfold s2. cbn [objs]. rewrite lookup_insert_ne by (apply not_eq_sym, (wf_pages_ne s1 a a t1 _ W1 Ha1 Ha1); done).
      apply lookup_insert_eq. }
    erewrite bind_ret; [|apply (arr_load_nat _ _ _ _ _ Hl2); rewrite list_lookup_insert_eq by (eapply lookup_lt_Some; done); done].
    exists s2, p. split; [done|]. split; [|rewrite Hpg; by destruct (decide _) as [|[]]| | |apply G|done].
    + etrans; [apply G|]. by split.
    + intros. rewrite Hby. by apply grown_byte.
    + rewrite Ef. simpl. lia.
Qed.

(** ** Writing *)

Lemma store_wf s p b b' : fs_wf s -> bytes s !! p = Some b -> length b' = length b ->
  fs_wf (set_bytes (insert p b') s).
Proof.
  intros W Hb Hl. destruct W as [? ? ? Hn Ha Hp Hi ? Hf]. split; try done.
  - intros a t Ht. destruct (Hn a t Ht). by split.
  - intros a i q Hq. destruct (Hp a i q Hq) as [? ?]. split; [done|]. by eapply frame_ok_store.
  - intros q Hq. destruct (Hf q Hq) as [? ?]. split; [done|]. by eapply frame_ok_store.
Qed.

(** What a run of page stores has done so far: bytes [from .. upto) of [a] are those of
    [buf], which starts at [off]. *)
Record stored (s s' : fs) (a : Z) (off : nat) (buf : list Z) (from upto cost : nat) : Prop := {
  sd_same : same_but_data s s';
  sd_byte : forall b i, file_byte s' b i =
    if decide (b = a /\ (from <= i < upto)%nat) then nth (i - off) buf 0 else file_byte s b i;
  sd_free : (length (free_frames s) <= cost + length (free_frames s'))%nat;
  sd_budget : (budget s <= cost + budget s')%nat;
  sd_wf : fs_wf s';
}.

Lemma land_page z : 0 <= z -> Z.land z (PAGE_SIZE - 1) = z `mod` 4096.
Proof. intros H. change (PAGE_SIZE - 1) with (Z.ones 12). by rewrite Z.land_ones by lia. Qed.

(** One page of it. *)
Lemma write_page_ok junk s a t off buf c :
  fs_wf s -> objs s !! a = Some (OTmp t) -> (off + length buf <= 512 * PGSZ)%nat -> (c < length buf)%nat ->
  (0 < budget s)%nat -> free_frames s <> [] ->
  let q := ((off + c) / PGSZ)%nat in
  let n := Nat.min (PGSZ - (off + c) mod PGSZ) (length buf - c) in
  exists s1 p s2, _ensure_page junk a (Z.of_nat q) s = Ret (0, Some p) s1 /\
    frame_store p (Z.of_nat ((off + c) mod PGSZ)) (take n (drop c buf)) s1 = Ret tt s2 /\
    stored s s2 a off buf (off + c) (off + c + n) 1.
Proof.
  intros W Ha Ho Hc Hb Hf q n.
  assert (Hm : ((off + c) mod PGSZ < PGSZ)%nat) by (apply Nat.mod_upper_bound; lia).
  assert (Hqm : (off + c = q * PGSZ + (off + c) mod PGSZ)%nat) by (unfold q; rewrite (Nat.mul_comm _ PGSZ); apply Nat.div_mod; lia).
  destruct (ensure_page_ok junk s a t q W Ha ltac:(lia) Hb Hf) as (s1 & p & E & T).
  pose proof (to_wf _ _ _ _ _ T) as W1.
  destruct (fw_pages _ W1 _ _ _ (to_page _ _ _ _ _ T)) as [_ (b & Hbb & Hlb)].
  set (m := ((off + c) mod PGSZ)%nat) in *. set (data := take n (drop c buf)).
  assert (Hdl : length data = n) by (unfold data; rewrite length_take, length_drop; lia).
  eexists s1, p, _. split; [exact E|]. split; [by apply (frame_store_eq _ p b); [|lia|lia]|].
  rewrite Nat2Z.id. split.
  - etrans; [apply T|]. by split.
  - intros x i. rewrite (file_byte_store s1 a q p b m data x i W1 (to_page _ _ _ _ _ T) Hbb ltac:(lia) Hlb).
    rewrite (to_byte _ _ _ _ _ T).
    destruct (decide _) as [[-> Hi]|Hi], (decide _) as [[? Hj]|Hj]; try done; try lia.
    unfold data. rewrite nth_firstn, (proj2 (Nat.ltb_lt _ _)) by lia. rewrite nth_skipn. f_equal. lia.
  - simpl. apply T.
  - simpl. apply T.
  - eapply store_wf; [done|done|]. rewrite splice_length by lia. done.
Qed.

Lemma stored_trans s s1 s2 a off buf x y z m n : (x <= y <= z)%nat ->
  stored s s1 a off buf x y m -> stored s1 s2 a off buf y z n -> stored s s2 a off buf x z (m + n).
Proof.
  intros Hxy [V1 B1 F1 G1 _] [V2 B2 F2 G2 W2]. split; try done; try lia; [by etrans|].
  intros b i. rewrite B2, B1. repeat destruct (decide _); try done; lia.
Qed.

Lemma write_loop_ok junk fuel : forall s a t off buf c,
  fs_wf s -> objs s !! a = Some (OTmp t) -> (off + length buf <= 512 * PGSZ)%nat -> (c <= length buf)%nat ->
  (c = length buf \/ off + length buf <= ((off + c) / PGSZ + fuel) * PGSZ)%nat ->
  (fuel <= budget s)%nat -> (fuel <= length (free_frames s))%nat ->
  exists s', write_loop junk fuel a (Z.of_nat off) buf (Z.of_nat c) s = Ret (Z.of_nat (length buf), 0) s' /\
    stored s s' a off buf (off + c) (off + length buf) fuel.
Proof.
  induction fuel as [|fuel IH]; intros s a t off buf c W Ha Ho Hc Hf Hb Hfr;
    (assert (Hm : ((off + c) mod PGSZ < PGSZ)%nat) by (apply Nat.mod_upper_bound; lia));
    (assert (Hqm : (off + c = (off + c) / PGSZ * PGSZ + (off + c) mod PGSZ)%nat) by (rewrite (Nat.mul_comm _ PGSZ); apply Nat.div_mod; lia)).
  - assert (c = length buf) as -> by lia. exists s. unfold write_loop. rewrite (proj2 (Z.leb_le _ _)) by lia. split; [done|].
    split; try done. intros b i. destruct (decide _); [lia|done].
  - destruct (decide (c = length buf)) as [->|Hne].
    { exists s. unfold write_loop. rewrite (proj2 (Z.leb_le _ _)) by lia. split; [done|].
      split; try done; try lia. intros b i. destruct (decide _); [lia|done]. }
    destruct (write_page_ok junk s a t off buf c W Ha Ho ltac:(lia) ltac:(lia)) as (s1 & p & s2 & E1 & E2 & S2).
    { intros E. rewrite E in Hfr. simpl in Hfr. lia. }
    set (n := Nat.min _ _) in *.
    destruct (view_tmp s s2 a t (sb_view _ _ (sd_same _ _ _ _ _ _ _ _ S2) a) Ha) as (t2 & Ha2 & _).
    assert (Hmod : ((off + (c + n)) / PGSZ = (off + c) / PGSZ + 1)%nat \/ (c + n = length buf)%nat).
    { destruct (decide (c + n = length buf)%nat); [by right|]. left. apply page_idx. lia. }
    destruct (IH s2 a t2 off buf (c + n)%nat) as (s3 & E3 & S3); try done; try lia.
    { apply S2. }
    { pose proof (sd_budget _ _ _ _ _ _ _ _ S2). lia. }
    { pose proof (sd_free _ _ _ _ _ _ _ _ S2). lia. }
    exists s3. split.
    + simpl write_loop. rewrite (proj2 (Z.leb_gt _ _)) by lia.
      rewrite <- (Nat2Z.inj_add off c), u64_small by lia. rewrite land_page by lia.
      replace (Z.of_nat (off + c) / PAGE_SIZE) with (Z.of_nat ((off + c) / PGSZ)) by (by rewrite Nat2Z.inj_div).
      replace (Z.of_nat (off + c) `mod` 4096) with (Z.of_nat ((off + c) mod PGSZ)) by (by rewrite Nat2Z.inj_mod).
      rewrite (bind_ret _ _ _ _ _ E1). cbn [fst snd negb Z.eqb].
      replace (Z.min (PAGE_SIZE - Z.of_nat ((off + c) mod PGSZ)) (Z.of_nat (length buf) - Z.of_nat c)) with (Z.of_nat n)
        by (unfold n, PAGE_SIZE; lia).
      rewrite !Nat2Z.id, (bind_ret _ _ _ _ _ E2), <- Nat2Z.inj_add. exact E3.
    + apply (stored_trans _ s2 _ _ _ _ _ (off + c + n) _ 1 fuel); [lia|done|]. by rewrite <- Nat.add_assoc.
Qed.

(** ** Reading *)

Lemma page_load s a t i : fs_wf s -> objs s !! a = Some (OTmp t) ->
  (if Z.of_nat i <? page_count t then arr_load (pages t) (Z.of_nat i) else ret None) s = Ret (page_at s a i) s.
Proof.
  intros W Ha. rewrite (page_at_tmp _ _ _ _ Ha). pose proof (fw_nodes _ W _ _ Ha) as [Hcap Hc He _].
  destruct (Z.of_nat i <? page_count t) eqn:E; bools.
  - destruct (wf_arr s a t W Ha ltac:(lia)) as (l & Hl & Hlen & ->).
    destruct (lookup_lt_is_Some_2 l i) as [v Hv]; [lia|]. rewrite (arr_load_nat _ _ _ _ _ Hl Hv), Hv. by destruct v.
  - destruct (arr_of s t !! i) as [[p|]|] eqn:El; try done. specialize (He i p El). lia.
Qed.

Lemma read_page_ok s a t off c n :
  fs_wf s -> objs s !! a = Some (OTmp t) -> ((off + c) mod PGSZ + n <= PGSZ)%nat ->
  match page_at s a ((off + c) / PGSZ) with
  | Some p => frame_load p (Z.of_nat ((off + c) mod PGSZ)) (Z.of_nat n)
  | None => ret (replicate (Z.to_nat (Z.of_nat n)) 0)
  end s = Ret (file_byte s a <$> seq (off + c) n) s.
Proof.
  intros W Ha Hn. set (m := ((off + c) mod PGSZ)%nat) in *. set (q := ((off + c) / PGSZ)%nat).
  assert (Hqm : (off + c = q * PGSZ + m)%nat) by (unfold q, m; rewrite (Nat.mul_comm _ PGSZ); apply Nat.div_mod; lia).
  assert (Hby : forall j, (j < n)%nat -> nth j (file_byte s a <$> seq (off + c) n) 0 =
    match page_at s a q with Some p => frame_byte s p (m + j)%nat | None => 0 end).
  { intros j Hj. assert ((file_byte s a <$> seq (off + c) n) !! j = Some (file_byte s a (off + c + j)%nat)) as Hl
      by (by rewrite list_lookup_fmap, lookup_seq_lt).
    rewrite (nth_lookup_Some _ _ _ _ Hl).
    unfold file_byte. rewrite (page_idx q) by lia.
    replace ((off + c + j) mod PGSZ)%nat with (m + j)%nat; [done|]. apply Nat.mod_unique with q; lia. }
  rewrite Nat2Z.id. destruct (page_at s a q) as [p|] eqn:Ep.
  - destruct (fw_pages _ W _ _ _ Ep) as [_ (b & Hb & Hlb)]. rewrite (frame_load_eq s p b) by (done || lia).
    f_equal. rewrite !Nat2Z.id. apply nth_ext_z.
    { rewrite length_take, length_drop, length_fmap, length_seq. lia. }
    intros j Hj. rewrite length_take in Hj. rewrite Hby by lia. rewrite nth_firstn, (proj2 (Nat.ltb_lt _ _)), nth_skipn by lia.
    unfold frame_byte. by rewrite Hb.
  - unfold ret. f_equal. apply nth_ext_z; [by rewrite length_replicate, length_fmap, length_seq|].
    intros j Hj. rewrite length_replicate in Hj. by rewrite Hby, nth_zeros by lia.
Qed.

Lemma read_loop_ok fuel : forall s a t off todo c,
  fs_wf s -> objs s !! a = Some (OTmp t) -> Z.of_nat (off + todo) < 2 ^ 64 -> (c <= todo)%nat ->
  (c = todo \/ off + todo <= ((off + c) / PGSZ + fuel) * PGSZ)%nat ->
  read_loop fuel a (Z.of_nat off) (Z.of_nat todo) (Z.of_nat c) s = Ret (file_byte s a <$> seq (off + c) (todo - c)) s.
Proof.
  induction fuel as [|fuel IH]; intros s a t off todo c W Ha Ho Hc Hf;
    (assert (Hm : ((off + c) mod PGSZ < PGSZ)%nat) by (apply Nat.mod_upper_bound; lia));
    (assert (Hqm : (off + c = (off + c) / PGSZ * PGSZ + (off + c) mod PGSZ)%nat) by (rewrite (Nat.mul_comm _ PGSZ); apply Nat.div_mod; lia)).
  - assert (c = todo) as -> by lia. unfold read_loop. rewrite (proj2 (Z.leb_le _ _)) by lia. by rewrite Nat.sub_diag.
  - destruct (decide (c = todo)) as [->|Hne].
    { unfold read_loop. rewrite (proj2 (Z.leb_le _ _)) by lia. by rewrite Nat.sub_diag. }
    simpl read_loop. rewrite (proj2 (Z.leb_gt _ _)) by lia.
    rewrite <- (Nat2Z.inj_add off c), u64_small by lia. rewrite land_page by lia.
    replace (Z.of_nat (off + c) / PAGE_SIZE) with (Z.of_nat ((off + c) / PGSZ)) by (by rewrite Nat2Z.inj_div).
    replace (Z.of_nat (off + c) `mod` 4096) with (Z.of_nat ((off + c) mod PGSZ)) by (by rewrite Nat2Z.inj_mod).
    set (n := Nat.min (PGSZ - (off + c) mod PGSZ) (todo - c)).
    replace (Z.min (PAGE_SIZE - Z.of_nat ((off + c) mod PGSZ)) (Z.of_nat todo - Z.of_nat c)) with (Z.of_nat n)
      by (unfold n, PAGE_SIZE; lia).
    rewrite (bind_ret _ _ _ _ _ (get_tmp_eq _ _ _ Ha)), (bind_ret _ _ _ _ _ (page_load s a t _ W Ha)).
    rewrite (bind_ret _ _ _ _ _ (read_page_ok s a t off c n W Ha ltac:(lia))).
    assert (Hmod : ((off + (c + n)) / PGSZ = (off + c) / PGSZ + 1)%nat \/ (c + n = todo)%nat).
    { destruct (decide (c + n = todo)%nat); [by right|]. left. apply page_idx. lia. }
    rewrite <- Nat2Z.inj_add, (bind_ret _ _ _ _ _ (IH s a t off todo (c + n)%nat W Ha Ho ltac:(lia) ltac:(lia))).
    unfold ret. f_equal. rewrite <- fmap_app. f_equal.
    replace (todo - c)%nat with (n + (todo - (c + n)))%nat by lia. rewrite seq_app. do 2 f_equal. lia.
Qed.

(** ** Changing a node but not its array *)

Section renode.
Context (s : fs) (a : Z) (t t' : tmpfs_node).
Context (W : fs_wf s) (Ha : objs s !! a = Some (OTmp t)).
Context (Hp : pages t' = pages t) (Hk : page_cap t' = page_cap t) (Hc : 0 <= page_count t' <= page_cap t).
Context (He : forall i p, arr_of s t !! i = Some (Some p) -> Z.of_nat i < page_count t').
Context (Hn : 0 <= n_size (vnode t') < 2 ^ 63).
Let s' := set_objs (insert a (OTmp t')) s.

Lemma renode_lookup x : x <> a -> objs s' !! x = objs s !! x.
Proof. intros Hx. unfold s', set_objs. cbn [objs]. by rewrite lookup_insert_ne by done. Qed.
Lemma renode_eq : objs s' !! a = Some (OTmp t').
Proof. unfold s', set_objs. cbn [objs]. apply lookup_insert_eq. Qed.
Lemma renode_node x u' : objs s' !! x = Some (OTmp u') -> exists u, objs s !! x = Some (OTmp u) /\
  pages u = pages u' /\ page_cap u = page_cap u' /\ objs s' !! pages u' = objs s !! pages u' /\
  ((x = a /\ u = t /\ u' = t') \/ (x <> a /\ u = u')).
Proof.
  intros Hx. destruct (decide (x = a)) as [->|Hne].
  - rewrite renode_eq in Hx. injection Hx as <-. exists t. repeat split; try done; [|by left]. rewrite Hp. apply renode_lookup.
    by apply (wf_pages_ne s a a t _ W Ha Ha).
  - rewrite renode_lookup in Hx by done. exists u'. repeat split; try done; [|by right]. apply renode_lookup.
    by apply (wf_pages_ne s x a u' _ W Hx Ha).
Qed.
Lemma renode_page x i : page_at s' x i = page_at s x i.
Proof.
  unfold page_at at 1. destruct (objs s' !! x) as [[|u'| | |]|] eqn:E.
  2:{ destruct (renode_node x u' E) as (u & Hu & Eu & _ & Hl & _). rewrite (page_at_tmp _ _ _ _ Hu).
      unfold arr_of. by rewrite Eu, Hl. }
  all: (destruct (decide (x = a)) as [->|]; [by rewrite renode_eq in E|]); rewrite renode_lookup in E by done;
    unfold page_at; by rewrite E.
Qed.
Lemma renode_byte x i : file_byte s' x i = file_byte s x i.
Proof. unfold file_byte. by rewrite renode_page. Qed.
Lemma renode_size x : file_size s' x = if decide (x = a) then n_size (vnode t') else file_size s x.
Proof.
  unfold file_size. destruct (decide (x = a)) as [->|]; [by rewrite renode_eq|by rewrite renode_lookup].
Qed.
Lemma renode_wf : fs_wf s'.
Proof.
  destruct W as [Hnull Hpos Hnext Hnodes Harrs Hpages Hinj Hnd Hfree]. split; try done.
  - destruct (decide (0 = a)) as [<-|]; [by rewrite Hnull in Ha|]. by rewrite renode_lookup.
  - intros x Hx. apply Hnext. destruct (decide (x = a)) as [->|]; [eauto|]. by rewrite renode_lookup in Hx.
  - intros x u' Hx. destruct (renode_node x u' Hx) as (u & Hu & Eu & Ek & Hl & Hor).
    destruct (Hnodes x u Hu) as [H1 H2 H3 H4]. split.
    + rewrite Eu, Ek in H1. destruct H1 as [?|(k & l & ? & ? & ? & ?)]; [by left|]. right. exists k, l. by rewrite Hl.
    + destruct Hor as [(-> & -> & ->)|[_ ->]]; [by rewrite Hk|done].
    + intros i p. unfold arr_of. rewrite Hl, <- Eu. destruct Hor as [(-> & -> & ->)|[_ ->]]; [apply He|apply H3].
    + by destruct Hor as [(-> & -> & ->)|[_ ->]].
  - intros x x' u u' Hx Hx' Hpp Hp0. destruct (renode_node x u Hx) as (v & Hv & Ev & _), (renode_node x' u' Hx') as (v' & Hv' & Ev' & _).
    apply (Harrs x x' v v'); congruence.
  - intros x i p. rewrite renode_page. apply Hpages.
  - intros x i x' i' p. rewrite !renode_page. apply Hinj.
Qed.
End renode.

(** ** The operations on contents *)

Definition is_file (s : fs) (a : Z) : Prop :=
  exists t, objs s !! a = Some (OTmp t) /\ VFS_S_ISREG (n_mode (vnode t)) = true.

(** Zeros fill the gap before [off]. *)
Definition overwrite (c : list Z) (off : nat) (buf : list Z) : list Z :=
  take off (c ++ replicate (off - length c) 0) ++ buf ++ drop (off + length buf) c.
Lemma overwrite_length c off buf : length (overwrite c off buf) = Nat.max (length c) (off + length buf).
Proof. unfold overwrite. rewrite !length_app, length_take, length_app, length_replicate, length_drop. lia. Qed.
Lemma overwrite_nth c off buf i :
  nth i (overwrite c off buf) 0 = if decide ((off <= i < off + length buf)%nat) then nth (i - off) buf 0 else nth i c 0.
Proof.
  unfold overwrite. assert (Hl : length (take off (c ++ replicate (off - length c) 0)) = off)
    by (rewrite length_take, length_app, length_replicate; lia).
  destruct (decide (i < off)%nat) as [Hi|Hi].
  - rewrite app_nth1 by lia. rewrite nth_firstn, (proj2 (Nat.ltb_lt _ _)) by lia.
    destruct (decide _); [lia|]. destruct (decide (i < length c)%nat); [by rewrite app_nth1|].
    rewrite app_nth2, nth_zeros by lia. by rewrite nth_overflow by lia.
  - rewrite app_nth2, Hl by lia. destruct (decide _) as [Hd|Hd]; [by rewrite app_nth1 by lia|].
    rewrite app_nth2, nth_skipn by lia. f_equal. lia.
Qed.

(** Frames and heap objects that a call may take. *)
Definition can_take (s : fs) (n : nat) : Prop := (n <= budget s)%nat /\ (n <= length (free_frames s))%nat.

(** What an operation on the file [a] does to the file system: its contents become [c]. *)
Record updated (s s' : fs) (a : Z) (c : list Z) (cost : nat) : Prop := {
  up_wf : fs_wf s';
  up_zero : zero_tails s';
  up_file : contents s' a = c;
  up_other : forall b, b <> a -> contents s' b = contents s b;
  up_is : forall b, is_file s b -> is_file s' b;
  up_view : forall b, b <> a -> view s' b = view s b;
  up_cost : forall n, can_take s (cost + n) -> can_take s' n;
}.

Lemma contents_eq s s' a : file_size s' a = file_size s a ->
  (forall i, (i < Z.to_nat (file_size s a))%nat -> file_byte s' a i = file_byte s a i) -> contents s' a = contents s a.
Proof.
  intros Hs Hb. apply nth_ext_z; rewrite !contents_length, Hs; [done|]. intros i Hi.
  rewrite !contents_nth by (rewrite ?Hs; done). by apply Hb.
Qed.
Lemma is_file_view s s' b : view s' b = view s b -> is_file s b -> is_file s' b.
Proof.
  intros Hv (t & Ht & Hm). destruct (view_tmp s s' b t Hv Ht) as (t' & Ht' & E).
  exists t'. split; [done|]. by apply set_pages_vnode in E as [-> _].
Qed.

Lemma chunks_enough off n : (off + n <= (off / PGSZ + chunks (Z.of_nat n)) * PGSZ)%nat.
Proof.
  unfold chunks, PAGE_SIZE. pose proof (Nat.div_mod off PGSZ ltac:(lia)). pose proof (Nat.mod_upper_bound off PGSZ ltac:(lia)).
  assert (Z.of_nat n < (Z.of_nat n / 4096 + 1) * 4096) by zdiv. lia.
Qed.

Lemma tmpfs_read_ok s a off len :
  fs_wf s -> is_file s a -> 0 <= off < 2 ^ 62 -> 0 <= len ->
  tmpfs_read a off len s = Ret (0, take (Z.to_nat len) (drop (Z.to_nat off) (contents s a))) s.
Proof.
  intros W (t & Ha & Hm) Ho Hl. unfold tmpfs_read. rewrite (bind_ret _ _ _ _ _ (get_node_tmp _ _ _ Ha)), Hm. cbn [negb].
  pose proof (nw_size _ _ (fw_nodes _ W _ _ Ha)) as Hsz.
  assert (Hfs : file_size s a = n_size (vnode t)) by (unfold file_size; by rewrite Ha).
  destruct (_ || _) eqn:E.
  { unfold ret. do 2 f_equal. apply orb_true_iff in E as [E|E]; bools.
    - by rewrite drop_ge, take_nil by (rewrite contents_length; lia).
    - subst. done. }
  bools. set (todo := Z.min len _).
  pose proof (read_loop_ok (chunks todo) s a t (Z.to_nat off) (Z.to_nat todo) 0 W Ha) as Hr.
  pose proof (chunks_enough (Z.to_nat off) (Z.to_nat todo)) as Hch.
  rewrite !Z2Nat.id in Hr by lia. rewrite Z2Nat.id in Hch by lia. change (Z.of_nat 0) with 0 in Hr. rewrite Nat.add_0_r in Hr.
  rewrite (bind_ret _ _ _ _ _ (Hr ltac:(lia) ltac:(lia) (or_intror Hch))). unfold ret. do 2 f_equal.
  assert (Hlc : length (contents s a) = Z.to_nat (n_size (vnode t))) by (by rewrite contents_length, Hfs).
  apply nth_ext_z; rewrite length_fmap, length_seq; [rewrite length_take, length_drop; lia|].
  intros i Hi. rewrite nth_firstn, (proj2 (Nat.ltb_lt _ _)), nth_skipn by lia. rewrite contents_nth by lia.
  apply nth_lookup_Some. by rewrite list_lookup_fmap, lookup_seq_lt.
Qed.

Lemma tmpfs_write_ok junk s a off buf :
  fs_wf s -> zero_tails s -> is_file s a -> 0 <= off -> off + Z.of_nat (length buf) <= 512 * 4096 ->
  can_take s (chunks (Z.of_nat (length buf))) ->
  exists s', tmpfs_write junk a off buf s = Ret (0, Z.of_nat (length buf)) s' /\
    updated s s' a (overwrite (contents s a) (Z.to_nat off) buf) (chunks (Z.of_nat (length buf))).
Proof.
  intros W Hz (t & Ha & Hm) Ho Hl [Hb Hf]. unfold tmpfs_write.
  rewrite (bind_ret _ _ _ _ _ (get_node_tmp _ _ _ Ha)), Hm. cbn [negb].
  pose proof (chunks_enough (Z.to_nat off) (length buf)) as Hch.
  destruct (write_loop_ok junk (chunks (Z.of_nat (length buf))) s a t (Z.to_nat off) buf 0) as (s1 & E1 & [Hsame Hby Hfr Hbg W1]);
    try done; try lia. { right. by rewrite Nat.add_0_r. }
  rewrite Z2Nat.id in E1 by lia. rewrite Nat.add_0_r in Hby. rewrite (bind_ret _ _ _ _ _ E1). cbn [negb Z.eqb].
  destruct (view_tmp s s1 a t (sb_view _ _ Hsame a) Ha) as (t1 & Ha1 & Et). apply set_pages_vnode in Et as (Ev & _).
  rewrite (bind_ret _ _ _ _ _ (get_node_tmp _ _ _ Ha1)), u64_small by lia. rewrite Ev.
  pose proof (nw_size _ _ (fw_nodes _ W _ _ Ha)) as Hsz.
  assert (Hfs : file_size s a = n_size (vnode t)) by (unfold file_size; by rewrite Ha).
  set (n := Z.max (n_size (vnode t)) (off + Z.of_nat (length buf))).
  set (s2 := set_objs (insert a (OTmp (set_vnode (with_size (vnode t1) n) t1))) s1).
  assert (Hn : 0 <= n < 2 ^ 63) by lia.
  rewrite bind_ret with (a := tt) (s' := s2).
  2:{ unfold s2, n. destruct (_ <? _) eqn:E; bools.
      - rewrite (put_node_tmp _ _ _ _ Ha1), Z.max_r by lia. by rewrite Ev.
      - rewrite Z.max_l by lia. unfold ret. f_equal. destruct s1 as [O1]. unfold set_objs. cbn [objs] in *. f_equal.
        rewrite insert_id; [done|]. rewrite Ha1. rewrite Ev. destruct t1 as [v1]. cbn in *. subst v1. by destruct (vnode t). }
  assert (Hfs2 : forall x, file_size s2 x = if decide (x = a) then n else file_size s x).
  { intros x. unfold s2. rewrite renode_size. destruct (decide _); [done|]. apply view_size, Hsame. }
  assert (Hby2 : forall x i, file_byte s2 x i = file_byte s1 x i) by (intros; by eapply renode_byte).
  exists s2. split; [done|]. split.
  - eapply renode_wf; try done; [apply (nw_count _ _ (fw_nodes _ W1 _ _ Ha1))|apply (nw_entries _ _ (fw_nodes _ W1 _ _ Ha1))].
  - intros x i. rewrite Hfs2, Hby2, Hby. destruct (decide (x = a)) as [->|Hx]; intros Hi; destruct (decide _); try lia; apply Hz; lia.
  - apply nth_ext_z; rewrite contents_length, Hfs2; destruct (decide (a = a)); try done.
    { rewrite overwrite_length, contents_length. lia. }
    intros i Hi. rewrite contents_nth by (rewrite Hfs2; by destruct (decide _)). rewrite Hby2, Hby, overwrite_nth.
    repeat destruct (decide _); try done; try lia. by apply file_byte_contents.
  - intros x Hx. apply contents_eq; [rewrite Hfs2; by destruct (decide _)|]. intros i Hi. rewrite Hby2, Hby. by destruct (decide _) as [[? _]|].
  - intros x Hx. apply (is_file_view s s1) in Hx; [|apply Hsame]. destruct (decide (x = a)) as [->|Hxa].
    + exists (set_vnode (with_size (vnode t1) n) t1). split; [apply renode_eq|]. cbn. by rewrite Ev.
    + destruct Hx as (u & Hu & Hmu). exists u. split; [|done]. unfold s2. by rewrite renode_lookup.
  - intros x Hx. transitivity (view s1 x); [|apply Hsame]. unfold view, s2. by rewrite renode_lookup.
  - intros m [Hb' Hf']. unfold can_take, s2. cbn. lia.
Qed.

(** ** Giving pages back *)

Lemma unref_frames s p fr us : abs_step (OpUnref p) (free_frames s) (used_frames s) = AOk fr us ->
  (exists st, used_frames s !! p = Some st) /\ (forall q, q <> p -> us !! q = used_frames s !! q) /\
  (fr = free_frames s \/ (fr = p :: free_frames s /\ us !! p = None)).
Proof.
  intros Hus. unfold abs_step in Hus. cbn in Hus. destruct (used_frames s !! p) as [st|] eqn:Eu; [|done]. split; [by eexists|].
  destruct (1 <? u_ref st); [|destruct (u_share st =? 0); [|done]]; injection Hus as <- <-.
  - split; [|by left]. intros q Hq. by rewrite lookup_insert_ne.
  - split; [intros q Hq; by rewrite lookup_delete_ne|right]. by rewrite lookup_delete_eq.
Qed.

Section dropped.
Context (s : fs) (a : Z) (t : tmpfs_node) (l : list (option Z)) (idx : nat) (p : Z).
Context (fr : list Z) (us : gmap Z ustate).
Context (W : fs_wf s) (Ha : objs s !! a = Some (OTmp t)) (Hl : objs s !! pages t = Some (OArr l)).
Context (Hidx : l !! idx = Some (Some p)).
Context (Hus : abs_step (OpUnref p) (free_frames s) (used_frames s) = AOk fr us).
Let l' := <[idx := None]> l.
Let s' := set_objs (insert (pages t) (OArr l')) (set_frames fr us s).

Lemma dropped_lookup x : objs s' !! x = if decide (x = pages t) then Some (OArr l') else objs s !! x.
Proof.
  unfold s', set_objs. cbn [objs set_frames]. destruct (decide _) as [->|]; [by rewrite lookup_insert_eq|].
  by rewrite lookup_insert_ne by done.
Qed.
Lemma dropped_node x u : objs s' !! x = Some (OTmp u) <-> objs s !! x = Some (OTmp u).
Proof. rewrite dropped_lookup. destruct (decide _) as [->|]; [by rewrite Hl|done]. Qed.
Lemma dropped_other x u : x <> a -> objs s !! x = Some (OTmp u) -> objs s' !! pages u = objs s !! pages u.
Proof.
  intros Hx Hu. rewrite dropped_lookup. destruct (decide _) as [E|]; [|done]. exfalso. apply Hx, (fw_arrs _ W x a u t); try done.
  intros E0. by rewrite E0 in E; rewrite <- E, (fw_null _ W) in Hl.
Qed.
Lemma dropped_arr : arr_of s' t = l'.
Proof. unfold arr_of. rewrite dropped_lookup. by destruct (decide _). Qed.
Lemma dropped_page x i : page_at s' x i = if decide (x = a /\ i = idx) then None else page_at s x i.
Proof.
  assert (Hlt : (idx < length l)%nat) by (by eapply lookup_lt_Some).
  destruct (decide (x = a)) as [->|Hx].
  - rewrite (page_at_tmp s' a t i) by (by apply dropped_node). rewrite (page_at_tmp s a t i Ha), dropped_arr.
    assert (arr_of s t = l) as -> by (unfold arr_of; by rewrite Hl). unfold l'. destruct (decide (i = idx)) as [->|Hi].
    + rewrite list_lookup_insert_eq by done. by destruct (decide _) as [|[]].
    + rewrite list_lookup_insert_ne by done. by destruct (decide _) as [[_ ?]|].
  - destruct (decide (x = a /\ i = idx)) as [[? _]|_]; [done|]. unfold page_at. destruct (objs s' !! x) as [[|u| | |]|] eqn:E.
    2:{ apply dropped_node in E as E2. rewrite E2. unfold arr_of. by rewrite (dropped_other x u). }
    all: rewrite dropped_lookup in E; destruct (decide _) as [->|]; try done; try (by rewrite E); by rewrite Hl.
Qed.
Lemma dropped_view x : view s' x = view s x.
Proof. unfold view. rewrite dropped_lookup. destruct (decide _) as [->|]; [by rewrite Hl|done]. Qed.

Lemma dropped_wf : fs_wf s'.
Proof.
  assert (Hpa : page_at s a idx = Some p) by (rewrite (page_at_tmp _ _ _ _ Ha); unfold arr_of; by rewrite Hl, Hidx).
  destruct (unref_frames _ _ _ _ Hus) as ((st & Hst) & Hoth & Hfr).
  assert (Hnp : p ∉ free_frames s) by (intros Hin; destruct (fw_free _ W p Hin); congruence). split.
  - rewrite dropped_lookup. destruct (decide _) as [E|]; [by rewrite <- E, (fw_null _ W) in Hl|]. apply (fw_null _ W).
  - apply (fw_pos _ W).
  - intros x Hx. apply (fw_next _ W). rewrite dropped_lookup in Hx. destruct (decide _) as [->|]; [eauto|done].
  - intros x u Hu. apply dropped_node in Hu. pose proof (fw_nodes _ W _ _ Hu) as [Hcp Hc He Hs].
    destruct (decide (x = a)) as [->|Hx].
    + assert (u = t) as -> by congruence. split; try done.
      * destruct Hcp as [?|(k & l0 & ? & ? & Hp & ?)]; [by left|]. right. exists k, l'. rewrite dropped_lookup.
        destruct (decide _); [|done]. repeat split; try done. unfold l'. rewrite length_insert. congruence.
      * intros i q. rewrite dropped_arr. unfold l'. intros Hq. apply (He i q). unfold arr_of. rewrite Hl.
        destruct (decide (i = idx)) as [->|]; [|by rewrite list_lookup_insert_ne in Hq].
        rewrite list_lookup_insert_eq in Hq by (by eapply lookup_lt_Some). done.
    + pose proof (dropped_other x u Hx Hu) as E. split; try done.
      * destruct Hcp as [?|(k & l0 & ? & ? & Hp & ?)]; [by left|]. right. exists k, l0. by rewrite E.
      * intros i q. unfold arr_of. rewrite E. apply He.
  - intros x x' u u' Hx Hx'. apply dropped_node in Hx, Hx'. by apply (fw_arrs _ W).
  - intros x i q. rewrite dropped_page. destruct (decide _) as [|Hne]; [done|]. intros Hq.
    destruct (fw_pages _ W _ _ _ Hq) as [Hsq Hok]. split; [|done].
    cbn [used_frames s' set_objs set_frames]. rewrite Hoth; [done|]. intros ->. by destruct Hne, (fw_inj _ W _ _ _ _ _ Hpa Hq).
  - intros x i x' i' q. rewrite !dropped_page. repeat destruct (decide _); try done. apply (fw_inj _ W).
  - cbn. destruct Hfr as [->|[-> _]]; [apply (fw_nodup _ W)|]. apply NoDup_cons. split; [done|apply (fw_nodup _ W)].
  - intros q Hq. cbn [free_frames used_frames s' set_objs set_frames] in *.
    destruct (decide (q = p)) as [->|Hqp].
    + destruct Hfr as [->|[-> Hn]]; [done|]. split; [done|]. by destruct (fw_pages _ W _ _ _ Hpa).
    + rewrite Hoth by done. apply (fw_free _ W). destruct Hfr as [->|[-> _]]; set_solver.
Qed.
End dropped.

(** The pages of [a] from [from] up to [upto] are gone. *)
Record freed (s s' : fs) (a : Z) (t : tmpfs_node) (from upto : nat) : Prop := {
  fd_same : same_but_data s s';
  fd_page : forall b j, page_at s' b j = if decide (b = a /\ (from <= j < upto)%nat) then None else page_at s b j;
  fd_bytes : bytes s' = bytes s;
  fd_budget : budget s' = budget s;
  fd_free : (length (free_frames s) <= length (free_frames s'))%nat;
  fd_node : objs s' !! a = Some (OTmp t);
  fd_wf : fs_wf s';
}.

Lemma free_loop_ok n : forall s a t i, fs_wf s -> objs s !! a = Some (OTmp t) -> 0 < page_cap t ->
  Z.of_nat (i + n) <= page_cap t ->
  exists s', free_loop n (pages t) (Z.of_nat i) s = Ret tt s' /\ freed s s' a t i (i + n).
Proof.
  induction n as [|n IH]; intros s a t i W Ha Hc Hn.
  { exists s. split; [done|]. split; try done. intros b j. destruct (decide _); [lia|done]. }
  destruct (wf_arr s a t W Ha Hc) as (l & Hl & Hlen & Harr).
  destruct (lookup_lt_is_Some_2 l i) as [v Hv]; [lia|]. simpl free_loop.
  rewrite (bind_ret _ _ _ _ _ (arr_load_nat _ _ _ _ _ Hl Hv)).
  assert (Hpa : page_at s a i = v) by (rewrite (page_at_tmp _ _ _ _ Ha), Harr, Hv; by destruct v).
  assert (exists s1, match v with None => ret tt | Some p => page_unref p ;;; arr_store (pages t) (Z.of_nat i) None end s = Ret tt s1 /\
    freed s s1 a t i (i + 1)) as (s1 & E1 & [V1 P1 B1 G1 F1 N1 W1]).
  { destruct v as [p|].
    - destruct (fw_pages _ W _ _ _ Hpa) as [(st & Hst & Hsh & Hrf) _].
      assert (exists fr us, abs_step (OpUnref p) (free_frames s) (used_frames s) = AOk fr us) as (fr & us & Hus).
      { unfold abs_step. cbn. rewrite Hst, Hsh. destruct (1 <? u_ref st); eauto. }
      eexists. split.
      { unfold page_unref, bind. rewrite Hus. apply arr_store_eq; [exact Hl|lia]. }
      rewrite Nat2Z.id. destruct (unref_frames s p fr us Hus) as (_ & _ & Hfr). split.
      + split; try done. by apply dropped_view.
      + intros b j. rewrite (dropped_page s a t l i p fr us W Ha Hl Hv). repeat destruct (decide _); try done; try lia.
      + done.
      + done.
      + cbn. destruct Hfr as [->|[-> _]]; simpl; lia.
      + by apply dropped_node.
      + by apply (dropped_wf s a t l i p fr us).
    - exists s. split; [done|]. split; try done. intros b j. destruct (decide _) as [[-> Hj]|]; [|done].
      by replace j with i by lia. }
  rewrite (bind_ret _ _ _ _ _ E1).
  destruct (IH s1 a t (i + 1)%nat W1 N1 Hc ltac:(lia)) as (s2 & E2 & [V2 P2 B2 G2 F2 N2 W2]).
  exists s2. split; [by rewrite Nat2Z.inj_add in E2|]. split; try done; try congruence; try lia; [by etrans|].
  intros b j. rewrite P2, P1. repeat destruct (decide _); try done; lia.
Qed.

Lemma free_pages_ok s a t first : fs_wf s -> objs s !! a = Some (OTmp t) -> Z.of_nat first < page_count t ->
  exists s', _free_pages_from a (Z.of_nat first) s = Ret tt s' /\
    freed s s' a (Tmpfs.set_pages (pages t) (Z.of_nat first) (page_cap t) t) first (Z.to_nat (page_count t)).
Proof.
  intros W Ha Hf. pose proof (fw_nodes _ W _ _ Ha) as [Hcap Hc _ Hs]. unfold _free_pages_from.
  rewrite (bind_ret _ _ _ _ _ (get_tmp_eq _ _ _ Ha)).
  destruct Hcap as [[_ ?]|(k & l & _ & _ & Hl & _)]; [lia|].
  rewrite (proj2 (Z.eqb_neq (pages t) 0)) by (intros E; by rewrite E, (fw_null _ W) in Hl).
  destruct (free_loop_ok (Z.to_nat (page_count t - Z.of_nat first)) s a t first W Ha ltac:(lia) ltac:(lia)) as (s1 & E1 & [V1 P1 B1 G1 F1 N1 W1]).
  rewrite (bind_ret _ _ _ _ _ E1). rewrite (proj2 (Z.ltb_lt _ _) Hf), (upd_tmp_eq _ _ _ _ N1).
  replace (first + Z.to_nat (page_count t - Z.of_nat first))%nat with (Z.to_nat (page_count t)) in P1 by lia.
  eexists. split; [done|].
  assert (He : forall i p, arr_of s1 t !! i = Some (Some p) -> Z.of_nat i < Z.of_nat first).
  { intros i p Hi. assert (Hpa : page_at s1 a i = Some p) by (by rewrite (page_at_tmp _ _ _ _ N1), Hi).
    pose proof (nw_entries _ _ (fw_nodes _ W1 _ _ N1) i p Hi). rewrite P1 in Hpa. destruct (decide _); [done|]. lia. }
  split; try done.
  - split; try apply V1. intros x. transitivity (view s1 x); [|apply V1]. unfold view.
    destruct (decide (x = a)) as [->|]; [by rewrite renode_eq, N1|by rewrite renode_lookup].
  - intros b j. rewrite <- P1. eapply renode_page; done.
  - apply renode_eq.
  - eapply renode_wf; try done. cbn. lia.
Qed.

(** ** Truncation *)

Definition resize (c : list Z) (n : nat) : list Z := take n c ++ replicate (n - length c) 0.
Lemma resize_length c n : length (resize c n) = n.
Proof. unfold resize. rewrite length_app, length_take, length_replicate. lia. Qed.
Lemma resize_nth c n i : (i < n)%nat -> nth i (resize c n) 0 = nth i c 0.
Proof.
  intros Hi. unfold resize. destruct (decide (i < length c)%nat).
  - rewrite app_nth1 by (rewrite length_take; lia). by rewrite nth_firstn, (proj2 (Nat.ltb_lt _ _)) by lia.
  - rewrite app_nth2, nth_zeros by (rewrite length_take; lia). by rewrite nth_overflow by lia.
Qed.

Lemma trunc_free_ok s a t keep : fs_wf s -> objs s !! a = Some (OTmp t) ->
  exists s1 t1, (if Z.of_nat keep <? page_count t then _free_pages_from a (Z.of_nat keep) else ret tt) s = Ret tt s1 /\
    same_but_data s s1 /\ objs s1 !! a = Some (OTmp t1) /\ vnode t1 = vnode t /\ fs_wf s1 /\
    (forall b i, file_byte s1 b i = if decide (b = a /\ (keep * PGSZ <= i)%nat) then 0 else file_byte s b i) /\
    budget s1 = budget s /\ (length (free_frames s) <= length (free_frames s1))%nat.
Proof.
  intros W Ha. pose proof (fw_nodes _ W _ _ Ha) as [_ Hc He _].
  assert (Hgone : forall i, page_count t <= Z.of_nat i -> page_at s a i = None).
  { intros i Hi. rewrite (page_at_tmp _ _ _ _ Ha). destruct (arr_of s t !! i) as [[q|]|] eqn:E; try done.
    specialize (He i q E). lia. }
  assert (Hdiv : forall i : nat, (keep * PGSZ <= i)%nat <-> (keep <= i / PGSZ)%nat).
  { intros i. pose proof (Nat.div_mod i PGSZ ltac:(lia)). pose proof (Nat.mod_upper_bound i PGSZ ltac:(lia)). lia. }
  destruct (_ <? _) eqn:E; bools.
  - destruct (free_pages_ok s a t keep W Ha E) as (s1 & E1 & [V1 P1 B1 G1 F1 N1 W1]).
    exists s1. eexists. split; [done|]. do 2 (split; [done|]). split; [done|]. split; [done|]. split; [|by split].
    intros b i. unfold file_byte. rewrite P1. unfold frame_byte. rewrite B1. pose proof (Hdiv i).
    repeat destruct (decide _); try done; try lia.
    destruct a0 as [-> ?]. rewrite Hgone; [done|]. lia.
  - exists s, t. split; [done|]. do 4 (split; [done|]). split; [|by split]. intros b i. destruct (decide _) as [[-> Hi]|]; [|done].
    unfold file_byte. rewrite Hgone; [done|]. apply Hdiv in Hi. lia.
Qed.

(** The bytes of the last page behind the end. *)
Lemma trunc_tail_ok s a t size keep : fs_wf s -> objs s !! a = Some (OTmp t) ->
  (size <= keep * PGSZ < size + PGSZ)%nat ->
  (forall i, (keep * PGSZ <= i)%nat -> file_byte s a i = 0) ->
  let tail := Z.land (Z.of_nat size) (PAGE_SIZE - 1) in
  exists s1, (if negb (tail =? 0) && (0 <? Z.of_nat keep) && (Z.of_nat keep - 1 <? page_count t) then
     let* p := arr_load (pages t) (Z.of_nat keep - 1) in
     match p with
     | Some p => frame_store p tail (replicate (Z.to_nat (PAGE_SIZE - tail)) 0)
     | None => ret tt
     end
   else ret tt) s = Ret tt s1 /\
   objs s1 = objs s /\ root_node s1 = root_node s /\ mounts s1 = mounts s /\ fs_wf s1 /\ budget s1 = budget s /\
   free_frames s1 = free_frames s /\
   forall b i, file_byte s1 b i = if decide (b = a /\ (size <= i)%nat) then 0 else file_byte s b i.
Proof.
  intros W Ha Hk Hz tail. assert (Etail : tail = Z.of_nat (size mod PGSZ)) by (unfold tail; rewrite land_page, Nat2Z.inj_mod by lia; done).
  assert (Hnone : (forall i, (size <= i < keep * PGSZ)%nat -> file_byte s a i = 0) -> forall b i,
    file_byte s b i = if decide (b = a /\ (size <= i)%nat) then 0 else file_byte s b i).
  { intros H b i. destruct (decide _) as [[-> Hi]|]; [|done]. destruct (decide (i < keep * PGSZ)%nat); [apply H; lia|apply Hz; lia]. }
  pose proof (Nat.div_mod size PGSZ ltac:(lia)) as Hdm. pose proof (Nat.mod_upper_bound size PGSZ ltac:(lia)) as Hmu.
  destruct (decide (size mod PGSZ = 0)%nat) as [E0|E0].
  { rewrite Etail, E0. cbn [negb Z.eqb Z.of_nat andb]. exists s. split; [done|]. do 6 (split; [done|]). apply Hnone. intros i Hi. lia. }
  assert (Hk1 : (keep = size / PGSZ + 1)%nat) by lia.
  rewrite (proj2 (Z.eqb_neq tail 0)), (proj2 (Z.ltb_lt 0 (Z.of_nat keep))) by lia. cbn [negb andb].
  replace (Z.of_nat keep - 1) with (Z.of_nat (size / PGSZ)) by lia.
  pose proof (page_load s a t (size / PGSZ) W Ha) as Hpl. set (g := Z.of_nat (size / PGSZ) <? page_count t) in *.
  destruct (page_at s a (size / PGSZ)) as [p|] eqn:Ep.
  - destruct g; [|done]. rewrite (bind_ret _ _ _ _ _ Hpl). destruct (fw_pages _ W _ _ _ Ep) as [_ (b & Hb & Hlb)].
    set (data := replicate (Z.to_nat (PAGE_SIZE - tail)) 0). assert (Hdl : length data = (PGSZ - size mod PGSZ)%nat).
    { unfold data, PAGE_SIZE. rewrite length_replicate. lia. }
    eexists. split; [apply (frame_store_eq _ p b); [done|lia|lia]|]. do 3 (split; [done|]).
    rewrite Etail, Nat2Z.id. split; [|do 2 (split; [done|])].
    + eapply store_wf; [done|done|]. apply splice_length. lia.
    + intros x i. rewrite (file_byte_store s a (size / PGSZ) p b (size mod PGSZ) data x i W Ep Hb ltac:(lia) Hlb).
      destruct (decide _) as [[-> Hi]|Hi]; [unfold data; rewrite nth_zeros; destruct (decide _) as [|[]]; [done|split; [done|lia]]|].
      destruct (decide _) as [[-> Hj]|]; [|done]. apply Hz. lia.
  - exists s. split; [destruct g; [by rewrite (bind_ret _ _ _ _ _ Hpl)|done]|]. do 6 (split; [done|]). apply Hnone.
    intros i Hi. unfold file_byte. by rewrite (page_idx (size / PGSZ)), Ep by lia.
Qed.

Lemma tmpfs_truncate_ok junk s a size :
  fs_wf s -> zero_tails s -> is_file s a -> 0 <= size <= 512 * 4096 -> can_take s 1 ->
  exists s', tmpfs_truncate junk a size s = Ret 0 s' /\ updated s s' a (resize (contents s a) (Z.to_nat size)) 1.
Proof.
  intros W Hz (t & Ha & Hm) Hs [Hb Hf]. unfold tmpfs_truncate.
  rewrite (bind_ret _ _ _ _ _ (get_node_tmp _ _ _ Ha)), Hm. cbn [negb].
  rewrite (bind_ret _ _ _ _ _ (get_tmp_eq _ _ _ Ha)).
  set (n := Z.to_nat size). set (keep := ((n + (PGSZ - 1)) / PGSZ)%nat).
  assert (Hkn : (n <= keep * PGSZ < n + PGSZ)%nat).
  { unfold keep. pose proof (Nat.div_mod (n + (PGSZ - 1)) PGSZ ltac:(lia)). pose proof (Nat.mod_upper_bound (n + (PGSZ - 1)) PGSZ ltac:(lia)). lia. }
  assert (u64 (size + PAGE_SIZE - 1) / PAGE_SIZE = Z.of_nat keep) as ->.
  { rewrite u64_small by (unfold PAGE_SIZE; lia). unfold keep, PAGE_SIZE. rewrite Nat2Z.inj_div. f_equal. lia. }
  destruct (trunc_free_ok s a t keep W Ha) as (s1 & t1 & E1 & V1 & Ha1 & Ev1 & W1 & B1 & G1 & F1).
  rewrite (bind_ret _ _ _ _ _ E1).
  assert (exists s2 r, (if (n_size (vnode t) <? size) && (0 <? Z.of_nat keep) then _ensure_page junk a (Z.of_nat keep - 1) else ret (0, None)) s1
    = Ret (0, r) s2 /\ same_but_data s1 s2 /\ fs_wf s2 /\ (forall b i, file_byte s2 b i = file_byte s1 b i) /\
    (budget s1 <= S (budget s2))%nat /\ (length (free_frames s1) <= S (length (free_frames s2)))%nat)
    as (s2 & r & E2 & V2 & W2 & B2 & G2 & F2).
  { destruct (_ && _) eqn:E; bools.
    - replace (Z.of_nat keep - 1) with (Z.of_nat (keep - 1)) by lia.
      destruct (ensure_page_ok junk s1 a t1 (keep - 1)) as (s2 & p & E2 & T); try done; try lia.
      { intros En. rewrite En in F1. simpl in F1. lia. }
      exists s2, (Some p). split; [done|]. do 4 (split; [apply T|]). apply T.
    - exists s1, None. split; [done|]. do 3 (split; [done|]). lia. }
  rewrite (bind_ret _ _ _ _ _ E2). cbn [fst negb Z.eqb].
  destruct (view_tmp s1 s2 a t1 (sb_view _ _ V2 a) Ha1) as (t2 & Ha2 & Et). apply set_pages_vnode in Et as (Ev2 & _).
  rewrite (bind_ret _ _ _ _ _ (get_node_tmp _ _ _ Ha2)), (bind_ret _ _ _ _ _ (put_node_tmp _ _ _ _ Ha2)).
  set (t3 := set_vnode (with_size (vnode t2) size) t2). set (s3 := set_objs _ s2).
  pose proof (fw_nodes _ W2 _ _ Ha2) as [_ Hc2 He2 _].
  assert (W3 : fs_wf s3) by (eapply renode_wf; try done; cbn; lia).
  assert (B3 : forall b i, file_byte s3 b i = file_byte s2 b i) by (intros; by eapply renode_byte).
  rewrite (bind_ret _ _ _ _ _ (get_tmp_eq s3 a t3 (renode_eq _ _ _))).
  destruct (trunc_tail_ok s3 a t3 n keep W3 (renode_eq _ _ _) Hkn) as (s4 & E4 & O4 & R4 & M4 & W4 & G4 & F4 & B4).
  { intros i Hi. rewrite B3, B2, B1. destruct (decide _) as [|[]]; [done|]. split; [done|]. lia. }
  cbv zeta in E4. replace (Z.of_nat n) with size in E4 by lia. rewrite (bind_ret _ _ _ _ _ E4).
  assert (Hby : forall b i, file_byte s4 b i = if decide (b = a /\ (n <= i)%nat) then 0 else file_byte s b i).
  { intros b i. rewrite B4, B3, B2, B1. repeat destruct (decide _); try done; lia. }
  assert (Hsz : forall x, file_size s4 x = if decide (x = a) then size else file_size s x).
  { intros x. unfold file_size. rewrite O4. fold (file_size s3 x). unfold s3. rewrite renode_size. destruct (decide _); [done|].
    etrans; [apply view_size, V2|apply view_size, V1]. }
  assert (Hvw : forall x, x <> a -> view s4 x = view s x).
  { intros x Hx. transitivity (view s3 x); [unfold view; by rewrite O4|]. transitivity (view s2 x); [unfold view, s3; by rewrite renode_lookup|].
    etrans; [apply V2|apply V1]. }
  exists s4. split; [done|]. split; try done.
  - intros x i. rewrite Hsz, Hby. destruct (decide (x = a)) as [->|Hx]; intros Hi; destruct (decide _); try done; try lia; by apply Hz.
  - apply nth_ext_z; rewrite contents_length, Hsz; destruct (decide (a = a)); try done; [by rewrite resize_length|].
    intros i Hi. fold n in Hi. rewrite contents_nth by (rewrite Hsz; by destruct (decide _)). rewrite Hby, resize_nth by done.
    destruct (decide _); [lia|]. by apply file_byte_contents.
  - intros x Hx. apply contents_eq; [rewrite Hsz; by destruct (decide _)|]. intros i Hi. rewrite Hby. by destruct (decide _) as [[? _]|].
  - intros x Hx. destruct (decide (x = a)) as [->|Hxa]; [|apply (is_file_view s); [by apply Hvw|done]].
    exists t3. rewrite O4. split; [apply renode_eq|]. cbn. by rewrite Ev2, Ev1.
  - intros m [Hb' Hf']. unfold can_take. rewrite G4, F4. cbn. lia.
Qed.

(** ** Files as byte sequences *)

Inductive file_op :=
  | FRead (a off len : Z)
  | FWrite (a off : Z) (buf : list Z)
  | FTruncate (a size : Z).
Inductive file_result :=
  | RBytes (r : Z) (d : list Z)
  | RDone (r n : Z)
  | RInt (r : Z).

Definition file_run1 (junk : option Z) (op : file_op) : M fs file_result :=
  match op with
  | FRead a off len => let* r := tmpfs_read a off len in ret (RBytes r.1 r.2)
  | FWrite a off buf => let* r := tmpfs_write junk a off buf in ret (RDone r.1 r.2)
  | FTruncate a size => let* r := tmpfs_truncate junk a size in ret (RInt r)
  end.
Fixpoint file_run (junk : option Z) (ops : list file_op) : M fs (list file_result) :=
  match ops with
  | [] => ret []
  | op :: ops => let* r := file_run1 junk op in let* rs := file_run junk ops in ret (r :: rs)
  end.

(** Two megabytes: the array of pointers then fills one page. *)
Definition FILE_MAX : Z := 512 * 4096.

(** The specification: a finite map from files to their bytes. *)
Definition spec_op (F : gmap Z (list Z)) (op : file_op) : option (gmap Z (list Z) * file_result) :=
  match op with
  | FRead a off len =>
      match F !! a with
      | Some c =>
          if (0 <=? off) && (off <? 2 ^ 62) && (0 <=? len)
          then Some (F, RBytes 0 (take (Z.to_nat len) (drop (Z.to_nat off) c))) else None
      | None => None
      end
  | FWrite a off buf =>
      match F !! a with
      | Some c =>
          if (0 <=? off) && (off + Z.of_nat (length buf) <=? FILE_MAX)
          then Some (<[a := overwrite c (Z.to_nat off) buf]> F, RDone 0 (Z.of_nat (length buf))) else None
      | None => None
      end
  | FTruncate a size =>
      match F !! a with
      | Some c =>
          if (0 <=? size) && (size <=? FILE_MAX) then Some (<[a := resize c (Z.to_nat size)]> F, RInt 0) else None
      | None => None
      end
  end.
Fixpoint spec_run (F : gmap Z (list Z)) (ops : list file_op) : option (gmap Z (list Z) * list file_result) :=
  match ops with
  | [] => Some (F, [])
  | op :: ops =>
      match spec_op F op with
      | None => None
      | Some (F, r) => match spec_run F ops with None => None | Some (F, rs) => Some (F, r :: rs) end
      end
  end.

(** Page frames and heap objects that are enough. *)
Definition op_cost (op : file_op) : nat :=
  match op with
  | FRead _ _ _ => 0
  | FWrite _ _ buf => chunks (Z.of_nat (length buf))
  | FTruncate _ _ => 1
  end.

Definition files_are (s : fs) (F : gmap Z (list Z)) : Prop :=
  fs_wf s /\ zero_tails s /\ forall a c, F !! a = Some c -> is_file s a /\ contents s a = c.

Lemma files_updated s s' F a c cost : files_are s F -> is_Some (F !! a) -> updated s s' a c cost -> files_are s' (<[a := c]> F).
Proof.
  intros (_ & _ & HF) [c0 Ha] [W Hz Hc Ho Hi _ _]. split; [done|]. split; [done|]. intros b d.
  destruct (decide (b = a)) as [->|Hb].
  - rewrite lookup_insert_eq. intros [= <-]. split; [|done]. apply Hi. by apply (HF a c0).
  - rewrite lookup_insert_ne by done. intros Hd. destruct (HF b d Hd) as [? <-]. split; [by apply Hi|by apply Ho].
Qed.

Lemma spec_op_ok junk op s F F' r n :
  files_are s F -> spec_op F op = Some (F', r) -> can_take s (op_cost op + n) ->
  exists s', file_run1 junk op s = Ret r s' /\ files_are s' F' /\ can_take s' n.
Proof.
  intros HF Hop [Hb Hf]. pose proof HF as (W & Hz & Hfs).
  destruct op as [a off len|a off buf|a size]; simpl in Hop; (destruct (F !! a) as [c|] eqn:Ea; [|done]);
    (destruct (_ && _) eqn:E; [|done]); injection Hop as <- <-; unfold FILE_MAX in *; bools; destruct (Hfs a c Ea) as [Hfile Hc]; simpl in Hb, Hf; simpl file_run1.
  - erewrite bind_ret; [|apply tmpfs_read_ok; done || lia]. exists s. rewrite Hc. split; [done|]. by split.
  - destruct (tmpfs_write_ok junk s a off buf) as (s' & Er & U); try done; try (unfold can_take; lia).
    erewrite bind_ret; [|exact Er]. exists s'. split; [done|]. rewrite Hc in U. split; [eapply files_updated; eauto|].
    apply (up_cost _ _ _ _ _ U). unfold can_take. lia.
  - destruct (tmpfs_truncate_ok junk s a size) as (s' & Er & U); try done; try (unfold can_take; lia).
    erewrite bind_ret; [|exact Er]. exists s'. split; [done|]. rewrite Hc in U. split; [eapply files_updated; eauto|].
    apply (up_cost _ _ _ _ _ U). unfold can_take. lia.
Qed.

(** C17: the files of tmpfs are independent byte sequences.  Any sequence of reads, writes
    and truncations on any of its files, at any offsets up to two megabytes, returns what
    the same operations on a map from files to lists of bytes return, with gaps read as
    zeros, and leaves the files with those contents; the page arrays, the frames and the
    bytes behind the end stay in order.  Enough page frames and heap objects are free. *)
Theorem tmpfs_files_refine junk ops s F F' rs :
  files_are s F -> spec_run F ops = Some (F', rs) -> can_take s (sum_list_with op_cost ops) ->
  exists s', file_run junk ops s = Ret rs s' /\ files_are s' F'.
Proof.
  revert s F rs. induction ops as [|op ops IH]; intros s F rs HF Hr Hc; simpl in *.
  { injection Hr as <- <-. by exists s. }
  destruct (spec_op F op) as [[F1 r]|] eqn:E1; [|done]. destruct (spec_run F1 ops) as [[F2 rs2]|] eqn:E2; [|done].
  injection Hr as <- <-. destruct (spec_op_ok junk op s F F1 r _ HF E1 Hc) as (s1 & R1 & HF1 & Hc1).
  destruct (IH s1 F1 rs2 HF1 E2 Hc1) as (s2 & R2 & HF2). exists s2. split; [|done].
  by rewrite (bind_ret _ _ _ _ _ R1), (bind_ret _ _ _ _ _ R2).
Qed.
