(* ===== verification/TmpfsExamples.v ===== *)
(** * Limits of tmpfs files, and concrete runs

    What happens when a file outgrows its array, when a write runs out of page frames,
    and when a file has a second name; the refinement at concrete files. *)

From stdpp Require Import gmap list.
From Stdlib Require Import ZArith Lia.
From S2P Require Import Prelude Pmm Heap HeapProps Pipe VfsBase Tmpfs TmpfsProps.

Local Open Scope Z_scope.

(** A file system whose files have no pages is in order. *)
Lemma fresh_files s :
  objs s !! 0 = None -> 0 < next_addr s -> (forall a, is_Some (objs s !! a) -> a < next_addr s) ->
  (forall a t, objs s !! a = Some (OTmp t) -> pages t = 0 /\ page_cap t = 0 /\ page_count t = 0 /\ n_size (vnode t) = 0) ->
  NoDup (free_frames s) -> (forall p, p ∈ free_frames s -> used_frames s !! p = None /\ frame_ok s p) ->
  fs_wf s /\ zero_tails s.
Proof.
  intros Hnull Hpos Hnext Ht Hnd Hfr.
  assert (Harr : forall a t, objs s !! a = Some (OTmp t) -> arr_of s t = []).
  { intros a t Ha. destruct (Ht a t Ha) as (Hp & _). unfold arr_of. by rewrite Hp, Hnull. }
  assert (Hpg : forall a i, page_at s a i = None).
  { intros a i. unfold page_at. destruct (objs s !! a) as [[|t| | |]|] eqn:E; try done. by rewrite (Harr a t E). }
  split; [|intros a i _; unfold file_byte; by rewrite Hpg]. split; try done.
  - intros a t Ha. destruct (Ht a t Ha) as (Hp & Hk & Hc & Hs). split; [by left|lia| |lia].
    intros i p. by rewrite (Harr a t Ha).
  - intros a a' t t' Ha _ _ Hp. by destruct (Ht a t Ha) as (? & _).
  - intros a i p. by rewrite Hpg.
  - intros a i a' i' p. by rewrite Hpg.
Qed.

(** A directory at 1 with two files at 2 and 3; the free frames hold old data. *)
Definition ex_file (nm : list Z) : tmpfs_node :=
  mkTmp (vfs_node_init TMPFS_OPS (Z.lor VFS_S_IFREG 420) 0 0) 1 [] nm 0 0 0.
Definition ex_root : tmpfs_node := mkTmp (vfs_node_init TMPFS_OPS (Z.lor VFS_S_IFDIR 493) 0 0) 1 [3; 2] [] 0 0 0.
Definition ex_frames : list Z := [10; 11; 12; 13; 14; 15; 16; 17].
Definition ex_fs : fs :=
  mkFs (<[1 := OTmp ex_root]> (<[2 := OTmp (ex_file [97])]> (<[3 := OTmp (ex_file [98])]> ∅))) 4 20 ex_frames ∅
    (list_to_map ((fun p => (p, replicate 4096 7)) <$> ex_frames)) 1 [].

Lemma ex_fs_ok : files_are ex_fs (<[2 := []]> (<[3 := []]> ∅)).
Proof.
  assert (Hobj : forall a o, objs ex_fs !! a = Some o ->
    (a = 1 /\ o = OTmp ex_root) \/ (a = 2 /\ o = OTmp (ex_file [97])) \/ (a = 3 /\ o = OTmp (ex_file [98]))).
  { intros a o. unfold ex_fs. cbn [objs]. rewrite !lookup_insert_Some, lookup_empty. naive_solver. }
  destruct (fresh_files ex_fs) as [W Hz].
  - done.
  - done.
  - intros a [o Ho]. apply Hobj in Ho. simpl. lia.
  - intros a t Ha. apply Hobj in Ha. destruct Ha as [[_ [= ->]]|[[_ [= ->]]|[_ [= ->]]]]; done.
  - by apply (bool_decide_unpack _).
  - intros p Hp. split; [done|]. exists (replicate 4096 7). split; [|by rewrite length_replicate].
    simpl in Hp. repeat (apply elem_of_cons in Hp as [->|Hp]; [vm_compute; reflexivity|]). by apply elem_of_nil in Hp.
  - split; [done|]. split; [done|]. intros a c. rewrite !lookup_insert_Some, lookup_empty.
    intros [[<- <-]|[? [[<- <-]|[? ?]]]]; try done; (split; [eexists; split; [reflexivity|reflexivity]|reflexivity]).
Qed.

Definition ex_ops : list file_op :=
  [FWrite 2 4094 [1; 2; 3; 4]; FRead 2 4092 10; FWrite 3 0 [9; 9]; FTruncate 2 4096; FTruncate 2 4100; FRead 2 4093 100; FRead 3 0 5].

Lemma tmpfs_files_refine_witness :
  exists s', file_run None ex_ops ex_fs =
    Ret [RDone 0 4; RBytes 0 [0; 0; 1; 2; 3; 4]; RDone 0 2; RInt 0; RInt 0; RBytes 0 [0; 1; 2; 0; 0; 0; 0]; RBytes 0 [9; 9]] s' /\
  files_are s' (<[2 := resize (resize (overwrite [] 4094 [1; 2; 3; 4]) 4096) 4100]> (<[3 := [9; 9]]> ∅)).
Proof.
  apply (tmpfs_files_refine None ex_ops ex_fs (<[2 := []]> (<[3 := []]> ∅)) _ _ ex_fs_ok).
  - vm_compute. reflexivity.
  - vm_compute. lia.
Defined.

(** ** Outgrowing the array *)

Lemma grow_cap_1024 count (s : fs) : 512 < count <= 1024 -> grow_cap 65 512 count s = Ret 1024 s.
Proof.
  intros H. change 65%nat with (S (S 63)). cbn [grow_cap]. rewrite (proj2 (Z.ltb_lt _ _)) by lia.
  change (u64 (512 * 2)) with 1024. by rewrite (proj2 (Z.ltb_ge _ _)) by lia.
Qed.

(** a file cannot grow past two megabytes safely.  When the array of a file fills a
    page, [krealloc] returns the same object for the next, larger array, and clearing the
    new half of it runs over the end of the object: any write that starts between two and
    four megabytes faults. *)
Theorem tmpfs_array_overflow junk s a t off buf :
  fs_wf s -> objs s !! a = Some (OTmp t) -> VFS_S_ISREG (n_mode (vnode t)) = true -> page_cap t = 512 ->
  FILE_MAX <= off < 2 * FILE_MAX -> buf <> [] ->
  tmpfs_write junk a off buf s = Fault.
Proof.
  intros W Ha Hm Hc Ho Hb. unfold tmpfs_write, FILE_MAX in *.
  rewrite (bind_ret _ _ _ _ _ (get_node_tmp _ _ _ Ha)), Hm. cbn [negb].
  destruct buf as [|x buf]; [done|]. assert (exists f, chunks (Z.of_nat (length (x :: buf))) = S f) as [f ->].
  { unfold chunks, PAGE_SIZE. exists (Z.to_nat (Z.of_nat (length (x :: buf)) / 4096 + 1)). zdiv. }
  unfold bind at 1. cbn [write_loop]. rewrite (proj2 (Z.leb_gt _ _)) by (simpl; lia). rewrite Z.add_0_r, u64_small by lia.
  unfold bind at 1. unfold _ensure_page, bind at 1, _ensure_pages.
  rewrite (bind_ret _ _ _ _ _ (get_tmp_eq _ _ _ Ha)). assert (Hd : 512 <= off / PAGE_SIZE < 1024) by (unfold PAGE_SIZE; zdiv).
  rewrite u64_small by lia. rewrite (proj2 (Z.leb_gt _ _)) by lia. rewrite Hc. change (512 =? 0) with false. cbn iota.
  rewrite (bind_ret _ _ _ _ _ (grow_cap_1024 (off / PAGE_SIZE + 1) s ltac:(lia))). change (u64 (1024 * 8)) with 8192.
  destruct (wf_arr s a t W Ha ltac:(lia)) as (l & Hl & Hlen & _).
  assert (Hp0 : pages t <> 0) by (intros E; by rewrite E, (fw_null _ W) in Hl).
  assert (krealloc_arr junk (pages t) 8192 s = Ret (pages t) s) as Hk.
  { unfold krealloc_arr. rewrite (proj2 (Z.eqb_neq _ _) Hp0). change (8192 =? 0) with false. cbn iota.
    rewrite (bind_ret _ _ _ _ _ (get_arr_eq _ _ _ Hl)). by rewrite Hlen, Hc, (cache_idx_large 8192), (cache_idx_large (512 * 8)) by lia. }
  rewrite (bind_ret _ _ _ _ _ Hk). rewrite (proj2 (Z.eqb_neq _ _) Hp0). unfold bind at 1, arr_zero.
  rewrite (bind_ret _ _ _ _ _ (get_arr_eq _ _ _ Hl)), Hlen, Hc. reflexivity.
Qed.

(** One byte in the last page the array has room for. *)
Definition full_fs : fs := final (tmpfs_write None 2 (511 * 4096) [1]) ex_fs.
Lemma full_fs_wf : fs_wf full_fs.
Proof.
  pose proof ex_fs_ok as (W & Hz & Hf). destruct (Hf 2 [] eq_refl) as [Hfile _].
  destruct (tmpfs_write_ok None ex_fs 2 (511 * 4096) [1] W Hz Hfile ltac:(lia) ltac:(simpl; lia)) as (s' & E & U).
  { vm_compute. lia. }
  unfold full_fs, final. rewrite E. apply U.
Qed.

Lemma tmpfs_array_overflow_witness : tmpfs_write None 2 FILE_MAX [5] full_fs = Fault.
Proof.
  apply (tmpfs_array_overflow None full_fs 2
    (mkTmp (with_size (vfs_node_init TMPFS_OPS (Z.lor VFS_S_IFREG 420) 0 0) (511 * 4096 + 1)) 1 [] [97] 4 512 512));
    [apply full_fs_wf|vm_compute; reflexivity|reflexivity|reflexivity|unfold FILE_MAX; lia|discriminate].
Defined.

(** ** Running out of page frames *)

Lemma ensure_pages_enough junk s a t count : objs s !! a = Some (OTmp t) -> count <= page_cap t ->
  _ensure_pages junk a count s = Ret 0 s.
Proof.
  intros Ha Hc. unfold _ensure_pages. rewrite (bind_ret _ _ _ _ _ (get_tmp_eq _ _ _ Ha)).
  by rewrite (proj2 (Z.leb_le _ _) Hc).
Qed.
(** A page that is there, and one that cannot be had. *)
Lemma ensure_page_hit junk s a t l i p : objs s !! a = Some (OTmp t) -> objs s !! pages t = Some (OArr l) ->
  l !! i = Some (Some p) -> Z.of_nat i < page_count t <= page_cap t -> page_cap t <= 512 ->
  _ensure_page junk a (Z.of_nat i) s = Ret (0, Some p) s.
Proof.
  intros Ha Hl Hi Hc Hk. unfold _ensure_page. rewrite u64_small by lia.
  rewrite (bind_ret _ _ _ _ _ (ensure_pages_enough junk s a t (Z.of_nat i + 1) Ha ltac:(lia))). cbn [negb Z.eqb].
  rewrite (bind_ret _ _ _ _ _ (get_tmp_eq _ _ _ Ha)), (bind_ret _ _ _ _ _ (arr_load_nat _ _ _ _ _ Hl Hi)).
  rewrite bind_ret with (a := true) (s' := s) by done. cbn [negb]. rewrite (proj2 (Z.ltb_ge _ _)) by lia.
  rewrite bind_ret with (a := tt) (s' := s) by done. by rewrite (bind_ret _ _ _ _ _ (arr_load_nat _ _ _ _ _ Hl Hi)).
Qed.
Lemma ensure_page_none junk s a t l i : objs s !! a = Some (OTmp t) -> objs s !! pages t = Some (OArr l) ->
  l !! i = Some None -> free_frames s = [] -> Z.of_nat i < page_cap t -> page_cap t <= 512 ->
  _ensure_page junk a (Z.of_nat i) s = Panic.
Proof.
  intros Ha Hl Hi Hf Hc Hk. unfold _ensure_page. rewrite u64_small by lia.
  rewrite (bind_ret _ _ _ _ _ (ensure_pages_enough junk s a t (Z.of_nat i + 1) Ha ltac:(lia))). cbn [negb Z.eqb].
  rewrite (bind_ret _ _ _ _ _ (get_tmp_eq _ _ _ Ha)), (bind_ret _ _ _ _ _ (arr_load_nat _ _ _ _ _ Hl Hi)).
  assert (palloc_page s = Panic) as Ep by (unfold palloc_page; by rewrite Hf).
  unfold bind. by rewrite Ep.
Qed.

(** a write that runs out of page frames stops the kernel.  When the second page of a
    write cannot be had, the call does not return ENOMEM as its code provides for:
    [palloc_page] panics before it could. *)
Theorem tmpfs_write_out_of_frames junk s a t p buf :
  fs_wf s -> objs s !! a = Some (OTmp t) -> VFS_S_ISREG (n_mode (vnode t)) = true ->
  page_at s a 0 = Some p -> page_at s a 1 = None -> free_frames s = [] -> (PGSZ < length buf)%nat ->
  tmpfs_write junk a 0 buf s = Panic.
Proof.
  intros W Ha Hm Hp0 Hp1 Hf Hl. unfold tmpfs_write. rewrite (bind_ret _ _ _ _ _ (get_node_tmp _ _ _ Ha)), Hm. cbn [negb].
  assert (exists f, chunks (Z.of_nat (length buf)) = S (S f)) as [f ->].
  { unfold chunks, PAGE_SIZE. exists (Z.to_nat (Z.of_nat (length buf) / 4096)). zdiv. }
  destruct (nw_cap _ _ (fw_nodes _ W _ _ Ha)) as [[Hp Hk]|(k & l & Hk & Hcap & Hlk & Hlen)].
  { exfalso. rewrite (page_at_tmp _ _ _ _ Ha) in Hp0. unfold arr_of in Hp0. by rewrite Hp, (fw_null _ W) in Hp0. }
  pose proof (cap_range k Hk) as Hkr. assert (Harr : arr_of s t = l) by (unfold arr_of; by rewrite Hlk).
  pose proof Hp0 as Hpa. rewrite (page_at_tmp _ _ _ _ Ha), Harr in Hp0. rewrite (page_at_tmp _ _ _ _ Ha), Harr in Hp1.
  assert (Hl0 : l !! 0%nat = Some (Some p)) by (by destruct (l !! 0%nat) as [[]|]; simplify_eq).
  assert (Hl1 : l !! 1%nat = Some None).
  { destruct (lookup_lt_is_Some_2 l 1) as [[q|] Hq]; [lia| |done]. by rewrite Hq in Hp1. }
  assert (Hcnt : 0 < page_count t) by (apply (nw_entries _ _ (fw_nodes _ W _ _ Ha) 0 p); by rewrite Harr).
  pose proof (nw_count _ _ (fw_nodes _ W _ _ Ha)) as Hc.
  destruct (fw_pages _ W _ _ _ Hpa) as [_ (b & Hb & Hlb)].
  set (s1 := set_bytes (insert p (splice b 0 (take PGSZ buf))) s).
  assert (Ht : length (take PGSZ buf) = PGSZ) by (rewrite length_take; lia).
  cbn [write_loop]. rewrite (proj2 (Z.leb_gt _ _)) by lia. change (u64 (0 + 0)) with 0. change (0 / PAGE_SIZE) with (Z.of_nat 0).
  change (Z.land 0 (PAGE_SIZE - 1)) with 0. rewrite Z.min_l by (unfold PAGE_SIZE; lia).
  rewrite bind_assoc, (bind_ret _ _ _ _ _ (ensure_page_hit junk s a t l 0 p Ha Hlk Hl0 ltac:(lia) ltac:(lia))).
  change (PAGE_SIZE - 0) with 4096. change (Z.to_nat 4096) with PGSZ. cbn [fst snd negb Z.eqb]. rewrite drop_0.
  rewrite bind_assoc, (bind_ret _ _ _ _ _ (frame_store_eq s p b 0 (take PGSZ buf) Hb ltac:(lia) ltac:(lia))).
  change (Z.to_nat 0) with 0%nat. rewrite (proj2 (Z.leb_gt _ _)) by lia.
  change (u64 (0 + (0 + 4096))) with 4096. change (4096 / PAGE_SIZE) with (Z.of_nat 1).
  fold s1. rewrite bind_assoc. unfold bind at 1.
  by rewrite (ensure_page_none junk s1 a t l 1 Ha Hlk Hl1 Hf ltac:(lia) ltac:(lia)).
Qed.

(** Five bytes in one page, and no more page frames. *)
Definition tight_fs : fs :=
  let s := final (tmpfs_write None 2 0 [1; 2; 3; 4; 5]) ex_fs in set_frames [] (used_frames s) s.
Lemma tight_fs_wf : fs_wf tight_fs.
Proof.
  pose proof ex_fs_ok as (W & Hz & Hf). destruct (Hf 2 [] eq_refl) as [Hfile _].
  destruct (tmpfs_write_ok None ex_fs 2 0 [1; 2; 3; 4; 5] W Hz Hfile ltac:(lia) ltac:(simpl; lia)) as (s' & E & U).
  { vm_compute. lia. }
  unfold tight_fs, final. rewrite E. destruct (up_wf _ _ _ _ _ U) as [H1 H2 H3 H4 H5 H6 H7 _ _].
  clear E U. split; [exact H1|exact H2|exact H3| |exact H5|exact H6|exact H7|apply NoDup_nil_2|].
  - intros a t Ha. destruct (H4 a t Ha) as [G1 G2 G3 G4]. split; [exact G1|exact G2|exact G3|exact G4].
  - intros p Hp. apply elem_of_nil in Hp. destruct Hp.
Qed.

Lemma tmpfs_write_out_of_frames_witness : tmpfs_write None 2 0 (replicate 5000 9) tight_fs = Panic.
Proof.
  apply (tmpfs_write_out_of_frames None tight_fs 2
    (mkTmp (with_size (vfs_node_init TMPFS_OPS (Z.lor VFS_S_IFREG 420) 0 0) 5) 1 [] [97] 4 1 4) 10);
    [apply tight_fs_wf|vm_compute; reflexivity..|].
  apply Nat.ltb_lt. vm_compute. reflexivity.
Defined.

(** ** A second name *)

Definition tmp_release : Z -> M fs unit :=
  vfs_node_release (fun ops => if ops =? TMPFS_OPS then Some tmpfs_release else None).

(** a hard link shares the pages of its target without counting.  Once a file has a
    second name, removing both names uses the page array after it was freed. *)
Theorem tmpfs_link_use_after_free :
  (let* w := tmpfs_write None 2 0 [1; 2; 3] in
   let* l := tmpfs_link 1 [99] 2 in
   let* u1 := tmpfs_unlink tmp_release 1 [97] in
   tmpfs_unlink tmp_release 1 [99]) ex_fs = Fault.
Proof. vm_compute. reflexivity. Qed.
