(* ===== verification/Vfs.v ===== *)
(** * The virtual file system (kernel/src/fs/vfs.c)

    Paths are C strings as lists of characters, without the terminator; null paths,
    credentials and result pointers are not modelled (they are rejected, or stand for
    the super user, before anything happens).  The operations of file systems other
    than tmpfs are an argument, [foreign]; so are the seek of a pipe and the mapping of
    a file into an address space. *)

From stdpp Require Import gmap list.
From Stdlib Require Import ZArith Lia.
From S2P Require Import Prelude Pmm VfsBase Tmpfs.

Local Open Scope Z_scope.

Definition VFS_O_RDONLY : Z := 0.
Definition VFS_O_WRONLY : Z := 1.
Definition VFS_O_RDWR : Z := 2.
Definition VFS_O_ACCMODE : Z := 3.
Definition VFS_O_CREAT : Z := 256.
Definition VFS_O_EXCL : Z := 512.
Definition VFS_O_TRUNC : Z := 1024.
Definition VFS_O_APPEND : Z := 2048.
Definition VFS_O_DIRECTORY : Z := 4096.
Definition VFS_SEEK_SET : Z := 0.
Definition VFS_SEEK_CUR : Z := 1.
Definition VFS_SEEK_END : Z := 2.
(** [&pipe_ops] *)
Definition PIPE_OPS : Z := 2.

Record vfs_stat_t := mkStat {
  st_dev : Z; st_ino : Z; st_mode : Z; st_uid : Z; st_gid : Z; st_size : Z; st_nlink : Z;
  st_blksize : Z; st_blocks : Z }.

(** ** Permissions *)

Definition _is_group_member (cred : vfs_cred) (gid : Z) : bool :=
  (c_gid cred =? gid) ||
  existsb (fun i => nth i (c_groups cred) 0 =? gid)
    (seq 0 (Z.to_nat (Z.min (c_group_count cred) VFS_SUPP_GROUP_MAX))).

(** [vfs_access] of a node that is not NULL. *)
Definition access_node (v : vfs_node) (cred : vfs_cred) (mask : Z) : Z :=
  if negb (clr mask 7 =? 0) then - EINVAL
  else if c_uid cred =? 0 then
    if has mask VFS_X_OK then
      if VFS_S_ISDIR (n_mode v) || has (n_mode v) 73 then 0 else - EACCES
    else 0
  else
    let bits :=
      if c_uid cred =? n_uid v then Z.land (Z.shiftr (n_mode v) 6) 7
      else if _is_group_member cred (n_gid v) then Z.land (Z.shiftr (n_mode v) 3) 7
      else Z.land (n_mode v) 7 in
    if has mask VFS_R_OK && negb (has bits 4) then - EACCES
    else if has mask VFS_W_OK && negb (has bits 2) then - EACCES
    else if has mask VFS_X_OK && negb (has bits 1) then - EACCES
    else 0.
Definition vfs_access (node : Z) (cred : vfs_cred) (mask : Z) : M fs Z :=
  if node =? 0 then ret (- ENOENT) else let* v := get_node node in ret (access_node v cred mask).

(** ** Paths *)

Fixpoint _skip_slashes (p : list Z) : list Z :=
  match p with
  | 47 :: p => _skip_slashes p
  | _ => p
  end.
(** The characters up to the next slash, and the rest. *)
Fixpoint component (p : list Z) : list Z * list Z :=
  match p with
  | [] => ([], [])
  | c :: q => if c =? 47 then ([], p) else let (n, r) := component q in (c :: n, r)
  end.

Definition _copy_name (n : list Z) : Z :=
  let len := Z.of_nat (length n) in
  if len =? 0 then - EINVAL else if VFS_NAME_MAX <? len then - ENAMETOOLONG else 0.

Definition PATH_BUF : Z := 512.
Definition _append_component (path name : list Z) : Z * list Z :=
  let cur := Z.of_nat (length path) in
  let len := Z.of_nat (length name) in
  if cur =? 0 then (- EINVAL, path)
  else if bool_decide (path = [47]) then
    if PATH_BUF <=? cur + len then (- ENAMETOOLONG, path) else (0, path ++ name)
  else if PATH_BUF <=? cur + 1 then (- ENAMETOOLONG, path)
  else if PATH_BUF <=? cur + 1 + len then (- ENAMETOOLONG, path ++ [47])
  else (0, path ++ [47] ++ name).

(** [while (end > path + least && end[-1] == '/') end--], on the reversed path. *)
Fixpoint strip_rev (least : nat) (r : list Z) : list Z :=
  match r with
  | 47 :: q => if (least <? length r)%nat then strip_rev least q else r
  | _ => r
  end.
Definition strip_slashes (least : nat) (p : list Z) : list Z := reverse (strip_rev least (reverse p)).
(** What precedes and includes the last slash, and what follows it. *)
Definition split_last (p : list Z) : list Z * list Z :=
  let (n, d) := component (reverse p) in (reverse d, reverse n).

Section vfs.
Variable junk : option Z.
Variable foreign : Z -> option vfs_ops.
Variable foreign_release : Z -> option (Z -> M fs unit).
Variable vfs_pipe_seek : Z -> Z -> Z -> M fs (Z * Z).
Variable vas_map_file : Z -> Z -> Z -> Z -> Z -> Z -> M fs Z.

Definition release_op (ops : Z) : option ((Z -> M fs unit) -> Z -> M fs unit) :=
  if ops =? 0 then None
  else if ops =? TMPFS_OPS then Some tmpfs_release
  else (fun f _ => f) <$> foreign_release ops.
Definition node_release : Z -> M fs unit := vfs_node_release release_op.

(** [node->ops], [None] when it is NULL. *)
Definition get_ops (ops : Z) : option vfs_ops :=
  if ops =? 0 then None
  else if ops =? TMPFS_OPS then Some (tmpfs_ops junk node_release)
  else foreign ops.
(** [node->ops && node->ops->f] *)
Definition node_op {A} (v : vfs_node) (f : vfs_ops -> option A) : option A := get_ops (n_ops v) ≫= f.

Definition vfs_init (root : Z) : M fs unit := modify (set_root root).
Definition vfs_root : M fs Z := gets root_node.

(** ** Mounts *)

Definition _mounted_root (node : Z) (path : list Z) : M fs Z :=
  let* ms := gets mounts in
  match find (fun m => bool_decide (m_path m = path)) ms with
  | Some m => ret (m_root m)
  | None =>
      match find (fun m => m_covered m =? node) ms with
      | Some m => ret (m_root m)
      | None => ret 0
      end
  end.
Definition _follow_mount_at (node : Z) (path : list Z) : M fs Z :=
  let* mounted := _mounted_root node path in
  if mounted =? 0 then ret node
  else vfs_node_ref mounted ;;; node_release node ;;; ret mounted.

(** ** Resolution *)

(** The result and the node. *)
Fixpoint resolve_loop (fuel : nat) (cred : vfs_cred) (cur : Z) (cur_path p : list Z) : M fs (Z * Z) :=
  match p with
  | [] => ret (0, cur)
  | _ =>
    match fuel with
    | O => diverge
    | S f =>
        let* v := get_node cur in
        if negb (VFS_S_ISDIR (n_mode v)) then node_release cur ;;; ret (- ENOTDIR, 0)
        else
          let* r := vfs_access cur cred VFS_X_OK in
          if negb (r =? 0) then node_release cur ;;; ret (r, 0)
          else
            let (start, p) := component p in
            match node_op v op_lookup with
            | None => node_release cur ;;; ret (- ENOTDIR, 0)
            | Some lookup =>
                let* l := lookup cur start in
                let (r, next) := (l : Z * Z) in
                node_release cur ;;;
                if negb (r =? 0) then ret (r, 0)
                else
                  let (pr, cur_path) := _append_component cur_path start in
                  if negb (pr =? 0) then node_release next ;;; ret (pr, 0)
                  else
                    let* cur := _follow_mount_at next cur_path in
                    resolve_loop f cred cur cur_path (_skip_slashes p)
            end
    end
  end.

Definition vfs_resolve_at (base : Z) (path : list Z) (cred : vfs_cred) : M fs (Z * Z) :=
  let* root := gets root_node in
  match path with
  | [] => ret (- EINVAL, 0)
  | c :: _ =>
      if root =? 0 then ret (- EINVAL, 0)
      else
        let go (cur : Z) :=
          vfs_node_ref cur ;;;
          let* cur := _follow_mount_at cur [47] in
          resolve_loop (length path) cred cur [47] (_skip_slashes path) in
        if (c =? 47) || (base =? 0) then go root
        else
          let* v := get_node base in
          if negb (VFS_S_ISDIR (n_mode v)) then ret (- ENOTDIR, 0) else go base
  end.

(** [path[0] != '/'] *)
Definition absolute (path : list Z) : bool := match path with c :: _ => c =? 47 | [] => false end.

Definition vfs_resolve (path : list Z) (cred : vfs_cred) : M fs (Z * Z) :=
  if negb (absolute path) then ret (- EINVAL, 0) else vfs_resolve_at 0 path cred.

(** [kmalloc] of a copy of [tmp], and [vfs_resolve_at] of it. *)
Definition resolve_copy (base : Z) (tmp : list Z) (cred : vfs_cred) : M fs (Z * Z) :=
  let* buf := alloc OBlob in
  if buf =? 0 then ret (- ENOMEM, 0)
  else
    let* r := vfs_resolve_at base tmp cred in
    free buf ;;;
    ret r.

(** The result, the parent and the name of the last component. *)
Definition _resolve_parent (path : list Z) (cred : vfs_cred) : M fs (Z * Z * list Z) :=
  if negb (absolute path) then ret (- EINVAL, 0, [])
  else
    let (dir, name) := split_last (strip_slashes 1 path) in
    let r := _copy_name name in
    if negb (r =? 0) then ret (r, 0, [])
    else if bool_decide (dir = [47]) then
      let* root := gets root_node in
      vfs_node_ref root ;;;
      ret (0, root, name)
    else
      let* r := resolve_copy 0 dir cred in
      ret (r.1, r.2, name).

Definition _resolve_parent_at (base : Z) (path : list Z) (cred : vfs_cred) : M fs (Z * Z * list Z) :=
  match path with
  | [] => ret (- EINVAL, 0, [])
  | _ =>
      if absolute path then _resolve_parent path cred
      else
        let p := strip_slashes 0 path in
        match p with
        | [] => ret (- EINVAL, 0, [])
        | _ =>
            let (dir, name) := split_last p in
            let r := _copy_name name in
            if negb (r =? 0) then ret (r, 0, [])
            else match dir with
            | [] =>
                if base =? 0 then ret (- EINVAL, 0, [])
                else
                  let* v := get_node base in
                  if negb (VFS_S_ISDIR (n_mode v)) then ret (- ENOTDIR, 0, [])
                  else vfs_node_ref base ;;; ret (0, base, name)
            | _ =>
                let* r := resolve_copy base (take (length dir - 1) dir) cred in
                ret (r.1, r.2, name)
            end
        end
  end.

Definition vfs_chroot (path : list Z) (cred : vfs_cred) : M fs Z :=
  let* r := vfs_resolve path cred in
  let (r, new_root) := (r : Z * Z) in
  if negb (r =? 0) then ret r
  else
    let* v := get_node new_root in
    if negb (VFS_S_ISDIR (n_mode v)) then node_release new_root ;;; ret (- ENOTDIR)
    else modify (set_root new_root) ;;; ret 0.

Fixpoint drop_mounts (l : list vfs_mount) : M fs unit :=
  match l with
  | [] => ret tt
  | m :: l => node_release (m_covered m) ;;; node_release (m_root m) ;;; free (m_addr m) ;;; drop_mounts l
  end.
Definition vfs_change_root (path : list Z) (cred : vfs_cred) : M fs Z :=
  let* r := vfs_resolve path cred in
  let (r, new_root) := (r : Z * Z) in
  if negb (r =? 0) then ret r
  else
    let* v := get_node new_root in
    if negb (VFS_S_ISDIR (n_mode v)) then node_release new_root ;;; ret (- ENOTDIR)
    else
      modify (set_root new_root) ;;;
      let* ms := gets mounts in
      modify (set_mounts []) ;;;
      drop_mounts ms ;;;
      ret 0.

Definition vfs_mount (path : list Z) (root : Z) (cred : vfs_cred) : M fs Z :=
  if root =? 0 then ret (- EINVAL)
  else
    let* r := vfs_resolve path cred in
    let (r, covered) := (r : Z * Z) in
    if negb (r =? 0) then ret r
    else
      let* cv := get_node covered in
      let* rv := get_node root in
      if negb (VFS_S_ISDIR (n_mode cv)) || negb (VFS_S_ISDIR (n_mode rv)) then node_release covered ;;; ret (- ENOTDIR)
      else
        let* ms := gets mounts in
        if existsb (fun m => m_covered m =? covered) ms then node_release covered ;;; ret (- EEXIST)
        else
          let* mnt := alloc OBlob in
          if mnt =? 0 then node_release covered ;;; ret (- ENOMEM)
          else if PATH_BUF <=? Z.of_nat (length path) then
            node_release covered ;;; free mnt ;;; ret (- ENAMETOOLONG)
          else
            vfs_node_ref root ;;;
            modify (fun s => set_mounts (mkMount mnt covered root path :: mounts s) s) ;;;
            ret 0.

(** ** Links *)

(** The result and the target's bytes. *)
Definition vfs_readlink_node (node size : Z) : M fs (Z * list Z) :=
  if (node =? 0) || (size =? 0) then ret (- EINVAL, [])
  else
    let* v := get_node node in
    if negb (VFS_S_ISLNK (n_mode v)) then ret (- EINVAL, [])
    else match node_op v op_read with
    | None => node_release node ;;; ret (- ENOSYS, [])
    | Some read =>
        let* d := read node 0 (Z.min (n_size v) size) in
        if negb (d.1 =? 0) then ret (d.1, []) else ret (0, d.2)
    end.

(** A C string in a buffer. *)
Fixpoint cstr (b : list Z) : list Z :=
  match b with
  | [] => []
  | c :: b => if c =? 0 then [] else c :: cstr b
  end.

(** Where a link at [path] leads: [None] when the path does not fit. *)
Definition link_path (path target : list Z) : M fs (option (list Z)) :=
  if absolute target then ret (Some target)
  else if PATH_BUF <=? Z.of_nat (length path) then fault
  else match split_last path with
  | ([], _) => ret (Some target)
  | (dir, _) => if Z.of_nat (length dir) + Z.of_nat (length target) <? PATH_BUF
                then ret (Some (dir ++ target)) else ret None
  end.

(** ** Open files *)

(** The node behind a path, a final link followed once: [inl] ends the call, [inr]
    is the state of [r] and [node]. *)
Definition open_resolve (base : Z) (path : list Z) (cred : vfs_cred) : M fs (Z + Z * Z) :=
  let* rn := vfs_resolve_at base path cred in
  let (r, node) := (rn : Z * Z) in
  if negb (r =? 0) then ret (inr (r, node))
  else
    let* v := get_node node in
    if negb (VFS_S_ISLNK (n_mode v)) then ret (inr (r, node))
    else
      let* t := vfs_readlink_node node 255 in
      node_release node ;;;
      if negb (t.1 =? 0) then ret (inl t.1)
      else
        let* abs_target := link_path path (cstr t.2) in
        match abs_target with
        | None => ret (inl (- ENAMETOOLONG))
        | Some abs_target =>
            let* rn := vfs_resolve_at base abs_target cred in
            let (r, node) := (rn : Z * Z) in
            if negb (r =? 0) then ret (inl r) else ret (inr (r, node))
        end.

(** [O_CREAT] for a path that does not exist. *)
Definition open_create (base : Z) (path : list Z) (mode : Z) (cred : vfs_cred) : M fs (Z * Z) :=
  let* p := _resolve_parent_at base path cred in
  let '(r, parent, name) := p in
  if negb (r =? 0) then ret (r, 0)
  else
    let* v := get_node parent in
    if negb (VFS_S_ISDIR (n_mode v)) then node_release parent ;;; ret (- ENOTDIR, 0)
    else
      let* r := vfs_access parent cred (Z.lor VFS_W_OK VFS_X_OK) in
      let* c :=
        (if r =? 0 then
           let create_mode := Z.lor (clr (Z.land mode VFS_S_PERM) (c_umask cred)) VFS_S_IFREG in
           match node_op v op_create with
           | Some create => create parent name create_mode cred
           | None => ret (- ENOSYS, 0)
           end
         else ret (r, 0)) in
      node_release parent ;;;
      ret c.

(** The access the flags ask for. *)
Definition open_acc (flags : Z) : option Z :=
  let m := Z.land flags VFS_O_ACCMODE in
  if m =? VFS_O_RDONLY then Some VFS_R_OK
  else if m =? VFS_O_WRONLY then Some VFS_W_OK
  else if m =? VFS_O_RDWR then Some (Z.lor VFS_R_OK VFS_W_OK)
  else None.

(** The node is there: permissions, truncation, the open file. *)
Definition open_node (node flags : Z) (cred : vfs_cred) : M fs (Z * Z) :=
  let fail r := node_release node ;;; ret (r, 0) in
  let* v := get_node node in
  if has flags VFS_O_DIRECTORY && negb (VFS_S_ISDIR (n_mode v)) then fail (- ENOTDIR)
  else match open_acc flags with
  | None => fail (- EINVAL)
  | Some acc =>
      if has acc VFS_W_OK && VFS_S_ISDIR (n_mode v) then fail (- EISDIR)
      else
        let* r := vfs_access node cred acc in
        if negb (r =? 0) then fail r
        else
          let* r :=
            (if has flags VFS_O_TRUNC && has acc VFS_W_OK && VFS_S_ISREG (n_mode v) then
               match node_op v op_truncate with
               | None => ret (- ENOSYS)
               | Some truncate => truncate node 0
               end
             else ret 0) in
          if negb (r =? 0) then fail r
          else
            let* v := get_node node in
            let* file := alloc (OFile (mkFile node flags (if has flags VFS_O_APPEND then n_size v else 0) 1 cred)) in
            if file =? 0 then fail (- ENOMEM)
            else
              let* r := match node_op v op_open with Some op => op file | None => ret 0 end in
              if negb (r =? 0) then node_release node ;;; free file ;;; ret (r, 0)
              else ret (0, file)
  end.

Definition vfs_open_at (base : Z) (path : list Z) (flags mode : Z) (cred : vfs_cred) : M fs (Z * Z) :=
  let* o := open_resolve base path cred in
  match o with
  | inl r => ret (r, 0)
  | inr (r, node) =>
      if negb (r =? 0) && has flags VFS_O_CREAT then
        if negb (r =? - ENOENT) then ret (r, 0)
        else
          let* c := open_create base path mode cred in
          if negb (c.1 =? 0) then ret (c.1, 0) else open_node c.2 flags cred
      else if (r =? 0) && (Z.land flags (Z.lor VFS_O_CREAT VFS_O_EXCL) =? Z.lor VFS_O_CREAT VFS_O_EXCL) then
        node_release node ;;; ret (- EEXIST, 0)
      else if negb (r =? 0) then ret (r, 0)
      else open_node node flags cred
  end.
Definition vfs_open (path : list Z) (flags mode : Z) (cred : vfs_cred) : M fs (Z * Z) :=
  if negb (absolute path) then ret (- EINVAL, 0) else vfs_open_at 0 path flags mode cred.

Definition set_file_refs (f : vfs_file) (n : Z) : vfs_file :=
  mkFile (f_node f) (f_flags f) (f_offset f) n (f_cred f).
Definition set_offset (f : vfs_file) (o : Z) : vfs_file :=
  mkFile (f_node f) (f_flags f) o (f_refs f) (f_cred f).

Definition vfs_close (file : Z) : M fs Z :=
  if file =? 0 then ret (- EBADF)
  else
    let* f := get_file file in
    if 1 <? f_refs f then put file (OFile (set_file_refs f (u32 (f_refs f - 1)))) ;;; ret 0
    else
      let* r :=
        (if f_node f =? 0 then ret 0
         else
           let* v := get_node (f_node f) in
           match node_op v op_close with Some close => close file | None => ret 0 end) in
      node_release (f_node f) ;;;
      free file ;;;
      ret r.

Definition vfs_read (file len : Z) : M fs (Z * list Z) :=
  if file =? 0 then ret (- EBADF, [])
  else
    let* f := get_file file in
    if Z.land (f_flags f) VFS_O_ACCMODE =? VFS_O_WRONLY then ret (- EBADF, [])
    else
      let* v := get_node (f_node f) in
      if VFS_S_ISDIR (n_mode v) then ret (- EISDIR, [])
      else match node_op v op_read with
      | None => ret (- ENOSYS, [])
      | Some read =>
          let* d := read (f_node f) (f_offset f) len in
          (if d.1 =? 0 then
             let* f := get_file file in
             put file (OFile (set_offset f (u64 (f_offset f + Z.of_nat (length d.2)))))
           else ret tt) ;;;
          ret d
      end.

Definition vfs_write (file : Z) (buf : list Z) : M fs (Z * Z) :=
  if file =? 0 then ret (- EBADF, 0)
  else
    let* f := get_file file in
    if Z.land (f_flags f) VFS_O_ACCMODE =? VFS_O_RDONLY then ret (- EBADF, 0)
    else
      let* v := get_node (f_node f) in
      if VFS_S_ISDIR (n_mode v) then ret (- EISDIR, 0)
      else match node_op v op_write with
      | None => ret (- ENOSYS, 0)
      | Some write =>
          let off := if has (f_flags f) VFS_O_APPEND then n_size v else f_offset f in
          let* d := write (f_node f) off buf in
          (if d.1 =? 0 then
             let* f := get_file file in
             put file (OFile (set_offset f (u64 (off + d.2))))
           else ret tt) ;;;
          ret d
      end.

(** [file && file->node], and the node. *)
Definition with_file_node {A} (file : Z) (bad : A) (k : vfs_file -> vfs_node -> M fs A) : M fs A :=
  if file =? 0 then ret bad
  else
    let* f := get_file file in
    if f_node f =? 0 then ret bad else let* v := get_node (f_node f) in k f v.

Definition vfs_fsync (file : Z) : M fs Z :=
  with_file_node file (- EBADF) (fun _ v =>
    if VFS_S_ISFIFO (n_mode v) then ret (- EINVAL)
    else match node_op v op_fsync with None => ret 0 | Some fsync => fsync file end).

Definition vfs_fadvise (file offset len advice : Z) : M fs Z :=
  with_file_node file (- EBADF) (fun _ v =>
    if (2 ^ 63 <=? offset) || (2 ^ 63 <=? len) then ret (- EINVAL)
    else if negb ((0 <=? advice) && (advice <=? 5)) then ret (- EINVAL)
    else if VFS_S_ISFIFO (n_mode v) then ret (- ESPIPE)
    else match node_op v op_fadvise with None => ret 0 | Some fadvise => fadvise file offset len advice end).

Definition vfs_ioctl (file request arg : Z) : M fs Z :=
  with_file_node file (- EBADF) (fun _ v =>
    match node_op v op_ioctl with None => ret (- ENOTTY) | Some ioctl => ioctl file request arg end).

Definition vfs_poll (file events : Z) : M fs Z :=
  with_file_node file (- EBADF) (fun _ v =>
    match node_op v op_poll with None => ret 0 | Some poll => poll file events end).

Definition vfs_readdir (dir index : Z) : M fs (Z * vfs_dirent) :=
  let empty := mkDirent [] 0 0 0 0 0 in
  if dir =? 0 then ret (- EINVAL, empty)
  else
    let* v := get_node dir in
    if negb (VFS_S_ISDIR (n_mode v)) then ret (- ENOTDIR, empty)
    else match node_op v op_readdir with
    | None => ret (- ENOSYS, empty)
    | Some readdir => readdir dir index
    end.

(** The result and the new offset. *)
Definition vfs_seek (file whence off : Z) : M fs (Z * Z) :=
  with_file_node file (- EBADF, 0) (fun f v =>
    if n_ops v =? PIPE_OPS then vfs_pipe_seek file whence off
    else
      let base :=
        if whence =? VFS_SEEK_SET then Some 0
        else if whence =? VFS_SEEK_CUR then Some (f_offset f)
        else if whence =? VFS_SEEK_END then Some (n_size v)
        else None in
      match base with
      | None => ret (- EINVAL, 0)
      | Some base =>
          if (off <? 0) && (base <? u64 (- off)) then ret (- EINVAL, 0)
          else
            let o := if off <? 0 then u64 (base - u64 (- off)) else u64 (base + off) in
            put file (OFile (set_offset f o)) ;;;
            ret (0, o)
      end).

(** ** Names *)

Definition vfs_mkdir_at (base : Z) (path : list Z) (mode : Z) (cred : vfs_cred) : M fs Z :=
  let* p := _resolve_parent_at base path cred in
  let '(r, parent, name) := p in
  if negb (r =? 0) then ret r
  else
    let* r := vfs_access parent cred (Z.lor VFS_W_OK VFS_X_OK) in
    let* r :=
      (if r =? 0 then
         let* v := get_node parent in
         match node_op v op_mkdir with
         | Some mkdir =>
             let* c := mkdir parent name (Z.lor VFS_S_IFDIR (clr (Z.land mode VFS_S_PERM) (c_umask cred))) cred in
             node_release c.2 ;;;
             ret c.1
         | None => ret (- ENOSYS)
         end
       else ret r) in
    node_release parent ;;;
    ret r.
Definition vfs_mkdir (path : list Z) (mode : Z) (cred : vfs_cred) : M fs Z :=
  if negb (absolute path) then ret (- EINVAL) else vfs_mkdir_at 0 path mode cred.

(** The sticky bit forbids it. *)
Definition sticky (dir victim : vfs_node) (cred : vfs_cred) : bool :=
  has (n_mode dir) VFS_S_ISVTX && negb (c_uid cred =? 0) && negb (c_uid cred =? n_uid dir) &&
  negb (c_uid cred =? n_uid victim).

Definition _unlink_common_at (base : Z) (path : list Z) (cred : vfs_cred) (dir : bool) : M fs Z :=
  let* p := _resolve_parent_at base path cred in
  let '(r, parent, name) := p in
  if negb (r =? 0) then ret r
  else
    let* r := vfs_access parent cred (Z.lor VFS_W_OK VFS_X_OK) in
    let* rv :=
      (if r =? 0 then
         let* pv := get_node parent in
         match node_op pv op_lookup with Some lookup => lookup parent name | None => ret (0, 0) end
       else ret (r, 0)) in
    let (r, victim) := (rv : Z * Z) in
    let* r :=
      (if r =? 0 then
         let* pv := get_node parent in
         let* vv := get_node victim in
         if sticky pv vv cred then ret (- EPERM)
         else if negb (Bool.eqb dir (VFS_S_ISDIR (n_mode vv))) then ret (if dir then - ENOTDIR else - EISDIR)
         else match (if dir then node_op pv op_rmdir else node_op pv op_unlink) with
         | Some remove => remove parent name
         | None => ret (- ENOSYS)
         end
       else ret r) in
    node_release victim ;;;
    node_release parent ;;;
    ret r.
Definition vfs_unlink_at (base : Z) (path : list Z) (cred : vfs_cred) : M fs Z := _unlink_common_at base path cred false.
Definition vfs_unlink (path : list Z) (cred : vfs_cred) : M fs Z :=
  if negb (absolute path) then ret (- EINVAL) else vfs_unlink_at 0 path cred.
Definition vfs_rmdir_at (base : Z) (path : list Z) (cred : vfs_cred) : M fs Z := _unlink_common_at base path cred true.
Definition vfs_rmdir (path : list Z) (cred : vfs_cred) : M fs Z :=
  if negb (absolute path) then ret (- EINVAL) else vfs_rmdir_at 0 path cred.

(** Between the two parents: the result, the source and the target. *)
Definition rename_body (old_parent : Z) (old_name : list Z) (new_parent : Z) (new_name : list Z)
    (cred : vfs_cred) : M fs (Z * Z * Z) :=
  let wx := Z.lor VFS_W_OK VFS_X_OK in
  let* r := vfs_access old_parent cred wx in
  let* r := (if r =? 0 then vfs_access new_parent cred wx else ret r) in
  if negb (r =? 0) then ret (r, 0, 0)
  else
    let* ov := get_node old_parent in
    match node_op ov op_lookup with
    | None => ret (- ENOSYS, 0, 0)
    | Some lookup =>
        let* l := lookup old_parent old_name in
        let (r, source) := (l : Z * Z) in
        if negb (r =? 0) then ret (r, source, 0)
        else
          let* ov := get_node old_parent in
          let* sv := get_node source in
          if sticky ov sv cred then ret (- EPERM, source, 0)
          else
            let* nv := get_node new_parent in
            if negb (n_ops ov =? n_ops nv) then ret (- EXDEV, source, 0)
            else match node_op ov op_rename with
            | None => ret (- ENOSYS, source, 0)
            | Some rename =>
                let* t := match node_op nv op_lookup with
                          | Some lookup => lookup new_parent new_name
                          | None => ret (- ENOENT, 0)
                          end in
                let (r, target) := (t : Z * Z) in
                let finish := let* r := rename old_parent old_name new_parent new_name in ret (r, source, target) in
                if r =? 0 then
                  if target =? source then ret (0, source, target)
                  else
                    let* nv := get_node new_parent in
                    let* tv := get_node target in
                    if sticky nv tv cred then ret (- EPERM, source, target) else finish
                else if negb (r =? - ENOENT) then ret (r, source, target)
                else finish
            end
    end.
Definition vfs_rename_at (old_base : Z) (old_path : list Z) (new_base : Z) (new_path : list Z)
    (cred : vfs_cred) : M fs Z :=
  if (old_base =? new_base) && bool_decide (old_path = new_path) then ret 0
  else
    let* po := _resolve_parent_at old_base old_path cred in
    let '(r, old_parent, old_name) := po in
    if negb (r =? 0) then ret r
    else
      let* pn := _resolve_parent_at new_base new_path cred in
      let '(r, new_parent, new_name) := pn in
      if negb (r =? 0) then node_release old_parent ;;; ret r
      else
        let* b := rename_body old_parent old_name new_parent new_name cred in
        let '(r, source, target) := b in
        node_release target ;;;
        node_release source ;;;
        node_release new_parent ;;;
        node_release old_parent ;;;
        ret r.
Definition vfs_rename (old_path new_path : list Z) (cred : vfs_cred) : M fs Z :=
  if negb (absolute old_path) || negb (absolute new_path) then ret (- EINVAL)
  else vfs_rename_at 0 old_path 0 new_path cred.

(** ** Attributes *)

Definition vfs_chmod_at (base : Z) (path : list Z) (mode : Z) (cred : vfs_cred) : M fs Z :=
  let* rn := vfs_resolve_at base path cred in
  let (r, node) := (rn : Z * Z) in
  if negb (r =? 0) then ret r
  else
    let* v := get_node node in
    if negb (c_uid cred =? 0) && negb (c_uid cred =? n_uid v) then node_release node ;;; ret (- EPERM)
    else
      put_node node (with_mode v (Z.lor (Z.land (n_mode v) VFS_S_IFMT) (Z.land mode VFS_S_PERM))) ;;;
      node_release node ;;;
      ret 0.
Definition vfs_chmod (path : list Z) (mode : Z) (cred : vfs_cred) : M fs Z :=
  if negb (absolute path) then ret (- EINVAL) else vfs_chmod_at 0 path mode cred.

Definition vfs_chown_at (base : Z) (path : list Z) (uid gid : Z) (cred : vfs_cred) : M fs Z :=
  if negb (c_uid cred =? 0) then ret (- EPERM)
  else
    let* rn := vfs_resolve_at base path cred in
    let (r, node) := (rn : Z * Z) in
    if negb (r =? 0) then ret r
    else
      let* v := get_node node in
      put_node node (mkNode (n_ops v) (clr (n_mode v) (Z.lor VFS_S_ISUID VFS_S_ISGID)) uid gid (n_size v) (n_nlink v) (n_refs v)) ;;;
      node_release node ;;;
      ret 0.
Definition vfs_chown (path : list Z) (uid gid : Z) (cred : vfs_cred) : M fs Z :=
  if negb (absolute path) then ret (- EINVAL) else vfs_chown_at 0 path uid gid cred.

Definition vfs_stat (path : list Z) (cred : vfs_cred) : M fs (Z * vfs_stat_t) :=
  let empty := mkStat 0 0 0 0 0 0 0 0 0 in
  let* rn := vfs_resolve path cred in
  let (r, node) := (rn : Z * Z) in
  if negb (r =? 0) then ret (r, empty)
  else
    let* v := get_node node in
    node_release node ;;;
    ret (0, mkStat 0 node (n_mode v) (n_uid v) (n_gid v) (n_size v) (n_nlink v) 4096 (u64 (n_size v + 511) / 512)).

(** The number of bytes or the error, and the bytes. *)
Definition vfs_readlink (path : list Z) (cred : vfs_cred) (size : Z) : M fs (Z * list Z) :=
  if size =? 0 then ret (- EINVAL, [])
  else
    let* rn := vfs_resolve path cred in
    let (r, node) := (rn : Z * Z) in
    if negb (r =? 0) then ret (r, [])
    else
      let* v := get_node node in
      if negb (VFS_S_ISLNK (n_mode v)) then node_release node ;;; ret (- EINVAL, [])
      else match node_op v op_read with
      | None => node_release node ;;; ret (- ENOSYS, [])
      | Some read =>
          let* d := read node 0 (Z.min size (n_size v)) in
          node_release node ;;;
          if negb (d.1 =? 0) then ret (d.1, []) else ret (Z.of_nat (length d.2), d.2)
      end.

(** The directory and the name of a new link: the directory is [/] when the path has
    no other. *)
Definition link_split (p : list Z) : list Z * list Z :=
  let (dir, name) := split_last p in
  (if (1 <? length dir)%nat then take (length dir - 1) dir else [47], name).

Definition vfs_symlink (target linkpath : list Z) (cred : vfs_cred) : M fs Z :=
  if 256 <=? Z.of_nat (length linkpath) then ret (- ENAMETOOLONG)
  else
    let (dir_path, name) := link_split linkpath in
    match name with
    | [] => ret (- EINVAL)
    | _ =>
        let* rn := vfs_resolve dir_path cred in
        let (r, dir) := (rn : Z * Z) in
        if negb (r =? 0) then ret r
        else
          let* v := get_node dir in
          if negb (VFS_S_ISDIR (n_mode v)) then node_release dir ;;; ret (- ENOTDIR)
          else match node_op v op_symlink with
          | None => node_release dir ;;; ret (- ENOSYS)
          | Some symlink =>
              let* r := symlink dir target name cred in
              node_release dir ;;;
              ret r
          end
    end.

Definition resolve_from (base : Z) (path : list Z) (cred : vfs_cred) : M fs (Z * Z) :=
  if negb (base =? 0) then vfs_resolve_at base path cred else vfs_resolve path cred.

Definition vfs_link_at (old_base : Z) (old_path : list Z) (new_base : Z) (new_path : list Z)
    (cred : vfs_cred) : M fs Z :=
  if (256 <=? Z.of_nat (length old_path)) || (256 <=? Z.of_nat (length new_path)) then ret (- ENAMETOOLONG)
  else
    let* rn := resolve_from old_base old_path cred in
    let (r, target) := (rn : Z * Z) in
    if negb (r =? 0) then ret r
    else
      let* tv := get_node target in
      if VFS_S_ISDIR (n_mode tv) then node_release target ;;; ret (- EISDIR)
      else
        let (dir_path, name) := link_split new_path in
        match name with
        | [] => node_release target ;;; ret (- EINVAL)
        | _ =>
            let* rn := resolve_from new_base dir_path cred in
            let (r, dir) := (rn : Z * Z) in
            if negb (r =? 0) then node_release target ;;; ret r
            else
              let* dv := get_node dir in
              let fail r := node_release target ;;; node_release dir ;;; ret r in
              if negb (VFS_S_ISDIR (n_mode dv)) then fail (- ENOTDIR)
              else match node_op dv op_link with
              | None => fail (- ENOSYS)
              | Some link => let* r := link dir name target in fail r
              end
        end.
Definition vfs_link (old_path new_path : list Z) (cred : vfs_cred) : M fs Z :=
  vfs_link_at 0 old_path 0 new_path cred.

(** ** Pages and mappings *)

Definition vfs_node_get_page (node page_index for_write : Z) : M fs (Z * option Z) :=
  if node =? 0 then ret (- EINVAL, None)
  else
    let* v := get_node node in
    match node_op v op_get_page with
    | None => ret (- ENOSYS, None)
    | Some get_page => get_page node page_index for_write
    end.

Definition vfs_mmap (file vas hint offset length flags : Z) : M fs Z :=
  if (vas =? 0) || (length =? 0) then ret 0
  else
    with_file_node file 0 (fun f v =>
      if VFS_S_ISDIR (n_mode v) then ret 0
      else match node_op v op_mmap with
      | Some mmap => mmap file vas hint offset length flags
      | None => vas_map_file vas hint (f_node f) offset length flags
      end).

Definition vfs_file_node (file : Z) : M fs Z :=
  if file =? 0 then ret 0 else let* f := get_file file in ret (f_node f).
End vfs.
