(* ===== verification/VfsProps.v ===== *)
(** * Path resolution and permissions

    [vfs_access] grants exactly what the permission bits of the caller's class grant;
    resolving a path in a tree of tmpfs directories is the walk along its components and
    takes one reference, to the node it returns. *)

From stdpp Require Import gmap list.
From Stdlib Require Import ZArith Lia.
From S2P Require Import Prelude Pmm VfsBase Tmpfs TmpfsProps Vfs.

Local Open Scope Z_scope.

(** ** Permissions *)

(** The three bits the caller has on the node. *)
Definition granted (v : vfs_node) (cred : vfs_cred) : Z :=
  if c_uid cred =? 0 then
    Z.lor 6 (if VFS_S_ISDIR (n_mode v) || Z.testbit (n_mode v) 0 || Z.testbit (n_mode v) 3 || Z.testbit (n_mode v) 6 then 1 else 0)
  else if c_uid cred =? n_uid v then Z.shiftr (n_mode v) 6 `mod` 8
  else if _is_group_member cred (n_gid v) then Z.shiftr (n_mode v) 3 `mod` 8
  else n_mode v `mod` 8.

Lemma has_bits_any m : has m 73 = Z.testbit m 0 || Z.testbit m 3 || Z.testbit m 6.
Proof.
  unfold has. destruct (Z.testbit m 0 || Z.testbit m 3 || Z.testbit m 6) eqn:E.
  - apply negb_true_iff, Z.eqb_neq. intros H. rewrite !orb_true_iff in E. destruct E as [[E|E]|E].
    + apply (f_equal (fun z => Z.testbit z 0)) in H. by rewrite Z.land_spec, E in H.
    + apply (f_equal (fun z => Z.testbit z 3)) in H. by rewrite Z.land_spec, E in H.
    + apply (f_equal (fun z => Z.testbit z 6)) in H. by rewrite Z.land_spec, E in H.
  - apply negb_false_iff, Z.eqb_eq. rewrite !orb_false_iff in E. destruct E as [[E0 E3] E6].
    apply Z.bits_inj'. intros n Hn. rewrite Z.land_spec, Z.bits_0.
    destruct (decide (n = 0)) as [->|]; [by rewrite E0|]. destruct (decide (n = 3)) as [->|]; [by rewrite E3|].
    destruct (decide (n = 6)) as [->|]; [by rewrite E6|].
    assert (Z.testbit 73 n = false) as ->; [|apply andb_false_r].
    destruct (decide (n < 7)); [|apply (testbit_high 73 7); lia].
    assert (n = 1 \/ n = 2 \/ n = 4 \/ n = 5) as Hc by lia. by repeat destruct Hc as [->|Hc]; subst.
Qed.

Lemma subset3 m b : 0 <= m < 8 -> 0 <= b < 8 ->
  (Z.land m b =? m) = negb (has m 4 && negb (has b 4)) && negb (has m 2 && negb (has b 2)) && negb (has m 1 && negb (has b 1)).
Proof.
  intros Hm Hb.
  assert (m = 0 \/ m = 1 \/ m = 2 \/ m = 3 \/ m = 4 \/ m = 5 \/ m = 6 \/ m = 7) as Hmc by lia.
  assert (b = 0 \/ b = 1 \/ b = 2 \/ b = 3 \/ b = 4 \/ b = 5 \/ b = 6 \/ b = 7) as Hbc by lia.
  clear Hm Hb. repeat destruct Hmc as [->|Hmc]; subst; repeat destruct Hbc as [->|Hbc]; subst; reflexivity.
Qed.

Lemma access_granted v cred mask :
  0 <= mask < 8 -> access_node v cred mask = if Z.land mask (granted v cred) =? mask then 0 else - EACCES.
Proof.
  intros Hm. unfold access_node, granted.
  assert (clr mask 7 = 0) as ->.
  { unfold clr. assert (mask = 0 \/ mask = 1 \/ mask = 2 \/ mask = 3 \/ mask = 4 \/ mask = 5 \/ mask = 6 \/ mask = 7) as H by lia.
    by repeat destruct H as [->|H]; subst. }
  cbn [negb Z.eqb]. destruct (c_uid cred =? 0).
  - rewrite has_bits_any, !orb_assoc. destruct (_ || _).
    + change (Z.lor 6 1) with 7. rewrite subset3 by lia. unfold VFS_X_OK. by destruct (has mask 4), (has mask 2), (has mask 1).
    + change (Z.lor 6 0) with 6. rewrite subset3 by lia. unfold VFS_X_OK. by destruct (has mask 4), (has mask 2), (has mask 1).
  - change 7 with (Z.ones 3). rewrite !Z.land_ones by lia. change (2 ^ 3) with 8.
    set (bits := if c_uid cred =? n_uid v then _ else _).
    assert (0 <= bits < 8) by (unfold bits; repeat destruct (_ =? _); repeat destruct (_is_group_member _ _); by apply Z.mod_pos_bound).
    rewrite subset3 by done. unfold VFS_R_OK, VFS_W_OK, VFS_X_OK.
    by destruct (has mask 4), (has mask 2), (has mask 1), (has bits 4), (has bits 2), (has bits 1).
Qed.

(** C37: the permission check grants exactly the permissions of the caller's class.  The
    super user reads and writes everything and executes directories and what anybody may
    execute; for others it is the owner's bits for the owner, else the group's for a
    member of the group, else the rest, and all requested bits must be among them. *)
Theorem vfs_access_spec s node v cred mask :
  get_node node s = Ret v s -> node <> 0 -> 0 <= mask < 8 ->
  vfs_access node cred mask s = Ret (if Z.land mask (granted v cred) =? mask then 0 else - EACCES) s.
Proof.
  intros Hn H0 Hm. unfold vfs_access. rewrite (proj2 (Z.eqb_neq _ _) H0), (bind_ret _ _ _ _ _ Hn).
  by rewrite access_granted.
Qed.

Lemma access_exec v cred x :
  access_node (with_refs v x) cred VFS_X_OK = if Z.testbit (granted v cred) 0 then 0 else - EACCES.
Proof.
  rewrite access_granted by done. change (granted (with_refs v x) cred) with (granted v cred).
  assert (Z.land VFS_X_OK (granted v cred) = Z.b2z (Z.testbit (granted v cred) 0)) as ->; [|by destruct (Z.testbit _ 0)].
  unfold VFS_X_OK. rewrite Z.land_comm. change 1 with (Z.ones 1). rewrite Z.land_ones by lia. symmetry. apply Z.bit0_mod.
Qed.

(** ** Paths *)

(** The components of a path: the pieces between slashes that are not empty. *)
Fixpoint comps_go (acc p : list Z) : list (list Z) :=
  match p with
  | [] => match acc with [] => [] | _ => [reverse acc] end
  | c :: p => if c =? 47 then match acc with [] => comps_go [] p | _ => reverse acc :: comps_go [] p end
              else comps_go (c :: acc) p
  end.
Definition comps (p : list Z) : list (list Z) := comps_go [] p.

Lemma skip_slashes_cons c p : _skip_slashes (c :: p) = if c =? 47 then _skip_slashes p else c :: p.
Proof.
  destruct (c =? 47) eqn:E; bools; [by subst|]. simpl. repeat case_match; congruence.
Qed.
Lemma comps_skip p : comps (_skip_slashes p) = comps p.
Proof.
  unfold comps. induction p as [|c p IH]; [done|]. rewrite skip_slashes_cons. simpl comps_go at 2.
  destruct (c =? 47) eqn:E; [done|]. simpl. by rewrite E.
Qed.
Lemma skip_slashes_head p : forall c q, _skip_slashes p = c :: q -> c <> 47.
Proof.
  induction p as [|x p IH]; intros c q; [done|]. rewrite skip_slashes_cons. destruct (x =? 47) eqn:E; [apply IH|].
  bools. by intros [= -> ->].
Qed.
Lemma skip_slashes_length p : (length (_skip_slashes p) <= length p)%nat.
Proof.
  induction p as [|x p IH]; [done|]. rewrite skip_slashes_cons. destruct (x =? 47); simpl; lia.
Qed.

Lemma component_spec p n r : component p = (n, r) ->
  p = n ++ r /\ Forall (fun c => c <> 47) n /\ (r = [] \/ exists q, r = 47 :: q).
Proof.
  revert n r. induction p as [|c p IH]; intros n r; simpl.
  { intros [= <- <-]. split; [done|]. split; [done|by left]. }
  destruct (c =? 47) eqn:E; bools.
  - subst. intros [= <- <-]. split; [done|]. split; [done|]. right. by exists p.
  - destruct (component p) as [n' r'] eqn:Ec. intros [= <- <-]. destruct (IH n' r' eq_refl) as (-> & Hn & Hr).
    split; [done|]. split; [by constructor|done].
Qed.
Lemma comps_go_app acc n r : Forall (fun c => c <> 47) n -> comps_go acc (n ++ r) = comps_go (reverse n ++ acc) r.
Proof.
  intros Hn. revert acc. induction Hn as [|c n Hc _ IH]; intros acc; [done|]. simpl.
  rewrite (proj2 (Z.eqb_neq _ _) Hc), IH, reverse_cons. by rewrite <- (assoc_L (++)).
Qed.
(** The first component of a path that does not start with a slash. *)
Lemma comps_component p n r : component p = (n, r) -> n <> [] -> comps p = n :: comps (_skip_slashes r).
Proof.
  intros Hc Hn. destruct (component_spec p n r Hc) as (-> & Hf & Hr). rewrite comps_skip. unfold comps.
  rewrite comps_go_app by done. rewrite app_nil_r.
  assert (reverse n <> []) as Hrn by (intros E; apply Hn; by rewrite <- (reverse_involutive n), E).
  destruct (reverse n) as [|x l] eqn:E; [done|]. rewrite <- (reverse_involutive n), E.
  destruct Hr as [->|[q ->]]; done.
Qed.

(** ** References *)

Definition add_ref (a : Z) (s : fs) : fs :=
  match objs s !! a with
  | Some (OTmp t) => set_objs (insert a (OTmp (set_vnode (with_refs (vnode t) (n_refs (vnode t) + 1)) t))) s
  | _ => s
  end.

Definition is_tmp (s : fs) (a : Z) : Prop := exists t, objs s !! a = Some (OTmp t).

(** A tree of tmpfs nodes: every node is referenced, parents and children are nodes. *)
Record tree_ok (s : fs) : Prop := {
  tr_ops : forall a t, objs s !! a = Some (OTmp t) -> n_ops (vnode t) = TMPFS_OPS /\ 0 < n_refs (vnode t) < 2 ^ 32 - 2;
  tr_parent : forall a t, objs s !! a = Some (OTmp t) -> is_tmp s (parent t);
  tr_children : forall a t, objs s !! a = Some (OTmp t) -> Forall (is_tmp s) (children t);
  tr_root : is_tmp s (root_node s);
  tr_null : objs s !! 0 = None;
}.

Definition ref_tmp (t : tmpfs_node) : tmpfs_node := set_vnode (with_refs (vnode t) (n_refs (vnode t) + 1)) t.
Lemma add_ref_eq s a t : objs s !! a = Some (OTmp t) -> add_ref a s = set_objs (insert a (OTmp (ref_tmp t))) s.
Proof. unfold add_ref. by intros ->. Qed.
Lemma add_ref_lookup s a x : objs (add_ref a s) !! x =
  match objs s !! x with Some (OTmp t) => Some (OTmp (if decide (x = a) then ref_tmp t else t)) | o => o end.
Proof.
  unfold add_ref. destruct (objs s !! a) as [[|t| | |]|] eqn:Ea.
  2:{ cbn [objs set_objs]. destruct (decide (x = a)) as [->|]; [by rewrite lookup_insert_eq, Ea|].
      rewrite lookup_insert_ne by done. by destruct (objs s !! x) as [[]|]. }
  all: destruct (decide (x = a)) as [->|]; rewrite ?Ea; try done; by destruct (objs s !! x) as [[]|].
Qed.
Lemma add_ref_rest s a : root_node (add_ref a s) = root_node s /\ mounts (add_ref a s) = mounts s.
Proof. unfold add_ref. by repeat case_match. Qed.

Lemma fs_ext s s' : (forall x, objs s' !! x = objs s !! x) -> next_addr s' = next_addr s -> budget s' = budget s ->
  free_frames s' = free_frames s -> used_frames s' = used_frames s -> bytes s' = bytes s ->
  root_node s' = root_node s -> mounts s' = mounts s -> s' = s.
Proof.
  destruct s as [O x1 x2 x3 x4 x5 x6 x7], s' as [O' y1 y2 y3 y4 y5 y6 y7]. simpl.
  intros HO -> -> -> -> -> -> ->. f_equal. by apply map_eq.
Qed.
Lemma add_ref_fields s a : next_addr (add_ref a s) = next_addr s /\ budget (add_ref a s) = budget s /\
  free_frames (add_ref a s) = free_frames s /\ used_frames (add_ref a s) = used_frames s /\ bytes (add_ref a s) = bytes s.
Proof. unfold add_ref. by repeat case_match. Qed.

Lemma add_ref_comm s a b : add_ref a (add_ref b s) = add_ref b (add_ref a s).
Proof.
  apply fs_ext.
  - intros x. rewrite !add_ref_lookup. destruct (objs s !! x) as [[|t| | |]|]; try done. by repeat destruct (decide _).
  - by rewrite !(proj1 (add_ref_fields _ _)).
  - by rewrite !(proj1 (proj2 (add_ref_fields _ _))).
  - by rewrite !(proj1 (proj2 (proj2 (add_ref_fields _ _)))).
  - by rewrite !(proj1 (proj2 (proj2 (proj2 (add_ref_fields _ _))))).
  - by rewrite !(proj2 (proj2 (proj2 (proj2 (add_ref_fields _ _))))).
  - by rewrite !(proj1 (add_ref_rest _ _)).
  - by rewrite !(proj2 (add_ref_rest _ _)).
Qed.

Lemma node_ref_eq s a t : objs s !! a = Some (OTmp t) -> a <> 0 -> 0 <= n_refs (vnode t) < 2 ^ 32 - 1 ->
  vfs_node_ref a s = Ret tt (add_ref a s).
Proof.
  intros Ha H0 Hr. unfold vfs_node_ref. rewrite (proj2 (Z.eqb_neq _ _) H0), (bind_ret _ _ _ _ _ (get_node_tmp _ _ _ Ha)).
  rewrite u32_small by lia. by rewrite (put_node_tmp _ _ _ _ Ha), (add_ref_eq _ _ _ Ha).
Qed.

Lemma node_release_eq frel s a t : objs s !! a = Some (OTmp t) -> a <> 0 -> 0 < n_refs (vnode t) < 2 ^ 32 - 1 ->
  node_release frel a (add_ref a s) = Ret tt s.
Proof.
  intros Ha H0 Hr. unfold node_release, vfs_node_release. cbn [vfs_node_release_fuel Nat.add].
  assert (Ha1 : objs (add_ref a s) !! a = Some (OTmp (ref_tmp t))).
  { rewrite add_ref_lookup, Ha. by destruct (decide _). }
  rewrite (proj2 (Z.eqb_neq _ _) H0), (bind_ret _ _ _ _ _ (get_node_tmp _ _ _ Ha1)). cbn [vnode ref_tmp set_vnode n_refs with_refs].
  rewrite (proj2 (Z.eqb_neq _ _)) by lia. rewrite (bind_ret _ _ _ _ _ (put_node_tmp _ _ _ _ Ha1)).
  replace (n_refs (vnode t) + 1 - 1) with (n_refs (vnode t)) by lia. rewrite u32_small by lia.
  rewrite (proj2 (Z.eqb_neq _ _)) by lia. unfold ret. f_equal.
  rewrite (add_ref_eq _ _ _ Ha). unfold set_objs. destruct s as [O x1 x2 x3 x4 x5 x6 x7]. simpl in *.
  f_equal. rewrite insert_insert_eq. apply insert_id. rewrite Ha. destruct t as [[]]. done.
Qed.

(** ** The walk *)

Fixpoint find_name (s : fs) (l : list Z) (nm : list Z) : option Z :=
  match l with
  | [] => None
  | c :: l =>
      match objs s !! c with
      | Some (OTmp t) => if bool_decide (name t = nm) then Some c else find_name s l nm
      | _ => None
      end
  end.
Definition child_of (s : fs) (cur : Z) (t : tmpfs_node) (nm : list Z) : option Z :=
  if bool_decide (nm = [46]) then Some cur
  else if bool_decide (nm = [46; 46]) then Some (parent t)
  else find_name s (children t) nm.

(** Where the components lead from [cur]: an error or a node. *)
Fixpoint walk (s : fs) (cred : vfs_cred) (cur : Z) (cs : list (list Z)) : Z + Z :=
  match cs with
  | [] => inr cur
  | c :: cs =>
      match objs s !! cur with
      | Some (OTmp t) =>
          if negb (VFS_S_ISDIR (n_mode (vnode t))) then inl (- ENOTDIR)
          else if negb (Z.testbit (granted (vnode t) cred) 0) then inl (- EACCES)
          else match child_of s cur t c with
               | None => inl (- ENOENT)
               | Some n => walk s cred n cs
               end
      | _ => inl 0
      end
  end.

Lemma find_loop_eq s a l nm : Forall (is_tmp s) l ->
  find_loop l nm (add_ref a s) = Ret (default 0 (find_name s l nm)) (add_ref a s).
Proof.
  induction 1 as [|c l [t Ht] _ IH]; [done|]. simpl. rewrite Ht.
  assert (objs (add_ref a s) !! c = Some (OTmp (if decide (c = a) then ref_tmp t else t))) as Hc by (by rewrite add_ref_lookup, Ht).
  rewrite (bind_ret _ _ _ _ _ (get_tmp_eq _ _ _ Hc)). unfold _name_eq.
  assert (name (if decide (c = a) then ref_tmp t else t) = name t) as -> by (by destruct (decide _)).
  by case_bool_decide.
Qed.
Lemma find_name_tmp s l nm n : Forall (is_tmp s) l -> find_name s l nm = Some n -> is_tmp s n.
Proof.
  induction 1 as [|c l [t Ht] _ IH]; simpl; [done|]. rewrite Ht. case_bool_decide; [|done].
  intros [= <-]. by exists t.
Qed.
Lemma child_of_tmp s cur t nm n : tree_ok s -> objs s !! cur = Some (OTmp t) -> child_of s cur t nm = Some n -> is_tmp s n.
Proof.
  intros T Ht. unfold child_of. case_bool_decide; [intros [= <-]; by exists t|].
  case_bool_decide; [intros [= <-]; by eapply T|]. apply find_name_tmp. by eapply T.
Qed.

Section resolve.
Context (junk : option Z) (foreign : Z -> option vfs_ops) (frel : Z -> option (Z -> M fs unit)).
Context (s : fs) (T : tree_ok s).

Lemma tree_ne a : is_tmp s a -> a <> 0.
Proof. intros [t Ht] ->. by rewrite (tr_null _ T) in Ht. Qed.

(** A second reference, to whatever node. *)
Lemma ref_again n cur : is_tmp s n -> is_tmp s cur -> vfs_node_ref n (add_ref cur s) = Ret tt (add_ref n (add_ref cur s)).
Proof.
  intros [t Ht] _. assert (objs (add_ref cur s) !! n = Some (OTmp (if decide (n = cur) then ref_tmp t else t))) as Hn
    by (by rewrite add_ref_lookup, Ht).
  apply (node_ref_eq _ _ _ Hn); [apply tree_ne; by exists t|]. destruct (tr_ops _ T _ _ Ht) as [_ Hr].
  destruct (decide _); cbn; lia.
Qed.
(** And the first one dropped. *)
Lemma release_first n cur : is_tmp s cur -> is_tmp s n -> node_release frel cur (add_ref n (add_ref cur s)) = Ret tt (add_ref n s).
Proof.
  intros [t Ht] _. rewrite add_ref_comm.
  assert (objs (add_ref n s) !! cur = Some (OTmp (if decide (cur = n) then ref_tmp t else t))) as Hn
    by (by rewrite add_ref_lookup, Ht).
  apply (node_release_eq frel _ _ _ Hn); [apply tree_ne; by exists t|]. destruct (tr_ops _ T _ _ Ht) as [_ Hr].
  destruct (decide _); cbn; lia.
Qed.
Lemma release_only cur : is_tmp s cur -> node_release frel cur (add_ref cur s) = Ret tt s.
Proof.
  intros [t Ht]. destruct (tr_ops _ T _ _ Ht) as [_ Hr]. apply (node_release_eq frel _ _ _ Ht); [apply tree_ne; by exists t|lia].
Qed.

Lemma lookup_eq cur t nm : objs s !! cur = Some (OTmp t) -> VFS_S_ISDIR (n_mode (vnode t)) = true ->
  tmpfs_lookup cur nm (add_ref cur s) =
  match child_of s cur t nm with
  | Some n => Ret (0, n) (add_ref n (add_ref cur s))
  | None => Ret (- ENOENT, 0) (add_ref cur s)
  end.
Proof.
  intros Ht Hd. assert (Hc : is_tmp s cur) by (by exists t).
  assert (Hcur : objs (add_ref cur s) !! cur = Some (OTmp (ref_tmp t))) by (rewrite add_ref_lookup, Ht; by destruct (decide _)).
  unfold tmpfs_lookup, child_of. rewrite (bind_ret _ _ _ _ _ (get_node_tmp _ _ _ Hcur)).
  cbn [vnode ref_tmp set_vnode n_mode with_refs]. rewrite Hd. cbn [negb].
  case_bool_decide; [by rewrite (bind_ret _ _ _ _ _ (ref_again cur cur Hc Hc))|].
  rewrite (bind_ret _ _ _ _ _ (get_tmp_eq _ _ _ Hcur)). cbn [parent ref_tmp set_vnode].
  case_bool_decide; [by rewrite (bind_ret _ _ _ _ _ (ref_again (parent t) cur ltac:(by eapply T) Hc))|].
  unfold _find_child. rewrite (bind_assoc _ _ _). rewrite (bind_ret _ _ _ _ _ (get_tmp_eq _ _ _ Hcur)).
  cbn [children ref_tmp set_vnode]. rewrite (bind_ret _ _ _ _ _ (find_loop_eq s cur (children t) nm ltac:(by eapply T))).
  destruct (find_name s (children t) nm) as [n|] eqn:E; [|done]. change (default 0 (Some n)) with n.
  assert (Hn : is_tmp s n) by (eapply find_name_tmp; [|done]; by eapply T).
  rewrite (proj2 (Z.eqb_neq _ _) (tree_ne n Hn)). by rewrite (bind_ret _ _ _ _ _ (ref_again n cur Hn Hc)).
Qed.

Lemma follow_none n cp x : mounts x = [] -> _follow_mount_at frel n cp x = Ret n x.
Proof. intros Hm. unfold _follow_mount_at, _mounted_root, bind, gets. by rewrite Hm. Qed.

(** The buffer for the path so far has room for [p]. *)
Definition fits (cp p : list Z) : Prop :=
  p = [] \/ (cp = [47] /\ (1 + length p < 512)%nat) \/ (cp <> [47] /\ cp <> [] /\ (length cp + 1 + length p < 512)%nat).
Lemma append_ok cp p n r : component p = (n, r) -> p <> [] -> n <> [] -> fits cp p ->
  exists cp', _append_component cp n = (0, cp') /\ fits cp' (_skip_slashes r).
Proof.
  intros Hc Hp Hn Hf. destruct (component_spec p n r Hc) as (-> & _ & Hr).
  pose proof (skip_slashes_length r) as Hsk. unfold _append_component, PATH_BUF. destruct Hf as [?|[[-> Hl]|(Hne & Hnn & Hl)]]; [done| |].
  - rewrite bool_decide_true by done. cbn [length Z.of_nat Z.eqb]. rewrite length_app in Hl.
    rewrite (proj2 (Z.leb_gt _ _)) by (simpl; lia). eexists. split; [done|]. destruct Hr as [->|[q ->]]; [by left|].
    right. right. split; [by destruct n|]. split; [done|]. rewrite skip_slashes_cons in *. simpl in *.
    pose proof (skip_slashes_length q). lia.
  - rewrite length_app in Hl. rewrite bool_decide_false by done. destruct cp as [|x cp]; [done|].
    rewrite (proj2 (Z.eqb_neq _ _)) by (simpl; lia). rewrite !(proj2 (Z.leb_gt _ _)) by (simpl in *; lia).
    eexists. split; [done|]. destruct Hr as [->|[q ->]]; [by left|]. right. right.
    split; [by destruct cp|]. split; [done|]. rewrite skip_slashes_cons in *. rewrite !length_app in *. simpl in *.
    pose proof (skip_slashes_length q). lia.
Qed.

Lemma resolve_loop_eq fuel cred : forall cur cp p,
  is_tmp s cur -> mounts s = [] -> (forall c q, p = c :: q -> c <> 47) -> (length p <= fuel)%nat -> fits cp p ->
  resolve_loop junk foreign frel fuel cred cur cp p (add_ref cur s) =
  match walk s cred cur (comps p) with inl r => Ret (r, 0) s | inr n => Ret (0, n) (add_ref n s) end.
Proof.
  induction fuel as [|fuel IH]; intros cur cp p Hc Hm Hp Hl Hf.
  { by destruct p as [|c p]; [|simpl in Hl; lia]. }
  destruct p as [|c q]; [done|]. cbn [resolve_loop]. specialize (Hp c q eq_refl).
  set (p := c :: q) in *. destruct (component p) as [n r] eqn:Ec.
  assert (Hn : n <> []).
  { unfold p in Ec. simpl in Ec. rewrite (proj2 (Z.eqb_neq _ _) Hp) in Ec. destruct (component q). by injection Ec as <- _. }
  rewrite (comps_component p n r Ec Hn). cbn [walk]. pose proof Hc as [t Ht]. rewrite Ht.
  assert (Hcur : objs (add_ref cur s) !! cur = Some (OTmp (ref_tmp t))) by (rewrite add_ref_lookup, Ht; by destruct (decide _)).
  rewrite (bind_ret _ _ _ _ _ (get_node_tmp _ _ _ Hcur)). cbn [vnode ref_tmp set_vnode n_mode with_refs].
  destruct (VFS_S_ISDIR (n_mode (vnode t))) eqn:Ed; cbn [negb]; [|by rewrite (bind_ret _ _ _ _ _ (release_only cur Hc))].
  assert (vfs_access cur cred VFS_X_OK (add_ref cur s) = Ret (if Z.testbit (granted (vnode t) cred) 0 then 0 else - EACCES) (add_ref cur s)) as Hacc.
  { unfold vfs_access. rewrite (proj2 (Z.eqb_neq _ _) (tree_ne cur Hc)), (bind_ret _ _ _ _ _ (get_node_tmp _ _ _ Hcur)).
    unfold ret. f_equal. apply access_exec. }
  rewrite (bind_ret _ _ _ _ _ Hacc).
  destruct (Z.testbit (granted (vnode t) cred) 0); cbn [negb Z.eqb];
    [|change (- EACCES =? 0) with false; cbn [negb]; by rewrite (bind_ret _ _ _ _ _ (release_only cur Hc))].
  assert (node_op junk foreign frel (with_refs (vnode t) (n_refs (vnode t) + 1)) op_lookup = Some tmpfs_lookup) as ->.
  { unfold node_op, get_ops. cbn [n_ops with_refs]. by destruct (tr_ops _ T _ _ Ht) as [-> _]. }
  unfold bind at 1. rewrite (lookup_eq cur t n Ht Ed). destruct (child_of s cur t n) as [nx|] eqn:En.
  2:{ by rewrite (bind_ret _ _ _ _ _ (release_only cur Hc)). }
  pose proof (child_of_tmp s cur t n nx T Ht En) as Hnx.
  rewrite (bind_ret _ _ _ _ _ (release_first nx cur Hc Hnx)). cbn [negb Z.eqb].
  destruct (append_ok cp p n r Ec ltac:(done) Hn Hf) as (cp' & -> & Hf'). cbn [negb Z.eqb].
  rewrite (bind_ret _ _ _ _ _ (follow_none nx cp' (add_ref nx s) ltac:(rewrite (proj2 (add_ref_rest _ _)); done))).
  apply IH; [done|done|apply skip_slashes_head| |done].
  destruct (component_spec p n r Ec) as (Ep & _). pose proof (skip_slashes_length r). pose proof (f_equal length Ep) as El.
  rewrite length_app in El. destruct n; [done|]. simpl in El, Hl. lia.
Qed.
End resolve.

(** C32: resolving a path is walking it.  In a tree of tmpfs directories without mounts,
    for every absolute path shorter than the path buffer and every caller, [vfs_resolve]
    gives the node at the end of the walk along the components, [.] and [..] included, or
    the error of the first directory that is missing, is none, or may not be searched.
    It leaves everything as it was but for one more reference to the node it returns:
    every reference taken on the way is dropped, on every error path too. *)
Theorem vfs_resolve_walk junk foreign frel s path cred :
  tree_ok s -> mounts s = [] -> absolute path = true -> (length path < 512)%nat ->
  vfs_resolve junk foreign frel path cred s =
  match walk s cred (root_node s) (comps path) with
  | inl r => Ret (r, 0) s
  | inr n => Ret (0, n) (add_ref n s)
  end.
Proof.
  intros T Hm Ha Hl. pose proof (tr_root _ T) as Hr. pose proof (tree_ne s T _ Hr) as H0.
  unfold vfs_resolve. rewrite Ha. cbn [negb]. unfold vfs_resolve_at. rewrite (bind_ret (gets root_node) _ s _ s eq_refl).
  destruct path as [|c p]; [done|]. simpl in Ha. bools. subst c. rewrite (proj2 (Z.eqb_neq _ _) H0). cbn [Z.eqb Pos.eqb orb].
  destruct Hr as [t Ht]. destruct (tr_ops _ T _ _ Ht) as [_ Hrf].
  rewrite (bind_ret _ _ _ _ _ (node_ref_eq s _ t Ht H0 ltac:(lia))).
  rewrite (bind_ret _ _ _ _ _ (follow_none frel (root_node s) [47] (add_ref (root_node s) s) ltac:(rewrite (proj2 (add_ref_rest _ _)); done))).
  pose proof (skip_slashes_length p) as Hsk. simpl in Hl.
  rewrite resolve_loop_eq; [by rewrite comps_skip|done|by exists t|done|apply skip_slashes_head|..];
    rewrite skip_slashes_cons; simpl; [lia|].
  destruct (_skip_slashes p) as [|x q] eqn:E; [by left|]. right. left. split; [done|]. simpl in *. lia.
Qed.
