(* ===== verification/Initrd.v ===== *)
(** * Mounting and the initial ram disk (kernel/src/fs/initrd.c, fs/mount.c)

    The archive reader of Cpio on the file system of Vfs: its interface is implemented by
    the calls of vfs.c as the super user.  A module of the boot loader is its name, its
    command line and its bytes. *)

From stdpp Require Import gmap list.
From Stdlib Require Import ZArith Lia.
From S2P Require Import Prelude Pmm VfsBase Tmpfs Vfs Cpio CpioProps.

Local Open Scope Z_scope.

Record limine_file := mkModule { lf_path : option (list Z); lf_string : option (list Z); lf_address : option (list Z) }.

(** [initrd] and [initrd.cpio] *)
Definition str_initrd : list Z := [105; 110; 105; 116; 114; 100].
Definition str_suffix : list Z := str_initrd ++ [46; 99; 112; 105; 111].

Section initrd.
Variable junk : option Z.
Variable foreign : Z -> option vfs_ops.
Variable foreign_release : Z -> option (Z -> M fs unit).

(** The calls of the archive reader. *)
#[export] Instance cpio_on_vfs : CpioVfs fs := {
  Cpio.vfs_mkdir p m := Vfs.vfs_mkdir junk foreign foreign_release p m vfs_root_cred;
  Cpio.vfs_chown p u g := Vfs.vfs_chown junk foreign foreign_release p u g vfs_root_cred;
  Cpio.vfs_chmod p m := Vfs.vfs_chmod junk foreign foreign_release p m vfs_root_cred;
  Cpio.vfs_open p f m := Vfs.vfs_open junk foreign foreign_release p f m vfs_root_cred;
  Cpio.vfs_write f d := Vfs.vfs_write junk foreign foreign_release f d;
  Cpio.vfs_close f := Vfs.vfs_close junk foreign foreign_release f;
  Cpio.kmalloc n := alloc OBlob;
  Cpio.kfree p := free p;
}.

Definition _ensure_tmpfs_root : M fs Z :=
  let* r := vfs_root in
  if negb (r =? 0) then ret 0
  else
    let* root := tmpfs_create_root 493 0 0 in
    if root =? 0 then ret (- VfsBase.ENOMEM) else vfs_init root ;;; ret 0.

Definition _looks_like_initrd (file : option limine_file) : bool :=
  match file with
  | None => false
  | Some f =>
      match lf_string f with
      | Some s => bool_decide (s = str_initrd)
      | None => false
      end ||
      match lf_path f with
      | Some p => (length str_suffix <=? length p)%nat && bool_decide (drop (length p - length str_suffix) p = str_suffix)
      | None => false
      end
  end.

(** The first module that looks like it, or else the first module. *)
Definition initrd_load_from_limine (modules : list (option limine_file)) : M fs Z :=
  match modules with
  | [] => ret (- VfsBase.ENOENT)
  | first :: _ =>
      let chosen := match find _looks_like_initrd modules with Some f => f | None => first end in
      match chosen with
      | Some (mkModule _ _ (Some (x :: d))) =>
          let* r := _ensure_tmpfs_root in
          if negb (r =? 0) then ret r
          else
            let* e := cpio_newc_extract (Some (x :: d)) in
            if negb (e.1 =? 0) then ret e.1
            else if e.2 =? 0 then ret (- VfsBase.ENOENT)
            else ret 0
      | _ => ret (- VfsBase.EINVAL)
      end
  end.

(** ** Mounting by type *)

(** Mounting the other file systems, the block devices, and the table of mounts in
    procfs. *)
Variable devfs_mount : list Z -> M fs Z.
Variable procfs_mount : list Z -> M fs Z.
Variable procfs_note_mount : list Z -> list Z -> list Z -> list Z -> M fs unit.
Variable block_find : list Z -> M fs Z.
Variable ext2_mount : Z -> list Z -> M fs Z.

Definition str_dev : list Z := [47; 100; 101; 118; 47].
Definition str_devfs : list Z := [100; 101; 118; 102; 115].
Definition str_tmpfs : list Z := [116; 109; 112; 102; 115].
Definition str_proc : list Z := [112; 114; 111; 99].
Definition str_procfs : list Z := str_proc ++ [102; 115].
Definition str_ext2 : list Z := [101; 120; 116; 50].
Definition str_rw : list Z := [114; 119].

Definition block_name_from_source (source : list Z) : list Z :=
  if bool_decide (take 5 source = str_dev) then drop 5 source else source.

Definition ensure_mountpoint (target : list Z) : M fs Z :=
  let* rn := vfs_resolve junk foreign foreign_release target vfs_root_cred in
  let (r, node) := (rn : Z * Z) in
  if r =? 0 then
    let* v := get_node node in
    node_release foreign_release node ;;;
    ret (if VfsBase.VFS_S_ISDIR (n_mode v) then 0 else - VfsBase.ENOTDIR)
  else if negb (r =? - VfsBase.ENOENT) then ret r
  else Vfs.vfs_mkdir junk foreign foreign_release target 493 vfs_root_cred.

(** [None] is a null source. *)
Definition fs_mount_spec (source : option (list Z)) (target fstype : list Z) : M fs Z :=
  if bool_decide (fstype = str_devfs) then
    let* r := ensure_mountpoint target in
    if negb (r =? 0) then ret r else devfs_mount target
  else if bool_decide (fstype = str_tmpfs) then
    let* r := ensure_mountpoint target in
    if negb (r =? 0) then ret r
    else
      let* root := tmpfs_create_root 493 0 0 in
      if root =? 0 then ret (- VfsBase.ENOMEM)
      else
        let* r := vfs_mount junk foreign foreign_release target root vfs_root_cred in
        node_release foreign_release root ;;;
        (if r =? 0 then procfs_note_mount (default str_tmpfs source) target str_tmpfs str_rw else ret tt) ;;;
        ret r
  else if bool_decide (fstype = str_procfs) || bool_decide (fstype = str_proc) then
    let* r := ensure_mountpoint target in
    if negb (r =? 0) then ret r else procfs_mount target
  else if bool_decide (fstype = str_ext2) then
    match source with
    | None => ret (- VfsBase.EINVAL)
    | Some src =>
        let* dev := block_find (block_name_from_source src) in
        if dev =? 0 then ret (- VfsBase.ENOENT) else ext2_mount dev target
    end
  else ret (- VfsBase.ENOSYS).
End initrd.
