(* ===== verification/VfsExamples.v ===== *)
(** * Concrete runs of the file system

    The walk at concrete paths; a machine that boots from an archive and reads a file
    back; an open directory that is removed. *)

From stdpp Require Import gmap list.
From Stdlib Require Import ZArith Lia.
From S2P Require Import Prelude Pmm VfsBase Tmpfs TmpfsProps TmpfsExamples Vfs VfsProps Cpio CpioProps Initrd.

Local Open Scope Z_scope.

Definition no_ops : Z -> option vfs_ops := fun _ => None.
Definition no_release : Z -> option (Z -> M fs unit) := fun _ => None.

Lemma ex_fs_tree : tree_ok ex_fs.
Proof.
  assert (Hobj : forall a t, objs ex_fs !! a = Some (OTmp t) ->
    (a = 1 /\ t = ex_root) \/ (a = 2 /\ t = ex_file [97]) \/ (a = 3 /\ t = ex_file [98])).
  { intros a t. unfold ex_fs. cbn [objs]. rewrite !lookup_insert_Some, lookup_empty. naive_solver. }
  assert (H1 : is_tmp ex_fs 1) by (eexists; reflexivity).
  assert (H2 : is_tmp ex_fs 2) by (eexists; reflexivity).
  assert (H3 : is_tmp ex_fs 3) by (eexists; reflexivity).
  split; try done.
  - intros a t Ha. by destruct (Hobj a t Ha) as [[-> ->]|[[-> ->]|[-> ->]]].
  - intros a t Ha. by destruct (Hobj a t Ha) as [[-> ->]|[[-> ->]|[-> ->]]].
  - intros a t Ha. destruct (Hobj a t Ha) as [[-> ->]|[[-> ->]|[-> ->]]]; [|constructor..]. by repeat constructor.
Qed.

(** [/.//b/] leads to the file, [/b/x] does not exist. *)
Lemma vfs_resolve_walk_witness :
  vfs_resolve None no_ops no_release [47; 46; 47; 47; 98; 47] vfs_root_cred ex_fs = Ret (0, 3) (add_ref 3 ex_fs) /\
  vfs_resolve None no_ops no_release [47; 98; 47; 120] vfs_root_cred ex_fs = Ret (- VfsBase.ENOTDIR, 0) ex_fs.
Proof.
  split; [rewrite (vfs_resolve_walk None no_ops no_release ex_fs [47; 46; 47; 47; 98; 47] vfs_root_cred ex_fs_tree)
         |rewrite (vfs_resolve_walk None no_ops no_release ex_fs [47; 98; 47; 120] vfs_root_cred ex_fs_tree)];
    reflexivity || (simpl; lia).
Defined.

(** Nobody but the owner writes to mode 644. *)
Lemma vfs_access_spec_witness : vfs_access 2 (mkCred 5 5 [] 0 0) 2 ex_fs = Ret (- EACCES) ex_fs.
Proof. apply (vfs_access_spec ex_fs 2 (vnode (ex_file [97]))); [reflexivity|lia|lia]. Defined.

(** A machine with no root and a few free page frames, and the archive of CpioProps. *)
Definition bare_fs : fs :=
  mkFs ∅ 1 100 ex_frames ∅ (list_to_map ((fun p => (p, replicate 4096 7)) <$> ex_frames)) 0 [].
Definition boot : M fs (Z * (Z * list Z)) :=
  let* r := initrd_load_from_limine None no_ops no_release
    [Some (mkModule (Some [97]) None (Some [1])); Some (mkModule None (Some str_initrd) (Some (newc_archive demo_entries)))] in
  let* f := Vfs.vfs_open None no_ops no_release [47; 98; 105; 110; 47; 115; 104] VFS_O_RDONLY 0 vfs_root_cred in
  let* d := vfs_read None no_ops no_release f.2 100 in
  let* _ := Vfs.vfs_close None no_ops no_release f.2 in
  ret (r, d).

(** The components together: the boot module is chosen, unpacked into a new tmpfs, and a
    file of the archive reads back what was archived. *)
Lemma boot_reads_back : exists s, boot bare_fs = Ret (0, (0, [127; 69; 76; 70; 2])) s.
Proof. eexists. vm_compute. reflexivity. Qed.

(** removing a directory that is open breaks [..] from it.  After [mkdir /d], taking
    a reference to it as a directory descriptor does, and [rmdir /d], the parent of the
    directory is NULL; [..] relative to it succeeds with a null node, and opening [../x]
    relative to it dereferences that node. *)
Theorem removed_directory_faults :
  let mk := Vfs.vfs_mkdir None no_ops no_release [47; 100] 493 vfs_root_cred in
  let take_ref := let* r := vfs_resolve None no_ops no_release [47; 100] vfs_root_cred in ret r.2 in
  let rm := vfs_rmdir None no_ops no_release [47; 100] vfs_root_cred in
  (exists s, (mk ;;; let* d := take_ref in rm ;;; vfs_resolve_at None no_ops no_release d [46; 46] vfs_root_cred) ex_fs = Ret (0, 0) s) /\
  (mk ;;; let* d := take_ref in rm ;;;
   vfs_open_at None no_ops no_release d [46; 46; 47; 120] VFS_O_RDONLY 0 vfs_root_cred) ex_fs = Fault.
Proof. split; [eexists|]; vm_compute; reflexivity. Qed.
