(* ===== verification/SchedState.v ===== *)
(** * State of the scheduler (kernel/include/sched/sched.h, sched/sched.c)

    Processes and threads are known by their address, 0 is NULL; one that was freed is
    absent from its map, and using it faults.  The lists of processes, of the threads of a
    process and of the threads to reap are lists of addresses in the order of their links;
    the run queue keeps its links in the threads.  An interrupt frame is the list of its 28
    words, kernel frames are known by their address, user memory is bytes. *)

From stdpp Require Import base gmap list.
From Stdlib Require Import ZArith Lia.
From S2P Require Import Prelude.

Local Open Scope Z_scope.

(** ** Processes *)

Record sigaction := mkSigaction { sa_handler : Z; sa_flags : Z; sa_restorer : Z; sa_mask : Z }.

(** [vfs_cred_t], without the array of groups. *)
Record cred := mkCred { cr_uid : Z; cr_gid : Z; cr_group_count : Z; cr_umask : Z }.

(** The six identifiers of [pcb_t]. *)
Record ids := mkIds {
  ruid : Z; rgid : Z; suid : Z; sgid : Z; euid : Z; egid : Z }.

(** Its job-control state. *)
Record job := mkJob {
  stopped : bool;
  stop_signal : Z;
  stop_reported : bool; continued : bool }.

Record pcb := mkPcb {
  p_pid : Z; p_ppid : Z;
  p_name : list Z;
  p_pml4 : Z; p_vas : Z;
  owns_vas : bool; dying : bool; zombie : bool;
  p_exit_status : Z;
  p_threads : list Z;
  thread_count : Z;
  p_cred : cred;
  p_ids : ids;
  p_umask : Z; pgid : Z; sid : Z; controlling_tty : Z;
  cwd : list Z;
  files : list Z; fd_flags : list Z;
  sigactions : list sigaction;
  pending_signals : Z;
  p_job : job;
  child_event : Z; child_waitq : Z }.

Definition set_p_ppid (v : Z) (p : pcb) : pcb :=
  mkPcb (p_pid p) v (p_name p) (p_pml4 p) (p_vas p) (owns_vas p) (dying p) (zombie p) (p_exit_status p)
    (p_threads p) (thread_count p) (p_cred p) (p_ids p) (p_umask p) (pgid p) (sid p) (controlling_tty p)
    (cwd p) (files p) (fd_flags p) (sigactions p) (pending_signals p) (p_job p) (child_event p)
    (child_waitq p).
Definition set_p_name (v : list Z) (p : pcb) : pcb :=
  mkPcb (p_pid p) (p_ppid p) v (p_pml4 p) (p_vas p) (owns_vas p) (dying p) (zombie p) (p_exit_status p)
    (p_threads p) (thread_count p) (p_cred p) (p_ids p) (p_umask p) (pgid p) (sid p) (controlling_tty p)
    (cwd p) (files p) (fd_flags p) (sigactions p) (pending_signals p) (p_job p) (child_event p)
    (child_waitq p).
Definition set_vas (v0 : Z) (v1 : Z) (v2 : bool) (p : pcb) : pcb :=
  mkPcb (p_pid p) (p_ppid p) (p_name p) v0 v1 v2 (dying p) (zombie p) (p_exit_status p) (p_threads p)
    (thread_count p) (p_cred p) (p_ids p) (p_umask p) (pgid p) (sid p) (controlling_tty p) (cwd p)
    (files p) (fd_flags p) (sigactions p) (pending_signals p) (p_job p) (child_event p) (child_waitq p).
Definition set_dying (v : bool) (p : pcb) : pcb :=
  mkPcb (p_pid p) (p_ppid p) (p_name p) (p_pml4 p) (p_vas p) (owns_vas p) v (zombie p) (p_exit_status p)
    (p_threads p) (thread_count p) (p_cred p) (p_ids p) (p_umask p) (pgid p) (sid p) (controlling_tty p)
    (cwd p) (files p) (fd_flags p) (sigactions p) (pending_signals p) (p_job p) (child_event p)
    (child_waitq p).
Definition set_zombie (v : bool) (p : pcb) : pcb :=
  mkPcb (p_pid p) (p_ppid p) (p_name p) (p_pml4 p) (p_vas p) (owns_vas p) (dying p) v (p_exit_status p)
    (p_threads p) (thread_count p) (p_cred p) (p_ids p) (p_umask p) (pgid p) (sid p) (controlling_tty p)
    (cwd p) (files p) (fd_flags p) (sigactions p) (pending_signals p) (p_job p) (child_event p)
    (child_waitq p).
Definition set_p_exit_status (v : Z) (p : pcb) : pcb :=
  mkPcb (p_pid p) (p_ppid p) (p_name p) (p_pml4 p) (p_vas p) (owns_vas p) (dying p) (zombie p) v (p_threads
    p) (thread_count p) (p_cred p) (p_ids p) (p_umask p) (pgid p) (sid p) (controlling_tty p) (cwd p)
    (files p) (fd_flags p) (sigactions p) (pending_signals p) (p_job p) (child_event p) (child_waitq p).
Definition set_p_threads (v0 : list Z) (v1 : Z) (p : pcb) : pcb :=
  mkPcb (p_pid p) (p_ppid p) (p_name p) (p_pml4 p) (p_vas p) (owns_vas p) (dying p) (zombie p)
    (p_exit_status p) v0 v1 (p_cred p) (p_ids p) (p_umask p) (pgid p) (sid p) (controlling_tty p) (cwd
    p) (files p) (fd_flags p) (sigactions p) (pending_signals p) (p_job p) (child_event p) (child_waitq
    p).
Definition set_p_ids (v0 : cred) (v1 : ids) (p : pcb) : pcb :=
  mkPcb (p_pid p) (p_ppid p) (p_name p) (p_pml4 p) (p_vas p) (owns_vas p) (dying p) (zombie p)
    (p_exit_status p) (p_threads p) (thread_count p) v0 v1 (p_umask p) (pgid p) (sid p) (controlling_tty
    p) (cwd p) (files p) (fd_flags p) (sigactions p) (pending_signals p) (p_job p) (child_event p)
    (child_waitq p).
Definition set_group (v0 : Z) (v1 : Z) (p : pcb) : pcb :=
  mkPcb (p_pid p) (p_ppid p) (p_name p) (p_pml4 p) (p_vas p) (owns_vas p) (dying p) (zombie p)
    (p_exit_status p) (p_threads p) (thread_count p) (p_cred p) (p_ids p) (p_umask p) v0 v1
    (controlling_tty p) (cwd p) (files p) (fd_flags p) (sigactions p) (pending_signals p) (p_job p)
    (child_event p) (child_waitq p).
Definition set_controlling_tty (v : Z) (p : pcb) : pcb :=
  mkPcb (p_pid p) (p_ppid p) (p_name p) (p_pml4 p) (p_vas p) (owns_vas p) (dying p) (zombie p)
    (p_exit_status p) (p_threads p) (thread_count p) (p_cred p) (p_ids p) (p_umask p) (pgid p) (sid p) v
    (cwd p) (files p) (fd_flags p) (sigactions p) (pending_signals p) (p_job p) (child_event p)
    (child_waitq p).
Definition set_cwd (v : list Z) (p : pcb) : pcb :=
  mkPcb (p_pid p) (p_ppid p) (p_name p) (p_pml4 p) (p_vas p) (owns_vas p) (dying p) (zombie p)
    (p_exit_status p) (p_threads p) (thread_count p) (p_cred p) (p_ids p) (p_umask p) (pgid p) (sid p)
    (controlling_tty p) v (files p) (fd_flags p) (sigactions p) (pending_signals p) (p_job p)
    (child_event p) (child_waitq p).
Definition set_files (v : list Z) (p : pcb) : pcb :=
  mkPcb (p_pid p) (p_ppid p) (p_name p) (p_pml4 p) (p_vas p) (owns_vas p) (dying p) (zombie p)
    (p_exit_status p) (p_threads p) (thread_count p) (p_cred p) (p_ids p) (p_umask p) (pgid p) (sid p)
    (controlling_tty p) (cwd p) v (fd_flags p) (sigactions p) (pending_signals p) (p_job p) (child_event
    p) (child_waitq p).
Definition set_sigactions (v : list sigaction) (p : pcb) : pcb :=
  mkPcb (p_pid p) (p_ppid p) (p_name p) (p_pml4 p) (p_vas p) (owns_vas p) (dying p) (zombie p)
    (p_exit_status p) (p_threads p) (thread_count p) (p_cred p) (p_ids p) (p_umask p) (pgid p) (sid p)
    (controlling_tty p) (cwd p) (files p) (fd_flags p) v (pending_signals p) (p_job p) (child_event p)
    (child_waitq p).
Definition set_pending_signals (v : Z) (p : pcb) : pcb :=
  mkPcb (p_pid p) (p_ppid p) (p_name p) (p_pml4 p) (p_vas p) (owns_vas p) (dying p) (zombie p)
    (p_exit_status p) (p_threads p) (thread_count p) (p_cred p) (p_ids p) (p_umask p) (pgid p) (sid p)
    (controlling_tty p) (cwd p) (files p) (fd_flags p) (sigactions p) v (p_job p) (child_event p)
    (child_waitq p).
Definition set_p_job (v : job) (p : pcb) : pcb :=
  mkPcb (p_pid p) (p_ppid p) (p_name p) (p_pml4 p) (p_vas p) (owns_vas p) (dying p) (zombie p)
    (p_exit_status p) (p_threads p) (thread_count p) (p_cred p) (p_ids p) (p_umask p) (pgid p) (sid p)
    (controlling_tty p) (cwd p) (files p) (fd_flags p) (sigactions p) (pending_signals p) v (child_event
    p) (child_waitq p).
Definition set_child_event (v : Z) (p : pcb) : pcb :=
  mkPcb (p_pid p) (p_ppid p) (p_name p) (p_pml4 p) (p_vas p) (owns_vas p) (dying p) (zombie p)
    (p_exit_status p) (p_threads p) (thread_count p) (p_cred p) (p_ids p) (p_umask p) (pgid p) (sid p)
    (controlling_tty p) (cwd p) (files p) (fd_flags p) (sigactions p) (pending_signals p) (p_job p) v
    (child_waitq p).
Definition set_child_waitq (v : Z) (p : pcb) : pcb :=
  mkPcb (p_pid p) (p_ppid p) (p_name p) (p_pml4 p) (p_vas p) (owns_vas p) (dying p) (zombie p)
    (p_exit_status p) (p_threads p) (thread_count p) (p_cred p) (p_ids p) (p_umask p) (pgid p) (sid p)
    (controlling_tty p) (cwd p) (files p) (fd_flags p) (sigactions p) (pending_signals p) (p_job p)
    (child_event p) v.

(** ** Threads *)

Inductive tcb_state := TCB_READY | TCB_RUNNING | TCB_BLOCKED | TCB_ZOMBIE.
Inductive tcb_mode := TCB_MODE_KERNEL | TCB_MODE_USER.
#[global] Instance tcb_state_eq_dec : EqDecision tcb_state.
Proof. solve_decision. Defined.

Record tcb := mkTcb {
  t_tid : Z;
  t_name : list Z;
  t_state : tcb_state;
  t_mode : tcb_mode;
  is_idle : bool; sleep_hint : bool; reap_process : bool;
  t_fs_base : Z; user_entry_rsp : Z; signal_mask : Z; t_rsp : Z; kstack_base : Z; kstack_top : Z; t_entry : Z; t_arg : Z; t_exit_status : Z; t_process : Z;
  t_cpu : option nat;
  runq_next : Z }.

Definition set_t_name (v : list Z) (t : tcb) : tcb :=
  mkTcb (t_tid t) v (t_state t) (t_mode t) (is_idle t) (sleep_hint t) (reap_process t) (t_fs_base t)
    (user_entry_rsp t) (signal_mask t) (t_rsp t) (kstack_base t) (kstack_top t) (t_entry t) (t_arg t)
    (t_exit_status t) (t_process t) (t_cpu t) (runq_next t).
Definition set_t_state (v : tcb_state) (t : tcb) : tcb :=
  mkTcb (t_tid t) (t_name t) v (t_mode t) (is_idle t) (sleep_hint t) (reap_process t) (t_fs_base t)
    (user_entry_rsp t) (signal_mask t) (t_rsp t) (kstack_base t) (kstack_top t) (t_entry t) (t_arg t)
    (t_exit_status t) (t_process t) (t_cpu t) (runq_next t).
Definition set_sleep_hint (v : bool) (t : tcb) : tcb :=
  mkTcb (t_tid t) (t_name t) (t_state t) (t_mode t) (is_idle t) v (reap_process t) (t_fs_base t)
    (user_entry_rsp t) (signal_mask t) (t_rsp t) (kstack_base t) (kstack_top t) (t_entry t) (t_arg t)
    (t_exit_status t) (t_process t) (t_cpu t) (runq_next t).
Definition set_reap_process (v : bool) (t : tcb) : tcb :=
  mkTcb (t_tid t) (t_name t) (t_state t) (t_mode t) (is_idle t) (sleep_hint t) v (t_fs_base t)
    (user_entry_rsp t) (signal_mask t) (t_rsp t) (kstack_base t) (kstack_top t) (t_entry t) (t_arg t)
    (t_exit_status t) (t_process t) (t_cpu t) (runq_next t).
Definition set_user (v0 : tcb_mode) (v1 : Z) (v2 : Z) (t : tcb) : tcb :=
  mkTcb (t_tid t) (t_name t) (t_state t) v0 (is_idle t) (sleep_hint t) (reap_process t) (t_fs_base t) v1
    (signal_mask t) v2 (kstack_base t) (kstack_top t) (t_entry t) (t_arg t) (t_exit_status t) (t_process
    t) (t_cpu t) (runq_next t).
Definition set_kernel_frame (v0 : tcb_mode) (v1 : Z) (t : tcb) : tcb :=
  mkTcb (t_tid t) (t_name t) (t_state t) v0 (is_idle t) (sleep_hint t) (reap_process t) (t_fs_base t)
    (user_entry_rsp t) (signal_mask t) v1 (kstack_base t) (kstack_top t) (t_entry t) (t_arg t)
    (t_exit_status t) (t_process t) (t_cpu t) (runq_next t).
Definition set_t_fs_base (v : Z) (t : tcb) : tcb :=
  mkTcb (t_tid t) (t_name t) (t_state t) (t_mode t) (is_idle t) (sleep_hint t) (reap_process t) v
    (user_entry_rsp t) (signal_mask t) (t_rsp t) (kstack_base t) (kstack_top t) (t_entry t) (t_arg t)
    (t_exit_status t) (t_process t) (t_cpu t) (runq_next t).
Definition set_signal_mask (v : Z) (t : tcb) : tcb :=
  mkTcb (t_tid t) (t_name t) (t_state t) (t_mode t) (is_idle t) (sleep_hint t) (reap_process t) (t_fs_base
    t) (user_entry_rsp t) v (t_rsp t) (kstack_base t) (kstack_top t) (t_entry t) (t_arg t)
    (t_exit_status t) (t_process t) (t_cpu t) (runq_next t).
Definition set_t_rsp (v : Z) (t : tcb) : tcb :=
  mkTcb (t_tid t) (t_name t) (t_state t) (t_mode t) (is_idle t) (sleep_hint t) (reap_process t) (t_fs_base
    t) (user_entry_rsp t) (signal_mask t) v (kstack_base t) (kstack_top t) (t_entry t) (t_arg t)
    (t_exit_status t) (t_process t) (t_cpu t) (runq_next t).
Definition set_kstack (v0 : Z) (v1 : Z) (t : tcb) : tcb :=
  mkTcb (t_tid t) (t_name t) (t_state t) (t_mode t) (is_idle t) (sleep_hint t) (reap_process t) (t_fs_base
    t) (user_entry_rsp t) (signal_mask t) (t_rsp t) v0 v1 (t_entry t) (t_arg t) (t_exit_status t)
    (t_process t) (t_cpu t) (runq_next t).
Definition set_t_exit_status (v : Z) (t : tcb) : tcb :=
  mkTcb (t_tid t) (t_name t) (t_state t) (t_mode t) (is_idle t) (sleep_hint t) (reap_process t) (t_fs_base
    t) (user_entry_rsp t) (signal_mask t) (t_rsp t) (kstack_base t) (kstack_top t) (t_entry t) (t_arg t)
    v (t_process t) (t_cpu t) (runq_next t).
Definition set_t_cpu (v : option nat) (t : tcb) : tcb :=
  mkTcb (t_tid t) (t_name t) (t_state t) (t_mode t) (is_idle t) (sleep_hint t) (reap_process t) (t_fs_base
    t) (user_entry_rsp t) (signal_mask t) (t_rsp t) (kstack_base t) (kstack_top t) (t_entry t) (t_arg t)
    (t_exit_status t) (t_process t) v (runq_next t).
Definition set_runq_next (v : Z) (t : tcb) : tcb :=
  mkTcb (t_tid t) (t_name t) (t_state t) (t_mode t) (is_idle t) (sleep_hint t) (reap_process t) (t_fs_base
    t) (user_entry_rsp t) (signal_mask t) (t_rsp t) (kstack_base t) (kstack_top t) (t_entry t) (t_arg t)
    (t_exit_status t) (t_process t) (t_cpu t) v.

(** ** Processors *)

Record cpu_local := mkCpu {
  c_sched_ready : bool;
  runq_head : Z; runq_tail : Z; current_thread : Z; idle_thread : Z;
  reap_list : list Z;
  sched_load : Z }.

Definition set_runq (v0 : Z) (v1 : Z) (c : cpu_local) : cpu_local :=
  mkCpu (c_sched_ready c) v0 v1 (current_thread c) (idle_thread c) (reap_list c) (sched_load c).
Definition set_current_thread (v : Z) (c : cpu_local) : cpu_local :=
  mkCpu (c_sched_ready c) (runq_head c) (runq_tail c) v (idle_thread c) (reap_list c) (sched_load c).
Definition set_idle_thread (v : Z) (c : cpu_local) : cpu_local :=
  mkCpu (c_sched_ready c) (runq_head c) (runq_tail c) (current_thread c) v (reap_list c) (sched_load c).
Definition set_reap_list (v : list Z) (c : cpu_local) : cpu_local :=
  mkCpu (c_sched_ready c) (runq_head c) (runq_tail c) (current_thread c) (idle_thread c) v (sched_load c).
Definition set_sched_load (v : Z) (c : cpu_local) : cpu_local :=
  mkCpu (c_sched_ready c) (runq_head c) (runq_tail c) (current_thread c) (idle_thread c) (reap_list c) v.

(** ** The scheduler *)

(** [id_pool_t]: the next new identifier and the list of freed ones. *)
Record id_pool := mkPool {
  pool_next : Z;
  pool_free : list Z }.

(** What [switch_to_thread] writes: the kernel stack of the task state segment, the base of
    [fs], the page table. *)
Record hw_state := mkHw {
  tss_rsp0 : Z; hw_fs_base : Z; hw_cr3 : Z }.

(** Calls that leave the scheduler, in the order they were made, latest first. *)
Inductive ext_event :=
| ev_close (file : Z) | ev_vas_destroy (vas : Z) | ev_reset_tty (tty : Z)
| ev_map_stack (va : Z) | ev_unmap_stack (va : Z) | ev_map_mmio (pml4 virt phys npages : Z).

Record sched := mkSched {
  procs : gmap Z pcb;
  threads : gmap Z tcb;
  process_list : list Z;
  cpus : list cpu_local;
  this_cpu : nat;
  pid_pool : id_pool; tid_pool : id_pool;
  next_kstack_base : Z;
  sched_ready : bool;
  reap_inflight : Z; last_process_pid : Z;
  loadavg_fp : list Z;
  loadavg_last_sec : Z; io_waitq : Z; now_ns : Z;
  hw : hw_state;
  frames : gmap Z (list Z);
  umem : gmap Z Z;
  next_obj : Z;
  obj_grants : Z -> bool;
  world : list ext_event }.

Definition set_procs (v : gmap Z pcb) (s : sched) : sched :=
  mkSched v (threads s) (process_list s) (cpus s) (this_cpu s) (pid_pool s) (tid_pool s) (next_kstack_base s)
    (sched_ready s) (reap_inflight s) (last_process_pid s) (loadavg_fp s) (loadavg_last_sec s) (io_waitq
    s) (now_ns s) (hw s) (frames s) (umem s) (next_obj s) (obj_grants s) (world s).
Definition set_threads (v : gmap Z tcb) (s : sched) : sched :=
  mkSched (procs s) v (process_list s) (cpus s) (this_cpu s) (pid_pool s) (tid_pool s) (next_kstack_base s)
    (sched_ready s) (reap_inflight s) (last_process_pid s) (loadavg_fp s) (loadavg_last_sec s) (io_waitq
    s) (now_ns s) (hw s) (frames s) (umem s) (next_obj s) (obj_grants s) (world s).
Definition set_process_list (v : list Z) (s : sched) : sched :=
  mkSched (procs s) (threads s) v (cpus s) (this_cpu s) (pid_pool s) (tid_pool s) (next_kstack_base s)
    (sched_ready s) (reap_inflight s) (last_process_pid s) (loadavg_fp s) (loadavg_last_sec s) (io_waitq
    s) (now_ns s) (hw s) (frames s) (umem s) (next_obj s) (obj_grants s) (world s).
Definition set_cpus (v : list cpu_local) (s : sched) : sched :=
  mkSched (procs s) (threads s) (process_list s) v (this_cpu s) (pid_pool s) (tid_pool s) (next_kstack_base s)
    (sched_ready s) (reap_inflight s) (last_process_pid s) (loadavg_fp s) (loadavg_last_sec s) (io_waitq
    s) (now_ns s) (hw s) (frames s) (umem s) (next_obj s) (obj_grants s) (world s).
Definition set_pid_pool (v : id_pool) (s : sched) : sched :=
  mkSched (procs s) (threads s) (process_list s) (cpus s) (this_cpu s) v (tid_pool s) (next_kstack_base s)
    (sched_ready s) (reap_inflight s) (last_process_pid s) (loadavg_fp s) (loadavg_last_sec s) (io_waitq
    s) (now_ns s) (hw s) (frames s) (umem s) (next_obj s) (obj_grants s) (world s).
Definition set_tid_pool (v : id_pool) (s : sched) : sched :=
  mkSched (procs s) (threads s) (process_list s) (cpus s) (this_cpu s) (pid_pool s) v (next_kstack_base s)
    (sched_ready s) (reap_inflight s) (last_process_pid s) (loadavg_fp s) (loadavg_last_sec s) (io_waitq
    s) (now_ns s) (hw s) (frames s) (umem s) (next_obj s) (obj_grants s) (world s).
Definition set_next_kstack_base (v : Z) (s : sched) : sched :=
  mkSched (procs s) (threads s) (process_list s) (cpus s) (this_cpu s) (pid_pool s) (tid_pool s) v
    (sched_ready s) (reap_inflight s) (last_process_pid s) (loadavg_fp s) (loadavg_last_sec s) (io_waitq
    s) (now_ns s) (hw s) (frames s) (umem s) (next_obj s) (obj_grants s) (world s).
Definition set_sched_ready (v : bool) (s : sched) : sched :=
  mkSched (procs s) (threads s) (process_list s) (cpus s) (this_cpu s) (pid_pool s) (tid_pool s)
    (next_kstack_base s) v (reap_inflight s) (last_process_pid s) (loadavg_fp s) (loadavg_last_sec s)
    (io_waitq s) (now_ns s) (hw s) (frames s) (umem s) (next_obj s) (obj_grants s) (world s).
Definition set_reap_inflight (v : Z) (s : sched) : sched :=
  mkSched (procs s) (threads s) (process_list s) (cpus s) (this_cpu s) (pid_pool s) (tid_pool s)
    (next_kstack_base s) (sched_ready s) v (last_process_pid s) (loadavg_fp s) (loadavg_last_sec s)
    (io_waitq s) (now_ns s) (hw s) (frames s) (umem s) (next_obj s) (obj_grants s) (world s).
Definition set_last_process_pid (v : Z) (s : sched) : sched :=
  mkSched (procs s) (threads s) (process_list s) (cpus s) (this_cpu s) (pid_pool s) (tid_pool s)
    (next_kstack_base s) (sched_ready s) (reap_inflight s) v (loadavg_fp s) (loadavg_last_sec s)
    (io_waitq s) (now_ns s) (hw s) (frames s) (umem s) (next_obj s) (obj_grants s) (world s).
Definition set_loadavg (v0 : list Z) (v1 : Z) (s : sched) : sched :=
  mkSched (procs s) (threads s) (process_list s) (cpus s) (this_cpu s) (pid_pool s) (tid_pool s)
    (next_kstack_base s) (sched_ready s) (reap_inflight s) (last_process_pid s) v0 v1 (io_waitq s)
    (now_ns s) (hw s) (frames s) (umem s) (next_obj s) (obj_grants s) (world s).
Definition set_io_waitq (v : Z) (s : sched) : sched :=
  mkSched (procs s) (threads s) (process_list s) (cpus s) (this_cpu s) (pid_pool s) (tid_pool s)
    (next_kstack_base s) (sched_ready s) (reap_inflight s) (last_process_pid s) (loadavg_fp s)
    (loadavg_last_sec s) v (now_ns s) (hw s) (frames s) (umem s) (next_obj s) (obj_grants s) (world s).
Definition set_hw (v : hw_state) (s : sched) : sched :=
  mkSched (procs s) (threads s) (process_list s) (cpus s) (this_cpu s) (pid_pool s) (tid_pool s)
    (next_kstack_base s) (sched_ready s) (reap_inflight s) (last_process_pid s) (loadavg_fp s)
    (loadavg_last_sec s) (io_waitq s) (now_ns s) v (frames s) (umem s) (next_obj s) (obj_grants s)
    (world s).
Definition set_frames (v : gmap Z (list Z)) (s : sched) : sched :=
  mkSched (procs s) (threads s) (process_list s) (cpus s) (this_cpu s) (pid_pool s) (tid_pool s)
    (next_kstack_base s) (sched_ready s) (reap_inflight s) (last_process_pid s) (loadavg_fp s)
    (loadavg_last_sec s) (io_waitq s) (now_ns s) (hw s) v (umem s) (next_obj s) (obj_grants s) (world s).
Definition set_umem (v : gmap Z Z) (s : sched) : sched :=
  mkSched (procs s) (threads s) (process_list s) (cpus s) (this_cpu s) (pid_pool s) (tid_pool s)
    (next_kstack_base s) (sched_ready s) (reap_inflight s) (last_process_pid s) (loadavg_fp s)
    (loadavg_last_sec s) (io_waitq s) (now_ns s) (hw s) (frames s) v (next_obj s) (obj_grants s) (world
    s).
Definition set_next_obj (v : Z) (s : sched) : sched :=
  mkSched (procs s) (threads s) (process_list s) (cpus s) (this_cpu s) (pid_pool s) (tid_pool s)
    (next_kstack_base s) (sched_ready s) (reap_inflight s) (last_process_pid s) (loadavg_fp s)
    (loadavg_last_sec s) (io_waitq s) (now_ns s) (hw s) (frames s) (umem s) v (obj_grants s) (world s).
Definition set_world (v : list ext_event) (s : sched) : sched :=
  mkSched (procs s) (threads s) (process_list s) (cpus s) (this_cpu s) (pid_pool s) (tid_pool s)
    (next_kstack_base s) (sched_ready s) (reap_inflight s) (last_process_pid s) (loadavg_fp s)
    (loadavg_last_sec s) (io_waitq s) (now_ns s) (hw s) (frames s) (umem s) (next_obj s) (obj_grants s)
    v.
