(* ===== verification/Sched.v ===== *)
(** * The scheduler (kernel/src/sched/sched.c)

    Identifiers, credentials, run queues, processes and threads, the choice of the next
    thread, exit and reaping.  Locks are not represented: what runs under a lock is one
    step.  The calls of other components that only have an effect elsewhere are recorded
    in [world]; what they return is the business of [SchedEnv]. *)

From stdpp Require Import base gmap list.
From Stdlib Require Import ZArith Lia.
From S2P Require Import Prelude SchedState.

Local Open Scope Z_scope.

(** What other components answer: [vfs_open] (the file, or a negative error), [vas_create],
    whether a page frame is left for a kernel stack, the page table of an address space;
    and the addresses of the kernel's own. *)
Class SchedEnv := {
  env_open : list ext_event -> list Z -> Z;
  env_vas_create : list ext_event -> Z;
  env_page : list ext_event -> bool;
  env_pml4 : Z -> Z;
  kernel_vas : Z;
  kernel_ptable : Z;
  boot_kstack_top : Z;
  thread_bootstrap : Z;
  idle_entry : Z }.

Definition KSTACK_REGION_BASE : Z := 18446744071830503424.
Definition KSTACK_GUARD_SIZE : Z := PAGE_SIZE.
Definition KERNEL_CS : Z := 8.
Definition KERNEL_DS : Z := 16.
Definition USER_CS : Z := 27.
Definition USER_DS : Z := 35.
Definition RFLAGS_IF : Z := 512.
Definition RFLAGS_RESERVED : Z := 2.
Definition SCHED_KERNEL_STACK_SIZE : Z := 65536.
Definition SCHED_FILE_MAX : nat := 128.
Definition SCHED_CWD_MAX : Z := 512.
Definition SCHED_NSIG : Z := 64.
Definition SCHED_LOADAVG_SCALE : Z := 1000000.
Definition SCHED_LOADAVG_EXP_1 : Z := 983471.
Definition SCHED_LOADAVG_EXP_5 : Z := 996672.
Definition SCHED_LOADAVG_EXP_15 : Z := 998890.
Definition NSEC_PER_SEC : Z := 1000000000.

Definition EPERM : Z := 1.
Definition ESRCH : Z := 3.
Definition EINTR : Z := 4.
Definition EBADF : Z := 9.
Definition ECHILD : Z := 10.
Definition EAGAIN : Z := 11.
Definition EINVAL : Z := 22.
Definition ENAMETOOLONG : Z := 36.
Definition ETIMEDOUT : Z := 110.

(** Words of an interrupt frame, and its size. *)
Definition F_ES : nat := 0.
Definition F_DS : nat := 1.
Definition F_CR2 : nat := 3.
Definition F_CR3 : nat := 4.
Definition F_RAX : nat := 6.
Definition F_RDI : nat := 11.
Definition F_VECTOR : nat := 21.
Definition F_RIP : nat := 23.
Definition F_CS : nat := 24.
Definition F_RFLAGS : nat := 25.
Definition F_RSP : nat := 26.
Definition F_SS : nat := 27.
Definition frame_words : nat := 28.
Definition sizeof_interrupt_frame : Z := 224.

(** ** Objects *)

Definition get_proc (a : Z) : M sched pcb := fun s =>
  match procs s !! a with Some p => Ret p s | None => Fault end.
Definition upd_proc (a : Z) (f : pcb -> pcb) : M sched unit :=
  let* p := get_proc a in modify (fun s => set_procs (<[a := f p]> (procs s)) s).
Definition get_thread (a : Z) : M sched tcb := fun s =>
  match threads s !! a with Some t => Ret t s | None => Fault end.
Definition upd_thread (a : Z) (f : tcb -> tcb) : M sched unit :=
  let* t := get_thread a in modify (fun s => set_threads (<[a := f t]> (threads s)) s).
Definition get_cpu (c : nat) : M sched cpu_local := fun s =>
  match cpus s !! c with Some k => Ret k s | None => Fault end.
Definition upd_cpu (c : nat) (f : cpu_local -> cpu_local) : M sched unit :=
  get_cpu c ;;; modify (fun s => set_cpus (alter f c (cpus s)) s).
Definition emit (e : ext_event) : M sched unit := modify (fun s => set_world (e :: world s) s).

(** The address of a new object, 0 when the heap has none. *)
Definition kzalloc : M sched Z := fun s =>
  let a := next_obj s in
  Ret (if obj_grants s a then a else 0) (set_next_obj (a + 1) s).
Definition kfree_proc (a : Z) : M sched unit :=
  get_proc a ;;; modify (fun s => set_procs (delete a (procs s)) s).
Definition kfree_thread (a : Z) : M sched unit :=
  get_thread a ;;; modify (fun s => set_threads (delete a (threads s)) s).

Fixpoint for_list (l : list Z) (f : Z -> M sched unit) : M sched unit :=
  match l with [] => ret tt | a :: l => f a ;;; for_list l f end.

(** ** Names and credentials *)

(** The text [name_set] leaves in an array of [len] bytes. *)
Definition name_set (len : nat) (src : list Z) : list Z := take (len - 1) src.

(** "process", "thread", "/" *)
Definition str_process : list Z := [112; 114; 111; 99; 101; 115; 115].
Definition str_thread : list Z := [116; 104; 114; 101; 97; 100].
Definition str_slash : list Z := [47].

Definition process_refresh_cred (i : ids) : cred := mkCred (euid i) (egid i) 0 18.
Definition set_ids (i : ids) (p : pcb) : pcb := set_p_ids (process_refresh_cred i) i p.

(** [None] is NULL, for which the credentials of root are used. *)
Definition sched_process_cred (p : option pcb) : cred :=
  match p with Some p => p_cred p | None => mkCred 0 0 0 18 end.
Definition sched_process_set_parent (a ppid : Z) : M sched unit :=
  if a =? 0 then ret tt else upd_proc a (set_p_ppid ppid).
Definition sched_process_set_name (a : Z) (name : option (list Z)) : M sched unit :=
  if a =? 0 then ret tt else upd_proc a (set_p_name (name_set 32 (default str_process name))).
Definition sched_thread_set_name (a : Z) (name : option (list Z)) : M sched unit :=
  if a =? 0 then ret tt else upd_thread a (set_t_name (name_set 32 (default str_thread name))).

Definition sched_process_copy_ids (dst src : Z) : M sched unit :=
  if (dst =? 0) || (src =? 0) then ret tt
  else
    let* q := get_proc src in
    upd_proc dst (fun p => set_p_ppid (p_pid q) (set_p_ids (p_cred q) (p_ids q)
      (set_group (pgid q) (sid q) (set_controlling_tty (controlling_tty q) p)))).

Definition sched_process_setuid (a uid : Z) : M sched Z :=
  if a =? 0 then ret (- EINVAL)
  else
    let* p := get_proc a in
    let i := p_ids p in
    if negb (euid i =? 0) && negb (uid =? ruid i) && negb (uid =? euid i) && negb (uid =? suid i)
    then ret (- EPERM)
    else
      let i := if euid i =? 0 then mkIds uid (rgid i) uid (sgid i) (euid i) (egid i) else i in
      upd_proc a (set_ids (mkIds (ruid i) (rgid i) (suid i) (sgid i) uid (egid i))) ;;;
      ret 0.
Definition sched_process_setgid (a gid : Z) : M sched Z :=
  if a =? 0 then ret (- EINVAL)
  else
    let* p := get_proc a in
    let i := p_ids p in
    if negb (euid i =? 0) && negb (gid =? rgid i) && negb (gid =? egid i) && negb (gid =? sgid i)
    then ret (- EPERM)
    else
      let i := if euid i =? 0 then mkIds (ruid i) gid (suid i) gid (euid i) (egid i) else i in
      upd_proc a (set_ids (mkIds (ruid i) (rgid i) (suid i) (sgid i) (euid i) gid)) ;;;
      ret 0.
Definition sched_process_seteuid (a uid : Z) : M sched Z :=
  if a =? 0 then ret (- EINVAL)
  else
    let* p := get_proc a in
    let i := p_ids p in
    if negb (euid i =? 0) && negb (uid =? ruid i) && negb (uid =? suid i) then ret (- EPERM)
    else
      upd_proc a (set_ids (mkIds (ruid i) (rgid i) (suid i) (sgid i) uid (egid i))) ;;;
      ret 0.
Definition sched_process_setegid (a gid : Z) : M sched Z :=
  if a =? 0 then ret (- EINVAL)
  else
    let* p := get_proc a in
    let i := p_ids p in
    if negb (euid i =? 0) && negb (gid =? rgid i) && negb (gid =? sgid i) then ret (- EPERM)
    else
      upd_proc a (set_ids (mkIds (ruid i) (rgid i) (suid i) (sgid i) (euid i) gid)) ;;;
      ret 0.

(** ** Identifiers *)

Definition pool_alloc (p : id_pool) : Z * id_pool :=
  match pool_free p with
  | id :: free => (id, mkPool (pool_next p) free)
  | [] => (pool_next p, mkPool (pool_next p + 1) [])
  end.

(** The walk to the first identifier that is not smaller, then the insertion; [None]:
    freed twice. *)
Fixpoint insert_id (id : Z) (l : list Z) : option (list Z) :=
  match l with
  | [] => Some [id]
  | x :: l' =>
      if x <? id then match insert_id id l' with Some l' => Some (x :: l') | None => None end
      else if x =? id then None
      else Some (id :: l)
  end.
Definition pool_release (p : id_pool) (id : Z) : option id_pool :=
  match insert_id id (pool_free p) with Some l => Some (mkPool (pool_next p) l) | None => None end.

Inductive pool_name := PID | TID.
Definition get_pool (n : pool_name) (s : sched) : id_pool := match n with PID => pid_pool s | TID => tid_pool s end.
Definition set_pool (n : pool_name) (p : id_pool) (s : sched) : sched :=
  match n with PID => set_pid_pool p s | TID => set_tid_pool p s end.

Definition id_alloc (n : pool_name) : M sched Z := fun s =>
  let '(id, p) := pool_alloc (get_pool n s) in Ret id (set_pool n p s).
Definition id_free (n : pool_name) (id : Z) : M sched unit :=
  if id <=? 0 then ret tt
  else
    let* node := kzalloc in
    if node =? 0 then kpanic
    else
      let* p := gets (get_pool n) in
      match pool_release p id with None => kpanic | Some p => modify (set_pool n p) end.

(** ** Run queues *)

Definition runq_push_locked (c : nat) (t : Z) : M sched unit :=
  upd_thread t (fun x => set_t_cpu (Some c) (set_runq_next 0 x)) ;;;
  let* k := get_cpu c in
  if runq_tail k =? 0 then upd_cpu c (set_runq t t)
  else
    upd_thread (runq_tail k) (set_runq_next t) ;;;
    upd_cpu c (set_runq (runq_head k) t).

Definition runq_pop_locked (c : nat) : M sched Z :=
  let* k := get_cpu c in
  let t := runq_head k in
  if t =? 0 then ret 0
  else
    let* x := get_thread t in
    let head := runq_next x in
    upd_cpu c (set_runq head (if head =? 0 then 0 else runq_tail k)) ;;;
    upd_thread t (set_runq_next 0) ;;;
    ret t.

Fixpoint least_loop (l : list cpu_local) (i : nat) (best : nat) (best_load : Z) : nat :=
  match l with
  | [] => best
  | k :: l =>
      if c_sched_ready k && (sched_load k <? best_load) then least_loop l (S i) i (sched_load k)
      else least_loop l (S i) best best_load
  end.
Definition least_loaded_cpu (s : sched) : nat :=
  match cpus s with k :: l => least_loop l 1 0 (sched_load k) | [] => 0%nat end.

(** ** Kernel stacks *)

Section env.
Context `{!SchedEnv}.

(** The loop over the pages of a stack. *)
Definition kstack_alloc (size : Z) : M sched Z :=
  let* b := gets next_kstack_base in
  let base := u64 (b + KSTACK_GUARD_SIZE) in
  let top := u64 (base + size) in
  mfor (pages_between base top) 0 (fun i =>
    let* ok := gets (fun s => env_page (world s)) in
    if ok : bool then emit (ev_map_stack (base + i * PAGE_SIZE)) else kpanic) ;;;
  modify (set_next_kstack_base top) ;;;
  ret top.

Definition kstack_free (base top : Z) : M sched unit :=
  if (base =? 0) || (top =? 0) || (top <=? base) then ret tt
  else
    mfor (pages_between base top) 0 (fun i => emit (ev_unmap_stack (base + i * PAGE_SIZE))) ;;;
    let* b := gets next_kstack_base in
    when (top =? b) (modify (set_next_kstack_base (u64 (base - KSTACK_GUARD_SIZE)))).

(** [paging_register_kernel_mmio] and [map_mmio], for the kernel and every process. *)
Definition sched_map_kernel_mmio (virt phys npages : Z) : M sched unit :=
  if npages =? 0 then ret tt
  else
    emit (ev_map_mmio 0 virt phys npages) ;;;
    emit (ev_map_mmio kernel_ptable virt phys npages) ;;;
    let* l := gets process_list in
    for_list l (fun a =>
      let* p := get_proc a in
      if (p_pml4 p =? 0) || (p_pml4 p =? kernel_ptable) then ret tt
      else emit (ev_map_mmio (p_pml4 p) virt phys npages)).

(** ** Processes *)

Definition process_is_kernel_owned (p : pcb) : bool :=
  (p_pid p <=? 0) || (p_vas p =? kernel_vas) || negb (owns_vas p).

Fixpoint remove_first (a : Z) (l : list Z) : list Z :=
  match l with [] => [] | x :: l => if x =? a then l else x :: remove_first a l end.
Definition process_unlink_locked (a : Z) : M sched unit :=
  modify (fun s => set_process_list (remove_first a (process_list s)) s).
Definition process_link_locked (a : Z) : M sched unit :=
  modify (fun s => set_process_list (a :: process_list s) s).

Inductive process_exit_action := PROCESS_EXIT_NONE | PROCESS_EXIT_ZOMBIE | PROCESS_EXIT_REAP.

Definition process_add_thread (a t : Z) : M sched bool :=
  let* p := get_proc a in
  if dying p then ret false
  else
    upd_proc a (set_p_threads (t :: p_threads p) (u32 (thread_count p + 1))) ;;;
    ret true.

Definition process_remove_thread (t status : Z) : M sched process_exit_action :=
  let* x := get_thread t in
  let a := t_process x in
  if a =? 0 then ret PROCESS_EXIT_NONE
  else
    let* p := get_proc a in
    if negb (bool_decide (t ∈ p_threads p)) then ret PROCESS_EXIT_NONE
    else
      let old := thread_count p in
      upd_proc a (set_p_threads (remove_first t (p_threads p)) (u32 (old - 1))) ;;;
      let left := if old =? 0 then 0 else old - 1 in
      if (left =? 0) && negb (p_pid p =? 0) then
        upd_proc a (fun p => set_dying true (set_p_exit_status status p)) ;;;
        if 0 <? p_ppid p then upd_proc a (set_zombie true) ;;; ret PROCESS_EXIT_ZOMBIE
        else ret PROCESS_EXIT_REAP
      else ret PROCESS_EXIT_NONE.

Definition process_reparent_children (old_parent new_parent : Z) : M sched unit :=
  if old_parent <=? 0 then ret tt
  else
    let* l := gets process_list in
    for_list l (fun a =>
      let* child := get_proc a in
      when (p_ppid child =? old_parent) (upd_proc a (set_p_ppid new_parent))).

(** *** Signals a process gets *)

Definition SCHED_SIGNAL_BIT (sig : Z) : Z := Z.shiftl 1 (sig - 1).
Definition SCHED_SIGKILL : Z := 9.
Definition SCHED_SIGCHLD : Z := 17.
Definition SCHED_SIGSTOP : Z := 19.
Definition SCHED_SIGABRT : Z := 6.
Definition SCHED_SIG_DFL : Z := 0.
Definition SCHED_SIG_IGN : Z := 1.
Definition SCHED_UNBLOCKABLE_MASK : Z := Z.lor (SCHED_SIGNAL_BIT SCHED_SIGKILL) (SCHED_SIGNAL_BIT SCHED_SIGSTOP).

Definition signal_mask_valid (mask : Z) : Z := clr (u64 mask) SCHED_UNBLOCKABLE_MASK.
Definition signal_valid (signal : Z) : bool := (0 <? signal) && (signal <=? SCHED_NSIG).
Definition signal_default_ignored (signal : Z) : bool := (signal =? SCHED_SIGCHLD) || (signal =? 18).

Definition add_pending (signal : Z) (p : pcb) : pcb :=
  set_pending_signals (Z.lor (pending_signals p) (SCHED_SIGNAL_BIT signal)) p.
(** A wait queue is its counter. *)
Definition sched_waitq_init : Z := 1.
Definition sched_waitq_prepare (q : Z) : Z := q.
Definition sched_waitq_wake_all (q : Z) : Z := u32 (q + 1).
(** A change a waiting parent has to see. *)
Definition note_child (signal : Z) (p : pcb) : pcb :=
  set_child_waitq (sched_waitq_wake_all (child_waitq p)) (set_child_event (u32 (child_event p + 1)) (add_pending signal p)).

Fixpoint notify_loop (l : list Z) (parent_pid signal : Z) : M sched unit :=
  match l with
  | [] => ret tt
  | a :: l =>
      let* p := get_proc a in
      if negb (p_pid p =? parent_pid) || process_is_kernel_owned p then notify_loop l parent_pid signal
      else upd_proc a (note_child signal)
  end.
Definition process_notify_parent_signal (parent_pid signal : Z) : M sched unit :=
  if (parent_pid <=? 0) || negb (signal_valid signal) then ret tt
  else let* l := gets process_list in notify_loop l parent_pid signal.

Definition process_kill_status (signal : Z) : Z := 128 + signal.
Definition process_terminate_by_signal_locked (a signal : Z) : M sched unit :=
  if a =? 0 then ret tt
  else
    let* p := get_proc a in
    if process_is_kernel_owned p then ret tt
    else upd_proc a (fun p => set_dying true (set_p_exit_status (process_kill_status signal) p)).

(** ** Finishing a thread *)

Definition thread_queue_reap (c : nat) (t : Z) : M sched unit :=
  upd_cpu c (fun k => set_reap_list (t :: reap_list k) k).

Definition thread_finish_locked (c : nat) (t frame status : Z) : M sched unit :=
  if t =? 0 then ret tt
  else
    let* x := get_thread t in
    if bool_decide (t_state x = TCB_ZOMBIE) then ret tt
    else if is_idle x then kpanic
    else
      when (negb (frame =? 0)) (upd_thread t (set_t_rsp frame)) ;;;
      upd_thread t (fun x => set_t_state TCB_ZOMBIE (set_t_exit_status status x)) ;;;
      let a := t_process x in
      let* pp := if a =? 0 then ret (- 1, 0)
                 else let* p := get_proc a in ret (p_pid p, p_ppid p) in
      let new_parent := if 1 <? pp.1 then 1 else 0 in
      let* action := process_remove_thread t status in
      let exited := match action with PROCESS_EXIT_NONE => false | _ => true end in
      when exited (process_reparent_children pp.1 new_parent) ;;;
      (if exited && negb (a =? 0) then
         let* p := get_proc a in
         when (0 <=? controlling_tty p) (emit (ev_reset_tty (controlling_tty p)))
       else ret tt) ;;;
      match action with PROCESS_EXIT_ZOMBIE => process_notify_parent_signal pp.2 SCHED_SIGCHLD | _ => ret tt end ;;;
      upd_thread t (set_reap_process match action with PROCESS_EXIT_REAP => true | _ => false end) ;;;
      upd_cpu c (fun k => set_sched_load (u32 (sched_load k - 1)) k) ;;;
      thread_queue_reap c t.

Definition thread_finish_current_locked (c : nat) (frame status : Z) : M sched unit :=
  let* k := get_cpu c in thread_finish_locked c (current_thread k) frame status.

(** ** Choosing the next thread *)

(** [vas_switch] loads the table of the address space. *)
Definition switch_to_thread (c : nat) (next : Z) : M sched unit :=
  upd_thread next (set_t_state TCB_RUNNING) ;;;
  upd_cpu c (set_current_thread next) ;;;
  let* x := get_thread next in
  when (negb (kstack_top x =? 0))
    (modify (fun s => set_hw (mkHw (kstack_top x) (hw_fs_base (hw s)) (hw_cr3 (hw s))) s)) ;;;
  modify (fun s => set_hw (mkHw (tss_rsp0 (hw s)) (t_fs_base x) (hw_cr3 (hw s))) s) ;;;
  if t_process x =? 0 then ret tt
  else
    let* p := get_proc (t_process x) in
    let* cr3 := gets (fun s => hw_cr3 (hw s)) in
    when (negb (p_vas p =? 0) && negb (p_pml4 p =? cr3))
      (modify (fun s => set_hw (mkHw (tss_rsp0 (hw s)) (hw_fs_base (hw s)) (env_pml4 (p_vas p))) s)).

Definition thread_dying (x : tcb) : M sched bool :=
  if t_process x =? 0 then ret false else let* p := get_proc (t_process x) in ret (dying p).
Definition thread_exit_code (x : tcb) : M sched Z := let* p := get_proc (t_process x) in ret (p_exit_status p).

(** The loop over the run queue; the thread to run, 0 when the queue is empty. *)
Fixpoint pick_next (fuel : nat) (c : nat) : M sched Z :=
  match fuel with
  | O => diverge
  | S f =>
      let* next := runq_pop_locked c in
      if next =? 0 then ret 0
      else
        let* x := get_thread next in
        if negb (bool_decide (t_state x = TCB_READY)) then pick_next f c
        else
          let* d := thread_dying x in
          if d then
            let* st := thread_exit_code x in
            thread_finish_locked c next 0 st ;;;
            pick_next f c
          else ret next
  end.

(** A run queue holds a thread once, so it is not longer than the table of threads. *)
Definition runq_bound (s : sched) : nat := S (size (threads s)).

(** The frame to return to. *)
Definition schedule_locked (c : nat) (frame : Z) (enqueue_current : bool) : M sched Z :=
  let* k := get_cpu c in
  let prev := current_thread k in
  (if prev =? 0 then ret tt
   else
     let* x := get_thread prev in
     when (bool_decide (t_state x = TCB_RUNNING)) (upd_thread prev (set_t_rsp frame)) ;;;
     (if negb (is_idle x) && bool_decide (t_state x = TCB_RUNNING) then
        let* d := thread_dying x in
        if d then let* st := thread_exit_code x in thread_finish_locked c prev frame st else ret tt
      else ret tt) ;;;
     let* x := get_thread prev in
     when (enqueue_current && negb (is_idle x) && bool_decide (t_state x = TCB_RUNNING))
       (upd_thread prev (set_t_state TCB_READY) ;;; runq_push_locked c prev)) ;;;
  let* n := gets runq_bound in
  let* next := pick_next n c in
  let next := if next =? 0 then idle_thread k else next in
  if next =? 0 then
    (if prev =? 0 then ret tt
     else
       let* x := get_thread prev in
       when (bool_decide (t_state x = TCB_READY)) (upd_thread prev (set_t_state TCB_RUNNING))) ;;;
    ret frame
  else
    let* x := get_thread next in
    if (next =? prev) && bool_decide (t_state x = TCB_RUNNING) then ret frame
    else
      switch_to_thread c next ;;;
      let* x := get_thread next in
      ret (t_rsp x).

(** ** Making processes *)

Definition zero_sigaction : sigaction := mkSigaction 0 0 0 0.
(** The descriptors 0, 1 and 2: /dev/stdin, /dev/null, /dev/stdout, /dev/stderr. *)
Definition dev_stdin : list Z := [47; 100; 101; 118; 47; 115; 116; 100; 105; 110].
Definition dev_null : list Z := [47; 100; 101; 118; 47; 110; 117; 108; 108].
Definition dev_stdout : list Z := [47; 100; 101; 118; 47; 115; 116; 100; 111; 117; 116].
Definition dev_stderr : list Z := [47; 100; 101; 118; 47; 115; 116; 100; 101; 114; 114].

(** The result of [vfs_open]: an error, or a file. *)
Definition vfs_open (path : list Z) : M sched (Z * Z) :=
  let* r := gets (fun s => env_open (world s) path) in
  ret (if r <=? 0 then (r, 0) else (0, r)).
Definition set_file (a : Z) (fd : nat) (file : Z) : M sched unit :=
  upd_proc a (fun p => set_files (<[fd := file]> (files p)) p).
Definition close_fd (a : Z) (fd : nat) : M sched unit :=
  let* p := get_proc a in
  emit (ev_close (default 0 (files p !! fd))) ;;;
  set_file a fd 0.

Definition process_setup_fds (a : Z) : M sched unit :=
  let* r := vfs_open dev_stdin in
  let* r := if negb (r.1 =? 0) then vfs_open dev_null else ret r in
  if negb (r.1 =? 0) then upd_proc a (set_dying true)
  else
    set_file a 0 r.2 ;;;
    let* r := vfs_open dev_stdout in
    if negb (r.1 =? 0) then close_fd a 0 ;;; upd_proc a (set_dying true)
    else
      set_file a 1 r.2 ;;;
      let* r := vfs_open dev_stderr in
      if negb (r.1 =? 0) then close_fd a 0 ;;; close_fd a 1 ;;; upd_proc a (set_dying true)
      else set_file a 2 r.2.

Definition new_pcb (pid : Z) (name : list Z) (vas : Z) : pcb :=
  let i := mkIds 0 0 0 0 0 0 in
  mkPcb pid 0 (name_set 32 name) 0 vas false false false 0 [] 0 (process_refresh_cred i) i 18 pid pid (- 1) str_slash
    (replicate SCHED_FILE_MAX 0) (replicate SCHED_FILE_MAX 0) (replicate 65 zero_sigaction) 0
    (mkJob false 0 false false) 0 sched_waitq_init.

(** [vas = 0] asks for a new address space. *)
Definition process_alloc_id (name : option (list Z)) (vas pid : Z) : M sched Z :=
  let* a := kzalloc in
  if a =? 0 then ret 0
  else
    modify (set_last_process_pid pid) ;;;
    let* v := if vas =? 0 then gets (fun s => env_vas_create (world s)) else ret vas in
    if v =? 0 then ret 0
    else
      modify (fun s => set_procs (<[a := new_pcb pid (default str_process name) v]> (procs s)) s) ;;;
      process_setup_fds a ;;;
      upd_proc a (set_vas (env_pml4 v) v (negb (v =? kernel_vas))) ;;;
      ret a.
Definition process_alloc (name : option (list Z)) (vas : Z) : M sched Z :=
  let* pid := id_alloc PID in process_alloc_id name vas pid.

(** The end both ways of removing a process share. *)
Definition process_free (a : Z) : M sched unit :=
  process_unlink_locked a ;;;
  let* p := get_proc a in
  when (0 <=? controlling_tty p) (emit (ev_reset_tty (controlling_tty p))) ;;;
  when (owns_vas p && negb (p_vas p =? 0)) (emit (ev_vas_destroy (p_vas p))) ;;;
  for_list (filter (fun f => f <> 0) (files p)) (fun f => emit (ev_close f)) ;;;
  id_free PID (p_pid p) ;;;
  kfree_proc a.
Definition process_destroy (a : Z) : M sched unit :=
  if a =? 0 then ret tt
  else let* p := get_proc a in if p_pid p =? 0 then ret tt else process_free a.
Definition sched_process_discard (a : Z) : M sched unit := if a =? 0 then ret tt else process_free a.

(** ** Making threads *)

Definition set_word (i : nat) (v : Z) (f : list Z) : list Z := <[i := v]> f.
Definition kernel_frame (t rip top : Z) : list Z :=
  set_word F_RDI t (set_word F_RIP rip (set_word F_CS KERNEL_CS (set_word F_RFLAGS (Z.lor RFLAGS_RESERVED RFLAGS_IF)
    (set_word F_RSP top (set_word F_SS KERNEL_DS (set_word F_DS KERNEL_DS (set_word F_ES KERNEL_DS
      (replicate frame_words 0)))))))).
Definition user_frame (rip rsp : Z) : list Z :=
  set_word F_RIP rip (set_word F_CS USER_CS (set_word F_RFLAGS (Z.lor RFLAGS_RESERVED RFLAGS_IF)
    (set_word F_RSP rsp (set_word F_SS USER_DS (set_word F_DS USER_DS (set_word F_ES USER_DS
      (replicate frame_words 0))))))).
Definition put_frame (a : Z) (f : list Z) : M sched unit := modify (fun s => set_frames (<[a := f]> (frames s)) s).
Definition get_frame (a : Z) : M sched (list Z) := fun s =>
  match frames s !! a with Some f => Ret f s | None => Fault end.

Definition frame_init_kernel (t rip : Z) : M sched unit :=
  let* x := get_thread t in
  let f := kstack_top x - sizeof_interrupt_frame in
  put_frame f (kernel_frame t rip (kstack_top x)) ;;;
  upd_thread t (set_kernel_frame TCB_MODE_KERNEL f).
Definition frame_init_user (t rip user_rsp : Z) : M sched unit :=
  let* x := get_thread t in
  let f := kstack_top x - sizeof_interrupt_frame in
  put_frame f (user_frame rip user_rsp) ;;;
  upd_thread t (set_user TCB_MODE_USER user_rsp f).

Definition new_tcb (tid : Z) (name : list Z) (entry arg process : Z) (idle : bool) : tcb :=
  mkTcb tid (name_set 32 name) TCB_READY TCB_MODE_KERNEL idle false false 0 0 0 0 0 0 entry arg 0 process None 0.

Definition thread_alloc (a : Z) (name : option (list Z)) (entry arg : Z) (idle : bool) : M sched Z :=
  let* t := kzalloc in
  if t =? 0 then ret 0
  else
    let* tid := if idle then ret 0 else id_alloc TID in
    modify (fun s => set_threads (<[t := new_tcb tid (default str_thread name) entry arg a idle]> (threads s)) s) ;;;
    let* top := kstack_alloc SCHED_KERNEL_STACK_SIZE in
    upd_thread t (set_kstack (top - SCHED_KERNEL_STACK_SIZE) top) ;;;
    frame_init_kernel t thread_bootstrap ;;;
    let* ok := process_add_thread a t in
    if ok then ret t
    else
      kstack_free (top - SCHED_KERNEL_STACK_SIZE) top ;;;
      when (negb idle) (id_free TID tid) ;;;
      kfree_thread t ;;;
      ret 0.

(** ** Start *)

Definition sched_cpu_init (c : nat) : M sched unit :=
  upd_cpu c (fun _ => mkCpu true 0 0 0 0 [] 0).

(** [for (i = 0; i < cpu_count; i++)]: the idle threads. *)
Fixpoint idle_loop (n : nat) (c me : nat) (idle_process : Z) : M sched unit :=
  match n with
  | O => ret tt
  | S n =>
      let* t := thread_alloc idle_process (Some [105; 100; 108; 101]) idle_entry (Z.of_nat c) true in
      if t =? 0 then kpanic
      else
        upd_thread t (set_t_cpu (Some c)) ;;;
        upd_cpu c (set_idle_thread t) ;;;
        let* k := get_cpu c in
        when (negb (Nat.eqb c me) && (current_thread k =? 0)) (upd_cpu c (set_current_thread t)) ;;;
        idle_loop n (S c) me idle_process
  end.

Definition bootstrap_tcb (tid process : Z) (c : nat) : tcb :=
  mkTcb tid [98; 111; 111; 116; 115; 116; 114; 97; 112] TCB_RUNNING TCB_MODE_KERNEL false false false 0 0 0 0 0
    boot_kstack_top 0 0 0 process (Some c) 0.

Definition sched_init : M sched unit :=
  let* ready := gets sched_ready in
  if ready : bool then ret tt
  else
    let* c := gets this_cpu in
    let* k := get_cpu c in
    when (negb (c_sched_ready k)) (sched_cpu_init c) ;;;
    let* idle := process_alloc_id (Some [105; 100; 108; 101]) kernel_vas 0 in
    if idle =? 0 then kpanic
    else
      process_link_locked idle ;;;
      let* kernel := process_alloc (Some [108; 121; 114; 45; 107; 101; 114; 110; 101; 108]) kernel_vas in
      if kernel =? 0 then kpanic
      else
        process_link_locked kernel ;;;
        let* t := kzalloc in
        if t =? 0 then kpanic
        else
          let* tid := id_alloc TID in
          modify (fun s => set_threads (<[t := bootstrap_tcb tid kernel c]> (threads s)) s) ;;;
          upd_cpu c (set_current_thread t) ;;;
          upd_cpu c (fun k => set_sched_load (u32 (sched_load k + 1)) k) ;;;
          process_add_thread kernel t ;;;
          let* n := gets (fun s => length (cpus s)) in
          idle_loop n 0 c idle ;;;
          modify (set_sched_ready true).

Definition sched_process_create (name : option (list Z)) (vas : Z) : M sched Z :=
  let* ready := gets sched_ready in
  if negb ready then ret 0
  else
    let* a := process_alloc name vas in
    if a =? 0 then ret 0 else process_link_locked a ;;; ret a.

(** The checks the four creators share. *)
Definition may_create (a : Z) : M sched bool :=
  let* ready := gets sched_ready in
  if negb ready || (a =? 0) then ret false
  else let* p := get_proc a in ret (negb (dying p)).
Definition enqueue_new (c : nat) (t : Z) : M sched unit :=
  runq_push_locked c t ;;;
  upd_cpu c (fun k => set_sched_load (u32 (sched_load k + 1)) k).

Definition sched_create_thread_on_cpu (a : Z) (name : option (list Z)) (entry arg : Z) (c : nat) : M sched Z :=
  let* ok := may_create a in
  if negb ok || (entry =? 0) then ret 0
  else
    let* t := thread_alloc a name entry arg false in
    if t =? 0 then ret 0 else enqueue_new c t ;;; ret t.
Definition sched_create_thread (a : Z) (name : option (list Z)) (entry arg : Z) : M sched Z :=
  let* ok := may_create a in
  if negb ok || (entry =? 0) then ret 0
  else let* c := gets least_loaded_cpu in sched_create_thread_on_cpu a name entry arg c.

Definition sched_create_user_thread (a : Z) (name : option (list Z)) (rip user_rsp : Z) : M sched Z :=
  let* ok := may_create a in
  if negb ok || (rip =? 0) || (user_rsp =? 0) then ret 0
  else
    let* c := gets least_loaded_cpu in
    let* t := thread_alloc a name 0 0 false in
    if t =? 0 then ret 0 else frame_init_user t rip user_rsp ;;; enqueue_new c t ;;; ret t.

Definition sched_current : M sched Z :=
  let* c := gets this_cpu in let* k := get_cpu c in ret (current_thread k).

Definition sched_fork_thread (a : Z) (name : option (list Z)) (parent_frame : Z) : M sched Z :=
  let* ok := may_create a in
  if negb ok || (parent_frame =? 0) then ret 0
  else
    let* c := gets least_loaded_cpu in
    let* t := thread_alloc a name 0 0 false in
    if t =? 0 then ret 0
    else
      let* x := get_thread t in
      let* p := get_proc a in
      let* f := get_frame parent_frame in
      let child := kstack_top x - sizeof_interrupt_frame in
      put_frame child (set_word F_CR3 (p_pml4 p) (set_word F_RAX 0 f)) ;;;
      let* cur := sched_current in
      let* fs := if cur =? 0 then ret 0 else let* y := get_thread cur in ret (t_fs_base y) in
      upd_thread t (fun x => set_t_fs_base fs (set_user TCB_MODE_USER (nth F_RSP f 0) child x)) ;;;
      enqueue_new c t ;;;
      ret t.

Definition sched_prepare_user (t rip user_rsp : Z) : M sched unit :=
  if (t =? 0) || (rip =? 0) || (user_rsp =? 0) then ret tt else frame_init_user t rip user_rsp.

(** Up to [sched_switch_to_user]: mode and kernel stack. *)
Definition sched_enter_user : M sched unit :=
  let* t := sched_current in
  if t =? 0 then kpanic
  else
    let* x := get_thread t in
    if t_process x =? 0 then kpanic
    else
      let* p := get_proc (t_process x) in
      if p_vas p =? 0 then kpanic
      else
        upd_thread t (fun x => set_kernel_frame TCB_MODE_USER (t_rsp x) x) ;;;
        modify (fun s => set_hw (mkHw (kstack_top x) (hw_fs_base (hw s)) (p_pml4 p)) s).

(** ** Reaping *)

Definition thread_reap (t : Z) : M sched unit :=
  let* x := get_thread t in
  kstack_free (kstack_base x) (kstack_top x) ;;;
  when (0 <? t_tid x) (id_free TID (t_tid x)) ;;;
  kfree_thread t ;;;
  when (reap_process x) (process_destroy (t_process x)).

(** The first thread of the list that is not the current one. *)
Fixpoint take_reap (l : list Z) (current : Z) : option (Z * list Z) :=
  match l with
  | [] => None
  | t :: l =>
      if negb (t =? current) then Some (t, l)
      else match take_reap l current with Some (x, l) => Some (x, t :: l) | None => None end
  end.
Fixpoint reap_loop (fuel : nat) (c : nat) (current : Z) : M sched unit :=
  match fuel with
  | O => diverge
  | S f =>
      let* k := get_cpu c in
      match take_reap (reap_list k) current with
      | None => ret tt
      | Some (t, l) =>
          upd_cpu c (set_reap_list l) ;;;
          modify (fun s => set_reap_inflight (u32 (reap_inflight s + 1)) s) ;;;
          thread_reap t ;;;
          modify (fun s => set_reap_inflight (u32 (reap_inflight s - 1)) s) ;;;
          reap_loop f c current
      end
  end.
Definition sched_reap_current_cpu : M sched unit :=
  let* c := gets this_cpu in
  let* k := get_cpu c in
  reap_loop (S (length (reap_list k))) c (current_thread k).

Definition sched_reap_pending (s : sched) : bool :=
  negb (reap_inflight s =? 0) || existsb (fun k => match reap_list k with [] => false | _ => true end) (cpus s).

(** ** Load *)

Fixpoint count_threads (l : list Z) (f : tcb -> bool) : M sched Z :=
  match l with
  | [] => ret 0
  | t :: l =>
      let* x := get_thread t in
      let* n := count_threads l f in
      ret (if f x then n + 1 else n)
  end.
Fixpoint count_processes (l : list Z) (pf : pcb -> bool) (f : tcb -> bool) : M sched Z :=
  match l with
  | [] => ret 0
  | a :: l =>
      let* p := get_proc a in
      let* m := if pf p then count_threads (p_threads p) f else ret 0 in
      let* n := count_processes l pf f in
      ret (m + n)
  end.
Definition runnable (x : tcb) : bool :=
  negb (is_idle x) && negb (sleep_hint x) &&
  match t_state x with TCB_READY | TCB_RUNNING => true | _ => false end.
Definition sched_runnable_threads : M sched Z :=
  let* l := gets process_list in count_processes l (fun _ => true) runnable.
(** [*runnable_out] and [*total_out] *)
Definition sched_loadavg_task_counts : M sched (Z * Z) :=
  let* l := gets process_list in
  let live p := negb (process_is_kernel_owned p || zombie p) in
  let* r := count_processes l live runnable in
  let* n := count_processes l live (fun x => negb (is_idle x) && negb (bool_decide (t_state x = TCB_ZOMBIE))) in
  ret (r, n).

(** One second of one average. *)
Definition loadavg_step (e runnable fp : Z) : Z :=
  u64 (u64 (fp * e) / SCHED_LOADAVG_SCALE + u64 (runnable * (SCHED_LOADAVG_SCALE - e))).
Fixpoint loadavg_loop (n : nat) (runnable : Z) (fp : list Z) : list Z :=
  match n with
  | O => fp
  | S n =>
      loadavg_loop n runnable
        (zip_with (fun e f => loadavg_step e runnable f)
          [SCHED_LOADAVG_EXP_1; SCHED_LOADAVG_EXP_5; SCHED_LOADAVG_EXP_15] fp)
  end.
Definition loadavg_tick : M sched unit :=
  let* s := gets (fun s => s) in
  let now_sec := now_ns s / NSEC_PER_SEC in
  let last := if loadavg_last_sec s =? 0 then now_sec else loadavg_last_sec s in
  let elapsed := u64 (now_sec - last) in
  let elapsed := if 3600 <? elapsed then 3600 else elapsed in
  if negb (elapsed =? 0) then
    let* r := sched_loadavg_task_counts in
    modify (set_loadavg (loadavg_loop (Z.to_nat elapsed) r.1 (loadavg_fp s)) now_sec)
  else modify (set_loadavg (loadavg_fp s) last).

(** ** The timer, and exit *)

(** [busy]: another processor holds the lock of the run queue. *)
Definition sched_tick (busy : bool) (frame : Z) : M sched Z :=
  let* ready := gets sched_ready in
  if negb ready || (frame =? 0) then ret frame
  else
    let* c := gets this_cpu in
    let* k := get_cpu c in
    if negb (c_sched_ready k) then ret frame
    else
      when (Nat.eqb c 0) loadavg_tick ;;;
      sched_reap_current_cpu ;;;
      if busy then ret frame else schedule_locked c frame true.

Definition sched_syscall_exit (frame status : Z) : M sched Z :=
  let* ready := gets sched_ready in
  if negb ready || (frame =? 0) then ret frame
  else
    let* c := gets this_cpu in
    thread_finish_current_locked c frame status ;;;
    schedule_locked c frame false.

(** Up to the endless [hlt]. *)
Definition sched_thread_exit (status : Z) : M sched unit :=
  let* c := gets this_cpu in thread_finish_current_locked c 0 status.
Definition sched_exit : M sched unit := sched_thread_exit 0.

Definition sched_sleep_hint (b : bool) : M sched unit :=
  let* t := sched_current in
  if t =? 0 then ret tt
  else let* x := get_thread t in when (negb (is_idle x)) (upd_thread t (set_sleep_hint b)).
Definition sched_sleep_hint_begin : M sched unit := sched_sleep_hint true.
Definition sched_sleep_hint_end : M sched unit := sched_sleep_hint false.

Definition sched_last_pid (s : sched) : Z := last_process_pid s.
Definition sched_loadavg_snapshot (s : sched) : list Z := loadavg_fp s.

(** What a processor does when it comes up; the wait for [sched_init] on another processor
    does not end without it. *)
Definition sched_idle_loop : M sched Z :=
  let* ready := gets sched_ready in
  if negb ready then diverge
  else
    let* c := gets this_cpu in
    let* k := get_cpu c in
    if idle_thread k =? 0 then kpanic
    else
      switch_to_thread c (idle_thread k) ;;;
      let* x := get_thread (idle_thread k) in
      ret (t_rsp x).

(** ** Working directories *)

(** [cwd] is the text in the array. *)
Definition sched_process_cwd (p : pcb) : list Z := match cwd p with [] => str_slash | c => c end.
Definition sched_process_setcwd (a : Z) (path : option (list Z)) : M sched Z :=
  match path with
  | Some (47 :: r) =>
      if a =? 0 then ret (- EINVAL)
      else if SCHED_CWD_MAX <=? Z.of_nat (length (47 :: r)) then ret (- ENAMETOOLONG)
      else upd_proc a (set_cwd (47 :: r)) ;;; ret 0
  | _ => ret (- EINVAL)
  end.
Definition sched_process_copy_cwd (dst src : Z) : M sched unit :=
  if (dst =? 0) || (src =? 0) then ret tt
  else let* q := get_proc src in upd_proc dst (set_cwd (sched_process_cwd q)).

(** ** Looking at processes *)

Fixpoint find_proc (l : list Z) (test : pcb -> bool) : M sched (option (Z * pcb)) :=
  match l with
  | [] => ret None
  | a :: l => let* p := get_proc a in if test p then ret (Some (a, p)) else find_proc l test
  end.
Definition find_pid (pid : Z) : M sched (option (Z * pcb)) :=
  let* l := gets process_list in find_proc l (fun p => p_pid p =? pid).

Record process_info := mkInfo {
  i_pid : Z; i_ppid : Z; i_name : list Z; i_zombie : bool; i_dying : bool; i_kernel : bool; i_supervised : bool;
  i_exit_status : Z; i_thread_count : Z; i_ruid : Z; i_euid : Z; i_rgid : Z; i_egid : Z; i_cwd : list Z }.
Definition process_copy_info_locked (p : pcb) : process_info :=
  let kernel := (p_vas p =? kernel_vas) || negb (owns_vas p) in
  mkInfo (p_pid p) (p_ppid p) (p_name p) (zombie p) (dying p) kernel (negb kernel && (0 <? p_ppid p))
    (p_exit_status p) (thread_count p) (ruid (p_ids p)) (euid (p_ids p)) (rgid (p_ids p)) (egid (p_ids p))
    (sched_process_cwd p).
Definition sched_process_get_info (pid : Z) : M sched (option process_info) :=
  let* r := find_pid pid in ret (option_map (fun x => process_copy_info_locked x.2) r).
Definition sched_process_exists (pid : Z) : M sched bool :=
  let* r := find_pid pid in ret match r with Some _ => true | None => false end.
Fixpoint nth_loop (l : list Z) (index : Z) : M sched (option process_info) :=
  match l with
  | [] => ret None
  | a :: l =>
      let* p := get_proc a in
      if p_pid p <=? 0 then nth_loop l index
      else if negb (index =? 0) then nth_loop l (index - 1)
      else ret (Some (process_copy_info_locked p))
  end.
Definition sched_process_get_nth (index : Z) : M sched (option process_info) :=
  let* l := gets process_list in nth_loop l index.
End env.
