(* ===== verification/SchedRunq.v ===== *)
(** * Run queues and the round robin of a processor

    The links of a run queue represent a list; pushing and popping are the operations of a
    first-in first-out queue.  From that: the timer of a processor implements round robin,
    with the frame of every preempted thread kept for it, and a queued thread runs after as
    many ticks as its place in the queue. *)

From stdpp Require Import base gmap list.
From Stdlib Require Import ZArith Lia.
From S2P Require Import Prelude SchedState Sched.

Local Open Scope Z_scope.

(** ** Stepping through the operations on objects *)

Section steps.
Context {B : Type} (k : unit -> M sched B) (s : sched).

Lemma bind_thread a x (g : tcb -> M sched B) :
  threads s !! a = Some x -> bind (get_thread a) g s = g x s.
Proof. intros H. apply (bind_ret (get_thread a)). unfold get_thread. by rewrite H. Qed.
Lemma bind_proc a p (g : pcb -> M sched B) :
  procs s !! a = Some p -> bind (get_proc a) g s = g p s.
Proof. intros H. apply (bind_ret (get_proc a)). unfold get_proc. by rewrite H. Qed.
Lemma bind_cpu c x (g : cpu_local -> M sched B) :
  cpus s !! c = Some x -> bind (get_cpu c) g s = g x s.
Proof. intros H. apply (bind_ret (get_cpu c)). unfold get_cpu. by rewrite H. Qed.

Lemma run_upd_thread a x f :
  threads s !! a = Some x -> upd_thread a f s = Ret tt (set_threads (<[a := f x]> (threads s)) s).
Proof. intros H. unfold upd_thread, bind, get_thread. by rewrite H. Qed.
Lemma run_upd_proc a p f :
  procs s !! a = Some p -> upd_proc a f s = Ret tt (set_procs (<[a := f p]> (procs s)) s).
Proof. intros H. unfold upd_proc, bind, get_proc. by rewrite H. Qed.
Lemma run_upd_cpu c x f :
  cpus s !! c = Some x -> upd_cpu c f s = Ret tt (set_cpus (alter f c (cpus s)) s).
Proof. intros H. unfold upd_cpu, bind, get_cpu. by rewrite H. Qed.

Lemma bind_upd_thread a x f :
  threads s !! a = Some x ->
  bind (upd_thread a f) k s = k tt (set_threads (<[a := f x]> (threads s)) s).
Proof. intros H. apply (bind_ret (upd_thread a f)), run_upd_thread, H. Qed.
Lemma bind_upd_proc a p f :
  procs s !! a = Some p ->
  bind (upd_proc a f) k s = k tt (set_procs (<[a := f p]> (procs s)) s).
Proof. intros H. apply (bind_ret (upd_proc a f)), run_upd_proc, H. Qed.
Lemma bind_upd_cpu c x f :
  cpus s !! c = Some x ->
  bind (upd_cpu c f) k s = k tt (set_cpus (alter f c (cpus s)) s).
Proof. intros H. apply (bind_ret (upd_cpu c f)), (run_upd_cpu c x), H. Qed.
Lemma bind_gets {A} (f : sched -> A) (g : A -> M sched B) : bind (gets f) g s = g (f s) s.
Proof. reflexivity. Qed.
Lemma bind_modify f : bind (modify f) k s = k tt (f s).
Proof. reflexivity. Qed.
End steps.

(** ** What the links represent *)

(** The threads of [l] are linked in this order, the last one to [e]. *)
Fixpoint seg (m : gmap Z tcb) (l : list Z) (e : Z) : Prop :=
  match l with
  | [] => True
  | t :: l => (exists x, m !! t = Some x /\ runq_next x = hd e l) /\ seg m l e
  end.

Record runq_rep (c : nat) (l : list Z) (s : sched) : Prop := {
  rep_cpu : exists k, cpus s !! c = Some k /\ runq_head k = hd 0 l /\ runq_tail k = List.last l 0;
  rep_links : seg (threads s) l 0;
  rep_nodup : NoDup l;
  rep_nonnull : 0 ∉ l }.

Lemma seg_app m l1 l2 e : seg m (l1 ++ l2) e <-> seg m l1 (hd e l2) /\ seg m l2 e.
Proof.
  induction l1 as [|t l1 IH]; cbn; [tauto|]. rewrite IH.
  destruct l1; cbn; tauto.
Qed.
Lemma seg_insert m l e t x : t ∉ l -> seg m l e -> seg (<[t := x]> m) l e.
Proof.
  induction l as [|u l IH]; cbn; [done|]. intros Ht [(y & Hy & Hn) Hl].
  apply not_elem_of_cons in Ht as [Hne Ht]. split; [|auto].
  exists y. by rewrite lookup_insert_ne.
Qed.

(** What a thread is apart from its place in a queue. *)
Definition strip (x : tcb) : tcb := set_runq_next 0 (set_t_cpu None x).
Definition same_threads (m m' : gmap Z tcb) : Prop := strip <$> m' = strip <$> m.

Lemma same_threads_insert m t x y :
  m !! t = Some x -> strip y = strip x -> same_threads m (<[t := y]> m).
Proof. intros Hx Hy. unfold same_threads. rewrite fmap_insert, Hy. apply fin_maps.insert_id. by rewrite lookup_fmap, Hx. Qed.
Lemma same_threads_trans m1 m2 m3 : same_threads m1 m2 -> same_threads m2 m3 -> same_threads m1 m3.
Proof. unfold same_threads. congruence. Qed.
Lemma same_threads_lookup m m' t x :
  same_threads m m' -> m !! t = Some x -> exists y, m' !! t = Some y /\ strip y = strip x.
Proof.
  intros H Hx. assert (E : (strip <$> m') !! t = Some (strip x)) by by rewrite H, lookup_fmap, Hx.
  rewrite lookup_fmap in E. destruct (m' !! t) as [y|]; [|done]. exists y. split; [done|].
  by apply (inj Some) in E.
Qed.

(** [same_queue_state]: only the links, and the ends of the queue of [c], have changed. *)
Definition only_links (c : nat) (s s' : sched) : Prop :=
  exists m h t, same_threads (threads s) m /\ s' = set_cpus (alter (set_runq h t) c (cpus s)) (set_threads m s).

Lemma push_spec c l t x s :
  runq_rep c l s -> t <> 0 -> t ∉ l -> threads s !! t = Some x ->
  exists s', runq_push_locked c t s = Ret tt s' /\ runq_rep c (l ++ [t]) s' /\ only_links c s s'.
Proof.
  intros [(k & Hk & Hh & Ht) Hs Hd H0] Hnz Hin Hx. unfold runq_push_locked.
  set (x' := set_t_cpu (Some c) (set_runq_next 0 x)).
  rewrite (bind_upd_thread _ s t x) by done. rewrite (bind_cpu _ c k) by done.
  assert (Hnd : NoDup (l ++ [t])) by (apply NoDup_app; set_solver by eauto using NoDup_singleton).
  assert (H0' : 0 ∉ l ++ [t]) by set_solver.
  assert (Sx : same_threads (threads s) (<[t := x']> (threads s))) by by apply (same_threads_insert _ _ x).
  rewrite Ht. destruct (decide (l = [])) as [->|Hne].
  - cbn. rewrite (run_upd_cpu _ c k) by done. eexists. split; [reflexivity|]. split.
    + constructor; [| |done|done].
      * eexists. split; [cbn; rewrite list_lookup_alter_eq, Hk; reflexivity|done].
      * cbn. split; [|done]. exists x'. by rewrite lookup_insert_eq.
    + by exists (<[t := x']> (threads s)), t, t.
  - destruct (exists_last Hne) as (l0 & u & ->). rewrite last_last.
    apply seg_app in Hs as [Hs0 Hsu]. cbn in Hsu. destruct Hsu as [(y & Hy & Hny) _].
    assert (u <> 0) as Hu0 by set_solver. assert (t <> u) as Hut by set_solver.
    assert (Hul : u ∉ l0) by (apply NoDup_app in Hd as (_ & Hd & _); intros Hi; apply (Hd u Hi); by left).
    rewrite (proj2 (Z.eqb_neq u 0)) by done.
    rewrite (bind_upd_thread _ _ u y) by (cbn; by rewrite lookup_insert_ne).
    rewrite (run_upd_cpu _ c k) by done. eexists. split; [reflexivity|]. split.
    + constructor; [| |done|done].
      * eexists. split; [cbn; rewrite list_lookup_alter_eq, Hk; reflexivity|].
        cbn. rewrite Hh, last_last. split; [by destruct l0|done].
      * cbn. rewrite <- app_assoc. apply seg_app. split.
        -- apply seg_insert; [done|]. apply seg_insert; [set_solver|]. exact Hs0.
        -- cbn. split; [exists (set_runq_next t y); by rewrite lookup_insert_eq|].
           split; [|done]. exists x'. by rewrite lookup_insert_ne, lookup_insert_eq by done.
    + exists (<[u := set_runq_next t y]> (<[t := x']> (threads s))), (runq_head k), t. split; [|done].
      eapply same_threads_trans; [exact Sx|]. apply (same_threads_insert _ _ y); [|done].
      by rewrite lookup_insert_ne.
Qed.

Lemma pop_spec c t l s :
  runq_rep c (t :: l) s ->
  exists s', runq_pop_locked c s = Ret t s' /\ runq_rep c l s' /\ only_links c s s'.
Proof.
  intros [(k & Hk & Hh & Ht) [(x & Hx & Hn) Hs] Hd H0]. cbn in Hh.
  apply NoDup_cons in Hd as [Hin Hd]. apply not_elem_of_cons in H0 as [Hz H0].
  unfold runq_pop_locked. rewrite (bind_cpu _ c k) by done. rewrite Hh.
  rewrite (proj2 (Z.eqb_neq t 0)) by done. rewrite (bind_thread _ t x) by done.
  rewrite (bind_upd_cpu _ _ c k) by done. rewrite (bind_upd_thread _ _ t x) by done.
  eexists. split; [reflexivity|]. split.
  - constructor; [| |done|done].
    + eexists. split; [cbn; rewrite list_lookup_alter_eq, Hk; reflexivity|]. cbn. split; [done|].
      rewrite Hn, Ht. destruct l as [|u l]; [done|].
      cbn [hd]. rewrite (proj2 (Z.eqb_neq u 0)) by set_solver. done.
    + cbn. by apply seg_insert.
  - eexists (<[t := set_runq_next 0 x]> (threads s)), _, _. split; [|reflexivity].
    by apply (same_threads_insert _ _ x).
Qed.
Lemma pop_empty_spec c s : runq_rep c [] s -> runq_pop_locked c s = Ret 0 s.
Proof.
  intros [(k & Hk & Hh & _) _ _ _]. unfold runq_pop_locked.
  rewrite (bind_cpu _ c k) by done. by rewrite Hh.
Qed.

(** ** Round robin *)

(** The specification: the thread that runs, and the threads that wait with the frame they
    continue from.  A tick takes the first of those that wait, after the thread that runs
    has joined them. *)
Record rr_state := mkRr { rr_current : Z; rr_waiting : list (Z * Z) }.
Definition rr_tick (frame : Z) (a : rr_state) : Z * rr_state :=
  match rr_waiting a ++ [(rr_current a, frame)] with
  | (t, f) :: q => (f, mkRr t q)
  | [] => (frame, a)
  end.
Definition rr_add (t f : Z) (a : rr_state) : rr_state := mkRr (rr_current a) (rr_waiting a ++ [(t, f)]).

(** A thread that can run: its state, its process is not being removed. *)
Definition live (pr : gmap Z pcb) (x : tcb) : Prop :=
  t_process x <> 0 -> exists p, pr !! t_process x = Some p /\ dying p = false.
Definition schedulable (st : tcb_state) (m : gmap Z tcb) (pr : gmap Z pcb) (tf : Z * Z) : Prop :=
  exists x, m !! tf.1 = Some x /\ t_state x = st /\ is_idle x = false /\ live pr x /\ t_rsp x = tf.2.

(** Every thread a listed process names exists. *)
Definition listed_ok (m : gmap Z tcb) (pr : gmap Z pcb) (l : list Z) : Prop :=
  Forall (fun a => exists p, pr !! a = Some p /\ Forall (fun t => is_Some (m !! t)) (p_threads p)) l.

(** A processor whose current thread is [cur], and the threads [w] that are ready. *)
Record rr_core (c : nat) (cur : Z) (w : list (Z * Z)) (s : sched) : Prop := {
  rr_ready : sched_ready s = true;
  rr_this : this_cpu s = c;
  rr_cpu : exists k, cpus s !! c = Some k /\ c_sched_ready k = true /\ current_thread k = cur /\ reap_list k = [];
  rr_nodup : NoDup w.*1;
  rr_nonnull : 0 ∉ w.*1;
  rr_waiters : Forall (schedulable TCB_READY (threads s) (procs s)) w;
  rr_listed : listed_ok (threads s) (procs s) (process_list s) }.

(** Processor [c] runs [rr_current a] and queues [rr_waiting a]; [new] are threads that are
    ready but not queued yet. *)
Record rr_rep (c : nat) (a : rr_state) (new : list (Z * Z)) (s : sched) : Prop := {
  rr_all : rr_core c (rr_current a) (rr_waiting a ++ new) s;
  rr_queue : runq_rep c (rr_waiting a).*1 s;
  rr_running : exists f, schedulable TCB_RUNNING (threads s) (procs s) (rr_current a, f);
  rr_apart : rr_current a <> 0 /\ rr_current a ∉ (rr_waiting a ++ new).*1 }.

Lemma strip_fields x y : strip y = strip x ->
  t_state y = t_state x /\ is_idle y = is_idle x /\ t_rsp y = t_rsp x /\ t_process y = t_process x.
Proof. intros H. repeat split; [exact (f_equal t_state H)|exact (f_equal is_idle H)|exact (f_equal t_rsp H)|exact (f_equal t_process H)]. Qed.
Lemma schedulable_same st m m' pr tf : same_threads m m' -> schedulable st m pr tf -> schedulable st m' pr tf.
Proof.
  intros H (x & Hx & R). destruct (same_threads_lookup _ _ _ _ H Hx) as (y & Hy & E).
  destruct (strip_fields _ _ E) as (E1 & E2 & E3 & E4).
  exists y. unfold live. rewrite E1, E2, E3, E4. done.
Qed.
Lemma schedulable_insert st m pr t x tf : t <> tf.1 -> schedulable st m pr tf -> schedulable st (<[t := x]> m) pr tf.
Proof. intros H (y & Hy & R). exists y. by rewrite lookup_insert_ne. Qed.
Lemma waiters_insert m pr t x q : t ∉ q.*1 ->
  Forall (schedulable TCB_READY m pr) q -> Forall (schedulable TCB_READY (<[t := x]> m) pr) q.
Proof.
  intros Ht. rewrite !Forall_forall. intros H tf Hin. apply schedulable_insert; [|auto].
  intros ->. apply Ht, list_elem_of_fmap. eauto.
Qed.
Lemma waiters_same m m' pr q : same_threads m m' ->
  Forall (schedulable TCB_READY m pr) q -> Forall (schedulable TCB_READY m' pr) q.
Proof. intros H Hq. eapply Forall_impl; [exact Hq|]. intros tf. by apply schedulable_same. Qed.
Lemma listed_same m m' pr l : (forall t, is_Some (m !! t) -> is_Some (m' !! t)) -> listed_ok m pr l -> listed_ok m' pr l.
Proof.
  intros H Hl. eapply Forall_impl; [exact Hl|]. intros a (p & Hp & Ht). exists p. split; [done|].
  eapply Forall_impl; [exact Ht|]. cbn. auto.
Qed.
Lemma same_threads_some m m' t : same_threads m m' -> is_Some (m !! t) -> is_Some (m' !! t).
Proof. intros H [x Hx]. destruct (same_threads_lookup _ _ _ _ H Hx) as (y & Hy & _). eauto. Qed.
Lemma insert_some (m : gmap Z tcb) t x u : is_Some (m !! u) -> is_Some (<[t := x]> m !! u).
Proof. intros H. rewrite lookup_insert_is_Some. destruct (decide (t = u)); auto. Qed.

(** *** The parts of a tick *)

Section tick.
Context {envi : SchedEnv}.

Lemma count_threads_total l f s :
  Forall (fun t => is_Some (threads s !! t)) l -> exists n, count_threads l f s = Ret n s.
Proof.
  induction l as [|t l IH]; [by exists 0|]. intros [[x Hx] Hl]%Forall_cons.
  destruct (IH Hl) as [n Hn]. cbn [count_threads]. rewrite (bind_thread _ t x) by done.
  rewrite (bind_ret _ _ _ _ _ Hn). by eexists.
Qed.
Lemma count_processes_total l pf f s :
  listed_ok (threads s) (procs s) l -> exists n, count_processes l pf f s = Ret n s.
Proof.
  induction l as [|a l IH]; [by exists 0|]. intros [(p & Hp & Ht) Hl]%Forall_cons.
  destruct (IH Hl) as [n Hn]. destruct (count_threads_total _ f s Ht) as [m Hm].
  cbn [count_processes]. rewrite (bind_proc _ a p) by done.
  assert (exists m', (if pf p then count_threads (p_threads p) f else ret 0) s = Ret m' s) as [m' Hm']
    by (destruct (pf p); eauto).
  rewrite (bind_ret _ _ _ _ _ Hm'), (bind_ret _ _ _ _ _ Hn). by eexists.
Qed.
Lemma loadavg_tick_total s :
  listed_ok (threads s) (procs s) (process_list s) -> exists v n, loadavg_tick s = Ret tt (set_loadavg v n s).
Proof.
  intros H. unfold loadavg_tick. rewrite bind_gets. cbv zeta.
  destruct (negb _); [|by do 2 eexists]. unfold sched_loadavg_task_counts. rewrite bind_assoc, bind_gets, bind_assoc.
  cbv zeta. destruct (count_processes_total _ (fun p => negb (process_is_kernel_owned p || zombie p)) runnable s H) as [r Hr].
  rewrite (bind_ret _ _ _ _ _ Hr), bind_assoc.
  destruct (count_processes_total _ (fun p => negb (process_is_kernel_owned p || zombie p))
    (fun x => negb (is_idle x) && negb (bool_decide (t_state x = TCB_ZOMBIE))) s H) as [n Hn].
  rewrite (bind_ret _ _ _ _ _ Hn). by do 2 eexists.
Qed.
Lemma reap_nothing c k s :
  this_cpu s = c -> cpus s !! c = Some k -> reap_list k = [] -> sched_reap_current_cpu s = Ret tt s.
Proof.
  intros Hc Hk Hr. unfold sched_reap_current_cpu. rewrite bind_gets, Hc, (bind_cpu _ c k) by done.
  rewrite Hr. cbn [length reap_loop]. rewrite (bind_cpu _ c k) by done. by rewrite Hr.
Qed.

Lemma thread_alive x s : live (procs s) x -> thread_dying x s = Ret false s.
Proof.
  intros H. unfold thread_dying. destruct (t_process x =? 0) eqn:E; [done|].
  apply Z.eqb_neq in E. destruct (H E) as (p & Hp & Hd). rewrite (bind_proc _ _ p) by done. by rewrite Hd.
Qed.
Lemma switch_spec c t x s k :
  threads s !! t = Some x -> live (procs s) x -> cpus s !! c = Some k ->
  exists h, switch_to_thread c t s =
    Ret tt (set_hw h (set_cpus (alter (set_current_thread t) c (cpus s))
      (set_threads (<[t := set_t_state TCB_RUNNING x]> (threads s)) s))).
Proof.
  intros Hx Hl Hk. unfold switch_to_thread. rewrite (bind_upd_thread _ _ t x), (bind_upd_cpu _ _ c k) by done.
  rewrite (bind_thread _ t (set_t_state TCB_RUNNING x)) by (cbn; by rewrite lookup_insert_eq).
  set (s1 := set_cpus _ _). change (kstack_top (set_t_state TCB_RUNNING x)) with (kstack_top x).
  assert (exists h, when (negb (kstack_top x =? 0))
    (modify (fun s => set_hw (mkHw (kstack_top x) (hw_fs_base (hw s)) (hw_cr3 (hw s))) s)) s1 = Ret tt (set_hw h s1)) as [h1 H1].
  { destruct (negb _); cbn; [by eexists|]. exists (hw s1). by destruct s. }
  rewrite (bind_ret _ _ _ _ _ H1), bind_modify.
  change (t_process (set_t_state TCB_RUNNING x)) with (t_process x).
  destruct (t_process x =? 0) eqn:E; [by eexists|]. apply Z.eqb_neq in E.
  destruct (Hl E) as (p & Hp & _). rewrite (bind_proc _ _ p) by done. rewrite bind_gets.
  destruct (_ && _); by eexists.
Qed.

(** The first thread of the queue is taken when it can run. *)
Lemma pick_next_spec fuel c t f q s :
  runq_rep c (t :: q) s -> schedulable TCB_READY (threads s) (procs s) (t, f) ->
  exists s', pick_next (S fuel) c s = Ret t s' /\ runq_rep c q s' /\ only_links c s s'.
Proof.
  intros Hq Hr. destruct (pop_spec c t q s Hq) as (s' & E & Hq' & HL). exists s'. split; [|done].
  destruct HL as (m & h & tl & Hm & ->). cbn [pick_next]. rewrite (bind_ret _ _ _ _ _ E).
  rewrite (proj2 (Z.eqb_neq t 0)) by (destruct Hq as [_ _ _ H0]; set_solver).
  destruct (schedulable_same _ _ _ _ _ Hm Hr) as (x & Hx & Hst & _ & Hl & _). cbn in Hx.
  rewrite (bind_thread _ t x) by done. rewrite bool_decide_eq_true_2 by done. cbn [negb].
  by rewrite (bind_ret _ _ _ _ _ (thread_alive x (set_cpus _ (set_threads m s)) Hl)).
Qed.

Lemma core_links c cur w s s' : only_links c s s' -> rr_core c cur w s -> rr_core c cur w s'.
Proof.
  intros (m & h & t & Hm & ->) [? ? (k & Hk & Hkr & Hcur & Hre) ? ? Hw Hl]. split; try done.
  - exists (set_runq h t k). cbn. by rewrite list_lookup_alter_eq, Hk.
  - by apply (waiters_same (threads s)).
  - eapply listed_same; [|exact Hl]. intros u. by apply same_threads_some.
Qed.
Lemma queue_other c l t x s : t ∉ l -> runq_rep c l s -> runq_rep c l (set_threads (<[t := x]> (threads s)) s).
Proof. intros Ht [? ? ? ?]. split; try done. by apply seg_insert. Qed.

(** The thread that runs is preempted: it waits behind the others with its frame. *)
Lemma preempt_spec c cur q new x s frame :
  rr_rep c (mkRr cur q) new s -> threads s !! cur = Some x -> t_state x = TCB_RUNNING ->
  is_idle x = false -> live (procs s) x ->
  let s2 := set_threads (<[cur := set_t_state TCB_READY (set_t_rsp frame x)]> (threads s)) s in
  exists s', runq_push_locked c cur s2 = Ret tt s' /\ runq_rep c (q ++ [(cur, frame)]).*1 s' /\
    rr_core c cur ((q ++ [(cur, frame)]) ++ new) s'.
Proof.
  intros [Hc Hq _ [Hz Hn]] Hx Hst Hid Hlv s2. cbn [rr_current rr_waiting] in *. rewrite fmap_app in Hn.
  destruct (push_spec c q.*1 cur (set_t_state TCB_READY (set_t_rsp frame x)) s2) as (s' & E & Hq' & HL).
  { apply queue_other; [set_solver|done]. }
  { done. }
  { set_solver. }
  { cbn. by rewrite lookup_insert_eq. }
  exists s'. split; [exact E|]. rewrite fmap_app. split; [exact Hq'|].
  apply (core_links _ _ _ _ _ HL). destruct Hc as [? ? ? Hnd Hnz Hw Hl]. split; try done.
  - rewrite !fmap_app in *. cbn. rewrite NoDup_app in Hnd |- *. rewrite NoDup_app.
    set_solver by eauto using NoDup_singleton.
  - rewrite !fmap_app in *. set_solver.
  - rewrite <- app_assoc, Forall_app, Forall_app in *. destruct Hw as [Hw1 Hw2].
    split_and!; [apply waiters_insert; [set_solver|done]| |apply waiters_insert; [set_solver|done]].
    apply Forall_singleton. eexists. cbn. rewrite lookup_insert_eq. split; [reflexivity|done].
  - eapply listed_same; [|exact Hl]. intros u. apply insert_some.
Qed.

(** The first thread that waits is switched to. *)
Lemma dispatch_spec c cur t f q new x s k :
  runq_rep c q.*1 s -> rr_core c cur ((t, f) :: q ++ new) s -> cpus s !! c = Some k ->
  threads s !! t = Some x -> is_idle x = false -> live (procs s) x ->
  exists s', switch_to_thread c t s = Ret tt s' /\ threads s' !! t = Some (set_t_state TCB_RUNNING x) /\
    rr_rep c (mkRr t q) new s'.
Proof.
  intros Hq [? ? (k' & Hk' & Hkr & _ & Hre) Hnd Hnz Hw Hl] Hk Hx Hid Hlv.
  assert (k' = k) as -> by congruence.
  destruct (switch_spec c t x s k) as [h E]; [done..|]. eexists. split; [exact E|].
  cbn [threads set_hw set_cpus set_threads]. rewrite lookup_insert_eq. split; [done|].
  cbn in Hnd, Hnz. apply NoDup_cons in Hnd as [Htq Hnd]. apply not_elem_of_cons in Hnz as [Hz Hnz].
  apply Forall_cons in Hw as [_ Hw]. split; cbn [rr_current rr_waiting].
  - split; try done.
    + exists (set_current_thread t k). cbn. by rewrite list_lookup_alter_eq, Hk.
    + by apply waiters_insert.
    + eapply listed_same; [|exact Hl]. intros u. apply insert_some.
  - destruct Hq as [(k2 & Hk2 & Hh & Ht) Hs ? ?].
    assert (k2 = k) as -> by congruence. split; try done.
    + exists (set_current_thread t k). cbn. by rewrite list_lookup_alter_eq, Hk.
    + apply seg_insert; [|done]. rewrite fmap_app in Htq. set_solver.
  - exists (t_rsp x). eexists. cbn. rewrite lookup_insert_eq. by split.
  - split; [congruence|done].
Qed.

(** One choice of the next thread: the state is that of the specification, and so is the
    frame. *)
Lemma schedule_round c a new s frame :
  rr_rep c a new s ->
  exists s', schedule_locked c frame true s = Ret (rr_tick frame a).1 s' /\ rr_rep c (rr_tick frame a).2 new s'.
Proof.
  intros Hrep. destruct a as [cur q]. pose proof Hrep as [Hc _ (f0 & x & Hx & Hst & Hid & Hlv & _) [Hz _]].
  pose proof Hc as [_ _ (k & Hk & _ & Hcur & _) _ _ _ _]. cbn [rr_current fst] in *.
  unfold schedule_locked. rewrite (bind_cpu _ c k) by done. rewrite Hcur.
  rewrite (proj2 (Z.eqb_neq cur 0)) by done. rewrite bind_assoc, (bind_thread _ cur x) by done.
  rewrite bind_assoc, Hid, bool_decide_eq_true_2 by done. cbn [negb andb when].
  rewrite (bind_upd_thread _ _ cur x) by done. cbv beta. rewrite bind_assoc, bind_assoc.
  set (s1 := set_threads _ _). rewrite (bind_ret _ _ _ _ _ (thread_alive x s1 Hlv)).
  rewrite (bind_ret (ret tt) _ s1 tt s1 eq_refl), bind_assoc.
  assert (Hx1 : threads s1 !! cur = Some (set_t_rsp frame x)) by (cbn; by rewrite lookup_insert_eq).
  rewrite (bind_thread _ cur (set_t_rsp frame x)) by done.
  change (is_idle (set_t_rsp frame x)) with (is_idle x). change (t_state (set_t_rsp frame x)) with (t_state x).
  rewrite Hid, bool_decide_eq_true_2 by done. cbn [negb andb when].
  rewrite bind_assoc, (bind_upd_thread _ s1 cur (set_t_rsp frame x)) by done.
  change (threads s1) with (<[cur := set_t_rsp frame x]> (threads s)). rewrite insert_insert_eq.
  change (set_threads ?m s1) with (set_threads m s).
  destruct (preempt_spec c cur q new x s frame Hrep Hx Hst Hid Hlv) as (s3 & E3 & Hq3 & Hc3).
  rewrite (bind_ret _ _ _ _ _ E3), bind_gets. unfold runq_bound, rr_tick. cbn [rr_current rr_waiting].
  destruct (q ++ [(cur, frame)]) as [|[t f] q'] eqn:Eq; [by destruct q|]. cbn [app fmap list_fmap fst snd] in *.
  assert (Ht : schedulable TCB_READY (threads s3) (procs s3) (t, f)) by by destruct Hc3 as [_ _ _ _ _ [? _]%Forall_cons _].
  destruct (pick_next_spec (size (threads s3)) c t f q'.*1 s3 Hq3 Ht) as (s4 & E4 & Hq4 & HL4).
  rewrite (bind_ret _ _ _ _ _ E4). apply (core_links _ _ _ _ _ HL4) in Hc3.
  assert (Ht0 : t <> 0) by (destruct Hc3 as [_ _ _ _ Hz0 _ _]; cbn in Hz0; set_solver).
  rewrite !(proj2 (Z.eqb_neq t 0)) by done.
  pose proof Hc3 as [_ _ (k4 & Hk4 & _) _ _ [(y & Hy & Hyst & Hyid & Hyl & Hyr) _]%Forall_cons _].
  cbn [fst snd] in *. rewrite (bind_thread _ t y) by done.
  rewrite (bool_decide_eq_false_2 (t_state y = TCB_RUNNING)) by congruence. rewrite andb_false_r.
  destruct (dispatch_spec c cur t f q' new y s4 k4 Hq4 Hc3 Hk4 Hy Hyid Hyl) as (s5 & E5 & Hy5 & R5).
  rewrite (bind_ret _ _ _ _ _ E5). rewrite (bind_thread _ t _ _ Hy5).
  exists s5. split; [|exact R5]. by rewrite <- Hyr.
Qed.

(** ** Sequences of timer interrupts and new threads *)

Lemma tick_round c a new s frame :
  rr_rep c a new s -> frame <> 0 ->
  exists s', sched_tick false frame s = Ret (rr_tick frame a).1 s' /\ rr_rep c (rr_tick frame a).2 new s'.
Proof.
  intros Hrep Hf. pose proof Hrep as [[Hr Hth (k & Hk & Hkr & _ & Hre) _ _ _ Hl] _ _ _].
  unfold sched_tick. rewrite bind_gets, Hr, (proj2 (Z.eqb_neq frame 0)) by done. cbn [negb orb].
  rewrite bind_gets, Hth, (bind_cpu _ c k) by done. rewrite Hkr. cbn [negb].
  assert (exists v n, when (Nat.eqb c 0) loadavg_tick s = Ret tt (set_loadavg v n s)) as (v & n & E).
  { destruct (Nat.eqb c 0); [by apply loadavg_tick_total|]. exists (loadavg_fp s), (loadavg_last_sec s). by destruct s. }
  rewrite (bind_ret _ _ _ _ _ E), (bind_ret _ _ _ _ _ (reap_nothing c k (set_loadavg v n s) Hth Hk Hre)).
  apply schedule_round. by destruct Hrep as [[] [] ? ?].
Qed.
Lemma enqueue_round c a t f new s :
  rr_rep c a ((t, f) :: new) s ->
  exists s', enqueue_new c t s = Ret tt s' /\ rr_rep c (rr_add t f a) new s'.
Proof.
  intros [Hc Hq (g & Hrun) Hap]. destruct a as [cur q]. cbn [rr_current rr_waiting rr_add] in *.
  pose proof Hc as [_ _ (k & Hk & Hkr & Hcur & Hre) Hnd Hnz Hw _]. rewrite fmap_app in Hnd, Hnz. cbn in Hnd, Hnz.
  assert (exists x, threads s !! t = Some x) as [x Hx]
    by (apply Forall_app in Hw as [_ [(x & Hx & _) _]%Forall_cons]; eauto).
  destruct (push_spec c q.*1 t x s Hq) as (s1 & E & Hq1 & HL); [set_solver| |done|].
  { apply NoDup_app in Hnd as (_ & Hd & _). intros Hin. apply (Hd t Hin). by left. }
  unfold enqueue_new. rewrite (bind_ret _ _ _ _ _ E).
  pose proof (core_links _ _ _ _ _ HL Hc) as [? ? (k1 & Hk1 & Hkr1 & Hcur1 & Hre1) ? ? ? ?].
  rewrite (run_upd_cpu _ c k1) by done. eexists. split; [reflexivity|].
  destruct HL as (m & h & tl & Hm & ->). change (rr_add t f _) with (mkRr cur (q ++ [(t, f)])).
  split; cbn [rr_current rr_waiting].
  - rewrite <- (assoc_L (++)). split; try done. exists (set_sched_load (u32 (sched_load k1 + 1)) k1).
    split; [cbn in *; by rewrite list_lookup_alter_eq, Hk1|done].
  - destruct Hq1 as [(k2 & Hk2 & Hh & Ht) ? ? ?]. assert (k2 = k1) as -> by congruence.
    rewrite fmap_app. split; try done. exists (set_sched_load (u32 (sched_load k1 + 1)) k1).
    split; [cbn in *; by rewrite list_lookup_alter_eq, Hk1|done].
  - exists g. by apply (schedulable_same _ (threads s)).
  - by rewrite <- (assoc_L (++)).
Qed.
End tick.

(** A timer interrupt with its frame, or a new thread with the frame it starts from. *)
Inductive cpu_op := op_tick (frame : Z) | op_enqueue (t f : Z).
Fixpoint run_ops `{!SchedEnv} (c : nat) (ops : list cpu_op) : M sched (list Z) :=
  match ops with
  | [] => ret []
  | op_tick f :: r => let* g := sched_tick false f in let* l := run_ops c r in ret (g :: l)
  | op_enqueue t _ :: r => enqueue_new c t ;;; run_ops c r
  end.
Fixpoint rr_ops (ops : list cpu_op) (a : rr_state) : list Z * rr_state :=
  match ops with
  | [] => ([], a)
  | op_tick f :: r => let '(l, b) := rr_ops r (rr_tick f a).2 in ((rr_tick f a).1 :: l, b)
  | op_enqueue t f :: r => rr_ops r (rr_add t f a)
  end.
Definition enqueued (ops : list cpu_op) : list (Z * Z) :=
  omap (fun o => match o with op_enqueue t f => Some (t, f) | _ => None end) ops.
Definition op_ok (o : cpu_op) : Prop := match o with op_tick f => f <> 0 | _ => True end.
Fixpoint ticks (ops : list cpu_op) : nat :=
  match ops with [] => 0 | op_tick _ :: r => S (ticks r) | _ :: r => ticks r end.

Lemma run_ops_spec {envi : SchedEnv} c ops a new s :
  rr_rep c a (enqueued ops ++ new) s -> Forall op_ok ops ->
  exists s', run_ops c ops s = Ret (rr_ops ops a).1 s' /\ rr_rep c (rr_ops ops a).2 new s'.
Proof.
  revert a s. induction ops as [|[f|t f] r IH]; intros a s Hrep Hok.
  - by exists s.
  - apply Forall_cons in Hok as [Hf Hok]. cbn [run_ops rr_ops].
    destruct (tick_round c a _ s f Hrep Hf) as (s1 & E1 & R1).
    destruct (IH _ _ R1 Hok) as (s2 & E2 & R2). exists s2.
    rewrite (bind_ret _ _ _ _ _ E1), (bind_ret _ _ _ _ _ E2). by destruct (rr_ops r _).
  - apply Forall_cons in Hok as [_ Hok]. cbn [run_ops rr_ops].
    destruct (enqueue_round c a t f _ s Hrep) as (s1 & E1 & R1).
    destruct (IH _ _ R1 Hok) as (s2 & E2 & R2). exists s2. by rewrite (bind_ret _ _ _ _ _ E1).
Qed.
Lemma rr_ops_no_tick ops a : ticks ops = 0%nat -> (rr_ops ops a).1 = [] /\ rr_current (rr_ops ops a).2 = rr_current a.
Proof. revert a. induction ops as [|[f|t f] r IH]; intros a H; [done|done|]. apply (IH (rr_add t f a) H). Qed.
Lemma rr_ops_turn ops a n t f :
  rr_waiting a !! n = Some (t, f) -> ticks ops = S n ->
  rr_current (rr_ops ops a).2 = t /\ last (rr_ops ops a).1 = Some f.
Proof.
  revert a n. induction ops as [|[g|u g] r IH]; intros a n Hn Ht; [done| |].
  - cbn in Ht. injection Ht as Ht. cbn [rr_ops]. unfold rr_tick at 1 2 3 4.
    destruct (rr_waiting a) as [|[t0 f0] q] eqn:Eq; [done|]. cbn [app fst snd].
    destruct n as [|n].
    + cbn in Hn. simplify_eq. destruct (rr_ops_no_tick r (mkRr t (q ++ [(rr_current a, g)])) Ht) as [E1 E2].
      destruct (rr_ops r _) as [l b]. cbn in *. by subst l.
    + destruct (IH (mkRr t0 (q ++ [(rr_current a, g)])) n) as [E1 E2]; [|done|].
      { cbn. apply lookup_app_l_Some. exact Hn. }
      destruct (rr_ops r _) as [l b]. cbn in *. split; [done|]. by destruct l.
  - apply (IH (rr_add u g a) n); [|done]. cbn. by apply lookup_app_l_Some.
Qed.

(** C4: the scheduler of a processor is a round robin: from a state that represents a running
    thread and a list of waiting ones, any sequence of timer interrupts and arrivals of new
    threads runs without fault, returns the frames the abstract round robin returns (each
    thread continues from the frame it was preempted with) and ends in the state that
    represents the abstract result.  The lock of the run queue is free at each interrupt. *)
Theorem sched_round_robin {envi : SchedEnv} c ops a new s :
  rr_rep c a (enqueued ops ++ new) s -> Forall op_ok ops ->
  exists s', run_ops c ops s = Ret (rr_ops ops a).1 s' /\ rr_rep c (rr_ops ops a).2 new s'.
Proof. apply run_ops_spec. Qed.

(** C5: no waiting thread starves: the thread at place [n] of the run queue is the current
    thread of the processor after [n + 1] timer interrupts, whatever threads arrive in
    between, and the last interrupt returns the frame it waits with. *)
Theorem sched_no_starvation {envi : SchedEnv} c ops a new s n t f :
  rr_rep c a (enqueued ops ++ new) s -> Forall op_ok ops ->
  rr_waiting a !! n = Some (t, f) -> ticks ops = S n ->
  exists fs s' k, run_ops c ops s = Ret fs s' /\ last fs = Some f /\
    cpus s' !! c = Some k /\ current_thread k = t.
Proof.
  intros Hrep Hok Hn Ht. destruct (run_ops_spec c ops a new s Hrep Hok) as (s' & E & R).
  destruct (rr_ops_turn ops a n t f Hn Ht) as [E1 E2].
  destruct R as [[_ _ (k & Hk & _ & Hcur & _) _ _ _ _] _ _ _]. do 3 eexists. split; [exact E|].
  split; [exact E2|]. split; [exact Hk|]. congruence.
Qed.
