(* ===== verification/SchedProps.v ===== *)
(** * Identifiers, credentials and load of the scheduler

    The pools hand out the smallest identifier that is not in use; a process without a root
    identity never gets one; the load averages stay below the number of runnable threads
    and never overflow. *)

From stdpp Require Import base gmap list.
From Stdlib Require Import ZArith Lia Sorted.
From S2P Require Import Prelude SchedState Sched SchedRunq.

Local Open Scope Z_scope.

(** ** Identifiers *)

(** The freed identifiers are in increasing order, and below the next new one. *)
Record pool_ok (p : id_pool) : Prop := {
  pool_sorted : StronglySorted Z.lt (pool_free p);
  pool_range : Forall (fun x => 1 <= x < pool_next p) (pool_free p);
  pool_pos : 1 <= pool_next p }.
Definition in_use (p : id_pool) (id : Z) : Prop := 1 <= id < pool_next p /\ id ∉ pool_free p.

Lemma insert_id_spec id l :
  StronglySorted Z.lt l -> id ∉ l ->
  exists l', insert_id id l = Some l' /\ StronglySorted Z.lt l' /\ forall x, x ∈ l' <-> x = id \/ x ∈ l.
Proof.
  induction l as [|y l IH]; intros Hs Hn.
  - exists [id]. split; [done|]. split; [repeat constructor|]. set_solver.
  - apply StronglySorted_inv in Hs as [Hs Hy]. cbn [insert_id].
    destruct (y <? id) eqn:E; bools.
    + destruct IH as (l' & -> & Hs' & Hm); [done|set_solver|]. exists (y :: l'). split; [done|].
      split; [|set_solver]. constructor; [done|]. apply Forall_forall. intros z [->|Hz]%Hm; [lia|].
      by apply (proj1 (Forall_forall _ _) Hy).
    + destruct (y =? id) eqn:E2; bools; [set_solver|]. exists (id :: y :: l). split; [done|].
      split; [|set_solver]. constructor; [by constructor|]. constructor; [lia|].
      eapply Forall_impl; [exact Hy|]. cbn. lia.
Qed.
Lemma insert_id_twice id l : StronglySorted Z.lt l -> id ∈ l -> insert_id id l = None.
Proof.
  induction l as [|y l IH]; intros Hs Hn; [set_solver|].
  apply StronglySorted_inv in Hs as [Hs Hy]. cbn [insert_id]. apply elem_of_cons in Hn as [->|Hn].
  - by rewrite Z.ltb_irrefl, Z.eqb_refl.
  - pose proof (proj1 (Forall_forall _ _) Hy id Hn) as H. cbn in H.
    rewrite (proj2 (Z.ltb_lt y id)) by lia. by rewrite (IH Hs Hn).
Qed.

Lemma pool_alloc_spec p :
  pool_ok p ->
  let '(id, p') := pool_alloc p in
  pool_ok p' /\ ~ in_use p id /\ (forall x, 1 <= x -> ~ in_use p x -> id <= x) /\
  (forall x, in_use p' x <-> x = id \/ in_use p x).
Proof.
  intros [Hs Hr Hp]. unfold pool_alloc, in_use. destruct p as [n [|i l]]; cbn in *.
  - split; [by split; cbn; [constructor|constructor|lia]|]. split; [lia|].
    split; [|set_solver by lia]. intros x Hx Hn. destruct (decide (n <= x)); [done|]. exfalso.
    apply Hn. split; [lia|set_solver].
  - apply StronglySorted_inv in Hs as [Hs Hi]. apply Forall_cons in Hr as [Hi1 Hr].
    assert (Hil : forall x, x ∈ l -> i < x) by (intros x Hx; by apply (proj1 (Forall_forall _ _) Hi)).
    assert (i ∉ l) by (intros Hin; specialize (Hil i Hin); lia).
    split; [by split; cbn; [|exact Hr|lia]|]. split; [set_solver|]. split.
    + intros x Hx Hn. destruct (decide (i <= x)) as [|Hlt]; [done|]. exfalso. apply Hn. split; [lia|].
      intros [->|Hin]%elem_of_cons; [lia|]. specialize (Hil x Hin). lia.
    + intros x. rewrite not_elem_of_cons. destruct (decide (x = i)) as [->|]; [tauto|]. tauto.
Qed.
Lemma pool_release_spec p id :
  pool_ok p -> in_use p id ->
  exists p', pool_release p id = Some p' /\ pool_ok p' /\ (forall x, in_use p' x <-> in_use p x /\ x <> id).
Proof.
  intros [Hs Hr Hp] [Hid Hn]. unfold pool_release.
  destruct (insert_id_spec id _ Hs Hn) as (l & -> & Hl & Hm). eexists. split; [done|]. split.
  - split; cbn; [done| |done]. apply Forall_forall. intros x [->|Hx]%Hm; [done|].
    by apply (proj1 (Forall_forall _ _) Hr).
  - intros x. unfold in_use. cbn. rewrite Hm. tauto.
Qed.

(** C19: the pool of process or thread numbers is a set of numbers in use: an allocation
    returns the smallest positive number that is not in use and adds it; a release removes
    a number that is in use; releasing a number that is already free panics.  The numbers
    are below the largest [int]. *)
Theorem id_pool_refines n s :
  pool_ok (get_pool n s) -> pool_next (get_pool n s) < 2147483647 ->
  (exists id p', id_alloc n s = Ret id (set_pool n p' s) /\ pool_ok p' /\
     ~ in_use (get_pool n s) id /\ 1 <= id <= pool_next (get_pool n s) /\
     (forall x, 1 <= x -> ~ in_use (get_pool n s) x -> id <= x) /\
     (forall x, in_use p' x <-> x = id \/ in_use (get_pool n s) x)) /\
  (forall id, in_use (get_pool n s) id -> obj_grants s (next_obj s) = true -> next_obj s <> 0 ->
     exists p', id_free n id s = Ret tt (set_pool n p' (set_next_obj (next_obj s + 1) s)) /\ pool_ok p' /\
     (forall x, in_use p' x <-> in_use (get_pool n s) x /\ x <> id)) /\
  (forall id, id ∈ pool_free (get_pool n s) -> id_free n id s = Panic).
Proof.
  intros Hok Hmax. split; [|split].
  - unfold id_alloc. pose proof (pool_alloc_spec _ Hok) as H.
    pose proof Hok as [_ Hr Hp].
    assert (Hid : 1 <= (pool_alloc (get_pool n s)).1 <= pool_next (get_pool n s)).
    { unfold pool_alloc. destruct (pool_free _); cbn; [lia|]. apply Forall_cons in Hr as [? _]. lia. }
    destruct (pool_alloc _) as [id p']. destruct H as (H1 & H2 & H3 & H4). exists id, p'. cbn in Hid.
    split_and!; [done..|lia|lia|done|done].
  - intros id Hu Hg Hz. unfold id_free. rewrite (proj2 (Z.leb_gt id 0)) by (destruct Hu; lia).
    destruct (pool_release_spec _ id Hok Hu) as (p' & E & H1 & H2). exists p'. split; [|done].
    unfold kzalloc, bind. rewrite Hg, (proj2 (Z.eqb_neq _ 0)) by done. cbn. by destruct n; cbn in E |- *; rewrite E.
  - intros id Hin. pose proof Hok as [Hs Hr _]. pose proof (proj1 (Forall_forall _ _) Hr id Hin) as H1. cbn in H1.
    unfold id_free. rewrite (proj2 (Z.leb_gt id 0)) by lia. unfold kzalloc, bind.
    destruct (_ =? 0); [done|]. cbn. unfold pool_release. destruct n; cbn in *; by rewrite insert_id_twice.
Qed.

(** ** Credentials *)

Inductive id_call := call_setuid (u : Z) | call_setgid (g : Z) | call_seteuid (u : Z) | call_setegid (g : Z).
Definition run_id_call (a : Z) (c : id_call) : M sched Z :=
  match c with
  | call_setuid u => sched_process_setuid a u
  | call_setgid g => sched_process_setgid a g
  | call_seteuid u => sched_process_seteuid a u
  | call_setegid g => sched_process_setegid a g
  end.
Fixpoint run_id_calls (a : Z) (l : list id_call) : M sched (list Z) :=
  match l with
  | [] => ret []
  | c :: l => let* r := run_id_call a c in let* rs := run_id_calls a l in ret (r :: rs)
  end.

Definition uids (i : ids) : list Z := [ruid i; suid i; euid i].
Definition gids (i : ids) : list Z := [rgid i; sgid i; egid i].

(** What a call does to the six identifiers: its result and the new ones. *)
Definition id_result (c : id_call) (i : ids) : Z * ids :=
  match c with
  | call_setuid u =>
      if euid i =? 0 then (0, mkIds u (rgid i) u (sgid i) u (egid i))
      else if existsb (Z.eqb u) (uids i) then (0, mkIds (ruid i) (rgid i) (suid i) (sgid i) u (egid i))
      else (- EPERM, i)
  | call_setgid g =>
      if euid i =? 0 then (0, mkIds (ruid i) g (suid i) g (euid i) g)
      else if existsb (Z.eqb g) (gids i) then (0, mkIds (ruid i) (rgid i) (suid i) (sgid i) (euid i) g)
      else (- EPERM, i)
  | call_seteuid u =>
      if (euid i =? 0) || existsb (Z.eqb u) [ruid i; suid i] then (0, mkIds (ruid i) (rgid i) (suid i) (sgid i) u (egid i))
      else (- EPERM, i)
  | call_setegid g =>
      if (euid i =? 0) || existsb (Z.eqb g) [rgid i; sgid i] then (0, mkIds (ruid i) (rgid i) (suid i) (sgid i) (euid i) g)
      else (- EPERM, i)
  end.

Definition ids_stored (a : Z) (i : ids) (p : pcb) (s : sched) : sched := set_procs (<[a := set_ids i p]> (procs s)) s.
Lemma set_ids_same p : p_cred p = process_refresh_cred (p_ids p) -> set_ids (p_ids p) p = p.
Proof. intros H. unfold set_ids. rewrite <- H. by destruct p. Qed.

(** A refused call changes nothing, so it stores the identifiers there were. *)
Lemma run_id_call_spec a c p s :
  a <> 0 -> procs s !! a = Some p -> p_cred p = process_refresh_cred (p_ids p) ->
  run_id_call a c s = Ret (id_result c (p_ids p)).1 (ids_stored a (id_result c (p_ids p)).2 p s).
Proof.
  intros Ha Hp Hc.
  assert (Hs : ids_stored a (p_ids p) p s = s).
  { unfold ids_stored. rewrite set_ids_same, fin_maps.insert_id by done. by destruct s. }
  destruct p as [? ? ? ? ? ? ? ? ? ? ? ? [ru rg su sg eu eg] ? ? ? ? ? ? ? ? ? ? ? ?]. cbn [p_ids] in *.
  destruct c as [u|u|u|u]; cbn [run_id_call id_result];
    unfold sched_process_setuid, sched_process_setgid, sched_process_seteuid, sched_process_setegid, uids, gids;
    rewrite (proj2 (Z.eqb_neq a 0)) by done; rewrite (bind_proc _ a _ _ Hp);
    cbn [p_ids ruid rgid suid sgid euid egid existsb];
    repeat (destruct (_ =? _); cbn [negb andb orb fst snd]);
    solve [rewrite (bind_upd_proc _ _ _ _ _ Hp); reflexivity | rewrite Hs; reflexivity].
Qed.

Lemma id_result_drops c i :
  0 ∉ uids i -> uids (id_result c i).2 ⊆ uids i /\ gids (id_result c i).2 ⊆ gids i.
Proof.
  intros H. assert (Hz : (euid i =? 0) = false) by (apply Z.eqb_neq; unfold uids in H; set_solver).
  assert (He : forall u l, existsb (Z.eqb u) l = true -> u ∈ l).
  { intros u l (x & Hx & E)%existsb_exists. apply Z.eqb_eq in E as ->. by apply list_elem_of_In. }
  destruct c as [u|u|u|u]; cbn [id_result]; rewrite Hz; cbn [orb];
    (destruct (existsb _ _) eqn:E; [apply He in E|done]);
    unfold uids, gids in *; cbn in *; set_solver.
Qed.
Lemma run_id_calls_spec a l p s :
  a <> 0 -> procs s !! a = Some p -> p_cred p = process_refresh_cred (p_ids p) -> 0 ∉ uids (p_ids p) ->
  exists rs i, run_id_calls a l s = Ret rs (ids_stored a i p s) /\ uids i ⊆ uids (p_ids p) /\ gids i ⊆ gids (p_ids p).
Proof.
  intros Ha. revert p s. induction l as [|c l IH]; intros p s Hp Hc Hu.
  - exists [], (p_ids p). split; [|done]. unfold ids_stored. rewrite set_ids_same, fin_maps.insert_id by done.
    by destruct s.
  - cbn [run_id_calls]. rewrite (bind_ret _ _ _ _ _ (run_id_call_spec a c p s Ha Hp Hc)).
    destruct (id_result_drops c _ Hu) as [D1 D2]. set (i := (id_result c (p_ids p)).2) in *.
    destruct (IH (set_ids i p) (ids_stored a i p s)) as (rs & j & E & E1 & E2); [| done | |].
    + cbn. by rewrite lookup_insert_eq.
    + change (p_ids (set_ids i p)) with i. set_solver.
    + rewrite (bind_ret _ _ _ _ _ E). eexists _, j. change (p_ids (set_ids i p)) with i in *. split; [|set_solver].
      unfold ret, ids_stored. cbn. by rewrite insert_insert_eq.
Qed.

(** C20: identities only drop: for a process none of whose three user identifiers is root, any
    sequence of the four calls that change identifiers leaves user and group identifiers
    among those it had, so it never becomes root; the credentials the file systems check
    stay those of the effective identifiers, and nothing else of the state changes. *)
Theorem identities_only_drop a l p s :
  a <> 0 -> procs s !! a = Some p -> p_cred p = process_refresh_cred (p_ids p) -> 0 ∉ uids (p_ids p) ->
  exists rs p', run_id_calls a l s = Ret rs (set_procs (<[a := p']> (procs s)) s) /\
    (0 ∉ uids (p_ids p')) /\ uids (p_ids p') ⊆ uids (p_ids p) /\ gids (p_ids p') ⊆ gids (p_ids p) /\
    p_cred p' = process_refresh_cred (p_ids p').
Proof.
  intros Ha Hp Hc Hu. destruct (run_id_calls_spec a l p s Ha Hp Hc Hu) as (rs & i & E & E1 & E2).
  exists rs, (set_ids i p). split; [exact E|]. change (p_ids (set_ids i p)) with i. split; [set_solver|done].
Qed.

(** ** Load averages *)

Definition load_weights : list Z := [SCHED_LOADAVG_EXP_1; SCHED_LOADAVG_EXP_5; SCHED_LOADAVG_EXP_15].
(** The step without a width. *)
Definition load_step (e r f : Z) : Z := f * e / SCHED_LOADAVG_SCALE + r * (SCHED_LOADAVG_SCALE - e).
Fixpoint load_iter (n : nat) (e r f : Z) : Z := match n with O => f | S n => load_iter n e r (load_step e r f) end.

Lemma load_parts e r f m :
  0 <= e <= SCHED_LOADAVG_SCALE -> 0 <= r <= m -> 0 <= f <= m * SCHED_LOADAVG_SCALE ->
  0 <= f * e <= m * SCHED_LOADAVG_SCALE * SCHED_LOADAVG_SCALE /\ 0 <= f * e / SCHED_LOADAVG_SCALE <= m * e /\
  0 <= r * (SCHED_LOADAVG_SCALE - e) <= m * (SCHED_LOADAVG_SCALE - e).
Proof.
  unfold SCHED_LOADAVG_SCALE. intros He Hr Hf. split; [nia|]. split; [|nia].
  assert (0 <= f * e <= m * e * 1000000) by nia. split; [apply Z.div_pos; lia|].
  apply Z.div_le_upper_bound; lia.
Qed.
Lemma load_step_bounds e r f m :
  0 <= e <= SCHED_LOADAVG_SCALE -> 0 <= r <= m -> 0 <= f <= m * SCHED_LOADAVG_SCALE ->
  0 <= load_step e r f <= m * SCHED_LOADAVG_SCALE.
Proof. intros He Hr Hf. pose proof (load_parts e r f m He Hr Hf). unfold load_step, SCHED_LOADAVG_SCALE in *. lia. Qed.
Lemma load_step_exact e r f m :
  0 <= e <= SCHED_LOADAVG_SCALE -> 0 <= r <= m -> 0 <= f <= m * SCHED_LOADAVG_SCALE -> m <= 2 ^ 24 ->
  loadavg_step e r f = load_step e r f.
Proof.
  intros He Hr Hf Hm. pose proof (load_parts e r f m He Hr Hf). pose proof (load_step_bounds e r f m He Hr Hf).
  unfold loadavg_step. assert (m * (SCHED_LOADAVG_SCALE - e) <= 2 ^ 24 * SCHED_LOADAVG_SCALE)
    by (unfold SCHED_LOADAVG_SCALE in *; nia).
  unfold load_step, SCHED_LOADAVG_SCALE in *.
  rewrite (u64_small (f * e)), (u64_small (r * _)) by lia. apply u64_small. lia.
Qed.
Lemma load_loop_spec n r m f1 f5 f15 :
  0 <= r <= m -> m <= 2 ^ 24 -> Forall (fun f => 0 <= f <= m * SCHED_LOADAVG_SCALE) [f1; f5; f15] ->
  loadavg_loop n r [f1; f5; f15] =
    [load_iter n SCHED_LOADAVG_EXP_1 r f1; load_iter n SCHED_LOADAVG_EXP_5 r f5; load_iter n SCHED_LOADAVG_EXP_15 r f15] /\
  Forall (fun f => 0 <= f <= m * SCHED_LOADAVG_SCALE) (loadavg_loop n r [f1; f5; f15]).
Proof.
  intros Hr Hm. revert f1 f5 f15. induction n as [|n IH]; intros f1 f5 f15 HF; [done|].
  cbn [loadavg_loop zip_with load_iter]. rewrite !Forall_cons in HF. destruct HF as (H1 & H5 & H15 & _).
  assert (He : Forall (fun e => 0 <= e <= SCHED_LOADAVG_SCALE) load_weights) by (repeat constructor; done).
  unfold load_weights in He. rewrite !Forall_cons in He. destruct He as (E1 & E5 & E15 & _).
  rewrite !(load_step_exact _ r _ m) by done. apply IH. rewrite !Forall_cons.
  do 3 (split; [by apply load_step_bounds|]). constructor.
Qed.

(** The seconds [loadavg_tick] accounts for. *)
Definition load_seconds (s : sched) : nat :=
  if loadavg_last_sec s =? 0 then 0%nat else Z.to_nat (Z.min 3600 (now_ns s / NSEC_PER_SEC - loadavg_last_sec s)).

(** C40: the load averages are exact and bounded: with at most [m] runnable threads (up to
    2{^24}) and averages of at most [m], a tick of the clock applies one step of exponential
    decay per second that has passed (3600 at most, none on the first tick) to each average without overflow in 64
    bits, the averages stay between 0 and [m], and the clock of the averages is that second. *)
Theorem loadavg_bounded {envi : SchedEnv} s m r n f1 f5 f15 :
  sched_loadavg_task_counts s = Ret (r, n) s -> 0 <= r <= m -> m <= 2 ^ 24 ->
  loadavg_fp s = [f1; f5; f15] -> Forall (fun f => 0 <= f <= m * SCHED_LOADAVG_SCALE) [f1; f5; f15] ->
  0 <= loadavg_last_sec s <= now_ns s / NSEC_PER_SEC -> now_ns s < 2 ^ 64 ->
  exists fp, loadavg_tick s = Ret tt (set_loadavg fp (now_ns s / NSEC_PER_SEC) s) /\
    fp = zip_with (fun e f => load_iter (load_seconds s) e r f) load_weights [f1; f5; f15] /\
    Forall (fun f => 0 <= f <= m * SCHED_LOADAVG_SCALE) fp.
Proof.
  intros Hc Hr Hm Hf HF Hl Hn. destruct (load_loop_spec (load_seconds s) r m f1 f5 f15 Hr Hm HF) as [E B].
  exists (loadavg_loop (load_seconds s) r [f1; f5; f15]). split; [|by rewrite E in B |- *].
  assert (Hsec : now_ns s / NSEC_PER_SEC < 2 ^ 64)
    by (apply Z.div_lt_upper_bound; unfold NSEC_PER_SEC; lia).
  unfold loadavg_tick. rewrite bind_gets. cbv zeta. unfold load_seconds.
  destruct (loadavg_last_sec s =? 0) eqn:E0.
  - rewrite Z.sub_diag. cbn [loadavg_loop]. change (u64 0) with 0. cbn. by rewrite Hf.
  - rewrite u64_small by lia.
    replace (if 3600 <? now_ns s / NSEC_PER_SEC - loadavg_last_sec s then 3600
             else now_ns s / NSEC_PER_SEC - loadavg_last_sec s)
      with (Z.min 3600 (now_ns s / NSEC_PER_SEC - loadavg_last_sec s)) by (destruct (_ <? _) eqn:?; blia).
    destruct (Z.min _ _ =? 0) eqn:E1; cbn [negb].
    + bools. replace (loadavg_last_sec s) with (now_ns s / NSEC_PER_SEC) by lia.
      rewrite Z.sub_diag. cbn [loadavg_loop Z.min Z.to_nat]. by rewrite Hf.
    + rewrite (bind_ret _ _ _ _ _ Hc). by rewrite Hf.
Qed.
