(* ===== verification/SchedSignal.v ===== *)
(** * Signals, groups and waiting (kernel/src/sched/sched.c)

    Sending and delivering signals, the frame a handler runs on and the return from it,
    process groups and sessions, [waitpid], and the wait queues. *)

From stdpp Require Import base gmap list.
From Stdlib Require Import ZArith Lia.
From S2P Require Import Prelude SchedState Sched.

Local Open Scope Z_scope.

Definition SCHED_SIGFRAME_MAGIC : Z := 6001406345801190725.
Definition SCHED_SIG_BLOCK : Z := 0.
Definition SCHED_SIG_UNBLOCK : Z := 1.
Definition SCHED_SIG_SETMASK : Z := 2.
Definition SCHED_WNOHANG : Z := 1.
Definition SCHED_WUNTRACED : Z := 2.
Definition SCHED_WCONTINUED : Z := 8.
Definition VAS_USER_END : Z := 140737488355327.
Definition SIGCONT : Z := 18.

(** [retaddr], [magic], [signal], [old_mask], the saved frame. *)
Definition sizeof_user_signal_frame : Z := 256.

(** ** User memory *)

(** The eight bytes of a word, lowest first. *)
Definition word_bytes (v : Z) : list Z := map (fun i => (v / 2 ^ (8 * Z.of_nat i)) `mod` 256) (seq 0 8).
Fixpoint bytes_word (l : list Z) : Z := match l with [] => 0 | b :: l => b + 256 * bytes_word l end.

Fixpoint ustore_bytes (a : Z) (l : list Z) (m : gmap Z Z) : option (gmap Z Z) :=
  match l with
  | [] => Some m
  | b :: l => match m !! a with Some _ => ustore_bytes (a + 1) l (<[a := b]> m) | None => None end
  end.
Definition uload_bytes (a : Z) (n : nat) (m : gmap Z Z) : option (list Z) :=
  mapM (fun i => m !! (a + Z.of_nat i)) (seq 0 n).

(** Reading and writing [n] words; an address that is not mapped is a fault. *)
Definition uload (a : Z) (n : nat) : M sched (list Z) := fun s =>
  match mapM (fun i => bytes_word <$> uload_bytes (a + 8 * Z.of_nat i) 8 (umem s)) (seq 0 n) with
  | Some l => Ret l s
  | None => Fault
  end.
Definition ustore (a : Z) (ws : list Z) : M sched unit := fun s =>
  match ustore_bytes a (concat (map word_bytes ws)) (umem s) with
  | Some m => Ret tt (set_umem m s)
  | None => Fault
  end.

Section env.
Context `{!SchedEnv}.

(** ** Groups and sessions *)

Definition sched_process_getpgid (caller pid : Z) : M sched (Z * Z) :=
  if caller =? 0 then ret (- EINVAL, 0)
  else
    let* c := get_proc caller in
    let pid := if pid =? 0 then p_pid c else pid in
    let* r := find_pid pid in
    match r with Some (_, p) => ret (0, pgid p) | None => ret (- ESRCH, 0) end.

Definition sched_process_setpgid (caller pid new_pgid : Z) : M sched Z :=
  if caller =? 0 then ret (- EINVAL)
  else
    let* c := get_proc caller in
    let pid := if pid =? 0 then p_pid c else pid in
    let new_pgid := if new_pgid =? 0 then pid else new_pgid in
    if (pid <? 0) || (new_pgid <? 0) then ret (- EINVAL)
    else
      let* r := find_pid pid in
      match r with
      | None => ret (- ESRCH)
      | Some (a, target) =>
          if negb (a =? caller) && negb (p_ppid target =? p_pid c) then ret (- ESRCH)
          else if negb (sid c =? sid target) then ret (- EPERM)
          else if p_pid target =? sid target then ret (- EPERM)
          else
            let* found :=
              if new_pgid =? p_pid target then ret true
              else
                let* l := gets process_list in
                let* r := find_proc l (fun p => (pgid p =? new_pgid) && (sid p =? sid target)) in
                ret match r with Some _ => true | None => false end in
            if negb found then ret (- EPERM)
            else upd_proc a (fun p => set_group new_pgid (sid p) p) ;;; ret 0
      end.

(** Another process in the group the caller would lead. *)
Fixpoint group_taken (l : list Z) (caller pid : Z) : M sched bool :=
  match l with
  | [] => ret false
  | a :: l =>
      let* p := get_proc a in
      if negb (a =? caller) && (pgid p =? pid) then ret true else group_taken l caller pid
  end.
Definition sched_process_setsid (caller : Z) : M sched (Z * Z) :=
  if caller =? 0 then ret (- EINVAL, 0)
  else
    let* c := get_proc caller in
    let* l := gets process_list in
    let* taken := group_taken l caller (p_pid c) in
    if taken : bool then ret (- EPERM, 0)
    else
      upd_proc caller (fun p => set_controlling_tty (- 1) (set_group (p_pid c) (p_pid c) p)) ;;;
      ret (0, p_pid c).

(** ** Sending *)

Definition process_signal_allowed (sender target : pcb) : bool :=
  let e := euid (p_ids sender) in
  (e =? 0) || (e =? ruid (p_ids target)) || (e =? euid (p_ids target)) || (e =? suid (p_ids target)).

(** The first process with the number of the target's parent is told. *)
Fixpoint tell_parent (l : list Z) (ppid : Z) : M sched unit :=
  match l with
  | [] => ret tt
  | a :: l =>
      let* p := get_proc a in
      if p_pid p =? ppid then upd_proc a (note_child SCHED_SIGCHLD) else tell_parent l ppid
  end.

Definition is_stop (signal : Z) : bool :=
  (signal =? SCHED_SIGSTOP) || (signal =? 20) || (signal =? 21) || (signal =? 22).

(** The effect of one signal on one target. *)
Definition signal_target (a signal : Z) : M sched unit :=
  let* l := gets process_list in
  let* t := get_proc a in
  if signal =? SCHED_SIGKILL then process_terminate_by_signal_locked a signal
  else if is_stop signal then
    upd_proc a (fun p => add_pending signal (set_p_job (mkJob true signal false false) p)) ;;;
    tell_parent l (p_ppid t)
  else if signal =? SIGCONT then
    (if stopped (p_job t) then
       upd_proc a (fun p => set_p_job (mkJob false (stop_signal (p_job p)) false true) p) ;;;
       tell_parent l (p_ppid t)
     else ret tt) ;;;
    upd_proc a (add_pending signal)
  else upd_proc a (add_pending signal).

Definition signal_match (sender pid a : Z) (t : pcb) : bool :=
  if 0 <? pid then p_pid t =? pid
  else if pid =? - 1 then negb (a =? sender)
  else if pid <? - 1 then pgid t =? - pid
  else false.

(** [delivered] and [denied]. *)
Fixpoint signal_loop (l : list Z) (sender pid signal : Z) (delivered denied : bool) : M sched (bool * bool) :=
  match l with
  | [] => ret (delivered, denied)
  | a :: l =>
      let* t := get_proc a in
      if negb (signal_match sender pid a t) then signal_loop l sender pid signal delivered denied
      else
        let* sp := get_proc sender in
        if negb (process_signal_allowed sp t) || process_is_kernel_owned t
        then signal_loop l sender pid signal delivered true
        else if signal =? 0 then signal_loop l sender pid signal true denied
        else
          signal_target a signal ;;;
          if 0 <? pid then ret (true, denied) else signal_loop l sender pid signal true denied
  end.
Definition sched_process_signal (sender pid signal : Z) : M sched Z :=
  if sender =? 0 then ret (- EBADF)
  else if (signal <? 0) || (SCHED_NSIG <? signal) then ret (- EINVAL)
  else
    let* sp := get_proc sender in
    let pid := if pid =? 0 then - pgid sp else pid in
    let* l := gets process_list in
    let* r := signal_loop l sender pid signal false false in
    ret (if r.1 : bool then 0 else if r.2 : bool then - EPERM else - ESRCH).

Fixpoint group_loop (l : list Z) (g signal : Z) (delivered : bool) : M sched bool :=
  match l with
  | [] => ret delivered
  | a :: l =>
      let* t := get_proc a in
      if negb (pgid t =? g) || process_is_kernel_owned t then group_loop l g signal delivered
      else
        (if signal =? SCHED_SIGKILL then process_terminate_by_signal_locked a signal
         else upd_proc a (add_pending signal)) ;;;
        group_loop l g signal true
  end.
Definition sched_process_signal_group (g signal : Z) : M sched Z :=
  if (g <=? 0) || negb (signal_valid signal) then ret (- EINVAL)
  else
    let* l := gets process_list in
    let* d := group_loop l g signal false in
    ret (if d : bool then 0 else - ESRCH).

(** ** Actions and masks *)

(** The result and [*oldact]. *)
Definition sched_signal_action (a signal : Z) (act : option sigaction) : M sched (Z * sigaction) :=
  if (a =? 0) || negb (signal_valid signal) then ret (- EINVAL, zero_sigaction)
  else
    match act with
    | Some x =>
        if (signal =? SCHED_SIGKILL) || (signal =? SCHED_SIGSTOP) then ret (- EINVAL, zero_sigaction)
        else
          let* p := get_proc a in
          let old := default zero_sigaction (sigactions p !! Z.to_nat signal) in
          upd_proc a (fun p => set_sigactions (<[Z.to_nat signal :=
            mkSigaction (sa_handler x) (sa_flags x) (sa_restorer x) (signal_mask_valid (sa_mask x))]> (sigactions p)) p) ;;;
          ret (0, old)
    | None =>
        let* p := get_proc a in
        ret (0, default zero_sigaction (sigactions p !! Z.to_nat signal))
    end.

(** The result and [*oldset]. *)
Definition sched_signal_procmask (t how : Z) (set : option Z) : M sched (Z * Z) :=
  if t =? 0 then ret (- EINVAL, 0)
  else
    let* x := get_thread t in
    let old := signal_mask x in
    match set with
    | None => ret (0, old)
    | Some m =>
        let mask := signal_mask_valid m in
        let put v := upd_thread t (set_signal_mask (clr v SCHED_UNBLOCKABLE_MASK)) ;;; ret (0, old) in
        if how =? SCHED_SIG_BLOCK then put (Z.lor old mask)
        else if how =? SCHED_SIG_UNBLOCK then put (clr old mask)
        else if how =? SCHED_SIG_SETMASK then put mask
        else ret (- EINVAL, old)
    end.

Definition process_pending_for_thread_locked (p : pcb) (x : tcb) : Z :=
  clr (clr (pending_signals p) (signal_mask x)) SCHED_UNBLOCKABLE_MASK.
Definition action_of (p : pcb) (signal : Z) : sigaction := default zero_sigaction (sigactions p !! Z.to_nat signal).
Definition ignored (act : sigaction) (signal : Z) : bool :=
  (sa_handler act =? SCHED_SIG_IGN) || ((sa_handler act =? SCHED_SIG_DFL) && signal_default_ignored signal).

(** [for (signal = 1; signal <= SCHED_NSIG; signal++)] *)
Fixpoint interrupting_loop (n : nat) (signal : Z) (p : pcb) (deliverable : Z) : bool :=
  match n with
  | O => false
  | S n =>
      if negb (has deliverable (SCHED_SIGNAL_BIT signal)) || ignored (action_of p signal) signal
      then interrupting_loop n (signal + 1) p deliverable
      else true
  end.
Definition process_has_interrupting_signal_locked (p : pcb) (x : tcb) : bool :=
  interrupting_loop 64 1 p (process_pending_for_thread_locked p x).
Definition sched_signal_is_pending (t : Z) : M sched bool :=
  if t =? 0 then ret false
  else
    let* x := get_thread t in
    if t_process x =? 0 then ret false
    else let* p := get_proc (t_process x) in ret (process_has_interrupting_signal_locked p x).

(** ** Wait queues *)

(** [seq] of a queue, by the place it is read from; [idle] is what happens while the
    processor is halted, [expired] the clock. *)
Fixpoint sched_waitq_wait (fuel : nat) (queue : sched -> Z) (seq : Z) (expired : M sched bool) (idle : M sched unit)
    : M sched Z :=
  match fuel with
  | O => diverge
  | S f =>
      let* q := gets (fun s => sched_waitq_prepare (queue s)) in
      if negb (q =? seq) then ret 0
      else
        let* e := expired in
        if e : bool then ret (- ETIMEDOUT)
        else
          let* t := sched_current in
          let* sig := sched_signal_is_pending t in
          if sig : bool then ret (- EINTR)
          else
            sched_sleep_hint_begin ;;;
            idle ;;;
            sched_sleep_hint_end ;;;
            sched_waitq_wait f queue seq expired idle
  end.
Definition sched_io_wait_prepare : M sched Z := gets (fun s => sched_waitq_prepare (io_waitq s)).
Definition sched_io_wait (fuel : nat) (seq : Z) : M sched bool -> M sched unit -> M sched Z :=
  sched_waitq_wait fuel io_waitq seq.
Definition sched_io_wake_all : M sched unit := modify (fun s => set_io_waitq (sched_waitq_wake_all (io_waitq s)) s).

(** ** Delivering *)

(** The first signal of the set. *)
Fixpoint first_signal (n : nat) (i deliverable : Z) : Z :=
  match n with
  | O => 0
  | S n => if has deliverable (SCHED_SIGNAL_BIT i) then i else first_signal n (i + 1) deliverable
  end.

Definition finish_and_switch (frame status : Z) : M sched Z :=
  let* c := gets this_cpu in
  thread_finish_current_locked c frame status ;;;
  schedule_locked c frame false.

(** Where the handler's frame goes. *)
Definition signal_sp (rsp : Z) : Z := u64 (clr (u64 (rsp - sizeof_user_signal_frame)) 15 + 8).

Definition sched_signal_deliver (frame : Z) : M sched Z :=
  if frame =? 0 then ret frame
  else
    let* f := get_frame frame in
    if negb (Z.land (nth F_CS f 0) 3 =? 3) then ret frame
    else
      let* t := sched_current in
      if t =? 0 then ret frame
      else
        let* x := get_thread t in
        let a := t_process x in
        if a =? 0 then ret frame
        else
          let* p := get_proc a in
          if dying p then finish_and_switch frame (p_exit_status p)
          else
            let signal := first_signal 64 1 (process_pending_for_thread_locked p x) in
            if signal =? 0 then ret frame
            else
              upd_proc a (fun p => set_pending_signals (clr (pending_signals p) (SCHED_SIGNAL_BIT signal)) p) ;;;
              let act := action_of p signal in
              if ignored act signal then ret frame
              else if sa_handler act =? SCHED_SIG_DFL then
                process_terminate_by_signal_locked a signal ;;;
                let* p := get_proc a in
                finish_and_switch frame (p_exit_status p)
              else
                let old_mask := signal_mask x in
                upd_thread t (set_signal_mask (clr (Z.lor old_mask
                  (Z.lor (signal_mask_valid (sa_mask act)) (SCHED_SIGNAL_BIT signal))) SCHED_UNBLOCKABLE_MASK)) ;;;
                if sa_restorer act =? 0 then ret frame
                else
                  let sp := signal_sp (nth F_RSP f 0) in
                  if (VAS_USER_END <=? sp) || (VAS_USER_END <? u64 (sp + sizeof_user_signal_frame)) then ret frame
                  else
                    ustore sp ([sa_restorer act; SCHED_SIGFRAME_MAGIC; signal; old_mask] ++ f) ;;;
                    put_frame frame (set_word F_RFLAGS (Z.lor (nth F_RFLAGS f 0) RFLAGS_IF) (set_word F_RSP sp
                      (set_word F_RDI signal (set_word F_RIP (sa_handler act) f)))) ;;;
                    ret frame.

Definition signal_frame_range_ok (sp : Z) : bool :=
  (sp <? VAS_USER_END) && (sizeof_user_signal_frame <=? VAS_USER_END - sp).

(** The first candidate that carries the magic number. *)
Fixpoint find_sigframe (l : list Z) : M sched (option Z) :=
  match l with
  | [] => ret None
  | sp :: l =>
      if negb (signal_frame_range_ok sp) then find_sigframe l
      else
        let* w := uload (sp + 8) 1 in
        if bool_decide (w = [SCHED_SIGFRAME_MAGIC]) then ret (Some sp) else find_sigframe l
  end.
Definition sched_signal_return (frame : Z) : M sched Z :=
  if frame =? 0 then ret frame
  else
    let* t := sched_current in
    if t =? 0 then ret frame
    else
      let* f := get_frame frame in
      let rsp := nth F_RSP f 0 in
      let* sf := find_sigframe [rsp; u64 (rsp - 8)] in
      match sf with
      | None => put_frame frame (set_word F_RAX (u64 (- EINVAL)) f) ;;; ret frame
      | Some sp =>
          let* saved := uload (sp + 32) frame_words in
          let* old := uload (sp + 24) 1 in
          upd_thread t (set_signal_mask (signal_mask_valid (hd 0 old))) ;;;
          put_frame frame saved ;;;
          ret frame
      end.

(** 0 is NULL: the exception is not a user's. *)
Definition sched_handle_user_exception (frame signal : Z) : M sched Z :=
  let* ready := gets sched_ready in
  if negb ready || (frame =? 0) then ret 0
  else
    let* f := get_frame frame in
    if negb (Z.land (nth F_CS f 0) 3 =? 3) then ret 0
    else
      let* t := sched_current in
      if t =? 0 then ret 0
      else
        let* x := get_thread t in
        let a := t_process x in
        if a =? 0 then ret 0
        else
          let* p := get_proc a in
          if process_is_kernel_owned p then ret 0
          else
            process_terminate_by_signal_locked a (if signal_valid signal then signal else SCHED_SIGABRT) ;;;
            let* p := get_proc a in
            finish_and_switch frame (p_exit_status p).

(** ** Waiting for children *)

Definition wait_match (pid match_pgid : Z) (child : pcb) : bool :=
  if 0 <? pid then p_pid child =? pid
  else if pid =? - 1 then true
  else pgid child =? (if pid =? 0 then match_pgid else - pid).

Record wait_scan := mkScan { w_zombie : Z; w_stopped : Z; w_continued : Z; have_child : bool }.

Fixpoint wait_loop (l : list Z) (pid match_pgid ppid options : Z) (w : wait_scan) : M sched wait_scan :=
  match l with
  | [] => ret w
  | a :: l =>
      let* child := get_proc a in
      if negb (wait_match pid match_pgid child) || negb (p_ppid child =? ppid)
      then wait_loop l pid match_pgid ppid options w
      else if zombie child then
        process_unlink_locked a ;;;
        ret (mkScan a (w_stopped w) (w_continued w) true)
      else
        let st := if (w_stopped w =? 0) && has options SCHED_WUNTRACED && stopped (p_job child) &&
                     negb (stop_reported (p_job child)) then a else w_stopped w in
        let co := if (w_continued w =? 0) && has options SCHED_WCONTINUED && continued (p_job child)
                  then a else w_continued w in
        wait_loop l pid match_pgid ppid options (mkScan (w_zombie w) st co true)
  end.

Definition wait_status (raw : Z) : Z :=
  if 128 <=? raw then Z.land (raw - 128) 127 else Z.shiftl (Z.land raw 255) 8.

(** The result, [*pid_out] and [*status_out]. *)
Definition sched_process_wait (parent pid options : Z) : M sched (Z * Z * Z) :=
  if parent =? 0 then ret (- EINVAL, 0, 0)
  else if has options (Z.lnot 11) then ret (- EINVAL, 0, 0)
  else
    let* pp := get_proc parent in
    let* l := gets process_list in
    let* w := wait_loop l pid (pgid pp) (p_pid pp) options (mkScan 0 0 0 false) in
    if negb (have_child w) then ret (- ECHILD, 0, 0)
    else if negb (w_zombie w =? 0) then
      let* z := get_proc (w_zombie w) in
      process_destroy (w_zombie w) ;;;
      ret (0, p_pid z, wait_status (p_exit_status z))
    else if negb (w_stopped w =? 0) then
      upd_proc (w_stopped w) (fun p => set_p_job (mkJob (stopped (p_job p)) (stop_signal (p_job p)) true
        (continued (p_job p))) p) ;;;
      let* z := get_proc (w_stopped w) in
      ret (0, p_pid z, Z.lor (Z.shiftl (Z.land (stop_signal (p_job z)) 255) 8) 127)
    else if negb (w_continued w =? 0) then
      upd_proc (w_continued w) (fun p => set_p_job (mkJob (stopped (p_job p)) (stop_signal (p_job p))
        (stop_reported (p_job p)) false) p) ;;;
      let* z := get_proc (w_continued w) in
      ret (0, p_pid z, 65535)
    else if has options SCHED_WNOHANG then ret (0, 0, 0)
    else ret (- EAGAIN, 0, 0).
End env.
