(* ===== verification/SchedSignalProps.v ===== *)
(** * Signals: the frame of a handler, masks

    What delivery writes on the user stack and what the return from a handler restores; the
    invariant that the two unblockable signals are never masked, over every operation that
    touches a thread. *)

From stdpp Require Import base gmap list.
From Stdlib Require Import ZArith Lia.
From S2P Require Import Prelude SchedState Sched SchedRunq SchedSignal.

Local Open Scope Z_scope.

(** ** Words in user memory *)

Lemma bytes_word_bytes v : 0 <= v < 2 ^ 64 -> bytes_word (word_bytes v) = v.
Proof.
  intros Hv. unfold word_bytes. cbn [seq map bytes_word].
  change (8 * Z.of_nat 0) with 0. change (8 * Z.of_nat 1) with 8. change (8 * Z.of_nat 2) with 16.
  change (8 * Z.of_nat 3) with 24. change (8 * Z.of_nat 4) with 32. change (8 * Z.of_nat 5) with 40.
  change (8 * Z.of_nat 6) with 48. change (8 * Z.of_nat 7) with 56. zdiv.
Qed.

(** The words [ws] are in memory from [a] on. *)
Fixpoint user_words (m : gmap Z Z) (a : Z) (ws : list Z) : Prop :=
  match ws with
  | [] => True
  | w :: ws => uload_bytes a 8 m = Some (word_bytes w) /\ user_words m (a + 8) ws
  end.
Definition is_word (w : Z) : Prop := 0 <= w < 2 ^ 64.

Lemma mapM_seq_lookup {A} (f : nat -> option A) k l :
  (forall i x, l !! i = Some x -> f (k + i)%nat = Some x) -> mapM f (seq k (length l)) = Some l.
Proof.
  revert k. induction l as [|y l IH]; intros k H; [done|]. cbn [length seq].
  cbn [mapM]. pose proof (H 0%nat y eq_refl) as H0. rewrite Nat.add_0_r in H0. rewrite H0.
  cbn [mbind option_bind]. rewrite (IH (S k)); [done|]. intros i x Hi.
  rewrite Nat.add_succ_comm. by apply (H (S i)).
Qed.
Lemma uload_bytes_lookup m a l :
  (forall i b, l !! i = Some b -> m !! (a + Z.of_nat i) = Some b) -> uload_bytes a (length l) m = Some l.
Proof. intros H. apply (mapM_seq_lookup (fun i => m !! (a + Z.of_nat i)) 0). intros i x. by apply H. Qed.
Lemma uload_bytes_inv m a n l :
  uload_bytes a n m = Some l -> forall i, (i < n)%nat -> m !! (a + Z.of_nat i) = l !! i.
Proof.
  unfold uload_bytes. intros H%mapM_Some_1 i Hi.
  assert (Hs : seq 0 n !! i = Some i) by (apply lookup_seq; lia).
  destruct (Forall2_lookup_l _ _ _ _ _ H Hs) as (y & Hy & E). cbn in E. congruence.
Qed.
Lemma uload_bytes_agree m m' a n :
  (forall x, a <= x < a + Z.of_nat n -> m' !! x = m !! x) -> uload_bytes a n m' = uload_bytes a n m.
Proof.
  intros H. unfold uload_bytes.
  assert (Hl : Forall (fun i => (i < n)%nat) (seq 0 n)) by (apply Forall_forall; intros i Hi%elem_of_seq; lia).
  induction Hl as [|i l Hi Hl IH]; [done|]. cbn [mapM]. rewrite H, IH by lia. done.
Qed.

Lemma user_words_agree m m' a ws :
  (forall x, a <= x < a + 8 * Z.of_nat (length ws) -> m' !! x = m !! x) -> user_words m a ws -> user_words m' a ws.
Proof.
  revert a. induction ws as [|w ws IH]; intros a H; [done|]. cbn [user_words length] in *. intros [H1 H2]. split.
  - rewrite <- H1. apply uload_bytes_agree. intros x Hx. apply H. lia.
  - apply IH; [|done]. intros x Hx. apply H. lia.
Qed.
Lemma user_words_drop m a ws n : user_words m a ws -> user_words m (a + 8 * Z.of_nat n) (drop n ws).
Proof.
  revert a ws. induction n as [|n IH]; intros a ws H; [by rewrite Z.add_0_r|].
  destruct ws as [|w ws]; [done|]. cbn [drop]. destruct H as [_ H]. apply IH in H.
  by replace (a + 8 * Z.of_nat (S n)) with (a + 8 + 8 * Z.of_nat n) by lia.
Qed.
Lemma user_words_take m a ws n : user_words m a ws -> user_words m a (take n ws).
Proof.
  revert a ws. induction n as [|n IH]; intros a ws H; [done|]. destruct ws as [|w ws]; [done|].
  destruct H as [H1 H2]. cbn. auto.
Qed.

Lemma user_words_load k a m ws :
  user_words m (a + 8 * Z.of_nat k) ws -> Forall is_word ws ->
  mapM (fun i => bytes_word <$> uload_bytes (a + 8 * Z.of_nat i) 8 m) (seq k (length ws)) = Some ws.
Proof.
  revert k. induction ws as [|w ws IH]; intros k H Hw; [done|]. apply Forall_cons in Hw as [Hw Hws].
  destruct H as [H1 H2]. cbn [length seq]. cbn [mapM]. rewrite H1. cbn [fmap option_fmap option_map mbind option_bind].
  rewrite (IH (S k)); [|by replace (a + 8 * Z.of_nat (S k)) with (a + 8 * Z.of_nat k + 8) by lia|done].
  rewrite bytes_word_bytes by done. reflexivity.
Qed.
Lemma uload_words a ws s : user_words (umem s) a ws -> Forall is_word ws -> uload a (length ws) s = Ret ws s.
Proof.
  intros H Hw. unfold uload. rewrite (user_words_load 0 a); [done| |done]. by rewrite Z.add_0_r.
Qed.
(** Part of what is there. *)
Lemma uload_part a ws i n s :
  user_words (umem s) a ws -> Forall is_word ws -> (i + n <= length ws)%nat ->
  uload (a + 8 * Z.of_nat i) n s = Ret (take n (drop i ws)) s.
Proof.
  intros H Hw Hl. assert (E : length (take n (drop i ws)) = n) by (rewrite length_take, length_drop; lia).
  rewrite <- E at 1. apply uload_words; [by apply user_words_take, user_words_drop|].
  by apply Forall_take, Forall_drop.
Qed.

Lemma ustore_bytes_spec l a m :
  (forall x, a <= x < a + Z.of_nat (length l) -> is_Some (m !! x)) ->
  exists m', ustore_bytes a l m = Some m' /\
    (forall i b, l !! i = Some b -> m' !! (a + Z.of_nat i) = Some b) /\
    (forall x, x < a \/ a + Z.of_nat (length l) <= x -> m' !! x = m !! x).
Proof.
  revert a m. induction l as [|b l IH]; intros a m H; [by exists m|]. cbn [ustore_bytes length] in *.
  destruct (H a) as [y Hy]; [lia|]. rewrite Hy.
  destruct (IH (a + 1) (<[a := b]> m)) as (m' & E & H1 & H2).
  { intros x Hx. rewrite lookup_insert_ne by lia. apply H. lia. }
  exists m'. split; [done|]. split.
  - intros [|i] b' Hb; cbn in Hb.
    + simplify_eq. rewrite Z.add_0_r, H2 by lia. by rewrite lookup_insert_eq.
    + replace (a + Z.of_nat (S i)) with (a + 1 + Z.of_nat i) by lia. auto.
  - intros x Hx. rewrite H2 by lia. apply lookup_insert_ne. lia.
Qed.
Lemma words_of_bytes m a ws :
  (forall i b, concat (map word_bytes ws) !! i = Some b -> m !! (a + Z.of_nat i) = Some b) -> user_words m a ws.
Proof.
  revert a. induction ws as [|w ws IH]; intros a H; [done|]. cbn [map concat user_words] in *. split.
  - apply (uload_bytes_lookup m a (word_bytes w)). intros i b Hi. apply H. by apply lookup_app_l_Some.
  - apply IH. intros i b Hi. replace (a + 8 + Z.of_nat i) with (a + Z.of_nat (8 + i)) by lia. apply H.
    rewrite lookup_app_r by (cbn; lia). by replace (8 + i - length (word_bytes w))%nat with i by (cbn; lia).
Qed.
Lemma length_words ws : length (concat (map word_bytes ws)) = (8 * length ws)%nat.
Proof. induction ws as [|w ws IH]; [done|]. cbn [map concat]. rewrite length_app, IH. cbn. lia. Qed.
Lemma ustore_spec a ws s :
  (forall x, a <= x < a + 8 * Z.of_nat (length ws) -> is_Some (umem s !! x)) ->
  exists m, ustore a ws s = Ret tt (set_umem m s) /\ user_words m a ws /\
    (forall x, x < a \/ a + 8 * Z.of_nat (length ws) <= x -> m !! x = umem s !! x).
Proof.
  intros H. destruct (ustore_bytes_spec (concat (map word_bytes ws)) a (umem s)) as (m & E & H1 & H2).
  { intros x. rewrite length_words. intros Hx. apply H. lia. }
  exists m. unfold ustore. rewrite E. split; [done|]. split; [by apply words_of_bytes|].
  intros x Hx. apply H2. rewrite length_words. lia.
Qed.

(** ** Delivery to a handler *)

Definition current_is (t : Z) (s : sched) : Prop :=
  t <> 0 /\ exists k, cpus s !! this_cpu s = Some k /\ current_thread k = t.

Lemma bind_current {B} t s (g : Z -> M sched B) : current_is t s -> bind sched_current g s = g t s.
Proof.
  intros [_ (k & Hk & <-)]. unfold sched_current. rewrite bind_assoc, bind_gets, bind_assoc.
  by rewrite (bind_cpu _ _ k).
Qed.
Lemma bind_frame {B} a f s (g : list Z -> M sched B) : frames s !! a = Some f -> bind (get_frame a) g s = g f s.
Proof. intros H. apply (bind_ret (get_frame a)). unfold get_frame. by rewrite H. Qed.

(** The current thread, in user mode with frame [f], gets [sig], for which its process has a
    handler; the stack has room for the frame of the handler. *)
Record delivery (frame sig : Z) (f : list Z) (t : Z) (x : tcb) (p : pcb) (s : sched) : Prop := {
  dl_frame : frame <> 0 /\ frames s !! frame = Some f;
  dl_words : length f = frame_words /\ Forall is_word f;
  dl_user : Z.land (nth F_CS f 0) 3 = 3;
  dl_thread : current_is t s /\ threads s !! t = Some x;
  dl_proc : t_process x <> 0 /\ procs s !! t_process x = Some p /\ dying p = false;
  dl_signal : first_signal 64 1 (process_pending_for_thread_locked p x) = sig /\ sig <> 0;
  dl_action : ignored (action_of p sig) sig = false /\ sa_handler (action_of p sig) <> SCHED_SIG_DFL;
  dl_restorer : sa_restorer (action_of p sig) <> 0 /\ is_word (sa_restorer (action_of p sig));
  dl_mask : is_word (signal_mask x);
  dl_range : signal_sp (nth F_RSP f 0) + sizeof_user_signal_frame <= VAS_USER_END;
  dl_mapped : forall y, signal_sp (nth F_RSP f 0) <= y < signal_sp (nth F_RSP f 0) + sizeof_user_signal_frame ->
              is_Some (umem s !! y) }.

(** The frame the handler starts with, the mask it runs under, and what is on its stack. *)
Definition handler_frame (sig : Z) (act : sigaction) (f : list Z) : list Z :=
  set_word F_RFLAGS (Z.lor (nth F_RFLAGS f 0) RFLAGS_IF) (set_word F_RSP (signal_sp (nth F_RSP f 0))
    (set_word F_RDI sig (set_word F_RIP (sa_handler act) f))).
Definition handler_mask (sig : Z) (act : sigaction) (x : tcb) : Z :=
  clr (Z.lor (signal_mask x) (Z.lor (signal_mask_valid (sa_mask act)) (SCHED_SIGNAL_BIT sig))) SCHED_UNBLOCKABLE_MASK.
Definition signal_words (sig : Z) (act : sigaction) (x : tcb) (f : list Z) : list Z :=
  [sa_restorer act; SCHED_SIGFRAME_MAGIC; sig; signal_mask x] ++ f.

Lemma first_signal_range n i d : let r := first_signal n i d in r = 0 \/ i <= r < i + Z.of_nat n.
Proof.
  revert i. induction n as [|n IH]; intros i; cbn [first_signal]; [by left|].
  destruct (has _ _); [right; lia|]. specialize (IH (i + 1)). cbn in IH. lia.
Qed.
Lemma signal_sp_range r : 0 <= signal_sp r < 2 ^ 64.
Proof. apply u64_range. Qed.
Lemma clr_15 x : clr x 15 = x - x `mod` 16.
Proof.
  unfold clr. change 15 with (Z.ones 4). rewrite Z.ldiff_ones_r by lia.
  rewrite Z.shiftr_div_pow2, Z.shiftl_mul_pow2 by lia. change (2 ^ 4) with 16. zdiv.
Qed.
Lemma signal_sp_aligned r : signal_sp r `mod` 16 = 8.
Proof. unfold signal_sp. rewrite clr_15. unfold u64. change (2 ^ 64) with 18446744073709551616. zdiv. Qed.
Lemma signal_sp_multiple r :
  r `mod` 16 = 0 -> sizeof_user_signal_frame <= r < 2 ^ 64 -> signal_sp r = r - 248.
Proof.
  unfold signal_sp, sizeof_user_signal_frame. intros Hm Hr. rewrite clr_15, (u64_small (r - 256)) by lia.
  rewrite u64_small; zdiv.
Qed.
Lemma mask_valid_same m : is_word m -> Z.land m SCHED_UNBLOCKABLE_MASK = 0 -> signal_mask_valid m = m.
Proof.
  intros Hm H. unfold signal_mask_valid, clr. rewrite u64_small by done.
  pose proof (Z.lor_ldiff_and m SCHED_UNBLOCKABLE_MASK) as E. by rewrite H, Z.lor_0_r in E.
Qed.
Lemma signal_words_ok frame sig f t x p s :
  delivery frame sig f t x p s ->
  let ws := signal_words sig (action_of p sig) x f in Forall is_word ws /\ length ws = 32%nat.
Proof.
  intros [_ [Hlen Hf] _ _ _ [Hsig Hs0] _ [_ Hr] Hm _ _] ws. split; [|by cbn; rewrite Hlen].
  pose proof (first_signal_range 64 1 (process_pending_for_thread_locked p x)) as Hrg. cbv zeta in Hrg. rewrite Hsig in Hrg.
  apply Forall_app. split; [|exact Hf]. rewrite !Forall_cons.
  split; [exact Hr|]. split; [unfold is_word, SCHED_SIGFRAME_MAGIC; lia|]. split; [unfold is_word; lia|].
  split; [exact Hm|constructor].
Qed.

Section env.
Context {envi : SchedEnv}.

Lemma deliver_spec frame sig f t x p s :
  delivery frame sig f t x p s ->
  exists m, sched_signal_deliver frame s = Ret frame
    (set_frames (<[frame := handler_frame sig (action_of p sig) f]> (frames s))
      (set_umem m
        (set_threads (<[t := set_signal_mask (handler_mask sig (action_of p sig) x) x]> (threads s))
          (set_procs (<[t_process x := set_pending_signals (clr (pending_signals p) (SCHED_SIGNAL_BIT sig)) p]> (procs s)) s)))) /\
    user_words m (signal_sp (nth F_RSP f 0)) (signal_words sig (action_of p sig) x f) /\
    (forall y, y < signal_sp (nth F_RSP f 0) \/ signal_sp (nth F_RSP f 0) + sizeof_user_signal_frame <= y ->
       m !! y = umem s !! y).
Proof.
  intros D. destruct (signal_words_ok _ _ _ _ _ _ _ D) as [_ Hlen].
  destruct D as [[Hf0 Hf] _ Hcs [Hcur Hx] (Ha & Hp & Hdy) [Hsig Hs0] [Hig Hdf] [Hre _] _ Hrange Hmap].
  set (act := action_of p sig) in *. set (sp := signal_sp (nth F_RSP f 0)) in *.
  unfold sched_signal_deliver. rewrite (proj2 (Z.eqb_neq frame 0)) by done.
  rewrite (bind_frame _ _ _ _ Hf), Hcs, Z.eqb_refl. cbn [negb]. rewrite (bind_current t _ _ Hcur).
  rewrite (proj2 (Z.eqb_neq t 0)) by apply Hcur. rewrite (bind_thread _ _ _ _ Hx). cbv zeta.
  rewrite (proj2 (Z.eqb_neq _ 0) Ha), (bind_proc _ _ _ _ Hp), Hdy, Hsig, (proj2 (Z.eqb_neq sig 0)) by done.
  fold act. rewrite (bind_upd_proc _ _ _ _ _ Hp), Hig, (proj2 (Z.eqb_neq _ _) Hdf).
  rewrite (bind_upd_thread _ _ t x) by done. rewrite (proj2 (Z.eqb_neq _ 0) Hre). fold sp.
  pose proof (signal_sp_range (nth F_RSP f 0)) as Hsp. fold sp in Hsp.
  assert (Hb : u64 (sp + sizeof_user_signal_frame) = sp + sizeof_user_signal_frame)
    by (apply u64_small; unfold sizeof_user_signal_frame, VAS_USER_END in *; lia).
  rewrite Hb, (proj2 (Z.leb_gt VAS_USER_END sp)), (proj2 (Z.ltb_ge VAS_USER_END (sp + _)))
    by (unfold sizeof_user_signal_frame in *; lia). cbn [orb].
  set (s1 := set_threads _ _). fold (signal_words sig act x f).
  destruct (ustore_spec sp (signal_words sig act x f) s1) as (m & E & Hw & Ho); rewrite Hlen in *; [exact Hmap|].
  exists m. rewrite (bind_ret _ _ _ _ _ E). split; [reflexivity|]. by split.
Qed.

(** ** Return from a handler *)

(** The handler's [ret] has taken the return address, so the stack pointer is one word past
    the start of the frame. *)
Lemma find_sigframe_spec sp sig rest s :
  0 <= sp -> sp + sizeof_user_signal_frame <= VAS_USER_END -> sig <> SCHED_SIGFRAME_MAGIC ->
  user_words (umem s) (sp + 8) ([SCHED_SIGFRAME_MAGIC; sig] ++ rest) -> is_word sig ->
  find_sigframe [sp + 8; u64 (sp + 8 - 8)] s = Ret (Some sp) s.
Proof.
  intros H0 Hr Hne Hw Hsw. cbn [find_sigframe]. replace (sp + 8 - 8) with sp by lia.
  rewrite u64_small by (unfold sizeof_user_signal_frame, VAS_USER_END in *; lia).
  assert (Hm : is_word SCHED_SIGFRAME_MAGIC) by (unfold is_word, SCHED_SIGFRAME_MAGIC; lia).
  assert (E1 : uload (sp + 8) 1 s = Ret [SCHED_SIGFRAME_MAGIC] s)
    by (apply (uload_words _ [SCHED_SIGFRAME_MAGIC]); [split; [apply Hw|done]|by constructor]).
  assert (E2 : uload (sp + 8 + 8) 1 s = Ret [sig] s)
    by (apply (uload_words _ [sig]); [split; [apply Hw|done]|by constructor]).
  assert (Hok : signal_frame_range_ok sp = true)
    by (unfold signal_frame_range_ok, sizeof_user_signal_frame in *; apply andb_true_intro; split; [apply Z.ltb_lt|apply Z.leb_le]; lia).
  assert (Hfind : (if negb (signal_frame_range_ok sp) then ret None
    else let* w := uload (sp + 8) 1 in if bool_decide (w = [SCHED_SIGFRAME_MAGIC]) then ret (Some sp) else ret None) s
      = Ret (Some sp) s)
    by (rewrite Hok; cbn [negb]; by rewrite (bind_ret _ _ _ _ _ E1), bool_decide_eq_true_2).
  destruct (negb (signal_frame_range_ok (sp + 8))); [exact Hfind|].
  rewrite (bind_ret _ _ _ _ _ E2), bool_decide_eq_false_2 by (intros [= E]; done). exact Hfind.
Qed.

(** The saved frame and mask are put in place, whatever they are. *)
Lemma return_spec frame f2 t x sp sig old saved s :
  frame <> 0 -> frames s !! frame = Some f2 -> nth F_RSP f2 0 = sp + 8 -> current_is t s -> threads s !! t = Some x ->
  0 <= sp -> sp + sizeof_user_signal_frame <= VAS_USER_END ->
  user_words (umem s) (sp + 8) ([SCHED_SIGFRAME_MAGIC; sig; old] ++ saved) ->
  Forall is_word (sig :: old :: saved) -> length saved = frame_words -> sig <> SCHED_SIGFRAME_MAGIC ->
  sched_signal_return frame s = Ret frame
    (set_frames (<[frame := saved]> (frames s))
      (set_threads (<[t := set_signal_mask (signal_mask_valid old) x]> (threads s)) s)).
Proof.
  intros Hf0 Hf Hrsp Hcur Hx H0 Hr Hw Hws Hlen Hne.
  assert (Hall : Forall is_word ([SCHED_SIGFRAME_MAGIC; sig; old] ++ saved))
    by (apply Forall_cons; split; [unfold is_word, SCHED_SIGFRAME_MAGIC; lia|done]).
  unfold sched_signal_return. rewrite (proj2 (Z.eqb_neq frame 0)) by done. rewrite (bind_current t _ _ Hcur).
  rewrite (proj2 (Z.eqb_neq t 0)) by apply Hcur. rewrite (bind_frame _ _ _ _ Hf). cbv zeta. rewrite Hrsp.
  rewrite (bind_ret _ _ _ _ _ (find_sigframe_spec sp sig (old :: saved) s H0 Hr Hne Hw (Forall_inv Hws))).
  pose proof (uload_part (sp + 8) _ 3 28 s Hw Hall) as E1. pose proof (uload_part (sp + 8) _ 2 1 s Hw Hall) as E2.
  cbn [app length drop] in E1, E2. rewrite Hlen in E1, E2.
  rewrite drop_0, (take_ge saved 28) in E1 by (rewrite Hlen; apply le_n).
  replace (sp + 8 + 8 * Z.of_nat 3) with (sp + 32) in E1 by lia.
  replace (sp + 8 + 8 * Z.of_nat 2) with (sp + 24) in E2 by lia.
  rewrite (bind_ret _ _ _ _ _ (E1 ltac:(unfold frame_words; lia))), (bind_ret _ _ _ _ _ (E2 ltac:(unfold frame_words; lia))).
  by rewrite (bind_upd_thread _ _ t x).
Qed.

(** Where the frame of a handler is: it ends at most 8 bytes above the interrupted stack
    pointer. *)
Lemma delivery_sp frame sig f t x p s :
  delivery frame sig f t x p s ->
  let rsp := nth F_RSP f 0 in signal_sp rsp = rsp - 248 - rsp `mod` 16 /\ is_word rsp.
Proof.
  intros [_ [Hlen Hf] _ _ _ _ _ _ _ Hrange _] rsp.
  assert (Hr : is_word rsp).
  { apply Forall_nth; [exact Hf|]. rewrite Hlen. unfold F_RSP, frame_words. lia. }
  split; [|exact Hr]. fold rsp in Hrange. unfold is_word in Hr. revert Hrange. unfold signal_sp, sizeof_user_signal_frame.
  rewrite clr_15. assert (VAS_USER_END < 2 ^ 63) by done. pose proof (Z.mod_pos_bound rsp 16 ltac:(lia)).
  destruct (decide (256 <= rsp)).
  - rewrite (u64_small (rsp - 256)) by lia. replace ((rsp - 256) `mod` 16) with (rsp `mod` 16) by zdiv.
    assert (0 <= rsp - 256 - rsp `mod` 16 + 8) by zdiv. rewrite u64_small; lia.
  - assert (u64 (rsp - 256) = rsp - 256 + 2 ^ 64) as -> by (symmetry; apply (Z.mod_unique _ _ (-1)); lia).
    pose proof (Z.mod_pos_bound (rsp - 256 + 2 ^ 64) 16 ltac:(lia)). rewrite u64_small by zdiv. lia.
Qed.

(** C15: delivering a signal to a handler and returning from it brings the interrupted
    registers and signal mask back.  The handler starts at its address with the signal as
    argument, on a stack aligned for a function entry, with the signal and the action's
    mask blocked; when it returns (its return address taken from the stack, the rest of
    the signal frame intact), the interrupted frame and the old mask are back, whatever
    else changed in between.  Of the memory of the program, delivery writes only the 256
    bytes of the signal frame, which begin 248 to 263 bytes below the interrupted stack
    pointer and end, depending on its alignment, 8 bytes above it at most, so that memory
    from there on is as it was, but the word at a stack pointer that is a multiple of 16
    is overwritten; the return writes nothing. *)
Theorem signal_roundtrip frame sig f t x p s :
  delivery frame sig f t x p s -> Z.land (signal_mask x) SCHED_UNBLOCKABLE_MASK = 0 ->
  let rsp := nth F_RSP f 0 in
  let sp := rsp - 248 - rsp `mod` 16 in
  exists s1, sched_signal_deliver frame s = Ret frame s1 /\
    frames s1 !! frame = Some (handler_frame sig (action_of p sig) f) /\
    threads s1 !! t = Some (set_signal_mask (handler_mask sig (action_of p sig) x) x) /\
    sp `mod` 16 = 8 /\
    (forall y, y < sp \/ sp + 256 <= y -> umem s1 !! y = umem s !! y) /\
    forall s2 frame2 f2 x2, frame2 <> 0 -> frames s2 !! frame2 = Some f2 -> nth F_RSP f2 0 = sp + 8 ->
      current_is t s2 -> threads s2 !! t = Some x2 ->
      (forall y, sp + 8 <= y < sp + sizeof_user_signal_frame -> umem s2 !! y = umem s1 !! y) ->
      exists s3, sched_signal_return frame2 s2 = Ret frame2 s3 /\ frames s3 !! frame2 = Some f /\
        threads s3 !! t = Some (set_signal_mask (signal_mask x) x2) /\ umem s3 = umem s2.
Proof.
  intros D Hmask rsp sp. destruct (deliver_spec _ _ _ _ _ _ _ D) as (m & E & Hw & Hout).
  destruct (delivery_sp _ _ _ _ _ _ _ D) as [Esp _]. fold rsp sp in Esp. fold rsp in Hw, Hout. rewrite Esp in Hw, Hout.
  destruct (signal_words_ok _ _ _ _ _ _ _ D) as [Hwords _].
  pose proof D as [_ [Hlen Hf] _ _ _ [Hsig Hs0] _ _ Hm Hr _]. fold rsp in Hr. rewrite Esp in Hr.
  pose proof (signal_sp_range rsp) as Hsp0. rewrite Esp in Hsp0.
  pose proof (first_signal_range 64 1 (process_pending_for_thread_locked p x)) as Hrg. cbv zeta in Hrg. rewrite Hsig in Hrg.
  eexists. split; [exact E|]. cbn [frames threads set_frames set_umem set_threads set_procs umem].
  rewrite !lookup_insert_eq. do 2 (split; [reflexivity|]). split; [rewrite <- Esp; apply signal_sp_aligned|]. split; [exact Hout|].
  intros s2 frame2 f2 x2 Hf2 Hfr Hrsp Hcur Hx2 Hmem.
  assert (Hw2 : user_words (umem s2) (sp + 8) ([SCHED_SIGFRAME_MAGIC; sig; signal_mask x] ++ f)).
  { apply (user_words_agree m); [|apply Hw]. intros y Hy. apply Hmem. revert Hy. cbn [app length]. rewrite Hlen.
    unfold sizeof_user_signal_frame, frame_words. lia. }
  eexists. split.
  - eapply (return_spec frame2 f2 t x2 sp); try done; [lia| |unfold SCHED_SIGFRAME_MAGIC; lia].
    unfold signal_words in Hwords. cbn [app] in Hwords. rewrite !Forall_cons in Hwords. rewrite !Forall_cons. tauto.
  - cbn [frames threads set_frames set_threads]. rewrite !lookup_insert_eq. split; [done|]. by rewrite mask_valid_same.
Qed.

(** the frame of a handler overlaps the interrupted stack: when the interrupted stack
    pointer is a multiple of 16, the last word of the signal frame, the stack segment,
    replaces the word the stack pointer points at. *)
Theorem signal_clobbers_stack frame sig f t x p s :
  delivery frame sig f t x p s -> nth F_RSP f 0 `mod` 16 = 0 -> sizeof_user_signal_frame <= nth F_RSP f 0 ->
  exists s1, sched_signal_deliver frame s = Ret frame s1 /\
    uload_bytes (nth F_RSP f 0) 8 (umem s1) = Some (word_bytes (nth F_SS f 0)).
Proof.
  intros D Hmod Hge. destruct (deliver_spec _ _ _ _ _ _ _ D) as (m & E & Hw & _).
  pose proof D as [_ [Hlen Hf] _ _ _ _ _ _ _ _ _]. eexists. split; [exact E|].
  change (umem _) with m. apply (user_words_drop _ _ _ 31) in Hw.
  assert (Hss : drop 31 (signal_words sig (action_of p sig) x f) = [nth F_SS f 0]).
  { unfold signal_words. cbn [app drop]. do 29 (destruct f as [|? f]; [try done|]); done. }
  rewrite Hss in Hw. destruct Hw as [Hw _]. rewrite <- Hw. f_equal.
  rewrite signal_sp_multiple; [|done|].
  - unfold sizeof_user_signal_frame. lia.
  - split; [done|]. assert (H26 : is_word (nth F_RSP f 0)); [|apply H26].
    apply Forall_nth; [done|]. rewrite Hlen. unfold F_RSP, frame_words. lia.
Qed.

(** the return from a handler checks nothing of the frame it restores: for every list of
    28 words a program puts behind the magic number on its stack, the interrupt frame of its
    system call becomes that list, privileged code segment and flags included. *)
Theorem sigreturn_unchecked frame f2 t x sp sig old saved s :
  frame <> 0 -> frames s !! frame = Some f2 -> nth F_RSP f2 0 = sp + 8 -> current_is t s -> threads s !! t = Some x ->
  0 <= sp -> sp + sizeof_user_signal_frame <= VAS_USER_END ->
  user_words (umem s) (sp + 8) ([SCHED_SIGFRAME_MAGIC; sig; old] ++ saved) ->
  Forall is_word (sig :: old :: saved) -> length saved = frame_words -> sig <> SCHED_SIGFRAME_MAGIC ->
  exists s', sched_signal_return frame s = Ret frame s' /\ frames s' !! frame = Some saved.
Proof.
  intros. eexists. split; [by eapply return_spec|]. cbn. by rewrite lookup_insert_eq.
Qed.
End env.
