(* ===== verification/SchedInv.v ===== *)
(** * What every operation of the scheduler keeps

    The state the scheduler reaches from its start by any sequence of its operations:
    SIGKILL and SIGSTOP are never masked, never caught and never in the mask of an action;
    the credentials of a process are those of its effective identifiers; the tables of a
    process keep their size; a zombie is on its way out. *)

From stdpp Require Import base gmap list.
From Stdlib Require Import ZArith Lia.
From S2P Require Import Prelude SchedState Sched SchedSignal SchedRunq.

Local Open Scope Z_scope.

Definition unmasked (m : Z) : Prop := Z.land m SCHED_UNBLOCKABLE_MASK = 0.

Record proc_ok (p : pcb) : Prop := {
  po_cred : p_cred p = process_refresh_cred (p_ids p);
  po_actions : length (sigactions p) = 65%nat /\ Forall (fun a => unmasked (sa_mask a)) (sigactions p) /\
    sigactions p !! Z.to_nat SCHED_SIGKILL = Some zero_sigaction /\
    sigactions p !! Z.to_nat SCHED_SIGSTOP = Some zero_sigaction;
  po_files : length (files p) = SCHED_FILE_MAX;
  po_zombie : zombie p = true -> dying p = true }.

Record sched_inv (s : sched) : Prop := {
  inv_threads : map_Forall (fun _ x => unmasked (signal_mask x)) (threads s);
  inv_procs : map_Forall (fun _ p => proc_ok p) (procs s) }.

Definition keeps (s s' : sched) : Prop := sched_inv s -> sched_inv s'.
#[global] Instance keeps_refl : Reflexive keeps.
Proof. intros s H. exact H. Qed.
#[global] Instance keeps_trans : Transitive keeps.
Proof. intros s1 s2 s3 H1 H2 H. by apply H2, H1. Qed.

Create HintDb schedinv.

(** ** Primitive operations *)

Lemma clr_unmasked m : unmasked (clr m SCHED_UNBLOCKABLE_MASK).
Proof. unfold unmasked, clr. apply Z.bits_inj'. intros n _. rewrite Z.land_spec, Z.ldiff_spec, Z.bits_0. by destruct (Z.testbit m n), (Z.testbit _ n). Qed.
Lemma mask_valid_unmasked m : unmasked (signal_mask_valid m).
Proof. apply clr_unmasked. Qed.

Lemma keeps_read {A} (m : M sched A) : (forall s a s', m s = Ret a s' -> s' = s) -> pres keeps m.
Proof. intros H s a s' E. by rewrite (H _ _ _ E). Qed.
Lemma keeps_get_thread a : pres keeps (get_thread a).
Proof. apply keeps_read. intros s x s'. unfold get_thread. case_match; congruence. Qed.
Lemma keeps_get_proc a : pres keeps (get_proc a).
Proof. apply keeps_read. intros s x s'. unfold get_proc. case_match; congruence. Qed.
Lemma keeps_get_cpu c : pres keeps (get_cpu c).
Proof. apply keeps_read. intros s x s'. unfold get_cpu. case_match; congruence. Qed.
Lemma keeps_get_frame a : pres keeps (get_frame a).
Proof. apply keeps_read. intros s x s'. unfold get_frame. case_match; congruence. Qed.
Lemma keeps_uload a n : pres keeps (uload a n).
Proof. apply keeps_read. intros s x s'. unfold uload. case_match; congruence. Qed.
Lemma keeps_diverge {A} : pres keeps (@diverge sched A).
Proof. by intros s a s'. Qed.

(** A write elsewhere. *)
Lemma keeps_modify_other f :
  (forall s, threads (f s) = threads s) -> (forall s, procs (f s) = procs s) -> pres keeps (modify f).
Proof. intros Ht Hp s a s' [= _ <-] [H1 H2]. split; [by rewrite Ht|by rewrite Hp]. Qed.
Lemma keeps_upd_cpu c f : pres keeps (upd_cpu c f).
Proof. apply pres_bind; [typeclasses eauto|apply keeps_get_cpu|]. intros _. by apply keeps_modify_other. Qed.
Lemma keeps_emit e : pres keeps (emit e).
Proof. by apply keeps_modify_other. Qed.
Lemma keeps_put_frame a f : pres keeps (put_frame a f).
Proof. by apply keeps_modify_other. Qed.
Lemma keeps_ustore a ws : pres keeps (ustore a ws).
Proof. intros s x s'. unfold ustore. case_match; [|done]. intros [= _ <-] [H1 H2]. by split. Qed.
Lemma keeps_kzalloc : pres keeps kzalloc.
Proof. intros s x s' [= _ <-] [H1 H2]. by split. Qed.

Lemma keeps_upd_thread a f :
  (forall x, unmasked (signal_mask x) -> unmasked (signal_mask (f x))) -> pres keeps (upd_thread a f).
Proof.
  intros Hf s x s'. unfold upd_thread, get_thread, bind. destruct (threads s !! a) as [y|] eqn:E; [|done].
  intros [= _ <-] [H1 H2]. split; [|done]. apply map_Forall_insert_2; [|done]. apply Hf. by apply (H1 a).
Qed.
Lemma keeps_upd_proc a f : (forall p, proc_ok p -> proc_ok (f p)) -> pres keeps (upd_proc a f).
Proof.
  intros Hf s x s'. unfold upd_proc, get_proc, bind. destruct (procs s !! a) as [y|] eqn:E; [|done].
  intros [= _ <-] [H1 H2]. split; [done|]. apply map_Forall_insert_2; [|done]. apply Hf. by apply (H2 a).
Qed.
Lemma keeps_new_thread t x : unmasked (signal_mask x) -> pres keeps (modify (fun s => set_threads (<[t := x]> (threads s)) s)).
Proof. intros H s u s' [= _ <-] [H1 H2]. split; [|done]. by apply map_Forall_insert_2. Qed.
Lemma keeps_new_proc a p : proc_ok p -> pres keeps (modify (fun s => set_procs (<[a := p]> (procs s)) s)).
Proof. intros H s u s' [= _ <-] [H1 H2]. split; [done|]. by apply map_Forall_insert_2. Qed.
Lemma keeps_kfree_thread t : pres keeps (kfree_thread t).
Proof.
  apply pres_bind; [typeclasses eauto|apply keeps_get_thread|]. intros _ s u s' [= _ <-] [H1 H2].
  split; [|done]. by apply map_Forall_delete.
Qed.
Lemma keeps_kfree_proc a : pres keeps (kfree_proc a).
Proof.
  apply pres_bind; [typeclasses eauto|apply keeps_get_proc|]. intros _ s u s' [= _ <-] [H1 H2].
  split; [done|]. by apply map_Forall_delete.
Qed.

#[export] Hint Resolve keeps_get_thread keeps_get_proc keeps_get_cpu keeps_get_frame keeps_uload keeps_diverge
  keeps_upd_cpu keeps_emit keeps_put_frame keeps_ustore keeps_kzalloc keeps_kfree_thread keeps_kfree_proc
  clr_unmasked mask_valid_unmasked : schedinv.

(** A change of a process outside what [proc_ok] speaks of. *)
Definition same_proc (f : pcb -> pcb) : Prop := forall p,
  p_cred (f p) = p_cred p /\ p_ids (f p) = p_ids p /\ sigactions (f p) = sigactions p /\ files (f p) = files p /\
  (zombie (f p) = zombie p) /\ (dying p = true -> dying (f p) = true).
Lemma keeps_upd_same a f : same_proc f -> pres keeps (upd_proc a f).
Proof.
  intros Hf. apply keeps_upd_proc. intros p [H1 H2 H3 H4]. destruct (Hf p) as (E1 & E2 & E3 & E4 & E5 & E6).
  split; [by rewrite E1, E2|by rewrite E3|by rewrite E4|]. rewrite E5. auto.
Qed.

Ltac keep1 :=
  lazymatch goal with
  | |- pres _ (modify _) => apply keeps_modify_other; reflexivity
  | |- pres _ (upd_proc _ _) => apply keeps_upd_same; by intros []
  | |- pres _ (upd_thread _ _) => apply keeps_upd_thread; intros ? ?; cbn; solve [assumption | eauto with schedinv]
  | |- pres _ _ => solve [eauto with schedinv]
  end.
Ltac keep := pres_go; try keep1.

(** ** The operations *)

Section env.
Context {envi : SchedEnv}.

Lemma keeps_for_list l f : (forall a, pres keeps (f a)) -> pres keeps (for_list l f).
Proof. intros H. induction l as [|a l IH]; cbn [for_list]; keep; auto. Qed.

Lemma keeps_id_alloc n : pres keeps (id_alloc n).
Proof.
  intros s a s'. unfold id_alloc. destruct (pool_alloc _) as [id p]. intros [= _ <-] [H1 H2].
  by destruct n; split.
Qed.
#[local] Hint Resolve keeps_id_alloc : schedinv.
Lemma keeps_id_free n id : pres keeps (id_free n id).
Proof. unfold id_free. keep. by apply keeps_modify_other; destruct n. Qed.
#[local] Hint Resolve keeps_id_free : schedinv.
Lemma keeps_runq_push c t : pres keeps (runq_push_locked c t).
Proof. unfold runq_push_locked. keep. Qed.
Lemma keeps_runq_pop c : pres keeps (runq_pop_locked c).
Proof. unfold runq_pop_locked. keep. Qed.
Lemma keeps_kstack_alloc n : pres keeps (kstack_alloc n).
Proof. unfold kstack_alloc. keep. Qed.
Lemma keeps_kstack_free b t : pres keeps (kstack_free b t).
Proof. unfold kstack_free. keep. Qed.
Lemma keeps_unlink a : pres keeps (process_unlink_locked a).
Proof. unfold process_unlink_locked. keep. Qed.
Lemma keeps_link a : pres keeps (process_link_locked a).
Proof. unfold process_link_locked. keep. Qed.
Lemma keeps_add_thread a t : pres keeps (process_add_thread a t).
Proof. unfold process_add_thread. keep. Qed.
#[local] Hint Resolve keeps_runq_push keeps_runq_pop keeps_kstack_alloc keeps_kstack_free keeps_unlink keeps_link
  keeps_add_thread : schedinv.

Lemma keeps_make_zombie a st :
  pres keeps (upd_proc a (fun p => set_dying true (set_p_exit_status st p)) ;;; upd_proc a (set_zombie true)).
Proof.
  intros s u s'. destruct (procs s !! a) as [p|] eqn:E; [|unfold upd_proc, get_proc, bind; by rewrite E].
  rewrite (bind_upd_proc _ _ a p) by done. rewrite (run_upd_proc _ a (set_dying true (set_p_exit_status st p)))
    by (cbn; by rewrite lookup_insert_eq).
  intros [= _ <-] [H1 H2]. split; [done|]. cbn. rewrite insert_insert_eq. apply map_Forall_insert_2; [|done].
  destruct (H2 a p E). by split.
Qed.
Lemma keeps_exit_tail {A} a st (b : bool) (x y : A) :
  pres keeps (upd_proc a (fun p => set_dying true (set_p_exit_status st p)) ;;;
    if b then upd_proc a (set_zombie true) ;;; ret x else ret y).
Proof.
  destruct b; [|keep]. intros s u s'. rewrite <- bind_assoc. revert s u s'.
  apply pres_bind; [typeclasses eauto|apply keeps_make_zombie|]. intros _. keep.
Qed.
Lemma keeps_remove_thread t st : pres keeps (process_remove_thread t st).
Proof.
  unfold process_remove_thread. apply pres_bind; [typeclasses eauto|keep1|intros x]. cbv zeta.
  destruct (t_process x =? 0); [keep|]. apply pres_bind; [typeclasses eauto|keep1|intros p].
  destruct (negb _); [keep|]. apply pres_bind; [typeclasses eauto|keep1|intros _].
  destruct (_ && _); [apply keeps_exit_tail|keep].
Qed.
Lemma keeps_reparent o n : pres keeps (process_reparent_children o n).
Proof. unfold process_reparent_children. keep. apply keeps_for_list. intros b. keep. Qed.
Lemma keeps_notify l a sig : pres keeps (notify_loop l a sig).
Proof. induction l as [|b l IH]; cbn [notify_loop]; keep; done. Qed.
#[local] Hint Resolve keeps_remove_thread keeps_reparent keeps_notify : schedinv.
Lemma keeps_notify_parent a sig : pres keeps (process_notify_parent_signal a sig).
Proof. unfold process_notify_parent_signal. keep. Qed.
Lemma keeps_terminate a sig : pres keeps (process_terminate_by_signal_locked a sig).
Proof. unfold process_terminate_by_signal_locked. keep. Qed.
#[local] Hint Resolve keeps_notify_parent keeps_terminate : schedinv.
Lemma keeps_finish c t f st : pres keeps (thread_finish_locked c t f st).
Proof. unfold thread_finish_locked, thread_queue_reap. keep. Qed.
#[local] Hint Resolve keeps_finish : schedinv.
Lemma keeps_finish_current c f st : pres keeps (thread_finish_current_locked c f st).
Proof. unfold thread_finish_current_locked. keep. Qed.
Lemma keeps_switch c t : pres keeps (switch_to_thread c t).
Proof. unfold switch_to_thread. keep. Qed.
Lemma keeps_dying x : pres keeps (thread_dying x).
Proof. unfold thread_dying. keep. Qed.
Lemma keeps_exit_code x : pres keeps (thread_exit_code x).
Proof. unfold thread_exit_code. keep. Qed.
#[local] Hint Resolve keeps_finish_current keeps_switch keeps_dying keeps_exit_code : schedinv.
Lemma keeps_pick fuel c : pres keeps (pick_next fuel c).
Proof. induction fuel as [|n IH]; cbn [pick_next]; keep; done. Qed.
#[local] Hint Resolve keeps_pick : schedinv.
Lemma keeps_schedule c f b : pres keeps (schedule_locked c f b).
Proof. unfold schedule_locked. keep. Qed.
#[local] Hint Resolve keeps_schedule : schedinv.

Lemma keeps_set_file a fd f : pres keeps (set_file a fd f).
Proof.
  unfold set_file. apply keeps_upd_proc. intros p [H1 H2 H3 H4]. split; try done. cbn. by rewrite length_insert.
Qed.
#[local] Hint Resolve keeps_set_file : schedinv.
Lemma keeps_close_fd a fd : pres keeps (close_fd a fd).
Proof. unfold close_fd. keep. Qed.
#[local] Hint Resolve keeps_close_fd : schedinv.
Lemma keeps_setup_fds a : pres keeps (process_setup_fds a).
Proof. unfold process_setup_fds, vfs_open. keep. Qed.
Lemma new_pcb_ok pid n v : proc_ok (new_pcb pid n v).
Proof.
  split; [done| |done|done]. split; [done|]. split; [|done]. apply Forall_replicate. reflexivity.
Qed.
#[local] Hint Resolve keeps_setup_fds keeps_new_proc new_pcb_ok : schedinv.
Lemma keeps_process_alloc_id n v pid : pres keeps (process_alloc_id n v pid).
Proof. unfold process_alloc_id. keep. eauto with schedinv. Qed.
#[local] Hint Resolve keeps_process_alloc_id : schedinv.
Lemma keeps_process_alloc n v : pres keeps (process_alloc n v).
Proof. unfold process_alloc. keep. Qed.
Lemma keeps_process_free a : pres keeps (process_free a).
Proof. unfold process_free. keep. apply keeps_for_list. intros f. keep. Qed.
#[local] Hint Resolve keeps_process_alloc keeps_process_free : schedinv.
Lemma keeps_destroy a : pres keeps (process_destroy a).
Proof. unfold process_destroy. keep. Qed.
#[local] Hint Resolve keeps_destroy : schedinv.

Lemma keeps_frame_kernel t r : pres keeps (frame_init_kernel t r).
Proof. unfold frame_init_kernel. keep. Qed.
Lemma keeps_frame_user t r u : pres keeps (frame_init_user t r u).
Proof. unfold frame_init_user. keep. Qed.
#[local] Hint Resolve keeps_frame_kernel keeps_frame_user : schedinv.
Lemma keeps_thread_alloc a n e x i : pres keeps (thread_alloc a n e x i).
Proof. unfold thread_alloc. keep. by apply keeps_new_thread. Qed.
#[local] Hint Resolve keeps_thread_alloc : schedinv.
Lemma keeps_idle_loop n c me i : pres keeps (idle_loop n c me i).
Proof. revert c. induction n as [|n IH]; intros c; cbn [idle_loop]; keep; auto. Qed.
#[local] Hint Resolve keeps_idle_loop : schedinv.
Lemma keeps_init : pres keeps sched_init.
Proof. unfold sched_init, sched_cpu_init. keep. by apply keeps_new_thread. Qed.
Lemma keeps_enqueue_new c t : pres keeps (enqueue_new c t).
Proof. unfold enqueue_new. keep. Qed.
Lemma keeps_current : pres keeps sched_current.
Proof. unfold sched_current. keep. Qed.
#[local] Hint Resolve keeps_enqueue_new keeps_current : schedinv.
Lemma keeps_create_on a n e x c : pres keeps (sched_create_thread_on_cpu a n e x c).
Proof. unfold sched_create_thread_on_cpu, may_create. keep. Qed.
#[local] Hint Resolve keeps_create_on : schedinv.
Lemma keeps_thread_reap t : pres keeps (thread_reap t).
Proof. unfold thread_reap. keep. Qed.
#[local] Hint Resolve keeps_thread_reap : schedinv.
Lemma keeps_reap_loop n c t : pres keeps (reap_loop n c t).
Proof. induction n as [|n IH]; cbn [reap_loop]; keep; done. Qed.
Lemma keeps_count_threads l f : pres keeps (count_threads l f).
Proof. induction l as [|a l IH]; cbn [count_threads]; keep; done. Qed.
#[local] Hint Resolve keeps_reap_loop keeps_count_threads : schedinv.
Lemma keeps_count l pf f : pres keeps (count_processes l pf f).
Proof. induction l as [|a l IH]; cbn [count_processes]; keep; done. Qed.
#[local] Hint Resolve keeps_count : schedinv.
Lemma keeps_tick b f : pres keeps (sched_tick b f).
Proof. unfold sched_tick, loadavg_tick, sched_loadavg_task_counts, sched_reap_current_cpu. keep. Qed.
Lemma keeps_sleep_hint b : pres keeps (sched_sleep_hint b).
Proof. unfold sched_sleep_hint. keep. Qed.

(** *** Identity, names, directories *)

Lemma set_ids_ok i p : proc_ok p -> proc_ok (set_ids i p).
Proof. by intros []; split. Qed.
Ltac keep_ids := first [apply keeps_upd_proc; intros ?; apply set_ids_ok | keep1].
Lemma keeps_setuid a u : pres keeps (sched_process_setuid a u).
Proof. unfold sched_process_setuid. pres_go; keep_ids. Qed.
Lemma keeps_setgid a u : pres keeps (sched_process_setgid a u).
Proof. unfold sched_process_setgid. pres_go; keep_ids. Qed.
Lemma keeps_seteuid a u : pres keeps (sched_process_seteuid a u).
Proof. unfold sched_process_seteuid. pres_go; keep_ids. Qed.
Lemma keeps_setegid a u : pres keeps (sched_process_setegid a u).
Proof. unfold sched_process_setegid. pres_go; keep_ids. Qed.
Lemma keeps_copy_ids d a : pres keeps (sched_process_copy_ids d a).
Proof.
  unfold sched_process_copy_ids. destruct (_ || _); [keep|]. intros s u s'.
  destruct (procs s !! a) as [q|] eqn:E; [|unfold bind, get_proc; by rewrite E].
  rewrite (bind_proc _ _ _ _ E). destruct (procs s !! d) as [p|] eqn:Ep; [|unfold upd_proc, bind, get_proc; by rewrite Ep].
  rewrite (run_upd_proc _ d p) by done. intros [= _ <-] [H1 H2]. split; [done|]. apply map_Forall_insert_2; [|done].
  destruct (H2 a q E), (H2 d p Ep). by split.
Qed.
Lemma keeps_find_proc l t : pres keeps (find_proc l t).
Proof. induction l as [|a l IH]; cbn [find_proc]; keep; done. Qed.
#[local] Hint Resolve keeps_find_proc : schedinv.
Lemma keeps_setpgid a b g : pres keeps (sched_process_setpgid a b g).
Proof. unfold sched_process_setpgid, find_pid. keep. Qed.
Lemma keeps_group_taken l a b : pres keeps (group_taken l a b).
Proof. induction l as [|x l IH]; cbn [group_taken]; keep; done. Qed.
#[local] Hint Resolve keeps_group_taken : schedinv.
Lemma keeps_setsid a : pres keeps (sched_process_setsid a).
Proof. unfold sched_process_setsid. keep. Qed.

(** *** Signals and waiting *)

Lemma keeps_tell l a : pres keeps (tell_parent l a).
Proof. induction l as [|x l IH]; cbn [tell_parent]; keep; done. Qed.
#[local] Hint Resolve keeps_tell : schedinv.
Lemma keeps_signal_target a sig : pres keeps (signal_target a sig).
Proof. unfold signal_target. keep. Qed.
#[local] Hint Resolve keeps_signal_target : schedinv.
Lemma keeps_signal_loop l a b sig d e : pres keeps (signal_loop l a b sig d e).
Proof. revert d e. induction l as [|x l IH]; intros d e; cbn [signal_loop]; keep; auto. Qed.
Lemma keeps_group_loop l g sig d : pres keeps (group_loop l g sig d).
Proof. revert d. induction l as [|x l IH]; intros d; cbn [group_loop]; keep; auto. Qed.
#[local] Hint Resolve keeps_signal_loop keeps_group_loop : schedinv.
Lemma keeps_signal a b sig : pres keeps (sched_process_signal a b sig).
Proof. unfold sched_process_signal. keep. Qed.
Lemma keeps_signal_group g sig : pres keeps (sched_process_signal_group g sig).
Proof. unfold sched_process_signal_group. keep. Qed.

Lemma action_ok sig x p :
  (sig =? SCHED_SIGKILL) || (sig =? SCHED_SIGSTOP) = false -> signal_valid sig = true -> proc_ok p ->
  proc_ok (set_sigactions (<[Z.to_nat sig :=
    mkSigaction (sa_handler x) (sa_flags x) (sa_restorer x) (signal_mask_valid (sa_mask x))]> (sigactions p)) p).
Proof.
  intros [Hk Hs]%orb_false_iff Hv [H1 (H2 & H3 & H4 & H5) H6 H7]. unfold signal_valid in Hv. bools.
  split; try done. cbn [sigactions set_sigactions]. rewrite length_insert. split; [done|]. split.
  - apply Forall_insert; [done|]. apply mask_valid_unmasked.
  - rewrite !list_lookup_insert_ne; [done|..]; unfold SCHED_SIGKILL, SCHED_SIGSTOP in *; lia.
Qed.
Lemma keeps_action a sig act : pres keeps (sched_signal_action a sig act).
Proof.
  unfold sched_signal_action. keep. apply keeps_upd_proc. intros p. apply action_ok; [done|].
  destruct (signal_valid sig); [done|]. by rewrite orb_true_r in *.
Qed.
Lemma keeps_procmask t how m : pres keeps (sched_signal_procmask t how m).
Proof. unfold sched_signal_procmask. keep. Qed.
Lemma keeps_finish_switch f st : pres keeps (finish_and_switch f st).
Proof. unfold finish_and_switch. keep. Qed.
#[local] Hint Resolve keeps_finish_switch : schedinv.
Lemma keeps_deliver f : pres keeps (sched_signal_deliver f).
Proof. unfold sched_signal_deliver. keep. Qed.
Lemma keeps_find_sigframe l : pres keeps (find_sigframe l).
Proof. induction l as [|a l IH]; cbn [find_sigframe]; keep; done. Qed.
#[local] Hint Resolve keeps_find_sigframe : schedinv.
Lemma keeps_return f : pres keeps (sched_signal_return f).
Proof. unfold sched_signal_return. keep. Qed.
Lemma keeps_exception f sig : pres keeps (sched_handle_user_exception f sig).
Proof. unfold sched_handle_user_exception. keep. Qed.
Lemma keeps_wait_loop l pid g pp o w : pres keeps (wait_loop l pid g pp o w).
Proof. revert w. induction l as [|a l IH]; intros w; cbn [wait_loop]; keep; auto. Qed.
#[local] Hint Resolve keeps_wait_loop : schedinv.
Lemma keeps_wait a pid o : pres keeps (sched_process_wait a pid o).
Proof. unfold sched_process_wait. keep. Qed.

(** *** The rest of the interface *)

Lemma keeps_process_create n v : pres keeps (sched_process_create n v).
Proof. unfold sched_process_create. keep. Qed.
Lemma keeps_discard a : pres keeps (sched_process_discard a).
Proof. unfold sched_process_discard. keep. Qed.
Lemma keeps_set_parent a b : pres keeps (sched_process_set_parent a b).
Proof. unfold sched_process_set_parent. keep. Qed.
Lemma keeps_process_name a n : pres keeps (sched_process_set_name a n).
Proof. unfold sched_process_set_name. keep. Qed.
Lemma keeps_thread_name a n : pres keeps (sched_thread_set_name a n).
Proof. unfold sched_thread_set_name. keep. Qed.
Lemma keeps_setcwd a p : pres keeps (sched_process_setcwd a p).
Proof. unfold sched_process_setcwd. keep. Qed.
Lemma keeps_copy_cwd a b : pres keeps (sched_process_copy_cwd a b).
Proof. unfold sched_process_copy_cwd. keep. Qed.
Lemma keeps_create a n e x : pres keeps (sched_create_thread a n e x).
Proof. unfold sched_create_thread, may_create. keep. Qed.
Lemma keeps_create_user a n i u : pres keeps (sched_create_user_thread a n i u).
Proof. unfold sched_create_user_thread, may_create. keep. Qed.
Lemma keeps_fork a n f : pres keeps (sched_fork_thread a n f).
Proof. unfold sched_fork_thread, may_create. keep. Qed.
Lemma keeps_prepare t i u : pres keeps (sched_prepare_user t i u).
Proof. unfold sched_prepare_user. keep. Qed.
Lemma keeps_enter : pres keeps sched_enter_user.
Proof. unfold sched_enter_user. keep. Qed.
Lemma keeps_idle : pres keeps sched_idle_loop.
Proof. unfold sched_idle_loop. keep. Qed.
Lemma keeps_reap : pres keeps sched_reap_current_cpu.
Proof. unfold sched_reap_current_cpu. keep. Qed.
Lemma keeps_exit f st : pres keeps (sched_syscall_exit f st).
Proof. unfold sched_syscall_exit. keep. Qed.
Lemma keeps_thread_exit st : pres keeps (sched_thread_exit st).
Proof. unfold sched_thread_exit. keep. Qed.
End env.

(** ** Reachable states *)

Section steps.
Context {envi : SchedEnv}.

(** One call of the scheduler by the rest of the kernel, or a change outside it. *)
Inductive sched_step (s s' : sched) : Prop :=
| step_init r : sched_init s = Ret r s' -> sched_step s s'
| step_process_create n v r : sched_process_create n v s = Ret r s' -> sched_step s s'
| step_process_discard a r : sched_process_discard a s = Ret r s' -> sched_step s s'
| step_set_parent a b r : sched_process_set_parent a b s = Ret r s' -> sched_step s s'
| step_process_name a n r : sched_process_set_name a n s = Ret r s' -> sched_step s s'
| step_thread_name t n r : sched_thread_set_name t n s = Ret r s' -> sched_step s s'
| step_copy_ids a b r : sched_process_copy_ids a b s = Ret r s' -> sched_step s s'
| step_setuid a u r : sched_process_setuid a u s = Ret r s' -> sched_step s s'
| step_setgid a u r : sched_process_setgid a u s = Ret r s' -> sched_step s s'
| step_seteuid a u r : sched_process_seteuid a u s = Ret r s' -> sched_step s s'
| step_setegid a u r : sched_process_setegid a u s = Ret r s' -> sched_step s s'
| step_setcwd a p r : sched_process_setcwd a p s = Ret r s' -> sched_step s s'
| step_copy_cwd a b r : sched_process_copy_cwd a b s = Ret r s' -> sched_step s s'
| step_setpgid a b g r : sched_process_setpgid a b g s = Ret r s' -> sched_step s s'
| step_setsid a r : sched_process_setsid a s = Ret r s' -> sched_step s s'
| step_create_thread a n e x r : sched_create_thread a n e x s = Ret r s' -> sched_step s s'
| step_create_user a n i u r : sched_create_user_thread a n i u s = Ret r s' -> sched_step s s'
| step_fork a n f r : sched_fork_thread a n f s = Ret r s' -> sched_step s s'
| step_prepare_user t i u r : sched_prepare_user t i u s = Ret r s' -> sched_step s s'
| step_enter_user r : sched_enter_user s = Ret r s' -> sched_step s s'
| step_tick b f r : sched_tick b f s = Ret r s' -> sched_step s s'
| step_reap r : sched_reap_current_cpu s = Ret r s' -> sched_step s s'
| step_exit f st r : sched_syscall_exit f st s = Ret r s' -> sched_step s s'
| step_thread_exit st r : sched_thread_exit st s = Ret r s' -> sched_step s s'
| step_idle r : sched_idle_loop s = Ret r s' -> sched_step s s'
| step_sleep b r : sched_sleep_hint b s = Ret r s' -> sched_step s s'
| step_signal a b sig r : sched_process_signal a b sig s = Ret r s' -> sched_step s s'
| step_signal_group g sig r : sched_process_signal_group g sig s = Ret r s' -> sched_step s s'
| step_action a sig act r : sched_signal_action a sig act s = Ret r s' -> sched_step s s'
| step_procmask t how m r : sched_signal_procmask t how m s = Ret r s' -> sched_step s s'
| step_deliver f r : sched_signal_deliver f s = Ret r s' -> sched_step s s'
| step_return f r : sched_signal_return f s = Ret r s' -> sched_step s s'
| step_exception f sig r : sched_handle_user_exception f sig s = Ret r s' -> sched_step s s'
| step_wait a pid o r : sched_process_wait a pid o s = Ret r s' -> sched_step s s'
| step_outside : threads s' = threads s -> procs s' = procs s -> sched_step s s'.

Lemma step_keeps s s' : sched_step s s' -> keeps s s'.
Proof.
  intros H. inversion H as [| | | | | | | | | | | | | | | | | | | | | | | | | | | | | | | | | |Ht Hp];
    [..|by intros [H1 H2]; split; rewrite ?Ht, ?Hp].
  - by eapply keeps_init.
  - by eapply keeps_process_create.
  - by eapply keeps_discard.
  - by eapply keeps_set_parent.
  - by eapply keeps_process_name.
  - by eapply keeps_thread_name.
  - by eapply keeps_copy_ids.
  - by eapply keeps_setuid.
  - by eapply keeps_setgid.
  - by eapply keeps_seteuid.
  - by eapply keeps_setegid.
  - by eapply keeps_setcwd.
  - by eapply keeps_copy_cwd.
  - by eapply keeps_setpgid.
  - by eapply keeps_setsid.
  - by eapply keeps_create.
  - by eapply keeps_create_user.
  - by eapply keeps_fork.
  - by eapply keeps_prepare.
  - by eapply keeps_enter.
  - by eapply keeps_tick.
  - by eapply keeps_reap.
  - by eapply keeps_exit.
  - by eapply keeps_thread_exit.
  - by eapply keeps_idle.
  - by eapply keeps_sleep_hint.
  - by eapply keeps_signal.
  - by eapply keeps_signal_group.
  - by eapply keeps_action.
  - by eapply keeps_procmask.
  - by eapply keeps_deliver.
  - by eapply keeps_return.
  - by eapply keeps_exception.
  - by eapply keeps_wait.
Qed.

(** C9: in every state the scheduler reaches from its start, by any sequence of its
    operations and of changes outside it, no thread masks SIGKILL or SIGSTOP, no process
    catches or ignores them or has them in the mask of an action, the credentials of every
    process are those of its effective identifiers, its tables of files and actions have
    their full size, and a zombie is marked dying. *)
Theorem sched_invariant s0 s :
  threads s0 = ∅ -> procs s0 = ∅ -> rtc sched_step s0 s -> sched_inv s.
Proof.
  intros Ht Hp R. assert (H0 : sched_inv s0) by (split; [rewrite Ht|rewrite Hp]; apply map_Forall_empty).
  clear Ht Hp. revert H0. induction R as [s|s1 s2 s3 H12 _ IH]; [done|]. intros H1. by apply IH, (step_keeps s1).
Qed.
End steps.
