(* ===== verification/SchedExit.v ===== *)
(** * From exit to wait

    The last thread of a process exits: the process becomes a zombie with its status; the
    parent that waits for it gets the number and the status, the files are closed, and the
    process and its number are gone. *)

From stdpp Require Import base gmap list.
From Stdlib Require Import ZArith Lia.
From S2P Require Import Prelude SchedState Sched SchedSignal SchedRunq SchedProps.

Local Open Scope Z_scope.

(** What the end of a process with number [old] leaves of another one. *)
Record kept_proc (old : Z) (q q' : pcb) : Prop := {
  kp_pid : p_pid q' = p_pid q;
  kp_ppid : p_ppid q <> old -> p_ppid q' = p_ppid q;
  kp_zombie : zombie q' = zombie q;
  kp_status : p_exit_status q' = p_exit_status q;
  kp_files : files q' = files q;
  kp_pgid : pgid q' = pgid q }.
Definition kept_procs (old : Z) (m m' : gmap Z pcb) : Prop := forall b, option_Forall2 (kept_proc old) (m !! b) (m' !! b).

Lemma kept_procs_refl old m : kept_procs old m m.
Proof. intros b. destruct (m !! b); constructor. by split. Qed.
Lemma kept_procs_trans old m1 m2 m3 : kept_procs old m1 m2 -> kept_procs old m2 m3 -> kept_procs old m1 m3.
Proof.
  intros H1 H2 b. specialize (H1 b). specialize (H2 b).
  destruct (m1 !! b) as [q1|], (m2 !! b) as [q2|]; try (exfalso; by inversion H1); [|exact H2].
  destruct (m3 !! b) as [q3|]; [|exfalso; by inversion H2].
  assert (A : kept_proc old q1 q2) by by inversion H1. assert (B : kept_proc old q2 q3) by by inversion H2.
  destruct A as [A1 A2 A3 A4 A5 A6], B as [B1 B2 B3 B4 B5 B6].
  constructor. split; [congruence| |congruence..].
  intros H. specialize (A2 H). rewrite <- A2. apply B2. by rewrite A2.
Qed.
Lemma kept_procs_insert old m b q q' : m !! b = Some q -> kept_proc old q q' -> kept_procs old m (<[b := q']> m).
Proof.
  intros Hb Hq b'. destruct (decide (b = b')) as [<-|].
  - rewrite Hb, lookup_insert_eq. by constructor.
  - rewrite lookup_insert_ne by done. apply kept_procs_refl.
Qed.
Lemma kept_procs_lookup old m m' b q : kept_procs old m m' -> m !! b = Some q -> exists q', m' !! b = Some q' /\ kept_proc old q q'.
Proof. intros H Hb. specialize (H b). rewrite Hb in H. inversion H; subst. eauto. Qed.
Lemma kept_procs_inv old m m' b q' : kept_procs old m m' -> m' !! b = Some q' -> exists q, m !! b = Some q /\ kept_proc old q q'.
Proof. intros H Hb. specialize (H b). rewrite Hb in H. inversion H; subst. eauto. Qed.

Definition exist_all (l : list Z) (s : sched) : Prop := Forall (fun b => is_Some (procs s !! b)) l.
Lemma exist_kept old l s m : kept_procs old (procs s) m -> exist_all l s -> exist_all l (set_procs m s).
Proof.
  intros H Hl. eapply Forall_impl; [exact Hl|]. intros b [q Hq].
  destruct (kept_procs_lookup _ _ _ _ _ H Hq) as (q' & E & _). by exists q'.
Qed.

Section env.
Context {envi : SchedEnv}.

Lemma reparent_spec old new l s :
  exist_all l s ->
  exists m, for_list l (fun a => let* child := get_proc a in when (p_ppid child =? old) (upd_proc a (set_p_ppid new))) s
    = Ret tt (set_procs m s) /\ kept_procs old (procs s) m.
Proof.
  revert s. induction l as [|a l IH]; intros s Hl.
  - exists (procs s). split; [by destruct s|apply kept_procs_refl].
  - apply Forall_cons in Hl as [[q Hq] Hl]. cbn [for_list]. rewrite bind_assoc, (bind_proc _ _ _ _ Hq).
    destruct (p_ppid q =? old) eqn:E; cbn [when].
    + rewrite (bind_upd_proc _ _ _ _ _ Hq). bools.
      assert (K : kept_procs old (procs s) (<[a := set_p_ppid new q]> (procs s)))
        by (apply (kept_procs_insert _ _ _ q); [done|split; done]).
      destruct (IH _ (exist_kept _ _ _ _ K Hl)) as (m & E1 & K1). exists m. rewrite E1. split; [done|].
      by eapply kept_procs_trans.
    + apply (IH s Hl).
Qed.
Lemma notify_spec old l ppid sig s :
  exist_all l s -> exists m, notify_loop l ppid sig s = Ret tt (set_procs m s) /\ kept_procs old (procs s) m.
Proof.
  induction l as [|a l IH]; intros Hl.
  - exists (procs s). split; [by destruct s|apply kept_procs_refl].
  - apply Forall_cons in Hl as [[q Hq] Hl]. cbn [notify_loop]. rewrite (bind_proc _ _ _ _ Hq).
    destruct (_ || _); [auto|]. eexists. split; [by apply run_upd_proc|].
    apply (kept_procs_insert _ _ _ q); [done|split; done].
Qed.

(** The only thread of a child leaves. *)
Record leaving (c : nat) (t a : Z) (p : pcb) (s : sched) : Prop := {
  lv_cpu : t <> 0 /\ exists k, cpus s !! c = Some k /\ current_thread k = t;
  lv_thread : exists x, threads s !! t = Some x /\ t_process x = a;
  lv_proc : a <> 0 /\ procs s !! a = Some p;
  lv_last : p_threads p = [t] /\ thread_count p = 1;
  lv_ids : 0 < p_pid p /\ 0 < p_ppid p /\ p_ppid p <> p_pid p;
  lv_listed : a ∈ process_list s /\ exist_all (process_list s) s;
  lv_unique : forall b q, procs s !! b = Some q -> p_pid q = p_pid p -> b = a }.

Definition zombie_of (st : Z) (p : pcb) : pcb :=
  set_zombie true (set_dying true (set_p_exit_status st (set_p_threads [] 0 p))).

Lemma remove_last c t a p st s :
  leaving c t a p s ->
  process_remove_thread t st s = Ret PROCESS_EXIT_ZOMBIE (set_procs (<[a := zombie_of st p]> (procs s)) s).
Proof.
  intros [_ (x & Hx & Ha) [Ha0 Hp] [Hth Hcnt] (Hpid & Hppid & _) _ _].
  unfold process_remove_thread. rewrite (bind_thread _ _ _ _ Hx). cbv zeta. rewrite Ha, (proj2 (Z.eqb_neq a 0)) by done.
  rewrite (bind_proc _ _ _ _ Hp), Hth. rewrite (bool_decide_eq_true_2 (t ∈ [t])) by set_solver. cbn [negb].
  rewrite (bind_upd_proc _ _ _ _ _ Hp), Hcnt. cbn [remove_first]. rewrite (Z.eqb_refl t). change (u32 (1 - 1)) with 0.
  change (1 =? 0) with false. cbn iota. change (1 - 1 =? 0) with true. rewrite (proj2 (Z.eqb_neq (p_pid p) 0)) by lia. cbn [negb andb].
  rewrite (bind_upd_proc _ _ a (set_p_threads [] 0 p)) by apply lookup_insert_eq.
  rewrite (proj2 (Z.ltb_lt 0 (p_ppid p))) by done.
  rewrite (bind_upd_proc _ _ a (set_dying true (set_p_exit_status st (set_p_threads [] 0 p))))
    by apply lookup_insert_eq.
  unfold ret. f_equal. cbn. by rewrite !insert_insert_eq.
Qed.

(** What the exit leaves for the parent to find. *)
Record left_behind (c : nat) (t a st : Z) (p : pcb) (s s1 : sched) : Prop := {
  lb_procs : kept_procs (p_pid p) (<[a := zombie_of st p]> (procs s)) (procs s1);
  lb_list : process_list s1 = process_list s;
  lb_pids : pid_pool s1 = pid_pool s;
  lb_heap : next_obj s1 = next_obj s /\ obj_grants s1 = obj_grants s;
  lb_thread : exists x, threads s1 !! t = Some x /\ t_state x = TCB_ZOMBIE;
  lb_reap : exists k, cpus s1 !! c = Some k /\ t ∈ reap_list k }.

Lemma finish_tail c t x k sz s m :
  sz = set_procs m s -> threads s !! t = Some x -> cpus s !! c = Some k ->
  forall b w, exists s1, (upd_thread t (set_reap_process b) ;;;
    upd_cpu c (fun k => set_sched_load (u32 (sched_load k - 1)) k) ;;; thread_queue_reap c t) (set_world w sz) = Ret tt s1 /\
    procs s1 = m /\ process_list s1 = process_list s /\ pid_pool s1 = pid_pool s /\
    next_obj s1 = next_obj s /\ obj_grants s1 = obj_grants s /\
    threads s1 !! t = Some (set_reap_process b x) /\ exists k1, cpus s1 !! c = Some k1 /\ t ∈ reap_list k1.
Proof.
  intros -> Hx Hk b w. rewrite (bind_upd_thread _ _ t x) by done. rewrite (bind_upd_cpu _ _ c k) by done.
  unfold thread_queue_reap. rewrite (run_upd_cpu _ c (set_sched_load (u32 (sched_load k - 1)) k))
    by (cbn; by rewrite list_lookup_alter_eq, Hk).
  eexists. split; [reflexivity|]. do 5 (split; [done|]). split; [by cbn; rewrite lookup_insert_eq|].
  eexists. cbn. rewrite !list_lookup_alter_eq, Hk. split; [reflexivity|]. cbn. by left.
Qed.

Lemma finish_spec c t a p frame st x s :
  leaving c t a p s -> threads s !! t = Some x -> t_state x <> TCB_ZOMBIE -> is_idle x = false ->
  exists s1, thread_finish_current_locked c frame st s = Ret tt s1 /\ left_behind c t a st p s s1.
Proof.
  intros Hlv Hx Hst Hid. pose proof Hlv as [[Ht0 (k & Hk & Hcur)] (x' & Hx' & Ha) [Ha0 Hp] [Hth Hcnt] (Hpid & Hppid & Hne) [Hin Hall] _].
  assert (x' = x) as -> by congruence.
  unfold thread_finish_current_locked. rewrite (bind_cpu _ c k), Hcur by done. unfold thread_finish_locked.
  rewrite (proj2 (Z.eqb_neq t 0)) by done. rewrite (bind_thread _ _ _ _ Hx).
  rewrite (bool_decide_eq_false_2 _ Hst), Hid.
  assert (exists x1, when (negb (frame =? 0)) (upd_thread t (set_t_rsp frame)) s = Ret tt (set_threads (<[t := x1]> (threads s)) s)
    /\ t_process x1 = a) as (x1 & E1 & Ha1).
  { destruct (frame =? 0); cbn [negb when].
    - exists x. rewrite fin_maps.insert_id by done. split; [by destruct s|done].
    - exists (set_t_rsp frame x). split; [by apply run_upd_thread|done]. }
  rewrite (bind_ret _ _ _ _ _ E1).
  rewrite (bind_upd_thread _ _ t x1) by (cbn; apply lookup_insert_eq). cbn [threads set_threads]. rewrite insert_insert_eq.
  set (x2 := set_t_state TCB_ZOMBIE (set_t_exit_status st x1)).
  change (set_threads ?m (set_threads _ s)) with (set_threads m s). set (s2 := set_threads (<[t := x2]> (threads s)) s).
  cbv zeta. rewrite Ha, (proj2 (Z.eqb_neq a 0)), bind_assoc by done. rewrite (bind_proc _ a p) by done.
  rewrite (bind_ret (ret (p_pid p, p_ppid p)) _ s2 _ s2 eq_refl). cbn [fst snd].
  assert (Hlv2 : leaving c t a p s2).
  { destruct Hlv. split; try done. exists x2. split; [by cbn; rewrite lookup_insert_eq|done]. }
  rewrite (bind_ret _ _ _ _ _ (remove_last c t a p st s2 Hlv2)). cbn [when negb andb].
  set (s3 := set_procs _ s2).
  assert (Hall3 : exist_all (process_list s3) s3).
  { eapply Forall_impl; [exact Hall|]. intros b Hb. cbn. rewrite lookup_insert_is_Some.
    destruct (decide (a = b)); auto. }
  unfold process_reparent_children. rewrite (proj2 (Z.leb_gt (p_pid p) 0)) by lia. rewrite bind_assoc, bind_gets.
  destruct (reparent_spec (p_pid p) (if 1 <? p_pid p then 1 else 0) (process_list s3) s3 Hall3) as (m4 & E4 & K4).
  rewrite (bind_ret _ _ _ _ _ E4), bind_assoc.
  destruct (kept_procs_lookup _ _ _ a (zombie_of st p) K4) as (q & Hq & _); [by cbn; rewrite lookup_insert_eq|].
  rewrite (bind_proc _ a q) by done.
  assert (exists w, when (0 <=? controlling_tty q) (emit (ev_reset_tty (controlling_tty q))) (set_procs m4 s3)
    = Ret tt (set_world w (set_procs m4 s3))) as (w & Ew).
  { destruct (0 <=? _); cbn [when]; [by eexists|]. exists (world s3). by destruct s. }
  rewrite (bind_ret _ _ _ _ _ Ew). unfold process_notify_parent_signal.
  rewrite (proj2 (Z.leb_gt (p_ppid p) 0)) by lia. change (signal_valid SCHED_SIGCHLD) with true. cbn [negb orb].
  rewrite bind_assoc, bind_gets.
  destruct (notify_spec (p_pid p) (process_list s3) (p_ppid p) SCHED_SIGCHLD (set_world w (set_procs m4 s3)))
    as (m5 & E5 & K5); [by apply (exist_kept (p_pid p))|].
  rewrite (bind_ret _ _ _ _ _ E5).
  destruct (finish_tail c t x2 k (set_procs m5 s2) s2 m5 eq_refl) with (b := false) (w := w)
    as (s6 & E6 & Hpr & Hli & Hpo & Hno & Hgr & Hth6 & Hre); [by cbn; rewrite lookup_insert_eq|done|].
  exists s6. split; [exact E6|]. split; [|done..|by eexists|done].
  rewrite Hpr. by eapply kept_procs_trans.
Qed.

(** ** The parent waits *)

Lemma wait_finds l a z g o w s :
  a ∈ l -> exist_all l s -> procs s !! a = Some z -> 0 < p_pid z -> zombie z = true ->
  (forall b q, procs s !! b = Some q -> p_pid q = p_pid z -> b = a) ->
  wait_loop l (p_pid z) g (p_ppid z) o w s =
    Ret (mkScan a (w_stopped w) (w_continued w) true) (set_process_list (remove_first a (process_list s)) s).
Proof.
  intros Hin Hall Hz Hpid Hzo Hu. induction l as [|b l IH]; [set_solver|]. apply Forall_cons in Hall as [[q Hq] Hall].
  cbn [wait_loop]. rewrite (bind_proc _ _ _ _ Hq). unfold wait_match at 1. rewrite (proj2 (Z.ltb_lt 0 _)) by done.
  destruct (decide (b = a)) as [->|Hne].
  - assert (q = z) as -> by congruence. rewrite !Z.eqb_refl. cbn [negb orb]. by rewrite Hzo.
  - rewrite (proj2 (Z.eqb_neq (p_pid q) (p_pid z))) by (intros E; by apply Hne, (Hu b q)). cbn [negb orb].
    apply IH; [set_solver|done].
Qed.

Lemma close_files l s : exists w, for_list l (fun f => emit (ev_close f)) s = Ret tt (set_world w s) /\
  (forall f, f ∈ l -> ev_close f ∈ w) /\ (forall e, e ∈ world s -> e ∈ w).
Proof.
  revert s. induction l as [|f l IH]; intros s.
  - exists (world s). split; [by destruct s|]. set_solver.
  - destruct (IH (set_world (ev_close f :: world s) s)) as (w & E & H1 & H2). exists w. split; [exact E|].
    cbn in H2. set_solver.
Qed.

Lemma destroy_spec a z s :
  a <> 0 -> procs s !! a = Some z -> p_pid z <> 0 -> pool_ok (pid_pool s) -> in_use (pid_pool s) (p_pid z) ->
  obj_grants s (next_obj s) = true -> next_obj s <> 0 ->
  exists s', process_destroy a s = Ret tt s' /\ procs s' = delete a (procs s) /\
    process_list s' = remove_first a (process_list s) /\ pool_ok (pid_pool s') /\
    (forall n, in_use (pid_pool s') n <-> in_use (pid_pool s) n /\ n <> p_pid z) /\
    (forall f, f ∈ files z -> f <> 0 -> ev_close f ∈ world s') /\
    threads s' = threads s /\ cpus s' = cpus s.
Proof.
  intros Ha Hz Hpid Hok Huse Hg Hn0. unfold process_destroy. rewrite (proj2 (Z.eqb_neq a 0)) by done.
  rewrite (bind_proc _ _ _ _ Hz), (proj2 (Z.eqb_neq _ 0) Hpid). unfold process_free, process_unlink_locked.
  rewrite bind_modify. set (s1 := set_process_list _ s). rewrite (bind_proc _ a z) by done.
  assert (exists w, when (0 <=? controlling_tty z) (emit (ev_reset_tty (controlling_tty z))) s1 = Ret tt (set_world w s1)) as (w1 & E1).
  { destruct (0 <=? _); cbn [when]; [by eexists|]. exists (world s1). by destruct s. }
  rewrite (bind_ret _ _ _ _ _ E1).
  assert (exists w, when (owns_vas z && negb (p_vas z =? 0)) (emit (ev_vas_destroy (p_vas z))) (set_world w1 s1) = Ret tt (set_world w s1)) as (w2 & E2).
  { destruct (_ && _); cbn [when]; [by eexists|]. by exists w1. }
  rewrite (bind_ret _ _ _ _ _ E2).
  destruct (close_files (filter (fun f => f <> 0) (files z)) (set_world w2 s1)) as (w3 & E3 & Hc & _).
  rewrite (bind_ret _ _ _ _ _ E3).
  destruct (pool_release_spec _ (p_pid z) Hok Huse) as (p' & Er & Hok' & Hin').
  assert (E4 : id_free PID (p_pid z) (set_world w3 s1) = Ret tt (set_pid_pool p' (set_next_obj (next_obj s + 1) (set_world w3 s1)))).
  { unfold id_free. rewrite (proj2 (Z.leb_gt _ 0)) by (destruct Huse; lia). unfold kzalloc, bind. cbn.
    rewrite Hg, (proj2 (Z.eqb_neq _ 0) Hn0). cbn. by rewrite Er. }
  change (set_world w3 (set_world w2 s1)) with (set_world w3 s1). rewrite (bind_ret _ _ _ _ _ E4).
  unfold kfree_proc. rewrite (bind_proc _ a z) by done. eexists. split; [reflexivity|]. split_and!; try done.
  intros f Hf Hf0. apply Hc, list_elem_of_filter. by split.
Qed.

(** C16: exit and wait: when the only thread of a child exits with a status, the child is a
    zombie and the thread waits to be reaped; a parent that then waits for it gets its
    number and status (the status in the second byte, for a status below 128), the child's
    files are closed, and the child and its number are gone, so the number can be given
    again. *)
Theorem exit_wait_roundtrip c t a p frame st x parent pp opts s :
  leaving c t a p s -> threads s !! t = Some x -> t_state x <> TCB_ZOMBIE -> is_idle x = false ->
  procs s !! parent = Some pp -> parent <> 0 -> p_pid pp = p_ppid p -> has opts (Z.lnot 11) = false ->
  pool_ok (pid_pool s) -> in_use (pid_pool s) (p_pid p) -> obj_grants s (next_obj s) = true -> next_obj s <> 0 ->
  exists s1 s2, thread_finish_current_locked c frame st s = Ret tt s1 /\
    (exists z, procs s1 !! a = Some z /\ zombie z = true /\ p_exit_status z = st) /\
    (exists x1 k1, threads s1 !! t = Some x1 /\ t_state x1 = TCB_ZOMBIE /\ cpus s1 !! c = Some k1 /\ t ∈ reap_list k1) /\
    sched_process_wait parent (p_pid p) opts s1 = Ret (0, p_pid p, wait_status st) s2 /\
    (0 <= st < 128 -> wait_status st = st * 256) /\
    procs s2 !! a = None /\ (forall n, in_use (pid_pool s2) n <-> in_use (pid_pool s) n /\ n <> p_pid p) /\
    (forall f, f ∈ files p -> f <> 0 -> ev_close f ∈ world s2).
Proof.
  intros Hlv Hx Hst Hid Hpp Hpar0 Hppid Hop Hok Huse Hg Hn0.
  destruct (finish_spec c t a p frame st x s Hlv Hx Hst Hid) as (s1 & E1 & [Kp Kl Ki [Kn Kg] (x1 & Hx1 & Hz1) (k1 & Hk1 & Hr1)]).
  destruct Hlv as [_ _ [Ha0 Hp] _ (Hpid & Hppos & Hne) [Hin Hall] Hu].
  destruct (kept_procs_lookup _ _ _ a (zombie_of st p) Kp) as (z & Hz & [Z1 Z2 Z3 Z4 Z5 _]); [by rewrite lookup_insert_eq|].
  cbn in Z1, Z2, Z3, Z4, Z5. specialize (Z2 Hne).
  assert (Hpa : parent <> a) by (intros ->; congruence).
  destruct (kept_procs_lookup _ _ _ parent pp Kp) as (q & Hq & [Q1 _ _ _ _ _]); [by rewrite lookup_insert_ne|].
  assert (Hall1 : exist_all (process_list s1) s1).
  { rewrite Kl. eapply Forall_impl; [exact Hall|]. intros b [y Hy].
    assert (is_Some (<[a := zombie_of st p]> (procs s) !! b)) as [y' Hy'] by (rewrite lookup_insert_is_Some; destruct (decide (a = b)); eauto).
    destruct (kept_procs_lookup _ _ _ _ _ Kp Hy') as (y2 & E & _). by exists y2. }
  assert (Hu1 : forall b y, procs s1 !! b = Some y -> p_pid y = p_pid z -> b = a).
  { intros b y Hb Ey. destruct (kept_procs_inv _ _ _ _ _ Kp Hb) as (y0 & Hy0 & [Y1 _ _ _ _ _]).
    destruct (decide (b = a)) as [|Hba]; [done|]. rewrite lookup_insert_ne in Hy0 by done. apply (Hu b y0 Hy0). congruence. }
  set (sl := set_process_list (remove_first a (process_list s1)) s1).
  destruct (destroy_spec a z sl) as (s2 & E2 & D1 & _ & D3 & D4 & D5 & _);
    [done|exact Hz|rewrite Z1; lia|cbn; by rewrite Ki|cbn; by rewrite Ki, Z1|cbn; by rewrite Kg, Kn|cbn; by rewrite Kn|].
  exists s1, s2. split; [exact E1|]. split; [exists z; done|]. split; [exists x1, k1; done|]. split; [|split; [|split; [|split]]].
  - unfold sched_process_wait. rewrite (proj2 (Z.eqb_neq parent 0)), Hop by done.
    rewrite (bind_proc _ parent q) by done. rewrite bind_gets.
    assert (Hw : wait_loop (process_list s1) (p_pid p) (pgid q) (p_pid q) opts (mkScan 0 0 0 false) s1 = Ret (mkScan a 0 0 true) sl).
    { rewrite <- Z1, Q1, Hppid, <- Z2. apply (wait_finds _ a z _ _ (mkScan 0 0 0 false)); try done; [by rewrite Kl|by rewrite Z1]. }
    rewrite (bind_ret _ _ _ _ _ Hw). cbn [have_child w_zombie negb]. rewrite (proj2 (Z.eqb_neq a 0)) by done. cbn [negb].
    rewrite (bind_proc _ a z) by done. rewrite (bind_ret _ _ _ _ _ E2). by rewrite Z1, Z4.
  - intros Hs. unfold wait_status. rewrite (proj2 (Z.leb_gt 128 st)) by lia. change 255 with (Z.ones 8).
    rewrite Z.land_ones, Z.shiftl_mul_pow2 by lia. rewrite Z.mod_small by lia. done.
  - rewrite D1. apply lookup_delete_eq.
  - intros n. rewrite D4. cbn. by rewrite Ki, Z1.
  - intros f Hf. apply D5. by rewrite Z5.
Qed.
End env.
