(* ===== verification/SchedExamples.v ===== *)
(** * Runs of the scheduler

    A small machine: the scheduler is started, two processes with one user thread each are
    made.  On it, the theorems of the scheduler are applied; some runs show behaviour that
    differs from what the code means to do. *)

From stdpp Require Import base gmap list.
From Stdlib Require Import ZArith Lia Sorted.
From S2P Require Import Prelude SchedState Sched SchedRunq SchedProps SchedSignal SchedSignalProps SchedInv SchedExit.

Local Open Scope Z_scope.

(** Files open, address spaces and pages are there. *)
#[local] Instance demo_env : SchedEnv := {|
  env_open := fun _ _ => 900;
  env_vas_create := fun _ => 7000;
  env_page := fun _ => true;
  env_pml4 := fun v => v + 1;
  kernel_vas := 5000;
  kernel_ptable := 5001;
  boot_kstack_top := 60000;
  thread_bootstrap := 61000;
  idle_entry := 62000 |}.

Definition boot : sched :=
  mkSched ∅ ∅ [] [mkCpu false 0 0 0 0 [] 0] 0 (mkPool 1 []) (mkPool 1 []) KSTACK_REGION_BASE false 0 0 [0; 0; 0] 0 1
    5000000000 (mkHw 0 0 0) ∅ ∅ 100 (fun _ => true) [].

(** Two user processes, the second a child of the first, with a queued thread each; a third
    thread is made but not queued. *)
Definition setup : M sched (Z * Z * Z * Z * Z) :=
  sched_init ;;;
  let* a := sched_process_create (Some [97]) 0 in
  sched_process_set_parent a 1 ;;;
  let* b := sched_process_create (Some [98]) 0 in
  sched_process_set_parent b 2 ;;;
  let* t := sched_create_user_thread a None 4198400 1048576 in
  let* u := sched_create_user_thread b None 4198400 1048576 in
  let* v := thread_alloc a None 4198400 0 false in
  ret (a, b, t, u, v).
Definition demo : sched := final setup boot.
Definition saved_frame (t : Z) : Z := match threads demo !! t with Some x => t_rsp x | None => 0 end.

(** Processes 104 and 105, threads 106, 107 and 108; thread 102 runs. *)
Example demo_setup :
  setup boot = Ret (104, 105, 106, 107, 108) demo /\ process_list demo = [105; 104; 101; 100] /\
  map current_thread (cpus demo) = [102] /\ map runq_head (cpus demo) = [106].
Proof. vm_compute. repeat split. Qed.

(** Give the value a closed lookup has. *)
Ltac found :=
  lazymatch goal with
  | |- exists x, ?m !! ?k = Some x /\ _ =>
      let v := eval vm_compute in (m !! k) in
      lazymatch v with Some ?y => exists y; split; [vm_compute; reflexivity|] end
  end.

Definition demo_rr : rr_state := mkRr 102 [(106, saved_frame 106); (107, saved_frame 107)].
Lemma demo_ready t st : (match threads demo !! t with
    | Some x => bool_decide (t_state x = st) && negb (is_idle x) &&
        match procs demo !! t_process x with Some p => negb (dying p) | None => false end
    | None => false end) = true ->
  schedulable st (threads demo) (procs demo) (t, saved_frame t).
Proof.
  unfold schedulable, saved_frame. destruct (threads demo !! t) as [x|] eqn:E; [|done]. intros H.
  apply andb_prop in H as [H Hp]. apply andb_prop in H as [Hs Hi]. apply bool_decide_eq_true_1 in Hs.
  exists x. cbn [fst snd]. rewrite E. split; [done|]. split; [done|]. split; [by destruct (is_idle x)|]. split; [|done].
  intros _. destruct (procs demo !! t_process x) as [p|]; [|done]. exists p. split; [done|]. by destruct (dying p).
Qed.
Lemma demo_rep : rr_rep 0 demo_rr [(108, saved_frame 108)] demo.
Proof.
  split.
  - split; [reflexivity|reflexivity|found; vm_compute; repeat split| | | |].
    + apply (bool_decide_eq_true_1 _). vm_compute. reflexivity.
    + apply (bool_decide_eq_true_1 _). vm_compute. reflexivity.
    + repeat apply List.Forall_cons; [apply demo_ready; vm_compute; reflexivity..|constructor].
    + unfold listed_ok. change (process_list demo) with [105; 104; 101; 100].
      repeat apply List.Forall_cons; [found; apply (bool_decide_eq_true_1 _); vm_compute; reflexivity..|constructor].
  - split.
    + found. vm_compute. by split.
    + cbn [seg]. split; [found; reflexivity|]. split; [found; reflexivity|done].
    + apply (bool_decide_eq_true_1 _). vm_compute. reflexivity.
    + apply (bool_decide_eq_true_1 _). vm_compute. reflexivity.
  - exists (saved_frame 102). apply demo_ready. vm_compute. reflexivity.
  - apply (bool_decide_eq_true_1 _). vm_compute. reflexivity.
Qed.

Definition demo_ops : list cpu_op := [op_tick 4096; op_enqueue 108 (saved_frame 108); op_tick 8192].
Lemma sched_round_robin_witness :
  exists s', run_ops 0 demo_ops demo = Ret (rr_ops demo_ops demo_rr).1 s' /\
    rr_rep 0 (rr_ops demo_ops demo_rr).2 [] s'.
Proof.
  apply (sched_round_robin 0 demo_ops demo_rr [] demo); [exact demo_rep|].
  repeat apply List.Forall_cons; [cbn; lia|exact I|cbn; lia|constructor].
Defined.
Lemma sched_no_starvation_witness :
  exists fs s' k, run_ops 0 demo_ops demo = Ret fs s' /\ last fs = Some (saved_frame 107) /\
    cpus s' !! 0%nat = Some k /\ current_thread k = 107.
Proof.
  apply (sched_no_starvation 0 demo_ops demo_rr [] demo 1); [exact demo_rep| |reflexivity|reflexivity].
  repeat apply List.Forall_cons; [cbn; lia|exact I|cbn; lia|constructor].
Defined.

(** ** Identifiers, identities, load *)

Definition pool_demo : sched := set_pid_pool (mkPool 5 [2; 3]) demo.
Lemma pool_demo_ok : pool_ok (get_pool PID pool_demo).
Proof. split; cbn; [repeat constructor|repeat constructor; lia|lia]. Qed.
Lemma id_pool_refines_witness :
  (exists id p', id_alloc PID pool_demo = Ret id (set_pool PID p' pool_demo) /\ 1 <= id <= 5 /\
     forall x, in_use p' x <-> x = id \/ in_use (mkPool 5 [2; 3]) x) /\
  (exists p', id_free PID 4 pool_demo = Ret tt (set_pool PID p' (set_next_obj (next_obj pool_demo + 1) pool_demo))) /\
  id_free PID 2 pool_demo = Panic.
Proof.
  destruct (id_pool_refines PID pool_demo pool_demo_ok) as (H1 & H2 & H3); [cbn; lia|].
  change (get_pool PID pool_demo) with (mkPool 5 [2; 3]) in H1, H2, H3.
  split; [destruct H1 as (id & p' & E & _ & _ & Hr & _ & Hu); exists id, p'; split; [exact E|split; [exact Hr|exact Hu]]|]. split.
  - destruct (H2 4) as (p' & E & _); [split; [cbn; lia|by apply (bool_decide_eq_true_1 _)]|vm_compute; reflexivity|vm_compute; discriminate|]. exists p'. exact E.
  - apply H3. by apply (bool_decide_eq_true_1 _).
Defined.

Definition plain_demo : sched := final (sched_process_setuid 104 1000) demo.
Definition plain_proc : pcb := default (new_pcb 0 [] 0) (procs plain_demo !! 104).
Lemma identities_only_drop_witness :
  exists rs p', run_id_calls 104 [call_setuid 0; call_seteuid 0; call_setegid 0; call_setuid 1000] plain_demo =
    Ret rs (set_procs (<[104 := p']> (procs plain_demo)) plain_demo) /\ 0 ∉ uids (p_ids p').
Proof.
  destruct (identities_only_drop 104 [call_setuid 0; call_seteuid 0; call_setegid 0; call_setuid 1000] plain_proc plain_demo)
    as (rs & p' & E & H & _); [lia|vm_compute; reflexivity|vm_compute; reflexivity|
      apply (bool_decide_eq_true_1 _); vm_compute; reflexivity|].
  exists rs, p'. split; [exact E|exact H].
Defined.

Definition load_demo : sched := set_loadavg [500000; 0; 0] 2 demo.
Lemma loadavg_bounded_witness :
  exists fp, loadavg_tick load_demo = Ret tt (set_loadavg fp 5 load_demo) /\
    Forall (fun f => 0 <= f <= 3 * SCHED_LOADAVG_SCALE) fp.
Proof.
  destruct (loadavg_bounded load_demo 3 3 3 500000 0 0) as (fp & E & _ & H);
    [vm_compute; reflexivity|lia|lia|reflexivity|repeat constructor; unfold SCHED_LOADAVG_SCALE; lia
    |vm_compute; split; discriminate|vm_compute; reflexivity|].
  exists fp. split; [exact E|exact H].
Defined.

(** ** Signals *)

(** Thread 106 runs; its process, number 2, has a handler for signal 10 and gets it.  The
    pages around its stack pointer are there. *)
Definition stack_mem : gmap Z Z := list_to_map (map (fun i => (1048000 + Z.of_nat i, 0)) (seq 0 1024)).
Definition sig_demo : sched :=
  set_umem stack_mem (final (sched_tick false 4096 ;;;
    sched_signal_action 104 10 (Some (mkSigaction 4202496 0 4210688 4)) ;;;
    sched_process_signal 104 2 10) demo).
Definition sig_frame : Z := saved_frame 106.
Definition sig_words : list Z := default [] (frames sig_demo !! sig_frame).
Definition sig_thread : tcb := default (new_tcb 0 [] 0 0 0 false) (threads sig_demo !! 106).
Definition sig_proc : pcb := default (new_pcb 0 [] 0) (procs sig_demo !! 104).

Lemma mapped_range a n (m : gmap Z Z) :
  forallb (fun y => match m !! y with Some _ => true | None => false end) (seqZ a n) = true ->
  forall y, a <= y < a + n -> is_Some (m !! y).
Proof.
  intros H y Hy. apply forallb_forall with (x := y) in H; [destruct (m !! y); [by eexists|done]|].
  apply list_elem_of_In, elem_of_seqZ. lia.
Qed.
Lemma sig_delivery : delivery sig_frame 10 sig_words 106 sig_thread sig_proc sig_demo.
Proof.
  split.
  - split; [vm_compute; discriminate|vm_compute; reflexivity].
  - split; [vm_compute; reflexivity|]. apply (bool_decide_eq_true_1 _). vm_compute. reflexivity.
  - vm_compute. reflexivity.
  - split; [split; [lia|found; reflexivity]|vm_compute; reflexivity].
  - split; [vm_compute; discriminate|]. split; vm_compute; reflexivity.
  - split; [vm_compute; reflexivity|lia].
  - split; [vm_compute; reflexivity|vm_compute; discriminate].
  - split; [vm_compute; discriminate|]. unfold is_word. vm_compute. split; [discriminate|reflexivity].
  - unfold is_word. vm_compute. split; [discriminate|reflexivity].
  - vm_compute. discriminate.
  - apply mapped_range. vm_compute. reflexivity.
Qed.
Lemma sig_unmasked : Z.land (signal_mask sig_thread) SCHED_UNBLOCKABLE_MASK = 0.
Proof. vm_compute. reflexivity. Qed.
Lemma signal_clobbers_stack_witness :
  exists s1, sched_signal_deliver sig_frame sig_demo = Ret sig_frame s1 /\
    uload_bytes 1048576 8 (umem s1) = Some (word_bytes USER_DS) /\
    uload_bytes 1048576 8 (umem sig_demo) = Some (word_bytes 0).
Proof.
  destruct (signal_clobbers_stack sig_frame 10 sig_words 106 sig_thread sig_proc sig_demo sig_delivery) as (s1 & E & H);
    [vm_compute; reflexivity|vm_compute; discriminate|].
  exists s1. split; [exact E|]. split; [exact H|vm_compute; reflexivity].
Defined.

(** The state after the handler has run to its system call: registers are other ones. *)
Definition handler_done : sched :=
  let s := final (sched_signal_deliver sig_frame) sig_demo in
  set_frames (<[sig_frame := set_word F_RSP (signal_sp 1048576 + 8) (set_word F_RAX 15 sig_words)]> (frames s)) s.
Definition done_words : list Z := set_word F_RSP (signal_sp 1048576 + 8) (set_word F_RAX 15 sig_words).
Lemma handler_done_facts :
  sig_frame <> 0 /\ frames handler_done !! sig_frame = Some done_words /\
  nth F_RSP done_words 0 = signal_sp (nth F_RSP sig_words 0) + 8 /\ current_is 106 handler_done /\
  exists x2, threads handler_done !! 106 = Some x2.
Proof.
  split; [vm_compute; discriminate|]. do 2 (split; [vm_compute; reflexivity|]).
  split; [split; [lia|found; reflexivity]|]. exists (default sig_thread (threads handler_done !! 106)).
  vm_compute. reflexivity.
Qed.
Lemma handler_done_mem s1 y :
  sched_signal_deliver sig_frame sig_demo = Ret sig_frame s1 -> umem handler_done !! y = umem s1 !! y.
Proof.
  intros E. unfold handler_done, final. rewrite E. reflexivity.
Qed.
Lemma signal_roundtrip_witness :
  exists s3, sched_signal_return sig_frame handler_done = Ret sig_frame s3 /\ frames s3 !! sig_frame = Some sig_words.
Proof.
  destruct (signal_roundtrip sig_frame 10 sig_words 106 sig_thread sig_proc sig_demo sig_delivery sig_unmasked)
    as (s1 & E & _ & _ & _ & _ & H).
  destruct handler_done_facts as (H1 & H2 & H3 & H4 & x2 & H5).
  destruct (H handler_done sig_frame done_words x2 H1 H2 H3 H4 H5 (fun y _ => handler_done_mem s1 y E)) as (s3 & E3 & F3 & _).
  exists s3. split; [exact E3|exact F3].
Defined.

(** A frame the program made up, with the code segment and stack of the kernel. *)
Definition forged : list Z := kernel_frame 0 4198400 1048576.
Definition forged_demo : sched :=
  let s := final (ustore 1048320 ([SCHED_SIGFRAME_MAGIC; 10; 0] ++ forged)) sig_demo in
  set_frames (<[sig_frame := set_word F_RSP 1048320 sig_words]> (frames s)) s.
Lemma sigreturn_unchecked_witness :
  exists s', sched_signal_return sig_frame forged_demo = Ret sig_frame s' /\
    frames s' !! sig_frame = Some forged /\ nth F_CS forged 0 = KERNEL_CS.
Proof.
  destruct (sigreturn_unchecked sig_frame (set_word F_RSP 1048320 sig_words) 106 (default sig_thread (threads forged_demo !! 106))
    1048312 10 0 forged forged_demo) as (s' & E & F).
  - vm_compute. discriminate.
  - vm_compute. reflexivity.
  - vm_compute. reflexivity.
  - split; [lia|found; reflexivity].
  - vm_compute. reflexivity.
  - lia.
  - vm_compute. discriminate.
  - vm_compute. repeat split.
  - apply (bool_decide_eq_true_1 _). vm_compute. reflexivity.
  - reflexivity.
  - vm_compute. discriminate.
  - exists s'. split; [exact E|]. split; [exact F|reflexivity].
Defined.

(** ** Reachable states, exit and wait *)

Definition s_init : sched := final sched_init boot.
Definition s_proc : sched := final (sched_process_create (Some [97]) 0) s_init.
Definition s_uid : sched := final (sched_process_setuid 104 1000) s_proc.
Lemma init_runs : sched_init boot = Ret tt s_init.
Proof. vm_compute. reflexivity. Qed.
Lemma proc_runs : sched_process_create (Some [97]) 0 s_init = Ret 104 s_proc.
Proof. vm_compute. reflexivity. Qed.
Lemma uid_runs : sched_process_setuid 104 1000 s_proc = Ret 0 s_uid.
Proof. vm_compute. reflexivity. Qed.
Lemma sched_invariant_witness : sched_inv s_uid.
Proof.
  apply (sched_invariant boot); [reflexivity|reflexivity|].
  eapply rtc_l; [exact (step_init _ _ _ init_runs)|]. eapply rtc_l; [exact (step_process_create _ _ _ _ _ proc_runs)|].
  eapply rtc_l; [exact (step_setuid _ _ _ _ _ uid_runs)|]. apply rtc_refl.
Defined.

(** After two ticks thread 107 of process 105 (number 3, child of number 2) runs. *)
Definition exit_demo : sched := final (sched_tick false 4096 ;;; sched_tick false 8192) demo.
Definition exit_proc : pcb := default (new_pcb 0 [] 0) (procs exit_demo !! 105).
Definition exit_thread : tcb := default (new_tcb 0 [] 0 0 0 false) (threads exit_demo !! 107).
Definition wait_proc : pcb := default (new_pcb 0 [] 0) (procs exit_demo !! 104).
Lemma exit_leaving : leaving 0 107 105 exit_proc exit_demo.
Proof.
  split.
  - split; [lia|found; reflexivity].
  - found. reflexivity.
  - split; [lia|vm_compute; reflexivity].
  - split; vm_compute; reflexivity.
  - vm_compute. repeat split; discriminate.
  - split; apply (bool_decide_eq_true_1 _); vm_compute; reflexivity.
  - assert (H : map_Forall (fun b q => p_pid q = p_pid exit_proc -> b = 105) (procs exit_demo))
      by (apply (bool_decide_eq_true_1 _); vm_compute; reflexivity).
    intros b q Hq Hp. exact (H b q Hq Hp).
Qed.
Lemma exit_facts :
  threads exit_demo !! 107 = Some exit_thread /\ t_state exit_thread <> TCB_ZOMBIE /\ is_idle exit_thread = false /\
  procs exit_demo !! 104 = Some wait_proc /\ p_pid wait_proc = p_ppid exit_proc /\ p_pid exit_proc = 3 /\
  pool_ok (pid_pool exit_demo) /\ in_use (pid_pool exit_demo) (p_pid exit_proc) /\
  obj_grants exit_demo (next_obj exit_demo) = true /\ next_obj exit_demo <> 0.
Proof.
  do 1 (split; [vm_compute; reflexivity|]). split; [vm_compute; discriminate|].
  do 4 (split; [vm_compute; reflexivity|]).
  assert (E : pid_pool exit_demo = mkPool 4 []) by (vm_compute; reflexivity).
  assert (E2 : p_pid exit_proc = 3) by (vm_compute; reflexivity). rewrite E, E2.
  split; [split; cbn; [constructor|constructor|lia]|].
  split; [split; [cbn; lia|by apply (bool_decide_eq_true_1 _)]|].
  split; [vm_compute; reflexivity|vm_compute; discriminate].
Qed.
Lemma exit_wait_roundtrip_witness :
  exists s1 s2, thread_finish_current_locked 0 8192 7 exit_demo = Ret tt s1 /\
    sched_process_wait 104 (p_pid exit_proc) 1 s1 = Ret (0, p_pid exit_proc, wait_status 7) s2 /\
    procs s2 !! 105 = None /\ wait_status 7 = 7 * 256.
Proof.
  destruct exit_facts as (H1 & H2 & H3 & H4 & H5 & _ & H6 & H7 & H8 & H9).
  destruct (exit_wait_roundtrip 0 107 105 exit_proc 8192 7 exit_thread 104 wait_proc 1 exit_demo exit_leaving
    H1 H2 H3 H4 ltac:(lia) H5 eq_refl H6 H7 H8 H9) as (s1 & s2 & E1 & _ & _ & E2 & E3 & E4 & _).
  exists s1, s2. split; [exact E1|]. split; [exact E2|]. split; [exact E4|]. apply E3. lia.
Defined.

(** ** Behaviour that differs from what the code means *)

(** A terminal stop with its default action ends the process instead of stopping it. *)
Definition tstp_demo : sched := final (sched_tick false 4096 ;;; sched_process_signal 104 2 20) demo.
Example stop_signal_terminates :
  match sched_signal_deliver sig_frame tstp_demo with
  | Ret _ s => option_map (fun p => (dying p, p_exit_status p)) (procs s !! 104) = Some (true, 128 + 20)
  | _ => False
  end.
Proof. vm_compute. reflexivity. Qed.

(** SIGSTOP marks the process as stopped; its thread is chosen all the same. *)
Example stopped_process_runs :
  match (sched_process_signal 104 2 SCHED_SIGSTOP ;;; sched_tick false 4096) demo with
  | Ret _ s => map current_thread (cpus s) = [106] /\
      option_map (fun p => stopped (p_job p)) (procs s !! 104) = Some true
  | _ => False
  end.
Proof. vm_compute. repeat split. Qed.

(** An exit status of 200 is reported as death by signal 72. *)
Example large_status_is_signal : wait_status 200 = 72.
Proof. reflexivity. Qed.

(** A handler without a restorer: the signal is consumed and stays blocked, nothing runs. *)
Definition no_restorer : sched :=
  final (sched_tick false 4096 ;;; sched_signal_action 104 10 (Some (mkSigaction 4202496 0 0 0)) ;;;
    sched_process_signal 104 2 10) demo.
Example handler_without_restorer :
  match sched_signal_deliver sig_frame no_restorer with
  | Ret _ s => frames s !! sig_frame = frames no_restorer !! sig_frame /\
      option_map pending_signals (procs s !! 104) = Some 0 /\
      option_map signal_mask (threads s !! 106) = Some (SCHED_SIGNAL_BIT 10)
  | _ => False
  end.
Proof. vm_compute. repeat split. Qed.

(** No memory for the process: its number is not given back. *)
Definition full_heap : sched :=
  mkSched (procs demo) (threads demo) (process_list demo) (cpus demo) 0 (pid_pool demo) (tid_pool demo)
    (next_kstack_base demo) true 0 0 [0; 0; 0] 0 1 0 (hw demo) (frames demo) ∅ 200 (fun _ => false) [].
Example failed_create_keeps_number :
  match sched_process_create None 0 full_heap with
  | Ret r s => r = 0 /\ pid_pool full_heap = mkPool 4 [] /\ pid_pool s = mkPool 5 []
  | _ => False
  end.
Proof. vm_compute. repeat split. Qed.

(** A process of group 1 that signals its own group signals every process. *)
Example group_one_is_everyone :
  match (sched_process_signal 101 0 10) demo with
  | Ret r s => r = 0 /\ option_map pgid (procs demo !! 101) = Some 1 /\ option_map pgid (procs demo !! 104) = Some 2 /\
      option_map pending_signals (procs s !! 104) = Some (SCHED_SIGNAL_BIT 10)
  | _ => False
  end.
Proof. vm_compute. repeat split. Qed.
