(* ===== verification/Elf.v ===== *)
(** * The ELF loader (kernel/src/lib/elf.c, kernel/include/lib/elf.h)

    A file is the list of its bytes; reading outside of it faults.  The loader of user
    programs and of relocatable drivers, and the first stack of a program.  What it calls
    of the address space, the file system and the heap is the class [ElfEnv]. *)

From stdpp Require Import base list.
From Stdlib Require Import ZArith Lia.
From S2P Require Import Prelude.

Local Open Scope Z_scope.

Definition ENOENT : Z := 2.
Definition ENOMEM : Z := 12.
Definition EINVAL : Z := 22.
Definition ENOSYS : Z := 38.

Definition ELFMAG : list Z := [127; 69; 76; 70].
Definition ELFCLASS64 : Z := 2.
Definition ELFDATA2LSB : Z := 1.
Definition ET_REL : Z := 1.
Definition ET_EXEC : Z := 2.
Definition ET_DYN : Z := 3.
Definition EM_X86_64 : Z := 62.
Definition PT_LOAD : Z := 1.
Definition PT_INTERP : Z := 3.
Definition PT_PHDR : Z := 6.
Definition PF_X : Z := 1.
Definition PF_W : Z := 2.
Definition SHF_ALLOC : Z := 2.
Definition SHT_SYMTAB : Z := 2.
Definition SHT_RELA : Z := 4.
Definition SHT_NOBITS : Z := 8.
Definition R_X86_64_64 : Z := 1.
Definition R_X86_64_PC32 : Z := 2.
Definition R_X86_64_PLT32 : Z := 4.
Definition R_X86_64_32 : Z := 10.
Definition R_X86_64_32S : Z := 11.
Definition ELF_SHN_UNDEF : Z := 0.
Definition ELF64_R_SYM (i : Z) : Z := i / 2 ^ 32.
Definition ELF64_R_TYPE (i : Z) : Z := u32 i.
Definition ELF_ET_DYN_BASE : Z := 1073741824.
Definition ELF_INTERP_BASE : Z := 1342177280.
Definition VAS_USER_START : Z := 4096.
Definition VAS_USER_END : Z := 140737488355327.
Definition VMM_PRESENT : Z := 1.
Definition VMM_WRITABLE : Z := 2.
Definition VMM_USER : Z := 4.
Definition VMM_NX : Z := 2 ^ 63.
Definition VAD_FIXED : Z := 2 ^ 13.
Definition VFS_S_ISREG (m : Z) : bool := Z.land m 61440 =? 32768.
Definition sizeof_ehdr : Z := 64.
Definition sizeof_phdr : Z := 56.
Definition sizeof_shdr : Z := 64.
Definition sizeof_sym : Z := 24.
Definition sizeof_rela : Z := 24.

(** The address space [vas], its page table, the memory behind the direct map, the file
    system as the super user, and the heap, which answers 0 when it has nothing. *)
Class ElfEnv (St : Type) := {
  vas_map_anon : Z -> Z -> Z -> M St Z;
  get_phys : Z -> M St Z;
  put_phys : Z -> list Z -> M St unit;
  put_kernel : Z -> list Z -> M St unit;
  vfs_open : list Z -> M St (Z * Z);
  vfs_file_node : Z -> M St (option (Z * Z));
  vfs_read : Z -> Z -> M St (Z * list Z);
  vfs_close : Z -> M St unit;
  kzalloc : Z -> M St Z;
  kfree : Z -> M St unit }.

(** ** Reading the file *)

Fixpoint le (l : list Z) : Z := match l with [] => 0 | b :: l => b + 256 * le l end.

(** [n] bytes at [off]. *)
Definition rd_block {St} (file : list Z) (off n : Z) : M St (list Z) := fun s =>
  if (0 <=? off) && (off + n <=? Z.of_nat (length file))
  then Ret (take (Z.to_nat n) (drop (Z.to_nat off) file)) s else Fault.
Definition rd_le {St} (file : list Z) (off n : Z) : M St Z := let* b := rd_block file off n in ret (le b).

(** The text at [off], up to its terminator; the text of a string table is not bounded. *)
Fixpoint cstr_loop {St} (l : list Z) : M St (list Z) :=
  match l with
  | [] => fault
  | 0 :: _ => ret []
  | b :: l => let* r := cstr_loop l in ret (b :: r)
  end.
Definition cstr {St} (file : list Z) (off : Z) : M St (list Z) :=
  if (0 <=? off) && (off <=? Z.of_nat (length file)) then cstr_loop (drop (Z.to_nat off) file) else fault.

Definition e_ident {St} (file : list Z) : M St (list Z) := rd_block file 0 16.
Definition e_type {St} (file : list Z) : M St Z := rd_le file 16 2.
Definition e_machine {St} (file : list Z) : M St Z := rd_le file 18 2.
Definition e_entry {St} (file : list Z) : M St Z := rd_le file 24 8.
Definition e_phoff {St} (file : list Z) : M St Z := rd_le file 32 8.
Definition e_shoff {St} (file : list Z) : M St Z := rd_le file 40 8.
Definition e_phentsize {St} (file : list Z) : M St Z := rd_le file 54 2.
Definition e_phnum {St} (file : list Z) : M St Z := rd_le file 56 2.
Definition e_shentsize {St} (file : list Z) : M St Z := rd_le file 58 2.
Definition e_shnum {St} (file : list Z) : M St Z := rd_le file 60 2.

Record elf64_phdr := mkPhdr {
  p_type : Z; p_flags : Z; p_offset : Z; p_vaddr : Z; p_filesz : Z; p_memsz : Z }.
Record elf64_shdr := mkShdr {
  sh_type : Z; sh_flags : Z; sh_offset : Z; sh_size : Z; sh_link : Z; sh_info : Z; sh_addralign : Z; sh_entsize : Z }.
Record elf64_sym := mkSym { st_name : Z; st_shndx : Z; st_value : Z }.
Record elf64_rela := mkRela { r_offset : Z; r_info : Z; r_addend : Z }.

Definition rd_phdr {St} (file : list Z) (a : Z) : M St elf64_phdr :=
  let* t := rd_le file a 4 in let* fl := rd_le file (a + 4) 4 in let* o := rd_le file (a + 8) 8 in
  let* v := rd_le file (a + 16) 8 in let* fs := rd_le file (a + 32) 8 in let* ms := rd_le file (a + 40) 8 in
  ret (mkPhdr t fl o v fs ms).
Definition rd_shdr {St} (file : list Z) (a : Z) : M St elf64_shdr :=
  let* t := rd_le file (a + 4) 4 in let* fl := rd_le file (a + 8) 8 in let* o := rd_le file (a + 24) 8 in
  let* sz := rd_le file (a + 32) 8 in let* l := rd_le file (a + 40) 4 in let* i := rd_le file (a + 44) 4 in
  let* al := rd_le file (a + 48) 8 in let* en := rd_le file (a + 56) 8 in
  ret (mkShdr t fl o sz l i al en).
Definition rd_sym {St} (file : list Z) (a : Z) : M St elf64_sym :=
  let* n := rd_le file a 4 in let* x := rd_le file (a + 6) 2 in let* v := rd_le file (a + 8) 8 in ret (mkSym n x v).
Definition rd_rela {St} (file : list Z) (a : Z) : M St elf64_rela :=
  let* o := rd_le file a 8 in let* i := rd_le file (a + 8) 8 in let* d := rd_le file (a + 16) 8 in ret (mkRela o i d).

Definition range_ok (file_size off size : Z) : bool := (off <=? file_size) && (size <=? file_size - off).

Section loader.
Context {St : Type} {env : ElfEnv St}.

(** ** Checks of the header *)

Definition bad_ident (i : list Z) : bool :=
  negb (bool_decide (take 4 i = ELFMAG)) || negb (nth 4 i 0 =? ELFCLASS64) || negb (nth 5 i 0 =? ELFDATA2LSB).

Definition elf_validate (file : list Z) : M St Z :=
  let size := Z.of_nat (length file) in
  if size <? sizeof_ehdr then ret (- EINVAL)
  else
    let* i := e_ident file in
    if bad_ident i then ret (- EINVAL)
    else
      let* t := e_type file in let* m := e_machine file in
      if negb (t =? ET_REL) || negb (m =? EM_X86_64) then ret (- EINVAL)
      else
        let* es := e_shentsize file in let* n := e_shnum file in let* o := e_shoff file in
        if negb (es =? sizeof_shdr) || (n =? 0) || negb (range_ok size o (u64 (es * n))) then ret (- EINVAL)
        else ret 0.

Definition elf_validate_executable (file : list Z) : M St Z :=
  let size := Z.of_nat (length file) in
  if size <? sizeof_ehdr then ret (- EINVAL)
  else
    let* i := e_ident file in
    if bad_ident i then ret (- EINVAL)
    else
      let* t := e_type file in let* m := e_machine file in
      if (negb (t =? ET_EXEC) && negb (t =? ET_DYN)) || negb (m =? EM_X86_64) then ret (- EINVAL)
      else
        let* es := e_phentsize file in let* n := e_phnum file in let* o := e_phoff file in
        if negb (es =? sizeof_phdr) || (n =? 0) || negb (range_ok size o (u64 (es * n))) then ret (- EINVAL)
        else ret 0.

(** ** Relocatable files *)

(** [elf_image_t]: the file, the addresses of its loaded sections, its header and symbol
    tables as offsets in the file ([symtab = None] is NULL). *)
Record elf_image := mkImage {
  im_file : list Z; sections : list Z; sections_hdr : Z; section_count : Z;
  symtab : option Z; sym_count : Z; strtab : option Z }.

Definition shdr_at (im : elf_image) (i : Z) : M St elf64_shdr := rd_shdr (im_file im) (sections_hdr im + i * sizeof_shdr).
Definition section_at (im : elf_image) (i : Z) : Z := nth (Z.to_nat i) (sections im) 0.
Definition sym_at (im : elf_image) (i : Z) : M St elf64_sym :=
  match symtab im with Some t => rd_sym (im_file im) (t + i * sizeof_sym) | None => fault end.

(** [None]: the empty name. *)
Definition elf_symbol_name (im : elf_image) (y : elf64_sym) : M St (list Z) :=
  match strtab im with Some t => cstr (im_file im) (t + st_name y) | None => ret [] end.

(** [for (i = 0; i < section_count; i++)]; [alloc] is the caller's. *)
Fixpoint load_sections_loop (n : nat) (i : Z) (alloc : Z -> Z -> M St Z) (im : elf_image) : M St (Z * elf_image) :=
  match n with
  | O => ret (0, im)
  | S n =>
      let* sh := shdr_at im i in
      if negb (has (sh_flags sh) SHF_ALLOC) || (sh_size sh =? 0) then load_sections_loop n (i + 1) alloc im
      else
        let align := if sh_addralign sh =? 0 then PAGE_SIZE else sh_addralign sh in
        let* mem := alloc (sh_size sh) align in
        if mem =? 0 then ret (- ENOMEM, im)
        else
          let put (b : list Z) :=
            put_kernel mem b ;;;
            load_sections_loop n (i + 1) alloc
              (mkImage (im_file im) (<[Z.to_nat i := mem]> (sections im)) (sections_hdr im) (section_count im)
                (symtab im) (sym_count im) (strtab im)) in
          if sh_type sh =? SHT_NOBITS then put (replicate (Z.to_nat (sh_size sh)) 0)
          else if negb (range_ok (Z.of_nat (length (im_file im))) (sh_offset sh) (sh_size sh)) then ret (- EINVAL, im)
          else let* b := rd_block (im_file im) (sh_offset sh) (sh_size sh) in put b
  end.
Definition elf_load_sections (file : list Z) (alloc : Z -> Z -> M St Z) : M St (Z * elf_image) :=
  let* n := e_shnum file in
  let* o := e_shoff file in
  let* a := kzalloc (n * 8) in
  let im := mkImage file (replicate (Z.to_nat n) 0) o n None 0 None in
  if a =? 0 then ret (- ENOMEM, im) else load_sections_loop (Z.to_nat n) 0 alloc im.

Fixpoint find_symbols_loop (n : nat) (i : Z) (im : elf_image) : M St (Z * elf_image) :=
  match n with
  | O => ret (- EINVAL, im)
  | S n =>
      let size := Z.of_nat (length (im_file im)) in
      let* sh := shdr_at im i in
      if negb (sh_type sh =? SHT_SYMTAB) then find_symbols_loop n (i + 1) im
      else if negb (sh_entsize sh =? sizeof_sym) || negb (range_ok size (sh_offset sh) (sh_size sh)) ||
              (section_count im <=? sh_link sh) then ret (- EINVAL, im)
      else
        let* str := shdr_at im (sh_link sh) in
        if negb (range_ok size (sh_offset str) (sh_size str)) then ret (- EINVAL, im)
        else ret (0, mkImage (im_file im) (sections im) (sections_hdr im) (section_count im)
                       (Some (sh_offset sh)) (sh_size sh / sh_entsize sh) (Some (sh_offset str)))
  end.
Definition elf_find_symbols (im : elf_image) : M St (Z * elf_image) :=
  find_symbols_loop (Z.to_nat (section_count im)) 0 im.

(** The status and [*out]. *)
Definition elf_symbol_value (im : elf_image) (index : Z) (resolve : option (list Z -> M St (Z * Z))) : M St (Z * Z) :=
  if sym_count im <=? index then ret (- EINVAL, 0)
  else
    let* y := sym_at im index in
    if st_shndx y =? ELF_SHN_UNDEF then
      match resolve with
      | None => ret (- ENOENT, 0)
      | Some f => let* name := elf_symbol_name im y in f name
      end
    else if (section_count im <=? st_shndx y) || (section_at im (st_shndx y) =? 0) then ret (- EINVAL, 0)
    else ret (0, u64 (section_at im (st_shndx y) + st_value y)).

(** [w] bytes of a number, lowest first. *)
Definition le_bytes (w : nat) (v : Z) : list Z := map (fun i => (v / 2 ^ (8 * Z.of_nat i)) `mod` 256) (seq 0 w).

Definition elf_apply_rela (im : elf_image) (rela : elf64_rela) (target : Z) (resolve : option (list Z -> M St (Z * Z)))
    : M St Z :=
  let* r := elf_symbol_value im (ELF64_R_SYM (r_info rela)) resolve in
  if negb (r.1 =? 0) then ret r.1
  else
    let p := u64 (target + r_offset rela) in
    let v := u64 (r.2 + r_addend rela) in
    let t := ELF64_R_TYPE (r_info rela) in
    if t =? R_X86_64_64 then put_kernel p (le_bytes 8 v) ;;; ret 0
    else if (t =? R_X86_64_PC32) || (t =? R_X86_64_PLT32) then put_kernel p (le_bytes 4 (u32 (v - p))) ;;; ret 0
    else if (t =? R_X86_64_32) || (t =? R_X86_64_32S) then put_kernel p (le_bytes 4 (u32 v)) ;;; ret 0
    else ret (- ENOSYS).

(** The error path reads the name of the symbol for its message. *)
Fixpoint relas_loop (n : nat) (a : Z) (im : elf_image) (target : Z) (resolve : option (list Z -> M St (Z * Z))) : M St Z :=
  match n with
  | O => ret 0
  | S n =>
      let* rela := rd_rela (im_file im) a in
      let* r := elf_apply_rela im rela target resolve in
      if negb (r =? 0) then
        let* y := sym_at im (ELF64_R_SYM (r_info rela)) in
        elf_symbol_name im y ;;;
        ret r
      else relas_loop n (a + sizeof_rela) im target resolve
  end.
Fixpoint relocations_loop (n : nat) (i : Z) (im : elf_image) (resolve : option (list Z -> M St (Z * Z))) : M St Z :=
  match n with
  | O => ret 0
  | S n =>
      let* sh := shdr_at im i in
      if negb (sh_type sh =? SHT_RELA) then relocations_loop n (i + 1) im resolve
      else if section_count im <=? sh_info sh then ret (- EINVAL)
      else
        let* th := shdr_at im (sh_info sh) in
        if negb (has (sh_flags th) SHF_ALLOC) then relocations_loop n (i + 1) im resolve
        else if negb (sh_entsize sh =? sizeof_rela) || (section_at im (sh_info sh) =? 0) ||
                negb (range_ok (Z.of_nat (length (im_file im))) (sh_offset sh) (sh_size sh)) then ret (- EINVAL)
        else
          let* r := relas_loop (Z.to_nat (sh_size sh / sh_entsize sh)) (sh_offset sh) im (section_at im (sh_info sh)) resolve in
          if negb (r =? 0) then ret r else relocations_loop n (i + 1) im resolve
  end.
Definition elf_apply_relocations (im : elf_image) (resolve : option (list Z -> M St (Z * Z))) : M St Z :=
  relocations_loop (Z.to_nat (section_count im)) 0 im resolve.

Definition elf_load_relocatable (file : list Z) (alloc : Z -> Z -> M St Z) (resolve : option (list Z -> M St (Z * Z)))
    : M St (Z * elf_image) :=
  let im0 := mkImage file [] 0 0 None 0 None in
  let* r := elf_validate file in
  if negb (r =? 0) then ret (r, im0)
  else
    let* r := elf_load_sections file alloc in
    if negb (r.1 =? 0) then ret r
    else
      let* r := elf_find_symbols r.2 in
      if negb (r.1 =? 0) then ret r
      else let* e := elf_apply_relocations r.2 resolve in ret (e, r.2).

Fixpoint find_symbol_loop (n : nat) (i : Z) (im : elf_image) (name : list Z) (defined : bool)
    (resolve : option (list Z -> M St (Z * Z))) : M St (Z * Z) :=
  match n with
  | O => ret (- ENOENT, 0)
  | S n =>
      let* y := sym_at im i in
      if defined && (st_shndx y =? ELF_SHN_UNDEF) then find_symbol_loop n (i + 1) im name defined resolve
      else
        let* t := elf_symbol_name im y in
        if negb (bool_decide (t = name)) then find_symbol_loop n (i + 1) im name defined resolve
        else elf_symbol_value im i resolve
  end.
Definition elf_find_symbol_value (im : elf_image) (name : list Z) (resolve : option (list Z -> M St (Z * Z))) : M St (Z * Z) :=
  find_symbol_loop (Z.to_nat (sym_count im)) 0 im name false resolve.
Definition elf_find_defined_symbol_value (im : elf_image) (name : list Z) : M St (Z * Z) :=
  find_symbol_loop (Z.to_nat (sym_count im)) 0 im name true None.
End loader.
