(* ===== verification/ElfUser.v ===== *)
(** * Loading a user program (kernel/src/lib/elf.c)

    Segments, the interpreter, and the first stack of a program: arguments, environment and
    auxiliary vector. *)

From stdpp Require Import base list.
From Stdlib Require Import ZArith Lia.
From S2P Require Import Prelude Elf.

Local Open Scope Z_scope.

Definition ELF_STACK_RANDOM_SIZE : nat := 16.
Definition EXEC_PATH_SIZE : nat := 256.

Section loader.
Context {St : Type} {env : ElfEnv St}.

(** [while (copied < len)]: page by page through the page table. *)
Fixpoint copy_loop (fuel : nat) (start : Z) (src : list Z) (copied : nat) : M St Z :=
  match fuel with
  | O => diverge
  | S f =>
      if (length src <=? copied)%nat then ret 0
      else
        let va := u64 (start + Z.of_nat copied) in
        let* phys := get_phys va in
        if phys =? 0 then ret (- EINVAL)
        else
          let page_off := Z.land va (PAGE_SIZE - 1) in
          let chunk := Nat.min (Z.to_nat (PAGE_SIZE - page_off)) (length src - copied) in
          put_phys phys (take chunk (drop copied src)) ;;;
          copy_loop f start src (copied + chunk)
  end.
Definition copy_user (start : Z) (src : list Z) : M St Z := copy_loop (S (length src)) start src 0.

Definition seg_flags (pf : Z) : Z :=
  let flags := Z.lor (Z.lor VMM_PRESENT VMM_USER) VAD_FIXED in
  let flags := if has pf PF_W then Z.lor flags VMM_WRITABLE else flags in
  if negb (has pf PF_X) then Z.lor flags VMM_NX else flags.

Definition elf_load_segment (file : list Z) (ph : elf64_phdr) (load_bias : Z) : M St Z :=
  if (p_memsz ph <? p_filesz ph) || negb (range_ok (Z.of_nat (length file)) (p_offset ph) (p_filesz ph))
  then ret (- EINVAL)
  else if p_memsz ph =? 0 then ret 0
  else
    let seg_start := u64 (load_bias + p_vaddr ph) in
    let seg_end := u64 (seg_start + p_memsz ph) in
    if (seg_start <? VAS_USER_START) || (seg_end <? seg_start) || (VAS_USER_END <? seg_end) then ret (- EINVAL)
    else
      let map_start := ALIGN_DOWN seg_start PAGE_SIZE in
      let map_end := ALIGN_UP seg_end PAGE_SIZE in
      let* mapped := vas_map_anon map_start (u64 (map_end - map_start)) (seg_flags (p_flags ph)) in
      if negb (mapped =? map_start) then ret (- ENOMEM)
      else
        let* b := rd_block file (p_offset ph) (p_filesz ph) in
        copy_user seg_start b.

(** The status and the bytes of the file. *)
Definition elf_read_file (path : list Z) : M St (Z * list Z * Z) :=
  let* r := vfs_open path in
  if negb (r.1 =? 0) then ret (r.1, [], 0)
  else
    let* node := vfs_file_node r.2 in
    match node with
    | None => vfs_close r.2 ;;; ret (- EINVAL, [], 0)
    | Some (mode, size) =>
        if negb (VFS_S_ISREG mode) || (size =? 0) then vfs_close r.2 ;;; ret (- EINVAL, [], 0)
        else
          let* buf := kzalloc size in
          if buf =? 0 then vfs_close r.2 ;;; ret (- ENOMEM, [], 0)
          else
            let* q := vfs_read r.2 size in
            vfs_close r.2 ;;;
            if negb (q.1 =? 0) || negb (Z.of_nat (length q.2) =? size) then
              kfree buf ;;;
              ret (if q.1 =? 0 then - EINVAL else q.1, [], 0)
            else ret (0, q.2, buf)
    end.

(** The status and the path, empty when there is no interpreter. *)
Fixpoint find_interp_loop (n : nat) (a : Z) (file : list Z) (path_len : Z) : M St (Z * list Z) :=
  match n with
  | O => ret (0, [])
  | S n =>
      let* t := rd_le file a 4 in
      if negb (t =? PT_INTERP) then find_interp_loop n (a + sizeof_phdr) file path_len
      else
        let* ph := rd_phdr file a in
        if (p_filesz ph =? 0) || (path_len <? p_filesz ph) ||
           negb (range_ok (Z.of_nat (length file)) (p_offset ph) (p_filesz ph)) then ret (- EINVAL, [])
        else
          let* b := rd_block file (p_offset ph) (p_filesz ph) in
          ret (0, take (Z.to_nat path_len - 1) b)
  end.
Definition elf_find_interp (file : list Z) (path_len : Z) : M St (Z * list Z) :=
  let* o := e_phoff file in
  let* n := e_phnum file in
  find_interp_loop (Z.to_nat n) o file path_len.

(** [None]: not found. *)
Fixpoint find_pt_phdr (l : list elf64_phdr) (load_bias : Z) : option Z :=
  match l with
  | [] => None
  | ph :: l => if p_type ph =? PT_PHDR then Some (u64 (load_bias + p_vaddr ph)) else find_pt_phdr l load_bias
  end.
Fixpoint find_in_load (l : list elf64_phdr) (phoff size load_bias : Z) : option Z :=
  match l with
  | [] => None
  | ph :: l =>
      if negb (p_type ph =? PT_LOAD) then find_in_load l phoff size load_bias
      else if (phoff <? p_offset ph) || (u64 (p_offset ph + p_filesz ph) <? u64 (phoff + size))
      then find_in_load l phoff size load_bias
      else Some (u64 (u64 (load_bias + p_vaddr ph) + (phoff - p_offset ph)))
  end.
Definition elf_find_loaded_phdr (l : list elf64_phdr) (phoff phentsize load_bias : Z) : option Z :=
  match find_pt_phdr l load_bias with
  | Some a => Some a
  | None => find_in_load l phoff (Z.of_nat (length l) * phentsize) load_bias
  end.

(** The program headers, in order. *)
Fixpoint rd_phdrs (n : nat) (a : Z) (file : list Z) : M St (list elf64_phdr) :=
  match n with
  | O => ret []
  | S n => let* ph := rd_phdr file a in let* l := rd_phdrs n (a + sizeof_phdr) file in ret (ph :: l)
  end.
Fixpoint load_segments (l : list elf64_phdr) (file : list Z) (load_bias : Z) : M St Z :=
  match l with
  | [] => ret 0
  | ph :: l =>
      if negb (p_type ph =? PT_LOAD) then load_segments l file load_bias
      else
        let* r := elf_load_segment file ph load_bias in
        if negb (r =? 0) then ret r else load_segments l file load_bias
  end.

Record elf_user_image := mkUserImage {
  i_entry : Z; program_entry : Z; program_phdr : Z; interp_base : Z;
  program_phentsize : Z; program_phnum : Z; exec_path : list Z }.
Definition zero_image : elf_user_image := mkUserImage 0 0 0 0 0 0 [].

Definition elf_load_user_image_file (path file : list Z) (base_hint : Z) (as_interpreter : bool)
    : M St (Z * elf_user_image) :=
  let* r := elf_validate_executable file in
  if negb (r =? 0) then ret (r, zero_image)
  else
    let* off := e_phoff file in
    let* n := e_phnum file in
    let* l := rd_phdrs (Z.to_nat n) off file in
    let* t := e_type file in
    let load_bias := if t =? ET_DYN then base_hint else 0 in
    let* r := load_segments l file load_bias in
    if negb (r =? 0) then ret (r, zero_image)
    else
      let* es := e_phentsize file in
      let* entry := e_entry file in
      match elf_find_loaded_phdr l off es load_bias, t =? ET_EXEC with
      | None, false => ret (- EINVAL, zero_image)
      | found, _ =>
          let phdr := default 0 found in
          ret (0, if as_interpreter then mkUserImage (u64 (load_bias + entry)) 0 0 load_bias 0 0 []
                  else mkUserImage (u64 (load_bias + entry)) (u64 (load_bias + entry)) phdr 0 es n
                         (take (EXEC_PATH_SIZE - 1) path))
      end.

Fixpoint up_to_nul (l : list Z) : list Z :=
  match l with [] => [] | b :: l => if b =? 0 then [] else b :: up_to_nul l end.
(** The text in [interp_path]: the array is not cleared, so text without a terminator runs
    into bytes nobody has written, unless it reaches the terminator of the last place. *)
Definition interp_text (b : list Z) : M St (list Z) :=
  if existsb (Z.eqb 0) b || (length b =? 0)%nat || (length b =? 255)%nat then ret (up_to_nul b) else fault.

Definition elf_load_user_executable (path : list Z) : M St (Z * elf_user_image) :=
  let* f := elf_read_file path in
  let '(r, file, buf) := f in
  if negb (r =? 0) then ret (r, zero_image)
  else
    let* ip := elf_find_interp file 256 in
    let* r := if ip.1 =? 0 then elf_load_user_image_file path file ELF_ET_DYN_BASE false
              else ret (ip.1, zero_image) in
    kfree buf ;;;
    if negb (r.1 =? 0) then ret r
    else
      let image := r.2 in
      let* interp := interp_text ip.2 in
      match interp with
      | [] => ret (0, mkUserImage (program_entry image) (program_entry image) (program_phdr image) (interp_base image)
                        (program_phentsize image) (program_phnum image) (exec_path image))
      | _ =>
          let* g := elf_read_file interp in
          let '(r, ifile, ibuf) := g in
          if negb (r =? 0) then ret (r, image)
          else
            let* q := elf_load_user_image_file interp ifile ELF_INTERP_BASE true in
            kfree ibuf ;;;
            if negb (q.1 =? 0) then ret (q.1, image)
            else ret (0, mkUserImage (i_entry q.2) (program_entry image) (program_phdr image) (interp_base q.2)
                           (program_phentsize image) (program_phnum image) (exec_path image))
      end.

(** ** The first stack *)

(** The status, the new stack pointer. *)
Definition stack_write_bytes (sp : Z) (src : list Z) (align : Z) : M St (Z * Z) :=
  let next := u64 (sp - Z.of_nat (length src)) in
  let next := if 1 <? align then clr next (align - 1) else next in
  if next <? VAS_USER_START then ret (- ENOMEM, sp)
  else
    let* r := copy_user next src in
    if negb (r =? 0) then ret (r, sp) else ret (0, next).

(** [for (i = n; i > 0; i--)]: the strings from the last to the first; the status, the
    stack pointer and the addresses. *)
Fixpoint push_strings (rev_strs : list (list Z)) (sp : Z) (ptrs : list Z) : M St (Z * Z * list Z) :=
  match rev_strs with
  | [] => ret (0, sp, ptrs)
  | str :: rest =>
      let* r := stack_write_bytes sp (str ++ [0]) 1 in
      if negb (r.1 =? 0) then ret (r.1, sp, ptrs) else push_strings rest r.2 (r.2 :: ptrs)
  end.

Definition platform : list Z := [120; 56; 54; 95; 54; 52].
Definition random_bytes : list Z := [66; 97; 115; 101; 84; 108; 115; 33; 80; 105; 101; 69; 120; 101; 99; 0].

Definition auxv (image : elf_user_image) (platform_ptr random_ptr execfn_ptr : Z) : list Z :=
  [3; program_phdr image; 4; program_phentsize image; 5; program_phnum image; 6; PAGE_SIZE; 7; interp_base image; 8; 0;
   9; program_entry image; 11; 0; 12; 0; 13; 0; 14; 0; 15; platform_ptr; 16; 0; 17; 100; 23; 0; 25; random_ptr;
   31; execfn_ptr; 0; 0].
Definition stack_words (args envs aux : list Z) : list Z :=
  Z.of_nat (length args) :: args ++ [0] ++ envs ++ [0] ++ aux.

(** The status and [*rsp_out]. *)
Definition elf_build_initial_stack (stack_top : Z) (path : list Z) (argv envp : list (list Z)) (image : elf_user_image)
    : M St (Z * Z) :=
  if (32 <? length argv)%nat || (32 <? length envp)%nat then ret (- EINVAL, 0)
  else
    let* r := push_strings (reverse argv) stack_top [] in
    let '(e, sp, args) := r in
    if negb (e =? 0) then ret (e, 0)
    else
      let* r := push_strings (reverse envp) sp [] in
      let '(e, sp, envs) := r in
      if negb (e =? 0) then ret (e, 0)
      else
        let* x := stack_write_bytes sp (path ++ [0]) 1 in
        if negb (x.1 =? 0) then ret (x.1, 0)
        else
          let* p := stack_write_bytes x.2 (platform ++ [0]) 1 in
          if negb (p.1 =? 0) then ret (p.1, 0)
          else
            let* q := stack_write_bytes p.2 random_bytes 16 in
            if negb (q.1 =? 0) then ret (q.1, 0)
            else
              let words := stack_words args envs (auxv image p.2 q.2 x.2) in
              let sp := clr q.2 15 in
              let sp := if Nat.odd (length words) then u64 (sp - 8) else sp in
              let* a := kzalloc (8 * Z.of_nat (length words)) in
              if a =? 0 then ret (- ENOMEM, 0)
              else
                let* w := stack_write_bytes sp (concat (map (le_bytes 8) words)) 8 in
                kfree a ;;;
                if negb (w.1 =? 0) then ret (w.1, 0) else ret (0, w.2).
End loader.
