(* ===== verification/ElfProps.v ===== *)
(** * The loader of user programs is correct

    Against the interface of the address space: a program that loads has the bytes of every
    segment in memory as the file has them, with the protection the segment asks for, and no
    byte that was mapped before is touched; no file makes the loader read outside of it, and
    only a lack of page frames makes it panic.  The first stack holds what a program
    expects to find. *)

From stdpp Require Import base list.
From Stdlib Require Import ZArith Lia.
From S2P Require Import Prelude Elf ElfUser.

Local Open Scope Z_scope.

(** The run of [m] from [s] returns with [Q], using at most [c] page frames, or it panics
    because fewer than [c] are free. *)
Definition bounded {St A} (left : St -> Z) (c : Z) (m : M St A) (s : St) (Q : A -> St -> Prop) : Prop :=
  (m s = Panic /\ left s < c) \/ exists a s', m s = Ret a s' /\ left s - c <= left s' /\ Q a s'.

Lemma bounded_ret {St A} (left : St -> Z) (c : Z) (m : M St A) s a s' (Q : A -> St -> Prop) :
  m s = Ret a s' -> left s - c <= left s' -> Q a s' -> bounded left c m s Q.
Proof. intros. right. eauto. Qed.
Lemma bounded_bind {St A B} (left : St -> Z) (c1 c2 c : Z) (m : M St A) (k : A -> M St B) s
    (P : A -> St -> Prop) (Q : B -> St -> Prop) :
  bounded left c1 m s P -> 0 <= c2 -> c1 + c2 <= c ->
  (forall a s1, P a s1 -> bounded left c2 (k a) s1 Q) -> bounded left c (bind m k) s Q.
Proof.
  intros [[Hp Hl]|(a & s1 & Hm & Hl & HP)] Hc2 Hc Hk; unfold bind.
  { left. rewrite Hp. split; [done|lia]. }
  unfold bounded. rewrite Hm. destruct (Hk a s1 HP) as [[-> Hl1]|(b & s2 & -> & Hl2 & HQ)].
  - left. split; [done|lia].
  - right. exists b, s2. split_and!; [done|lia|done].
Qed.
Lemma bounded_mono {St A} (left : St -> Z) (c c' : Z) (m : M St A) s (P Q : A -> St -> Prop) :
  bounded left c m s P -> c <= c' -> (forall a s', P a s' -> Q a s') -> bounded left c' m s Q.
Proof.
  intros [[Hp Hl]|(a & s1 & Hm & Hl & HP)] Hc Hk; [left; split; [done|lia]|right].
  exists a, s1. split_and!; [done|lia|auto].
Qed.

(** What the loader relies on.  [vmem] is the byte at a user address, [None] where nothing
    is mapped; [vflags] the flags of its range; [frames_left] the number of free page frames;
    [private] says that no frame backs two user pages, as in an address space of anonymous
    memory; [owned] which heap objects are allocated.  A fixed anonymous mapping succeeds
    only where nothing is mapped; what its pages hold is not known; 4 n + 1 frames are enough
    for n pages, with fewer it may panic.  Memory is mapped by the page; [get_phys] finds
    mapped user addresses; a write through the direct map within a page changes those bytes
    and no others. *)
Class ElfLaws (St : Type) `{ElfEnv St} := {
  vmem : St -> Z -> option Z;
  vflags : St -> Z -> Z;
  frames_left : St -> Z;
  private : St -> Prop;
  owned : St -> Z -> Prop;
  law_user : forall s x b, vmem s x = Some b -> VAS_USER_START <= x <= VAS_USER_END;
  law_page : forall s x y, x / PAGE_SIZE = y / PAGE_SIZE -> vmem s x = None -> vmem s y = None;
  law_map : forall s start len flags, private s -> has flags VAD_FIXED = true -> VAS_USER_START <= start ->
    start `mod` PAGE_SIZE = 0 -> 0 < len -> len `mod` PAGE_SIZE = 0 ->
    bounded frames_left (4 * (len / PAGE_SIZE) + 1) (vas_map_anon start len flags) s (fun r s' =>
      private s' /\
      (r = start -> forall x, start <= x < start + len ->
        vmem s x = None /\ is_Some (vmem s' x) /\ vflags s' x = flags) /\
      (forall x, r <> start \/ ~ (start <= x < start + len) -> vmem s' x = vmem s x /\ vflags s' x = vflags s x));
  law_phys : forall s va, VAS_USER_START <= va <= VAS_USER_END ->
    exists p, get_phys va s = Ret p s /\ (p = 0 <-> vmem s va = None);
  law_put : forall s va p l, private s -> VAS_USER_START <= va <= VAS_USER_END ->
    get_phys va s = Ret p s -> p <> 0 -> va `mod` PAGE_SIZE + Z.of_nat (length l) <= PAGE_SIZE ->
    exists s', put_phys p l s = Ret tt s' /\ private s' /\ frames_left s' = frames_left s /\
      (forall a, owned s a -> owned s' a) /\
      (forall x, vmem s' x = if (va <=? x) && (x <? va + Z.of_nat (length l)) then l !! Z.to_nat (x - va) else vmem s x) /\
      (forall x, vflags s' x = vflags s x);
  law_kzalloc : forall s n, private s -> 0 < n <= 2048 ->
    bounded frames_left 1 (kzalloc n) s (fun a s' => private s' /\ (a <> 0 -> owned s' a) /\
      (forall x, vmem s' x = vmem s x) /\ (forall x, vflags s' x = vflags s x));
  law_kfree : forall s a, private s -> owned s a ->
    exists s', kfree a s = Ret tt s' /\ private s' /\ frames_left s <= frames_left s' /\
      (forall x, vmem s' x = vmem s x) /\ (forall x, vflags s' x = vflags s x) }.

(** ** Reading the file *)

Definition byte (b : Z) : Prop := 0 <= b < 256.
(** The number in [n] bytes at [off]. *)
Definition fle (file : list Z) (off n : Z) : Z := le (take (Z.to_nat n) (drop (Z.to_nat off) file)).
Definition phdr_at (file : list Z) (a : Z) : elf64_phdr :=
  mkPhdr (fle file a 4) (fle file (a + 4) 4) (fle file (a + 8) 8) (fle file (a + 16) 8) (fle file (a + 32) 8)
    (fle file (a + 40) 8).
Fixpoint phdrs_at (n : nat) (a : Z) (file : list Z) : list elf64_phdr :=
  match n with O => [] | S n => phdr_at file a :: phdrs_at n (a + sizeof_phdr) file end.
Definition program_headers (file : list Z) : list elf64_phdr :=
  phdrs_at (Z.to_nat (fle file 56 2)) (fle file 32 8) file.

Lemma le_range l : Forall byte l -> 0 <= le l < 2 ^ (8 * Z.of_nat (length l)).
Proof.
  induction 1 as [|b l Hb Hl IH]; [done|]. cbn [le length]. unfold byte in Hb.
  replace (8 * Z.of_nat (S (length l))) with (8 * Z.of_nat (length l) + 8) by lia.
  rewrite Z.pow_add_r by lia. change (2 ^ 8) with 256. lia.
Qed.
Lemma fle_range file off n : Forall byte file -> 0 <= n -> 0 <= fle file off n < 2 ^ (8 * n).
Proof.
  intros Hf Hn. unfold fle. pose proof (le_range (take (Z.to_nat n) (drop (Z.to_nat off) file))) as H.
  specialize (H ltac:(by apply Forall_take, Forall_drop)). rewrite length_take, length_drop in H.
  split; [lia|]. eapply Z.lt_le_trans; [apply H|]. apply Z.pow_le_mono_r; lia.
Qed.

Section facts.
Context {St : Type} {env : ElfEnv St}.

Lemma rd_block_ok (s : St) file off n :
  0 <= off -> off + n <= Z.of_nat (length file) ->
  rd_block file off n s = Ret (take (Z.to_nat n) (drop (Z.to_nat off) file)) s.
Proof.
  intros H0 H1. unfold rd_block. rewrite (proj2 (Z.leb_le 0 off)), (proj2 (Z.leb_le (off + n) _)) by lia. done.
Qed.
Lemma rd_le_ok (s : St) file off n :
  0 <= off -> off + n <= Z.of_nat (length file) -> rd_le file off n s = Ret (fle file off n) s.
Proof. intros H0 H1. unfold rd_le. by rewrite (bind_ret _ _ _ _ _ (rd_block_ok s file off n H0 H1)). Qed.
Lemma rd_phdr_ok (s : St) file a :
  0 <= a -> a + sizeof_phdr <= Z.of_nat (length file) -> rd_phdr file a s = Ret (phdr_at file a) s.
Proof.
  unfold sizeof_phdr. intros H0 H1. unfold rd_phdr.
  rewrite (bind_ret _ _ _ _ _ (rd_le_ok s file a 4 ltac:(lia) ltac:(lia))).
  rewrite (bind_ret _ _ _ _ _ (rd_le_ok s file (a + 4) 4 ltac:(lia) ltac:(lia))).
  rewrite (bind_ret _ _ _ _ _ (rd_le_ok s file (a + 8) 8 ltac:(lia) ltac:(lia))).
  rewrite (bind_ret _ _ _ _ _ (rd_le_ok s file (a + 16) 8 ltac:(lia) ltac:(lia))).
  rewrite (bind_ret _ _ _ _ _ (rd_le_ok s file (a + 32) 8 ltac:(lia) ltac:(lia))).
  by rewrite (bind_ret _ _ _ _ _ (rd_le_ok s file (a + 40) 8 ltac:(lia) ltac:(lia))).
Qed.
Lemma rd_phdrs_ok n a (s : St) file :
  0 <= a -> a + sizeof_phdr * Z.of_nat n <= Z.of_nat (length file) -> rd_phdrs n a file s = Ret (phdrs_at n a file) s.
Proof.
  unfold sizeof_phdr. revert a. induction n as [|n IH]; intros a H0 H1; [done|]. cbn [rd_phdrs phdrs_at].
  rewrite (bind_ret _ _ _ _ _ (rd_phdr_ok s file a H0 ltac:(unfold sizeof_phdr; lia))).
  rewrite (bind_ret _ _ _ _ _ (IH (a + sizeof_phdr) ltac:(unfold sizeof_phdr; lia) ltac:(unfold sizeof_phdr; lia))). done.
Qed.
Lemma range_ok_le size off n : range_ok size off n = true -> off + n <= size.
Proof. unfold range_ok. intros H. bools. lia. Qed.
End facts.

(** ** Copying to the address space *)

Section copy.
Context {St : Type} {env : ElfEnv St} {laws : ElfLaws St}.

(** What was mapped is still there, with its protection. *)
Definition keeps (s s' : St) : Prop :=
  forall x b, vmem s x = Some b -> vmem s' x = Some b /\ vflags s' x = vflags s x.
(** Only the bytes of [lo, hi) may differ. *)
Definition within (s s' : St) (lo hi : Z) : Prop :=
  (forall x, ~ lo <= x < hi -> vmem s' x = vmem s x) /\ forall x, vflags s' x = vflags s x.
(** What writing to user memory keeps besides. *)
Definition calm (s s' : St) : Prop :=
  private s' /\ frames_left s' = frames_left s /\ forall a, owned s a -> owned s' a.

Lemma keeps_refl s : keeps s s.
Proof. by intros x b. Qed.
Lemma keeps_trans s1 s2 s3 : keeps s1 s2 -> keeps s2 s3 -> keeps s1 s3.
Proof. intros H1 H2 x b H. destruct (H1 x b H) as [Ha Hf]. destruct (H2 x b Ha). split; congruence. Qed.

Lemma page_offset va : Z.land va (PAGE_SIZE - 1) = va `mod` PAGE_SIZE.
Proof. change (PAGE_SIZE - 1) with (Z.ones 12). by rewrite Z.land_ones by lia. Qed.

Lemma same_page lo x : lo <= x < lo + (PAGE_SIZE - lo `mod` PAGE_SIZE) -> x / PAGE_SIZE = lo / PAGE_SIZE.
Proof.
  intros H. pose proof (Z.mod_pos_bound lo PAGE_SIZE ltac:(done)). pose proof (Z.div_mod lo PAGE_SIZE ltac:(done)).
  symmetry. apply (Z.div_unique x PAGE_SIZE _ (x - lo + lo `mod` PAGE_SIZE)); lia.
Qed.

(** The bytes of [src] from the [copied]-th on are written, and nothing else. *)
Lemma copy_loop_spec fuel src start s copied :
  (length src - copied < fuel)%nat -> (copied <= length src)%nat ->
  private s -> VAS_USER_START <= start -> start + Z.of_nat (length src) <= VAS_USER_END ->
  let lo := start + Z.of_nat copied in
  let hi := start + Z.of_nat (length src) in
  exists r s', copy_loop fuel start src copied s = Ret r s' /\ calm s s' /\ within s s' lo hi /\
    (r = 0 -> forall x, lo <= x < hi -> is_Some (vmem s x) /\ vmem s' x = src !! Z.to_nat (x - start)) /\
    ((forall x, lo <= x < hi -> is_Some (vmem s x)) -> r = 0).
Proof.
  revert s copied. induction fuel as [|fuel IH]; intros s copied Hf Hc Hpv H0 H1 lo hi; [lia|]. cbn [copy_loop].
  destruct (Nat.leb_spec (length src) copied) as [Hd|Hd].
  { exists 0, s. split; [done|]. split; [by split_and!|]. split_and!; [done| |done]. intros _ x Hx. lia. }
  assert (Hb : 0 <= start /\ start + Z.of_nat (length src) < 2 ^ 64) by (unfold VAS_USER_START, VAS_USER_END in *; lia).
  cbv zeta. rewrite (u64_small (start + Z.of_nat copied)) by lia. fold lo.
  assert (Hlo : VAS_USER_START <= lo <= VAS_USER_END) by lia.
  destruct (law_phys s lo Hlo) as (p & Hp & Hpn). rewrite (bind_ret _ _ _ _ _ Hp).
  destruct (Z.eqb_spec p 0) as [->|Hz].
  { exists (- EINVAL), s. split; [done|]. split; [by split_and!|]. split_and!; [done|done|].
    intros Hm. destruct (Hm lo ltac:(lia)) as [b Hb']. rewrite (proj1 Hpn eq_refl) in Hb'. done. }
  rewrite page_offset. pose proof (Z.mod_pos_bound lo PAGE_SIZE ltac:(done)) as Hm.
  set (chunk := Nat.min _ _). assert (0 < chunk <= length src - copied)%nat by lia.
  assert (Hl : length (take chunk (drop copied src)) = chunk) by (rewrite length_take, length_drop; lia).
  destruct (law_put s lo p (take chunk (drop copied src)) Hpv Hlo Hp Hz ltac:(lia))
    as (s1 & Hs1 & Hpv1 & Hl1 & Hw1 & Hv & Hfl).
  rewrite Hl in Hv. rewrite (bind_ret _ _ _ _ _ Hs1).
  destruct (IH s1 (copied + chunk)%nat ltac:(lia) ltac:(lia) Hpv1 H0 H1)
    as (r & s' & Hr & (Hpv2 & Hl2 & Hw2) & [Ho Hof] & Hok & Hall).
  exists r, s'. split; [done|]. split; [split_and!; [done|congruence|auto]|]. split_and!.
  - split; [|intros x; by rewrite Hof]. intros x Hx. rewrite Ho, Hv by lia.
    by rewrite (proj2 (andb_false_iff _ _)) by (rewrite Z.leb_gt, Z.ltb_ge; lia).
  - intros -> x Hx. destruct (decide (x < lo + Z.of_nat chunk)) as [Hlt|Hge].
    + split.
      * destruct (vmem s x) eqn:Hn; [eauto|]. destruct Hz. apply Hpn. apply (law_page s x lo); [|done].
        apply same_page; lia.
      * rewrite Ho, Hv by lia. rewrite (proj2 (andb_true_iff _ _)) by (rewrite Z.leb_le, Z.ltb_lt; lia).
        rewrite lookup_take_lt, lookup_drop by lia. f_equal. lia.
    + destruct (Hok eq_refl x ltac:(lia)) as [Hi Hx']. split; [|done].
      rewrite Hv, (proj2 (andb_false_iff _ _)) in Hi by (rewrite Z.leb_gt, Z.ltb_ge; lia). done.
  - intros Hall'. apply Hall. intros x Hx. rewrite Hv.
    rewrite (proj2 (andb_false_iff _ _)) by (rewrite Z.leb_gt, Z.ltb_ge; lia). apply Hall'. lia.
Qed.

Lemma copy_user_spec src start s :
  private s -> VAS_USER_START <= start -> start + Z.of_nat (length src) <= VAS_USER_END ->
  let hi := start + Z.of_nat (length src) in
  exists r s', copy_user start src s = Ret r s' /\ calm s s' /\ within s s' start hi /\
    (r = 0 -> forall x, start <= x < hi -> is_Some (vmem s x) /\ vmem s' x = src !! Z.to_nat (x - start)) /\
    ((forall x, start <= x < hi -> is_Some (vmem s x)) -> r = 0).
Proof.
  intros Hpv H0 H1 hi. unfold copy_user.
  destruct (copy_loop_spec (S (length src)) src start s 0) as (r & s' & H); [lia|lia|done|done|done|].
  change (Z.of_nat 0) with 0 in H. rewrite Z.add_0_r in H. by exists r, s'.
Qed.

(** ** Segments *)

(** The segment is mapped at its place in user memory, with the access its header asks
    for, and the bytes the file has for it are there. *)
Definition seg_loaded (s : St) (file : list Z) (bias : Z) (ph : elf64_phdr) : Prop :=
  forall i, 0 <= i < p_memsz ph -> let x := u64 (bias + p_vaddr ph) + i in
    VAS_USER_START <= x < VAS_USER_END /\ is_Some (vmem s x) /\
    (i < p_filesz ph -> vmem s x = file !! Z.to_nat (p_offset ph + i)) /\
    has (vflags s x) VMM_USER = true /\ has (vflags s x) VMM_WRITABLE = has (p_flags ph) PF_W /\
    has (vflags s x) VMM_NX = negb (has (p_flags ph) PF_X).
(** What 64-bit fields hold. *)
Definition wf_phdr (ph : elf64_phdr) : Prop :=
  0 <= p_offset ph /\ 0 <= p_filesz ph /\ 0 <= p_memsz ph < 2 ^ 64.

Lemma seg_loaded_keeps s s' file bias ph : seg_loaded s file bias ph -> keeps s s' -> seg_loaded s' file bias ph.
Proof.
  intros H Hk i Hi. destruct (H i Hi) as (Hu & [b Hm] & Hfile & Hf). destruct (Hk _ _ Hm) as [Hm' Hf'].
  cbv zeta in *. rewrite Hf', Hm'. rewrite Hm in Hfile. split; [exact Hu|]. split; [eauto|]. split; [exact Hfile|exact Hf].
Qed.
Lemma seg_flags_fixed pf : has (seg_flags pf) VAD_FIXED = true.
Proof. unfold seg_flags. by destruct (has pf PF_W), (has pf PF_X). Qed.
Lemma seg_flags_access pf :
  has (seg_flags pf) VMM_USER = true /\ has (seg_flags pf) VMM_WRITABLE = has pf PF_W /\
  has (seg_flags pf) VMM_NX = negb (has pf PF_X).
Proof. unfold seg_flags. by destruct (has pf PF_W), (has pf PF_X). Qed.

(** Page frames that are enough for a segment: four for each page it may touch and one. *)
Definition seg_cost (ph : elf64_phdr) : Z := 4 * (p_memsz ph / PAGE_SIZE + 2) + 1.
Definition load_cost (l : list elf64_phdr) : Z :=
  foldr (fun ph n => (if p_type ph =? PT_LOAD then seg_cost ph else 0) + n) 0 l.

Lemma seg_map_range start memsz :
  VAS_USER_START <= start -> 0 < memsz -> start + memsz <= VAS_USER_END ->
  let lo := ALIGN_DOWN start PAGE_SIZE in
  let hi := ALIGN_UP (start + memsz) PAGE_SIZE in
  VAS_USER_START <= lo <= start /\ start + memsz <= hi /\ u64 (hi - lo) = hi - lo /\ lo `mod` PAGE_SIZE = 0 /\
  (hi - lo) `mod` PAGE_SIZE = 0 /\ (hi - lo) / PAGE_SIZE <= memsz / PAGE_SIZE + 2.
Proof.
  unfold VAS_USER_START, VAS_USER_END. intros H0 H1 H2. cbv zeta. rewrite ALIGN_DOWN_page, ALIGN_UP_page by lia. unfold PAGE_SIZE.
  rewrite u64_small by zdiv. zdiv.
Qed.

Lemma elf_load_segment_spec file ph bias s :
  wf_phdr ph -> private s ->
  bounded frames_left (seg_cost ph) (elf_load_segment file ph bias) s (fun r s' =>
    private s' /\ keeps s s' /\ (r = 0 -> seg_loaded s' file bias ph)).
Proof.
  intros (Ho & Hfs & Hms) Hpv. unfold elf_load_segment, seg_cost, PAGE_SIZE at 1. cbv zeta.
  assert (Hc0 : 0 <= p_memsz ph / 4096) by (apply Z.div_pos; lia).
  destruct (_ || _) eqn:Hc; [by eapply bounded_ret; [done|lia|]|]. apply orb_false_iff in Hc as [Hc1 Hc2].
  apply negb_false_iff, range_ok_le in Hc2. apply Z.ltb_ge in Hc1.
  destruct (Z.eqb_spec (p_memsz ph) 0) as [Hz|Hz].
  { eapply bounded_ret; [done|lia|]. split_and!; [done|done|]. intros _ i Hi. lia. }
  set (start := u64 (bias + p_vaddr ph)). pose proof (u64_range (bias + p_vaddr ph)) as Hsr. fold start in Hsr.
  destruct (_ || _ || _) eqn:Hb; [by eapply bounded_ret; [done|lia|]|].
  assert (Hend : u64 (start + p_memsz ph) = start + p_memsz ph).
  { apply orb_false_iff in Hb as [[_ Hb]%orb_false_iff _]. apply Z.ltb_ge in Hb. revert Hb. unfold u64. intros Hb.
    clearbody start. clear - Hb Hsr Hms. zdiv. }
  rewrite Hend in Hb |- *. assert (Hr : VAS_USER_START <= start /\ start + p_memsz ph <= VAS_USER_END) by blia.
  destruct (seg_map_range start (p_memsz ph)) as (Hlo & Hhi & Hw & Hal & Hlen & Hpg); [lia..|].
  set (lo := ALIGN_DOWN _ _) in *. set (hi := ALIGN_UP _ _) in *. rewrite Hw. unfold PAGE_SIZE in Hpg at 2.
  eapply (bounded_bind _ (4 * ((hi - lo) / PAGE_SIZE) + 1) 0);
    [by apply law_map; [done|apply seg_flags_fixed|lia|done|lia|]|lia|lia|].
  intros m s1 (Hpv1 & Hin & Hout).
  destruct (Z.eqb_spec m lo) as [->|Hml]; cbn [negb].
  2:{ eapply bounded_ret; [done|lia|]. split_and!; [done| |done]. intros x b Hx.
      destruct (Hout x) as [-> ->]; [by left|done]. }
  specialize (Hin eq_refl). unfold bounded.
  rewrite (bind_ret _ _ _ _ _ (rd_block_ok s1 file (p_offset ph) (p_filesz ph) Ho Hc2)). right.
  set (src := take _ _). assert (Hl : length src = Z.to_nat (p_filesz ph)).
  { unfold src. rewrite length_take, length_drop. lia. }
  destruct (copy_user_spec src start s1) as (r & s2 & Hr2 & (Hpv2 & Hl2 & _) & [Hv2 Hf2] & Hok & _); [done|lia|lia|].
  exists r, s2. split; [done|]. split; [lia|]. split; [done|]. split.
  - intros x b Hx. rewrite Hf2. destruct (decide (lo <= x < lo + (hi - lo))) as [Hi|Hi].
    { destruct (Hin x Hi). congruence. }
    rewrite Hv2 by lia. destruct (Hout x (or_intror Hi)) as [-> ->]. done.
  - intros -> i Hi. cbv zeta. fold start. split; [lia|]. rewrite Hf2.
    destruct (Hin (start + i) ltac:(lia)) as (_ & Hv & ->).
    assert (Hfile : i < p_filesz ph -> vmem s2 (start + i) = file !! Z.to_nat (p_offset ph + i)).
    { intros Hlt. destruct (Hok eq_refl (start + i) ltac:(lia)) as [_ ->]. unfold src.
      replace (start + i - start) with i by lia. rewrite lookup_take_lt, lookup_drop by lia.
      by rewrite <- Z2Nat.inj_add by lia. }
    split; [|split; [done|apply seg_flags_access]].
    destruct (decide (i < p_filesz ph)) as [Hlt|Hge]; [|by rewrite Hv2 by lia].
    rewrite Hfile by done. apply lookup_lt_is_Some_2. lia.
Qed.

Lemma seg_cost_pos ph : wf_phdr ph -> 0 <= seg_cost ph.
Proof. intros (_ & _ & H). unfold seg_cost. pose proof (Z.div_pos (p_memsz ph) PAGE_SIZE ltac:(lia) ltac:(done)). lia. Qed.
Lemma load_cost_pos l : Forall wf_phdr l -> 0 <= load_cost l.
Proof.
  induction 1 as [|ph l Hph Hl IH]; [done|]. cbn [load_cost foldr]. fold (load_cost l).
  pose proof (seg_cost_pos ph Hph). case_match; lia.
Qed.

Lemma load_segments_spec l file bias s :
  Forall wf_phdr l -> private s ->
  bounded frames_left (load_cost l) (load_segments l file bias) s (fun r s' => private s' /\ keeps s s' /\
    (r = 0 -> Forall (fun ph => p_type ph = PT_LOAD -> seg_loaded s' file bias ph) l)).
Proof.
  intros Hl. revert s. induction Hl as [|ph l Hph Hl IH]; intros s Hpv; [by eapply bounded_ret; [done|simpl; lia|]|].
  cbn [load_segments load_cost foldr]. fold (load_cost l).
  destruct (Z.eqb_spec (p_type ph) PT_LOAD) as [Ht|Ht]; cbn [negb].
  2:{ eapply bounded_mono; [by apply IH|lia|]. intros r s' (Hp & Hk & Hok). split_and!; [done|done|]. intros Hr.
      constructor; [done|by apply Hok]. }
  eapply bounded_bind; [by apply elf_load_segment_spec|by apply load_cost_pos|apply Z.le_refl|].
  intros r s1 (Hpv1 & Hk & Hok). pose proof (load_cost_pos l Hl).
  destruct (Z.eqb_spec r 0) as [->|Hn]; cbn [negb]; [|by eapply bounded_ret; [done|lia|]].
  eapply bounded_mono; [by apply IH|lia|]. intros r s' (Hp & Hk' & Hok').
  split_and!; [done|by eapply keeps_trans|]. intros Hz. constructor; [|by apply Hok'].
  intros _. by eapply seg_loaded_keeps; [apply Hok|].
Qed.

(** ** Images *)

(** What [elf_validate_executable] answers to. *)
Definition executable (file : list Z) : Prop :=
  sizeof_ehdr <= Z.of_nat (length file) /\ bad_ident (take 16 file) = false /\
  (fle file 16 2 = ET_EXEC \/ fle file 16 2 = ET_DYN) /\ fle file 18 2 = EM_X86_64 /\
  fle file 54 2 = sizeof_phdr /\ 0 < fle file 56 2 /\
  fle file 32 8 + sizeof_phdr * fle file 56 2 <= Z.of_nat (length file).

Lemma validate_executable_spec file (s : St) :
  Forall byte file ->
  exists r, elf_validate_executable file s = Ret r s /\ (r = 0 <-> executable file).
Proof.
  intros Hf. unfold elf_validate_executable, executable. cbv zeta.
  destruct (Z.ltb_spec (Z.of_nat (length file)) sizeof_ehdr) as [Hs|Hs].
  { exists (- EINVAL). split; [done|]. split; [done|lia]. }
  unfold sizeof_ehdr in Hs. unfold e_ident, e_type, e_machine, e_phentsize, e_phnum, e_phoff.
  rewrite (bind_ret _ _ _ _ _ (rd_block_ok s file 0 16 ltac:(lia) ltac:(lia))).
  change (take (Z.to_nat 16) (drop (Z.to_nat 0) file)) with (take 16 file).
  destruct (bad_ident _) eqn:Hi; [by exists (- EINVAL); split; [|intuition]|].
  rewrite (bind_ret _ _ _ _ _ (rd_le_ok s file 16 2 ltac:(lia) ltac:(lia))).
  rewrite (bind_ret _ _ _ _ _ (rd_le_ok s file 18 2 ltac:(lia) ltac:(lia))).
  destruct (_ || _) eqn:Ht.
  { exists (- EINVAL). split; [done|]. split; [done|]. intros (_ & _ & Ht' & Hm' & _).
    rewrite Hm' in Ht. destruct Ht' as [H|H]; rewrite H in Ht; done. }
  rewrite (bind_ret _ _ _ _ _ (rd_le_ok s file 54 2 ltac:(lia) ltac:(lia))).
  rewrite (bind_ret _ _ _ _ _ (rd_le_ok s file 56 2 ltac:(lia) ltac:(lia))).
  rewrite (bind_ret _ _ _ _ _ (rd_le_ok s file 32 8 ltac:(lia) ltac:(lia))).
  pose proof (fle_range file 56 2 Hf ltac:(lia)) as Hn. pose proof (fle_range file 32 8 Hf ltac:(lia)) as Ho.
  apply orb_false_iff in Ht as [Ht Hm]. apply negb_false_iff, Z.eqb_eq in Hm.
  assert (fle file 16 2 = ET_EXEC \/ fle file 16 2 = ET_DYN).
  { apply andb_false_iff in Ht as [Ht|Ht]; apply negb_false_iff, Z.eqb_eq in Ht; [by left|by right]. }
  destruct (_ || _) eqn:Hc; [exists (- EINVAL)|exists 0]; (split; [done|]).
  - split; [done|]. intros (_ & _ & _ & _ & He & Hp & Hr). rewrite He in Hc. unfold sizeof_phdr in *. cbn in Hc.
    apply orb_true_iff in Hc as [Hc|Hc]; [apply Z.eqb_eq in Hc; lia|].
    apply negb_true_iff in Hc. revert Hc. unfold range_ok. rewrite u64_small by lia.
    rewrite (proj2 (Z.leb_le _ _)), (proj2 (Z.leb_le _ _)) by lia. done.
  - split; [|done]. intros _. apply orb_false_iff in Hc as [[He%negb_false_iff Hz]%orb_false_iff Hr%negb_false_iff].
    apply Z.eqb_eq in He. apply Z.eqb_neq in Hz. rewrite He in Hr. apply range_ok_le in Hr.
    unfold sizeof_phdr, sizeof_ehdr in *. rewrite u64_small in Hr by lia. split_and!; try done; lia.
Qed.

Lemma phdrs_at_wf n a file : Forall byte file -> Forall wf_phdr (phdrs_at n a file).
Proof.
  intros Hf. revert a. induction n as [|n IH]; intros a; [constructor|]. cbn [phdrs_at]. constructor; [|apply IH].
  unfold wf_phdr, phdr_at. cbn.
  pose proof (fle_range file (a + 8) 8 Hf ltac:(lia)). pose proof (fle_range file (a + 32) 8 Hf ltac:(lia)).
  pose proof (fle_range file (a + 40) 8 Hf ltac:(lia)). lia.
Qed.

(** The address a position-independent image is loaded at. *)
Definition image_bias (file : list Z) (base_hint : Z) : Z := if fle file 16 2 =? ET_DYN then base_hint else 0.

(** C11: loading an image.  Whatever bytes a file holds, the loader returns without reading
    outside of the file and leaves every byte that was mapped as it was, or it panics because
    fewer page frames are free than four for each page its segments may touch and one for
    each segment.  When it answers 0 the file is an executable of this machine, every
    loadable segment is mapped in user memory at its address with the access its header asks
    for, the bytes the file has for it are in place (what follows them is what the pages held
    when they were handed out), and the entry point is the file's, moved with the image. *)
Theorem elf_image_loaded path file base_hint (as_interpreter : bool) (s : St) :
  Forall byte file -> private s ->
  bounded frames_left (load_cost (program_headers file))
    (elf_load_user_image_file path file base_hint as_interpreter) s (fun x s' =>
    private s' /\ keeps s s' /\
    (x.1 = 0 -> executable file /\
      Forall (fun ph => p_type ph = PT_LOAD -> seg_loaded s' file (image_bias file base_hint) ph) (program_headers file) /\
      i_entry x.2 = u64 (image_bias file base_hint + fle file 24 8))).
Proof.
  intros Hf Hpv. unfold elf_load_user_image_file.
  pose proof (load_cost_pos (program_headers file) (phdrs_at_wf _ _ _ Hf)) as Hcost.
  destruct (validate_executable_spec file s Hf) as (r & Hr & Hx). unfold bounded. rewrite (bind_ret _ _ _ _ _ Hr).
  destruct (Z.eqb_spec r 0) as [->|Hn]; cbn [negb]; [|by eapply bounded_ret; [done|lia|]].
  pose proof (proj1 Hx eq_refl) as He. destruct He as (Hs & _ & _ & _ & _ & _ & Hp).
  unfold sizeof_ehdr in Hs. unfold e_phoff, e_phnum, e_type, e_phentsize, e_entry.
  pose proof (fle_range file 56 2 Hf ltac:(lia)) as Hn. pose proof (fle_range file 32 8 Hf ltac:(lia)) as Ho.
  assert (Hp' : fle file 32 8 + sizeof_phdr * Z.of_nat (Z.to_nat (fle file 56 2)) <= Z.of_nat (length file))
    by (rewrite Z2Nat.id by lia; done).
  rewrite (bind_ret _ _ _ _ _ (rd_le_ok s file 32 8 ltac:(lia) ltac:(lia))).
  rewrite (bind_ret _ _ _ _ _ (rd_le_ok s file 56 2 ltac:(lia) ltac:(lia))).
  rewrite (bind_ret _ _ _ _ _ (rd_phdrs_ok (Z.to_nat (fle file 56 2)) (fle file 32 8) s file ltac:(lia) ltac:(lia))).
  rewrite (bind_ret _ _ _ _ _ (rd_le_ok s file 16 2 ltac:(lia) ltac:(lia))).
  change (phdrs_at _ _ _) with (program_headers file). cbv zeta.
  change (if fle file 16 2 =? ET_DYN then base_hint else 0) with (image_bias file base_hint).
  match goal with |- ?L s = Panic /\ _ \/ _ => change (bounded frames_left (load_cost (program_headers file)) L s
    (fun x s' => private s' /\ keeps s s' /\ (x.1 = 0 -> executable file /\
      Forall (fun ph => p_type ph = PT_LOAD -> seg_loaded s' file (image_bias file base_hint) ph) (program_headers file) /\
      i_entry x.2 = u64 (image_bias file base_hint + fle file 24 8)))) end.
  eapply (bounded_bind _ (load_cost (program_headers file)) 0);
    [apply load_segments_spec; [by apply phdrs_at_wf|done]|lia|lia|].
  intros r s' (Hpv' & Hk & Hok).
  destruct (Z.eqb_spec r 0) as [->|Hn']; cbn [negb]; [|by eapply bounded_ret; [done|lia|]].
  unfold bounded.
  rewrite (bind_ret _ _ _ _ _ (rd_le_ok s' file 54 2 ltac:(lia) ltac:(lia))).
  rewrite (bind_ret _ _ _ _ _ (rd_le_ok s' file 24 8 ltac:(lia) ltac:(lia))).
  assert (Hdone : forall im, i_entry im = u64 (image_bias file base_hint + fle file 24 8) ->
    0 = 0 -> executable file /\
      Forall (fun ph => p_type ph = PT_LOAD -> seg_loaded s' file (image_bias file base_hint) ph) (program_headers file) /\
      i_entry im = u64 (image_bias file base_hint + fle file 24 8)) by (intros im Him _; split_and!; [by apply Hx|by apply Hok|done]).
  right.
  destruct (elf_find_loaded_phdr _ _ _ _) as [a|]; [|destruct (fle file 16 2 =? ET_EXEC)]; do 2 eexists;
    (split; [done|]); (split; [lia|]); (split; [done|]); (split; [done|]);
    [apply Hdone; by destruct as_interpreter..|done].
Qed.
End copy.

(** ** Starting a program *)

(** a file is looked at before it is checked.  [elf_load_user_executable] searches the
    program headers for an interpreter before [elf_validate_executable] has seen the file:
    of a file that ends before the header's [e_phoff] it reads bytes that are not there. *)
Theorem elf_short_file_faults {St} {env : ElfEnv St} path file buf (s s' : St) :
  elf_read_file path s = Ret (0, file, buf) s' -> Z.of_nat (length file) < 40 ->
  elf_load_user_executable path s = Fault.
Proof.
  intros Hr Hl. unfold elf_load_user_executable. rewrite (bind_ret _ _ _ _ _ Hr). cbn [Z.eqb negb].
  unfold elf_find_interp, e_phoff, rd_le, rd_block, bind. cbn [Z.leb]. cbv beta iota.
  change (32 + 8) with 40. by rewrite (proj2 (Z.leb_gt 40 (Z.of_nat (length file)))) by lia.
Qed.
