(* ===== verification/ElfStack.v ===== *)
(** * The first stack of a program is what the ABI promises

    Against the same interface as ElfProps: the strings, the argument and environment
    vectors and the auxiliary vector that [elf_build_initial_stack] writes. *)

From stdpp Require Import base list.
From Stdlib Require Import ZArith Lia.
From S2P Require Import Prelude Elf ElfUser ElfProps.

Local Open Scope Z_scope.

Lemma clr_align x k : 0 <= k -> clr x (2 ^ k - 1) = x / 2 ^ k * 2 ^ k.
Proof.
  intros Hk. unfold clr. replace (2 ^ k - 1) with (Z.ones k) by (rewrite Z.ones_equiv; lia).
  by rewrite Z.ldiff_ones_r, Z.shiftr_div_pow2, Z.shiftl_mul_pow2 by lia.
Qed.
Lemma length_stack_words ws : length (concat (map (le_bytes 8) ws)) = (8 * length ws)%nat.
Proof. induction ws as [|w ws IH]; [done|]. cbn [map concat]. rewrite length_app, IH. cbn [length le_bytes map seq]. lia. Qed.

Lemma lookup_S {A} (x : A) l i : (x :: l) !! S i = l !! i.
Proof. done. Qed.
Lemma le_bytes_range w v : Forall byte (le_bytes w v).
Proof. unfold le_bytes. apply Forall_map, Forall_forall. intros i _. apply Z.mod_pos_bound. lia. Qed.
Lemma le_le_bytes8 v : le (le_bytes 8 v) = v `mod` 2 ^ 64.
Proof. unfold le_bytes. cbn [seq map le]. change (2 ^ (8 * Z.of_nat 0)) with 1. zdiv. Qed.

Section stack.
Context {St : Type} {env : ElfEnv St} {laws : ElfLaws St}.

(** The bytes [l] are at [p]. *)
Definition holds (s : St) (p : Z) (l : list Z) : Prop :=
  forall i b, l !! i = Some b -> vmem s (p + Z.of_nat i) = Some b.
(** The stack went down from [sp] to [sp'], no other user memory changed. *)
Definition grow (s : St) (sp : Z) (s' : St) (sp' : Z) : Prop := sp' <= sp /\ within s s' sp' sp.

Lemma grow_refl s sp : grow s sp s sp.
Proof. split; [lia|done]. Qed.
Lemma grow_trans s sp s1 sp1 s2 sp2 : grow s sp s1 sp1 -> grow s1 sp1 s2 sp2 -> grow s sp s2 sp2.
Proof.
  intros [H1 [Hm1 Hf1]] [H2 [Hm2 Hf2]]. split; [lia|]. split; [|intros x; by rewrite Hf2].
  intros x Hx. rewrite Hm2, Hm1 by lia. done.
Qed.
Lemma stack_calm_refl s : private s -> calm s s.
Proof. intros Hp. split; [done|by split]. Qed.
Lemma stack_calm_trans s s1 s2 : calm s s1 -> calm s1 s2 -> calm s s2.
Proof. intros (A1 & A2 & A3) (B1 & B2 & B3). split_and!; [done|congruence|auto]. Qed.
Lemma holds_grow s p l s' sp sp' : holds s p l -> sp <= p -> grow s sp s' sp' -> holds s' p l.
Proof. intros H Hp [H2 [Hm _]] i b Hi. rewrite Hm by lia. by apply H. Qed.
Lemma grow_quiet s sp s' : (forall x, vmem s' x = vmem s x) -> (forall x, vflags s' x = vflags s x) -> grow s sp s' sp.
Proof. intros Hm Hf. split; [lia|]. by split. Qed.

(** Where [stack_write_bytes] writes. *)
Definition top_aligned (sp len align : Z) : Z := (sp - len) / align * align.

Lemma stack_write_spec sp src k (s : St) :
  private s -> sp <= VAS_USER_END -> 0 < Z.of_nat (length src) -> 0 <= k <= 4 ->
  VAS_USER_START + 16 + Z.of_nat (length src) <= sp ->
  exists r sp' s', stack_write_bytes sp src (2 ^ k) s = Ret (r, sp') s' /\ calm s s' /\
    (r = 0 -> sp' = top_aligned sp (Z.of_nat (length src)) (2 ^ k) /\ VAS_USER_START <= sp' /\
      sp - Z.of_nat (length src) - 16 <= sp' /\
      sp' + Z.of_nat (length src) <= sp /\ grow s sp s' sp' /\ holds s' sp' src).
Proof.
  intros Hpv Hsp Hl Hk Hroom. unfold stack_write_bytes. cbv zeta.
  assert (Hp : 1 <= 2 ^ k <= 16) by (pose proof (Z.pow_le_mono_r 2 k 4 ltac:(lia) ltac:(lia));
    pose proof (Z.pow_pos_nonneg 2 k ltac:(lia) ltac:(lia)); lia).
  rewrite (u64_small (sp - Z.of_nat (length src))) by (unfold VAS_USER_START, VAS_USER_END in *; lia).
  assert (Hn : (if 1 <? 2 ^ k then clr (sp - Z.of_nat (length src)) (2 ^ k - 1) else sp - Z.of_nat (length src)) =
    top_aligned sp (Z.of_nat (length src)) (2 ^ k)).
  { unfold top_aligned. destruct (Z.ltb_spec 1 (2 ^ k)) as [H|H]; [apply clr_align; lia|].
    replace (2 ^ k) with 1 by lia. by rewrite Z.div_1_r, Z.mul_1_r. }
  rewrite Hn. clear Hn. set (next := top_aligned _ _ _).
  pose proof (Z.div_mod (sp - Z.of_nat (length src)) (2 ^ k) ltac:(lia)) as Hdm.
  pose proof (Z.mod_pos_bound (sp - Z.of_nat (length src)) (2 ^ k) ltac:(lia)) as Hmb.
  assert (Hnx : sp - Z.of_nat (length src) - 16 < next <= sp - Z.of_nat (length src)) by (unfold next, top_aligned; lia).
  rewrite (proj2 (Z.ltb_ge next VAS_USER_START)) by lia.
  destruct (copy_user_spec src next s) as (r & s' & Hr & Hc & Hwi & Hok & _); [done|lia|lia|].
  rewrite (bind_ret _ _ _ _ _ Hr). destruct (Z.eqb_spec r 0) as [->|Hz]; cbn [negb]; [|by exists r, sp, s'].
  exists 0, next, s'. split; [done|]. split; [done|]. intros _. do 4 (split; [done || lia|]). split.
  - split; [lia|]. destruct Hwi as [Hm Hf]. split; [|done]. intros x Hx. apply Hm. lia.
  - intros i b Hi. pose proof (lookup_lt_Some _ _ _ Hi). destruct (Hok eq_refl (next + Z.of_nat i) ltac:(lia)) as [_ ->].
    rewrite <- Hi. f_equal. lia.
Qed.

(** The text [str] with its terminator is at [p], above the stack pointer. *)
Definition text_at (s : St) (sp p : Z) (str : list Z) : Prop := sp <= p /\ holds s p (str ++ [0]).
Lemma text_grow s sp p str s' sp' : text_at s sp p str -> grow s sp s' sp' -> text_at s' sp' p str.
Proof. intros [Hp Hh] Hg. split; [destruct Hg; lia|]. by eapply holds_grow. Qed.
Lemma texts_grow s sp ps strs s' sp' :
  Forall2 (text_at s sp) ps strs -> grow s sp s' sp' -> Forall2 (text_at s' sp') ps strs.
Proof. intros H Hg. eapply Forall2_impl; [done|]. intros. by eapply text_grow. Qed.

(** Strings no longer than the kernel's memory. *)
Definition short (str : list Z) : Prop := Z.of_nat (length str) < 2 ^ 32.

Lemma write_text_spec sp str (s : St) :
  private s -> VAS_USER_START + 2 ^ 33 <= sp <= VAS_USER_END -> short str ->
  exists r sp' s', stack_write_bytes sp (str ++ [0]) 1 s = Ret (r, sp') s' /\ calm s s' /\
    (r = 0 -> sp - 2 ^ 32 - 16 <= sp' /\ grow s sp s' sp' /\ text_at s' sp' sp' str).
Proof.
  unfold short. intros Hpv Hsp Hs.
  destruct (stack_write_spec sp (str ++ [0]) 0 s Hpv) as (r & sp' & s' & Hr & Hc & Hok);
    [lia|rewrite length_app; cbn [length]; lia|lia|rewrite length_app; cbn [length]; lia|].
  exists r, sp', s'. split; [done|]. split; [done|]. intros Hz.
  destruct (Hok Hz) as (_ & _ & Hlo & _ & Hg & Hh). rewrite length_app in Hlo. cbn [length] in Hlo.
  split; [lia|]. split; [done|split; [lia|done]].
Qed.

(** [n] strings fit below [sp]. *)
Lemma push_strings_spec l sp ptrs (s : St) :
  private s -> VAS_USER_START + 2 ^ 33 * (Z.of_nat (length l) + 1) <= sp <= VAS_USER_END -> Forall short l ->
  exists r sp' ptrs' s', push_strings l sp ptrs s = Ret (r, sp', ptrs') s' /\ calm s s' /\
    (r = 0 -> sp - Z.of_nat (length l) * (2 ^ 32 + 16) <= sp' /\ grow s sp s' sp' /\
      exists new, ptrs' = new ++ ptrs /\ Forall2 (text_at s' sp') new (reverse l)).
Proof.
  intros Hpv Hsp Hl. revert sp ptrs s Hpv Hsp. induction Hl as [|str l Hs Hl IH]; intros sp ptrs s Hpv Hsp.
  { exists 0, sp, ptrs, s. split; [done|]. split; [by apply stack_calm_refl|]. intros _.
    split; [simpl; lia|]. split; [apply grow_refl|]. exists []. split; [done|constructor]. }
  cbn [push_strings length] in *. destruct (write_text_spec sp str s Hpv ltac:(lia) Hs) as (r & sp1 & s1 & Hr & Hc & Hok).
  rewrite (bind_ret _ _ _ _ _ Hr). cbn [fst snd].
  destruct (Z.eqb_spec r 0) as [->|Hz]; cbn [negb]; [|by exists r, sp, ptrs, s1].
  destruct (Hok eq_refl) as (Hlo & Hg & Hh). pose proof Hc as (Hpv1 & _).
  destruct (IH sp1 (sp1 :: ptrs) s1 Hpv1 ltac:(destruct Hg; lia)) as (r & sp2 & ptrs2 & s2 & Hr2 & Hc2 & Hok2).
  rewrite Hr2. exists r, sp2, ptrs2, s2. split; [done|]. split; [by eapply stack_calm_trans|].
  intros Hz. destruct (Hok2 Hz) as (H0 & Hg2 & new & -> & Hnew).
  split; [lia|]. split; [by eapply grow_trans|]. exists (new ++ [sp1]). split; [by rewrite <- app_assoc|].
  rewrite reverse_cons. apply Forall2_app; [done|]. constructor; [|constructor].
  by eapply text_grow.
Qed.

(** ** What the ABI promises *)

(** The 64-bit word at [a], lowest byte first. *)
Definition word_at (s : St) (a w : Z) : Prop :=
  exists l, length l = 8%nat /\ holds s a l /\ Forall byte l /\ le l = w `mod` 2 ^ 64.

Definition AT_NULL : Z := 0.
Definition AT_PHDR : Z := 3.
Definition AT_PHENT : Z := 4.
Definition AT_PHNUM : Z := 5.
Definition AT_PAGESZ : Z := 6.
Definition AT_BASE : Z := 7.
Definition AT_FLAGS : Z := 8.
Definition AT_ENTRY : Z := 9.
Definition AT_UID : Z := 11.
Definition AT_EUID : Z := 12.
Definition AT_GID : Z := 13.
Definition AT_EGID : Z := 14.
Definition AT_PLATFORM : Z := 15.
Definition AT_HWCAP : Z := 16.
Definition AT_CLKTCK : Z := 17.
Definition AT_SECURE : Z := 23.
Definition AT_RANDOM : Z := 25.
Definition AT_EXECFN : Z := 31.

(** The auxiliary vector, as pairs of a type and a value. *)
Definition aux_pairs (image : elf_user_image) (plat rnd execfn : Z) : list (Z * Z) :=
  [(AT_PHDR, program_phdr image); (AT_PHENT, program_phentsize image); (AT_PHNUM, program_phnum image);
   (AT_PAGESZ, 4096); (AT_BASE, interp_base image); (AT_FLAGS, 0); (AT_ENTRY, program_entry image);
   (AT_UID, 0); (AT_EUID, 0); (AT_GID, 0); (AT_EGID, 0); (AT_PLATFORM, plat); (AT_HWCAP, 0);
   (AT_CLKTCK, 100); (AT_SECURE, 0); (AT_RANDOM, rnd); (AT_EXECFN, execfn); (AT_NULL, 0)].

(** The stack from [rsp] up, word by word, and what the pointers in it point to. *)
Record stack_image (s : St) (rsp : Z) (path : list Z) (argv envp : list (list Z)) (image : elf_user_image)
    (args envs : list Z) (plat rnd execfn : Z) : Prop := {
  si_argc : word_at s rsp (Z.of_nat (length argv));
  si_argv : forall i p, args !! i = Some p -> word_at s (rsp + 8 * (1 + Z.of_nat i)) p;
  si_argv_end : word_at s (rsp + 8 * (1 + Z.of_nat (length argv))) 0;
  si_envp : forall i p, envs !! i = Some p ->
    word_at s (rsp + 8 * (2 + Z.of_nat (length argv) + Z.of_nat i)) p;
  si_envp_end : word_at s (rsp + 8 * (2 + Z.of_nat (length argv) + Z.of_nat (length envp))) 0;
  si_aux : forall j t v, aux_pairs image plat rnd execfn !! j = Some (t, v) ->
    let a := rsp + 8 * (3 + Z.of_nat (length argv) + Z.of_nat (length envp) + 2 * Z.of_nat j) in
    word_at s a t /\ word_at s (a + 8) v;
  si_args : Forall2 (text_at s rsp) args argv;
  si_envs : Forall2 (text_at s rsp) envs envp;
  si_execfn : text_at s rsp execfn path;
  si_plat : text_at s rsp plat [120; 56; 54; 95; 54; 52];
  si_random : exists l, length l = 16%nat /\ holds s rnd l }.

(** The words of the vectors, one after the other. *)
Lemma holds_words s a words i w :
  holds s a (concat (map (le_bytes 8) words)) -> words !! i = Some w -> word_at s (a + 8 * Z.of_nat i) w.
Proof.
  revert a i. induction words as [|v words IH]; intros a i Hh Hi; [done|]. cbn [map concat] in Hh.
  assert (Hlen : length (le_bytes 8 v) = 8%nat) by done.
  destruct i as [|i]; cbn in Hi.
  - injection Hi as ->. exists (le_bytes 8 w). split; [done|]. split.
    { intros j b Hj. replace (a + 8 * Z.of_nat 0) with a by lia. apply Hh. by apply lookup_app_l_Some. }
    split; [by apply le_bytes_range|apply le_le_bytes8].
  - replace (a + 8 * Z.of_nat (S i)) with (a + 8 + 8 * Z.of_nat i) by lia. apply IH; [|done].
    intros j b Hj. replace (a + 8 + Z.of_nat j) with (a + Z.of_nat (8 + j)) by lia. apply Hh.
    rewrite lookup_app_r by (rewrite Hlen; lia). rewrite Hlen. by replace (8 + j - 8)%nat with j by lia.
Qed.

Lemma stack_words_image s rsp args envs image plat rnd execfn :
  holds s rsp (concat (map (le_bytes 8) (stack_words args envs (auxv image plat rnd execfn)))) ->
  let n := Z.of_nat (length args) in let m := Z.of_nat (length envs) in
  word_at s rsp n /\
  (forall i p, args !! i = Some p -> word_at s (rsp + 8 * (1 + Z.of_nat i)) p) /\
  word_at s (rsp + 8 * (1 + n)) 0 /\
  (forall i p, envs !! i = Some p -> word_at s (rsp + 8 * (2 + n + Z.of_nat i)) p) /\
  word_at s (rsp + 8 * (2 + n + m)) 0 /\
  (forall j t v, aux_pairs image plat rnd execfn !! j = Some (t, v) ->
    let a := rsp + 8 * (3 + n + m + 2 * Z.of_nat j) in word_at s a t /\ word_at s (a + 8) v).
Proof.
  intros Hh n m. set (ws := stack_words _ _ _) in *.
  assert (Hw : forall k i w, ws !! i = Some w -> k = Z.of_nat i -> word_at s (rsp + 8 * k) w)
    by (intros k i w Hi ->; by eapply holds_words).
  assert (He : forall i, ws !! (2 + length args + i)%nat = (envs ++ [0] ++ auxv image plat rnd execfn) !! i).
  { intros i. unfold ws, stack_words. change (2 + length args + i)%nat with (S (S (length args + i))).
    rewrite lookup_S, lookup_app_r by lia. replace (S (length args + i) - length args)%nat with (S i) by lia. done. }
  assert (Ha : forall i, ws !! (3 + length args + length envs + i)%nat = auxv image plat rnd execfn !! i).
  { intros i. replace (3 + length args + length envs + i)%nat with (2 + length args + (length envs + S i))%nat by lia.
    rewrite He, lookup_app_r by lia. by replace (length envs + S i - length envs)%nat with (S i) by lia. }
  split; [replace rsp with (rsp + 8 * 0) by lia; by apply (Hw 0 0%nat)|]. split_and!.
  - intros i p Hi. apply (Hw _ (S i)); [|lia]. unfold ws, stack_words. rewrite lookup_S. by apply lookup_app_l_Some.
  - apply (Hw _ (S (length args))); [|lia]. unfold ws, stack_words.
    rewrite lookup_S, lookup_app_r by lia. by rewrite Nat.sub_diag.
  - intros i p Hi. apply (Hw _ (2 + length args + i)%nat); [|lia]. rewrite He. by apply lookup_app_l_Some.
  - apply (Hw _ (2 + length args + length envs)%nat); [|lia].
    rewrite He, lookup_app_r by lia. by rewrite Nat.sub_diag.
  - intros j t v Hj. assert (Hp : auxv image plat rnd execfn !! (2 * j)%nat = Some t /\
      auxv image plat rnd execfn !! (2 * j + 1)%nat = Some v).
    { do 18 (destruct j as [|j]; [injection Hj as <- <-; done|]). done. }
    destruct Hp as [H1 H2]. cbv zeta. rewrite <- Ha in H1, H2. split; [eapply Hw; [exact H1|lia]|].
    replace (rsp + 8 * (3 + n + m + 2 * Z.of_nat j) + 8) with (rsp + 8 * (3 + n + m + 2 * Z.of_nat j + 1)) by lia.
    eapply Hw; [exact H2|lia].
Qed.

(** The last word of the vectors is written under everything else, at a multiple of 16. *)
Lemma words_aligned q n :
  0 <= q -> let b := q / 16 * 16 in
  let sp := if Nat.odd n then b - 8 else b in
  top_aligned sp (Z.of_nat (8 * n)) 8 `mod` 16 = 0.
Proof.
  intros Hq b sp. unfold top_aligned.
  assert (H : exists c, sp - Z.of_nat (8 * n) = c * 16).
  { subst sp. destruct (Nat.odd n) eqn:Ho.
    - apply Nat.odd_spec in Ho as [m ->]. exists (q / 16 - Z.of_nat m - 1). unfold b. lia.
    - assert (He : Nat.even n = true) by (by rewrite <- Nat.negb_odd, Ho).
      apply Nat.even_spec in He as [m ->]. exists (q / 16 - Z.of_nat m). unfold b. lia. }
  destruct H as [c ->]. zdiv.
Qed.

(** The end of [elf_build_initial_stack]. *)
Lemma write_words_spec q words (s : St) :
  private s -> VAS_USER_START + 2 ^ 14 <= q <= VAS_USER_END -> (0 < length words <= 256)%nat ->
  bounded frames_left 1
    (let* a := kzalloc (8 * Z.of_nat (length words)) in
     if a =? 0 then ret (- ENOMEM, 0)
     else
       let* w := stack_write_bytes (if Nat.odd (length words) then u64 (q / 16 * 16 - 8) else q / 16 * 16)
                   (concat (map (le_bytes 8) words)) 8 in
       kfree a ;;;
       if negb (w.1 =? 0) then ret (w.1, 0) else ret (0, w.2)) s (fun x s' => private s' /\
    (x.1 = 0 -> x.2 `mod` 16 = 0 /\ grow s q s' x.2 /\ holds s' x.2 (concat (map (le_bytes 8) words)))).
Proof.
  intros Hpv Hq Hw.
  eapply (bounded_bind _ 1 0); [apply law_kzalloc; [done|lia]|lia|lia|].
  intros a s1 (Hpv1 & Ho1 & Hm1 & Hf1).
  destruct (Z.eqb_spec a 0) as [->|Hz]; [by eapply bounded_ret; [done|lia|]|]. specialize (Ho1 Hz).
  rewrite (u64_small (q / 16 * 16 - 8)) by (unfold VAS_USER_START, VAS_USER_END in *; zdiv).
  set (sp := if Nat.odd _ then _ else _). assert (Hsp : q - 24 <= sp <= q) by (subst sp; destruct (Nat.odd _); zdiv).
  destruct (stack_write_spec sp (concat (map (le_bytes 8) words)) 3 s1) as (r & rsp & s2 & Hr & (Hpv2 & Hl2 & Ho2) & Hok);
    [done|lia|rewrite length_stack_words; lia|lia|rewrite length_stack_words; lia|].
  change (2 ^ 3) with 8 in *. unfold bounded. rewrite (bind_ret _ _ _ _ _ Hr).
  destruct (law_kfree s2 a Hpv2 (Ho2 a Ho1)) as (s3 & Hk & Hpv3 & Hl3 & Hm3 & Hf3).
  rewrite (bind_ret _ _ _ _ _ Hk). cbn [fst snd]. right.
  destruct (Z.eqb_spec r 0) as [->|Hr0]; cbn [negb]; [|by exists (r, 0), s3; split; [done|split; [lia|]]].
  exists (0, rsp), s3. split; [done|]. split; [lia|]. split; [done|]. intros _. cbn [snd].
  destruct (Hok eq_refl) as (Hrsp & _ & _ & _ & Hg & Hh). split_and!.
  - rewrite Hrsp, length_stack_words. apply (words_aligned q (length words)). unfold VAS_USER_START in Hq. lia.
  - apply (grow_trans _ _ s1 q); [by apply grow_quiet|]. apply (grow_trans _ _ s2 rsp); [|by apply grow_quiet].
    destruct Hg as [H1 [H2 H3]]. split; [lia|]. split; [|done]. intros y Hy. apply H2. lia.
  - eapply holds_grow; [done|apply Z.le_refl|by apply grow_quiet].
Qed.

(** C12: the first stack.  The stack top is a user address at or above 0x7ffffff000, where
    [execve] puts it, and every string is shorter than 2^32 bytes.  For any arguments and
    environment the builder returns, or panics for lack of the one page frame the heap may
    need.  When it answers 0 the stack pointer is a multiple of 16; the 64-bit words from it
    on are the number of arguments, the address of each argument, a zero, the address of
    each environment string, a zero and the type-value pairs of the auxiliary vector with the
    image's program headers, base and entry; at each address is the terminated text it
    stands for, AT_PLATFORM points to "x86_64", AT_EXECFN to the path and AT_RANDOM to 16
    bytes; and no user memory outside of the new part of the stack has changed. *)
Theorem elf_initial_stack stack_top path argv envp image (s : St) :
  private s -> 2 ^ 39 - 4096 <= stack_top <= VAS_USER_END -> short path -> Forall short argv -> Forall short envp ->
  bounded frames_left 1 (elf_build_initial_stack stack_top path argv envp image) s (fun x s' =>
    private s' /\
    (x.1 = 0 -> x.2 `mod` 16 = 0 /\ grow s stack_top s' x.2 /\
      exists args envs plat rnd execfn, stack_image s' x.2 path argv envp image args envs plat rnd execfn)).
Proof.
  intros Hpv Ht Hp Ha He. unfold elf_build_initial_stack.
  assert (HV : VAS_USER_START = 4096) by done.
  destruct (_ || _) eqn:Hc; [by eapply bounded_ret; [done|lia|]|].
  apply orb_false_iff in Hc as [Hc1%Nat.ltb_ge Hc2%Nat.ltb_ge].
  destruct (push_strings_spec (reverse argv) stack_top [] s Hpv) as (r & sp1 & args & s1 & Hr & Hm1 & Hok1);
    [rewrite length_reverse; lia|by apply Forall_reverse|]. rewrite length_reverse in Hok1.
  unfold bounded. rewrite (bind_ret _ _ _ _ _ Hr). clear Hr. pose proof Hm1 as (Hpv1 & Hl1 & _).
  destruct (Z.eqb_spec r 0) as [->|Hz]; cbn [negb]; [|by right; eexists _, _; split; [done|split; [lia|]]].
  destruct (Hok1 eq_refl) as (Hp1 & Hg1 & new1 & -> & Ht1). clear Hok1. rewrite app_nil_r, reverse_involutive in *.
  destruct (push_strings_spec (reverse envp) sp1 [] s1 Hpv1) as (r & sp2 & envs & s2 & Hr & Hm2 & Hok2);
    [rewrite length_reverse; destruct Hg1; lia|by apply Forall_reverse|]. rewrite length_reverse in Hok2.
  rewrite (bind_ret _ _ _ _ _ Hr). clear Hr. pose proof Hm2 as (Hpv2 & Hl2 & _).
  destruct (Z.eqb_spec r 0) as [->|Hz]; cbn [negb]; [|by right; eexists _, _; split; [done|split; [lia|]]].
  destruct (Hok2 eq_refl) as (Hp2 & Hg2 & new2 & -> & Ht2). clear Hok2. rewrite app_nil_r, reverse_involutive in *.
  destruct (write_text_spec sp2 path s2 Hpv2) as (r & x & s3 & Hr & Hm3 & Hok); [destruct Hg1, Hg2; lia|done|].
  rewrite (bind_ret _ _ _ _ _ Hr). clear Hr. pose proof Hm3 as (Hpv3 & Hl3 & _). cbn [fst snd].
  destruct (Z.eqb_spec r 0) as [->|Hz]; cbn [negb]; [|by right; eexists _, _; split; [done|split; [lia|]]].
  destruct (Hok eq_refl) as (Hp3 & Hg3 & Ht3). clear Hok.
  destruct (write_text_spec x platform s3 Hpv3) as (r & p & s4 & Hr & Hm4 & Hok); [destruct Hg1, Hg2, Hg3; lia|done|].
  rewrite (bind_ret _ _ _ _ _ Hr). clear Hr. pose proof Hm4 as (Hpv4 & Hl4 & _). cbn [fst snd].
  destruct (Z.eqb_spec r 0) as [->|Hz]; cbn [negb]; [|by right; eexists _, _; split; [done|split; [lia|]]].
  destruct (Hok eq_refl) as (Hp4 & Hg4 & Ht4). clear Hok.
  destruct (stack_write_spec p random_bytes 4 s4 Hpv4) as (r & q & s5 & Hr & Hm5 & Hok);
    [destruct Hg1, Hg2, Hg3, Hg4; lia|done|lia|change (Z.of_nat (length random_bytes)) with 16; destruct Hg1, Hg2, Hg3, Hg4; lia|].
  change (2 ^ 4) with 16 in Hr. rewrite (bind_ret _ _ _ _ _ Hr). clear Hr. pose proof Hm5 as (Hpv5 & Hl5 & _). cbn [fst snd].
  destruct (Z.eqb_spec r 0) as [->|Hz]; cbn [negb]; [|by right; eexists _, _; split; [done|split; [lia|]]].
  destruct (Hok eq_refl) as (_ & _ & Hp5 & _ & Hg5 & Ht5). clear Hok. change (Z.of_nat (length random_bytes)) with 16 in Hp5.
  cbv zeta. set (words := stack_words _ _ _). change (clr q 15) with (clr q (2 ^ 4 - 1)).
  rewrite clr_align by lia. change (2 ^ 4) with 16.
  pose proof (Forall2_length _ _ _ Ht1) as Hn1. pose proof (Forall2_length _ _ _ Ht2) as Hn2.
  assert (Hwn : (0 < length words <= 256)%nat).
  { unfold words, stack_words. cbn [length]. rewrite !length_app. cbn [length auxv]. lia. }
  pose proof (write_words_spec q words s5 Hpv5 ltac:(destruct Hg1, Hg2, Hg3, Hg4, Hg5; lia) Hwn) as Hw.
  assert (Hleft : frames_left s = frames_left s5) by lia.
  destruct Hw as [[Hpan Hlt]|([r rsp] & s6 & Hr & Hl6 & Hpv6 & Hok)]; [left; split; [exact Hpan|lia]|right].
  exists (r, rsp), s6. split; [exact Hr|]. split; [lia|]. split; [done|]. cbn [fst snd] in *.
  intros Hz. destruct (Hok Hz) as (Hal & Hg6 & Hh).
  pose proof (grow_trans _ _ _ _ _ _ Hg5 Hg6) as H4. pose proof (grow_trans _ _ _ _ _ _ Hg4 H4) as H3.
  pose proof (grow_trans _ _ _ _ _ _ Hg3 H3) as H2. pose proof (grow_trans _ _ _ _ _ _ Hg2 H2) as H1.
  split_and!; [done|by eapply grow_trans|]. exists new1, new2, p, q, x.
  destruct (stack_words_image _ _ _ _ _ _ _ _ Hh) as (I1 & I2 & I3 & I4 & I5 & I6). rewrite Hn1, Hn2 in *.
  split; [exact I1|exact I2|exact I3|exact I4|exact I5|exact I6| | | | |].
  - by eapply texts_grow.
  - by eapply texts_grow.
  - by eapply text_grow.
  - by eapply text_grow.
  - exists random_bytes. split; [done|]. eapply holds_grow; [done| |done]. lia.
Qed.
End stack.
