(* ===== verification/ElfExamples.v ===== *)
(** * A memory for the loader, and programs loaded into it

    The interface of ElfProps is implemented by a memory of pages in which every virtual
    address is its own physical address, and whose pages are not clean when they are handed
    out. *)

From stdpp Require Import base list gmap fin_maps.
From Stdlib Require Import ZArith Lia.
From S2P Require Import Prelude Elf ElfUser ElfProps ElfStack.

Local Open Scope Z_scope.

(** The protection of the mapped pages, the bytes that are not zero by default, and the
    one file there is. *)
Record toy := mkToy { pages : gmap Z Z; bytes : gmap Z Z; disk : list Z }.

Definition toy_range (s : toy) (start n : Z) : bool :=
  (VAS_USER_START <=? start) && (start + n * PAGE_SIZE <=? VAS_USER_END) &&
  forallb (fun p => match pages s !! p with None => true | Some _ => false end) (seqZ (start / PAGE_SIZE) n).
Definition toy_map (start len flags : Z) : M toy Z := fun s =>
  let n := len / PAGE_SIZE in
  if toy_range s start n then
    Ret start (mkToy (map_seqZ (start / PAGE_SIZE) (replicate (Z.to_nat n) flags) ∪ pages s)
                 (map_seqZ start (replicate (Z.to_nat len) 165) ∪ bytes s) (disk s))
  else Ret 0 s.
Definition in_user (x : Z) : bool := (VAS_USER_START <=? x) && (x <=? VAS_USER_END).
Definition toy_vmem (s : toy) (x : Z) : option Z :=
  if in_user x then match pages s !! (x / PAGE_SIZE) with Some _ => Some (default 0 (bytes s !! x)) | None => None end
  else None.

#[export] Instance toy_env : ElfEnv toy := {
  vas_map_anon := toy_map;
  get_phys va := fun s => Ret (match toy_vmem s va with Some _ => va | None => 0 end) s;
  put_phys p l := fun s => Ret tt (mkToy (pages s) (map_seqZ p l ∪ bytes s) (disk s));
  put_kernel _ _ := fun s => Ret tt s;
  vfs_open _ := fun s => Ret (0, 1) s;
  vfs_file_node _ := fun s => Ret (Some (32768, Z.of_nat (length (disk s)))) s;
  vfs_read _ _ := fun s => Ret (0, disk s) s;
  vfs_close _ := fun s => Ret tt s;
  kzalloc _ := fun s => Ret 1 s;
  kfree _ := fun s => Ret tt s }.

Lemma union_seqZ (m : gmap Z Z) start l x :
  (map_seqZ start l ∪ m) !! x =
    if (start <=? x) && (x <? start + Z.of_nat (length l)) then l !! Z.to_nat (x - start) else m !! x.
Proof.
  destruct ((start <=? x) && (x <? start + Z.of_nat (length l))) eqn:Hc.
  - bools. destruct (lookup_lt_is_Some_2 l (Z.to_nat (x - start))) as [b Hb]; [lia|]. rewrite Hb.
    apply lookup_union_Some_l. rewrite lookup_map_seqZ, option_guard_True by lia. done.
  - rewrite lookup_union_r; [done|]. rewrite lookup_map_seqZ. apply andb_false_iff in Hc.
    destruct (decide (start <= x)) as [H|H]; [rewrite option_guard_True by lia|by rewrite option_guard_False by lia].
    apply lookup_ge_None. destruct Hc as [Hc|Hc]; bools; lia.
Qed.

Lemma toy_range_free s start n x :
  toy_range s start n = true -> start `mod` PAGE_SIZE = 0 -> start <= x < start + n * PAGE_SIZE ->
  in_user x = true /\ pages s !! (x / PAGE_SIZE) = None.
Proof.
  unfold toy_range, in_user, PAGE_SIZE. intros Hr Ha Hx. apply andb_true_iff in Hr as [Hu Hf]. split.
  { bools. apply andb_true_iff. split; apply Z.leb_le; lia. }
  assert (Hin : x / 4096 ∈ seqZ (start / 4096) n) by (apply elem_of_seqZ; zdiv).
  apply list_elem_of_In in Hin. pose proof (proj1 (forallb_forall _ _) Hf _ Hin) as H. cbv beta in H. by destruct (pages s !! _).
Qed.
Lemma page_in start n x :
  start `mod` PAGE_SIZE = 0 -> 0 <= n ->
  (start / PAGE_SIZE <=? x / PAGE_SIZE) && (x / PAGE_SIZE <? start / PAGE_SIZE + n) =
  (start <=? x) && (x <? start + n * PAGE_SIZE).
Proof.
  unfold PAGE_SIZE. intros Ha Hn. apply eq_bool_prop_intro. rewrite !andb_True, !Is_true_true, !Z.leb_le, !Z.ltb_lt. zdiv.
Qed.

Lemma toy_map_ok s start len flags :
  VAS_USER_START <= start -> start `mod` PAGE_SIZE = 0 -> 0 < len -> len `mod` PAGE_SIZE = 0 ->
  exists r s', toy_map start len flags s = Ret r s' /\
    (r = start -> forall x, start <= x < start + len ->
      toy_vmem s x = None /\ is_Some (toy_vmem s' x) /\ default 0 (pages s' !! (x / PAGE_SIZE)) = flags) /\
    (forall x, r <> start \/ ~ (start <= x < start + len) ->
      toy_vmem s' x = toy_vmem s x /\ default 0 (pages s' !! (x / PAGE_SIZE)) = default 0 (pages s !! (x / PAGE_SIZE))).
Proof.
  unfold toy_map. intros Hs Ha Hl Hm. cbv zeta. destruct (toy_range s start (len / PAGE_SIZE)) eqn:Hr.
  2:{ exists 0, s. split_and!; [done| |by intros; split]. unfold VAS_USER_START in Hs. lia. }
  assert (Hn : len / PAGE_SIZE * PAGE_SIZE = len /\ 0 <= len / PAGE_SIZE) by (unfold PAGE_SIZE in *; zdiv).
  destruct Hn as [Hn Hn0]. do 2 eexists. split; [done|]. unfold toy_vmem; cbn [pages bytes].
  split; [intros _|]; intros x Hx; rewrite !union_seqZ, !length_replicate, !Z2Nat.id, page_in, Hn by lia.
  - destruct (toy_range_free s start (len / PAGE_SIZE) x Hr Ha ltac:(lia)) as [-> ->].
    rewrite (proj2 (andb_true_iff _ _)) by (rewrite Z.leb_le, Z.ltb_lt; lia).
    rewrite !lookup_replicate_2; [by eauto|lia|]. unfold PAGE_SIZE in *. zdiv.
  - destruct Hx as [Hx|Hx]; [done|].
    by rewrite (proj2 (andb_false_iff _ _)) by (rewrite Z.leb_gt, Z.ltb_ge; lia).
Qed.

Lemma toy_put_ok s va l :
  is_Some (toy_vmem s va) -> va `mod` PAGE_SIZE + Z.of_nat (length l) <= PAGE_SIZE ->
  let s' := mkToy (pages s) (map_seqZ va l ∪ bytes s) (disk s) in
  forall x, toy_vmem s' x = if (va <=? x) && (x <? va + Z.of_nat (length l)) then l !! Z.to_nat (x - va) else toy_vmem s x.
Proof.
  intros Hv Hl s' x. unfold toy_vmem, s'. cbn [pages bytes]. rewrite union_seqZ.
  destruct (_ && _) eqn:Hc; [|done]. bools. destruct (lookup_lt_is_Some_2 l (Z.to_nat (x - va))) as [b ->]; [lia|].
  assert (Hp : x / PAGE_SIZE = va / PAGE_SIZE) by (apply same_page; lia). rewrite Hp.
  destruct Hv as [c Hv]. unfold toy_vmem in Hv. destruct (in_user va) eqn:Hu; [|done].
  assert (in_user x = true) as ->.
  { unfold in_user, VAS_USER_START, VAS_USER_END in *. bools. apply andb_true_iff. split; apply Z.leb_le; [lia|].
    unfold PAGE_SIZE in *. zdiv. }
  by destruct (pages s !! _).
Qed.

#[export] Program Instance toy_laws : ElfLaws toy := {
  vmem := toy_vmem;
  vflags s x := default 0 (pages s !! (x / PAGE_SIZE));
  frames_left _ := 0;
  private _ := True;
  owned _ _ := True }.
Next Obligation.
  intros s x b. unfold toy_vmem, in_user. destruct (_ && _) eqn:Hc; [|done]. intros _. bools. lia.
Qed.
Next Obligation.
  unfold toy_vmem, in_user. intros s x y Hp. rewrite Hp. destruct (pages s !! _); [|by intros _; case_match].
  destruct ((VAS_USER_START <=? x) && (x <=? VAS_USER_END)) eqn:Hc; [done|]. intros _.
  destruct ((VAS_USER_START <=? y) && (y <=? VAS_USER_END)) eqn:Hc'; [|done]. exfalso. apply andb_false_iff in Hc.
  unfold PAGE_SIZE, VAS_USER_START, VAS_USER_END in *. destruct Hc as [Hc|Hc]; bools; zdiv.
Qed.
Next Obligation.
  intros s start len flags _ _ Hs Ha Hl Hm.
  destruct (toy_map_ok s start len flags Hs Ha Hl Hm) as (r & s' & Hr & Hin & Hout).
  eapply bounded_ret; [exact Hr| |].
  - pose proof (Z.div_pos len PAGE_SIZE ltac:(lia) ltac:(done)). lia.
  - split; [done|]. split; [exact Hin|exact Hout].
Qed.
Next Obligation.
  intros s va _. eexists. split; [done|]. destruct (toy_vmem s va) eqn:Hv; [|done]. split; [|done].
  intros ->. unfold toy_vmem in Hv. done.
Qed.
Next Obligation.
  intros s va p l _ _ Hp Hz Hl. cbn in Hp. destruct (toy_vmem s va) eqn:Hv; [|congruence].
  assert (p = va) as -> by congruence. eexists. do 4 (split; [done|]). split; [|done]. apply toy_put_ok; [by eexists|done].
Qed.
Next Obligation. intros s n _ _. by eapply bounded_ret. Qed.
Next Obligation. intros s a _ _. by exists s. Qed.

Lemma toy_private (s : toy) : private s.
Proof. exact I. Qed.

(** ** A program *)

(** A header, one loadable segment of four bytes of the file and ten of memory at 0x400000. *)
Definition ex_file : list Z :=
  [127; 69; 76; 70; 2; 1; 1; 0; 0; 0; 0; 0; 0; 0; 0; 0] ++ le_bytes 2 ET_EXEC ++ le_bytes 2 EM_X86_64 ++ le_bytes 4 1 ++
  le_bytes 8 4194305 ++ le_bytes 8 64 ++ le_bytes 8 0 ++ le_bytes 4 0 ++ le_bytes 2 64 ++ le_bytes 2 56 ++ le_bytes 2 1 ++
  le_bytes 2 0 ++ le_bytes 2 0 ++ le_bytes 2 0 ++
  le_bytes 4 PT_LOAD ++ le_bytes 4 5 ++ le_bytes 8 120 ++ le_bytes 8 4194304 ++ le_bytes 8 4194304 ++ le_bytes 8 4 ++
  le_bytes 8 10 ++ le_bytes 8 4096 ++ [144; 144; 235; 254].
Definition toy0 : toy := mkToy ∅ ∅ ex_file.
(** With a page mapped for the stack. *)
Definition toy1 : toy := mkToy {[ 134217726 := 7 ]} ∅ ex_file.

Definition ans {S A} (m : M S (Z * A)) (s : S) : Z := match m s with Ret (r, _) _ => r | _ => -1 end.

Lemma ex_file_bytes : Forall byte ex_file.
Proof. apply (bool_decide_eq_true_1 (Forall (fun b => 0 <= b < 256) ex_file)). vm_compute. reflexivity. Qed.
Lemma ex_load_ok : ans (elf_load_user_image_file [] ex_file ELF_ET_DYN_BASE false) toy0 = 0.
Proof. vm_compute. reflexivity. Qed.
Lemma ex_headers : program_headers ex_file = [mkPhdr 1 5 120 4194304 4 10].
Proof. vm_compute. reflexivity. Qed.

Lemma elf_image_loaded_witness : exists im s',
  elf_load_user_image_file [] ex_file ELF_ET_DYN_BASE false toy0 = Ret (0, im) s' /\ i_entry im = 4194305 /\
  vmem s' 4194306 = Some 235 /\ is_Some (vmem s' 4194312) /\ has (vflags s' 4194306) VMM_WRITABLE = false.
Proof.
  pose proof ex_load_ok as Ha. unfold ans in Ha.
  destruct (elf_image_loaded [] ex_file ELF_ET_DYN_BASE false toy0 ex_file_bytes (toy_private toy0)) as
    [[Hp _]|([r im] & s' & Hr & _ & _ & _ & Hok)]; [rewrite Hp in Ha; discriminate Ha|].
  rewrite Hr in Ha. subst r.
  destruct (Hok eq_refl) as (_ & Hl & He). rewrite ex_headers in Hl. apply Forall_cons in Hl as [Hl _].
  specialize (Hl eq_refl). exists im, s'. split; [exact Hr|]. split; [cbn [snd] in He; rewrite He; vm_compute; reflexivity|].
  destruct (Hl 2 ltac:(cbn; lia)) as (_ & _ & H2 & _ & Hw & _). destruct (Hl 8 ltac:(cbn; lia)) as (_ & H8 & _).
  split; [exact (H2 ltac:(cbn; lia))|]. split; [exact H8|exact Hw].
Defined.

(** ** A stack *)

Definition ex_argv : list (list Z) := [[108; 115]; [45; 108]].
Definition ex_envp : list (list Z) := [[72; 61; 47]].
Lemma ex_stack_ok : ans (elf_build_initial_stack 549755809792 [47; 98] ex_argv ex_envp zero_image) toy1 = 0.
Proof. vm_compute. reflexivity. Qed.

Lemma elf_initial_stack_witness : exists rsp s' args envs plat rnd execfn,
  elf_build_initial_stack 549755809792 [47; 98] ex_argv ex_envp zero_image toy1 = Ret (0, rsp) s' /\ rsp `mod` 16 = 0 /\
  stack_image s' rsp [47; 98] ex_argv ex_envp zero_image args envs plat rnd execfn.
Proof.
  assert (Hs : forall l, (length l <= 10)%nat -> short l) by (unfold short; intros; lia).
  pose proof ex_stack_ok as Ha. unfold ans in Ha.
  destruct (elf_initial_stack 549755809792 [47; 98] ex_argv ex_envp zero_image toy1 (toy_private toy1)) as
    [[Hp _]|([r rsp] & s' & Hr & _ & _ & Hok)].
  - unfold VAS_USER_END. lia.
  - apply Hs. cbn. lia.
  - repeat constructor; apply Hs; cbn; lia.
  - repeat constructor; apply Hs; cbn; lia.
  - rewrite Hp in Ha. discriminate Ha.
  - rewrite Hr in Ha. subst r.
    destruct (Hok eq_refl) as (Hal & _ & args & envs & plat & rnd & execfn & Hsi).
    exists rsp, s', args, envs, plat, rnd, execfn. split; [exact Hr|]. split; [exact Hal|exact Hsi].
Defined.

(** ** A file that is too short *)

Definition toy2 : toy := mkToy ∅ ∅ [127; 69; 76; 70].
Lemma elf_short_file_faults_witness : elf_load_user_executable [47; 120] toy2 = Fault.
Proof.
  apply (elf_short_file_faults [47; 120] [127; 69; 76; 70] 1 toy2 toy2).
  - vm_compute. reflexivity.
  - cbn. lia.
Defined.
