(* ===== verification/Block.v ===== *)
(** * The block layer (kernel/src/dev/block.c, kernel/include/dev/block.h)

    Devices of sectors, their partitions, and access to them by byte.  The drivers, the heap
    and the device file system are the class [BlockEnv], over a world [W] of their own. *)

From stdpp Require Import base list gmap.
From Stdlib Require Import ZArith Lia.
From S2P Require Import Prelude.

Local Open Scope Z_scope.

Definition ENOENT : Z := 2.
Definition ENOMEM : Z := 12.
Definition EEXIST : Z := 17.
Definition EINVAL : Z := 22.
Definition ENOSYS : Z := 38.
Definition BLOCK_NAME_MAX : nat := 31.

(** [read_blocks], [write_blocks], [flush]: a driver's, or those of a partition; [NULL]
    where the flags are not set. *)
Inductive block_ops := driver_ops | part_ops.
Record block_device := mkDev {
  d_name : list Z; block_size : Z; block_count : Z; lba_offset : Z;
  d_ops : block_ops; has_read : bool; has_write : bool; has_flush : bool; d_parent : option Z }.

(** The devices by address, and the list that starts at [block_devices]. *)
Record blk (W : Type) := mkBlk {
  devices : gmap Z block_device; block_devices : list Z; next_dev : Z; world : W }.
Arguments mkBlk {W} _ _ _ _.
Arguments devices {W} _.
Arguments block_devices {W} _.
Arguments next_dev {W} _.
Arguments world {W} _.

(** The operations of a driver's device: status and bytes read; [kzalloc_ok] tells whether
    the heap has a buffer; [devfs_register_chr] publishes a path with a mode for a device. *)
Class BlockEnv (W : Type) := {
  drv_read : Z -> Z -> Z -> W -> Z * list Z * W;
  drv_write : Z -> Z -> Z -> list Z -> W -> Z * W;
  drv_flush : Z -> W -> Z * W;
  kzalloc_ok : Z -> W -> bool * W;
  devfs_register_chr : list Z -> Z -> Z -> W -> Z * W }.

Section layer.
Context {W : Type} {env : BlockEnv W}.

Definition call {A} (f : W -> A * W) : M (blk W) A := fun s =>
  let (a, w) := f (world s) in Ret a (mkBlk (devices s) (block_devices s) (next_dev s) w).
Definition get_bdev (d : Z) : M (blk W) block_device := fun s =>
  match devices s !! d with Some x => Ret x s | None => Fault end.
Definition kzalloc (n : Z) : M (blk W) bool := call (kzalloc_ok n).

(** ** Access by sector *)

(** [dev->read_blocks]; [fuel] bounds the chain of parents. *)
Fixpoint read_blocks (fuel : nat) (d lba count : Z) : M (blk W) (Z * list Z) :=
  match fuel with
  | O => diverge
  | S f =>
      let* x := get_bdev d in
      match d_ops x with
      | driver_ops => call (drv_read d lba count)
      | part_ops =>
          match d_parent x with
          | None => ret (- EINVAL, [])
          | Some p =>
              if count =? 0 then ret (0, [])
              else if (block_count x <=? lba) || (block_count x - lba <? count) then ret (- EINVAL, [])
              else read_blocks f p (u64 (lba_offset x + lba)) count
          end
      end
  end.
Fixpoint write_blocks (fuel : nat) (d lba count : Z) (buf : list Z) : M (blk W) Z :=
  match fuel with
  | O => diverge
  | S f =>
      let* x := get_bdev d in
      match d_ops x with
      | driver_ops => call (drv_write d lba count buf)
      | part_ops =>
          match d_parent x with
          | None => ret (- ENOSYS)
          | Some p =>
              let* y := get_bdev p in
              if negb (has_write y) then ret (- ENOSYS)
              else if count =? 0 then ret 0
              else if (block_count x <=? lba) || (block_count x - lba <? count) then ret (- EINVAL)
              else write_blocks f p (u64 (lba_offset x + lba)) count buf
          end
      end
  end.
Definition depth : nat := 2.

(** ** Access by byte *)

(** [while (done < len)] of [block_read], [acc] the bytes so far. *)
Fixpoint read_loop (fuel : nat) (d bs off len done : Z) (acc : list Z) : M (blk W) (Z * list Z) :=
  match fuel with
  | O => diverge
  | S f =>
      if len <=? done then ret (0, acc)
      else
        let pos := u64 (off + done) in
        let boff := pos `mod` bs in
        let chunk := Z.min (bs - boff) (len - done) in
        let* r := read_blocks depth d (pos / bs) 1 in
        if negb (r.1 =? 0) then ret (r.1, [])
        else read_loop f d bs off len (done + chunk) (acc ++ take (Z.to_nat chunk) (drop (Z.to_nat boff) r.2))
  end.
Definition block_read (d off len : Z) : M (blk W) (Z * list Z) :=
  let* x := get_bdev d in
  if len =? 0 then ret (0, [])
  else
    let bs := block_size x in
    let size := u64 (block_count x * bs) in
    if (bs =? 0) || (size <=? off) || (size - off <? len) then ret (- EINVAL, [])
    else if (off `mod` bs =? 0) && (len `mod` bs =? 0) then read_blocks depth d (off / bs) (u32 (len / bs))
    else
      let* ok := kzalloc bs in
      if negb ok then ret (- ENOMEM, []) else read_loop (S (Z.to_nat len)) d bs off len 0 [].

(** The bytes of [src] over those of [dst] at [off]. *)
Definition overlay (dst : list Z) (off : Z) (src : list Z) : list Z :=
  take (Z.to_nat off) dst ++ src ++ drop (Z.to_nat off + length src) dst.

Fixpoint write_loop (fuel : nat) (d bs off : Z) (buf : list Z) (done : Z) : M (blk W) Z :=
  match fuel with
  | O => diverge
  | S f =>
      let len := Z.of_nat (length buf) in
      if len <=? done then ret 0
      else
        let pos := u64 (off + done) in
        let boff := pos `mod` bs in
        let chunk := Z.min (bs - boff) (len - done) in
        let* r := read_blocks depth d (pos / bs) 1 in
        let* e :=
          if r.1 =? 0 then
            write_blocks depth d (pos / bs) 1 (overlay r.2 boff (take (Z.to_nat chunk) (drop (Z.to_nat done) buf)))
          else ret r.1 in
        if negb (e =? 0) then ret e else write_loop f d bs off buf (done + chunk)
  end.
Definition block_write (d off : Z) (buf : list Z) : M (blk W) Z :=
  let* x := get_bdev d in
  let len := Z.of_nat (length buf) in
  if negb (has_write x) then ret (- ENOSYS)
  else if len =? 0 then ret 0
  else
    let bs := block_size x in
    let size := u64 (block_count x * bs) in
    if (bs =? 0) || (size <=? off) || (size - off <? len) then ret (- EINVAL)
    else if (off `mod` bs =? 0) && (len `mod` bs =? 0) then write_blocks depth d (off / bs) (u32 (len / bs)) buf
    else
      let* ok := kzalloc bs in
      if negb ok then ret (- ENOMEM) else write_loop (S (length buf)) d bs off buf 0.

(** [part_flush] of a partition is [block_flush] of its parent. *)
Fixpoint block_flush_go (fuel : nat) (d : Z) : M (blk W) Z :=
  match fuel with
  | O => diverge
  | S f =>
      let* x := get_bdev d in
      match d_ops x, has_flush x, d_parent x with
      | driver_ops, true, _ => call (drv_flush d)
      | part_ops, true, None => ret (- EINVAL)
      | _, _, Some p => block_flush_go f p
      | _, false, None => ret 0
      end
  end.
Definition block_flush (d : Z) : M (blk W) Z := block_flush_go depth d.

Definition block_devfs_read (d off len : Z) : M (blk W) (Z * list Z) :=
  let* x := get_bdev d in
  let size := u64 (block_count x * block_size x) in
  if (size <=? off) || (len =? 0) then ret (0, [])
  else block_read d off (if size - off <? len then size - off else len).
(** The status and the bytes taken. *)
Definition block_devfs_write (d off : Z) (buf : list Z) : M (blk W) (Z * Z) :=
  let* x := get_bdev d in
  let size := u64 (block_count x * block_size x) in
  let len := Z.of_nat (length buf) in
  if (size <=? off) || (len =? 0) then ret (0, 0)
  else
    let n := if size - off <? len then size - off else len in
    let* r := block_write d off (take (Z.to_nat n) buf) in
    ret (r, if r =? 0 then n else 0).

(** ** Registration and partition tables *)

(** The decimal digits of a 32-bit number ([%u]). *)
Fixpoint dec_go (fuel : nat) (n : Z) (acc : list Z) : list Z :=
  match fuel with
  | O => acc
  | S f => let acc := (48 + n `mod` 10) :: acc in if n / 10 =? 0 then acc else dec_go f (n / 10) acc
  end.
Definition dec (n : Z) : list Z := dec_go 10 n [].
(** What [npf_snprintf] leaves in an array of [size] bytes. *)
Definition fits (size : nat) (text : list Z) : list Z := take (size - 1) text.

Definition part_name (name : list Z) (number : Z) : list Z := fits (S BLOCK_NAME_MAX) (name ++ 112 :: dec number).
Definition dev_prefix : list Z := [47; 100; 101; 118; 47].

Definition name_taken (s : blk W) (name : list Z) : bool :=
  existsb (fun d => match devices s !! d with Some y => bool_decide (d_name y = name) | None => false end) (block_devices s).

Definition rd_le (l : list Z) (off : nat) (n : nat) : Z :=
  fold_right (fun b v => b + 256 * v) 0 (take n (drop off l)).
Definition rd32 (l : list Z) (off : nat) : Z := rd_le l off 4.
Definition rd64 (l : list Z) (off : nat) : Z := rd_le l off 8.
Definition guid_is_zero (l : list Z) : bool := forallb (Z.eqb 0) (take 16 l).
Definition EFI_PART : list Z := [69; 70; 73; 32; 80; 65; 82; 84].

(** [register] is [block_register]. *)
Definition block_register_partition (register : block_device -> M (blk W) Z) (d number start count : Z) : M (blk W) unit :=
  let* x := get_bdev d in
  if (number =? 0) || (count =? 0) then ret tt
  else if (block_count x <=? start) || (block_count x - start <? count) then ret tt
  else
    register (mkDev (part_name (d_name x) number) (block_size x) count start part_ops true (has_write x) true (Some d)) ;;;
    ret tt.

Fixpoint gpt_loop (n : nat) (i : Z) (register : block_device -> M (blk W) Z) (d lba size : Z) : M (blk W) unit :=
  match n with
  | O => ret tt
  | S n =>
      let* x := get_bdev d in
      let off := u64 (u64 (lba * block_size x) + i * size) in
      if u64 (block_count x * block_size x) <? u64 (off + size) then ret tt
      else
        let* r := block_read d off size in
        if negb (r.1 =? 0) then ret tt
        else
          when (negb (guid_is_zero r.2) && negb (rd64 r.2 40 <? rd64 r.2 32))
            (block_register_partition register d (u32 (i + 1)) (rd64 r.2 32) (u64 (rd64 r.2 40 - rd64 r.2 32 + 1))) ;;;
          gpt_loop n (i + 1) register d lba size
  end.
Definition block_probe_gpt (register : block_device -> M (blk W) Z) (d : Z) : M (blk W) Z :=
  let* x := get_bdev d in
  if (block_size x <? 512) || (block_count x <? 2) then ret (- EINVAL)
  else
    let* ok := kzalloc (block_size x) in
    if negb ok then ret (- ENOMEM)
    else
      let* r := block_read d (block_size x) (block_size x) in
      if negb (r.1 =? 0) then ret r.1
      else if negb (bool_decide (take 8 r.2 = EFI_PART)) then ret (- ENOENT)
      else
        let lba := rd64 r.2 72 in
        let entry_count := rd32 r.2 80 in
        let entry_size := rd32 r.2 84 in
        if (entry_size <? 128) || (4096 <? entry_size) || (entry_count =? 0) then ret (- EINVAL)
        else if block_count x <=? lba then ret (- EINVAL)
        else
          let* ok := kzalloc entry_size in
          if negb ok then ret (- ENOMEM)
          else gpt_loop (Z.to_nat entry_count) 0 register d lba entry_size ;;; ret 0.

Definition mbr_entry (mbr : list Z) (i : nat) : list Z := drop (446 + i * 16) mbr.
Definition protective_gpt (mbr : list Z) : bool := existsb (fun i => nth 4 (mbr_entry mbr i) 0 =? 238) (seq 0 4).
Fixpoint mbr_loop (l : list nat) (register : block_device -> M (blk W) Z) (d : Z) (mbr : list Z) : M (blk W) unit :=
  match l with
  | [] => ret tt
  | i :: l =>
      let e := mbr_entry mbr i in
      when (negb ((nth 4 e 0 =? 0) || (rd32 e 12 =? 0)))
        (block_register_partition register d (Z.of_nat i + 1) (rd32 e 8) (rd32 e 12)) ;;;
      mbr_loop l register d mbr
  end.
Definition block_probe_mbr (register : block_device -> M (blk W) Z) (d : Z) : M (blk W) unit :=
  let* x := get_bdev d in
  if negb (bool_decide (d_parent x = None)) || (block_size x <? 512) || (block_count x =? 0) then ret tt
  else
    let* ok := kzalloc (block_size x) in
    if negb ok then ret tt
    else
      let* r := block_read d 0 512 in
      if negb (r.1 =? 0) then ret tt
      else if negb (nth 510 r.2 0 =? 85) || negb (nth 511 r.2 0 =? 170) then ret tt
      else if protective_gpt r.2 then block_probe_gpt register d ;;; ret tt
      else mbr_loop (seq 0 4) register d r.2.

(** [fuel]: a partition is registered by the probe of its parent, and not probed itself. *)
Fixpoint block_register_go (fuel : nat) (src : block_device) : M (blk W) Z :=
  match fuel with
  | O => diverge
  | S f =>
      if bool_decide (d_name src = []) || negb (has_read src) || (block_size src =? 0) then ret (- EINVAL)
      else
        let* ok := kzalloc 112 in
        if negb ok then ret (- ENOMEM)
        else
          let x := mkDev (fits (S BLOCK_NAME_MAX) (d_name src)) (block_size src) (block_count src) (lba_offset src)
                     (d_ops src) (has_read src) (has_write src) (has_flush src) (d_parent src) in
          let* taken := gets (fun s => name_taken s (d_name x)) in
          if taken then ret (- EEXIST)
          else
            let* d := gets next_dev in
            modify (fun s => mkBlk (<[d := x]> (devices s)) (d :: block_devices s) (next_dev s + 1) (world s)) ;;;
            call (devfs_register_chr (dev_prefix ++ d_name x) (if has_write x then 432 else 288) d) ;;;
            block_probe_mbr (block_register_go f) d ;;;
            ret 0
  end.
Definition block_register (src : block_device) : M (blk W) Z := block_register_go 3 src.

Definition block_first : M (blk W) (option Z) := gets (fun s => head (block_devices s)).
Fixpoint find_loop (l : list Z) (name : list Z) : M (blk W) (option Z) :=
  match l with
  | [] => ret None
  | d :: l => let* x := get_bdev d in if bool_decide (d_name x = name) then ret (Some d) else find_loop l name
  end.
Definition block_find (name : list Z) : M (blk W) (option Z) := let* l := gets block_devices in find_loop l name.
End layer.
