(* ===== verification/BlockProps.v ===== *)
(** * Partitions are byte arrays

    Access by byte through sectors, bounce buffers and partitions reads and writes exactly
    the bytes it names, for every driver that keeps the laws of [BlockLaws]; and no
    partition table makes a partition that leaves its disk. *)

From stdpp Require Import base list gmap.
From Stdlib Require Import ZArith Lia.
From S2P Require Import Prelude Block.

Local Open Scope Z_scope.

(** What the layer relies on: [medium] is the byte at a place of a driver's device, [sector]
    its sector size.  Reading and asking the heap change nothing; a read that succeeds
    gives the bytes of the sectors, a write that succeeds replaces them, and one that fails
    leaves at least the other sectors alone. *)
Class BlockLaws (W : Type) `{BlockEnv W} := {
  medium : W -> Z -> Z -> Z;
  sector : Z -> Z;
  law_byte : forall w d x, 0 <= medium w d x < 256;
  law_read : forall w d lba count, 0 <= lba -> 0 < count -> exists r l w',
    drv_read d lba count w = (r, l, w') /\ (forall e x, medium w' e x = medium w e x) /\
    (r = 0 -> l = map (fun i => medium w d (lba * sector d + i)) (seqZ 0 (count * sector d)));
  law_write : forall w d lba count buf, 0 <= lba -> 0 < count -> Z.of_nat (length buf) = count * sector d ->
    exists r w', drv_write d lba count buf w = (r, w') /\
    (forall e x, e <> d \/ ~ (lba * sector d <= x < (lba + count) * sector d) -> medium w' e x = medium w e x) /\
    (r = 0 -> forall i, 0 <= i < count * sector d -> medium w' d (lba * sector d + i) = u8 (nth (Z.to_nat i) buf 0));
  law_kzalloc : forall w n, exists b w', kzalloc_ok n w = (b, w') /\ forall e x, medium w' e x = medium w e x }.

Section props.
Context {W : Type} {env : BlockEnv W} {laws : BlockLaws W}.

Lemma u8_medium w d x : u8 (medium w d x) = medium w d x.
Proof. unfold u8. apply Z.mod_small. apply law_byte. Qed.
Definition bytes_at (s : blk W) (root off n : Z) : list Z := map (fun i => medium (world s) root (off + i)) (seqZ 0 n).
(** The same devices and the same bytes. *)
Definition same_bytes (s s' : blk W) : Prop :=
  devices s' = devices s /\ block_devices s' = block_devices s /\ next_dev s' = next_dev s /\
  forall e x, medium (world s') e x = medium (world s) e x.

(** Device [d] is the part of the driver's device [root] that starts at byte [base]. *)
Record window (s : blk W) (d : Z) (x : block_device) (root base : Z) : Prop := {
  w_dev : devices s !! d = Some x;
  w_size : 0 < block_size x < 2 ^ 32;
  w_count : 0 <= block_count x /\ block_count x * block_size x < 2 ^ 64;
  w_sector : sector root = block_size x;
  w_ops : match d_ops x with
    | driver_ops => root = d /\ base = 0
    | part_ops => d_parent x = Some root /\ base = lba_offset x * block_size x /\ 0 <= lba_offset x /\
        exists y, devices s !! root = Some y /\ d_ops y = driver_ops /\ has_write y = has_write x /\
          lba_offset x + block_count x <= block_count y /\ block_count y * block_size x < 2 ^ 64
    end }.
Definition size_of (x : block_device) : Z := block_count x * block_size x.

Lemma same_bytes_refl s : same_bytes s s.
Proof. done. Qed.
Lemma same_bytes_trans s1 s2 s3 : same_bytes s1 s2 -> same_bytes s2 s3 -> same_bytes s1 s3.
Proof. intros (H1 & H2 & H3 & H4) (G1 & G2 & G3 & G4). split_and!; [congruence..|]. intros e x. by rewrite G4. Qed.
Lemma window_same s s' d x root base : window s d x root base -> devices s' = devices s -> window s' d x root base.
Proof. intros [H1 H2 H3 H4 H5] Hs. split; rewrite ?Hs; done. Qed.

Lemma bytes_length s root off n : 0 <= n -> Z.of_nat (length (bytes_at s root off n)) = n.
Proof. intros Hn. unfold bytes_at. rewrite length_map, length_seqZ. lia. Qed.
Lemma bytes_lookup s root off n i :
  bytes_at s root off n !! i = if bool_decide (Z.of_nat i < n) then Some (medium (world s) root (off + Z.of_nat i)) else None.
Proof.
  unfold bytes_at. case_bool_decide as H.
  - apply (list_lookup_fmap_Some_2 (fun i => medium (world s) root (off + i))), lookup_seqZ. lia.
  - apply lookup_ge_None. rewrite length_map, length_seqZ. lia.
Qed.
Lemma bytes_same s s' root off n : same_bytes s s' -> bytes_at s' root off n = bytes_at s root off n.
Proof. intros (_ & _ & _ & H). apply map_ext. intros. apply H. Qed.
(** A part of a part. *)
Lemma bytes_part s root off n i k :
  0 <= i -> 0 <= k -> i + k <= n ->
  take (Z.to_nat k) (drop (Z.to_nat i) (bytes_at s root off n)) = bytes_at s root (off + i) k.
Proof.
  intros Hi Hk Hn. apply list_eq. intros j. rewrite bytes_lookup. case_bool_decide as Hj.
  - rewrite lookup_take_lt, lookup_drop, bytes_lookup by lia. rewrite bool_decide_eq_true_2 by lia. do 2 f_equal. lia.
  - apply lookup_take_ge. lia.
Qed.
Lemma bytes_app s root off n k : 0 <= n -> 0 <= k -> bytes_at s root off n ++ bytes_at s root (off + n) k = bytes_at s root off (n + k).
Proof.
  intros Hn Hk. apply list_eq. intros j. rewrite bytes_lookup.
  pose proof (bytes_length s root off n Hn). destruct (decide (j < length (bytes_at s root off n))%nat).
  - rewrite lookup_app_l, bytes_lookup by done. rewrite !bool_decide_eq_true_2 by lia. done.
  - rewrite lookup_app_r, bytes_lookup by lia. case_bool_decide; case_bool_decide; try done; try lia. do 2 f_equal. lia.
Qed.

(** No driver reports an error and the heap has room. *)
Definition reliable : Prop :=
  (forall d lba count w, (drv_read d lba count w).1.1 = 0) /\
  (forall d lba count buf w, (drv_write d lba count buf w).1 = 0) /\
  forall n w, (kzalloc_ok n w).1 = true.
Lemma reliable_read d lba count w r l w' : reliable -> drv_read d lba count w = (r, l, w') -> r = 0.
Proof. intros [H _] Heq. specialize (H d lba count w). by rewrite Heq in H. Qed.
Lemma reliable_write d lba count buf w r w' : reliable -> drv_write d lba count buf w = (r, w') -> r = 0.
Proof. intros (_ & H & _) Heq. specialize (H d lba count buf w). by rewrite Heq in H. Qed.
Lemma reliable_kzalloc n w b w' : reliable -> kzalloc_ok n w = (b, w') -> b = true.
Proof. intros (_ & _ & H) Heq. specialize (H n w). by rewrite Heq in H. Qed.

(** ** Sectors *)

Lemma read_sectors s d x root base lba count :
  window s d x root base -> 0 <= lba -> 0 < count -> lba + count <= block_count x ->
  exists r l s', read_blocks depth d lba count s = Ret (r, l) s' /\ (reliable -> r = 0) /\ same_bytes s s' /\
    (r = 0 -> l = bytes_at s root (base + lba * block_size x) (count * block_size x)).
Proof.
  intros [Hd Hz Hc Hs Ho] Hl Hn Hr. unfold depth. cbn [read_blocks]. unfold get_bdev at 1. unfold bind at 1. rewrite Hd.
  destruct (d_ops x).
  - destruct Ho as [-> ->]. unfold call. destruct (law_read (world s) d lba count Hl Hn) as (r & l & w & Heq & Hm & Hok).
    rewrite Heq. do 3 eexists. split; [done|]. split; [by eauto using reliable_read|]. split; [by split_and!|].
    intros Hz0. rewrite (Hok Hz0), Hs. done.
  - destruct Ho as (Hp & -> & Hb & y & Hy & Hyo & _ & Hyc & Hyb). rewrite Hp.
    rewrite (proj2 (Z.eqb_neq count 0)), (proj2 (Z.leb_gt (block_count x) lba)), (proj2 (Z.ltb_ge (block_count x - lba) count)) by lia.
    cbn [orb]. unfold get_bdev, bind. rewrite Hy, Hyo. unfold call.
    rewrite u64_small by nia.
    destruct (law_read (world s) root (lba_offset x + lba) count ltac:(lia) Hn) as (r & l & w & Heq & Hm & Hok).
    rewrite Heq. do 3 eexists. split; [done|]. split; [by eauto using reliable_read|]. split; [by split_and!|].
    intros Hz0. rewrite (Hok Hz0), Hs. unfold bytes_at.
    by replace (lba_offset x * block_size x + lba * block_size x) with ((lba_offset x + lba) * block_size x) by lia.
Qed.

(** The devices are the same, and the bytes outside of [lo, lo + n) of [root]. *)
Definition only (s s' : blk W) (root lo n : Z) : Prop :=
  devices s' = devices s /\ block_devices s' = block_devices s /\ next_dev s' = next_dev s /\
  forall e x, e <> root \/ ~ (lo <= x < lo + n) -> medium (world s') e x = medium (world s) e x.
Lemma only_trans s1 s2 s3 root lo n : only s1 s2 root lo n -> only s2 s3 root lo n -> only s1 s3 root lo n.
Proof. intros (H1 & H2 & H3 & H4) (G1 & G2 & G3 & G4). split_and!; [congruence..|]. intros e x Hx. rewrite G4, H4 by done. done. Qed.
Lemma only_wider s s' root lo n lo' n' : only s s' root lo n -> lo' <= lo -> lo + n <= lo' + n' -> only s s' root lo' n'.
Proof.
  intros (H1 & H2 & H3 & H4) Ha Hb. split_and!; [done..|]. intros e x [Hx|Hx]; apply H4; [by left|right; lia].
Qed.
Lemma same_only s s' root lo n : same_bytes s s' -> only s s' root lo n.
Proof. intros (H1 & H2 & H3 & H4). split_and!; [done..|]. intros. apply H4. Qed.

Lemma write_sectors s d x root base lba count buf :
  window s d x root base -> has_write x = true -> 0 <= lba -> 0 < count -> lba + count <= block_count x ->
  Z.of_nat (length buf) = count * block_size x ->
  exists r s', write_blocks depth d lba count buf s = Ret r s' /\ (reliable -> r = 0) /\
    only s s' root (base + lba * block_size x) (count * block_size x) /\
    (r = 0 -> forall i, 0 <= i < count * block_size x ->
      medium (world s') root (base + lba * block_size x + i) = u8 (nth (Z.to_nat i) buf 0)).
Proof.
  intros [Hd Hz Hc Hs Ho] Hw Hl Hn Hr Hb. unfold depth. cbn [write_blocks]. unfold get_bdev at 1. unfold bind at 1. rewrite Hd.
  destruct (d_ops x).
  - destruct Ho as [-> ->]. unfold call.
    destruct (law_write (world s) d lba count buf Hl Hn ltac:(by rewrite Hs)) as (r & w & Heq & Hm & Hok). rewrite Heq, Hs in *.
    do 2 eexists. split; [done|]. split; [by eauto using reliable_write|]. split; [|done]. split_and!; [done..|]. intros e y Hy. apply Hm.
    destruct Hy as [Hy|Hy]; [by left|right; nia].
  - destruct Ho as (Hp & -> & Hb0 & y & Hy & Hyo & Hyw & Hyc & Hyb). rewrite Hp.
    unfold get_bdev at 1. unfold bind at 1. rewrite Hy, Hyw, Hw. cbn [negb].
    rewrite (proj2 (Z.eqb_neq count 0)), (proj2 (Z.leb_gt (block_count x) lba)), (proj2 (Z.ltb_ge (block_count x - lba) count)) by lia.
    cbn [orb]. unfold get_bdev, bind. rewrite Hy, Hyo. unfold call. rewrite u64_small by nia.
    destruct (law_write (world s) root (lba_offset x + lba) count buf ltac:(lia) Hn ltac:(by rewrite Hs)) as (r & w & Heq & Hm & Hok).
    rewrite Heq, Hs in *. rewrite <- Z.mul_add_distr_r.
    do 2 eexists. split; [done|]. split; [by eauto using reliable_write|]. split; [|done]. split_and!; [done..|]. intros e z Hy'. apply Hm.
    destruct Hy' as [Hy'|Hy']; [by left|right; nia].
Qed.

(** ** Bytes *)

Lemma in_sector x pos : 0 < block_size x -> 0 <= pos < size_of x ->
  0 <= pos / block_size x /\ pos / block_size x + 1 <= block_count x /\
  pos / block_size x * block_size x + pos `mod` block_size x = pos.
Proof.
  unfold size_of. intros Hb Hp. pose proof (Z.div_mod pos (block_size x) ltac:(lia)) as H.
  pose proof (Z.mod_pos_bound pos (block_size x) Hb) as Hm.
  split_and!; [apply Z.div_pos; lia| |lia]. apply Z.le_succ_l, Z.div_lt_upper_bound; lia.
Qed.

Lemma read_loop_spec fuel s0 s d x root base off len done :
  window s0 d x root base -> same_bytes s0 s -> 0 <= off -> off + len <= size_of x -> 0 <= done <= len ->
  (Z.to_nat (len - done) < fuel)%nat ->
  exists r l s', read_loop fuel d (block_size x) off len done (bytes_at s0 root (base + off) done) s = Ret (r, l) s' /\
    (reliable -> r = 0) /\ same_bytes s0 s' /\ (r = 0 -> l = bytes_at s0 root (base + off) len).
Proof.
  intros Hw. revert s done. induction fuel as [|fuel IH]; intros s done Hs Ho Hlen Hd Hf; [lia|]. cbn [read_loop].
  destruct (Z.leb_spec len done) as [Hle|Hlt].
  { do 3 eexists. do 3 (split; [done|]). intros _. by replace len with done by lia. }
  pose proof (w_size _ _ _ _ _ Hw) as Hb. pose proof (w_count _ _ _ _ _ Hw) as Hc. unfold size_of in Hlen.
  cbv zeta. rewrite u64_small by lia. destruct (in_sector x (off + done)) as (Hs0 & Hs1 & Hs2); [lia|unfold size_of; lia|].
  pose proof (Z.mod_pos_bound (off + done) (block_size x) ltac:(lia)) as Hm.
  set (lba := (off + done) / block_size x) in *. set (boff := (off + done) `mod` block_size x) in *.
  set (chunk := Z.min _ _).
  destruct (read_sectors s d x root base lba 1) as (r & l & s1 & Hr & Hrel & Hs' & Hok);
    [eapply window_same; [done|apply Hs]|lia..|]. rewrite (bind_ret _ _ _ _ _ Hr). cbn [fst snd].
  pose proof (same_bytes_trans _ _ _ Hs Hs') as Hs01.
  destruct (Z.eqb_spec r 0) as [->|Hz]; cbn [negb]; [|exists r, [], s1; by do 3 (split; [done|])].
  rewrite (Hok eq_refl), bytes_part, (bytes_same _ _ _ _ _ Hs) by lia.
  replace (base + lba * block_size x + boff) with (base + off + done) by lia.
  rewrite bytes_app by lia. apply IH; try done; lia.
Qed.

Lemma block_read_spec s d x root base off len :
  window s d x root base -> 0 <= off -> 0 <= len < 2 ^ 32 -> off + len <= size_of x ->
  exists r l s', block_read d off len s = Ret (r, l) s' /\ (reliable -> r = 0) /\ same_bytes s s' /\
    (r = 0 -> l = bytes_at s root (base + off) len).
Proof.
  intros Hw Ho Hl Hs. pose proof (w_size _ _ _ _ _ Hw) as Hb. pose proof (w_count _ _ _ _ _ Hw) as Hc. unfold size_of in Hs.
  unfold block_read. unfold get_bdev at 1. unfold bind at 1. rewrite (w_dev _ _ _ _ _ Hw).
  destruct (Z.eqb_spec len 0) as [->|Hl0]; [by do 3 eexists|]. cbv zeta. rewrite (u64_small (_ * _)) by nia.
  rewrite (proj2 (Z.eqb_neq (block_size x) 0)), (proj2 (Z.leb_gt _ off)), (proj2 (Z.ltb_ge _ len)) by lia. cbn [orb].
  destruct (_ && _) eqn:Hal.
  - bools. pose proof (Z.div_mod off (block_size x) ltac:(lia)). pose proof (Z.div_mod len (block_size x) ltac:(lia)).
    assert (0 < len / block_size x) by nia. assert (len / block_size x <= len) by nia.
    unfold u32. rewrite Z.mod_small by lia.
    destruct (read_sectors s d x root base (off / block_size x) (len / block_size x)) as (r & l & s' & Hr & Hrel & Hs' & Hok);
      [done|apply Z.div_pos; lia|lia|nia|].
    exists r, l, s'. do 3 (split; [done|]). intros Hz. rewrite (Hok Hz). f_equal; lia.
  - unfold kzalloc, call. unfold bind at 1. destruct (law_kzalloc (world s) (block_size x)) as (b & w & Heq & Hm).
    rewrite Heq. destruct b; cbn [negb].
    2:{ do 3 eexists. split; [done|]. split; [intros H; by apply (reliable_kzalloc _ _ _ _ H) in Heq|]. by split; [split_and!|]. }
    apply (read_loop_spec _ s _ d x root base off len 0 Hw); [by split_and!|done|done|lia|lia].
Qed.

(** The first [n] bytes of [buf] are at [lo], and nothing else has changed. *)
Definition wrote (s s' : blk W) (root lo n : Z) (buf : list Z) : Prop :=
  only s s' root lo n /\ forall i, 0 <= i < n -> medium (world s') root (lo + i) = u8 (nth (Z.to_nat i) buf 0).

Lemma nth_overlay l boff part i :
  0 <= boff -> boff + Z.of_nat (length part) <= Z.of_nat (length l) -> 0 <= i ->
  nth (Z.to_nat i) (overlay l boff part) 0 =
    if bool_decide (boff <= i < boff + Z.of_nat (length part)) then nth (Z.to_nat (i - boff)) part 0
    else nth (Z.to_nat i) l 0.
Proof.
  intros Hb Hl Hi. unfold overlay. rewrite !nth_lookup.
  assert (Ht : length (take (Z.to_nat boff) l) = Z.to_nat boff) by (rewrite length_take; lia).
  case_bool_decide as Hc.
  - rewrite lookup_app_r, Ht, lookup_app_l by lia. do 2 f_equal. lia.
  - destruct (decide (i < boff)) as [H|H].
    + rewrite lookup_app_l, lookup_take_lt by lia. done.
    + rewrite lookup_app_r, Ht, lookup_app_r, lookup_drop by lia. do 2 f_equal. lia.
Qed.
Lemma overlay_length l boff part :
  0 <= boff -> boff + Z.of_nat (length part) <= Z.of_nat (length l) -> length (overlay l boff part) = length l.
Proof. intros Hb Hl. unfold overlay. rewrite !length_app, length_take, length_drop. lia. Qed.
Lemma nth_bytes s root off n i : 0 <= i < n -> nth (Z.to_nat i) (bytes_at s root off n) 0 = medium (world s) root (off + i).
Proof. intros Hi. rewrite nth_lookup, bytes_lookup, bool_decide_eq_true_2 by lia. cbn. f_equal. lia. Qed.

(** One round: the sector is read, changed and written. *)
Lemma write_round s d x root base pos part :
  window s d x root base -> has_write x = true -> 0 <= pos -> (0 < length part)%nat ->
  pos `mod` block_size x + Z.of_nat (length part) <= block_size x -> pos < size_of x ->
  exists r s',
    (let* r := read_blocks depth d (pos / block_size x) 1 in
     if r.1 =? 0 then write_blocks depth d (pos / block_size x) 1 (overlay r.2 (pos `mod` block_size x) part)
     else ret r.1) s = Ret r s' /\
    (reliable -> r = 0) /\ only s s' root base (size_of x) /\
    (r = 0 -> wrote s s' root (base + pos) (Z.of_nat (length part)) part).
Proof.
  intros Hw Hh Hp Hl Hm Hs. pose proof (w_size _ _ _ _ _ Hw) as Hb.
  destruct (in_sector x pos) as (Hs0 & Hs1 & Hs2); [lia|lia|].
  pose proof (Z.mod_pos_bound pos (block_size x) ltac:(lia)) as Hmb.
  set (lba := pos / block_size x) in *. set (boff := pos `mod` block_size x) in *. unfold size_of in *.
  destruct (read_sectors s d x root base lba 1 Hw) as (r & l & s1 & Hr & Hrel & Hs' & Hok); [lia..|].
  rewrite (bind_ret _ _ _ _ _ Hr). cbn [fst snd].
  destruct (Z.eqb_spec r 0) as [->|Hz]; [|exists r, s1; split_and!; [done|done|by apply same_only|done]].
  specialize (Hok eq_refl). rewrite Z.mul_1_l in Hok.
  assert (Hll : Z.of_nat (length l) = block_size x) by (rewrite Hok; apply bytes_length; lia).
  destruct (write_sectors s1 d x root base lba 1 (overlay l boff part)) as (r & s2 & Hr2 & Hrel2 & Ho & Hw2);
    [eapply window_same; [done|apply Hs']|done|lia|lia|lia|rewrite overlay_length; lia|].
  rewrite Z.mul_1_l in *. exists r, s2. split; [done|]. split; [done|]. split.
  { eapply only_trans; [by apply same_only|]. eapply only_wider; [done|nia|nia]. }
  intros Hz. specialize (Hw2 Hz).
  assert (Hsec : forall i, 0 <= i < block_size x -> medium (world s2) root (base + lba * block_size x + i) =
    if bool_decide (boff <= i < boff + Z.of_nat (length part)) then u8 (nth (Z.to_nat (i - boff)) part 0)
    else medium (world s) root (base + lba * block_size x + i)).
  { intros i Hi. rewrite Hw2, nth_overlay by lia. case_bool_decide; [done|]. rewrite Hok, nth_bytes by lia. apply u8_medium. }
  split.
  - destruct Ho as (H1 & H2 & H3 & H4), Hs' as (G1 & G2 & G3 & G4). split_and!; [congruence..|]. intros e y Hy.
    destruct (decide (e = root /\ base + lba * block_size x <= y < base + lba * block_size x + block_size x)) as [[-> Hi]|Hi].
    + replace y with (base + lba * block_size x + (y - (base + lba * block_size x))) by lia.
      rewrite Hsec by lia. rewrite bool_decide_eq_false_2; [done|]. destruct Hy as [Hy|Hy]; [done|lia].
    + rewrite H4, G4; [done|]. destruct (decide (e = root)) as [->|]; [right; intros ?; apply Hi; by split|by left].
  - intros i Hi. replace (base + pos + i) with (base + lba * block_size x + (boff + i)) by lia.
    rewrite Hsec by lia. rewrite bool_decide_eq_true_2 by lia. do 2 f_equal. lia.
Qed.

Lemma wrote_more s0 s s' root lo done n buf :
  wrote s0 s root lo done buf -> 0 <= done -> 0 <= n ->
  wrote s s' root (lo + done) n (drop (Z.to_nat done) buf) -> wrote s0 s' root lo (done + n) buf.
Proof.
  intros [H1 H2] Hd Hn [G1 G2]. split.
  - apply (only_trans s0 s s').
    + eapply only_wider; [apply H1|lia|lia].
    + eapply only_wider; [apply G1|lia|lia].
  - intros i Hi. destruct (decide (i < done)) as [H|H].
    + destruct G1 as (_ & _ & _ & G). rewrite G by (right; lia). apply H2. lia.
    + replace (lo + i) with (lo + done + (i - done)) by lia. rewrite G2, !nth_lookup, lookup_drop by lia. do 3 f_equal. lia.
Qed.

Lemma wrote_take s s' root lo n k buf :
  n <= Z.of_nat k -> wrote s s' root lo n (take k buf) -> wrote s s' root lo n buf.
Proof.
  intros Hk [H1 H2]. split; [done|]. intros i Hi. rewrite H2, !nth_lookup, lookup_take_lt by lia. done.
Qed.

Lemma write_loop_spec fuel s0 s d x root base off buf done :
  let len := Z.of_nat (length buf) in
  window s0 d x root base -> has_write x = true -> 0 <= off -> off + len <= size_of x -> 0 <= done <= len ->
  wrote s0 s root (base + off) done buf -> (Z.to_nat (len - done) < fuel)%nat ->
  exists r s', write_loop fuel d (block_size x) off buf done s = Ret r s' /\ (reliable -> r = 0) /\ only s0 s' root base (size_of x) /\
    (r = 0 -> wrote s0 s' root (base + off) len buf).
Proof.
  intros len Hw Hh Ho Hlen. revert s done. induction fuel as [|fuel IH]; intros s done Hd Hwr Hf; [lia|]. cbn [write_loop].
  pose proof (w_size _ _ _ _ _ Hw) as Hb. pose proof (w_count _ _ _ _ _ Hw) as Hc.
  assert (Hon : only s0 s root base (size_of x)) by (eapply only_wider; [apply Hwr|lia|lia]).
  cbv zeta. fold len. destruct (Z.leb_spec len done) as [Hle|Hlt].
  { exists 0, s. do 3 (split; [done|]). intros _. by replace len with done by lia. }
  unfold size_of in Hlen. rewrite u64_small by lia.
  pose proof (Z.mod_pos_bound (off + done) (block_size x) ltac:(lia)) as Hm. set (chunk := Z.min _ _).
  set (part := take (Z.to_nat chunk) (drop (Z.to_nat done) buf)).
  assert (Hpl : Z.of_nat (length part) = chunk) by (unfold part; rewrite length_take, length_drop; lia).
  rewrite <- bind_assoc.
  destruct (write_round s d x root base (off + done) part) as (r & s1 & Hr & Hrel & Hon1 & Hok);
    [eapply window_same; [done|apply Hwr]|done|lia|lia|lia|unfold size_of; lia|].
  rewrite (bind_ret _ _ _ _ _ Hr). destruct (Z.eqb_spec r 0) as [->|Hz]; cbn [negb].
  2:{ exists r, s1. do 2 (split; [done|]). split; [by eapply only_trans|done]. }
  apply IH; [lia| |lia]. eapply wrote_more; [done|lia|lia|]. rewrite <- Z.add_assoc.
  eapply wrote_take; [|rewrite <- Hpl; by apply Hok]. lia.
Qed.

Lemma block_write_spec s d x root base off buf :
  let len := Z.of_nat (length buf) in
  window s d x root base -> has_write x = true -> 0 <= off -> len < 2 ^ 32 -> off + len <= size_of x ->
  exists r s', block_write d off buf s = Ret r s' /\ (reliable -> r = 0) /\ only s s' root base (size_of x) /\
    (r = 0 -> wrote s s' root (base + off) len buf).
Proof.
  intros len Hw Hh Ho Hl Hs. pose proof (w_size _ _ _ _ _ Hw) as Hb. pose proof (w_count _ _ _ _ _ Hw) as Hc.
  unfold size_of in Hs. unfold block_write. unfold get_bdev at 1. unfold bind at 1. rewrite (w_dev _ _ _ _ _ Hw), Hh. fold len. cbn [negb].
  destruct (Z.eqb_spec len 0) as [Hl0|Hl0].
  { exists 0, s. do 2 (split; [done|]). split; [by apply same_only|]. intros _. split; [by apply same_only|]. intros i Hi. lia. }
  cbv zeta. rewrite (u64_small (_ * _)) by nia.
  rewrite (proj2 (Z.eqb_neq (block_size x) 0)), (proj2 (Z.leb_gt _ off)), (proj2 (Z.ltb_ge _ len)) by lia. cbn [orb].
  destruct (_ && _) eqn:Hal.
  - bools. pose proof (Z.div_mod off (block_size x) ltac:(lia)). pose proof (Z.div_mod len (block_size x) ltac:(lia)).
    assert (0 < len / block_size x) by nia. assert (len / block_size x <= len) by nia.
    unfold u32. rewrite Z.mod_small by lia.
    destruct (write_sectors s d x root base (off / block_size x) (len / block_size x) buf) as (r & s' & Hr & Hrel & Hon & Hok);
      [done|done|apply Z.div_pos; lia|lia|nia|lia|].
    replace (off / block_size x * block_size x) with off in * by lia.
    replace (len / block_size x * block_size x) with len in * by lia.
    exists r, s'. do 2 (split; [done|]). split; [eapply only_wider; [done|unfold size_of; lia..]|]. intros Hz. by split; [|apply Hok].
  - unfold kzalloc, call. unfold bind at 1. destruct (law_kzalloc (world s) (block_size x)) as (b & w & Heq & Hm).
    rewrite Heq. set (s1 := mkBlk _ _ _ _). assert (Hs1 : same_bytes s s1) by by split_and!. destruct b; cbn [negb].
    2:{ exists (- ENOMEM), s1. split; [done|]. split; [intros H; by apply (reliable_kzalloc _ _ _ _ H) in Heq|].
        split; [by apply same_only|done]. }
    apply (write_loop_spec _ s _ d x root base off buf 0 Hw); [done|done|unfold size_of; lia|lia| |lia].
    split; [by apply same_only|]. intros i Hi. lia.
Qed.

(** ** Sequences of accesses *)

Inductive bop := BRead (d off len : Z) | BWrite (d off : Z) (buf : list Z).
(** The statuses and the bytes read. *)
Fixpoint run_bops (ops : list bop) : M (blk W) (list (Z * list Z)) :=
  match ops with
  | [] => ret []
  | op :: ops =>
      let* r := match op with
                | BRead d off len => block_read d off len
                | BWrite d off buf => let* r := block_write d off buf in ret (r, [])
                end in
      let* rs := run_bops ops in
      ret (r :: rs)
  end.
(** The same on arrays of bytes; [wins] says which part of which array a device is. *)
Fixpoint abs_bops (wins : Z -> option (block_device * Z * Z)) (ops : list bop) (A : Z -> Z -> Z)
    : list (list Z) * (Z -> Z -> Z) :=
  match ops with
  | [] => ([], A)
  | BRead d off len :: ops =>
      let r := match wins d with Some (_, root, base) => map (fun i => A root (base + off + i)) (seqZ 0 len) | None => [] end in
      let (rs, A') := abs_bops wins ops A in (r :: rs, A')
  | BWrite d off buf :: ops =>
      let A1 := match wins d with
                | Some (_, root, base) => fun e y =>
                    if bool_decide (e = root /\ base + off <= y < base + off + Z.of_nat (length buf))
                    then u8 (nth (Z.to_nat (y - (base + off))) buf 0) else A e y
                | None => A
                end in
      let (rs, A') := abs_bops wins ops A1 in ([] :: rs, A')
  end.
Definition bop_ok (wins : Z -> option (block_device * Z * Z)) (op : bop) : Prop :=
  match op with
  | BRead d off len => exists x root base, wins d = Some (x, root, base) /\ 0 <= off /\ 0 <= len < 2 ^ 32 /\ off + len <= size_of x
  | BWrite d off buf => exists x root base, wins d = Some (x, root, base) /\ has_write x = true /\ 0 <= off /\
      Z.of_nat (length buf) < 2 ^ 32 /\ off + Z.of_nat (length buf) <= size_of x
  end.
Definition windows (s : blk W) (wins : Z -> option (block_device * Z * Z)) : Prop :=
  forall d x root base, wins d = Some (x, root, base) -> window s d x root base.

Lemma abs_bops_ext wins ops A B :
  (forall e y, A e y = B e y) ->
  (abs_bops wins ops A).1 = (abs_bops wins ops B).1 /\ forall e y, (abs_bops wins ops A).2 e y = (abs_bops wins ops B).2 e y.
Proof.
  revert A B. induction ops as [|[d off len|d off buf] ops IH]; intros A B HAB; cbn [abs_bops]; [done| |].
  - destruct (IH A B HAB) as [H1 H2]. destruct (abs_bops wins ops A), (abs_bops wins ops B). cbn in *. split; [|done].
    f_equal; [|done]. destruct (wins d) as [[[x root] base]|]; [|done]. apply map_ext. intros. apply HAB.
  - match goal with |- context [abs_bops wins ops ?X] => set (A1 := X) end.
    match goal with |- context [abs_bops wins ops ?X] => lazymatch X with A1 => fail | _ => set (B1 := X) end end.
    destruct (IH A1 B1) as [H1 H2].
    { intros e y. unfold A1, B1. destruct (wins d) as [[[x root] base]|]; [|done]. by case_bool_decide. }
    destruct (abs_bops wins ops A1), (abs_bops wins ops B1). cbn in *. split; [by f_equal|done].
Qed.

(** C8: devices and partitions are arrays of bytes.  Any sequence of reads and writes of any
    devices, at any offsets and lengths (below 2^32) inside of them, returns; as long as the drivers
    report no error the bytes read, and the contents of all disks at the end, are those of
    plain arrays of bytes, of which a partition is a part.  Bytes next to those written in
    the same sector are not touched. *)
Theorem block_bytes_refine wins ops (s : blk W) :
  windows s wins -> Forall (bop_ok wins) ops ->
  exists rs s', run_bops ops s = Ret rs s' /\
    (Forall (fun r => r.1 = 0) rs ->
      map snd rs = (abs_bops wins ops (medium (world s))).1 /\
      forall e y, medium (world s') e y = (abs_bops wins ops (medium (world s))).2 e y).
Proof.
  intros Hw Hops. revert s Hw. induction Hops as [|op ops Hop Hops IH]; intros s Hw; cbn [run_bops].
  { by exists [], s. }
  destruct op as [d off len|d off buf]; cbn [bop_ok abs_bops] in *.
  - destruct Hop as (x & root & base & Hd & Ho & Hl & Hs).
    destruct (block_read_spec s d x root base off len (Hw _ _ _ _ Hd) Ho Hl Hs) as (r & l & s1 & Hr & _ & Hsame & Hok).
    rewrite (bind_ret _ _ _ _ _ Hr).
    destruct (IH s1) as (rs & s2 & Hrs & Hrest). { intros ???? Hd'. eapply window_same; [by apply Hw|apply Hsame]. }
    rewrite (bind_ret _ _ _ _ _ Hrs). do 2 eexists. split; [done|]. intros [Hz Hall]%Forall_cons. cbn in Hz.
    destruct (Hrest Hall) as [H1 H2]. destruct (abs_bops_ext wins ops (medium (world s1)) (medium (world s))) as [E1 E2].
    { apply Hsame. }
    rewrite Hd, E1 in *. destruct (abs_bops wins ops (medium (world s))). cbn in *. split.
    + by rewrite (Hok Hz), H1.
    + intros. by rewrite H2, E2.
  - destruct Hop as (x & root & base & Hd & Hh & Ho & Hl & Hs).
    destruct (block_write_spec s d x root base off buf (Hw _ _ _ _ Hd) Hh Ho Hl Hs) as (r & s1 & Hr & _ & Hon & Hok).
    rewrite bind_assoc, (bind_ret _ _ _ _ _ Hr), (bind_ret (ret _) _ _ _ _ eq_refl).
    destruct (IH s1) as (rs & s2 & Hrs & Hrest). { intros ???? Hd'. eapply window_same; [by apply Hw|apply Hon]. }
    rewrite (bind_ret _ _ _ _ _ Hrs). do 2 eexists. split; [done|]. intros [Hz Hall]%Forall_cons. cbn in Hz.
    destruct (Hrest Hall) as [H1 H2]. rewrite Hd. match goal with |- context [abs_bops wins ops ?X] => set (A1 := X) end.
    destruct (abs_bops_ext wins ops (medium (world s1)) A1) as [E1 E2].
    { intros e y. destruct (Hok Hz) as [(_ & _ & _ & Hout) Hin]. unfold A1. case_bool_decide as Hc.
      - destruct Hc as [-> Hc]. rewrite <- Hin by lia. f_equal. lia.
      - apply Hout. destruct (decide (e = root)); [right; tauto|by left]. }
    rewrite E1 in *. destruct (abs_bops wins ops A1). cbn in *. split; [by f_equal|]. intros. by rewrite H2, E2.
Qed.
End props.
