(* ===== verification/BlockTables.v ===== *)
(** * No partition table makes a partition that leaves its disk

    The invariant of the list of devices, kept by registration whatever the disk holds. *)

From stdpp Require Import base list gmap.
From Stdlib Require Import ZArith Lia.
From S2P Require Import Prelude Block BlockProps.

Local Open Scope Z_scope.

Section tables.
Context {W : Type} {env : BlockEnv W} {laws : BlockLaws W}.

(** A device of sane size; a partition lies inside of a driver's device. *)
Definition dev_ok (s : blk W) (d : Z) (x : block_device) : Prop :=
  d < next_dev s /\ 0 < block_size x < 2 ^ 32 /\ 0 <= block_count x /\ block_count x * block_size x < 2 ^ 64 /\
  match d_ops x with
  | driver_ops => d_parent x = None /\ sector d = block_size x
  | part_ops => exists p y, d_parent x = Some p /\ devices s !! p = Some y /\ d_ops y = driver_ops /\
      block_size y = block_size x /\ has_write y = has_write x /\ 0 <= lba_offset x /\
      lba_offset x + block_count x <= block_count y
  end.
Record blk_inv (s : blk W) : Prop := {
  bi_dev : forall d x, devices s !! d = Some x -> dev_ok s d x;
  bi_listed : forall d, d ∈ block_devices s -> is_Some (devices s !! d);
  bi_names : forall d d' x x', d ∈ block_devices s -> d' ∈ block_devices s ->
    devices s !! d = Some x -> devices s !! d' = Some x' -> d_name x = d_name x' -> d = d' }.
(** Devices are only added. *)
Definition more (s s' : blk W) : Prop := blk_inv s' /\ devices s ⊆ devices s'.

Lemma more_refl s : blk_inv s -> more s s.
Proof. done. Qed.
Lemma more_trans s1 s2 s3 : more s1 s2 -> more s2 s3 -> more s1 s3.
Proof. intros [_ H1] [H2 H3]. split; [done|]. by etrans. Qed.
Lemma more_some s s' d x : more s s' -> devices s !! d = Some x -> devices s' !! d = Some x.
Proof. intros [_ H] Hd. by eapply lookup_weaken. Qed.

(** Only the world differs. *)
Definition quiet (s s' : blk W) : Prop :=
  devices s' = devices s /\ block_devices s' = block_devices s /\ next_dev s' = next_dev s.
Lemma quiet_more s s' : blk_inv s -> quiet s s' -> more s s'.
Proof.
  intros [H1 H2 H3] (Hd & Hl & Hn). split; [|by rewrite Hd]. split; unfold dev_ok in *; rewrite ?Hd, ?Hl, ?Hn; done.
Qed.
Lemma call_quiet {A} (f : W -> A * W) s : exists a s', call f s = Ret a s' /\ quiet s s'.
Proof. unfold call. destruct (f (world s)) as [a w]. by do 2 eexists. Qed.

Lemma inv_window s d x : blk_inv s -> devices s !! d = Some x -> exists root base, window s d x root base.
Proof.
  intros Hi Hd. destruct (bi_dev _ Hi d x Hd) as (_ & Hb & Hc & Hs & Ho). destruct (d_ops x) eqn:Hops.
  - destruct Ho as [_ Hsec]. exists d, 0. split; [done..|]. by rewrite Hops.
  - destruct Ho as (p & y & Hp & Hy & Hyo & Hyb & Hyw & Hl & Hlc).
    destruct (bi_dev _ Hi p y Hy) as (_ & _ & _ & Hys & Hyo'). rewrite Hyo in Hyo'. destruct Hyo' as [_ Hsec].
    exists p, (lba_offset x * block_size x). split; [done|done|done|congruence|]. rewrite Hops.
    split_and!; [done|done|done|]. exists y. rewrite <- Hyb. by split_and!.
Qed.

Lemma block_read_total s d x off len :
  blk_inv s -> devices s !! d = Some x -> 0 <= off -> 0 < len < 2 ^ 32 ->
  exists r l s', block_read d off len s = Ret (r, l) s' /\ quiet s s' /\
    (r = 0 -> Forall (fun b => 0 <= b) l).
Proof.
  intros Hi Hd Ho Hl. destruct (inv_window s d x Hi Hd) as (root & base & Hw).
  destruct (decide (off + len <= size_of x)) as [Hs|Hs].
  - destruct (block_read_spec s d x root base off len Hw Ho ltac:(lia) Hs) as (r & l & s' & Hr & _ & (H1 & H2 & H3 & _) & Hok).
    exists r, l, s'. split_and!; [done|done|]. intros Hz. rewrite (Hok Hz). apply Forall_map, Forall_true.
    intros i. cbn. pose proof (law_byte (world s) root (base + off + i)). lia.
  - exists (- EINVAL), [], s. split; [|done]. destruct (bi_dev _ Hi d x Hd) as (_ & Hb & Hc & Hsz & _).
    unfold block_read. unfold get_bdev at 1. unfold bind at 1. rewrite Hd. rewrite (proj2 (Z.eqb_neq len 0)) by lia.
    cbv zeta. rewrite (u64_small (_ * _)) by nia. fold (size_of x).
    destruct (Z.eqb_spec (block_size x) 0) as [|_]; [lia|]. cbn [orb].
    destruct (Z.leb_spec (size_of x) off); [done|]. cbn [orb]. by rewrite (proj2 (Z.ltb_lt _ _)) by lia.
Qed.

(** ** Registration *)

(** What a driver or the probe hands to [block_register]. *)
Definition src_ok (s : blk W) (src : block_device) : Prop := dev_ok (mkBlk (devices s) [] (next_dev s + 1) (world s)) (next_dev s) src.
Definition part_src (s : blk W) (src : block_device) : Prop := d_ops src = part_ops /\ src_ok s src.
Definition good_register (reg : block_device -> M (blk W) Z) : Prop :=
  forall s src, blk_inv s -> part_src s src -> exists r s', reg src s = Ret r s' /\ more s s'.

Lemma dev_ok_mono s s' d x : dev_ok s d x -> devices s ⊆ devices s' -> next_dev s <= next_dev s' -> dev_ok s' d x.
Proof.
  intros (H1 & H2 & H3 & H4 & H5) Hs Hn. split_and!; [lia|lia|lia|lia|done|]. destruct (d_ops x); [done|].
  destruct H5 as (p & y & Hp & Hy & Hr). exists p, y. split_and!; try apply Hr; [done|]. by eapply lookup_weaken.
Qed.
Lemma fits_rest src :
  let x := mkDev (fits (S BLOCK_NAME_MAX) (d_name src)) (block_size src) (block_count src) (lba_offset src)
             (d_ops src) (has_read src) (has_write src) (has_flush src) (d_parent src) in
  forall s d, dev_ok s d src -> dev_ok s d x.
Proof. done. Qed.

Lemma inv_fresh s : blk_inv s -> devices s !! next_dev s = None.
Proof. intros Hi. destruct (devices s !! next_dev s) eqn:H; [|done]. apply (bi_dev _ Hi) in H as [H _]. lia. Qed.

Lemma add_more s x :
  blk_inv s -> src_ok s x -> name_taken s (d_name x) = false ->
  more s (mkBlk (<[next_dev s := x]> (devices s)) (next_dev s :: block_devices s) (next_dev s + 1) (world s)).
Proof.
  intros Hi Hx Hn. pose proof (inv_fresh s Hi) as Hf.
  assert (Hsub : devices s ⊆ <[next_dev s := x]> (devices s)) by by apply insert_subseteq.
  assert (Hmono : forall d y, dev_ok s d y \/ (d = next_dev s /\ src_ok s y) ->
    dev_ok (mkBlk (<[next_dev s := x]> (devices s)) (next_dev s :: block_devices s) (next_dev s + 1) (world s)) d y).
  { intros d y [Hy|[-> Hy]]; eapply dev_ok_mono; [done|done|cbn; lia|done|done|cbn; lia]. }
  split; [|done]. split; cbn [devices block_devices next_dev].
  - intros d y [[<- <-]|[Hne Hd]]%lookup_insert_Some; apply Hmono; [by right|left]. by apply (bi_dev _ Hi).
  - intros d [->|Hd]%elem_of_cons; [by rewrite lookup_insert_eq|]. destruct (bi_listed _ Hi d Hd) as [y Hy].
    exists y. by eapply lookup_weaken.
  - assert (Hno : forall d y, d ∈ block_devices s -> devices s !! d = Some y -> d_name x <> d_name y).
    { intros d y Hd Hy Heq. unfold name_taken in Hn. apply not_true_iff_false in Hn. apply Hn, existsb_exists.
      exists d. split; [by apply list_elem_of_In|]. rewrite Hy. by apply bool_decide_eq_true_2. }
    intros d d' y y' [->|Hd]%elem_of_cons [->|Hd']%elem_of_cons Hy Hy' Heq; [done| | |].
    + rewrite lookup_insert_eq in Hy. injection Hy as <-.
      apply lookup_insert_Some in Hy' as [[<- _]|[_ Hy']]; [done|]. by destruct (Hno d' y').
    + rewrite lookup_insert_eq in Hy'. injection Hy' as <-.
      apply lookup_insert_Some in Hy as [[<- _]|[_ Hy]]; [done|]. by destruct (Hno d y).
    + apply lookup_insert_Some in Hy as [[<- _]|[_ Hy]], Hy' as [[<- _]|[_ Hy']]; try done.
      * destruct (bi_listed _ Hi _ Hd). congruence.
      * destruct (bi_listed _ Hi _ Hd'). congruence.
      * by eapply (bi_names _ Hi).
Qed.

Lemma register_go f src s :
  blk_inv s -> src_ok s src ->
  (forall s1 x d, blk_inv s1 -> devices s1 !! d = Some x -> d_ops x = d_ops src ->
    exists s2, block_probe_mbr (block_register_go f) d s1 = Ret tt s2 /\ more s1 s2) ->
  exists r s', block_register_go (S f) src s = Ret r s' /\ more s s'.
Proof.
  intros Hi Hs Hp. cbn [block_register_go]. destruct (_ || _); [by do 2 eexists|].
  destruct (call_quiet (kzalloc_ok 112) s) as (ok & s1 & Hk & Hq). rewrite (bind_ret (kzalloc 112) _ _ _ _ Hk).
  pose proof (quiet_more s s1 Hi Hq) as Hm1. destruct ok; cbn [negb]; [|by do 2 eexists]. cbv zeta.
  set (x := mkDev _ _ _ _ _ _ _ _ _). rewrite (bind_ret (gets _) _ s1 _ s1 eq_refl).
  destruct (name_taken s1 (d_name x)) eqn:Ht; [by do 2 eexists|].
  rewrite (bind_ret (gets next_dev) _ s1 _ s1 eq_refl). rewrite (bind_ret (modify _) _ s1 tt _ eq_refl).
  assert (Hx : src_ok s1 x) by (destruct Hq as (Hd & _ & Hn); unfold src_ok; rewrite Hd, Hn; by apply fits_rest).
  pose proof (add_more s1 x (proj1 Hm1) Hx Ht) as Hm2. set (s2 := mkBlk _ _ _ _) in Hm2 |- *.
  match goal with |- context [call ?g ;;; _] => destruct (call_quiet g s2) as (r & s3 & Hr & Hq3) end.
  rewrite (bind_ret _ _ _ _ _ Hr). pose proof (quiet_more s2 s3 (proj1 Hm2) Hq3) as Hm3.
  destruct (Hp s3 x (next_dev s1) (proj1 Hm3)) as (s4 & Hs4 & Hm4);
    [rewrite (proj1 Hq3); unfold s2; cbn; by rewrite lookup_insert_eq|done|].
  rewrite (bind_ret _ _ _ _ _ Hs4). exists 0, s4. split; [done|].
  eapply more_trans; [done|]. eapply more_trans; [done|]. by eapply more_trans.
Qed.

Lemma probe_part reg s d x :
  blk_inv s -> devices s !! d = Some x -> d_ops x = part_ops -> block_probe_mbr reg d s = Ret tt s.
Proof.
  intros Hi Hd Ho. unfold block_probe_mbr, get_bdev. unfold bind at 1. rewrite Hd.
  destruct (bi_dev _ Hi d x Hd) as (_ & _ & _ & _ & Hx). rewrite Ho in Hx. destruct Hx as (p & y & -> & _). done.
Qed.
Lemma register_parts f : good_register (block_register_go (S f)).
Proof.
  intros s src Hi [Ho Hs]. apply register_go; [done|done|]. intros s1 x d Hi1 Hd Hx. exists s1.
  split; [|by apply more_refl]. apply (probe_part _ _ _ x); congruence.
Qed.

(** ** The probes *)

Section probe.
Context (reg : block_device -> M (blk W) Z) (Hreg : good_register reg).
Context (d : Z) (x : block_device) (Hdrv : d_ops x = driver_ops).

Lemma register_partition_more s number start count :
  blk_inv s -> devices s !! d = Some x -> 0 <= start -> 0 <= count ->
  exists s', block_register_partition reg d number start count s = Ret tt s' /\ more s s'.
Proof.
  intros Hi Hd Hs Hc. unfold block_register_partition, get_bdev. unfold bind at 1. rewrite Hd.
  destruct ((number =? 0) || (count =? 0)); [by exists s|]. destruct (_ || _) eqn:Hr; [by exists s|].
  destruct (bi_dev _ Hi d x Hd) as (Hdn & Hb & Hc0 & Hsz & _). apply orb_false_iff in Hr as [Hr1 Hr2]. bools.
  match goal with |- context [reg ?src] => destruct (Hreg s src) as (r & s' & Hr & Hm) end; [done| |].
  - split; [done|]. split_and!; cbn; [lia|lia|lia|lia|nia|]. exists d, x. by split_and!; try lia.
  - rewrite (bind_ret _ _ _ _ _ Hr). by exists s'.
Qed.

Lemma rd_le_nonneg l off n : Forall (fun b => 0 <= b) l -> 0 <= rd_le l off n.
Proof.
  intros Hl. unfold rd_le. assert (H : Forall (fun b => 0 <= b) (take n (drop off l))) by by apply Forall_take, Forall_drop.
  induction H as [|b m Hb Hm IH]; cbn; lia.
Qed.

Lemma gpt_loop_more n i s lba size :
  blk_inv s -> devices s !! d = Some x -> 0 <= i -> 0 < size < 2 ^ 32 ->
  exists s', gpt_loop n i reg d lba size s = Ret tt s' /\ more s s'.
Proof.
  revert i s. induction n as [|n IH]; intros i s Hi Hd Hi0 Hsz; cbn [gpt_loop]; [by exists s|].
  unfold get_bdev at 1. unfold bind at 1. rewrite Hd. cbv zeta. destruct (_ <? _); [by exists s|].
  match goal with |- context [block_read d ?o size] => destruct (block_read_total s d x o size Hi Hd) as (r & l & s1 & Hr & Hq & Hb) end;
    [apply u64_range|lia|].
  rewrite (bind_ret _ _ _ _ _ Hr). cbn [fst snd]. pose proof (quiet_more s s1 Hi Hq) as Hm1.
  destruct (Z.eqb_spec r 0) as [->|Hz]; cbn [negb]; [|by exists s1]. specialize (Hb eq_refl).
  pose proof (more_some _ _ _ _ Hm1 Hd) as Hd1. destruct (negb (guid_is_zero l) && _); cbn [when].
  - destruct (register_partition_more s1 (u32 (i + 1)) (rd64 l 32) (u64 (rd64 l 40 - rd64 l 32 + 1)) (proj1 Hm1) Hd1)
      as (s2 & Hs2 & Hm2); [by apply rd_le_nonneg|apply u64_range|].
    rewrite (bind_ret _ _ _ _ _ Hs2).
    destruct (IH (i + 1) s2 (proj1 Hm2)) as (s3 & Hs3 & Hm3); [by eapply more_some|lia|done|].
    exists s3. split; [done|]. eapply more_trans; [done|]. by eapply more_trans.
  - rewrite (bind_ret (ret tt) _ s1 tt s1 eq_refl).
    destruct (IH (i + 1) s1 (proj1 Hm1) Hd1) as (s3 & Hs3 & Hm3); [lia|done|].
    exists s3. split; [done|]. by eapply more_trans.
Qed.

Lemma probe_gpt_more s :
  blk_inv s -> devices s !! d = Some x -> exists r s', block_probe_gpt reg d s = Ret r s' /\ more s s'.
Proof.
  intros Hi Hd. destruct (bi_dev _ Hi d x Hd) as (_ & Hb & _). unfold block_probe_gpt.
  unfold get_bdev at 1. unfold bind at 1. rewrite Hd. destruct (_ || _); [by do 2 eexists|].
  destruct (call_quiet (kzalloc_ok (block_size x)) s) as (ok & s1 & Hk & Hq). rewrite (bind_ret (kzalloc _) _ _ _ _ Hk).
  pose proof (quiet_more s s1 Hi Hq) as Hm1. destruct ok; cbn [negb]; [|by do 2 eexists].
  pose proof (more_some _ _ _ _ Hm1 Hd) as Hd1.
  destruct (block_read_total s1 d x (block_size x) (block_size x) (proj1 Hm1) Hd1) as (r & l & s2 & Hr & Hq2 & _); [lia|lia|].
  rewrite (bind_ret _ _ _ _ _ Hr). cbn [fst snd]. pose proof (more_trans _ _ _ Hm1 (quiet_more s1 s2 (proj1 Hm1) Hq2)) as Hm2.
  destruct (negb (r =? 0)); [by do 2 eexists|]. destruct (negb _); [by do 2 eexists|]. cbv zeta.
  destruct (_ || _) eqn:Hes; [by do 2 eexists|]. destruct (block_count x <=? _); [by do 2 eexists|].
  destruct (call_quiet (kzalloc_ok (rd32 l 84)) s2) as (ok & s3 & Hk3 & Hq3). rewrite (bind_ret (kzalloc _) _ _ _ _ Hk3).
  pose proof (more_trans _ _ _ Hm2 (quiet_more s2 s3 (proj1 Hm2) Hq3)) as Hm3. destruct ok; cbn [negb]; [|by do 2 eexists].
  apply orb_false_iff in Hes as [Hes _]. bools.
  destruct (gpt_loop_more (Z.to_nat (rd32 l 80)) 0 s3 (rd64 l 72) (rd32 l 84) (proj1 Hm3)) as (s4 & Hs4 & Hm4);
    [by eapply more_some|lia|lia|].
  rewrite (bind_ret _ _ _ _ _ Hs4). exists 0, s4. split; [done|]. by eapply more_trans.
Qed.

Lemma mbr_loop_more l s mbr :
  blk_inv s -> devices s !! d = Some x -> Forall (fun b => 0 <= b) mbr ->
  exists s', mbr_loop l reg d mbr s = Ret tt s' /\ more s s'.
Proof.
  revert s. induction l as [|i l IH]; intros s Hi Hd Hb; cbn [mbr_loop]; [by exists s|]. cbv zeta.
  assert (He : Forall (fun b => 0 <= b) (mbr_entry mbr i)) by by apply Forall_drop.
  destruct (negb _); cbn [when].
  - destruct (register_partition_more s (Z.of_nat i + 1) (rd32 (mbr_entry mbr i) 8) (rd32 (mbr_entry mbr i) 12) Hi Hd)
      as (s2 & Hs2 & Hm2); [by apply rd_le_nonneg..|].
    rewrite (bind_ret _ _ _ _ _ Hs2). destruct (IH s2 (proj1 Hm2)) as (s3 & Hs3 & Hm3); [by eapply more_some|done|].
    exists s3. split; [done|]. by eapply more_trans.
  - rewrite (bind_ret (ret tt) _ s tt s eq_refl). by apply IH.
Qed.

Lemma probe_mbr_more s :
  blk_inv s -> devices s !! d = Some x -> exists s', block_probe_mbr reg d s = Ret tt s' /\ more s s'.
Proof.
  intros Hi Hd. unfold block_probe_mbr. unfold get_bdev at 1. unfold bind at 1. rewrite Hd.
  destruct (_ || _ || _); [by exists s|].
  destruct (call_quiet (kzalloc_ok (block_size x)) s) as (ok & s1 & Hk & Hq). rewrite (bind_ret (kzalloc _) _ _ _ _ Hk).
  pose proof (quiet_more s s1 Hi Hq) as Hm1. destruct ok; cbn [negb]; [|by exists s1].
  pose proof (more_some _ _ _ _ Hm1 Hd) as Hd1.
  destruct (block_read_total s1 d x 0 512 (proj1 Hm1) Hd1) as (r & l & s2 & Hr & Hq2 & Hb); [lia|lia|].
  rewrite (bind_ret _ _ _ _ _ Hr). cbn [fst snd]. pose proof (more_trans _ _ _ Hm1 (quiet_more s1 s2 (proj1 Hm1) Hq2)) as Hm2.
  destruct (Z.eqb_spec r 0) as [->|Hz]; cbn [negb]; [|by exists s2]. destruct (_ || _); [by exists s2|].
  destruct (protective_gpt l).
  - destruct (probe_gpt_more s2 (proj1 Hm2)) as (r & s3 & Hr3 & Hm3); [by eapply more_some|].
    rewrite (bind_ret _ _ _ _ _ Hr3). exists s3. split; [done|]. by eapply more_trans.
  - destruct (mbr_loop_more (seq 0 4) s2 l (proj1 Hm2)) as (s3 & Hs3 & Hm3); [by eapply more_some|by apply Hb|].
    exists s3. split; [done|]. by eapply more_trans.
Qed.
End probe.

(** A driver's device, before it is registered. *)
Definition driver_src (s : blk W) (src : block_device) : Prop :=
  d_ops src = driver_ops /\ d_parent src = None /\ sector (next_dev s) = block_size src /\
  0 < block_size src < 2 ^ 32 /\ 0 <= block_count src /\ block_count src * block_size src < 2 ^ 64.

(** C13: registering a disk, whatever bytes it holds.  The call returns; the devices there
    were are still there; all devices have different names, and every partition, from
    whichever table, lies inside of the disk it was found on, so that every access to a
    registered device is an access to the part of a disk the device stands for. *)
Theorem block_register_inv src (s : blk W) :
  blk_inv s -> driver_src s src ->
  exists r s', block_register src s = Ret r s' /\ blk_inv s' /\ devices s ⊆ devices s' /\
    forall d x, devices s' !! d = Some x -> exists root base, window s' d x root base.
Proof.
  intros Hi (Ho & Hp & Hsec & Hb & Hc & Hsz).
  destruct (register_go 2 src s Hi) as (r & s' & Hr & Hm).
  - split_and!; cbn; [lia|lia|lia|lia|lia|]. by rewrite Ho.
  - intros s1 x d Hi1 Hd Hx. apply (probe_mbr_more _ (register_parts 1) d x); [congruence|done|done].
  - exists r, s'. split_and!; [done|apply Hm|apply Hm|]. intros d x Hd. by apply inv_window; [apply Hm|].
Qed.
End tables.
