(* ===== verification/BlockExamples.v ===== *)
(** * A disk in memory, with two partitions *)

From stdpp Require Import base list gmap.
From Stdlib Require Import ZArith Lia.
From S2P Require Import Prelude Block BlockProps BlockTables.

Local Open Scope Z_scope.

(** The bytes of every device; sectors of 512 bytes. *)
Definition ram : Type := Z -> Z -> Z.
Definition ram_put (d lo : Z) (buf : list Z) (w : ram) : ram :=
  let hi := lo + Z.of_nat (length buf) in
  fun e y => if (e =? d) && (lo <=? y) && (y <? hi) then nth (Z.to_nat (y - lo)) buf 0 else w e y.
Lemma ram_put_eq d lo buf w e y : ram_put d lo buf w e y =
  if bool_decide (e = d /\ lo <= y < lo + Z.of_nat (length buf)) then nth (Z.to_nat (y - lo)) buf 0 else w e y.
Proof.
  unfold ram_put. cbv zeta. case_bool_decide as H.
  - destruct H as [-> H]. by rewrite Z.eqb_refl, (proj2 (Z.leb_le lo y)), (proj2 (Z.ltb_lt y _)) by lia.
  - destruct (Z.eqb_spec e d) as [->|]; [|done]. destruct (Z.leb_spec lo y); [|done]. destruct (Z.ltb_spec y (lo + Z.of_nat (length buf))); [|done].
    by destruct H.
Qed.

#[export] Instance ram_env : BlockEnv ram := {
  drv_read d lba count w := (0, map (fun i => u8 (w d (lba * 512 + i))) (seqZ 0 (count * 512)), w);
  drv_write d lba count buf w := (0, ram_put d (lba * 512) buf w);
  drv_flush _ w := (0, w);
  kzalloc_ok _ w := (true, w);
  devfs_register_chr _ _ _ w := (0, w) }.

#[export] Program Instance ram_laws : BlockLaws ram := {
  medium w d x := u8 (w d x);
  sector _ := 512 }.
Next Obligation. intros w d x. cbn. unfold u8. apply Z.mod_pos_bound. lia. Qed.
Next Obligation. intros w d lba count _ _. by do 3 eexists. Qed.
Next Obligation.
  intros w d lba count buf Hl Hc Hb. do 2 eexists. split; [done|]. split.
  - intros e x Hx. rewrite ram_put_eq, bool_decide_eq_false_2; [done|]. intros [-> H]. destruct Hx as [Hx|Hx]; [done|lia].
  - intros _ i Hi. rewrite ram_put_eq, bool_decide_eq_true_2 by (split; [done|lia]). do 2 f_equal. lia.
Qed.
Next Obligation. intros w n. by exists true, w. Qed.

(** A partition table: one Linux partition at sector 1 of 4 sectors, one at sector 8 of 100,
    which does not fit on a disk of 64 sectors, and one at sector 8 of 8. *)
Definition ex_entry (start count : Z) : list Z := [0; 0; 0; 0; 131; 0; 0; 0; start; 0; 0; 0; count; 0; 0; 0].
Definition ex_mbr : list Z :=
  replicate 446 0 ++ ex_entry 1 4 ++ ex_entry 8 100 ++ ex_entry 8 8 ++ replicate 16 0 ++ [85; 170].
Definition ex_ram : ram := ram_put 1 0 ex_mbr (fun _ _ => 0).
Definition ex_blk : blk ram := mkBlk ∅ [] 1 ex_ram.
Definition ex_disk : block_device := mkDev [118; 100; 97] 512 64 0 driver_ops true true false None.
Definition ex_part (name : Z) (start count : Z) : block_device :=
  mkDev [118; 100; 97; 112; name] 512 count start part_ops true true true (Some 1).
Definition ex_ready : blk ram := final (block_register ex_disk) ex_blk.

Lemma ex_blk_inv : blk_inv ex_blk.
Proof. split; [done|by intros d ?%elem_of_nil|by intros d d' x x' ?%elem_of_nil]. Qed.
Lemma ex_driver : driver_src ex_blk ex_disk.
Proof. repeat split; cbn; lia. Qed.
Lemma ex_devices :
  block_devices ex_ready = [3; 2; 1] /\ devices ex_ready !! 1 = Some ex_disk /\
  devices ex_ready !! 2 = Some (ex_part 49 1 4) /\ devices ex_ready !! 3 = Some (ex_part 51 8 8).
Proof. vm_compute. repeat split. Qed.

Lemma block_register_inv_witness : exists r s',
  block_register ex_disk ex_blk = Ret r s' /\ devices s' !! 2 = Some (ex_part 49 1 4) /\
  exists root base, window s' 2 (ex_part 49 1 4) root base.
Proof.
  destruct (block_register_inv ex_disk ex_blk ex_blk_inv ex_driver) as (r & s' & Hr & _ & _ & Hw).
  pose proof ex_devices as (_ & _ & Hd & _). unfold ex_ready, final in Hd. rewrite Hr in Hd.
  exists r, s'. split; [exact Hr|]. split; [exact Hd|]. exact (Hw 2 _ Hd).
Defined.

(** A write over the end of a sector of the first partition, read back from the disk. *)
Definition ex_wins (d : Z) : option (block_device * Z * Z) :=
  if d =? 1 then Some (ex_disk, 1, 0) else if d =? 2 then Some (ex_part 49 1 4, 1, 512) else None.
Definition ex_bops : list bop := [BWrite 2 510 [1; 2; 3; 4; 5]; BRead 1 1020 8].

Lemma ex_windows : windows ex_ready ex_wins.
Proof.
  pose proof ex_devices as (_ & H1 & H2 & _). intros d x root base. unfold ex_wins.
  destruct (Z.eqb_spec d 1) as [->|_].
  - injection 1 as <- <- <-. split; [exact H1|cbn; lia|cbn; lia|done|done].
  - destruct (Z.eqb_spec d 2) as [->|_]; [|done]. injection 1 as <- <- <-.
    split; [exact H2|cbn; lia|cbn; lia|done|]. cbn. split_and!; [done|lia|lia|]. exists ex_disk.
    split_and!; [exact H1|done|done|cbn; lia|cbn; lia].
Qed.
Lemma ex_bops_ok : Forall (bop_ok ex_wins) ex_bops.
Proof.
  repeat constructor.
  - exists (ex_part 49 1 4), 1, 512. split_and!; [done|done|lia|cbn; lia|unfold size_of; cbn; lia].
  - exists ex_disk, 1, 0. split_and!; [done|lia|lia|lia|unfold size_of; cbn; lia].
Qed.
Definition statuses (o : outcome (blk ram) (list (Z * list Z))) : list Z :=
  match o with Ret rs _ => map fst rs | _ => [] end.
Lemma ex_statuses : statuses (run_bops ex_bops ex_ready) = [0; 0].
Proof. vm_compute. reflexivity. Qed.
Lemma ex_abs : (abs_bops ex_wins ex_bops (medium (world ex_ready))).1 = [[]; [0; 0; 1; 2; 3; 4; 5; 0]].
Proof. vm_compute. reflexivity. Qed.

Lemma block_bytes_refine_witness : exists rs s',
  run_bops ex_bops ex_ready = Ret rs s' /\ map snd rs = [[]; [0; 0; 1; 2; 3; 4; 5; 0]].
Proof.
  destruct (block_bytes_refine ex_wins ex_bops ex_ready ex_windows ex_bops_ok) as (rs & s' & Hr & Hok).
  exists rs, s'. split; [exact Hr|]. pose proof ex_statuses as Hs. rewrite Hr in Hs. cbn in Hs.
  destruct Hok as [Hb _].
  - destruct rs as [|[a l] [|[b m] [|c rs]]]; try discriminate Hs. cbn in Hs. injection Hs as -> ->. repeat constructor.
  - rewrite Hb. exact ex_abs.
Defined.
