(* ===== verification/Ext2.v ===== *)
(** * ext2: blocks, inodes and files (kernel/src/fs/ext2.c)

    The super block, the group descriptors and the inodes are kept as the bytes they are on
    the disk, and their fields are read and written in place.  The block device, the heap
    and the calls into the virtual file system are the class [Ext2Env]. *)

From stdpp Require Import base list gmap.
From Stdlib Require Import ZArith Lia.
From S2P Require Import Prelude.

Local Open Scope Z_scope.

Definition ENOENT : Z := 2.
Definition EBADF : Z := 9.
Definition ENOMEM : Z := 12.
Definition EEXIST : Z := 17.
Definition EXDEV : Z := 18.
Definition ENOTDIR : Z := 20.
Definition EISDIR : Z := 21.
Definition EINVAL : Z := 22.
Definition ENAMETOOLONG : Z := 36.
Definition ENOSYS : Z := 38.
Definition ENOTEMPTY : Z := 39.

Definition EXT2_SUPER_OFFSET : Z := 1024.
Definition EXT2_SUPER_MAGIC : Z := 61267.
Definition EXT2_ROOT_INO : Z := 2.
Definition INODE_CACHE_SIZE : nat := 64.
Definition VFS_S_IFMT : Z := 61440.
Definition VFS_S_IFREG : Z := 32768.
Definition VFS_S_IFDIR : Z := 16384.
Definition VFS_S_IFLNK : Z := 40960.
Definition VFS_S_PERM : Z := 4095.
Definition VFS_S_ISREG (m : Z) : bool := Z.land m VFS_S_IFMT =? VFS_S_IFREG.
Definition VFS_S_ISDIR (m : Z) : bool := Z.land m VFS_S_IFMT =? VFS_S_IFDIR.
Definition VFS_S_ISLNK (m : Z) : bool := Z.land m VFS_S_IFMT =? VFS_S_IFLNK.

(** ** Fields in bytes *)

Definition g16 (l : list Z) (off : nat) : Z := nth off l 0 + 256 * nth (off + 1) l 0.
Definition g32 (l : list Z) (off : nat) : Z := g16 l off + 65536 * g16 l (off + 2).
Definition put_bytes (l : list Z) (off : nat) (b : list Z) : list Z := take off l ++ b ++ drop (off + length b) l.
Definition b16 (v : Z) : list Z := [v `mod` 256; (v / 256) `mod` 256].
Definition b32 (v : Z) : list Z := b16 v ++ b16 (v / 65536).
Definition p16 (l : list Z) (off : nat) (v : Z) : list Z := put_bytes l off (b16 v).
Definition p32 (l : list Z) (off : nat) (v : Z) : list Z := put_bytes l off (b32 v).

(** [ext2_super_t] *)
Definition sizeof_super : Z := 200.
Definition inodes_count (sb : list Z) : Z := g32 sb 0.
Definition blocks_count (sb : list Z) : Z := g32 sb 4.
Definition sb_free_blocks (sb : list Z) : Z := g32 sb 12.
Definition sb_free_inodes (sb : list Z) : Z := g32 sb 16.
Definition first_data_block (sb : list Z) : Z := g32 sb 20.
Definition log_block_size (sb : list Z) : Z := g32 sb 24.
Definition blocks_per_group (sb : list Z) : Z := g32 sb 32.
Definition inodes_per_group (sb : list Z) : Z := g32 sb 40.
Definition magic (sb : list Z) : Z := g16 sb 56.
Definition sb_inode_size (sb : list Z) : Z := g16 sb 88.
Definition feature_incompat (sb : list Z) : Z := g32 sb 96.
(** [ext2_group_desc_t], the [g]-th of an array *)
Definition sizeof_group : nat := 32.
Definition block_bitmap (gs : list Z) (g : nat) : Z := g32 gs (g * sizeof_group).
Definition inode_bitmap (gs : list Z) (g : nat) : Z := g32 gs (g * sizeof_group + 4).
Definition inode_table (gs : list Z) (g : nat) : Z := g32 gs (g * sizeof_group + 8).
Definition gd_free_blocks (gs : list Z) (g : nat) : Z := g16 gs (g * sizeof_group + 12).
Definition gd_free_inodes (gs : list Z) (g : nat) : Z := g16 gs (g * sizeof_group + 14).
(** [ext2_inode_t] *)
Definition sizeof_inode : Z := 128.
Definition i_mode (i : list Z) : Z := g16 i 0.
Definition i_uid (i : list Z) : Z := g16 i 2.
Definition size_lo (i : list Z) : Z := g32 i 4.
Definition i_gid (i : list Z) : Z := g16 i 24.
Definition links_count (i : list Z) : Z := g16 i 26.
Definition i_blocks (i : list Z) : Z := g32 i 28.
Definition i_block (i : list Z) (k : nat) : Z := g32 i (40 + 4 * k).
Definition size_high (i : list Z) : Z := g32 i 108.
Definition set_links (i : list Z) (v : Z) : list Z := p16 i 26 v.
Definition set_blocks (i : list Z) (v : Z) : list Z := p32 i 28 v.
Definition set_block (i : list Z) (k : nat) (v : Z) : list Z := p32 i (40 + 4 * k) v.
Definition set_size (i : list Z) (v : Z) : list Z := p32 (p32 i 4 v) 108 (v / 2 ^ 32).

(** ** State *)

(** [ext2_node_t]: the node of the file system layer, and the inode. *)
Record ext2_node := mkNode {
  vn_mode : Z; vn_uid : Z; vn_gid : Z; vn_size : Z; vn_nlink : Z; vn_refs : Z;
  n_fs : Z; n_ino : Z; n_inode : list Z }.
(** [ext2_fs]; a place of the cache holds a node, 0 for none, and its number. *)
Record ext2_fs := mkFs {
  f_dev : Z; dev_id : Z; f_sb : list Z; block_size : Z; group_count : Z; gd_off : Z; groups : list Z;
  f_root : Z; mount_path : list Z; inode_cache : list (Z * Z) }.
Record ext2 (D : Type) := mkExt {
  fss : gmap Z ext2_fs; nodes : gmap Z ext2_node; mounts : list Z; mounts_published : bool; mount_count : Z;
  next_ext2_dev_id : Z; next_addr : Z; disk : D }.
Arguments mkExt {D} _ _ _ _ _ _ _ _.
Arguments fss {D} _.
Arguments nodes {D} _.
Arguments mounts {D} _.
Arguments mounts_published {D} _.
Arguments mount_count {D} _.
Arguments next_ext2_dev_id {D} _.
Arguments next_addr {D} _.
Arguments disk {D} _.

Class Ext2Env (D : Type) := {
  block_read : Z -> Z -> Z -> M D (Z * list Z);
  block_write : Z -> Z -> list Z -> M D Z;
  block_flush : Z -> M D Z;
  dev_name : Z -> M D (list Z);
  kzalloc : Z -> M D bool;
  devfs_register_chr : list Z -> Z -> M D Z;
  vfs_mkdir : list Z -> Z -> M D Z;
  vfs_mount : list Z -> Z -> M D Z;
  procfs_note_mount : list Z -> list Z -> M D Z }.

Section ext2.
Context {D : Type} {env : Ext2Env D}.
Abbreviation E := (M (ext2 D)).

Definition set_disk (s : ext2 D) (d : D) : ext2 D :=
  mkExt (fss s) (nodes s) (mounts s) (mounts_published s) (mount_count s) (next_ext2_dev_id s) (next_addr s) d.
Definition set_fss (s : ext2 D) (f : gmap Z ext2_fs) : ext2 D :=
  mkExt f (nodes s) (mounts s) (mounts_published s) (mount_count s) (next_ext2_dev_id s) (next_addr s) (disk s).
Definition set_nodes (s : ext2 D) (n : gmap Z ext2_node) : ext2 D :=
  mkExt (fss s) n (mounts s) (mounts_published s) (mount_count s) (next_ext2_dev_id s) (next_addr s) (disk s).

Definition lift {A} (m : M D A) : E A := fun s =>
  match m (disk s) with Ret a d => Ret a (set_disk s d) | Panic => Panic | Fault => Fault | Diverge => Diverge end.
Definition get_fs (f : Z) : E ext2_fs := fun s => match fss s !! f with Some x => Ret x s | None => Fault end.
Definition put_fs (f : Z) (x : ext2_fs) : E unit := modify (fun s => set_fss s (<[f := x]> (fss s))).
Definition get_node (n : Z) : E ext2_node := fun s => match nodes s !! n with Some x => Ret x s | None => Fault end.
Definition put_node (n : Z) (x : ext2_node) : E unit := modify (fun s => set_nodes s (<[n := x]> (nodes s))).
Definition new_addr : E Z := fun s =>
  Ret (next_addr s) (mkExt (fss s) (nodes s) (mounts s) (mounts_published s) (mount_count s) (next_ext2_dev_id s)
                       (next_addr s + 1) (disk s)).

Definition with_inode (x : ext2_node) (i : list Z) : ext2_node :=
  mkNode (vn_mode x) (vn_uid x) (vn_gid x) (vn_size x) (vn_nlink x) (vn_refs x) (n_fs x) (n_ino x) i.
Definition with_size (x : ext2_node) (v : Z) : ext2_node :=
  mkNode (vn_mode x) (vn_uid x) (vn_gid x) v (vn_nlink x) (vn_refs x) (n_fs x) (n_ino x) (n_inode x).
Definition with_nlink (x : ext2_node) (v : Z) : ext2_node :=
  mkNode (vn_mode x) (vn_uid x) (vn_gid x) (vn_size x) v (vn_refs x) (n_fs x) (n_ino x) (n_inode x).
Definition with_refs (x : ext2_node) (v : Z) : ext2_node :=
  mkNode (vn_mode x) (vn_uid x) (vn_gid x) (vn_size x) (vn_nlink x) v (n_fs x) (n_ino x) (n_inode x).
Definition with_counts (x : ext2_fs) (sb gs : list Z) : ext2_fs :=
  mkFs (f_dev x) (dev_id x) sb (block_size x) (group_count x) (gd_off x) gs (f_root x) (mount_path x) (inode_cache x).

(** [vfs_node_ref], and [vfs_node_release] with [ext2_release]. *)
Definition vfs_node_ref (n : Z) : E unit := let* x := get_node n in put_node n (with_refs x (u32 (vn_refs x + 1))).
Definition ext2_release (n : Z) : E unit := modify (fun s => set_nodes s (delete n (nodes s))).
Definition vfs_node_release (n : Z) : E unit :=
  let* x := get_node n in
  if vn_refs x =? 0 then ret tt
  else
    let r := u32 (vn_refs x - 1) in
    put_node n (with_refs x r) ;;;
    when (r =? 0) (ext2_release n).

Definition file_type_for_mode (mode : Z) : Z :=
  if VFS_S_ISREG mode then 1 else if VFS_S_ISDIR mode then 2 else 0.
Definition inode_size (i : list Z) : Z :=
  if VFS_S_ISREG (i_mode i) then Z.lor (size_lo i) (size_high i * 2 ^ 32) else size_lo i.

(** ** Blocks *)

Definition read_block (f block : Z) : E (Z * list Z) :=
  let* x := get_fs f in lift (block_read (f_dev x) (block * block_size x) (block_size x)).
Definition write_block (f block : Z) (buf : list Z) : E Z :=
  let* x := get_fs f in lift (block_write (f_dev x) (block * block_size x) buf).
Definition write_metadata (f : Z) : E Z :=
  let* x := get_fs f in
  let* r := lift (block_write (f_dev x) EXT2_SUPER_OFFSET (f_sb x)) in
  if negb (r =? 0) then ret r else lift (block_write (f_dev x) (gd_off x) (groups x)).

(** Where an inode is on the disk, [None] when there is no such inode.  Dividing by zero
    inodes in a group faults. *)
Definition inode_place (f ino : Z) : E (option (Z * Z)) :=
  let* x := get_fs f in
  if (ino =? 0) || (inodes_count (f_sb x) <? ino) then ret None
  else if inodes_per_group (f_sb x) =? 0 then fault
  else
    let group := (ino - 1) / inodes_per_group (f_sb x) in
    let index := (ino - 1) `mod` inodes_per_group (f_sb x) in
    if group_count x <=? group then ret None
    else
      let isize := if sb_inode_size (f_sb x) =? 0 then 128 else sb_inode_size (f_sb x) in
      ret (Some (f_dev x, inode_table (groups x) (Z.to_nat group) * block_size x + index * isize)).
Definition read_inode (f ino : Z) : E (Z * list Z) :=
  let* p := inode_place f ino in
  match p with
  | None => ret (- ENOENT, [])
  | Some (dev, off) => lift (block_read dev off sizeof_inode)
  end.
Definition write_inode (f ino : Z) (i : list Z) : E Z :=
  let* p := inode_place f ino in
  match p with
  | None => ret (- ENOENT)
  | Some (dev, off) => lift (block_write dev off i)
  end.
(** [write_inode(node->fs, node->ino, &node->inode)] *)
Definition sync_inode (n : Z) : E Z := let* x := get_node n in write_inode (n_fs x) (n_ino x) (n_inode x).

(** The status and the node, counted. *)
Definition alloc_ext2_node (f ino : Z) : E (Z * Z) :=
  let* x := get_fs f in
  match list_find (fun p => p.2 = ino /\ p.1 <> 0) (inode_cache x) with
  | Some (_, (n, _)) => vfs_node_ref n ;;; ret (0, n)
  | None =>
      let* ok := lift (kzalloc 248) in
      if negb ok then ret (- ENOMEM, 0)
      else
        let* r := read_inode f ino in
        if negb (r.1 =? 0) then ret (r.1, 0)
        else
          let i := r.2 in
          let* n := new_addr in
          put_node n (mkNode (i_mode i) (i_uid i) (i_gid i) (inode_size i) (links_count i) 1 f ino i) ;;;
          match list_find (fun p => p.1 = 0) (inode_cache x) with
          | Some (k, _) =>
              vfs_node_ref n ;;;
              let* x := get_fs f in
              put_fs f (mkFs (f_dev x) (dev_id x) (f_sb x) (block_size x) (group_count x) (gd_off x) (groups x) (f_root x)
                          (mount_path x) (<[k := (n, ino)]> (inode_cache x))) ;;;
              ret (0, n)
          | None => ret (0, n)
          end
  end.

(** The first clear bit below [n] more from [bit]; [None]: there is none. *)
Fixpoint bitmap_scan (n : nat) (bit : Z) (bitmap : list Z) : E (option Z) :=
  match n with
  | O => ret None
  | S n =>
      if Z.of_nat (length bitmap) <=? bit / 8 then fault
      else if Z.testbit (nth (Z.to_nat (bit / 8)) bitmap 0) (bit `mod` 8) then bitmap_scan n (bit + 1) bitmap
      else ret (Some bit)
  end.
Definition set_bit (bitmap : list Z) (bit : Z) : list Z :=
  put_bytes bitmap (Z.to_nat (bit / 8)) [Z.lor (nth (Z.to_nat (bit / 8)) bitmap 0) (2 ^ (bit `mod` 8))].
(** The status and the bit. *)
Definition bitmap_alloc (f bitmap_block max_bits : Z) : E (Z * Z) :=
  let* x := get_fs f in
  let* ok := lift (kzalloc (block_size x)) in
  if negb ok then ret (- ENOMEM, 0)
  else
    let* r := read_block f bitmap_block in
    if negb (r.1 =? 0) then ret (r.1, 0)
    else
      let* b := bitmap_scan (Z.to_nat max_bits) 0 r.2 in
      match b with
      | None => ret (- ENOSYS, 0)
      | Some bit =>
          let* e := write_block f bitmap_block (set_bit r.2 bit) in
          if negb (e =? 0) then ret (e, 0) else ret (0, bit)
      end.

(** [for (group = 0; group < group_count; group++)]; the status and the block, whose bytes
    are zero. *)
Fixpoint alloc_block_loop (n : nat) (group : nat) (f : Z) : E (Z * Z) :=
  match n with
  | O => ret (- ENOSYS, 0)
  | S n =>
      let* x := get_fs f in
      if gd_free_blocks (groups x) group =? 0 then alloc_block_loop n (S group) f
      else
        let* r := bitmap_alloc f (block_bitmap (groups x) group) (blocks_per_group (f_sb x)) in
        if negb (r.1 =? 0) then alloc_block_loop n (S group) f
        else
          let block := u32 (Z.of_nat group * blocks_per_group (f_sb x) + r.2 + first_data_block (f_sb x)) in
          if blocks_count (f_sb x) <=? block then ret (- EINVAL, 0)
          else
            put_fs f (with_counts x (p32 (f_sb x) 12 (sb_free_blocks (f_sb x) - 1))
                        (p16 (groups x) (group * sizeof_group + 12) (gd_free_blocks (groups x) group - 1))) ;;;
            let* e := write_metadata f in
            if negb (e =? 0) then ret (e, 0)
            else
              let* ok := lift (kzalloc (block_size x)) in
              if negb ok then ret (- ENOMEM, 0)
              else
                let* e := write_block f block (replicate (Z.to_nat (block_size x)) 0) in
                if negb (e =? 0) then ret (e, 0) else ret (0, block)
  end.
Definition alloc_block (f : Z) : E (Z * Z) :=
  let* x := get_fs f in alloc_block_loop (Z.to_nat (group_count x)) 0 f.
Fixpoint alloc_inode_loop (n : nat) (group : nat) (f : Z) : E (Z * Z) :=
  match n with
  | O => ret (- ENOSYS, 0)
  | S n =>
      let* x := get_fs f in
      if gd_free_inodes (groups x) group =? 0 then alloc_inode_loop n (S group) f
      else
        let* r := bitmap_alloc f (inode_bitmap (groups x) group) (inodes_per_group (f_sb x)) in
        if negb (r.1 =? 0) then alloc_inode_loop n (S group) f
        else
          let ino := u32 (Z.of_nat group * inodes_per_group (f_sb x) + r.2 + 1) in
          if (ino =? 0) || (inodes_count (f_sb x) <? ino) then ret (- EINVAL, 0)
          else
            put_fs f (with_counts x (p32 (f_sb x) 16 (sb_free_inodes (f_sb x) - 1))
                        (p16 (groups x) (group * sizeof_group + 14) (gd_free_inodes (groups x) group - 1))) ;;;
            let* e := write_metadata f in
            if negb (e =? 0) then ret (e, 0) else ret (0, ino)
  end.
Definition alloc_inode (f : Z) : E (Z * Z) :=
  let* x := get_fs f in alloc_inode_loop (Z.to_nat (group_count x)) 0 f.
End ext2.
