(* ===== verification/Ext2File.v ===== *)
(** * ext2: the blocks of a file, reading and writing (kernel/src/fs/ext2.c) *)

From stdpp Require Import base list gmap.
From Stdlib Require Import ZArith Lia.
From S2P Require Import Prelude Ext2.

Local Open Scope Z_scope.

Section files.
Context {D : Type} {env : Ext2Env D}.
Abbreviation E := (M (ext2 D)).

(** ** The block map *)

(** [while (depth-- > 1) span *= ptrs_per_block] *)
Fixpoint ext2_index_span (ppb : Z) (depth : nat) : Z :=
  match depth with
  | S (S _ as d) => u64 (ext2_index_span ppb d * ppb)
  | _ => 1
  end.

(** Entry [i] of a block of numbers. *)
Definition ptr (blk : list Z) (i : Z) : Z := g32 blk (Z.to_nat (4 * i)).
Definition set_ptr (blk : list Z) (i v : Z) : list Z := p32 blk (Z.to_nat (4 * i)) v.

(** The status and the block, 0 for a hole. *)
Fixpoint file_block_indirect (depth : nat) (f block file_block : Z) : E (Z * Z) :=
  match depth with
  | O => ret (- ENOSYS, 0)
  | S d =>
      if block =? 0 then ret (0, 0)
      else
        let* x := get_fs f in
        let ppb := block_size x / 4 in
        let span := ext2_index_span ppb depth in
        if u64 (span * ppb) <=? file_block then ret (- ENOSYS, 0)
        else
          let* ok := lift (kzalloc (block_size x)) in
          if negb ok then ret (- ENOMEM, 0)
          else
            let* r := read_block f block in
            if negb (r.1 =? 0) then ret (r.1, 0)
            else
              match d with
              | O => ret (0, ptr r.2 file_block)
              | _ => file_block_indirect d f (ptr r.2 (u32 (file_block / span))) (u32 (file_block `mod` span))
              end
  end.
Definition file_block (n file_block : Z) : E (Z * Z) :=
  let* x := get_node n in
  let* fs := get_fs (n_fs x) in
  let ppb := block_size fs / 4 in
  if file_block <? 12 then ret (0, i_block (n_inode x) (Z.to_nat file_block))
  else
    let b := u32 (file_block - 12) in
    if b <? ppb then file_block_indirect 1 (n_fs x) (i_block (n_inode x) 12) b
    else
      let b := u32 (b - ppb) in
      if b <? u64 (ppb * ppb) then file_block_indirect 2 (n_fs x) (i_block (n_inode x) 13) b
      else
        let b := u32 (b - u32 (u64 (ppb * ppb))) in
        if b <? u64 (u64 (ppb * ppb) * ppb) then file_block_indirect 3 (n_fs x) (i_block (n_inode x) 14) b
        else ret (- ENOSYS, 0).

(** [node->inode.blocks += block_size / 512] *)
Definition count_block (n : Z) : E unit :=
  let* x := get_node n in
  let* fs := get_fs (n_fs x) in
  put_node n (with_inode x (set_blocks (n_inode x) (i_blocks (n_inode x) + block_size fs / 512))).

(** The status, [*root] and [*out]. *)
Fixpoint ensure_file_block_indirect (depth : nat) (n f root file_block : Z) : E (Z * Z * Z) :=
  match depth with
  | O => ret (- ENOSYS, root, 0)
  | S d =>
      let* x := get_fs f in
      let ppb := block_size x / 4 in
      let span := ext2_index_span ppb depth in
      if u64 (span * ppb) <=? file_block then ret (- ENOSYS, root, 0)
      else
        let* a :=
          if root =? 0 then
            let* b := alloc_block f in
            if negb (b.1 =? 0) then ret (b.1, root)
            else
              count_block n ;;;
              let* e := sync_inode n in
              ret (e, b.2)
          else ret (0, root) in
        let root := a.2 in
        if negb (a.1 =? 0) then ret (a.1, root, 0)
        else
          let* ok := lift (kzalloc (block_size x)) in
          if negb ok then ret (- ENOMEM, root, 0)
          else
            let* r := read_block f root in
            if negb (r.1 =? 0) then ret (r.1, root, 0)
            else
              let slot := match d with O => file_block | _ => u32 (file_block / span) end in
              let* c :=
                if ptr r.2 slot =? 0 then
                  let* b := alloc_block f in
                  if negb (b.1 =? 0) then ret (b.1, 0)
                  else
                    count_block n ;;;
                    let* e := write_block f root (set_ptr r.2 slot b.2) in
                    if negb (e =? 0) then ret (e, 0) else let* e := sync_inode n in ret (e, b.2)
                else ret (0, ptr r.2 slot) in
              if negb (c.1 =? 0) then ret (c.1, root, 0)
              else
                match d with
                | O => ret (0, root, c.2)
                | _ =>
                    let* q := ensure_file_block_indirect d n f c.2 (u32 (file_block `mod` span)) in
                    ret (q.1.1, root, q.2)
                end
  end.

(** The branch of [ensure_file_block] for the index block [k]. *)
Definition ensure_root (k : nat) (depth : nat) (n file_block : Z) : E (Z * Z) :=
  let* x := get_node n in
  let* q := ensure_file_block_indirect depth n (n_fs x) (i_block (n_inode x) k) file_block in
  let '(r, root, out) := q in
  if negb (r =? 0) then ret (r, out)
  else
    let* x := get_node n in
    if i_block (n_inode x) k =? root then ret (0, out)
    else
      put_node n (with_inode x (set_block (n_inode x) k root)) ;;;
      let* e := sync_inode n in
      ret (e, out).
Definition ensure_file_block (n index : Z) : E (Z * Z) :=
  let* r := file_block n index in
  if negb (r.1 =? 0) || negb (r.2 =? 0) then ret r
  else
    let* x := get_node n in
    let* fs := get_fs (n_fs x) in
    let ppb := block_size fs / 4 in
    if index <? 12 then
      let* b := alloc_block (n_fs x) in
      if negb (b.1 =? 0) then ret b
      else
        let* x := get_node n in
        put_node n (with_inode x (set_block (n_inode x) (Z.to_nat index) b.2)) ;;;
        count_block n ;;;
        let* e := sync_inode n in
        ret (e, b.2)
    else
      let b := u32 (index - 12) in
      if b <? ppb then ensure_root 12 1 n b
      else
        let b := u32 (b - ppb) in
        if b <? u64 (ppb * ppb) then ensure_root 13 2 n b
        else
          let b := u32 (b - u32 (u64 (ppb * ppb))) in
          if b <? u64 (u64 (ppb * ppb) * ppb) then ensure_root 14 3 n b
          else ret (- ENOSYS, 0).

(** ** Reading and writing *)

(** [while (copied < len)], [acc] the bytes so far. *)
Fixpoint read_loop (fuel : nat) (n f bs off len copied : Z) (acc : list Z) : E (Z * list Z) :=
  match fuel with
  | O => diverge
  | S fuel =>
      if len <=? copied then ret (0, acc)
      else
        let pos := u64 (off + copied) in
        let boff := pos `mod` bs in
        let chunk := Z.min (bs - boff) (len - copied) in
        let* r := file_block n (u32 (pos / bs)) in
        if negb (r.1 =? 0) then ret (r.1, [])
        else if negb (r.2 =? 0) then
          let* b := read_block f r.2 in
          if negb (b.1 =? 0) then ret (b.1, [])
          else read_loop fuel n f bs off len (copied + chunk) (acc ++ take (Z.to_nat chunk) (drop (Z.to_nat boff) b.2))
        else read_loop fuel n f bs off len (copied + chunk) (acc ++ replicate (Z.to_nat chunk) 0)
  end.
Definition read_all (n f off len : Z) : E (Z * list Z) :=
  let* fs := get_fs f in
  let* ok := lift (kzalloc (block_size fs)) in
  if negb ok then ret (- ENOMEM, []) else read_loop (S (Z.to_nat len)) n f (block_size fs) off len 0 [].

(** The status and the bytes. *)
Definition ext2_read (n off len : Z) : E (Z * list Z) :=
  let* x := get_node n in
  let clip := if vn_size x - off <? len then vn_size x - off else len in
  if VFS_S_ISLNK (vn_mode x) then
    if (vn_size x <=? off) || (len =? 0) then ret (0, [])
    else if vn_size x <? 60 then ret (0, take (Z.to_nat clip) (drop 40 (n_inode x)))
    else read_all n (n_fs x) off clip
  else if negb (VFS_S_ISREG (vn_mode x)) then ret (- EISDIR, [])
  else if (vn_size x <=? off) || (len =? 0) then ret (0, [])
  else read_all n (n_fs x) off clip.

(** One round of the loop of [ext2_write]: the status. *)
Definition write_round (n f bs pos : Z) (data : list Z) : E Z :=
  let boff := pos `mod` bs in
  let* r := ensure_file_block n (u32 (pos / bs)) in
  if negb (r.1 =? 0) then ret r.1
  else
    let* b := if negb (boff =? 0) || negb (Z.of_nat (length data) =? bs) then read_block f r.2
              else ret (0, replicate (Z.to_nat bs) 0) in
    if negb (b.1 =? 0) then ret b.1
    else write_block f r.2 (put_bytes b.2 (Z.to_nat boff) data).
(** The status; [copied] bytes were written.  An error behind the first round ends the call
    with 0. *)
Fixpoint write_loop (fuel : nat) (n f bs off : Z) (buf : list Z) (copied : Z) : E (Z * bool) :=
  match fuel with
  | O => diverge
  | S fuel =>
      let len := Z.of_nat (length buf) in
      if len <=? copied then ret (0, true)
      else
        let pos := u64 (off + copied) in
        let chunk := Z.min (bs - pos `mod` bs) (len - copied) in
        let* r := write_round n f bs pos (take (Z.to_nat chunk) (drop (Z.to_nat copied) buf)) in
        if negb (r =? 0) then ret (if copied =? 0 then r else 0, false)
        else write_loop fuel n f bs off buf (copied + chunk)
  end.
(** The status and [*done]. *)
Definition ext2_write (n off : Z) (buf : list Z) : E (Z * Z) :=
  let* x := get_node n in
  if negb (VFS_S_ISREG (vn_mode x)) then ret (- EISDIR, 0)
  else
    let len := Z.of_nat (length buf) in
    if len =? 0 then ret (0, 0)
    else
      let* fs := get_fs (n_fs x) in
      let* ok := lift (kzalloc (block_size fs)) in
      if negb ok then ret (- ENOMEM, 0)
      else
        let* r := write_loop (S (length buf)) n (n_fs x) (block_size fs) off buf 0 in
        if negb r.2 then ret (r.1, 0)
        else
          let* x := get_node n in
          let e := u64 (off + len) in
          if vn_size x <? e then
            put_node n (with_size (with_inode x (set_size (n_inode x) e)) e) ;;;
            let* q := sync_inode n in
            if negb (q =? 0) then ret (q, 0) else ret (0, len)
          else ret (0, len).

Definition ext2_truncate (n size : Z) : E Z :=
  let* x := get_node n in
  if negb (VFS_S_ISREG (vn_mode x)) then ret (- EISDIR)
  else if vn_size x <? size then ret 0
  else put_node n (with_size (with_inode x (set_size (n_inode x) size)) size) ;;; sync_inode n.

Definition ext2_open (n : Z) : E Z :=
  let* x := get_node n in
  if VFS_S_ISREG (vn_mode x) || VFS_S_ISDIR (vn_mode x) then ret 0 else ret (- ENOSYS).
Definition ext2_close (n : Z) : E Z := let* x := get_node n in ret 0.
Definition ext2_fadvise (n offset len advice : Z) : E Z := ret 0.
Definition ext2_fsync (n : Z) : E Z :=
  let* x := get_node n in
  let i := p16 (p16 (p16 (p16 (n_inode x) 0 (vn_mode x)) 2 (vn_uid x)) 24 (vn_gid x)) 26 (vn_nlink x) in
  put_node n (with_inode x (set_size i (vn_size x))) ;;;
  let* r := sync_inode n in
  if negb (r =? 0) then ret r
  else
    let* r := write_metadata (n_fs x) in
    if negb (r =? 0) then ret r
    else let* fs := get_fs (n_fs x) in lift (block_flush (f_dev fs)).
End files.
