(* ===== verification/Ext2Dir.v ===== *)
(** * ext2: directories, names and mounting (kernel/src/fs/ext2.c) *)

From stdpp Require Import base list gmap.
From Stdlib Require Import ZArith Lia.
From S2P Require Import Prelude Ext2 Ext2File.

Local Open Scope Z_scope.

Definition VFS_NAME_MAX : Z := 255.
Definition rec_len_for (name_len : Z) : Z := ((8 + name_len + 3) / 4 * 4) `mod` 65536.
Definition DOT : list Z := [46].
Definition DOTDOT : list Z := [46; 46].

Section dirs.
Context {D : Type} {env : Ext2Env D}.
Abbreviation E := (M (ext2 D)).

(** ** Bytes of a directory *)

Definition read_dir_chunk (n off len : Z) : E (Z * list Z) :=
  let* x := get_node n in
  if negb (VFS_S_ISDIR (vn_mode x)) then ret (- ENOTDIR, []) else read_all n (n_fs x) off len.

Definition dir_round (n f bs pos : Z) (data : list Z) : E Z :=
  let* r := ensure_file_block n (u32 (pos / bs)) in
  if negb (r.1 =? 0) then ret r.1
  else
    let* b := read_block f r.2 in
    if negb (b.1 =? 0) then ret b.1 else write_block f r.2 (put_bytes b.2 (Z.to_nat (pos `mod` bs)) data).
Fixpoint dir_write_loop (fuel : nat) (n f bs off : Z) (buf : list Z) (copied : Z) : E Z :=
  match fuel with
  | O => diverge
  | S fuel =>
      let len := Z.of_nat (length buf) in
      if len <=? copied then ret 0
      else
        let pos := u64 (off + copied) in
        let chunk := Z.min (bs - pos `mod` bs) (len - copied) in
        let* r := dir_round n f bs pos (take (Z.to_nat chunk) (drop (Z.to_nat copied) buf)) in
        if negb (r =? 0) then ret r else dir_write_loop fuel n f bs off buf (copied + chunk)
  end.
Definition write_dir_chunk (n off : Z) (buf : list Z) : E Z :=
  let* x := get_node n in
  if negb (VFS_S_ISDIR (vn_mode x)) then ret (- ENOTDIR)
  else
    let* fs := get_fs (n_fs x) in
    let* ok := lift (kzalloc (block_size fs)) in
    if negb ok then ret (- ENOMEM)
    else dir_write_loop (S (length buf)) n (n_fs x) (block_size fs) off buf 0.

(** ** Records *)

(** A record: where it starts, the number of its inode, its length, and the length of its
    name; where the record before it starts. *)
Record dirent := mkDirent { de_off : Z; de_ino : Z; de_rec_len : Z; de_name_len : Z; de_hdr : list Z; de_prev : option Z }.
(** The loop over the records that the functions below share: at each one [visit] says
    whether to go on ([None]) or to return. *)
Fixpoint dir_loop {A} (fuel : nat) (n off : Z) (prev : option Z) (visit : dirent -> E (option (Z * A))) (zero : A)
    (at_end : E (Z * A)) : E (Z * A) :=
  match fuel with
  | O => diverge
  | S fuel =>
      let* x := get_node n in
      if vn_size x <? u64 (off + 8) then at_end
      else
        let* r := read_dir_chunk n off 8 in
        if negb (r.1 =? 0) then ret (r.1, zero)
        else
          let e := mkDirent off (g32 r.2 0) (g16 r.2 4) (nth 6 r.2 0) r.2 prev in
          if (de_rec_len e <? 8) || (vn_size x <? u64 (off + de_rec_len e)) then ret (- EINVAL, zero)
          else
            let* v := visit e in
            match v with
            | Some a => ret a
            | None => dir_loop fuel n (off + de_rec_len e) (Some off) visit zero at_end
            end
  end.
(** Every record has at least 8 bytes. *)
Definition dir_fuel (size : Z) : nat := S (Z.to_nat (size / 8)).
(** Does the record carry this name?  [inl]: an error. *)
Definition has_name (n : Z) (name : list Z) (e : dirent) : E (Z + bool) :=
  if negb (de_ino e =? 0) && (de_name_len e =? Z.of_nat (length name)) then
    let* t := read_dir_chunk n (de_off e + 8) (de_name_len e) in
    if negb (t.1 =? 0) then ret (inl t.1) else ret (inr (bool_decide (t.2 = name)))
  else ret (inr false).

(** The status and the node, counted. *)
Definition ext2_lookup (n : Z) (name : list Z) : E (Z * Z) :=
  let* x := get_node n in
  if negb (VFS_S_ISDIR (vn_mode x)) then ret (- ENOTDIR, 0)
  else if bool_decide (name = DOT) then vfs_node_ref n ;;; ret (0, n)
  else
    dir_loop (dir_fuel (vn_size x)) n 0 None
      (fun e => let* h := has_name n name e in
                match h with
                | inl err => ret (Some (err, 0))
                | inr true => let* r := alloc_ext2_node (n_fs x) (de_ino e) in ret (Some r)
                | inr false => ret None
                end) 0 (ret (- ENOENT, 0)).

(** The status and the record. *)
Definition find_dirent (n : Z) (name : list Z) : E (Z * option dirent) :=
  let* x := get_node n in
  dir_loop (dir_fuel (vn_size x)) n 0 None
    (fun e => let* h := has_name n name e in
              match h with
              | inl err => ret (Some (err, None))
              | inr true => ret (Some (0, Some e))
              | inr false => ret None
              end) None (ret (- ENOENT, None)).

(** An entry without its length. *)
Definition entry_bytes (name : list Z) (ino file_type rec_len : Z) : list Z :=
  take (Z.to_nat (rec_len_for (Z.of_nat (length name))))
    (b32 ino ++ b16 rec_len ++ [Z.of_nat (length name) `mod` 256; file_type] ++ name ++ [0; 0; 0]).
Definition add_dirent (n : Z) (name : list Z) (ino file_type : Z) : E Z :=
  let need := rec_len_for (Z.of_nat (length name)) in
  let* ok := lift (kzalloc need) in
  if negb ok then ret (- ENOMEM)
  else
    let* x := get_node n in
    let* r := dir_loop (dir_fuel (vn_size x)) n 0 None
      (fun e =>
        let used := rec_len_for (de_name_len e) in
        if used + need <=? de_rec_len e then
          let* r := write_dir_chunk n (de_off e) (p16 (de_hdr e) 4 used) in
          if negb (r =? 0) then ret (Some (r, tt))
          else
            let* r := write_dir_chunk n (de_off e + used) (entry_bytes name ino file_type (de_rec_len e - used)) in
            ret (Some (r, tt))
        else ret None) tt
      (let* x := get_node n in
       let* fs := get_fs (n_fs x) in
       let* r := write_dir_chunk n (vn_size x) (entry_bytes name ino file_type (block_size fs)) in
       if negb (r =? 0) then ret (r, tt)
       else
         let* x := get_node n in
         let size := u64 (vn_size x + block_size fs) in
         put_node n (with_size (with_inode x (set_size (n_inode x) size)) size) ;;;
         let* r := sync_inode n in
         ret (r, tt)) in
    ret r.1.

Definition remove_dirent (n : Z) (name : list Z) : E Z :=
  let* r := find_dirent n name in
  match r.2 with
  | None => ret r.1
  | Some e =>
      match de_prev e with
      | Some prev =>
          let* h := read_dir_chunk n prev 8 in
          if negb (h.1 =? 0) then ret h.1
          else
            let* x := get_node n in
            let prev_len := g16 h.2 4 in
            if (prev_len <? 8) || (vn_size x <? u64 (prev + prev_len)) then ret (- EINVAL)
            else write_dir_chunk n prev (p16 h.2 4 (prev_len + de_rec_len e))
      | None =>
          let* h := read_dir_chunk n (de_off e) 8 in
          if negb (h.1 =? 0) then ret h.1 else write_dir_chunk n (de_off e) (p32 h.2 0 0)
      end
  end.

Definition replace_dirent_ino (n : Z) (name : list Z) (ino file_type : Z) : E Z :=
  let* r := find_dirent n name in
  match r.2 with
  | None => ret r.1
  | Some e =>
      let* h := read_dir_chunk n (de_off e) 8 in
      if negb (h.1 =? 0) then ret h.1
      else write_dir_chunk n (de_off e) (put_bytes (p32 h.2 0 ino) 7 [file_type])
  end.

(** 1 when only the two names every directory has are there, 0 when there are others, or an
    error. *)
Definition dir_is_empty (n : Z) : E Z :=
  let* x := get_node n in
  let* r := dir_loop (dir_fuel (vn_size x)) n 0 None
    (fun e =>
      if negb (de_ino e =? 0) && negb (de_name_len e =? 0) then
        let* t := read_dir_chunk n (de_off e + 8) (de_name_len e) in
        if negb (t.1 =? 0) then ret (Some (t.1, tt))
        else if bool_decide (t.2 = DOT) || bool_decide (t.2 = DOTDOT) then ret None
        else ret (Some (0, tt))
      else ret None) tt (ret (1, tt)) in
  ret r.1.

(** [for (;;)] up the tree; [fuel] bounds its depth.  [cur] is released unless it is the
    node the caller holds. *)
Fixpoint is_ancestor_loop (fuel : nat) (dir child cur : Z) : E bool :=
  match fuel with
  | O => diverge
  | S fuel =>
      let drop_cur := when (negb (cur =? child)) (vfs_node_release cur) in
      let* d := get_node dir in
      let* c := get_node cur in
      if n_ino c =? n_ino d then drop_cur ;;; ret true
      else
        let* r := ext2_lookup cur DOTDOT in
        if negb (r.1 =? 0) then drop_cur ;;; ret false
        else
          let* p := get_node r.2 in
          if n_ino p =? n_ino c then drop_cur ;;; vfs_node_release r.2 ;;; ret false
          else drop_cur ;;; is_ancestor_loop fuel dir child r.2
  end.
Definition is_ancestor_dir (fuel : nat) (dir child : Z) : E bool := is_ancestor_loop fuel dir child child.

(** ** Names *)

Definition new_inode (mode uid gid links : Z) : list Z :=
  p16 (p16 (p16 (p16 (replicate 128 0) 0 mode) 2 uid) 24 gid) 26 links.

(** The status and the node of the new file. *)
Definition ext2_create (dir : Z) (name : list Z) (mode uid gid : Z) : E (Z * Z) :=
  let* d := get_node dir in
  if negb (VFS_S_ISDIR (vn_mode d)) then ret (- ENOTDIR, 0)
  else if (length name =? 0)%nat then ret (- EINVAL, 0)
  else if 255 <? Z.of_nat (length name) then ret (- ENAMETOOLONG, 0)
  else
    let* r := ext2_lookup dir name in
    if r.1 =? 0 then vfs_node_release r.2 ;;; ret (- EEXIST, 0)
    else if negb (r.1 =? - ENOENT) then ret (r.1, 0)
    else
      let* a := alloc_inode (n_fs d) in
      if negb (a.1 =? 0) then ret (a.1, 0)
      else
        let* r := write_inode (n_fs d) a.2 (new_inode (Z.lor VFS_S_IFREG (Z.land mode VFS_S_PERM)) uid gid 1) in
        if negb (r =? 0) then ret (r, 0)
        else
          let* r := add_dirent dir name a.2 1 in
          if negb (r =? 0) then ret (r, 0) else alloc_ext2_node (n_fs d) a.2.

(** The block of a new directory. *)
Definition new_dir_block (bs ino parent : Z) : list Z :=
  let dot := b32 ino ++ b16 (rec_len_for 1) ++ [1; 2; 46; 0; 0; 0] in
  let dotdot := b32 parent ++ b16 (bs - rec_len_for 1) ++ [2; 2; 46; 46] in
  dot ++ dotdot ++ replicate (Z.to_nat bs - 22) 0.
Definition ext2_mkdir (dir : Z) (name : list Z) (mode uid gid : Z) : E (Z * Z) :=
  let* d := get_node dir in
  if negb (VFS_S_ISDIR (vn_mode d)) then ret (- ENOTDIR, 0)
  else if (length name =? 0)%nat then ret (- EINVAL, 0)
  else if 255 <? Z.of_nat (length name) then ret (- ENAMETOOLONG, 0)
  else
    let* r := ext2_lookup dir name in
    if r.1 =? 0 then vfs_node_release r.2 ;;; ret (- EEXIST, 0)
    else if negb (r.1 =? - ENOENT) then ret (r.1, 0)
    else
      let* a := alloc_inode (n_fs d) in
      if negb (a.1 =? 0) then ret (a.1, 0)
      else
        let ino := a.2 in
        let* b := alloc_block (n_fs d) in
        if negb (b.1 =? 0) then ret (b.1, 0)
        else
          let* fs := get_fs (n_fs d) in
          let bs := block_size fs in
          let i := new_inode (Z.lor VFS_S_IFDIR (Z.land mode VFS_S_PERM)) uid gid 2 in
          let i := set_blocks (set_block (p32 i 4 bs) 0 b.2) (bs / 512) in
          let* ok := lift (kzalloc bs) in
          if negb ok then ret (- ENOMEM, 0)
          else
            let* r := write_block (n_fs d) b.2 (new_dir_block bs ino (n_ino d)) in
            if negb (r =? 0) then ret (r, 0)
            else
              let* r := write_inode (n_fs d) ino i in
              if negb (r =? 0) then ret (r, 0)
              else
                let* d := get_node dir in
                let links := (links_count (n_inode d) + 1) `mod` 65536 in
                put_node dir (with_nlink (with_inode d (set_links (n_inode d) links)) links) ;;;
                let* r := sync_inode dir in
                if negb (r =? 0) then ret (r, 0)
                else
                  let* r := add_dirent dir name ino 2 in
                  if negb (r =? 0) then ret (r, 0) else alloc_ext2_node (n_fs d) ino.

(** [vfs_dirent_t] *)
Record vfs_dirent := mkOut { o_name : list Z; o_mode : Z; o_uid : Z; o_gid : Z; o_size : Z; o_nlink : Z }.
Definition no_dirent : vfs_dirent := mkOut [] 0 0 0 0 0.
(** [seen] counts the records with a name and an inode. *)
Fixpoint readdir_loop (fuel : nat) (n f off index seen : Z) : E (Z * vfs_dirent) :=
  match fuel with
  | O => diverge
  | S fuel =>
      let* x := get_node n in
      if vn_size x <? u64 (off + 8) then ret (- ENOENT, no_dirent)
      else
        let* r := read_dir_chunk n off 8 in
        if negb (r.1 =? 0) then ret (r.1, no_dirent)
        else
          let ino := g32 r.2 0 in
          let rec_len := g16 r.2 4 in
          let name_len := nth 6 r.2 0 in
          if (rec_len <? 8) || (vn_size x <? u64 (off + rec_len)) then ret (- EINVAL, no_dirent)
          else if negb (ino =? 0) && negb (name_len =? 0) then
            if seen =? index then
              let* t := read_dir_chunk n (off + 8) name_len in
              if negb (t.1 =? 0) then ret (t.1, no_dirent)
              else
                let* c := alloc_ext2_node f ino in
                if negb (c.1 =? 0) then ret (c.1, no_dirent)
                else
                  let* y := get_node c.2 in
                  vfs_node_release c.2 ;;;
                  ret (0, mkOut t.2 (vn_mode y) (vn_uid y) (vn_gid y) (vn_size y) (vn_nlink y))
            else readdir_loop fuel n f (off + rec_len) index (seen + 1)
          else readdir_loop fuel n f (off + rec_len) index seen
  end.
Definition ext2_readdir (n index : Z) : E (Z * vfs_dirent) :=
  let* x := get_node n in
  if negb (VFS_S_ISDIR (vn_mode x)) then ret (- ENOTDIR, no_dirent)
  else readdir_loop (dir_fuel (vn_size x)) n (n_fs x) 0 index 0.

(** The link count of a node, in the inode and in the node. *)
Definition put_links (n links : Z) : E unit :=
  let* x := get_node n in put_node n (with_nlink (with_inode x (set_links (n_inode x) links)) links).

Definition ext2_unlink (dir : Z) (name : list Z) : E Z :=
  let* d := get_node dir in
  if negb (VFS_S_ISDIR (vn_mode d)) then ret (- ENOTDIR)
  else
    let* t := ext2_lookup dir name in
    if negb (t.1 =? 0) then ret t.1
    else
      let* x := get_node t.2 in
      if VFS_S_ISDIR (vn_mode x) then vfs_node_release t.2 ;;; ret (- EISDIR)
      else
        let old := links_count (n_inode x) in
        put_links t.2 (if 0 <? old then old - 1 else old) ;;;
        let* r := sync_inode t.2 in
        let* r := if r =? 0 then remove_dirent dir name else ret r in
        when (negb (r =? 0)) (put_links t.2 old ;;; sync_inode t.2 ;;; ret tt) ;;;
        vfs_node_release t.2 ;;;
        ret r.

Definition ext2_rmdir (dir : Z) (name : list Z) : E Z :=
  let* d := get_node dir in
  if negb (VFS_S_ISDIR (vn_mode d)) then ret (- ENOTDIR)
  else if bool_decide (name = DOT) || bool_decide (name = DOTDOT) then ret (- EINVAL)
  else
    let* t := ext2_lookup dir name in
    if negb (t.1 =? 0) then ret t.1
    else
      let* x := get_node t.2 in
      if negb (VFS_S_ISDIR (vn_mode x)) then vfs_node_release t.2 ;;; ret (- ENOTDIR)
      else
        let* e := dir_is_empty t.2 in
        if e <? 0 then vfs_node_release t.2 ;;; ret e
        else if e =? 0 then vfs_node_release t.2 ;;; ret (- ENOTEMPTY)
        else
          let* d := get_node dir in
          let old_parent := links_count (n_inode d) in
          let old_target := links_count (n_inode x) in
          if old_parent =? 0 then vfs_node_release t.2 ;;; ret (- EINVAL)
          else
            put_links dir (old_parent - 1) ;;;
            put_links t.2 0 ;;;
            let* r := sync_inode t.2 in
            let* r := if r =? 0 then sync_inode dir else ret r in
            let* r := if r =? 0 then remove_dirent dir name else ret r in
            when (negb (r =? 0))
              (put_links dir old_parent ;;; put_links t.2 old_target ;;; sync_inode dir ;;; sync_inode t.2 ;;; ret tt) ;;;
            vfs_node_release t.2 ;;;
            ret r.

Definition ext2_symlink (dir : Z) (target name : list Z) (uid gid : Z) : E Z :=
  let* d := get_node dir in
  if negb (VFS_S_ISDIR (vn_mode d)) then ret (- ENOTDIR)
  else
    let* a := alloc_inode (n_fs d) in
    if negb (a.1 =? 0) then ret a.1
    else
      let i := p32 (new_inode (Z.lor VFS_S_IFLNK 511) uid gid 1) 4 (Z.of_nat (length target)) in
      if (60 <? length target)%nat then ret (- ENOSYS)
      else write_inode (n_fs d) a.2 (put_bytes i 40 target) ;;; add_dirent dir name a.2 7.

(** The count of the directory goes up with that of the file. *)
Definition ext2_link (dir : Z) (name : list Z) (target : Z) : E Z :=
  let* d := get_node dir in
  if negb (VFS_S_ISDIR (vn_mode d)) then ret (- ENOTDIR)
  else
    let f := n_fs d in
    let* t := get_node target in
    let links := (links_count (n_inode t) + 1) `mod` 65536 in
    put_node target (with_inode t (set_links (n_inode t) links)) ;;;
    let* t := get_node target in
    write_inode f (n_ino t) (n_inode t) ;;;
    let* t := get_node target in
    put_node target (with_nlink t links) ;;;
    let* r := add_dirent dir name (n_ino t) 1 in
    let* t := get_node target in
    if negb (r =? 0) then
      put_node target (with_inode t (set_links (n_inode t) ((links_count (n_inode t) - 1) `mod` 65536))) ;;;
      let* t := get_node target in
      write_inode f (n_ino t) (n_inode t) ;;;
      ret r
    else
      let* d := get_node dir in
      put_node dir (with_inode d (set_links (n_inode d) ((links_count (n_inode d) + 1) `mod` 65536))) ;;;
      sync_inode dir ;;;
      ret 0.

(** *** Renaming *)

Definition bad_name (name : list Z) : bool := bool_decide (name = DOT) || bool_decide (name = DOTDOT).
Definition is_dir (n : Z) : E bool := let* x := get_node n in ret (VFS_S_ISDIR (vn_mode x)).

(** The counts of what the new name stood for, before its record is removed. *)
Definition rename_replaced (old_dir new_dir target : Z) : E Z :=
  let* td := is_dir target in
  let* t := get_node target in
  if td then
    let* e := dir_is_empty target in
    if e <? 0 then ret e
    else if e =? 0 then ret (- ENOTEMPTY)
    else
      put_links target 0 ;;;
      let* r := sync_inode target in
      if negb (r =? 0) then ret r
      else if new_dir =? old_dir then ret 0
      else
        let* d := get_node new_dir in
        let links := links_count (n_inode d) in
        if links =? 0 then ret (- EINVAL) else put_links new_dir (links - 1) ;;; sync_inode new_dir
  else
    let links := links_count (n_inode t) in
    put_links target (if 0 <? links then links - 1 else links) ;;;
    sync_inode target.

(** The record of the new name, if there is one, goes: [inl]: the call ends with this. *)
Definition rename_clear (old_dir new_dir source : Z) (new_name : list Z) : E (Z + unit) :=
  let* t := ext2_lookup new_dir new_name in
  if t.1 =? 0 then
    let target := t.2 in
    let* x := get_node target in
    let* y := get_node source in
    if n_ino x =? n_ino y then vfs_node_release target ;;; ret (inl 0)
    else if negb (Bool.eqb (VFS_S_ISDIR (vn_mode y)) (VFS_S_ISDIR (vn_mode x))) then
      vfs_node_release target ;;;
      ret (inl (if VFS_S_ISDIR (vn_mode y) then - ENOTDIR else - EISDIR))
    else
      let* r := rename_replaced old_dir new_dir target in
      if negb (r =? 0) then vfs_node_release target ;;; ret (inl r)
      else
        let* r := remove_dirent new_dir new_name in
        vfs_node_release target ;;;
        ret (if r =? 0 then inr tt else inl r)
  else ret (if t.1 =? - ENOENT then inr tt else inl t.1).

(** A directory that moved: its [..] and the counts of the two parents. *)
Definition rename_parents (old_dir new_dir source : Z) : E Z :=
  let* nd := get_node new_dir in
  let* r := replace_dirent_ino source DOTDOT (n_ino nd) 2 in
  if negb (r =? 0) then ret r
  else
    let* od := get_node old_dir in
    let links := links_count (n_inode od) in
    if links =? 0 then ret (- EINVAL)
    else
      put_links old_dir (links - 1) ;;;
      let* r := sync_inode old_dir in
      if negb (r =? 0) then ret r
      else
        let* nd := get_node new_dir in
        put_links new_dir ((links_count (n_inode nd) + 1) `mod` 65536) ;;;
        sync_inode new_dir.

Definition rename_move (old_dir : Z) (old_name : list Z) (new_dir : Z) (new_name : list Z) (source : Z) : E Z :=
  let* c := rename_clear old_dir new_dir source new_name in
  match c with
  | inl r => ret r
  | inr _ =>
      let* x := get_node source in
      let* r := add_dirent new_dir new_name (n_ino x) (file_type_for_mode (vn_mode x)) in
      if negb (r =? 0) then ret r
      else
        let* r := remove_dirent old_dir old_name in
        if negb (r =? 0) then remove_dirent new_dir new_name ;;; ret r
        else
          let* d := is_dir source in
          if d && negb (old_dir =? new_dir) then rename_parents old_dir new_dir source else ret 0
  end.

Definition name_length_ok (name : list Z) : bool := negb (length name =? 0)%nat && (Z.of_nat (length name) <=? VFS_NAME_MAX).
Definition ext2_rename (old_dir : Z) (old_name : list Z) (new_dir : Z) (new_name : list Z) : E Z :=
  let* o := get_node old_dir in
  let* w := get_node new_dir in
  if negb (VFS_S_ISDIR (vn_mode o)) || negb (VFS_S_ISDIR (vn_mode w)) then ret (- ENOTDIR)
  else if negb (name_length_ok old_name) || negb (name_length_ok new_name) then ret (- ENAMETOOLONG)
  else if bad_name old_name || bad_name new_name then ret (- EINVAL)
  else if negb (n_fs o =? n_fs w) then ret (- EXDEV)
  else
    let* s := ext2_lookup old_dir old_name in
    if negb (s.1 =? 0) then ret s.1
    else
      let source := s.2 in
      let* fs := get_fs (n_fs o) in
      let* r :=
        if (old_dir =? new_dir) && bool_decide (old_name = new_name) then ret 0
        else
          let* d := is_dir source in
          let* a := if d then is_ancestor_dir (S (Z.to_nat (inodes_count (f_sb fs)))) source new_dir else ret false in
          if a then ret (- EINVAL) else rename_move old_dir old_name new_dir new_name source in
      vfs_node_release source ;;;
      ret r.

(** ** Mounting *)

Definition copy_text_slice (text : list Z) (off len : Z) : Z * list Z :=
  let total := Z.of_nat (length text) in
  if (total <=? off) || (len =? 0) then (0, [])
  else (0, take (Z.to_nat (Z.min (total - off) len)) (drop (Z.to_nat off) text)).

Definition dev_mounts : list Z := [47; 100; 101; 118; 47; 109; 111; 117; 110; 116; 115].
Definition publish_mounts : E Z :=
  let* p := gets mounts_published in
  if p then ret 0
  else
    let* r := lift (devfs_register_chr dev_mounts 292) in
    if (r =? 0) || (r =? - EEXIST) then
      modify (fun s => mkExt (fss s) (nodes s) (mounts s) true (mount_count s) (next_ext2_dev_id s) (next_addr s) (disk s)) ;;;
      ret 0
    else ret r.

(** " ext2 rw,auto 0 0" and the end of the line *)
Definition mounts_tail : list Z := [32; 101; 120; 116; 50; 32; 114; 119; 44; 97; 117; 116; 111; 32; 48; 32; 48; 10].
(** The text of [tmp]: a line that does not fit is cut off and ends the text. *)
Fixpoint mounts_loop (l : list Z) (acc : list Z) : E (list Z) :=
  match l with
  | [] => ret acc
  | f :: l =>
      let* x := get_fs f in
      let* name := lift (dev_name (f_dev x)) in
      let line := name ++ [32] ++ mount_path x ++ mounts_tail in
      if (1024 - length acc <=? length line)%nat then ret (acc ++ take (1023 - length acc) line)
      else mounts_loop l (acc ++ line)
  end.
Definition ext2_mounts_read (off len : Z) : E (Z * list Z) :=
  let* l := gets mounts in
  let* text := mounts_loop l [] in
  ret (copy_text_slice text off len).

Fixpoint mounted_loop (l : list Z) (dev : Z) : E bool :=
  match l with
  | [] => ret false
  | f :: l => let* x := get_fs f in if f_dev x =? dev then ret true else mounted_loop l dev
  end.
Definition mnt : list Z := [47; 109; 110; 116].
Definition mnt_dash : list Z := [47; 109; 110; 116; 45].
Definition dev_slash : list Z := [47; 100; 101; 118; 47].
Definition kfree_fs (f : Z) : E unit := modify (fun s => set_fss s (delete f (fss s))).

(** The end of [ext2_mount], behind the root node. *)
Definition ext2_attach (f dev : Z) (path : list Z) : E Z :=
  let* x := get_fs f in
  let undo (r : Z) := vfs_node_release (f_root x) ;;; kfree_fs f ;;; ret r in
  if (64 <=? length path)%nat then undo (- ENAMETOOLONG)
  else
    let* name := lift (dev_name dev) in
    let* c := gets mount_count in
    let mp := match path with
              | _ :: _ => path
              | [] => if c =? 0 then mnt else take 63 (mnt_dash ++ name)
              end in
    put_fs f (mkFs (f_dev x) (dev_id x) (f_sb x) (block_size x) (group_count x) (gd_off x) (groups x) (f_root x) mp
                (inode_cache x)) ;;;
    let* r := lift (vfs_mkdir mp 493) in
    if negb (r =? 0) && negb (r =? - EEXIST) then undo r
    else
      let* r := lift (vfs_mount mp (f_root x)) in
      if negb (r =? 0) then undo r
      else
        modify (fun s => mkExt (fss s) (nodes s) (f :: mounts s) (mounts_published s) (u32 (mount_count s + 1))
                           (next_ext2_dev_id s) (next_addr s) (disk s)) ;;;
        lift (procfs_note_mount (take 159 (dev_slash ++ name)) mp) ;;;
        publish_mounts ;;;
        ret 0.

(** A shift by 32 or more and a division by zero are faults. *)
Definition ext2_mount (dev : Z) (path : list Z) : E Z :=
  let* l := gets mounts in
  let* m := mounted_loop l dev in
  if m then ret (- EEXIST)
  else
    let* r := lift (block_read dev EXT2_SUPER_OFFSET sizeof_super) in
    let sb := r.2 in
    if negb (r.1 =? 0) then ret r.1
    else if negb (magic sb =? EXT2_SUPER_MAGIC) then ret (- ENOENT)
    else if negb (clr (feature_incompat sb) 2 =? 0) then ret (- ENOSYS)
    else
      let* ok := lift (kzalloc 1440) in
      if negb ok then ret (- ENOMEM)
      else
        let* id := gets next_ext2_dev_id in
        modify (fun s => mkExt (fss s) (nodes s) (mounts s) (mounts_published s) (mount_count s) (u64 (id + 1)) (next_addr s) (disk s)) ;;;
        if (31 <? log_block_size sb) || (blocks_per_group sb =? 0) then fault
        else
          let bs := u32 (1024 * 2 ^ log_block_size sb) in
          let gc := u32 (blocks_count sb + blocks_per_group sb - 1) / blocks_per_group sb in
          if (bs <? 1024) || (4096 <? bs) || (gc =? 0) then ret (- EINVAL)
          else
            let* ok := lift (kzalloc (gc * 32)) in
            if negb ok then ret (- ENOMEM)
            else
              let off := if bs =? 1024 then 2048 else bs in
              let* g := lift (block_read dev off (gc * 32)) in
              if negb (g.1 =? 0) then ret g.1
              else
                let* f := new_addr in
                put_fs f (mkFs dev id sb bs gc off g.2 0 [] (replicate INODE_CACHE_SIZE (0, 0))) ;;;
                let* r := alloc_ext2_node f EXT2_ROOT_INO in
                if negb (r.1 =? 0) then kfree_fs f ;;; ret r.1
                else
                  let* x := get_fs f in
                  put_fs f (mkFs (f_dev x) (dev_id x) (f_sb x) (block_size x) (group_count x) (gd_off x) (groups x) r.2
                              (mount_path x) (inode_cache x)) ;;;
                  ext2_attach f dev path.
End dirs.
