(* ===== verification/Ext2Alloc.v ===== *)
(** * ext2: the allocator hands out free blocks

    For a disk without errors: what [alloc_block] returns was free, is marked and zero, and
    nothing else changes but the counts. *)

From stdpp Require Import base list gmap.
From Stdlib Require Import ZArith Lia.
From S2P Require Import Prelude Ext2.

Local Open Scope Z_scope.

(** ** Fields in bytes *)

Lemma put_bytes_length l off b : (off + length b <= length l)%nat -> length (put_bytes l off b) = length l.
Proof. intros H. unfold put_bytes. rewrite !length_app, length_take, length_drop. lia. Qed.
Lemma nth_put_bytes l off b i :
  (off + length b <= length l)%nat ->
  nth i (put_bytes l off b) 0 = if bool_decide (off <= i < off + length b)%nat then nth (i - off) b 0 else nth i l 0.
Proof.
  intros H. unfold put_bytes. rewrite !nth_lookup.
  assert (Ht : length (take off l) = off) by (rewrite length_take; lia). case_bool_decide as Hc.
  - rewrite lookup_app_r, Ht, lookup_app_l by lia. done.
  - destruct (decide (i < off)%nat).
    + rewrite lookup_app_l, lookup_take_lt by lia. done.
    + rewrite lookup_app_r, Ht, lookup_app_r, lookup_drop by lia. do 2 f_equal. lia.
Qed.
Lemma nth_put_other l off b i :
  (off + length b <= length l)%nat -> ~ (off <= i < off + length b)%nat -> nth i (put_bytes l off b) 0 = nth i l 0.
Proof. intros H Hi. rewrite nth_put_bytes by done. by rewrite bool_decide_eq_false_2. Qed.

Lemma g16_other l off b i :
  (off + length b <= length l)%nat -> (i + 2 <= off \/ off + length b <= i)%nat -> g16 (put_bytes l off b) i = g16 l i.
Proof. intros H Hi. unfold g16. rewrite !nth_put_other by lia. done. Qed.
Lemma g32_other l off b i :
  (off + length b <= length l)%nat -> (i + 4 <= off \/ off + length b <= i)%nat -> g32 (put_bytes l off b) i = g32 l i.
Proof. intros H Hi. unfold g32. rewrite !g16_other by lia. done. Qed.
Lemma g32_p32 l off v : (off + 4 <= length l)%nat -> 0 <= v < 2 ^ 32 -> g32 (p32 l off v) off = v.
Proof.
  intros H Hv. unfold p32, g32, g16. rewrite !nth_put_bytes by (cbn; lia).
  rewrite !bool_decide_eq_true_2 by (cbn; lia).
  replace (off - off)%nat with 0%nat by lia. replace (off + 1 - off)%nat with 1%nat by lia.
  replace (off + 2 - off)%nat with 2%nat by lia. replace (off + 2 + 1 - off)%nat with 3%nat by lia. cbn. zdiv.
Qed.
Lemma p32_length l off v : (off + 4 <= length l)%nat -> length (p32 l off v) = length l.
Proof. intros H. by apply put_bytes_length. Qed.
Lemma p16_length l off v : (off + 2 <= length l)%nat -> length (p16 l off v) = length l.
Proof. intros H. by apply put_bytes_length. Qed.

(** ** A disk without errors *)

(** [dbyte] is the byte at a place of a device of [dsize] bytes. *)
Class Ext2Laws (D : Type) `{Ext2Env D} := {
  ready : D -> Z -> Prop;
  dsize : Z -> Z;
  dbyte : D -> Z -> Z -> Z;
  law_byte : forall d dev x, 0 <= dbyte d dev x < 256;
  law_bread : forall d dev off len, ready d dev -> 0 <= off -> 0 <= len < 2 ^ 32 -> off + len <= dsize dev -> exists d',
    block_read dev off len d = Ret (0, map (fun i => dbyte d dev (off + i)) (seqZ 0 len)) d' /\ ready d' dev /\
    forall x, dbyte d' dev x = dbyte d dev x;
  law_bwrite : forall d dev off buf, ready d dev -> 0 <= off -> Z.of_nat (length buf) < 2 ^ 32 ->
    off + Z.of_nat (length buf) <= dsize dev -> exists d',
    block_write dev off buf d = Ret 0 d' /\ ready d' dev /\
    forall x, 0 <= x < dsize dev -> dbyte d' dev x =
      if bool_decide (off <= x < off + Z.of_nat (length buf)) then u8 (nth (Z.to_nat (x - off)) buf 0) else dbyte d dev x;
  law_kzalloc : forall d dev n, ready d dev -> exists b d', kzalloc n d = Ret b d' /\ ready d' dev /\
    forall x, dbyte d' dev x = dbyte d dev x }.

(** The geometry of a file system: its address and device, block size, number of groups,
    blocks in a group, first and number of blocks, the places of the descriptors and of the
    bitmaps, and the same of the inodes. *)
Record geometry := mkGeo {
  q_f : Z; q_dev : Z; q_bs : Z; q_gc : Z; q_bpg : Z; q_first : Z; q_count : Z; q_off : Z; q_bbm : nat -> Z;
  q_inodes : Z; q_ipg : Z; q_isize : Z; q_itab : nat -> Z }.
(** Where inode [ino] is. *)
Definition inode_off (G : geometry) (ino : Z) : option Z :=
  if (ino =? 0) || (q_inodes G <? ino) then None
  else
    let g := (ino - 1) / q_ipg G in
    if q_gc G <=? g then None
    else Some (q_itab G (Z.to_nat g) * q_bs G + (ino - 1) `mod` q_ipg G * (if q_isize G =? 0 then 128 else q_isize G)).

Section alloc.
Context {D : Type} {env : Ext2Env D} {laws : Ext2Laws D}.
Context (G : geometry).
Abbreviation f := (q_f G).
Abbreviation dev := (q_dev G).
Abbreviation bs := (q_bs G).
Abbreviation gc := (q_gc G).
Abbreviation bpg := (q_bpg G).
Abbreviation first := (q_first G).
Abbreviation bcount := (q_count G).
Abbreviation goff := (q_off G).
Abbreviation bbm := (q_bbm G).

Record geom (x : ext2_fs) : Prop := {
  g_dev : f_dev x = dev; g_bs : block_size x = bs; g_gc : group_count x = gc; g_off : gd_off x = goff;
  g_sb : length (f_sb x) = 200%nat; g_gs : length (groups x) = (32 * Z.to_nat gc)%nat;
  g_bpg : blocks_per_group (f_sb x) = bpg; g_first : first_data_block (f_sb x) = first;
  g_count : blocks_count (f_sb x) = bcount;
  g_bbm : forall g, (g < Z.to_nat gc)%nat -> block_bitmap (groups x) g = bbm g;
  g_inodes : inodes_count (f_sb x) = q_inodes G; g_ipg : inodes_per_group (f_sb x) = q_ipg G;
  g_isize : sb_inode_size (f_sb x) = q_isize G;
  g_itab : forall g, (g < Z.to_nat gc)%nat -> inode_table (groups x) g = q_itab G g }.

(** Byte ranges that do not meet. *)
Definition apart (a n b m : Z) : Prop := a + n <= b \/ b + m <= a.
Definition DB (s : ext2 D) (x : Z) : Z := dbyte (disk s) dev x.
(** The mark of block [i] of group [g]. *)
Definition bit (s : ext2 D) (g : nat) (i : Z) : bool := Z.testbit (DB s (bbm g * bs + i / 8)) (i `mod` 8).
Definition blk_no (g : nat) (i : Z) : Z := Z.of_nat g * bpg + i + first.

(** The places of super block, descriptors and bitmaps. *)
Record layout : Prop := {
  l_bs : bs = 1024 \/ bs = 2048 \/ bs = 4096;
  l_gc : 0 < gc < 2 ^ 26;
  l_bpg : 0 < bpg <= 8 * bs;
  l_first : 0 <= first;
  l_count : gc * bpg + first < 2 ^ 32;
  l_goff : 0 <= goff /\ goff + 32 * gc <= dsize dev /\ apart 1024 200 goff (32 * gc);
  l_super : 1224 <= dsize dev;
  l_bbm : forall g, (g < Z.to_nat gc)%nat -> 0 <= bbm g /\ bbm g * bs + bs <= dsize dev /\
    apart (bbm g * bs) bs 1024 200 /\ apart (bbm g * bs) bs goff (32 * gc);
  l_bbm2 : forall g h, (g < Z.to_nat gc)%nat -> (h < Z.to_nat gc)%nat -> g <> h -> apart (bbm g * bs) bs (bbm h * bs) bs;
  l_ipg : 0 < q_ipg G;
  l_inode : forall ino o, inode_off G ino = Some o -> 0 <= o /\ o + 128 <= dsize dev /\
    forall g, (g < Z.to_nat gc)%nat -> apart (bbm g * bs) bs o 128 }.

(** A block of the device that is none of these, nor holds inodes. *)
Definition plain (b : Z) : Prop :=
  0 < b /\ b * bs + bs <= dsize dev /\ apart (b * bs) bs 1024 200 /\ apart (b * bs) bs goff (32 * gc) /\
  (forall g, (g < Z.to_nat gc)%nat -> apart (b * bs) bs (bbm g * bs) bs) /\
  forall ino o, inode_off G ino = Some o -> apart (b * bs) bs o 128.

(** The file system is there, and its device answers. *)
Definition fs_at (s : ext2 D) (x : ext2_fs) : Prop := fss s !! f = Some x /\ geom x /\ ready (disk s) dev.

(** Nothing but the disk's own affairs has changed. *)
Definition quiet (s s' : ext2 D) : Prop :=
  fss s' = fss s /\ nodes s' = nodes s /\ forall x, DB s' x = DB s x.

Lemma quiet_refl s : quiet s s.
Proof. done. Qed.
Lemma quiet_trans s1 s2 s3 : quiet s1 s2 -> quiet s2 s3 -> quiet s1 s3.
Proof. intros (H1 & H2 & H3) (G1 & G2 & G3). split_and!; [congruence..|]. intros. by rewrite G3. Qed.

Lemma lift_ret {A} (m : M D A) s a d : m (disk s) = Ret a d -> lift m s = Ret a (set_disk s d).
Proof. intros H. unfold lift. by rewrite H. Qed.
Lemma get_fs_ret s x : fs_at s x -> get_fs f s = Ret x s.
Proof. intros [H _]. unfold get_fs. by rewrite H. Qed.

Lemma alloc_ret n s x : fs_at s x -> exists b s', lift (kzalloc n) s = Ret b s' /\ fs_at s' x /\ quiet s s'.
Proof.
  intros (Hx & Hg & Hr). destruct (law_kzalloc (disk s) dev n Hr) as (b & d & Hk & Hr' & Hb).
  exists b, (set_disk s d). rewrite (lift_ret _ _ _ _ Hk). split_and!; try done.
Qed.

Context (Hlay : layout).

Lemma bs_range : 1024 <= bs <= 4096 /\ bs `mod` 4 = 0.
Proof. destruct (l_bs Hlay) as [->|[->| ->]]; (split; [lia|done]). Qed.

(** The bytes of a block. *)
Definition blk (s : ext2 D) (b : Z) : list Z := map (fun i => DB s (b * bs + i)) (seqZ 0 bs).
Lemma blk_length s b : length (blk s b) = Z.to_nat bs.
Proof. unfold blk. by rewrite length_map, length_seqZ. Qed.
Lemma nth_blk s b i : (i < Z.to_nat bs)%nat -> nth i (blk s b) 0 = DB s (b * bs + Z.of_nat i).
Proof.
  intros Hi. rewrite nth_lookup. unfold blk.
  assert (H : map (fun i => DB s (b * bs + i)) (seqZ 0 bs) !! i = Some (DB s (b * bs + Z.of_nat i))); [|by rewrite H].
  apply (list_lookup_fmap_Some_2 (fun i => DB s (b * bs + i))), lookup_seqZ. lia.
Qed.
Lemma blk_ext s s' b : (forall i, 0 <= i < bs -> DB s' (b * bs + i) = DB s (b * bs + i)) -> blk s' b = blk s b.
Proof. intros H. apply map_ext_in. intros i Hi%list_elem_of_In%elem_of_seqZ. apply H. lia. Qed.

Lemma read_block_ret s x b :
  fs_at s x -> 0 <= b -> b * bs + bs <= dsize dev ->
  exists s', read_block f b s = Ret (0, blk s b) s' /\ fs_at s' x /\ quiet s s'.
Proof.
  intros Hx Hb Hr. pose proof bs_range. unfold read_block. rewrite (bind_ret _ _ _ _ _ (get_fs_ret s x Hx)).
  destruct Hx as (Hx & Hg & Hrd). rewrite (g_dev _ Hg), (g_bs _ Hg).
  destruct (law_bread (disk s) dev (b * bs) bs Hrd ltac:(nia) ltac:(lia) ltac:(lia)) as (d & Hd & Hrd' & Hb').
  exists (set_disk s d). rewrite (lift_ret _ _ _ _ Hd). by split_and!.
Qed.

(** Only the bytes of [lo, lo + length buf) have changed, to [buf]. *)
Definition stored (s s' : ext2 D) (lo : Z) (buf : list Z) : Prop :=
  forall x, 0 <= x < dsize dev -> DB s' x =
    if bool_decide (lo <= x < lo + Z.of_nat (length buf)) then u8 (nth (Z.to_nat (x - lo)) buf 0) else DB s x.

Lemma dev_write_ret s x lo buf :
  fs_at s x -> 0 <= lo -> Z.of_nat (length buf) < 2 ^ 32 -> lo + Z.of_nat (length buf) <= dsize dev ->
  exists s', lift (block_write dev lo buf) s = Ret 0 s' /\ fs_at s' x /\ fss s' = fss s /\ nodes s' = nodes s /\ stored s s' lo buf.
Proof.
  intros (Hx & Hg & Hrd) Hlo Hn Hr. destruct (law_bwrite (disk s) dev lo buf Hrd Hlo Hn Hr) as (d & Hd & Hrd' & Hb).
  exists (set_disk s d). rewrite (lift_ret _ _ _ _ Hd). by split_and!.
Qed.
Lemma write_block_ret s x b buf :
  fs_at s x -> 0 <= b -> b * bs + bs <= dsize dev -> length buf = Z.to_nat bs ->
  exists s', write_block f b buf s = Ret 0 s' /\ fs_at s' x /\ fss s' = fss s /\ nodes s' = nodes s /\ stored s s' (b * bs) buf.
Proof.
  intros Hx Hb Hr Hl. pose proof bs_range. unfold write_block. rewrite (bind_ret _ _ _ _ _ (get_fs_ret s x Hx)).
  rewrite (g_dev _ (proj1 (proj2 Hx))), (g_bs _ (proj1 (proj2 Hx))). apply (dev_write_ret s x); [done|nia|lia|lia].
Qed.
Lemma stored_other s s' lo buf y :
  stored s s' lo buf -> 0 <= y < dsize dev -> ~ (lo <= y < lo + Z.of_nat (length buf)) -> DB s' y = DB s y.
Proof. intros H Hy Hn. rewrite H by done. by rewrite bool_decide_eq_false_2. Qed.
Lemma stored_in s s' lo buf y :
  stored s s' lo buf -> 0 <= y < dsize dev -> lo <= y < lo + Z.of_nat (length buf) -> DB s' y = u8 (nth (Z.to_nat (y - lo)) buf 0).
Proof. intros H Hy Hn. rewrite H by done. by rewrite bool_decide_eq_true_2. Qed.

(** ** Bitmaps *)

Lemma bitmap_scan_spec n bit l (s : ext2 D) :
  0 <= bit -> bit + Z.of_nat n <= 8 * Z.of_nat (length l) ->
  exists o, bitmap_scan n bit l s = Ret o s /\
    match o with
    | Some k => bit <= k < bit + Z.of_nat n /\ Z.testbit (nth (Z.to_nat (k / 8)) l 0) (k `mod` 8) = false
    | None => forall k, bit <= k < bit + Z.of_nat n -> Z.testbit (nth (Z.to_nat (k / 8)) l 0) (k `mod` 8) = true
    end.
Proof.
  revert bit. induction n as [|n IH]; intros bit H0 H1; cbn [bitmap_scan]; [exists None; split; [done|lia]|].
  rewrite (proj2 (Z.leb_gt _ (bit / 8))) by zdiv. destruct (Z.testbit _ _) eqn:Ht.
  - destruct (IH (bit + 1)) as (o & -> & Ho); [lia..|]. exists o. split; [done|]. destruct o as [k|]; [split; [lia|apply Ho]|].
    intros k Hk. destruct (decide (k = bit)) as [->|]; [done|]. apply Ho. lia.
  - exists (Some bit). split; [done|]. split; [lia|done].
Qed.

Lemma testbit_set v k j : 0 <= k -> 0 <= j -> Z.testbit (Z.lor v (2 ^ k)) j = (j =? k) || Z.testbit v j.
Proof. intros Hk Hj. rewrite Z.lor_spec, Z.pow2_bits_eqb by done. rewrite Z.eqb_sym. apply orb_comm. Qed.
Lemma u8_lor v k : 0 <= v < 256 -> 0 <= k < 8 -> u8 (Z.lor v (2 ^ k)) = Z.lor v (2 ^ k).
Proof.
  intros Hv Hk. unfold u8. change (2 ^ 8) with (2 ^ 8). rewrite <- Z.land_ones by lia. apply Z.bits_inj'. intros j Hj.
  rewrite Z.land_spec, Z.testbit_ones_nonneg by lia. destruct (Z.ltb_spec j 8); [by rewrite andb_true_r|].
  rewrite andb_false_r, testbit_set by lia. rewrite (proj2 (Z.eqb_neq j k)) by lia. cbn.
  symmetry. apply (testbit_high v 8 j); lia.
Qed.

(** The mark is set and nothing else has changed. *)
Definition marked (s s' : ext2 D) (g : nat) (i : Z) : Prop :=
  forall y, 0 <= y < dsize dev -> DB s' y =
    if bool_decide (y = bbm g * bs + i / 8) then Z.lor (DB s y) (2 ^ (i `mod` 8)) else DB s y.

Lemma u8_DB s y : u8 (DB s y) = DB s y.
Proof. unfold u8, DB. apply Z.mod_small. apply law_byte. Qed.

Lemma stored_marked s s' g i :
  (g < Z.to_nat gc)%nat -> 0 <= i < bpg -> stored s s' (bbm g * bs) (set_bit (blk s (bbm g)) i) -> marked s s' g i.
Proof.
  intros Hg Hi Hs y Hy. pose proof bs_range as [Hbs _]. pose proof (l_bpg Hlay) as Hb.
  assert (Hi8 : 0 <= i / 8 < bs) by zdiv.
  assert (Hl : length (set_bit (blk s (bbm g)) i) = Z.to_nat bs).
  { unfold set_bit. rewrite put_bytes_length; rewrite blk_length; [done|cbn; lia]. }
  rewrite Hs, Hl, Z2Nat.id by lia. destruct (decide (bbm g * bs <= y < bbm g * bs + bs)) as [Hin|Hin].
  - rewrite bool_decide_eq_true_2 by done. unfold set_bit. rewrite nth_put_bytes by (rewrite blk_length; cbn; lia).
    destruct (decide (y = bbm g * bs + i / 8)) as [Heq|Hne].
    + rewrite !bool_decide_eq_true_2 by (cbn; lia). replace (Z.to_nat (y - bbm g * bs) - Z.to_nat (i / 8))%nat with 0%nat by lia.
      cbn [nth]. rewrite nth_blk, Z2Nat.id by lia. rewrite <- Heq. apply u8_lor; [apply law_byte|zdiv].
    + rewrite !bool_decide_eq_false_2 by (cbn; lia). rewrite nth_blk by lia.
      replace (bbm g * bs + Z.of_nat (Z.to_nat (y - bbm g * bs))) with y by lia. apply u8_DB.
  - rewrite !bool_decide_eq_false_2; [done|lia|done].
Qed.

Lemma bit_blk s g i : 0 <= i < bpg -> bit s g i = Z.testbit (nth (Z.to_nat (i / 8)) (blk s (bbm g)) 0) (i `mod` 8).
Proof.
  intros Hi. pose proof (l_bpg Hlay). pose proof bs_range. unfold bit. rewrite nth_blk by zdiv. rewrite Z2Nat.id by zdiv. done.
Qed.

Lemma bitmap_alloc_ret s x g :
  fs_at s x -> (g < Z.to_nat gc)%nat ->
  exists r i s', bitmap_alloc f (bbm g) bpg s = Ret (r, i) s' /\ fs_at s' x /\ fss s' = fss s /\ nodes s' = nodes s /\
    (r <> 0 -> quiet s s') /\ (r = 0 -> 0 <= i < bpg /\ bit s g i = false /\ marked s s' g i).
Proof.
  intros Hx Hg. destruct (l_bbm Hlay g Hg) as (Hb0 & Hb1 & _). pose proof (l_bpg Hlay) as Hbp. pose proof bs_range as [Hbs _].
  unfold bitmap_alloc. rewrite (bind_ret _ _ _ _ _ (get_fs_ret s x Hx)).
  destruct (alloc_ret (block_size x) s x Hx) as (ok & s1 & Hk & Hx1 & Hq1). rewrite (bind_ret _ _ _ _ _ Hk).
  destruct ok; cbn [negb]; [|exists (- ENOMEM), 0, s1; split_and!; try done; apply Hq1].
  destruct (read_block_ret s1 x (bbm g) Hx1 Hb0 Hb1) as (s2 & Hr & Hx2 & Hq2). rewrite (bind_ret _ _ _ _ _ Hr). cbn [fst snd Z.eqb negb].
  destruct (bitmap_scan_spec (Z.to_nat bpg) 0 (blk s1 (bbm g)) s2) as (o & Ho & Hs); [lia|rewrite blk_length; lia|].
  rewrite (bind_ret _ _ _ _ _ Ho). pose proof (quiet_trans _ _ _ Hq1 Hq2) as Hq.
  assert (Hblk : blk s1 (bbm g) = blk s2 (bbm g)) by (symmetry; apply blk_ext; intros; apply Hq2).
  destruct o as [k|]; [|exists (- ENOSYS), 0, s2; split_and!; try done; apply Hq].
  rewrite Hblk in *. destruct Hs as [Hk1 Hk2]. rewrite Z.add_0_l, Z2Nat.id in Hk1 by lia.
  destruct (write_block_ret s2 x (bbm g) (set_bit (blk s2 (bbm g)) k) Hx2 Hb0 Hb1) as (s3 & Hw & Hx3 & Hf3 & Hn3 & Hst).
  { unfold set_bit. rewrite put_bytes_length; rewrite blk_length; [done|]. cbn. zdiv. }
  rewrite (bind_ret _ _ _ _ _ Hw). cbn [Z.eqb negb]. exists 0, k, s3.
  pose proof (stored_marked s2 s3 g k Hg Hk1 Hst) as Hm. destruct Hq as (Hqf & Hqn & Hqb). split_and!; try done; try congruence.
  intros _. split_and!; try lia.
  - rewrite bit_blk by done. rewrite <- Hk2. f_equal. f_equal. apply blk_ext. intros. by rewrite Hqb.
  - intros y Hy. rewrite Hm by done. by rewrite Hqb.
Qed.

(** ** Blocks *)

Lemma geom_counts x g v w :
  geom x -> (g < Z.to_nat gc)%nat ->
  geom (with_counts x (p32 (f_sb x) 12 v) (p16 (groups x) (g * sizeof_group + 12) w)).
Proof.
  intros [H1 H2 H3 H4 H5 H6 H7 H8 H9 H10 H11 H12 H13 H14] Hg. unfold sizeof_group in *.
  assert (Hl : (g * 32 + 12 + 2 <= length (groups x))%nat) by (rewrite H6; lia).
  unfold with_counts, p32, p16. split; cbn [f_dev block_size group_count gd_off f_sb groups]; try done.
  - by rewrite put_bytes_length by (rewrite H5; cbn; lia).
  - by rewrite put_bytes_length by (cbn; lia).
  - rewrite <- H7. apply g32_other; [rewrite H5|]; cbn; lia.
  - rewrite <- H8. apply g32_other; [rewrite H5|]; cbn; lia.
  - rewrite <- H9. apply g32_other; [rewrite H5|]; cbn; lia.
  - intros h Hh. rewrite <- H10 by done. apply g32_other; [cbn; lia|]. unfold sizeof_group. cbn. lia.
  - rewrite <- H11. apply g32_other; [rewrite H5|]; cbn; lia.
  - rewrite <- H12. apply g32_other; [rewrite H5|]; cbn; lia.
  - rewrite <- H13. apply g16_other; [rewrite H5|]; cbn; lia.
  - intros h Hh. rewrite <- H14 by done. apply g32_other; [cbn; lia|]. unfold sizeof_group. cbn. lia.
Qed.

Definition in_super (y : Z) : Prop := 1024 <= y < 1224.
Definition in_groups (y : Z) : Prop := goff <= y < goff + 32 * gc.
Definition in_bitmaps (y : Z) : Prop := exists g, (g < Z.to_nat gc)%nat /\ bbm g * bs <= y < bbm g * bs + bs.
Definition in_blk (b y : Z) : Prop := b * bs <= y < b * bs + bs.

Lemma write_metadata_ret s x :
  fs_at s x -> exists s', write_metadata f s = Ret 0 s' /\ fs_at s' x /\ fss s' = fss s /\ nodes s' = nodes s /\
    forall y, 0 <= y < dsize dev -> ~ in_super y -> ~ in_groups y -> DB s' y = DB s y.
Proof.
  intros Hx. pose proof (proj1 (proj2 Hx)) as Hg. pose proof (l_goff Hlay) as (Hg0 & Hg1 & _). pose proof (l_super Hlay) as Hsu.
  pose proof (l_gc Hlay) as Hgc. unfold write_metadata. rewrite (bind_ret _ _ _ _ _ (get_fs_ret s x Hx)), (g_dev _ Hg), (g_off _ Hg).
  destruct (dev_write_ret s x EXT2_SUPER_OFFSET (f_sb x) Hx) as (s1 & H1 & Hx1 & Hf1 & Hn1 & Hs1);
    [done|rewrite (g_sb _ Hg); lia|rewrite (g_sb _ Hg); unfold EXT2_SUPER_OFFSET; lia|].
  rewrite (bind_ret _ _ _ _ _ H1). cbn [Z.eqb negb].
  destruct (dev_write_ret s1 x goff (groups x) Hx1) as (s2 & H2 & Hx2 & Hf2 & Hn2 & Hs2);
    [done|rewrite (g_gs _ Hg); lia|rewrite (g_gs _ Hg); lia|].
  exists s2. split_and!; try done; try congruence. intros y Hy Ha Hb. unfold in_super, in_groups in *.
  rewrite (stored_other _ _ _ _ _ Hs2), (stored_other _ _ _ _ _ Hs1); [done|done| |done|].
  - rewrite (g_sb _ Hg). unfold EXT2_SUPER_OFFSET. lia.
  - rewrite (g_gs _ Hg). lia.
Qed.

(** Free blocks are none of the metadata. *)
Definition free_plain (s : ext2 D) : Prop :=
  forall g i, (g < Z.to_nat gc)%nat -> 0 <= i < bpg -> blk_no g i < bcount -> bit s g i = false -> plain (blk_no g i).

(** What a successful allocation of block [i] of group [g] does. *)
Record allocated (s s' : ext2 D) (g : nat) (i : Z) : Prop := {
  a_group : (g < Z.to_nat gc)%nat;
  a_index : 0 <= i < bpg;
  a_count : blk_no g i < bcount;
  a_free : bit s g i = false;
  a_bits : forall h j, (h < Z.to_nat gc)%nat -> 0 <= j < bpg ->
    bit s' h j = bool_decide (h = g /\ j = i) || bit s h j;
  a_zero : forall y, in_blk (blk_no g i) y -> DB s' y = 0;
  a_same : forall y, 0 <= y < dsize dev -> ~ in_super y -> ~ in_groups y -> ~ in_bitmaps y -> ~ in_blk (blk_no g i) y ->
    DB s' y = DB s y;
  a_nodes : nodes s' = nodes s }.

Lemma marked_bits s s' g i h j :
  marked s s' g i -> (g < Z.to_nat gc)%nat -> 0 <= i < bpg -> (h < Z.to_nat gc)%nat -> 0 <= j < bpg ->
  bit s' h j = bool_decide (h = g /\ j = i) || bit s h j.
Proof.
  intros Hm Hg Hi Hh Hj. pose proof (l_bpg Hlay). pose proof bs_range. destruct (l_bbm Hlay h Hh) as (Hb0 & Hb1 & _).
  assert (0 <= j / 8 < bs /\ 0 <= i / 8 < bs) by zdiv. unfold bit. rewrite Hm by lia.
  destruct (decide (h = g)) as [->|Hne].
  - destruct (decide (j / 8 = i / 8)) as [Heq|Hq].
    + rewrite bool_decide_eq_true_2 by lia. rewrite testbit_set by zdiv. f_equal. apply Bool.eq_iff_eq_true.
      rewrite Z.eqb_eq, bool_decide_eq_true. split; [intros; split; [done|zdiv]|intros [_ ->]; done].
    + rewrite !bool_decide_eq_false_2; [done| |lia]. intros [_ ->]. done.
  - rewrite !bool_decide_eq_false_2; [done| |]; [by intros [? _]|].
    pose proof (l_bbm2 Hlay h g Hh Hg Hne) as Hap. unfold apart in Hap. lia.
Qed.

Lemma quiet_bit s s' g i : quiet s s' -> bit s' g i = bit s g i.
Proof. intros (_ & _ & H). unfold bit. by rewrite H. Qed.
Lemma allocated_quiet s0 s s' g i : quiet s0 s -> allocated s s' g i -> allocated s0 s' g i.
Proof.
  intros Hq [H1 H2 H3 H4 H5 H6 H7 H8]. pose proof Hq as (_ & Hn & Hb). split; try done.
  - by rewrite <- (quiet_bit _ _ _ _ Hq).
  - intros h j Hh Hj. rewrite H5 by done. by rewrite (quiet_bit _ _ _ _ Hq).
  - intros y Hy Ha Hb' Hc Hd. rewrite H7 by done. apply Hb.
  - congruence.
Qed.

(** The marking, the counts and the zeros together. *)
Lemma allocated_intro s s1 s2 s3 g i :
  (g < Z.to_nat gc)%nat -> 0 <= i < bpg -> blk_no g i < bcount -> bit s g i = false -> plain (blk_no g i) ->
  marked s s1 g i ->
  (forall y, 0 <= y < dsize dev -> ~ in_super y -> ~ in_groups y -> DB s2 y = DB s1 y) ->
  stored s2 s3 (blk_no g i * bs) (replicate (Z.to_nat bs) 0) -> nodes s3 = nodes s -> allocated s s3 g i.
Proof.
  intros Hg Hi Hc Hb (Hp0 & Hp1 & Hp2 & Hp3 & Hp4 & _) Hm Hmeta Hst Hn. pose proof bs_range as [Hbs _]. pose proof (l_bpg Hlay) as Hbp.
  unfold apart in *. assert (Hlen : Z.of_nat (length (replicate (Z.to_nat bs) 0)) = bs) by (rewrite length_replicate; lia).
  assert (Hb0 : 0 <= blk_no g i * bs) by nia.
  split; try done.
  - intros h j Hh Hj. rewrite <- (marked_bits s s1 g i h j Hm Hg Hi Hh Hj). unfold bit.
    destruct (l_bbm Hlay h Hh) as (Hq0 & Hq1 & Hq2 & Hq3). specialize (Hp4 h Hh). unfold apart in *.
    assert (0 <= j / 8 < bs) by zdiv. rewrite (stored_other _ _ _ _ _ Hst); [|nia|rewrite Hlen; lia].
    rewrite Hmeta; [done|nia|unfold in_super; lia|unfold in_groups; lia].
  - intros y Hy. unfold in_blk in Hy. rewrite (stored_in _ _ _ _ _ Hst); [|lia|rewrite Hlen; lia].
    rewrite nth_lookup, lookup_replicate_2 by lia. done.
  - intros y Hy Ha Hb' Hc' Hd. rewrite (stored_other _ _ _ _ _ Hst) by (rewrite ?Hlen; unfold in_blk in Hd; lia).
    rewrite Hmeta, Hm by done. rewrite bool_decide_eq_false_2; [done|]. intros ->. apply Hc'. exists g.
    split; [done|]. assert (0 <= i / 8 < bs) by zdiv. lia.
Qed.

Lemma alloc_block_loop_ret n g s0 s x :
  (g + n = Z.to_nat gc)%nat -> fs_at s x -> quiet s0 s -> free_plain s0 ->
  exists r b s', alloc_block_loop n g f s = Ret (r, b) s' /\
    (r = 0 -> exists h i x', b = blk_no h i /\ allocated s0 s' h i /\ fs_at s' x').
Proof.
  revert g s. induction n as [|n IH]; intros g s Hg Hx Hq Hf; cbn [alloc_block_loop]; [by exists (- ENOSYS), 0, s|].
  rewrite (bind_ret _ _ _ _ _ (get_fs_ret s x Hx)). pose proof (proj1 (proj2 Hx)) as Hgm.
  destruct (_ =? 0); [by apply IH; try lia|].
  rewrite (g_bbm _ Hgm), (g_bpg _ Hgm), (g_first _ Hgm), (g_count _ Hgm), (g_bs _ Hgm) by lia.
  destruct (bitmap_alloc_ret s x g Hx ltac:(lia)) as (r & i & s1 & Hr & Hx1 & Hf1 & Hn1 & Hbad & Hgood).
  rewrite (bind_ret _ _ _ _ _ Hr). cbn [fst snd]. destruct (Z.eqb_spec r 0) as [->|Hz]; cbn [negb].
  2:{ apply IH; [lia|done|by eapply quiet_trans; [|apply Hbad]|done]. }
  destruct (Hgood eq_refl) as (Hi & Hb & Hm). pose proof (l_count Hlay) as Hcnt. pose proof (l_first Hlay) as Hfirst.
  pose proof (l_bpg Hlay) as Hbp. rewrite (u32_small (_ + first)) by nia. change (_ + first) with (blk_no g i).
  destruct (Z.leb_spec bcount (blk_no g i)) as [Hle|Hlt]; [by exists (- EINVAL), 0, s1|].
  assert (Hpl : plain (blk_no g i)) by (apply Hf; [lia|done|done|by rewrite <- (quiet_bit _ _ _ _ Hq)]).
  rewrite (bind_ret (put_fs _ _) _ s1 tt _ eq_refl). set (x1 := with_counts x _ _). set (s2 := set_fss s1 _).
  assert (Hx2 : fs_at s2 x1).
  { split_and!; [unfold s2; cbn; by rewrite lookup_insert_eq|apply geom_counts; [done|lia]|apply Hx1]. }
  destruct (write_metadata_ret s2 x1 Hx2) as (s3 & Hw & Hx3 & Hf3 & Hn3 & Hsame). rewrite (bind_ret _ _ _ _ _ Hw). cbn [Z.eqb negb].
  destruct (alloc_ret bs s3 x1 Hx3) as (ok & s4 & Hk & Hx4 & Hq4). rewrite (bind_ret _ _ _ _ _ Hk).
  destruct ok; cbn [negb]; [|by exists (- ENOMEM), 0, s4]. destruct Hpl as (Hp0 & Hp1 & Hp2).
  destruct (write_block_ret s4 x1 (blk_no g i) (replicate (Z.to_nat bs) 0) Hx4 ltac:(lia) Hp1) as (s5 & Hw5 & Hx5 & Hf5 & Hn5 & Hst);
    [apply length_replicate|]. rewrite (bind_ret _ _ _ _ _ Hw5). cbn [Z.eqb negb].
  exists 0, (blk_no g i), s5. split; [done|]. intros _. exists g, i, x1. split; [done|]. split; [|done].
  eapply allocated_quiet; [done|]. apply (allocated_intro s s1 s4 s5); try done; [lia| |].
  - intros y Hy Ha Hb'. rewrite (proj2 (proj2 Hq4)). by rewrite Hsame.
  - rewrite Hn5, (proj1 (proj2 Hq4)), Hn3. unfold s2. cbn. done.
Qed.

(** What it comes to: the block was free. *)
Lemma alloc_block_ret s x :
  fs_at s x -> free_plain s ->
  exists r b s', alloc_block f s = Ret (r, b) s' /\
    (r = 0 -> exists h i x', b = blk_no h i /\ allocated s s' h i /\ fs_at s' x').
Proof.
  intros Hx Hf. unfold alloc_block. rewrite (bind_ret _ _ _ _ _ (get_fs_ret s x Hx)), (g_gc _ (proj1 (proj2 Hx))).
  by apply (alloc_block_loop_ret _ 0 s s x).
Qed.

(** ** Inodes *)

Lemma write_inode_ret s x ino i :
  fs_at s x -> length i = 128%nat -> 0 <= ino ->
  exists r s', write_inode f ino i s = Ret r s' /\
    (r = 0 -> exists o, inode_off G ino = Some o /\ fs_at s' x /\ fss s' = fss s /\ nodes s' = nodes s /\ stored s s' o i).
Proof.
  intros Hx Hl Hpos. pose proof (proj1 (proj2 Hx)) as Hg. unfold write_inode, inode_place.
  rewrite bind_assoc, (bind_ret _ _ _ _ _ (get_fs_ret s x Hx)).
  rewrite (g_inodes _ Hg), (g_ipg _ Hg), (g_gc _ Hg), (g_bs _ Hg), (g_isize _ Hg), (g_dev _ Hg).
  destruct ((ino =? 0) || (q_inodes G <? ino)) eqn:Hi; [by exists (- ENOENT), s|].
  pose proof (l_ipg Hlay) as Hip. rewrite (proj2 (Z.eqb_neq _ 0)) by lia. cbv zeta.
  destruct (Z.leb_spec gc ((ino - 1) / q_ipg G)) as [Hge|Hlt]; [by exists (- ENOENT), s|].
  rewrite (bind_ret (ret _) _ s _ s eq_refl). cbv iota beta.
  set (o := inode_table _ _ * _ + _).
  assert (H0 : 0 <= (ino - 1) / q_ipg G) by (apply orb_false_iff in Hi as [Hi _]; bools; apply Z.div_pos; lia).
  assert (Ho : inode_off G ino = Some o).
  { unfold inode_off. rewrite Hi. cbv zeta. rewrite (proj2 (Z.leb_gt _ _)) by lia. unfold o.
      rewrite (g_itab _ Hg) by lia. done. }
  destruct (l_inode Hlay ino o Ho) as (Ho0 & Ho1 & _).
  destruct (dev_write_ret s x o i Hx Ho0) as (s' & Hw & Hx' & Hf & Hn & Hst); [lia|lia|].
  exists 0, s'. split; [done|]. intros _. exists o. by split_and!.
Qed.
End alloc.
