(* ===== verification/Ext2Tree.v ===== *)
(** * ext2: the blocks of a file are a tree

    The block map of an inode, with its single, double and triple indirect blocks, as a
    finite map from paths to blocks: finding and adding blocks. *)

From stdpp Require Import base list gmap.
From Stdlib Require Import ZArith Lia.
From S2P Require Import Prelude Ext2 Ext2File Ext2Alloc.

Local Open Scope Z_scope.

Section tree.
Context {D : Type} {env : Ext2Env D} {laws : Ext2Laws D}.
Context (G : geometry) (Hlay : layout G).
Abbreviation f := (q_f G).
Abbreviation bs := (q_bs G).
Abbreviation gc := (q_gc G).
Abbreviation bpg := (q_bpg G).

Definition ppb : Z := bs / 4.
Lemma ppb_range : 256 <= ppb <= 1024 /\ bs = 4 * ppb.
Proof. unfold ppb. pose proof (l_bs _ Hlay) as H. zdiv. Qed.

(** ** Paths *)

(** Index blocks above the data behind slot [k] of the inode. *)
Definition levels (k : Z) : nat := if k <? 12 then 0 else Z.to_nat (k - 11).
Definition wf_path (p : list Z) : Prop :=
  match p with
  | [] => False
  | k :: rest => 0 <= k < 15 /\ (length rest <= levels k)%nat /\ Forall (fun j => 0 <= j < ppb) rest
  end.
Definition index_path (p : list Z) : Prop := match p with [] => False | k :: rest => (length rest < levels k)%nat end.

Fixpoint digits (d : nat) (b : Z) : list Z :=
  match d with
  | O => []
  | S O => [b]
  | S (S _ as d') => b / ppb ^ Z.of_nat d' :: digits d' (b `mod` ppb ^ Z.of_nat d')
  end.
(** The path to the [idx]-th block of a file. *)
Definition path_of (idx : Z) : option (list Z) :=
  let b := idx - 12 in
  if idx <? 12 then Some [idx]
  else if b <? ppb then Some (12 :: digits 1 b)
  else
    let b := b - ppb in
    if b <? ppb ^ 2 then Some (13 :: digits 2 b)
    else let b := b - ppb ^ 2 in if b <? ppb ^ 3 then Some (14 :: digits 3 b) else None.

Lemma digits_length d b : length (digits d b) = d.
Proof. revert b. induction d as [|d IH]; intros b; [done|]. cbn [digits]. destruct d; [done|]. cbn [length]. by rewrite IH. Qed.
Lemma digits_S d b : (0 < d)%nat -> digits (S d) b = b / ppb ^ Z.of_nat d :: digits d (b `mod` ppb ^ Z.of_nat d).
Proof. destruct d; [lia|done]. Qed.
Lemma pow_pos (d : nat) : 0 < ppb ^ Z.of_nat d.
Proof. pose proof ppb_range. apply Z.pow_pos_nonneg; lia. Qed.
Lemma path_digits_range d b : (0 < d)%nat -> 0 <= b < ppb ^ Z.of_nat d -> Forall (fun j => 0 <= j < ppb) (digits d b).
Proof.
  revert b. induction d as [|d IH]; intros b Hd Hb; [lia|]. destruct (decide (d = 0)%nat) as [->|Hne].
  { cbn [digits]. constructor; [|constructor]. cbn in Hb. lia. }
  rewrite digits_S by lia. pose proof (pow_pos d) as Hp. rewrite Nat2Z.inj_succ, Z.pow_succ_r in Hb by lia.
  constructor; [|apply IH; [lia|by apply Z.mod_pos_bound]].
  split; [apply Z.div_pos; lia|]. apply Z.div_lt_upper_bound; lia.
Qed.
Lemma digits_inj d b c : 0 <= b < ppb ^ Z.of_nat d -> 0 <= c < ppb ^ Z.of_nat d -> digits d b = digits d c -> b = c.
Proof.
  revert b c. induction d as [|d IH]; intros b c Hb Hc; [cbn in *; lia|]. destruct (decide (d = 0)%nat) as [->|Hne].
  { cbn [digits]. intros H. by injection H. }
  rewrite !digits_S by lia. intros H. injection H as Hq Hr. pose proof (pow_pos d) as Hp.
  apply IH in Hr; [|by apply Z.mod_pos_bound..].
  rewrite (Z.div_mod b (ppb ^ Z.of_nat d)), (Z.div_mod c (ppb ^ Z.of_nat d)) by lia. by rewrite Hq, Hr.
Qed.

(** The first block of a file behind slot [k]. *)
Definition base_of (k : Z) : Z :=
  if k <? 12 then k else if k =? 12 then 12 else if k =? 13 then 12 + ppb else 12 + ppb + ppb ^ 2.
Lemma path_of_spec idx p :
  0 <= idx -> path_of idx = Some p ->
  exists k, 0 <= k < 15 /\ p = k :: digits (levels k) (idx - base_of k) /\ 0 <= idx - base_of k < ppb ^ Z.of_nat (levels k).
Proof.
  intros Hi. unfold path_of. cbv zeta.
  destruct (Z.ltb_spec idx 12).
  { intros [= <-]. exists idx. unfold levels, base_of. rewrite (proj2 (Z.ltb_lt idx 12)) by done. split_and!; try lia; try done; cbn; lia. }
  destruct (Z.ltb_spec (idx - 12) ppb).
  { intros [= <-]. exists 12. change (levels 12) with 1%nat. change (base_of 12) with 12. change (Z.of_nat 1) with 1.
    rewrite Z.pow_1_r. split_and!; try lia; done. }
  destruct (Z.ltb_spec (idx - 12 - ppb) (ppb ^ 2)).
  { intros [= <-]. exists 13. change (levels 13) with 2%nat. change (base_of 13) with (12 + ppb).
    replace (idx - 12 - ppb) with (idx - (12 + ppb)) in * by lia. split_and!; try lia; done. }
  destruct (Z.ltb_spec (idx - 12 - ppb - ppb ^ 2) (ppb ^ 3)); [|done].
  intros [= <-]. exists 14. change (levels 14) with 3%nat. change (base_of 14) with (12 + ppb + ppb ^ 2).
  replace (idx - 12 - ppb - ppb ^ 2) with (idx - (12 + ppb + ppb ^ 2)) in * by lia. split_and!; try lia; done.
Qed.
Lemma block_path_inj i j p : 0 <= i -> 0 <= j -> path_of i = Some p -> path_of j = Some p -> i = j.
Proof.
  intros Hi Hj Hp Hq. destruct (path_of_spec i p Hi Hp) as (k & _ & -> & Hr).
  destruct (path_of_spec j _ Hj Hq) as (k' & _ & Heq & Hr'). injection Heq as <- Hd. apply digits_inj in Hd; [lia|done|done].
Qed.
Lemma path_of_data idx p : 0 <= idx -> path_of idx = Some p -> wf_path p /\ ~ index_path p.
Proof.
  intros Hi Hp. destruct (path_of_spec idx p Hi Hp) as (k & Hk & -> & Hr). cbn. rewrite digits_length. split; [|lia].
  split_and!; [lia|lia|lia|]. destruct (levels k) eqn:Hl; [constructor|]. apply path_digits_range; [lia|done].
Qed.

(** ** The tree *)

Record tree (s : ext2 D) (R : Z -> Z) (T : gmap (list Z) Z) : Prop := {
  t_root : forall k, 0 <= k < 15 -> R k = default 0 (T !! [k]);
  t_wf : forall p b, T !! p = Some b -> wf_path p;
  t_parent : forall p j, p <> [] -> is_Some (T !! (p ++ [j])) -> is_Some (T !! p);
  t_index : forall p b j, T !! p = Some b -> index_path p -> 0 <= j < ppb ->
    ptr (blk G s b) j = default 0 (T !! (p ++ [j]));
  t_inj : forall p q b, T !! p = Some b -> T !! q = Some b -> p = q;
  t_block : forall p b, T !! p = Some b -> plain G b /\
    exists g i, (g < Z.to_nat gc)%nat /\ 0 <= i < bpg /\ b = blk_no G g i /\ bit G s g i = true }.

Lemma tree_pos s R T p b : tree s R T -> T !! p = Some b -> 0 < b.
Proof. intros Ht Hp. destruct (t_block _ _ _ Ht p b Hp) as [[H _] _]. done. Qed.
Lemma tree_none s R T p l : tree s R T -> p <> [] -> T !! p = None -> T !! (p ++ l) = None.
Proof.
  intros Ht Hp Hn. induction l as [|j l IH] using rev_ind; [by rewrite app_nil_r|].
  destruct (T !! (p ++ l ++ [j])) eqn:H; [|done]. rewrite app_assoc in H.
  destruct (t_parent _ _ _ Ht (p ++ l) j) as [b Hb]; [by destruct p|by eexists|]. congruence.
Qed.
Lemma tree_quiet s s' R T : tree s R T -> quiet G s s' -> tree s' R T.
Proof.
  intros [H1 H2 H3 H4 H5 H6] Hq. split; try done.
  - intros p b j Hp Hi Hj. rewrite <- (H4 p b j) by done. f_equal. apply blk_ext. intros. apply Hq.
  - intros p b Hp. destruct (H6 p b Hp) as (Hpl & g & i & Hg & Hi & -> & Hb). split; [done|]. exists g, i.
    rewrite (quiet_bit _ _ _ _ _ Hq). split_and!; try done; lia.
Qed.

Lemma span_eq d : (d <= 2)%nat -> ext2_index_span ppb (S d) = ppb ^ Z.of_nat d.
Proof.
  pose proof ppb_range as [Hp _]. intros Hd. destruct d as [|[|[|d]]]; [done| | |lia].
  - cbn [ext2_index_span]. rewrite u64_small by lia. cbn. lia.
  - cbn [ext2_index_span]. rewrite (u64_small (1 * ppb)) by lia. rewrite u64_small by nia. cbn. lia.
Qed.

(** [p] is [d] levels above the data. *)
Definition above (p : list Z) (d : nat) : Prop := exists k rest, p = k :: rest /\ (length rest + d)%nat = levels k.
Lemma above_index p d : above p (S d) -> index_path p.
Proof. intros (k & rest & -> & H). cbn. lia. Qed.
Lemma above_snoc p d j : above p (S d) -> above (p ++ [j]) d.
Proof. intros (k & rest & -> & H). exists k, (rest ++ [j]). split; [done|]. rewrite length_app. cbn. lia. Qed.

Lemma index_slot_range d fb : (0 < d)%nat -> 0 <= fb < ppb ^ Z.of_nat (S d) ->
  0 <= fb / ppb ^ Z.of_nat d < ppb /\ 0 <= fb `mod` ppb ^ Z.of_nat d < ppb ^ Z.of_nat d.
Proof.
  intros Hd Hb. pose proof (pow_pos d) as Hp. rewrite Nat2Z.inj_succ, Z.pow_succ_r in Hb by lia.
  split; [|by apply Z.mod_pos_bound]. split; [apply Z.div_pos; lia|]. apply Z.div_lt_upper_bound; lia.
Qed.
Lemma pow_u32 d : (d <= 3)%nat -> ppb ^ Z.of_nat d < 2 ^ 32.
Proof.
  intros Hd. pose proof ppb_range as [Hp _]. apply (Z.le_lt_trans _ (1024 ^ 3)); [|done].
  transitivity (1024 ^ Z.of_nat d); [apply Z.pow_le_mono_l; lia|apply Z.pow_le_mono_r; lia].
Qed.

(** Finding a block below the index block at [p]. *)
Lemma indirect_ret d s x R T p fb :
  tree s R T -> fs_at G s x -> (d < 3)%nat -> above p (S d) -> 0 <= fb < ppb ^ Z.of_nat (S d) ->
  exists r b s', file_block_indirect (S d) f (default 0 (T !! p)) fb s = Ret (r, b) s' /\ fs_at G s' x /\ quiet G s s' /\
    (r = 0 -> b = default 0 (T !! (p ++ digits (S d) fb))).
Proof.
  revert s p fb. induction d as [d IH] using lt_wf_ind; intros s p fb Ht Hx Hd Hp Hfb. cbn [file_block_indirect].
  assert (Hpn : p <> []) by (destruct Hp as (k & rest & -> & _); done).
  destruct (T !! p) as [block|] eqn:Hb; cbn [default].
  2:{ exists 0, 0, s. split_and!; try done. intros _. by rewrite (tree_none _ _ _ _ _ Ht Hpn Hb). }
  pose proof (tree_pos _ _ _ _ _ Ht Hb) as Hb0. unfold default, id. rewrite (proj2 (Z.eqb_neq block 0)) by lia.
  rewrite (bind_ret _ _ _ _ _ (get_fs_ret G s x Hx)), (g_bs _ _ (proj1 (proj2 Hx))). fold ppb. cbv zeta.
  pose proof ppb_range as [Hpp _]. rewrite span_eq by lia. pose proof (pow_u32 (S d) ltac:(lia)) as Hu. pose proof (pow_pos d) as Hpd.
  assert (Hmul : ppb ^ Z.of_nat d * ppb = ppb ^ Z.of_nat (S d)) by (rewrite Nat2Z.inj_succ, Z.pow_succ_r by lia; lia).
  rewrite Hmul, (u64_small (ppb ^ Z.of_nat (S d))) by lia. rewrite (proj2 (Z.leb_gt _ fb)) by lia.
  destruct (alloc_ret G bs s x Hx) as (ok & s1 & Hk & Hx1 & Hq1). rewrite (bind_ret _ _ _ _ _ Hk).
  destruct ok; cbn [negb]; [|by exists (- ENOMEM), 0, s1].
  destruct (t_block _ _ _ Ht p block Hb) as [(_ & Hpl & _) _].
  destruct (read_block_ret G Hlay s1 x block Hx1 ltac:(lia) Hpl) as (s2 & Hr & Hx2 & Hq2). rewrite (bind_ret _ _ _ _ _ Hr).
  cbn [fst snd Z.eqb negb]. pose proof (quiet_trans _ _ _ _ Hq1 Hq2) as Hq.
  pose proof (tree_quiet _ _ _ _ Ht Hq1) as Ht1.
  destruct d as [|d].
  - exists 0, (ptr (blk G s1 block) fb), s2. split_and!; try done. intros _. cbn [digits].
    apply (t_index _ _ _ Ht1 p); [done|by eapply above_index|]. change (Z.of_nat 1) with 1 in Hfb. rewrite Z.pow_1_r in Hfb. done.
  - destruct (index_slot_range (S d) fb) as [Hs1 Hs2]; [lia|done|]. pose proof (pow_u32 (S d) ltac:(lia)) as Hu'.
    unfold u32 at 1 2. rewrite !Z.mod_small by lia.
    rewrite (t_index _ _ _ Ht1 p block (fb / ppb ^ Z.of_nat (S d)) Hb (above_index _ _ Hp) Hs1).
    destruct (IH d ltac:(lia) s2 (p ++ [fb / ppb ^ Z.of_nat (S d)]) (fb `mod` ppb ^ Z.of_nat (S d)))
      as (r & b & s3 & Hr3 & Hx3 & Hq3 & Hok); [by eapply tree_quiet|done|lia|by apply above_snoc|done|].
    exists r, b, s3. split_and!; try done; [by eapply quiet_trans..|].
    intros Hz. rewrite (Hok Hz), (digits_S (S d) fb), <- app_assoc by lia. done.
Qed.

(** ** A file *)

Context (n : Z).
Definition node_at (s : ext2 D) (y : ext2_node) : Prop :=
  nodes s !! n = Some y /\ n_fs y = f /\ length (n_inode y) = 128%nat /\ 0 <= n_ino y.
Definition roots (y : ext2_node) (k : Z) : Z := i_block (n_inode y) (Z.to_nat k).
Lemma get_node_ret s y : node_at s y -> get_node n s = Ret y s.
Proof. intros [H _]. unfold get_node. by rewrite H. Qed.
Lemma node_quiet s s' y : node_at s y -> quiet G s s' -> node_at s' y.
Proof. intros (H1 & H2) (_ & Hn & _). split; [by rewrite Hn|done]. Qed.

Lemma u32_id v : 0 <= v < 2 ^ 32 -> u32 v = v.
Proof. apply u32_small. Qed.
(** The slot behind which a block of a file is found, and its place there. *)
Lemma file_block_ret s x y T idx :
  fs_at G s x -> node_at s y -> tree s (roots y) T -> 0 <= idx < 2 ^ 32 ->
  exists r b s', file_block n idx s = Ret (r, b) s' /\ fs_at G s' x /\ quiet G s s' /\
    (r = 0 -> exists p, path_of idx = Some p /\ b = default 0 (T !! p)).
Proof.
  intros Hx Hy Ht Hi. unfold file_block. rewrite (bind_ret _ _ _ _ _ (get_node_ret s y Hy)).
  pose proof (proj1 (proj2 Hy)) as Hf. rewrite Hf, (bind_ret _ _ _ _ _ (get_fs_ret G s x Hx)), (g_bs _ _ (proj1 (proj2 Hx))).
  fold ppb. cbv zeta. pose proof ppb_range as [Hpp _]. unfold path_of. cbv zeta.
  destruct (Z.ltb_spec idx 12).
  { exists 0, (i_block (n_inode y) (Z.to_nat idx)), s. split_and!; try done. intros _. exists [idx]. split; [done|].
    apply (t_root _ _ _ Ht idx). lia. }
  rewrite (u32_id (idx - 12)) by lia. destruct (Z.ltb_spec (idx - 12) ppb).
  { change (i_block (n_inode y) 12) with (roots y 12). rewrite (t_root _ _ _ Ht) by lia.
    destruct (indirect_ret 0 s x _ T [12] (idx - 12) Ht Hx) as (r & b & s' & Hr & Hx' & Hq & Hok);
      [lia|by exists 12, []|cbn; lia|]. exists r, b, s'. split_and!; try done; [apply Hq..|]. intros Hz. rewrite (Hok Hz). by eexists. }
  assert (Hp2 : ppb * ppb = ppb ^ 2) by lia. assert (Hp3 : ppb ^ 2 * ppb = ppb ^ 3) by lia.
  pose proof (pow_u32 3 ltac:(lia)) as Hu3. change (Z.of_nat 3) with 3 in Hu3.
  rewrite (u32_id (idx - 12 - ppb)), (u64_small (ppb * ppb)), Hp2 by nia. destruct (Z.ltb_spec (idx - 12 - ppb) (ppb ^ 2)).
  { change (i_block (n_inode y) 13) with (roots y 13). rewrite (t_root _ _ _ Ht) by lia.
    destruct (indirect_ret 1 s x _ T [13] (idx - 12 - ppb) Ht Hx) as (r & b & s' & Hr & Hx' & Hq & Hok);
      [lia|by exists 13, []|change (Z.of_nat 2) with 2; lia|]. exists r, b, s'. split_and!; try done; [apply Hq..|]. intros Hz. rewrite (Hok Hz). by eexists. }
  rewrite (u32_id (ppb ^ 2)) by nia. rewrite (u32_id (idx - 12 - ppb - ppb ^ 2)) by lia.
  rewrite Hp3, (u64_small (ppb ^ 3)) by lia.
  destruct (Z.ltb_spec (idx - 12 - ppb - ppb ^ 2) (ppb ^ 3)).
  { change (i_block (n_inode y) 14) with (roots y 14). rewrite (t_root _ _ _ Ht) by lia.
    destruct (indirect_ret 2 s x _ T [14] (idx - 12 - ppb - ppb ^ 2) Ht Hx) as (r & b & s' & Hr & Hx' & Hq & Hok);
      [lia|by exists 14, []|change (Z.of_nat 3) with 3; lia|]. exists r, b, s'. split_and!; try done; [apply Hq..|]. intros Hz. rewrite (Hok Hz). by eexists. }
  by exists (- ENOSYS), 0, s.
Qed.

(** ** Adding a block *)

(** Block [b] is marked. *)
Definition used (s : ext2 D) (b : Z) : Prop :=
  exists g i, (g < Z.to_nat gc)%nat /\ 0 <= i < bpg /\ b = blk_no G g i /\ bit G s g i = true.

Lemma blk_no_inj g i h j : 0 <= i < bpg -> 0 <= j < bpg -> blk_no G g i = blk_no G h j -> g = h /\ i = j.
Proof.
  unfold blk_no. intros Hi Hj H. assert (Hg : Z.of_nat g * bpg + i = Z.of_nat h * bpg + j) by lia.
  destruct (Z.lt_trichotomy (Z.of_nat g) (Z.of_nat h)) as [Hlt|[Heq|Hgt]]; [nia| |nia].
  split; [lia|]. rewrite Heq in Hg. lia.
Qed.

(** The map with a block [b] at the path [p], which was free. *)
Lemma tree_link s s1 R R' T p b :
  tree s R T -> T !! p = None -> wf_path p ->
  (forall q j, q <> [] -> p = q ++ [j] -> is_Some (T !! q)) ->
  (forall k, 0 <= k < 15 -> R' k = if bool_decide (p = [k]) then b else R k) ->
  (forall q c j, T !! q = Some c -> index_path q -> 0 <= j < ppb ->
    ptr (blk G s1 c) j = if bool_decide (q ++ [j] = p) then b else ptr (blk G s c) j) ->
  (forall j, 0 <= j < ppb -> ptr (blk G s1 b) j = 0) ->
  (forall c, used s c -> used s1 c) -> used s1 b -> ~ used s b -> plain G b ->
  tree s1 R' (<[p := b]> T).
Proof.
  intros Ht Hp Hwf Hpar HR Hidx Hz Hus Hub Hnb Hpl.
  assert (Hnew : forall q, T !! q <> Some b).
  { intros q Hq. destruct (t_block _ _ _ Ht q b Hq) as [_ Hu]. by apply Hnb. }
  assert (Hpn : p <> []) by (by destruct p).
  assert (Hchild : forall j, T !! (p ++ [j]) = None) by (intros j; by eapply tree_none).
  assert (Hself : forall q (j : Z), q ++ [j] <> q) by (intros q j H; apply (f_equal length) in H; rewrite length_app in H; cbn in H; lia).
  split.
  - intros k Hk. rewrite HR by done. case_bool_decide as Hc; [subst; by rewrite lookup_insert_eq|].
    rewrite lookup_insert_ne by done. by apply (t_root _ _ _ Ht).
  - intros q c [[<- <-]|[_ Hq]]%lookup_insert_Some; [done|by eapply t_wf].
  - intros q j Hq [c Hc]. destruct (decide (p = q)) as [->|Hne]; [rewrite lookup_insert_eq; by eexists|]. rewrite lookup_insert_ne by done.
    apply lookup_insert_Some in Hc as [[Heq _]|[_ Hc]]; [by eapply Hpar|]. by eapply (t_parent _ _ _ Ht).
  - intros q c j [[<- <-]|[Hne Hq]]%lookup_insert_Some Hi Hj.
    + rewrite Hz by done. rewrite lookup_insert_ne by (intros H; by eapply Hself). by rewrite Hchild.
    + rewrite (Hidx q c j Hq Hi Hj). case_bool_decide as Hc; [rewrite Hc; by rewrite lookup_insert_eq|].
      rewrite lookup_insert_ne by done. by apply (t_index _ _ _ Ht).
  - intros q q' c [[<- <-]|[_ Hq]]%lookup_insert_Some [[<- Hc]|[_ Hq']]%lookup_insert_Some; [done| | |].
    + by destruct (Hnew q').
    + subst c. by destruct (Hnew q).
    + by eapply (t_inj _ _ _ Ht).
  - intros q c [[<- <-]|[_ Hq]]%lookup_insert_Some; [by split|].
    destruct (t_block _ _ _ Ht q c Hq) as [H1 H2]. split; [done|]. by apply Hus.
Qed.

(** The map has grown: the new blocks were free; blocks in use that are not index blocks of
    the file keep their bytes, and new data blocks are zero. *)
Record grown (s s' : ext2 D) (T T' : gmap (list Z) Z) : Prop := {
  gr_sub : T ⊆ T';
  gr_free : free_plain G s';
  gr_used : forall c, used s c -> used s' c;
  gr_same : forall c, used s c -> plain G c -> (forall p, T' !! p = Some c -> ~ index_path p) -> blk G s' c = blk G s c;
  gr_zero : forall p c, T' !! p = Some c -> T !! p = None -> ~ index_path p -> blk G s' c = replicate (Z.to_nat bs) 0;
  gr_fresh : forall p c, T' !! p = Some c -> T !! p = None -> ~ used s c }.

Lemma tree_grown_refl s T : free_plain G s -> grown s s T T.
Proof. intros Hf. split; try done; intros p c Hp Hn; congruence. Qed.
Lemma grown_trans s s1 s2 T T1 T2 R1 R2 :
  tree s1 R1 T1 -> tree s2 R2 T2 -> grown s s1 T T1 -> grown s1 s2 T1 T2 -> grown s s2 T T2.
Proof.
  intros Ht1 Ht2 [A1 A2 A3 A4 A5 A6] [B1 B2 B3 B4 B5 B6]. split; [by etrans|done| | | |].
  - intros c Hc. by apply B3, A3.
  - intros c Hc Hp Hi. rewrite B4; [|by apply A3|done|done]. apply A4; [done|done|].
    intros p Hp1. apply Hi. by eapply lookup_weaken.
  - intros p c Hc Hn Hi. destruct (T1 !! p) as [c1|] eqn:H1; [|by eapply B5].
    assert (c1 = c) as -> by (pose proof (lookup_weaken _ _ _ _ H1 B1); congruence).
    rewrite B4; [by eapply A5| | |].
    + destruct (t_block _ _ _ Ht1 p c H1) as [_ H]. exact H.
    + destruct (t_block _ _ _ Ht1 p c H1) as [H _]. exact H.
    + intros q Hq. by rewrite (t_inj _ _ _ Ht2 q p c Hq Hc).
  - intros p c Hc Hn. destruct (T1 !! p) as [c1|] eqn:H1.
    + assert (c1 = c) as -> by (pose proof (lookup_weaken _ _ _ _ H1 B1); congruence). by eapply A6.
    + intros Hu. by eapply B6, A3.
Qed.

Lemma used_blk s g i : 0 <= i < bpg -> (g < Z.to_nat gc)%nat -> used s (blk_no G g i) <-> bit G s g i = true.
Proof.
  intros Hi Hg. split.
  - intros (h & j & Hh & Hj & Heq & Hb). apply blk_no_inj in Heq as [<- <-]; done.
  - intros Hb. exists g, i. by split_and!; try lia.
Qed.
Lemma blk_apart b c y : b <> c -> in_blk G b y -> ~ in_blk G c y.
Proof. unfold in_blk. pose proof (bs_range G Hlay). intros Hne H1 H2. assert (b < c \/ c < b) as [Hc|Hc] by lia; nia. Qed.

(** Bytes of blocks that are none of the metadata. *)
Lemma plain_not_meta c y : plain G c -> in_blk G c y ->
  0 <= y < dsize (q_dev G) /\ ~ in_super y /\ ~ in_groups G y /\ ~ in_bitmaps G y.
Proof.
  intros (H0 & H1 & H2 & H3 & H4 & _) Hy. pose proof (bs_range G Hlay). unfold in_blk, apart, in_super, in_groups, in_bitmaps in *.
  split; [nia|]. split; [lia|]. split; [lia|]. intros (g & Hg & Hr). specialize (H4 g Hg). lia.
Qed.
Lemma blk_same s s' c : plain G c -> (forall y, in_blk G c y -> DB G s' y = DB G s y) -> blk G s' c = blk G s c.
Proof. intros Hc H. apply blk_ext. intros i Hi. apply H. unfold in_blk. lia. Qed.

(** What an allocation means for the map. *)
Record fresh_block (s s1 : ext2 D) (b : Z) : Prop := {
  fb_used : forall c, used s c -> used s1 c;
  fb_mine : used s1 b;
  fb_not : ~ used s b;
  fb_plain : plain G b;
  fb_free : free_plain G s1;
  fb_zero : blk G s1 b = replicate (Z.to_nat bs) 0;
  fb_same : forall c, plain G c -> c <> b -> blk G s1 c = blk G s c }.
Lemma allocated_fresh s s1 g i : free_plain G s -> allocated G s s1 g i -> fresh_block s s1 (blk_no G g i).
Proof.
  intros Hf [H1 H2 H3 H4 H5 H6 H7 H8]. pose proof (Hf g i H1 H2 H3 H4) as Hpl. split.
  - intros c (h & j & Hh & Hj & -> & Hb). exists h, j. rewrite H5, Hb, orb_true_r by done. by split_and!; try lia.
  - exists g, i. rewrite H5, bool_decide_eq_true_2 by done. by split_and!; try lia.
  - rewrite used_blk by done. by rewrite H4.
  - done.
  - intros h j Hh Hj Hc Hb. apply Hf; try done. rewrite H5 in Hb by done. apply orb_false_iff in Hb as [_ Hb]. exact Hb.
  - apply list_eq. intros k. pose proof (bs_range G Hlay) as [Hbs _]. destruct (decide (k < Z.to_nat bs)%nat) as [Hk|Hk].
    + rewrite lookup_replicate_2 by done. pose proof (nth_blk G s1 (blk_no G g i) k Hk) as Hn.
      rewrite nth_lookup in Hn. destruct (lookup_lt_is_Some_2 (blk G s1 (blk_no G g i)) k) as [v Hv]; [by rewrite blk_length|].
      rewrite Hv in *. cbn in Hn. rewrite Hn. f_equal. apply H6. unfold in_blk. lia.
    + rewrite !lookup_ge_None_2; [done|rewrite length_replicate; lia|rewrite blk_length; lia].
  - intros c Hc Hne. apply blk_same; [done|]. intros y Hy. destruct (plain_not_meta c y Hc Hy) as (Ha & Hb & Hd & He).
    apply H7; try done. by apply (blk_apart c).
Qed.

(** Only metadata has changed on the disk, and no marks. *)
Definition calm (s s' : ext2 D) : Prop :=
  (forall c, plain G c -> blk G s' c = blk G s c) /\
  forall g i, (g < Z.to_nat gc)%nat -> 0 <= i < bpg -> bit G s' g i = bit G s g i.
Lemma calm_refl s : calm s s.
Proof. done. Qed.
Lemma calm_trans s1 s2 s3 : calm s1 s2 -> calm s2 s3 -> calm s1 s3.
Proof. intros [H1 H2] [G1 G2]. split; intros; [by rewrite G1, H1|by rewrite G2, H2]. Qed.
Lemma quiet_calm s s' : quiet G s s' -> calm s s'.
Proof. intros Hq. split; intros; [apply blk_ext; intros; apply Hq|by apply quiet_bit]. Qed.
Lemma calm_used s s' c : calm s s' -> used s c <-> used s' c.
Proof.
  intros [_ H]. split; intros (g & i & Hg & Hi & -> & Hb); exists g, i; [rewrite H by done|rewrite <- H by done]; by split_and!; try lia.
Qed.
Lemma calm_free s s' : calm s s' -> free_plain G s -> free_plain G s'.
Proof. intros [_ H] Hf g i Hg Hi Hc Hb. apply Hf; try done. by rewrite <- H. Qed.
Lemma calm_tree s s' R R' T :
  calm s s' -> (forall k, 0 <= k < 15 -> R' k = R k) -> tree s R T -> tree s' R' T.
Proof.
  intros Hc HR Ht. split; try apply Ht.
  - intros k Hk. rewrite HR by done. by apply (t_root _ _ _ Ht).
  - intros p b j Hp Hi Hj. rewrite (proj1 Hc) by by eapply t_block. by apply (t_index _ _ _ Ht).
  - intros p b Hp. destruct (t_block _ _ _ Ht p b Hp) as [H1 H2]. split; [done|]. by apply (calm_used s s').
Qed.
Lemma calm_fresh s s1 s2 b : fresh_block s s1 b -> calm s1 s2 -> fresh_block s s2 b.
Proof.
  intros [H1 H2 H3 H4 H5 H6 H7] Hc. split; try done.
  - intros c Hu. apply (calm_used s1 s2); [done|]. by apply H1.
  - by apply (calm_used s1 s2).
  - by eapply calm_free.
  - by rewrite (proj1 Hc).
  - intros c Hp Hne. rewrite (proj1 Hc) by done. by apply H7.
Qed.

(** The same node but for the bytes of the inode that are not its block numbers. *)
Definition kin (y y' : ext2_node) : Prop :=
  y' = with_inode y (n_inode y') /\ forall k, 0 <= k < 15 -> roots y' k = roots y k.
Lemma kin_refl y : kin y y.
Proof. by destruct y. Qed.
Lemma kin_trans y1 y2 y3 : kin y1 y2 -> kin y2 y3 -> kin y1 y3.
Proof.
  intros [H1 H2] [G1 G2]. split; [|intros; by rewrite G2, H2]. rewrite G1 at 1. rewrite H1 at 1. done.
Qed.

Lemma sync_ret s x y :
  fs_at G s x -> node_at s y ->
  exists r s', sync_inode n s = Ret r s' /\ (r = 0 -> fs_at G s' x /\ node_at s' y /\ calm s s').
Proof.
  intros Hx Hy. unfold sync_inode. rewrite (bind_ret _ _ _ _ _ (get_node_ret s y Hy)).
  destruct Hy as (Hn & Hf & Hl & Hi). rewrite Hf.
  destruct (write_inode_ret G Hlay s x (n_ino y) (n_inode y) Hx Hl Hi) as (r & s' & Hr & Hok).
  exists r, s'. split; [done|]. intros Hz. destruct (Hok Hz) as (o & Ho & Hx' & Hfs & Hnd & Hst).
  split; [done|]. split; [by split_and!; rewrite ?Hnd|]. destruct (l_inode _ Hlay _ _ Ho) as (Ho0 & Ho1 & Hap).
  assert (Hlen : Z.of_nat (length (n_inode y)) = 128) by lia. split.
  - intros c Hc. apply blk_same; [done|]. intros z Hz'. destruct (plain_not_meta c z Hc Hz') as (Hd & _).
    apply (stored_other _ _ _ _ _ _ Hst); [done|]. rewrite Hlen. destruct Hc as (_ & _ & _ & _ & _ & Hc).
    specialize (Hc _ _ Ho). unfold apart, in_blk in *. lia.
  - intros g i Hg Hi'. unfold bit. f_equal. destruct (l_bbm _ Hlay g Hg) as (Hb0 & Hb1 & _).
    pose proof (l_bpg _ Hlay). pose proof (bs_range G Hlay). assert (0 <= i / 8 < bs) by zdiv.
    specialize (Hap g Hg). unfold apart in Hap. apply (stored_other _ _ _ _ _ _ Hst); [nia|]. rewrite Hlen. lia.
Qed.

Lemma put_node_ret s x y :
  fs_at G s x -> node_at s y -> forall y', n_fs y' = n_fs y -> n_ino y' = n_ino y -> length (n_inode y') = 128%nat ->
  exists s', put_node n y' s = Ret tt s' /\ fs_at G s' x /\ node_at s' y' /\ calm s s'.
Proof.
  intros Hx (Hn & Hf & Hl & Hi) y' Hf' Hi' Hl'. eexists. split; [done|]. split; [done|]. split; [|done].
  split_and!; [by cbn; rewrite lookup_insert_eq|congruence|done|congruence].
Qed.
Lemma count_ret s x y :
  fs_at G s x -> node_at s y ->
  exists s' y', count_block n s = Ret tt s' /\ fs_at G s' x /\ node_at s' y' /\ kin y y' /\ calm s s'.
Proof.
  intros Hx Hy. unfold count_block. rewrite (bind_ret _ _ _ _ _ (get_node_ret s y Hy)).
  rewrite (proj1 (proj2 Hy)), (bind_ret _ _ _ _ _ (get_fs_ret G s x Hx)).
  pose proof (proj1 (proj2 (proj2 Hy))) as Hl. set (i' := set_blocks _ _).
  assert (Hl' : length i' = 128%nat) by (unfold i', set_blocks; rewrite p32_length; lia).
  destruct (put_node_ret s x y Hx Hy (with_inode y i')) as (s' & Hs & Hx' & Hy' & Hc); [done..|].
  exists s', (with_inode y i'). split; [done|]. split; [done|]. split; [done|]. split; [|done]. split; [done|].
  intros k Hk. unfold roots, i_block. cbn [with_inode n_inode]. unfold i', set_blocks, p32. apply g32_other; cbn; lia.
Qed.

Lemma alloc_fresh s x y :
  fs_at G s x -> node_at s y -> free_plain G s ->
  exists r b s', alloc_block f s = Ret (r, b) s' /\
    (r = 0 -> exists x', fs_at G s' x' /\ node_at s' y /\ fresh_block s s' b).
Proof.
  intros Hx Hy Hf. destruct (alloc_block_ret G Hlay s x Hx Hf) as (r & b & s' & Hr & Hok). exists r, b, s'. split; [done|].
  intros Hz. destruct (Hok Hz) as (g & i & x' & -> & Ha & Hx'). exists x'. split; [done|]. split; [|by apply allocated_fresh].
  destruct Hy as (H1 & H2). split; [by rewrite (a_nodes _ _ _ _ _ Ha)|done].
Qed.

Lemma ptr_zero j : ptr (replicate (Z.to_nat bs) 0) j = 0.
Proof.
  assert (H : forall i, nth i (replicate (Z.to_nat bs) 0) 0 = 0).
  { intros i. rewrite nth_lookup. destruct (replicate (Z.to_nat bs) 0 !! i) as [v|] eqn:Hv; [|done].
    apply lookup_replicate in Hv as [-> _]. done. }
  unfold ptr, g32, g16. by rewrite !H.
Qed.

(** A new block in a slot of the inode. *)
Lemma root_linked s s' R R' T k b :
  fresh_block s s' b -> tree s R T -> T !! [k] = None -> 0 <= k < 15 ->
  (forall j, 0 <= j < 15 -> R' j = if bool_decide (j = k) then b else R j) ->
  tree s' R' (<[[k] := b]> T) /\ grown s s' T (<[[k] := b]> T).
Proof.
  intros Hfr Ht Hn Hk HR.
  assert (Hpn : forall q (j : Z), q <> [] -> [k] <> q ++ [j]).
  { intros q j Hq H. apply (f_equal length) in H. rewrite length_app in H. destruct q; [done|cbn in H; lia]. }
  assert (Hb : forall q c, T !! q = Some c -> c <> b).
  { intros q c Hq ->. by apply (fb_not _ _ _ Hfr), (t_block _ _ _ Ht q). }
  split.
  - apply (tree_link s s' R _ T [k] b Ht Hn);
      [| | | | |apply (fb_used _ _ _ Hfr)|apply (fb_mine _ _ _ Hfr)|apply (fb_not _ _ _ Hfr)|apply (fb_plain _ _ _ Hfr)].
    + cbn. split_and!; [lia|lia|lia|constructor].
    + intros q j Hq Heq. by destruct (Hpn q j).
    + intros j Hj. rewrite HR by done. case_bool_decide as H1; case_bool_decide as H2; try done; congruence.
    + intros q c j Hq Hi Hj. rewrite bool_decide_eq_false_2; [|intros H; destruct (Hpn q j); [by intros ->|done]].
      rewrite (fb_same _ _ _ Hfr); [done|by eapply t_block|by eapply Hb].
    + intros j Hj. rewrite (fb_zero _ _ _ Hfr). apply ptr_zero.
  - split; try apply Hfr.
    + by apply insert_subseteq.
    + intros c Hu Hpl _. apply (fb_same _ _ _ Hfr); [done|]. intros ->. by apply (fb_not _ _ _ Hfr).
    + intros p c [[<- <-]|[_ Hp]]%lookup_insert_Some Hno; [intros _; apply Hfr|congruence].
    + intros p c [[<- <-]|[_ Hp]]%lookup_insert_Some Hno; [apply Hfr|congruence].
Qed.
Lemma root_step s x y R T k :
  fs_at G s x -> node_at s y -> free_plain G s -> tree s R T -> 0 <= k < 15 -> T !! [k] = None ->
  exists r b s', (let* b := alloc_block f in
                  if negb (b.1 =? 0) then ret (b.1, 0)
                  else count_block n ;;; let* e := sync_inode n in ret (e, b.2)) s = Ret (r, b) s' /\
    (r = 0 -> exists x' y', fs_at G s' x' /\ node_at s' y' /\ kin y y' /\
      tree s' (fun j => if bool_decide (j = k) then b else R j) (<[[k] := b]> T) /\ grown s s' T (<[[k] := b]> T)).
Proof.
  intros Hx Hy Hf Ht Hk Hn. destruct (alloc_fresh s x y Hx Hy Hf) as (r & b & s1 & Hr & Hok). rewrite (bind_ret _ _ _ _ _ Hr). cbn [fst snd].
  destruct (Z.eqb_spec r 0) as [->|Hz]; cbn [negb]; [|by exists r, 0, s1]. destruct (Hok eq_refl) as (x1 & Hx1 & Hy1 & Hfr1).
  destruct (count_ret s1 x1 y Hx1 Hy1) as (s2 & y2 & Hc & Hx2 & Hy2 & Hk2 & Hc2). rewrite (bind_ret _ _ _ _ _ Hc).
  destruct (sync_ret s2 x1 y2 Hx2 Hy2) as (e & s3 & He & Hok3). rewrite (bind_ret _ _ _ _ _ He).
  exists e, b, s3. split; [done|]. intros Hz. destruct (Hok3 Hz) as (Hx3 & Hy3 & Hc3).
  pose proof (calm_fresh _ _ _ _ Hfr1 (calm_trans _ _ _ Hc2 Hc3)) as Hfr. exists x1, y2.
  do 3 (split; [done|]). by apply (root_linked s s3 R).
Qed.

Definition bytes_ok (l : list Z) : Prop := Forall (fun b => 0 <= b < 256) l.
Lemma blk_bytes s c : bytes_ok (blk G s c).
Proof. unfold blk. apply Forall_map, Forall_true. intros i. apply law_byte. Qed.
Lemma put_bytes_ok l off b : bytes_ok l -> bytes_ok b -> bytes_ok (put_bytes l off b).
Proof. intros Hl Hb. unfold put_bytes. repeat apply Forall_app_2; [by apply Forall_take|done|by apply Forall_drop]. Qed.
Lemma b32_ok v : bytes_ok (b32 v).
Proof. repeat constructor; apply Z.mod_pos_bound; lia. Qed.

(** A block written as a whole. *)
Lemma store_block s s' c buf :
  plain G c -> stored G s s' (c * bs) buf -> length buf = Z.to_nat bs -> bytes_ok buf ->
  blk G s' c = buf /\ (forall c', plain G c' -> c' <> c -> blk G s' c' = blk G s c') /\
  forall g i, (g < Z.to_nat gc)%nat -> 0 <= i < bpg -> bit G s' g i = bit G s g i.
Proof.
  intros Hc Hst Hl Hb. pose proof (bs_range G Hlay) as [Hbs _]. assert (Hlen : Z.of_nat (length buf) = bs) by lia. split_and!.
  - apply nth_ext with (d := 0) (d' := 0); [by rewrite blk_length|]. intros k Hk. rewrite blk_length in Hk.
    rewrite nth_blk by done. destruct (plain_not_meta c (c * bs + Z.of_nat k) Hc) as (Hd & _); [unfold in_blk; lia|].
    rewrite (stored_in _ _ _ _ _ _ Hst); [|done|lia]. replace (Z.to_nat (c * bs + Z.of_nat k - c * bs)) with k by lia.
    unfold u8. apply Z.mod_small. rewrite nth_lookup. destruct (lookup_lt_is_Some_2 buf k) as [v Hv]; [lia|]. rewrite Hv. cbn.
    by apply (Forall_lookup_1 _ _ _ _ Hb Hv).
  - intros c' Hc' Hne. apply blk_same; [done|]. intros y Hy. destruct (plain_not_meta c' y Hc' Hy) as (Hd & _).
    apply (stored_other _ _ _ _ _ _ Hst); [done|]. rewrite Hlen. intros Hr. by apply (blk_apart c' c y).
  - intros g i Hg Hi. unfold bit. f_equal. destruct (l_bbm _ Hlay g Hg) as (Hb0 & Hb1 & _). pose proof (l_bpg _ Hlay).
    assert (0 <= i / 8 < bs) by zdiv. destruct Hc as (_ & _ & _ & _ & Hc & _). specialize (Hc g Hg). unfold apart in Hc.
    apply (stored_other _ _ _ _ _ _ Hst); [nia|]. rewrite Hlen. lia.
Qed.

Lemma ptr_set l j v i :
  length l = Z.to_nat bs -> 0 <= j < ppb -> 0 <= i < ppb -> 0 <= v < 2 ^ 32 ->
  ptr (set_ptr l j v) i = if bool_decide (i = j) then v else ptr l i.
Proof.
  intros Hl Hj Hi Hv. pose proof ppb_range as [_ Hp]. unfold ptr, set_ptr. case_bool_decide as Hc.
  - subst. apply g32_p32; [lia|done].
  - unfold p32. apply g32_other; cbn; lia.
Qed.
Lemma used_u32 s b : used s b -> b < 2 ^ 32.
Proof.
  intros (g & i & Hg & Hi & -> & _). unfold blk_no. pose proof (l_count _ Hlay). pose proof (l_bpg _ Hlay). nia.
Qed.

(** A new block in a slot of an index block. *)
Lemma slot_linked s s' R T p c j b :
  tree s R T -> T !! p = Some c -> index_path p -> 0 <= j < ppb -> T !! (p ++ [j]) = None ->
  (forall d, used s d -> used s' d) -> used s' b -> ~ used s b -> plain G b -> free_plain G s' ->
  blk G s' b = replicate (Z.to_nat bs) 0 -> blk G s' c = set_ptr (blk G s c) j b ->
  (forall d, plain G d -> d <> b -> d <> c -> blk G s' d = blk G s d) ->
  tree s' R (<[p ++ [j] := b]> T) /\ grown s s' T (<[p ++ [j] := b]> T).
Proof.
  intros Ht Hc Hi Hj Hn Hus Hmine Hnot Hplb Hfree H4b H4c H4.
  pose proof (used_u32 _ _ Hmine) as Hb32. pose proof Hplb as [Hb0 _].
  assert (Hnb : forall q d, T !! q = Some d -> d <> b).
  { intros q d Hq ->. by apply Hnot, (t_block _ _ _ Ht q). }
  assert (Hpn : p <> []) by (intros ->; done).
  split.
  - apply (tree_link s s' R _ T (p ++ [j]) b Ht Hn).
    + pose proof (t_wf _ _ _ Ht p c Hc) as Hw'. destruct p as [|k rest]; [done|]. cbn in Hw', Hi |- *. rewrite length_app. cbn.
      destruct Hw' as (H1 & H2 & H3). split_and!; [lia|lia|lia|]. apply Forall_app_2; [done|]. by constructor.
    + intros q j' Hq Heq. apply app_inj_tail in Heq as [<- <-]. by eexists.
    + intros k Hk. rewrite bool_decide_eq_false_2; [done|]. intros H. apply (f_equal length) in H. rewrite length_app in H.
      destruct p; [done|]. cbn in H. lia.
    + intros q d j' Hq Hqi Hj'. destruct (decide (d = c)) as [->|Hdc].
      * assert (q = p) as -> by by eapply (t_inj _ _ _ Ht). rewrite H4c, ptr_set; [|apply blk_length|done|done|lia].
        case_bool_decide as Ha; case_bool_decide as Hb; try done; [subst; done|]. apply app_inj_tail in Hb as [_ ->]. done.
      * rewrite H4; [|by eapply t_block|by eapply Hnb|done]. rewrite bool_decide_eq_false_2; [done|].
        intros Heq. apply app_inj_tail in Heq as [-> _]. congruence.
    + intros k Hk. rewrite H4b. apply ptr_zero.
    + intros d Hd. by apply Hus.
    + exact Hmine.
    + apply Hnot.
    + exact Hplb.
  - split.
    + by apply insert_subseteq.
    + exact Hfree.
    + intros d Hd. by apply Hus.
    + intros d Hd Hdp Hidx. apply H4; [done| |].
      * intros ->. by apply Hnot.
      * intros ->. apply (Hidx p); [|done]. rewrite lookup_insert_ne; [done|]. intros Heq. apply (f_equal length) in Heq.
        rewrite length_app in Heq. cbn in Heq. lia.
    + intros q d [[<- <-]|[_ Hq]]%lookup_insert_Some Hno; [intros _; done|congruence].
    + intros q d [[<- <-]|[_ Hq]]%lookup_insert_Some Hno; [apply Hnot|congruence].
Qed.
Lemma slot_step s x y R T p c j :
  fs_at G s x -> node_at s y -> free_plain G s -> tree s R T -> T !! p = Some c -> index_path p -> 0 <= j < ppb ->
  T !! (p ++ [j]) = None ->
  exists r b s', (let* b := alloc_block f in
                  if negb (b.1 =? 0) then ret (b.1, 0)
                  else
                    count_block n ;;;
                    let* e := write_block f c (set_ptr (blk G s c) j b.2) in
                    if negb (e =? 0) then ret (e, 0) else let* e := sync_inode n in ret (e, b.2)) s = Ret (r, b) s' /\
    (r = 0 -> exists x' y', fs_at G s' x' /\ node_at s' y' /\ kin y y' /\
      tree s' R (<[p ++ [j] := b]> T) /\ grown s s' T (<[p ++ [j] := b]> T)).
Proof.
  intros Hx Hy Hf Ht Hc Hi Hj Hn. destruct (alloc_fresh s x y Hx Hy Hf) as (r & b & s1 & Hr & Hok).
  rewrite (bind_ret _ _ _ _ _ Hr). cbn [fst snd].
  destruct (Z.eqb_spec r 0) as [->|Hz]; cbn [negb]; [|by exists r, 0, s1]. destruct (Hok eq_refl) as (x1 & Hx1 & Hy1 & Hfr1).
  destruct (count_ret s1 x1 y Hx1 Hy1) as (s2 & y2 & Hcnt & Hx2 & Hy2 & Hk2 & Hc2). rewrite (bind_ret _ _ _ _ _ Hcnt).
  pose proof (calm_fresh _ _ _ _ Hfr1 Hc2) as Hfr2. destruct (t_block _ _ _ Ht p c Hc) as [Hpl Hus].
  pose proof (used_u32 _ _ (fb_mine _ _ _ Hfr2)) as Hb32. pose proof (fb_plain _ _ _ Hfr2) as [Hb0 _]. pose proof Hpl as (Hc0 & Hc1 & _).
  pose proof ppb_range as [_ Hp4]. assert (Hl : length (set_ptr (blk G s c) j b) = Z.to_nat bs).
  { unfold set_ptr. rewrite p32_length; rewrite blk_length; [done|lia]. }
  destruct (write_block_ret G Hlay s2 x1 c (set_ptr (blk G s c) j b) Hx2 ltac:(lia) Hc1 Hl) as (s3 & Hw & Hx3 & Hf3 & Hn3 & Hst).
  rewrite (bind_ret _ _ _ _ _ Hw). cbn [Z.eqb negb].
  assert (Hy3 : node_at s3 y2) by (destruct Hy2; split; [by rewrite Hn3|done]).
  destruct (sync_ret s3 x1 y2 Hx3 Hy3) as (e & s4 & He & Hok4). rewrite (bind_ret _ _ _ _ _ He).
  exists e, b, s4. split; [done|]. intros Hz. destruct (Hok4 Hz) as (Hx4 & Hy4 & Hc4). exists x1, y2.
  split; [done|]. split; [done|]. split; [done|].
  destruct (store_block s2 s3 c _ Hpl Hst Hl) as (Hself & Hother & Hbits);
    [apply put_bytes_ok; [apply blk_bytes|apply b32_ok]|].
  assert (Hbit4 : forall g i, (g < Z.to_nat gc)%nat -> 0 <= i < bpg -> bit G s4 g i = bit G s2 g i)
    by (intros; rewrite (proj2 Hc4) by done; by apply Hbits).
  assert (Hu4 : forall d, used s2 d -> used s4 d).
  { intros d (g & i & Hg & Hgi & -> & Hbt). exists g, i. rewrite Hbit4 by done. split_and!; try done; lia. }
  assert (Hcb : c <> b) by (intros ->; by apply (fb_not _ _ _ Hfr2)).
  apply (slot_linked s s4 R T p c j b Ht Hc Hi Hj Hn).
  - intros d Hd. by apply Hu4, (fb_used _ _ _ Hfr2).
  - apply Hu4, (fb_mine _ _ _ Hfr2).
  - apply (fb_not _ _ _ Hfr2).
  - apply (fb_plain _ _ _ Hfr2).
  - intros g i Hg Hgi Hcnt' Hbt. apply (fb_free _ _ _ Hfr2); try done. by rewrite <- Hbit4.
  - rewrite (proj1 Hc4), Hother; [apply Hfr2|apply Hfr2|done|apply Hfr2].
  - by rewrite (proj1 Hc4).
  - intros d Hd Hdb Hdc. rewrite (proj1 Hc4), Hother by done. by apply (fb_same _ _ _ Hfr2).
Qed.

(** The file after a step that may have added blocks: the node, the map, and what is at [p]. *)
Definition stepped (s s' : ext2 D) (y : ext2_node) (R : Z -> Z) (T T' : gmap (list Z) Z) : Prop :=
  exists x' y', fs_at G s' x' /\ node_at s' y' /\ kin y y' /\ tree s' R T' /\ grown s s' T T'.

Lemma stepped_refl s x y R T : fs_at G s x -> node_at s y -> free_plain G s -> tree s R T -> stepped s s y R T T.
Proof. intros Hx Hy Hf Ht. exists x, y. do 2 (split; [done|]). split; [apply kin_refl|]. split; [done|by apply tree_grown_refl]. Qed.
Lemma calm_grown s s1 s' T T' : calm s s1 -> grown s1 s' T T' -> grown s s' T T'.
Proof.
  intros Hc [A1 A2 A3 A4 A5 A6]. split; try done.
  - intros c Hu. by apply A3, (calm_used s s1).
  - intros c Hu Hp Hi. rewrite A4; [by apply Hc|by apply (calm_used s s1)|done|done].
  - intros p c Hp Hn Hu. by eapply A6, (calm_used s s1).
Qed.
Lemma grown_calm s s1 s' T T' : calm s1 s' -> grown s s1 T T' -> (forall p c, T' !! p = Some c -> plain G c) -> grown s s' T T'.
Proof.
  intros Hc [A1 A2 A3 A4 A5 A6] Hpl. split; try done.
  - by eapply calm_free.
  - intros c Hu. apply (calm_used s1 s'); [done|]. by apply A3.
  - intros c Hu Hp Hi. rewrite (proj1 Hc) by done. by apply A4.
  - intros p c Hp Hn Hi. rewrite (proj1 Hc) by by eapply Hpl. by eapply A5.
Qed.
Lemma stepped_calm s s1 s' y R T T' : calm s s1 -> stepped s1 s' y R T T' -> stepped s s' y R T T'.
Proof.
  intros Hc (x' & y' & H1 & H2 & H3 & H4 & H5). exists x', y'. do 4 (split; [done|]). by eapply calm_grown.
Qed.
Lemma stepped_trans s s1 s2 y y1 R R' T T1 T2 :
  stepped s s1 y R T T1 -> node_at s1 y1 -> stepped s1 s2 y1 R' T1 T2 -> stepped s s2 y R' T T2.
Proof.
  intros (x1 & z & H1 & H2 & H3 & H4 & H5) Hy (x2 & y2 & G1 & G2 & G3 & G4 & G5).
  assert (z = y1) as -> by (destruct H2, Hy; congruence). exists x2, y2.
  split; [done|]. split; [done|]. split; [by eapply kin_trans|]. split; [done|]. exact (grown_trans _ _ _ _ _ _ _ _ H4 G4 H5 G5).
Qed.
Lemma stepped_roots s s' y R R' T T' : (forall k, 0 <= k < 15 -> R' k = R k) -> stepped s s' y R T T' -> stepped s s' y R' T T'.
Proof.
  intros HR (x' & y' & H1 & H2 & H3 & H4 & H5). exists x', y'. split; [done|]. split; [done|]. split; [done|].
  split; [|done]. eapply calm_tree; [apply calm_refl|done|done].
Qed.

(** The index block itself, when the inode has none. *)
Lemma ensure_top s x y R T p :
  fs_at G s x -> node_at s y -> free_plain G s -> tree s R T -> wf_path p -> (T !! p = None -> exists k, p = [k]) ->
  exists r c s', (if default 0 (T !! p) =? 0 then
                    let* b := alloc_block f in
                    if negb (b.1 =? 0) then ret (b.1, default 0 (T !! p))
                    else count_block n ;;; let* e := sync_inode n in ret (e, b.2)
                  else ret (0, default 0 (T !! p))) s = Ret (r, c) s' /\
    (r = 0 -> exists T', stepped s s' y (fun j => if bool_decide (p = [j]) then c else R j) T T' /\ T' !! p = Some c).
Proof.
  intros Hx Hy Hf Ht Hw Hp. destruct (T !! p) as [c|] eqn:Hc; cbn [default].
  - pose proof (tree_pos _ _ _ _ _ Ht Hc) as Hc0. unfold default, id. rewrite (proj2 (Z.eqb_neq c 0)) by lia.
    exists 0, c, s. split; [done|]. intros _. exists T. split; [|done]. eapply stepped_roots; [|by eapply stepped_refl].
    intros k Hk. case_bool_decide as Hb; [|done]. subst p. cbn. rewrite (t_root _ _ _ Ht) by done. by rewrite Hc.
  - destruct (Hp eq_refl) as [k ->]. cbn in Hw.
    destruct (root_step s x y R T k Hx Hy Hf Ht ltac:(lia) Hc) as (r & b & s' & Hr & Hok). exists r, b, s'. split; [done|].
    intros Hz. destruct (Hok Hz) as (x' & y' & H1 & H2 & H3 & H4 & H5). exists (<[[k] := b]> T). split; [|by rewrite lookup_insert_eq].
    eapply stepped_roots; [|exists x', y'; do 4 (split; [done|]); done].
    intros j Hj. cbn. case_bool_decide as Ha; case_bool_decide as Hb; congruence.
Qed.

(** The slot of an index block. *)
Lemma ensure_slot s x y R T p c j :
  fs_at G s x -> node_at s y -> free_plain G s -> tree s R T -> T !! p = Some c -> index_path p -> 0 <= j < ppb ->
  exists r b s', (if ptr (blk G s c) j =? 0 then
                    let* b := alloc_block f in
                    if negb (b.1 =? 0) then ret (b.1, 0)
                    else
                      count_block n ;;;
                      let* e := write_block f c (set_ptr (blk G s c) j b.2) in
                      if negb (e =? 0) then ret (e, 0) else let* e := sync_inode n in ret (e, b.2)
                  else ret (0, ptr (blk G s c) j)) s = Ret (r, b) s' /\
    (r = 0 -> exists T', stepped s s' y R T T' /\ T' !! (p ++ [j]) = Some b).
Proof.
  intros Hx Hy Hf Ht Hc Hi Hj. pose proof (t_index _ _ _ Ht p c j Hc Hi Hj) as Hp.
  destruct (T !! (p ++ [j])) as [b|] eqn:Hb; cbn in Hp.
  - pose proof (tree_pos _ _ _ _ _ Ht Hb) as Hb0. rewrite Hp, (proj2 (Z.eqb_neq b 0)) by lia.
    exists 0, b, s. split; [done|]. intros _. exists T. split; [by eapply stepped_refl|done].
  - rewrite Hp. cbn [Z.eqb]. destruct (slot_step s x y R T p c j) as (r & b & s' & Hr & Hok); [done..|].
    exists r, b, s'. split; [done|]. intros Hz. destruct (Hok Hz) as (x' & y' & H1 & H2 & H3 & H4 & H5).
    exists (<[p ++ [j] := b]> T). split; [|by rewrite lookup_insert_eq]. exists x', y'. do 4 (split; [done|]). done.
Qed.

Lemma stepped_free s s' y R T T' : stepped s s' y R T T' -> free_plain G s' /\ tree s' R T' /\ T ⊆ T'.
Proof. intros (x' & y' & _ & _ & _ & Ht & Hg). split_and!; [apply Hg|done|apply Hg]. Qed.

(** One level of [ensure_file_block_indirect]: it fails, or goes on below slot [slot]. *)
Lemma ensure_level d s x y R T p fb :
  fs_at G s x -> node_at s y -> free_plain G s -> tree s R T -> (d < 3)%nat -> above p (S d) -> wf_path p ->
  (T !! p = None -> exists k, p = [k]) -> 0 <= fb < ppb ^ Z.of_nat (S d) ->
  let slot := match d with O => fb | _ => u32 (fb / ppb ^ Z.of_nat d) end in
  0 <= slot < ppb ->
  (exists r root s', r <> 0 /\ ensure_file_block_indirect (S d) n f (default 0 (T !! p)) fb s = Ret (r, root, 0) s') \/
  (exists c e s' T', stepped s s' y (fun j => if bool_decide (p = [j]) then c else R j) T T' /\
    T' !! (p ++ [slot]) = Some e /\
    ensure_file_block_indirect (S d) n f (default 0 (T !! p)) fb s =
      match d with
      | O => ret (0, c, e)
      | _ => let* q := ensure_file_block_indirect d n f e (u32 (fb `mod` ppb ^ Z.of_nat d)) in ret (q.1.1, c, q.2)
      end s').
Proof.
  intros Hx Hy Hf Ht Hd Hp Hw Hpn Hfb slot Hslot. cbn [ensure_file_block_indirect].
  rewrite (bind_ret _ _ _ _ _ (get_fs_ret G s x Hx)), (g_bs _ _ (proj1 (proj2 Hx))). fold ppb. cbv zeta.
  pose proof ppb_range as [Hpp _]. rewrite span_eq by lia. pose proof (pow_u32 (S d) ltac:(lia)) as Hu. pose proof (pow_pos d) as Hpd.
  assert (Hmul : ppb ^ Z.of_nat d * ppb = ppb ^ Z.of_nat (S d)) by (rewrite Nat2Z.inj_succ, Z.pow_succ_r by lia; lia).
  rewrite Hmul, (u64_small (ppb ^ Z.of_nat (S d))) by lia. rewrite (proj2 (Z.leb_gt _ fb)) by lia. fold slot.
  destruct (ensure_top s x y R T p Hx Hy Hf Ht Hw Hpn) as (r & c & s1 & Hr & Hok). rewrite (bind_ret _ _ _ _ _ Hr). cbn [fst snd].
  destruct (Z.eqb_spec r 0) as [->|Hz]; cbn [negb]; [|by left; exists r, c, s1]. destruct (Hok eq_refl) as (T1 & Hst1 & Hc).
  set (R1 := fun j => if bool_decide (p = [j]) then c else R j) in *. destruct (stepped_free _ _ _ _ _ _ Hst1) as (Hf1 & Ht1 & Hsub1).
  pose proof Hst1 as (x1 & y1 & Hx1 & Hy1 & _).
  destruct (alloc_ret G bs s1 x1 Hx1) as (ok & s2 & Hk & Hx2 & Hq2). rewrite (bind_ret _ _ _ _ _ Hk).
  destruct ok; cbn [negb]; [|by left; exists (- ENOMEM), c, s2]. destruct (t_block _ _ _ Ht1 p c Hc) as [(Hc0 & Hc1 & _) _].
  destruct (read_block_ret G Hlay s2 x1 c Hx2 ltac:(lia) Hc1) as (s3 & Hr3 & Hx3 & Hq3). rewrite (bind_ret _ _ _ _ _ Hr3).
  cbn [fst snd Z.eqb negb]. pose proof (quiet_trans _ _ _ _ Hq2 Hq3) as Hq.
  assert (Hblk : blk G s2 c = blk G s3 c) by (symmetry; apply blk_ext; intros; apply Hq3). rewrite Hblk.
  pose proof (node_quiet _ _ _ Hy1 Hq) as Hy3. pose proof (tree_quiet _ _ _ _ Ht1 Hq) as Ht3.
  pose proof (calm_free _ _ (quiet_calm _ _ Hq) Hf1) as Hf3.
  destruct (ensure_slot s3 x1 y1 R1 T1 p c slot Hx3 Hy3 Hf3 Ht3 Hc (above_index _ _ Hp) Hslot) as (r & e & s4 & Hr4 & Hok4).
  rewrite (bind_ret _ _ _ _ _ Hr4). cbn [fst snd]. destruct (Z.eqb_spec r 0) as [->|Hz]; cbn [negb]; [|by left; exists r, c, s4].
  right. destruct (Hok4 eq_refl) as (T2 & Hst4 & He). exists c, e, s4, T2. split; [|split; [done|by destruct d]].
  eapply stepped_trans; [exact Hst1|exact Hy1|]. eapply stepped_calm; [by apply quiet_calm|done].
Qed.

(** Making sure of a block below [p]. *)
Lemma ensure_indirect_ret d s x y R T p fb :
  fs_at G s x -> node_at s y -> free_plain G s -> tree s R T -> (d < 3)%nat -> above p (S d) -> wf_path p ->
  (T !! p = None -> exists k, p = [k]) -> 0 <= fb < ppb ^ Z.of_nat (S d) ->
  exists r root out s', ensure_file_block_indirect (S d) n f (default 0 (T !! p)) fb s = Ret (r, root, out) s' /\
    (r = 0 -> exists T', stepped s s' y (fun j => if bool_decide (p = [j]) then root else R j) T T' /\
      T' !! (p ++ digits (S d) fb) = Some out).
Proof.
  revert s x y R T p fb. induction d as [|d IH]; intros s x y R T p fb Hx Hy Hf Ht Hd Hp Hw Hpn Hfb.
  - destruct (ensure_level 0 s x y R T p fb) as [(r & root & s' & Hr & ->)|(c & e & s' & T' & Hst & He & ->)]; try done.
    + change (Z.of_nat 1) with 1 in Hfb. by rewrite Z.pow_1_r in Hfb.
    + by exists r, root, 0, s'.
    + exists 0, c, e, s'. split; [done|]. intros _. by exists T'.
  - destruct (index_slot_range (S d) fb) as [Hs1 Hs2]; [lia|done|]. pose proof ppb_range as [Hpp _].
    pose proof (pow_u32 (S d) ltac:(lia)) as Hu.
    destruct (ensure_level (S d) s x y R T p fb) as [(r & root & s' & Hr & ->)|(c & e & s' & T' & Hst & He & ->)]; try done.
    + by rewrite u32_id by lia.
    + by exists r, root, 0, s'.
    + rewrite !u32_id in * by lia. destruct (stepped_free _ _ _ _ _ _ Hst) as (Hf1 & Ht1 & Hsub).
      pose proof Hst as (x1 & y1 & Hx1 & Hy1 & _).
      set (q := p ++ [fb / ppb ^ Z.of_nat (S d)]) in *.
      destruct (IH s' x1 y1 _ T' q (fb `mod` ppb ^ Z.of_nat (S d)) Hx1 Hy1 Hf1 Ht1) as (r & root & out & s2 & Hr & Hok);
        [lia|by apply above_snoc|by eapply t_wf|congruence|done|].
      rewrite He in Hr. cbn [default] in Hr. rewrite (bind_ret _ _ _ _ _ Hr). exists r, c, out, s2. split; [done|].
      intros Hz. destruct (Hok Hz) as (T2 & Hst2 & Hout). exists T2. split.
      * eapply stepped_trans; [exact Hst|exact Hy1|]. eapply stepped_roots; [|exact Hst2]. intros k Hk. cbn.
        rewrite (bool_decide_eq_false_2 (q = [k])); [done|]. intros H. apply (f_equal length) in H. unfold q in H.
        rewrite length_app in H. destruct p; [done|cbn in H; lia].
      * rewrite <- Hout. unfold q. by rewrite (digits_S (S d) fb), <- app_assoc by lia.
Qed.

(** ** Making sure of a block of a file *)

(** The state of a file with the block map [T]. *)
Definition file_at (s : ext2 D) (y : ext2_node) (T : gmap (list Z) Z) : Prop :=
  (exists x, fs_at G s x) /\ node_at s y /\ free_plain G s /\ tree s (roots y) T.
(** Only the inode of the node may differ. *)
Definition same_node (y y' : ext2_node) : Prop := y' = with_inode y (n_inode y').

Lemma same_node_trans y1 y2 y3 : same_node y1 y2 -> same_node y2 y3 -> same_node y1 y3.
Proof. unfold same_node. destruct y1, y2, y3. unfold with_inode. cbn. congruence. Qed.

Lemma roots_set y k v j :
  length (n_inode y) = 128%nat -> 0 <= k < 15 -> 0 <= j < 15 -> 0 <= v < 2 ^ 32 ->
  roots (with_inode y (set_block (n_inode y) (Z.to_nat k) v)) j = if bool_decide (j = k) then v else roots y j.
Proof.
  intros Hl Hk Hj Hv. unfold roots, i_block, set_block. cbn [with_inode n_inode]. case_bool_decide as Hc.
  - subst. apply g32_p32; [lia|done].
  - unfold p32. apply g32_other; cbn; lia.
Qed.
Lemma set_block_length i k v : length i = 128%nat -> 0 <= k < 15 -> length (set_block i (Z.to_nat k) v) = 128%nat.
Proof. intros Hl Hk. unfold set_block. rewrite p32_length; lia. Qed.

Lemma ensure_direct s x y T idx :
  fs_at G s x -> node_at s y -> free_plain G s -> tree s (roots y) T -> 0 <= idx < 12 -> T !! [idx] = None ->
  exists r b s', (let* b := alloc_block f in
                  if negb (b.1 =? 0) then ret b
                  else
                    let* x := get_node n in
                    put_node n (with_inode x (set_block (n_inode x) (Z.to_nat idx) b.2)) ;;;
                    count_block n ;;;
                    let* e := sync_inode n in
                    ret (e, b.2)) s = Ret (r, b) s' /\
    (r = 0 -> exists y', file_at s' y' (<[[idx] := b]> T) /\ same_node y y' /\ grown s s' T (<[[idx] := b]> T)).
Proof.
  intros Hx Hy Hf Ht Hk Hn. destruct (alloc_fresh s x y Hx Hy Hf) as (r & b & s1 & Hr & Hok). rewrite (bind_ret _ _ _ _ _ Hr). cbn [fst snd].
  destruct (Z.eqb_spec r 0) as [->|Hz]; cbn [negb]; [|by exists r, b, s1]. destruct (Hok eq_refl) as (x1 & Hx1 & Hy1 & Hfr1).
  rewrite (bind_ret _ _ _ _ _ (get_node_ret s1 y Hy1)). pose proof (proj1 (proj2 (proj2 Hy))) as Hl.
  pose proof (used_u32 _ _ (fb_mine _ _ _ Hfr1)) as Hb32. pose proof (fb_plain _ _ _ Hfr1) as [Hb0 _].
  set (y1 := with_inode y _).
  destruct (put_node_ret s1 x1 y Hx1 Hy1 y1) as (s2 & Hp & Hx2 & Hy2 & Hc2); [done|done|by apply set_block_length; [|lia]|].
  rewrite (bind_ret _ _ _ _ _ Hp). destruct (count_ret s2 x1 y1 Hx2 Hy2) as (s3 & y3 & Hc & Hx3 & Hy3 & Hk3 & Hc3).
  rewrite (bind_ret _ _ _ _ _ Hc). destruct (sync_ret s3 x1 y3 Hx3 Hy3) as (e & s4 & He & Hok4). rewrite (bind_ret _ _ _ _ _ He).
  exists e, b, s4. split; [done|]. intros Hz. destruct (Hok4 Hz) as (Hx4 & Hy4 & Hc4). exists y3.
  pose proof (calm_fresh _ _ _ _ Hfr1 (calm_trans _ _ _ (calm_trans _ _ _ Hc2 Hc3) Hc4)) as Hfr.
  destruct (root_linked s s4 (roots y) (roots y3) T idx b Hfr Ht Hn ltac:(lia)) as [Htr Hgr].
  { intros j Hj. rewrite (proj2 Hk3) by done. apply roots_set; [done|lia|done|lia]. }
  split; [|split; [|done]].
  - split; [by exists x1|]. split; [done|]. split; [apply Hgr|done].
  - unfold same_node. rewrite (proj1 Hk3) at 1. done.
Qed.

Lemma ensure_root_ret k d s x y T b :
  fs_at G s x -> node_at s y -> free_plain G s -> tree s (roots y) T -> 12 <= k < 15 -> levels k = S d ->
  0 <= b < ppb ^ Z.of_nat (S d) ->
  exists r out s', ensure_root (Z.to_nat k) (S d) n b s = Ret (r, out) s' /\
    (r = 0 -> exists T' y', file_at s' y' T' /\ same_node y y' /\ grown s s' T T' /\ T' !! (k :: digits (S d) b) = Some out).
Proof.
  intros Hx Hy Hf Ht Hk Hlv Hb. unfold ensure_root. rewrite (bind_ret _ _ _ _ _ (get_node_ret s y Hy)), (proj1 (proj2 Hy)).
  change (i_block (n_inode y) (Z.to_nat k)) with (roots y k). rewrite (t_root _ _ _ Ht) by lia.
  destruct (ensure_indirect_ret d s x y (roots y) T [k] b Hx Hy Hf Ht) as (r & root & out & s1 & Hr & Hok);
    [|by exists k, []|cbn; split_and!; [lia|lia|lia|constructor]|by exists k|done|].
  { unfold levels in Hlv. rewrite (proj2 (Z.ltb_ge k 12)) in Hlv by lia. lia. }
  rewrite (bind_ret _ _ _ _ _ Hr). destruct (Z.eqb_spec r 0) as [->|Hz]; cbn [negb]; [|by exists r, out, s1].
  destruct (Hok eq_refl) as (T1 & (x1 & y1 & Hx1 & Hy1 & Hk1 & Ht1 & Hg1) & Hout).
  assert (Hsame : same_node y y1) by apply Hk1.
  assert (HR : forall v j, 0 <= j < 15 -> (if bool_decide (j = k) then v else roots y1 j) =
    if bool_decide ([k] = [j]) then v else roots y j).
  { intros v j Hj. rewrite (proj2 Hk1) by done. case_bool_decide as Ha; case_bool_decide as Hc; congruence. }
  assert (Hroot : root = default 0 (T1 !! [k])).
  { rewrite <- (t_root _ _ _ Ht1) by lia. by rewrite bool_decide_eq_true_2. }
  rewrite (bind_ret _ _ _ _ _ (get_node_ret s1 y1 Hy1)). change (i_block (n_inode y1) (Z.to_nat k)) with (roots y1 k).
  destruct (Z.eqb_spec (roots y1 k) root) as [Heq|Hne].
  - exists 0, out, s1. split; [done|]. intros _. exists T1, y1. split; [|done].
    split; [by exists x1|]. split; [done|]. split; [apply Hg1|]. eapply calm_tree; [apply calm_refl| |exact Ht1].
    intros j Hj. cbn. rewrite <- HR by done. case_bool_decide as Ha; [by subst|done].
  - assert (Hroot32 : 0 <= root < 2 ^ 32).
    { destruct (T1 !! [k]) as [c|] eqn:Hc; [|cbn in Hroot; lia]. cbn in Hroot. subst c.
      destruct (t_block _ _ _ Ht1 [k] root Hc) as [[H0 _] Hu]. split; [lia|]. by apply (used_u32 s1). }
    pose proof (proj1 (proj2 (proj2 Hy1))) as Hl1. set (y2 := with_inode y1 _).
    destruct (put_node_ret s1 x1 y1 Hx1 Hy1 y2) as (s2 & Hp & Hx2 & Hy2 & Hc2); [done|done|by apply set_block_length; [|lia]|].
    rewrite (bind_ret _ _ _ _ _ Hp). destruct (sync_ret s2 x1 y2 Hx2 Hy2) as (e & s3 & He & Hok3). rewrite (bind_ret _ _ _ _ _ He).
    exists e, out, s3. split; [done|]. intros Hz. destruct (Hok3 Hz) as (Hx3 & Hy3 & Hc3).
    pose proof (calm_trans _ _ _ Hc2 Hc3) as Hc. exists T1, y2. split; [|split; [by apply (same_node_trans _ _ _ Hsame)|split; [|done]]].
    + split; [by exists x1|]. split; [done|]. split; [eapply calm_free; [done|apply Hg1]|].
      eapply calm_tree; [exact Hc| |exact Ht1]. intros j Hj. unfold y2. rewrite roots_set by (try done; lia). by rewrite HR.
    + eapply grown_calm; [done|done|]. intros q c Hq. by eapply (t_block _ _ _ Ht1).
Qed.

(** Making sure of the [idx]-th block: it is in the map. *)
Lemma ensure_file_block_ret s y T idx :
  file_at s y T -> 0 <= idx < 2 ^ 32 ->
  exists r b s', ensure_file_block n idx s = Ret (r, b) s' /\
    (r = 0 -> exists p T' y', path_of idx = Some p /\ T' !! p = Some b /\ file_at s' y' T' /\ same_node y y' /\ grown s s' T T').
Proof.
  intros ([x Hx] & Hy & Hf & Ht) Hi. unfold ensure_file_block.
  destruct (file_block_ret s x y T idx Hx Hy Ht Hi) as (r & b & s1 & Hr & Hx1 & Hq & Hok). rewrite (bind_ret _ _ _ _ _ Hr). cbn [fst snd].
  destruct (Z.eqb_spec r 0) as [->|Hz]; cbn [negb orb]; [|by exists r, b, s1]. destruct (Hok eq_refl) as (p & Hp & Hb).
  pose proof (quiet_calm _ _ Hq) as Hc. pose proof (node_quiet _ _ _ Hy Hq) as Hy1. pose proof (calm_free _ _ Hc Hf) as Hf1.
  pose proof (tree_quiet _ _ _ _ Ht Hq) as Ht1.
  destruct (T !! p) as [c|] eqn:HT; cbn in Hb; subst b.
  { pose proof (tree_pos _ _ _ _ _ Ht HT) as Hc0. rewrite (proj2 (Z.eqb_neq c 0)) by lia. exists 0, c, s1. split; [done|]. intros _.
    exists p, T, y. split; [done|]. split; [done|]. split; [split; [by exists x|done]|]. split; [by destruct y|].
    eapply calm_grown; [done|by apply tree_grown_refl]. }
  cbn [Z.eqb negb]. rewrite (bind_ret _ _ _ _ _ (get_node_ret s1 y Hy1)), (proj1 (proj2 Hy)).
  rewrite (bind_ret _ _ _ _ _ (get_fs_ret G s1 x Hx1)), (g_bs _ _ (proj1 (proj2 Hx1))). fold ppb. cbv zeta.
  pose proof ppb_range as [Hpp _]. pose proof Hp as Hpath. unfold path_of in Hp. cbv zeta in Hp.
  assert (Hroot : forall k d b', 12 <= k < 15 -> levels k = S d -> 0 <= b' < ppb ^ Z.of_nat (S d) -> p = k :: digits (S d) b' ->
    exists r b s', ensure_root (Z.to_nat k) (S d) n b' s1 = Ret (r, b) s' /\
    (r = 0 -> exists p T' y', path_of idx = Some p /\ T' !! p = Some b /\ file_at s' y' T' /\ same_node y y' /\ grown s s' T T')).
  { intros k d b' Hk Hl Hb' ->. destruct (ensure_root_ret k d s1 x y T b' Hx1 Hy1 Hf1 Ht1 Hk Hl Hb') as (r & out & s2 & Hr2 & Hok2).
    exists r, out, s2. split; [done|]. intros Hz. destruct (Hok2 Hz) as (T' & y' & Hfile & Hs & Hg & Hout).
    exists (k :: digits (S d) b'), T', y'. do 4 (split; [done|]). by eapply calm_grown. }
  destruct (Z.ltb_spec idx 12).
  { injection Hp as <-. destruct (ensure_direct s1 x y T idx Hx1 Hy1 Hf1 Ht1) as (r & b & s2 & Hr2 & Hok2); [lia|done|].
    exists r, b, s2. split; [done|]. intros Hz. destruct (Hok2 Hz) as (y' & Hfile & Hs & Hg).
    exists [idx], (<[[idx] := b]> T), y'. split; [done|]. split; [by rewrite lookup_insert_eq|]. do 2 (split; [done|]). by eapply calm_grown. }
  rewrite (u32_id (idx - 12)) by lia. destruct (Z.ltb_spec (idx - 12) ppb).
  { apply (Hroot 12 0%nat); [lia|done|change (Z.of_nat 1) with 1; lia|congruence]. }
  assert (Hp2 : ppb * ppb = ppb ^ 2) by lia. assert (Hp3 : ppb ^ 2 * ppb = ppb ^ 3) by lia.
  pose proof (pow_u32 3 ltac:(lia)) as Hu3. change (Z.of_nat 3) with 3 in Hu3.
  rewrite (u32_id (idx - 12 - ppb)), (u64_small (ppb * ppb)), Hp2 by nia. destruct (Z.ltb_spec (idx - 12 - ppb) (ppb ^ 2)).
  { apply (Hroot 13 1%nat); [lia|done|change (Z.of_nat 2) with 2; lia|congruence]. }
  rewrite (u32_id (ppb ^ 2)) by nia. rewrite (u32_id (idx - 12 - ppb - ppb ^ 2)) by lia.
  rewrite Hp3, (u64_small (ppb ^ 3)) by lia.
  destruct (Z.ltb_spec (idx - 12 - ppb - ppb ^ 2) (ppb ^ 3)); [|done].
  apply (Hroot 14 2%nat); [lia|done|change (Z.of_nat 3) with 3; lia|congruence].
Qed.
End tree.
