(* ===== verification/Ext2View.v ===== *)
(** * ext2: what a file reads as, and what a write makes of it

    The bytes of a file are those of its blocks, and zero in its holes.  [ext2_read] gives
    them and changes nothing; [ext2_write] changes the bytes written and no block of another
    file. *)

From stdpp Require Import base list gmap.
From Stdlib Require Import ZArith Lia.
From S2P Require Import Prelude Ext2 Ext2File Ext2Alloc Ext2Tree.

Local Open Scope Z_scope.

Section view.
Context {D : Type} {env : Ext2Env D} {laws : Ext2Laws D}.
Context (G : geometry) (Hlay : layout G).
Abbreviation f := (q_f G).
Abbreviation bs := (q_bs G).

(** ** The bytes *)

Definition fblock (s : ext2 D) (T : gmap (list Z) Z) (idx : Z) : list Z :=
  match path_of G idx ≫= (T !!.) with Some b => blk G s b | None => replicate (Z.to_nat bs) 0 end.
Definition fbyte (s : ext2 D) (T : gmap (list Z) Z) (pos : Z) : Z := nth (Z.to_nat (pos `mod` bs)) (fblock s T (pos / bs)) 0.
(** Offsets from here on do not fit the 32 bits of a block's index. *)
Definition limit : Z := 2 ^ 32 * bs.

Lemma fblock_length s T idx : length (fblock s T idx) = Z.to_nat bs.
Proof. unfold fblock. destruct (_ ≫= _); [apply blk_length|apply length_replicate]. Qed.
Lemma bs_pos : 1024 <= bs <= 4096.
Proof. apply (bs_range G Hlay). Qed.
Lemma pos_index pos : 0 <= pos < limit -> 0 <= pos / bs < 2 ^ 32.
Proof.
  pose proof bs_pos. unfold limit. intros H0. split; [apply Z.div_pos; lia|]. apply Z.div_lt_upper_bound; lia.
Qed.
(** Inside a block. *)
Lemma pos_inside pos i : 0 <= pos -> 0 <= i < bs - pos `mod` bs ->
  (pos + i) / bs = pos / bs /\ (pos + i) `mod` bs = pos `mod` bs + i.
Proof.
  pose proof bs_pos. intros Hp Hi. pose proof (Z.mod_pos_bound pos bs ltac:(lia)).
  assert (Heq : pos + i = bs * (pos / bs) + (pos `mod` bs + i)) by (pose proof (Z.div_mod pos bs ltac:(lia)); lia).
  split; symmetry; [apply (Z.div_unique _ _ _ (pos `mod` bs + i))|apply (Z.mod_unique _ _ (pos / bs))]; lia.
Qed.

Lemma fbyte_chunk s T pos c :
  0 <= pos -> 0 <= c <= bs - pos `mod` bs ->
  take (Z.to_nat c) (drop (Z.to_nat (pos `mod` bs)) (fblock s T (pos / bs))) = map (fbyte s T) (seqZ pos c).
Proof.
  intros Hp Hc. pose proof bs_pos. pose proof (Z.mod_pos_bound pos bs ltac:(lia)).
  assert (Hl : length (take (Z.to_nat c) (drop (Z.to_nat (pos `mod` bs)) (fblock s T (pos / bs)))) = Z.to_nat c).
  { rewrite length_take, length_drop, fblock_length. lia. }
  apply nth_ext with (d := 0) (d' := 0); [by rewrite Hl, length_map, length_seqZ|]. intros i Hi. rewrite Hl in Hi.
  assert (Hr : map (fbyte s T) (seqZ pos c) !! i = Some (fbyte s T (pos + Z.of_nat i))).
  { apply (list_lookup_fmap_Some_2 (fbyte s T)), lookup_seqZ. lia. }
  rewrite (nth_lookup (map _ _)), Hr. cbn [default]. unfold default, id, fbyte.
  destruct (pos_inside pos (Z.of_nat i) Hp) as [-> ->]; [lia|].
  rewrite !nth_lookup, lookup_take_lt, lookup_drop by lia. do 2 f_equal. lia.
Qed.
Lemma map_seqZ_app {A} (g : Z -> A) a b c : 0 <= b <= c -> map g (seqZ a b) ++ map g (seqZ (a + b) (c - b)) = map g (seqZ a c).
Proof. intros H0. rewrite <- map_app, <- seqZ_app by lia. do 2 f_equal. lia. Qed.

(** ** Reading *)

Lemma fblock_ext s s' T : (forall p b, T !! p = Some b -> blk G s' b = blk G s b) -> forall j, fblock s' T j = fblock s T j.
Proof. intros Hb j. unfold fblock. destruct (path_of G j) as [p|]; [|done]. cbn. destruct (T !! p) eqn:Hp; [by eapply Hb|done]. Qed.
Lemma calm_fblock s s' R T j : calm G s s' -> tree G s R T -> fblock s' T j = fblock s T j.
Proof. intros Hc Ht. apply fblock_ext. intros p b Hp. apply (proj1 Hc). by eapply (t_block _ _ _ _ Ht). Qed.
Lemma calm_fbyte s s' R T q : calm G s s' -> tree G s R T -> fbyte s' T q = fbyte s T q.
Proof. intros Hc Ht. unfold fbyte. f_equal. by eapply calm_fblock. Qed.

Lemma read_loop_ret n fuel s0 s x y T off len copied acc :
  fs_at G s x -> node_at G n s y -> tree G s (roots y) T -> quiet G s0 s -> 0 <= off -> off + len <= limit -> 0 <= copied <= len ->
  (Z.to_nat (len - copied) < fuel)%nat ->
  exists r l s', read_loop fuel n f bs off len copied acc s = Ret (r, l) s' /\ fs_at G s' x /\ quiet G s0 s' /\
    (r = 0 -> l = acc ++ map (fbyte s T) (seqZ (off + copied) (len - copied))).
Proof.
  revert s copied acc. induction fuel as [|fuel IH]; intros s copied acc Hx Hy Ht Hq Ho Hlim Hc Hf; [lia|]. cbn [read_loop].
  destruct (Z.leb_spec len copied) as [Hle|Hlt].
  { exists 0, acc, s. do 3 (split; [done|]). intros _. replace (len - copied) with 0 by lia. by rewrite app_nil_r. }
  pose proof bs_pos as Hbs. unfold limit in Hlim. rewrite (u64_small (off + copied)) by lia. cbv zeta.
  set (pos := off + copied). pose proof (Z.mod_pos_bound pos bs ltac:(lia)) as Hm.
  set (chunk := Z.min _ _). assert (Hck : 0 < chunk /\ chunk <= bs - pos `mod` bs /\ chunk <= len - copied) by lia.
  pose proof (pos_index pos ltac:(unfold limit; lia)) as Hidx. rewrite (u32_small (pos / bs)) by lia.
  destruct (file_block_ret G Hlay n s x y T (pos / bs) Hx Hy Ht Hidx) as (r & b & s1 & Hr & Hx1 & Hq1 & Hok).
  rewrite (bind_ret _ _ _ _ _ Hr). cbn [fst snd]. pose proof (quiet_trans _ _ _ _ Hq Hq1) as Hq01.
  destruct (Z.eqb_spec r 0) as [->|Hz]; cbn [negb]; [|by exists r, [], s1]. destruct (Hok eq_refl) as (p & Hp & Hb).
  assert (Hgo : forall s2 l, fs_at G s2 x -> quiet G s s2 -> l = map (fbyte s T) (seqZ pos chunk) ->
    exists r l' s', read_loop fuel n f bs off len (copied + chunk) (acc ++ l) s2 = Ret (r, l') s' /\ fs_at G s' x /\ quiet G s0 s' /\
    (r = 0 -> l' = acc ++ map (fbyte s T) (seqZ (off + copied) (len - copied)))).
  { intros s2 l Hx2 Hq2 ->. destruct (IH s2 (copied + chunk) (acc ++ map (fbyte s T) (seqZ pos chunk))) as (r & l' & s' & Hr' & Hx' & Hq' & Hl');
      [done|by eapply node_quiet|by eapply tree_quiet|exact (quiet_trans _ _ _ _ Hq Hq2)|done|unfold limit; lia|lia|lia|].
    exists r, l', s'. do 3 (split; [done|]). intros Hz. rewrite (Hl' Hz), <- app_assoc. f_equal.
    rewrite <- (map_seqZ_app (fbyte s T) (off + copied) chunk (len - copied)) by lia. fold pos. f_equal.
    replace (off + (copied + chunk)) with (pos + chunk) by lia. replace (len - (copied + chunk)) with (len - copied - chunk) by lia.
    apply map_ext. intros q. eapply calm_fbyte; [by apply quiet_calm|done]. }
  assert (Hch : take (Z.to_nat chunk) (drop (Z.to_nat (pos `mod` bs)) (fblock s T (pos / bs))) = map (fbyte s T) (seqZ pos chunk)).
  { apply fbyte_chunk; lia. }
  unfold fblock in Hch. rewrite Hp in Hch. cbn in Hch.
  destruct (T !! p) as [c|] eqn:HT; cbn in Hb, Hch; subst b.
  - pose proof (tree_pos _ _ _ _ _ _ Ht HT) as Hc0. rewrite (proj2 (Z.eqb_neq c 0)) by lia. cbn [negb].
    destruct (t_block _ _ _ _ Ht p c HT) as [(_ & Hpl & _) _].
    destruct (read_block_ret G Hlay s1 x c Hx1 ltac:(lia) Hpl) as (s2 & Hr2 & Hx2 & Hq2). rewrite (bind_ret _ _ _ _ _ Hr2).
    cbn [fst snd Z.eqb negb]. apply Hgo; [done|by eapply quiet_trans|]. rewrite <- Hch. do 2 f_equal.
    apply blk_ext. intros. apply Hq1.
  - cbn [Z.eqb negb]. apply Hgo; [done|done|]. rewrite <- Hch.
    rewrite drop_replicate, take_replicate. f_equal. lia.
Qed.

(** ** Writing *)

(** Blocks in use outside the file keep their bytes. *)
Record frame (s s' : ext2 D) (T T' : gmap (list Z) Z) : Prop := {
  fr_sub : T ⊆ T';
  fr_used : forall c, used G s c -> used G s' c;
  fr_same : forall c, used G s c -> plain G c -> (forall p, T !! p <> Some c) -> blk G s' c = blk G s c;
  fr_fresh : forall p c, T' !! p = Some c -> T !! p = None -> ~ used G s c }.

Lemma frame_out s s' T T' c : frame s s' T T' -> used G s c -> (forall p, T !! p <> Some c) -> forall p, T' !! p <> Some c.
Proof.
  intros Hf Hu Hn p Hp. destruct (T !! p) as [c'|] eqn:HT; [|by eapply (fr_fresh _ _ _ _ Hf)].
  pose proof (lookup_weaken _ _ _ _ HT (fr_sub _ _ _ _ Hf)). apply (Hn p). congruence.
Qed.
Lemma frame_refl s T : frame s s T T.
Proof. split; try done. intros p c Hp Hn. congruence. Qed.
Lemma frame_trans s s1 s2 T T1 T2 : frame s s1 T T1 -> frame s1 s2 T1 T2 -> frame s s2 T T2.
Proof.
  intros Ha Hb. split.
  - etrans; [apply Ha|apply Hb].
  - intros c Hc. by apply (fr_used _ _ _ _ Hb), (fr_used _ _ _ _ Ha).
  - intros c Hc Hp Hn. rewrite (fr_same _ _ _ _ Hb); [by apply (fr_same _ _ _ _ Ha)|by apply (fr_used _ _ _ _ Ha)|done|].
    by eapply frame_out.
  - intros p c Hp Hn Hu. destruct (T1 !! p) as [c1|] eqn:H1.
    + pose proof (lookup_weaken _ _ _ _ H1 (fr_sub _ _ _ _ Hb)). assert (c1 = c) as -> by congruence.
      by eapply (fr_fresh _ _ _ _ Ha).
    + eapply (fr_fresh _ _ _ _ Hb); [done|done|]. by apply (fr_used _ _ _ _ Ha).
Qed.
Lemma calm_frame s s' T : calm G s s' -> frame s s' T T.
Proof. intros Hc. split; [done| | |intros p c Hp Hn; congruence]; intros c Hu; [by apply (calm_used G s s')|]. intros Hp _. by apply Hc. Qed.
Lemma grown_frame s s' T T' : grown G s s' T T' -> frame s s' T T'.
Proof.
  intros [A1 A2 A3 A4 A5 A6]. split; try done. intros c Hu Hp Hn. apply A4; [done|done|]. intros p Hp'.
  destruct (T !! p) as [c'|] eqn:HT; [|by destruct (A6 p c Hp' HT)].
  pose proof (lookup_weaken _ _ _ _ HT A1). destruct (Hn p). congruence.
Qed.
Lemma grown_fblock s s' R R' T T' j :
  0 <= j -> tree G s R T -> tree G s' R' T' -> grown G s s' T T' -> fblock s' T' j = fblock s T j.
Proof.
  intros Hj Ht Ht' [A1 A2 A3 A4 A5 A6]. unfold fblock. destruct (path_of G j) as [p|] eqn:Hp; [|done]. cbn.
  destruct (path_of_data G Hlay j p Hj Hp) as [_ Hd]. destruct (T !! p) as [c|] eqn:HT.
  - pose proof (lookup_weaken _ _ _ _ HT A1) as HT'. rewrite HT'. destruct (t_block _ _ _ _ Ht p c HT) as [Hpl Hu].
    apply A4; [done|done|]. intros q Hq. by rewrite (t_inj _ _ _ _ Ht' q p c Hq HT').
  - destruct (T' !! p) as [c|] eqn:HT'; [|done]. by eapply A5.
Qed.

(** Data block [b], the [idx]-th of the file, is written. *)
Lemma tree_store s s' R T p b idx buf :
  tree G s R T -> T !! p = Some b -> path_of G idx = Some p -> 0 <= idx ->
  blk G s' b = buf -> (forall c, plain G c -> c <> b -> blk G s' c = blk G s c) ->
  (forall g i, (g < Z.to_nat (q_gc G))%nat -> 0 <= i < q_bpg G -> bit G s' g i = bit G s g i) ->
  tree G s' R T /\ frame s s' T T /\
  forall j, 0 <= j -> fblock s' T j = if bool_decide (j = idx) then buf else fblock s T j.
Proof.
  intros Ht Hb Hp Hi Hbuf Hoth Hbit. destruct (path_of_data G Hlay idx p Hi Hp) as [_ Hd].
  assert (Hu : forall c, used G s c -> used G s' c).
  { intros c (g & i & Hg & Hgi & -> & Hbt). exists g, i. rewrite Hbit by done. split_and!; try done; lia. }
  split; [|split].
  - split; try apply Ht.
    + intros q c j Hq Hqi Hj. rewrite Hoth; [by apply (t_index _ _ _ _ Ht)|by eapply t_block|].
      intros ->. by rewrite (t_inj _ _ _ _ Ht q p b Hq Hb) in Hqi.
    + intros q c Hq. destruct (t_block _ _ _ _ Ht q c Hq) as [H1 H2]. split; [done|]. by apply Hu.
  - split; [done|done| |intros q c Hq Hn; congruence]. intros c Hc Hpl Hn. apply Hoth; [done|]. intros ->. by apply (Hn p).
  - intros j Hj. case_bool_decide as Hc; [subst j; unfold fblock; rewrite Hp; cbn; by rewrite Hb|].
    unfold fblock. destruct (path_of G j) as [q|] eqn:Hq; [|done]. cbn. destruct (T !! q) as [c|] eqn:HT; [|done].
    apply Hoth; [by eapply t_block|]. intros ->. apply Hc. apply (block_path_inj G Hlay j idx p); try done.
    by rewrite <- (t_inj _ _ _ _ Ht q p b HT Hb).
Qed.

(** The bytes from [pos] on are [data], the others as before. *)
Definition written (s s' : ext2 D) (T T' : gmap (list Z) Z) (pos : Z) (data : list Z) : Prop :=
  forall q, 0 <= q < limit -> fbyte s' T' q =
    if bool_decide (pos <= q < pos + Z.of_nat (length data)) then nth (Z.to_nat (q - pos)) data 0 else fbyte s T q.

Lemma written_block s s' T T' pos data :
  0 <= pos -> Z.of_nat (length data) <= bs - pos `mod` bs ->
  (forall j, 0 <= j -> fblock s' T' j =
    if bool_decide (j = pos / bs) then put_bytes (fblock s T j) (Z.to_nat (pos `mod` bs)) data else fblock s T j) ->
  written s s' T T' pos data.
Proof.
  intros Hp Hl Hf q Hq. pose proof bs_pos as Hbs. pose proof (Z.mod_pos_bound pos bs ltac:(lia)) as Hm.
  pose proof (Z.mod_pos_bound q bs ltac:(lia)) as Hmq. pose proof (Z.div_mod pos bs ltac:(lia)). pose proof (Z.div_mod q bs ltac:(lia)).
  unfold fbyte. rewrite Hf by (apply pos_index; done). case_bool_decide as Hc.
  - rewrite Hc. rewrite nth_put_bytes by (rewrite fblock_length; lia). rewrite Hc in *.
    case_bool_decide as Ha; case_bool_decide as Hb; try (exfalso; lia); [f_equal; lia|done].
  - rewrite bool_decide_eq_false_2; [done|]. intros Hin. apply Hc.
    destruct (pos_inside pos (q - pos) Hp) as [Hd _]; [lia|]. by replace (pos + (q - pos)) with q in Hd by lia.
Qed.
End view.
