(* ===== verification/Ext2Write.v ===== *)
(** * ext2: [ext2_read], [ext2_write] and [ext2_truncate] on a file *)

From stdpp Require Import base list gmap.
From Stdlib Require Import ZArith Lia.
From S2P Require Import Prelude Ext2 Ext2File Ext2Alloc Ext2Tree Ext2View.

Local Open Scope Z_scope.

Section write.
Context {D : Type} {env : Ext2Env D} {laws : Ext2Laws D}.
Context (G : geometry) (Hlay : layout G) (n : Z).
Abbreviation f := (q_f G).
Abbreviation bs := (q_bs G).

Lemma put_bytes_all l data : length data = length l -> put_bytes l 0 data = data.
Proof. intros Hl. unfold put_bytes. cbn [take app]. by rewrite Nat.add_0_l, drop_ge, app_nil_r by lia. Qed.

(** The block to write into, as it is on the disk; its bytes do not matter where all of it
    is written. *)
Lemma old_block_ret s x b boff data :
  fs_at G s x -> plain G b -> 0 <= boff -> boff + Z.of_nat (length data) <= bs ->
  exists l s', (if negb (boff =? 0) || negb (Z.of_nat (length data) =? bs) then read_block f b
                else ret (0, replicate (Z.to_nat bs) 0)) s = Ret (0, l) s' /\
    fs_at G s' x /\ quiet G s s' /\ put_bytes l (Z.to_nat boff) data = put_bytes (blk G s b) (Z.to_nat boff) data.
Proof.
  intros Hx (Hb0 & Hb1 & _) Ho Hl. pose proof (bs_pos G Hlay) as Hbs. destruct (_ || _) eqn:Hc.
  - destruct (read_block_ret G Hlay s x b Hx ltac:(lia) Hb1) as (s' & Hr & Hx' & Hq). by exists (blk G s b), s'.
  - apply orb_false_iff in Hc as [H1%negb_false_iff H2%negb_false_iff]. apply Z.eqb_eq in H1 as ->. apply Z.eqb_eq in H2.
    exists (replicate (Z.to_nat bs) 0), s. do 2 (split; [done|]). split; [apply quiet_refl|].
    rewrite !put_bytes_all; [done|rewrite blk_length; lia|rewrite length_replicate; lia].
Qed.

(** What a step of writing comes to. *)
Definition wrote (s s' : ext2 D) (y : ext2_node) (T : gmap (list Z) Z) (pos : Z) (data : list Z) : Prop :=
  exists y' T', file_at G n s' y' T' /\ same_node y y' /\ frame G s s' T T' /\ written G s s' T T' pos data.

Lemma write_round_ret s y T pos data :
  file_at G n s y T -> 0 <= pos < limit G -> Z.of_nat (length data) <= bs - pos `mod` bs -> bytes_ok data ->
  exists r s', write_round n f bs pos data s = Ret r s' /\ (r = 0 -> wrote s s' y T pos data).
Proof.
  intros Hfile Hpos Hl Hd. pose proof (bs_pos G Hlay) as Hbs. pose proof (pos_index G Hlay pos Hpos) as Hidx.
  pose proof (Z.mod_pos_bound pos bs ltac:(lia)) as Hm. unfold write_round. cbv zeta. rewrite (u32_small (pos / bs)) by lia.
  destruct (ensure_file_block_ret G Hlay n s y T (pos / bs) Hfile Hidx) as (r & b & s1 & Hr & Hok).
  rewrite (bind_ret _ _ _ _ _ Hr). cbn [fst snd]. destruct (Z.eqb_spec r 0) as [->|Hz]; cbn [negb]; [|by exists r, s1].
  destruct (Hok eq_refl) as (p & T1 & y1 & Hp & Hb & ([x1 Hx1] & Hy1 & Hf1 & Ht1) & Hs1 & Hg1).
  destruct (t_block _ _ _ _ Ht1 p b Hb) as [Hpl Hu].
  destruct (old_block_ret s1 x1 b (pos `mod` bs) data Hx1 Hpl ltac:(lia) ltac:(lia)) as (l & s2 & Hr2 & Hx2 & Hq2 & Hput).
  rewrite (bind_ret _ _ _ _ _ Hr2). cbn [fst snd Z.eqb negb]. rewrite Hput. set (buf := put_bytes (blk G s1 b) _ data).
  assert (Hbl : length buf = Z.to_nat bs) by (unfold buf; rewrite put_bytes_length; rewrite blk_length; [done|lia]).
  pose proof (node_quiet _ _ _ _ _ Hy1 Hq2) as Hy2. pose proof (tree_quiet _ _ _ _ _ Ht1 Hq2) as Ht2.
  pose proof Hpl as (Hb0 & Hb1 & _).
  destruct (write_block_ret G Hlay s2 x1 b buf Hx2 ltac:(lia) Hb1 Hbl) as (s3 & Hw & Hx3 & Hf3 & Hn3 & Hst).
  exists 0, s3. split; [done|]. intros _. exists y1, T1.
  destruct (store_block G Hlay s2 s3 b buf Hpl Hst Hbl) as (Hself & Hother & Hbits); [apply put_bytes_ok; [apply blk_bytes|done]|].
  destruct (tree_store G Hlay s2 s3 (roots y1) T1 p b (pos / bs) buf Ht2 Hb Hp ltac:(lia) Hself Hother Hbits) as (Ht3 & Hfr3 & Hfb).
  pose proof (quiet_calm _ _ _ Hq2) as Hc2. split; [|split; [done|split]].
  - split; [by exists x1|]. split; [destruct Hy2; split; [by rewrite Hn3|done]|]. split; [|done].
    intros g i Hg Hi Hc Hbt. apply Hf1; try done. rewrite <- (quiet_bit _ _ _ _ _ Hq2). by rewrite <- Hbits.
  - eapply frame_trans; [by apply grown_frame|]. eapply frame_trans; [by apply calm_frame|done].
  - destruct Hfile as (_ & _ & _ & Ht). apply (written_block G Hlay); [lia|lia|]. intros j Hj. rewrite (Hfb j Hj).
    assert (Hold : fblock G s2 T1 j = fblock G s T j).
    { rewrite (calm_fblock G s1 s2 (roots y1) T1 j Hc2 Ht1). by apply (grown_fblock G Hlay s s1 (roots y) (roots y1)). }
    case_bool_decide as Hc; [|done]. subst j. unfold buf. f_equal.
    rewrite <- (grown_fblock G Hlay s s1 (roots y) (roots y1) T T1 (pos / bs) Hj Ht Ht1 Hg1). unfold fblock. rewrite Hp. cbn. by rewrite Hb.
Qed.

Lemma wrote_app s s1 s2 y y1 T T1 pos d1 d2 :
  0 <= pos -> file_at G n s1 y1 T1 -> same_node y y1 -> frame G s s1 T T1 -> written G s s1 T T1 pos d1 ->
  wrote s1 s2 y1 T1 (pos + Z.of_nat (length d1)) d2 -> wrote s s2 y T pos (d1 ++ d2).
Proof.
  intros Hp _ Hs Hf Hw (y2 & T2 & Hfile & Hs2 & Hf2 & Hw2). exists y2, T2. split; [done|].
  split; [by eapply same_node_trans|]. split; [by eapply frame_trans|]. intros q Hq. rewrite Hw2 by done. rewrite length_app.
  case_bool_decide as Ha.
  - rewrite bool_decide_eq_true_2 by lia. rewrite app_nth2 by lia. f_equal. lia.
  - rewrite Hw by done. case_bool_decide as Hb.
    + rewrite bool_decide_eq_true_2 by lia. by rewrite app_nth1 by lia.
    + by rewrite bool_decide_eq_false_2 by lia.
Qed.

Lemma write_loop_ret fuel s y T off buf copied :
  file_at G n s y T -> 0 <= off -> off + Z.of_nat (length buf) <= limit G -> bytes_ok buf -> 0 <= copied <= Z.of_nat (length buf) ->
  (Z.to_nat (Z.of_nat (length buf) - copied) < fuel)%nat ->
  exists r ok s', write_loop fuel n f bs off buf copied s = Ret (r, ok) s' /\
    (ok = true -> r = 0 /\ wrote s s' y T (off + copied) (drop (Z.to_nat copied) buf)).
Proof.
  revert s y T copied. induction fuel as [|fuel IH]; intros s y T copied Hfile Ho Hlim Hby Hc Hf; [lia|]. cbn [write_loop]. cbv zeta.
  destruct (Z.leb_spec (Z.of_nat (length buf)) copied) as [Hle|Hlt].
  { exists 0, true, s. split; [done|]. intros _. split; [done|]. exists y, T. split; [done|]. split; [by destruct y|].
    split; [apply frame_refl|]. intros q Hq. rewrite drop_ge by lia. by rewrite bool_decide_eq_false_2 by (cbn; lia). }
  pose proof (bs_pos G Hlay) as Hbs. unfold limit in Hlim. rewrite (u64_small (off + copied)) by lia.
  set (pos := off + copied). pose proof (Z.mod_pos_bound pos bs ltac:(lia)) as Hm. set (chunk := Z.min _ _).
  assert (Hck : 0 < chunk /\ chunk <= bs - pos `mod` bs /\ chunk <= Z.of_nat (length buf) - copied) by lia.
  set (data := take _ _). assert (Hdl : Z.of_nat (length data) = chunk) by (unfold data; rewrite length_take, length_drop; lia).
  destruct (write_round_ret s y T pos data Hfile) as (r & s1 & Hr & Hok);
    [unfold limit; lia|lia|by apply Forall_take, Forall_drop|]. rewrite (bind_ret _ _ _ _ _ Hr).
  destruct (Z.eqb_spec r 0) as [->|Hz]; cbn [negb]; [|by exists (if copied =? 0 then r else 0), false, s1].
  destruct (Hok eq_refl) as (y1 & T1 & Hfile1 & Hs1 & Hf1 & Hw1).
  destruct (IH s1 y1 T1 (copied + chunk) Hfile1) as (r & ok & s2 & Hr2 & Hok2); [done|unfold limit; lia|done|lia|lia|].
  exists r, ok, s2. split; [done|]. intros Ht. destruct (Hok2 Ht) as [-> Hw2]. split; [done|].
  replace (drop (Z.to_nat copied) buf) with (data ++ drop (Z.to_nat (copied + chunk)) buf).
  - eapply wrote_app; [lia|done|done|done|done|]. rewrite Hdl. by replace (pos + chunk) with (off + (copied + chunk)) by lia.
  - unfold data. rewrite <- (take_drop (Z.to_nat chunk) (drop (Z.to_nat copied) buf)) at 2. rewrite drop_drop. do 2 f_equal. lia.
Qed.
End write.
