(* ===== verification/Ext2Props.v ===== *)
(** * ext2: files are independent arrays of bytes

    Reads, writes and truncations of any set of files that succeed do what they do on plain
    arrays of bytes with a size. *)

From stdpp Require Import base list gmap.
From Stdlib Require Import ZArith Lia.
From S2P Require Import Prelude Ext2 Ext2File Ext2Alloc Ext2Tree Ext2View Ext2Write.

Local Open Scope Z_scope.

(** ** Only one node changes *)

Section others.
Context {D : Type} {env : Ext2Env D} (n : Z).
Create HintDb ext2.

Definition others (s s' : ext2 D) : Prop := forall m, m <> n -> nodes s' !! m = nodes s !! m.
#[global] Instance others_refl : Reflexive others.
Proof. by intros s m. Qed.
#[global] Instance others_trans : Transitive others.
Proof. intros s1 s2 s3 H1 H2 m Hm. by rewrite H2, H1. Qed.

Lemma others_lift {A} (m : M D A) : pres others (lift m).
Proof. intros s a s'. unfold lift. destruct (m (disk s)); try done. by intros [= _ <-]. Qed.
Lemma others_get_fs f : pres others (get_fs f).
Proof. intros s a s'. unfold get_fs. destruct (_ !! _); [|done]. by intros [= _ <-]. Qed.
Lemma others_get_node m : pres others (get_node m).
Proof. intros s a s'. unfold get_node. destruct (_ !! _); [|done]. by intros [= _ <-]. Qed.
Lemma others_put_fs f x : pres others (put_fs f x).
Proof. by intros s a s' [= _ <-]. Qed.
Lemma others_put_node x : pres others (put_node n x).
Proof. intros s a s' [= _ <-] m Hm. cbn. by rewrite lookup_insert_ne. Qed.
Lemma others_fault {A} : pres others (@fault (ext2 D) A).
Proof. done. Qed.
Lemma others_diverge {A} : pres others (@diverge (ext2 D) A).
Proof. done. Qed.

Hint Resolve @others_lift @others_get_fs @others_get_node @others_put_fs @others_put_node @others_fault @others_diverge : ext2.

Lemma others_read_block f b : pres others (read_block f b).
Proof. unfold read_block. pres_go; eauto with ext2. Qed.
Lemma others_write_block f b l : pres others (write_block f b l).
Proof. unfold write_block. pres_go; eauto with ext2. Qed.
Lemma others_write_metadata f : pres others (write_metadata f).
Proof. unfold write_metadata. pres_go; eauto with ext2. Qed.
Lemma others_inode_place f i : pres others (inode_place f i).
Proof. unfold inode_place. pres_go; eauto with ext2. Qed.
Hint Resolve others_read_block others_write_block others_write_metadata others_inode_place : ext2.
Lemma others_sync m : pres others (sync_inode m).
Proof. unfold sync_inode, write_inode. pres_go; eauto with ext2. Qed.
Lemma others_scan k b l : pres others (bitmap_scan k b l).
Proof. revert b. induction k; intros b; cbn [bitmap_scan]; pres_go; eauto with ext2. Qed.
Hint Resolve others_sync others_scan : ext2.
Lemma others_bitmap_alloc f b m : pres others (bitmap_alloc f b m).
Proof. unfold bitmap_alloc. pres_go; eauto with ext2. Qed.
Hint Resolve others_bitmap_alloc : ext2.
Lemma others_alloc_loop k g f : pres others (alloc_block_loop k g f).
Proof. revert g. induction k; intros g; cbn [alloc_block_loop]; pres_go; cbv zeta; pres_go; eauto with ext2. Qed.
Hint Resolve others_alloc_loop : ext2.
Lemma others_alloc f : pres others (alloc_block f).
Proof. unfold alloc_block. pres_go; eauto with ext2. Qed.
Lemma others_count : pres others (count_block n).
Proof. unfold count_block. pres_go; eauto with ext2. Qed.
Lemma others_indirect d f b k : pres others (file_block_indirect d f b k).
Proof. revert b k. induction d; intros b k; cbn [file_block_indirect]; cbv zeta; pres_go; eauto with ext2. Qed.
Hint Resolve others_alloc others_count others_indirect : ext2.
Lemma others_file_block k : pres others (file_block n k).
Proof. unfold file_block. cbv zeta. pres_go; eauto with ext2. Qed.
Lemma others_ensure_indirect d f b k : pres others (ensure_file_block_indirect d n f b k).
Proof. revert b k. induction d; intros b k; cbn [ensure_file_block_indirect]; cbv zeta; pres_go; eauto with ext2. Qed.
Hint Resolve others_file_block others_ensure_indirect : ext2.
Lemma others_ensure_root k d b : pres others (ensure_root k d n b).
Proof. unfold ensure_root. pres_go; eauto with ext2. Qed.
Hint Resolve others_ensure_root : ext2.
Lemma others_ensure k : pres others (ensure_file_block n k).
Proof. unfold ensure_file_block. cbv zeta. pres_go; eauto with ext2. Qed.
Hint Resolve others_ensure : ext2.
Lemma others_round f b p l : pres others (write_round n f b p l).
Proof. unfold write_round. cbv zeta. pres_go; eauto with ext2. Qed.
Hint Resolve others_round : ext2.
Lemma others_write_loop k f b o l c : pres others (write_loop k n f b o l c).
Proof. revert c. induction k; intros c; cbn [write_loop]; cbv zeta; pres_go; eauto with ext2. Qed.
Hint Resolve others_write_loop : ext2.
Lemma others_write off buf : pres others (ext2_write n off buf).
Proof. unfold ext2_write. cbv zeta. pres_go; eauto with ext2. Qed.
Lemma others_truncate size : pres others (ext2_truncate n size).
Proof. unfold ext2_truncate. pres_go; eauto with ext2. Qed.
End others.

Section props.
Context {D : Type} {env : Ext2Env D} {laws : Ext2Laws D}.
Context (G : geometry) (Hlay : layout G).
Abbreviation f := (q_f G).
Abbreviation bs := (q_bs G).
Abbreviation map_of := (gmap (list Z) Z).

(** ** One file *)

Lemma same_mode y y' : same_node y y' -> vn_mode y' = vn_mode y /\ vn_size y' = vn_size y.
Proof. unfold same_node. destruct y, y'. unfold with_inode. cbn. by intros [= -> -> -> -> -> -> -> ->]. Qed.
Lemma set_size_length i v : length i = 128%nat -> length (set_size i v) = 128%nat.
Proof. intros Hl. unfold set_size. rewrite !p32_length; rewrite ?p32_length; lia. Qed.
Lemma roots_size y v k :
  length (n_inode y) = 128%nat -> 0 <= k < 15 -> roots (with_size (with_inode y (set_size (n_inode y) v)) v) k = roots y k.
Proof.
  intros Hl Hk. unfold roots, i_block, set_size. cbn [with_size with_inode n_inode]. unfold p32.
  rewrite !g32_other; [done|cbn; lia|cbn; lia|rewrite put_bytes_length; cbn; lia|cbn; lia].
Qed.

(** The end of a write or truncation: a new size. *)
Lemma resize_ret n s y T v :
  file_at G n s y T ->
  exists r s', (put_node n (with_size (with_inode y (set_size (n_inode y) v)) v) ;;; sync_inode n) s = Ret r s' /\
    (r = 0 -> calm G s s' /\ exists y', file_at G n s' y' T /\ vn_mode y' = vn_mode y /\ vn_size y' = v).
Proof.
  intros ([x Hx] & Hy & Hf & Ht). pose proof (proj1 (proj2 (proj2 Hy))) as Hl. set (y1 := with_size _ v).
  destruct (put_node_ret G n s x y Hx Hy y1) as (s1 & Hp & Hx1 & Hy1 & Hc1); [done|done|by apply set_size_length|].
  rewrite (bind_ret _ _ _ _ _ Hp). destruct (sync_ret G Hlay n s1 x y1 Hx1 Hy1) as (r & s2 & Hr & Hok). exists r, s2. split; [done|].
  intros Hz. destruct (Hok Hz) as (Hx2 & Hy2 & Hc2). pose proof (calm_trans _ _ _ _ Hc1 Hc2) as Hc. split; [done|]. exists y1.
  split; [|done]. split; [by exists x|]. split; [done|]. split; [by eapply calm_free|].
  eapply calm_tree; [done| |done]. intros k Hk. by apply roots_size.
Qed.

(** The state after an operation on the file [n]: its new size and bytes. *)
Definition became (n : Z) (s s' : ext2 D) (y : ext2_node) (T : map_of) (size : Z) (c : Z -> Z) : Prop :=
  exists y' T', file_at G n s' y' T' /\ vn_mode y' = vn_mode y /\ vn_size y' = size /\ frame G s s' T T' /\
    forall q, 0 <= q < limit G -> fbyte G s' T' q = c q.
Lemma became_refl n s y T : file_at G n s y T -> became n s s y T (vn_size y) (fbyte G s T).
Proof. intros Hf. exists y, T. do 3 (split; [done|]). split; [apply frame_refl|done]. Qed.
Lemma became_quiet n s s' x y T : file_at G n s y T -> fs_at G s' x -> quiet G s s' -> became n s s' y T (vn_size y) (fbyte G s T).
Proof.
  intros (_ & Hy & Hf & Ht) Hx Hq. pose proof (quiet_calm _ _ _ Hq) as Hc. exists y, T. split.
  { split; [by exists x|]. split; [by eapply node_quiet|]. split; [by eapply calm_free|by eapply tree_quiet]. }
  do 2 (split; [done|]). split; [by apply calm_frame|]. intros q Hq'. by eapply calm_fbyte.
Qed.

Definition with_data (c : Z -> Z) (off : Z) (buf : list Z) (q : Z) : Z :=
  if bool_decide (off <= q < off + Z.of_nat (length buf)) then nth (Z.to_nat (q - off)) buf 0 else c q.

Lemma ext2_read_ret n s y T off len :
  file_at G n s y T -> VFS_S_ISREG (vn_mode y) = true -> vn_size y <= limit G -> 0 <= off -> 0 <= len ->
  exists r l s', ext2_read n off len s = Ret (r, l) s' /\ nodes s' = nodes s /\
    (r = 0 -> l = map (fbyte G s T) (seqZ off (Z.min len (vn_size y - off))) /\ became n s s' y T (vn_size y) (fbyte G s T)).
Proof.
  intros Hfile Hreg Hsz Ho Hl. pose proof Hfile as ([x Hx] & Hy & Hf & Ht). unfold ext2_read.
  rewrite (bind_ret _ _ _ _ _ (get_node_ret G n s y Hy)). cbv zeta. set (clip := if _ <? len then _ else len).
  assert (Hclip : clip = Z.min len (vn_size y - off)) by (unfold clip; destruct (Z.ltb_spec (vn_size y - off) len); lia). clearbody clip.
  assert (Hlnk : VFS_S_ISLNK (vn_mode y) = false).
  { unfold VFS_S_ISREG, VFS_S_ISLNK in *. apply Z.eqb_eq in Hreg. by rewrite Hreg. }
  rewrite Hlnk, Hreg. cbn [negb]. destruct ((vn_size y <=? off) || (len =? 0)) eqn:Hc.
  { exists 0, [], s. do 2 (split; [done|]). intros _. split; [|by apply became_refl].
    rewrite seqZ_nil; [done|]. apply orb_true_iff in Hc as [Hc|Hc]; blia. }
  apply orb_false_iff in Hc as [Hc1 Hc2]. bools. unfold read_all. rewrite (proj1 (proj2 Hy)), (bind_ret _ _ _ _ _ (get_fs_ret G s x Hx)).
  rewrite (g_bs _ _ (proj1 (proj2 Hx))). destruct (alloc_ret G bs s x Hx) as (ok & s1 & Hk & Hx1 & Hq1). rewrite (bind_ret _ _ _ _ _ Hk).
  destruct ok; cbn [negb]; [|exists (- ENOMEM), [], s1; split; [done|]; split; [apply Hq1|done]].
  destruct (read_loop_ret G Hlay n (S (Z.to_nat clip)) s s1 x y T off clip 0 []) as (r & l & s2 & Hr & Hx2 & Hq2 & Hok);
    [done|by eapply node_quiet|by eapply tree_quiet|done|done|lia|lia|lia|].
  exists r, l, s2. split; [done|]. split; [apply Hq2|]. intros Hz. split; [|by eapply became_quiet].
  rewrite (Hok Hz), Hclip, Z.add_0_r, Z.sub_0_r. cbn [app]. apply map_ext. intros q. eapply calm_fbyte; [by apply quiet_calm|done].
Qed.

Lemma ext2_write_ret n s y T off buf :
  file_at G n s y T -> VFS_S_ISREG (vn_mode y) = true -> 0 <= off -> off + Z.of_nat (length buf) <= limit G -> bytes_ok buf ->
  exists r d s', ext2_write n off buf s = Ret (r, d) s' /\
    (r = 0 -> d = Z.of_nat (length buf) ->
     became n s s' y T (if Z.of_nat (length buf) =? 0 then vn_size y else Z.max (vn_size y) (off + Z.of_nat (length buf)))
       (with_data (fbyte G s T) off buf)).
Proof.
  intros Hfile Hreg Ho Hlim Hb. pose proof Hfile as ([x Hx] & Hy & Hf & Ht). unfold ext2_write.
  rewrite (bind_ret _ _ _ _ _ (get_node_ret G n s y Hy)), Hreg. cbn [negb]. cbv zeta.
  destruct (Z.eqb_spec (Z.of_nat (length buf)) 0) as [Hz|Hz].
  { exists 0, 0, s. split; [done|]. intros _ _. destruct buf; [|done]. cbn [length].
    destruct (became_refl n s y T Hfile) as (y' & T' & H1 & H2 & H3 & H4 & H5). exists y', T'. do 4 (split; [done|]).
    intros q Hq. unfold with_data. rewrite bool_decide_eq_false_2 by (cbn; lia). by apply H5. }
  rewrite (proj1 (proj2 Hy)), (bind_ret _ _ _ _ _ (get_fs_ret G s x Hx)), (g_bs _ _ (proj1 (proj2 Hx))).
  destruct (alloc_ret G bs s x Hx) as (ok & s1 & Hk & Hx1 & Hq1). rewrite (bind_ret _ _ _ _ _ Hk).
  destruct ok; cbn [negb]; [|by exists (- ENOMEM), 0, s1]. 
  assert (Hfile1 : file_at G n s1 y T).
  { split; [by exists x|]. split; [by eapply node_quiet|]. split; [|by eapply tree_quiet]. eapply calm_free; [by apply quiet_calm|done]. }
  destruct (write_loop_ret G Hlay n (S (length buf)) s1 y T off buf 0 Hfile1) as (r & ok & s2 & Hr & Hok); [done|done|done|lia|lia|].
  rewrite (bind_ret _ _ _ _ _ Hr). cbn [fst snd]. destruct ok; cbn [negb]; [|exists r, 0, s2; split; [done|lia]].
  destruct (Hok eq_refl) as (-> & y2 & T2 & Hfile2 & Hs2 & Hf2 & Hw2). rewrite Z.add_0_r, drop_0 in Hw2.
  destruct (same_mode _ _ Hs2) as [Hm2 Hv2]. pose proof Hfile2 as (_ & Hy2 & _ & Ht2).
  assert (Hby : forall q, 0 <= q < limit G -> fbyte G s2 T2 q = with_data (fbyte G s T) off buf q).
  { intros q Hq. rewrite Hw2 by done. unfold with_data. case_bool_decide; [done|]. eapply calm_fbyte; [by apply quiet_calm|done]. }
  assert (Hfr : frame G s s2 T T2) by (eapply frame_trans; [by apply calm_frame, quiet_calm|done]).
  rewrite (bind_ret _ _ _ _ _ (get_node_ret G n s2 y2 Hy2)), Hv2.
  pose proof (bs_pos G Hlay) as Hbs. unfold limit in Hlim. rewrite (u64_small (off + _)) by lia.
  destruct (Z.ltb_spec (vn_size y) (off + Z.of_nat (length buf))) as [Hlt|Hge].
  - destruct (resize_ret n s2 y2 T2 (off + Z.of_nat (length buf)) Hfile2) as (r & s3 & Hr3 & Hok3).
    rewrite <- bind_assoc, (bind_ret _ _ _ _ _ Hr3). destruct (Z.eqb_spec r 0) as [->|Hnz]; cbn [negb]; [|by exists r, 0, s3].
    destruct (Hok3 eq_refl) as (Hc3 & y3 & Hfile3 & Hm3 & Hv3). exists 0, (Z.of_nat (length buf)), s3. split; [done|]. intros _ _.
    exists y3, T2. split; [done|]. split; [congruence|]. split; [lia|].
    split; [eapply frame_trans; [done|by apply calm_frame]|]. intros q Hq. rewrite <- Hby by done. by eapply calm_fbyte.
  - exists 0, (Z.of_nat (length buf)), s2. split; [done|]. intros _ _. exists y2, T2. do 2 (split; [done|]). split; [lia|done].
Qed.

Lemma ext2_truncate_ret n s y T size :
  file_at G n s y T -> VFS_S_ISREG (vn_mode y) = true ->
  exists r s', ext2_truncate n size s = Ret r s' /\
    (r = 0 -> became n s s' y T (Z.min (vn_size y) size) (fbyte G s T)).
Proof.
  intros Hfile Hreg. pose proof Hfile as (_ & Hy & _ & Ht). unfold ext2_truncate.
  rewrite (bind_ret _ _ _ _ _ (get_node_ret G n s y Hy)), Hreg. cbn [negb]. destruct (Z.ltb_spec (vn_size y) size) as [Hlt|Hge].
  - exists 0, s. split; [done|]. intros _. rewrite Z.min_l by lia. by apply became_refl.
  - destruct (resize_ret n s y T size Hfile) as (r & s' & Hr & Hok). exists r, s'. split; [done|]. intros Hz.
    destruct (Hok Hz) as (Hc & y' & Hfile' & Hm & Hv). exists y', T. do 2 (split; [done|]). split; [lia|].
    split; [by apply calm_frame|]. intros q Hq. by eapply calm_fbyte.
Qed.

(** ** Many files *)

(** Regular files that are open, each with its block map; no block is of two files. *)
Record files_at (s : ext2 D) (F : gmap Z (ext2_node * map_of)) : Prop := {
  fa_file : forall n y T, F !! n = Some (y, T) ->
    file_at G n s y T /\ VFS_S_ISREG (vn_mode y) = true /\ vn_size y <= limit G;
  fa_apart : forall n m y z T U p q b, F !! n = Some (y, T) -> F !! m = Some (z, U) -> n <> m ->
    T !! p = Some b -> U !! q <> Some b }.

(** The blocks of another file are left alone. *)
Lemma tree_other s s' R T T' U :
  frame G s s' T T' -> tree G s R U -> (forall p q b, T !! p = Some b -> U !! q <> Some b) ->
  tree G s' R U /\ (forall q, fbyte G s' U q = fbyte G s U q) /\ forall p q b, T' !! p = Some b -> U !! q <> Some b.
Proof.
  intros Hf Ht Hd.
  assert (Hout : forall q b, U !! q = Some b -> forall p, T !! p <> Some b) by (intros q b Hq p Hp; by apply (Hd p q b)).
  assert (Hblk : forall q b, U !! q = Some b -> blk G s' b = blk G s b).
  { intros q b Hq. destruct (t_block _ _ _ _ Ht q b Hq) as [Hp Hu]. apply (fr_same _ _ _ _ _ Hf); [done|done|by eapply Hout]. }
  split; [|split].
  - split; try apply Ht.
    + intros p b j Hp Hi Hj. rewrite (Hblk p b Hp). by apply (t_index _ _ _ _ Ht).
    + intros p b Hp. destruct (t_block _ _ _ _ Ht p b Hp) as [H1 H2]. split; [done|]. by apply (fr_used _ _ _ _ _ Hf).
  - intros q. unfold fbyte. f_equal. by apply fblock_ext.
  - intros p q b Hp Hq. eapply (frame_out _ _ _ _ _ _ Hf); [|by eapply Hout|exact Hp]. by eapply (t_block _ _ _ _ Ht).
Qed.

(** The abstract files: a size and all bytes below [limit]. *)
Definition shows (s : ext2 D) (F : gmap Z (ext2_node * map_of)) (A : gmap Z (Z * (Z -> Z))) : Prop :=
  forall n sz c, A !! n = Some (sz, c) -> exists y T, F !! n = Some (y, T) /\ vn_size y = sz /\
    forall q, 0 <= q < limit G -> c q = fbyte G s T q.
Definition files (s : ext2 D) (A : gmap Z (Z * (Z -> Z))) : Prop := exists F, files_at s F /\ shows s F A.

Lemma files_step n s s' F A y T sz c sz' c' :
  files_at s F -> shows s F A -> F !! n = Some (y, T) -> A !! n = Some (sz, c) -> others n s s' ->
  became n s s' y T sz' c' -> sz' <= limit G -> files s' (<[n := (sz', c')]> A).
Proof.
  intros [HF Hap] Hsh Hn HA Hoth (y' & T' & Hfile & Hm & Hv & Hfr & Hby) Hsz. exists (<[n := (y', T')]> F).
  assert (Ho : forall m z U, m <> n -> F !! m = Some (z, U) ->
    tree G s' (roots z) U /\ (forall q, fbyte G s' U q = fbyte G s U q) /\ forall p q b, T' !! p = Some b -> U !! q <> Some b).
  { intros m z U Hmn Hmf. destruct (HF m z U Hmf) as [(_ & _ & _ & Ht) _]. apply (tree_other s s' (roots z) T T' U Hfr Ht).
    intros p q b. by apply (Hap n m y z). }
  split; [split|].
  - intros m z U [[<- [= <- <-]]|[Hmn Hmf]]%lookup_insert_Some.
    { split; [done|]. destruct (HF n y T Hn) as (_ & Hr & _). by rewrite Hm, Hv. }
    destruct (HF m z U Hmf) as [(_ & (Hy1 & Hy2) & _) Hrest]. split; [|done].
    destruct Hfile as (Hx & _ & Hfree & _). split; [done|]. split; [|split; [done|by apply (Ho m)]].
    split; [|done]. by rewrite (Hoth m).
  - intros m k z w U V p q b [[<- [= <- <-]]|[Hmn Hmf]]%lookup_insert_Some [[<- [= <- <-]]|[Hkn Hkf]]%lookup_insert_Some Hne Hp Hq;
      [done| | |].
    + destruct (Ho k w V) as (_ & _ & H); [done|done|]. by apply (H p q b).
    + destruct (Ho m z U) as (_ & _ & H); [done|done|]. by apply (H q p b).
    + by apply (Hap m k z w U V p q b).
  - intros m sz1 c1 [[<- [= <- <-]]|[Hmn Hma]]%lookup_insert_Some.
    + exists y', T'. rewrite lookup_insert_eq. do 2 (split; [done|]). intros q Hq. by rewrite Hby.
    + destruct (Hsh m sz1 c1 Hma) as (z & U & Hmf & Hz & Hc). exists z, U. rewrite lookup_insert_ne by done.
      do 2 (split; [done|]). intros q Hq. rewrite Hc by done. symmetry. by apply (Ho m z U).
Qed.

Inductive fop := FRead (n off len : Z) | FWrite (n off : Z) (buf : list Z) | FTruncate (n size : Z).

(** The bytes read; [None]: the call has failed, or written less. *)
Definition run_fop (op : fop) : M (ext2 D) (option (list Z)) :=
  match op with
  | FRead n off len => let* r := ext2_read n off len in ret (if r.1 =? 0 then Some r.2 else None)
  | FWrite n off buf =>
      let* r := ext2_write n off buf in ret (if (r.1 =? 0) && (r.2 =? Z.of_nat (length buf)) then Some [] else None)
  | FTruncate n size => let* r := ext2_truncate n size in ret (if r =? 0 then Some [] else None)
  end.
(** Up to the first failure. *)
Fixpoint run_fops (ops : list fop) : M (ext2 D) (option (list (list Z))) :=
  match ops with
  | [] => ret (Some [])
  | op :: ops =>
      let* r := run_fop op in
      match r with
      | None => ret None
      | Some l => let* rs := run_fops ops in ret (option_map (cons l) rs)
      end
  end.

(** The same on the abstract files. *)
Definition abs_fop (op : fop) (A : gmap Z (Z * (Z -> Z))) : list Z * gmap Z (Z * (Z -> Z)) :=
  match op with
  | FRead n off len =>
      match A !! n with Some (sz, c) => (map c (seqZ off (Z.min len (sz - off))), A) | None => ([], A) end
  | FWrite n off buf =>
      match A !! n with
      | Some (sz, c) =>
          let len := Z.of_nat (length buf) in
          ([], <[n := (if len =? 0 then sz else Z.max sz (off + len), with_data c off buf)]> A)
      | None => ([], A)
      end
  | FTruncate n size => match A !! n with Some (sz, c) => ([], <[n := (Z.min sz size, c)]> A) | None => ([], A) end
  end.
Fixpoint abs_fops (ops : list fop) (A : gmap Z (Z * (Z -> Z))) : list (list Z) * gmap Z (Z * (Z -> Z)) :=
  match ops with
  | [] => ([], A)
  | op :: ops => let (l, A1) := abs_fop op A in let (ls, A2) := abs_fops ops A1 in (l :: ls, A2)
  end.
Definition fop_ok (A : gmap Z (Z * (Z -> Z))) (op : fop) : Prop :=
  match op with
  | FRead n off len => is_Some (A !! n) /\ 0 <= off /\ 0 <= len
  | FWrite n off buf => is_Some (A !! n) /\ 0 <= off /\ off + Z.of_nat (length buf) <= limit G /\ bytes_ok buf
  | FTruncate n size => is_Some (A !! n)
  end.

Lemma files_ext s A B :
  files s A -> (forall n sz c, B !! n = Some (sz, c) -> exists c', A !! n = Some (sz, c') /\ forall q, 0 <= q < limit G -> c q = c' q) ->
  files s B.
Proof.
  intros (F & HF & HA) HB. exists F. split; [done|]. intros n sz c Hn. destruct (HB n sz c Hn) as (c' & Hn' & Hc).
  destruct (HA n sz c' Hn') as (y & T & Hy & Hs & Hb). exists y, T. do 2 (split; [done|]). intros q Hq. by rewrite Hc, Hb.
Qed.
Lemma fop_step s A op :
  files s A -> fop_ok A op ->
  exists o s', run_fop op s = Ret o s' /\ forall l, o = Some l -> l = (abs_fop op A).1 /\ files s' (abs_fop op A).2.
Proof.
  intros (F & HF & HA). destruct op as [n off len|n off buf|n size]; cbn [fop_ok run_fop abs_fop].
  - intros ([[sz c] Hn] & Ho & Hl). destruct (HA n sz c Hn) as (y & T & HFn & <- & Hc). rewrite Hn.
    destruct (fa_file _ _ HF n y T HFn) as (Hfile & Hreg & Hsz).
    destruct (ext2_read_ret n s y T off len Hfile Hreg Hsz Ho Hl) as (r & l & s' & Hr & Hnod & Hok). rewrite (bind_ret _ _ _ _ _ Hr). cbn [fst snd].
    exists (if r =? 0 then Some l else None), s'. split; [done|]. destruct (Z.eqb_spec r 0) as [->|]; [|done]. intros l' [= <-].
    destruct (Hok eq_refl) as [-> Hbec]. cbn [fst snd]. split.
    + apply map_ext_in. intros q Hq%list_elem_of_In%elem_of_seqZ. symmetry. apply Hc. lia.
    + eapply files_ext; [eapply (files_step n s s' F A y T); try done; by intros m _; rewrite Hnod|].
      intros m sz1 c1 Hm. destruct (decide (m = n)) as [->|Hne].
      * assert (c1 = c /\ sz1 = vn_size y) as [-> ->] by (rewrite Hn in Hm; by injection Hm). exists (fbyte G s T). by rewrite lookup_insert_eq.
      * exists c1. by rewrite lookup_insert_ne.
  - intros ([[sz c] Hn] & Ho & Hl & Hb). destruct (HA n sz c Hn) as (y & T & HFn & <- & Hc). rewrite Hn.
    destruct (fa_file _ _ HF n y T HFn) as (Hfile & Hreg & Hsz).
    destruct (ext2_write_ret n s y T off buf Hfile Hreg Ho Hl Hb) as (r & d & s' & Hr & Hok). rewrite (bind_ret _ _ _ _ _ Hr). cbn [fst snd].
    eexists _, s'. split; [done|]. destruct (Z.eqb_spec r 0) as [->|]; [|done]. destruct (Z.eqb_spec d (Z.of_nat (length buf))) as [->|]; [|done].
    intros l' [= <-]. split; [done|]. cbn [snd]. eapply files_ext.
    + eapply (files_step n s s' F A y T); [done|done|done|done|by eapply (others_write n)|by apply Hok|]. destruct (_ =? 0); lia.
    + intros m sz1 c1 [[<- [= <- <-]]|[Hmn Hm]]%lookup_insert_Some.
      * eexists. rewrite lookup_insert_eq. split; [done|]. intros q Hq. unfold with_data. case_bool_decide; [done|]. by apply Hc.
      * exists c1. by rewrite lookup_insert_ne.
  - intros [[sz c] Hn]. destruct (HA n sz c Hn) as (y & T & HFn & <- & Hc). rewrite Hn.
    destruct (fa_file _ _ HF n y T HFn) as (Hfile & Hreg & Hsz).
    destruct (ext2_truncate_ret n s y T size Hfile Hreg) as (r & s' & Hr & Hok). rewrite (bind_ret _ _ _ _ _ Hr).
    eexists _, s'. split; [done|]. destruct (Z.eqb_spec r 0) as [->|]; [|done]. intros l' [= <-]. split; [done|]. cbn [snd].
    eapply files_ext; [eapply (files_step n s s' F A y T); [done|done|done|done|by eapply (others_truncate n)|by apply Hok|lia]|].
    intros m sz1 c1 [[<- [= <- <-]]|[Hmn Hm]]%lookup_insert_Some.
    + eexists. by rewrite lookup_insert_eq.
    + exists c1. by rewrite lookup_insert_ne.
Qed.

Lemma abs_fop_ok A op op' : fop_ok A op' -> fop_ok (abs_fop op A).2 op'.
Proof.
  assert (H : forall n, is_Some (A !! n) -> is_Some ((abs_fop op A).2 !! n)).
  { intros n Hn. destruct op as [k off len|k off buf|k size]; cbn [abs_fop]; destruct (A !! k) as [[sz c]|]; cbn [snd]; try exact Hn;
      apply lookup_insert_is_Some'; by right. }
  destruct op'; cbn; [intros (H1 & ?)|intros (H1 & ?)|intros H1]; auto.
Qed.

(** C7: the files of an ext2 file system are independent arrays of bytes.  On a device
    without errors, any sequence of reads, of truncations, and of writes that end within
    the first 2^32 blocks of the file (2^32 times the block size; a block index is cut to
    32 bits, so that a write behind that point would land at the start of the file), to
    open regular files, returns; when every call succeeds, the bytes read and the files at
    the end are those of the same operations on plain arrays with a size, where a write
    grows the file to its end, bytes never written are zero, and truncation never grows a
    file and keeps the bytes behind the new end.  In particular no such write, through
    however many indirect blocks, reaches a block of another file or of the metadata. *)
Theorem ext2_files_refine s A ops :
  files s A -> Forall (fop_ok A) ops ->
  exists o s', run_fops ops s = Ret o s' /\
    forall rs, o = Some rs -> rs = (abs_fops ops A).1 /\ files s' (abs_fops ops A).2.
Proof.
  revert s A. induction ops as [|op ops IH]; intros s A HA Hops; cbn [run_fops abs_fops].
  { exists (Some []), s. split; [done|]. by intros rs [= <-]. }
  apply Forall_cons in Hops as [Hop Hops]. destruct (fop_step s A op HA Hop) as (o & s1 & Hr & Hok). rewrite (bind_ret _ _ _ _ _ Hr).
  destruct o as [l|]; [|by exists None, s1]. destruct (Hok l eq_refl) as [Hl HA1]. pose proof (abs_fop_ok A op) as Hfo.
  destruct (abs_fop op A) as [l' A1]. cbn in Hl, HA1, Hfo. subst l'.
  destruct (IH s1 A1 HA1) as (o & s2 & Hr2 & Hok2); [by eapply Forall_impl; [exact Hops|]|].
  rewrite (bind_ret _ _ _ _ _ Hr2). exists (option_map (cons l) o), s2. split; [done|]. destruct (abs_fops ops A1) as [ls A2]. cbn in *.
  intros rs Hrs. destruct o as [rs'|]; [|done]. cbn in Hrs. injection Hrs as <-. destruct (Hok2 rs' eq_refl) as [-> H2]. done.
Qed.
End props.
