(* ===== verification/Ext2Disk.v ===== *)
(** * ext2 on the block layer

    The block layer keeps the laws that the file system relies on, for devices and
    partitions whose driver reports no error. *)

From stdpp Require Import base list gmap.
From Stdlib Require Import ZArith Lia.
From S2P Require Import Prelude Block BlockProps Ext2 Ext2Alloc.

Local Open Scope Z_scope.

Section disk.
Context {W : Type} {benv : BlockEnv W} {blaws : BlockLaws W}.
(** The calls into the device, virtual and process file systems. *)
Context (reg mkdir mount : list Z -> Z -> M (Block.blk W) Z) (note : list Z -> list Z -> M (Block.blk W) Z).

Definition ext2_on_block : Ext2Env (Block.blk W) := {|
  Ext2.block_read := Block.block_read;
  Ext2.block_write := Block.block_write;
  Ext2.block_flush := Block.block_flush;
  Ext2.dev_name d := let* x := get_bdev d in ret (d_name x);
  Ext2.kzalloc := Block.kzalloc;
  Ext2.devfs_register_chr := reg;
  Ext2.vfs_mkdir := mkdir;
  Ext2.vfs_mount := mount;
  Ext2.procfs_note_mount := note |}.

(** The devices and the parts of disks they are. *)
Context (wins : Z -> option (block_device * Z * Z)) (Hrel : reliable).

Definition win_ready (s : Block.blk W) (dev : Z) : Prop :=
  windows s wins /\ exists x root base, wins dev = Some (x, root, base) /\ has_write x = true.
Definition win_size (dev : Z) : Z := match wins dev with Some (x, _, _) => size_of x | None => 0 end.
Definition win_byte (s : Block.blk W) (dev y : Z) : Z :=
  match wins dev with Some (_, root, base) => medium (world s) root (base + y) | None => 0 end.

Lemma windows_same s s' : windows s wins -> devices s' = devices s -> windows s' wins.
Proof. intros Hw Hd d x root base H. eapply window_same; [by apply Hw|done]. Qed.

#[program] Definition ext2_on_block_laws : @Ext2Laws (Block.blk W) ext2_on_block := {|
  ready := win_ready; dsize := win_size; dbyte := win_byte |}.
Next Obligation. intros s dev y. unfold win_byte. destruct (wins dev) as [[[x root] base]|]; [apply BlockProps.law_byte|lia]. Qed.
Next Obligation.
  intros s dev off len (Hw & x & root & base & Hd & Hh) Ho Hl. unfold win_size, win_byte. cbn. rewrite Hd. intros Hs.
  destruct (block_read_spec s dev x root base off len (Hw _ _ _ _ Hd) Ho Hl Hs) as (r & l & s' & Hr & Hz & Hsame & Hok).
  specialize (Hz Hrel). subst r. exists s'. rewrite Hr, (Hok eq_refl). split; [|split].
  - do 2 f_equal. apply map_ext. intros i. f_equal. lia.
  - split; [eapply windows_same; [done|apply Hsame]|]. by exists x, root, base.
  - intros y. apply Hsame.
Qed.
Next Obligation.
  intros s dev off buf (Hw & x & root & base & Hd & Hh) Ho Hl. unfold win_size, win_byte. cbn. rewrite Hd. intros Hs.
  destruct (block_write_spec s dev x root base off buf (Hw _ _ _ _ Hd) Hh Ho Hl Hs) as (r & s' & Hr & Hz & Hon & Hok).
  specialize (Hz Hrel). subst r. exists s'. split; [done|]. split.
  - split; [eapply windows_same; [done|apply Hon]|]. by exists x, root, base.
  - destruct (Hok eq_refl) as [(_ & _ & _ & Hout) Hin]. intros y Hy. case_bool_decide as Hc.
    + rewrite <- Hin by lia. f_equal. lia.
    + apply Hout. right. lia.
Qed.
Next Obligation.
  intros s dev n (Hw & x & root & base & Hd & Hh). unfold win_byte. cbn. unfold Block.kzalloc, call.
  destruct (BlockProps.law_kzalloc (world s) n) as (b & w & -> & Hm). do 2 eexists. split; [done|]. split.
  - split; [eapply windows_same; done|]. by exists x, root, base.
  - intros y. rewrite Hd. apply Hm.
Qed.
End disk.
