(* ===== verification/Ext2Examples.v ===== *)
(** * Two files on a partition of a disk in memory *)

From stdpp Require Import base list gmap.
From Stdlib Require Import ZArith Lia.
From S2P Require Import Prelude Block BlockProps BlockTables BlockExamples Ext2 Ext2File Ext2Alloc Ext2Tree Ext2View Ext2Write Ext2Props Ext2Disk.

Local Open Scope Z_scope.

(** ** The disk: 140 sectors, a partition of 128 from sector 8 *)

Definition xf_mbr : list Z := replicate 446 0 ++ ex_entry 8 128 ++ replicate 48 0 ++ [85; 170].
Definition xf_disk : block_device := mkDev [118; 100; 97] 512 140 0 driver_ops true true false None.
Definition xf_part : block_device := mkDev [118; 100; 97; 112; 49] 512 128 8 part_ops true true true (Some 1).
(** Block 3 of the partition is the bitmap; blocks 1 to 6 are in use. *)
Definition xf_ram : ram := ram_put 1 (8 * 512 + 3072) [63] (ram_put 1 0 xf_mbr (fun _ _ => 0)).
Definition xf_blk : Block.blk ram := final (block_register xf_disk) (mkBlk ∅ [] 1 xf_ram).
Definition xf_wins (d : Z) : option (block_device * Z * Z) := if d =? 2 then Some (xf_part, 1, 4096) else None.

Lemma xf_devices : devices xf_blk !! 1 = Some xf_disk /\ devices xf_blk !! 2 = Some xf_part.
Proof. vm_compute. repeat split. Qed.
Lemma xf_windows : windows xf_blk xf_wins.
Proof.
  pose proof xf_devices as [H1 H2]. intros d x root base. unfold xf_wins.
  destruct (Z.eqb_spec d 2) as [->|_]; [|done]. injection 1 as <- <- <-.
  split; [exact H2|cbn; lia|cbn; lia|done|]. cbn. split_and!; [done|lia|lia|]. exists xf_disk.
  split_and!; [exact H1|done|done|cbn; lia|cbn; lia].
Qed.
Lemma ram_reliable : reliable (W := ram).
Proof. done. Qed.

Definition yes2 {A B} (a : A) (b : B) : M (Block.blk ram) Z := ret 0.
#[local] Instance xf_env : Ext2Env (Block.blk ram) := ext2_on_block yes2 yes2 yes2 yes2.
#[local] Instance xf_laws : Ext2Laws (Block.blk ram) := ext2_on_block_laws yes2 yes2 yes2 yes2 xf_wins ram_reliable.

(** ** The file system: one group of 64 blocks of 1024 bytes, 16 inodes in blocks 5 and 6 *)

Definition xf_geo : geometry := mkGeo 1 2 1024 1 64 1 64 2048 (fun _ => 3) 16 16 128 (fun _ => 5).
Definition xf_sb : list Z :=
  p16 (p32 (p32 (p32 (p32 (p32 (p32 (replicate 200 0) 0 16) 4 64) 12 57) 20 1) 32 64) 40 16) 88 128.
Definition xf_gd : list Z := p16 (p32 (p32 (p32 (replicate 32 0) 0 3) 4 4) 8 5) 12 57.
Definition xf_fs : ext2_fs := mkFs 2 0 xf_sb 1024 1 2048 xf_gd 0 [] [].
Definition xf_inode : list Z := [0; 128] ++ replicate 126 0.
Definition xf_node (ino : Z) : ext2_node := mkNode 32768 0 0 0 1 1 1 ino xf_inode.
Definition xf_state : ext2 (Block.blk ram) := mkExt {[1 := xf_fs]} {[10 := xf_node 12; 11 := xf_node 13]} [] false 0 0 100 xf_blk.

Lemma xf_inode_off ino o : inode_off xf_geo ino = Some o -> 5120 <= o /\ o + 128 <= 7168.
Proof. unfold inode_off. cbn. destruct (_ || _); [done|]. destruct (1 <=? _); [done|]. intros [= <-]. zdiv. Qed.
Lemma xf_dsize : dsize 2 = 65536.
Proof. reflexivity. Qed.
Lemma xf_layout : layout xf_geo.
Proof.
  split; cbn [xf_geo q_bs q_gc q_bpg q_first q_count q_off q_bbm q_dev q_ipg]; rewrite ?xf_dsize; unfold apart; try lia.
  intros ino o Ho%xf_inode_off. split_and!; [lia|lia|]. intros g Hg. lia.
Qed.
Lemma xf_geom : geom xf_geo xf_fs.
Proof. split; try done; intros g Hg; assert (g = 0%nat) as -> by (cbn in Hg; lia); done. Qed.
Lemma xf_fs_at : fs_at xf_geo xf_state xf_fs.
Proof.
  split; [done|]. split; [exact xf_geom|]. split; [exact xf_windows|]. by exists xf_part, 1, 4096.
Qed.
Lemma xf_marked i : 0 <= i < 6 -> bit xf_geo xf_state 0 i = true.
Proof.
  intros Hi. assert (i = 0 \/ i = 1 \/ i = 2 \/ i = 3 \/ i = 4 \/ i = 5) as Hc by lia.
  destruct_or! Hc; subst i; vm_compute; reflexivity.
Qed.
Lemma xf_free : free_plain xf_geo xf_state.
Proof.
  intros g i Hg Hi Hc Hb. assert (g = 0%nat) as -> by (cbn in Hg; lia). destruct (decide (i < 6)) as [Hlt|Hge].
  { rewrite xf_marked in Hb by lia. done. }
  unfold blk_no in *. cbn [xf_geo q_bpg q_first q_count] in *. unfold plain, apart. cbn [xf_geo q_bs q_gc q_off q_bbm q_dev].
  rewrite xf_dsize. split_and!; try lia.
  intros ino o Ho%xf_inode_off. lia.
Qed.
Lemma xf_tree ino : tree xf_geo xf_state (roots (xf_node ino)) ∅.
Proof.
  split; try by intros p; intros; rewrite ?lookup_empty in *.
  - intros k Hk. rewrite lookup_empty. cbn [default].
    assert (k = 0 \/ k = 1 \/ k = 2 \/ k = 3 \/ k = 4 \/ k = 5 \/ k = 6 \/ k = 7 \/ k = 8 \/ k = 9 \/ k = 10 \/ k = 11 \/
      k = 12 \/ k = 13 \/ k = 14) as Hc by lia. destruct_or! Hc; subst k; reflexivity.
Qed.
Lemma xf_file n ino : nodes xf_state !! n = Some (xf_node ino) -> 0 <= ino -> file_at xf_geo n xf_state (xf_node ino) ∅.
Proof.
  intros Hn Hi. split; [by exists xf_fs; apply xf_fs_at|]. split; [by split_and!|]. split; [exact xf_free|apply xf_tree].
Qed.

(** ** A session *)

Definition xf_abs : gmap Z (Z * (Z -> Z)) := {[10 := (0, fun _ => 0); 11 := (0, fun _ => 0)]}.
Lemma xf_files : files xf_geo xf_state xf_abs.
Proof.
  exists {[10 := (xf_node 12, ∅); 11 := (xf_node 13, ∅)]}. split; [split|].
  - intros n y T [[<- [= <- <-]]|[_ [<- [= <- <-]]%lookup_singleton_Some]]%lookup_insert_Some;
      (split; [by apply xf_file|done]).
  - intros n m y z T U p q b [[<- [= <- <-]]|[_ [<- [= <- <-]]%lookup_singleton_Some]]%lookup_insert_Some _ _ Hp; by rewrite lookup_empty in Hp.
  - assert (Hz : forall q, 0 = fbyte xf_geo xf_state ∅ q).
    { intros q. unfold fbyte. assert (fblock xf_geo xf_state ∅ (q / q_bs xf_geo) = replicate (Z.to_nat (q_bs xf_geo)) 0) as ->.
      { unfold fblock. destruct (path_of _ _) as [p|]; cbn [mbind option_bind]; [by rewrite lookup_empty|done]. }
      rewrite nth_lookup. destruct (_ !! _) as [v|] eqn:Hv; [|done]. by apply lookup_replicate in Hv as [-> _]. }
    unfold shows, xf_abs. intros n sz c [[<- [= <- <-]]|[_ [<- [= <- <-]]%lookup_singleton_Some]]%lookup_insert_Some.
    + exists (xf_node 12), ∅. split; [done|]. split; [done|]. intros q _. apply Hz.
    + exists (xf_node 13), ∅. split; [done|]. split; [done|]. intros q _. apply Hz.
Qed.
(** Over the end of the direct blocks; into a block behind the double indirect one; another
    file; a truncation, and a write behind the new end. *)
Definition xf_ops : list fop :=
  [FWrite 10 12286 [1; 2; 3; 4]; FWrite 11 274999 [7; 8]; FWrite 11 0 [9]; FRead 10 12284 100; FRead 11 274997 3;
   FTruncate 10 12287; FWrite 10 12289 [5]; FRead 10 12286 8; FRead 11 0 2].
Lemma xf_ops_ok : Forall (fop_ok xf_geo xf_abs) xf_ops.
Proof.
  assert (Hl : limit xf_geo = 4398046511104) by done.
  repeat constructor; cbn; rewrite ?Hl; try (by eexists); try lia.
Qed.
Definition result_of {S A} (o : outcome S A) : option A := match o with Ret a _ => Some a | _ => None end.
Lemma xf_run : result_of (run_fops xf_ops xf_state) =
  Some (Some [[]; []; []; [0; 0; 1; 2; 3; 4]; [0; 0; 7]; []; []; [1; 2; 3; 5]; [9; 0]]).
Proof. vm_compute. reflexivity. Qed.

Lemma ext2_files_refine_witness : exists rs s',
  run_fops xf_ops xf_state = Ret (Some rs) s' /\ rs = (abs_fops xf_ops xf_abs).1 /\ files xf_geo s' (abs_fops xf_ops xf_abs).2 /\
  rs = [[]; []; []; [0; 0; 1; 2; 3; 4]; [0; 0; 7]; []; []; [1; 2; 3; 5]; [9; 0]].
Proof.
  destruct (ext2_files_refine xf_geo xf_layout xf_state xf_abs xf_ops xf_files xf_ops_ok) as (o & s' & Hr & Hok).
  pose proof xf_run as Hx. rewrite Hr in Hx. cbn [result_of] in Hx. injection Hx as ->. eexists _, s'.
  split; [exact Hr|]. destruct (Hok _ eq_refl) as [H1 H2]. split; [exact H1|]. split; [exact H2|reflexivity].
Defined.
