(* ===== verification/Ext2Session.v ===== *)
(** * A session on an ext2 file system: mounting, names, renaming

    Runs the directory operations on a small image on a partition of a disk in memory. *)

From stdpp Require Import base list gmap.
From Stdlib Require Import ZArith Lia.
From S2P Require Import Prelude Block BlockExamples Ext2 Ext2File Ext2Dir Ext2Disk Ext2Examples.

Local Open Scope Z_scope.

#[local] Instance se_env : Ext2Env (Block.blk ram) := ext2_on_block yes2 yes2 yes2 yes2.

(** The image: blocks 1 to 7 and the inodes 1 to 11 are in use; block 7 is the root
    directory. *)
Definition se_sb : list Z := p16 (p32 xf_sb 16 5) 56 EXT2_SUPER_MAGIC.
Definition se_gd : list Z := p16 xf_gd 14 5.
Definition se_root : list Z := p32 (p32 (p32 (p16 (p16 (replicate 128 0) 0 16877) 26 2) 4 1024) 28 2) 40 7.
Definition se_at (off : Z) (l : list Z) : ram -> ram := ram_put 1 (4096 + off) l.
Definition se_ram : ram :=
  se_at (7 * 1024) (new_dir_block 1024 2 2) (se_at (5 * 1024 + 128) se_root (se_at 4096 [255; 7] (se_at 3072 [127]
    (se_at 2048 se_gd (se_at 1024 se_sb (ram_put 1 0 xf_mbr (fun _ _ => 0))))))).
Definition se_blk : Block.blk ram := final (block_register xf_disk) (mkBlk ∅ [] 1 se_ram).
Definition se_state : ext2 (Block.blk ram) := mkExt ∅ ∅ [] false 0 0 100 se_blk.

Definition na : list Z := [97].
Definition nb : list Z := [98; 98].
Definition nd : list Z := [100].
(** The names of a directory. *)
Fixpoint names (k : nat) (n i : Z) : M (ext2 (Block.blk ram)) (list (list Z)) :=
  match k with
  | O => ret []
  | S k => let* r := ext2_readdir n i in if r.1 =? 0 then let* l := names k n (i + 1) in ret (o_name r.2 :: l) else ret []
  end.
Definition se_run : M (ext2 (Block.blk ram)) (list Z * list (list Z) * list (list Z) * list Z * list Z) :=
  let* m := ext2_mount 2 [] in
  let* fs := get_fs 100 in
  let root := f_root fs in
  let* c := ext2_create root na 420 0 0 in
  let* again := ext2_create root na 420 0 0 in
  let* w := ext2_write c.2 0 [104; 105] in
  let* d := ext2_mkdir root nd 493 0 0 in
  let* mv := ext2_rename root na d.2 nb in
  let* gone := ext2_lookup root na in
  let* up := ext2_rename root nd d.2 na in
  let* full := ext2_rmdir root nd in
  let* l1 := names 8 root 0 in
  let* l2 := names 8 d.2 0 in
  let* b := ext2_lookup d.2 nb in
  let* data := ext2_read b.2 0 10 in
  let* u := ext2_unlink d.2 nb in
  let* rm := ext2_rmdir root nd in
  let* text := ext2_mounts_read 0 100 in
  ret ([m; c.1; again.1; w.1; d.1; mv; gone.1; up; full; b.1; u; rm], l1, l2, data.2, text.2).

(** A file is created once, written, moved into a new directory under another name and read
    back; a directory does not go below itself, and is removed only when it is empty. *)
Example ext2_session : result_of (se_run se_state) =
  Some ([0; 0; - EEXIST; 0; 0; 0; - ENOENT; - EINVAL; - ENOTEMPTY; 0; 0; 0], [DOT; DOTDOT; nd], [DOT; DOTDOT; nb], [104; 105],
    [118; 100; 97; 112; 49] ++ [32] ++ mnt ++ mounts_tail).
Proof. vm_compute. reflexivity. Qed.
