(* ===== verification/AsyncIo.v ===== *)
(** * Queued device access (kernel/src/dev/async.c, kernel/include/dev/async.h)

    A ring of requests to read and write ports and device memory, drained from time to time,
    and the accesses that wait for it.  The hardware, the caller's memory, the locks, and the
    functions registered by drivers are the class [AsyncEnv]. *)

From stdpp Require Import base list gmap.
From Stdlib Require Import ZArith Lia.
From S2P Require Import Prelude.

Local Open Scope Z_scope.

Definition ASYNC_IO_QUEUE_SIZE : Z := 512.
Definition ASYNC_IO_DRAIN_HOOKS : nat := 8.
Definition ASYNC_IO_WIDTH_8 : Z := 1.
Definition ASYNC_IO_WIDTH_16 : Z := 2.
Definition ASYNC_IO_WIDTH_32 : Z := 4.
Definition ASYNC_IO_OP_IN : Z := 0.
Definition ASYNC_IO_OP_OUT : Z := 1.
Definition ASYNC_IO_TARGET_PORT : Z := 0.
Definition ASYNC_IO_TARGET_MMIO : Z := 1.
Definition ASYNC_IO_OK : Z := 0.
Definition ASYNC_IO_ERR_FULL : Z := -1.
Definition ASYNC_IO_ERR_BAD_REQUEST : Z := -2.
Definition ASYNC_IO_ERR_BUSY : Z := -3.

(** Pointers are addresses, 0 for none. *)
Record async_io_request := mkReq {
  r_target : Z; r_op : Z; r_width : Z; r_port : Z; r_address : Z; r_value : Z;
  r_result : Z; r_done : Z; r_status : Z; r_complete : Z; r_context : Z }.
Definition no_request : async_io_request := mkReq 0 0 0 0 0 0 0 0 0 0 0.
(** The hooks with their contexts, 0 for a free place. *)
Record async (W : Type) := mkAsync {
  async_io_queue : list async_io_request; async_io_rpos : Z; async_io_wpos : Z;
  async_io_ready : bool; async_io_drain_depth : Z; async_io_hooks : list (Z * Z); world : W }.
Arguments mkAsync {W} _ _ _ _ _ _ _.
Arguments async_io_queue {W} _.
Arguments async_io_rpos {W} _.
Arguments async_io_wpos {W} _.
Arguments async_io_ready {W} _.
Arguments async_io_drain_depth {W} _.
Arguments async_io_hooks {W} _.
Arguments world {W} _.

(** [try_acquire] is told which of the two locks is meant; [store] and [load] access memory
    in a number of bytes; [local] is the address of a fresh local variable; callbacks and
    hooks are called by their addresses. *)
Class AsyncEnv (W : Type) := {
  port_in : Z -> Z -> W -> Z * W;
  port_out : Z -> Z -> Z -> W -> W;
  mmio_in : Z -> Z -> W -> Z * W;
  mmio_out : Z -> Z -> Z -> W -> W;
  store : Z -> Z -> Z -> W -> W;
  load : Z -> Z -> W -> Z;
  local : W -> Z * W;
  try_acquire : bool -> W -> bool * W;
  callback : Z -> async_io_request -> Z -> M (async W) unit;
  hook : Z -> Z -> Z -> M (async W) Z }.
Definition QUEUE_LOCK : bool := true.
Definition HOOK_LOCK : bool := false.

Section async.
Context {W : Type} {env : AsyncEnv W}.
Abbreviation A := (M (async W)).

Definition set_world (s : async W) (w : W) : async W :=
  mkAsync (async_io_queue s) (async_io_rpos s) (async_io_wpos s) (async_io_ready s) (async_io_drain_depth s) (async_io_hooks s) w.
Definition set_ring (s : async W) (q : list async_io_request) (r w : Z) : async W :=
  mkAsync q r w (async_io_ready s) (async_io_drain_depth s) (async_io_hooks s) (world s).
Definition set_depth (s : async W) (d : Z) : async W :=
  mkAsync (async_io_queue s) (async_io_rpos s) (async_io_wpos s) (async_io_ready s) d (async_io_hooks s) (world s).
Definition call {B} (f : W -> B * W) : A B := fun s => let (b, w) := f (world s) in Ret b (set_world s w).
Definition act (f : W -> W) : A unit := modify (fun s => set_world s (f (world s))).

(** ** Requests *)

Definition async_io_empty (s : async W) : bool := async_io_rpos s =? async_io_wpos s.
Definition async_io_full (s : async W) : bool := (async_io_wpos s + 1) `mod` ASYNC_IO_QUEUE_SIZE =? async_io_rpos s.
Definition async_io_width_valid (w : Z) : bool :=
  (w =? ASYNC_IO_WIDTH_8) || (w =? ASYNC_IO_WIDTH_16) || (w =? ASYNC_IO_WIDTH_32).
Definition async_io_validate (r : async_io_request) : Z :=
  if negb (async_io_width_valid (r_width r)) then ASYNC_IO_ERR_BAD_REQUEST
  else if negb (r_op r =? ASYNC_IO_OP_IN) && negb (r_op r =? ASYNC_IO_OP_OUT) then ASYNC_IO_ERR_BAD_REQUEST
  else if negb (r_target r =? ASYNC_IO_TARGET_PORT) && negb (r_target r =? ASYNC_IO_TARGET_MMIO) then ASYNC_IO_ERR_BAD_REQUEST
  else if (r_op r =? ASYNC_IO_OP_IN) && (r_result r =? 0) then ASYNC_IO_ERR_BAD_REQUEST
  else ASYNC_IO_OK.

(** A value cut to its width. *)
Definition cut (w v : Z) : Z := v `mod` 2 ^ (8 * w).
Definition async_io_read_port (port w : Z) : A Z := if async_io_width_valid w then call (port_in port w) else ret 0.
Definition async_io_write_port (port w v : Z) : A unit := when (async_io_width_valid w) (act (port_out port w (cut w v))).
Definition async_io_read_mmio (a w : Z) : A Z := if async_io_width_valid w then call (mmio_in a w) else ret 0.
Definition async_io_write_mmio (a w v : Z) : A unit := when (async_io_width_valid w) (act (mmio_out a w (cut w v))).
Definition async_io_store_result (r : async_io_request) (v : Z) : A unit :=
  when (async_io_width_valid (r_width r)) (act (store (r_result r) (r_width r) (cut (r_width r) v))).

Definition async_io_execute (r : async_io_request) : A Z :=
  let status := async_io_validate r in
  when (status =? ASYNC_IO_OK)
    (if r_op r =? ASYNC_IO_OP_IN then
       let* v := if r_target r =? ASYNC_IO_TARGET_PORT then async_io_read_port (r_port r) (r_width r)
                 else async_io_read_mmio (r_address r) (r_width r) in
       async_io_store_result r v
     else if r_target r =? ASYNC_IO_TARGET_PORT then async_io_write_port (r_port r) (r_width r) (r_value r)
     else async_io_write_mmio (r_address r) (r_width r) (r_value r)) ;;;
  when (negb (r_status r =? 0)) (act (store (r_status r) 4 status)) ;;;
  when (negb (r_done r =? 0)) (act (store (r_done r) 4 1)) ;;;
  when (negb (r_complete r =? 0)) (callback (r_complete r) r (r_context r)) ;;;
  ret status.

Definition async_io_init : A unit :=
  modify (fun s => mkAsync (async_io_queue s) 0 0 true (async_io_drain_depth s) (async_io_hooks s) (world s)).
Definition async_io_is_initialized : A Z := gets (fun s => if async_io_ready s then 1 else 0).

Definition async_io_request_in (port width result done status complete context : Z) : async_io_request :=
  mkReq ASYNC_IO_TARGET_PORT ASYNC_IO_OP_IN width port 0 0 result done status complete context.
Definition async_io_request_out (port width value done status complete context : Z) : async_io_request :=
  mkReq ASYNC_IO_TARGET_PORT ASYNC_IO_OP_OUT width port 0 value 0 done status complete context.
Definition async_io_request_mmio_in (address width result done status complete context : Z) : async_io_request :=
  mkReq ASYNC_IO_TARGET_MMIO ASYNC_IO_OP_IN width 0 address 0 result done status complete context.
Definition async_io_request_mmio_out (address width value done status complete context : Z) : async_io_request :=
  mkReq ASYNC_IO_TARGET_MMIO ASYNC_IO_OP_OUT width 0 address value 0 done status complete context.

(** ** The queue *)

Definition async_io_submit (r : async_io_request) : A Z :=
  let status := async_io_validate r in
  if negb (status =? ASYNC_IO_OK) then ret status
  else
    let* ok := call (try_acquire QUEUE_LOCK) in
    if negb ok then ret ASYNC_IO_ERR_BUSY
    else
      let* full := gets async_io_full in
      if full then ret ASYNC_IO_ERR_FULL
      else
        modify (fun s => set_ring s (<[Z.to_nat (async_io_wpos s) := r]> (async_io_queue s)) (async_io_rpos s)
                           ((async_io_wpos s + 1) `mod` ASYNC_IO_QUEUE_SIZE)) ;;;
        ret ASYNC_IO_OK.

Definition async_io_register_drain_hook (h context : Z) : A Z :=
  if h =? 0 then ret ASYNC_IO_ERR_BAD_REQUEST
  else
    let* l := gets async_io_hooks in
    if bool_decide ((h, context) ∈ l) then ret ASYNC_IO_OK
    else
      match list_find (fun e => e.1 = 0) l with
      | Some (i, _) =>
          modify (fun s => mkAsync (async_io_queue s) (async_io_rpos s) (async_io_wpos s) (async_io_ready s) (async_io_drain_depth s)
                             (<[i := (h, context)]> l) (world s)) ;;;
          ret ASYNC_IO_OK
      | None => ret ASYNC_IO_ERR_FULL
      end.

(** [while (budget == 0 || done < budget)]; the number of requests carried out. *)
Fixpoint drain_loop (fuel : nat) (budget done : Z) : A Z :=
  match fuel with
  | O => diverge
  | S fuel =>
      if negb ((budget =? 0) || (done <? budget)) then ret done
      else
        let* ok := call (try_acquire QUEUE_LOCK) in
        if negb ok then ret done
        else
          let* e := gets async_io_empty in
          if e then ret done
          else
            let* r := gets (fun s => nth (Z.to_nat (async_io_rpos s)) (async_io_queue s) no_request) in
            modify (fun s => set_ring s (async_io_queue s) ((async_io_rpos s + 1) `mod` ASYNC_IO_QUEUE_SIZE) (async_io_wpos s)) ;;;
            async_io_execute r ;;;
            drain_loop fuel budget (done + 1)
  end.
(** Enough where the callbacks do not queue requests of their own. *)
Definition drain_fuel : nat := 513.
Definition async_io_drain_queue (budget : Z) : A Z := drain_loop drain_fuel budget 0.

(** [for (i = 0; i < ASYNC_IO_DRAIN_HOOKS; i++)] over the copy. *)
Fixpoint hooks_loop (l : list (Z * Z)) (budget done : Z) : A Z :=
  match l with
  | [] => ret done
  | (h, context) :: l =>
      if h =? 0 then hooks_loop l budget done
      else if negb (budget =? 0) && (budget <=? done) then ret done
      else
        let* n := hook h (if budget =? 0 then 0 else budget - done) context in
        hooks_loop l budget (u64 (done + n))
  end.
Definition async_io_drain_hooks (budget : Z) : A Z :=
  let* ok := call (try_acquire HOOK_LOCK) in
  if negb ok then ret 0
  else let* l := gets async_io_hooks in hooks_loop l budget 0.

Definition async_io_drain (budget : Z) : A Z :=
  modify (fun s => set_depth s (u32 (async_io_drain_depth s + 1))) ;;;
  let* done := async_io_drain_queue budget in
  let leave := modify (fun s => set_depth s (u32 (async_io_drain_depth s - 1))) in
  if negb (budget =? 0) && (budget <=? done) then leave ;;; ret done
  else
    let* n := async_io_drain_hooks (if budget =? 0 then 0 else budget - done) in
    leave ;;;
    ret (u64 (done + n)).

(** [for (;;)]: until nothing was done. *)
Fixpoint flush_loop (fuel : nat) : A unit :=
  match fuel with
  | O => diverge
  | S fuel =>
      let* drained := async_io_drain 64 in
      let* ok := call (try_acquire QUEUE_LOCK) in
      if drained =? 0 then ret tt else flush_loop fuel
  end.

(** The number of rounds a flush may take is a parameter: nothing in the code bounds it. *)
Variable rounds : nat.
Definition async_io_flush : A unit := flush_loop rounds.

(** ** Accesses *)

Definition async_io_submit_fire_and_forget (op port width value result : Z) : A Z :=
  async_io_submit (if op =? ASYNC_IO_OP_IN then async_io_request_in port width result 0 0 0 0
                   else async_io_request_out port width value 0 0 0 0).
Definition async_io_outb (port value : Z) : A Z := async_io_submit_fire_and_forget ASYNC_IO_OP_OUT port ASYNC_IO_WIDTH_8 value 0.
Definition async_io_outw (port value : Z) : A Z := async_io_submit_fire_and_forget ASYNC_IO_OP_OUT port ASYNC_IO_WIDTH_16 value 0.
Definition async_io_outl (port value : Z) : A Z := async_io_submit_fire_and_forget ASYNC_IO_OP_OUT port ASYNC_IO_WIDTH_32 value 0.
Definition async_io_inb (port result : Z) : A Z := async_io_submit_fire_and_forget ASYNC_IO_OP_IN port ASYNC_IO_WIDTH_8 0 result.
Definition async_io_inw (port result : Z) : A Z := async_io_submit_fire_and_forget ASYNC_IO_OP_IN port ASYNC_IO_WIDTH_16 0 result.
Definition async_io_inl (port result : Z) : A Z := async_io_submit_fire_and_forget ASYNC_IO_OP_IN port ASYNC_IO_WIDTH_32 0 result.

Definition async_io_sync (r : async_io_request) : A Z :=
  let* d := gets async_io_drain_depth in
  if negb (d =? 0) then async_io_execute r else async_io_flush ;;; async_io_execute r.

Definition async_io_outb_sync (port value : Z) : A Z := async_io_sync (async_io_request_out port ASYNC_IO_WIDTH_8 value 0 0 0 0).
Definition async_io_outw_sync (port value : Z) : A Z := async_io_sync (async_io_request_out port ASYNC_IO_WIDTH_16 value 0 0 0 0).
Definition async_io_outl_sync (port value : Z) : A Z := async_io_sync (async_io_request_out port ASYNC_IO_WIDTH_32 value 0 0 0 0).
(** A read into a local variable that starts as zero. *)
Definition sync_in (width : Z) (mk : Z -> async_io_request) : A Z :=
  let* p := call local in
  act (store p width 0) ;;;
  async_io_sync (mk p) ;;;
  gets (fun s => load p width (world s)).
Definition async_io_inb_sync (port : Z) : A Z := sync_in 1 (fun p => async_io_request_in port ASYNC_IO_WIDTH_8 p 0 0 0 0).
Definition async_io_inw_sync (port : Z) : A Z := sync_in 2 (fun p => async_io_request_in port ASYNC_IO_WIDTH_16 p 0 0 0 0).
Definition async_io_inl_sync (port : Z) : A Z := sync_in 4 (fun p => async_io_request_in port ASYNC_IO_WIDTH_32 p 0 0 0 0).
Definition async_io_mmio_read8_sync (a : Z) : A Z := sync_in 1 (fun p => async_io_request_mmio_in a ASYNC_IO_WIDTH_8 p 0 0 0 0).
Definition async_io_mmio_read16_sync (a : Z) : A Z := sync_in 2 (fun p => async_io_request_mmio_in a ASYNC_IO_WIDTH_16 p 0 0 0 0).
Definition async_io_mmio_read32_sync (a : Z) : A Z := sync_in 4 (fun p => async_io_request_mmio_in a ASYNC_IO_WIDTH_32 p 0 0 0 0).
Definition async_io_mmio_write8_sync (a v : Z) : A Z := async_io_sync (async_io_request_mmio_out a ASYNC_IO_WIDTH_8 v 0 0 0 0).
Definition async_io_mmio_write16_sync (a v : Z) : A Z := async_io_sync (async_io_request_mmio_out a ASYNC_IO_WIDTH_16 v 0 0 0 0).
Definition async_io_mmio_write32_sync (a v : Z) : A Z := async_io_sync (async_io_request_mmio_out a ASYNC_IO_WIDTH_32 v 0 0 0 0).
End async.
