(* ===== verification/AsyncProps.v ===== *)
(** * Queued device access keeps its order

    The ring is a queue of at most 511 requests; draining carries out its oldest requests in
    order, and an access that waits comes behind all of them. *)

From stdpp Require Import base list gmap.
From Stdlib Require Import ZArith Lia.
From S2P Require Import Prelude AsyncIo.

Local Open Scope Z_scope.

(** What the hardware sees: where, how wide, and what is written. *)
Inductive io_event := EvIn (mmio : bool) (addr width : Z) | EvOut (mmio : bool) (addr width value : Z).
Definition event_of (r : async_io_request) : io_event :=
  let mmio := negb (r_target r =? ASYNC_IO_TARGET_PORT) in
  let addr := if mmio then r_address r else r_port r in
  if r_op r =? ASYNC_IO_OP_IN then EvIn mmio addr (r_width r) else EvOut mmio addr (r_width r) (cut (r_width r) (r_value r)).

(** What the hardware has seen, in order: the accesses for requests, and those that the
    functions registered by drivers, the hooks, make for themselves. *)
Inductive access := Req (e : io_event) | Own (e : io_event).
Definition req_event (a : access) : option io_event := match a with Req e => Some e | Own _ => None end.

(** The locks are free, as with one processor.  Memory and callbacks do not reach the
    hardware and leave the queue alone.  Hooks leave the queue alone too, but make
    accesses of their own and report any number of things done below 2^32.

    [pending] is the work the hooks still have.  With [settling], a hook that reports work
    has less left than before; this is true of the hooks that empty a buffer (uart.c,
    lyrterm.c, console.c), not of the one of netdev.c. *)
Class AsyncLaws (W : Type) `{AsyncEnv W} := {
  log : W -> list access;
  pending : W -> nat;
  settling : bool;
  grows (w w' : W) (l : list access) := log w' = log w ++ l /\ (pending w' <= pending w)%nat;
  law_port_in : forall p n w, grows w (port_in p n w).2 [Req (EvIn false p n)];
  law_port_out : forall p n v w, grows w (port_out p n v w) [Req (EvOut false p n v)];
  law_mmio_in : forall a n w, grows w (mmio_in a n w).2 [Req (EvIn true a n)];
  law_mmio_out : forall a n v w, grows w (mmio_out a n v w) [Req (EvOut true a n v)];
  law_store : forall p n v w, grows w (store p n v w) [];
  law_lock : forall l w, exists w', try_acquire l w = (true, w') /\ grows w w' [];
  law_callback : forall c r x s, exists w, callback c r x s = Ret tt (set_world s w) /\ grows (world s) w [];
  law_hook : forall h b x s, exists n own w, 0 <= n < 2 ^ 32 /\ hook h b x s = Ret n (set_world s w) /\
    grows (world s) w (map Own own) /\ (settling = true -> n <> 0 -> (pending w < pending (world s))%nat) }.

Section props.
Context {W : Type} {env : AsyncEnv W} {laws : AsyncLaws W}.

(** The accesses for requests. *)
Definition reqs (w : W) : list io_event := omap req_event (log w).
Lemma grows_req w w' l : grows w w' l -> reqs w' = reqs w ++ omap req_event l /\ (pending w' <= pending w)%nat.
Proof. intros [E Hp]. split; [|done]. unfold reqs. by rewrite E, omap_app. Qed.
Lemma omap_own l : omap req_event (map Own l) = [].
Proof. by induction l. Qed.

(** The ring holds the requests [qs]. *)
Record ring (s : async W) (qs : list async_io_request) : Prop := {
  ri_len : length (async_io_queue s) = 512%nat;
  ri_pos : 0 <= async_io_rpos s < 512;
  ri_fit : (length qs < 512)%nat;
  ri_end : async_io_wpos s = (async_io_rpos s + Z.of_nat (length qs)) `mod` 512;
  ri_at : forall i r, qs !! i = Some r -> async_io_queue s !! Z.to_nat ((async_io_rpos s + Z.of_nat i) `mod` 512) = Some r;
  ri_valid : Forall (fun r => async_io_validate r = ASYNC_IO_OK) qs;
  ri_hooks : (length (async_io_hooks s) <= ASYNC_IO_DRAIN_HOOKS)%nat }.

Lemma ring_world s qs w : ring s qs -> ring (set_world s w) qs.
Proof. intros [H1 H2 H3 H4 H5 H6 H7]. by split. Qed.
Lemma ring_empty s qs : ring s qs -> async_io_empty s = bool_decide (qs = []).
Proof.
  intros [_ Hr Hf He _ _ _]. unfold async_io_empty. destruct qs as [|r qs]; cbn [length] in *; apply Bool.eq_iff_eq_true;
    rewrite Z.eqb_eq, bool_decide_eq_true, He; [|split; [|done]]; [split; [done|intros _; zdiv]|zdiv].
Qed.
Lemma ring_full s qs : ring s qs -> async_io_full s = bool_decide (length qs = 511%nat).
Proof.
  intros [_ Hr Hf He _ _ _]. unfold async_io_full, ASYNC_IO_QUEUE_SIZE. apply Bool.eq_iff_eq_true.
  rewrite Z.eqb_eq, bool_decide_eq_true, He. zdiv.
Qed.
Lemma ring_push s qs r :
  ring s qs -> length qs <> 511%nat -> async_io_validate r = ASYNC_IO_OK ->
  ring (set_ring s (<[Z.to_nat (async_io_wpos s) := r]> (async_io_queue s)) (async_io_rpos s)
          ((async_io_wpos s + 1) `mod` ASYNC_IO_QUEUE_SIZE)) (qs ++ [r]).
Proof.
  intros [Hl Hr Hf He Ha Hv Hh] Hn Hok. split; cbn; rewrite ?length_insert, ?length_app; cbn [length]; try done; try lia.
  - unfold ASYNC_IO_QUEUE_SIZE. rewrite He. zdiv.
  - intros i x Hi. destruct (decide (i < length qs)%nat) as [Hlt|Hge].
    + rewrite lookup_app_l in Hi by done. rewrite list_lookup_insert_ne; [by apply Ha|]. rewrite He. zdiv.
    + rewrite lookup_app_r in Hi by lia. destruct (i - length qs)%nat eqn:Hd; [|done]. cbn in Hi. injection Hi as <-.
      replace i with (length qs) by lia. rewrite <- He. apply list_lookup_insert_eq. rewrite He. zdiv.
  - apply Forall_app_2; [done|]. by constructor.
Qed.
Lemma ring_pop s r qs :
  ring s (r :: qs) ->
  nth (Z.to_nat (async_io_rpos s)) (async_io_queue s) no_request = r /\ async_io_validate r = ASYNC_IO_OK /\
  ring (set_ring s (async_io_queue s) ((async_io_rpos s + 1) `mod` ASYNC_IO_QUEUE_SIZE) (async_io_wpos s)) qs.
Proof.
  intros [Hl Hr Hf He Ha Hv Hh]. apply Forall_cons in Hv as [Hok Hv]. cbn [length] in *. unfold ASYNC_IO_QUEUE_SIZE. split; [|split; [done|]].
  - pose proof (Ha 0%nat r eq_refl) as H0. cbn in H0. rewrite Z.add_0_r, Z.mod_small in H0 by lia. by rewrite nth_lookup, H0.
  - split; cbn; try done; try lia.
    + zdiv.
    + rewrite He. zdiv.
    + intros i x Hi. rewrite <- (Ha (S i) x Hi). f_equal. f_equal. zdiv.
Qed.

(** ** Carrying out a request *)

Definition events (r : async_io_request) : list io_event := if async_io_validate r =? ASYNC_IO_OK then [event_of r] else [].
(** Only the world has changed, and the hardware has seen [l] more for requests. *)
Definition saw (s s' : async W) (l : list io_event) : Prop := exists w, s' = set_world s w /\
  reqs w = reqs (world s) ++ l /\ (pending w <= pending (world s))%nat.

Lemma saw_refl s : saw s s [].
Proof. exists (world s). split; [by destruct s|]. by rewrite app_nil_r. Qed.
Lemma saw_trans s1 s2 s3 l m : saw s1 s2 l -> saw s2 s3 m -> saw s1 s3 (l ++ m).
Proof.
  intros (w1 & -> & H1 & P1) (w2 & -> & H2 & P2). exists w2. split; [done|]. rewrite H2. cbn in *. rewrite H1, app_assoc. split; [done|lia].
Qed.
(** A step that returns [a] and that the hardware sees as [l]. *)
Definition does {B} (m : M (async W) B) (s : async W) (a : B) (l : list io_event) : Prop := exists s', m s = Ret a s' /\ saw s s' l.
Lemma does_bind {B C} (m : M (async W) B) (k : B -> M (async W) C) s a c l n :
  does m s a l -> (forall s', does (k a) s' c n) -> does (bind m k) s c (l ++ n).
Proof.
  intros (s1 & Hr & H1) Hk. destruct (Hk s1) as (s2 & Hr2 & H2). exists s2. rewrite (bind_ret _ _ _ _ _ Hr). split; [done|].
  by eapply saw_trans.
Qed.
Lemma does_act f s l : (forall w, grows w (f w) l) -> does (act f) s tt (omap req_event l).
Proof. intros Hf. eexists. split; [done|]. eexists. split; [done|]. apply grows_req, Hf. Qed.
Lemma does_call {B} (f : W -> B * W) s l : (forall w, grows w (f w).2 l) -> does (call f) s (f (world s)).1 (omap req_event l).
Proof. intros Hf. unfold does, call. specialize (Hf (world s)). destruct (f (world s)) as [b w]. eexists. split; [done|]. eexists. split; [done|]. by apply grows_req. Qed.
Lemma does_ret {B} (a : B) s : does (ret a) s a [].
Proof. exists s. split; [done|apply saw_refl]. Qed.
Lemma does_when b m s : (b = true -> does m s tt []) -> does (when b m) s tt [].
Proof. destruct b; [auto|]. intros _. apply does_ret. Qed.
Lemma does_store p n v s : does (act (store p n v)) s tt [].
Proof. apply (does_act _ _ []). apply law_store. Qed.

Lemma valid_cases r :
  async_io_validate r = ASYNC_IO_OK ->
  async_io_width_valid (r_width r) = true /\ (r_op r = ASYNC_IO_OP_IN \/ r_op r = ASYNC_IO_OP_OUT) /\
  (r_target r = ASYNC_IO_TARGET_PORT \/ r_target r = ASYNC_IO_TARGET_MMIO).
Proof.
  unfold async_io_validate. destruct (async_io_width_valid _); [|done]. cbn [negb].
  destruct (Z.eqb_spec (r_op r) ASYNC_IO_OP_IN), (Z.eqb_spec (r_op r) ASYNC_IO_OP_OUT); cbn [negb andb]; try done;
    destruct (Z.eqb_spec (r_target r) ASYNC_IO_TARGET_PORT), (Z.eqb_spec (r_target r) ASYNC_IO_TARGET_MMIO); cbn [negb andb]; try done; auto.
Qed.
Lemma execute_access r s :
  async_io_validate r = ASYNC_IO_OK ->
  does (if r_op r =? ASYNC_IO_OP_IN then
          let* v := if r_target r =? ASYNC_IO_TARGET_PORT then async_io_read_port (r_port r) (r_width r)
                    else async_io_read_mmio (r_address r) (r_width r) in
          async_io_store_result r v
        else if r_target r =? ASYNC_IO_TARGET_PORT then async_io_write_port (r_port r) (r_width r) (r_value r)
        else async_io_write_mmio (r_address r) (r_width r) (r_value r)) s tt [event_of r].
Proof.
  intros (Hw & Ho & Ht)%valid_cases. unfold event_of.
  unfold async_io_read_port, async_io_read_mmio, async_io_write_port, async_io_write_mmio, async_io_store_result. rewrite Hw. cbn [when].
  destruct Ho as [-> | ->], Ht as [-> | ->]; cbn [Z.eqb ASYNC_IO_OP_IN ASYNC_IO_OP_OUT ASYNC_IO_TARGET_PORT ASYNC_IO_TARGET_MMIO negb].
  - refine (does_bind _ _ _ _ _ [_] [] _ _); [apply (does_call _ _ [Req _]); intros; apply law_port_in|intros; apply does_store].
  - refine (does_bind _ _ _ _ _ [_] [] _ _); [apply (does_call _ _ [Req _]); intros; apply law_mmio_in|intros; apply does_store].
  - apply (does_act _ _ [Req _]), law_port_out.
  - apply (does_act _ _ [Req _]), law_mmio_out.
Qed.
Lemma execute_does r s : does (async_io_execute r) s (async_io_validate r) (events r).
Proof.
  unfold async_io_execute. cbv zeta. rewrite <- (app_nil_r (events r)). eapply does_bind.
  - unfold events. destruct (Z.eqb_spec (async_io_validate r) ASYNC_IO_OK) as [Hok|]; cbn [when]; [by apply execute_access|apply does_ret].
  - intros s1. refine (does_bind _ _ _ _ _ [] [] _ _); [apply does_when; intros; apply does_store|].
    intros s2. refine (does_bind _ _ _ _ _ [] [] _ _); [apply does_when; intros; apply does_store|].
    intros s3. refine (does_bind _ _ _ _ _ [] [] _ _); [|intros; apply does_ret].
    apply does_when. intros _. destruct (law_callback (r_complete r) r (r_context r) s3) as (w & Hc & Hl%grows_req).
    eexists. split; [done|]. by exists w.
Qed.

(** ** Draining *)

Lemma async_modify {B} g (k : unit -> M (async W) B) s : bind (modify g) k s = k tt (g s).
Proof. done. Qed.

(** After a step: the requests waiting, the nesting of drains, the hooks and their work, and
    what the hardware saw for requests. *)
Definition left (s s' : async W) (qs : list async_io_request) (l : list io_event) : Prop :=
  ring s' qs /\ async_io_drain_depth s' = async_io_drain_depth s /\ async_io_hooks s' = async_io_hooks s /\
  (pending (world s') <= pending (world s))%nat /\ reqs (world s') = reqs (world s) ++ l.
Lemma saw_left s s' qs l : ring s qs -> saw s s' l -> left s s' qs l.
Proof. intros Hr (w & -> & Hl & Hp). split; [by apply ring_world|done]. Qed.
Lemma left_trans s1 s2 s3 qs ps l m : left s1 s2 qs l -> left s2 s3 ps m -> left s1 s3 ps (l ++ m).
Proof.
  intros (_ & H2 & H3 & H4 & H5) (G1 & G2 & G3 & G4 & G5). split; [done|]. split; [congruence|]. split; [congruence|].
  split; [lia|]. by rewrite G5, H5, app_assoc.
Qed.

Lemma lock_ret l s qs : ring s qs -> exists s', call (try_acquire l) s = Ret true s' /\ left s s' qs [].
Proof.
  intros Hr. unfold call. destruct (law_lock l (world s)) as (w & -> & Hl%grows_req). eexists. split; [done|].
  apply saw_left; [done|]. by exists w.
Qed.

(** How many of [len] requests a drain with budget [b] carries out when [d] are done. *)
Definition share (b d len : Z) : Z := if b =? 0 then len else Z.min len (Z.max 0 (b - d)).
Lemma drain_loop_ret fuel s qs b d :
  ring s qs -> 0 <= b -> 0 <= d -> (length qs < fuel)%nat ->
  exists s', drain_loop fuel b d s = Ret (d + share b d (Z.of_nat (length qs))) s' /\
    left s s' (drop (Z.to_nat (share b d (Z.of_nat (length qs)))) qs) (map event_of (take (Z.to_nat (share b d (Z.of_nat (length qs)))) qs)).
Proof.
  revert s qs d. induction fuel as [|fuel IH]; intros s qs d Hr Hb Hd Hf; [lia|]. cbn [drain_loop].
  destruct ((b =? 0) || (d <? b)) eqn:Hc; cbn [negb].
  2:{ apply orb_false_iff in Hc as [Hc1 Hc2]. bools.
      assert (share b d (Z.of_nat (length qs)) = 0) as ->. { unfold share. rewrite (proj2 (Z.eqb_neq b 0)) by done. lia. }
      exists s. rewrite Z.add_0_r. split; [done|]. rewrite drop_0, take_0. apply saw_left; [done|apply saw_refl]. }
  destruct (lock_ret QUEUE_LOCK s qs Hr) as (s1 & Hl & Hleft1). rewrite (bind_ret _ _ _ _ _ Hl). cbn [negb].
  pose proof Hleft1 as (Hr1 & _). rewrite (bind_ret (gets _) _ s1 _ s1 eq_refl), (ring_empty _ _ Hr1).
  destruct qs as [|r qs]; [rewrite bool_decide_eq_true_2 by done|rewrite bool_decide_eq_false_2 by done].
  { assert (share b d 0 = 0) as H0 by (unfold share; destruct (b =? 0); lia). cbn [length] in *. change (Z.of_nat 0) with 0. rewrite H0.
    exists s1. rewrite Z.add_0_r. done. }
  destruct (ring_pop s1 r qs Hr1) as (Hnth & Hok & Hr2). rewrite (bind_ret (gets _) _ s1 _ s1 eq_refl), Hnth.
  rewrite async_modify. set (s2 := set_ring _ _ _ _) in *.
  destruct (execute_does r s2) as (s3 & Hex & Hsaw). rewrite (bind_ret _ _ _ _ _ Hex).
  pose proof (saw_left s2 s3 qs _ Hr2 Hsaw) as Hleft3.
  destruct (IH s3 qs (d + 1)) as (s4 & Hr4 & Hleft4); [apply Hleft3|done|lia|cbn in Hf; lia|].
  assert (Hsh : share b d (Z.of_nat (length (r :: qs))) = 1 + share b (d + 1) (Z.of_nat (length qs))).
  { unfold share. cbn [length]. apply orb_true_iff in Hc. destruct (Z.eqb_spec b 0); [lia|]. destruct Hc as [Hc|Hc]; blia. }
  assert (Hs0 : 0 <= share b (d + 1) (Z.of_nat (length qs))) by (unfold share; destruct (b =? 0); lia).
  rewrite Hsh. replace (Z.to_nat (1 + _)) with (S (Z.to_nat (share b (d + 1) (Z.of_nat (length qs))))) by lia. cbn [drop take map].
  exists s4. rewrite Hr4. split; [f_equal; lia|].
  change (?e :: ?l) with ([] ++ [e] ++ l). eapply left_trans; [exact Hleft1|]. unfold events in Hleft3. rewrite Hok in Hleft3.
  eapply left_trans; [|exact Hleft4]. destruct Hleft3 as (H1 & H2 & H3). split; [exact H1|]. split; [exact H2|exact H3].
Qed.
(** What the hooks report, [h]: below 2^32 each, nothing without hooks, and work that
    is done is no longer pending. *)
Definition reported (l : list (Z * Z)) (s s' : async W) (h : Z) : Prop :=
  0 <= h <= 2 ^ 32 * Z.of_nat (length l) /\ (Forall (fun e => e.1 = 0) l -> h = 0) /\
  (settling = true -> h <> 0 -> (pending (world s') < pending (world s))%nat).
Lemma reported_none l s : reported l s s 0.
Proof. split; [lia|]. by split. Qed.

Lemma hooks_loop_ret l b d s qs :
  ring s qs -> 0 <= d -> d + 2 ^ 32 * Z.of_nat (length l) < 2 ^ 64 ->
  exists s' h, hooks_loop l b d s = Ret (d + h) s' /\ left s s' qs [] /\ reported l s s' h.
Proof.
  revert d s. induction l as [|[h x] l IH]; intros d s Hr Hd Hb; cbn [hooks_loop length] in *.
  { exists s, 0. rewrite Z.add_0_r. split; [done|]. split; [apply saw_left; [done|apply saw_refl]|apply reported_none]. }
  destruct (Z.eqb_spec h 0) as [->|Hh].
  { destruct (IH d s Hr Hd ltac:(lia)) as (s' & k & E & Hl & Hk1 & Hk2 & Hk3). exists s', k. split; [done|]. split; [done|].
    split; [cbn [length]; lia|]. split; [|done]. intros (_ & Hall)%Forall_cons. by apply Hk2. }
  destruct (_ && _).
  { exists s, 0. rewrite Z.add_0_r. split; [done|]. split; [apply saw_left; [done|apply saw_refl]|apply reported_none]. }
  destruct (law_hook h (if b =? 0 then 0 else b - d) x s) as (n & own & w & Hn & Eh & Hg%grows_req & Hset).
  rewrite (bind_ret _ _ _ _ _ Eh), u64_small by lia. rewrite omap_own in Hg.
  destruct (IH (d + n) (set_world s w)) as (s' & k & E & Hl & Hk1 & Hk2 & Hk3); [by apply ring_world|lia|lia|].
  assert (Hw : left s (set_world s w) qs []) by (apply saw_left; [done|]; by exists w).
  exists s', (n + k). rewrite E, Z.add_assoc. split; [done|]. split; [exact (left_trans _ _ _ _ _ _ _ Hw Hl)|].
  split; [cbn [length]; lia|]. split; [by intros [? _]%Forall_cons|]. intros Hs Hne.
  destruct Hl as (_ & _ & _ & Hp & _). cbn in Hp, Hk3.
  destruct (decide (n = 0)) as [->|Hn0]; [specialize (Hk3 Hs ltac:(lia))|specialize (Hset Hs Hn0)]; destruct Hg; lia.
Qed.
Lemma drain_hooks_ret b s qs : ring s qs ->
  exists s' h, async_io_drain_hooks b s = Ret h s' /\ left s s' qs [] /\ reported (async_io_hooks s) s s' h.
Proof.
  intros Hr. unfold async_io_drain_hooks. destruct (lock_ret HOOK_LOCK s qs Hr) as (s1 & Hl & Hleft). rewrite (bind_ret _ _ _ _ _ Hl).
  cbn [negb]. rewrite (bind_ret (gets _) _ s1 _ s1 eq_refl). pose proof Hleft as (Hr1 & _ & Hh & Hp & _).
  pose proof (ri_hooks _ _ Hr1) as H8. unfold ASYNC_IO_DRAIN_HOOKS in H8.
  destruct (hooks_loop_ret (async_io_hooks s1) b 0 s1 qs Hr1) as (s2 & h & E & Hl2 & Hk1 & Hk2 & Hk3); [lia|lia|].
  exists s2, h. rewrite E. split; [done|]. split; [exact (left_trans _ _ _ _ _ _ _ Hleft Hl2)|]. rewrite <- Hh.
  split; [done|]. split; [done|]. intros Hs Hne. specialize (Hk3 Hs Hne). lia.
Qed.

Lemma ring_depth s qs d : ring s qs -> ring (set_depth s d) qs.
Proof. intros [H1 H2 H3 H4 H5 H6 H7]. by split. Qed.
Lemma drain_ret b s qs :
  let n := share b 0 (Z.of_nat (length qs)) in
  ring s qs -> async_io_drain_depth s = 0 -> 0 <= b ->
  exists s' h, async_io_drain b s = Ret (n + h) s' /\
    left s s' (drop (Z.to_nat n) qs) (map event_of (take (Z.to_nat n) qs)) /\
    reported (async_io_hooks s) s s' h /\ (0 < b <= n -> h = 0).
Proof.
  intros n Hr Hd Hb. unfold async_io_drain. rewrite async_modify. set (s0 := set_depth s (u32 (async_io_drain_depth s + 1))).
  pose proof (ring_depth _ _ (u32 (async_io_drain_depth s + 1)) Hr : ring s0 qs) as Hr0.
  assert (Hfu : (length qs < drain_fuel)%nat) by (pose proof (ri_fit _ _ Hr); unfold drain_fuel; lia).
  destruct (drain_loop_ret drain_fuel s0 qs b 0 Hr0 Hb ltac:(lia) Hfu) as (s1 & H1 & Hleft1). unfold async_io_drain_queue.
  rewrite (bind_ret _ _ _ _ _ H1), Z.add_0_l. fold n in Hleft1 |- *. cbv zeta.
  assert (Hn : 0 <= n < 512). { pose proof (ri_fit _ _ Hr). unfold n, share. destruct (b =? 0); lia. }
  assert (Hout : forall s2, left s1 s2 (drop (Z.to_nat n) qs) [] ->
    left s (set_depth s2 (u32 (async_io_drain_depth s2 - 1))) (drop (Z.to_nat n) qs) (map event_of (take (Z.to_nat n) qs))).
  { intros s2 Hleft2. destruct (left_trans _ _ _ _ _ _ _ Hleft1 Hleft2) as (G1 & G2 & G3 & G4 & G5).
    split; [by apply ring_depth|]. split; [cbn; rewrite G2; unfold s0; cbn; by rewrite Hd|]. split; [done|]. split; [done|].
    cbn. rewrite G5, app_nil_r. done. }
  destruct (negb (b =? 0) && (b <=? n)) eqn:Ec.
  - exists (set_depth s1 (u32 (async_io_drain_depth s1 - 1))), 0. rewrite Z.add_0_r. split; [done|].
    split; [apply Hout; apply saw_left; [apply Hleft1|apply saw_refl]|]. split; [|done].
    split; [lia|]. by split.
  - destruct (drain_hooks_ret (if b =? 0 then 0 else b - n) s1 _ (proj1 Hleft1)) as (s2 & h & H2 & Hleft2 & Hk1 & Hk2 & Hk3).
    rewrite (bind_ret _ _ _ _ _ H2). pose proof Hleft1 as (_ & _ & Hh & Hp & _). rewrite Hh in Hk1, Hk2.
    exists (set_depth s2 (u32 (async_io_drain_depth s2 - 1))), h.
    pose proof (ri_hooks _ _ Hr) as H8. unfold ASYNC_IO_DRAIN_HOOKS in H8. change (async_io_hooks s0) with (async_io_hooks s) in *.
    split; [|split; [by apply Hout|]].
    + cbn. unfold ret. f_equal. apply u64_small. lia.
    + split; [|intros; blia]. split; [done|]. split; [done|]. intros Hs Hne. specialize (Hk3 Hs Hne). cbn in *. lia.
Qed.

Lemma flush_ret fuel s qs :
  ring s qs -> async_io_drain_depth s = 0 -> settling = true -> (length qs + pending (world s) < fuel)%nat ->
  exists s', flush_loop fuel s = Ret tt s' /\ left s s' [] (map event_of qs).
Proof.
  revert s qs. induction fuel as [|fuel IH]; intros s qs Hr Hd Hset Hf; [lia|]. cbn [flush_loop].
  destruct (drain_ret 64 s qs Hr Hd ltac:(lia)) as (s1 & h & H1 & Hleft1 & (Hh & _ & Hk) & _). rewrite (bind_ret _ _ _ _ _ H1).
  set (n := share 64 0 _) in *. destruct (lock_ret QUEUE_LOCK s1 _ (proj1 Hleft1)) as (s2 & H2 & Hleft2). rewrite (bind_ret _ _ _ _ _ H2).
  pose proof (left_trans _ _ _ _ _ _ _ Hleft1 Hleft2) as Hleft. rewrite app_nil_r in Hleft.
  pose proof Hleft1 as (_ & _ & _ & Hp1 & _). pose proof Hleft2 as (_ & _ & _ & Hp2 & _).
  assert (Hn : n = Z.min (Z.of_nat (length qs)) 64) by (unfold n, share; cbn; lia). destruct (Z.eqb_spec (n + h) 0) as [H0|H0].
  - assert (qs = []) as -> by (destruct qs; [done|cbn in *; lia]). exists s2. split; [done|]. by rewrite drop_nil, take_nil in Hleft.
  - destruct (IH s2 (drop (Z.to_nat n) qs)) as (s3 & H3 & Hleft3);
      [apply Hleft|rewrite (proj1 (proj2 Hleft)); done|done| |].
    + rewrite length_drop. destruct (decide (h = 0)); [lia|]. specialize (Hk Hset ltac:(done)). lia.
    + exists s3. split; [done|]. rewrite <- (take_drop (Z.to_nat n) qs), map_app. by eapply left_trans.
Qed.

(** A hook that reports work for ever keeps a flush from returning, whatever the bound. *)
Lemma flush_stuck fuel s (Inv : async W -> Prop) :
  (forall s, Inv s -> exists n s1 b s2, async_io_drain 64 s = Ret n s1 /\ n <> 0 /\
     call (try_acquire QUEUE_LOCK) s1 = Ret b s2 /\ Inv s2) ->
  Inv s -> flush_loop fuel s = Diverge.
Proof.
  intros Hinv. revert s. induction fuel as [|fuel IH]; intros s Hs; [done|]. cbn [flush_loop].
  destruct (Hinv s Hs) as (n & s1 & b & s2 & E1 & Hn & E2 & Hs2). rewrite (bind_ret _ _ _ _ _ E1), (bind_ret _ _ _ _ _ E2).
  rewrite (proj2 (Z.eqb_neq n 0) Hn). by apply IH.
Qed.

(** ** Sequences of calls *)

Section calls.
Context (rounds : nat).

Inductive aop := ASubmit (r : async_io_request) | ADrain (budget : Z) | ASync (r : async_io_request).
Definition run_aop (op : aop) : M (async W) Z :=
  match op with
  | ASubmit r => async_io_submit r
  | ADrain b => async_io_drain b
  | ASync r => async_io_sync rounds r
  end.
Fixpoint run_aops (ops : list aop) : M (async W) (list Z) :=
  match ops with
  | [] => ret []
  | op :: ops => let* r := run_aop op in let* rs := run_aops ops in ret (r :: rs)
  end.

(** The same on a queue: what is queued afterwards, and what the hardware sees. *)
Definition budgeted (b : Z) (q : list async_io_request) : nat :=
  if b =? 0 then length q else Nat.min (length q) (Z.to_nat b).
Definition abs_aop (op : aop) (q : list async_io_request) : list async_io_request * list io_event :=
  match op with
  | ASubmit r =>
      if (async_io_validate r =? ASYNC_IO_OK) && bool_decide (length q < 511)%nat then (q ++ [r], []) else (q, [])
  | ADrain b => (drop (budgeted b q) q, map event_of (take (budgeted b q) q))
  | ASync r => ([], map event_of q ++ events r)
  end.
Fixpoint abs_aops (ops : list aop) (q : list async_io_request) : list async_io_request * list io_event :=
  match ops with
  | [] => (q, [])
  | op :: ops => let r := abs_aop op q in let rs := abs_aops ops r.1 in (rs.1, r.2 ++ rs.2)
  end.
(** The answer of a call; [hooks] says whether there are any. *)
Definition answer (hooks : bool) (op : aop) (q : list async_io_request) (a : Z) : Prop :=
  match op with
  | ASubmit r =>
      a = if negb (async_io_validate r =? ASYNC_IO_OK) then async_io_validate r
          else if bool_decide (length q < 511)%nat then ASYNC_IO_OK else ASYNC_IO_ERR_FULL
  | ADrain b =>
      Z.of_nat (budgeted b q) <= a /\ (hooks = false \/ 0 < b <= Z.of_nat (length q) -> a = Z.of_nat (budgeted b q))
  | ASync r => a = async_io_validate r
  end.
Fixpoint answers (hooks : bool) (ops : list aop) (q : list async_io_request) (rs : list Z) : Prop :=
  match ops, rs with
  | [], [] => True
  | op :: ops, a :: rs => answer hooks op q a /\ answers hooks ops (abs_aop op q).1 rs
  | _, _ => False
  end.
(** An access at once only when the hooks come to an end. *)
Definition aop_ok (op : aop) : Prop :=
  match op with ASubmit _ => True | ADrain b => 0 <= b | ASync _ => settling = true end.
Definition has_hooks (s : async W) : bool := existsb (fun e => negb (e.1 =? 0)) (async_io_hooks s).
Lemma no_hooks s : has_hooks s = false -> Forall (fun e => e.1 = 0) (async_io_hooks s).
Proof.
  unfold has_hooks. induction (async_io_hooks s) as [|e l IH]; cbn [existsb]; [constructor|].
  intros [He Hl]%orb_false_iff. apply negb_false_iff in He. bools. constructor; auto.
Qed.

Lemma aop_step s q op :
  ring s q -> async_io_drain_depth s = 0 -> aop_ok op -> (511 + pending (world s) < rounds)%nat ->
  exists a s', run_aop op s = Ret a s' /\ answer (has_hooks s) op q a /\ left s s' (abs_aop op q).1 (abs_aop op q).2.
Proof.
  intros Hr Hd Hop Hro. pose proof (ri_fit _ _ Hr) as Hfit. destruct op as [r|b|r]; cbn [run_aop abs_aop answer].
  - unfold async_io_submit. cbv zeta. destruct (Z.eqb_spec (async_io_validate r) ASYNC_IO_OK) as [Hok|Hok]; cbn [negb andb fst snd].
    2:{ eexists _, s. split; [done|]. split; [done|]. apply saw_left; [done|apply saw_refl]. }
    destruct (lock_ret QUEUE_LOCK s q Hr) as (s1 & H1 & Hleft1). rewrite (bind_ret _ _ _ _ _ H1). cbn [negb].
    rewrite (bind_ret (gets _) _ s1 _ s1 eq_refl), (ring_full _ _ (proj1 Hleft1)).
    case_bool_decide as Hfull; [rewrite bool_decide_false by lia|rewrite bool_decide_true by lia]; cbn [fst snd]; [by exists ASYNC_IO_ERR_FULL, s1|].
    eexists _, _. split; [done|]. split; [done|]. destruct Hleft1 as (Hr1 & H2 & H3). split; [by apply ring_push|done].
  - destruct (drain_ret b s q Hr Hd Hop) as (s' & h & H1 & Hleft & (Hh & Hk & _) & Hfull). cbn [fst snd].
    assert (share b 0 (Z.of_nat (length q)) = Z.of_nat (budgeted b q)) as En.
    { unfold share, budgeted. cbn in Hop. destruct (b =? 0); lia. }
    rewrite En, ?Nat2Z.id in *. eexists _, s'. split; [exact H1|]. split; [|done]. split; [lia|]. intros [Hno|Hb].
    + rewrite Hk by (by apply no_hooks). lia.
    + rewrite Hfull; [lia|]. unfold budgeted. rewrite (proj2 (Z.eqb_neq b 0)) by lia. lia.
  - unfold async_io_sync. rewrite (bind_ret (gets _) _ s _ s eq_refl), Hd. cbn [Z.eqb negb fst snd].
    destruct (flush_ret rounds s q Hr Hd Hop) as (s1 & H1 & Hleft1); [lia|].
    unfold async_io_flush. rewrite (bind_ret _ _ _ _ _ H1). destruct (execute_does r s1) as (s2 & H2 & Hsaw). eexists _, s2. split; [exact H2|].
    split; [done|]. eapply left_trans; [exact Hleft1|]. apply saw_left; [apply Hleft1|done].
Qed.

(** C18: device accesses keep their order.  With one processor, take any sequence of calls
    that queue requests, drain the queue or access a device at once; callbacks and hooks
    leave the queue alone, but the hooks access their devices and report any work they
    like.  The accesses made for requests are those of a plain queue of at most 511
    requests: bad and surplus requests are refused, a drain carries out the oldest
    requests up to its budget, an access at once carries out all that were queued before
    it first, and each access reaches the hardware exactly once and in order.  Every
    drain returns; its answer counts the requests and what the hooks report, and is the
    number of requests when there are no hooks or the budget is used up.  An access at
    once returns if the hooks run out of work, within as many rounds as there are
    requests and work. *)
Theorem async_io_in_order (s : async W) q ops :
  ring s q -> async_io_drain_depth s = 0 -> Forall aop_ok ops -> (511 + pending (world s) < rounds)%nat ->
  exists rs s', run_aops ops s = Ret rs s' /\ answers (has_hooks s) ops q rs /\ ring s' (abs_aops ops q).1 /\
    reqs (world s') = reqs (world s) ++ (abs_aops ops q).2.
Proof.
  intros Hr Hd Hops. revert s q Hr Hd. induction Hops as [|op ops Hop Hops IH]; intros s q Hr Hd Hro; cbn [run_aops abs_aops].
  { exists [], s. split; [done|]. split; [done|]. split; [done|by rewrite app_nil_r]. }
  destruct (aop_step s q op Hr Hd Hop Hro) as (a & s1 & H1 & Ha & Hleft). rewrite (bind_ret _ _ _ _ _ H1).
  destruct Hleft as (Hr1 & Hd1 & Hh1 & Hp1 & Hl1).
  destruct (IH s1 _ Hr1 ltac:(congruence) ltac:(lia)) as (rs & s2 & H2 & Has & Hr2 & Hl2). rewrite (bind_ret _ _ _ _ _ H2).
  exists (a :: rs), s2. split; [done|]. split; [split; [done|]|split; [done|]].
  - unfold has_hooks in *. by rewrite <- Hh1.
  - cbn [snd]. by rewrite Hl2, Hl1, app_assoc.
Qed.
End calls.
End props.
