(* ===== verification/AsyncExamples.v ===== *)
(** * Queued device access on a small machine *)

From stdpp Require Import base list gmap.
From Stdlib Require Import ZArith Lia.
From S2P Require Import Prelude AsyncIo AsyncProps.

Local Open Scope Z_scope.

(** What the hardware has seen, the memory, the next local variable, and the bytes a
    serial port still has to send.  A device answers with its address. *)
Record machine := mkMachine { m_log : list access; m_mem : gmap Z Z; m_next : Z; m_bytes : list Z }.
Definition see (a : access) (w : machine) : machine := mkMachine (m_log w ++ [a]) (m_mem w) (m_next w) (m_bytes w).

(** The hook of the serial port sends one byte. *)
Definition send_byte (s : async machine) : outcome (async machine) Z :=
  let w := world s in
  match m_bytes w with
  | [] => Ret 0 s
  | b :: bs => Ret 1 (set_world s (mkMachine (m_log w ++ [Own (EvOut false 1016 1 b)]) (m_mem w) (m_next w) bs))
  end.

#[export] Instance machine_env : AsyncEnv machine := {
  port_in p n w := (p, see (Req (EvIn false p n)) w);
  port_out p n v w := see (Req (EvOut false p n v)) w;
  mmio_in a n w := (a, see (Req (EvIn true a n)) w);
  mmio_out a n v w := see (Req (EvOut true a n v)) w;
  store p n v w := mkMachine (m_log w) (<[p := v]> (m_mem w)) (m_next w) (m_bytes w);
  load p n w := default 0 (m_mem w !! p);
  local w := (m_next w, mkMachine (m_log w) (m_mem w) (m_next w + 8) (m_bytes w));
  try_acquire l w := (true, w);
  callback c r x := ret tt;
  hook h b x := send_byte }.
#[export] Program Instance machine_laws : AsyncLaws machine :=
  { log := m_log; pending w := length (m_bytes w); settling := true }.
Solve Obligations with try (intros; split; simpl; [by rewrite ?app_nil_r|done]).
Next Obligation. intros l w. exists w. split; [done|]. split; [by rewrite app_nil_r|done]. Qed.
Next Obligation. intros c r x s. exists (world s). split; [by destruct s|]. split; [by rewrite app_nil_r|done]. Qed.
Next Obligation.
  intros h b x s. unfold hook, machine_env, send_byte. destruct (m_bytes (world s)) as [|y l] eqn:E.
  - exists 0, [], (world s). split; [lia|]. split; [by destruct s|]. split; [split; [by rewrite app_nil_r|by rewrite E]|by intros _ []].
  - exists 1, [EvOut false 1016 1 y]. eexists. split; [lia|]. split; [reflexivity|]. simpl.
    split; [split; [done|simpl; lia]|simpl; lia].
Qed.

Definition am_start : async machine :=
  mkAsync (replicate 512 no_request) 510 510 true 0 ((4096, 0) :: replicate 7 (0, 0)) (mkMachine [] ∅ 4096 [104; 105]).
Lemma am_ring : ring am_start [].
Proof. split; [done|cbn; lia|cbn; lia|done|done|done|cbn; unfold ASYNC_IO_DRAIN_HOOKS; lia]. Qed.

(** Requests around the end of the ring, one with a bad width; a drain of two, and an access
    at once. *)
Definition am_out (v : Z) : async_io_request := async_io_request_out 1016 1 v 0 0 0 0.
Definition am_ops : list aop :=
  [ASubmit (am_out 257); ASubmit (async_io_request_out 1016 3 0 0 0 0 0); ASubmit (am_out 2); ASubmit (am_out 3);
   ADrain 2; ASync (async_io_request_mmio_in 65536 4 8 0 0 0 0)].
Lemma am_ops_ok : Forall aop_ok am_ops.
Proof. by repeat constructor. Qed.

(** The requests' accesses, with those of the hook left out. *)
Lemma async_io_in_order_witness : exists rs s',
  run_aops 600 am_ops am_start = Ret rs s' /\ answers true am_ops [] rs /\ ring s' [] /\
  reqs (world s') = [EvOut false 1016 1 1; EvOut false 1016 1 2; EvOut false 1016 1 3; EvIn true 65536 4].
Proof.
  apply (async_io_in_order 600 am_start [] am_ops am_ring eq_refl am_ops_ok). apply Nat.ltb_lt. vm_compute. reflexivity.
Defined.

(** The same run, answers and log. *)
Example am_run : match run_aops 600 am_ops am_start with Ret rs s => Some (rs, m_log (world s)) | _ => None end =
  Some ([0; -2; 0; 0; 2; 0],
    [Req (EvOut false 1016 1 1); Req (EvOut false 1016 1 2); Req (EvOut false 1016 1 3); Own (EvOut false 1016 1 104);
     Own (EvOut false 1016 1 105); Req (EvIn true 65536 4)]).
Proof. vm_compute. reflexivity. Qed.

(** A hook that reports work with an empty queue: the drain says so. *)
Example am_hook_counts : match async_io_drain 3 am_start with Ret n _ => Some n | _ => None end = Some 1.
Proof. vm_compute. reflexivity. Qed.

(** A value read through the queue's own path. *)
Example am_read : match async_io_inw_sync 9 96 am_start with Ret v s => Some (v, m_log (world s)) | _ => None end =
  Some (96, [Own (EvOut false 1016 1 104); Own (EvOut false 1016 1 105); Req (EvIn false 96 2)]).
Proof. vm_compute. reflexivity. Qed.

(** ** A hook that always has work

    The hook of netdev.c reports 1 whenever a thread waits for a packet, whether or not one
    has come. *)
Module waiters.
#[local] Instance waiting_env : AsyncEnv machine := {
  port_in := port_in; port_out := port_out; mmio_in := mmio_in; mmio_out := mmio_out;
  store := store; load := load; local := local; try_acquire := try_acquire; callback := callback;
  hook h b x := ret 1 }.

(** an access at once does not return while a thread waits for the network: each drain of
    the flush before it reports the polling as work done, so the flush never ends, for any
    number of rounds. *)
Theorem sync_waits_for_waiters rounds : async_io_outb_sync (env := waiting_env) rounds 1016 65 am_start = Diverge.
Proof.
  unfold async_io_outb_sync, async_io_sync. rewrite (bind_ret (gets _) _ am_start 0 am_start eq_refl). cbn [Z.eqb negb].
  unfold async_io_flush, bind.
  rewrite (flush_stuck (env := waiting_env) rounds am_start (fun s => s = am_start)); [done| |done].
  intros s ->. eexists _, am_start, true, am_start. split; [vm_compute; reflexivity|]. split; [discriminate|]. by split.
Qed.
End waiters.
